(* ===== verification/_CoqProject ===== *)
-Q . S2P
Prelude.v
Bytes.v
Fat.v
Volume.v
Inode.v
InodeData.v
InodeGrow.v
InodeTable.v
File.v
Directory.v
CString.v
Filesys.v
DList.v
ListOps.v
ListSort.v
Bitmap.v
Hash.v
Arith.v
FixedPoint.v
CStdlib.v
Stdio.v
Intq.v
Serial.v
SerialSpec.v
Palloc.v
PallocInit.v
Malloc.v
MallocInv.v
MallocOps.v
MallocSpec.v
Words.v
Mmu.v
MmuInv.v
MmuWalk.v
MmuSpec.v
AddressSpace.v
Isolation.v
PageTables.v
UserMem.v
Vm.v
VmSpt.v
VmSwap.v
VmFrame.v
VmSpec.v
Access.v
Resident.v
OpenDirs.v
Desc.v
DescInv.v
DescOps.v
DescExit.v
DescSpec.v
Wait.v
WaitInv.v
WaitStep.v
WaitSpec.v
Exec.v
ExecArgs.v
ExecLoad.v
ExecImage.v
Syscall.v
OrderedSeq.v
Thread.v
Synch.v
Timer.v
Kernel.v
SchedInv.v
SchedSafe.v
SynchSafe.v
DonateSafe.v
KernelSafe.v
SchedSpec.v
FsExamples.v
DescExamples.v
VmExamples.v
ExecExamples.v
SyscallSpec.v
LibExamples.v
SchedExamples.v
