(* ===== verification/Prelude.v ===== *)
(** * Verification of the Pintos-KAIST kernel

    This library models parts of the kernel under src/pintos-kaist/ as pure
    functions and proves what makes them correct. This file is the prelude; the
    other files are listed here in the order in which they depend on each other.

    ** How the C code is modelled

    A C function that changes state is a computation [ST S A]: a function from a
    state to an [outcome], which is a result with a new state ([Done]), a failed
    ASSERT or PANIC ([Panic]), undefined behaviour such as an access through a
    null pointer or behind an array ([Undef]), or [NoFuel]. A loop is [loop]: it
    runs its body until that answers [inr], at most as often as its fuel says.
    Every theorem about a loop shows that its fuel is enough ([Done]), or that no
    fuel is ([NoFuel] for all [n]), so that the fuel never decides a result; it is
    taken from the size of the data that the loop walks over (the length of a
    table, the bytes of a transfer, the size of a memory). Machine integers are
    [Z]; [u32], [u64], [s32] write their wrap-around out, and [int_ok] makes
    signed overflow undefined. Pointers are [Z] with 0 for NULL. [wp m s Q] says
    that [m] run in [s] is [Done] and that [Q] holds of the result; each
    operation has a lemma of this form, and the properties are stated about the
    runs themselves.

    ** The file system (compiled with EFILESYS)

    - Bytes.v: little-endian words and byte strings.
    - Fat.v: the file allocation table of filesys/fat.c with its next-fit
      allocator; chains, what allocation and release do to them, and where they
      go wrong (a full table, a short chain, the root directory, the last entry).
    - Volume.v: the sectors of devices/disk.c, and the boot record and table on
      disk; the table survives a shutdown and a boot.
    - Inode.v: the data and operations of filesys/inode.c. InodeData.v: the
      contents of a file as a byte string over its chain, and the transfer loops.
      InodeGrow.v: growth, inode_read_at, inode_write_at. InodeTable.v: the table
      of open inodes, inode_open, inode_close and the write denials.
    - File.v: the open files of filesys/file.c, as a heap of file objects that
      share inodes; a sequence of operations keeps the denials in step.
    - Directory.v: directories as arrays of slots in a file, refined to a map from
      names to sectors.
    - Filesys.v: paths and the entry points of filesys/filesys.c; sys_mkdir and
      sys_chdir of userprog/syscall.c, which walk paths in the same way.
    - FsExamples.v: a small volume, and each of these theorems used on it.

    A directory operation calls the inode's read and write, which walk the chain
    in the table and transfer sectors; the contracts are stated at each level
    ([dir_on], [file_on], [chain]) and the proof of a level uses the lemmas of the
    one below.

    ** The library

    - DList.v, ListOps.v, ListSort.v: lib/kernel/list.c as a heap of linked
      elements; every operation refines one on sequences, the merge sort is
      stable.
    - Bitmap.v: lib/kernel/bitmap.c on 64-bit words, refined to booleans.
    - Hash.v: lib/kernel/hash.c with resizing and iteration.
    - CString.v: lib/string.c on a byte-addressed memory.
    - Arith.v, FixedPoint.v: lib/arithmetic.c and threads/fixed-point.c.
    - CStdlib.v: lib/stdlib.c (atoi, heapsort, binary search).
    - Stdio.v: lib/stdio.c and the output of lib/kernel/console.c.
    - LibExamples.v: each of these theorems used on a concrete input.

    ** Devices

    - Intq.v: the circular buffers of devices/intq.c. A function ends a turn where
      its thread blocks, and is taken up there again ([place], [answer]).
    - Serial.v: devices/serial.c, devices/input.c and devices/kbd.c on a log of
      accesses to ports, whose reads are answered from a list. SerialSpec.v: all
      runs of these functions keep the two queues in order, and the interrupts of
      the device on while they are needed. An example; two readers that meet.

    ** Memory

    - Palloc.v: the page allocator of threads/palloc.c on its two bitmaps;
      PallocInit.v: palloc_init, which reads the memory map of the machine.
    - Malloc.v: the block allocator of threads/malloc.c. MallocInv.v: its
      invariant (arenas made of pages in use, blocks at most once in a free list,
      an arena never entirely free) and the blocks in use ([live]). MallocOps.v:
      malloc and free keep it. MallocSpec.v: what the users of the allocator rely
      on; absurd sizes; an example.

    palloc works on the bitmaps of Bitmap.v and clears pages with the memset of
    CString.v; malloc is proved from the lemmas of Palloc.v alone.

    - Words.v: 64-bit loads and stores. Mmu.v: the page tables of threads/mmu.c,
      in the memory behind the page pools, and paging_init of threads/init.c.
    - MmuInv.v: the tables below a root as a tree of pages in use ([node], [tree]),
      and what it means that it has [grown] by free pages or is [unchanged].
      MmuWalk.v: the three walks find an entry, or extend the tree, or give back
      what they have taken. MmuSpec.v: the mapping that the processor reads off
      the tree, and what a store to one entry does to it.
    - AddressSpace.v: the operations on one page table; Isolation.v: many page
      tables side by side ([processes]). PageTables.v: the properties and an
      example. The entries of the root that a process may change are a parameter
      ([top]); for processes it is the first one.

    ** Virtual memory

    - UserMem.v: what processes see of the frames behind their page tables
      ([user_byte]), and that taking, entering and filling a frame is seen by one
      process in one page only ([view_except], [alone]).
    - Vm.v: pages, frames, the supplemental page tables, lazy loading, the clock,
      the swap disk, copy-on-write, fork and mapped files (vm/vm.c, vm/anon.c,
      vm/file.c, vm/uninit.c). The objects that come from malloc are typed and kept by address.
    - VmSpt.v: a supplemental page table is a map from addresses to pages, kept in
      the hash table of Hash.v. VmSwap.v: slots of the swap disk; a page comes
      back from it as it went. VmFrame.v: a fresh frame for a page; what backs a
      page ([backing]) is what swap_in brings into its frame.
    - VmSpec.v: the properties of vm_try_handle_fault, case by case, and of
      vm_alloc_page_with_initializer. VmExamples.v: each of them used.

    The fault handler uses the page allocator (Palloc.v), one page table among
    others (Isolation.v), file reads (InodeGrow.v) and the bitmap of slots
    (Bitmap.v) through their contracts.

    ** Threads

    - OrderedSeq.v: what list_insert_ordered and list_sort compute on sequences;
      lib/kernel/list.c refines it, and the files below are written with it.
    - Thread.v: threads/thread.c, as functions on a record of the scheduler's
      variables ([sched]); Synch.v: threads/synch.c; Timer.v: devices/timer.c and
      the external interrupts of threads/interrupt.c; Kernel.v: the functions of
      threads composed: what a thread is still to do is a list of [frame]s, each a
      part of a function that begins where the thread may have waited; booting.
    - SchedInv.v: the invariant [wf]: every thread is where its status says, and a
      lock is free or has exactly one owner. SchedSafe.v, SynchSafe.v,
      DonateSafe.v: the operations of thread.c, of synch.c, and a turn of the
      donation loop of lock_acquire keep it. KernelSafe.v: the transition system
      ([step]: a thread goes on, calls a function, creates a thread, or the timer
      interrupts; or an object is initialised) keeps it.
    - SchedSpec.v: the properties: in any reachable state no ASSERT fails and
      nothing missing is read, but by thread_create of a thread that has ended;
      locks exclude each other; the highest priority runs; donations rise along
      chains of locks and fall with their release; sleepers wake when they are
      due.
    - SchedExamples.v: the invariant is decidable; the kernel boots into it; each of these theorems
      on a small state; what goes wrong in a few states outside of them.

    The timer may interrupt wherever one part follows another. lock_acquire and
    thread_create run with interrupts on: each turn of the donation loop is a
    part, so that locks may be released and threads end between two turns, and so
    is the end of thread_create, from where its thread may have run. The loop
    needs no fuel: a chain of waiting holders that goes round in a circle is a
    thread that goes on for ever. In the code malloc then gives out, and the
    kernel stores through a null pointer.
    thread_exit is modelled without the call of process_exit, which is in Desc.v,
    Wait.v and Exec.v.

    ** Processes

    - OpenDirs.v: open directories among the open files of File.v. Desc.v: the
      descriptor tables of all processes (userprog/syscall.c, and the parts of
      process_init, __do_fork, process_exec and process_exit in
      userprog/process.c that deal with files). DescInv.v: the invariant
      ([wf_desc]): an open file counts exactly the slots that lead to it in all
      tables, executables deny writes and are in no table. DescOps.v,
      DescExit.v (exit and fork): the calls keep it. DescSpec.v: the
      properties; DescExamples.v: each of them used, and what goes wrong for
      arguments that the calls do not check.
    - Wait.v: process_fork, __do_fork, process_wait and process_exit as a
      transition system whose turns end where another thread may run; the copy
      itself is one turn that may fail. WaitInv.v, WaitStep.v: its invariant
      ([wf_procs]). WaitSpec.v: a child outlives its parent's interest in it, the
      status arrives once, nobody waits for ever for a child whose descendants
      have stopped, and the races that the code has.

    - Access.v: page_fault and kill (userprog/exception.c), and loads and stores of
      the kernel through the addresses of a process, with the faults they cause.
      Exec.v: load, process_exec and what they call, and the memory part of
      __do_fork and process_exit (userprog/process.c). Resident.v: a page that is
      in a frame of its own, and stores to it. ExecArgs.v: what push_args (a part of
      load) leaves at the top of the stack is argc and argv as the program reads
      them ([main_args]). ExecLoad.v: what load_segment and the
      loop over the headers make of a file ([segments], [image]). ExecImage.v: the
      property of the part of load behind the opening of its file (before that,
      load makes and activates a page table: [load] and [new_pml4] in Exec.v).
      ExecExamples.v: a small executable.

    - Syscall.v: syscall_handler, its checks of addresses and buffers, filesys_lock,
      and the calls (userprog/syscall.c). A call may end without a return
      ([ending]). Then lib/user/syscall.c, each function as the registers it loads,
      and what the kernel is to do for it ([serve]). SyscallSpec.v: the handler does
      exactly that; no call keeps filesys_lock, but create where it ends the
      process; both used on examples.

    The descriptors are proved over the contracts of File.v and Directory.v; the
    loops over the table have MAX_FD turns. In Wait.v a semaphore is its value.

    ** What is not modelled

    Malloc: its failure is an oracle in the volume and in a hash table, which are
    not run on the heap of Malloc.v; it does not happen in the scheduler, whose
    code does not survive it. The buckets of a hash table are sequences, and the
    memory of the old ones is not given back in the model of rehash. The locks of
    the allocators and of the write-backs of mapped files are left out, and the
    functions of the file system are modelled as they run in one thread;
    filesys_lock is in Syscall.v.

    The theorems about page faults and about load are for memory that suffices:
    vm_get_frame finds a free page. Eviction, fork of a memory and mapped files are
    modelled without theorems, but for the transfers of anonymous pages, because
    the code goes through the page table of the running process where it should
    through that of the owner. The loops of pml4_destroy and pml4_for_each, and
    process_exec and process_cleanup, are modelled without theorems, too.

    Left out are the ATA protocol of disk.c and the screen of vga.c, the registers
    that a switch and intr-stubs.S exchange, the processor's cache of page table
    entries, and the boot code. The invariant of the scheduler is for the priority
    scheduler; the advanced one (-mlfqs) is modelled, with its arithmetic proved,
    but its loops read freed threads (SchedExamples.v). *)
From stdpp Require Import base numbers list gmap.
From Stdlib Require Import ZArith Lia.

Open Scope Z_scope.

(** ** Outcomes of a C computation *)

Inductive outcome (A : Type) : Type :=
  | Done (a : A)      (** the code returns a value *)
  | Panic             (** an ASSERT fails, or PANIC / NOT_REACHED runs *)
  | Undef             (** undefined behaviour: NULL or out-of-bounds access *)
  | NoFuel.           (** the loop bound of the model is exhausted *)
Arguments Done {A} a.
Arguments Panic {A}.
Arguments Undef {A}.
Arguments NoFuel {A}.

#[export] Instance outcome_ret : MRet outcome := @Done.
#[export] Instance outcome_bind : MBind outcome := λ A B f m,
  match m with Done a => f a | Panic => Panic | Undef => Undef | NoFuel => NoFuel end.

(** ** State-passing computations *)

Definition ST (S A : Type) : Type := S → outcome (A * S).
#[export] Instance st_ret S : MRet (ST S) := λ A a s, Done (a, s).
#[export] Instance st_bind S : MBind (ST S) := λ A B f m s,
  match m s with
  | Done (a, s') => f a s'
  | Panic => Panic | Undef => Undef | NoFuel => NoFuel
  end.

Section prims.
Context {S : Type}.
Definition get_st : ST S S := λ s, Done (s, s).
Definition gets {A} (f : S → A) : ST S A := λ s, Done (f s, s).
Definition modify (f : S → S) : ST S unit := λ s, Done (tt, f s).
Definition panic {A} : ST S A := λ _, Panic.
Definition undef {A} : ST S A := λ _, Undef.
(** ASSERT (b) *)
Definition assert_st (b : bool) : ST S unit := λ s, if b then Done (tt, s) else Panic.
(** an access that is undefined behaviour when there is no object *)
Definition deref {A} (o : option A) : ST S A :=
  λ s, match o with Some a => Done (a, s) | None => Undef end.
Definition lift_out {A} (o : outcome A) : ST S A :=
  λ s, match o with
       | Done a => Done (a, s) | Panic => Panic | Undef => Undef | NoFuel => NoFuel
       end.
(** [loop n body a] runs [body] from [a] until it answers [inr]; at most [n] times. *)
Fixpoint loop {A B} (fuel : nat) (body : A → ST S (A + B)) (a : A) : ST S B :=
  match fuel with
  | O => λ _, NoFuel
  | Datatypes.S n =>
      r ← body a;
      match r with inl a' => loop n body a' | inr b => mret b end
  end.
End prims.

Lemma loop_S {S A B} n (body : A → ST S (A + B)) a :
  loop (Datatypes.S n) body a
  = (r ← body a; match r with inl a' => loop n body a' | inr b => mret b end).
Proof. done. Qed.
#[global] Opaque loop.

(** Runs a computation of a component inside a larger state. *)
Definition zoom {S T A} (get : T → S) (set : S → T → T) (m : ST S A) : ST T A :=
  λ t, match m (get t) with
       | Done (a, s') => Done (a, set s' t)
       | Panic => Panic | Undef => Undef | NoFuel => NoFuel
       end.

(** ** Total-correctness weakest preconditions *)

Definition wp {S A} (m : ST S A) (s : S) (Q : A → S → Prop) : Prop :=
  match m s with Done (a, s') => Q a s' | _ => False end.

Section wp.
Context {S : Type}.

Lemma wp_ret {A} (a : A) (s : S) Q : wp (mret a) s Q ↔ Q a s.
Proof. done. Qed.
Lemma wp_bind {A B} (m : ST S A) (k : A → ST S B) (s : S) Q :
  wp (m ≫= k) s Q ↔ wp m s (λ a s', wp (k a) s' Q).
Proof. unfold wp, mbind, st_bind. by destruct (m s) as [[]| | |]. Qed.
Lemma wp_get (s : S) Q : wp get_st s Q ↔ Q s s.
Proof. done. Qed.
Lemma wp_gets {A} (f : S → A) (s : S) Q : wp (gets f) s Q ↔ Q (f s) s.
Proof. done. Qed.
Lemma wp_modify (f : S → S) (s : S) Q : wp (modify f) s Q ↔ Q tt (f s).
Proof. done. Qed.
Lemma wp_assert b (s : S) Q : wp (assert_st b) s Q ↔ b = true ∧ Q tt s.
Proof. unfold wp, assert_st. destruct b; intuition congruence. Qed.
Lemma wp_deref {A} (o : option A) (s : S) Q :
  wp (deref o) s Q ↔ ∃ a, o = Some a ∧ Q a s.
Proof.
  unfold wp, deref. destruct o as [a|].
  - split; [eauto|]. by intros (a' & [= <-] & HQ).
  - split; [done|]. by intros (a' & [=] & _).
Qed.
Lemma wp_if {A} (b : bool) (m1 m2 : ST S A) (s : S) Q :
  wp (if b then m1 else m2) s Q ↔ if b then wp m1 s Q else wp m2 s Q.
Proof. by destruct b. Qed.
Lemma wp_mono {A} (m : ST S A) (s : S) (P Q : A → S → Prop) :
  wp m s P → (∀ a s', P a s' → Q a s') → wp m s Q.
Proof. unfold wp. destruct (m s) as [[]| | |]; eauto. Qed.
Lemma wp_done {A} (m : ST S A) (s : S) Q :
  wp m s Q ↔ ∃ a s', m s = Done (a, s') ∧ Q a s'.
Proof.
  unfold wp. split.
  - destruct (m s) as [[a s']| | |]; [eauto|done..].
  - by intros (a & s' & -> & HQ).
Qed.
Lemma wp_eq {A} (m : ST S A) (s : S) a s' Q : m s = Done (a, s') → Q a s' → wp m s Q.
Proof. unfold wp. by intros ->. Qed.
Lemma wp_and {A} (m : ST S A) (s : S) (P Q : A → S → Prop) :
  wp m s P → wp m s Q → wp m s (λ a s', P a s' ∧ Q a s').
Proof. unfold wp. destruct (m s) as [[]| | |]; tauto. Qed.

(** From a [wp] to the run that it describes. *)
Lemma wp_run {A} (m : ST S A) (s : S) Q :
  wp m s Q → ∃ a s', m s = Done (a, s') ∧ Q a s'.
Proof. apply wp_done. Qed.
Lemma wp_run_unit (m : ST S unit) (s : S) (Q : S → Prop) :
  wp m s (λ _ s', Q s') → ∃ s', m s = Done (tt, s') ∧ Q s'.
Proof. intros ([] & s' & H)%wp_done. eauto. Qed.
Lemma wp_run_eq {A} (m : ST S A) (s : S) a s0 :
  wp m s (λ b s', b = a ∧ s' = s0) → m s = Done (a, s0).
Proof. intros (? & ? & -> & -> & ->)%wp_done. done. Qed.
Lemma wp_run_val {A} (m : ST S A) (s : S) a (Q : S → Prop) :
  wp m s (λ b s', b = a ∧ Q s') → ∃ s', m s = Done (a, s') ∧ Q s'.
Proof. intros (? & s' & ? & -> & HQ)%wp_done. eauto. Qed.

(** The loop rule: an invariant indexed by a variant that the fuel bounds. *)
Lemma wp_loop {A B} (I : nat → A → S → Prop) (body : A → ST S (A + B))
    (Q : B → S → Prop) n fuel a s :
  (∀ n a s, I n a s →
     wp (body a) s (λ r s', match r with
                            | inl a' => ∃ n', (n' < n)%nat ∧ I n' a' s'
                            | inr b => Q b s'
                            end)) →
  I n a s → (n < fuel)%nat → wp (loop fuel body a) s Q.
Proof.
  intros Hstep. revert n a s.
  induction fuel as [|fuel IH]; intros n a s HI HV; [lia|].
  rewrite loop_S, wp_bind.
  eapply wp_mono; [apply (Hstep n), HI|].
  intros [a'|b] s'; simpl; [|done].
  intros (n' & Hn' & HI'). apply (IH n'); [done|lia].
Qed.

(** More fuel does not change a loop that ends. *)
Lemma loop_more {A B} (body : A → ST S (A + B)) n m a s b s' :
  (n ≤ m)%nat → loop n body a s = Done (b, s') → loop m body a s = Done (b, s').
Proof.
  revert m a s. induction n as [|n IH]; intros [|m] a s Hnm; [done|done|lia|].
  rewrite !loop_S. unfold mbind, st_bind.
  destruct (body a s) as [[[a'|b'] s'']| | |]; [|done..].
  apply IH. lia.
Qed.
Lemma wp_loop_more {A B} (body : A → ST S (A + B)) n m a s Q :
  (n ≤ m)%nat → wp (loop n body a) s Q → wp (loop m body a) s Q.
Proof.
  rewrite !wp_done. intros Hnm (b & s' & Hl & HQ). exists b, s'.
  split; [by eapply loop_more|done].
Qed.
End wp.

Lemma wp_zoom {S T A} (get : T → S) (set : S → T → T) (m : ST S A) t Q :
  wp (zoom get set m) t Q ↔ wp m (get t) (λ a s', Q a (set s' t)).
Proof. unfold wp, zoom. by destruct (m (get t)) as [[]| | |]. Qed.

(** One step of symbolic execution in a [wp] goal. *)
Ltac wp_step :=
  lazymatch goal with
  | |- wp (mbind _ _) _ _ => apply wp_bind
  | |- wp (mret _) _ _ => apply wp_ret
  | |- wp get_st _ _ => apply wp_get
  | |- wp (gets _) _ _ => apply wp_gets
  | |- wp (modify _) _ _ => apply wp_modify
  | |- wp (assert_st _) _ _ => apply wp_assert; split
  | |- wp (deref _) _ _ => apply wp_deref; eexists; split
  | |- wp (zoom _ _ _) _ _ => apply wp_zoom
  end.

(** All the steps that need no proof. *)
Ltac wp_pure :=
  repeat lazymatch goal with
  | |- wp (mbind _ _) _ _ => apply wp_bind
  | |- wp (mret _) _ _ => apply wp_ret
  | |- wp get_st _ _ => apply wp_get
  | |- wp (gets _) _ _ => apply wp_gets
  | |- wp (modify _) _ _ => apply wp_modify
  | |- wp (zoom _ _ _) _ _ => apply wp_zoom
  end.

(** ** Counted loops *)

Fixpoint for_st {S A B} (f : B → A → ST S A) (l : list B) (a : A) : ST S A :=
  match l with
  | [] => mret a
  | b :: l => a ← f b a; for_st f l a
  end.

Lemma wp_for_from {S A B} (I : list B → A → S → Prop) (f : B → A → ST S A) p l a s Q :
  (∀ q b r a s, p ++ l = q ++ b :: r → I q a s → wp (f b a) s (I (q ++ [b]))) →
  I p a s → (∀ a s, I (p ++ l) a s → Q a s) → wp (for_st f l a) s Q.
Proof.
  revert p a s. induction l as [|b l IH]; intros p a s Hstep HI HQ; simpl.
  - apply wp_ret, HQ. by rewrite app_nil_r.
  - apply wp_bind. eapply wp_mono; [by eapply Hstep|]. intros a' s' HI'.
    rewrite cons_middle, app_assoc in Hstep, HQ.
    by apply (IH (p ++ [b])).
Qed.

(** The rule for counted loops: an invariant of the part already done. *)
Lemma wp_for {S A B} (I : list B → A → S → Prop) (f : B → A → ST S A) l a s Q :
  (∀ p b r a s, l = p ++ b :: r → I p a s → wp (f b a) s (I (p ++ [b]))) →
  I [] a s → (∀ a s, I l a s → Q a s) → wp (for_st f l a) s Q.
Proof. apply (wp_for_from I f []). Qed.

(** [lia] with quotients and remainders *)
Ltac zdiv := Z.to_euclidean_division_equations; lia.

(** ** Machine integers *)

Definition u8 (x : Z) : Z := x mod 2 ^ 8.
Definition u16 (x : Z) : Z := x mod 2 ^ 16.
Definition u32 (x : Z) : Z := x mod 2 ^ 32.
Definition u64 (x : Z) : Z := x mod 2 ^ 64.
Definition s32 (x : Z) : Z := (x + 2 ^ 31) mod 2 ^ 32 - 2 ^ 31.
Definition s64 (x : Z) : Z := (x + 2 ^ 63) mod 2 ^ 64 - 2 ^ 63.

Lemma u32_small x : 0 <= x < 2 ^ 32 → u32 x = x.
Proof. apply Z.mod_small. Qed.
Lemma u32_range x : 0 <= u32 x < 2 ^ 32.
Proof. apply Z.mod_pos_bound. lia. Qed.
Lemma u64_small x : 0 <= x < 2 ^ 64 → u64 x = x.
Proof. apply Z.mod_small. Qed.
Lemma u64_range x : 0 <= u64 x < 2 ^ 64.
Proof. apply Z.mod_pos_bound. lia. Qed.
Lemma u8_range x : 0 <= u8 x < 2 ^ 8.
Proof. apply Z.mod_pos_bound. lia. Qed.
Lemma s32_small x : - 2 ^ 31 <= x < 2 ^ 31 → s32 x = x.
Proof. intros. unfold s32. rewrite Z.mod_small; lia. Qed.
Lemma s32_range x : - 2 ^ 31 <= s32 x < 2 ^ 31.
Proof. unfold s32. pose proof (Z.mod_pos_bound (x + 2 ^ 31) (2 ^ 32)). lia. Qed.
Lemma s64_small x : - 2 ^ 63 <= x < 2 ^ 63 → s64 x = x.
Proof. intros. unfold s64. rewrite Z.mod_small; lia. Qed.

(** Signed arithmetic is undefined when it leaves the range of [int]. *)
Definition int_ok {S} (x : Z) : ST S Z :=
  if (- 2 ^ 31 <=? x) && (x <? 2 ^ 31) then mret x else undef.

Lemma wp_int_ok {S} x (s : S) Q : - 2 ^ 31 <= x < 2 ^ 31 → Q x s → wp (int_ok x) s Q.
Proof.
  intros [H1 H2] HQ. unfold int_ok.
  rewrite (proj2 (Z.leb_le _ _)), (proj2 (Z.ltb_lt _ _)) by lia. simpl. by wp_step.
Qed.

(** ** Arrays indexed by machine integers *)

(** [a[i]] is defined only inside the array. *)
Definition zlookup {A} (l : list A) (i : Z) : option A :=
  if 0 <=? i then l !! Z.to_nat i else None.
Definition zinsert {A} (i : Z) (x : A) (l : list A) : list A := <[Z.to_nat i := x]> l.
Definition zlength {A} (l : list A) : Z := Z.of_nat (length l).

Section arrays.
Context {A : Type}.
Implicit Types (l : list A) (i j : Z) (x : A).

Lemma zlookup_nat l i : 0 <= i → zlookup l i = l !! Z.to_nat i.
Proof. unfold zlookup. intros. by rewrite (proj2 (Z.leb_le 0 i)). Qed.
Lemma zlookup_Some_range l i x : zlookup l i = Some x → 0 <= i < zlength l.
Proof.
  unfold zlookup, zlength. destruct (Z.leb_spec 0 i); [|done].
  intros Hl%lookup_lt_Some. lia.
Qed.
Lemma zlookup_is_Some l i : 0 <= i < zlength l → ∃ x, zlookup l i = Some x.
Proof.
  unfold zlength. intros. rewrite zlookup_nat by lia.
  apply lookup_lt_is_Some. lia.
Qed.
Lemma zlookup_None l i : zlookup l i = None → i < 0 ∨ zlength l <= i.
Proof.
  intros Hn. destruct (Z.le_decidable 0 i); [|lia].
  right. apply Z.nlt_ge. intros ?. destruct (zlookup_is_Some l i) as [x Hx]; [lia|].
  congruence.
Qed.
Lemma zlength_zinsert l i x : zlength (zinsert i x l) = zlength l.
Proof. unfold zlength, zinsert. by rewrite length_insert. Qed.
Lemma zlookup_zinsert l i x : 0 <= i < zlength l → zlookup (zinsert i x l) i = Some x.
Proof.
  unfold zinsert, zlength. intros. rewrite zlookup_nat by lia.
  apply list_lookup_insert_eq. lia.
Qed.
Lemma zlookup_zinsert_ne l i j x :
  0 <= i → i ≠ j → zlookup (zinsert i x l) j = zlookup l j.
Proof.
  unfold zinsert, zlookup. intros. destruct (Z.leb_spec 0 j); [|done].
  apply list_lookup_insert_ne. lia.
Qed.
Lemma zlookup_elem l i x : zlookup l i = Some x → x ∈ l.
Proof. unfold zlookup. case_match; [|done]. apply list_elem_of_lookup_2. Qed.
Lemma zlookup_replicate n x i :
  0 <= i < Z.of_nat n → zlookup (replicate n x) i = Some x.
Proof. intros. rewrite zlookup_nat by lia. apply lookup_replicate_2. lia. Qed.
End arrays.

(** DIV_ROUND_UP and ROUND_UP of lib/round.h, on values that do not overflow *)
Definition DIV_ROUND_UP (x step : Z) : Z := (x + step - 1) / step.

(** ** Counting the entries of a table *)

Definition count {A} (P : A → bool) (m : gmap Z A) : Z :=
  Z.of_nat (size (filter (λ kv, P (snd kv) = true) m)).

Section counting.
Context {A : Type} (P : A → bool).
Implicit Types (m : gmap Z A) (i : Z) (x : A).

Lemma count_insert m i x :
  count P (<[i := x]> m) = count P (delete i m) + (if P x then 1 else 0).
Proof.
  unfold count. destruct (P x) eqn:Hx.
  - rewrite map_filter_insert_True by done. rewrite map_filter_delete.
    rewrite <- insert_delete_eq, map_size_insert_None by apply lookup_delete_eq. lia.
  - rewrite map_filter_insert_False by (simpl; by rewrite Hx). lia.
Qed.
Lemma count_delete m i x :
  m !! i = Some x → count P m = count P (delete i m) + (if P x then 1 else 0).
Proof. intros Hx. rewrite <- (insert_id m i x Hx) at 1. apply count_insert. Qed.
Lemma count_fresh m i x :
  m !! i = None → count P (<[i := x]> m) = count P m + (if P x then 1 else 0).
Proof. intros Hn. by rewrite count_insert, delete_id. Qed.
Lemma count_nonneg m : 0 <= count P m.
Proof. unfold count. lia. Qed.
Lemma count_mono (Q : A → bool) m : (∀ x, P x = true → Q x = true) → count P m <= count Q m.
Proof.
  intros HPQ. unfold count. apply inj_le, map_subseteq_size, map_filter_subseteq_ext.
  intros i x _. apply HPQ.
Qed.
End counting.

(** ** Automation *)

Create HintDb pintos.
#[export] Hint Resolve u32_range u64_range u8_range s32_range count_nonneg : pintos.

(** ** Runs taken apart

    What a run that ends tells about its parts: the form of reasoning for the
    invariants of reachable states, where a call may also fail or block. *)

Lemma bind_inv {S A B} (m : ST S A) (f : A → ST S B) x b x' : (m ≫= f) x = Done (b, x') →
  ∃ a x1, m x = Done (a, x1) ∧ f a x1 = Done (b, x').
Proof. unfold mbind, st_bind. destruct (m x) as [[a x1]| | |]; [eauto|done..]. Qed.
Lemma bind_run {S A B} (m : ST S A) (f : A → ST S B) x a x1 : m x = Done (a, x1) → (m ≫= f) x = f a x1.
Proof. unfold mbind, st_bind. by intros ->. Qed.
Lemma assert_inv {S} b (x : S) u x' : assert_st b x = Done (u, x') → b = true ∧ x' = x.
Proof. unfold assert_st. destruct b; [|done]. by intros [= _ <-]. Qed.
Lemma deref_inv {S A} (o : option A) (x : S) a x' : deref o x = Done (a, x') → o = Some a ∧ x' = x.
Proof. unfold deref. destruct o; [|done]. by intros [= <- <-]. Qed.
(** The first step of a run. *)
Ltac run_step H :=
  let v := fresh "v" in let x := fresh "x" in let H1 := fresh "Hs" in let E := fresh "E" in
  apply bind_inv in H as (v & x & H1 & H);
  lazymatch type of H1 with
  | assert_st _ _ = _ => apply assert_inv in H1 as [E ->]
  | deref _ _ = _ => apply deref_inv in H1 as [E ->]
  | _ => first [injection H1 as <- <- | injection H1 as _ <- | idtac]
  end.
(** A step that is a call, to be inverted by its own lemma. *)
Ltac run_call H :=
  let v := fresh "v" in let x := fresh "x" in let H1 := fresh "Hs" in apply bind_inv in H as (v & x & H1 & H).

(** An invariant of the turns of a loop. *)
Lemma loop_inv {S A B} (I : A → S → Prop) (Q : B → S → Prop) (body : A → ST S (A + B)) n a x b x' :
  (∀ a x r x', I a x → body a x = Done (r, x') → match r with inl a' => I a' x' | inr b => Q b x' end) →
  I a x → loop n body a x = Done (b, x') → Q b x'.
Proof.
  intros Hb. revert a x. induction n as [|n IH]; intros a x HI H; [done|].
  rewrite loop_S in H. apply bind_inv in H as (r & x1 & H1 & H).
  specialize (Hb a x r x1 HI H1). destruct r as [a'|b']; [by apply (IH a' x1)|]. by injection H as <- <-.
Qed.
Lemma zoom_inv {S T A} (get : T → S) (set : S → T → T) (m : ST S A) t a t' : zoom get set m t = Done (a, t') →
  ∃ s', m (get t) = Done (a, s') ∧ t' = set s' t.
Proof. unfold zoom. destruct (m (get t)) as [[a1 s1]| | |]; [|done..]. intros [= <- <-]. eauto. Qed.
