(* ===== verification/Bytes.v ===== *)
(** * Byte strings

    Little-endian words, arrays of 32-bit words as bytes, and copies into a
    buffer. A byte is an integer in [0, 256). *)
From stdpp Require Import base numbers list.
From Stdlib Require Import ZArith Lia.
From S2P Require Import Prelude.
Open Scope Z_scope.

Definition is_byte (b : Z) : Prop := 0 <= b < 256.

(** ** Words *)

Fixpoint le_bytes (n : nat) (z : Z) : list Z :=
  match n with O => [] | S n => z mod 256 :: le_bytes n (z / 256) end.

Fixpoint le_val (l : list Z) : Z :=
  match l with [] => 0 | b :: l => b + 256 * le_val l end.

Lemma length_le_bytes n z : length (le_bytes n z) = n.
Proof. revert z. induction n; intros; simpl; [done|]. by f_equal. Qed.

Lemma le_bytes_byte n z : Forall is_byte (le_bytes n z).
Proof.
  revert z. induction n as [|n IH]; intros z; simpl; constructor; [|done].
  apply Z.mod_pos_bound. lia.
Qed.

Lemma le_val_bytes n z : le_val (le_bytes n z) = z mod 2 ^ (8 * Z.of_nat n).
Proof.
  revert z. induction n as [|n IH]; intros z; simpl le_bytes; simpl le_val.
  - by rewrite Z.mod_1_r.
  - rewrite IH. replace (8 * Z.of_nat (S n)) with (8 + 8 * Z.of_nat n) by lia.
    rewrite Z.pow_add_r by lia. change (2 ^ 8) with 256.
    rewrite Z.rem_mul_r; lia.
Qed.

Lemma le_bytes_val l : Forall is_byte l → le_bytes (length l) (le_val l) = l.
Proof.
  induction 1 as [|b l Hb _ IH]; simpl; [done|]. unfold is_byte in Hb.
  f_equal.
  - rewrite Z.mul_comm, Z.mod_add by lia. by apply Z.mod_small.
  - replace ((b + 256 * le_val l) / 256) with (le_val l); [exact IH|].
    rewrite Z.mul_comm, Z.div_add by lia. rewrite Z.div_small; lia.
Qed.

Lemma le_val_range l :
  Forall is_byte l → 0 <= le_val l < 2 ^ (8 * Z.of_nat (length l)).
Proof.
  intros Hl. rewrite <- (le_bytes_val l Hl), le_val_bytes, length_le_bytes.
  apply Z.mod_pos_bound. lia.
Qed.

Lemma le_val_u32 z : 0 <= z < 2 ^ 32 → le_val (le_bytes 4 z) = z.
Proof. intros. rewrite le_val_bytes. by apply Z.mod_small. Qed.

(** ** Arrays of 32-bit words *)

Definition words_bytes (ws : list Z) : list Z := concat (le_bytes 4 <$> ws).

Fixpoint bytes_words (n : nat) (l : list Z) : list Z :=
  match n with O => [] | S n => le_val (take 4 l) :: bytes_words n (drop 4 l) end.

Lemma length_words_bytes ws : length (words_bytes ws) = (4 * length ws)%nat.
Proof.
  unfold words_bytes. induction ws; [done|].
  rewrite fmap_cons. cbn [concat]. rewrite length_app, length_le_bytes, IHws. simpl. lia.
Qed.

Lemma bytes_words_bytes ws :
  Forall (λ w, 0 <= w < 2 ^ 32) ws → bytes_words (length ws) (words_bytes ws) = ws.
Proof.
  induction 1 as [|w ws Hw _ IH]; [done|]. unfold words_bytes in *.
  cbn [bytes_words length]. rewrite fmap_cons. cbn [concat].
  rewrite take_app_length' by (by rewrite length_le_bytes).
  rewrite drop_app_length' by (by rewrite length_le_bytes).
  by rewrite IH, le_val_u32.
Qed.

Lemma words_bytes_word ws rest i w :
  ws !! i = Some w →
  take 4 (drop (4 * i) (words_bytes ws ++ rest)) = le_bytes 4 w.
Proof.
  revert i. induction ws as [|w' ws IH]; intros [|i]; [done|done| |].
  - intros [= ->]. unfold words_bytes. rewrite fmap_cons. cbn [concat].
    rewrite drop_0, <- app_assoc. apply take_app_length'. by rewrite length_le_bytes.
  - intros Hi. unfold words_bytes in *. rewrite fmap_cons. cbn [concat].
    replace (4 * S i)%nat with (4 + 4 * i)%nat by lia.
    rewrite <- drop_drop, <- app_assoc, drop_app_length' by (by rewrite length_le_bytes).
    by apply IH.
Qed.

(** ** Copies into a buffer *)

(** memcpy (buf + off, data, |data|) *)
Definition splice (off : nat) (data buf : list Z) : list Z :=
  take off buf ++ data ++ drop (off + length data) buf.

Lemma length_splice off data buf :
  (off + length data ≤ length buf)%nat → length (splice off data buf) = length buf.
Proof. intros. unfold splice. rewrite !length_app, length_take, length_drop. lia. Qed.

Lemma take_splice off data buf n :
  (n ≤ off ≤ length buf)%nat → take n (splice off data buf) = take n buf.
Proof.
  intros. unfold splice. rewrite take_app_le by (rewrite length_take; lia).
  rewrite take_take. by rewrite Nat.min_l by lia.
Qed.

Lemma splice_take off data buf :
  (off + length data ≤ length buf)%nat →
  take (off + length data) (splice off data buf) = take off buf ++ data.
Proof.
  intros. unfold splice. rewrite app_assoc.
  apply take_app_length'. rewrite length_app, length_take. lia.
Qed.

Lemma lookup_splice_lt off data buf i :
  (i < off ≤ length buf)%nat → splice off data buf !! i = buf !! i.
Proof.
  intros. unfold splice. rewrite lookup_app_l by (rewrite length_take; lia).
  by rewrite lookup_take_lt by lia.
Qed.

Lemma lookup_splice_in off data buf i :
  (off ≤ i < off + length data)%nat → (off ≤ length buf)%nat →
  splice off data buf !! i = data !! (i - off)%nat.
Proof.
  intros. unfold splice. rewrite lookup_app_r by (rewrite length_take; lia).
  rewrite length_take, Nat.min_l by lia. by rewrite lookup_app_l by lia.
Qed.

Lemma lookup_splice_ge off data buf i :
  (off + length data ≤ i)%nat → (off ≤ length buf)%nat →
  splice off data buf !! i = buf !! i.
Proof.
  intros. unfold splice. rewrite lookup_app_r by (rewrite length_take; lia).
  rewrite length_take, Nat.min_l by lia. rewrite lookup_app_r by lia.
  rewrite lookup_drop. f_equal. lia.
Qed.

(** A copy in two parts. *)
Lemma splice_app off d1 d2 buf :
  (off + length d1 + length d2 ≤ length buf)%nat →
  splice off (d1 ++ d2) buf = splice (off + length d1) d2 (splice off d1 buf).
Proof.
  intros Hlen. apply list_eq. intros i.
  destruct (decide (i < off)%nat).
  { rewrite !lookup_splice_lt; [done|..]; rewrite ?length_splice by lia; lia. }
  destruct (decide (i < off + length d1)%nat).
  { rewrite lookup_splice_in by (rewrite ?length_app; lia).
    rewrite lookup_splice_lt by (rewrite ?length_splice by lia; lia).
    rewrite lookup_splice_in by lia. by rewrite lookup_app_l by lia. }
  destruct (decide (i < off + length d1 + length d2)%nat).
  { rewrite lookup_splice_in by (rewrite ?length_app; lia).
    rewrite lookup_splice_in by (rewrite ?length_splice by lia; lia).
    rewrite lookup_app_r by lia. f_equal. lia. }
  rewrite lookup_splice_ge by (rewrite ?length_app; lia).
  rewrite lookup_splice_ge by (rewrite ?length_splice by lia; lia).
  by rewrite lookup_splice_ge by lia.
Qed.

Lemma splice_nil off buf : splice off [] buf = buf.
Proof. unfold splice. simpl. rewrite Nat.add_0_r. apply take_drop. Qed.

(** What was written is read back. *)
Lemma splice_read off data buf :
  (off + length data ≤ length buf)%nat →
  take (length data) (drop off (splice off data buf)) = data.
Proof.
  intros. unfold splice. rewrite drop_app_length' by (rewrite length_take; lia).
  by apply take_app_length'.
Qed.

(** A copy that stays inside a prefix changes the prefix only. *)
Lemma take_splice_in off data buf n :
  (off + length data ≤ n ≤ length buf)%nat →
  take n (splice off data buf) = splice off data (take n buf).
Proof.
  intros. apply list_eq. intros i. destruct (decide (i < n)%nat).
  - rewrite lookup_take_lt by lia.
    destruct (decide (i < off)%nat).
    { rewrite !lookup_splice_lt by (rewrite ?length_take; lia). by rewrite lookup_take_lt by lia. }
    destruct (decide (i < off + length data)%nat).
    { by rewrite !lookup_splice_in by (rewrite ?length_take; lia). }
    rewrite !lookup_splice_ge by (rewrite ?length_take; lia). by rewrite lookup_take_lt by lia.
  - rewrite lookup_take_ge by lia. symmetry. apply lookup_ge_None_2.
    rewrite length_splice; rewrite length_take; lia.
Qed.

(** ** Blocks of one size *)

Section blocks.
Context (b : nat).
Implicit Types (bs : list (list Z)).

Lemma length_blocks bs :
  Forall (λ x, length x = b) bs → length (concat bs) = (b * length bs)%nat.
Proof. induction 1 as [|x bs Hx _ IH]; simpl; [lia|]. rewrite length_app. lia. Qed.

Lemma drop_blocks bs k o :
  Forall (λ x, length x = b) bs → drop (b * k + o) (concat bs) = drop o (concat (drop k bs)).
Proof.
  intros Hbs. revert k. induction Hbs as [|x bs Hx _ IH]; intros k.
  { destruct k; simpl; by rewrite !drop_nil. }
  destruct k as [|k]; [by rewrite Nat.mul_0_r|].
  replace (b * S k + o)%nat with (length x + (b * k + o))%nat by lia.
  simpl. by rewrite drop_app_add, IH.
Qed.

(** A range inside the [k]-th block. *)
Lemma blocks_read bs k o n x :
  Forall (λ x, length x = b) bs → bs !! k = Some x → (o + n ≤ b)%nat →
  take n (drop (b * k + o) (concat bs)) = take n (drop o x).
Proof.
  intros Hbs Hk Hn. rewrite drop_blocks by done. rewrite (drop_S _ _ _ Hk). simpl.
  pose proof (Forall_lookup_1 _ _ _ _ Hbs Hk) as Hx. simpl in Hx.
  rewrite drop_app_le by lia. apply take_app_le. rewrite length_drop. lia.
Qed.

Lemma blocks_write bs k o data x :
  Forall (λ x, length x = b) bs → bs !! k = Some x → (o + length data ≤ b)%nat →
  concat (<[k := splice o data x]> bs) = splice (b * k + o) data (concat bs).
Proof.
  intros Hbs. revert k. induction Hbs as [|y bs Hy Hbs IH]; intros [|k]; simpl; [done|done| |].
  - intros [= ->] Hn. rewrite Nat.mul_0_r. unfold splice. simpl.
    rewrite take_app_le by lia. rewrite drop_app_le by lia. by rewrite <- !app_assoc.
  - intros Hk Hn. rewrite IH by done. unfold splice.
    replace (b * S k + o)%nat with (length y + (b * k + o))%nat by lia.
    rewrite take_app_add.
    replace (length y + (b * k + o) + length data)%nat
      with (length y + (b * k + o + length data))%nat by lia.
    by rewrite drop_app_add, <- app_assoc.
Qed.

Lemma blocks_Forall_insert bs k y :
  Forall (λ x, length x = b) bs → length y = b → Forall (λ x, length x = b) (<[k := y]> bs).
Proof. intros. by apply Forall_insert. Qed.
End blocks.
