(* ===== verification/Fat.v ===== *)
(** * The cluster table (filesys/fat.c)

    The in-memory FAT as a record, the operations on cluster chains, their
    termination and the chains they build and release. *)
From stdpp Require Import base numbers list sets gmap.
From Stdlib Require Import ZArith Lia.
From S2P Require Import Prelude.
Open Scope Z_scope.

(** include/filesys/fat.h *)
Definition FAT_MAGIC : Z := 3946614784. (* 0xEB3C9000 *)
Definition EOChain : Z := 268435455.   (* 0x0FFFFFFF *)
Definition SECTORS_PER_CLUSTER : Z := 1.
Definition FAT_BOOT_SECTOR : Z := 0.
Definition ROOT_DIR_CLUSTER : Z := 1.

(** struct fat_boot *)
Record fat_boot := FatBoot {
  magic : Z;
  sectors_per_cluster : Z;
  total_sectors : Z;
  fat_start : Z;
  fat_sectors : Z;
  root_dir_cluster : Z;
}.

(** struct fat_fs; [fat] is the calloc'ed array, [] before it is allocated.
    [write_lock] is initialised and never taken by the code. *)
Record fat_fs := FatFs {
  bs : fat_boot;
  fat : list Z;
  fat_length : Z;
  data_start : Z;
  last_clst : Z;
}.

Definition set_bs b f := FatFs b (fat f) (fat_length f) (data_start f) (last_clst f).
Definition set_fat t f := FatFs (bs f) t (fat_length f) (data_start f) (last_clst f).
Definition set_last_clst c f := FatFs (bs f) (fat f) (fat_length f) (data_start f) c.

(** ** Operations *)

Definition fat_get (clst : Z) : ST fat_fs Z :=
  f ← get_st;
  deref (zlookup (fat f) clst).

Definition fat_put (clst val : Z) : ST fat_fs unit :=
  f ← get_st;
  _ ← deref (zlookup (fat f) clst);
  modify (set_fat (zinsert clst val (fat f))).

Definition cluster_to_sector (f : fat_fs) (clst : Z) : Z :=
  u32 (data_start f + (clst - 1)).

Definition sector_to_cluster (f : fat_fs) (sector : Z) : Z :=
  u32 ((sector - data_start f) + 1).

(** One turn of the [while (finding_clst != find_end)] loop. *)
Definition find_free_step (find_end finding_clst : Z) : ST fat_fs (Z + Z) :=
  if finding_clst =? find_end then mret (inr 0) else
  v ← fat_get finding_clst;
  if v =? 0 then mret (inr finding_clst) else
  len ← gets fat_length;
  let finding_clst := u32 (finding_clst + 1) in
  mret (inl (if finding_clst =? len then 2 else finding_clst)).

Definition find_free_cluster : ST fat_fs Z :=
  f ← get_st;
  let find_end := last_clst f in
  loop (S (length (fat f))) (find_free_step find_end) (u32 (find_end + 1)).

(** One turn of [while (clst != ROOT_DIR_CLUSTER && fat_get(clst) != EOChain)]. *)
Definition chain_end_step (clst : Z) : ST fat_fs (Z + Z) :=
  if clst =? ROOT_DIR_CLUSTER then mret (inr clst) else
  n ← fat_get clst;
  if n =? EOChain then mret (inr clst) else
  clst ← fat_get clst;
  mret (inl clst).

Definition fat_create_chain (clst : Z) : ST fat_fs Z :=
  f ← get_st;
  _ ← assert_st (clst <? fat_length f);
  new_clst ← find_free_cluster;
  if new_clst =? 0 then mret 0 else
  _ ← fat_put new_clst EOChain;
  _ ← modify (set_last_clst new_clst);
  if clst =? 0 then mret new_clst else
  clst ← loop (S (length (fat f))) chain_end_step clst;
  _ ← fat_put clst new_clst;
  mret new_clst.

(** One turn of [while (clst != EOChain)]. *)
Definition remove_step (clst : Z) : ST fat_fs (Z + unit) :=
  if clst =? EOChain then mret (inr tt) else
  next ← fat_get clst;
  _ ← fat_put clst 0;
  last ← gets last_clst;
  _ ← (if last =? clst then modify (set_last_clst 2) else mret tt);
  mret (inl next).

Definition fat_remove_chain (clst pclst : Z) : ST fat_fs unit :=
  f ← get_st;
  _ ← assert_st (clst <? fat_length f);
  _ ← (if negb (pclst =? 0) then fat_put pclst EOChain else mret tt);
  loop (S (length (fat f))) remove_step clst.

(** One turn of [while (prev != 0 && cnt > 0)]. *)
Definition allocate_step (pc : Z * Z) : ST fat_fs (Z * Z + Z * Z) :=
  let '(prev, cnt) := pc in
  if negb (prev =? 0) && (0 <? cnt) then
    prev ← fat_create_chain prev;
    mret (inl (prev, cnt - 1))
  else mret (inr (prev, cnt)).

(** [bool fat_allocate(size_t cnt, cluster_t *clusterp)]: the answer and what
    is written to [*clusterp], [None] when it is left alone. *)
Definition fat_allocate (cnt : Z) : ST fat_fs (bool * option Z) :=
  if cnt =? 0 then mret (true, None) else
  start ← fat_create_chain 0;
  pc ← loop (S (Z.to_nat cnt)) allocate_step (start, cnt - 1);
  if negb (snd pc =? 0) then
    _ ← fat_remove_chain start 0;
    mret (negb (start =? 0), None)
  else mret (negb (start =? 0), Some start).

Definition fat_release (clst : Z) : ST fat_fs unit := fat_remove_chain clst 0.

(** fat_boot_create, given disk_size(filesys_disk) *)
Definition fat_boot_create (disk_size : Z) : fat_fs → fat_fs :=
  set_bs {| magic := FAT_MAGIC;
            sectors_per_cluster := SECTORS_PER_CLUSTER;
            total_sectors := disk_size;
            fat_start := 1;
            fat_sectors :=
              u32 (u32 (disk_size - 1) / (512 / 4 * SECTORS_PER_CLUSTER + 1) + 1);
            root_dir_cluster := ROOT_DIR_CLUSTER |}.

Definition fat_fs_init (f : fat_fs) : fat_fs :=
  FatFs (bs f) (fat f)
    (u32 (u32 (fat_sectors (bs f) * 512) / (4 * SECTORS_PER_CLUSTER)))
    (u32 (fat_start (bs f) + fat_sectors (bs f)))
    (ROOT_DIR_CLUSTER + 1).

(** ** Chains *)

(** [chain t c l]: following the table [t] from [c] visits exactly [l] and
    then reads the end-of-chain mark. *)
Fixpoint chain (t : list Z) (c : Z) (l : list Z) : Prop :=
  match l with
  | [] => c = EOChain
  | x :: l' => c = x ∧ x ≠ EOChain ∧ ∃ n, zlookup t x = Some n ∧ chain t n l'
  end.

Definition is_free (f : fat_fs) (i : Z) : Prop := zlookup (fat f) i = Some 0.

(** The invariant of the table: the array has the announced length, the entry
    of cluster 0 is never used, and the rover is a cluster number. *)
Record wf_fat (f : fat_fs) : Prop := {
  wf_len : zlength (fat f) = fat_length f;
  wf_len_range : 3 <= fat_length f < EOChain;
  wf_last : 2 <= last_clst f < fat_length f;
  wf_zero : zlookup (fat f) 0 = Some 0;
}.

Section chain_facts.
Context (t : list Z).
Implicit Types (c x : Z) (l : list Z).

Lemma chain_det c l1 l2 : chain t c l1 → chain t c l2 → l1 = l2.
Proof.
  revert c l2. induction l1 as [|x l1 IH]; intros c [|y l2]; simpl; try done.
  - intros -> (-> & ? & _). done.
  - intros (-> & ? & _) ->. done.
  - intros (-> & _ & n & Hn & H1) (-> & _ & m & Hm & H2).
    simplify_eq. f_equal. eauto.
Qed.

Lemma chain_suffix c l1 x l2 : chain t c (l1 ++ x :: l2) → chain t x (x :: l2).
Proof.
  revert c. induction l1 as [|y l1 IH]; intros c; simpl.
  - intros Hc. pose proof Hc as (-> & _). exact Hc.
  - intros (-> & _ & n & _ & H). exact (IH _ H).
Qed.

Lemma chain_NoDup c l : chain t c l → NoDup l.
Proof.
  revert c. induction l as [|x l IH]; intros c H; [constructor|].
  pose proof H as (-> & _ & n & _ & Hl).
  constructor; [|eauto].
  intros (l1 & l2 & ->)%list_elem_of_split.
  pose proof (chain_suffix _ (x :: l1) x l2 H) as H2.
  pose proof (chain_det _ _ _ H H2) as Heq.
  apply (f_equal length) in Heq. rewrite !length_cons, length_app in Heq.
  simpl in Heq. lia.
Qed.

Lemma chain_range c l x : chain t c l → x ∈ l → 0 <= x < zlength t ∧ x ≠ EOChain.
Proof.
  revert c. induction l as [|y l IH]; intros c; [by rewrite elem_of_nil|].
  intros (-> & ? & n & Hn & Hl) [->|Hx]%elem_of_cons; [|eauto].
  split; [by eapply zlookup_Some_range|done].
Qed.

Lemma chain_zero l : zlookup t 0 = Some 0 → ¬ chain t 0 l.
Proof.
  intros H0. induction l as [|y l IH]; simpl; [done|].
  intros (<- & _ & n & Hn & Hl). simplify_eq. done.
Qed.

Lemma chain_not_free c l x :
  zlookup t 0 = Some 0 → chain t c l → x ∈ l → zlookup t x ≠ Some 0.
Proof.
  intros H0 Hc (l1 & l2 & ->)%list_elem_of_split Hx.
  apply chain_suffix in Hc as (_ & _ & n & Hn & Hl). simplify_eq.
  by eapply chain_zero.
Qed.

Lemma chain_frame t' c l :
  chain t c l → (∀ x, x ∈ l → zlookup t' x = zlookup t x) → chain t' c l.
Proof.
  revert c. induction l as [|y l IH]; intros c; simpl; [done|].
  intros (-> & ? & n & Hn & Hl) Hf. split_and!; [done..|].
  exists n. split; [by rewrite Hf by set_solver|].
  apply IH; [done|]. set_solver.
Qed.

Lemma chain_length c l : chain t c l → (length l ≤ length t)%nat.
Proof.
  intros Hc.
  assert (Hsub : l ⊆ seqZ 0 (zlength t)).
  { intros x Hx. apply elem_of_seqZ. destruct (chain_range _ _ _ Hc Hx). lia. }
  pose proof (NoDup_incl_length (l:=l) (l':=seqZ 0 (zlength t))) as Hle.
  rewrite length_seqZ in Hle. unfold zlength in Hle. rewrite Nat2Z.id in Hle.
  apply Hle.
  - apply NoDup_ListNoDup. by eapply chain_NoDup.
  - intros x. rewrite <- !list_elem_of_In. apply Hsub.
Qed.

(** Rewriting the last entry of a chain from the mark to a fresh one-cluster
    chain extends it. *)
Lemma chain_snoc t' c l e r :
  chain t c (l ++ [e]) →
  (∀ x, x ∈ l → zlookup t' x = zlookup t x) →
  zlookup t' e = Some r → zlookup t' r = Some EOChain → r ≠ EOChain →
  chain t' c ((l ++ [e]) ++ [r]).
Proof.
  revert c. induction l as [|y l IH]; intros c; simpl.
  - intros (-> & ? & n & _ & _) _ He Hr ?.
    split_and!; [done..|]. exists r. split; [done|].
    split_and!; [done..|]. eauto.
  - intros (-> & ? & n & Hn & Hl) Hf He Hr ?.
    split_and!; [done..|]. exists n. split; [by rewrite Hf by set_solver|].
    apply IH; [done| |done..]. set_solver.
Qed.

Lemma chain_last c l e n :
  chain t c (l ++ [e]) → zlookup t e = Some n → n = EOChain.
Proof.
  intros (_ & _ & m & Hm & Hnil)%chain_suffix Hn. simpl in Hnil. congruence.
Qed.
End chain_facts.

(** ** Symbolic execution of the table accesses *)

Lemma wp_fat_get c f v Q : zlookup (fat f) c = Some v → Q v f → wp (fat_get c) f Q.
Proof. intros Hv HQ. unfold fat_get. do 2 wp_step. by rewrite wp_deref; eauto. Qed.

Lemma wp_fat_put c v f Q :
  0 <= c < zlength (fat f) →
  Q tt (set_fat (zinsert c v (fat f)) f) → wp (fat_put c v) f Q.
Proof.
  intros [w Hw]%zlookup_is_Some HQ. unfold fat_put. do 3 wp_step.
  apply wp_deref. eexists. split; [exact Hw|]. by wp_step.
Qed.

(** ** find_free_cluster: next-fit *)

(** The clusters examined before [c] in a scan that starts after [last]. *)
Definition scanned (last c i : Z) : Prop :=
  if decide (last < c) then last < i < c else last < i ∨ i < c.

(** No cluster but the rover is free. *)
Definition no_free (f : fat_fs) : Prop :=
  ∀ i, 2 <= i < fat_length f → i ≠ last_clst f → ¬ is_free f i.

Lemma find_free_cluster_wp f :
  wf_fat f → last_clst f + 1 < fat_length f →
  wp find_free_cluster f (λ c f', f' = f ∧
    ((c = 0 ∧ no_free f) ∨
     (2 <= c < fat_length f ∧ c ≠ last_clst f ∧ is_free f c ∧
      ∀ i, 2 <= i < fat_length f → scanned (last_clst f) c i → ¬ is_free f i))).
Proof.
  intros [Hlen Hr Hlast _] Hroom. unfold find_free_cluster. do 2 wp_step.
  unfold EOChain in *.
  rewrite u32_small by lia.
  set (last := last_clst f) in *. set (len := fat_length f) in *.
  apply (wp_loop (λ n c s, s = f ∧ 2 <= c < len ∧
           n = Z.to_nat (if decide (last < c) then len - c + last - 2 else last - c) ∧
           ∀ i, 2 <= i < len → scanned last c i → ¬ is_free f i)
         _ _ (Z.to_nat (len - (last + 1) + last - 2))).
  - intros n c s (-> & Hc & -> & Hno). unfold find_free_step.
    destruct (Z.eqb_spec c last) as [->|Hne].
    { wp_step. split; [done|]. left. split; [done|].
      intros i Hi Hil. apply Hno; [done|]. unfold scanned. case_decide; lia. }
    destruct (zlookup_is_Some (fat f) c) as [v Hv]; [lia|].
    wp_step. eapply wp_fat_get; [done|].
    destruct (Z.eqb_spec v 0) as [->|Hv0].
    { wp_step. split; [done|]. right. done. }
    do 3 wp_step. unfold u32. rewrite Z.mod_small by lia.
    fold len. unfold scanned in *.
    assert (Hnew : ∀ i, 2 <= i < len → (if decide (last < c) then last < i < c else last < i ∨ i < c) ∨ i = c → ¬ is_free f i).
    { intros i Hi [?| ->]; [by apply Hno|]. unfold is_free. congruence. }
    destruct (Z.eqb_spec (c + 1) len) as [Hwrap|Hnowrap].
    + eexists; split; [|split; [done|split; [lia|split; [reflexivity|]]]].
      * repeat case_decide; lia.
      * intros i Hi Hs. apply Hnew; [done|]. repeat case_decide; lia.
    + eexists; split; [|split; [done|split; [lia|split; [reflexivity|]]]].
      * repeat case_decide; lia.
      * intros i Hi Hs. apply Hnew; [done|]. repeat case_decide; lia.
  - split; [done|split; [lia|split]].
    + f_equal. case_decide; lia.
    + intros i Hi Hs. unfold scanned in Hs. case_decide; lia.
  - unfold zlength in Hlen. lia.
Qed.

(** ** Walking to the end of a chain *)

Lemma chain_end_wp f c l e :
  chain (fat f) c (l ++ [e]) → ROOT_DIR_CLUSTER ∉ l ++ [e] →
  wp (loop (S (length (fat f))) chain_end_step c) f (λ r f', f' = f ∧ r = e).
Proof.
  intros Hc Hroot.
  pose proof (chain_length _ _ _ Hc) as Hlen. rewrite length_app in Hlen. simpl in Hlen.
  apply (wp_loop (λ n c s, s = f ∧ ∃ l, n = length l ∧
           chain (fat f) c (l ++ [e]) ∧ ROOT_DIR_CLUSTER ∉ l ++ [e]) _ _ (length l));
    [|eauto|lia].
  clear c l Hc Hroot Hlen. intros n c s (-> & l & -> & Hc & Hroot).
  unfold chain_end_step.
  assert (c ∈ l ++ [e]) as Hcl by (destruct l; destruct Hc as (-> & _); set_solver).
  destruct (Z.eqb_spec c ROOT_DIR_CLUSTER) as [->|_]; [done|].
  destruct l as [|y l]; destruct Hc as (-> & He & n & Hn & Hl); simpl in Hl.
  - wp_step. eapply wp_fat_get; [done|]. rewrite Hl, Z.eqb_refl. by wp_step.
  - assert (n ≠ EOChain).
    { destruct l; destruct Hl as (-> & ? & _); done. }
    wp_step. eapply wp_fat_get; [done|]. rewrite (proj2 (Z.eqb_neq _ _)) by done.
    wp_step. eapply wp_fat_get; [done|]. wp_step. simpl.
    exists (length l). split; [lia|]. split; [done|]. exists l.
    split; [done|]. split; [done|]. set_solver.
Qed.

(** The table after [new] has been allocated and linked behind [e]. *)
Definition linked (f : fat_fs) (e new : Z) : fat_fs :=
  set_fat (zinsert e new (zinsert new EOChain (fat f))) (set_last_clst new f).

(** The table after [new] has been allocated as a chain of its own. *)
Definition fresh (f : fat_fs) (new : Z) : fat_fs :=
  set_last_clst new (set_fat (zinsert new EOChain (fat f)) f).

Lemma wf_fresh f new :
  wf_fat f → 2 <= new < fat_length f → wf_fat (fresh f new).
Proof.
  intros [] ?. split; simpl; [|done|lia|].
  - by rewrite zlength_zinsert.
  - by rewrite zlookup_zinsert_ne by lia.
Qed.

Lemma wf_linked f e new :
  wf_fat f → 2 <= new < fat_length f → 1 <= e < fat_length f → wf_fat (linked f e new).
Proof.
  intros [] ??. split; simpl; [|done|lia|].
  - by rewrite !zlength_zinsert.
  - by rewrite !zlookup_zinsert_ne by lia.
Qed.

Lemma fresh_frame f new c l :
  wf_fat f → is_free f new → chain (fat f) c l →
  new ∉ l ∧ chain (fat (fresh f new)) c l.
Proof.
  intros Hwf Hfree Hc.
  assert (Hnl : new ∉ l).
  { intros Hin. exact (chain_not_free _ _ _ _ (wf_zero _ Hwf) Hc Hin Hfree). }
  split; [done|]. eapply chain_frame; [exact Hc|]. intros x Hx.
  pose proof (zlookup_Some_range _ _ _ Hfree).
  apply zlookup_zinsert_ne; [lia|set_solver].
Qed.

Lemma chain_pos f c l x : wf_fat f → chain (fat f) c l → x ∈ l → 1 <= x < fat_length f.
Proof.
  intros Hwf Hc Hx. destruct (chain_range _ _ _ _ Hc Hx) as [Hr _].
  rewrite (wf_len _ Hwf) in Hr.
  assert (x ≠ 0); [|lia]. intros ->.
  exact (chain_not_free _ _ _ _ (wf_zero _ Hwf) Hc Hx (wf_zero _ Hwf)).
Qed.

Lemma linked_frame f e new c l :
  wf_fat f → is_free f new → chain (fat f) c l → 0 <= e → e ∉ l →
  chain (fat (linked f e new)) c l.
Proof.
  intros Hwf Hfree Hc He Hel.
  destruct (fresh_frame f new c l) as [Hnl Hc']; [done..|].
  eapply chain_frame; [exact Hc'|]. intros x Hx. simpl.
  apply zlookup_zinsert_ne; [lia|set_solver].
Qed.

(** What is known of the cluster that an allocation returns. *)
Definition allocated (f : fat_fs) (r : Z) : Prop :=
  2 <= r < fat_length f ∧ is_free f r ∧
  (∀ i, 2 <= i < fat_length f → scanned (last_clst f) r i → ¬ is_free f i) ∧
  r ≠ last_clst f.

(** fat_create_chain(0) *)
Lemma fat_create_chain_new f :
  wf_fat f → last_clst f + 1 < fat_length f →
  wp (fat_create_chain 0) f (λ r f',
    (r = 0 ∧ f' = f ∧ no_free f) ∨
    (allocated f r ∧ f' = fresh f r)).
Proof.
  intros Hwf Hroom. pose proof Hwf as [Hlen Hr Hlast H0]. unfold fat_create_chain.
  do 2 wp_step. wp_step. wp_step; [apply Z.ltb_lt; lia|].
  wp_step. eapply wp_mono; [by apply find_free_cluster_wp|].
  intros r f' (-> & [(-> & Hno)|(Hrr & Hne & Hfree & Hnf)]).
  { simpl. wp_step. auto. }
  rewrite (proj2 (Z.eqb_neq r 0)) by lia.
  wp_step. apply wp_fat_put; [lia|]. do 2 wp_step. simpl. wp_step.
  right. done.
Qed.

(** fat_create_chain(clst) for a chain that does not pass through the root
    directory's cluster *)
Lemma fat_create_chain_link f c l e :
  wf_fat f → last_clst f + 1 < fat_length f →
  chain (fat f) c (l ++ [e]) → ROOT_DIR_CLUSTER ∉ l ++ [e] →
  wp (fat_create_chain c) f (λ r f',
    (r = 0 ∧ f' = f ∧ no_free f) ∨
    (allocated f r ∧ f' = linked f e r)).
Proof.
  intros Hwf Hroom Hc Hroot. pose proof Hwf as [Hlen Hr Hlast H0].
  unfold fat_create_chain.
  assert (Hcr : 1 <= c < fat_length f).
  { apply (chain_pos _ _ _ c Hwf Hc). destruct l; destruct Hc as (-> & _); set_solver. }
  do 2 wp_step. wp_step. wp_step; [apply Z.ltb_lt; lia|].
  wp_step. eapply wp_mono; [by apply find_free_cluster_wp|].
  intros r f' (-> & [(-> & Hno)|(Hrr & Hne & Hfree & Hnf)]).
  { simpl. wp_step. auto. }
  rewrite (proj2 (Z.eqb_neq r 0)), (proj2 (Z.eqb_neq c 0)) by lia.
  wp_step. apply wp_fat_put; [lia|]. do 2 wp_step. wp_step.
  destruct (fresh_frame f r c _ Hwf Hfree Hc) as [Hrl Hc'].
  eapply wp_mono.
  { assert (length (fat f) = length (fat (fresh f r))) as ->.
    { simpl. unfold zinsert. by rewrite length_insert. }
    apply (chain_end_wp (fresh f r) c l e); done. }
  intros e' f' (-> & ->).
  assert (1 <= e < fat_length f) by (eapply chain_pos; [done..|set_solver]).
  wp_step. apply wp_fat_put; [simpl; rewrite zlength_zinsert; lia|].
  wp_step. right. done.
Qed.

(** ** Releasing a chain *)

(** [f'] is [f] with exactly the clusters of [l] made free. *)
Record released (f : fat_fs) (l : list Z) (f' : fat_fs) : Prop := {
  rel_free : ∀ x, x ∈ l → is_free f' x;
  rel_other : ∀ x, x ∉ l → zlookup (fat f') x = zlookup (fat f) x;
  rel_len : length (fat f') = length (fat f);
  rel_length : fat_length f' = fat_length f;
  rel_start : data_start f' = data_start f;
  rel_bs : bs f' = bs f;
  rel_last : last_clst f' = if decide (last_clst f ∈ l) then 2 else last_clst f;
}.

Lemma remove_loop_wp f c l :
  wf_fat f → chain (fat f) c l →
  wp (loop (S (length (fat f))) remove_step c) f (λ _ f', released f l f').
Proof.
  intros Hwf Hc. pose proof (chain_length _ _ _ Hc) as Hlen.
  pose proof (chain_NoDup _ _ _ Hc) as Hnd.
  apply (wp_loop (λ n c s, ∃ done rest, l = done ++ rest ∧ n = length rest ∧
           released f done s ∧ chain (fat f) c rest) _ _ (length l)); [| |lia].
  - intros n c' s (dn & rest & -> & -> & Hrel & Hrest). unfold remove_step.
    destruct rest as [|x rest]; simpl in Hrest.
    { subst c'. rewrite Z.eqb_refl. wp_step. by rewrite app_nil_r. }
    destruct Hrest as (-> & Hx & nx & Hnx & Hrest).
    rewrite (proj2 (Z.eqb_neq _ _)) by done.
    apply NoDup_app in Hnd as (_ & Hdj & [Hxr Hnd]%NoDup_cons).
    assert (Hxd : x ∉ dn) by set_solver.
    wp_step. apply (wp_fat_get _ _ nx); [by rewrite (rel_other _ _ _ Hrel)|].
    pose proof (zlookup_Some_range _ _ _ Hnx) as Hxrange.
    assert (Hzl : zlength (fat s) = zlength (fat f)).
    { unfold zlength. by rewrite (rel_len _ _ _ Hrel). }
    wp_step. apply wp_fat_put; [lia|]. do 2 wp_step. simpl.
    assert (Hrel' : ∀ s', fat s' = zinsert x 0 (fat s) → fat_length s' = fat_length s →
              data_start s' = data_start s → bs s' = bs s →
              last_clst s' = (if decide (last_clst s = x) then 2 else last_clst s) →
              released f (dn ++ [x]) s').
    { intros s' Ht Hfl Hds Hbs Hl. destruct Hrel as [R1 R2 R3 R4 R5 R6 R7]. split.
      - unfold is_free in *. rewrite Ht. intros y Hy.
        destruct (decide (y = x)) as [->|]; [by apply zlookup_zinsert; lia|].
        rewrite zlookup_zinsert_ne by lia. apply R1. set_solver.
      - rewrite Ht. intros y Hy. rewrite zlookup_zinsert_ne by set_solver by lia.
        apply R2. set_solver.
      - rewrite Ht. unfold zinsert. by rewrite length_insert.
      - congruence.
      - congruence.
      - congruence.
      - rewrite Hl, R7. clear Hl R7.
        pose proof (wf_last _ Hwf) as Hlast.
        destruct (decide (last_clst f ∈ dn)) as [Hin|Hin].
        + rewrite (decide_True (P := last_clst f ∈ dn ++ [x])) by set_solver.
          by case_decide.
        + destruct (decide (last_clst f = x)) as [<-|Hne].
          * by rewrite decide_True by set_solver.
          * by rewrite decide_False by set_solver. }
    wp_step. apply wp_if.
    destruct (Z.eqb_spec (last_clst s) x) as [Hlx|Hlx]; wp_step; wp_step; simpl.
    all: exists (length rest); split; [lia|]; exists (dn ++ [x]), rest.
    all: split; [by rewrite <- app_assoc|]; split; [done|]; split; [|done].
    all: apply Hrel'; simpl; [done..|].
    + by rewrite decide_True.
    + by rewrite decide_False.
  - exists [], l. split_and!; [done..| |done].
    split; try done. set_solver.
Qed.

Lemma wf_released f l f' : wf_fat f → (∀ x, x ∈ l → 1 <= x) → released f l f' → wf_fat f'.
Proof.
  intros [] Hpos [R1 R2 R3 R4 R5 R6 R7]. split.
  - unfold zlength in *. congruence.
  - lia.
  - rewrite R7, R4. case_decide; lia.
  - rewrite R2; [done|]. intros ?%Hpos. lia.
Qed.

Lemma released_frame f l f' c l' :
  released f l f' → chain (fat f) c l' → l' ## l → chain (fat f') c l'.
Proof.
  intros Hrel Hc Hd. eapply chain_frame; [exact Hc|]. intros x Hx.
  apply (rel_other _ _ _ Hrel). set_solver.
Qed.

Lemma fat_remove_chain_wp f c l :
  wf_fat f → chain (fat f) c l → l ≠ [] →
  wp (fat_remove_chain c 0) f (λ _ f', released f l f' ∧ wf_fat f').
Proof.
  intros Hwf Hc Hne. unfold fat_remove_chain. do 2 wp_step.
  assert (Hcr : 1 <= c < fat_length f).
  { apply (chain_pos _ _ _ c Hwf Hc). destruct l; [done|]. destruct Hc as (-> & _). set_solver. }
  wp_step. wp_step; [apply Z.ltb_lt; lia|]. simpl. do 2 wp_step.
  eapply wp_mono; [by apply remove_loop_wp|]. intros [] f' Hrel.
  split; [done|]. eapply wf_released; [done| |done].
  intros x Hx. by destruct (chain_pos _ _ _ _ Hwf Hc Hx).
Qed.

(** ** Allocating a chain of [cnt] clusters *)

#[export] Instance is_free_dec f i : Decision (is_free f i).
Proof. unfold is_free. apply _. Defined.

(** At least [n] clusters are free between the rover and the last entry of
    the table. *)
Definition room (f : fat_fs) (n : nat) : Prop :=
  ∃ L, NoDup L ∧ (n ≤ length L)%nat ∧
       ∀ i, i ∈ L → last_clst f < i < fat_length f - 1 ∧ is_free f i.

Lemma NoDup_filter_ne (L : list Z) r :
  NoDup L → (length L ≤ S (length (filter (λ i, i ≠ r) L)))%nat.
Proof.
  induction 1 as [|x L Hx Hnd IH]; simpl; [lia|].
  rewrite filter_cons. destruct (decide (x ≠ r)) as [|Heq]; simpl; [lia|].
  apply dec_stable in Heq as ->.
  assert (filter (λ i, i ≠ r) L = L) as ->; [|lia].
  clear IH Hnd. induction L as [|y L IH]; [done|].
  rewrite filter_cons_True by set_solver. rewrite IH; set_solver.
Qed.

(** The first free cluster after the rover is taken, so the room shrinks by one. *)
Lemma room_step f n r :
  wf_fat f → room f (S n) → allocated f r →
  last_clst f < r < fat_length f - 1 ∧
  ∀ s, last_clst s = r → fat_length s = fat_length f →
       (∀ x, x ≠ r → is_free f x → is_free s x) → room s n.
Proof.
  intros Hwf (L & Hnd & Hn & HL) (Hr & Hfree & Hfirst & _).
  pose proof (wf_last _ Hwf) as Hlast.
  assert (Hle : ∀ i, i ∈ L → last_clst f < r <= i).
  { intros i Hi. destruct (HL i Hi) as [Hi1 Hi2].
    specialize (Hfirst i). unfold scanned in Hfirst.
    destruct (decide (last_clst f < r)) as [|].
    - split; [done|]. apply Z.nlt_ge. intros ?. apply Hfirst; [lia..|done].
    - exfalso. apply Hfirst; [lia..|done]. }
  split.
  - destruct L as [|i L]; simpl in Hn; [lia|].
    pose proof (Hle i). destruct (HL i); [set_solver|].
    assert (last_clst f < r <= i) by set_solver. lia.
  - intros s Hs Hlen Hother. exists (filter (λ i, i ≠ r) L).
    split; [by apply NoDup_filter|]. split.
    + pose proof (NoDup_filter_ne L r Hnd). lia.
    + intros i [Hne Hi]%list_elem_of_filter.
      destruct (HL i Hi) as [Hi1 Hi2]. pose proof (Hle i Hi).
      split; [lia|]. by apply Hother.
Qed.

(** [s] is [f] after the free clusters [l] have become a chain of their own. *)
Record took (f : fat_fs) (start : Z) (l : list Z) (s : fat_fs) : Prop := {
  took_chain : chain (fat s) start l;
  took_free : ∀ x, x ∈ l → 2 <= x < fat_length f - 1 ∧ is_free f x;
  took_other : ∀ x, x ∉ l → zlookup (fat s) x = zlookup (fat f) x;
  took_length : fat_length s = fat_length f;
  took_start : data_start s = data_start f;
  took_bs : bs s = bs f;
}.

Lemma took_frame f start l s c' l' :
  wf_fat f → took f start l s → chain (fat f) c' l' → l' ## l ∧ chain (fat s) c' l'.
Proof.
  intros Hwf Ht Hc.
  assert (Hd : l' ## l).
  { intros x Hx Hxl. destruct (took_free _ _ _ _ Ht x Hxl) as [_ Hfree].
    exact (chain_not_free _ _ _ _ (wf_zero _ Hwf) Hc Hx Hfree). }
  split; [done|]. eapply chain_frame; [exact Hc|]. intros x Hx.
  apply (took_other _ _ _ _ Ht). set_solver.
Qed.

Lemma took_fresh f r :
  wf_fat f → allocated f r → r < fat_length f - 1 → took f r [r] (fresh f r).
Proof.
  intros Hwf (Hr & Hfree & _) Hlt. pose proof (wf_len _ Hwf).
  pose proof (wf_len_range _ Hwf). split; simpl; [| |  |done..].
  - split; [done|]. split; [lia|]. exists EOChain. split; [|done].
    apply zlookup_zinsert. lia.
  - intros x ->%list_elem_of_singleton. split; [lia|done].
  - intros x Hx. apply zlookup_zinsert_ne; [lia|set_solver].
Qed.

Lemma took_linked f start l e s r :
  wf_fat f → took f start (l ++ [e]) s → wf_fat s → allocated s r →
  r < fat_length f - 1 → took f start ((l ++ [e]) ++ [r]) (linked s e r).
Proof.
  intros Hwf Ht Hws (Hr & Hfree & _) Hlt. pose proof (wf_len _ Hws) as Hwl.
  pose proof (wf_len_range _ Hws). destruct Ht as [Hc Hfr Hoth Hlen Hds Hbs].
  assert (Hrl : r ∉ l ++ [e]).
  { intros Hin. exact (chain_not_free _ _ _ _ (wf_zero _ Hws) Hc Hin Hfree). }
  assert (He : 1 <= e < fat_length s) by (eapply chain_pos; [done..|set_solver]).
  pose proof (chain_NoDup _ _ _ Hc) as (_ & Hle & _)%NoDup_app.
  split; simpl; [| | |done..].
  - apply (chain_snoc (fat s)); [done| | | |lia].
    + intros x Hx. rewrite !zlookup_zinsert_ne; [done|lia|set_solver|lia|set_solver].
    + apply zlookup_zinsert. rewrite zlength_zinsert. lia.
    + rewrite zlookup_zinsert_ne; [|lia|set_solver]. apply zlookup_zinsert. lia.
  - intros x [Hx|Hx]%elem_of_app; [by apply Hfr|].
    apply list_elem_of_singleton in Hx as ->. split; [lia|].
    unfold is_free. by rewrite <- Hoth.
  - intros x Hx. rewrite !zlookup_zinsert_ne; [apply Hoth|..]; set_solver by lia.
Qed.

Lemma allocate_loop_wp f start s l e cnt :
  wf_fat f → 0 <= cnt →
  took f start (l ++ [e]) s → wf_fat s → last_clst s + 1 < fat_length s →
  room s (Z.to_nat cnt) →
  wp (loop (S (Z.to_nat cnt)) allocate_step (e, cnt)) s (λ pc s', snd pc = 0 ∧
    wf_fat s' ∧ ∃ l', zlength l' = zlength (l ++ [e]) + cnt ∧ took f start l' s').
Proof.
  intros Hwf Hcnt Ht Hws Hlast Hroom.
  apply (wp_loop (λ n pc s, ∃ l1 e1, pc = (e1, Z.of_nat n) ∧
      zlength (l1 ++ [e1]) + Z.of_nat n = zlength (l ++ [e]) + cnt ∧
      took f start (l1 ++ [e1]) s ∧ wf_fat s ∧ last_clst s + 1 < fat_length s ∧ room s n)
    _ _ (Z.to_nat cnt)); [| |lia].
  2: { exists l, e. rewrite Z2Nat.id by done. done. }
  generalize (zlength (l ++ [e]) + cnt) as total. clear s l e cnt Hcnt Ht Hws Hlast Hroom.
  intros total n pc s (l1 & e1 & -> & Hn & Ht & Hws & Hlast & Hroom).
  assert (He1 : 2 <= e1 < fat_length f - 1) by (apply (took_free _ _ _ _ Ht); set_solver).
  unfold allocate_step. rewrite (proj2 (Z.eqb_neq e1 0)) by lia.
  destruct n as [|n]; simpl.
  { wp_step. split; [done|]. split; [done|]. exists (l1 ++ [e1]). split; [lia|done]. }
  assert (Hc1 : chain (fat s) e1 ([] ++ [e1])).
  { apply (chain_suffix _ start l1 e1 []). apply (took_chain _ _ _ _ Ht). }
  wp_step. eapply wp_mono.
  { apply (fat_create_chain_link _ _ []); [done|done|exact Hc1|].
    intros ?%list_elem_of_singleton. unfold ROOT_DIR_CLUSTER in *. lia. }
  intros r s' [(-> & -> & Hno)|(Hal & ->)].
  { exfalso. destruct Hroom as (L & _ & HL & HLf). destruct L as [|i L]; simpl in HL; [lia|].
    pose proof (wf_last _ Hws).
    destruct (HLf i) as [Hi Hfree]; [set_solver|]. apply (Hno i); [lia|lia|done]. }
  destruct (room_step _ _ _ Hws Hroom Hal) as [Hr Hroom'].
  rewrite (took_length _ _ _ _ Ht) in Hr.
  wp_step. exists n. split; [lia|]. exists (l1 ++ [e1]), r.
  split; [f_equal; lia|]. split.
  { revert Hn. unfold zlength. rewrite !length_app. simpl. lia. }
  split; [apply took_linked; [done..|lia]|].
  assert (Hwl : wf_fat (linked s e1 r)).
  { apply wf_linked; [done|apply Hal|]. rewrite (took_length _ _ _ _ Ht). lia. }
  split; [done|]. simpl. rewrite (took_length _ _ _ _ Ht). split; [lia|].
  apply Hroom'; [done..|]. intros x Hx Hfx. unfold is_free. simpl.
  assert (x ≠ e1).
  { intros ->. refine (chain_not_free _ _ _ e1 (wf_zero _ Hws) Hc1 _ Hfx). set_solver. }
  destruct Hal as [Hal _]. rewrite !zlookup_zinsert_ne; [done|lia..].
Qed.

Lemma fat_allocate_wp f cnt :
  wf_fat f → 0 < cnt → room f (Z.to_nat cnt) →
  wp (fat_allocate cnt) f (λ r f', ∃ start l, r = (true, Some start) ∧
    zlength l = cnt ∧ took f start l f' ∧ wf_fat f').
Proof.
  intros Hwf Hcnt Hroom. unfold fat_allocate.
  rewrite (proj2 (Z.eqb_neq cnt 0)) by lia.
  assert (Hlast : last_clst f + 1 < fat_length f).
  { destruct Hroom as (L & _ & HL & HLf). destruct L as [|i L]; simpl in HL; [lia|].
    destruct (HLf i); [set_solver|lia]. }
  wp_step. eapply wp_mono; [by apply fat_create_chain_new|].
  intros r f' [(-> & -> & Hno)|(Hal & ->)].
  { exfalso. destruct Hroom as (L & _ & HL & HLf). destruct L as [|i L]; simpl in HL; [lia|].
    pose proof (wf_last _ Hwf).
    destruct (HLf i) as [Hi Hfree]; [set_solver|]. apply (Hno i); [lia|lia|done]. }
  replace (Z.to_nat cnt) with (S (Z.to_nat (cnt - 1))) in Hroom by lia.
  destruct (room_step _ _ _ Hwf Hroom Hal) as [Hr Hroom'].
  replace (Z.to_nat cnt) with (S (Z.to_nat (cnt - 1))) by lia.
  wp_step. eapply wp_mono.
  { apply (wp_loop_more _ (S (Z.to_nat (cnt - 1)))); [lia|].
    apply (allocate_loop_wp f r (fresh f r) []); [done|lia| | |simpl; lia|].
    - apply took_fresh; [done..|lia].
    - apply wf_fresh; [done|apply Hal].
    - apply Hroom'; [done..|]. intros x Hx Hfx. unfold is_free. simpl.
      destruct Hal as [Hal _]. rewrite zlookup_zinsert_ne; [done|lia|lia]. }
  intros [prev k] f' (Hk & Hwf' & l' & Hl' & Ht). simpl in Hk. subst k. simpl.
  wp_step. exists r, l'. split; [|split; [|done]].
  - f_equal. rewrite (proj2 (Z.eqb_neq r 0)); [done|]. pose proof (wf_last _ Hwf). lia.
  - rewrite Hl'. unfold zlength. simpl. lia.
Qed.

(** ** The properties of the table *)

Definition example_fat : fat_fs :=
  FatFs (FatBoot FAT_MAGIC 1 10 1 1 1) [0; EOChain; 4; EOChain; EOChain; 0; 0; 0] 8 2 2.

Lemma example_wf : wf_fat example_fat.
Proof. split; try done; simpl; unfold EOChain; lia. Qed.

(** C33: When at least [cnt] clusters are free between the rover and the last entry
    of the table ([room]), [fat_allocate] returns a chain of exactly [cnt] clusters
    that were free, and no other chain of the table changes. (With less room it
    returns a shorter chain, or does not return: fat_allocate_short,
    fat_allocate_full_diverges.) *)
Theorem fat_allocate_correct f cnt :
  wf_fat f → 0 < cnt → room f (Z.to_nat cnt) →
  ∃ start l f', fat_allocate cnt f = Done ((true, Some start), f') ∧
    zlength l = cnt ∧ chain (fat f') start l ∧
    (∀ x, x ∈ l → 2 <= x < fat_length f ∧ is_free f x) ∧
    (∀ c' l', chain (fat f) c' l' → l' ## l ∧ chain (fat f') c' l') ∧
    wf_fat f'.
Proof.
  intros Hwf Hcnt Hroom.
  destruct (proj1 (wp_done _ _ _) (fat_allocate_wp f cnt Hwf Hcnt Hroom))
    as (r & f' & He & start & l & -> & Hl & Ht & Hwf').
  exists start, l, f'. split_and!; [done..|by apply Ht| | |done].
  - intros x Hx. destruct (took_free _ _ _ _ Ht x Hx). split; [lia|done].
  - intros c' l' Hc'. exact (took_frame _ _ _ _ _ _ Hwf Ht Hc').
Qed.

(** [fat_create_chain(clst)] appends one free cluster to the chain of [clst],
    or reports 0 and changes nothing when no cluster but the rover is free. *)
Theorem fat_create_chain_extends f c l e :
  wf_fat f → last_clst f + 1 < fat_length f →
  chain (fat f) c (l ++ [e]) → ROOT_DIR_CLUSTER ∉ l ++ [e] →
  ∃ r f', fat_create_chain c f = Done (r, f') ∧ wf_fat f' ∧
    if decide (r = 0) then f' = f ∧ no_free f
    else is_free f r ∧ chain (fat f') c ((l ++ [e]) ++ [r]) ∧
         ∀ c' l', chain (fat f) c' l' → l' ## l ++ [e] → chain (fat f') c' l'.
Proof.
  intros Hwf Hlast Hc Hroot.
  destruct (proj1 (wp_done _ _ _) (fat_create_chain_link f c l e Hwf Hlast Hc Hroot))
    as (r & f' & He & Hcase).
  exists r, f'. split; [done|]. destruct Hcase as [(-> & -> & Hno)|(Hal & ->)].
  { split; [done|]. by rewrite decide_True. }
  pose proof Hal as (Hr & Hfree & _).
  assert (Hep : 1 <= e < fat_length f) by (eapply chain_pos; [done..|set_solver]).
  split; [by apply wf_linked|]. rewrite decide_False by lia. split; [done|].
  pose proof (wf_len _ Hwf). pose proof (wf_len_range _ Hwf).
  destruct (fresh_frame f r c _ Hwf Hfree Hc) as [Hrl _].
  pose proof (chain_NoDup _ _ _ Hc) as (_ & Hle & _)%NoDup_app. split.
  - apply (chain_snoc (fat f)); [done| | | |lia]; simpl.
    + intros x Hx. rewrite !zlookup_zinsert_ne; [done|lia|set_solver|lia|set_solver].
    + apply zlookup_zinsert. rewrite zlength_zinsert. lia.
    + rewrite zlookup_zinsert_ne; [|lia|set_solver]. apply zlookup_zinsert. lia.
  - intros c' l' Hc' Hd. apply linked_frame; [done..|lia|set_solver].
Qed.

(** [fat_remove_chain(clst, 0)] ends, frees exactly the clusters of the chain
    of [clst] and leaves every disjoint chain as it was. *)
Theorem fat_remove_chain_frees f c l :
  wf_fat f → chain (fat f) c l → l ≠ [] →
  ∃ f', fat_remove_chain c 0 f = Done (tt, f') ∧ wf_fat f' ∧
    (∀ x, is_free f' x ↔ x ∈ l ∨ is_free f x) ∧
    (∀ c' l', chain (fat f) c' l' → l' ## l → chain (fat f') c' l').
Proof.
  intros Hwf Hc Hne.
  destruct (proj1 (wp_done _ _ _) (fat_remove_chain_wp f c l Hwf Hc Hne))
    as ([] & f' & He & Hrel & Hwf').
  exists f'. split_and!; [done..| |].
  - intros x. destruct (decide (x ∈ l)) as [Hx|Hx].
    + split; [by left|]. intros _. by apply Hrel.
    + unfold is_free. rewrite (rel_other _ _ _ Hrel) by done. tauto.
  - intros c' l' Hc' Hd. by eapply released_frame.
Qed.

(** Releasing what [fat_allocate] returned restores the table. *)
Theorem fat_allocate_release f cnt :
  wf_fat f → 0 < cnt → room f (Z.to_nat cnt) →
  ∃ start f1 f2, fat_allocate cnt f = Done ((true, Some start), f1) ∧
    fat_release start f1 = Done (tt, f2) ∧ fat f2 = fat f.
Proof.
  intros Hwf Hcnt Hroom.
  destruct (proj1 (wp_done _ _ _) (fat_allocate_wp f cnt Hwf Hcnt Hroom))
    as (r & f1 & He & start & l & -> & Hl & Ht & Hwf1).
  assert (Hne : l ≠ []) by (intros ->; unfold zlength in Hl; simpl in Hl; lia).
  destruct (proj1 (wp_done _ _ _)
    (fat_remove_chain_wp f1 start l Hwf1 (took_chain _ _ _ _ Ht) Hne))
    as ([] & f2 & He2 & Hrel & Hwf2).
  exists start, f1, f2. split_and!; [done..|].
  assert (Hz : ∀ x, zlookup (fat f2) x = zlookup (fat f) x).
  { intros x. destruct (decide (x ∈ l)) as [Hx|Hx].
    - rewrite (rel_free _ _ _ Hrel x Hx). symmetry. by apply (took_free _ _ _ _ Ht).
    - rewrite (rel_other _ _ _ Hrel) by done. by apply (took_other _ _ _ _ Ht). }
  apply list_eq. intros i. specialize (Hz (Z.of_nat i)).
  rewrite !zlookup_nat, Nat2Z.id in Hz by lia. done.
Qed.

(** Entry 0 of the table points to itself: a walk from it never ends. *)
Lemma remove_zero_diverges f : wf_fat f → ∀ n, loop n remove_step 0 f = NoFuel.
Proof.
  intros [Hlen Hr Hl H0].
  assert (Hins : zinsert 0 0 (fat f) = fat f).
  { rewrite zlookup_nat in H0 by lia. by apply list_insert_id. }
  assert (Hstep : remove_step 0 f = Done (inl 0, f)).
  { apply wp_run_eq.
    unfold remove_step. simpl. wp_step. apply (wp_fat_get _ _ 0); [done|].
    wp_step. apply wp_fat_put; [lia|]. do 2 wp_step. simpl.
    rewrite (proj2 (Z.eqb_neq (last_clst f) 0)) by lia. do 3 wp_step.
    split; [done|]. rewrite Hins. by destruct f. }
  induction n as [|n IH]; [done|]. rewrite loop_S. unfold mbind, st_bind. by rewrite Hstep.
Qed.

(** C39: With no free cluster a request for two or more never returns: the code
    releases "chain 0", and entry 0 of the table points to itself. *)
Theorem fat_allocate_full_diverges f cnt :
  wf_fat f → last_clst f + 1 < fat_length f → no_free f → 1 < cnt →
  fat_allocate cnt f = NoFuel ∧ ∀ n, loop n remove_step 0 f = NoFuel.
Proof.
  intros Hwf Hlast Hno Hcnt. pose proof Hwf as [Hlen Hr Hl H0].
  pose proof (remove_zero_diverges f Hwf) as Hdiv.
  split; [|done].
  assert (Hstart : fat_create_chain 0 f = Done (0, f)).
  { destruct (proj1 (wp_done _ _ _) (fat_create_chain_new f Hwf Hlast))
      as (r & f' & He & [(-> & -> & _)|((Hrr & Hfree & _ & Hne) & _)]); [done|].
    exfalso. by apply (Hno r). }
  assert (Hc0 : (cnt =? 0) = false) by (apply Z.eqb_neq; lia).
  assert (Hc1 : (cnt - 1 =? 0) = false) by (apply Z.eqb_neq; lia).
  assert (Hl0 : (0 <? fat_length f) = true) by (apply Z.ltb_lt; lia).
  unfold fat_allocate. rewrite Hc0. unfold mbind, st_bind. rewrite Hstart.
  rewrite (loop_S (Z.to_nat cnt)). simpl. unfold mbind, st_bind. simpl. rewrite Hc1. simpl.
  unfold fat_remove_chain, mbind, st_bind, get_st, assert_st. rewrite Hl0. simpl.
  by rewrite Hdiv.
Qed.

(** With exactly one cluster left, a request for two claims success and
    returns a chain of one cluster. *)
Theorem fat_allocate_short f r :
  wf_fat f → last_clst f + 1 < fat_length f → allocated f r → r + 1 < fat_length f →
  (∀ i, 2 <= i < fat_length f → is_free f i → i = r) →
  ∃ f', fat_allocate 2 f = Done ((true, Some r), f') ∧ chain (fat f') r [r].
Proof.
  intros Hwf Hlast Hal Hr1 Honly. pose proof Hal as (Hr & Hfree & _ & Hne).
  pose proof Hwf as [Hlen Hlr Hl H0].
  exists (fresh f r).
  assert (Hc : chain (fat (fresh f r)) r [r]).
  { simpl. split; [done|]. split; [lia|]. exists EOChain. split; [|done].
    apply zlookup_zinsert. lia. }
  split; [|done].
  assert (wp (fat_allocate 2) f (λ res f', res = (true, Some r) ∧ f' = fresh f r)) as Hwp.
  { unfold fat_allocate. simpl. wp_step. eapply wp_mono; [by apply fat_create_chain_new|].
    intros r' f' [(-> & -> & Hno)|((Hr' & Hfree' & _ & Hne') & ->)].
    { exfalso. by apply (Hno r). }
    assert (r' = r) as -> by (apply Honly; done).
    assert (Hr0 : (r =? 0) = false) by (apply Z.eqb_neq; lia).
    wp_step. change (S (Z.to_nat 2)) with 3%nat. rewrite loop_S. wp_step.
    unfold allocate_step at 1. rewrite Hr0. simpl. wp_step. eapply wp_mono.
    { apply (fat_create_chain_link (fresh f r) r [] r); [by apply wf_fresh|done|done|].
      intros ?%list_elem_of_singleton. unfold ROOT_DIR_CLUSTER in *. lia. }
    intros r2 f2 [(-> & -> & _)|((Hr2 & Hfree2 & _ & Hne2) & _)].
    { wp_step. rewrite loop_S. wp_step. unfold allocate_step. simpl. do 2 wp_step.
      simpl. by wp_step. }
    exfalso. unfold is_free in Hfree2. simpl in *.
    rewrite zlookup_zinsert_ne in Hfree2 by lia. apply Honly in Hfree2; [|done]. done. }
  apply wp_done in Hwp as (? & ? & -> & -> & ->). done.
Qed.

(** Extending the root directory's chain overwrites its first link: what the
    chain held behind the first cluster is no longer reachable from the root,
    and its clusters stay allocated. *)
Theorem fat_create_chain_root_orphans f x l :
  wf_fat f → last_clst f + 1 < fat_length f →
  chain (fat f) ROOT_DIR_CLUSTER (ROOT_DIR_CLUSTER :: x :: l) → ¬ no_free f →
  ∃ r f', fat_create_chain ROOT_DIR_CLUSTER f = Done (r, f') ∧
    chain (fat f') ROOT_DIR_CLUSTER [ROOT_DIR_CLUSTER; r] ∧
    chain (fat f') x (x :: l) ∧ r ∉ x :: l ∧ (∀ y, y ∈ x :: l → ¬ is_free f' y).
Proof.
  unfold ROOT_DIR_CLUSTER. intros Hwf Hlast Hc Hsome.
  pose proof Hwf as [Hlen Hlr Hl H0].
  pose proof (chain_NoDup _ _ _ Hc) as [H1 _]%NoDup_cons.
  pose proof (chain_suffix _ 1 [1] x l Hc) as Hx.
  assert (wp (fat_create_chain 1) f (λ r f', allocated f r ∧ f' = linked f 1 r)) as Hwp.
  { unfold fat_create_chain. do 2 wp_step. wp_step. wp_step; [apply Z.ltb_lt; lia|].
    wp_step. eapply wp_mono; [by apply find_free_cluster_wp|].
    intros r f' (-> & [(-> & Hno)|(Hrr & Hne & Hfree & Hnf)]); [done|].
    rewrite (proj2 (Z.eqb_neq r 0)) by lia. simpl.
    wp_step. apply wp_fat_put; [lia|]. do 2 wp_step. rewrite loop_S. do 2 wp_step.
    unfold chain_end_step at 1. simpl. do 2 wp_step.
    wp_step. apply wp_fat_put; [simpl; rewrite zlength_zinsert; lia|]. by wp_step. }
  apply wp_done in Hwp as (r & f' & He & Hal & ->). exists r, (linked f 1 r).
  pose proof Hal as (Hr & Hfree & _).
  assert (Hrx : chain (fat (linked f 1 r)) x (x :: l)) by (apply linked_frame; [done..|lia|done]).
  split; [done|]. split; [|split; [done|split]].
  - simpl. split; [done|]. split; [done|]. exists r.
    split; [apply zlookup_zinsert; rewrite zlength_zinsert; lia|].
    split; [done|]. split; [lia|]. exists EOChain. split; [|done].
    rewrite zlookup_zinsert_ne by lia. apply zlookup_zinsert. lia.
  - intros Hin. exact (chain_not_free _ _ _ _ H0 Hx Hin Hfree).
  - intros y Hy Hfy.
    assert (wf_fat (linked f 1 r)) as Hwl by (apply wf_linked; [done|done|lia]).
    exact (chain_not_free _ _ _ _ (wf_zero _ Hwl) Hrx Hy Hfy).
Qed.

(** Once the rover is the last cluster of the table, the next search reads
    behind the end of the array. *)
Theorem find_free_cluster_overrun f :
  wf_fat f → last_clst f + 1 = fat_length f → find_free_cluster f = Undef.
Proof.
  intros [Hlen Hr Hl _] Htop. unfold EOChain in *.
  assert (Hout : zlookup (fat f) (u32 (last_clst f + 1)) = None).
  { rewrite u32_small by lia. destruct (zlookup (fat f) (last_clst f + 1)) as [v|] eqn:Hv; [|done].
    apply zlookup_Some_range in Hv. lia. }
  assert (Hne : (u32 (last_clst f + 1) =? last_clst f) = false).
  { apply Z.eqb_neq. rewrite u32_small; lia. }
  assert (Hstep : find_free_step (last_clst f) (u32 (last_clst f + 1)) f = Undef).
  { unfold find_free_step. rewrite Hne. unfold fat_get, mbind, st_bind, get_st, deref.
    by rewrite Hout. }
  unfold find_free_cluster, mbind, st_bind, get_st. cbv zeta. rewrite loop_S.
  unfold mbind, st_bind. by rewrite Hstep.
Qed.

(** ** Geometry of a formatted disk *)

Lemma formatted_sectors n f :
  2 <= n < 2 ^ 28 →
  let b := fat_fs_init (fat_boot_create n f) in
  let k := (n - 1) / 129 + 1 in
  0 < k ∧ 129 * k > n - 1 ∧ 129 * (k - 1) <= n - 1 ∧
  fat_sectors (bs b) = k ∧ fat_length b = 128 * k ∧ data_start b = 1 + k.
Proof.
  intros Hn b k. pose proof (Z.div_mod (n - 1) 129) as Hdm.
  pose proof (Z.mod_pos_bound (n - 1) 129) as Hmod.
  assert (Hk : 0 < k ∧ 129 * k > n - 1 ∧ 129 * (k - 1) <= n - 1) by (unfold k; lia).
  assert (Hfs : fat_sectors (bs b) = k).
  { unfold b, k. simpl. unfold SECTORS_PER_CLUSTER. change (512 / 4 * 1 + 1) with 129.
    rewrite (u32_small (n - 1)) by lia. apply u32_small. lia. }
  split_and!; [lia..|done| |].
  - unfold b. unfold fat_fs_init. cbn [fat_length bs]. fold b.
    change (bs (fat_boot_create n f)) with (bs b). rewrite Hfs.
    rewrite (u32_small (k * 512)) by lia. unfold SECTORS_PER_CLUSTER.
    change (4 * 1) with 4. replace (k * 512) with (128 * k * 4) by lia.
    rewrite Z.div_mul by lia. apply u32_small. lia.
  - unfold b. unfold fat_fs_init. cbn [data_start bs]. fold b.
    change (fat_sectors (bs (fat_boot_create n f))) with (fat_sectors (bs b)).
    rewrite Hfs. cbn. apply u32_small. lia.
Qed.

(** A formatted table has an entry for every data sector of the disk... *)
Theorem fat_covers_disk n f sector :
  2 <= n < 2 ^ 28 →
  let b := fat_fs_init (fat_boot_create n f) in
  data_start b <= sector < n →
  1 <= sector_to_cluster b sector < fat_length b ∧
  cluster_to_sector b (sector_to_cluster b sector) = sector.
Proof.
  intros Hn b Hs. destruct (formatted_sectors n f Hn) as (Hk & Hk1 & Hk2 & Hfs & Hfl & Hds).
  fold b in Hfs, Hfl, Hds. unfold sector_to_cluster, cluster_to_sector.
  rewrite Hds, Hfl in *. rewrite (u32_small (sector - _ + 1)) by lia.
  split; [lia|]. rewrite u32_small; lia.
Qed.

(** ... but, unless 129 divides the disk's size, also entries behind its end:
    the last cluster that the allocator may return is no sector of the disk. *)
Theorem fat_overcommits n f :
  2 <= n < 2 ^ 28 → n mod 129 ≠ 0 →
  let b := fat_fs_init (fat_boot_create n f) in
  n <= cluster_to_sector b (fat_length b - 1).
Proof.
  intros Hn Hm b. destruct (formatted_sectors n f Hn) as (Hk & Hk1 & Hk2 & Hfs & Hfl & Hds).
  fold b in Hfs, Hfl, Hds. unfold cluster_to_sector. rewrite Hds, Hfl.
  set (k := (n - 1) / 129 + 1) in *.
  rewrite u32_small by lia.
  assert (129 * k ≠ n); [|lia]. intros Heq. apply Hm, Z.mod_divide; [lia|]. exists k. lia.
Qed.

(** Clusters and sectors correspond one to one, whatever the layout. *)
Theorem sector_cluster_roundtrip f c :
  0 <= c < 2 ^ 32 → sector_to_cluster f (cluster_to_sector f c) = c.
Proof.
  intros Hc. unfold sector_to_cluster, cluster_to_sector, u32.
  replace ((data_start f + (c - 1)) mod 2 ^ 32 - data_start f + 1)
    with ((data_start f + (c - 1)) mod 2 ^ 32 + (1 - data_start f)) by lia.
  rewrite Zplus_mod_idemp_l.
  replace (data_start f + (c - 1) + (1 - data_start f)) with c by lia.
  by apply Z.mod_small.
Qed.
