(* ===== verification/Volume.v ===== *)
(** * The file-system disk and the cluster table on it

    devices/disk.c as a store of 512-byte sectors, and the part of
    filesys/fat.c that reads and writes the table. *)
From stdpp Require Import base numbers list sets gmap.
From Stdlib Require Import ZArith Lia.
From S2P Require Import Prelude Bytes Fat.
Open Scope Z_scope.

Definition DISK_SECTOR_SIZE : Z := 512.

(** ** The disk *)

(** The transfers themselves are done by the ATA device, which is modelled by
    the contents of its sectors. A sector that is not in the map holds zeros. *)
Record disk := Disk {
  capacity : Z;
  sectors : gmap Z (list Z);
  read_cnt : Z;
  write_cnt : Z;
}.

Definition zero_sector : list Z := replicate 512 0.
Definition sector_at (d : disk) (s : Z) : list Z := default zero_sector (sectors d !! s).

(** select_sector: the assertions on the sector number *)
Definition select_sector (sec_no : Z) : ST disk unit :=
  d ← get_st;
  _ ← assert_st (sec_no <? capacity d);
  assert_st (sec_no <? 2 ^ 28).

Definition disk_read (sec_no : Z) : ST disk (list Z) :=
  _ ← select_sector sec_no;
  d ← get_st;
  _ ← modify (λ d, Disk (capacity d) (sectors d) (read_cnt d + 1) (write_cnt d));
  mret (sector_at d sec_no).

Definition disk_write (sec_no : Z) (buffer : list Z) : ST disk unit :=
  _ ← select_sector sec_no;
  modify (λ d, Disk (capacity d) (<[sec_no := buffer]> (sectors d)) (read_cnt d)
                 (write_cnt d + 1)).

Definition disk_size (d : disk) : Z := capacity d.

(** ** The volume: disk, table, and the kernel heap *)

(** [v_mem] lists whether the coming calls of malloc and calloc succeed;
    when it is used up they all do. *)
Record vol := Vol {
  v_disk : disk;
  v_fat : fat_fs;
  v_mem : list bool;
}.

Definition on_disk {A} : ST disk A → ST vol A :=
  zoom v_disk (λ d v, Vol d (v_fat v) (v_mem v)).
Definition on_fat {A} : ST fat_fs A → ST vol A :=
  zoom v_fat (λ f v, Vol (v_disk v) f (v_mem v)).

(** malloc or calloc: whether a block is returned *)
Definition malloc : ST vol bool := λ v,
  match v_mem v with
  | [] => Done (true, v)
  | b :: m => Done (b, Vol (v_disk v) (v_fat v) m)
  end.

(** an allocation whose failure is a PANIC *)
Definition malloc_or_panic : ST vol unit := b ← malloc; assert_st b.

(** ** fat.c: the table on disk *)

Definition boot_bytes (b : fat_boot) : list Z :=
  words_bytes [magic b; sectors_per_cluster b; total_sectors b; fat_start b;
               fat_sectors b; root_dir_cluster b].

Definition boot_of_bytes (l : list Z) : fat_boot :=
  let w i := le_val (take 4 (drop (4 * i) l)) in
  FatBoot (w 0%nat) (w 1%nat) (w 2%nat) (w 3%nat) (w 4%nat) (w 5%nat).

Definition zero_fat_fs : fat_fs := FatFs (FatBoot 0 0 0 0 0 0) [] 0 0 0.

Definition fat_init : ST vol unit :=
  _ ← malloc_or_panic;
  _ ← on_fat (modify (λ _, zero_fat_fs));
  _ ← malloc_or_panic;
  bounce ← on_disk (disk_read FAT_BOOT_SECTOR);
  _ ← on_fat (modify (set_bs (boot_of_bytes bounce)));
  v ← get_st;
  _ ← (if negb (magic (bs (v_fat v)) =? FAT_MAGIC)
       then on_fat (modify (fat_boot_create (disk_size (v_disk v)))) else mret tt);
  on_fat (modify fat_fs_init).

(** The size of the table in bytes, an [off_t]. *)
Definition fat_size_in_bytes (f : fat_fs) : Z := s32 (u64 (fat_length f * 4)).

(** One turn of fat_open's loop over the table's sectors; [buf] is the array
    seen as bytes. *)
Definition fat_open_step (i : Z) (st : list Z * Z) : ST vol (list Z * Z) :=
  let '(buf, bytes_read) := st in
  f ← gets v_fat;
  let bytes_left := fat_size_in_bytes f - bytes_read in
  if DISK_SECTOR_SIZE <=? bytes_left then
    data ← on_disk (disk_read (u32 (fat_start (bs f) + i)));
    mret (splice (Z.to_nat bytes_read) data buf, bytes_read + DISK_SECTOR_SIZE)
  else
    _ ← malloc_or_panic;
    bounce ← on_disk (disk_read (u32 (fat_start (bs f) + i)));
    mret (splice (Z.to_nat bytes_read) (take (Z.to_nat bytes_left) bounce) buf,
          bytes_read + bytes_left).

Definition fat_open : ST vol unit :=
  _ ← malloc_or_panic;
  f ← gets v_fat;
  r ← for_st fat_open_step (seqZ 0 (fat_sectors (bs f)))
        (replicate (Z.to_nat (4 * fat_length f)) 0, 0);
  on_fat (modify (set_fat (bytes_words (Z.to_nat (fat_length f)) (fst r)))).

(** One turn of fat_close's loop. *)
Definition fat_close_step (i : Z) (bytes_wrote : Z) : ST vol Z :=
  f ← gets v_fat;
  let buffer := words_bytes (fat f) in
  let bytes_left := fat_size_in_bytes f - bytes_wrote in
  if DISK_SECTOR_SIZE <=? bytes_left then
    _ ← on_disk (disk_write (u32 (fat_start (bs f) + i))
                   (take 512 (drop (Z.to_nat bytes_wrote) buffer)));
    mret (bytes_wrote + DISK_SECTOR_SIZE)
  else
    _ ← malloc_or_panic;
    _ ← on_disk (disk_write (u32 (fat_start (bs f) + i))
                   (splice 0 (take (Z.to_nat bytes_left) (drop (Z.to_nat bytes_wrote) buffer))
                      zero_sector));
    mret (bytes_wrote + bytes_left).

Definition fat_close : ST vol unit :=
  _ ← malloc_or_panic;
  f ← gets v_fat;
  _ ← on_disk (disk_write FAT_BOOT_SECTOR (splice 0 (boot_bytes (bs f)) zero_sector));
  _ ← for_st fat_close_step (seqZ 0 (fat_sectors (bs f))) 0;
  mret tt.

Definition fat_create : ST vol unit :=
  v ← get_st;
  _ ← on_fat (modify (fat_boot_create (disk_size (v_disk v))));
  _ ← on_fat (modify fat_fs_init);
  _ ← malloc_or_panic;
  _ ← on_fat (modify (λ f, set_fat (replicate (Z.to_nat (fat_length f)) 0) f));
  _ ← on_fat (fat_put ROOT_DIR_CLUSTER EOChain);
  _ ← malloc_or_panic;
  f ← gets v_fat;
  on_disk (disk_write (cluster_to_sector f ROOT_DIR_CLUSTER) zero_sector).

(** ** Symbolic execution *)

Section disk_facts.
Implicit Types (d : disk) (s : Z).

(** The disk has sector [s]. *)
Definition has_sector (d : disk) (s : Z) : Prop := s < capacity d ∧ s < 2 ^ 28.

Lemma wp_disk_read d s Q :
  has_sector d s →
  Q (sector_at d s) (Disk (capacity d) (sectors d) (read_cnt d + 1) (write_cnt d)) →
  wp (disk_read s) d Q.
Proof.
  intros [H1 H2] HQ. unfold disk_read, select_sector.
  repeat wp_step; [by apply Z.ltb_lt..|done].
Qed.

Lemma wp_disk_write d s b Q :
  has_sector d s →
  Q tt (Disk (capacity d) (<[s := b]> (sectors d)) (read_cnt d) (write_cnt d + 1)) →
  wp (disk_write s b) d Q.
Proof.
  intros [H1 H2] HQ. unfold disk_write, select_sector.
  repeat wp_step; [by apply Z.ltb_lt..|done].
Qed.

Lemma sector_at_insert d s b r w c :
  sector_at (Disk c (<[s := b]> (sectors d)) r w) s = b.
Proof. unfold sector_at. simpl. by rewrite lookup_insert_eq. Qed.
Lemma sector_at_insert_ne d s s' b r w c :
  s ≠ s' → sector_at (Disk c (<[s := b]> (sectors d)) r w) s' = sector_at d s'.
Proof. intros. unfold sector_at. simpl. by rewrite lookup_insert_ne. Qed.
End disk_facts.

Lemma wp_malloc_ok v Q : v_mem v = [] → Q true v → wp malloc v Q.
Proof. unfold wp, malloc. by intros ->. Qed.
Lemma wp_malloc_or_panic v Q : v_mem v = [] → Q tt v → wp malloc_or_panic v Q.
Proof.
  intros Hm HQ. unfold malloc_or_panic. wp_step. apply wp_malloc_ok; [done|].
  by wp_step.
Qed.

(** ** The table survives fat_close and fat_open *)

(** The layout that formatting sets up, with values that fit their words. *)
Record laid_out (d : disk) (f : fat_fs) : Prop := {
  lo_boot : Forall (λ w, 0 <= w < 2 ^ 32)
    [magic (bs f); sectors_per_cluster (bs f); total_sectors (bs f); fat_start (bs f);
     fat_sectors (bs f); root_dir_cluster (bs f)];
  lo_magic : magic (bs f) = FAT_MAGIC;
  lo_start : fat_start (bs f) = 1;
  lo_sectors : 0 < fat_sectors (bs f) < 2 ^ 22;
  lo_length : fat_length f = 128 * fat_sectors (bs f);
  lo_data : data_start f = 1 + fat_sectors (bs f);
  lo_fits : 1 + fat_sectors (bs f) <= capacity d ∧ capacity d < 2 ^ 28;
  lo_array : zlength (fat f) = fat_length f;
  lo_words : Forall (λ w, 0 <= w < 2 ^ 32) (fat f);
}.

Lemma seqZ_prefix n p b r :
  seqZ 0 n = p ++ b :: r → b = Z.of_nat (length p) ∧ b < n.
Proof.
  intros Heq. assert (seqZ 0 n !! length p = Some b) as Hl.
  { by rewrite Heq, list_lookup_middle. }
  apply lookup_seqZ in Hl. lia.
Qed.

Definition boot_sector (b : fat_boot) : list Z := splice 0 (boot_bytes b) zero_sector.

(** Sector [1 + j] of the disk holds the [j]-th 512 bytes of [buf], for [j < n]. *)
Definition holds (d : disk) (buf : list Z) (n : Z) : Prop :=
  ∀ j, 0 <= j < n → sector_at d (1 + j) = take 512 (drop (Z.to_nat (512 * j)) buf).

Lemma laid_out_bytes d f :
  laid_out d f → fat_size_in_bytes f = 512 * fat_sectors (bs f) ∧
  length (words_bytes (fat f)) = Z.to_nat (512 * fat_sectors (bs f)).
Proof.
  intros []. unfold fat_size_in_bytes. split.
  - rewrite lo_length0, u64_small by lia. rewrite s32_small; lia.
  - rewrite length_words_bytes. unfold zlength in *. lia.
Qed.

Lemma fat_close_wp v :
  laid_out (v_disk v) (v_fat v) → v_mem v = [] →
  wp fat_close v (λ _ v', v_fat v' = v_fat v ∧ v_mem v' = [] ∧
    capacity (v_disk v') = capacity (v_disk v) ∧
    sector_at (v_disk v') 0 = boot_sector (bs (v_fat v)) ∧
    holds (v_disk v') (words_bytes (fat (v_fat v))) (fat_sectors (bs (v_fat v)))).
Proof.
  intros Hlo Hm. destruct (laid_out_bytes _ _ Hlo) as [Hsz Hbl].
  destruct v as [d f mem]. simpl in *. subst mem.
  unfold fat_close. wp_step. apply wp_malloc_or_panic; [done|]. do 3 wp_step.
  unfold on_disk. wp_step. simpl. destruct (lo_fits _ _ Hlo).
  pose proof (lo_sectors _ _ Hlo).
  apply wp_disk_write; [split; unfold FAT_BOOT_SECTOR; lia|]. wp_step.
  apply (wp_for (λ p wrote v', wrote = 512 * Z.of_nat (length p) ∧ v_fat v' = f ∧
    v_mem v' = [] ∧ capacity (v_disk v') = capacity d ∧
    sector_at (v_disk v') 0 = boot_sector (bs f) ∧
    holds (v_disk v') (words_bytes (fat f)) (Z.of_nat (length p)))).
  - intros p b r wrote [d' f' m'] Hp (-> & Hf & Hmm & Hcap & Hboot & Hh). simpl in *. subst.
    apply seqZ_prefix in Hp as [-> Hb]. unfold fat_close_step. do 2 wp_step. simpl.
    rewrite Hsz. rewrite (proj2 (Z.leb_le _ _)) by (unfold DISK_SECTOR_SIZE; lia).
    rewrite (lo_start _ _ Hlo), u32_small by lia.
    unfold on_disk. do 2 wp_step. simpl.
    apply wp_disk_write; [split; lia|]. wp_step. simpl.
    rewrite length_app. simpl. split; [unfold DISK_SECTOR_SIZE; lia|].
    split_and!; [done|done|lia| |].
    + by rewrite sector_at_insert_ne by lia.
    + intros j Hj. destruct (decide (j = Z.of_nat (length p))) as [->|Hne].
      * by rewrite sector_at_insert.
      * rewrite sector_at_insert_ne by lia. apply Hh. lia.
  - simpl. split_and!; [lia|done|done|done| |].
    + by rewrite sector_at_insert.
    + intros j Hj. lia.
  - intros wrote [d' f' m'] (_ & Hf & Hmm & Hcap & Hboot & Hh). simpl in *. wp_step.
    split_and!; [done..|]. rewrite length_seqZ in Hh. by rewrite Z2Nat.id in Hh by lia.
Qed.

Lemma boot_of_boot_sector b :
  Forall (λ w, 0 <= w < 2 ^ 32)
    [magic b; sectors_per_cluster b; total_sectors b; fat_start b; fat_sectors b;
     root_dir_cluster b] →
  boot_of_bytes (boot_sector b) = b.
Proof.
  intros Hw. assert (Hi : ∀ i w, [magic b; sectors_per_cluster b; total_sectors b; fat_start b;
    fat_sectors b; root_dir_cluster b] !! i = Some w →
    le_val (take 4 (drop (4 * i) (boot_sector b))) = w).
  { intros i w Hi. unfold boot_sector, splice. rewrite take_0, app_nil_l. unfold boot_bytes.
    rewrite (words_bytes_word _ _ _ w) by done. apply le_val_u32.
    by eapply (Forall_lookup_1 _ _ _ _ Hw). }
  unfold boot_of_bytes. destruct b. by f_equal; apply Hi.
Qed.

Lemma take_more (n : nat) (l : list Z) m :
  take (n + m) l = take n l ++ take m (drop n l).
Proof.
  revert l. induction n as [|n IH]; intros [|x l]; simpl; rewrite ?take_nil; [done..|].
  by rewrite IH.
Qed.

Lemma fat_open_wp v buf :
  let f := v_fat v in
  v_mem v = [] → fat_start (bs f) = 1 → 0 < fat_sectors (bs f) < 2 ^ 22 →
  fat_length f = 128 * fat_sectors (bs f) →
  1 + fat_sectors (bs f) <= capacity (v_disk v) →
  holds (v_disk v) buf (fat_sectors (bs f)) →
  length buf = Z.to_nat (512 * fat_sectors (bs f)) →
  wp fat_open v (λ _ v', v_fat v' = set_fat (bytes_words (Z.to_nat (fat_length f)) buf) f).
Proof.
  destruct v as [d f mem]. simpl. intros -> Hstart Hfs Hfl Hcap Hh Hbuf.
  assert (Hsz : fat_size_in_bytes f = 512 * fat_sectors (bs f)).
  { unfold fat_size_in_bytes. rewrite Hfl, u64_small by lia. rewrite s32_small; lia. }
  unfold fat_open. wp_step. apply wp_malloc_or_panic; [done|]. do 3 wp_step. simpl.
  apply (wp_for (λ p st v', snd st = 512 * Z.of_nat (length p) ∧ v_fat v' = f ∧
    v_mem v' = [] ∧ capacity (v_disk v') = capacity d ∧
    sectors (v_disk v') = sectors d ∧ length (fst st) = length buf ∧
    take (Z.to_nat (snd st)) (fst st) = take (Z.to_nat (snd st)) buf)).
  - intros p b r [bf rd] [d' f' m'] Hp (Hrd & Hf & Hm & Hc & Hsec & Hlb & Htk).
    simpl in *. subst. apply seqZ_prefix in Hp as [-> Hb].
    do 2 wp_step. simpl. rewrite Hsz.
    rewrite (proj2 (Z.leb_le _ _)) by (unfold DISK_SECTOR_SIZE; lia).
    rewrite Hstart, u32_small by lia.
    unfold on_disk. do 2 wp_step. simpl. apply wp_disk_read; [split; lia|]. wp_step. simpl.
    assert (Hsa : sector_at d' (1 + Z.of_nat (length p))
                  = take 512 (drop (Z.to_nat (512 * Z.of_nat (length p))) buf)).
    { rewrite <- Hh by lia. unfold sector_at. by rewrite Hsec. }
    rewrite Hsa. rewrite length_app. simpl. unfold DISK_SECTOR_SIZE.
    assert (Hld : length (take 512 (drop (Z.to_nat (512 * Z.of_nat (length p))) buf)) = 512%nat).
    { rewrite length_take, length_drop. lia. }
    split; [lia|]. do 4 (split; [done|]). split.
    + rewrite length_splice; [done|]. rewrite Hld. lia.
    + replace (Z.to_nat (512 * Z.of_nat (length p) + 512))
        with (Z.to_nat (512 * Z.of_nat (length p)) + 512)%nat by lia.
      rewrite <- Hld at 1. rewrite splice_take by (rewrite Hld; lia).
      by rewrite take_more, Htk.
  - simpl. split_and!; [done..| |done]. rewrite length_replicate. lia.
  - intros [bf rd] [d' f' m'] (Hrd & Hf & Hm & Hc & Hsec & Hlb & Htk).
    simpl in *. subst. unfold on_fat. do 2 wp_step. simpl. rewrite length_seqZ in Htk.
    rewrite !take_ge in Htk by lia. by rewrite Htk.
Qed.

(** C34: What a shutdown writes the next boot reads back: the boot record, the
    table and the layout; only the rover starts over. *)
Theorem fat_close_open_roundtrip v :
  laid_out (v_disk v) (v_fat v) → v_mem v = [] →
  ∃ v1 v2, fat_close v = Done (tt, v1) ∧
    (_ ← fat_init; fat_open) (Vol (v_disk v1) zero_fat_fs []) = Done (tt, v2) ∧
    v_fat v2 = set_last_clst (ROOT_DIR_CLUSTER + 1) (v_fat v).
Proof.
  intros Hlo Hm. destruct (laid_out_bytes _ _ Hlo) as [Hsz Hbl].
  destruct (proj1 (wp_done _ _ _) (fat_close_wp v Hlo Hm))
    as ([] & v1 & Hclose & Hf1 & Hm1 & Hcap & Hboot & Hh).
  set (f := v_fat v) in *.
  assert (wp (_ ← fat_init; fat_open) (Vol (v_disk v1) zero_fat_fs [])
            (λ _ v2, v_fat v2 = set_last_clst (ROOT_DIR_CLUSTER + 1) f)) as Hwp.
  { wp_step. unfold fat_init, on_fat, on_disk. destruct (lo_fits _ _ Hlo).
    pose proof (lo_sectors _ _ Hlo).
    wp_pure. apply wp_malloc_or_panic; [done|]. wp_pure.
    apply wp_malloc_or_panic; [done|]. wp_pure. simpl.
    apply wp_disk_read; [split; unfold FAT_BOOT_SECTOR; lia|].
    change FAT_BOOT_SECTOR with 0. rewrite Hboot, boot_of_boot_sector by apply (lo_boot _ _ Hlo).
    wp_pure. simpl. rewrite (lo_magic _ _ Hlo). simpl. wp_pure. simpl.
    unfold fat_fs_init. simpl.
    rewrite (lo_start _ _ Hlo), (u32_small (_ * 512)) by lia.
    unfold SECTORS_PER_CLUSTER. change (4 * 1) with 4.
    replace (fat_sectors (bs f) * 512) with (128 * fat_sectors (bs f) * 4) by lia.
    rewrite Z.div_mul, !u32_small by lia.
    eapply wp_mono; [apply (fat_open_wp _ (words_bytes (fat f))); simpl; try done|].
    - apply (lo_start _ _ Hlo).
    - lia.
    - intros [] v2 ->. simpl.
      assert (bytes_words (Z.to_nat (128 * fat_sectors (bs f))) (words_bytes (fat f)) = fat f) as ->.
      { rewrite <- (lo_length _ _ Hlo), <- (lo_array _ _ Hlo). unfold zlength.
        rewrite Nat2Z.id. apply bytes_words_bytes, (lo_words _ _ Hlo). }
      unfold set_fat, set_last_clst. simpl.
      by rewrite (lo_length _ _ Hlo), (lo_data _ _ Hlo). }
  apply wp_done in Hwp as ([] & v2 & Hrun & Hv2). eauto.
Qed.
