(* ===== verification/Inode.v ===== *)
(** * Inodes (filesys/inode.c)

    On-disk and in-memory inodes, the table of open inodes, and reading,
    writing and growing of files over the cluster chains. *)
From stdpp Require Import base numbers list sets gmap.
From Stdlib Require Import ZArith Lia.
From S2P Require Import Prelude Bytes Fat Volume.
Open Scope Z_scope.

Definition INODE_MAGIC : Z := 1229868868. (* 0x494e4f44 *)
Definition ROOT_DIR_SECTOR : Z := 1.

(** struct inode_disk; [id_unused] is [unused] and the padding to 512 bytes. *)
Record inode_disk := InodeDisk {
  id_start : Z;
  id_length : Z;
  id_magic : Z;
  id_isdir : bool;
  id_unused : list Z;
}.

(** struct inode, without its list element *)
Record inode := Inode {
  i_sector : Z;
  open_cnt : Z;
  removed : bool;
  deny_write_cnt : Z;
  i_data : inode_disk;
}.

Definition set_open_cnt n i := Inode (i_sector i) n (removed i) (deny_write_cnt i) (i_data i).
Definition set_removed b i := Inode (i_sector i) (open_cnt i) b (deny_write_cnt i) (i_data i).
Definition set_deny n i := Inode (i_sector i) (open_cnt i) (removed i) n (i_data i).
Definition set_data d i := Inode (i_sector i) (open_cnt i) (removed i) (deny_write_cnt i) d.
Definition set_start c d := InodeDisk c (id_length d) (id_magic d) (id_isdir d) (id_unused d).
Definition set_length n d := InodeDisk (id_start d) n (id_magic d) (id_isdir d) (id_unused d).

(** The bytes of a [struct inode_disk] in its sector. *)
Definition inode_bytes (d : inode_disk) : list Z :=
  le_bytes 4 (id_start d) ++ le_bytes 4 (u32 (id_length d)) ++ le_bytes 4 (id_magic d)
  ++ (if id_isdir d then 1 else 0) :: id_unused d.

Definition inode_of_bytes (l : list Z) : inode_disk :=
  InodeDisk (le_val (take 4 l)) (s32 (le_val (take 4 (drop 4 l))))
    (le_val (take 4 (drop 8 l))) (negb (default 0 (l !! 12%nat) =? 0)) (drop 13 l).

(** The file system: the volume, the heap of [struct inode]s by address (0 is
    NULL), and the list [open_inodes]. *)
Record fsys := Fsys {
  fs_vol : vol;
  inodes : gmap Z inode;
  open_inodes : list Z;
  next_ptr : Z;
}.

Definition on_vol {A} : ST vol A → ST fsys A :=
  zoom fs_vol (λ v s, Fsys v (inodes s) (open_inodes s) (next_ptr s)).
Definition set_inodes m s := Fsys (fs_vol s) m (open_inodes s) (next_ptr s).
Definition set_open_inodes l s := Fsys (fs_vol s) (inodes s) l (next_ptr s).

(** Access through a [struct inode *]. *)
Definition get_inode (p : Z) : ST fsys inode := s ← get_st; deref (inodes s !! p).
Definition put_inode (p : Z) (i : inode) : ST fsys unit :=
  modify (λ s, set_inodes (<[p := i]> (inodes s)) s).

(** ** Operations *)

Definition bytes_to_sectors (size : Z) : Z := Z.quot (size + 512 - 1) 512.

Definition inode_init : ST fsys unit := modify (set_open_inodes []).

(** One turn of byte_to_sector's [while (sectors > 0)]; [None] is the early
    [return -1]. *)
Definition byte_to_sector_step (cs : Z * Z) : ST vol (Z * Z + option Z) :=
  let '(clst_idx, sectors) := cs in
  if 0 <? sectors then
    clst_idx ← on_fat (fat_get clst_idx);
    if clst_idx =? EOChain then mret (inr None) else mret (inl (clst_idx, sectors - 1))
  else mret (inr (Some clst_idx)).

Definition byte_to_sector (data : inode_disk) (pos : Z) : ST vol Z :=
  if id_length data <? pos then mret (u32 (-1)) else
  let sectors := Z.quot pos DISK_SECTOR_SIZE in
  let clst_idx := id_start data in
  if (clst_idx =? 0) || (clst_idx =? EOChain) then mret (u32 (-1)) else
  r ← loop (S (Z.to_nat sectors)) byte_to_sector_step (clst_idx, sectors);
  match r with
  | None => mret (u32 (-1))
  | Some clst_idx => f ← gets v_fat; mret (cluster_to_sector f clst_idx)
  end.

Definition inode_create (sector length : Z) (is_dir : bool) : ST fsys bool :=
  _ ← assert_st (0 <=? length);
  ok ← on_vol malloc;
  if negb ok then mret false else
  _ ← int_ok (length + 512 - 1);
  let sectors := bytes_to_sectors length in
  r ← on_vol (on_fat (fat_allocate sectors));
  let '(success, clusterp) := r in
  if negb success then mret false else
  let disk_inode :=
    InodeDisk (default 0 clusterp) length INODE_MAGIC is_dir (replicate 499 0) in
  _ ← on_vol (on_disk (disk_write sector (inode_bytes disk_inode)));
  f ← gets (λ s, v_fat (fs_vol s));
  _ ← for_st (λ i _, on_vol (on_disk
        (disk_write (u32 (cluster_to_sector f (id_start disk_inode) + i)) zero_sector)))
        (seqZ 0 sectors) tt;
  mret true.

Definition inode_reopen (p : Z) : ST fsys Z :=
  if p =? 0 then mret p else
  i ← get_inode p;
  _ ← put_inode p (set_open_cnt (open_cnt i + 1) i);
  mret p.

(** The search through [open_inodes]. *)
Fixpoint find_open (sector : Z) (l : list Z) : ST fsys (option Z) :=
  match l with
  | [] => mret None
  | p :: l => i ← get_inode p; if i_sector i =? sector then mret (Some p) else find_open sector l
  end.

Definition inode_open (sector : Z) : ST fsys Z :=
  s ← get_st;
  r ← find_open sector (open_inodes s);
  match r with
  | Some p => inode_reopen p
  | None =>
      ok ← on_vol malloc;
      if negb ok then mret 0 else
      s ← get_st;
      let p := next_ptr s in
      _ ← modify (λ s, Fsys (fs_vol s) (inodes s) (p :: open_inodes s) (p + 1));
      data ← on_vol (on_disk (disk_read sector));
      _ ← put_inode p (Inode sector 1 false 0 (inode_of_bytes data));
      mret p
  end.

Definition inode_get_inumber (p : Z) : ST fsys Z := i ← get_inode p; mret (i_sector i).

Definition inode_close (p : Z) : ST fsys unit :=
  if p =? 0 then mret tt else
  i ← get_inode p;
  if negb (id_magic (i_data i) =? INODE_MAGIC) then mret tt else
  let i := set_open_cnt (open_cnt i - 1) i in
  _ ← put_inode p i;
  if open_cnt i =? 0 then
    _ ← modify (λ s, set_open_inodes (filter (λ q, q ≠ p) (open_inodes s)) s);
    _ ← (if removed i then
           _ ← on_vol (on_fat (fat_release (id_start (i_data i))));
           f ← gets (λ s, v_fat (fs_vol s));
           on_vol (on_fat (fat_release (sector_to_cluster f (i_sector i))))
         else mret tt);
    modify (λ s, set_inodes (delete p (inodes s)) s)
  else mret tt.

Definition inode_remove (p : Z) : ST fsys unit :=
  _ ← assert_st (negb (p =? 0));
  i ← get_inode p;
  put_inode p (set_removed true i).

Definition inode_length (i : inode) : Z := id_length (i_data i).
Definition is_dir (i : inode) : bool := id_isdir (i_data i).
Definition is_good_inode (i : inode) : bool := id_magic (i_data i) =? INODE_MAGIC.
Definition get_inode_sector (i : inode) : Z := i_sector i.

Definition inode_flush (p : Z) : ST fsys unit :=
  i ← get_inode p;
  on_vol (on_disk (disk_write (i_sector i) (inode_bytes (i_data i)))).

(** The number of bytes of one transfer. *)
Definition chunk_size (length size offset : Z) : Z :=
  let sector_ofs := Z.rem offset DISK_SECTOR_SIZE in
  let inode_left := length - offset in
  let sector_left := DISK_SECTOR_SIZE - sector_ofs in
  let min_left := if inode_left <? sector_left then inode_left else sector_left in
  if size <? min_left then size else min_left.

(** The state of a transfer loop: size, offset, the bytes transferred so far,
    and whether the bounce buffer has been allocated. *)
Definition xfer : Type := Z * Z * list Z * bool.

(** One turn of inode_read_at's loop. *)
Definition read_step (data : inode_disk) (st : xfer) : ST vol (xfer + list Z) :=
  let '(size, offset, acc, bounce) := st in
  if negb (0 <? size) then mret (inr acc) else
  sector_idx ← byte_to_sector data offset;
  let sector_ofs := Z.rem offset DISK_SECTOR_SIZE in
  let chunk := chunk_size (id_length data) size offset in
  if chunk <=? 0 then mret (inr acc) else
  if (sector_ofs =? 0) && (chunk =? DISK_SECTOR_SIZE) then
    sec ← on_disk (disk_read sector_idx);
    mret (inl (size - chunk, offset + chunk, acc ++ sec, bounce))
  else
    ok ← (if bounce then mret true else malloc);
    if negb ok then mret (inr acc) else
    sec ← on_disk (disk_read sector_idx);
    mret (inl (size - chunk, offset + chunk,
               acc ++ take (Z.to_nat chunk) (drop (Z.to_nat sector_ofs) sec), true)).

(** inode_read_at: the bytes stored in the caller's buffer; their number is
    what the code returns. *)
Definition inode_read_at (p size offset : Z) : ST fsys (list Z) :=
  if negb (0 <? size) then mret [] else
  _ ← assert_st (negb (p =? 0));  (* in byte_to_sector *)
  i ← get_inode p;
  on_vol (loop (S (Z.to_nat size)) (read_step (i_data i)) (size, offset, [], false)).

(** One turn of inode_write_at's loop that grows the file; the state is the
    inode's data and [remain_length]. *)
Definition extend_step (st : inode_disk * Z) : ST vol (inode_disk * Z + inode_disk) :=
  let '(data, remain) := st in
  if negb (0 <? remain) then mret (inr data) else
  new_clst ← on_fat (fat_create_chain (id_start data));
  let add_size := if remain <? DISK_SECTOR_SIZE then remain else DISK_SECTOR_SIZE in
  f ← gets v_fat;
  _ ← on_disk (disk_write (cluster_to_sector f new_clst) zero_sector);
  mret (inl (set_length (id_length data + add_size) data, remain - DISK_SECTOR_SIZE)).

(** The growth of a file to [extend_size] bytes. *)
Definition extend (data : inode_disk) (extend_size : Z) : ST vol inode_disk :=
  let last_sector_use_size := Z.rem (id_length data) DISK_SECTOR_SIZE in
  let remain_length := extend_size - id_length data in
  let last_sector_remain_size := DISK_SECTOR_SIZE - last_sector_use_size in
  start ← (if id_start data =? 0 then on_fat (fat_create_chain 0) else mret (id_start data));
  let data := set_start start data in
  let data := set_length (id_length data +
      (if remain_length <? last_sector_remain_size then remain_length
       else last_sector_remain_size)) data in
  let remain_length := remain_length - last_sector_remain_size in
  loop (S (Z.to_nat remain_length)) extend_step (data, remain_length).

(** One turn of inode_write_at's loop; the transfer state holds what is left
    of the caller's buffer. *)
Definition write_step (data : inode_disk) (st : xfer * Z) : ST vol (xfer * Z + Z) :=
  let '(size, offset, buffer, bounce, bytes_written) := st in
  if negb (0 <? size) then mret (inr bytes_written) else
  sector_idx ← byte_to_sector data offset;
  let sector_ofs := Z.rem offset DISK_SECTOR_SIZE in
  let sector_left := DISK_SECTOR_SIZE - sector_ofs in
  let chunk := chunk_size (id_length data) size offset in
  if chunk <=? 0 then mret (inr bytes_written) else
  let next bounce := inl (size - chunk, offset + chunk, drop (Z.to_nat chunk) buffer, bounce,
                          bytes_written + chunk) in
  if (sector_ofs =? 0) && (chunk =? DISK_SECTOR_SIZE) then
    _ ← on_disk (disk_write sector_idx (take (Z.to_nat chunk) buffer));
    mret (next bounce)
  else
    ok ← (if bounce then mret true else malloc);
    if negb ok then mret (inr bytes_written) else
    old ← (if (0 <? sector_ofs) || (chunk <? sector_left)
           then on_disk (disk_read sector_idx) else mret zero_sector);
    _ ← on_disk (disk_write sector_idx
          (splice (Z.to_nat sector_ofs) (take (Z.to_nat chunk) buffer) old));
    mret (next true).

Definition inode_write_at (p : Z) (buffer : list Z) (size offset : Z) : ST fsys Z :=
  i ← get_inode p;
  if negb (deny_write_cnt i =? 0) then mret 0 else
  extend_size ← int_ok (offset + size);
  data ← (if inode_length i <? extend_size then on_vol (extend (i_data i) extend_size)
          else mret (i_data i));
  _ ← put_inode p (set_data data i);
  n ← on_vol (loop (S (Z.to_nat size)) (write_step data) (size, offset, buffer, false, 0));
  _ ← inode_flush p;
  mret n.

Definition inode_deny_write (p : Z) : ST fsys unit :=
  i ← get_inode p;
  let i := set_deny (deny_write_cnt i + 1) i in
  _ ← put_inode p i;
  assert_st (deny_write_cnt i <=? open_cnt i).

Definition inode_allow_write (p : Z) : ST fsys unit :=
  i ← get_inode p;
  _ ← assert_st (0 <? deny_write_cnt i);
  _ ← assert_st (deny_write_cnt i <=? open_cnt i);
  put_inode p (set_deny (deny_write_cnt i - 1) i).

(** create_root_dir_inode *)
Definition create_root_dir_inode : ST fsys unit :=
  _ ← on_vol (on_fat (fat_put ROOT_DIR_CLUSTER EOChain));
  _ ← on_vol malloc_or_panic;
  f ← gets (λ s, v_fat (fs_vol s));
  _ ← on_vol (on_disk (disk_write (cluster_to_sector f ROOT_DIR_CLUSTER) zero_sector));
  on_vol (on_disk (disk_write ROOT_DIR_SECTOR
    (inode_bytes (InodeDisk ROOT_DIR_CLUSTER 0 INODE_MAGIC true (replicate 499 0))))).

(** ** The inode in its sector *)

(** A value of the C type. *)
Record inode_disk_ok (d : inode_disk) : Prop := {
  ido_start : 0 <= id_start d < 2 ^ 32;
  ido_length : - 2 ^ 31 <= id_length d < 2 ^ 31;
  ido_magic : 0 <= id_magic d < 2 ^ 32;
  ido_unused : length (id_unused d) = 499%nat;
}.

Lemma length_inode_bytes d : inode_disk_ok d → length (inode_bytes d) = 512%nat.
Proof.
  intros []. unfold inode_bytes. rewrite !length_app, !length_le_bytes. simpl. lia.
Qed.

(** An inode read from the sector it was written to is the same inode. *)
Theorem inode_bytes_roundtrip d : inode_disk_ok d → inode_of_bytes (inode_bytes d) = d.
Proof.
  intros [Hs Hl Hm Hu]. unfold inode_of_bytes, inode_bytes.
  destruct d as [st len mg dir un].
  cbn [id_start id_length id_magic id_isdir id_unused] in *.
  assert (Hlen : s32 (u32 len) = len).
  { unfold s32, u32. rewrite Zplus_mod_idemp_l, Z.mod_small; lia. }
  pose proof (u32_range len).
  rewrite take_app_length' by (by rewrite length_le_bytes). rewrite le_val_u32 by done.
  rewrite (drop_app_length' (le_bytes 4 st)) by (by rewrite length_le_bytes).
  rewrite take_app_length' by (by rewrite length_le_bytes). rewrite le_val_u32 by done.
  rewrite Hlen.
  rewrite (app_assoc (le_bytes 4 st)).
  rewrite (drop_app_length' (le_bytes 4 st ++ _)) by (by rewrite length_app, !length_le_bytes).
  rewrite take_app_length' by (by rewrite length_le_bytes). rewrite le_val_u32 by done.
  rewrite app_assoc.
  rewrite lookup_app_r by (rewrite !length_app, !length_le_bytes; done).
  rewrite cons_middle, app_assoc.
  rewrite drop_app_length' by (rewrite !length_app, !length_le_bytes; done).
  rewrite !length_app, !length_le_bytes. simpl. by destruct dir.
Qed.

