(* ===== verification/InodeData.v ===== *)
(** * File data: inode_read_at and inode_write_at

    The contents of a file as one byte string over its cluster chain, and the
    transfer loops of filesys/inode.c as operations on that string. *)
From stdpp Require Import base numbers list sets gmap.
From Stdlib Require Import ZArith Lia.
From S2P Require Import Prelude Bytes Fat Volume Inode.
Open Scope Z_scope.

(** ** The contents of a file *)

Definition cluster_block (v : vol) (c : Z) : list Z :=
  sector_at (v_disk v) (cluster_to_sector (v_fat v) c).

(** All the bytes of the clusters of a file. *)
Definition file_bytes (v : vol) (l : list Z) : list Z := concat (cluster_block v <$> l).

(** The contents proper. *)
Definition file_content (v : vol) (data : inode_disk) (l : list Z) : list Z :=
  take (Z.to_nat (id_length data)) (file_bytes v l).

(** The file with the data [data] occupies the clusters [l]. *)
Record file_on (v : vol) (data : inode_disk) (l : list Z) : Prop := {
  fo_chain : chain (fat (v_fat v)) (id_start data) l;
  fo_start : 0 < id_start data < EOChain;
  fo_clusters : Forall (λ c, 0 <= c < 2 ^ 32) l;
  fo_length : 0 <= id_length data <= 512 * zlength l;
  fo_off : id_length data < 2 ^ 31;
  fo_sectors : Forall (λ c, has_sector (v_disk v) (cluster_to_sector (v_fat v) c)) l;
  fo_blocks : Forall (λ x, length x = 512%nat) (cluster_block v <$> l);
}.

Lemma file_on_wf v data l :
  wf_fat (v_fat v) → chain (fat (v_fat v)) (id_start data) l → l ≠ [] →
  0 <= id_length data <= 512 * zlength l → id_length data < 2 ^ 31 →
  Forall (λ c, has_sector (v_disk v) (cluster_to_sector (v_fat v) c)) l →
  Forall (λ x, length x = 512%nat) (cluster_block v <$> l) → file_on v data l.
Proof.
  intros Hwf Hc Hne ????.
  assert (Hp : ∀ c, c ∈ l → 1 <= c < EOChain).
  { intros c Hin. pose proof (chain_pos _ _ _ _ Hwf Hc Hin).
    pose proof (wf_len_range _ Hwf). lia. }
  split; try done.
  - destruct l as [|c l]; [done|]. destruct Hc as (-> & _).
    assert (1 <= c < EOChain) by (apply Hp; set_solver). lia.
  - apply Forall_forall. intros c Hin%Hp. unfold EOChain in *. lia.
Qed.

(** [v'] differs from [v] in its transfer counters only. *)
Definition same_data (v v' : vol) : Prop :=
  v_fat v' = v_fat v ∧ v_mem v' = v_mem v ∧ capacity (v_disk v') = capacity (v_disk v) ∧
  sectors (v_disk v') = sectors (v_disk v).

Lemma same_data_refl v : same_data v v.
Proof. done. Qed.

Lemma same_block v v' c : same_data v v' → cluster_block v' c = cluster_block v c.
Proof. intros (Hf & _ & _ & Hs). unfold cluster_block, sector_at. by rewrite Hf, Hs. Qed.

Lemma same_blocks v v' (l : list Z) : same_data v v' → cluster_block v' <$> l = cluster_block v <$> l.
Proof.
  intros Hs. induction l as [|c l IH]; [done|]. by rewrite !fmap_cons, IH, (same_block v v' c Hs).
Qed.

(** Two clusters of the table are two sectors. *)
Lemma cluster_to_sector_inj f c c' :
  0 <= c < 2 ^ 32 → 0 <= c' < 2 ^ 32 →
  cluster_to_sector f c = cluster_to_sector f c' → c = c'.
Proof.
  intros Hc Hc' Heq. unfold cluster_to_sector, u32 in Heq.
  rewrite <- (Z.mod_small c (2 ^ 32)), <- (Z.mod_small c' (2 ^ 32)) by done.
  replace c with (data_start f + (c - 1) + (1 - data_start f)) by lia.
  replace c' with (data_start f + (c' - 1) + (1 - data_start f)) by lia.
  by rewrite <- Zplus_mod_idemp_l, Heq, Zplus_mod_idemp_l.
Qed.

(** ** byte_to_sector *)

Lemma byte_to_sector_chain v data l pos :
  chain (fat (v_fat v)) (id_start data) l → 0 < id_start data < EOChain →
  0 <= pos <= id_length data → pos / 512 <= zlength l →
  wp (byte_to_sector data pos) v (λ s v', v' = v ∧
    s = match l !! Z.to_nat (pos / 512) with
        | Some c => cluster_to_sector (v_fat v) c
        | None => u32 (-1)
        end).
Proof.
  intros Hc Hst Hpos Hle. unfold byte_to_sector, DISK_SECTOR_SIZE.
  rewrite (proj2 (Z.ltb_ge _ _)) by lia. rewrite Z.quot_div_nonneg by lia.
  rewrite !(proj2 (Z.eqb_neq _ _)) by lia. simpl.
  set (k := pos / 512). assert (Hk : 0 <= k <= zlength l) by (unfold k; zdiv).
  wp_step.
  apply (wp_loop (λ n cs s, s = v ∧ snd cs = Z.of_nat n ∧ Z.of_nat n <= k ∧
      chain (fat (v_fat v)) (fst cs) (drop (Z.to_nat k - n) l) ∧
      (fst cs ≠ EOChain)) _ _ (Z.to_nat k)).
  - intros n [c sec] s (-> & Hsec & Hn & Hch & Hce). simpl in *. subst sec.
    unfold byte_to_sector_step. destruct n as [|n].
    + simpl. wp_pure. split; [done|].
      rewrite Nat.sub_0_r in Hch. destruct (l !! Z.to_nat k) as [c'|] eqn:Hl.
      * rewrite (drop_S _ _ _ Hl) in Hch. by destruct Hch as (-> & _).
      * apply lookup_ge_None in Hl. rewrite drop_ge in Hch by done. simpl in Hch. done.
    + rewrite (proj2 (Z.ltb_lt _ _)) by lia. unfold on_fat. wp_pure.
      destruct (l !! (Z.to_nat k - S n)%nat) as [c'|] eqn:Hl.
      2: { apply lookup_ge_None in Hl. rewrite drop_ge in Hch by done. simpl in Hch. done. }
      rewrite (drop_S _ _ _ Hl) in Hch. destruct Hch as (-> & _ & nx & Hnx & Hch).
      apply (wp_fat_get _ _ nx); [done|].
      replace (S (Z.to_nat k - S n)) with (Z.to_nat k - n)%nat in Hch by lia.
      destruct (Z.eqb_spec nx EOChain) as [->|Hne].
      * wp_pure. split; [by destruct v|].
        assert (l !! Z.to_nat k = None) as ->; [|done].
        destruct (drop (Z.to_nat k - n) l) eqn:Hd; [|by destruct Hch as (<- & ? & _)].
        apply lookup_ge_None. apply (f_equal length) in Hd. rewrite length_drop in Hd.
        simpl in Hd. lia.
      * wp_pure. exists n. split; [lia|]. simpl. split; [by destruct v|].
        split; [lia|]. split; [lia|]. split; [done|done].
  - simpl. rewrite Nat.sub_diag, drop_0. split; [done|]. split; [lia|].
    split; [lia|]. split; [done|lia].
  - lia.
Qed.

Lemma byte_to_sector_wp v data l pos :
  file_on v data l → 0 <= pos <= id_length data →
  wp (byte_to_sector data pos) v (λ s v', v' = v ∧
    s = match l !! Z.to_nat (pos / 512) with
        | Some c => cluster_to_sector (v_fat v) c
        | None => u32 (-1)
        end).
Proof. intros [] Hpos. apply byte_to_sector_chain; [done..|zdiv]. Qed.

Lemma byte_to_sector_in v data l pos c :
  file_on v data l → 0 <= pos <= id_length data → l !! Z.to_nat (pos / 512) = Some c →
  wp (byte_to_sector data pos) v (λ s v', v' = v ∧ s = cluster_to_sector (v_fat v) c).
Proof.
  intros Hf Hpos Hl. eapply wp_mono; [by eapply byte_to_sector_wp|]. simpl.
  intros s v'. by rewrite Hl.
Qed.

Lemma byte_to_sector_total v data l pos :
  file_on v data l → 0 <= pos → wp (byte_to_sector data pos) v (λ _ v', v' = v).
Proof.
  intros Hf Hpos. destruct (decide (pos <= id_length data)).
  - eapply wp_mono; [by eapply byte_to_sector_wp|]. by intros ?? [-> _].
  - unfold byte_to_sector. rewrite (proj2 (Z.ltb_lt _ _)) by lia. by wp_step.
Qed.

(** ** One transfer *)

Lemma chunk_size_spec len size offset :
  0 <= offset → 0 < size →
  let ch := chunk_size len size offset in
  Z.rem offset DISK_SECTOR_SIZE = offset mod 512 ∧ ch <= size ∧ ch <= len - offset ∧
  ch <= 512 - offset mod 512 ∧ (offset < len → 0 < ch) ∧
  (ch < size → ch < len - offset → ch = 512 - offset mod 512).
Proof.
  intros Ho Hs ch. unfold ch, chunk_size, DISK_SECTOR_SIZE.
  rewrite Z.rem_mod_nonneg by lia. pose proof (Z.mod_pos_bound offset 512).
  split; [done|].
  destruct (Z.ltb_spec (len - offset) (512 - offset mod 512)).
  - destruct (Z.ltb_spec size (len - offset)); lia.
  - destruct (Z.ltb_spec size (512 - offset mod 512)); lia.
Qed.

(** The cluster that holds byte [offset] of a file. *)
Lemma file_cluster v data l offset :
  file_on v data l → 0 <= offset < id_length data →
  ∃ c, l !! Z.to_nat (offset / 512) = Some c.
Proof.
  intros [] Ho. apply lookup_lt_is_Some. unfold zlength in *. zdiv.
Qed.

(** A range inside one sector is a range of the file. *)
Lemma file_chunk v data l offset n c :
  file_on v data l → 0 <= offset → l !! Z.to_nat (offset / 512) = Some c →
  0 <= n <= 512 - offset mod 512 →
  take (Z.to_nat n) (drop (Z.to_nat (offset mod 512)) (cluster_block v c))
  = take (Z.to_nat n) (drop (Z.to_nat offset) (file_bytes v l)).
Proof.
  intros Hf Ho Hl Hn. unfold file_bytes.
  rewrite <- (blocks_read 512 (cluster_block v <$> l) (Z.to_nat (offset / 512))
                (Z.to_nat (offset mod 512))).
  - do 2 f_equal. zdiv.
  - apply (fo_blocks _ _ _ Hf).
  - by rewrite list_lookup_fmap, Hl.
  - zdiv.
Qed.

Lemma length_file_bytes v data l :
  file_on v data l → length (file_bytes v l) = (512 * length l)%nat.
Proof.
  intros Hf. unfold file_bytes. rewrite (length_blocks 512) by apply (fo_blocks _ _ _ Hf).
  by rewrite length_fmap.
Qed.

(** The sector and the block of the cluster that holds byte [offset]. *)
Lemma file_block_ok v data l k c :
  file_on v data l → l !! k = Some c →
  has_sector (v_disk v) (cluster_to_sector (v_fat v) c) ∧
  length (cluster_block v c) = 512%nat ∧ 0 <= c < 2 ^ 32.
Proof.
  intros [] Hl. split; [|split].
  - by eapply (Forall_lookup_1 _ _ _ _ fo_sectors0).
  - apply (Forall_lookup_1 _ _ k _ fo_blocks0). by rewrite list_lookup_fmap, Hl.
  - by eapply (Forall_lookup_1 _ _ _ _ fo_clusters0).
Qed.

(** A property of a file that only depends on the data. *)
Lemma same_file_on v v' data l : same_data v v' → file_on v data l → file_on v' data l.
Proof.
  intros Hs []. pose proof Hs as (Hf & _ & Hcap & _).
  split; rewrite ?Hf, ?(same_blocks v v' l Hs); try done.
  eapply Forall_impl; [exact fo_sectors0|]. intros c. unfold has_sector. by rewrite Hcap.
Qed.

Lemma same_file_bytes v v' l : same_data v v' → file_bytes v' l = file_bytes v l.
Proof.
  intros Hs. unfold file_bytes. by rewrite (same_blocks v v' l Hs).
Qed.

(** ** inode_read_at *)

Lemma take_drop_chunk (l : list Z) (a b c : nat) :
  take (b + c) (drop a l) = take b (drop a l) ++ take c (drop (a + b) l).
Proof.
  rewrite take_more, drop_drop. done.
Qed.

Lemma take_take_drop (l : list Z) (len off n : nat) :
  (off + n ≤ len)%nat → take n (drop off (take len l)) = take n (drop off l).
Proof.
  intros. rewrite skipn_firstn_comm, take_take. by rewrite Nat.min_l by lia.
Qed.

Lemma read_loop_wp v data l size offset :
  file_on v data l → v_mem v = [] → 0 <= offset → 0 <= size →
  wp (loop (S (Z.to_nat size)) (read_step data) (size, offset, [], false)) v
    (λ r v', same_data v v' ∧
       r = take (Z.to_nat size) (drop (Z.to_nat offset) (file_content v data l))).
Proof.
  intros Hf Hm Ho Hs. set (C := file_content v data l).
  apply (wp_loop (λ n st v', same_data v v' ∧
    let '(sz, off, acc, _) := st in
    n = Z.to_nat sz ∧ 0 <= sz ∧ offset <= off ∧ off + sz = offset + size ∧
    (off = offset ∨ off <= id_length data) ∧
    acc = take (Z.to_nat (off - offset)) (drop (Z.to_nat offset) C))
    _ _ (Z.to_nat size)); [| |lia].
  2: { split; [apply same_data_refl|]. rewrite Z.sub_diag. split_and!; [lia..|by left|done]. }
  intros n [[[sz off] acc] bounce] v' (Hsd & -> & Hsz & Hoff & Hsum & Hin & ->).
  assert (HlC : (length C ≤ Z.to_nat (id_length data))%nat).
  { unfold C, file_content. rewrite length_take. lia. }
  assert (Hfin : sz = 0 ∨ id_length data <= off →
    take (Z.to_nat (off - offset)) (drop (Z.to_nat offset) C)
    = take (Z.to_nat size) (drop (Z.to_nat offset) C)).
  { intros Hend. destruct (decide (sz = 0)); [f_equal; lia|].
    destruct Hin as [->|Hin].
    - rewrite drop_ge by lia. by rewrite !take_nil.
    - rewrite !take_ge by (rewrite length_drop; lia). done. }
  unfold read_step. destruct (Z.ltb_spec 0 sz); simpl.
  2: { wp_pure. split; [done|]. apply Hfin. lia. }
  destruct (chunk_size_spec (id_length data) sz off) as (Hrem & H1 & H2 & H3 & H4 & _); [lia..|].
  wp_step. destruct (Z.leb_spec (chunk_size (id_length data) sz off) 0) as [Hch|Hch].
  { eapply wp_mono.
    { apply (byte_to_sector_total _ _ l); [by eapply same_file_on|lia]. }
    intros s ? ->. wp_step. split; [done|]. apply Hfin. lia. }
  destruct (file_cluster v data l off Hf) as [c Hc]; [lia|].
  eapply wp_mono; [apply (byte_to_sector_in _ _ l _ c); [by eapply same_file_on|lia|done]|].
  intros s ? (-> & ->). set (ch := chunk_size (id_length data) sz off) in *.
  destruct (file_block_ok v' data l (Z.to_nat (off / 512)) c) as (Hsec & Hblk & _);
    [by eapply same_file_on|done|].
  rewrite Hrem.
  assert (Hpiece : take (Z.to_nat ch) (drop (Z.to_nat (off mod 512)) (cluster_block v' c))
                   = take (Z.to_nat ch) (drop (Z.to_nat off) C)).
  { rewrite (same_block v v') by done. rewrite (file_chunk v data l) by (done || lia).
    unfold C, file_content. by rewrite take_take_drop by lia. }
  assert (Hnext : ∀ b (v2 : vol), same_data v v2 →
    ∃ n', (n' < Z.to_nat sz)%nat ∧ same_data v v2 ∧
      let '(sz2, off2, acc, _) := (sz - ch, off + ch,
        take (Z.to_nat (off - offset)) (drop (Z.to_nat offset) C) ++
        take (Z.to_nat ch) (drop (Z.to_nat (off mod 512)) (cluster_block v' c)), b) : xfer in
      n' = Z.to_nat sz2 ∧ 0 <= sz2 ∧ offset <= off2 ∧ off2 + sz2 = offset + size ∧
      (off2 = offset ∨ off2 <= id_length data) ∧
      acc = take (Z.to_nat (off2 - offset)) (drop (Z.to_nat offset) C)).
  { intros b v2 Hv2. exists (Z.to_nat (sz - ch)). split; [lia|]. split; [done|].
    split_and!; [lia..|right; lia|]. rewrite Hpiece.
    replace (Z.to_nat (off + ch - offset)) with (Z.to_nat (off - offset) + Z.to_nat ch)%nat by lia.
    rewrite take_drop_chunk. do 3 f_equal. lia. }
  assert (Hsd' : same_data v (Vol (Disk (capacity (v_disk v')) (sectors (v_disk v'))
    (read_cnt (v_disk v') + 1) (write_cnt (v_disk v'))) (v_fat v') (v_mem v'))) by done.
  destruct (Z.eqb_spec (off mod 512) 0) as [Hz|Hz];
    destruct (Z.eqb_spec ch DISK_SECTOR_SIZE) as [Hc5|Hc5]; simpl.
  { unfold on_disk. wp_pure. apply wp_disk_read; [done|]. wp_pure.
    fold (cluster_block v' c).
    specialize (Hnext bounce _ Hsd').
    rewrite Hz, drop_0, (take_ge (cluster_block v' c)) in Hnext; [exact Hnext|].
    unfold DISK_SECTOR_SIZE in *. lia. }
  all: wp_step; assert (Hm' : v_mem v' = []) by (by destruct Hsd as (_ & -> & _)).
  all: apply wp_if; destruct bounce; [wp_step|apply wp_malloc_ok; [done|]]; simpl.
  all: unfold on_disk; wp_pure; apply wp_disk_read; [done|]; wp_pure; fold (cluster_block v' c).
  all: exact (Hnext true _ Hsd').
Qed.

(** ** inode_write_at *)

(** [v'] is [v] with the clusters [l] holding [B] instead. *)
Record rewrote (v : vol) (l : list Z) (B : list Z) (v' : vol) : Prop := {
  rw_fat : v_fat v' = v_fat v;
  rw_mem : v_mem v' = v_mem v;
  rw_capacity : capacity (v_disk v') = capacity (v_disk v);
  rw_bytes : file_bytes v' l = B;
  rw_blocks : Forall (λ x, length x = 512%nat) (cluster_block v' <$> l);
  rw_other : ∀ s, (∀ c, c ∈ l → s ≠ cluster_to_sector (v_fat v) c) →
    sector_at (v_disk v') s = sector_at (v_disk v) s;
}.

Lemma rewrote_refl v data l : file_on v data l → rewrote v l (file_bytes v l) v.
Proof. intros []. by split. Qed.

Lemma rewrote_file_on v l B v' data : file_on v data l → rewrote v l B v' → file_on v' data l.
Proof.
  intros [] []. split; rewrite ?rw_fat0; try done.
  eapply Forall_impl; [exact fo_sectors0|]. intros c. unfold has_sector. by rewrite rw_capacity0.
Qed.

Lemma rewrote_trans v l B v1 B' v2 : rewrote v l B v1 → rewrote v1 l B' v2 → rewrote v l B' v2.
Proof.
  intros [] []. split; try congruence.
  intros s Hs. rewrite rw_other1; [by apply rw_other0|]. by rewrite rw_fat0.
Qed.

Lemma rewrote_read v v' l B : same_data v v' → rewrote v l B v → rewrote v l B v'.
Proof.
  intros Hsd [????? _]. pose proof Hsd as (?&?&?&Hse).
  split; try done.
  - by rewrite (same_file_bytes v v').
  - by rewrite (same_blocks v v').
  - intros s _. unfold sector_at. by rewrite Hse.
Qed.

(** The blocks of a file after a write to one of its clusters. *)
Lemma cluster_block_write (v : vol) (l : list Z) k c b r w :
  Forall (λ c, 0 <= c < 2 ^ 32) l → NoDup l → l !! k = Some c →
  let v' := Vol (Disk (capacity (v_disk v))
    (<[cluster_to_sector (v_fat v) c := b]> (sectors (v_disk v))) r w) (v_fat v) (v_mem v) in
  cluster_block v' <$> l = <[k := b]> (cluster_block v <$> l).
Proof.
  intros Hr Hnd Hk v'. apply list_eq. intros i.
  rewrite list_lookup_fmap. destruct (decide (i = k)) as [->|Hik].
  - rewrite Hk, list_lookup_insert_eq; simpl.
    + f_equal. unfold cluster_block. simpl. apply sector_at_insert.
    + rewrite length_fmap. by eapply lookup_lt_Some.
  - rewrite list_lookup_insert_ne by done. rewrite list_lookup_fmap.
    destruct (l !! i) as [c'|] eqn:Hi; [|done]. simpl. f_equal.
    unfold cluster_block. simpl. apply sector_at_insert_ne. intros Heq.
    apply cluster_to_sector_inj in Heq; [|by eapply (Forall_lookup_1 _ _ _ _ Hr)..].
    subst c'. apply Hik. by eapply NoDup_lookup.
Qed.

Lemma write_chunk v data l off o n c buf r w :
  file_on v data l → 0 <= off → l !! Z.to_nat (off / 512) = Some c →
  o = off mod 512 → Z.of_nat (length buf) = n → 0 <= n <= 512 - o →
  rewrote v l (splice (Z.to_nat off) buf (file_bytes v l))
    (Vol (Disk (capacity (v_disk v))
       (<[cluster_to_sector (v_fat v) c := splice (Z.to_nat o) buf (cluster_block v c)]>
          (sectors (v_disk v))) r w) (v_fat v) (v_mem v)).
Proof.
  intros Hf Ho Hc -> Hb Hn. assert (0 <= off mod 512 < 512) by (apply Z.mod_pos_bound; lia).
  destruct (file_block_ok v data l (Z.to_nat (off / 512)) c) as (_ & Hblk & _); [done..|].
  set (nb := splice _ buf (cluster_block v c)).
  assert (Hlen : length nb = 512%nat) by (unfold nb; rewrite length_splice; [done|lia]).
  pose proof (cluster_block_write v l (Z.to_nat (off / 512)) c nb r w
    (fo_clusters _ _ _ Hf) (chain_NoDup _ _ _ (fo_chain _ _ _ Hf)) Hc) as Hcb. simpl in Hcb.
  split; simpl; [done..| | |].
  - unfold file_bytes. rewrite Hcb. unfold nb.
    rewrite (blocks_write 512); [|apply (fo_blocks _ _ _ Hf)|by rewrite list_lookup_fmap, Hc|lia].
    f_equal. zdiv.
  - rewrite Hcb. apply Forall_insert; [apply (fo_blocks _ _ _ Hf)|done].
  - intros s Hs. apply sector_at_insert_ne. intros <-. apply (Hs c); [|done].
    by eapply list_elem_of_lookup_2.
Qed.

Lemma write_loop_wp v data l buf size offset :
  file_on v data l → v_mem v = [] → 0 <= offset → offset + size <= id_length data →
  0 <= size → zlength buf = size →
  wp (loop (S (Z.to_nat size)) (write_step data) (size, offset, buf, false, 0)) v
    (λ r v', r = size ∧ rewrote v l (splice (Z.to_nat offset) buf (file_bytes v l)) v').
Proof.
  intros Hf Hm Ho Hfit Hs Hbuf. unfold zlength in Hbuf.
  pose proof (fo_length _ _ _ Hf) as Hle. pose proof (length_file_bytes _ _ _ Hf) as HlB.
  set (B := file_bytes v l) in *.
  apply (wp_loop (λ n st v', let '(sz, off, rest, _, wr) := st in
    n = Z.to_nat sz ∧ 0 <= sz ∧ offset <= off ∧ off + sz = offset + size ∧ wr = off - offset ∧
    rest = drop (Z.to_nat wr) buf ∧
    rewrote v l (splice (Z.to_nat offset) (take (Z.to_nat wr) buf) B) v')
    _ _ (Z.to_nat size)); [| |lia].
  2: { split_and!; [lia..|by rewrite drop_0|]. rewrite take_0, splice_nil.
       by apply (rewrote_refl _ data). }
  intros n [[[[sz off] rest] bounce] wr] v' (-> & Hsz & Hoff & Hsum & -> & -> & Hrw).
  unfold write_step. destruct (Z.ltb_spec 0 sz); simpl.
  2: { wp_pure. split; [lia|]. by rewrite take_ge in Hrw by lia. }
  destruct (chunk_size_spec (id_length data) sz off) as (Hrem & H1 & H2 & H3 & H4 & H5); [lia..|].
  set (ch := chunk_size (id_length data) sz off) in *.
  destruct (file_cluster v data l off Hf) as [c Hc]; [lia|].
  pose proof (rewrote_file_on _ _ _ _ _ Hf Hrw) as Hf'.
  wp_step. eapply wp_mono; [apply (byte_to_sector_in _ _ l _ c); [done|lia|done]|].
  intros s ? (-> & ->).
  destruct (file_block_ok v' data l (Z.to_nat (off / 512)) c) as (Hsec & Hblk & _); [done..|].
  rewrite (proj2 (Z.leb_gt _ _)) by lia. rewrite Hrem. cbv zeta.
  set (piece := take (Z.to_nat ch) (drop (Z.to_nat (off - offset)) buf)).
  assert (Hpl : Z.of_nat (length piece) = ch).
  { unfold piece. rewrite length_take, length_drop. lia. }
  assert (Hnext : ∀ rc wc, rewrote v l
    (splice (Z.to_nat offset) (take (Z.to_nat (off - offset + ch)) buf) B)
    (Vol (Disk (capacity (v_disk v')) (<[cluster_to_sector (v_fat v') c :=
       splice (Z.to_nat (off mod 512)) piece (cluster_block v' c)]> (sectors (v_disk v')))
       rc wc) (v_fat v') (v_mem v'))).
  { intros rc wc. eapply rewrote_trans; [exact Hrw|].
    replace (Z.to_nat (off - offset + ch))
      with (Z.to_nat (off - offset) + Z.to_nat ch)%nat by lia.
    rewrite take_more. fold piece.
    rewrite splice_app by (rewrite length_take; unfold zlength in *; lia).
    replace (Z.to_nat offset + length (take (Z.to_nat (off - offset)) buf))%nat
      with (Z.to_nat off) by (rewrite length_take; lia).
    rewrite <- (rw_bytes _ _ _ _ Hrw).
    apply (write_chunk v' data l off _ ch); (done || lia). }
  assert (Hm' : v_mem v' = []) by (by rewrite (rw_mem _ _ _ _ Hrw)).
  assert (Hgoal : ∀ b v2, rewrote v l
      (splice (Z.to_nat offset) (take (Z.to_nat (off - offset + ch)) buf) B) v2 →
    ∃ n', (n' < Z.to_nat sz)%nat ∧
      let '(sz, off, rest, _, wr) := (sz - ch, off + ch,
        drop (Z.to_nat ch) (drop (Z.to_nat (off - offset)) buf), b, off - offset + ch)
        : xfer * Z in
      n' = Z.to_nat sz ∧ 0 <= sz ∧ offset <= off ∧ off + sz = offset + size ∧
      wr = off - offset ∧ rest = drop (Z.to_nat wr) buf ∧
      rewrote v l (splice (Z.to_nat offset) (take (Z.to_nat wr) buf) B) v2).
  { intros b v2 Hv2. exists (Z.to_nat (sz - ch)). split; [lia|].
    split_and!; [lia..| |done]. rewrite drop_drop. f_equal. lia. }
  destruct ((off mod 512 =? 0) && (ch =? DISK_SECTOR_SIZE)) eqn:Hfull.
  { apply andb_true_iff in Hfull as [Hz%Z.eqb_eq Hc5%Z.eqb_eq].
    unfold on_disk. wp_pure. apply wp_disk_write; [done|]. wp_pure. simpl.
    refine (Hgoal bounce _ _). fold piece.
    replace piece with (splice (Z.to_nat (off mod 512)) piece (cluster_block v' c)) at 1;
      [apply Hnext|].
    rewrite Hz. unfold splice. simpl. rewrite drop_ge, app_nil_r; [done|].
    unfold DISK_SECTOR_SIZE in *. lia. }
  assert (Hpart : (0 <? off mod 512) || (ch <? DISK_SECTOR_SIZE - off mod 512) = true).
  { pose proof (Z.mod_pos_bound off 512). unfold DISK_SECTOR_SIZE in *.
    destruct (Z.eqb_spec (off mod 512) 0) as [Hz|Hz];
      destruct (Z.eqb_spec ch 512) as [Hc5|Hc5]; try done.
    all: apply orb_true_iff; rewrite !Z.ltb_lt; lia. }
  rewrite Hpart. wp_step. apply wp_if.
  destruct bounce; [wp_step|apply wp_malloc_ok; [done|]]; simpl.
  all: unfold on_disk; wp_pure; apply wp_disk_read; [done|]; wp_pure; simpl.
  all: apply wp_disk_write; [done|]; wp_pure; simpl; fold piece; fold (cluster_block v' c).
  all: refine (Hgoal true _ _); apply Hnext.
Qed.
