(* ===== verification/InodeGrow.v ===== *)
(** * Growing files

    The loop of inode_write_at (filesys/inode.c) that appends clusters to a
    file, and the contract of inode_read_at and inode_write_at. *)
From stdpp Require Import base numbers list sets gmap.
From Stdlib Require Import ZArith Lia.
From S2P Require Import Prelude Bytes Fat Volume Inode InodeData.
Open Scope Z_scope.

(** The clusters that the allocator can still reach are sectors of the disk. *)
Definition free_on_disk (v : vol) : Prop :=
  ∀ i, last_clst (v_fat v) < i < fat_length (v_fat v) - 1 → is_free (v_fat v) i →
    has_sector (v_disk v) (cluster_to_sector (v_fat v) i).

(** [v'] is [v] after the zeroed clusters [new] have been appended to the file
    with the clusters [l]. *)
Record grown (v : vol) (start : Z) (l new : list Z) (v' : vol) : Prop := {
  gr_wf : wf_fat (v_fat v');
  gr_chain : chain (fat (v_fat v')) start (l ++ new);
  gr_last : last_clst (v_fat v') + 1 < fat_length (v_fat v');
  gr_rover : last_clst (v_fat v) <= last_clst (v_fat v');
  gr_length : fat_length (v_fat v') = fat_length (v_fat v);
  gr_start : data_start (v_fat v') = data_start (v_fat v);
  gr_mem : v_mem v' = v_mem v;
  gr_capacity : capacity (v_disk v') = capacity (v_disk v);
  gr_free : ∀ i, is_free (v_fat v') i → is_free (v_fat v) i;
  gr_new : Forall (λ c, is_free (v_fat v) c ∧ 2 <= c ∧
                     has_sector (v_disk v) (cluster_to_sector (v_fat v) c)) new;
  gr_zero : Forall (λ c, cluster_block v' c = zero_sector) new;
  gr_other : ∀ s, (∀ c, c ∈ new → s ≠ cluster_to_sector (v_fat v) c) →
    sector_at (v_disk v') s = sector_at (v_disk v) s;
  gr_chains : ∀ c' l', chain (fat (v_fat v)) c' l' → l' ## l →
    chain (fat (v_fat v')) c' l' ∧ l' ## new;
}.

Section growing.
Context (v : vol) (start : Z) (l : list Z).
Hypotheses (Hwf : wf_fat (v_fat v)) (Hl : chain (fat (v_fat v)) start l) (Hne : l ≠ [])
  (Hroot : ROOT_DIR_CLUSTER ∉ l) (Hlast : last_clst (v_fat v) + 1 < fat_length (v_fat v))
  (Hfree : free_on_disk v).

Lemma grown_refl : grown v start l [] v.
Proof.
  split; try done; rewrite ?app_nil_r; try done. intros c' l' Hc _. split; [done|set_solver].
Qed.

Lemma gr_c2s new v' c : grown v start l new v' →
  cluster_to_sector (v_fat v') c = cluster_to_sector (v_fat v) c.
Proof. intros []. unfold cluster_to_sector. by rewrite gr_start0. Qed.

(** A cluster that was free was not part of the file. *)
Lemma free_new c x : is_free (v_fat v) c → x ∈ l → x ≠ c.
Proof.
  intros Hc Hx ->. exact (chain_not_free _ _ _ _ (wf_zero _ Hwf) Hl Hx Hc).
Qed.

Lemma cluster_u32 f c : wf_fat f → 0 <= c < fat_length f → 0 <= c < 2 ^ 32.
Proof. intros Hf Hc. pose proof (wf_len_range _ Hf). unfold EOChain in *. lia. Qed.

(** One more cluster. *)
Lemma grown_step new v' r rc wc n :
  grown v start l new v' → allocated (v_fat v') r → room (v_fat v') (S n) →
  let e := default 0 (last (l ++ new)) in
  let v2 := Vol (Disk (capacity (v_disk v'))
              (<[cluster_to_sector (v_fat v) r := zero_sector]> (sectors (v_disk v'))) rc wc)
              (linked (v_fat v') e r) (v_mem v') in
  grown v start l (new ++ [r]) v2 ∧ room (v_fat v2) n ∧
  has_sector (v_disk v') (cluster_to_sector (v_fat v) r).
Proof.
  intros Hg Hal Hroom e v2.
  destruct (room_step _ _ _ (gr_wf _ _ _ _ _ Hg) Hroom Hal) as [Hr Hroom'].
  pose proof Hal as (Hr2 & Hfr & _). pose proof (gr_wf _ _ _ _ _ Hg) as Hwf'.
  pose proof (wf_len _ Hwf') as Hlen. pose proof (gr_length _ _ _ _ _ Hg) as Hfl.
  pose proof (gr_chain _ _ _ _ _ Hg) as Hch.
  assert (He : ∃ l0, l ++ new = l0 ++ [e]).
  { destruct (exists_last (l:=l ++ new)) as (l0 & x & Heq); [by destruct l|].
    exists l0. unfold e. by rewrite Heq, last_snoc. }
  destruct He as [l0 He]. rewrite He in Hch.
  assert (Hep : 1 <= e < fat_length (v_fat v')) by (eapply chain_pos; [done..|set_solver]).
  destruct (fresh_frame _ r start _ Hwf' Hfr Hch) as [Hrl _].
  pose proof (chain_NoDup _ _ _ Hch) as (_ & Hle & _)%NoDup_app.
  assert (Hfr0 : is_free (v_fat v) r) by (by eapply gr_free).
  assert (Hsec : has_sector (v_disk v) (cluster_to_sector (v_fat v) r)).
  { apply Hfree; [|done]. pose proof (gr_rover _ _ _ _ _ Hg). lia. }
  assert (Hfre : ∀ i, is_free (v_fat v2) i → i ≠ r ∧ i ≠ e ∧ is_free (v_fat v') i).
  { intros i Hi. unfold is_free in *. simpl in Hi.
    destruct (decide (i = e)) as [->|].
    { rewrite zlookup_zinsert in Hi by (rewrite zlength_zinsert; lia). naive_solver lia. }
    rewrite zlookup_zinsert_ne in Hi by lia.
    destruct (decide (i = r)) as [->|].
    { rewrite zlookup_zinsert in Hi by lia. done. }
    by rewrite zlookup_zinsert_ne in Hi by lia. }
  split; [|split].
  - split; simpl; try apply Hg; rewrite ?app_assoc.
    + by apply wf_linked.
    + rewrite He. apply (chain_snoc (fat (v_fat v'))); [done| | | |].
      * intros x Hx. rewrite !zlookup_zinsert_ne; [done|lia|set_solver|lia|set_solver].
      * apply zlookup_zinsert. rewrite zlength_zinsert. lia.
      * rewrite zlookup_zinsert_ne; [|lia|set_solver]. apply zlookup_zinsert. lia.
      * pose proof (wf_len_range _ Hwf'). lia.
    + lia.
    + pose proof (gr_rover _ _ _ _ _ Hg). lia.
    + intros i Hi%Hfre. apply (gr_free _ _ _ _ _ Hg). tauto.
    + apply Forall_app. split; [apply Hg|]. repeat constructor; [done|lia|apply Hsec..].
    + apply Forall_app. split; [|constructor; [|done]].
      * apply Forall_forall. intros c Hc.
        pose proof (proj1 (Forall_forall _ _) (gr_zero _ _ _ _ _ Hg) _ Hc) as Hz.
        rewrite <- Hz. unfold cluster_block. simpl.
        replace (cluster_to_sector (linked (v_fat v') e r) c)
          with (cluster_to_sector (v_fat v) c) by (symmetry; apply (gr_c2s _ _ _ Hg)).
        rewrite (gr_c2s _ _ _ Hg). apply sector_at_insert_ne. intros Heq.
        assert (Hcl : c ∈ l0 ++ [e]) by (rewrite <- He; set_solver).
        pose proof (chain_pos _ _ _ _ Hwf' Hch Hcl).
        apply cluster_to_sector_inj in Heq; [subst; done|..].
        all: apply (cluster_u32 (v_fat v')); [done|lia].
      * unfold cluster_block. simpl.
        replace (cluster_to_sector (linked (v_fat v') e r) r)
          with (cluster_to_sector (v_fat v) r) by (symmetry; apply (gr_c2s _ _ _ Hg)).
        apply sector_at_insert.
    + intros s Hs. rewrite sector_at_insert_ne by (symmetry; apply Hs; set_solver).
      apply (gr_other _ _ _ _ _ Hg). set_solver.
    + intros c' l' Hc' Hd. destruct (gr_chains _ _ _ _ _ Hg _ _ Hc' Hd) as [Hc2 Hd2].
      assert (Hrl' : r ∉ l').
      { intros Hin. exact (chain_not_free _ _ _ _ (wf_zero _ Hwf) Hc' Hin Hfr0). }
      split; [|set_solver]. apply linked_frame; [done..|lia|].
      assert (e ∈ l ++ new) by (rewrite He; set_solver). set_solver.
  - apply Hroom'; [done..|]. intros x Hx Hfx.
    assert (x ≠ e).
    { intros ->. eapply (chain_not_free _ _ _ e (wf_zero _ Hwf') Hch); [set_solver|done]. }
    unfold is_free. simpl. rewrite !zlookup_zinsert_ne; [done|lia..].
  - unfold has_sector. rewrite (gr_capacity _ _ _ _ _ Hg). apply Hsec.
Qed.

Lemma extend_loop_wp data remain :
  id_start data = start →
  room (v_fat v) (Z.to_nat (DIV_ROUND_UP remain 512)) →
  wp (loop (S (Z.to_nat remain)) extend_step (data, remain)) v (λ d v', ∃ new,
    grown v start l new v' ∧ zlength new = Z.max 0 (DIV_ROUND_UP remain 512) ∧
    d = set_length (id_length data + Z.max 0 remain) data).
Proof.
  intros Hst Hroom. unfold DIV_ROUND_UP in *.
  apply (wp_loop (λ n st v', ∃ new, n = Z.to_nat (snd st) ∧ grown v start l new v' ∧
    fst st = set_length (id_length data + Z.max 0 remain - Z.max 0 (snd st)) data ∧
    zlength new + Z.max 0 ((snd st + 512 - 1) / 512) = Z.max 0 ((remain + 512 - 1) / 512) ∧
    room (v_fat v') (Z.to_nat ((snd st + 512 - 1) / 512))) _ _ (Z.to_nat remain));
    [| |lia].
  2: { exists []. split; [done|]. split; [apply grown_refl|]. simpl. split; [|done].
       destruct data. unfold set_length. simpl. f_equal. lia. }
  clear Hroom. intros n [d rem] v' (new & -> & Hg & Hd & Hn & Hroom). simpl in *. subst d.
  unfold extend_step. destruct (Z.ltb_spec 0 rem); simpl.
  2: { wp_pure. exists new. split; [done|]. split; [zdiv|]. f_equal. lia. }
  unfold on_fat. wp_pure.
  assert (Hex : ∃ l0, l ++ new = l0 ++ [default 0 (last (l ++ new))]).
  { destruct (exists_last (l:=l ++ new)) as (l0 & x & Heq); [by destruct l|].
    exists l0. by rewrite Heq, last_snoc. }
  destruct Hex as [l0 Hl0]. simpl. rewrite Hst.
  assert (HnR : ROOT_DIR_CLUSTER ∉ l ++ new).
  { intros [?|Hin]%elem_of_app; [done|].
    pose proof (proj1 (Forall_forall _ _) (gr_new _ _ _ _ _ Hg) _ Hin) as (_ & Hge & _).
    unfold ROOT_DIR_CLUSTER in Hge. lia. }
  replace (Z.to_nat ((rem + 512 - 1) / 512))
    with (S (Z.to_nat ((rem - 512 + 512 - 1) / 512))) in Hroom by zdiv.
  eapply wp_mono.
  { apply (fat_create_chain_link _ _ l0); [apply Hg|apply (gr_last _ _ _ _ _ Hg)| |].
    - rewrite <- Hl0. apply (gr_chain _ _ _ _ _ Hg).
    - by rewrite <- Hl0. }
  intros r f' [(-> & -> & Hno)|(Hal & ->)].
  { exfalso. destruct Hroom as (L & _ & HL & HLf). destruct L as [|i L]; simpl in HL; [lia|].
    pose proof (wf_last _ (gr_wf _ _ _ _ _ Hg)).
    destruct (HLf i) as [Hi Hfi]; [set_solver|]. apply (Hno i); [lia|lia|done]. }
  unfold on_disk. wp_pure. simpl.
  replace (cluster_to_sector (linked _ _ r) r) with (cluster_to_sector (v_fat v) r)
    by (symmetry; apply (gr_c2s _ _ _ Hg)).
  destruct (grown_step new v' r (read_cnt (v_disk v')) (write_cnt (v_disk v') + 1) _
              Hg Hal Hroom) as (Hg2 & Hroom2 & Hsec).
  apply wp_disk_write; [done|]. wp_pure. unfold DISK_SECTOR_SIZE in *.
  exists (Z.to_nat (rem - 512)). split; [lia|]. exists (new ++ [r]). simpl.
  split; [done|]. split; [exact Hg2|]. split.
  - unfold set_length. simpl. f_equal. destruct (Z.ltb_spec rem 512); lia.
  - split; [|done]. unfold zlength in *. rewrite length_app. simpl. zdiv.
Qed.
End growing.

(** The file has no cluster beyond the one that byte [length] falls in. *)
Definition tight (data : inode_disk) (l : list Z) : Prop :=
  zlength l = id_length data / 512 + 1.

Lemma extend_wp v data l size :
  file_on v data l → tight data l → wf_fat (v_fat v) → ROOT_DIR_CLUSTER ∉ l →
  last_clst (v_fat v) + 1 < fat_length (v_fat v) → free_on_disk v →
  id_length data < size →
  room (v_fat v) (Z.to_nat (DIV_ROUND_UP size 512 - zlength l)) →
  wp (extend data size) v (λ d v', ∃ new, grown v (id_start data) l new v' ∧
    d = set_length size data ∧ size <= 512 * zlength (l ++ new)).
Proof.
  intros Hf Ht Hwf Hroot Hlast Hfd Hsz Hroom. unfold extend, tight in *.
  pose proof (fo_length _ _ _ Hf) as Hlen. pose proof (fo_start _ _ _ Hf).
  unfold DISK_SECTOR_SIZE. rewrite Z.rem_mod_nonneg by lia.
  rewrite (proj2 (Z.eqb_neq (id_start data) 0)) by lia. wp_pure.
  set (rem := size - id_length data - (512 - id_length data mod 512)).
  assert (Hrem : size = 512 * zlength l + rem) by (unfold rem; zdiv).
  assert (Hround : DIV_ROUND_UP rem 512 = DIV_ROUND_UP size 512 - zlength l).
  { unfold DIV_ROUND_UP. rewrite Hrem. zdiv. }
  assert (Hmod : 0 <= id_length data mod 512 < 512) by (apply Z.mod_pos_bound; lia).
  eapply wp_mono.
  { apply (extend_loop_wp v (id_start data) l); try done.
    - apply (fo_chain _ _ _ Hf).
    - intros ->. change (zlength []) with 0 in *. zdiv.
    - by rewrite Hround. }
  intros d v' (new & Hg & Hn & ->). exists new. split; [done|]. split.
  - unfold set_length, set_start. destruct data as [st len mg dir un]. simpl in *. f_equal.
    destruct (Z.ltb_spec (size - len) (512 - len mod 512)); lia.
  - revert Hn. unfold zlength, DIV_ROUND_UP in *. rewrite length_app. intros Hn. zdiv.
Qed.

(** The blocks of a chain that was not extended. *)
Lemma grown_blocks v start l new v' c k :
  wf_fat (v_fat v) → grown v start l new v' → chain (fat (v_fat v)) c k → k ## new →
  cluster_block v' <$> k = cluster_block v <$> k.
Proof.
  intros Hwf Hg Hk Hd.
  apply list_eq. intros i. rewrite !list_lookup_fmap. destruct (k !! i) as [x|] eqn:Hi; [|done].
  simpl. f_equal. unfold cluster_block. rewrite (gr_c2s _ _ _ _ _ _ Hg).
  apply (gr_other _ _ _ _ _ Hg). intros c' Hc' Heq.
  assert (Hx : x ∈ k) by (by eapply list_elem_of_lookup_2).
  pose proof (proj1 (Forall_forall _ _) (gr_new _ _ _ _ _ Hg) _ Hc') as (Hfr & Hge & _).
  apply zlookup_Some_range in Hfr. rewrite (wf_len _ Hwf) in Hfr.
  pose proof (chain_pos _ _ _ _ Hwf Hk Hx).
  apply cluster_to_sector_inj in Heq; [subst; by apply (Hd c')|..].
  all: apply (cluster_u32 (v_fat v)); [done|lia].
Qed.

(** A grown file, and what its bytes are. *)
Lemma grown_file v data l new v' size :
  file_on v data l → wf_fat (v_fat v) → grown v (id_start data) l new v' →
  0 <= size <= 512 * zlength (l ++ new) → size < 2 ^ 31 →
  file_on v' (set_length size data) (l ++ new) ∧
  file_bytes v' (l ++ new) = file_bytes v l ++ replicate (512 * length new) 0.
Proof.
  intros Hf Hwf Hg Hsz Hs31. pose proof (gr_wf _ _ _ _ _ Hg) as Hwf'.
  assert (Hold : cluster_block v' <$> l = cluster_block v <$> l).
  { apply (grown_blocks v (id_start data) l new v' (id_start data)); [done..|apply Hf|].
    intros x Hx Hn.
    pose proof (proj1 (Forall_forall _ _) (gr_new _ _ _ _ _ Hg) _ Hn) as (Hfr & _).
    exact (free_new v (id_start data) l Hwf (fo_chain _ _ _ Hf) x x Hfr Hx eq_refl). }
  assert (Hnew : cluster_block v' <$> new = replicate (length new) zero_sector).
  { pose proof (gr_zero _ _ _ _ _ Hg) as Hz. clear - Hz. induction Hz as [|c new Hc _ IH]; [done|].
    by rewrite fmap_cons, IH, Hc. }
  split.
  - apply file_on_wf; simpl; try done.
    + apply (gr_chain _ _ _ _ _ Hg).
    + pose proof (fo_chain _ _ _ Hf) as Hc. pose proof (fo_start _ _ _ Hf).
      destruct l; simpl in *; [lia|done].
    + apply Forall_app. split; apply Forall_forall; intros c Hc.
      * unfold has_sector. rewrite (gr_c2s _ _ _ _ _ _ Hg), (gr_capacity _ _ _ _ _ Hg).
        exact (proj1 (Forall_forall _ _) (fo_sectors _ _ _ Hf) _ Hc).
      * pose proof (proj1 (Forall_forall _ _) (gr_new _ _ _ _ _ Hg) _ Hc) as (_ & _ & Hs).
        unfold has_sector. by rewrite (gr_c2s _ _ _ _ _ _ Hg), (gr_capacity _ _ _ _ _ Hg).
    + rewrite fmap_app, Hold, Hnew. apply Forall_app. split; [apply Hf|]. by apply Forall_replicate.
  - unfold file_bytes. rewrite fmap_app, Hold, Hnew, concat_app. f_equal.
    clear Hnew. induction (length new) as [|k IH]; [done|].
    change (zero_sector ++ concat (replicate k zero_sector) = replicate (512 * S k) 0).
    rewrite IH. replace (512 * S k)%nat with (512 + 512 * k)%nat by lia.
    by rewrite replicate_add.
Qed.

(** ** The contracts of inode_read_at and inode_write_at *)

(** [sec] holds none of the clusters [k]. *)
Definition apart (v : vol) (sec : Z) (k : list Z) : Prop :=
  ∀ c, c ∈ k → cluster_to_sector (v_fat v) c ≠ sec.

(** A file can be extended to [size] bytes. *)
Definition can_grow (v : vol) (data : inode_disk) (l : list Z) (size : Z) : Prop :=
  tight data l ∧ ROOT_DIR_CLUSTER ∉ l ∧ last_clst (v_fat v) + 1 < fat_length (v_fat v) ∧
  free_on_disk v ∧ room (v_fat v) (Z.to_nat (DIV_ROUND_UP size 512 - zlength l)).

Lemma rewrote_blocks v l B v' k :
  Forall (λ c, 0 <= c < 2 ^ 32) l → Forall (λ c, 0 <= c < 2 ^ 32) k → k ## l →
  rewrote v l B v' → cluster_block v' <$> k = cluster_block v <$> k.
Proof.
  intros Hl Hk Hd Hrw. apply list_eq. intros i.
  rewrite !list_lookup_fmap. destruct (k !! i) as [x|] eqn:Hi; [|done].
  assert (Hx : x ∈ k) by (by eapply list_elem_of_lookup_2).
  simpl. f_equal. unfold cluster_block. rewrite (rw_fat _ _ _ _ Hrw).
  apply (rw_other _ _ _ _ Hrw). intros c Hc Heq.
  apply cluster_to_sector_inj in Heq; [subst; by apply (Hd c)|..].
  - exact (proj1 (Forall_forall _ _) Hk _ Hx).
  - exact (proj1 (Forall_forall _ _) Hl _ Hc).
Qed.

Definition put_sector (v : vol) (sec : Z) (b : list Z) : vol :=
  Vol (Disk (capacity (v_disk v)) (<[sec := b]> (sectors (v_disk v))) (read_cnt (v_disk v))
         (write_cnt (v_disk v) + 1)) (v_fat v) (v_mem v).

Lemma put_sector_blocks v sec b k :
  apart v sec k → cluster_block (put_sector v sec b) <$> k = cluster_block v <$> k.
Proof.
  intros Ha. induction k as [|c k IH]; [done|]. rewrite !fmap_cons, IH by set_solver.
  f_equal. unfold cluster_block. simpl. apply sector_at_insert_ne.
  intros Heq. apply (Ha c); [set_solver|by symmetry].
Qed.

Lemma put_sector_file v sec b data l :
  apart v sec l → file_on v data l → file_on (put_sector v sec b) data l.
Proof. intros Ha []. split; rewrite ?put_sector_blocks; done. Qed.

(** What a write to the file [l] leaves alone: the other chains, their blocks
    and what they lie on. *)
Definition keeps (v : vol) (l new : list Z) (v' : vol) : Prop :=
  ∀ c k, chain (fat (v_fat v)) c k → k ## l →
    chain (fat (v_fat v')) c k ∧ k ## l ++ new ∧ cluster_block v' <$> k = cluster_block v <$> k.

Lemma extend_phase v data l size :
  file_on v data l → wf_fat (v_fat v) → v_mem v = [] → 0 <= size < 2 ^ 31 →
  (id_length data < size → can_grow v data l size) →
  wp (if id_length data <? size then extend data size else mret data) v
    (λ d v', ∃ new, d = set_length (Z.max (id_length data) size) data ∧
       file_on v' d (l ++ new) ∧
       file_bytes v' (l ++ new) = file_bytes v l ++ replicate (512 * length new) 0 ∧
       wf_fat (v_fat v') ∧ v_mem v' = [] ∧ capacity (v_disk v') = capacity (v_disk v) ∧
       data_start (v_fat v') = data_start (v_fat v) ∧
       Forall (is_free (v_fat v)) new ∧ keeps v l new v' ∧ (size <= id_length data → new = [])).
Proof.
  intros Hf Hwf Hm Hs Hg. destruct (Z.ltb_spec (id_length data) size) as [Hlt|Hge].
  - destruct (Hg Hlt) as (Ht & Hr & Hla & Hfd & Hroom).
    eapply wp_mono; [by apply (extend_wp v data l)|]. intros d v' (new & Hgr & -> & Hcap).
    destruct (grown_file v data l new v' size Hf Hwf Hgr) as [Hf' Hb]; [lia..|].
    exists new. rewrite Z.max_r by lia. destruct Hgr. split_and!; try done; try congruence.
    + eapply Forall_impl; [exact gr_new0|]. by intros c (? & _).
    + intros c k Hc Hd. destruct (gr_chains0 _ _ Hc Hd) as [Hc2 Hd2]. split; [done|].
      split; [intros x Hx [?|?]%elem_of_app; [by apply (Hd x)|by apply (Hd2 x)]|].
      by apply (grown_blocks v (id_start data) l new v' c).
    + lia.
  - wp_step. exists []. rewrite Z.max_l, !app_nil_r by lia.
    split; [by destruct data|]. split_and!; try done.
    intros c k Hc Hd. rewrite app_nil_r. done.
Qed.

Lemma inode_read_at_wp s p i l size offset :
  p ≠ 0 → inodes s !! p = Some i → file_on (fs_vol s) (i_data i) l → v_mem (fs_vol s) = [] →
  0 <= offset →
  wp (inode_read_at p size offset) s (λ r s', ∃ v', same_data (fs_vol s) v' ∧
    s' = Fsys v' (inodes s) (open_inodes s) (next_ptr s) ∧
    r = take (Z.to_nat size) (drop (Z.to_nat offset) (file_content (fs_vol s) (i_data i) l))).
Proof.
  intros Hp Hi Hf Hm Ho. unfold inode_read_at.
  destruct (Z.ltb_spec 0 size) as [Hs|Hs]; simpl.
  2: { wp_pure. exists (fs_vol s). split; [done|]. replace (Z.to_nat size) with O by lia.
       by destruct s. }
  rewrite (proj2 (Z.eqb_neq _ _)) by done. wp_step. wp_step; [done|].
  unfold get_inode, on_vol. wp_pure. wp_step; [done|]. wp_pure.
  eapply wp_mono; [apply (read_loop_wp _ _ l); (done || lia)|]. simpl. intros r v' [Hsd ->].
  eauto.
Qed.

(** C18: Reading returns exactly the requested range of the contents, cut at the
    end of the file, and changes nothing but the transfer counter. *)
Theorem inode_read_at_spec s p i l size offset :
  p ≠ 0 → inodes s !! p = Some i → file_on (fs_vol s) (i_data i) l → v_mem (fs_vol s) = [] →
  0 <= offset →
  ∃ v', same_data (fs_vol s) v' ∧
    inode_read_at p size offset s
    = Done (take (Z.to_nat size) (drop (Z.to_nat offset) (file_content (fs_vol s) (i_data i) l)),
            Fsys v' (inodes s) (open_inodes s) (next_ptr s)).
Proof.
  intros Hp Hi Hf Hm Ho.
  destruct (wp_run _ _ _ (inode_read_at_wp s p i l size offset Hp Hi Hf Hm Ho))
    as (r & s' & He & v' & Hsd & -> & ->). eauto.
Qed.

Lemma inode_write_at_wp s p i l buffer offset :
  let v := fs_vol s in
  let size := zlength buffer in
  let data := i_data i in
  inodes s !! p = Some i → deny_write_cnt i = 0 → file_on v data l → wf_fat (v_fat v) →
  v_mem v = [] → 0 <= offset → offset + size < 2 ^ 31 →
  (id_length data < offset + size → can_grow v data l (offset + size)) →
  has_sector (v_disk v) (i_sector i) →
  (∀ c, c ∈ l ∨ is_free (v_fat v) c → cluster_to_sector (v_fat v) c ≠ i_sector i) →
  wp (inode_write_at p buffer size offset) s (λ n s', n = size ∧ ∃ new,
    let data' := set_length (Z.max (id_length data) (offset + size)) data in
    s' = Fsys (fs_vol s') (<[p := set_data data' i]> (inodes s)) (open_inodes s) (next_ptr s) ∧
    file_on (fs_vol s') data' (l ++ new) ∧
    file_bytes (fs_vol s') (l ++ new)
      = splice (Z.to_nat offset) buffer (file_bytes v l ++ replicate (512 * length new) 0) ∧
    sector_at (v_disk (fs_vol s')) (i_sector i) = inode_bytes data' ∧
    v_mem (fs_vol s') = [] ∧ wf_fat (v_fat (fs_vol s')) ∧
    data_start (v_fat (fs_vol s')) = data_start (v_fat v) ∧
    (∀ c k, chain (fat (v_fat v)) c k → k ## l → apart v (i_sector i) k →
       chain (fat (v_fat (fs_vol s'))) c k ∧
       cluster_block (fs_vol s') <$> k = cluster_block v <$> k) ∧
    (offset + size <= id_length data → new = [])).
Proof.
  intros v size data Hi Hd Hf Hwf Hm Ho Hsz Hg Hsec Hap. unfold inode_write_at.
  assert (Hs0 : 0 <= size) by (unfold size, zlength; lia).
  unfold get_inode, put_inode. wp_pure. wp_step; [done|]. rewrite Hd. simpl. wp_pure.
  apply wp_int_ok; [lia|]. wp_pure. unfold inode_length. fold data.
  apply wp_mono with (P := λ d s1, ∃ new v1, s1 = Fsys v1 (inodes s) (open_inodes s) (next_ptr s) ∧
       d = set_length (Z.max (id_length data) (offset + size)) data ∧
       file_on v1 d (l ++ new) ∧
       file_bytes v1 (l ++ new) = file_bytes v l ++ replicate (512 * length new) 0 ∧
       wf_fat (v_fat v1) ∧ v_mem v1 = [] ∧ capacity (v_disk v1) = capacity (v_disk v) ∧
       data_start (v_fat v1) = data_start (v_fat v) ∧
       Forall (is_free (v_fat v)) new ∧ keeps v l new v1 ∧
       (offset + size <= id_length data → new = [])).
  { pose proof (extend_phase v data l (offset + size) Hf Hwf Hm) as Hex.
    specialize (Hex ltac:(lia) Hg). destruct (id_length data <? offset + size).
    - unfold on_vol. wp_step. eapply wp_mono; [exact Hex|]. simpl. intros d v1 (new & H).
      exists new, v1. by split.
    - wp_step. apply wp_ret in Hex as (new & H). exists new, (fs_vol s). split; [by destruct s|done]. }
  intros d s1 (new & v1 & -> & Hd1 & Hf1 & Hb1 & Hwf1 & Hm1 & Hcap & Hds & Hnew & Hk & Hnil).
  unfold on_vol. wp_pure. simpl.
  eapply wp_mono.
  { apply (write_loop_wp v1 d (l ++ new) buffer size offset); try done.
    rewrite Hd1. simpl. lia. }
  intros n v2 [-> Hrw]. simpl. wp_pure. unfold inode_flush, get_inode, on_vol, on_disk.
  wp_pure. wp_step; [simpl; by rewrite lookup_insert_eq|]. wp_pure. simpl.
  apply wp_disk_write.
  { unfold has_sector in *. by rewrite (rw_capacity _ _ _ _ Hrw), Hcap. }
  wp_pure. simpl. split; [done|]. exists new. rewrite <- Hd1.
  fold (put_sector v2 (i_sector i) (inode_bytes d)).
  assert (Hc2 : ∀ c, cluster_to_sector (v_fat v2) c = cluster_to_sector (v_fat v) c).
  { intros c. rewrite (rw_fat _ _ _ _ Hrw). unfold cluster_to_sector. by rewrite Hds. }
  assert (Hap2 : apart v2 (i_sector i) (l ++ new)).
  { intros c Hc. rewrite Hc2. apply Hap. apply elem_of_app in Hc as [|Hc]; [by left|right].
    by apply (proj1 (Forall_forall _ _) Hnew). }
  split; [done|]. split.
  { apply put_sector_file; [done|]. by eapply rewrote_file_on. }
  split.
  { unfold file_bytes at 1. rewrite put_sector_blocks by done.
    fold (file_bytes v2 (l ++ new)). by rewrite (rw_bytes _ _ _ _ Hrw), Hb1. }
  split; [apply sector_at_insert|]. split; [simpl; by rewrite (rw_mem _ _ _ _ Hrw)|].
  split; [simpl; by rewrite (rw_fat _ _ _ _ Hrw)|].
  split; [simpl; by rewrite (rw_fat _ _ _ _ Hrw), Hds|]. split; [|done].
  intros c k Hc Hkl Hka. destruct (Hk c k Hc Hkl) as (Hc1 & Hdj & Hb). split.
  { simpl. by rewrite (rw_fat _ _ _ _ Hrw). }
  rewrite put_sector_blocks; [|intros x Hx; rewrite Hc2; by apply Hka].
  rewrite <- Hb. eapply rewrote_blocks; [apply (fo_clusters _ _ _ Hf1)| |exact Hdj|exact Hrw].
  apply Forall_forall. intros x Hx. apply (cluster_u32 (v_fat v1)); [done|].
  pose proof (chain_pos _ _ _ _ Hwf1 Hc1 Hx). lia.
Qed.

(** C17: Writing stores the buffer at the offset, extends the file when the write
    ends behind its end, records the new length in the inode and on disk, and leaves
    every other chain and its sectors alone. The file has a chain and writes to it are
    not denied; if the write ends behind the end, the file can grow ([can_grow]): it
    is not the root directory, has no cluster beyond the one that its length falls in
    (a file whose length is a positive multiple of 512 has one less:
    inode_write_at_boundary_panics), and enough free clusters lie on the disk between
    the rover and the last entry of the table. Offsets are below 2^31, no cluster of
    the file, and no free one, is the sector of the inode, and malloc does not fail.
    *)
Theorem inode_write_at_spec s p i l buffer offset :
  let v := fs_vol s in
  let size := zlength buffer in
  let data := i_data i in
  inodes s !! p = Some i → deny_write_cnt i = 0 → file_on v data l → wf_fat (v_fat v) →
  v_mem v = [] → 0 <= offset → offset + size < 2 ^ 31 →
  (id_length data < offset + size → can_grow v data l (offset + size)) →
  has_sector (v_disk v) (i_sector i) →
  (∀ c, c ∈ l ∨ is_free (v_fat v) c → cluster_to_sector (v_fat v) c ≠ i_sector i) →
  let data' := set_length (Z.max (id_length data) (offset + size)) data in
  ∃ s' new, inode_write_at p buffer size offset s = Done (size, s') ∧
    inodes s' = <[p := set_data data' i]> (inodes s) ∧
    file_on (fs_vol s') data' (l ++ new) ∧
    file_bytes (fs_vol s') (l ++ new)
      = splice (Z.to_nat offset) buffer (file_bytes v l ++ replicate (512 * length new) 0) ∧
    sector_at (v_disk (fs_vol s')) (i_sector i) = inode_bytes data' ∧
    (∀ c k, chain (fat (v_fat v)) c k → k ## l → apart v (i_sector i) k →
       chain (fat (v_fat (fs_vol s'))) c k ∧ file_bytes (fs_vol s') k = file_bytes v k).
Proof.
  intros v size data Hi Hd Hf Hwf Hm Ho Hsz Hg Hsec Hap data'.
  destruct (wp_run _ _ _ (inode_write_at_wp s p i l buffer offset Hi Hd Hf Hwf Hm Ho Hsz Hg Hsec Hap))
    as (n & s' & He & -> & new & Hs' & Hf' & Hb & Hfl & _ & _ & _ & Hk & _).
  exists s', new. split; [done|]. split; [by rewrite Hs'|]. do 3 (split; [done|]).
  intros c k Hc Hkl Hka. destruct (Hk c k Hc Hkl Hka) as [? Heq]. split; [done|].
  unfold file_bytes. by rewrite Heq.
Qed.

(** Everything that lets a write of [size] bytes at [offset] go through. *)
Record writable (v : vol) (i : inode) (l : list Z) (size offset : Z) : Prop := {
  wr_deny : deny_write_cnt i = 0;
  wr_file : file_on v (i_data i) l;
  wr_fat : wf_fat (v_fat v);
  wr_mem : v_mem v = [];
  wr_offset : 0 <= offset;
  wr_end : offset + size < 2 ^ 31;
  wr_grow : id_length (i_data i) < offset + size → can_grow v (i_data i) l (offset + size);
  wr_sector : has_sector (v_disk v) (i_sector i);
  wr_apart : ∀ c, c ∈ l ∨ is_free (v_fat v) c → cluster_to_sector (v_fat v) c ≠ i_sector i;
}.

(** The written range of the contents is the buffer. *)
Lemma written_content v v1 data data1 l new buffer offset :
  file_on v data l → file_on v1 data1 (l ++ new) → 0 <= offset →
  id_length data1 = Z.max (id_length data) (offset + zlength buffer) →
  file_bytes v1 (l ++ new)
    = splice (Z.to_nat offset) buffer (file_bytes v l ++ replicate (512 * length new) 0) →
  take (length buffer) (drop (Z.to_nat offset) (file_content v1 data1 (l ++ new))) = buffer.
Proof.
  intros Hf Hf1 Ho Hlen Hb. pose proof (fo_length _ _ _ Hf1) as Hl1.
  pose proof (length_file_bytes _ _ _ Hf) as Hlb. unfold file_content, zlength in *.
  rewrite length_app in Hl1. rewrite Hlen in *. rewrite take_take_drop by lia. rewrite Hb.
  apply splice_read. rewrite length_app, length_replicate. lia.
Qed.

(** A file reads back what was written to it. *)
Theorem inode_write_read s p i l buffer offset :
  let v := fs_vol s in
  let size := zlength buffer in
  let data := i_data i in
  p ≠ 0 → inodes s !! p = Some i → deny_write_cnt i = 0 → file_on v data l → wf_fat (v_fat v) →
  v_mem v = [] → 0 <= offset → offset + size < 2 ^ 31 →
  (id_length data < offset + size → can_grow v data l (offset + size)) →
  has_sector (v_disk v) (i_sector i) →
  (∀ c, c ∈ l ∨ is_free (v_fat v) c → cluster_to_sector (v_fat v) c ≠ i_sector i) →
  ∃ s1 s2, inode_write_at p buffer size offset s = Done (size, s1) ∧
    inode_read_at p size offset s1 = Done (buffer, s2).
Proof.
  intros v size data Hp Hi Hd Hf Hwf Hm Ho Hsz Hg Hsec Hap.
  destruct (wp_run _ _ _ (inode_write_at_wp s p i l buffer offset Hi Hd Hf Hwf Hm Ho Hsz Hg Hsec Hap))
    as (n & s1 & He & -> & new & Hs1 & Hf1 & Hb & _ & Hm1 & _).
  fold v size data in Hf1, Hb, Hs1.
  set (data1 := set_length (Z.max (id_length data) (offset + size)) data) in *.
  assert (Hi1 : inodes s1 !! p = Some (set_data data1 i)).
  { rewrite Hs1. simpl. apply lookup_insert_eq. }
  destruct (wp_run _ _ _ (inode_read_at_wp s1 p (set_data data1 i) (l ++ new) size offset
    Hp Hi1 Hf1 Hm1 Ho)) as (r & s2 & Hr & v2 & _ & _ & ->).
  exists s1, s2. split; [done|]. etransitivity; [exact Hr|]. repeat f_equal.
  unfold size, zlength. rewrite Nat2Z.id. by apply (written_content v _ data).
Qed.

(** A file whose length is a positive multiple of the sector size cannot be
    extended: no cluster is appended, and the write goes to "sector -1". *)
Theorem inode_write_at_boundary_panics s p i l buffer :
  let v := fs_vol s in
  let data := i_data i in
  inodes s !! p = Some i → deny_write_cnt i = 0 →
  chain (fat (v_fat v)) (id_start data) l → 0 < id_start data < EOChain →
  id_length data = 512 * zlength l → 0 < zlength buffer <= 512 →
  id_length data + zlength buffer < 2 ^ 31 → capacity (v_disk v) < 2 ^ 28 → v_mem v = [] →
  inode_write_at p buffer (zlength buffer) (id_length data) s = Panic.
Proof.
  intros v data Hi Hd Hc Hst Hlen Hb Hmax Hcap Hm. unfold inode_write_at.
  set (n := zlength buffer) in *. set (len := id_length data) in *.
  set (data1 := set_length (len + n) data).
  assert (Hmod : len mod 512 = 0) by (rewrite Hlen, Z.mul_comm; apply Z.mod_mul; lia).
  assert (Hext : extend data (len + n) v = Done (data1, v)).
  { apply wp_run_eq. unfold extend. rewrite (proj2 (Z.eqb_neq (id_start data) 0)) by lia.
    fold len. unfold DISK_SECTOR_SIZE. rewrite Z.rem_mod_nonneg, Hmod by (unfold zlength in *; lia).
    wp_pure. rewrite loop_S. wp_pure. unfold extend_step.
    rewrite (proj2 (Z.ltb_ge 0 (len + n - len - (512 - 0)))) by lia. simpl. wp_pure.
    split; [|done]. unfold data1, set_length, set_start. destruct data as [a b c d u]. simpl.
    subst len. simpl in *. f_equal. destruct (Z.ltb_spec (b + n - b) (512 - 0)); lia. }
  assert (Hbts : byte_to_sector data1 len v = Done (u32 (-1), v)).
  { apply wp_run_eq. eapply wp_mono.
    { apply (byte_to_sector_chain v data1 l len); [done|done|simpl; unfold zlength in *; lia|].
      rewrite Hlen, Z.mul_comm, Z.div_mul; lia. }
    intros sec v' [-> ->]. split; [|done]. rewrite Hlen, Z.mul_comm, Z.div_mul by lia.
    unfold zlength. by rewrite Nat2Z.id, lookup_ge_None_2. }
  assert (Hsel : (u32 (-1) <? capacity (v_disk v)) = false).
  { apply Z.ltb_ge. change (u32 (-1)) with 4294967295. lia. }
  unfold get_inode, put_inode, mbind, st_bind, get_st, deref. rewrite Hi, Hd. simpl.
  unfold int_ok. rewrite (proj2 (Z.leb_le _ _)), (proj2 (Z.ltb_lt _ _))
    by (unfold zlength in *; lia). simpl. unfold mret, st_ret.
  unfold inode_length. fold data len. rewrite (proj2 (Z.ltb_lt len (len + n))) by lia.
  unfold on_vol, zoom. fold v. rewrite Hext. simpl. rewrite loop_S.
  unfold mbind, st_bind. unfold write_step at 1. rewrite (proj2 (Z.ltb_lt 0 n)) by lia. simpl.
  unfold mbind, st_bind. fold data1. rewrite Hbts.
  assert (Hch : chunk_size (len + n) n len = n).
  { unfold chunk_size, DISK_SECTOR_SIZE. rewrite Z.rem_mod_nonneg, Hmod by (unfold zlength in *; lia).
    destruct (Z.ltb_spec (len + n - len) (512 - 0)).
    - destruct (Z.ltb_spec n (len + n - len)); lia.
    - destruct (Z.ltb_spec n (512 - 0)); lia. }
  rewrite Hch, (proj2 (Z.leb_gt n 0)) by lia.
  unfold DISK_SECTOR_SIZE. rewrite Z.rem_mod_nonneg, Hmod by (unfold zlength in *; lia). simpl.
  assert (Hr : disk_read (u32 (-1)) (v_disk v) = Panic).
  { unfold disk_read, select_sector, mbind, st_bind, get_st, assert_st. by rewrite Hsel. }
  assert (Hw : ∀ b, disk_write (u32 (-1)) b (v_disk v) = Panic).
  { intros b. unfold disk_write, select_sector, mbind, st_bind, get_st, assert_st. by rewrite Hsel. }
  destruct (Z.eqb_spec n 512) as [Hn|Hn]; simpl.
  - unfold on_disk, zoom. by rewrite Hw.
  - unfold malloc. rewrite Hm. simpl. rewrite (proj2 (Z.ltb_lt n (512 - 0))) by lia.
    unfold on_disk, zoom. by rewrite Hr.
Qed.
