(* ===== verification/InodeTable.v ===== *)
(** * The table of open inodes

    Reference counting in filesys/inode.c: opening a sector twice gives the
    same inode, the last close frees it, and a removed inode gives its
    clusters back. *)
From stdpp Require Import base numbers list sets gmap.
From Stdlib Require Import ZArith Lia.
From S2P Require Import Prelude Bytes Fat Volume Inode InodeData.
Open Scope Z_scope.

(** The invariant of the table: exactly the open inodes are allocated, each is
    open at least once and denied at most as often, and no sector is open as
    two inodes. *)
Record wf_inodes (s : fsys) : Prop := {
  wi_nodup : NoDup (open_inodes s);
  wi_dom : ∀ p, p ∈ open_inodes s ↔ is_Some (inodes s !! p);
  wi_ptr : ∀ p, p ∈ open_inodes s → 0 < p < next_ptr s;
  wi_next : 0 < next_ptr s;
  wi_count : ∀ p i, inodes s !! p = Some i → 1 <= open_cnt i;
  wi_deny : ∀ p i, inodes s !! p = Some i → 0 <= deny_write_cnt i <= open_cnt i;
  wi_sector : ∀ p q i j, inodes s !! p = Some i → inodes s !! q = Some j →
    i_sector i = i_sector j → p = q;
}.

(** [i'] may replace [i]. *)
Definition same_inode (i i' : inode) : Prop :=
  i_sector i' = i_sector i ∧ 1 <= open_cnt i' ∧ 0 <= deny_write_cnt i' <= open_cnt i'.

Section table.
Implicit Types (s : fsys) (p : Z) (i : inode).

Lemma wf_put s p i i' v :
  wf_inodes s → inodes s !! p = Some i → same_inode i i' →
  wf_inodes (Fsys v (<[p := i']> (inodes s)) (open_inodes s) (next_ptr s)).
Proof.
  intros [] Hi (Hs & Ho & Hd). split; simpl; try done.
  - intros q. rewrite wi_dom0. destruct (decide (p = q)) as [<-|].
    + rewrite lookup_insert_eq, Hi. by split; eauto.
    + by rewrite lookup_insert_ne.
  - intros q j. rewrite lookup_insert_Some. intros [[_ <-]|[_ ?]]; eauto.
  - intros q j. rewrite lookup_insert_Some. intros [[_ <-]|[_ ?]]; eauto.
  - intros q r j k. rewrite !lookup_insert_Some.
    intros [[<- <-]|[? Hj]] [[<- <-]|[? Hk]] Heq; try done.
    + exfalso. eapply H, wi_sector0; [done..|]. congruence.
    + exfalso. eapply H, wi_sector0; [done..|]. congruence.
    + by eapply wi_sector0.
Qed.

Lemma wf_delete s p i v :
  wf_inodes s → inodes s !! p = Some i →
  wf_inodes (Fsys v (delete p (inodes s)) (filter (λ q, q ≠ p) (open_inodes s)) (next_ptr s)).
Proof.
  intros [] Hi. split; simpl; try done.
  - by apply NoDup_filter.
  - intros q. rewrite list_elem_of_filter, wi_dom0. destruct (decide (p = q)) as [<-|].
    + rewrite lookup_delete_eq. split; [naive_solver|by intros []].
    + rewrite lookup_delete_ne by done. naive_solver.
  - intros q [_ ?]%list_elem_of_filter. eauto.
  - intros q j [_ ?]%lookup_delete_Some. eauto.
  - intros q j [_ ?]%lookup_delete_Some. eauto.
  - intros q r j k [_ ?]%lookup_delete_Some [_ ?]%lookup_delete_Some. eauto.
Qed.

(** The search through the list. *)
Lemma find_open_wp s sector :
  wf_inodes s →
  wp (find_open sector (open_inodes s)) s (λ r s', s' = s ∧
    match r with
    | Some p => ∃ i, inodes s !! p = Some i ∧ i_sector i = sector
    | None => ∀ p i, inodes s !! p = Some i → i_sector i ≠ sector
    end).
Proof.
  intros Hwf.
  assert (Hsub : ∀ l, l ⊆ open_inodes s →
    wp (find_open sector l) s (λ r s', s' = s ∧
      match r with
      | Some p => ∃ i, inodes s !! p = Some i ∧ i_sector i = sector
      | None => ∀ p i, p ∈ l → inodes s !! p = Some i → i_sector i ≠ sector
      end)).
  { induction l as [|p l IH]; intros Hl; simpl; wp_pure.
    { split; [done|]. intros p i []%elem_of_nil. }
    destruct (proj1 (wi_dom _ Hwf p)) as [i Hi]; [apply Hl; set_solver|].
    unfold get_inode. wp_pure. wp_step; [exact Hi|].
    destruct (Z.eqb_spec (i_sector i) sector) as [He|Hne]; [wp_pure; eauto|].
    eapply wp_mono; [apply IH; set_solver|]. intros [q|] s' [-> H]; [done|].
    split; [done|]. intros q j [->|?]%elem_of_cons; [|eauto].
    intros ?. by simplify_eq. }
  eapply wp_mono; [by apply Hsub|]. intros [p|] s' [-> H]; [done|].
  split; [done|]. intros p i Hi. apply (H p i); [|done]. apply (wi_dom _ Hwf). by eexists.
Qed.
End table.

Lemma inode_open_wp s sector :
  wf_inodes s → has_sector (v_disk (fs_vol s)) sector → v_mem (fs_vol s) = [] →
  wp (inode_open sector) s (λ p s', ∃ i', wf_inodes s' ∧ p ≠ 0 ∧
    same_data (fs_vol s) (fs_vol s') ∧
    inodes s' = <[p := i']> (inodes s) ∧ i_sector i' = sector ∧
    ((∃ i, inodes s !! p = Some i ∧ i' = set_open_cnt (open_cnt i + 1) i ∧
           fs_vol s' = fs_vol s ∧ open_inodes s' = open_inodes s) ∨
     ((∀ q i, inodes s !! q = Some i → i_sector i ≠ sector) ∧ inodes s !! p = None ∧
      i' = Inode sector 1 false 0 (inode_of_bytes (sector_at (v_disk (fs_vol s)) sector)) ∧
      open_inodes s' = p :: open_inodes s))).
Proof.
  intros Hwf Hsec Hm. unfold inode_open. wp_pure. eapply wp_mono; [by apply find_open_wp|].
    intros [p|] s0 [-> H].
    - destruct H as (i & Hi & Hs). assert (Hp : p ∈ open_inodes s) by (apply (wi_dom _ Hwf); eauto).
      pose proof (wi_ptr _ Hwf _ Hp). unfold inode_reopen, get_inode, put_inode.
      rewrite (proj2 (Z.eqb_neq _ _)) by lia. wp_pure. wp_step; [done|]. wp_pure.
      exists (set_open_cnt (open_cnt i + 1) i). split.
      { apply (wf_put s p i); [done..|]. pose proof (wi_count _ Hwf _ _ Hi).
        pose proof (wi_deny _ Hwf _ _ Hi). repeat split; simpl; lia. }
      split; [lia|]. split; [done|]. split; [done|]. split; [done|]. left. eauto.
    - unfold on_vol, put_inode, on_disk. wp_pure. apply wp_malloc_ok; [done|]. simpl. wp_pure.
      simpl. apply wp_disk_read; [done|]. wp_pure. simpl.
      set (p := next_ptr s). set (i' := Inode _ _ _ _ _). exists i'.
      assert (Hn : inodes s !! p = None).
      { destruct (inodes s !! p) as [j|] eqn:Hj; [|done].
        assert (Hp : p ∈ open_inodes s) by (apply (wi_dom _ Hwf); eauto).
        apply (wi_ptr _ Hwf) in Hp. unfold p in Hp. lia. }
      assert (Hnp : p ∉ open_inodes s) by (rewrite (wi_dom _ Hwf), Hn; by intros []).
      pose proof (wi_next _ Hwf) as Hnx. fold p in Hnx.
      split; [|split; [lia|split; [done|split; [done|split; [done|right; split_and!; eauto]]]]].
      destruct Hwf. split; simpl.
      + by constructor.
      + intros q. rewrite elem_of_cons, wi_dom0. destruct (decide (q = p)) as [->|].
        * rewrite lookup_insert_eq. split; eauto.
        * rewrite lookup_insert_ne by done. naive_solver.
      + intros q [->|Hq]%elem_of_cons; [lia|]. specialize (wi_ptr0 _ Hq). lia.
      + lia.
      + intros q j [[_ <-]|[_ ?]]%lookup_insert_Some; [done|eauto].
      + intros q j [[_ <-]|[_ ?]]%lookup_insert_Some; [done|eauto].
      + intros q r j k. rewrite !lookup_insert_Some.
        intros [[<- <-]|[? Hj]] [[<- <-]|[? Hk]] Heq; try done.
        * exfalso. by eapply (H _ _ Hk).
        * exfalso. by eapply (H _ _ Hj).
        * by eapply wi_sector0.
Qed.

(** Opening a sector that is open gives the same inode, counted once more;
    otherwise a fresh inode with the contents of the sector. *)
Theorem inode_open_spec s sector :
  wf_inodes s → has_sector (v_disk (fs_vol s)) sector → v_mem (fs_vol s) = [] →
  ∃ p s' i', inode_open sector s = Done (p, s') ∧ wf_inodes s' ∧ p ≠ 0 ∧
    same_data (fs_vol s) (fs_vol s') ∧
    inodes s' = <[p := i']> (inodes s) ∧ i_sector i' = sector ∧
    ((∃ i, inodes s !! p = Some i ∧ i' = set_open_cnt (open_cnt i + 1) i ∧
           fs_vol s' = fs_vol s ∧ open_inodes s' = open_inodes s) ∨
     ((∀ q i, inodes s !! q = Some i → i_sector i ≠ sector) ∧ inodes s !! p = None ∧
      i' = Inode sector 1 false 0 (inode_of_bytes (sector_at (v_disk (fs_vol s)) sector)) ∧
      open_inodes s' = p :: open_inodes s)).
Proof.
  intros Hwf Hsec Hm. destruct (wp_run _ _ _ (inode_open_wp s sector Hwf Hsec Hm))
    as (p & s' & He & i' & H). eauto 10.
Qed.

(** The clusters [l] of a removed file and the cluster of its inode can be
    given back by the last close. *)
Definition releasable (f : fat_fs) (i : inode) (l : list Z) : Prop :=
  let c := sector_to_cluster f (i_sector i) in
  removed i = true → open_cnt i = 1 →
  wf_fat f ∧ chain (fat f) (id_start (i_data i)) l ∧ l ≠ [] ∧ chain (fat f) c [c] ∧ c ∉ l.

(** The clusters [l] are free, and nothing else has changed. *)
Record freed (v : vol) (l : list Z) (v' : vol) : Prop := {
  fr_free : ∀ x, is_free (v_fat v') x ↔ x ∈ l ∨ is_free (v_fat v) x;
  fr_chain : ∀ c k, chain (fat (v_fat v)) c k → k ## l → chain (fat (v_fat v')) c k;
  fr_start : data_start (v_fat v') = data_start (v_fat v);
  fr_fat : wf_fat (v_fat v');
  fr_disk : v_disk v' = v_disk v;
  fr_mem : v_mem v' = v_mem v;
}.

Lemma released_freed f l1 f1 l2 f2 d m :
  released f l1 f1 → released f1 l2 f2 → wf_fat f2 →
  freed (Vol d f m) (l2 ++ l1) (Vol d f2 m).
Proof.
  intros H1 H2 Hwf. split; simpl; [|..|done|done|done].
  - intros x. rewrite elem_of_app. destruct (decide (x ∈ l2)) as [Hx2|Hx2].
    { split; [by auto|]. intros _. by apply (rel_free _ _ _ H2). }
    unfold is_free. rewrite (rel_other _ _ _ H2) by done. destruct (decide (x ∈ l1)) as [Hx1|Hx1].
    { split; [by auto|]. intros _. by apply (rel_free _ _ _ H1). }
    rewrite (rel_other _ _ _ H1) by done. tauto.
  - intros c k Hc Hd. eapply released_frame; [done| |set_solver].
    eapply released_frame; [done|done|set_solver].
  - by rewrite (rel_start _ _ _ H2), (rel_start _ _ _ H1).
Qed.

Lemma inode_close_wp s p i l :
  let f := v_fat (fs_vol s) in
  let c := sector_to_cluster f (i_sector i) in
  wf_inodes s → inodes s !! p = Some i → id_magic (i_data i) = INODE_MAGIC →
  deny_write_cnt i < open_cnt i ∨ open_cnt i = 1 →
  releasable f i l →
  wp (inode_close p) s (λ _ s', wf_inodes s' ∧
    if decide (1 < open_cnt i) then
      s' = set_inodes (<[p := set_open_cnt (open_cnt i - 1) i]> (inodes s)) s
    else inodes s' = delete p (inodes s) ∧ p ∉ open_inodes s' ∧
      if removed i then freed (fs_vol s) (c :: l) (fs_vol s') else fs_vol s' = fs_vol s).
Proof.
  intros f c Hwf Hi Hmag Hdeny Hrem. assert (Hp : p ∈ open_inodes s) by (apply (wi_dom _ Hwf); eauto).
  pose proof (wi_ptr _ Hwf _ Hp). pose proof (wi_count _ Hwf _ _ Hi) as Hcnt.
  pose proof (wi_deny _ Hwf _ _ Hi) as Hdn.
  unfold inode_close, get_inode, put_inode.
  rewrite (proj2 (Z.eqb_neq _ _)) by lia. wp_pure. wp_step; [done|].
  rewrite Hmag, Z.eqb_refl. simpl. wp_pure.
  destruct (Z.eqb_spec (open_cnt i - 1) 0) as [H0|H0].
  - destruct (decide (1 < open_cnt i)); [lia|]. simpl. wp_pure. simpl.
    assert (Hfin : ∀ v, wf_inodes (Fsys v (delete p (<[p := set_open_cnt (open_cnt i - 1) i]> (inodes s)))
        (filter (λ q, q ≠ p) (open_inodes s)) (next_ptr s)) ∧
      delete p (<[p := set_open_cnt (open_cnt i - 1) i]> (inodes s)) = delete p (inodes s) ∧
      p ∉ filter (λ q, q ≠ p) (open_inodes s)).
    { intros v. rewrite delete_insert_eq. split; [by eapply wf_delete|]. split; [done|].
      by intros [? _]%list_elem_of_filter. }
    unfold releasable in Hrem. fold c in Hrem. destruct (removed i) eqn:Hr; simpl.
    + destruct (Hrem eq_refl ltac:(lia)) as (Hwff & Hl & Hne & Hc & Hcl). unfold on_vol, on_fat, fat_release.
      wp_pure. simpl. fold f. eapply wp_mono; [by apply (fat_remove_chain_wp f _ l)|].
      intros [] f1 [Hrel1 Hwf1]. simpl. wp_pure. simpl.
      assert (Hcc : sector_to_cluster f1 (i_sector i) = c).
      { unfold c, sector_to_cluster. by rewrite (rel_start _ _ _ Hrel1). }
      rewrite Hcc. eapply wp_mono.
      { apply (fat_remove_chain_wp f1 _ [c]); [done| |done].
        eapply released_frame; [done..|]. set_solver. }
      intros [] f2 [Hrel2 Hwf2]. wp_pure. simpl.
      destruct (Hfin (Vol (v_disk (fs_vol s)) f2 (v_mem (fs_vol s)))) as (Hw & He & Hn).
      split; [exact Hw|]. split; [exact He|]. split; [exact Hn|].
      replace (fs_vol s) with (Vol (v_disk (fs_vol s)) f (v_mem (fs_vol s))) by (unfold f; by destruct (fs_vol s)).
      by apply (released_freed f l f1 [c] f2).
    + wp_pure. simpl. destruct (Hfin (fs_vol s)) as (Hw & He & Hn). done.
  - destruct (decide (1 < open_cnt i)); [|lia]. wp_pure. split; [|done].
    apply (wf_put s p i); [done..|]. repeat split; simpl; lia.
Qed.

(** Closing one of several opens only counts; the last close takes the inode
    out of the table, and gives the clusters of a removed file and of its
    inode back to the allocator. *)
Theorem inode_close_spec s p i l :
  let f := v_fat (fs_vol s) in
  let c := sector_to_cluster f (i_sector i) in
  wf_inodes s → inodes s !! p = Some i → id_magic (i_data i) = INODE_MAGIC →
  deny_write_cnt i < open_cnt i ∨ open_cnt i = 1 →
  releasable f i l →
  ∃ s', inode_close p s = Done (tt, s') ∧ wf_inodes s' ∧
    if decide (1 < open_cnt i) then
      s' = set_inodes (<[p := set_open_cnt (open_cnt i - 1) i]> (inodes s)) s
    else inodes s' = delete p (inodes s) ∧ p ∉ open_inodes s' ∧
      if removed i then freed (fs_vol s) (c :: l) (fs_vol s') else fs_vol s' = fs_vol s.
Proof. intros f c Hwf Hi Hmag Hdeny Hrem. by eapply wp_run_unit, inode_close_wp. Qed.

(** inode_deny_write and inode_allow_write keep the counts in step, and they
    undo each other. *)
Theorem inode_deny_allow s p i :
  wf_inodes s → inodes s !! p = Some i → deny_write_cnt i < open_cnt i →
  ∃ s1, inode_deny_write p s = Done (tt, s1) ∧ wf_inodes s1 ∧
    (∀ j, inodes s1 !! p = Some j → 0 < deny_write_cnt j) ∧
    inode_allow_write p s1 = Done (tt, s).
Proof.
  intros Hwf Hi Hlt. pose proof (wi_deny _ Hwf _ _ Hi). pose proof (wi_count _ Hwf _ _ Hi).
  apply wp_run_unit. unfold inode_deny_write, get_inode, put_inode. wp_pure. wp_step; [done|].
  wp_pure. wp_step; [apply Z.leb_le; simpl; lia|]. split; [|split].
  - apply (wf_put s p i); [done..|]. repeat split; simpl; lia.
  - simpl. intros j. rewrite lookup_insert_eq. intros [= <-]. simpl. lia.
  - apply wp_run_eq. unfold inode_allow_write, get_inode, put_inode. wp_pure.
    wp_step; [apply lookup_insert_eq|]. wp_pure. wp_step; [apply Z.ltb_lt; simpl; lia|].
    wp_pure. wp_step; [apply Z.leb_le; simpl; lia|]. wp_pure. split; [done|].
    unfold set_inodes. simpl. rewrite insert_insert_eq. destruct s as [v m o n]. simpl in *. f_equal.
    apply insert_id. rewrite Hi. f_equal. destruct i. unfold set_deny. simpl. f_equal. lia.
Qed.

(** An inode of a removed empty file, which has no cluster, can not be closed:
    the release of "cluster 0" never ends. *)
Theorem inode_close_empty_diverges s p i :
  wf_fat (v_fat (fs_vol s)) → p ≠ 0 → inodes s !! p = Some i →
  id_magic (i_data i) = INODE_MAGIC → open_cnt i = 1 → removed i = true →
  id_start (i_data i) = 0 →
  inode_close p s = NoFuel ∧ ∀ n, loop n remove_step 0 (v_fat (fs_vol s)) = NoFuel.
Proof.
  intros Hwf Hp Hi Hmag Hc Hr Hst. pose proof (remove_zero_diverges _ Hwf) as Hdiv.
  split; [|done]. unfold inode_close. rewrite (proj2 (Z.eqb_neq _ _)) by done.
  unfold get_inode, put_inode, mbind, st_bind, get_st, deref, modify. simpl. rewrite Hi.
  rewrite Hmag, Z.eqb_refl. simpl. rewrite Hc. simpl. rewrite Hr.
  unfold on_vol, on_fat, zoom, fat_release, fat_remove_chain, mbind, st_bind, get_st, assert_st.
  simpl. rewrite Hst. pose proof (wf_len_range _ Hwf).
  rewrite (proj2 (Z.ltb_lt _ _)) by lia. simpl. unfold mret, st_ret. by rewrite Hdiv.
Qed.
