(* ===== verification/File.v ===== *)
(** * Open files (filesys/file.c)

    [struct file] over the inodes: positions, duplication, and the denial of
    writes, whose counts in the inodes always equal the number of open files
    that deny. *)
From stdpp Require Import base numbers list sets gmap.
From Stdlib Require Import ZArith Lia.
From S2P Require Import Prelude Bytes Fat Volume Inode InodeData InodeGrow InodeTable.
Open Scope Z_scope.

(** struct file *)
Record file := File {
  f_inode : Z;
  f_pos : Z;
  f_deny : bool;
  dup_count : Z;
}.

(** struct dir *)
Record dir := Dir {
  d_inode : Z;
  d_pos : Z;
}.

(** The kernel's file objects, by address, over the file system. *)
Record kfs := Kfs {
  k_fs : fsys;
  files : gmap Z file;
  dirs : gmap Z dir;
  k_next : Z;
}.

Definition on_fs {A} : ST fsys A → ST kfs A :=
  zoom k_fs (λ v s, Kfs v (files s) (dirs s) (k_next s)).
Definition set_files m s := Kfs (k_fs s) m (dirs s) (k_next s).
Definition set_pos n f := File (f_inode f) n (f_deny f) (dup_count f).
Definition set_file_deny b f := File (f_inode f) (f_pos f) b (dup_count f).
Definition set_dup n f := File (f_inode f) (f_pos f) (f_deny f) n.

Definition get_file (p : Z) : ST kfs file := s ← get_st; deref (files s !! p).
Definition put_file (p : Z) (f : file) : ST kfs unit :=
  modify (λ s, set_files (<[p := f]> (files s)) s).

(** [inode] and [pos] lie first in struct file and in struct dir; sys_open stores
    a [struct dir *] where a [struct file *] is expected. *)
Definition head_of (p : Z) : ST kfs (Z * Z) :=
  s ← get_st;
  match files s !! p with
  | Some f => mret (f_inode f, f_pos f)
  | None => d ← deref (dirs s !! p); mret (d_inode d, d_pos d)
  end.
Definition put_pos (p n : Z) : ST kfs unit :=
  s ← get_st;
  match files s !! p with
  | Some f => put_file p (set_pos n f)
  | None => d ← deref (dirs s !! p);
      modify (λ s, Kfs (k_fs s) (files s) (<[p := Dir (d_inode d) n]> (dirs s)) (k_next s))
  end.

(** ** Operations *)

Definition increase_dup_count (p : Z) : ST kfs unit :=
  f ← get_file p; put_file p (set_dup (dup_count f + 1) f).
Definition decrease_dup_count (p : Z) : ST kfs unit :=
  f ← get_file p; put_file p (set_dup (dup_count f - 1) f).
Definition check_dup_count (p : Z) : ST kfs Z := f ← get_file p; mret (dup_count f).

Definition file_open (inode : Z) : ST kfs Z :=
  ok ← on_fs (on_vol malloc);
  if negb (inode =? 0) && ok then
    s ← get_st;
    let p := k_next s in
    _ ← modify (λ s, Kfs (k_fs s) (<[p := File inode 0 false 1]> (files s)) (dirs s) (p + 1));
    mret p
  else _ ← on_fs (inode_close inode); mret 0.

Definition file_reopen (p : Z) : ST kfs Z :=
  h ← head_of p; i ← on_fs (inode_reopen (fst h)); file_open i.

Definition file_deny_write (p : Z) : ST kfs unit :=
  _ ← assert_st (negb (p =? 0));
  f ← get_file p;
  if negb (f_deny f) then
    _ ← put_file p (set_file_deny true f); on_fs (inode_deny_write (f_inode f))
  else mret tt.

Definition file_allow_write (p : Z) : ST kfs unit :=
  _ ← assert_st (negb (p =? 0));
  f ← get_file p;
  if f_deny f then
    _ ← put_file p (set_file_deny false f); on_fs (inode_allow_write (f_inode f))
  else mret tt.

Definition file_duplicate (p : Z) : ST kfs Z :=
  f ← get_file p;
  i ← on_fs (inode_reopen (f_inode f));
  nfile ← file_open i;
  if nfile =? 0 then mret nfile else
  nf ← get_file nfile;
  f ← get_file p;
  _ ← put_file nfile (set_pos (f_pos f) nf);
  _ ← (if f_deny f then file_deny_write nfile else mret tt);
  mret nfile.

Definition file_close (p : Z) : ST kfs unit :=
  if p =? 0 then mret tt else
  _ ← file_allow_write p;
  f ← get_file p;
  _ ← on_fs (inode_close (f_inode f));
  modify (λ s, set_files (delete p (files s)) s).

Definition file_get_inode (p : Z) : ST kfs Z := h ← head_of p; mret (fst h).

(** Reads return the bytes stored in the buffer; the C functions return their
    number. *)
Definition file_read (p size : Z) : ST kfs (list Z) :=
  h ← head_of p;
  bytes ← on_fs (inode_read_at (fst h) size (snd h));
  pos ← int_ok (snd h + zlength bytes);
  _ ← put_pos p pos;
  mret bytes.

Definition file_read_at (p size file_ofs : Z) : ST kfs (list Z) :=
  f ← get_file p; on_fs (inode_read_at (f_inode f) size file_ofs).

Definition file_write (p : Z) (buffer : list Z) (size : Z) : ST kfs Z :=
  f ← get_file p;
  bytes_written ← on_fs (inode_write_at (f_inode f) buffer size (f_pos f));
  pos ← int_ok (f_pos f + bytes_written);
  _ ← put_file p (set_pos pos f);
  mret bytes_written.

Definition file_write_at (p : Z) (buffer : list Z) (size file_ofs : Z) : ST kfs Z :=
  f ← get_file p; on_fs (inode_write_at (f_inode f) buffer size file_ofs).

Definition file_length (p : Z) : ST kfs Z :=
  _ ← assert_st (negb (p =? 0));
  h ← head_of p; i ← on_fs (get_inode (fst h)); mret (inode_length i).

Definition file_seek (p new_pos : Z) : ST kfs unit :=
  _ ← assert_st (negb (p =? 0));
  _ ← assert_st (0 <=? new_pos);
  put_pos p new_pos.

Definition file_tell (p : Z) : ST kfs Z :=
  _ ← assert_st (negb (p =? 0)); h ← head_of p; mret (snd h).

Definition is_file_dir (p : Z) : ST kfs bool :=
  h ← head_of p; i ← on_fs (get_inode (fst h)); mret (is_dir i).

Definition get_file_inode_num (p : Z) : ST kfs Z :=
  h ← head_of p; i ← on_fs (get_inode (fst h)); mret (get_inode_sector i).

(** ** Denials are balanced *)

(** The open files and directories of an inode, and those that deny writes. *)
Definition refers (inode : Z) (f : file) : bool := f_inode f =? inode.
Definition denies (inode : Z) (f : file) : bool := (f_inode f =? inode) && f_deny f.
Definition dir_refers (inode : Z) (d : dir) : bool := d_inode d =? inode.

Record wf_files (s : kfs) : Prop := {
  wff_inodes : wf_inodes (k_fs s);
  wff_file : ∀ p f, files s !! p = Some f →
    is_Some (inodes (k_fs s) !! f_inode f) ∧ 0 < p < k_next s;
  wff_dir : ∀ p d, dirs s !! p = Some d →
    is_Some (inodes (k_fs s) !! d_inode d) ∧ 0 < p < k_next s;
  wff_next : 0 < k_next s;
  wff_magic : ∀ q i, inodes (k_fs s) !! q = Some i → id_magic (i_data i) = INODE_MAGIC;
  wff_deny : ∀ q i, inodes (k_fs s) !! q = Some i →
    deny_write_cnt i = count (denies q) (files s);
  wff_refs : ∀ q i, inodes (k_fs s) !! q = Some i →
    count (refers q) (files s) + count (dir_refers q) (dirs s) <= open_cnt i;
}.

Lemma wp_head_of s p f Q : files s !! p = Some f → wp (head_of p) s Q ↔ Q (f_inode f, f_pos f) s.
Proof. intros Hp. unfold head_of. rewrite wp_bind, wp_get, Hp. apply wp_ret. Qed.
Lemma wp_put_pos s p f n Q : files s !! p = Some f →
  wp (put_pos p n) s Q ↔ Q tt (set_files (<[p := set_pos n f]> (files s)) s).
Proof. intros Hp. unfold put_pos. rewrite wp_bind, wp_get, Hp. unfold put_file. exact (wp_modify _ _ _). Qed.

(** The open inodes are as they were but for their counts, and no cluster has
    changed hands. *)
Definition inodes_kept (s s' : fsys) : Prop :=
  v_fat (fs_vol s') = v_fat (fs_vol s) ∧
  ∀ q i', inodes s' !! q = Some i' → ∃ i, inodes s !! q = Some i ∧
    i_data i' = i_data i ∧ i_sector i' = i_sector i ∧ removed i' = removed i.

Lemma inodes_kept_trans s1 s2 s3 : inodes_kept s1 s2 → inodes_kept s2 s3 → inodes_kept s1 s3.
Proof.
  intros [Hf1 H1] [Hf2 H2]. split; [congruence|]. intros q i3 H3.
  destruct (H2 q i3 H3) as (i2 & Hi2 & ? & ? & ?). destruct (H1 q i2 Hi2) as (i1 & Hi1 & ? & ? & ?).
  exists i1. split; [done|]. split_and!; congruence.
Qed.
Lemma inodes_kept_insert s s' q i i' :
  v_fat (fs_vol s') = v_fat (fs_vol s) → inodes s !! q = Some i → inodes s' = <[q := i']> (inodes s) →
  i_data i' = i_data i → i_sector i' = i_sector i → removed i' = removed i → inodes_kept s s'.
Proof.
  intros Hf Hi Hin H1 H2 H3. split; [done|]. intros r j. rewrite Hin, lookup_insert_Some.
  intros [[<- <-]|[_ Hj]]; eauto.
Qed.
Lemma inodes_kept_same s s' :
  v_fat (fs_vol s') = v_fat (fs_vol s) → inodes s' = inodes s → inodes_kept s s'.
Proof. intros Hf Hin. split; [done|]. intros q i. rewrite Hin. eauto. Qed.

Section denials.
Implicit Types (s : kfs) (p q : Z) (f : file) (i : inode).

(** The parts of the state that an operation on files changes. *)
Definition with_inode s (q : Z) (i : inode) (fl : gmap Z file) (nx : Z) : kfs :=
  Kfs (set_inodes (<[q := i]> (inodes (k_fs s))) (k_fs s)) fl (dirs s) nx.

Lemma deny_le_refers s q : count (denies q) (files s) <= count (refers q) (files s).
Proof. apply count_mono. unfold denies, refers. intros f. by destruct (f_inode f =? q). Qed.

Lemma deny_lt_refers (m : gmap Z file) p f :
  m !! p = Some f → f_deny f = false →
  count (denies (f_inode f)) m < count (refers (f_inode f)) m.
Proof.
  intros Hp Hd. rewrite (count_delete (refers _) m p f Hp), (count_delete (denies _) m p f Hp).
  unfold denies at 2, refers at 2. rewrite Z.eqb_refl, Hd. simpl.
  enough (count (denies (f_inode f)) (delete p m) <= count (refers (f_inode f)) (delete p m)) by lia.
  apply count_mono. unfold denies, refers. intros g. by destruct (f_inode g =? _).
Qed.

(** A file changes its flag, and its inode counts it. *)
Lemma wf_files_flag s p f f' i v :
  wf_files s → files s !! p = Some f → f_inode f' = f_inode f →
  inodes (k_fs s) !! f_inode f = Some i →
  let i' := set_deny (deny_write_cnt i - (if f_deny f then 1 else 0)
                      + (if f_deny f' then 1 else 0)) i in
  wf_files (Kfs (Fsys v (<[f_inode f := i']> (inodes (k_fs s))) (open_inodes (k_fs s))
                   (next_ptr (k_fs s))) (<[p := f']> (files s)) (dirs s) (k_next s)).
Proof.
  intros Hwf Hp Hin Hi i'. pose proof Hwf as [Hwi Hf Hd Hn Hmag Hdn Hr].
  assert (Hc : ∀ q, count (denies q) (<[p := f']> (files s))
    = count (denies q) (files s) - (if denies q f then 1 else 0) + (if denies q f' then 1 else 0)).
  { intros q. rewrite count_insert, (count_delete _ (files s) p f Hp). lia. }
  assert (Hrf : ∀ q, count (refers q) (<[p := f']> (files s)) = count (refers q) (files s)).
  { intros q. rewrite count_insert, (count_delete _ (files s) p f Hp).
    unfold refers at 2 4. by rewrite Hin. }
  assert (Hself : deny_write_cnt i' = count (denies (f_inode f)) (<[p := f']> (files s))).
  { rewrite Hc, <- (Hdn _ _ Hi). unfold denies. rewrite Hin, Z.eqb_refl. done. }
  set (s' := Kfs _ _ _ _).
  assert (Hle := deny_le_refers s' (f_inode f)). simpl in Hle. rewrite Hrf in Hle.
  split; simpl.
  - apply (wf_put _ _ i); [done..|]. split; [done|]. pose proof (wi_count _ Hwi _ _ Hi).
    specialize (Hr _ _ Hi). pose proof (count_nonneg (dir_refers (f_inode f)) (dirs s)).
    pose proof (count_nonneg (denies (f_inode f)) (<[p := f']> (files s))).
    split; [done|]. rewrite Hself. change (open_cnt i') with (open_cnt i). lia.
  - intros r g. rewrite lookup_insert_Some, lookup_insert_is_Some. intros [[<- <-]|[_ Hg]].
    + rewrite Hin. split; [by left|by eapply Hf].
    + destruct (Hf _ _ Hg) as [? ?]. split; [|done].
      destruct (decide (f_inode f = f_inode g)); [by left|by right].
  - intros r g Hg. rewrite lookup_insert_is_Some. destruct (Hd _ _ Hg) as [? ?]. split; [|done].
    destruct (decide (f_inode f = d_inode g)); [by left|by right].
  - done.
  - intros q j. rewrite lookup_insert_Some. intros [[<- <-]|[_ Hj]]; [exact (Hmag _ _ Hi)|by eapply Hmag].
  - intros q j. rewrite lookup_insert_Some. intros [[<- <-]|[Hne Hj]]; [done|].
    rewrite Hc, (Hdn _ _ Hj). unfold denies. rewrite Hin.
    rewrite (proj2 (Z.eqb_neq (f_inode f) q)) by done. simpl. lia.
  - intros q j. rewrite lookup_insert_Some, Hrf. intros [[<- <-]|[_ Hj]]; [exact (Hr _ _ Hi)|by apply Hr].
Qed.

Lemma wf_files_put s p f f' :
  wf_files s → files s !! p = Some f → f_inode f' = f_inode f → f_deny f' = f_deny f →
  wf_files (set_files (<[p := f']> (files s)) s).
Proof.
  intros Hwf Hp Hin Hde. destruct (wff_file _ Hwf _ _ Hp) as [[i Hi] _].
  pose proof (wf_files_flag s p f f' i (fs_vol (k_fs s)) Hwf Hp Hin Hi) as H. simpl in H.
  rewrite Hde in H. replace (set_deny _ i) with i in H.
  - rewrite insert_id in H by done. destruct s as [[] ? ? ?]. exact H.
  - destruct i. unfold set_deny. simpl. f_equal. lia.
Qed.

Lemma file_deny_write_wp s p f i :
  wf_files s → files s !! p = Some f → inodes (k_fs s) !! f_inode f = Some i →
  wp (file_deny_write p) s (λ _ s', wf_files s' ∧ k_next s' = k_next s ∧ dirs s' = dirs s ∧
    files s' = <[p := set_file_deny true f]> (files s) ∧ fs_vol (k_fs s') = fs_vol (k_fs s) ∧
    inodes (k_fs s') = <[f_inode f := set_deny (deny_write_cnt i
      + (if f_deny f then 0 else 1)) i]> (inodes (k_fs s))).
Proof.
  intros Hwf Hp Hi. pose proof (wff_file _ Hwf _ _ Hp) as [_ Hpp]. unfold file_deny_write, get_file.
  rewrite (proj2 (Z.eqb_neq _ _)) by lia. wp_pure. wp_step; [done|]. wp_pure. wp_step; [done|].
  destruct (f_deny f) eqn:Hd; simpl.
  - wp_pure. replace (set_file_deny true f) with f by (destruct f; simpl in *; by subst).
    replace (set_deny _ i) with i by (destruct i; unfold set_deny; simpl; f_equal; lia).
    by rewrite !insert_id.
  - unfold put_file, on_fs, inode_deny_write, get_inode, put_inode. wp_pure. simpl. wp_step; [done|].
    wp_pure.
    pose proof (wf_files_flag s p f (set_file_deny true f) i (fs_vol (k_fs s)) Hwf Hp eq_refl Hi) as H.
    cbv zeta in H. rewrite Hd in H. simpl in H. rewrite Z.sub_0_r in H. wp_step.
    + apply Z.leb_le. pose proof (wi_deny _ (wff_inodes _ H) (f_inode f)) as Hw. simpl in Hw.
      specialize (Hw _ (lookup_insert_eq _ _ _)). simpl in *. lia.
    + done.
Qed.

Lemma file_allow_write_wp s p f i :
  wf_files s → files s !! p = Some f → inodes (k_fs s) !! f_inode f = Some i →
  wp (file_allow_write p) s (λ _ s', wf_files s' ∧ k_next s' = k_next s ∧ dirs s' = dirs s ∧
    files s' = <[p := set_file_deny false f]> (files s) ∧ fs_vol (k_fs s') = fs_vol (k_fs s) ∧
    inodes (k_fs s') = <[f_inode f := set_deny (deny_write_cnt i
      - (if f_deny f then 1 else 0)) i]> (inodes (k_fs s))).
Proof.
  intros Hwf Hp Hi. pose proof (wff_file _ Hwf _ _ Hp) as [_ Hpp]. unfold file_allow_write, get_file.
  rewrite (proj2 (Z.eqb_neq _ _)) by lia. wp_pure. wp_step; [done|]. wp_pure. wp_step; [done|].
  destruct (f_deny f) eqn:Hd; simpl.
  - unfold put_file, on_fs, inode_allow_write, get_inode, put_inode. wp_pure. simpl. wp_step; [done|].
    pose proof (wf_files_flag s p f (set_file_deny false f) i (fs_vol (k_fs s)) Hwf Hp eq_refl Hi) as H.
    cbv zeta in H. rewrite Hd in H. simpl in H. rewrite Z.add_0_r in H.
    pose proof (wi_deny _ (wff_inodes _ Hwf) _ _ Hi).
    pose proof (wi_deny _ (wff_inodes _ H) (f_inode f)) as Hw. simpl in Hw.
    specialize (Hw _ (lookup_insert_eq _ _ _)). simpl in Hw.
    wp_pure. wp_step; [apply Z.ltb_lt; lia|]. wp_pure. wp_step; [apply Z.leb_le; lia|]. wp_pure.
    done.
  - wp_pure. replace (set_file_deny false f) with f by (destruct f; simpl in *; by subst).
    replace (set_deny _ i) with i by (destruct i; unfold set_deny; simpl; f_equal; lia).
    by rewrite !insert_id.
Qed.

(** The number of references of an inode changes. *)
Lemma wf_files_opens s q i n v :
  wf_files s → inodes (k_fs s) !! q = Some i → 1 <= n →
  count (refers q) (files s) + count (dir_refers q) (dirs s) <= n →
  wf_files (Kfs (Fsys v (<[q := set_open_cnt n i]> (inodes (k_fs s))) (open_inodes (k_fs s))
                   (next_ptr (k_fs s))) (files s) (dirs s) (k_next s)).
Proof.
  intros Hwf Hi Hn Hle. pose proof Hwf as [Hwi Hf Hd Hnx Hmag Hdn Hr].
  pose proof (deny_le_refers s q). pose proof (count_nonneg (dir_refers q) (dirs s)).
  pose proof (wi_deny _ Hwi _ _ Hi). specialize (Hdn q) as Hdq. specialize (Hdq _ Hi).
  split; simpl.
  - apply (wf_put _ _ i); [done..|]. repeat split; simpl; lia.
  - intros r g Hg. rewrite lookup_insert_is_Some. destruct (Hf _ _ Hg) as [? ?]. split; [|done].
    destruct (decide (q = f_inode g)); [by left|by right].
  - intros r g Hg. rewrite lookup_insert_is_Some. destruct (Hd _ _ Hg) as [? ?]. split; [|done].
    destruct (decide (q = d_inode g)); [by left|by right].
  - done.
  - intros q' j. rewrite lookup_insert_Some. intros [[<- <-]|[_ Hj]]; [exact (Hmag _ _ Hi)|by eapply Hmag].
  - intros q' j. rewrite lookup_insert_Some. intros [[<- <-]|[_ Hj]]; [done|by apply Hdn].
  - intros q' j. rewrite lookup_insert_Some. intros [[<- <-]|[_ Hj]]; [done|by apply Hr].
Qed.

Lemma wf_files_mem s m :
  wf_files s → wf_files (Kfs (Fsys (Vol (v_disk (fs_vol (k_fs s))) (v_fat (fs_vol (k_fs s))) m)
    (inodes (k_fs s)) (open_inodes (k_fs s)) (next_ptr (k_fs s))) (files s) (dirs s) (k_next s)).
Proof. intros [[] ? ? ? ? ? ?]. by split; [split|..]. Qed.

Lemma wf_files_new s q i :
  wf_files s → inodes (k_fs s) !! q = Some i →
  count (refers q) (files s) + count (dir_refers q) (dirs s) < open_cnt i →
  wf_files (Kfs (k_fs s) (<[k_next s := File q 0 false 1]> (files s)) (dirs s) (k_next s + 1)).
Proof.
  intros Hwf Hi Hlt. pose proof Hwf as [Hwi Hf Hd Hnx Hmag Hdn Hr].
  assert (Hfresh : files s !! k_next s = None).
  { destruct (files s !! k_next s) as [g|] eqn:Hg; [|done]. apply Hf in Hg as [_ ?]. lia. }
  split; simpl; [done|..].
  - intros r g. rewrite lookup_insert_Some. intros [[<- <-]|[_ Hg]]; [split; [by eexists|lia]|].
    destruct (Hf _ _ Hg). split; [done|lia].
  - intros r g Hg. destruct (Hd _ _ Hg). split; [done|lia].
  - lia.
  - done.
  - intros q' j Hj. rewrite count_fresh by done. unfold denies at 2. simpl.
    rewrite andb_false_r. rewrite (Hdn _ _ Hj). lia.
  - intros q' j Hj. rewrite count_fresh by done. unfold refers at 2. simpl. specialize (Hr _ _ Hj).
    destruct (Z.eqb_spec q q') as [<-|]; [|lia]. rewrite Hi in Hj. injection Hj as <-. lia.
Qed.

(** file_open takes over the caller's reference to the inode: a file holds it,
    or, when there is no memory, it is given back. *)
Lemma file_open_wp s q i :
  wf_files s → inodes (k_fs s) !! q = Some i →
  count (refers q) (files s) + count (dir_refers q) (dirs s) < open_cnt i →
  (1 < open_cnt i ∨ v_mem (fs_vol (k_fs s)) = []) →
  wp (file_open q) s (λ p s', wf_files s' ∧ dirs s' = dirs s ∧
    (v_fat (fs_vol (k_fs s')) = v_fat (fs_vol (k_fs s)) ∧ k_next s <= k_next s' ∧
     (v_mem (fs_vol (k_fs s)) = [] → v_mem (fs_vol (k_fs s')) = [])) ∧
    (p = 0 ∧ files s' = files s ∧
       inodes (k_fs s') = <[q := set_open_cnt (open_cnt i - 1) i]> (inodes (k_fs s)) ∧
       v_mem (fs_vol (k_fs s)) ≠ [] ∨
     p = k_next s ∧ files s' = <[p := File q 0 false 1]> (files s) ∧ 
       inodes (k_fs s') = inodes (k_fs s))).
Proof.
  intros Hwf Hi Hlt Hm. assert (Hq : q ∈ open_inodes (k_fs s)).
  { apply (wi_dom _ (wff_inodes _ Hwf)). by eexists. }
  pose proof (wi_ptr _ (wff_inodes _ Hwf) _ Hq) as Hpq. unfold file_open. wp_step.
  set (v := fs_vol (k_fs s)) in *.
  apply wp_mono with (P := λ b s1, ∃ m, s1 = Kfs (Fsys (Vol (v_disk v) (v_fat v) m) (inodes (k_fs s))
    (open_inodes (k_fs s)) (next_ptr (k_fs s))) (files s) (dirs s) (k_next s) ∧
    (b = false → v_mem v ≠ []) ∧ (v_mem v = [] → m = [])).
  { unfold on_fs, on_vol. wp_pure. unfold malloc, wp. fold v. destruct (v_mem v) as [|b m] eqn:Hv.
    - exists []. split; [|done]. unfold v in *. by destruct s as [[[? ? ?] ? ? ?] ? ? ?]; simpl in *; subst.
    - by exists m. }
  intros b s1 (m & -> & Hb & Hmem). rewrite (proj2 (Z.eqb_neq _ _)) by lia.
  pose proof (wf_files_mem s m Hwf) as Hwf1. fold v in Hwf1. destruct b; simpl.
  - wp_pure. split; [|split; [done|]; split; [simpl; split; [done|split; [lia|done]]|by auto]].
    exact (wf_files_new (Kfs (Fsys (Vol (v_disk v) (v_fat v) m) (inodes (k_fs s))
    (open_inodes (k_fs s)) (next_ptr (k_fs s))) (files s) (dirs s) (k_next s)) q i Hwf1 Hi Hlt).
  - destruct Hm as [Hm|Hm]; [|by destruct (Hb eq_refl)].
    unfold on_fs, inode_close, get_inode, put_inode. rewrite (proj2 (Z.eqb_neq _ _)) by lia.
    wp_pure. simpl. wp_step; [done|].
    rewrite (wff_magic _ Hwf _ _ Hi), Z.eqb_refl. simpl. wp_pure. simpl.
    rewrite (proj2 (Z.eqb_neq (open_cnt i - 1) 0)) by lia. wp_pure. split.
    { refine (wf_files_opens (Kfs (Fsys (Vol (v_disk v) (v_fat v) m) (inodes (k_fs s))
    (open_inodes (k_fs s)) (next_ptr (k_fs s))) (files s) (dirs s) (k_next s)) q i _ _ Hwf1 Hi _ _); simpl; lia. }
    split; [done|]. split; [done|]. left. auto.
Qed.

Lemma file_reopen_wp s p f i :
  wf_files s → files s !! p = Some f → inodes (k_fs s) !! f_inode f = Some i →
  wp (file_reopen p) s (λ r s', wf_files s' ∧ dirs s' = dirs s ∧
    (v_fat (fs_vol (k_fs s')) = v_fat (fs_vol (k_fs s)) ∧ k_next s <= k_next s' ∧
     (v_mem (fs_vol (k_fs s)) = [] → v_mem (fs_vol (k_fs s')) = [])) ∧
    (r = 0 ∧ files s' = files s ∧ inodes (k_fs s') = inodes (k_fs s) ∧ v_mem (fs_vol (k_fs s)) ≠ [] ∨
     r = k_next s ∧ files s' = <[r := File (f_inode f) 0 false 1]> (files s) ∧
       inodes (k_fs s') = <[f_inode f := set_open_cnt (open_cnt i + 1) i]> (inodes (k_fs s)))).
Proof.
  intros Hwf Hp Hi. assert (Hq : f_inode f ∈ open_inodes (k_fs s)).
  { apply (wi_dom _ (wff_inodes _ Hwf)). by eexists. }
  pose proof (wi_ptr _ (wff_inodes _ Hwf) _ Hq) as Hpq. pose proof (wi_count _ (wff_inodes _ Hwf) _ _ Hi).
  pose proof (wff_refs _ Hwf _ _ Hi) as Hr.
  unfold file_reopen, on_fs, inode_reopen, get_inode, put_inode. wp_step. apply (wp_head_of s p f); [done|].
  wp_pure. simpl fst. rewrite (proj2 (Z.eqb_neq _ _)) by lia. wp_pure. wp_step; [done|]. wp_pure.
  assert (Hwf1 := wf_files_opens s (f_inode f) i (open_cnt i + 1) (fs_vol (k_fs s)) Hwf Hi
    ltac:(lia) ltac:(lia)).
  eapply wp_mono; [apply (file_open_wp _ (f_inode f) (set_open_cnt (open_cnt i + 1) i))|].
  - exact Hwf1.
  - simpl. by rewrite lookup_insert_eq.
  - simpl. lia.
  - left. simpl. lia.
  - simpl. intros r s' (Hwf' & Hd & Hvn & [(-> & Hf & Hin & Hm)|(-> & Hf & Hin)]).
    + split; [done|]. split; [done|]. split; [done|]. left. split; [done|]. split; [done|]. split; [|done].
      rewrite Hin, insert_insert_eq. apply insert_id. rewrite Hi. f_equal.
      destruct i. unfold set_open_cnt. simpl. f_equal. lia.
    + split; [done|]. split; [done|]. split; [done|]. right. auto.
Qed.

(** The state after a file that does not deny is dropped, and its inode
    closed: counted down, or gone with its last reference. *)
Section drop.
Context (s : kfs) (p : Z) (f : file) (i : inode).
Context (Hwf : wf_files s) (Hp : files s !! p = Some f) (Hnd : f_deny f = false).
Context (Hi : inodes (k_fs s) !! f_inode f = Some i).

Lemma drop_denies q : count (denies q) (delete p (files s)) = count (denies q) (files s).
Proof.
  rewrite (count_delete (denies q) (files s) p f Hp). unfold denies at 3.
  rewrite Hnd, andb_false_r. lia.
Qed.
Lemma drop_refers q :
  count (refers q) (delete p (files s))
  = count (refers q) (files s) - (if f_inode f =? q then 1 else 0).
Proof. rewrite (count_delete (refers q) (files s) p f Hp). unfold refers at 3. lia. Qed.

Lemma wf_files_drop_count fs' :
  wf_inodes fs' → 1 < open_cnt i →
  inodes fs' = <[f_inode f := set_open_cnt (open_cnt i - 1) i]> (inodes (k_fs s)) →
  wf_files (Kfs fs' (delete p (files s)) (dirs s) (k_next s)).
Proof.
  intros Hwi Hlt Hin. pose proof Hwf as [_ Hff Hdd Hnx Hmag Hdn Hrr].
  split; simpl; [done|..]; rewrite ?Hin.
  - intros r g [_ Hg]%lookup_delete_Some. rewrite lookup_insert_is_Some.
    destruct (Hff _ _ Hg). split; [|done]. destruct (decide (f_inode f = f_inode g)); tauto.
  - intros r g Hg. rewrite lookup_insert_is_Some.
    destruct (Hdd _ _ Hg). split; [|done]. destruct (decide (f_inode f = d_inode g)); tauto.
  - done.
  - intros q j [[<- <-]|[_ Hj]]%lookup_insert_Some; [exact (Hmag _ _ Hi)|by eapply Hmag].
  - intros q j. rewrite drop_denies. intros [[<- <-]|[_ Hj]]%lookup_insert_Some;
      [exact (Hdn _ _ Hi)|by apply Hdn].
  - intros q j. rewrite drop_refers. intros [[<- <-]|[Hq Hj]]%lookup_insert_Some.
    + rewrite Z.eqb_refl. specialize (Hrr _ _ Hi). simpl. lia.
    + rewrite (proj2 (Z.eqb_neq _ _)) by done. specialize (Hrr _ _ Hj). lia.
Qed.

Lemma wf_files_drop_last fs' :
  wf_inodes fs' → open_cnt i = 1 → inodes fs' = delete (f_inode f) (inodes (k_fs s)) →
  wf_files (Kfs fs' (delete p (files s)) (dirs s) (k_next s)).
Proof.
  intros Hwi Hone Hin. pose proof Hwf as [_ Hff Hdd Hnx Hmag Hdn Hrr].
  assert (Hz := Hrr _ _ Hi). pose proof (drop_refers (f_inode f)) as Hd. rewrite Z.eqb_refl in Hd.
  pose proof (count_nonneg (refers (f_inode f)) (delete p (files s))).
  pose proof (count_nonneg (dir_refers (f_inode f)) (dirs s)).
  split; simpl; [done|..]; rewrite ?Hin.
  - intros r g Hg. pose proof Hg as [_ Hg']%lookup_delete_Some.
    destruct (Hff _ _ Hg'). split; [|done]. rewrite lookup_delete_is_Some. split; [|done].
    intros Heq. pose proof (count_delete (refers (f_inode f)) _ _ _ Hg) as Hc.
    unfold refers at 3 in Hc. rewrite (proj2 (Z.eqb_eq (f_inode g) _)) in Hc by done.
    pose proof (count_nonneg (refers (f_inode f)) (delete r (delete p (files s)))). lia.
  - intros r g Hg. destruct (Hdd _ _ Hg). split; [|done]. rewrite lookup_delete_is_Some.
    split; [|done]. intros Heq. pose proof (count_delete (dir_refers (f_inode f)) _ _ _ Hg) as Hc.
    unfold dir_refers at 3 in Hc. rewrite (proj2 (Z.eqb_eq (d_inode g) _)) in Hc by done.
    pose proof (count_nonneg (dir_refers (f_inode f)) (delete r (dirs s))). lia.
  - done.
  - intros q j [_ Hj]%lookup_delete_Some. by eapply Hmag.
  - intros q j [_ Hj]%lookup_delete_Some. rewrite drop_denies. by apply Hdn.
  - intros q j [Hq Hj]%lookup_delete_Some. rewrite drop_refers.
    rewrite (proj2 (Z.eqb_neq _ _)) by done. specialize (Hrr _ _ Hj). lia.
Qed.
End drop.

(** file_close: the file is gone, its inode is allowed and closed once. *)
Lemma file_close_wp s p f i l :
  wf_files s → files s !! p = Some f → inodes (k_fs s) !! f_inode f = Some i →
  releasable (v_fat (fs_vol (k_fs s))) i l →
  wp (file_close p) s (λ _ s', wf_files s' ∧ dirs s' = dirs s ∧ k_next s' = k_next s ∧
    files s' = delete p (files s) ∧
    (1 < open_cnt i → fs_vol (k_fs s') = fs_vol (k_fs s) ∧
       inodes (k_fs s') = <[f_inode f := set_open_cnt (open_cnt i - 1) (set_deny (deny_write_cnt i
          - (if f_deny f then 1 else 0)) i)]> (inodes (k_fs s))) ∧
    (open_cnt i = 1 → inodes (k_fs s') = delete (f_inode f) (inodes (k_fs s)) ∧
       if removed i then
         freed (fs_vol (k_fs s)) (sector_to_cluster (v_fat (fs_vol (k_fs s))) (i_sector i) :: l) (fs_vol (k_fs s'))
       else fs_vol (k_fs s') = fs_vol (k_fs s))).
Proof.
  intros Hwf Hp Hi Hrel. pose proof (wff_file _ Hwf _ _ Hp) as [_ Hpp]. unfold file_close.
  rewrite (proj2 (Z.eqb_neq _ _)) by lia. wp_step.
  eapply wp_mono; [by apply (file_allow_write_wp s p f i)|].
  intros [] s1 (Hwf1 & Hn1 & Hd1 & Hf1 & Hv1 & Hi1).
  set (f1 := set_file_deny false f) in *. set (i1 := set_deny _ i) in *.
  assert (Hp1 : files s1 !! p = Some f1) by (by rewrite Hf1, lookup_insert_eq).
  assert (Hi1' : inodes (k_fs s1) !! f_inode f = Some i1) by (by rewrite Hi1, lookup_insert_eq).
  unfold get_file, on_fs. wp_pure. wp_step; [done|]. wp_pure.
  pose proof (wff_refs _ Hwf1 _ _ Hi1') as Hr1. pose proof (wff_deny _ Hwf1 _ _ Hi1') as Hdc1.
  pose proof (deny_lt_refers (files s1) p f1 Hp1 eq_refl) as Hlt. simpl in Hlt.
  pose proof (count_nonneg (dir_refers (f_inode f)) (dirs s1)) as Hnn.
  pose proof (wi_count _ (wff_inodes _ Hwf) _ _ Hi) as Ho.
  change (f_inode f1) with (f_inode f).
  eapply wp_mono; [apply (inode_close_wp _ _ i1 l); [apply (wff_inodes _ Hwf1)|done|
    by apply (wff_magic _ Hwf1 (f_inode f))|left; lia|by rewrite Hv1]|].
  intros [] fs' [Hwi' Hcase]. wp_pure. simpl. change (open_cnt i1) with (open_cnt i) in Hcase, Hr1.
  rewrite <- Hd1. replace (delete p (files s)) with (delete p (files s1))
    by (by rewrite Hf1, delete_insert_eq).
  case_decide as Hd.
  - subst fs'. simpl in *. split; [by apply (wf_files_drop_count s1 p f1 i1)|].
    split; [done|]. split; [done|]. split; [done|]. split; [|lia]. intros _. by rewrite Hi1, insert_insert_eq.
  - destruct Hcase as (Hin & Hnot & Hvol). assert (Hone : open_cnt i = 1) by lia.
    split; [by apply (wf_files_drop_last s1 p f1 i1)|]. split; [done|]. split; [done|]. split; [done|].
    split; [lia|]. intros _. split; [by rewrite Hin, Hi1, delete_insert_eq|]. rewrite <- Hv1. exact Hvol.
Qed.

(** file_duplicate: position and denial are copied. *)
Lemma file_duplicate_wp s p f :
  wf_files s → files s !! p = Some f →
  wp (file_duplicate p) s (λ r s', wf_files s' ∧
    (dirs s' = dirs s ∧ inodes_kept (k_fs s) (k_fs s') ∧ k_next s <= k_next s' ∧
     (v_mem (fs_vol (k_fs s)) = [] → v_mem (fs_vol (k_fs s')) = [])) ∧
    (r = 0 ∧ files s' = files s ∧ v_mem (fs_vol (k_fs s)) ≠ [] ∨
     r = k_next s ∧ files s' = <[r := File (f_inode f) (f_pos f) (f_deny f) 1]> (files s))).
Proof.
  intros Hwf Hp. destruct (wff_file _ Hwf _ _ Hp) as [[i Hi] Hpp]. unfold file_duplicate.
  pose proof (file_reopen_wp s p f i Hwf Hp Hi) as Hre. unfold file_reopen in Hre.
  rewrite wp_bind, (wp_head_of _ _ f) in Hre by done. simpl fst in Hre.
  unfold get_file. do 3 wp_step. wp_step; [done|]. wp_step. rewrite wp_bind in Hre.
  eapply wp_mono; [exact Hre|]. clear Hre. intros q s1 H1. cbv beta in H1.
  wp_step. eapply wp_mono; [exact H1|]. clear H1.
  intros r s2 (Hwf2 & Hd2 & (Hv2 & Hk2 & Hm2) & [(-> & Hf2 & Hin2 & Hm)|(-> & Hf2 & Hin2)]); simpl.
  { wp_pure. split; [done|]. split; [|left; done]. split; [done|]. split; [by apply inodes_kept_same|done]. }
  assert (Hkept : inodes_kept (k_fs s) (k_fs s2)) by (by eapply inodes_kept_insert).
  set (n := k_next s) in *.
  pose proof (wff_next _ Hwf) as Hnx. rewrite (proj2 (Z.eqb_neq n 0)) by (unfold n; lia).
  unfold get_file, put_file. wp_pure. wp_step; [rewrite Hf2; apply lookup_insert_eq|]. wp_pure.
  wp_step; [rewrite Hf2, lookup_insert_ne by lia; done|]. wp_pure.
  set (nf := set_pos _ _). set (s3 := set_files _ _).
  assert (Hn3 : files s3 !! n = Some nf) by (unfold s3; simpl; apply lookup_insert_eq).
  assert (Hf3 : files s3 = <[n := nf]> (files s)) by (unfold s3; simpl; by rewrite Hf2, insert_insert_eq).
  assert (Hwf3 : wf_files s3).
  { eapply wf_files_put; [done|rewrite Hf2; apply lookup_insert_eq|done..]. }
  destruct (f_deny f) eqn:Hde.
  - destruct (wff_file _ Hwf3 _ _ Hn3) as [[i3 Hi3] _].
    eapply wp_mono; [by apply (file_deny_write_wp s3 n nf i3)|].
    intros [] s4 (Hwf4 & Hn4 & Hd4 & Hf4 & Hv4 & Hin4). wp_pure. split; [done|]. split.
    + split; [by rewrite Hd4|]. split; [|rewrite Hn4; split; [done|by rewrite Hv4]]. apply (inodes_kept_trans _ _ _ Hkept).
      eapply inodes_kept_insert; [by rewrite Hv4|exact Hi3|exact Hin4|done..].
    + right. split; [done|]. by rewrite Hf4, Hf3, insert_insert_eq.
  - wp_pure. split; [done|]. split; [split; [done|]; split; [done|done]|]. right. split; [done|]. by rewrite Hf3.
Qed.
End denials.

(** ** Sequences of operations *)

Inductive file_op :=
  | OpReopen (p : Z) | OpDuplicate (p : Z) | OpDeny (p : Z) | OpAllow (p : Z)
  | OpSeek (p pos : Z) | OpDup (p : Z) | OpUndup (p : Z) | OpClose (p : Z).

Definition op_file (o : file_op) : Z :=
  match o with
  | OpReopen p | OpDuplicate p | OpDeny p | OpAllow p
  | OpSeek p _ | OpDup p | OpUndup p | OpClose p => p
  end.

Definition run_op (o : file_op) : ST kfs unit :=
  match o with
  | OpReopen p => _ ← file_reopen p; mret tt
  | OpDuplicate p => _ ← file_duplicate p; mret tt
  | OpDeny p => file_deny_write p
  | OpAllow p => file_allow_write p
  | OpSeek p pos => file_seek p pos
  | OpDup p => increase_dup_count p
  | OpUndup p => decrease_dup_count p
  | OpClose p => file_close p
  end.

(** What the caller of an operation guarantees: the file is open, a position is
    not negative, and the last close of a removed inode finds its clusters. *)
Definition op_ok (s : kfs) (o : file_op) : Prop :=
  ∃ f, files s !! op_file o = Some f ∧
  match o with
  | OpSeek _ pos => 0 <= pos
  | OpClose _ => ∀ i, inodes (k_fs s) !! f_inode f = Some i →
      ∃ l, releasable (v_fat (fs_vol (k_fs s))) i l
  | _ => True
  end.

(** No operation on an open file fails an ASSERT, whatever the others did
    before, and the count of denials in each inode stays the number of its open
    files that deny writes. *)
Theorem file_ops_keep_denials s o :
  wf_files s → op_ok s o → ∃ s', run_op o s = Done (tt, s') ∧ wf_files s'.
Proof.
  intros Hwf (f & Hp & Hok). apply wp_run_unit. destruct (wff_file _ Hwf _ _ Hp) as [[i Hi] Hpos].
  destruct o as [p|p|p|p|p pos|p|p|p]; simpl in *.
  - wp_step. eapply wp_mono; [by apply (file_reopen_wp s p f i)|]. intros r s' [H _]. by wp_pure.
  - wp_step. eapply wp_mono; [by apply (file_duplicate_wp s p f)|]. intros r s' [H _]. by wp_pure.
  - eapply wp_mono; [by apply (file_deny_write_wp s p f i)|]. by intros [] s' [H _].
  - eapply wp_mono; [by apply (file_allow_write_wp s p f i)|]. by intros [] s' [H _].
  - unfold file_seek. rewrite (proj2 (Z.eqb_neq _ _)) by lia.
    wp_step. wp_step; [done|]. wp_step. wp_step; [by apply Z.leb_le|].
    apply (wp_put_pos s p f); [done|]. by eapply wf_files_put.
  - unfold increase_dup_count, get_file, put_file. wp_pure. wp_step; [done|]. wp_pure.
    by eapply wf_files_put.
  - unfold decrease_dup_count, get_file, put_file. wp_pure. wp_step; [done|]. wp_pure.
    by eapply wf_files_put.
  - destruct (Hok i Hi) as [l Hl]. eapply wp_mono; [by apply (file_close_wp s p f i l)|].
    by intros [] s' [H _].
Qed.

(** ** Positions *)

(** A write at the position of a file, a seek back and a read give the written
    bytes, and both leave the position behind them. *)
Theorem file_write_seek_read s p f i l buffer :
  let size := zlength buffer in
  0 < p → files s !! p = Some f → f_inode f ≠ 0 → inodes (k_fs s) !! f_inode f = Some i →
  writable (fs_vol (k_fs s)) i l size (f_pos f) →
  ∃ s1 s2 s3, file_write p buffer size s = Done (size, s1) ∧
    files s1 !! p = Some (set_pos (f_pos f + size) f) ∧
    file_seek p (f_pos f) s1 = Done (tt, s2) ∧
    file_read p size s2 = Done (buffer, s3) ∧ files s3 = files s1.
Proof.
  intros size Hp Hf Hq Hi Hw. destruct Hw as [Hd Hfo Hwf Hm Ho He Hg Hsec Hap].
  assert (Hs0 : 0 <= size) by (unfold size, zlength; lia).
  destruct (wp_run _ _ _ (inode_write_at_wp (k_fs s) _ i l buffer (f_pos f) Hi Hd Hfo Hwf Hm Ho
    He Hg Hsec Hap)) as (n & fs1 & Hrun & -> & new & Hs1 & Hf1 & Hb & _ & Hm1 & _).
  fold size in Hrun, Hs1, Hf1. set (data1 := set_length _ (i_data i)) in *.
  set (s1 := Kfs fs1 (<[p := set_pos (f_pos f + size) f]> (files s)) (dirs s) (k_next s)).
  set (s2 := Kfs fs1 (<[p := f]> (files s)) (dirs s) (k_next s)).
  assert (Hi1 : inodes fs1 !! f_inode f = Some (set_data data1 i)).
  { rewrite Hs1. simpl. apply lookup_insert_eq. }
  destruct (wp_run _ _ _ (inode_read_at_wp fs1 _ (set_data data1 i) (l ++ new) size (f_pos f)
    Hq Hi1 Hf1 Hm1 Ho)) as (r & fs2 & Hr & v2 & _ & _ & ->).
  assert (Hback : take (Z.to_nat size) (drop (Z.to_nat (f_pos f))
    (file_content (fs_vol fs1) data1 (l ++ new))) = buffer).
  { unfold size, zlength. rewrite Nat2Z.id. by apply (written_content (fs_vol (k_fs s)) _ (i_data i)). }
  simpl in Hr. rewrite Hback in Hr.
  exists s1, s2, (Kfs fs2 (<[p := set_pos (f_pos f + size) f]> (files s)) (dirs s) (k_next s)).
  split; [|split; [apply lookup_insert_eq|split; [|split; [|done]]]].
  - apply wp_run_eq. unfold file_write, get_file, put_file, on_fs. wp_pure. wp_step; [done|].
    wp_pure. eapply wp_eq; [exact Hrun|]. wp_pure. apply wp_int_ok; [lia|]. by wp_pure.
  - apply wp_run_eq. unfold file_seek. rewrite (proj2 (Z.eqb_neq _ _)) by lia.
    wp_step. wp_step; [done|]. wp_step. wp_step; [by apply Z.leb_le|].
    apply (wp_put_pos _ _ (set_pos (f_pos f + size) f)); [apply lookup_insert_eq|]. split; [done|]. unfold s1, s2, set_files. simpl.
    rewrite insert_insert_eq. do 2 f_equal. by destruct f.
  - apply wp_run_eq. unfold file_read, on_fs. wp_step. apply (wp_head_of _ _ f); [apply lookup_insert_eq|].
    wp_pure. eapply wp_eq; [exact Hr|]. wp_pure. fold size. apply wp_int_ok; [simpl; lia|].
    wp_step. apply (wp_put_pos _ _ f); [apply lookup_insert_eq|]. wp_pure. split; [done|]. unfold s2, set_files. simpl.
    by rewrite insert_insert_eq.
Qed.
