(* ===== verification/Directory.v ===== *)
(** * Directories (filesys/directory.c)

    A directory is a file of 20-byte entries; over the slots of that file
    dir_lookup, dir_add, dir_remove and dir_readdir implement a finite map from
    names to inode sectors. *)
From stdpp Require Import base numbers list sets gmap.
From Stdlib Require Import ZArith Lia.
From S2P Require Import Prelude Bytes Fat Volume Inode InodeData InodeGrow InodeTable File.
Open Scope Z_scope.

Definition NAME_MAX : Z := 14.

(** struct dir_entry; names are arrays of [NAME_MAX + 1] characters. *)
Record dir_entry := DirEntry {
  de_sector : Z;
  de_name : list Z;
  in_use : bool;
}.

(** The 20 bytes of an entry. *)
Definition entry_bytes (e : dir_entry) : list Z :=
  le_bytes 4 (de_sector e) ++ de_name e ++ [if in_use e then 1 else 0].
Definition entry_of_bytes (l : list Z) : dir_entry :=
  DirEntry (le_val (take 4 l)) (take 15 (drop 4 l)) (negb (default 0 (l !! 19%nat) =? 0)).

(** The C string in an array; there is none when the array has no NUL. *)
Fixpoint cstr (l : list Z) : option (list Z) :=
  match l with
  | [] => None
  | c :: l => if c =? 0 then Some [] else cons c <$> cstr l
  end.

(** [!strcmp (name, e.name)] *)
Definition same_name (name : list Z) (e : dir_entry) : ST fsys bool :=
  s ← deref (cstr (de_name e)); mret (bool_decide (name = s)).

(** [strlcpy (e.name, name, sizeof e.name)] *)
Definition copy_name (name old : list Z) : list Z := splice 0 (take 14 name ++ [0]) old.

Definition get_dir (p : Z) : ST kfs dir := s ← get_st; deref (dirs s !! p).
Definition put_dir (p : Z) (d : dir) : ST kfs unit :=
  modify (λ s, Kfs (k_fs s) (files s) (<[p := d]> (dirs s)) (k_next s)).

(** [inode_read_at (inode, &e, sizeof e, ofs) == sizeof e], and [e] after it. *)
Definition read_entry (inode ofs : Z) (e : dir_entry) : ST fsys (bool * dir_entry) :=
  bytes ← inode_read_at inode 20 ofs;
  mret (zlength bytes =? 20, entry_of_bytes (splice 0 bytes (entry_bytes e))).

(** A scan of the entries ends with the file. *)
Definition entry_fuel (inode : Z) : ST fsys nat :=
  i ← get_inode inode; mret (S (Z.to_nat (inode_length i))).

(** ** Operations *)

Definition dir_create (sector entry_cnt : Z) : ST fsys bool :=
  inode_create sector (s32 (u64 (entry_cnt * 20))) true.

Definition dir_open (inode : Z) : ST kfs Z :=
  ok ← on_fs (on_vol malloc);
  if negb (inode =? 0) && ok then
    s ← get_st;
    let p := k_next s in
    _ ← modify (λ s, Kfs (k_fs s) (files s) (<[p := Dir inode 0]> (dirs s)) (p + 1));
    mret p
  else _ ← on_fs (inode_close inode); mret 0.

Definition dir_open_root : ST kfs Z := i ← on_fs (inode_open ROOT_DIR_SECTOR); dir_open i.

Definition dir_reopen (p : Z) : ST kfs Z :=
  d ← get_dir p; i ← on_fs (inode_reopen (d_inode d)); dir_open i.

Definition dir_close (p : Z) : ST kfs unit :=
  if p =? 0 then mret tt else
  d ← get_dir p;
  _ ← on_fs (inode_close (d_inode d));
  modify (λ s, Kfs (k_fs s) (files s) (delete p (dirs s)) (k_next s)).

Definition dir_get_inode (p : Z) : ST kfs Z := d ← get_dir p; mret (d_inode d).

Definition file_to_dir (p : Z) : ST kfs Z := h ← head_of p; dir_open (fst h).

Definition lookup_step (inode : Z) (name : list Z) (st : Z * dir_entry) :
    ST fsys (Z * dir_entry + bool * dir_entry * Z) :=
  let '(ofs, e) := st in
  r ← read_entry inode ofs e;
  let '(full, e) := r in
  if (full : bool) then
    found ← (if in_use e then same_name name e else mret false);
    if (found : bool) then mret (inr (true, e, ofs)) else mret (inl (ofs + 20, e))
  else mret (inr (false, e, ofs)).

(** lookup: whether there is an entry, the entry and its offset. [e0] is what
    the local variable [e] holds before the first read. *)
Definition lookup (inode : Z) (name : list Z) (e0 : dir_entry) : ST fsys (bool * dir_entry * Z) :=
  fuel ← entry_fuel inode; loop fuel (lookup_step inode name) (0, e0).

(** dir_lookup answers the inode that it stores in [*inode]; the result of the
    C function is whether that is not NULL. *)
Definition dir_lookup (p : Z) (name : list Z) (e0 : dir_entry) : ST kfs Z :=
  _ ← assert_st (negb (p =? 0));
  d ← get_dir p;
  r ← on_fs (lookup (d_inode d) name e0);
  let '(found, e, _) := r in
  if (found : bool) then on_fs (inode_open (de_sector e)) else mret 0.

(** The scan of dir_add for a free slot. *)
Definition free_step (inode : Z) (st : Z * dir_entry) : ST fsys (Z * dir_entry + Z * dir_entry) :=
  let '(ofs, e) := st in
  r ← read_entry inode ofs e;
  let '(full, e) := r in
  if (full : bool) then
    if negb (in_use e) then mret (inr (ofs, e)) else mret (inl (ofs + 20, e))
  else mret (inr (ofs, e)).

Definition add_entry (inode : Z) (name : list Z) (inode_sector : Z) (e0 : dir_entry) : ST fsys bool :=
  if bool_decide (name = []) || (NAME_MAX <? zlength name) then mret false else
  r ← lookup inode name e0;
  let '(found, _, _) := r in
  if (found : bool) then mret false else
  fuel ← entry_fuel inode;
  r ← loop fuel (free_step inode) (0, e0);
  let '(ofs, e) := r in
  let e := DirEntry inode_sector (copy_name name (de_name e)) true in
  n ← inode_write_at inode (entry_bytes e) 20 ofs;
  mret (n =? 20).

Definition dir_add (p : Z) (name : list Z) (inode_sector : Z) (e0 : dir_entry) : ST kfs bool :=
  _ ← assert_st (negb (p =? 0));
  d ← get_dir p;
  on_fs (add_entry (d_inode d) name inode_sector e0).

Definition remove_entry (dinode : Z) (name : list Z) (e0 : dir_entry) : ST fsys bool :=
  r ← lookup dinode name e0;
  let '(found, e, ofs) := r in
  if negb (found : bool) then _ ← inode_close 0; mret false else
  inode ← inode_open (de_sector e);
  if inode =? 0 then _ ← inode_close inode; mret false else
  let e := DirEntry (de_sector e) (de_name e) false in
  n ← inode_write_at dinode (entry_bytes e) 20 ofs;
  if negb (n =? 20) then _ ← inode_close inode; mret false else
  _ ← inode_remove inode;
  _ ← inode_close inode;
  mret true.

Definition dir_remove (p : Z) (name : list Z) (e0 : dir_entry) : ST kfs bool :=
  _ ← assert_st (negb (p =? 0));
  d ← get_dir p;
  on_fs (remove_entry (d_inode d) name e0).

(** The loop of dir_readdir over the position; [None] is its result false. *)
Definition readdir_step (inode : Z) (st : Z * dir_entry) :
    ST fsys (Z * dir_entry + Z * option (list Z)) :=
  let '(pos, e) := st in
  r ← read_entry inode pos e;
  let '(full, e) := r in
  if (full : bool) then
    let pos := pos + 20 in
    if in_use e then s ← deref (cstr (de_name e)); mret (inr (pos, Some s))
    else mret (inl (pos, e))
  else mret (inr (pos, None)).

Definition dir_readdir (p : Z) (e0 : dir_entry) : ST kfs (option (list Z)) :=
  d ← get_dir p;
  r ← on_fs (fuel ← entry_fuel (d_inode d);
             loop fuel (readdir_step (d_inode d)) (d_pos d, e0));
  _ ← put_dir p (Dir (d_inode d) (fst r));
  mret (snd r).

(** ** Slots *)

(** A value of the C type whose name is a string. *)
Record entry_ok (e : dir_entry) : Prop := {
  eo_sector : 0 <= de_sector e < 2 ^ 32;
  eo_length : length (de_name e) = 15%nat;
  eo_name : is_Some (cstr (de_name e));
}.

Definition matches (name : list Z) (e : dir_entry) : bool :=
  in_use e && bool_decide (cstr (de_name e) = Some name).

(** The directory as a map: the sector of the first used slot with the name. *)
Fixpoint dir_map (es : list dir_entry) (name : list Z) : option Z :=
  match es with
  | [] => None
  | e :: es => if matches name e then Some (de_sector e) else dir_map es name
  end.

(** No name is in use twice. *)
Definition distinct (es : list dir_entry) : Prop :=
  ∀ i j a b name, es !! i = Some a → es !! j = Some b →
    matches name a = true → matches name b = true → i = j.

(** The directory file of the inode [q] occupies [l] and holds the slots [es]. *)
Record dir_on (s : fsys) (q : Z) (i : inode) (l : list Z) (es : list dir_entry) : Prop := {
  do_ptr : q ≠ 0;
  do_inode : inodes s !! q = Some i;
  do_file : file_on (fs_vol s) (i_data i) l;
  do_mem : v_mem (fs_vol s) = [];
  do_content : file_content (fs_vol s) (i_data i) l = concat (entry_bytes <$> es);
  do_entries : Forall entry_ok es;
}.

Section slots.
Implicit Types (e : dir_entry) (es : list dir_entry) (name : list Z).

Lemma length_entry_bytes e : length (de_name e) = 15%nat → length (entry_bytes e) = 20%nat.
Proof. intros H. unfold entry_bytes. rewrite !length_app, length_le_bytes. simpl. lia. Qed.

Lemma entry_blocks es : Forall entry_ok es → Forall (λ x, length x = 20%nat) (entry_bytes <$> es).
Proof.
  intros H. rewrite Forall_fmap. eapply Forall_impl; [exact H|].
  intros e []. by apply length_entry_bytes.
Qed.

Lemma entry_roundtrip e :
  0 <= de_sector e < 2 ^ 32 → length (de_name e) = 15%nat → entry_of_bytes (entry_bytes e) = e.
Proof.
  intros Hs Hn. unfold entry_of_bytes, entry_bytes.
  rewrite take_app_length' by (by rewrite length_le_bytes). rewrite le_val_u32 by done.
  rewrite drop_app_length' by (by rewrite length_le_bytes).
  rewrite take_app_length' by done. rewrite app_assoc.
  rewrite lookup_app_r by (rewrite length_app, length_le_bytes, Hn; done).
  rewrite length_app, length_le_bytes, Hn. destruct e as [a b []]; done.
Qed.

Lemma length_entries s q i l es : dir_on s q i l es → id_length (i_data i) = 20 * zlength es.
Proof.
  intros [_ _ Hf _ Hc He]. pose proof (length_file_bytes _ _ _ Hf) as Hl.
  pose proof (fo_length _ _ _ Hf) as Hlen. apply (f_equal length) in Hc.
  rewrite (length_blocks 20), length_fmap in Hc by by apply entry_blocks.
  unfold file_content in Hc. rewrite length_take in Hc. unfold zlength in *. lia.
Qed.

(** Reading the slot at an offset; behind the last slot nothing is read. *)
Lemma read_entry_wp s q i l es e0 (k : nat) :
  dir_on s q i l es → length (de_name e0) = 15%nat → (k ≤ length es)%nat →
  wp (read_entry q (20 * Z.of_nat k) e0) s (λ r s',
    (∃ v', same_data (fs_vol s) v' ∧ s' = Fsys v' (inodes s) (open_inodes s) (next_ptr s)) ∧
    match es !! k with
    | Some e => r = (true, e)
    | None => r.1 = false ∧ length (de_name r.2) = 15%nat
    end).
Proof.
  intros Hd H0 Hk. destruct Hd as [Hq Hi Hf Hm Hc He]. unfold read_entry. wp_step.
  eapply wp_mono; [apply (inode_read_at_wp s q i l); [done..|lia]|].
  intros r s' (v' & Hsd & -> & ->). wp_pure. split; [by exists v'|]. rewrite Hc.
  replace (Z.to_nat (20 * Z.of_nat k)) with (20 * k + 0)%nat by lia.
  assert (Hb := entry_blocks es He). destruct (es !! k) as [e|] eqn:Hek.
  - rewrite (blocks_read 20 _ _ _ _ (entry_bytes e)); [|done|by rewrite list_lookup_fmap, Hek|lia].
    rewrite drop_0. pose proof (Forall_lookup_1 _ _ _ _ He Hek) as Hok. destruct Hok as [? Hl ?].
    assert (Hlen := length_entry_bytes e Hl). rewrite firstn_all2 by lia. f_equal.
    + unfold zlength. rewrite Hlen. done.
    + unfold splice. rewrite Hlen, drop_ge by (rewrite length_entry_bytes by done; lia).
      rewrite app_nil_r. simpl. by apply entry_roundtrip.
  - apply lookup_ge_None in Hek. rewrite drop_ge.
    2: { rewrite (length_blocks 20), length_fmap by done. lia. }
    rewrite take_nil, splice_nil. split; [done|]. cbn [snd entry_of_bytes de_name].
    rewrite length_take, length_drop, length_entry_bytes by done. lia.
Qed.

Lemma same_dir_on s v' q i l es :
  same_data (fs_vol s) v' → dir_on s q i l es →
  dir_on (Fsys v' (inodes s) (open_inodes s) (next_ptr s)) q i l es.
Proof.
  intros Hsd []. split; simpl; try done.
  - by eapply same_file_on.
  - destruct Hsd as (_ & -> & _). done.
  - unfold file_content in *. by rewrite (same_file_bytes (fs_vol s)).
Qed.

Lemma same_data_trans v1 v2 v3 : same_data v1 v2 → same_data v2 v3 → same_data v1 v3.
Proof. unfold same_data. intros (?&?&?&?) (?&?&?&?). repeat split; congruence. Qed.

(** *** Loops over the slots *)

(** [s'] differs from [s] in the disk's transfer counter only. *)
Definition reads s s' : Prop :=
  ∃ v', same_data (fs_vol s) v' ∧ s' = Fsys v' (inodes s) (open_inodes s) (next_ptr s).

Lemma reads_refl s : reads s s.
Proof. exists (fs_vol s). split; [apply same_data_refl|by destruct s]. Qed.

Lemma entry_fuel_wp s q i l es Q :
  dir_on s q i l es → (∀ n, (length es < n)%nat → Q n s) → wp (entry_fuel q) s Q.
Proof.
  intros Hd HQ. unfold entry_fuel, get_inode. wp_pure. wp_step; [apply Hd|]. wp_pure. apply HQ.
  pose proof (length_entries _ _ _ _ _ Hd). unfold inode_length, zlength in *. lia.
Qed.

(** A loop whose body reads the slot at its offset and goes on with the next
    one: an invariant of the slots already passed is enough. *)
Lemma scan_slots {B} s q i l es fuel (k0 : nat) e0
    (body : Z * dir_entry → ST fsys (Z * dir_entry + B)) (I : nat → Prop) (Q : B → fsys → Prop) :
  dir_on s q i l es → length (de_name e0) = 15%nat → (k0 ≤ length es)%nat →
  (length es - k0 < fuel)%nat → I k0 →
  (∀ k e s', reads s s' → (k ≤ length es)%nat → I k → length (de_name e) = 15%nat →
     wp (body (20 * Z.of_nat k, e)) s' (λ r s'', reads s s'' ∧
       match r with
       | inl (ofs, e') => ofs = 20 * Z.of_nat (S k) ∧ (S k ≤ length es)%nat ∧ I (S k) ∧
                          length (de_name e') = 15%nat
       | inr b => Q b s''
       end)) →
  wp (loop fuel body (20 * Z.of_nat k0, e0)) s (λ b s'', reads s s'' ∧ Q b s'').
Proof.
  intros Hd He0 Hk0 Hfuel HI Hbody.
  apply (wp_loop (λ n st s', reads s s' ∧ ∃ (k : nat) (e : dir_entry), n = (length es - k)%nat ∧
    st = (20 * Z.of_nat k, e) ∧ (k ≤ length es)%nat ∧ I k ∧ length (de_name e) = 15%nat)
    _ _ (length es - k0)%nat); [| |done].
  - intros n st s' (Hr & k & e & -> & -> & Hk & HIk & He).
    eapply wp_mono; [by apply (Hbody k e s')|]. intros [[ofs e']|b] s'' [Hr'' H]; [|done].
    destruct H as (-> & Hk' & HI' & He'). exists (length es - S k)%nat. split; [lia|].
    split; [done|]. eauto 10.
  - split; [apply reads_refl|]. eauto 10.
Qed.

Lemma reads_dir_on s s' q i l es : reads s s' → dir_on s q i l es → dir_on s' q i l es.
Proof. intros (v' & Hsd & ->) Hd. by apply same_dir_on. Qed.

Lemma read_entry_reads s s' q i l es e0 (k : nat) :
  dir_on s q i l es → reads s s' → length (de_name e0) = 15%nat → (k ≤ length es)%nat →
  wp (read_entry q (20 * Z.of_nat k) e0) s' (λ r s'', reads s s'' ∧
    match es !! k with
    | Some e => r = (true, e)
    | None => r.1 = false ∧ length (de_name r.2) = 15%nat
    end).
Proof.
  intros Hd Hr He Hk. eapply wp_mono; [apply (read_entry_wp s' q i l es);
    [by eapply reads_dir_on|done|done]|].
  intros r s'' ((v2 & Hsd2 & ->) & H). split; [|done]. destruct Hr as (v1 & Hsd1 & ->).
  exists v2. simpl in *. split; [by eapply same_data_trans|done].
Qed.

Lemma lookup_wp s q i l es name e0 :
  dir_on s q i l es → length (de_name e0) = 15%nat →
  wp (lookup q name e0) s (λ r s', reads s s' ∧
    ((∃ k e, r = (true, e, 20 * Z.of_nat k) ∧ es !! k = Some e ∧ matches name e = true ∧
        ∀ j a, (j < k)%nat → es !! j = Some a → matches name a = false) ∨
     ((∃ e ofs, r = (false, e, ofs)) ∧ ∀ j a, es !! j = Some a → matches name a = false))).
Proof.
  intros Hd He0. unfold lookup. wp_step. eapply entry_fuel_wp; [done|]. intros fuel Hfuel.
  apply (scan_slots s q i l es fuel 0 e0 _ (λ k, ∀ j a, (j < k)%nat → es !! j = Some a →
    matches name a = false)); [done..|lia|lia|lia|].
  intros k e s' Hr Hk HI He. unfold lookup_step. wp_step.
  eapply wp_mono; [by apply (read_entry_reads s s' q i l es)|].
  intros [full e1] s1 [Hr1 H1]. destruct (es !! k) as [ek|] eqn:Hek.
  - injection H1 as -> ->. pose proof (Forall_lookup_1 _ _ _ _ (do_entries _ _ _ _ _ Hd) Hek) as Hok.
    pose proof (lookup_lt_Some _ _ _ Hek) as Hlt.
    assert (Hnext : matches name ek = false → ∀ j a, (j < S k)%nat → es !! j = Some a →
      matches name a = false).
    { intros Hmk j a Hj Ha. destruct (decide (j = k)) as [->|]; [|apply (HI j); [lia|done]]. congruence. }
    destruct (eo_name _ Hok) as [nm Hnm]. unfold matches in *. wp_step.
    destruct (in_use ek) eqn:Hu; simpl in Hnext.
    + unfold same_name. wp_step. wp_step; [exact Hnm|]. wp_pure.
      destruct (decide (name = nm)) as [->|Hne].
      * rewrite bool_decide_eq_true_2 by done. wp_pure. split; [done|]. left. exists k, ek.
        split; [done|]. split; [done|]. split; [|done]. rewrite Hu, Hnm. simpl.
        by apply bool_decide_eq_true_2.
      * rewrite bool_decide_eq_false_2 by done. wp_pure. split; [done|]. split; [lia|]. split; [lia|].
        split; [|apply Hok]. apply Hnext. apply bool_decide_eq_false_2. congruence.
    + wp_pure. split; [done|]. split; [lia|]. split; [lia|]. split; [by apply Hnext|apply Hok].
  - simpl in H1. destruct H1 as [-> _]. wp_pure. split; [done|]. right. split; [eauto|].
    intros j a Ha. apply (HI j); [|done]. apply lookup_ge_None in Hek.
    apply lookup_lt_Some in Ha. lia.
Qed.
End slots.

(** ** The map *)

(** The slots after [e] has been written to slot [k]. *)
Definition put_slot (es : list dir_entry) (k : nat) (e : dir_entry) : list dir_entry :=
  take k es ++ e :: drop (S k) es.

(** A slot that dir_add may take: unused, or behind the last one. *)
Definition free_slot (es : list dir_entry) (k : nat) : Prop :=
  (k ≤ length es)%nat ∧ ∀ e, es !! k = Some e → in_use e = false.

Section map.
Implicit Types (e : dir_entry) (es : list dir_entry) (name : list Z).

Lemma dir_map_app es1 es2 name :
  dir_map (es1 ++ es2) name
  = match dir_map es1 name with Some x => Some x | None => dir_map es2 name end.
Proof. induction es1 as [|e es1 IH]; simpl; [done|]. by destruct (matches name e). Qed.

Lemma dir_map_first es name k e :
  es !! k = Some e → matches name e = true →
  (∀ j a, (j < k)%nat → es !! j = Some a → matches name a = false) →
  dir_map es name = Some (de_sector e).
Proof.
  revert k. induction es as [|a es IH]; intros [|k]; simpl; [done|done| |].
  - by intros [= ->] ->.
  - intros Hk Hm Hj. rewrite (Hj 0%nat a) by (done || lia).
    apply (IH k); [done..|]. intros j b Hlt Hb. apply (Hj (S j) b); [lia|done].
Qed.
Lemma dir_map_none es name :
  (∀ j a, es !! j = Some a → matches name a = false) ↔ dir_map es name = None.
Proof.
  induction es as [|a es IH]; simpl; [done|]. split.
  - intros H. rewrite (H 0%nat a) by done. apply IH. intros j b Hb. by apply (H (S j)).
  - destruct (matches name a) eqn:Ha; [done|]. intros Hn [|j] b; simpl.
    + by intros [= <-].
    + by apply IH.
Qed.

Lemma matches_unused name e : in_use e = false → matches name e = false.
Proof. unfold matches. by intros ->. Qed.
Lemma matches_same n1 n2 e : matches n1 e = true → matches n2 e = true → n1 = n2.
Proof.
  unfold matches. intros [_ H1%bool_decide_eq_true]%andb_prop [_ H2%bool_decide_eq_true]%andb_prop.
  congruence.
Qed.

Lemma dir_map_put es k e name :
  free_slot es k → dir_map (put_slot es k e) name
  = if matches name e then
      match dir_map (take k es) name with Some x => Some x | None => Some (de_sector e) end
    else dir_map es name.
Proof.
  intros [Hk Hf]. unfold put_slot. rewrite dir_map_app. simpl.
  destruct (matches name e); [done|]. rewrite <- dir_map_app. 
  destruct (es !! k) as [a|] eqn:Ha.
  - rewrite <- (take_drop_middle es k a Ha) at 3. rewrite !dir_map_app. simpl.
    by rewrite (matches_unused name a (Hf a eq_refl)).
  - apply lookup_ge_None in Ha. by rewrite drop_ge, app_nil_r, firstn_all2 by lia.
Qed.

Lemma lookup_put_slot es k e j a :
  (k ≤ length es)%nat → put_slot es k e !! j = Some a →
  (j = k ∧ a = e) ∨ (j ≠ k ∧ es !! j = Some a).
Proof.
  intros Hk. unfold put_slot. intros [H|[Hge H]]%lookup_app_Some.
  - apply lookup_take_Some in H as [H Hlt]. right. split; [lia|done].
  - rewrite length_take in *. rewrite Nat.min_l in * by lia.
    destruct (j - k)%nat as [|m] eqn:Hj; simpl in H.
    + left. split; [lia|congruence].
    + right. split; [lia|]. rewrite lookup_drop in H. by replace (S k + m)%nat with j in H by lia.
Qed.

Lemma distinct_put es k e name :
  distinct es → (k ≤ length es)%nat → dir_map es name = None →
  (∀ n, matches n e = true → n = name) → distinct (put_slot es k e).
Proof.
  intros Hd Hk Hn He i j a b n Ha Hb Hma Hmb.
  assert (Hnone : ∀ x c, es !! x = Some c → matches name c = false) by by apply dir_map_none.
  apply lookup_put_slot in Ha as [[-> ->]|[Hi Ha]]; [| |done];
    apply lookup_put_slot in Hb as [[-> ->]|[Hj Hb]]; try done.
  - specialize (He n Hma) as ->. by rewrite (Hnone j b) in Hmb.
  - specialize (He n Hmb) as ->. by rewrite (Hnone i a) in Hma.
  - by eapply Hd.
Qed.

(** A slot that is switched off takes its name, and no other, out of the map. *)
Lemma dir_map_off es k e name n :
  distinct es → es !! k = Some e → matches name e = true →
  dir_map (put_slot es k (DirEntry (de_sector e) (de_name e) false)) n
  = if bool_decide (n = name) then None else dir_map es n.
Proof.
  intros Hd Hk Hm. set (e' := DirEntry _ _ _). assert (Hlt := lookup_lt_Some _ _ _ Hk).
  case_bool_decide as Hn.
  - subst n. apply dir_map_none. intros j a [[-> ->]|[Hj Ha]]%lookup_put_slot; [done| |lia].
    destruct (matches name a) eqn:Hma; [|done]. destruct Hj. by eapply (Hd j k a e).
  - unfold put_slot. rewrite <- (take_drop_middle es k e Hk) at 3. rewrite !dir_map_app. simpl.
    destruct (matches n e) eqn:Hme; [|done]. destruct Hn. by eapply matches_same.
Qed.
Lemma distinct_off es k e :
  distinct es → es !! k = Some e →
  distinct (put_slot es k (DirEntry (de_sector e) (de_name e) false)).
Proof.
  intros Hd Hk i j a b n Ha Hb Hma Hmb. assert (Hlt := lookup_lt_Some _ _ _ Hk).
  apply lookup_put_slot in Ha as [[-> ->]|[Hi Ha]]; [done| |lia].
  apply lookup_put_slot in Hb as [[-> ->]|[Hj Hb]]; [done| |lia]. by eapply Hd.
Qed.

(** The bytes of the directory file after a slot has been written. *)
Lemma put_slot_bytes es k e X Y :
  Forall entry_ok es → length (de_name e) = 15%nat → (k ≤ length es)%nat →
  take (20 * length es) X = concat (entry_bytes <$> es) → (20 * length es ≤ length X)%nat →
  take (20 * length (put_slot es k e)) (splice (20 * k) (entry_bytes e) (X ++ Y))
  = concat (entry_bytes <$> put_slot es k e).
Proof.
  intros Hes He Hk HX HlX. assert (Hb := entry_blocks es Hes). assert (Hle := length_entry_bytes e He).
  assert (Hlk : length (take k es) = k) by (rewrite length_take; lia).
  unfold put_slot. rewrite fmap_app, fmap_cons, concat_app. cbn [concat].
  rewrite length_app, Hlk. simpl length. rewrite length_drop.
  unfold splice. rewrite Hle.
  assert (Hpre : take (20 * k) (X ++ Y) = concat (entry_bytes <$> take k es)).
  { rewrite take_app_le by lia. rewrite <- (Nat.min_l (20 * k) (20 * length es)) by lia.
    rewrite <- take_take, HX. rewrite <- (take_drop k es) at 1. rewrite fmap_app, concat_app.
    apply take_app_length'. rewrite (length_blocks 20).
    - rewrite length_fmap. by rewrite Hlk.
    - rewrite Forall_fmap. apply Forall_take. rewrite <- Forall_fmap. exact Hb. }
  assert (Hlp : length (concat (entry_bytes <$> take k es)) = (20 * k)%nat).
  { rewrite <- Hpre, length_take, length_app. lia. }
  rewrite Hpre, take_app_ge by lia. f_equal. rewrite Hlp.
  rewrite take_app_ge by lia. f_equal. rewrite Hle.
  destruct (decide (k < length es)%nat) as [Hlt|Hge].
  - replace (20 * (k + S (length es - S k)) - 20 * k - 20)%nat
      with (20 * length es - (20 * k + 20))%nat by lia.
    rewrite take_drop_commute.
    replace (20 * k + 20 + (20 * length es - (20 * k + 20)))%nat with (20 * length es)%nat by lia.
    rewrite take_app_le by lia. rewrite HX.
    replace (20 * k + 20)%nat with (20 * S k + 0)%nat by lia.
    rewrite (drop_blocks 20) by done. by rewrite drop_0, <- fmap_drop.
  - replace (20 * (k + S (length es - S k)) - 20 * k - 20)%nat with 0%nat by lia.
    rewrite (drop_ge es) by lia. done.
Qed.
End map.

(** ** Adding *)

Section adding.
Implicit Types (s : fsys) (e : dir_entry) (es : list dir_entry) (name : list Z).

Lemma write_slot_wp s q i l es k e :
  dir_on s q i l es → entry_ok e → (k ≤ length es)%nat →
  writable (fs_vol s) i l 20 (20 * Z.of_nat k) →
  wp (inode_write_at q (entry_bytes e) 20 (20 * Z.of_nat k)) s (λ n s', n = 20 ∧
    ∃ d new, id_start d = id_start (i_data i) ∧ id_isdir d = id_isdir (i_data i) ∧
      inodes s' = <[q := set_data d i]> (inodes s) ∧
      open_inodes s' = open_inodes s ∧ next_ptr s' = next_ptr s ∧
      dir_on s' q (set_data d i) (l ++ new) (put_slot es k e) ∧
      wf_fat (v_fat (fs_vol s')) ∧
      data_start (v_fat (fs_vol s')) = data_start (v_fat (fs_vol s)) ∧
      (∀ c m, chain (fat (v_fat (fs_vol s))) c m → m ## l → apart (fs_vol s) (i_sector i) m →
         chain (fat (v_fat (fs_vol s'))) c m ∧
         cluster_block (fs_vol s') <$> m = cluster_block (fs_vol s) <$> m) ∧
      ((k < length es)%nat → new = [])).
Proof.
  intros Hd He Hk Hw. pose proof (length_entries _ _ _ _ _ Hd) as Hlen.
  pose proof Hd as [Hq Hi Hf Hm Hc Hes]. pose proof Hw as [Wd Wf Ww Wm Wo We Wg Ws Wa].
  assert (Hsz : zlength (entry_bytes e) = 20).
  { unfold zlength. by rewrite length_entry_bytes by apply He. }
  assert (Hkz : Z.of_nat k <= zlength es) by (unfold zlength; lia).
  rewrite <- Hsz at 1. eapply wp_mono.
  { apply (inode_write_at_wp s q i l (entry_bytes e) (20 * Z.of_nat k)); try done; by rewrite Hsz. }
  intros n s' [-> (new & H)]. cbv zeta in H. rewrite Hsz in H.
  set (d := set_length _ (i_data i)) in *. destruct H as (Hs' & Hf' & Hb & _ & Hm' & Hwf' & Hds & Hkeep & Hnil).
  split; [done|]. exists d, new. split; [done|]. split; [done|]. rewrite Hs'. simpl.
  split; [done|]. split; [done|]. split; [done|].
  split; [|do 3 (split; [done|]); intros Hlt; apply Hnil; unfold zlength in *; lia].
  rewrite <- Hs'. assert (Hput : zlength (put_slot es k e) = Z.max (zlength es) (Z.of_nat k + 1)).
  { unfold put_slot, zlength. rewrite length_app. simpl length. rewrite length_take, length_drop. lia. }
  split; try done.
  - rewrite Hs'. simpl. apply lookup_insert_eq.
  - unfold file_content. rewrite Hb. simpl i_data.
    replace (Z.to_nat (id_length d)) with (20 * length (put_slot es k e))%nat
      by (simpl; unfold zlength in *; lia).
    replace (Z.to_nat (20 * Z.of_nat k)) with (20 * k)%nat by lia.
    apply put_slot_bytes; [done|apply He|done| |].
    + rewrite <- Hc. unfold file_content. f_equal. unfold zlength in Hlen. lia.
    + rewrite (length_file_bytes _ _ _ Hf). pose proof (fo_length _ _ _ Hf). unfold zlength in *. lia.
  - unfold put_slot. apply Forall_app. split; [by apply Forall_take|].
    constructor; [done|by apply Forall_drop].
Qed.

Lemma free_scan_wp s q i l es e0 fuel :
  dir_on s q i l es → length (de_name e0) = 15%nat → (length es < fuel)%nat →
  wp (loop fuel (free_step q) (0, e0)) s (λ r s', reads s s' ∧
    ∃ k e, r = (20 * Z.of_nat k, e) ∧ free_slot es k ∧ length (de_name e) = 15%nat).
Proof.
  intros Hd He0 Hfuel.
  apply (scan_slots s q i l es fuel 0 e0 _ (λ k, True)); [done|done|lia|lia|done|].
  intros k e s' Hr Hk _ He. unfold free_step. wp_step.
  eapply wp_mono; [by apply (read_entry_reads s s' q i l es)|].
  intros [full e1] s1 [Hr1 H1]. destruct (es !! k) as [ek|] eqn:Hek.
  - injection H1 as -> ->. pose proof (Forall_lookup_1 _ _ _ _ (do_entries _ _ _ _ _ Hd) Hek) as Hok.
    pose proof (lookup_lt_Some _ _ _ Hek) as Hlt. destruct (in_use ek) eqn:Hu; simpl; wp_pure.
    + split; [done|]. split; [lia|]. split; [lia|]. split; [done|apply Hok].
    + split; [done|]. exists k, ek. split; [done|]. split; [|apply Hok]. split; [done|]. congruence.
  - simpl in H1. destruct H1 as [-> H1]. wp_pure. split; [done|]. exists k, e1. split; [done|].
    split; [|done]. split; [done|]. congruence.
Qed.

(** The copied name is the name. *)
Lemma cstr_app name l : 0 ∉ name → cstr (name ++ 0 :: l) = Some name.
Proof.
  induction name as [|c name IH]; simpl; [done|]. intros H.
  rewrite (proj2 (Z.eqb_neq c 0)) by set_solver. rewrite IH by set_solver. done.
Qed.
Lemma copied_name name old :
  0 ∉ name → (length name ≤ 14)%nat → length old = 15%nat →
  cstr (copy_name name old) = Some name ∧ length (copy_name name old) = 15%nat.
Proof.
  intros Hn Hl Ho. unfold copy_name. split.
  - unfold splice. simpl. rewrite firstn_all2 by lia. rewrite <- app_assoc. by apply cstr_app.
  - rewrite length_splice; [done|]. rewrite length_app, length_take. cbn [length]. lia.
Qed.

Definition valid_name (name : list Z) : Prop := 0 ∉ name ∧ name ≠ [] ∧ (length name ≤ 14)%nat.

Lemma add_entry_wp s q i l es name sector e0 :
  dir_on s q i l es → length (de_name e0) = 15%nat → valid_name name → 0 <= sector < 2 ^ 32 →
  (dir_map es name = None → ∀ k, free_slot es k → writable (fs_vol s) i l 20 (20 * Z.of_nat k)) →
  wp (add_entry q name sector e0) s (λ r s',
    match dir_map es name with
    | Some _ => r = false ∧ reads s s'
    | None => r = true ∧ ∃ d new k e, free_slot es k ∧ de_sector e = sector ∧
        (∀ n, matches n e = bool_decide (n = name)) ∧
        inodes s' = <[q := set_data d i]> (inodes s) ∧
        dir_on s' q (set_data d i) (l ++ new) (put_slot es k e)
    end).
Proof.
  intros Hd He0 (Hn0 & Hne & Hn14) Hsec Hw0. unfold add_entry, NAME_MAX.
  rewrite bool_decide_eq_false_2 by done.
  rewrite (proj2 (Z.ltb_ge _ _)) by (unfold zlength; lia). simpl. wp_step.
  eapply wp_mono; [by apply (lookup_wp s q i l es)|].
  intros r s1 (Hr1 & [(k & e & -> & Hk & Hm & Hfirst)|[(e & ofs & ->) Hnone]]).
  - wp_pure. by rewrite (dir_map_first es name k e).
  - rewrite (proj1 (dir_map_none es name)) in * by done. specialize (Hw0 eq_refl). wp_step.
    assert (Hd1 := reads_dir_on _ _ _ _ _ _ Hr1 Hd). eapply entry_fuel_wp; [done|].
    intros fuel Hfuel. wp_step. eapply wp_mono; [by apply (free_scan_wp s1 q i l es)|].
    intros r s2 (Hr2 & k & ek & -> & Hfree & Hek). simpl.
    assert (Hd2 := reads_dir_on _ _ _ _ _ _ Hr2 Hd1).
    destruct (copied_name name (de_name ek)) as [Hcs Hcl]; [done..|].
    set (e' := DirEntry _ _ _). wp_step.
    assert (Hw2 : writable (fs_vol s2) i l 20 (20 * Z.of_nat k)).
    { pose proof (Hw0 k Hfree) as Hw. destruct Hr1 as (v1 & Hs1 & ->), Hr2 as (v2 & Hs2 & ->). simpl in *.
      assert (Hs := same_data_trans _ _ _ Hs1 Hs2). destruct Hs as (Hf & Hm & Hc & Hsx).
      destruct Hw as [Wd Wf Ww Wm Wo We Wg Ws Wa]. split; rewrite ?Hf, ?Hm; try done.
      - by apply (same_file_on (fs_vol s)).
      - intros Hlt. destruct (Wg Hlt) as (? & ? & ? & Hfd & ?). unfold can_grow, free_on_disk, has_sector.
        rewrite Hf, Hc. done.
      - unfold has_sector. by rewrite Hc. }
    eapply wp_mono; [apply (write_slot_wp s2 q i l es k e'); [done| |apply Hfree|done]|].
    { split; simpl; [done|done|by eexists]. }
    intros n s3 [-> (d & new & _ & _ & Hin & _ & _ & Hd3 & _)]. wp_pure. split; [done|].
    exists d, new, k, e'. split; [done|]. split; [done|]. split.
    { intros n. unfold matches. simpl. rewrite Hcs. apply bool_decide_ext. naive_solver. }
    split; [|done]. rewrite Hin. by destruct Hr1 as (v1 & _ & ->), Hr2 as (v2 & _ & ->).
Qed.
End adding.

(** C15: dir_add refuses a name that is in the directory; otherwise the name now
    leads to the sector, every other name leads where it led before, and names stay
    distinct. The slot that the entry goes to must be writable ([writable], which also
    asks that the sector of the directory's inode is no cluster of it): inside the
    directory always, and behind its end only if the directory can grow, that is, it
    is not the root directory, its length is not a positive multiple of 512, and free
    clusters are left behind the rover (see inode_write_at_spec). Names are distinct
    before, and malloc does not fail. *)
Theorem dir_add_spec s p d i l es name sector e0 :
  p ≠ 0 → dirs s !! p = Some d → dir_on (k_fs s) (d_inode d) i l es →
  length (de_name e0) = 15%nat → valid_name name → 0 <= sector < 2 ^ 32 → distinct es →
  (dir_map es name = None → ∀ k, free_slot es k → writable (fs_vol (k_fs s)) i l 20 (20 * Z.of_nat k)) →
  ∃ r s', dir_add p name sector e0 s = Done (r, s') ∧
    match dir_map es name with
    | Some _ => r = false ∧ dir_on (k_fs s') (d_inode d) i l es
    | None => r = true ∧ ∃ i' l' es', dir_on (k_fs s') (d_inode d) i' l' es' ∧ distinct es' ∧
        ∀ n, dir_map es' n = if bool_decide (n = name) then Some sector else dir_map es n
    end.
Proof.
  intros Hp Hdir Hd He0 Hn Hsec Hdist Hw. apply wp_run. unfold dir_add, get_dir, on_fs.
  rewrite (proj2 (Z.eqb_neq _ _)) by done. wp_step. wp_step; [done|]. wp_step. wp_pure.
  wp_step; [done|]. wp_pure. eapply wp_mono; [by apply (add_entry_wp (k_fs s) _ i l es)|].
  intros r fs' H. simpl. destruct (dir_map es name) as [x|] eqn:Hx.
  - destruct H as [-> Hr]. split; [done|]. by eapply reads_dir_on.
  - destruct H as (-> & d' & new & k & e & Hfree & He & Hmat & _ & Hd'). split; [done|].
    exists (set_data d' i), (l ++ new), (put_slot es k e). split; [done|]. split.
    + apply (distinct_put es k e name); [done|apply Hfree|done|]. intros n. rewrite Hmat.
      by apply bool_decide_eq_true.
    + intros n. rewrite dir_map_put, Hmat by done. case_bool_decide as Hnn; [|done].
      subst n. rewrite (proj1 (dir_map_none (take k es) name)); [by rewrite He|].
      intros j a [Ha _]%lookup_take_Some. revert j a Ha. by apply dir_map_none.
Qed.

(** ** Looking up *)

Section finding.
Implicit Types (s : fsys) (e : dir_entry) (es : list dir_entry) (name : list Z).

Lemma reads_wf_inodes s s' : reads s s' → wf_inodes s → wf_inodes s'.
Proof. intros (v' & _ & ->) []. by split. Qed.
Lemma reads_sector s s' x : reads s s' → has_sector (v_disk (fs_vol s)) x → has_sector (v_disk (fs_vol s')) x.
Proof. intros (v' & (_ & _ & Hc & _) & ->). unfold has_sector. simpl. by rewrite Hc. Qed.
Lemma reads_mem s s' : reads s s' → v_mem (fs_vol s') = v_mem (fs_vol s).
Proof. by intros (v' & (_ & Hm & _) & ->). Qed.

(** The names that dir_readdir still has to list from slot [j] on. *)
Definition names_from es (j : nat) : list (list Z) :=
  omap (λ e, if in_use e then cstr (de_name e) else None) (drop j es).

Lemma names_from_slot es j e :
  es !! j = Some e →
  names_from es j = match (if in_use e then cstr (de_name e) else None) with
                    | Some n => n :: names_from es (S j)
                    | None => names_from es (S j)
                    end.
Proof. intros Hj. unfold names_from. rewrite (drop_S _ _ _ Hj). simpl. by destruct (in_use e). Qed.

Lemma readdir_wp s q i l es e0 (j : nat) fuel :
  dir_on s q i l es → length (de_name e0) = 15%nat → (j ≤ length es)%nat → (length es < fuel)%nat →
  wp (loop fuel (readdir_step q) (20 * Z.of_nat j, e0)) s (λ r s', reads s s' ∧
    r.2 = head (names_from es j) ∧
    ∃ j', r.1 = 20 * Z.of_nat j' ∧ (j' ≤ length es)%nat ∧ names_from es j' = tail (names_from es j)).
Proof.
  intros Hd He0 Hj Hfuel.
  apply (scan_slots s q i l es fuel j e0 _ (λ k, names_from es k = names_from es j)); [done|done|lia|lia|done|].
  intros k e s' Hr Hk HI He. unfold readdir_step. wp_step.
  eapply wp_mono; [by apply (read_entry_reads s s' q i l es)|].
  intros [full e1] s1 [Hr1 H1]. destruct (es !! k) as [ek|] eqn:Hek.
  - injection H1 as -> ->. pose proof (Forall_lookup_1 _ _ _ _ (do_entries _ _ _ _ _ Hd) Hek) as Hok.
    pose proof (lookup_lt_Some _ _ _ Hek) as Hlt. destruct (eo_name _ Hok) as [nm Hnm].
    rewrite (names_from_slot es k ek Hek) in HI. destruct (in_use ek) eqn:Hu.
    + wp_step. wp_step; [exact Hnm|]. wp_pure. rewrite Hnm in HI. rewrite <- HI. simpl.
      split; [done|]. split; [done|]. exists (S k). split; [lia|]. split; [lia|done].
    + wp_pure. split; [done|]. split; [lia|]. split; [lia|]. split; [done|apply Hok].
  - simpl in H1. destruct H1 as [-> H1]. wp_pure. simpl. split; [done|].
    apply lookup_ge_None in Hek. assert (Hnil : names_from es k = []).
    { unfold names_from. by rewrite drop_ge by lia. }
    rewrite <- HI, Hnil. split; [done|]. exists k. split; [done|]. split; [done|]. by rewrite Hnil.
Qed.
End finding.

(** dir_lookup opens the sector that the directory gives the name, and answers
    NULL, leaving the inodes alone, when the name is not in it. *)
Theorem dir_lookup_spec s p d i l es name e0 :
  p ≠ 0 → dirs s !! p = Some d → dir_on (k_fs s) (d_inode d) i l es →
  length (de_name e0) = 15%nat → wf_inodes (k_fs s) →
  (∀ x, dir_map es name = Some x → has_sector (v_disk (fs_vol (k_fs s))) x) →
  ∃ q s', dir_lookup p name e0 s = Done (q, s') ∧
    match dir_map es name with
    | Some x => q ≠ 0 ∧ wf_inodes (k_fs s') ∧ ∃ j, inodes (k_fs s') !! q = Some j ∧ i_sector j = x
    | None => q = 0 ∧ inodes (k_fs s') = inodes (k_fs s)
    end.
Proof.
  intros Hp Hdir Hd He0 Hwf Hsec. apply wp_run. unfold dir_lookup, get_dir, on_fs.
  rewrite (proj2 (Z.eqb_neq _ _)) by done. wp_step. wp_step; [done|]. wp_step. wp_pure.
  wp_step; [done|]. wp_pure. eapply wp_mono; [by apply (lookup_wp (k_fs s) _ i l es)|].
  intros r s1 (Hr1 & [(k & e & -> & Hk & Hm & Hfirst)|[(e & ofs & ->) Hnone]]).
  - rewrite (dir_map_first es name k e) in * by done. wp_pure. simpl.
    eapply wp_mono; [apply inode_open_wp|].
    + by eapply reads_wf_inodes.
    + eapply reads_sector; [done|]. by apply Hsec.
    + rewrite (reads_mem _ _ Hr1). apply Hd.
    + intros q s2 (j & Hwf2 & Hq & _ & Hin & Hj & _). simpl. split; [done|]. split; [done|].
      exists j. by rewrite Hin, lookup_insert_eq.
  - rewrite (proj1 (dir_map_none es name)) by done. wp_pure. simpl. split; [done|].
    by destruct Hr1 as (v' & _ & ->).
Qed.

(** Repeated calls of dir_readdir list exactly the names in use, in the order of
    their slots: one call answers the first name that is left, and leaves the
    others. *)
Theorem dir_readdir_spec s p d i l es e0 (j : nat) :
  dirs s !! p = Some d → d_pos d = 20 * Z.of_nat j → (j ≤ length es)%nat →
  dir_on (k_fs s) (d_inode d) i l es → length (de_name e0) = 15%nat →
  ∃ s' j', dir_readdir p e0 s = Done (head (names_from es j), s') ∧
    dirs s' = <[p := Dir (d_inode d) (20 * Z.of_nat j')]> (dirs s) ∧ (j' ≤ length es)%nat ∧
    names_from es j' = tail (names_from es j) ∧
    dir_on (k_fs s') (d_inode d) i l es.
Proof.
  intros Hdir Hpos Hj Hd He0.
  assert (wp (dir_readdir p e0) s (λ r s', r = head (names_from es j) ∧ ∃ j',
    dirs s' = <[p := Dir (d_inode d) (20 * Z.of_nat j')]> (dirs s) ∧ (j' ≤ length es)%nat ∧
    names_from es j' = tail (names_from es j) ∧
    dir_on (k_fs s') (d_inode d) i l es)) as Hwp.
  { unfold dir_readdir, get_dir, put_dir, on_fs. wp_pure. wp_step; [done|]. wp_pure.
    eapply entry_fuel_wp; [done|]. intros fuel Hfuel. rewrite Hpos.
    eapply wp_mono; [by apply (readdir_wp (k_fs s) _ i l es)|].
    intros [pos r] s1 (Hr & Hres & j' & Hpos' & Hj' & Hn). simpl in *. wp_pure. simpl. subst pos.
    split; [done|]. exists j'. split; [done|]. split; [done|]. split; [done|]. by eapply reads_dir_on. }
  apply wp_done in Hwp as (r & s' & He & -> & j' & H). eauto.
Qed.

(** ** Removing *)

(** The inode in sector [sec] can be removed next to the directory [i] on [l]:
    it is sound in memory when it is open; when it is not, its clusters [lf] and
    the cluster [c] of the sector are apart from the directory's. *)
Record removable (s : fsys) (i : inode) (l : list Z) (sec : Z) (lf : list Z) : Prop := {
  rm_sector : has_sector (v_disk (fs_vol s)) sec;
  rm_other : sec ≠ i_sector i;
  rm_open : ∀ p j, inodes s !! p = Some j → i_sector j = sec → id_magic (i_data j) = INODE_MAGIC;
  rm_closed : (∀ p j, inodes s !! p = Some j → i_sector j ≠ sec) →
    let f := v_fat (fs_vol s) in
    let dd := inode_of_bytes (sector_at (v_disk (fs_vol s)) sec) in
    let c := sector_to_cluster f sec in
    id_magic dd = INODE_MAGIC ∧ chain (fat f) (id_start dd) lf ∧ lf ≠ [] ∧
    chain (fat f) c [c] ∧ c ∉ lf ∧ c :: lf ## l ∧ apart (fs_vol s) (i_sector i) (c :: lf);
}.

Section removing.
Implicit Types (s : fsys) (e : dir_entry) (es : list dir_entry) (name : list Z).

(** What removing the file in sector [sec] does to the open inodes and to the
    clusters. *)
Definition unlinked s (i : inode) (sec : Z) (lf : list Z) s' : Prop :=
  (∀ p j, inodes s !! p = Some j → i_sector j = sec → inodes s' !! p = Some (set_removed true j)) ∧
  ((∀ p j, inodes s !! p = Some j → i_sector j ≠ sec) →
     ∀ x, x ∈ sector_to_cluster (v_fat (fs_vol s)) sec :: lf → is_free (v_fat (fs_vol s')) x).

Lemma dir_on_freed s s' q i l es dead :
  dir_on s q i l es → inodes s' !! q = Some i → freed (fs_vol s) dead (fs_vol s') → l ## dead →
  dir_on s' q i l es.
Proof.
  intros [Hq Hi Hf Hm Hc He] Hi' [Hfree Hch Hst Hwf Hdk Hme] Hd.
  assert (Hb : file_bytes (fs_vol s') l = file_bytes (fs_vol s) l).
  { unfold file_bytes, cluster_block, cluster_to_sector. by rewrite Hdk, Hst. }
  split; try done; [|by rewrite Hme|by unfold file_content in *; rewrite Hb].
  destruct Hf. split; try done; unfold cluster_block, cluster_to_sector in *; rewrite ?Hdk, ?Hst; try done.
  by apply Hch.
Qed.

(** Closing the removed inode [pf]. *)
Lemma close_removed_wp s q i l es pf jf lf :
  wf_inodes s → dir_on s q i l es → inodes s !! pf = Some jf → pf ≠ q → removed jf = true →
  id_magic (i_data jf) = INODE_MAGIC → deny_write_cnt jf < open_cnt jf ∨ open_cnt jf = 1 →
  releasable (v_fat (fs_vol s)) jf lf →
  (open_cnt jf = 1 → l ## sector_to_cluster (v_fat (fs_vol s)) (i_sector jf) :: lf) →
  wp (inode_close pf) s (λ _ s', dir_on s' q i l es ∧
    (1 < open_cnt jf → inodes s' = <[pf := set_open_cnt (open_cnt jf - 1) jf]> (inodes s)) ∧
    (open_cnt jf = 1 → ∀ x, x ∈ sector_to_cluster (v_fat (fs_vol s)) (i_sector jf) :: lf →
       is_free (v_fat (fs_vol s')) x)).
Proof.
  intros Hwf Hd Hpf Hne Hrm Hmag Hdeny Hrel Hdj.
  pose proof (wi_count _ Hwf _ _ Hpf) as Hcnt. pose proof (do_inode _ _ _ _ _ Hd) as Hi.
  eapply wp_mono; [by apply (inode_close_wp s pf jf lf)|]. intros [] s' [Hwf' H].
  rewrite Hrm in H. case_decide as Hlt.
  - subst s'. split; [|split; [done|lia]]. destruct Hd. split; try done. simpl.
    by rewrite lookup_insert_ne.
  - destruct H as (Hin & _ & Hfr). assert (Hone : open_cnt jf = 1) by lia. split; [|split; [lia|]].
    + eapply dir_on_freed; [exact Hd| |exact Hfr|by apply Hdj]. by rewrite Hin, lookup_delete_ne.
    + intros _ x Hx. apply (fr_free _ _ _ Hfr). by left.
Qed.

(** How the inode of the entry was opened: counted, or read from its sector. *)
Definition opened s (sec pf : Z) (jf : inode) : Prop :=
  (∃ j, inodes s !! pf = Some j ∧ i_sector j = sec ∧ jf = set_open_cnt (open_cnt j + 1) j) ∨
  ((∀ p j, inodes s !! p = Some j → i_sector j ≠ sec) ∧
   jf = Inode sec 1 false 0 (inode_of_bytes (sector_at (v_disk (fs_vol s)) sec))).

(** It can be closed after the directory has been written. *)
Lemma victim_closable s s3 i l sec lf pf jf :
  wf_inodes s → removable s i l sec lf → opened s sec pf jf →
  wf_fat (v_fat (fs_vol s3)) →
  data_start (v_fat (fs_vol s3)) = data_start (v_fat (fs_vol s)) →
  (∀ c m, chain (fat (v_fat (fs_vol s))) c m → m ## l →
     apart (fs_vol s) (i_sector i) m → chain (fat (v_fat (fs_vol s3))) c m) →
  id_magic (i_data jf) = INODE_MAGIC ∧ (deny_write_cnt jf < open_cnt jf ∨ open_cnt jf = 1) ∧
  releasable (v_fat (fs_vol s3)) (set_removed true jf) lf ∧
  (open_cnt jf = 1 → l ## sector_to_cluster (v_fat (fs_vol s)) sec :: lf).
Proof.
  intros Hwf Hrm Hop Hwf3 Hst Hkeep.
  assert (Hcl : sector_to_cluster (v_fat (fs_vol s3)) sec = sector_to_cluster (v_fat (fs_vol s)) sec).
  { unfold sector_to_cluster. by rewrite Hst. }
  destruct Hop as [(j & Hj & Hs & ->)|(Hclosed & ->)].
  - pose proof (wi_count _ Hwf _ _ Hj). pose proof (wi_deny _ Hwf _ _ Hj). simpl.
    split; [by apply (rm_open _ _ _ _ _ Hrm pf)|]. split; [left; lia|].
    split; [unfold releasable; simpl; lia|lia].
  - destruct (rm_closed _ _ _ _ _ Hrm Hclosed) as (Hmg & Hch & Hne & Hcc & Hcf & Hdj & Hap).
    cbn [i_data open_cnt deny_write_cnt]. split; [done|]. split; [by right|].
    split; [|intros _ x Hx1 Hx2; by apply (Hdj x)].
    intros _ _. cbn [set_removed i_sector i_data]. rewrite Hcl.
    split; [done|]. split; [apply Hkeep; [done|set_solver|intros x Hx; apply Hap; by right]|].
    split; [done|]. split; [|done]. apply Hkeep; [done|set_solver|].
    intros x Hx. apply Hap. set_solver.
Qed.

(** Switching the entry's state to the one after inode_remove keeps the table
    well-formed. *)
Lemma wf_removed s2 s3 q i i3 pf jf :
  wf_inodes s2 → inodes s2 !! q = Some i → inodes s2 !! pf = Some jf → pf ≠ q →
  same_inode i i3 → inodes s3 = <[q := i3]> (inodes s2) →
  open_inodes s3 = open_inodes s2 → next_ptr s3 = next_ptr s2 →
  wf_inodes (set_inodes (<[pf := set_removed true jf]> (inodes s3)) s3).
Proof.
  intros Hwf2 Hiq Hpf Hne Hsame Hin3 Ho3 Hn3.
  assert (Hw3 : wf_inodes (Fsys (fs_vol s3) (inodes s3) (open_inodes s3) (next_ptr s3))).
  { rewrite Hin3, Ho3, Hn3. by apply (wf_put s2 q i). }
  assert (Hpf3 : inodes s3 !! pf = Some jf) by (by rewrite Hin3, lookup_insert_ne).
  pose proof (wi_count _ Hw3 _ _ Hpf3). pose proof (wi_deny _ Hw3 _ _ Hpf3).
  by apply (wf_put (Fsys (fs_vol s3) (inodes s3) (open_inodes s3) (next_ptr s3)) pf jf).
Qed.

(** States that differ in the disk's counter and in another inode. *)
Lemma dir_on_opened s s2 q i l es pf jf :
  dir_on s q i l es → same_data (fs_vol s) (fs_vol s2) → inodes s2 = <[pf := jf]> (inodes s) →
  pf ≠ q → dir_on s2 q i l es.
Proof.
  intros [? Hi Hf ? Hc ?] Hs Hin Hne. pose proof Hs as (_ & Hm & _). split; try done.
  - by rewrite Hin, lookup_insert_ne.
  - by apply (same_file_on (fs_vol s)).
  - by rewrite Hm.
  - unfold file_content in *. by rewrite (same_file_bytes (fs_vol s)).
Qed.
Lemma same_writable v v' i l n o : same_data v v' → writable v i l n o → writable v' i l n o.
Proof.
  intros Hs [Wd Wf Ww Wm Wo We Wg Ws Wa]. pose proof Hs as (Hf & Hm & Hc & _).
  split; rewrite ?Hf, ?Hm; try done.
  - by apply (same_file_on v).
  - intros Hlt. destruct (Wg Hlt) as (? & ? & ? & Hfd & ?).
    unfold can_grow, free_on_disk, has_sector. by rewrite Hf, Hc.
  - unfold has_sector. by rewrite Hc.
Qed.

(** What lies in the file may be written without growth. *)
Lemma writable_inside v i l n o :
  writable v i l 0 0 → 0 <= n → 0 <= o → o + n <= id_length (i_data i) → writable v i l n o.
Proof.
  intros [Wd Wf Ww Wm Wo We Wg Ws Wa] Hn Ho Hlt. pose proof (fo_off _ _ _ Wf). split; try done; lia.
Qed.

(** The entry is found and its inode opened. *)
Lemma open_entry_wp s q i l es sec lf pf0 :
  reads s pf0 → dir_on s q i l es → wf_inodes s → removable s i l sec lf →
  wp (inode_open sec) pf0 (λ pf s2, ∃ jf, opened s sec pf jf ∧ wf_inodes s2 ∧ pf ≠ 0 ∧ pf ≠ q ∧
    same_data (fs_vol s) (fs_vol s2) ∧ inodes s2 = <[pf := jf]> (inodes s) ∧ i_sector jf = sec).
Proof.
  intros Hr Hd Hwf Hrm. pose proof (reads_wf_inodes _ _ Hr Hwf) as Hwf1.
  pose proof (reads_dir_on _ _ _ _ _ _ Hr Hd) as Hd1. destruct Hr as (v1 & Hs1 & ->).
  eapply wp_mono; [apply inode_open_wp; [exact Hwf1| |apply Hd1]|].
  { apply (reads_sector s); [by exists v1|]. apply Hrm. }
  intros pf s2 (jf & Hwf2 & Hpf0 & Hs2 & Hin2 & Hjf & Hcase). simpl in *. exists jf.
  pose proof (do_inode _ _ _ _ _ Hd) as Hi. split; [|split; [done|split; [done|split; [|split; [|done]]]]].
  - destruct Hcase as [(j & Hj & -> & _)|(Hn & _ & -> & _)]; [left; by exists j|right].
    split; [done|]. destruct Hs1 as (_ & _ & _ & Hx). unfold sector_at. by rewrite Hx.
  - intros ->. destruct Hcase as [(j & Hj & -> & _)|(_ & Hn & _)]; [|congruence].
    rewrite Hi in Hj. injection Hj as <-. simpl in Hjf. by apply (rm_other _ _ _ _ _ Hrm).
  - by eapply same_data_trans.
Qed.

Lemma remove_entry_wp s q i l es name sec lf e0 :
  dir_on s q i l es → length (de_name e0) = 15%nat → distinct es → wf_inodes s →
  dir_map es name = Some sec → removable s i l sec lf → writable (fs_vol s) i l 0 0 →
  wp (remove_entry q name e0) s (λ r s', r = true ∧ unlinked s i sec lf s' ∧
    ∃ i' k e, es !! k = Some e ∧ matches name e = true ∧
      dir_on s' q i' l (put_slot es k (DirEntry (de_sector e) (de_name e) false))).
Proof.
  intros Hd He0 Hdist Hwf Hmap Hrm Hw. unfold remove_entry. wp_step.
  eapply wp_mono; [by apply (lookup_wp s q i l es)|].
  intros r s1 (Hr1 & [(k & e & -> & Hk & Hm & Hfirst)|[_ Hnone]]).
  2: { by rewrite (proj1 (dir_map_none es name)) in Hmap. }
  rewrite (dir_map_first es name k e) in Hmap by done. injection Hmap as Hsec. simpl.
  rewrite Hsec. wp_step. eapply wp_mono; [by apply (open_entry_wp s q i l es sec lf)|].
  intros pf s2 (jf & Hop & Hwf2 & Hpf0 & Hpq & Hs & Hin2 & Hjf).
  rewrite (proj2 (Z.eqb_neq pf 0)) by done.
  assert (Hd2 := dir_on_opened _ _ _ _ _ _ _ _ Hd Hs Hin2 Hpq).
  pose proof (lookup_lt_Some _ _ _ Hk) as Hlt.
  pose proof (Forall_lookup_1 _ _ _ _ (do_entries _ _ _ _ _ Hd) Hk) as Hok. wp_step.
  rewrite <- Hsec. eapply wp_mono; [apply (write_slot_wp s2 q i l es k (DirEntry (de_sector e) (de_name e) false));
    [done|by destruct Hok|lia|]|].
  { eapply same_writable; [exact Hs|]. pose proof (length_entries _ _ _ _ _ Hd). apply writable_inside; [done|lia..|].
    unfold zlength in *. lia. }
  rewrite Hsec.
  intros n s3 (-> & d & new & _ & _ & Hin3 & Ho3 & Hn3 & Hd3 & Hwff3 & Hst3 & Hch3 & Hnil).
  rewrite (Hnil Hlt), app_nil_r in Hd3. simpl. unfold inode_remove, get_inode, put_inode.
  rewrite (proj2 (Z.eqb_neq pf 0)) by done. wp_step. wp_step. wp_step; [done|].
  assert (Hpf2 : inodes s2 !! pf = Some jf) by (by rewrite Hin2, lookup_insert_eq).
  assert (Hpf3 : inodes s3 !! pf = Some jf) by (by rewrite Hin3, lookup_insert_ne).
  wp_pure. wp_step; [exact Hpf3|]. wp_pure. set (jr := set_removed true jf). set (s4 := set_inodes _ s3).
  pose proof Hs as (Hf & _ & _ & _).
  destruct (victim_closable s s3 i l sec lf pf jf) as (Hmg & Hdny & Hrel & Hone); try done.
  { by rewrite Hst3, Hf. }
  { intros c m Hc Hml Ha. apply Hch3; [by rewrite Hf|done|]. intros x Hx. rewrite Hf. by apply Ha. }
  assert (Hcl3 : ∀ x, sector_to_cluster (v_fat (fs_vol s3)) x = sector_to_cluster (v_fat (fs_vol s)) x).
  { intros x. unfold sector_to_cluster. by rewrite Hst3, Hf. }
  pose proof (wi_count _ Hwf2 _ _ (do_inode _ _ _ _ _ Hd2)).
  pose proof (wi_deny _ Hwf2 _ _ (do_inode _ _ _ _ _ Hd2)).
  eapply wp_mono; [apply (close_removed_wp s4 q (set_data d i) l
    (put_slot es k (DirEntry sec (de_name e) false)) pf jr lf); try done|].
  { apply (wf_removed s2 s3 q i (set_data d i)); try done. apply Hd2. }
  { destruct Hd3. split; try done. simpl. by rewrite lookup_insert_ne. }
  { simpl. apply lookup_insert_eq. }
  { intros H1. simpl. rewrite Hcl3, Hjf. by apply Hone. }
  intros [] s5 (Hd5 & Hmany & Hlast). wp_pure. split; [done|].
  split; [|exists (set_data d i), k, e; rewrite Hsec; done]. split.
  - intros p j Hj Hjs. destruct Hop as [(j' & Hj' & Hjs' & ->)|(Hclosed & _)].
    2: { by destruct (Hclosed p j Hj). }
    assert (p = pf) as -> by (apply (wi_sector _ Hwf p pf j j'); congruence).
    rewrite Hj in Hj'. injection Hj' as <-. pose proof (wi_count _ Hwf _ _ Hj).
    rewrite Hmany by (simpl; lia). rewrite lookup_insert_eq. f_equal. destruct j.
    unfold jr, set_removed, set_open_cnt. simpl. f_equal. lia.
  - intros Hclosed x Hx. destruct Hop as [(j' & Hj' & Hjs' & ->)|(_ & ->)].
    { by destruct (Hclosed pf j' Hj'). }
    apply Hlast; [done|]. cbn [jr set_removed i_sector]. simpl in *. by rewrite Hcl3.
Qed.
End removing.

(** C16: dir_remove takes the name, and no other, out of the directory; the file
    stays usable while somebody has it open, and otherwise all its clusters and that
    of its inode are free again. The entry must lead to a file that is not empty (the
    close of an empty one never returns, inode_close_empty_diverges) and whose
    clusters are not those of the directory ([removable]); the directory need not be
    able to grow, and may be the root directory. Malloc does not fail. *)
Theorem dir_remove_spec s p d i l es name sec lf e0 :
  p ≠ 0 → dirs s !! p = Some d → dir_on (k_fs s) (d_inode d) i l es →
  length (de_name e0) = 15%nat → distinct es → wf_inodes (k_fs s) →
  dir_map es name = Some sec → removable (k_fs s) i l sec lf → writable (fs_vol (k_fs s)) i l 0 0 →
  ∃ s' i' es', dir_remove p name e0 s = Done (true, s') ∧
    dir_on (k_fs s') (d_inode d) i' l es' ∧ distinct es' ∧
    (∀ n, dir_map es' n = if bool_decide (n = name) then None else dir_map es n) ∧
    unlinked (k_fs s) i sec lf (k_fs s').
Proof.
  intros Hp Hdir Hd He0 Hdist Hwf Hmap Hrm Hw.
  assert (wp (dir_remove p name e0) s (λ r s', r = true ∧ ∃ i' es',
    dir_on (k_fs s') (d_inode d) i' l es' ∧ distinct es' ∧
    (∀ n, dir_map es' n = if bool_decide (n = name) then None else dir_map es n) ∧
    unlinked (k_fs s) i sec lf (k_fs s'))) as Hwp.
  { unfold dir_remove, get_dir, on_fs. rewrite (proj2 (Z.eqb_neq _ _)) by done.
    wp_step. wp_step; [done|]. wp_step. wp_pure. wp_step; [done|]. wp_pure.
    eapply wp_mono; [by apply (remove_entry_wp (k_fs s) _ i l es name sec lf)|].
    intros r s' (-> & Hu & i' & k & e & Hk & Hm & Hd'). simpl. split; [done|].
    exists i', (put_slot es k (DirEntry (de_sector e) (de_name e) false)). split; [done|].
    split; [by apply distinct_off|]. split; [|done]. intros n. by apply dir_map_off. }
  apply wp_done in Hwp as (r & s' & He & -> & i' & es' & H). eauto.
Qed.
