(* ===== verification/CString.v ===== *)
(** * Memory and strings (lib/string.c)

    The routines as loops over a byte-addressed memory, in which blocks and
    strings may overlap. *)
From stdpp Require Import base numbers list sets gmap.
From Stdlib Require Import ZArith Lia.
From S2P Require Import Prelude Bytes.
Open Scope Z_scope.

(** Memory: the bytes at the addresses that may be accessed; 0 is NULL. *)
Abbreviation mem := (gmap Z Z).

Definition load8 (p : Z) : ST mem Z := m ← get_st; deref (m !! p).
Definition store8 (p v : Z) : ST mem unit :=
  m ← get_st; _ ← deref (m !! p); modify <[p := u8 v]>.

(** Loops over a string end within the accessible memory. *)
Definition scan {A B} (body : A → ST mem (A + B)) (a : A) : ST mem B :=
  m ← get_st; loop (S (size m)) body a.
Definition times {A B} (n : Z) (body : A → ST mem (A + B)) (a : A) : ST mem B :=
  loop (S (Z.to_nat n)) body a.

Definition block_ok (p size : Z) : ST mem unit := assert_st (negb (p =? 0) || (size =? 0)).
Definition nonnull (p : Z) : ST mem unit := assert_st (negb (p =? 0)).

(** ** Blocks *)

(** One turn of [while (size-- > 0) *dst++ = *src++;] *)
Definition copy_up_step (st : Z * Z * Z) : ST mem (Z * Z * Z + Z) :=
  let '(dst, src, size) := st in
  if 0 <? size then
    v ← load8 src; _ ← store8 dst v; mret (inl (dst + 1, src + 1, size - 1))
  else mret (inr dst).

(** One turn of [while (size-- > 0) *--dst = *--src;] *)
Definition copy_down_step (st : Z * Z * Z) : ST mem (Z * Z * Z + Z) :=
  let '(dst, src, size) := st in
  if 0 <? size then
    v ← load8 (src - 1); _ ← store8 (dst - 1) v; mret (inl (dst - 1, src - 1, size - 1))
  else mret (inr dst).

Definition memcpy (dst_ src_ size : Z) : ST mem Z :=
  _ ← block_ok dst_ size;
  _ ← block_ok src_ size;
  _ ← times size copy_up_step (dst_, src_, size);
  mret dst_.

Definition memmove (dst_ src_ size : Z) : ST mem Z :=
  _ ← block_ok dst_ size;
  _ ← block_ok src_ size;
  if dst_ <? src_ then times size copy_up_step (dst_, src_, size)
  else times size copy_down_step (dst_ + size, src_ + size, size).

Definition memcmp_step (st : Z * Z * Z) : ST mem (Z * Z * Z + Z) :=
  let '(a, b, size) := st in
  if 0 <? size then
    x ← load8 a; y ← load8 b;
    if negb (x =? y) then mret (inr (if y <? x then 1 else -1))
    else mret (inl (a + 1, b + 1, size - 1))
  else mret (inr 0).

Definition memcmp (a_ b_ size : Z) : ST mem Z :=
  _ ← block_ok a_ size;
  _ ← block_ok b_ size;
  times size memcmp_step (a_, b_, size).

Definition memchr_step (ch : Z) (st : Z * Z) : ST mem (Z * Z + Z) :=
  let '(block, size) := st in
  if 0 <? size then
    x ← load8 block;
    if x =? ch then mret (inr block) else mret (inl (block + 1, size - 1))
  else mret (inr 0).

Definition memchr (block_ ch_ size : Z) : ST mem Z :=
  _ ← block_ok block_ size; times size (memchr_step (u8 ch_)) (block_, size).

Definition memset_step (value : Z) (st : Z * Z) : ST mem (Z * Z + unit) :=
  let '(dst, size) := st in
  if 0 <? size then _ ← store8 dst value; mret (inl (dst + 1, size - 1)) else mret (inr tt).

Definition memset (dst_ value size : Z) : ST mem Z :=
  _ ← block_ok dst_ size;
  _ ← times size (memset_step value) (dst_, size);
  mret dst_.

(** ** Strings *)

Definition strlen_step (p : Z) : ST mem (Z + Z) :=
  c ← load8 p; if negb (c =? 0) then mret (inl (p + 1)) else mret (inr p).

Definition strlen (string : Z) : ST mem Z :=
  _ ← nonnull string; p ← scan strlen_step string; mret (p - string).

Definition strnlen_step (string maxlen length : Z) : ST mem (Z + Z) :=
  c ← load8 (string + length);
  if negb (c =? 0) && (length <? maxlen) then mret (inl (length + 1)) else mret (inr length).

Definition strnlen (string maxlen : Z) : ST mem Z := scan (strnlen_step string maxlen) 0.

Definition strcmp_step (ab : Z * Z) : ST mem (Z * Z + Z) :=
  let '(a, b) := ab in
  x ← load8 a;
  if negb (x =? 0) then
    y ← load8 b;
    if x =? y then mret (inl (a + 1, b + 1)) else mret (inr (if x <? y then -1 else 1))
  else
    y ← load8 b;
    mret (inr (if x <? y then -1 else if y <? x then 1 else 0)).

Definition strcmp (a_ b_ : Z) : ST mem Z :=
  _ ← nonnull a_; _ ← nonnull b_; scan strcmp_step (a_, b_).

Definition strchr_step (c string : Z) : ST mem (Z + Z) :=
  x ← load8 string;
  if x =? c then mret (inr string) else if x =? 0 then mret (inr 0) else mret (inl (string + 1)).

Definition strchr (string c_ : Z) : ST mem Z :=
  _ ← nonnull string; scan (strchr_step (u8 c_)) string.

(** One turn of the loops of strcspn and strspn; [want] is whether the loop
    goes on at a character of the set. *)
Definition span_step (want : bool) (string set length : Z) : ST mem (Z + Z) :=
  x ← load8 (string + length);
  if x =? 0 then mret (inr length) else
  r ← strchr set x;
  if eqb (negb (r =? 0)) want then mret (inl (length + 1)) else mret (inr length).

Definition strcspn (string stop : Z) : ST mem Z := scan (span_step false string stop) 0.
Definition strspn (string skip : Z) : ST mem Z := scan (span_step true string skip) 0.

Definition strpbrk_step (stop string : Z) : ST mem (Z + Z) :=
  x ← load8 string;
  if x =? 0 then mret (inr 0) else
  r ← strchr stop x;
  if negb (r =? 0) then mret (inr string) else mret (inl (string + 1)).

Definition strpbrk (string stop : Z) : ST mem Z := scan (strpbrk_step stop) string.

Definition strrchr_step (c : Z) (st : Z * Z) : ST mem (Z * Z + Z) :=
  let '(string, p) := st in
  x ← load8 string;
  if x =? 0 then mret (inr p) else mret (inl (string + 1, if x =? c then string else p)).

Definition strrchr (string c_ : Z) : ST mem Z := scan (strrchr_step (u8 c_)) (string, 0).

Definition strstr_step (haystack needle haystack_len needle_len i : Z) : ST mem (Z + Z) :=
  if i <=? haystack_len - needle_len then
    r ← memcmp (haystack + i) needle needle_len;
    if r =? 0 then mret (inr (haystack + i)) else mret (inl (i + 1))
  else mret (inr 0).

Definition strstr (haystack needle : Z) : ST mem Z :=
  haystack_len ← strlen haystack;
  needle_len ← strlen needle;
  if needle_len <=? haystack_len then
    times (haystack_len + 1) (strstr_step haystack needle haystack_len needle_len) 0
  else mret 0.

(** strtok_r: the loop over delimiters, [None] at the end of the string ... *)
Definition skip_step (delimiters s : Z) : ST mem (Z + (Z * bool)) :=
  x ← load8 s;
  r ← strchr delimiters x;
  if negb (r =? 0) then
    if x =? 0 then mret (inr (s, true)) else mret (inl (s + 1))
  else mret (inr (s, false)).

(** ... and the loop over the token. *)
Definition token_step (delimiters s : Z) : ST mem (Z + Z) :=
  x ← load8 s;
  r ← strchr delimiters x;
  if r =? 0 then mret (inl (s + 1)) else mret (inr s).

(** strtok_r (s, delimiters, &save): the token and the new [save]. *)
Definition strtok_r (s delimiters save_ptr : Z) : ST mem (Z * Z) :=
  _ ← nonnull delimiters;
  let s := if s =? 0 then save_ptr else s in
  _ ← nonnull s;
  r ← scan (skip_step delimiters) s;
  let '(s, fin) := r in
  if (fin : bool) then mret (0, s) else
  let token := s in
  s ← scan (token_step delimiters) s;
  x ← load8 s;
  if negb (x =? 0) then _ ← store8 s 0; mret (token, s + 1)
  else mret (token, s).

Definition strlcpy (dst src size : Z) : ST mem Z :=
  _ ← nonnull dst;
  _ ← nonnull src;
  src_len ← strlen src;
  _ ← (if 0 <? size then
         let dst_len := size - 1 in
         let dst_len := if src_len <? dst_len then src_len else dst_len in
         _ ← memcpy dst src dst_len;
         store8 (dst + dst_len) 0
       else mret tt);
  mret src_len.

Definition strlcat (dst src size : Z) : ST mem Z :=
  _ ← nonnull dst;
  _ ← nonnull src;
  src_len ← strlen src;
  dst_len ← strlen dst;
  _ ← (if (0 <? size) && (dst_len <? size) then
         let copy_cnt := size - dst_len - 1 in
         let copy_cnt := if src_len <? copy_cnt then src_len else copy_cnt in
         _ ← memcpy (dst + dst_len) src copy_cnt;
         store8 (dst + dst_len + copy_cnt) 0
       else mret tt);
  mret (src_len + dst_len).

(** ** Contents of memory *)

Definition bytes_at (m : mem) (p : Z) (l : list Z) : Prop :=
  ∀ i, 0 <= i < zlength l → m !! (p + i) = zlookup l i.

(** A null-terminated string. *)
Definition str_at (m : mem) (p : Z) (s : list Z) : Prop :=
  bytes_at m p (s ++ [0]) ∧ 0 ∉ s.

(** [m'] is [m] with [l] stored at [dst]. *)
Definition overwritten (m : mem) (dst : Z) (l : list Z) (m' : mem) : Prop :=
  ∀ a, m' !! a = if decide (dst <= a < dst + zlength l) then zlookup l (a - dst) else m !! a.

Definition mapped (m : mem) (p n : Z) : Prop := ∀ a, p <= a < p + n → is_Some (m !! a).

(** On a concrete memory these are decided by evaluation. *)
Lemma forall_range_dec (P : Z → Prop) `{!∀ i, Decision (P i)} lo n :
  Decision (∀ i, lo <= i < lo + n → P i).
Proof.
  refine (cast_if (decide (Forall P (seqZ lo n)))); rewrite Forall_seqZ in *; naive_solver.
Defined.
#[export] Instance bytes_at_dec m p l : Decision (bytes_at m p l).
Proof.
  unfold bytes_at. refine (cast_if (forall_range_dec (λ i, m !! (p + i) = zlookup l i) 0 (zlength l)));
    intuition lia.
Defined.
#[export] Instance str_at_dec m p s : Decision (str_at m p s).
Proof. unfold str_at. apply _. Defined.
#[export] Instance mapped_dec m p n : Decision (mapped m p n).
Proof. unfold mapped. apply forall_range_dec. apply _. Defined.

Section memory.
Implicit Types (m : mem) (p a : Z) (l s : list Z).

Lemma zlength_app {A} (l1 l2 : list A) : zlength (l1 ++ l2) = zlength l1 + zlength l2.
Proof. unfold zlength. rewrite length_app. lia. Qed.
Lemma zlength_cons {A} (x : A) (l2 : list A) : zlength (x :: l2) = 1 + zlength l2.
Proof. unfold zlength. simpl. lia. Qed.
Lemma zlength_nonneg {A} (l2 : list A) : 0 <= zlength l2.
Proof. unfold zlength. lia. Qed.
Lemma zlookup_app_l {A} (l1 l2 : list A) i : i < zlength l1 → zlookup (l1 ++ l2) i = zlookup l1 i.
Proof.
  unfold zlength, zlookup. intros. destruct (Z.leb_spec 0 i); [|done]. apply lookup_app_l. lia.
Qed.
Lemma zlookup_app_r {A} (l1 l2 : list A) i :
  zlength l1 <= i → zlookup (l1 ++ l2) i = zlookup l2 (i - zlength l1).
Proof.
  unfold zlength. intros. rewrite !zlookup_nat by lia. rewrite lookup_app_r by lia. f_equal. lia.
Qed.
Lemma zlookup_mid {A} (l1 l2 : list A) x : zlookup (l1 ++ x :: l2) (zlength l1) = Some x.
Proof. rewrite zlookup_app_r by lia. by rewrite Z.sub_diag. Qed.

Lemma bytes_mid m p l1 x l2 : bytes_at m p (l1 ++ x :: l2) → m !! (p + zlength l1) = Some x.
Proof.
  intros Hb. rewrite Hb; [apply zlookup_mid|].
  rewrite zlength_app, zlength_cons. pose proof (zlength_nonneg l1). pose proof (zlength_nonneg l2). lia.
Qed.

Lemma bytes_app m p l1 l2 :
  bytes_at m p (l1 ++ l2) ↔ bytes_at m p l1 ∧ bytes_at m (p + zlength l1) l2.
Proof.
  unfold bytes_at. rewrite zlength_app. pose proof (zlength_nonneg l1). pose proof (zlength_nonneg l2).
  split.
  - intros Hb. split; intros i Hi.
    + rewrite Hb by lia. apply zlookup_app_l. lia.
    + replace (p + zlength l1 + i) with (p + (zlength l1 + i)) by lia. rewrite Hb by lia.
      rewrite zlookup_app_r by lia. f_equal. lia.
  - intros [H1 H2] i Hi. destruct (Z_lt_ge_dec i (zlength l1)).
    + rewrite zlookup_app_l by lia. apply H1. lia.
    + rewrite zlookup_app_r by lia. rewrite <- H2 by lia. f_equal. lia.
Qed.

Lemma bytes_size m p l : bytes_at m p l → (length l ≤ size m)%nat.
Proof.
  intros Hb. rewrite <- size_dom.
  assert (length l = length (seqZ p (zlength l))) as ->.
  { rewrite length_seqZ. unfold zlength. lia. }
  rewrite <- (size_list_to_set (C:=gset Z)) by apply NoDup_seqZ. apply subseteq_size.
  intros a Ha%elem_of_list_to_set%elem_of_seqZ. apply elem_of_dom.
  replace a with (p + (a - p)) by lia. rewrite Hb by lia.
  apply zlookup_is_Some. lia.
Qed.

Lemma wp_load8 m p v (Q : Z → mem → Prop) : m !! p = Some v → Q v m → wp (load8 p) m Q.
Proof. intros Hp HQ. unfold load8. wp_pure. wp_step; [exact Hp|done]. Qed.
Lemma wp_store8 m p v (Q : unit → mem → Prop) :
  is_Some (m !! p) → Q tt (<[p := u8 v]> m) → wp (store8 p v) m Q.
Proof. intros [w Hp] HQ. unfold store8. wp_pure. wp_step; [done|]. by wp_pure. Qed.
Lemma wp_block_ok m p n (Q : unit → mem → Prop) :
  p ≠ 0 → Q tt m → wp (block_ok p n) m Q.
Proof. intros Hp HQ. unfold block_ok. wp_step; [|done]. by rewrite (proj2 (Z.eqb_neq p 0)). Qed.
Lemma wp_nonnull m p (Q : unit → mem → Prop) : p ≠ 0 → Q tt m → wp (nonnull p) m Q.
Proof. intros Hp HQ. unfold nonnull. wp_step; [|done]. by rewrite (proj2 (Z.eqb_neq p 0)). Qed.

(** The loop rule for loops over the characters of a string. *)
Lemma wp_scan {A B} (I : nat → A → mem → Prop) (body : A → ST mem (A + B))
    (Q : B → mem → Prop) n (x : A) m :
  (∀ n (x : A) m, I n x m →
     wp (body x) m (λ r m', match r with
                            | inl x' => ∃ n', (n' < n)%nat ∧ I n' x' m'
                            | inr b => Q b m'
                            end)) →
  I n x m → (n ≤ size m)%nat → wp (scan body x) m Q.
Proof.
  intros Hstep HI Hn. unfold scan. wp_pure. apply (wp_loop I _ _ n); [done|done|lia].
Qed.

(** *** Copies *)

Lemma overwritten_step m dst l x m' :
  overwritten m dst l m' → is_byte x →
  overwritten m dst (l ++ [x]) (<[dst + zlength l := u8 x]> m').
Proof.
  intros Ho Hx a. pose proof (zlength_nonneg l). rewrite zlength_app. change (zlength [x]) with 1.
  destruct (decide (a = dst + zlength l)) as [->|Hne].
  - rewrite lookup_insert_eq, decide_True by lia.
    replace (dst + zlength l - dst) with (zlength l) by lia. rewrite zlookup_mid.
    unfold is_byte in Hx. unfold u8. by rewrite Z.mod_small by lia.
  - rewrite lookup_insert_ne by done. rewrite Ho.
    destruct (decide (dst <= a < dst + zlength l)).
    + rewrite decide_True by lia. rewrite zlookup_app_l by lia. done.
    + by rewrite decide_False by lia.
Qed.

Lemma copy_up_wp m dst src l :
  Forall is_byte l → bytes_at m src l → mapped m dst (zlength l) →
  (dst <= src ∨ src + zlength l <= dst) →
  wp (times (zlength l) copy_up_step (dst, src, zlength l)) m (λ r m',
    overwritten m dst l m' ∧ r = dst + zlength l).
Proof.
  intros Hby Hb Hm Hov. pose proof (zlength_nonneg l) as Hl.
  apply (wp_loop (λ n st m', ∃ l1 l2, l = l1 ++ l2 ∧ n = length l2 ∧
    st = (dst + zlength l1, src + zlength l1, zlength l2) ∧ overwritten m dst l1 m')
    _ _ (length l)); [| |unfold zlength; lia].
  - intros n st m' (l1 & l2 & -> & -> & -> & Ho). unfold copy_up_step.
    destruct l2 as [|x l2].
    + simpl. rewrite app_nil_r in *. wp_pure. done.
    + rewrite zlength_cons in *. pose proof (zlength_nonneg l1). pose proof (zlength_nonneg l2).
      rewrite zlength_app, zlength_cons in *.
      rewrite (proj2 (Z.ltb_lt _ _)) by lia. wp_pure.
      apply (wp_load8 _ _ x).
      { rewrite Ho, decide_False by lia. by eapply bytes_mid. }
      wp_pure. apply wp_store8.
      { rewrite Ho, decide_False by lia. apply Hm. lia. }
      wp_pure. exists (length l2). split; [simpl; lia|]. exists (l1 ++ [x]), l2.
      rewrite <- app_assoc, zlength_app. change (zlength [x]) with 1.
      split; [done|]. split; [done|]. split; [do 2 f_equal; lia|].
      apply overwritten_step; [done|]. apply Forall_app in Hby as [_ Hby].
      by apply Forall_cons in Hby as [].
  - exists [], l. split; [done|]. split; [done|]. split; [do 2 f_equal; unfold zlength; simpl; lia|].
    intros a. change (zlength []) with 0. by rewrite decide_False by lia.
Qed.

Lemma copy_down_wp m dst src l :
  Forall is_byte l → bytes_at m src l → mapped m dst (zlength l) → src <= dst →
  wp (times (zlength l) copy_down_step (dst + zlength l, src + zlength l, zlength l)) m (λ r m',
    overwritten m dst l m' ∧ r = dst).
Proof.
  intros Hby Hb Hm Hov. pose proof (zlength_nonneg l) as Hl.
  apply (wp_loop (λ n st m', ∃ l1 l2, l = l1 ++ l2 ∧ n = length l1 ∧
    st = (dst + zlength l1, src + zlength l1, zlength l1) ∧
    overwritten m (dst + zlength l1) l2 m') _ _ (length l)); [| |unfold zlength; lia].
  - intros n st m' (l1 & l2 & -> & -> & -> & Ho). unfold copy_down_step.
    destruct l1 as [|x l1 _] using rev_ind.
    + simpl. wp_pure. split; [|change (zlength []) with 0; lia]. intros a. rewrite Ho. change (zlength []) with 0.
      by rewrite Z.add_0_r.
    + rewrite !zlength_app in *. change (zlength [x]) with 1 in *.
      pose proof (zlength_nonneg l1). pose proof (zlength_nonneg l2).
      rewrite (proj2 (Z.ltb_lt _ _)) by lia. wp_pure.
      replace (src + (zlength l1 + 1) - 1) with (src + zlength l1) by lia.
      replace (dst + (zlength l1 + 1) - 1) with (dst + zlength l1) by lia.
      apply (wp_load8 _ _ x).
      { rewrite Ho, decide_False by lia. rewrite <- app_assoc in Hb. by eapply bytes_mid. }
      wp_pure. apply wp_store8.
      { rewrite Ho, decide_False by lia. apply Hm. lia. }
      wp_pure. exists (length l1). split; [rewrite length_app; simpl; lia|]. exists l1, (x :: l2).
      split; [by rewrite <- app_assoc|]. split; [done|]. split; [do 2 f_equal; lia|].
      intros a. rewrite zlength_cons. destruct (decide (a = dst + zlength l1)) as [->|Hne].
      * rewrite lookup_insert_eq, decide_True by lia. rewrite Z.sub_diag. unfold zlookup. simpl.
        apply Forall_app in Hby as [Hby _]. apply Forall_app in Hby as [_ Hby].
        apply Forall_cons in Hby as [Hx _]. unfold is_byte in Hx. unfold u8.
        by rewrite Z.mod_small by lia.
      * rewrite lookup_insert_ne, Ho by done.
        destruct (decide (dst + (zlength l1 + 1) <= a < dst + (zlength l1 + 1) + zlength l2)).
        -- rewrite decide_True by lia. rewrite !zlookup_nat by lia.
           replace (Z.to_nat (a - (dst + zlength l1)))
             with (S (Z.to_nat (a - (dst + (zlength l1 + 1))))) by lia. done.
        -- by rewrite decide_False by lia.
  - exists l, []. rewrite app_nil_r. split; [done|]. split; [done|]. split; [done|].
    intros a. change (zlength []) with 0. by rewrite decide_False by lia.
Qed.

(** *** strlen and strchr *)

Lemma strlen_wp m p s :
  p ≠ 0 → str_at m p s → wp (strlen p) m (λ r m', m' = m ∧ r = zlength s).
Proof.
  intros Hp [Hb H0]. unfold strlen. wp_pure. apply wp_nonnull; [done|]. wp_pure.
  apply (wp_scan (λ n q m', m' = m ∧ ∃ s1 s2, s = s1 ++ s2 ∧ n = length s2 ∧ q = p + zlength s1)
    _ _ (length s)).
  - intros n q m' (-> & s1 & s2 & -> & -> & ->). unfold strlen_step. wp_pure.
    destruct s2 as [|c s2].
    + rewrite app_nil_r in *. apply (wp_load8 _ _ 0); [by eapply bytes_mid|]. simpl. wp_pure.
      split; [done|]. lia.
    + rewrite <- app_assoc in Hb. apply (wp_load8 _ _ c); [by eapply bytes_mid|].
      rewrite (proj2 (Z.eqb_neq c 0)) by set_solver. simpl. wp_pure. exists (length s2).
      split; [simpl; lia|]. split; [done|]. exists (s1 ++ [c]), s2. rewrite <- app_assoc.
      split; [done|]. split; [done|]. rewrite zlength_app. change (zlength [c]) with 1. lia.
  - split; [done|]. exists [], s. split; [done|]. split; [done|]. change (zlength []) with 0. lia.
  - apply bytes_size in Hb. rewrite length_app in Hb. lia.
Qed.

(** The first place of [c] in the string, its terminator included. *)
Lemma strchr_wp m p s c :
  p ≠ 0 → str_at m p s → is_byte c →
  wp (strchr p c) m (λ r m', m' = m ∧
    ((r = 0 ∧ c ≠ 0 ∧ c ∉ s) ∨
     (∃ s1 s2, s ++ [0] = s1 ++ c :: s2 ∧ c ∉ s1 ∧ r = p + zlength s1))).
Proof.
  intros Hp [Hb H0] Hc. unfold strchr. wp_pure. apply wp_nonnull; [done|].
  assert (u8 c = c) as -> by (unfold u8, is_byte in *; by rewrite Z.mod_small by lia).
  apply (wp_scan (λ n q m', m' = m ∧ ∃ s1 s2, s = s1 ++ s2 ∧ n = length s2 ∧
    q = p + zlength s1 ∧ c ∉ s1) _ _ (length s)).
  - intros n q m' (-> & s1 & s2 & -> & -> & -> & Hn). unfold strchr_step. wp_pure.
    destruct s2 as [|x s2].
    + rewrite app_nil_r in *. apply (wp_load8 _ _ 0); [by eapply bytes_mid|].
      destruct (Z.eqb_spec 0 c) as [<-|Hne]; simpl; wp_pure; (split; [done|]).
      * right. exists s1, []. done.
      * left. done.
    + rewrite <- app_assoc in Hb. apply (wp_load8 _ _ x); [by eapply bytes_mid|].
      destruct (Z.eqb_spec x c) as [->|Hne].
      * wp_pure. split; [done|]. right. exists s1, (s2 ++ [0]). by rewrite <- app_assoc.
      * rewrite (proj2 (Z.eqb_neq x 0)) by set_solver. wp_pure. exists (length s2).
        split; [simpl; lia|]. split; [done|]. exists (s1 ++ [x]), s2. rewrite <- app_assoc.
        split; [done|]. split; [done|]. rewrite zlength_app. change (zlength [x]) with 1.
        split; [lia|]. set_solver.
  - split; [done|]. exists [], s. split; [done|]. split; [done|]. change (zlength []) with 0.
    split; [lia|]. set_solver.
  - apply bytes_size in Hb. rewrite length_app in Hb. lia.
Qed.

(** Whether strchr finds a character in a set of delimiters. *)
Lemma strchr_in m p s c (Q : Z → mem → Prop) :
  0 < p → str_at m p s → is_byte c →
  (∀ r, (r = 0 → c ≠ 0 ∧ c ∉ s) → (r ≠ 0 → c = 0 ∨ c ∈ s) → Q r m) →
  wp (strchr p c) m Q.
Proof.
  intros Hp Hs Hc HQ. eapply wp_mono; [apply strchr_wp; [lia|done..]|].
  intros r m' [-> [(-> & H1 & H2)|(s1 & s2 & Heq & Hn & ->)]]; apply HQ; try done.
  - pose proof (zlength_nonneg s1). lia.
  - intros _. assert (Hin : c ∈ s ++ [0]) by (rewrite Heq; set_solver).
    apply elem_of_app in Hin as [|Hin]; [by right|left]. set_solver.
Qed.
End memory.

(** ** Properties *)

(** memmove copies the block as it was before the call, whichever way the two
    blocks overlap, and changes nothing else; but its result is [dst] only when
    [dst] is not below [src]: otherwise it is the end of the block. *)
Theorem memmove_spec m dst src l :
  Forall is_byte l → dst ≠ 0 → src ≠ 0 → bytes_at m src l → mapped m dst (zlength l) →
  ∃ m', memmove dst src (zlength l) m
          = Done (if dst <? src then dst + zlength l else dst, m') ∧
    overwritten m dst l m'.
Proof.
  intros Hby Hd Hs Hb Hm.
  assert (wp (memmove dst src (zlength l)) m (λ r m',
    r = (if dst <? src then dst + zlength l else dst) ∧ overwritten m dst l m')) as Hwp.
  { unfold memmove. wp_pure. apply wp_block_ok; [done|]. wp_pure. apply wp_block_ok; [done|].
    destruct (Z.ltb_spec dst src).
    - eapply wp_mono; [apply copy_up_wp; [done..|lia]|]. intros r m' [? ->]. done.
    - eapply wp_mono; [by apply copy_down_wp|]. intros r m' [? ->]. done. }
  apply wp_done in Hwp as (r & m' & He & -> & Ho). eauto.
Qed.

(** memcpy, for blocks that do not overlap. *)
Lemma memcpy_wp m dst src l :
  Forall is_byte l → dst ≠ 0 → src ≠ 0 → bytes_at m src l → mapped m dst (zlength l) →
  (dst <= src ∨ src + zlength l <= dst) →
  wp (memcpy dst src (zlength l)) m (λ r m', r = dst ∧ overwritten m dst l m').
Proof.
  intros Hby Hd Hs Hb Hm Hov. unfold memcpy. wp_pure. apply wp_block_ok; [done|]. wp_pure.
  apply wp_block_ok; [done|]. wp_pure. eapply wp_mono; [by apply copy_up_wp|].
  intros r m' [? ->]. by wp_pure.
Qed.

(** The lexicographic order on strings. *)
Fixpoint lex_cmp (s t : list Z) : Z :=
  match s, t with
  | [], [] => 0
  | [], _ => -1
  | _, [] => 1
  | x :: s, y :: t => if x <? y then -1 else if y <? x then 1 else lex_cmp s t
  end.

(** strcmp is the lexicographic order of the strings as unsigned characters. *)
Theorem strcmp_spec m p q s t :
  p ≠ 0 → q ≠ 0 → str_at m p s → str_at m q t → Forall is_byte s → Forall is_byte t →
  strcmp p q m = Done (lex_cmp s t, m).
Proof.
  intros Hp Hq [Hs Hs0] [Ht Ht0] Hbs Hbt. apply wp_run_eq. unfold strcmp. wp_pure.
  apply wp_nonnull; [done|]. wp_pure. apply wp_nonnull; [done|].
  apply (wp_scan (λ n ab m', m' = m ∧ ∃ k s2 t2, s = k ++ s2 ∧ t = k ++ t2 ∧
    n = length s2 ∧ ab = (p + zlength k, q + zlength k) ∧ lex_cmp s t = lex_cmp s2 t2) _ _ (length s)).
  - intros n ab m' (-> & k & s2 & t2 & -> & -> & -> & -> & Hc). rewrite Hc. clear Hc.
    rewrite <- app_assoc in Hs, Ht.
    apply Forall_app in Hbs as [_ Hbs]. apply Forall_app in Hbt as [_ Hbt].
    unfold strcmp_step. wp_pure.
    destruct s2 as [|x s2]; destruct t2 as [|y t2]; simpl app in *.
    + apply (wp_load8 _ _ 0); [by eapply bytes_mid|]. simpl. wp_pure.
      apply (wp_load8 _ _ 0); [by eapply bytes_mid|]. by wp_pure.
    + apply (wp_load8 _ _ 0); [by eapply bytes_mid|]. simpl. wp_pure.
      apply (wp_load8 _ _ y); [by eapply bytes_mid|]. wp_pure.
      apply Forall_cons in Hbt as [Hy _]. unfold is_byte in Hy.
      rewrite (proj2 (Z.ltb_lt 0 y)); [done|]. assert (y ≠ 0) by set_solver. lia.
    + apply (wp_load8 _ _ x); [by eapply bytes_mid|].
      rewrite (proj2 (Z.eqb_neq x 0)) by set_solver. simpl. wp_pure.
      apply (wp_load8 _ _ 0); [by eapply bytes_mid|].
      rewrite (proj2 (Z.eqb_neq x 0)) by set_solver. wp_pure.
      apply Forall_cons in Hbs as [Hx _]. unfold is_byte in Hx.
      by rewrite (proj2 (Z.ltb_ge x 0)) by lia.
    + apply (wp_load8 _ _ x); [by eapply bytes_mid|].
      rewrite (proj2 (Z.eqb_neq x 0)) by set_solver. simpl. wp_pure.
      apply (wp_load8 _ _ y); [by eapply bytes_mid|].
      destruct (Z.eqb_spec x y) as [->|Hne].
      * wp_pure. exists (length s2). split; [lia|]. split; [done|]. exists (k ++ [y]), s2, t2.
        rewrite <- !app_assoc, zlength_app, Z.ltb_irrefl. change (zlength [y]) with 1.
        split_and!; try done. f_equal; lia.
      * wp_pure. split; [|done]. destruct (Z.ltb_spec x y); [done|].
        by rewrite (proj2 (Z.ltb_lt y x)) by lia.
  - split; [done|]. exists [], s, t. change (zlength []) with 0. rewrite !Z.add_0_r. done.
  - apply bytes_size in Hs. rewrite length_app in Hs. lia.
Qed.

(** strlcpy stores at most [size - 1] characters and a terminator, nothing
    behind them, and returns the length of the source. *)
Theorem strlcpy_spec m dst src s size :
  dst ≠ 0 → src ≠ 0 → str_at m src s → Forall is_byte s → 0 < size → mapped m dst size →
  (dst + size <= src ∨ src + zlength s < dst) →
  ∃ m', strlcpy dst src size m = Done (zlength s, m') ∧
    overwritten m dst (take (Z.to_nat (size - 1)) s ++ [0]) m' ∧
    str_at m' dst (take (Z.to_nat (size - 1)) s).
Proof.
  intros Hd Hs Hstr Hby Hsz Hm Hov. pose proof Hstr as [Hb H0].
  set (t := take (Z.to_nat (size - 1)) s).
  assert (Ht : zlength t = if zlength s <? size - 1 then zlength s else size - 1).
  { unfold t, zlength. rewrite length_take. destruct (Z.ltb_spec (Z.of_nat (length s)) (size - 1)); lia. }
  assert (Hts : zlength t <= zlength s ∧ zlength t <= size - 1).
  { rewrite Ht. destruct (Z.ltb_spec (zlength s) (size - 1)); lia. }
  assert (Hsplit : s = t ++ drop (Z.to_nat (size - 1)) s) by (symmetry; apply take_drop).
  assert (wp (strlcpy dst src size) m (λ r m', r = zlength s ∧ overwritten m dst (t ++ [0]) m')) as Hwp.
  { unfold strlcpy. wp_pure. apply wp_nonnull; [done|]. wp_pure. apply wp_nonnull; [done|]. wp_pure.
    eapply wp_mono; [by apply strlen_wp|]. intros ? ? [-> ->]. wp_pure.
    rewrite (proj2 (Z.ltb_lt 0 size)) by lia. wp_pure. rewrite <- Ht.
    eapply wp_mono.
    { apply (memcpy_wp m dst src t); [|done|done| | |].
      - rewrite Hsplit in Hby. by apply Forall_app in Hby as [].
      - rewrite Hsplit, <- app_assoc in Hb. by apply bytes_app in Hb as [].
      - intros a Ha. apply Hm. lia.
      - lia. }
    intros r m' [-> Ho]. wp_pure. apply wp_store8.
    { rewrite Ho, decide_False by lia. apply Hm. pose proof (zlength_nonneg t). lia. }
    wp_pure. split; [done|]. apply overwritten_step; [done|]. unfold is_byte. lia. }
  apply wp_done in Hwp as (r & m' & He & -> & Ho). exists m'. split; [done|]. split; [done|].
  split.
  - intros i Hi. rewrite Ho, decide_True by lia. f_equal. lia.
  - intros Hin. apply H0. rewrite Hsplit. set_solver.
Qed.

(** The two loops of strtok_r. *)
Lemma skip_wp m p d s ds :
  0 < d → str_at m p s → str_at m d ds → Forall is_byte s →
  wp (scan (skip_step d) p) m (λ r m', m' = m ∧ ∃ k s2, s = k ++ s2 ∧ Forall (λ c, c ∈ ds) k ∧
    r = (p + zlength k, match s2 with [] => true | _ => false end) ∧
    match s2 with [] => True | c :: _ => c ∉ ds end).
Proof.
  intros Hd [Hb H0] Hds Hbs.
  apply (wp_scan (λ n q m', m' = m ∧ ∃ k s2, s = k ++ s2 ∧ n = length s2 ∧
  Forall (λ c, c ∈ ds) k ∧ q = p + zlength k) _ _ (length s)).
  - intros n q m' (-> & k & s2 & -> & -> & Hk & ->). unfold skip_step. wp_pure.
  rewrite <- app_assoc in Hb. apply Forall_app in Hbs as [_ Hbs].
  destruct s2 as [|c s2]; simpl app in *.
  + apply (wp_load8 _ _ 0); [by eapply bytes_mid|]. wp_pure.
    apply (strchr_in _ _ ds); [done|done|unfold is_byte; lia|]. intros r Hr0 Hr.
    destruct (Z.eqb_spec r 0) as [->|Hne]; simpl; [by destruct (Hr0 eq_refl)|].
    wp_pure. split; [done|]. by exists k, [].
  + apply (wp_load8 _ _ c); [by eapply bytes_mid|]. wp_pure.
    apply Forall_cons in Hbs as [Hc Hbs].
    apply (strchr_in _ _ ds); [done|done|done|]. intros r Hr0 Hr.
    destruct (Z.eqb_spec r 0) as [->|Hne]; simpl.
    * wp_pure. split; [done|]. exists k, (c :: s2). destruct (Hr0 eq_refl). done.
    * assert (c ≠ 0) by set_solver. rewrite (proj2 (Z.eqb_neq c 0)) by done. wp_pure.
      exists (length s2). split; [lia|]. split; [done|]. exists (k ++ [c]), s2.
      rewrite <- app_assoc, zlength_app. change (zlength [c]) with 1.
      split_and!; try done; [|lia]. apply Forall_app. split; [done|].
      repeat constructor. destruct (Hr Hne); done.
  - split; [done|]. exists [], s. change (zlength []) with 0. split_and!; try done. lia.
  - apply bytes_size in Hb. rewrite length_app in Hb. lia.
Qed.

Lemma token_wp m tok d c s2 ds :
  0 < d → str_at m tok (c :: s2) → str_at m d ds → Forall is_byte (c :: s2) → c ∉ ds →
  wp (scan (token_step d) tok) m (λ q m', m' = m ∧ ∃ t r, c :: s2 = t ++ r ∧ t ≠ [] ∧
    Forall (λ c, c ∉ ds) t ∧ q = tok + zlength t ∧
    match r with [] => True | x :: _ => x ∈ ds end).
Proof.
  intros Hd [Hb H0] Hds Hbs Hhd. simpl app in Hb.
  apply (wp_scan (λ n q m', m' = m ∧ ∃ t r, c :: s2 = t ++ r ∧ n = length r ∧
  Forall (λ c, c ∉ ds) t ∧ q = tok + zlength t) _ _ (length (c :: s2))).
  - intros n q m' (-> & t & r & Heq & -> & Ht & ->). unfold token_step. wp_pure.
  rewrite app_comm_cons, Heq, <- app_assoc in Hb. rewrite Heq in Hbs.
  apply Forall_app in Hbs as [_ Hbs]. destruct r as [|x r]; simpl app in *.
  + apply (wp_load8 _ _ 0); [by eapply bytes_mid|]. wp_pure.
    apply (strchr_in _ _ ds); [done|done|unfold is_byte; lia|]. intros r Hr0 Hr.
    destruct (Z.eqb_spec r 0) as [->|Hne]; [by destruct (Hr0 eq_refl)|].
    wp_pure. split; [done|]. exists t, []. rewrite app_nil_r in Heq. subst t.
    rewrite app_nil_r. done.
  + apply (wp_load8 _ _ x); [by eapply bytes_mid|]. wp_pure.
    apply Forall_cons in Hbs as [Hx _].
    assert (x ≠ 0).
    { intros ->. apply H0. rewrite Heq. set_solver. }
    apply (strchr_in _ _ ds); [done|done|done|]. intros y Hr0 Hr.
    destruct (Z.eqb_spec y 0) as [->|Hne].
    * wp_pure. exists (length r). split; [simpl; lia|]. split; [done|]. exists (t ++ [x]), r.
      rewrite <- app_assoc, zlength_app. change (zlength [x]) with 1.
      split_and!; try done; [|lia]. apply Forall_app. split; [done|].
      repeat constructor. by destruct (Hr0 eq_refl).
    * wp_pure. split; [done|]. exists t, (x :: r). destruct (Hr Hne) as [|Hxd]; [done|].
      split_and!; try done. intros ->. simpl in Heq. injection Heq as -> ->. done.
  - split; [done|]. exists [], (c :: s2). change (zlength []) with 0. split_and!; try done. lia.
  - apply bytes_size in Hb. rewrite app_comm_cons, length_app in Hb. lia.
Qed.

(** What one call of strtok_r does to the string [s]: it skips the delimiters
    [k], ends the token [t] in place and goes on behind it. *)
Definition tokenized (m : mem) (p : Z) (ds s : list Z) (tok save : Z) (m' : mem) : Prop :=
  ∃ k t r, s = k ++ t ++ r ∧
    Forall (λ c, c ∈ ds) k ∧ Forall (λ c, c ∉ ds) t ∧
    match r with [] => True | c :: _ => c ∈ ds ∧ t ≠ [] end ∧
    if decide (t = []) then tok = 0 ∧ save = p + zlength s ∧ m' = m
    else tok = p + zlength k ∧ str_at m' tok t ∧
         match r with
         | [] => save = p + zlength s ∧ m' = m
         | _ :: r' => save = tok + zlength t + 1 ∧ str_at m' save r' ∧
                      m' = <[tok + zlength t := 0]> m
         end.

Lemma strtok_r_wp m a save0 p d s ds :
  (if a =? 0 then save0 else a) = p → 0 < p → 0 < d → str_at m p s → str_at m d ds →
  Forall is_byte s → wp (strtok_r a d save0) m (λ res m', tokenized m p ds s (fst res) (snd res) m').
Proof.
  intros Ha Hp Hd Hs Hds Hbs. pose proof Hs as [Hb H0]. unfold tokenized.
  unfold strtok_r. wp_pure. apply wp_nonnull; [lia|]. wp_pure. rewrite Ha.
  apply wp_nonnull; [lia|]. wp_pure. eapply wp_mono; [by apply (skip_wp m p d s ds)|].
  intros [q fin] ? (-> & k & s2 & -> & Hk & Hq & Hhd). injection Hq as -> ->.
  destruct s2 as [|c s2].
  { wp_pure. exists k, [], []. rewrite !app_nil_r. split_and!; try done. }
  wp_pure. rewrite <- app_assoc in Hb. apply bytes_app in Hb as [_ Hb]. simpl app in Hb.
  apply Forall_app in Hbs as [_ Hbs]. set (tok := p + zlength k) in *.
  eapply wp_mono; [apply (token_wp m tok d c s2 ds); try done; split; [done|set_solver]|].
  intros q ? (-> & t & r & Heq & Htne & Ht & -> & Hr). rewrite Heq in *. wp_pure.
  rewrite app_comm_cons, Heq, <- app_assoc in Hb.
  assert (H0t : 0 ∉ t) by set_solver.
  destruct r as [|x r].
  - apply (wp_load8 _ _ 0); [by eapply bytes_mid|]. simpl. wp_pure. exists k, t, [].
    rewrite decide_False by done. split; [done|]. do 3 (split; [done|]). split; [done|].
    split; [done|]. split; [|done]. rewrite app_nil_r, zlength_app. simpl. unfold tok. lia.
  - simpl app in Hb. apply (wp_load8 _ _ x); [by eapply bytes_mid|].
    assert (x ≠ 0) by set_solver. rewrite (proj2 (Z.eqb_neq x 0)) by done. simpl. wp_pure.
    apply wp_store8; [eexists; by eapply bytes_mid|]. wp_pure. exists k, t, (x :: r).
    rewrite decide_False by done. split; [done|]. do 3 (split; [done|]). split; [done|]. simpl.
    pose proof (zlength_nonneg t).
    split; [|split; [done|split; [|done]]]; (split; [|set_solver]).
    + apply bytes_app. split; [|].
      * intros i Hi. rewrite lookup_insert_ne by lia. apply bytes_app in Hb as [Hb _]. by apply Hb.
      * intros i Hi. change (zlength [0]) with 1 in Hi. assert (i = 0) as -> by lia.
        rewrite Z.add_0_r. by rewrite lookup_insert_eq.
    + rewrite cons_middle in Hb. apply bytes_app in Hb as [_ Hb]. apply bytes_app in Hb as [_ Hb].
      change (zlength [x]) with 1 in Hb.
      intros i Hi. rewrite lookup_insert_ne by lia. by apply Hb.
Qed.

(** One call of strtok_r: it skips the delimiters [k], terminates the token [t]
    in place and saves the place behind it; at the end of the string it answers
    NULL and changes nothing. *)
Theorem strtok_r_spec m p d s ds :
  0 < p → 0 < d → str_at m p s → str_at m d ds → Forall is_byte s →
  ∃ tok save m', strtok_r p d 0 m = Done ((tok, save), m') ∧ tokenized m p ds s tok save m'.
Proof.
  intros Hp Hd Hs Hds Hbs. assert (Ha : (if p =? 0 then 0 else p) = p).
  { by rewrite (proj2 (Z.eqb_neq p 0)) by lia. }
  destruct (wp_run _ _ _ (strtok_r_wp m p 0 p d s ds Ha Hp Hd Hs Hds Hbs)) as ([tok save] & m' & H).
  eauto.
Qed.
