(* ===== verification/Filesys.v ===== *)
(** * Path names and the file system's entry points (filesys/filesys.c)

    Paths are parsed in place with strtok_r, in the memory of CString.v; every
    component but the last is looked up as a directory, and the last one is
    created, opened or removed. The directory calls of userprog/syscall.c, which
    do the same, are at the end. *)
From stdpp Require Import base numbers list sets gmap.
From Stdlib Require Import ZArith Lia.
From S2P Require Import Prelude Bytes Fat Volume Inode InodeData InodeGrow InodeTable File.
From S2P Require Import Directory CString.
Open Scope Z_scope.

(** The kernel's file system seen by one thread: its file objects, its memory,
    and its working directory ([thread_current ()->cwd]). *)
Record sys := Sys {
  y_k : kfs;
  y_mem : mem;
  y_cwd : Z;
}.

Definition on_k {A} : ST kfs A → ST sys A := zoom y_k (λ k s, Sys k (y_mem s) (y_cwd s)).
Definition on_mem {A} : ST mem A → ST sys A := zoom y_mem (λ m s, Sys (y_k s) m (y_cwd s)).

(** ** Paths *)

(** The loop of parse_path; [n] is the size of the caller's array, behind which
    a store is undefined. *)
Definition parse_step (slash n : Z) (st : Z * Z * list Z) : ST mem (Z * Z * list Z + list Z) :=
  let '(token, save, argv) := st in
  if negb (zlength argv <? n) then undef else
  if token =? 0 then mret (inr argv) else
  r ← strtok_r 0 slash save;
  mret (inl (fst r, snd r, argv ++ [token])).

(** parse_path: the tokens in [argv]; [slash] is the address of the literal. *)
Definition parse_path (target slash n : Z) : ST mem (list Z) :=
  r ← strtok_r target slash 0;
  scan (parse_step slash n) (fst r, snd r, []).

Definition is_root_path (path : Z) : ST mem bool := c ← load8 path; mret (c =? 47).

(** The bytes of a C string. *)
Definition c_string_step (st : Z * list Z) : ST mem (Z * list Z + list Z) :=
  let '(p, acc) := st in
  c ← load8 p; if c =? 0 then mret (inr acc) else mret (inl (p + 1, acc ++ [c])).
Definition c_string (p : Z) : ST mem (list Z) := scan c_string_step (p, []).

(** ** Entry points *)

Section entry.
(** The addresses of the literal [SLASH] and of the local buffer [cp_name], and
    what the local directory entries hold before they are read. *)
Context (slash cp_name : Z) (junk : dir_entry).

Definition good_cwd (cwd : Z) : ST kfs bool :=
  d ← get_dir cwd; i ← on_fs (get_inode (d_inode d)); mret (is_good_inode i).

(** Where a path starts. *)
Definition start_dir (is_root check : bool) : ST sys Z :=
  s ← get_st;
  let cwd := y_cwd s in
  if is_root || (cwd =? 0) then on_k dir_open_root else
  good ← (if check then on_k (good_cwd cwd) else mret true);
  if (good : bool) then on_k (dir_reopen cwd) else on_k dir_open_root.

(** The loop over all components but the last; [None] is the early return. *)
Fixpoint walk_path (cur_dir : Z) (l : list Z) : ST sys (option Z) :=
  match l with
  | [] => mret (Some cur_dir)
  | q :: l =>
      name ← on_mem (c_string q);
      inode ← on_k (dir_lookup cur_dir name junk);
      if inode =? 0 then mret None else
      i ← on_k (on_fs (get_inode inode));
      if negb (is_dir i) then mret None else
      _ ← on_k (dir_close cur_dir);
      cur_dir ← on_k (dir_open inode);
      walk_path cur_dir l
  end.

Definition filesys_create (name initial_size : Z) : ST sys bool :=
  is_root ← on_mem (is_root_path name);
  path_lst ← on_mem (parse_path name slash 128);
  match last path_lst with
  | None => mret false
  | Some last_name =>
      cur_dir ← start_dir is_root true;
      r ← walk_path cur_dir (removelast path_lst);
      match r with
      | None => mret false
      | Some cur_dir =>
          name ← on_mem (c_string last_name);
          if (cur_dir =? 0) || (14 <? zlength name) then mret false else
          r ← on_k (on_fs (on_vol (on_fat (fat_allocate 1))));
          let '(ok, clst) := r in
          if negb ok then mret false else
          f ← gets (λ s, v_fat (fs_vol (k_fs (y_k s))));
          let sector := cluster_to_sector f (default 0 clst) in
          ok ← on_k (on_fs (inode_create sector initial_size false));
          if negb ok then mret false else
          on_k (dir_add cur_dir name sector junk)
      end
  end.

Definition load_file_open (name : Z) : ST sys Z :=
  s ← get_st;
  let dir := y_cwd s in
  good ← (if dir =? 0 then mret false else on_k (good_cwd dir));
  dir ← (if (good : bool) then mret dir else
           dir ← on_k dir_open_root;
           _ ← modify (λ s, Sys (y_k s) (y_mem s) dir);
           mret dir);
  name ← on_mem (c_string name);
  inode ← (if negb (dir =? 0) then on_k (dir_lookup dir name junk) else mret 0);
  if inode =? 0 then mret 0 else on_k (file_open inode).

Definition filesys_open (name : Z) : ST sys Z :=
  is_root ← on_mem (is_root_path name);
  n ← on_mem (strlen name);
  if 128 <? n + 1 then undef else
  _ ← on_mem (memcpy cp_name name (n + 1));
  path_lst ← on_mem (parse_path cp_name slash 128);
  if (is_root : bool) && bool_decide (path_lst = []) then on_k dir_open_root else
  cur_dir ← start_dir is_root true;
  r ← walk_path cur_dir (removelast path_lst);
  match r with
  | None => mret 0
  | Some cur_dir =>
      last_name ← deref (last path_lst);
      name ← on_mem (c_string last_name);
      inode ← (if negb (cur_dir =? 0) then on_k (dir_lookup cur_dir name junk) else mret 0);
      if inode =? 0 then mret 0 else on_k (file_open inode)
  end.

(** inode.c: get_dir_sector and is_same_dir *)
Definition get_dir_sector (p : Z) : ST kfs Z :=
  d ← get_dir p; i ← on_fs (get_inode (d_inode d)); mret (i_sector i).
Definition is_same_dir (dir1 dir2 : Z) : ST kfs bool :=
  a ← get_dir_sector dir1; b ← get_dir_sector dir2; mret (a =? b).

Definition filesys_remove (name : Z) : ST sys bool :=
  is_root ← on_mem (is_root_path name);
  path_lst ← on_mem (parse_path name slash 128);
  match last path_lst with
  | None => mret false
  | Some remove_name =>
      cur_dir ← start_dir is_root false;
      r ← walk_path cur_dir (removelast path_lst);
      match r with
      | None => mret false
      | Some cur_dir =>
          name ← on_mem (c_string remove_name);
          find ← on_k (dir_lookup cur_dir name junk);
          if find =? 0 then mret false else
          find_dir ← on_k (dir_open find);
          s ← get_st;
          same ← on_k (is_same_dir find_dir (y_cwd s));
          if (same : bool) then
            _ ← on_k (dir_close find_dir);
            _ ← on_k (dir_close cur_dir);
            mret false
          else
            _ ← on_k (dir_close find_dir);
            success ← (if negb (cur_dir =? 0) then on_k (dir_remove cur_dir name junk)
                       else mret false);
            _ ← on_k (dir_close cur_dir);
            i ← on_k (on_fs (get_inode find));
            mret (if is_good_inode i && is_dir i then false else success)
      end
  end.
End entry.

(** ** Starting and formatting *)

Definition do_format : ST fsys unit :=
  _ ← on_vol fat_create;
  _ ← on_vol fat_close;
  create_root_dir_inode.

Definition filesys_init (format : bool) : ST fsys unit :=
  _ ← inode_init;
  _ ← on_vol fat_init;
  _ ← (if format then do_format else mret tt);
  on_vol fat_open.

Definition filesys_done : ST fsys unit := on_vol fat_close.

(** ** Parsing a path *)

(** The maximal runs without a delimiter; [cur] is the run being read. *)
Fixpoint tokens (ds cur s : list Z) : list (list Z) :=
  match s with
  | [] => if decide (cur = []) then [] else [cur]
  | c :: s =>
      if decide (c ∈ ds) then
        if decide (cur = []) then tokens ds [] s else cur :: tokens ds [] s
      else tokens ds (cur ++ [c]) s
  end.
Definition split_on (ds s : list Z) : list (list Z) := tokens ds [] s.

Section parsing.
Implicit Types (m : mem) (ds s t r k : list Z).

Lemma tokens_delims ds k s : Forall (λ c, c ∈ ds) k → tokens ds [] (k ++ s) = tokens ds [] s.
Proof.
  induction 1 as [|c k Hc _ IH]; simpl; [done|]. by rewrite decide_True.
Qed.
Lemma tokens_run ds cur t s : Forall (λ c, c ∉ ds) t → tokens ds cur (t ++ s) = tokens ds (cur ++ t) s.
Proof.
  intros Ht. revert cur. induction Ht as [|c t Hc _ IH]; intros cur; simpl; [by rewrite app_nil_r|].
  rewrite decide_False by done. rewrite IH. by rewrite <- app_assoc.
Qed.

Lemma str_at_frame m m' q t :
  str_at m q t → (∀ a, q <= a <= q + zlength t → m' !! a = m !! a) → str_at m' q t.
Proof.
  intros [Hb H0] Hm. split; [|done]. intros i Hi. rewrite Hm; [by apply Hb|].
  rewrite zlength_app in Hi. change (zlength [0]) with 1 in Hi. lia.
Qed.
Lemma str_at_nil m p s : str_at m p s → str_at m (p + zlength s) [].
Proof. intros [Hb _]. split; [|set_solver]. apply bytes_app in Hb as [_ Hb]. exact Hb. Qed.

(** The tokens found so far are strings, which end before the rest [r] of the
    path begins. *)
Definition parsed m (ps : list Z) (ts : list (list Z)) (lo hi : Z) : Prop :=
  Forall2 (λ q t, str_at m q t ∧ lo <= q ∧ q + zlength t <= hi) ps ts.

Lemma parsed_frame m m' ps ts lo hi hi' :
  parsed m ps ts lo hi → hi <= hi' → (∀ a, lo <= a <= hi → m' !! a = m !! a) → parsed m' ps ts lo hi'.
Proof.
  intros H Hhi Hm. eapply Forall2_impl; [exact H|]. intros q t (Hs & Hlo & Hle).
  split; [|lia]. eapply str_at_frame; [done|]. intros a Ha. apply Hm. lia.
Qed.

(** The state of the loop: the last token and the tokens before it, the rest
    [r] of the path at [save], and its end, which stays where it was. *)
Record parsing m0 (p d n : Z) (ds s : list Z) (tok save : Z) (argv : list Z) (r : list Z) m : Prop := {
  pa_done : ∃ ts, parsed m argv ts p save ∧
    (if decide (tok = 0) then r = [] ∧ split_on ds s = ts
     else ∃ t, str_at m tok t ∧ p <= tok ∧ tok + zlength t <= save ∧
       split_on ds s = ts ++ t :: split_on ds r);
  pa_rest : str_at m save r;
  pa_end : save + zlength r = p + zlength s;
  pa_low : p <= save;
  pa_bytes : Forall is_byte r;
  pa_frame : ∀ a, (a < p ∨ p + zlength s <= a) → m !! a = m0 !! a;
}.

Lemma zlookup_frame_delims m0 m p s d ds :
  str_at m0 d ds → (d + zlength ds < p ∨ p + zlength s <= d) →
  (∀ a, (a < p ∨ p + zlength s <= a) → m !! a = m0 !! a) → str_at m d ds.
Proof. intros Hd Hap Hf. eapply str_at_frame; [done|]. intros a Ha. apply Hf. lia. Qed.

(** One call of strtok_r takes the next token off the rest. *)
Lemma next_token m0 p d n ds s save argv r m m' tok' save' :
  0 < p → parsed m argv (take (length argv) (split_on ds s)) p save →
  split_on ds s = take (length argv) (split_on ds s) ++ split_on ds r →
  str_at m save r → save + zlength r = p + zlength s → p <= save → Forall is_byte r →
  (∀ a, (a < p ∨ p + zlength s <= a) → m !! a = m0 !! a) →
  tokenized m save ds r tok' save' m' →
  ∃ r', parsing m0 p d n ds s tok' save' argv r' m' ∧
    (if decide (tok' = 0) then True else (length r' < length r)%nat).
Proof.
  intros Hp Hdone Hspl Hr Hend Hlow Hby Hfr (k & t & r2 & -> & Hk & Ht & Hr2 & H).
  rewrite !zlength_app in Hend. pose proof (zlength_nonneg k). pose proof (zlength_nonneg t).
  pose proof (zlength_nonneg r2). unfold split_on in Hspl at 3.
  rewrite tokens_delims, tokens_run in Hspl by done. simpl in Hspl. case_decide as Ht0.
  - subst t. destruct H as (-> & -> & ->). destruct r2 as [|c r2]; [|by destruct Hr2].
    simpl in Hspl. rewrite app_nil_r in Hspl. exists []. rewrite decide_True by done. split; [|done].
    rewrite !app_nil_r in *. split; [|by apply str_at_nil| | |constructor|done].
    + exists (take (length argv) (split_on ds s)). rewrite decide_True by done. split; [|done].
      eapply parsed_frame; [done|lia|done].
    + change (zlength []) with 0. change (zlength []) with 0 in Hend. lia.
    + lia.
  - destruct H as (-> & Hstr & Hrest).
    assert (Htl : 1 <= zlength t) by (destruct t; [done|]; rewrite zlength_cons; pose proof (zlength_nonneg t); lia).
    assert (Hn0 : save + zlength k ≠ 0) by lia. destruct r2 as [|c r2].
    + destruct Hrest as [-> ->]. exists []. rewrite decide_False by done.
      split; [|rewrite !length_app; destruct t; [done|simpl; lia]].
      simpl in Hspl. rewrite decide_False in Hspl by done.
      rewrite !zlength_app. change (zlength []) with 0 in *.
      split; [|pose proof (str_at_nil _ _ _ Hr) as He; rewrite !zlength_app in He; exact He|change (zlength []) with 0; lia|lia|constructor|done].
      exists (take (length argv) (split_on ds s)). rewrite decide_False by done.
      split; [eapply parsed_frame; [done|lia|done]|]. exists t. split; [done|]. split; [lia|].
      split; [lia|]. exact Hspl.
    + destruct Hr2 as [Hc _]. destruct Hrest as (-> & Hr' & ->). exists r2.
      rewrite decide_False by done. rewrite zlength_cons in Hend. pose proof (zlength_nonneg r2).
      split; [|rewrite !length_app; simpl; lia]. simpl in Hspl.
      rewrite decide_True, decide_False in Hspl by done.
      apply Forall_app in Hby as [_ [_ [_ Hby]%Forall_cons]%Forall_app].
      split; [|done|lia|lia|done|].
      * exists (take (length argv) (split_on ds s)). rewrite decide_False by done. split.
        { eapply parsed_frame; [done|lia|]. intros a Ha. rewrite lookup_insert_ne by lia. done. }
        exists t. split; [done|]. split; [lia|]. split; [lia|]. exact Hspl.
      * intros a Ha. rewrite lookup_insert_ne by lia. by apply Hfr.
Qed.
End parsing.

(** The loop of parse_path, with any delimiters [ds]: pointers to the tokens of
    [s], in order and each null-terminated in place; nothing else changes. *)
Lemma parse_wp m p d n s ds :
  0 < p → 0 < d → str_at m p s → str_at m d ds → Forall is_byte s → Forall is_byte ds →
  (d + zlength ds < p ∨ p + zlength s <= d) → zlength (split_on ds s) < n →
  wp (parse_path p d n) m (λ argv m', parsed m' argv (split_on ds s) p (p + zlength s) ∧
    ∀ a, (a < p ∨ p + zlength s <= a) → m' !! a = m !! a).
Proof.
  intros Hp Hd Hs Hds Hby Hbd Hap Hn. pose proof (zlength_nonneg s).
  unfold parse_path. wp_step. eapply wp_mono.
  { apply (strtok_r_wp m p 0 p d s ds); try done. by rewrite (proj2 (Z.eqb_neq p 0)) by lia. }
  intros [tok save] m1 Htk. simpl in Htk.
  destruct (next_token m p d n ds s p [] s m m1 tok save) as (r1 & Hpa & Hlen);
    [done|by constructor|done|done|done|lia|done|done|done|].
  apply (wp_scan (λ k st m', let '(tok, save, argv) := st in ∃ r,
    k = (if decide (tok = 0%Z) then 0 else S (length r))%nat ∧
    parsing m p d n ds s tok save argv r m') _ _
    (if decide (tok = 0%Z) then 0 else S (length r1))%nat); [|by exists r1|].
  - intros k [[tk sv] argv] m2 (r & -> & Hpa2). unfold parse_step.
    destruct Hpa2 as [(ts & Hdone & Htk2) Hrest Hend Hlow Hby2 Hfr].
    pose proof (Forall2_length _ _ _ Hdone) as Hlts. destruct (decide (tk = 0)) as [->|Hne].
    + destruct Htk2 as [-> Hspl]. rewrite <- Hspl in Hlts.
      rewrite (proj2 (Z.ltb_lt _ _)) by (unfold zlength in *; lia). simpl. wp_pure.
      split; [|done]. rewrite Hspl. eapply Forall2_impl; [exact Hdone|].
      change (zlength []) with 0 in Hend. intros q t (Hq & Hlo & Hhi). split; [done|lia].
    + destruct Htk2 as (t & Hst & Hplo & Hphi & Hspl).
      rewrite Hspl in Hn. rewrite zlength_app, zlength_cons in Hn.
      pose proof (zlength_nonneg (split_on ds r)).
      rewrite (proj2 (Z.ltb_lt _ _)) by (unfold zlength in *; lia). simpl.
      rewrite (proj2 (Z.eqb_neq tk 0)) by done. wp_pure.
      assert (Hds2 : str_at m2 d ds).
      { eapply (zlookup_frame_delims m m2 p s); [done|exact Hap|exact Hfr]. }
      eapply wp_mono; [apply (strtok_r_wp m2 0 sv sv d r ds); [done|lia|done..]|].
      intros [tk3 sv3] m3 Htk3. simpl in *. wp_pure.
      assert (Htake : take (length (argv ++ [tk])) (split_on ds s) = ts ++ [t]).
      { assert (split_on ds s = (ts ++ [t]) ++ split_on ds r) as ->
          by (rewrite Hspl; by rewrite <- app_assoc).
        apply take_app_length'. rewrite !length_app. simpl. lia. }
      destruct (next_token m p d n ds s sv (argv ++ [tk]) r m2 m3 tk3 sv3) as (r3 & Hpa3 & Hl3);
        try done.
      { rewrite Htake. apply Forall2_app; [done|]. constructor; [done|constructor]. }
      { rewrite Htake, Hspl. by rewrite <- app_assoc. }
      eexists. split; [|exists r3; split; [reflexivity|exact Hpa3]].
      destruct (decide (tk3 = 0)); lia.
  - destruct Hpa as [_ [Hb _] _ _ _ _]. apply bytes_size in Hb. rewrite length_app in Hb.
    simpl in Hb. destruct (decide (tok = 0)); lia.
Qed.

(** parse_path stores pointers to the components of the path, in order and each
    null-terminated in place, and changes nothing outside of the path. *)
Theorem parse_path_spec m p d n s :
  0 < p → 0 < d → str_at m p s → str_at m d [47] → Forall is_byte s →
  (d + 1 < p ∨ p + zlength s <= d) → zlength (split_on [47] s) < n →
  ∃ argv m', parse_path p d n m = Done (argv, m') ∧
    Forall2 (str_at m') argv (split_on [47] s) ∧
    ∀ a, (a < p ∨ p + zlength s <= a) → m' !! a = m !! a.
Proof.
  intros Hp Hd Hs Hds Hby Hap Hn.
  destruct (wp_run _ _ _ (parse_wp m p d n s [47] Hp Hd Hs Hds Hby ltac:(by repeat constructor) Hap Hn)) as (argv & m' & He & H1 & H2).
  exists argv, m'. split; [done|]. split; [|done]. eapply Forall2_impl; [exact H1|]. by intros q t [? _].
Qed.

(** ** Directories by system calls (userprog/syscall.c)

    sys_mkdir and sys_chdir, for a path that the kernel can reach; they parse it in
    place. *)

Definition MAX_PATH : Z := 128.

(** inode.c *)
Definition is_dir_removed (dir : Z) : ST kfs bool :=
  d ← get_dir dir; i ← on_fs (get_inode (d_inode d)); mret (removed i).

Section calls.
(** The address of the literal "/", what local directory entries hold, and what
    [new_dir] of sys_mkdir holds before it is set. *)
Context (slash : Z) (junk : dir_entry) (new_dir_junk : Z).

(** The loop that both have: the directory where it ends, or false and the one
    where it stops. *)
Fixpoint walk_dirs (cur_dir : Z) (l : list Z) : ST sys (bool * Z) :=
  match l with
  | [] => mret (true, cur_dir)
  | q :: l =>
      name ← on_mem (c_string q);
      inode ← on_k (dir_lookup cur_dir name junk);
      if inode =? 0 then mret (false, cur_dir) else
      i ← on_k (on_fs (get_inode inode));
      if negb (is_dir i) then mret (false, cur_dir) else
      _ ← on_k (dir_close cur_dir);
      cur_dir ← on_k (dir_open inode);
      walk_dirs cur_dir l
  end.

(** The label fail. *)
Definition mkdir_fail (new_dir cur_dir : Z) : ST sys bool :=
  _ ← on_k (dir_close new_dir);
  _ ← on_k (dir_close cur_dir);
  mret false.

Definition sys_mkdir (dir : Z) : ST sys bool :=
  is_root ← on_mem (is_root_path dir);
  path_lst ← on_mem (parse_path dir slash MAX_PATH);
  match last path_lst with
  | None => mret false
  | Some last_name =>
      cur_dir ← start_dir is_root false;
      r ← walk_dirs cur_dir (removelast path_lst);
      let '(ok, cur_dir) := r in
      if negb ok then mkdir_fail new_dir_junk cur_dir else
      clst ← on_k (on_fs (on_vol (on_fat (fat_create_chain 0))));
      f ← gets (λ s, v_fat (fs_vol (k_fs (y_k s))));
      let sector := cluster_to_sector f clst in
      ok ← on_k (on_fs (dir_create sector 16));
      if negb ok then mkdir_fail new_dir_junk cur_dir else
      i ← on_k (on_fs (inode_open sector));
      new_dir ← on_k (dir_open i);
      name ← on_mem (c_string last_name);
      ok ← on_k (dir_add cur_dir name sector junk);
      if negb ok then mkdir_fail new_dir cur_dir else
      ok ← on_k (dir_add new_dir [46] sector junk);
      if negb ok then mkdir_fail new_dir cur_dir else
      parent ← on_k (get_dir_sector cur_dir);
      ok ← on_k (dir_add new_dir [46; 46] parent junk);
      if negb ok then mkdir_fail new_dir cur_dir else
      _ ← on_k (dir_close new_dir);
      _ ← on_k (dir_close cur_dir);
      mret true
  end.

Definition set_cwd (d : Z) : ST sys unit := modify (λ s, Sys (y_k s) (y_mem s) d).

Definition sys_chdir (dir : Z) : ST sys bool :=
  is_root ← on_mem (is_root_path dir);
  path_lst ← on_mem (parse_path dir slash MAX_PATH);
  s ← get_st;
  if is_root && bool_decide (path_lst = []) then
    _ ← on_k (dir_close (y_cwd s));
    d ← on_k dir_open_root;
    _ ← set_cwd d;
    mret true
  else
    cur_dir ← start_dir is_root false;
    r ← walk_dirs cur_dir path_lst;
    let '(ok, cur_dir) := r in
    if negb ok then mret false else
    gone ← on_k (is_dir_removed cur_dir);
    if (gone : bool) then mret false else
    _ ← on_k (dir_close (y_cwd s));
    _ ← set_cwd cur_dir;
    mret true.
End calls.
