(* ===== verification/DList.v ===== *)
(** * Doubly linked lists (lib/kernel/list.c)

    List elements in a heap by address, with the pointer surgery, the
    assertions and the loops of the code. *)
From stdpp Require Import base numbers list sets gmap.
From Stdlib Require Import ZArith Lia.
From S2P Require Import Prelude.
Open Scope Z_scope.

(** struct list_elem *)
Record list_elem := Elem { prev : Z; next : Z }.

Abbreviation heap := (gmap Z list_elem).

(** struct list is the element [head] at its own address and [tail] behind it. *)
Definition tail_of (l : Z) : Z := l + 16.

(** A pointer to one of the two links of an element. *)
Inductive link := Prev (e : Z) | Next (e : Z).

Definition load (e : Z) : ST heap list_elem := h ← get_st; deref (h !! e).
Definition get_link (k : link) : ST heap Z :=
  match k with
  | Prev e => x ← load e; mret (prev x)
  | Next e => x ← load e; mret (next x)
  end.
Definition set_link (k : link) (v : Z) : ST heap unit :=
  match k with
  | Prev e => x ← load e; modify <[e := Elem v (next x)]>
  | Next e => x ← load e; modify <[e := Elem (prev x) v]>
  end.

(** Loops that walk over elements end after as many turns as there are
    elements in memory. *)
Definition fuel_of (h : heap) : nat := S (size h).
Definition walk {A B} (body : A → ST heap (A + B)) (a : A) : ST heap B :=
  h ← get_st; loop (fuel_of h) body a.

Definition is_head (elem : Z) : ST heap bool :=
  if elem =? 0 then mret false else
  x ← load elem; mret ((prev x =? 0) && negb (next x =? 0)).
Definition is_interior (elem : Z) : ST heap bool :=
  if elem =? 0 then mret false else
  x ← load elem; mret (negb (prev x =? 0) && negb (next x =? 0)).
Definition is_tail (elem : Z) : ST heap bool :=
  if elem =? 0 then mret false else
  x ← load elem; mret (negb (prev x =? 0) && (next x =? 0)).

Definition not_null (p : Z) : ST heap unit := assert_st (negb (p =? 0)).

Definition list_init (list : Z) : ST heap unit :=
  _ ← not_null list;
  _ ← modify <[list := Elem 0 (tail_of list)]>;
  modify <[tail_of list := Elem list 0]>.

Definition list_begin (list : Z) : ST heap Z := _ ← not_null list; get_link (Next list).

Definition list_next (elem : Z) : ST heap Z :=
  b1 ← is_head elem;
  b2 ← is_interior elem;
  _ ← assert_st (b1 || b2);
  get_link (Next elem).

Definition list_end (list : Z) : ST heap Z := _ ← not_null list; mret (tail_of list).
Definition list_rbegin (list : Z) : ST heap Z :=
  _ ← not_null list; get_link (Prev (tail_of list)).

Definition list_prev (elem : Z) : ST heap Z :=
  b1 ← is_interior elem;
  b2 ← is_tail elem;
  _ ← assert_st (b1 || b2);
  get_link (Prev elem).

Definition list_rend (list : Z) : ST heap Z := _ ← not_null list; mret list.
Definition list_head (list : Z) : ST heap Z := _ ← not_null list; mret list.
Definition list_tail (list : Z) : ST heap Z := _ ← not_null list; mret (tail_of list).

Definition list_insert (before elem : Z) : ST heap unit :=
  b1 ← is_interior before;
  b2 ← is_tail before;
  _ ← assert_st (b1 || b2);
  _ ← not_null elem;
  p ← get_link (Prev before);
  _ ← set_link (Prev elem) p;
  _ ← set_link (Next elem) before;
  p ← get_link (Prev before);
  _ ← set_link (Next p) elem;
  set_link (Prev before) elem.

Definition list_splice (before first last : Z) : ST heap unit :=
  b1 ← is_interior before;
  b2 ← is_tail before;
  _ ← assert_st (b1 || b2);
  if first =? last then mret tt else
  last ← list_prev last;
  b ← is_interior first;
  _ ← assert_st b;
  b ← is_interior last;
  _ ← assert_st b;
  (* remove first ... last *)
  p ← get_link (Prev first);
  n ← get_link (Next last);
  _ ← set_link (Next p) n;
  n ← get_link (Next last);
  p ← get_link (Prev first);
  _ ← set_link (Prev n) p;
  (* put first ... last before before *)
  p ← get_link (Prev before);
  _ ← set_link (Prev first) p;
  _ ← set_link (Next last) before;
  p ← get_link (Prev before);
  _ ← set_link (Next p) first;
  set_link (Prev before) last.

Definition list_push_front (list elem : Z) : ST heap unit :=
  b ← list_begin list; list_insert b elem.
Definition list_push_back (list elem : Z) : ST heap unit :=
  e ← list_end list; list_insert e elem.

Definition list_remove (elem : Z) : ST heap Z :=
  b ← is_interior elem;
  _ ← assert_st b;
  p ← get_link (Prev elem);
  n ← get_link (Next elem);
  _ ← set_link (Next p) n;
  n ← get_link (Next elem);
  p ← get_link (Prev elem);
  _ ← set_link (Prev n) p;
  get_link (Next elem).

Definition list_empty (list : Z) : ST heap bool :=
  b ← list_begin list; e ← list_end list; mret (b =? e).

Definition list_front (list : Z) : ST heap Z :=
  b ← list_empty list; _ ← assert_st (negb b); get_link (Next list).
Definition list_back (list : Z) : ST heap Z :=
  b ← list_empty list; _ ← assert_st (negb b); get_link (Prev (tail_of list)).

Definition list_pop_front (list : Z) : ST heap Z :=
  front ← list_front list; _ ← list_remove front; mret front.
Definition list_pop_back (list : Z) : ST heap Z :=
  back ← list_back list; _ ← list_remove back; mret back.

Definition size_step (list : Z) (st : Z * Z) : ST heap (Z * Z + Z) :=
  let '(e, cnt) := st in
  fin ← list_end list;
  if e =? fin then mret (inr cnt) else
  e ← list_next e;
  mret (inl (e, u64 (cnt + 1))).

Definition list_size (list : Z) : ST heap Z :=
  e ← list_begin list; walk (size_step list) (e, 0).

Definition swap (a b : link) : ST heap unit :=
  t ← get_link a;
  v ← get_link b;
  _ ← set_link a v;
  set_link b t.

Definition reverse_step (list : Z) (e : Z) : ST heap (Z + unit) :=
  fin ← list_end list;
  if e =? fin then mret (inr tt) else
  _ ← swap (Prev e) (Next e);
  e ← get_link (Prev e);
  mret (inl e).

Definition list_reverse (list : Z) : ST heap unit :=
  b ← list_empty list;
  if (b : bool) then mret tt else
  e ← list_begin list;
  _ ← walk (reverse_step list) e;
  _ ← swap (Next list) (Prev (tail_of list));
  n ← get_link (Next list);
  p ← get_link (Prev (tail_of list));
  swap (Prev n) (Next p).

(** ** Operations with an order *)

Section ordered.
(** list_less_func with its auxiliary data; it does not change the lists. *)
Context (less : Z → Z → bool).

Definition is_sorted_step (b : Z) (a : Z) : ST heap (Z + bool) :=
  a ← list_next a;
  if a =? b then mret (inr true) else
  p ← list_prev a;
  if less a p then mret (inr false) else mret (inl a).

Definition is_sorted (a b : Z) : ST heap bool :=
  if a =? b then mret true else walk (is_sorted_step b) a.

Definition end_of_run_step (b : Z) (a : Z) : ST heap (Z + Z) :=
  a ← list_next a;
  if a =? b then mret (inr a) else
  p ← list_prev a;
  if less a p then mret (inr a) else mret (inl a).

Definition find_end_of_run (a b : Z) : ST heap Z :=
  _ ← not_null a;
  _ ← not_null b;
  _ ← assert_st (negb (a =? b));
  walk (end_of_run_step b) a.

Definition merge_step (b1 : Z) (st : Z * Z) : ST heap (Z * Z + unit) :=
  let '(a0, a1b0) := st in
  if negb (a0 =? a1b0) && negb (a1b0 =? b1) then
    if negb (less a1b0 a0) then
      a0 ← list_next a0;
      mret (inl (a0, a1b0))
    else
      a1b0 ← list_next a1b0;
      p ← list_prev a1b0;
      _ ← list_splice a0 p a1b0;
      mret (inl (a0, a1b0))
  else mret (inr tt).

Definition inplace_merge (a0 a1b0 b1 : Z) : ST heap unit :=
  _ ← not_null a0;
  _ ← not_null a1b0;
  _ ← not_null b1;
  s ← is_sorted a0 a1b0;
  _ ← assert_st s;
  s ← is_sorted a1b0 b1;
  _ ← assert_st s;
  walk (merge_step b1) (a0, a1b0).

(** One turn of list_sort's inner loop, over [a0] and [output_run_cnt]. *)
Definition sort_pass_step (list : Z) (st : Z * Z) : ST heap (Z * Z + Z) :=
  let '(a0, output_run_cnt) := st in
  fin ← list_end list;
  if a0 =? fin then mret (inr output_run_cnt) else
  let output_run_cnt := output_run_cnt + 1 in
  fin ← list_end list;
  a1b0 ← find_end_of_run a0 fin;
  if a1b0 =? fin then mret (inr output_run_cnt) else
  b1 ← find_end_of_run a1b0 fin;
  _ ← inplace_merge a0 a1b0 b1;
  mret (inl (b1, output_run_cnt)).

(** One turn of its outer loop. *)
Definition sort_step (list : Z) (_ : unit) : ST heap (unit + unit) :=
  a0 ← list_begin list;
  output_run_cnt ← walk (sort_pass_step list) (a0, 0);
  if 1 <? output_run_cnt then mret (inl tt) else mret (inr tt).

Definition list_sort (list : Z) : ST heap unit :=
  _ ← not_null list;
  _ ← walk (sort_step list) tt;
  a ← list_begin list;
  b ← list_end list;
  s ← is_sorted a b;
  assert_st s.

Definition ordered_step (list elem : Z) (e : Z) : ST heap (Z + Z) :=
  fin ← list_end list;
  if e =? fin then mret (inr e) else
  if less elem e then mret (inr e) else
  e ← list_next e;
  mret (inl e).

Definition list_insert_ordered (list elem : Z) : ST heap unit :=
  _ ← not_null list;
  _ ← not_null elem;
  e ← list_begin list;
  e ← walk (ordered_step list elem) e;
  list_insert e elem.

Definition unique_step (list duplicates : Z) (elem : Z) : ST heap (Z + unit) :=
  next ← list_next elem;
  fin ← list_end list;
  if next =? fin then mret (inr tt) else
  if negb (less elem next) && negb (less next elem) then
    _ ← list_remove next;
    _ ← (if negb (duplicates =? 0) then list_push_back duplicates next else mret tt);
    mret (inl elem)
  else mret (inl next).

Definition list_unique (list duplicates : Z) : ST heap unit :=
  _ ← not_null list;
  b ← list_empty list;
  if (b : bool) then mret tt else
  elem ← list_begin list;
  walk (unique_step list duplicates) elem.

Definition best_step (better : Z → Z → bool) (list : Z) (st : Z * Z) : ST heap (Z * Z + Z) :=
  let '(e, best) := st in
  fin ← list_end list;
  if e =? fin then mret (inr best) else
  let best := if better e best then e else best in
  e ← list_next e;
  mret (inl (e, best)).

Definition list_max (list : Z) : ST heap Z :=
  max ← list_begin list;
  fin ← list_end list;
  if max =? fin then mret max else
  e ← list_next max;
  walk (best_step (λ e max, less max e) list) (e, max).

Definition list_min (list : Z) : ST heap Z :=
  min ← list_begin list;
  fin ← list_end list;
  if min =? fin then mret min else
  e ← list_next min;
  walk (best_step (λ e min, less e min) list) (e, min).
End ordered.

(** ** Lists in the heap *)

(** An element with its two neighbours. *)
Definition place (h : heap) (a p n : Z) : Prop := h !! a = Some (Elem p n).

(** The elements [l] are linked in this order, between [p] and [n]. *)
Fixpoint seg (h : heap) (p : Z) (l : list Z) (n : Z) : Prop :=
  match l with
  | [] => True
  | a :: l' => place h a p (default n (head l')) ∧ seg h a l' n
  end.

(** A list with its sentinels. *)
Definition nodes (ls : Z) (xs : list Z) : list Z := ls :: xs ++ [tail_of ls].

Record ring (h : heap) (l : list Z) : Prop := {
  ring_seg : seg h 0 l 0;
  ring_nodup : NoDup l;
  ring_null : Forall (λ a, a ≠ 0) l;
}.

(** The struct list at [ls] holds the elements [xs]. *)
Definition dlist (h : heap) (ls : Z) (xs : list Z) : Prop := ring h (nodes ls xs).

(** [h'] agrees with [h] on everything but the elements [l], and has the same
    elements. *)
Definition outside (l : list Z) (h h' : heap) : Prop :=
  (∀ a, a ∉ l → h' !! a = h !! a) ∧ dom h' = dom h.

Section segs.
Implicit Types (h : heap) (l : list Z) (a b e p n : Z).

Lemma seg_app h p l1 a l2 n :
  seg h p (l1 ++ a :: l2) n ↔
  seg h p l1 a ∧ place h a (default p (last l1)) (default n (head l2)) ∧ seg h a l2 n.
Proof.
  revert p. induction l1 as [|x l1 IH]; intros p; [simpl; tauto|].
  change (place h x p (default n (head (l1 ++ a :: l2))) ∧ seg h x (l1 ++ a :: l2) n ↔
    (place h x p (default a (head l1)) ∧ seg h x l1 a) ∧
    place h a (default p (last (x :: l1))) (default n (head l2)) ∧ seg h a l2 n).
  rewrite IH. replace (default p (last (x :: l1))) with (default x (last l1))
    by (rewrite last_cons; by destruct (last l1)).
  replace (default n (head (l1 ++ a :: l2))) with (default a (head l1)) by (by destruct l1).
  tauto.
Qed.

Lemma seg_frame h h' p l n :
  (∀ a, a ∈ l → h' !! a = h !! a) → seg h p l n → seg h' p l n.
Proof.
  revert p. induction l as [|a l IH]; intros p Hl; [done|]. simpl.
  intros [Hp Hs]. unfold place. rewrite Hl by set_solver. split; [done|].
  apply IH; [set_solver|done].
Qed.

Lemma ring_place h l1 a l2 :
  ring h (l1 ++ a :: l2) → place h a (default 0 (last l1)) (default 0 (head l2)).
Proof. intros [Hs _ _]. by apply seg_app in Hs as (_ & ? & _). Qed.

Lemma ring_ne h l a : ring h l → a ∈ l → a ≠ 0.
Proof. intros [_ _ Hn] Ha. exact (proj1 (Forall_forall _ _) Hn a Ha). Qed.

Lemma outside_refl l h : outside l h h.
Proof. done. Qed.
Lemma outside_trans l h1 h2 h3 : outside l h1 h2 → outside l h2 h3 → outside l h1 h3.
Proof. intros [H1 D1] [H2 D2]. split; [|congruence]. intros a Ha. by rewrite H2, H1. Qed.
Lemma outside_sub l l' h h' : l ⊆ l' → outside l h h' → outside l' h h'.
Proof. intros Hs [H D]. split; [|done]. intros a Ha. apply H. set_solver. Qed.
Lemma outside_insert l h h' a x :
  outside l h h' → a ∈ l → a ∈ dom h → outside l h (<[a := x]> h').
Proof.
  intros [H D] Ha Hd. split.
  - intros b Hb. rewrite lookup_insert_ne by set_solver. by apply H.
  - rewrite dom_insert_lookup_L; [done|]. apply elem_of_dom. by rewrite D.
Qed.

(** A list is not touched by changes elsewhere. *)
Lemma ring_outside l l' h h' : outside l h h' → ring h l' → l' ## l → ring h' l'.
Proof.
  intros [Ho _] [Hl Hnd Hnu] Hd. split; [|done..]. eapply seg_frame; [|done].
  intros a Ha. apply Ho. set_solver.
Qed.
End segs.

(** ** Symbolic execution *)

Section exec.
Implicit Types (h : heap) (a b e p n v : Z).

Lemma wp_load h e p n (Q : list_elem → heap → Prop) :
  place h e p n → Q (Elem p n) h → wp (load e) h Q.
Proof. intros Hp HQ. unfold load. wp_pure. by wp_step. Qed.

Lemma wp_get_prev h e p n (Q : Z → heap → Prop) :
  place h e p n → Q p h → wp (get_link (Prev e)) h Q.
Proof. intros Hp HQ. simpl. wp_pure. eapply wp_load; [done|]. by wp_pure. Qed.
Lemma wp_get_next h e p n (Q : Z → heap → Prop) :
  place h e p n → Q n h → wp (get_link (Next e)) h Q.
Proof. intros Hp HQ. simpl. wp_pure. eapply wp_load; [done|]. by wp_pure. Qed.
Lemma wp_set_prev h e p n v (Q : unit → heap → Prop) :
  place h e p n → Q tt (<[e := Elem v n]> h) → wp (set_link (Prev e) v) h Q.
Proof. intros Hp HQ. simpl. wp_pure. eapply wp_load; [done|]. by wp_pure. Qed.
Lemma wp_set_next h e p n v (Q : unit → heap → Prop) :
  place h e p n → Q tt (<[e := Elem p v]> h) → wp (set_link (Next e) v) h Q.
Proof. intros Hp HQ. simpl. wp_pure. eapply wp_load; [done|]. by wp_pure. Qed.

Lemma wp_is_head h e p n (Q : bool → heap → Prop) :
  e ≠ 0 → place h e p n → Q ((p =? 0) && negb (n =? 0)) h → wp (is_head e) h Q.
Proof.
  intros He Hp HQ. unfold is_head. rewrite (proj2 (Z.eqb_neq _ _)) by done. wp_pure.
  eapply wp_load; [done|]. by wp_pure.
Qed.
Lemma wp_is_interior h e p n (Q : bool → heap → Prop) :
  e ≠ 0 → place h e p n → Q (negb (p =? 0) && negb (n =? 0)) h → wp (is_interior e) h Q.
Proof.
  intros He Hp HQ. unfold is_interior. rewrite (proj2 (Z.eqb_neq _ _)) by done. wp_pure.
  eapply wp_load; [done|]. by wp_pure.
Qed.
Lemma wp_is_tail h e p n (Q : bool → heap → Prop) :
  e ≠ 0 → place h e p n → Q (negb (p =? 0) && (n =? 0)) h → wp (is_tail e) h Q.
Proof.
  intros He Hp HQ. unfold is_tail. rewrite (proj2 (Z.eqb_neq _ _)) by done. wp_pure.
  eapply wp_load; [done|]. by wp_pure.
Qed.

(** ASSERT (is_interior (e) || is_tail (e)) *)
Lemma wp_not_head {A} h e p n (m : ST heap A) (Q : A → heap → Prop) :
  place h e p n → e ≠ 0 → p ≠ 0 → wp m h Q →
  wp (b1 ← is_interior e; b2 ← is_tail e; _ ← assert_st (b1 || b2); m) h Q.
Proof.
  intros Hpl He Hp HQ. wp_pure. eapply wp_is_interior; [done..|]. wp_pure.
  eapply wp_is_tail; [done..|]. rewrite (proj2 (Z.eqb_neq p 0)) by done. wp_pure.
  wp_step; [by destruct (n =? 0)|done].
Qed.

Lemma wp_list_next h e p n (Q : Z → heap → Prop) :
  place h e p n → e ≠ 0 → n ≠ 0 → Q n h → wp (list_next e) h Q.
Proof.
  intros Hp He Hn HQ. unfold list_next. wp_pure. eapply wp_is_head; [done..|]. wp_pure.
  eapply wp_is_interior; [done..|]. wp_pure. rewrite (proj2 (Z.eqb_neq n 0)) by done.
  wp_step; [by destruct (p =? 0)|]. by eapply wp_get_next.
Qed.
Lemma wp_list_prev h e p n (Q : Z → heap → Prop) :
  place h e p n → e ≠ 0 → p ≠ 0 → Q p h → wp (list_prev e) h Q.
Proof.
  intros Hp He Hn HQ. unfold list_prev. eapply wp_not_head; [done..|].
  by eapply wp_get_prev.
Qed.

Lemma wp_not_null h p (Q : unit → heap → Prop) : p ≠ 0 → Q tt h → wp (not_null p) h Q.
Proof. intros Hp HQ. unfold not_null. wp_step; [|done]. by rewrite (proj2 (Z.eqb_neq p 0)). Qed.
Lemma wp_list_end h ls (Q : Z → heap → Prop) :
  ls ≠ 0 → Q (tail_of ls) h → wp (list_end ls) h Q.
Proof. intros Hl HQ. unfold list_end. wp_pure. apply wp_not_null; [done|]. by wp_pure. Qed.
End exec.

(** Stores leave an explicit heap; reads look through them. *)
Ltac place_tac := unfold place; by simplify_map_eq.
Ltac links_step :=
  lazymatch goal with
  | |- wp (mbind _ _) _ _ => apply wp_bind
  | |- wp (mret _) _ _ => apply wp_ret
  | |- wp (get_link (Prev _)) _ _ => eapply wp_get_prev; [place_tac|]
  | |- wp (get_link (Next _)) _ _ => eapply wp_get_next; [place_tac|]
  | |- wp (set_link (Prev _) _) _ _ => eapply wp_set_prev; [place_tac|]
  | |- wp (set_link (Next _) _) _ _ => eapply wp_set_next; [place_tac|]
  end.

Section surgery.
Implicit Types (h : heap) (l : list Z) (a b e p n : Z).

Lemma place_dom h a p n : place h a p n → a ∈ dom h.
Proof. intros H. apply elem_of_dom. by eexists. Qed.

Lemma ring_pair h l1 a b l2 :
  ring h (l1 ++ a :: b :: l2) →
  place h a (default 0 (last l1)) b ∧ place h b a (default 0 (head l2)) ∧
  a ≠ 0 ∧ b ≠ 0 ∧ a ≠ b ∧ seg h 0 l1 a ∧ seg h b l2 0 ∧
  (∀ x, x ∈ l1 ∨ x ∈ l2 → x ≠ a ∧ x ≠ b) ∧ NoDup l1 ∧ NoDup l2 ∧ l1 ## l2.
Proof.
  intros Hr. pose proof Hr as [Hs Hnd Hnu].
  apply seg_app in Hs as (H1 & H2 & H3). simpl in H2, H3. destruct H3 as [H3 H4].
  apply NoDup_app in Hnd as (Hd1 & Hdj & [Ha [Hb Hd2]%NoDup_cons]%NoDup_cons).
  split_and!; try done.
  - eapply ring_ne; [done|set_solver].
  - eapply ring_ne; [done|set_solver].
  - set_solver.
  - set_solver.
  - set_solver.
Qed.

Ltac outside_tac :=
  repeat (apply outside_insert; [|rewrite !elem_of_cons; tauto|by eapply place_dom]);
  apply outside_refl.

Lemma perm_second l1 p e l2 : l1 ++ p :: e :: l2 ≡ₚ e :: l1 ++ p :: l2.
Proof.
  etransitivity; [apply Permutation_app_head, perm_swap|]. symmetry. apply Permutation_middle.
Qed.

(** A ring with the same, one more or one less elements. *)
Lemma ring_perm h h' l l' : ring h l → l' ≡ₚ l → seg h' 0 l' 0 → ring h' l'.
Proof. intros [_ Hnd Hnu] Hp Hs. split; [done|by rewrite Hp..]. Qed.
Lemma ring_more h h' l l' e :
  ring h l → e ≠ 0 → e ∉ l → l' ≡ₚ e :: l → seg h' 0 l' 0 → ring h' l'.
Proof.
  intros [_ Hnd Hnu] He Hel Hp Hs. split; [done|..]; rewrite Hp; by constructor.
Qed.
Lemma ring_less h h' l l' e : ring h l → l ≡ₚ e :: l' → seg h' 0 l' 0 → ring h' l'.
Proof.
  intros [_ Hnd Hnu] Hp Hs. rewrite Hp in Hnd, Hnu. split; [done|..].
  - by apply NoDup_cons in Hnd as [].
  - by apply Forall_cons in Hnu as [].
Qed.

Lemma list_insert_ring h l1 p b l2 e x :
  ring h (l1 ++ p :: b :: l2) → e ≠ 0 → e ∉ l1 ++ p :: b :: l2 → h !! e = Some x →
  wp (list_insert b e) h (λ _ h',
    ring h' (l1 ++ p :: e :: b :: l2) ∧ outside [p; e; b] h h').
Proof.
  intros Hr He Hel Hx. pose proof (ring_pair _ _ _ _ _ Hr)
    as (Hp & Hb & Hp0 & Hb0 & Hpb & Hs1 & Hs2 & Hne & Hd1 & Hd2 & Hdj).
  destruct x as [xp xn]. assert (p ≠ e ∧ b ≠ e) as [Hpe Hbe] by set_solver.
  unfold list_insert. eapply wp_not_head; [done..|]. wp_step. apply wp_not_null; [done|].
  unfold place in Hp, Hb. repeat links_step. split.
  - eapply (ring_more h _ _ _ e); [exact Hr|done|done|apply perm_second|].
    apply seg_app. split; [|split; [|split; [|split]]].
    + eapply seg_frame; [|exact Hs1]. intros a Ha. destruct (Hne a); [auto|].
      rewrite !lookup_insert_ne by set_solver. done.
    + simpl. place_tac.
    + simpl. place_tac.
    + simpl. place_tac.
    + eapply seg_frame; [|exact Hs2]. intros a Ha. destruct (Hne a); [auto|].
      rewrite !lookup_insert_ne by set_solver. done.
  - outside_tac.
Qed.

Lemma list_remove_ring h l1 p e n l2 :
  ring h (l1 ++ p :: e :: n :: l2) →
  wp (list_remove e) h (λ r h', r = n ∧ ring h' (l1 ++ p :: n :: l2) ∧ outside [p; n] h h').
Proof.
  intros Hr. pose proof (ring_pair _ _ _ _ _ Hr)
    as (Hp & He & Hp0 & He0 & Hpe & Hs1 & [Hn Hs2] & Hne & Hd1 & _ & _).
  pose proof Hr as Hr2. rewrite cons_middle, app_assoc in Hr2.
  pose proof (ring_pair _ _ _ _ _ Hr2) as (_ & _ & _ & Hn0 & Hen & _ & _ & Hne2 & _).
  simpl in He. assert (Hpn : p ≠ n) by (destruct (Hne2 p); set_solver).
  unfold list_remove. wp_pure. eapply wp_is_interior; [done..|]. wp_pure.
  wp_step; [by rewrite !(proj2 (Z.eqb_neq _ _)) by done|].
  unfold place in Hp, He, Hn. repeat links_step.
  split; [done|]. split.
  - eapply (ring_less h _ _ _ e); [exact Hr|apply perm_second|].
    assert (Hin : ∀ a, a ∈ l1 ∨ a ∈ l2 → a ≠ p ∧ a ≠ n).
    { intros a Ha. destruct (Hne a); [set_solver|]. destruct (Hne2 a); [set_solver|done]. }
    apply seg_app. split; [|split; [|split]].
    + eapply seg_frame; [|exact Hs1]. intros a Ha. destruct (Hin a); [auto|].
      by rewrite !lookup_insert_ne by done.
    + simpl. place_tac.
    + simpl. place_tac.
    + eapply seg_frame; [|exact Hs2]. intros a Ha. destruct (Hin a); [auto|].
      by rewrite !lookup_insert_ne by done.
  - outside_tac.
Qed.

(** The element [f] moves from behind [b] to its front. *)
Lemma splice_adjacent h l1 p b f n l2 :
  ring h (l1 ++ p :: b :: f :: n :: l2) →
  wp (list_splice b f n) h (λ _ h', ring h' (l1 ++ p :: f :: b :: n :: l2) ∧
    outside [p; b; f; n] h h').
Proof.
  intros Hr. pose proof (ring_pair _ _ _ _ _ Hr)
    as (Hp & Hb & Hp0 & Hb0 & _ & Hs1 & (Hf & Hn & Hs2) & _).
  pose proof (ring_nodup _ _ Hr) as Hnd. pose proof (ring_null _ _ Hr) as Hnu.
  apply Forall_app in Hnu as [_ Hnu]. rewrite !Forall_cons in Hnu.
  destruct Hnu as (_ & _ & Hf0 & Hn0 & _).
  apply NoDup_app in Hnd as (_ & Hdj & Hnd). rewrite !NoDup_cons, !not_elem_of_cons in Hnd.
  destruct Hnd as ((Hpb & Hpf & Hpn & Hp2) & (Hbf & Hbn & Hb2) & (Hfn & Hf2) & Hn2 & _).
  simpl in Hb, Hf, Hn. unfold place in Hp, Hb, Hf, Hn.
  unfold list_splice. eapply wp_not_head; [done..|].
  rewrite (proj2 (Z.eqb_neq f n)) by done. wp_step.
  eapply wp_list_prev; [exact Hn|done|done|].
  do 2 (wp_step; eapply wp_is_interior; [exact Hf0|exact Hf|]; do 2 wp_step;
        [by rewrite !(proj2 (Z.eqb_neq _ _)) by done|]).
  repeat links_step. split.
  - assert (Hin : ∀ a, a ∈ l1 ∨ a ∈ l2 → a ≠ p ∧ a ≠ b ∧ a ≠ f ∧ a ≠ n).
    { intros a [Ha|Ha].
      - specialize (Hdj a Ha). rewrite !not_elem_of_cons in Hdj. tauto.
      - split_and!; by intros ->. }
    eapply (ring_perm h); [exact Hr| |].
    { apply Permutation_app_head, Permutation_cons; [done|]. apply perm_swap. }
    apply seg_app. split; [|split; [|split; [|split; [|split]]]].
    + eapply seg_frame; [|exact Hs1]. intros a Ha. destruct (Hin a) as (?&?&?&?); [auto|].
      by rewrite !lookup_insert_ne by done.
    + simpl. place_tac.
    + simpl. place_tac.
    + simpl. place_tac.
    + simpl. place_tac.
    + eapply seg_frame; [|exact Hs2]. intros a Ha. destruct (Hin a) as (?&?&?&?); [auto|].
      by rewrite !lookup_insert_ne by done.
  - outside_tac.
Qed.

(** The element [f] moves over the elements [b :: M ++ [m]]. *)
Lemma splice_over h l1 p b M m f n l2 :
  ring h (l1 ++ p :: b :: M ++ m :: f :: n :: l2) →
  wp (list_splice b f n) h (λ _ h', ring h' (l1 ++ p :: f :: b :: M ++ m :: n :: l2) ∧
    outside [p; b; m; f; n] h h').
Proof.
  intros Hr. pose proof (ring_pair _ _ _ _ _ Hr)
    as (Hp & Hb & Hp0 & Hb0 & _ & Hs1 & Hs & _).
  apply seg_app in Hs as (HsM & Hm & (Hf & Hn & Hs2)).
  pose proof (ring_nodup _ _ Hr) as Hnd. pose proof (ring_null _ _ Hr) as Hnu.
  apply Forall_app in Hnu as [_ Hnu]. rewrite !Forall_cons, Forall_app, !Forall_cons in Hnu.
  destruct Hnu as (_ & _ & _ & Hm0 & Hf0 & Hn0 & _).
  apply NoDup_app in Hnd as (_ & Hdj & Hnd).
  rewrite !NoDup_cons, NoDup_app, !NoDup_cons, !not_elem_of_cons, !not_elem_of_app,
    !not_elem_of_cons in Hnd.
  destruct Hnd as ((Hpb & HpM & Hpm & Hpf & Hpn & Hp2) & (HbM & Hbm & Hbf & Hbn & Hb2) &
    HndM & HdM & (Hmf & Hmn & Hm2) & (Hfn & Hf2) & Hn2 & _).
  simpl in Hb, Hm, Hf, Hn. unfold place in Hp, Hb, Hm, Hf, Hn.
  unfold list_splice. eapply wp_not_head; [done..|].
  rewrite (proj2 (Z.eqb_neq f n)) by done. wp_step.
  eapply wp_list_prev; [exact Hn|done|done|].
  do 2 (wp_step; eapply wp_is_interior; [exact Hf0|exact Hf|]; do 2 wp_step;
        [by rewrite !(proj2 (Z.eqb_neq _ _)) by done|]).
  repeat links_step. split.
  - assert (Hin : ∀ a, a ∈ l1 ∨ a ∈ M ∨ a ∈ l2 → a ≠ p ∧ a ≠ b ∧ a ≠ m ∧ a ≠ f ∧ a ≠ n).
    { intros a [Ha|[Ha|Ha]].
      - specialize (Hdj a Ha). rewrite !not_elem_of_cons, not_elem_of_app, !not_elem_of_cons in Hdj.
        tauto.
      - specialize (HdM a Ha). rewrite !not_elem_of_cons in HdM. 
        split_and!; try tauto; by intros ->.
      - split_and!; by intros ->. }
    eapply (ring_perm h); [exact Hr| |].
    { apply Permutation_app_head, Permutation_cons; [done|].
      rewrite (cons_middle m M), (cons_middle m M (f :: _)), !app_assoc, !app_comm_cons.
      apply (Permutation_middle (b :: M ++ [m])). }
    apply seg_app. split; [|split; [|split; [|split]]].
    + eapply seg_frame; [|exact Hs1]. intros a Ha. destruct (Hin a) as (?&?&?&?&?); [auto|].
      by rewrite !lookup_insert_ne by done.
    + simpl. place_tac.
    + simpl. place_tac.
    + simpl. destruct M; simpl in *; place_tac.
    + apply seg_app. split; [|split; [|split]].
      * eapply seg_frame; [|exact HsM]. intros a Ha. destruct (Hin a) as (?&?&?&?&?); [auto|].
        by rewrite !lookup_insert_ne by done.
      * simpl. place_tac.
      * simpl. place_tac.
      * eapply seg_frame; [|exact Hs2]. intros a Ha. destruct (Hin a) as (?&?&?&?&?); [auto|].
        by rewrite !lookup_insert_ne by done.
  - outside_tac.
Qed.
End surgery.
