(* ===== verification/ListOps.v ===== *)
(** * The operations of lib/kernel/list.c on sequences

    What each operation does to the sequence of elements that a list holds. *)
From stdpp Require Import base numbers list sets gmap sorting.
From Stdlib Require Import ZArith Lia.
From S2P Require Import Prelude DList.
Open Scope Z_scope.

(** The pointer to the place of the list at [ls] where [rest] begins. *)
Definition start_of (ls : Z) (rest : list Z) : Z := default (tail_of ls) (head rest).

Section walks.
Implicit Types (h : heap) (ls e : Z) (xs dn rest : list Z).

Lemma ring_size h l : ring h l → (length l ≤ size h)%nat.
Proof.
  intros [Hs Hnd _]. rewrite <- size_dom.
  rewrite <- (size_list_to_set (C:=gset Z) l) by done. apply subseteq_size.
  intros a Ha%elem_of_list_to_set. apply list_elem_of_split in Ha as (l1 & l2 & ->).
  apply seg_app in Hs as (_ & Hp & _). by eapply place_dom.
Qed.

Lemma dlist_size h ls xs : dlist h ls xs → (S (S (length xs)) ≤ size h)%nat.
Proof.
  intros Hd%ring_size. unfold nodes in Hd. simpl in Hd. rewrite length_app in Hd.
  simpl in Hd. lia.
Qed.

(** The loop rule with the bound on the turns given by memory. *)
Lemma wp_walk {A B} (I : nat → A → heap → Prop) (body : A → ST heap (A + B))
    (Q : B → heap → Prop) n a h :
  (∀ n a h, I n a h →
     wp (body a) h (λ r h', match r with
                            | inl a' => ∃ n', (n' < n)%nat ∧ I n' a' h'
                            | inr b => Q b h'
                            end)) →
  I n a h → (n ≤ size h)%nat → wp (walk body a) h Q.
Proof.
  intros Hstep HI Hn. unfold walk, fuel_of. wp_pure.
  apply (wp_loop I _ _ n); [done|done|lia].
Qed.

Lemma dlist_ls h ls xs : dlist h ls xs → ls ≠ 0.
Proof. intros Hd. eapply ring_ne; [done|]. unfold nodes. set_solver. Qed.

Lemma nodes_split ls dn rest : nodes ls (dn ++ rest) = (ls :: dn) ++ rest ++ [tail_of ls].
Proof. unfold nodes. by rewrite <- app_assoc. Qed.

Lemma start_app ls rest :
  ∃ l2, rest ++ [tail_of ls] = start_of ls rest :: l2.
Proof. destruct rest as [|e rest]; simpl; eauto. Qed.

Lemma wp_list_begin h ls xs (Q : Z → heap → Prop) :
  dlist h ls xs → Q (start_of ls xs) h → wp (list_begin ls) h Q.
Proof.
  intros Hd HQ. unfold list_begin. wp_pure. apply wp_not_null; [by eapply dlist_ls|].
  eapply wp_get_next; [apply (ring_place _ [] _ _ Hd)|]. by destruct xs.
Qed.

Lemma wp_next_in h ls dn e rest (Q : Z → heap → Prop) :
  dlist h ls (dn ++ e :: rest) → Q (start_of ls rest) h → wp (list_next e) h Q.
Proof.
  unfold dlist. rewrite nodes_split. simpl app. intros Hd HQ.
  pose proof (ring_place _ (ls :: dn) e _ Hd) as Hp.
  eapply wp_list_next; [exact Hp| | |].
  - eapply ring_ne; [done|set_solver].
  - eapply ring_ne; [done|]. destruct rest; set_solver.
  - by destruct rest.
Qed.

Lemma wp_prev_in h ls dn p e rest (Q : Z → heap → Prop) :
  dlist h ls (dn ++ p :: e :: rest) → Q p h → wp (list_prev e) h Q.
Proof.
  unfold dlist. rewrite cons_middle, app_assoc, nodes_split. simpl app. intros Hd HQ.
  pose proof (ring_place _ (ls :: dn ++ [p]) e _ Hd) as Hp.
  rewrite app_comm_cons, last_snoc in Hp.
  eapply wp_list_prev; [exact Hp| | |done].
  - eapply ring_ne; [done|set_solver].
  - eapply ring_ne; [done|set_solver].
Qed.

(** An element is not the tail. *)
Lemma start_ne h ls dn e rest : dlist h ls (dn ++ e :: rest) → e ≠ tail_of ls.
Proof.
  intros [_ Hnd _]. unfold nodes in Hnd. rewrite NoDup_cons, !NoDup_app in Hnd. set_solver.
Qed.

Lemma start_eqb h ls dn rest :
  dlist h ls (dn ++ rest) →
  (start_of ls rest =? tail_of ls) = match rest with [] => true | _ => false end.
Proof.
  intros Hd. destruct rest as [|e rest]; [apply Z.eqb_refl|].
  apply Z.eqb_neq. by eapply start_ne.
Qed.
End walks.

(** ** Building, and the ends of a list *)

Section ends.
Implicit Types (h : heap) (ls e : Z) (xs dn rest : list Z).

Lemma list_init_wp h ls :
  ls ≠ 0 → tail_of ls ≠ 0 →
  wp (list_init ls) h (λ _ h', dlist h' ls [] ∧ ∀ a, a ∉ nodes ls [] → h' !! a = h !! a).
Proof.
  intros H1 H2. assert (ls ≠ tail_of ls) by (unfold tail_of; lia).
  unfold list_init. wp_pure. apply wp_not_null; [done|]. wp_pure. split.
  - split; simpl.
    + split; [|split; [|done]]; place_tac.
    + repeat constructor; set_solver.
    + repeat constructor; done.
  - intros a Ha. unfold nodes in Ha. by rewrite !lookup_insert_ne by set_solver.
Qed.

(** Insertion in front of any place of a list. *)
Lemma list_insert_wp h ls dn rest e x :
  dlist h ls (dn ++ rest) → e ≠ 0 → e ∉ nodes ls (dn ++ rest) → h !! e = Some x →
  wp (list_insert (start_of ls rest) e) h (λ _ h',
    dlist h' ls (dn ++ e :: rest) ∧ outside (e :: nodes ls (dn ++ rest)) h h').
Proof.
  unfold dlist. rewrite !nodes_split. destruct (start_app ls rest) as [l2 Hl2].
  simpl app. rewrite Hl2. intros Hd He Hel Hx.
  destruct (exists_last (l:=ls :: dn)) as (l1 & p & Hl1); [done|].
  rewrite app_comm_cons in *. rewrite Hl1 in *. rewrite <- !app_assoc in *. simpl app in *.
  eapply wp_mono; [by eapply list_insert_ring|]. intros [] h' [Hr Ho].
  split; [done|]. eapply outside_sub; [|done]. rewrite app_comm_cons, Hl1; set_solver.
Qed.

Lemma list_remove_wp h ls dn e rest :
  dlist h ls (dn ++ e :: rest) →
  wp (list_remove e) h (λ r h', r = start_of ls rest ∧ dlist h' ls (dn ++ rest) ∧
    outside (nodes ls (dn ++ rest)) h h').
Proof.
  unfold dlist. rewrite !nodes_split. destruct (start_app ls rest) as [l2 Hl2].
  simpl app. rewrite Hl2. intros Hd.
  destruct (exists_last (l:=ls :: dn)) as (l1 & p & Hl1); [done|].
  rewrite app_comm_cons in *. rewrite Hl1 in *. rewrite <- !app_assoc in *. simpl app in *.
  eapply wp_mono; [by apply list_remove_ring|]. intros r h' (-> & Hr & Ho).
  split; [done|]. split; [done|]. eapply outside_sub; [|done].
  set_solver.
Qed.

Lemma list_push_front_wp h ls xs e x :
  dlist h ls xs → e ≠ 0 → e ∉ nodes ls xs → h !! e = Some x →
  wp (list_push_front ls e) h (λ _ h', dlist h' ls (e :: xs) ∧ outside (e :: nodes ls xs) h h').
Proof.
  intros Hd He Hel Hx. unfold list_push_front. wp_pure. eapply wp_list_begin; [done|].
  by eapply (list_insert_wp h ls [] xs).
Qed.

Lemma list_push_back_wp h ls xs e x :
  dlist h ls xs → e ≠ 0 → e ∉ nodes ls xs → h !! e = Some x →
  wp (list_push_back ls e) h (λ _ h', dlist h' ls (xs ++ [e]) ∧ outside (e :: nodes ls xs) h h').
Proof.
  intros Hd He Hel Hx. unfold list_push_back. wp_pure.
  apply wp_list_end; [by eapply dlist_ls|].
  pose proof (list_insert_wp h ls xs [] e x) as Hi. rewrite app_nil_r in Hi. by apply Hi.
Qed.

Lemma wp_list_empty h ls xs (Q : bool → heap → Prop) :
  dlist h ls xs → Q (match xs with [] => true | _ => false end) h → wp (list_empty ls) h Q.
Proof.
  intros Hd HQ. unfold list_empty. wp_pure. eapply wp_list_begin; [done|]. wp_pure.
  apply wp_list_end; [by eapply dlist_ls|]. wp_pure. by rewrite (start_eqb h ls [] xs).
Qed.

Lemma list_pop_front_wp h ls e xs :
  dlist h ls (e :: xs) →
  wp (list_pop_front ls) h (λ r h', r = e ∧ dlist h' ls xs ∧ outside (nodes ls xs) h h').
Proof.
  intros Hd. unfold list_pop_front, list_front. wp_pure. eapply wp_list_empty; [done|].
  wp_pure. wp_step; [done|]. eapply wp_get_next; [apply (ring_place _ [] _ _ Hd)|]. simpl.
  wp_pure. eapply wp_mono; [by apply (list_remove_wp h ls [])|]. intros r h' (_ & ? & ?).
  by wp_pure.
Qed.

Lemma list_pop_back_wp h ls xs e :
  dlist h ls (xs ++ [e]) →
  wp (list_pop_back ls) h (λ r h', r = e ∧ dlist h' ls xs ∧ outside (nodes ls xs) h h').
Proof.
  intros Hd. unfold list_pop_back, list_back. wp_pure. eapply wp_list_empty; [done|].
  wp_pure. wp_step; [by destruct xs|].
  assert (Ht : place h (tail_of ls) e 0).
  { pose proof Hd as Hd'. unfold dlist, nodes in Hd'. rewrite app_comm_cons in Hd'.
    pose proof (ring_place _ _ (tail_of ls) [] Hd') as Ht.
    rewrite app_comm_cons, last_snoc in Ht. exact Ht. }
  eapply wp_get_prev; [exact Ht|]. wp_pure.
  eapply wp_mono; [by apply (list_remove_wp h ls xs e [])|]. rewrite app_nil_r.
  intros r h' (_ & ? & ?). by wp_pure.
Qed.

(** list_size *)
Lemma list_size_wp h ls xs :
  dlist h ls xs → wp (list_size ls) h (λ n h', h' = h ∧ n = u64 (Z.of_nat (length xs))).
Proof.
  intros Hd. unfold list_size. wp_pure. eapply wp_list_begin; [done|].
  apply (wp_walk (λ n st h', h' = h ∧ ∃ dn rest, xs = dn ++ rest ∧ n = length rest ∧
    fst st = start_of ls rest ∧ snd st = u64 (Z.of_nat (length dn))) _ _ (length xs)).
  - intros n [e cnt] h' (-> & dn & rest & -> & -> & He & Hc). simpl in *. subst e cnt.
    unfold size_step. wp_pure. apply wp_list_end; [by eapply dlist_ls|].
    rewrite (start_eqb h ls dn rest) by done. destruct rest as [|e rest].
    + wp_pure. by rewrite app_nil_r.
    + wp_pure. eapply wp_next_in; [done|]. wp_pure. exists (length rest). split; [simpl; lia|].
      split; [done|]. exists (dn ++ [e]), rest. rewrite <- app_assoc. simpl.
      split_and!; try done. rewrite length_app. simpl. unfold u64. rewrite Zplus_mod_idemp_l.
      f_equal. lia.
  - split; [done|]. by exists [], xs.
  - pose proof (dlist_size _ _ _ Hd). lia.
Qed.
End ends.

(** ** list_reverse *)

Definition flip_links (x : list_elem) : list_elem := Elem (next x) (prev x).

Section reverse.
Implicit Types (h : heap) (ls e : Z) (xs dn rest : list Z).

Lemma seg_flip h h' p l n :
  seg h p l n → (∀ a, a ∈ l → h' !! a = flip_links <$> h !! a) → seg h' n (reverse l) p.
Proof.
  revert p. induction l as [|a l IH]; intros p; [done|]. intros [Hp Hs] Hf.
  rewrite reverse_cons. apply seg_app. split; [|split; [|done]].
  - apply IH; [done|]. intros b Hb. apply Hf. set_solver.
  - unfold place in *. rewrite Hf, Hp by set_solver. simpl. unfold flip_links. simpl.
    by rewrite last_reverse.
Qed.

Lemma swap_place h e p n (Q : unit → heap → Prop) :
  place h e p n → Q tt (<[e := Elem n p]> (<[e := Elem n n]> h)) →
  wp (swap (Prev e) (Next e)) h Q.
Proof. intros Hp HQ. unfold swap. unfold place in Hp. by repeat links_step. Qed.

(** The heap after the first elements have been flipped. *)
Definition flipped h dn h' : Prop :=
  (∀ a, a ∈ dn → h' !! a = flip_links <$> h !! a) ∧ (∀ a, a ∉ dn → h' !! a = h !! a) ∧
  dom h' = dom h.

Lemma reverse_loop h ls xs :
  dlist h ls xs → wp (walk (reverse_step ls) (start_of ls xs)) h (λ _ h', flipped h xs h').
Proof.
  intros Hd.
  apply (wp_walk (λ n e h', ∃ dn rest, xs = dn ++ rest ∧ n = length rest ∧
    e = start_of ls rest ∧ flipped h dn h') _ _ (length xs)).
  - intros n e h' (dn & rest & -> & -> & -> & Hf & Ho & Hdom). unfold reverse_step. wp_pure.
    apply wp_list_end; [by eapply dlist_ls|]. rewrite (start_eqb h ls dn rest) by done.
    destruct rest as [|e rest]; [wp_pure; by rewrite app_nil_r|].
    assert (Hp : place h e (default 0 (last (ls :: dn))) (start_of ls rest)).
    { unfold dlist in Hd. rewrite nodes_split in Hd. simpl app in Hd.
      pose proof (ring_place _ (ls :: dn) e _ Hd) as Hp.
      by destruct rest. }
    assert (Hed : e ∉ dn).
    { destruct Hd as [_ Hnd _]. unfold nodes in Hnd.
      rewrite NoDup_cons, !NoDup_app in Hnd. set_solver. }
    assert (Hp' : place h' e (default 0 (last (ls :: dn))) (start_of ls rest)).
    { unfold place. by rewrite Ho. }
    wp_pure. change (start_of ls (e :: rest)) with e. eapply swap_place; [exact Hp'|]. wp_pure.
    eapply wp_get_prev; [place_tac|]. wp_pure.
    exists (length rest). split; [simpl; lia|]. exists (dn ++ [e]), rest.
    split; [by rewrite <- app_assoc|]. do 2 (split; [done|]). split; [|split].
    + intros a [Ha|Ha%list_elem_of_singleton]%elem_of_app.
      * rewrite !lookup_insert_ne by set_solver. by apply Hf.
      * subst a. rewrite Hp. by simplify_map_eq.
    + intros a Ha. rewrite !lookup_insert_ne by set_solver. apply Ho. set_solver.
    + rewrite !dom_insert_L. apply place_dom in Hp'. set_solver.
  - exists [], xs. split_and!; [done..|]. split; [set_solver|done].
  - pose proof (dlist_size _ _ _ Hd). lia.
Qed.

Lemma list_reverse_wp h ls xs :
  dlist h ls xs →
  wp (list_reverse ls) h (λ _ h', dlist h' ls (reverse xs) ∧ outside (nodes ls xs) h h').
Proof.
  intros Hd. unfold list_reverse. wp_pure. eapply wp_list_empty; [done|].
  destruct xs as [|a xs]; [wp_pure; by split; [|apply outside_refl]|].
  wp_pure. eapply wp_list_begin; [done|]. wp_pure.
  eapply wp_mono; [by apply reverse_loop|]. intros [] h' (Hf & Ho & Hdom).
  pose proof Hd as [Hs Hnd Hnu].
  assert (Hfl : seg h' (tail_of ls) (reverse (a :: xs)) ls).
  { destruct Hs as [_ Hs]. apply (seg_app _ _ (a :: xs)) in Hs as (Hs & _).
    by eapply seg_flip. }
  assert (Hnt : ls ∉ a :: xs ∧ tail_of ls ∉ a :: xs ∧ ls ≠ tail_of ls ∧ NoDup (a :: xs)).
  { unfold nodes in Hnd. rewrite NoDup_cons, NoDup_app in Hnd. set_solver. }
  destruct Hnt as (Hn1 & Hn2 & Hn3 & Hndx).
  pose proof (ring_place h [] ls _ Hd) as Hpl.
  pose proof (ring_place h (ls :: a :: xs) (tail_of ls) [] Hd) as Hpt.
  unfold place in Hpl, Hpt. rewrite <- Ho in Hpl, Hpt by done.
  rewrite (last_cons ls), last_cons in Hpt. simpl in Hpl, Hpt.
  assert (Hout : ∀ h2, (∀ x, x ∉ nodes ls (a :: xs) → h2 !! x = h' !! x) → dom h2 = dom h' →
    outside (nodes ls (a :: xs)) h h2).
  { intros h2 H1 H2. split; [|congruence]. intros x Hx. rewrite H1 by done. apply Ho.
    unfold nodes in Hx. set_solver. }
  assert (Hdone : ∀ h2, seg h2 0 (nodes ls (reverse (a :: xs))) 0 → 
    dlist h2 ls (reverse (a :: xs))).
  { intros h2 H2. eapply ring_perm; [exact Hd| |done].
    unfold nodes. by rewrite reverse_Permutation. }
  destruct xs as [|z m _] using rev_ind.
  - destruct Hfl as [Ha _]. unfold place in Ha. simpl in Ha, Hpt. unfold swap at 2.
    assert (a ≠ ls ∧ a ≠ tail_of ls) as [Hal Hat] by set_solver.
    repeat links_step. apply swap_place with (p := tail_of ls) (n := ls); [place_tac|]. split.
    + apply Hdone. simpl. unfold place. split; [|split; [|split; [|done]]]; by simplify_map_eq.
    + apply Hout.
      * unfold nodes. intros x Hx. by rewrite !lookup_insert_ne by set_solver.
      * rewrite !dom_insert_L. apply place_dom in Hpl, Hpt, Ha. set_solver.
  - rewrite reverse_cons, reverse_snoc in *. rewrite last_snoc in Hpt. simpl in Hpt.
    simpl in Hfl. destruct Hfl as [Hz Hfl]. apply seg_app in Hfl as (Hm & Ha & _).
    unfold place in Hz, Ha. simpl in Ha.
    apply NoDup_cons in Hndx as [Ham (_ & Hmz & _)%NoDup_app].
    assert (a ≠ ls ∧ a ≠ tail_of ls ∧ z ≠ ls ∧ z ≠ tail_of ls ∧ a ≠ z) as (?&?&?&?&?) by set_solver.
    unfold swap. repeat links_step. split.
    + apply Hdone. simpl. unfold place. split; [by simplify_map_eq|]. split.
      { destruct m using rev_ind; simpl in *; rewrite ?reverse_snoc in *; by simplify_map_eq. }
      rewrite <- app_assoc. apply seg_app. split; [|split; [|split; [|done]]].
      * eapply seg_frame; [|exact Hm]. intros x Hx%elem_of_reverse.
        rewrite !lookup_insert_ne by set_solver. done.
      * simpl. place_tac.
      * simpl. place_tac.
    + apply Hout.
      * unfold nodes. intros x Hx. by rewrite !lookup_insert_ne by set_solver.
      * rewrite !dom_insert_L. apply place_dom in Hpl, Hpt, Ha, Hz. set_solver.
Qed.
End reverse.
