(* ===== verification/ListSort.v ===== *)
(** * Ordered lists: list_sort and the other operations with an order

    lib/kernel/list.c's natural merge sort sorts, is stable and terminates;
    list_insert_ordered, list_unique, list_max and list_min. *)
From stdpp Require Import base numbers list sets gmap sorting.
From Stdlib Require Import ZArith Lia.
From S2P Require Import Prelude DList ListOps.
Open Scope Z_scope.

(** What the code needs of a list_less_func: a strict weak order. *)
Class WeakOrder (less : Z → Z → bool) : Prop := {
  less_asym : ∀ x y, less x y = true → less y x = false;
  less_ntrans : ∀ x y z, less x y = false → less y z = false → less x z = false;
}.

Section order.
Context (less : Z → Z → bool) `{!WeakOrder less}.
Implicit Types (h : heap) (ls e a b : Z) (xs ys dn rest : list Z).

(** [x] may stand before [y]. *)
Definition le x y : Prop := less y x = false.
Definition equiv x y : Prop := less x y = false ∧ less y x = false.
Definition ordered xs : Prop := StronglySorted le xs.

#[export] Instance le_dec : RelDecision le.
Proof. intros x y. unfold le. apply _. Defined.
#[export] Instance equiv_dec : RelDecision equiv.
Proof. intros x y. unfold equiv. apply _. Defined.

Lemma le_refl x : le x x.
Proof.
  unfold le. destruct (less x x) eqn:Hx; [|done]. by rewrite (less_asym _ _ Hx) in Hx.
Qed.
Lemma le_trans x y z : le x y → le y z → le x z.
Proof. unfold le. intros. by eapply less_ntrans. Qed.
Lemma less_le x y : less x y = true → le x y.
Proof. apply less_asym. Qed.
Lemma less_le_trans x y z : less x y = true → le y z → less x z = true.
Proof.
  unfold le. intros H1 H2. destruct (less x z) eqn:H3; [done|].
  rewrite (less_ntrans x z y) in H1 by done. done.
Qed.

Lemma ordered_app xs ys :
  ordered (xs ++ ys) ↔ ordered xs ∧ ordered ys ∧ ∀ x y, x ∈ xs → y ∈ ys → le x y.
Proof.
  unfold ordered. induction xs as [|a xs IH]; simpl.
  { split; [|naive_solver]. intros H. split; [constructor|]. split; [done|]. set_solver. }
  split.
  - intros [Hs Hf]%StronglySorted_inv. apply IH in Hs as (H1 & H2 & H3).
    apply Forall_app in Hf as [Hf1 Hf2]. split; [by constructor|]. split; [done|].
    intros x y [->|Hx]%elem_of_cons Hy; [|by apply H3].
    exact (proj1 (Forall_forall _ _) Hf2 y Hy).
  - intros ([Hs Hf]%StronglySorted_inv & H2 & H3). constructor.
    + apply IH. split_and!; [done..|]. set_solver.
    + apply Forall_app. split; [done|]. apply Forall_forall. intros y Hy. apply H3; set_solver.
Qed.

Lemma ordered_snoc2 xs x y : ordered (xs ++ [x]) → le x y → ordered ((xs ++ [x]) ++ [y]).
Proof.
  intros Hs Hl. apply ordered_app. split; [done|]. split; [repeat constructor|].
  intros a b Ha ->%list_elem_of_singleton. apply elem_of_app in Ha as [Ha|Ha].
  - apply ordered_app in Hs as (_ & _ & H). eapply le_trans; [|done]. apply H; set_solver.
  - by apply list_elem_of_singleton in Ha as ->.
Qed.

(** [ys] is [xs] up to the order of elements that are not equivalent. *)
Definition stable xs ys : Prop :=
  xs ≡ₚ ys ∧ ∀ x, filter (equiv x) ys = filter (equiv x) xs.

Lemma stable_refl xs : stable xs xs.
Proof. done. Qed.
Lemma stable_trans xs ys zs : stable xs ys → stable ys zs → stable xs zs.
Proof. intros [H1 H2] [H3 H4]. split; [by rewrite H1|]. intros x. by rewrite H4, H2. Qed.
Lemma stable_app xs xs' ys ys' : stable xs xs' → stable ys ys' → stable (xs ++ ys) (xs' ++ ys').
Proof.
  intros [H1 H2] [H3 H4]. split; [by rewrite H1, H3|]. intros x. by rewrite !filter_app, H2, H4.
Qed.

Lemma equiv_le x y z : equiv x y → less z y = true → ¬ equiv x z.
Proof.
  intros [H1 H2] H3 [H4 H5]. unfold equiv in *. 
  rewrite (less_ntrans z x y) in H3 by done. done.
Qed.

(** Moving [f] in front of elements that are all greater. *)
Lemma stable_move xs f : Forall (λ x, less f x = true) xs → stable (xs ++ [f]) (f :: xs).
Proof.
  intros Hf. split; [by rewrite Permutation_app_comm|].
  intros x. rewrite filter_app, !filter_cons, filter_nil.
  destruct (decide (equiv x f)) as [Hx|Hx]; [|by rewrite app_nil_r].
  assert (filter (equiv x) xs = []) as ->; [|done].
  induction Hf as [|y xs Hy _ IH]; [done|]. rewrite filter_cons_False; [done|].
  intros Hxy. by eapply (equiv_le x y f).
Qed.

(** ** list_insert_ordered *)

Lemma list_insert_ordered_wp h ls xs e x :
  dlist h ls xs → e ≠ 0 → e ∉ nodes ls xs → h !! e = Some x →
  wp (list_insert_ordered less ls e) h (λ _ h', ∃ dn rest, xs = dn ++ rest ∧
    dlist h' ls (dn ++ e :: rest) ∧ outside (e :: nodes ls xs) h h' ∧
    Forall (λ y, le y e) dn ∧ match rest with [] => True | y :: _ => less e y = true end).
Proof.
  intros Hd He Hel Hx. pose proof (dlist_ls _ _ _ Hd) as Hls. unfold list_insert_ordered.
  wp_pure. apply wp_not_null; [done|]. wp_pure. apply wp_not_null; [done|]. wp_pure.
  eapply wp_list_begin; [done|]. wp_pure.
  apply (wp_walk (λ n p h', h' = h ∧ ∃ dn rest, xs = dn ++ rest ∧ n = length rest ∧
    p = start_of ls rest ∧ Forall (λ y, le y e) dn) _ _ (length xs)).
  - intros n p h' (-> & dn & rest & -> & -> & -> & Hdn). unfold ordered_step. wp_pure.
    apply wp_list_end; [done|]. rewrite (start_eqb h ls dn rest) by done.
    assert (Hfin : match rest with [] => True | y :: _ => less e y = true end →
      wp (list_insert (start_of ls rest) e) h (λ _ h', ∃ dn0 rest0, dn ++ rest = dn0 ++ rest0 ∧
        dlist h' ls (dn0 ++ e :: rest0) ∧ outside (e :: nodes ls (dn ++ rest)) h h' ∧
        Forall (λ y, le y e) dn0 ∧ match rest0 with [] => True | y :: _ => less e y = true end)).
    { intros Hr. eapply wp_mono; [by eapply list_insert_wp|]. intros [] h' [? ?]. by exists dn, rest. }
    destruct rest as [|y rest]; [wp_pure; by apply Hfin|].
    change (start_of ls (y :: rest)) with y in *.
    destruct (less e y) eqn:Hey; [wp_pure; by apply Hfin|].
    wp_pure. eapply wp_next_in; [done|]. wp_pure. exists (length rest).
    split; [simpl; lia|]. split; [done|]. exists (dn ++ [y]), rest.
    split; [by rewrite <- app_assoc|]. do 2 (split; [done|]). apply Forall_app. by repeat constructor.
  - split; [done|]. by exists [], xs.
  - pose proof (dlist_size _ _ _ Hd). lia.
Qed.

(** ** list_max and list_min: the first best element *)

Section best.
Context (better : Z → Z → bool).

Lemma best_loop h ls x xs :
  dlist h ls (x :: xs) →
  wp (walk (best_step better ls) (start_of ls xs, x)) h (λ r h', h' = h ∧
    r = foldl (λ m e, if better e m then e else m) x xs).
Proof.
  intros Hd. pose proof (dlist_ls _ _ _ Hd) as Hls.
  apply (wp_walk (λ n st h', h' = h ∧ ∃ dn rest, xs = dn ++ rest ∧ n = length rest ∧
    fst st = start_of ls rest ∧ snd st = foldl (λ m e, if better e m then e else m) x dn)
    _ _ (length xs)).
  - intros n [p m] h' (-> & dn & rest & -> & -> & Hp & Hm). simpl in Hp, Hm. subst p m.
    unfold best_step. wp_pure. apply wp_list_end; [done|].
    rewrite (start_eqb h ls (x :: dn) rest) by done.
    destruct rest as [|y rest]; [wp_pure; by rewrite app_nil_r|].
    wp_pure. apply (wp_next_in h ls (x :: dn) y rest); [done|]. wp_pure. exists (length rest).
    split; [simpl; lia|]. split; [done|]. exists (dn ++ [y]), rest.
    split; [by rewrite <- app_assoc|]. do 2 (split; [done|]). simpl. by rewrite foldl_app.
  - split; [done|]. by exists [], xs.
  - pose proof (dlist_size _ _ _ Hd). simpl in *. lia.
Qed.
End best.

(** The first of the least elements. *)
Definition first_least (m : Z) xs : Prop :=
  ∃ l1 l2, xs = l1 ++ m :: l2 ∧ Forall (λ y, less m y = true) l1 ∧
    Forall (λ y, less y m = false) l2.

Lemma fold_best x xs : first_least (foldl (λ m e, if less e m then e else m) x xs) (x :: xs).
Proof.
  induction xs as [|y xs IH] using rev_ind; simpl.
  { by exists [], []. }
  destruct IH as (l1 & l2 & Heq & H1 & H2). rewrite foldl_app. simpl.
  set (m := foldl _ x xs) in *. rewrite app_comm_cons, Heq.
  destruct (less y m) eqn:Hy.
  - exists (l1 ++ m :: l2), []. split; [done|]. split; [|done].
    assert (Hlt : ∀ z, less z m = false → less y z = true).
    { intros z Hz. destruct (less y z) eqn:Hyz; [done|].
      by rewrite (less_ntrans y z m) in Hy. }
    apply Forall_app. split; [|constructor; [done|]].
    + eapply Forall_impl; [exact H1|]. intros z Hz. apply Hlt. by apply less_asym.
    + eapply Forall_impl; [exact H2|]. apply Hlt.
  - exists l1, (l2 ++ [y]). rewrite <- app_assoc. split; [done|]. split; [done|].
    apply Forall_app. by repeat constructor.
Qed.

Lemma list_min_wp h ls xs :
  dlist h ls xs →
  wp (list_min less ls) h (λ r h', h' = h ∧
    if decide (xs = []) then r = tail_of ls else first_least r xs).
Proof.
  intros Hd. unfold list_min. wp_pure. eapply wp_list_begin; [done|]. wp_pure.
  apply wp_list_end; [by eapply dlist_ls|]. rewrite (start_eqb h ls [] xs) by done.
  destruct xs as [|x xs]; [by wp_pure|]. change (start_of ls (x :: xs)) with x.
  wp_pure. eapply (wp_next_in _ _ []); [done|].
  eapply wp_mono; [by apply best_loop|]. intros r h' [-> ->]. split; [done|].
  apply fold_best.
Qed.
End order.

#[export] Instance flip_weak_order less : WeakOrder less → WeakOrder (flip less).
Proof.
  intros Ho. split; unfold flip.
  - intros x y. apply less_asym.
  - intros x y z H1 H2. by eapply less_ntrans.
Qed.

Lemma list_max_wp less `{!WeakOrder less} h ls xs :
  dlist h ls xs →
  wp (list_max less ls) h (λ r h', h' = h ∧
    if decide (xs = []) then r = tail_of ls else first_least (flip less) r xs).
Proof. exact (list_min_wp (flip less) h ls xs). Qed.

(** ** list_sort *)

(** [xs] is a sequence of [k] ordered runs. *)
Inductive runs (less : Z → Z → bool) : nat → list Z → Prop :=
  | runs_nil : runs less 0 []
  | runs_cons k A xs : ordered less A → runs less k xs → runs less (S k) (A ++ xs).

(** [A] is a whole run in front of [rest]. *)
Definition run_end (less : Z → Z → bool) (A rest : list Z) : Prop :=
  match last A, rest with Some x, y :: _ => less y x = true | _, _ => True end.

Section sort.
Context (less : Z → Z → bool) `{!WeakOrder less}.
Implicit Types (h : heap) (ls e a b : Z) (xs ys P A B D M Q R : list Z).

(** *** Runs *)

Lemma runs_S k xs : runs less k xs → runs less (S k) xs.
Proof. intros. apply (runs_cons _ _ []); [constructor|done]. Qed.

Lemma runs_snoc k xs A : runs less k xs → ordered less A → runs less (S k) (xs ++ A).
Proof.
  induction 1 as [|k B xs HB Hr IH]; intros HA.
  - rewrite <- (app_nil_r ([] ++ A)). by repeat constructor.
  - rewrite <- app_assoc. constructor; [done|]. by apply IH.
Qed.

Lemma runs_singletons xs : runs less (length xs) xs.
Proof.
  induction xs as [|x xs IH]; simpl; [constructor|].
  apply (runs_cons _ _ [x]); [|done]. by repeat constructor.
Qed.

Lemma runs_ordered k xs : runs less k xs → (k ≤ 1)%nat → ordered less xs.
Proof.
  intros [|k' A ys HA Hr] Hk; [constructor|]. destruct Hr; [|lia]. by rewrite app_nil_r.
Qed.

(** A maximal run uses up at least one of the runs. *)
Lemma runs_greedy m A R :
  runs less m (A ++ R) → A ≠ [] → run_end less A R → ∃ k, m = S k ∧ runs less k R.
Proof.
  intros Hr. remember (A ++ R) as xs eqn:Hxs. revert A Hxs.
  induction Hr as [|k B xs HB Hr IH]; intros A Hxs Hne Hend.
  { symmetry in Hxs. apply app_eq_nil in Hxs as [? _]. done. }
  exists k. split; [done|].
  apply app_eq_app in Hxs as [l [[-> ->]|[-> ->]]].
  - destruct l as [|y l]; [done|]. exfalso.
    destruct A as [|x A _] using rev_ind; [done|].
    unfold run_end in Hend. rewrite last_snoc in Hend. simpl in Hend.
    apply ordered_app in HB as (_ & _ & H); [|done].
    assert (le less x y) by (apply H; set_solver). unfold le in *. congruence.
  - destruct l as [|y l]; [done|].
    destruct (IH (y :: l)) as (k' & -> & Hk); [done|done| |by apply runs_S].
    unfold run_end in *. by rewrite last_app in Hend; destruct (last (y :: l)) eqn:Hl;
      [|apply last_None in Hl].
Qed.

(** *** The helpers *)

Lemma list_splice_wp h ls P b M f rest :
  dlist h ls (P ++ b :: M ++ f :: rest) →
  wp (list_splice b f (start_of ls rest)) h (λ _ h', dlist h' ls (P ++ f :: b :: M ++ rest) ∧
    outside (nodes ls (P ++ b :: M ++ f :: rest)) h h').
Proof.
  unfold dlist. intros Hd. rewrite !nodes_split in *. simpl app in *.
  destruct (start_app ls rest) as [l2 Hl2]. rewrite <- app_assoc in Hd |- *. simpl app in *.
  rewrite Hl2 in *.
  destruct (exists_last (l:=ls :: P)) as (l1 & p & Hl1); [done|].
  rewrite app_comm_cons in *. rewrite Hl1 in *. rewrite <- !app_assoc in *. simpl app in *.
  destruct M as [|m M _] using rev_ind.
  - eapply wp_mono; [by apply splice_adjacent|]. intros [] h' [Hr Ho]. split; [done|].
    eapply outside_sub; [|done]. rewrite Hl2, app_comm_cons, Hl1; set_solver.
  - rewrite <- !app_assoc in *. simpl app in *.
    eapply wp_mono; [by apply splice_over|]. intros [] h' [Hr Ho]. split; [done|].
    eapply outside_sub; [|done]. rewrite Hl2, app_comm_cons, Hl1; set_solver.
Qed.

(** Two places of a list are the same pointer only if nothing is between. *)
Lemma start_neq h ls P A Q :
  dlist h ls (P ++ A ++ Q) →
  (start_of ls (A ++ Q) =? start_of ls Q) = match A with [] => true | _ => false end.
Proof.
  intros Hd. destruct A as [|a A]; [apply Z.eqb_refl|]. apply Z.eqb_neq. simpl in *.
  change (start_of ls (a :: A ++ Q)) with a. intros Heq.
  pose proof (start_ne _ _ _ _ _ Hd) as Hat. destruct Q as [|q Q]; [done|].
  change (start_of ls (q :: Q)) with q in Heq. subst q.
  apply ring_nodup in Hd. unfold nodes in Hd. apply NoDup_cons in Hd as [_ Hd].
  apply NoDup_app in Hd as [Hd _]. apply NoDup_app in Hd as (_ & _ & Hd).
  apply NoDup_cons in Hd as [Hd _]. set_solver.
Qed.

Lemma is_sorted_wp h ls P A Q :
  dlist h ls (P ++ A ++ Q) → ordered less A →
  wp (is_sorted less (start_of ls (A ++ Q)) (start_of ls Q)) h (λ r h', r = true ∧ h' = h).
Proof.
  intros Hd HA. unfold is_sorted. rewrite (start_neq h ls P) by done.
  destruct A as [|a A]; [by wp_pure|].
  apply (wp_walk (λ n p h', h' = h ∧ ∃ D R, a :: A = D ++ p :: R ∧ n = length R)
    _ _ (length A)).
  - intros n p h' (-> & D & R & HDR & ->). unfold is_sorted_step. rewrite HDR in Hd, HA.
    rewrite <- app_assoc in Hd. simpl in Hd. rewrite (app_assoc P) in Hd.
    wp_pure. apply (wp_next_in h ls (P ++ D) p (R ++ Q)); [done|].
    rewrite cons_middle, (app_assoc (P ++ D)) in Hd.
    rewrite (start_neq h ls _ R Q) by done. wp_pure. destruct R as [|y R]; [by wp_pure|].
    rewrite <- (app_assoc (P ++ D)) in Hd. simpl in Hd. wp_pure.
    change (start_of ls ((y :: R) ++ Q)) with y.
    eapply wp_prev_in; [exact Hd|].
    assert (le less p y) as Hle.
    { apply ordered_app in HA as (_ & [_ HA]%StronglySorted_inv & _); [|done].
      by apply Forall_cons in HA as [? _]. }
    unfold le in Hle. rewrite Hle. wp_pure. exists (length R). split; [simpl; lia|].
    split; [done|]. exists (D ++ [p]), R. by rewrite <- app_assoc.
  - split; [done|]. by exists [], A.
  - pose proof (dlist_size _ _ _ Hd) as Hs. rewrite !length_app in Hs. simpl in Hs. lia.
Qed.

Lemma find_end_of_run_wp h ls P R :
  dlist h ls (P ++ R) → R ≠ [] →
  wp (find_end_of_run less (start_of ls R) (tail_of ls)) h (λ r h', h' = h ∧
    ∃ A R', R = A ++ R' ∧ A ≠ [] ∧ ordered less A ∧ run_end less A R' ∧ r = start_of ls R').
Proof.
  intros Hd Hne. destruct R as [|a R]; [done|]. change (start_of ls (a :: R)) with a.
  unfold find_end_of_run. wp_pure. apply wp_not_null.
  { eapply ring_ne; [exact Hd|]. unfold nodes. set_solver. }
  wp_pure. apply wp_not_null.
  { eapply ring_ne; [exact Hd|]. unfold nodes. set_solver. }
  wp_pure. wp_step.
  { rewrite (proj2 (Z.eqb_neq _ _)); [done|]. by eapply start_ne. }
  apply (wp_walk (λ n p h', h' = h ∧ ∃ D R', a :: R = D ++ p :: R' ∧ n = length R' ∧
    ordered less (D ++ [p])) _ _ (length R)).
  - intros n p h' (-> & D & R' & HDR & -> & Hord). unfold end_of_run_step.
    rewrite HDR, app_assoc in Hd. wp_pure. apply (wp_next_in h ls (P ++ D) p R'); [done|].
    rewrite cons_middle, (app_assoc (P ++ D)) in Hd. rewrite (start_eqb h ls _ R') by done.
    assert (Hfin : run_end less (D ++ [p]) R' → ∃ A R'', a :: R = A ++ R'' ∧ A ≠ [] ∧
      ordered less A ∧ run_end less A R'' ∧ start_of ls R' = start_of ls R'').
    { intros He. exists (D ++ [p]), R'. rewrite HDR, <- app_assoc. split_and!; try done. by destruct D. }
    wp_pure. destruct R' as [|y R'].
    { wp_pure. split; [done|]. apply Hfin. unfold run_end. by rewrite last_snoc. }
    rewrite <- (app_assoc (P ++ D)) in Hd. simpl in Hd. wp_pure.
    change (start_of ls (y :: R')) with y in *. eapply wp_prev_in; [exact Hd|].
    destruct (less y p) eqn:Hyp.
    { wp_pure. split; [done|]. apply Hfin. unfold run_end. by rewrite last_snoc. }
    wp_pure. exists (length R'). split; [simpl; lia|]. split; [done|]. exists (D ++ [p]), R'.
    rewrite <- app_assoc. split_and!; [done..|]. by apply ordered_snoc2.
  - split; [done|]. exists [], R. split_and!; [done..|]. by repeat constructor.
  - pose proof (dlist_size _ _ _ Hd) as Hs. rewrite !length_app in Hs. simpl in Hs. lia.
Qed.

Lemma nodes_perm h h' ls xs ys :
  xs ≡ₚ ys → outside (nodes ls xs) h h' → outside (nodes ls ys) h h'.
Proof.
  intros Hp. apply outside_sub. intros a. unfold nodes. by rewrite Hp.
Qed.

(** *** Merging two runs *)
Lemma inplace_merge_wp h ls P A B Q :
  dlist h ls (P ++ A ++ B ++ Q) → ordered less A → ordered less B → A ≠ [] → B ≠ [] →
  wp (inplace_merge less (start_of ls (A ++ B ++ Q)) (start_of ls (B ++ Q)) (start_of ls Q)) h
    (λ _ h', ∃ M, dlist h' ls (P ++ M ++ Q) ∧ ordered less M ∧ stable less (A ++ B) M ∧
       outside (nodes ls (P ++ A ++ B ++ Q)) h h').
Proof.
  intros Hd HA HB HneA HneB. unfold inplace_merge.
  assert (Hnn : ∀ D R, P ++ A ++ B ++ Q = D ++ R → start_of ls R ≠ 0).
  { intros D R Heq. rewrite Heq in Hd. eapply ring_ne; [exact Hd|].
    destruct R as [|r R]; unfold nodes; set_solver. }
  wp_pure. apply wp_not_null; [by apply (Hnn P)|].
  wp_pure. apply wp_not_null; [apply (Hnn (P ++ A)); by rewrite <- app_assoc|].
  wp_pure. apply wp_not_null; [apply (Hnn (P ++ A ++ B)); by rewrite <- !app_assoc|].
  wp_pure. eapply wp_mono; [by apply (is_sorted_wp h ls P A)|]. intros ? ? [-> ->].
  wp_pure. wp_step; [done|]. wp_pure.
  eapply wp_mono.
  { apply (is_sorted_wp h ls (P ++ A) B Q); [by rewrite <- app_assoc|done]. }
  intros ? ? [-> ->]. wp_pure. wp_step; [done|].
  apply (wp_walk (λ n st h', ∃ D A' B', n = (length A' + length B')%nat ∧
    fst st = start_of ls (A' ++ B' ++ Q) ∧ snd st = start_of ls (B' ++ Q) ∧
    dlist h' ls (P ++ D ++ A' ++ B' ++ Q) ∧ ordered less (D ++ A') ∧ ordered less (D ++ B') ∧
    stable less (A ++ B) (D ++ A' ++ B') ∧ outside (nodes ls (P ++ A ++ B ++ Q)) h h')
    _ _ (length A + length B)).
  - intros n [a0 a1] h' (D & A' & B' & -> & Ha0 & Ha1 & Hd' & HDA & HDB & Hst & Ho).
    simpl in Ha0, Ha1. subst a0 a1. unfold merge_step. 
    rewrite (start_neq h' ls (P ++ D) A' (B' ++ Q)) by (by rewrite <- app_assoc).
    rewrite (start_neq h' ls (P ++ D ++ A') B' Q) by (by rewrite <- !app_assoc).
    destruct A' as [|a A']; [|destruct B' as [|b B']]; simpl.
    + wp_pure. exists (D ++ B'). rewrite <- app_assoc. done.
    + wp_pure. exists (D ++ a :: A'). rewrite app_nil_r in Hst. rewrite <- app_assoc. done.
    + change (start_of ls (b :: B' ++ Q)) with b.
      change (start_of ls (a :: A' ++ b :: B' ++ Q)) with a.
      pose proof (proj1 (ordered_app less _ _) HDA) as (HoD & [HoA HaA]%StronglySorted_inv & HDle).
      pose proof (proj1 (ordered_app less _ _) HDB) as (_ & [HoB HbB]%StronglySorted_inv & HDleB).
      destruct (less b a) eqn:Hba; simpl.
      * wp_pure.
        assert (Hd2 : dlist h' ls ((P ++ D ++ a :: A') ++ b :: B' ++ Q)).
        { rewrite <- !app_assoc. done. }
        eapply wp_next_in; [exact Hd2|]. wp_pure.
        assert (Hprev : wp (list_prev (start_of ls (B' ++ Q))) h' (λ r h2, r = b ∧ h2 = h')).
        { destruct (B' ++ Q) as [|y R] eqn:HBQ.
          - eapply wp_list_prev.
            + unfold dlist, nodes in Hd2. rewrite app_comm_cons in Hd2.
              exact (ring_place _ _ (tail_of ls) [] Hd2).
            + eapply ring_ne; [exact Hd2|]. unfold nodes. set_solver.
            + rewrite app_comm_cons, last_snoc. simpl. eapply ring_ne; [exact Hd2|].
              unfold nodes. set_solver.
            + by rewrite app_comm_cons, last_snoc.
          - change (start_of ls (y :: R)) with y. by eapply wp_prev_in. }
        eapply wp_mono; [exact Hprev|]. intros ? ? [-> ->]. wp_pure.
        rewrite (app_assoc P) in Hd'.
        eapply wp_mono; [by apply (list_splice_wp h' ls (P ++ D) a A' b (B' ++ Q))|].
        intros [] h2 [Hd3 Ho3]. wp_pure. exists (length (a :: A') + length B')%nat.
        split; [simpl; lia|]. exists (D ++ [b]), (a :: A'), B'. simpl.
        assert (Hbx : Forall (λ x, less b x = true) (a :: A')).
        { constructor; [done|]. eapply Forall_impl; [exact HaA|]. intros x Hx.
          by eapply less_le_trans. }
        split_and!; [done..| | | | | ].
        -- rewrite <- !app_assoc in *. done.
        -- rewrite <- app_assoc. apply ordered_app; [done|].
           split; [done|]. split; [|].
           ++ constructor; [by constructor|]. eapply Forall_impl; [exact Hbx|].
              intros x Hx. by apply less_le.
           ++ intros x y Hx [->|Hy]%elem_of_cons; [apply HDleB; set_solver|].
              apply HDle; [done|]. done.
        -- rewrite <- app_assoc. exact HDB.
        -- eapply stable_trans; [exact Hst|]. rewrite <- app_assoc.
           apply stable_app; [done|].
           assert (stable less (((a :: A') ++ [b]) ++ B') ((b :: a :: A') ++ B')) as Hm.
           { apply stable_app; [|done]. by apply stable_move. }
           by rewrite <- app_assoc in Hm.
        -- eapply outside_trans; [exact Ho|]. eapply nodes_perm; [|exact Ho3].
           destruct Hst as [Hp _].
           rewrite (app_assoc A B Q), Hp. rewrite <- !app_assoc. simpl. done.
      * wp_pure. eapply (wp_next_in h' ls (P ++ D) a (A' ++ b :: B' ++ Q)).
        { by rewrite <- app_assoc. }
        wp_pure. exists (length A' + S (length B'))%nat. split; [simpl; lia|].
        exists (D ++ [a]), A', (b :: B'). simpl. rewrite <- !app_assoc.
        split_and!; try done.
        apply ordered_app; [done|]. split; [done|]. split.
        -- constructor; [by constructor|]. constructor; [done|].
           eapply Forall_impl; [exact HbB|]. intros x Hx. by eapply le_trans.
        -- intros x y Hx [->|Hy]%elem_of_cons; [apply HDle; set_solver|]. by apply HDleB.
  - exists [], A, B. split_and!; try done.
  - pose proof (dlist_size _ _ _ Hd) as Hs. rewrite !length_app in Hs. lia.
Qed.

(** *** A pass and the whole sort *)

Lemma sort_pass_wp h ls xs m :
  dlist h ls xs → runs less m xs →
  wp (walk (sort_pass_step less ls) (start_of ls xs, 0)) h (λ cnt h', ∃ k ys, cnt = Z.of_nat k ∧
    (2 * k ≤ m + 1)%nat ∧ dlist h' ls ys ∧ runs less k ys ∧ stable less xs ys ∧
    outside (nodes ls xs) h h').
Proof.
  intros Hd Hm.
  apply (wp_walk (λ n st h', ∃ k r D R, n = length R ∧ fst st = start_of ls R ∧
    snd st = Z.of_nat k ∧ (2 * k + r ≤ m)%nat ∧ dlist h' ls (D ++ R) ∧ runs less k D ∧
    runs less r R ∧ stable less xs (D ++ R) ∧ outside (nodes ls xs) h h') _ _ (length xs)).
  - intros n [a0 cnt] h' (k & r & D & R & -> & Ha & Hc & Hk & Hd' & HD & HR & Hst & Ho).
    simpl in Ha, Hc. subst a0 cnt. unfold sort_pass_step. pose proof (dlist_ls _ _ _ Hd') as Hls.
    wp_pure. apply wp_list_end; [done|]. rewrite (start_eqb h' ls D R) by done.
    destruct (decide (R = [])) as [->|HneR].
    { wp_pure. rewrite app_nil_r in *. exists k, D. split_and!; try done. lia. }
    replace (match R with [] => true | _ => false end) with false by (by destruct R).
    wp_pure. apply wp_list_end; [done|]. wp_pure.
    eapply wp_mono; [by apply (find_end_of_run_wp h' ls D R)|].
    intros a1 ? (-> & A & R1 & -> & HneA & HA & HendA & ->).
    destruct (runs_greedy r A R1) as (r1 & -> & HR1); [done..|].
    rewrite app_assoc in Hd'. rewrite (start_eqb h' ls (D ++ A) R1) by done.
    destruct (decide (R1 = [])) as [->|HneR1].
    { wp_pure. rewrite app_nil_r in *. exists (S k), (D ++ A). split_and!; try done.
      - lia.
      - lia.
      - by apply runs_snoc. }
    replace (match R1 with [] => true | _ => false end) with false by (by destruct R1).
    wp_pure. eapply wp_mono; [by apply (find_end_of_run_wp h' ls (D ++ A) R1)|].
    intros b1 ? (-> & B & R2 & -> & HneB & HB & HendB & ->).
    destruct (runs_greedy r1 B R2) as (r2 & -> & HR2); [done..|].
    rewrite <- app_assoc in Hd'. wp_pure.
    eapply wp_mono; [by apply (inplace_merge_wp h' ls D A B R2)|].
    intros [] h2 (M & Hd2 & HM & HstM & Ho2). wp_pure.
    assert (Hlen : (length R2 < length (A ++ B ++ R2))%nat).
    { rewrite !length_app. destruct A; [done|]. simpl. lia. }
    exists (length R2). split; [done|]. exists (S k), r2, (D ++ M), R2. simpl.
    rewrite <- app_assoc. split_and!; try done.
    + lia.
    + lia.
    + by apply runs_snoc.
    + eapply stable_trans; [exact Hst|]. apply stable_app; [done|]. rewrite app_assoc.
      by apply stable_app.
    + eapply outside_trans; [exact Ho|]. eapply nodes_perm; [|exact Ho2].
      symmetry. apply Hst.
  - exists 0%nat, m, [], xs. split_and!; try done; first [lia|constructor].
  - pose proof (dlist_size _ _ _ Hd). lia.
Qed.

Lemma list_sort_wp h ls xs :
  dlist h ls xs →
  wp (list_sort less ls) h (λ _ h', ∃ ys, dlist h' ls ys ∧ ordered less ys ∧
    stable less xs ys ∧ outside (nodes ls xs) h h').
Proof.
  intros Hd. pose proof (dlist_ls _ _ _ Hd) as Hls. unfold list_sort. wp_pure.
  apply wp_not_null; [done|]. wp_pure.
  apply (wp_walk (λ n _ h', ∃ ys, dlist h' ls ys ∧ runs less n ys ∧ stable less xs ys ∧
    outside (nodes ls xs) h h') _ _ (length xs)).
  - intros n [] h' (ys & Hd' & Hr & Hst & Ho). unfold sort_step. wp_pure.
    eapply wp_list_begin; [done|]. wp_pure.
    eapply wp_mono; [by apply sort_pass_wp|].
    intros cnt h2 (k & zs & -> & Hk & Hd2 & Hr2 & Hst2 & Ho2).
    assert (Hst3 : stable less xs zs) by (by eapply stable_trans).
    assert (Ho3 : outside (nodes ls xs) h h2).
    { eapply outside_trans; [exact Ho|]. eapply nodes_perm; [|exact Ho2].
      symmetry. apply Hst. }
    destruct (Z.ltb_spec 1 (Z.of_nat k)); wp_pure.
    + exists k. split; [lia|]. by exists zs.
    + assert (Hord : ordered less zs) by (eapply runs_ordered; [done|lia]).
      eapply wp_list_begin; [done|]. wp_pure. apply wp_list_end; [done|]. wp_pure.
      pose proof (is_sorted_wp h2 ls [] zs []) as His. rewrite !app_nil_r in His.
      eapply wp_mono; [by apply His|]. intros ? ? [-> ->]. wp_step; [done|].
      by exists zs.
  - exists xs. split_and!; [done|apply runs_singletons|done|apply outside_refl].
  - pose proof (dlist_size _ _ _ Hd). lia.
Qed.

(** ** list_unique *)

(** What is kept and what is removed of [x :: xs]. *)
Fixpoint dedup (x : Z) xs : list Z * list Z :=
  match xs with
  | [] => ([x], [])
  | y :: xs => if decide (equiv less x y)
               then let '(keep, dup) := dedup x xs in (keep, y :: dup)
               else let '(keep, dup) := dedup y xs in (x :: keep, dup)
  end.

Lemma list_unique_wp h ls dups x xs ds :
  dlist h ls (x :: xs) → dlist h dups ds → nodes ls (x :: xs) ## nodes dups ds →
  wp (list_unique less ls dups) h (λ _ h',
    dlist h' ls (fst (dedup x xs)) ∧ dlist h' dups (ds ++ snd (dedup x xs)) ∧
    outside (nodes ls (x :: xs) ++ nodes dups ds) h h').
Proof.
  intros Hd Hdup Hdj. pose proof (dlist_ls _ _ _ Hd) as Hls. pose proof (dlist_ls _ _ _ Hdup).
  unfold list_unique. wp_pure. apply wp_not_null; [done|]. wp_pure.
  eapply wp_list_empty; [done|]. cbv iota. wp_pure. eapply wp_list_begin; [done|].
  apply (wp_walk (λ n p h', ∃ dn rest es, n = length rest ∧
    dlist h' ls (dn ++ p :: rest) ∧ dlist h' dups (ds ++ es) ∧
    dn ++ fst (dedup p rest) = fst (dedup x xs) ∧
    es ++ snd (dedup p rest) = snd (dedup x xs) ∧
    nodes ls (dn ++ p :: rest) ## nodes dups (ds ++ es) ∧
    nodes ls (dn ++ p :: rest) ++ nodes dups (ds ++ es) ⊆ nodes ls (x :: xs) ++ nodes dups ds ∧
    outside (nodes ls (x :: xs) ++ nodes dups ds) h h') _ _ (length xs)).
  - intros n p h' (dn & rest & es & -> & Hl & Hl2 & Hk & He & Hdis & Hsub & Ho).
    unfold unique_step. wp_pure. eapply wp_next_in; [exact Hl|]. wp_pure.
    apply wp_list_end; [done|].
    pose proof Hl as Hl'. rewrite cons_middle, app_assoc in Hl'.
    rewrite (start_eqb h' ls (dn ++ [p]) rest) by done.
    destruct rest as [|y rest]; simpl in Hk, He.
    { wp_pure. rewrite app_nil_r in He. rewrite <- Hk, <- He. split_and!; done. }
    change (start_of ls (y :: rest)) with y. rewrite <- app_assoc in Hl'.
    destruct (decide (equiv less p y)) as [[Hpy Hyp]|Hne].
    + rewrite Hpy, Hyp. simpl. rewrite (proj2 (Z.eqb_neq dups 0)) by done. simpl.
      destruct (dedup p rest) as [kp du] eqn:Hdd. simpl in Hk, He.
      wp_pure. eapply wp_mono.
      { apply (list_remove_wp h' ls (dn ++ [p]) y rest). by rewrite <- app_assoc. }
      intros r0 h2 (_ & Hr & Ho2). wp_pure. rewrite <- app_assoc in Hr, Ho2. simpl in Hr, Ho2.
      assert (Hy : place h' y p (start_of ls rest)).
      { unfold dlist, nodes in Hl'. simpl in Hl'. rewrite <- app_assoc in Hl'. simpl in Hl'.
        change (ls :: dn ++ p :: y :: rest ++ [tail_of ls])
          with ((ls :: dn) ++ p :: y :: rest ++ [tail_of ls]) in Hl'.
        rewrite cons_middle, app_assoc in Hl'. pose proof (ring_place _ _ y _ Hl') as Hp.
        rewrite last_snoc in Hp. by destruct rest. }
      assert (Hyr : y ∉ nodes ls (dn ++ p :: rest) ∧ y ≠ 0).
      { split; [|eapply ring_ne; [exact Hl'|]; unfold nodes; set_solver].
        pose proof (ring_nodup _ _ Hl') as Hnd. unfold nodes in *.
        assert (Hperm : ls :: (dn ++ p :: y :: rest) ++ [tail_of ls]
          ≡ₚ y :: ls :: (dn ++ p :: rest) ++ [tail_of ls]).
        { rewrite perm_second. simpl. apply perm_swap. }
        rewrite Hperm in Hnd. by apply NoDup_cons in Hnd as []. }
      destruct Hyr as [Hyr Hy0].
      assert (Hyd : y ∉ nodes dups (ds ++ es)).
      { intros Hin. apply (Hdis y); [|done]. unfold nodes. set_solver. }
      assert (Hl3 : dlist h2 dups (ds ++ es)).
      { eapply ring_outside; [exact Ho2|done|]. intros a Ha Hb. apply (Hdis a); [|done].
        unfold nodes in *. set_solver. }
      assert (Hy2 : h2 !! y = Some (Elem p (start_of ls rest))).
      { destruct Ho2 as [Ho2 _]. by rewrite Ho2. }
      eapply wp_mono; [by eapply list_push_back_wp|]. intros [] h3 [Hl4 Ho4]. wp_pure.
      exists (length rest). split; [simpl; lia|]. exists dn, rest, (es ++ [y]).
      rewrite app_assoc. rewrite Hdd. simpl. split; [done|]. split.
      { eapply ring_outside; [exact Ho4|exact Hr|]. intros a Ha [->|Hb]%elem_of_cons; [done|].
        apply (Hdis a); [|done]. unfold nodes in *. set_solver. }
      split; [done|]. split; [done|]. split; [by rewrite <- app_assoc|]. split.
      { intros a Ha Hb. assert (a = y ∨ a ∈ nodes dups (ds ++ es)) as [->|Hb'].
        { unfold nodes in *. set_solver. }
        - done.
        - apply (Hdis a); [|done]. unfold nodes in *. set_solver. }
      split.
      { intros a Ha. apply Hsub. unfold nodes in *. set_solver. }
      eapply outside_trans; [exact Ho|]. eapply outside_trans.
      { eapply outside_sub; [|exact Ho2]. intros a Ha. apply Hsub. unfold nodes in *. set_solver. }
      eapply outside_sub; [|exact Ho4]. intros a Ha. apply Hsub. unfold nodes in *. set_solver.
    + assert (Hb : negb (less p y) && negb (less y p) = false).
      { destruct (less p y) eqn:H1, (less y p) eqn:H2; try done. by destruct Hne. }
      destruct (dedup y rest) as [kp du] eqn:Hdd. simpl in Hk, He.
      rewrite Hb. wp_pure. exists (length rest). split; [simpl; lia|].
      exists (dn ++ [p]), rest, es. rewrite Hdd, <- !app_assoc. simpl. split_and!; done.
  - exists [], xs, []. rewrite !app_nil_r. split_and!; try done.
  - pose proof (dlist_size _ _ _ Hd). simpl in *. lia.
Qed.
End sort.

(** ** The properties of lists *)

(** C36: list_sort returns, and leaves the elements in ascending order; elements
    that are equivalent keep the order they had. Nothing outside of the list
    changes. *)
Theorem list_sort_correct less `{!WeakOrder less} h ls xs :
  dlist h ls xs →
  ∃ h' ys, list_sort less ls h = Done (tt, h') ∧ dlist h' ls ys ∧ ordered less ys ∧
    stable less xs ys ∧ outside (nodes ls xs) h h'.
Proof. intros Hd. destruct (wp_run_unit _ _ _ (list_sort_wp less h ls xs Hd)) as (h' & ? & ys & H). eauto. Qed.

(** list_insert_ordered puts an element into a sorted list so that it stays
    sorted, behind the elements that it is equivalent to. *)
Theorem list_insert_ordered_correct less `{!WeakOrder less} h ls xs e x :
  dlist h ls xs → e ≠ 0 → e ∉ nodes ls xs → h !! e = Some x → ordered less xs →
  ∃ h' dn rest, list_insert_ordered less ls e h = Done (tt, h') ∧ xs = dn ++ rest ∧
    dlist h' ls (dn ++ e :: rest) ∧ ordered less (dn ++ e :: rest) ∧
    Forall (λ y, ¬ equiv less e y) rest ∧ outside (e :: nodes ls xs) h h'.
Proof.
  intros Hd He Hel Hx Ho.
  destruct (wp_run_unit _ _ _ (list_insert_ordered_wp less h ls xs e x Hd He Hel Hx))
    as (h' & Hrun & dn & rest & -> & Hd' & Hout & Hle & Hr).
  apply ordered_app in Ho as (Ho1 & Ho2 & Ho3); [|done].
  assert (Hlt : Forall (λ y, less e y = true) rest).
  { destruct rest as [|y rest]; [done|]. apply StronglySorted_inv in Ho2 as [_ Hf].
    constructor; [done|]. eapply Forall_impl; [exact Hf|]. intros z Hz.
    by eapply less_le_trans. }
  exists h', dn, rest. split_and!; try done.
  - apply ordered_app; [done|]. split; [done|]. split.
    + constructor; [done|]. eapply Forall_impl; [exact Hlt|]. intros y. by apply less_le.
    + intros a b Ha Hb. apply elem_of_cons in Hb as [->|Hb]; [|by apply Ho3].
      exact (proj1 (Forall_forall _ _) Hle a Ha).
  - eapply Forall_impl; [exact Hlt|]. intros y Hy [Hn _]. congruence.
Qed.

(** Removing an element that has been inserted at any place of a list gives the
    list back, and the element that was behind it. *)
Theorem list_insert_remove h ls dn rest e x :
  dlist h ls (dn ++ rest) → e ≠ 0 → e ∉ nodes ls (dn ++ rest) → h !! e = Some x →
  ∃ h1 h2, list_insert (start_of ls rest) e h = Done (tt, h1) ∧
    dlist h1 ls (dn ++ e :: rest) ∧
    list_remove e h1 = Done (start_of ls rest, h2) ∧ dlist h2 ls (dn ++ rest) ∧
    outside (e :: nodes ls (dn ++ rest)) h h2.
Proof.
  intros Hd He Hel Hx.
  destruct (wp_run_unit _ _ _ (list_insert_wp h ls dn rest e x Hd He Hel Hx)) as (h1 & H1 & Hd1 & Ho1).
  destruct (wp_run _ _ _ (list_remove_wp h1 ls dn e rest Hd1)) as (r & h2 & H2 & -> & Hd2 & Ho2).
  exists h1, h2. split_and!; try done; eapply outside_trans; [exact Ho1|].
  eapply outside_sub; [|exact Ho2]. set_solver.
Qed.

(** list_reverse reverses the list in place. *)
Theorem list_reverse_spec h ls xs :
  dlist h ls xs → ∃ h', list_reverse ls h = Done (tt, h') ∧ dlist h' ls (reverse xs) ∧
    outside (nodes ls xs) h h'.
Proof. intros Hd. by apply wp_run_unit, list_reverse_wp. Qed.
