(* ===== verification/Bitmap.v ===== *)
(** * Bitmaps (lib/kernel/bitmap.c)

    Arrays of 64-bit words with the bit operations of the code, and the
    sequence of booleans that they represent. *)
From stdpp Require Import base numbers list sets.
From Stdlib Require Import ZArith Lia.
From S2P Require Import Prelude Bytes.
Open Scope Z_scope.

Definition ELEM_BITS : Z := 64.
Definition BITMAP_ERROR : Z := 2 ^ 64 - 1.

(** struct bitmap; the bits are [elem_type] words. *)
Record bitmap := Bitmap { bit_cnt : Z; bits : list Z }.

Definition elem_idx (bit_idx : Z) : Z := bit_idx / ELEM_BITS.
Definition bit_mask (bit_idx : Z) : Z := u64 (Z.shiftl 1 (bit_idx mod ELEM_BITS)).
Definition elem_cnt (bit_cnt : Z) : Z := DIV_ROUND_UP bit_cnt ELEM_BITS.
Definition byte_cnt (bit_cnt : Z) : Z := 8 * elem_cnt bit_cnt.
Definition last_mask (b : bitmap) : Z :=
  let last_bits := bit_cnt b mod ELEM_BITS in
  if negb (last_bits =? 0) then u64 (Z.shiftl 1 last_bits) - 1 else u64 (-1).

Definition bitmap_size (b : bitmap) : Z := bit_cnt b.

(** A read-modify-write of one word. *)
Definition update_word (idx : Z) (f : Z → Z) : ST bitmap unit :=
  b ← get_st;
  w ← deref (zlookup (bits b) idx);
  modify (λ b, Bitmap (bit_cnt b) (zinsert idx (f w) (bits b))).

Definition bitmap_mark (bit_idx : Z) : ST bitmap unit :=
  update_word (elem_idx bit_idx) (λ w, Z.lor w (bit_mask bit_idx)).
Definition bitmap_reset (bit_idx : Z) : ST bitmap unit :=
  update_word (elem_idx bit_idx) (λ w, Z.land w (u64 (Z.lnot (bit_mask bit_idx)))).
Definition bitmap_flip (bit_idx : Z) : ST bitmap unit :=
  update_word (elem_idx bit_idx) (λ w, Z.lxor w (bit_mask bit_idx)).

Definition bitmap_set (idx : Z) (value : bool) : ST bitmap unit :=
  b ← get_st;
  _ ← assert_st (idx <? bit_cnt b);
  if value then bitmap_mark idx else bitmap_reset idx.

Definition bitmap_test (idx : Z) : ST bitmap bool :=
  b ← get_st;
  _ ← assert_st (idx <? bit_cnt b);
  w ← deref (zlookup (bits b) (elem_idx idx));
  mret (negb (Z.land w (bit_mask idx) =? 0)).

(** The assertions on a range of bits. *)
Definition assert_range (start cnt : Z) : ST bitmap unit :=
  b ← get_st;
  _ ← assert_st (start <=? bit_cnt b);
  assert_st (u64 (start + cnt) <=? bit_cnt b).

Definition bitmap_set_multiple (start cnt : Z) (value : bool) : ST bitmap unit :=
  _ ← assert_range start cnt;
  for_st (λ i _, bitmap_set (u64 (start + i)) value) (seqZ 0 cnt) tt.

Definition bitmap_set_all (value : bool) : ST bitmap unit :=
  b ← get_st; bitmap_set_multiple 0 (bitmap_size b) value.

(** The two blocks that bitmap_create allocates; [junk] is what the second
    one holds, [None] when malloc fails. *)
Definition bitmap_create (cnt : Z) (block : bool) (junk : option (list Z)) :
    outcome (option bitmap) :=
  if negb block then Done None else
  if negb (match junk with Some _ => true | None => false end) && negb (cnt =? 0)
  then Done None else
  match bitmap_set_all false (Bitmap cnt (default [] junk)) with
  | Done (_, b) => Done (Some b)
  | Panic => Panic | Undef => Undef | NoFuel => NoFuel
  end.

Definition bitmap_buf_size (bit_cnt : Z) : Z := 16 + byte_cnt bit_cnt.

Definition bitmap_create_in_buf (cnt : Z) (block : list Z) (block_size : Z) :
    outcome (unit * bitmap) :=
  if bitmap_buf_size cnt <=? block_size
  then bitmap_set_all false (Bitmap cnt block) else Panic.

Definition bitmap_count (start cnt : Z) (value : bool) : ST bitmap Z :=
  _ ← assert_range start cnt;
  for_st (λ i value_cnt,
    t ← bitmap_test (u64 (start + i));
    mret (if eqb t value then value_cnt + 1 else value_cnt)) (seqZ 0 cnt) 0.

Definition contains_step (start cnt : Z) (value : bool) (i : Z) : ST bitmap (Z + bool) :=
  if i <? cnt then
    t ← bitmap_test (u64 (start + i));
    if eqb t value then mret (inr true) else mret (inl (i + 1))
  else mret (inr false).

Definition bitmap_contains (start cnt : Z) (value : bool) : ST bitmap bool :=
  _ ← assert_range start cnt;
  loop (S (Z.to_nat cnt)) (contains_step start cnt value) 0.

Definition bitmap_any (start cnt : Z) : ST bitmap bool := bitmap_contains start cnt true.
Definition bitmap_none (start cnt : Z) : ST bitmap bool :=
  r ← bitmap_contains start cnt true; mret (negb r).
Definition bitmap_all (start cnt : Z) : ST bitmap bool :=
  r ← bitmap_contains start cnt false; mret (negb r).

Definition scan_step (last cnt : Z) (value : bool) (i : Z) : ST bitmap (Z + Z) :=
  if i <=? last then
    r ← bitmap_contains i cnt (negb value);
    if negb r then mret (inr i) else mret (inl (u64 (i + 1)))
  else mret (inr BITMAP_ERROR).

Definition bitmap_scan (start cnt : Z) (value : bool) : ST bitmap Z :=
  b ← get_st;
  _ ← assert_st (start <=? bit_cnt b);
  if cnt <=? bit_cnt b then
    let last := bit_cnt b - cnt in
    loop (S (S (Z.to_nat (bit_cnt b)))) (scan_step last cnt value) start
  else mret BITMAP_ERROR.

Definition bitmap_scan_and_flip (start cnt : Z) (value : bool) : ST bitmap Z :=
  idx ← bitmap_scan start cnt value;
  _ ← (if negb (idx =? BITMAP_ERROR) then bitmap_set_multiple idx cnt (negb value) else mret tt);
  mret idx.

Definition bitmap_file_size (b : bitmap) : Z := byte_cnt (bit_cnt b).

(** ** The booleans that a bitmap represents *)

Definition bget (b : bitmap) (i : Z) : bool :=
  Z.testbit (default 0 (zlookup (bits b) (i / 64))) (i mod 64).

Definition to_bools (b : bitmap) : list bool := bget b <$> seqZ 0 (bit_cnt b).

Record wf_bitmap (b : bitmap) : Prop := {
  wb_cnt : 0 <= bit_cnt b < 2 ^ 63;
  wb_len : elem_cnt (bit_cnt b) <= zlength (bits b);
}.

Section facts.
Implicit Types (b : bitmap) (i j idx start cnt : Z).

Lemma zlength_to_bools b : wf_bitmap b → zlength (to_bools b) = bit_cnt b.
Proof.
  intros []. unfold zlength, to_bools. rewrite length_fmap, length_seqZ. lia.
Qed.

Lemma to_bools_lookup b i :
  wf_bitmap b → 0 <= i < bit_cnt b → zlookup (to_bools b) i = Some (bget b i).
Proof.
  intros [] Hi. rewrite zlookup_nat by lia. unfold to_bools.
  rewrite list_lookup_fmap, (proj2 (lookup_seqZ 0 (bit_cnt b) (Z.to_nat i) i)) by lia. done.
Qed.

(** Two bitmaps of one size with the same bits. *)
Lemma to_bools_ext b (l : list bool) :
  wf_bitmap b → zlength l = bit_cnt b →
  (∀ i, 0 <= i < bit_cnt b → zlookup l i = Some (bget b i)) → to_bools b = l.
Proof.
  intros Hwf Hl Hi. apply list_eq. intros k.
  destruct (decide (Z.of_nat k < bit_cnt b)) as [Hk|Hk].
  - pose proof (to_bools_lookup b (Z.of_nat k) Hwf) as H1.
    specialize (Hi (Z.of_nat k)). rewrite zlookup_nat, Nat2Z.id in H1, Hi by lia.
    rewrite H1, Hi by lia. done.
  - pose proof (zlength_to_bools b Hwf) as H1. unfold zlength in *.
    rewrite !lookup_ge_None_2 by lia. done.
Qed.

Lemma bit_mask_pow i : bit_mask i = 2 ^ (i mod 64).
Proof.
  unfold bit_mask, ELEM_BITS. rewrite Z.shiftl_1_l. apply u64_small.
  pose proof (Z.mod_pos_bound i 64). split; [lia|]. apply Z.pow_lt_mono_r; lia.
Qed.

Lemma word_in b i : wf_bitmap b → 0 <= i < bit_cnt b → 0 <= i / 64 < zlength (bits b).
Proof. intros [] Hi. unfold elem_cnt, DIV_ROUND_UP, ELEM_BITS in *. zdiv. Qed.

Lemma testbit_mask i j : 0 <= j < 64 → Z.testbit (bit_mask i) j = (i mod 64 =? j).
Proof. intros. rewrite bit_mask_pow. apply Z.pow2_bits_eqb. apply Z.mod_pos_bound. lia. Qed.

Lemma testbit_not_mask i j :
  0 <= j < 64 → Z.testbit (u64 (Z.lnot (bit_mask i))) j = negb (i mod 64 =? j).
Proof.
  intros. unfold u64. rewrite Z.mod_pow2_bits_low by lia.
  rewrite Z.lnot_spec by lia. by rewrite testbit_mask.
Qed.

Lemma same_bit i j : 0 <= i → 0 <= j → i / 64 = j / 64 → i mod 64 = j mod 64 → i = j.
Proof. intros. zdiv. Qed.

(** A word update changes one bit. *)
Lemma update_word_wp b i f (g : bool → bool) (Q : unit → bitmap → Prop) :
  wf_bitmap b → 0 <= i < bit_cnt b →
  (∀ w j, 0 <= j < 64 → Z.testbit (f w) j
     = if i mod 64 =? j then g (Z.testbit w j) else Z.testbit w j) →
  (∀ b', wf_bitmap b' → bit_cnt b' = bit_cnt b → bget b' i = g (bget b i) →
     (∀ j, 0 <= j → j ≠ i → bget b' j = bget b j) → Q tt b') →
  wp (update_word (elem_idx i) f) b Q.
Proof.
  intros Hwf Hi Hf HQ. unfold update_word, elem_idx, ELEM_BITS. wp_pure.
  pose proof (word_in b i Hwf Hi) as Hr.
  destruct (zlookup_is_Some (bits b) (i / 64)) as [w Hw]; [done|].
  wp_step; [exact Hw|]. wp_pure. apply HQ.
  - destruct Hwf. split; simpl; [done|]. by rewrite zlength_zinsert.
  - done.
  - unfold bget. simpl. rewrite zlookup_zinsert, Hw by done. simpl.
    rewrite Hf by (apply Z.mod_pos_bound; lia). by rewrite Z.eqb_refl.
  - intros j Hj Hne. unfold bget. simpl. destruct (decide (i / 64 = j / 64)) as [He|He].
    + rewrite <- He, zlookup_zinsert, Hw by done. simpl.
      rewrite Hf by (apply Z.mod_pos_bound; lia). rewrite (proj2 (Z.eqb_neq _ _)); [done|].
      intros Hm. apply Hne. symmetry. apply same_bit; (done || lia).
    + rewrite zlookup_zinsert_ne; [done|lia|done].
Qed.

(** What a store to bit [i] leaves. *)
Definition stored b i (v : bool) b' : Prop :=
  wf_bitmap b' ∧ bit_cnt b' = bit_cnt b ∧ bget b' i = v ∧
  ∀ j, 0 <= j → j ≠ i → bget b' j = bget b j.

Lemma bitmap_mark_wp b i :
  wf_bitmap b → 0 <= i < bit_cnt b → wp (bitmap_mark i) b (λ _ b', stored b i true b').
Proof.
  intros Hwf Hi. unfold bitmap_mark. apply (update_word_wp b i _ (λ _, true)); [done..| |].
  - intros w j Hj. rewrite Z.lor_spec, testbit_mask by lia.
    destruct (i mod 64 =? j); [apply orb_true_r|apply orb_false_r].
  - intros. done.
Qed.

Lemma bitmap_reset_wp b i :
  wf_bitmap b → 0 <= i < bit_cnt b → wp (bitmap_reset i) b (λ _ b', stored b i false b').
Proof.
  intros Hwf Hi. unfold bitmap_reset. apply (update_word_wp b i _ (λ _, false)); [done..| |].
  - intros w j Hj. rewrite Z.land_spec, testbit_not_mask by lia.
    destruct (i mod 64 =? j); [apply andb_false_r|apply andb_true_r].
  - intros. done.
Qed.

Lemma bitmap_flip_wp b i :
  wf_bitmap b → 0 <= i < bit_cnt b →
  wp (bitmap_flip i) b (λ _ b', stored b i (negb (bget b i)) b').
Proof.
  intros Hwf Hi. unfold bitmap_flip. apply (update_word_wp b i _ negb); [done..| |].
  - intros w j Hj. rewrite Z.lxor_spec, testbit_mask by lia.
    destruct (i mod 64 =? j); [apply xorb_true_r|apply xorb_false_r].
  - intros. done.
Qed.

Lemma bitmap_set_wp b i v :
  wf_bitmap b → 0 <= i < bit_cnt b → wp (bitmap_set i v) b (λ _ b', stored b i v b').
Proof.
  intros Hwf Hi. unfold bitmap_set. wp_pure. wp_step; [apply Z.ltb_lt; lia|].
  destruct v; [by apply bitmap_mark_wp|by apply bitmap_reset_wp].
Qed.

Lemma bitmap_test_wp b i (Q : bool → bitmap → Prop) :
  wf_bitmap b → 0 <= i < bit_cnt b → Q (bget b i) b → wp (bitmap_test i) b Q.
Proof.
  intros Hwf Hi HQ. unfold bitmap_test, elem_idx, ELEM_BITS. wp_pure.
  wp_step; [apply Z.ltb_lt; lia|]. wp_pure.
  destruct (zlookup_is_Some (bits b) (i / 64)) as [w Hw]; [by apply word_in|].
  wp_step; [exact Hw|]. wp_pure. unfold bget in HQ. rewrite Hw in HQ. simpl in HQ.
  assert (negb (Z.land w (bit_mask i) =? 0) = Z.testbit w (i mod 64)) as ->; [|done].
  rewrite bit_mask_pow. pose proof (Z.mod_pos_bound i 64).
  destruct (Z.testbit w (i mod 64)) eqn:Ht.
  - apply negb_true_iff, Z.eqb_neq. intros H0. apply (f_equal (λ z, Z.testbit z (i mod 64))) in H0.
    rewrite Z.land_spec, Ht, Z.pow2_bits_true, Z.bits_0 in H0 by lia. done.
  - apply negb_false_iff, Z.eqb_eq. apply Z.bits_inj_0. intros k.
    rewrite Z.land_spec, Z.pow2_bits_eqb by lia.
    destruct (Z.eqb_spec (i mod 64) k) as [<-|]; [by rewrite Ht|apply andb_false_r].
Qed.

Lemma assert_range_wp b start cnt (Q : unit → bitmap → Prop) :
  wf_bitmap b → 0 <= start → 0 <= cnt → start + cnt <= bit_cnt b → Q tt b →
  wp (assert_range start cnt) b Q.
Proof.
  intros [] ??? HQ. unfold assert_range. wp_pure. wp_step; [apply Z.leb_le; lia|].
  wp_step; [|done]. apply Z.leb_le. rewrite u64_small; lia.
Qed.

(** All the bits of a range have one value; the others are as before. *)
Definition filled b start cnt (v : bool) b' : Prop :=
  wf_bitmap b' ∧ bit_cnt b' = bit_cnt b ∧
  (∀ j, start <= j < start + cnt → bget b' j = v) ∧
  (∀ j, 0 <= j → ¬ (start <= j < start + cnt) → bget b' j = bget b j).

Lemma bitmap_set_multiple_wp b start cnt v :
  wf_bitmap b → 0 <= start → 0 <= cnt → start + cnt <= bit_cnt b →
  wp (bitmap_set_multiple start cnt v) b (λ _ b', filled b start cnt v b').
Proof.
  intros Hwf Hs Hc Hr. unfold bitmap_set_multiple. wp_pure. apply assert_range_wp; [done..|].
  pose proof (wb_cnt _ Hwf).
  apply (wp_for (λ p _ b', filled b start (Z.of_nat (length p)) v b')).
  - intros p i r [] b' Hp (Hwf' & Hcnt & H1 & H2). 
    assert (i = Z.of_nat (length p) ∧ i < cnt) as [-> Hlt].
    { assert (seqZ 0 cnt !! length p = Some i) as Hl by (by rewrite Hp, list_lookup_middle).
      apply lookup_seqZ in Hl. lia. }
    rewrite u64_small by lia.
    eapply wp_mono; [apply bitmap_set_wp; [done|lia]|]. intros _ b2 (Hwf2 & Hc2 & He & Ho).
    rewrite length_app. simpl. split; [done|]. split; [congruence|]. split.
    + intros j Hj. destruct (decide (j = start + Z.of_nat (length p))) as [->|]; [done|].
      rewrite Ho by lia. apply H1. lia.
    + intros j Hj Hn. rewrite Ho by lia. apply H2; lia.
  - split; [done|]. split; [done|]. split; [simpl; lia|done].
  - intros [] b'. by rewrite length_seqZ, Z2Nat.id by lia.
Qed.

Lemma bitmap_contains_wp b start cnt v :
  wf_bitmap b → 0 <= start → 0 <= cnt → start + cnt <= bit_cnt b →
  wp (bitmap_contains start cnt v) b (λ r b', b' = b ∧
    (r = true ↔ ∃ j, start <= j < start + cnt ∧ bget b j = v)).
Proof.
  intros Hwf Hs Hc Hr. unfold bitmap_contains. wp_pure. apply assert_range_wp; [done..|].
  pose proof (wb_cnt _ Hwf).
  apply (wp_loop (λ n i b', b' = b ∧ n = Z.to_nat (cnt - i) ∧ 0 <= i <= cnt ∧
    ∀ j, start <= j < start + i → bget b j ≠ v) _ _ (Z.to_nat cnt)); [| |lia].
  - intros n i b' (-> & -> & Hi & Hno). unfold contains_step.
    destruct (Z.ltb_spec i cnt).
    + wp_pure. rewrite u64_small by lia. apply bitmap_test_wp; [done|lia|].
      destruct (eqb _ v) eqn:Hb; wp_pure.
      * apply eqb_prop in Hb. split; [done|]. split; [|done]. intros _.
        exists (start + i). split; [lia|done].
      * apply eqb_false_iff in Hb. exists (Z.to_nat (cnt - (i + 1))). split; [lia|].
        split; [done|]. split; [done|]. split; [lia|]. intros j Hj.
        destruct (decide (j = start + i)) as [->|]; [done|]. apply Hno. lia.
    + wp_pure. split; [done|]. split; [done|]. intros (j & Hj & He). exfalso.
      apply (Hno j); [lia|done].
  - split; [done|]. split; [f_equal; lia|]. split; [lia|]. lia.
Qed.

(** [cnt] bits from [i] on have the value [v]. *)
Definition group b i cnt (v : bool) : Prop := ∀ j, i <= j < i + cnt → bget b j = v.

Lemma bitmap_scan_wp b start cnt v :
  wf_bitmap b → 0 <= start <= bit_cnt b → 0 <= cnt →
  wp (bitmap_scan start cnt v) b (λ r b', b' = b ∧
    ((start <= r ∧ r + cnt <= bit_cnt b ∧ group b r cnt v ∧
      ∀ i, start <= i < r → ¬ group b i cnt v) ∨
     (r = BITMAP_ERROR ∧
      ∀ i, start <= i → i + cnt <= bit_cnt b → ¬ group b i cnt v))).
Proof.
  intros Hwf Hs Hc. pose proof (wb_cnt _ Hwf). unfold bitmap_scan. wp_pure.
  wp_step; [apply Z.leb_le; lia|].
  destruct (Z.leb_spec cnt (bit_cnt b)).
  2: { wp_pure. split; [done|]. right. split; [done|]. lia. }
  apply (wp_loop (λ n i b', b' = b ∧ n = Z.to_nat (bit_cnt b - cnt + 1 - i) ∧ 
    start <= i <= Z.max start (bit_cnt b - cnt + 1) ∧
    ∀ j, start <= j < i → ¬ group b j cnt v) _ _ (Z.to_nat (bit_cnt b - cnt + 1 - start)));
    [| |lia].
  - intros n i b' (-> & -> & Hi & Hno). unfold scan_step.
    destruct (Z.leb_spec i (bit_cnt b - cnt)) as [Hle|Hgt].
    + wp_pure. eapply wp_mono; [apply bitmap_contains_wp; [done|lia..]|].
      intros r ? [-> Hr]. destruct r; simpl; wp_pure.
      * destruct (proj1 Hr eq_refl) as (j & Hj & He).
        exists (Z.to_nat (bit_cnt b - cnt + 1 - (i + 1))). rewrite u64_small by lia.
        split; [lia|]. split; [done|]. split; [done|]. split; [lia|].
        intros k Hk. destruct (decide (k = i)) as [->|]; [|apply Hno; lia].
        intros Hg. rewrite (Hg j) in He by lia. by destruct v.
      * split; [done|]. left. split; [lia|]. split; [lia|]. split; [|done].
        intros j Hj. destruct (bget b j) eqn:Hb, v; try done.
        all: assert (false = true) by (apply Hr; exists j; done); done.
    + wp_pure. split; [done|]. right. split; [done|]. intros k Hk1 Hk2. apply Hno. lia.
  - split; [done|]. split; [done|]. split; [lia|]. lia.
Qed.

Lemma bitmap_scan_and_flip_wp b start cnt v :
  wf_bitmap b → 0 <= start <= bit_cnt b → 0 <= cnt →
  wp (bitmap_scan_and_flip start cnt v) b (λ r b',
    (start <= r ∧ r + cnt <= bit_cnt b ∧ group b r cnt v ∧
      (∀ i, start <= i < r → ¬ group b i cnt v) ∧ filled b r cnt (negb v) b') ∨
    (r = BITMAP_ERROR ∧ b' = b ∧
      ∀ i, start <= i → i + cnt <= bit_cnt b → ¬ group b i cnt v)).
Proof.
  intros Hwf Hs Hc. pose proof (wb_cnt _ Hwf). unfold bitmap_scan_and_flip. wp_pure.
  eapply wp_mono; [by apply bitmap_scan_wp|].
  intros r b' (-> & [(H1 & H2 & H3 & H4)|(-> & H3)]).
  - rewrite (proj2 (Z.eqb_neq r BITMAP_ERROR)) by (unfold BITMAP_ERROR; lia). simpl. wp_pure.
    eapply wp_mono; [apply bitmap_set_multiple_wp; [done|lia..]|]. intros [] b' Hf. wp_pure.
    left. done.
  - simpl. wp_pure. right. done.
Qed.
End facts.

(** ** Properties *)

Definition example_bitmap : bitmap := Bitmap 70 [5; 0].

Lemma example_bitmap_wf : wf_bitmap example_bitmap.
Proof. split; simpl; [lia|]. by vm_compute. Qed.

(** Storing, testing and toggling one bit are the operations on the sequence
    of booleans. *)
Theorem bitmap_bits_refine b i v :
  wf_bitmap b → 0 <= i < bit_cnt b →
  (∃ b', bitmap_set i v b = Done (tt, b') ∧ wf_bitmap b' ∧
     to_bools b' = zinsert i v (to_bools b)) ∧
  (∃ b', bitmap_flip i b = Done (tt, b') ∧ wf_bitmap b' ∧
     to_bools b' = zinsert i (negb (bget b i)) (to_bools b)) ∧
  (∃ t, bitmap_test i b = Done (t, b) ∧ zlookup (to_bools b) i = Some t).
Proof.
  intros Hwf Hi.
  assert (Hst : ∀ w b', stored b i w b' → wf_bitmap b' ∧ to_bools b' = zinsert i w (to_bools b)).
  { intros w b' (Hw & Hc & He & Ho). split; [done|]. apply to_bools_ext; [done|..].
    - by rewrite zlength_zinsert, zlength_to_bools.
    - intros j Hj. destruct (decide (j = i)) as [->|Hne].
      + rewrite zlookup_zinsert; [by rewrite He|]. by rewrite zlength_to_bools.
      + rewrite zlookup_zinsert_ne by lia. rewrite to_bools_lookup by (done || lia).
        by rewrite Ho by lia. }
  split; [|split].
  - apply wp_run_unit. eapply wp_mono; [by apply bitmap_set_wp|]. intros [] b'. apply Hst.
  - apply wp_run_unit. eapply wp_mono; [by apply bitmap_flip_wp|]. intros [] b'. apply Hst.
  - exists (bget b i). split; [|by apply to_bools_lookup].
    apply wp_run_eq. by apply bitmap_test_wp.
Qed.

(** bitmap_scan_and_flip takes the first group of [cnt] bits of value [v] and
    inverts exactly that group; it reports an error and changes nothing if
    and only if there is none. *)
Theorem bitmap_scan_and_flip_spec b start cnt v :
  wf_bitmap b → 0 <= start <= bit_cnt b → 0 <= cnt →
  ∃ r b', bitmap_scan_and_flip start cnt v b = Done (r, b') ∧ wf_bitmap b' ∧
    ((r = BITMAP_ERROR ∧ b' = b ∧
        ∀ i, start <= i → i + cnt <= bit_cnt b → ¬ group b i cnt v) ∨
     (start <= r ∧ r + cnt <= bit_cnt b ∧ group b r cnt v ∧
        (∀ i, start <= i < r → ¬ group b i cnt v) ∧ group b' r cnt (negb v) ∧
        ∀ j, 0 <= j → ¬ (r <= j < r + cnt) → bget b' j = bget b j)).
Proof.
  intros Hwf Hs Hc. apply wp_run. eapply wp_mono; [by apply bitmap_scan_and_flip_wp|].
  intros r b' [(H1 & H2 & H3 & H4 & (H5 & H6 & H7 & H8))|(-> & -> & H)].
  - split; [done|]. right. done.
  - split; [done|]. by left.
Qed.

(** bitmap_all answers whether a whole range is set, and bitmap_count how many
    bits of it have a value. *)
Theorem bitmap_count_spec b start cnt v :
  wf_bitmap b → 0 <= start → 0 <= cnt → start + cnt <= bit_cnt b →
  bitmap_count start cnt v b
    = Done (zlength (filter (λ i, bget b i = v) (seqZ start cnt)), b) ∧
  ∃ r, bitmap_all start cnt b = Done (r, b) ∧ (r = true ↔ group b start cnt true).
Proof.
  intros Hwf Hs Hc Hr. pose proof (wb_cnt _ Hwf). split.
  - apply wp_run_eq. unfold bitmap_count. wp_pure. apply assert_range_wp; [done..|].
    apply (wp_for (λ p n b', b' = b ∧
      n = zlength (filter (λ i, bget b i = v) (seqZ start (Z.of_nat (length p)))))).
    + intros p i r n b' Hp [-> ->].
      assert (i = Z.of_nat (length p) ∧ i < cnt) as [-> Hlt].
      { assert (seqZ 0 cnt !! length p = Some i) as Hl by (by rewrite Hp, list_lookup_middle).
        apply lookup_seqZ in Hl. lia. }
      wp_pure. rewrite u64_small by lia. apply bitmap_test_wp; [done|lia|]. wp_pure.
      split; [done|]. rewrite length_app. simpl.
      replace (Z.of_nat (length p + 1)) with (Z.of_nat (length p) + 1) by lia.
      rewrite seqZ_app, filter_app by lia. change (seqZ ?a 1) with [a].
      rewrite filter_cons, filter_nil.
      unfold zlength. rewrite length_app.
      destruct (decide (bget b (start + Z.of_nat (length p)) = v)) as [He|He].
      * rewrite (proj2 (eqb_true_iff _ _) He). simpl. lia.
      * rewrite (proj2 (eqb_false_iff _ _) He). simpl. lia.
    + done.
    + intros n b' [-> ->]. split; [|done]. by rewrite length_seqZ, Z2Nat.id by lia.
  - unfold bitmap_all.
    assert (wp (r ← bitmap_contains start cnt false; mret (negb r)) b (λ r b', b' = b ∧
      (r = true ↔ group b start cnt true))) as Hwp.
    { wp_pure. eapply wp_mono; [by apply bitmap_contains_wp|]. intros r b' [-> Hiff]. wp_pure.
      split; [done|]. destruct r; simpl.
      - split; [done|]. intros Hg. destruct (proj1 Hiff eq_refl) as (j & Hj & He).
        by rewrite (Hg j Hj) in He.
      - split; [|done]. intros _ j Hj. destruct (bget b j) eqn:Hb; [done|].
        assert (false = true) by (apply Hiff; eauto). done. }
    apply wp_done in Hwp as (r & b' & He & -> & Hiff). eauto.
Qed.

(** A request for no bits answers [start]; the comment in the source says 0. *)
Theorem bitmap_scan_zero b start v :
  wf_bitmap b → 0 <= start <= bit_cnt b → bitmap_scan_and_flip start 0 v b = Done (start, b).
Proof.
  intros Hwf Hs. apply wp_run_eq. pose proof (wb_cnt _ Hwf).
  unfold bitmap_scan_and_flip. wp_pure. eapply wp_mono; [by apply bitmap_scan_wp|].
  intros r b' (-> & [(H1 & H2 & _ & Hmin)|(-> & Hno)]).
  - assert (r = start) as ->.
    { destruct (decide (r = start)); [done|]. exfalso. apply (Hmin start); [lia|].
      intros j Hj. lia. }
    rewrite (proj2 (Z.eqb_neq start BITMAP_ERROR)) by (unfold BITMAP_ERROR; lia). simpl.
    wp_pure. unfold bitmap_set_multiple. wp_pure. apply assert_range_wp; [done|lia..|].
    simpl. by wp_pure.
  - exfalso. apply (Hno start); [lia..|]. intros j Hj. lia.
Qed.
