(* ===== verification/Hash.v ===== *)
(** * Hash tables (lib/kernel/hash.c)

    Buckets of elements, resizing, iteration, and the set of elements that a
    table represents. The buckets are lists of lib/kernel/list.c; they appear
    as the sequences that the list operations are proved to maintain. *)
From stdpp Require Import base numbers list sets sorting.
From Stdlib Require Import ZArith Lia.
From S2P Require Import Prelude Bytes DList ListOps ListSort.
Open Scope Z_scope.

(** struct hash; elements are addresses of [struct hash_elem], 0 is NULL.
    [heap_ok] lists whether the coming malloc calls succeed; when it is used
    up they do. *)
Record hash := Hash {
  elem_cnt : Z;
  bucket_cnt : Z;
  buckets : list (list Z);
  heap_ok : list bool;
}.

Definition set_elem_cnt n h := Hash n (bucket_cnt h) (buckets h) (heap_ok h).
Definition set_buckets b h := Hash (elem_cnt h) (bucket_cnt h) b (heap_ok h).

Definition hash_malloc : ST hash bool := λ h,
  match heap_ok h with
  | [] => Done (true, h)
  | b :: m => Done (b, Hash (elem_cnt h) (bucket_cnt h) (buckets h) m)
  end.

(** ** Hash functions *)

Definition FNV_64_PRIME : Z := 1099511628211.         (* 0x00000100000001B3 *)
Definition FNV_64_BASIS : Z := 14695981039346656037.  (* 0xcbf29ce484222325 *)

Definition fnv_step (hash byte : Z) : Z := Z.lxor (u64 (hash * FNV_64_PRIME)) byte.

Definition hash_bytes (buf : list Z) : Z := foldl fnv_step FNV_64_BASIS buf.

(** The bytes of [s] up to the null byte; a string without one is read past
    its end. *)
Fixpoint hash_string_from (hash : Z) (s : list Z) : outcome Z :=
  match s with
  | [] => Undef
  | c :: s => if c =? 0 then Done hash else hash_string_from (fnv_step hash c) s
  end.
Definition hash_string (s : list Z) : outcome Z := hash_string_from FNV_64_BASIS s.

Definition hash_int (i : Z) : Z := hash_bytes (le_bytes 4 (u32 i)).

(** ** The table *)

Definition turn_off_least_1bit (x : Z) : Z := Z.land x (u64 (x - 1)).
Definition is_power_of_2 (x : Z) : bool := negb (x =? 0) && (turn_off_least_1bit x =? 0).

Definition MIN_ELEMS_PER_BUCKET : Z := 1.
Definition BEST_ELEMS_PER_BUCKET : Z := 2.
Definition MAX_ELEMS_PER_BUCKET : Z := 4.

Section table.
(** hash_hash_func and hash_less_func with their auxiliary data. *)
Context (hash_func : Z → Z) (less : Z → Z → bool).

(** hash_clear; the answer is the sequence of elements that the destructor
    is called on. *)
Definition hash_clear (destructor : bool) : ST hash (list Z) :=
  h ← get_st;
  dead ← for_st (λ i dead,
    h ← get_st;
    bucket ← deref (zlookup (buckets h) i);
    _ ← modify (λ h, set_buckets (zinsert i [] (buckets h)) h);
    mret (if destructor then dead ++ bucket else dead)) (seqZ 0 (bucket_cnt h)) [];
  _ ← modify (set_elem_cnt 0);
  mret dead.

(** hash_init; [junk] is what the allocated buckets hold. *)
Definition hash_init (junk : list (list Z)) : ST hash bool :=
  _ ← modify (λ h, Hash 0 4 [] (heap_ok h));
  ok ← hash_malloc;
  if negb ok then mret false else
  _ ← modify (set_buckets junk);
  _ ← hash_clear false;
  mret true.

Definition hash_destroy (destructor : bool) : ST hash (list Z) :=
  dead ← (if destructor then hash_clear true else mret []);
  _ ← modify (set_buckets []);
  mret dead.

Definition find_bucket (e : Z) : ST hash Z :=
  h ← get_st; mret (Z.land (hash_func e) (u64 (bucket_cnt h - 1))).

(** The search through a bucket, 0 when there is no equal element. *)
Fixpoint find_in (bucket : list Z) (e : Z) : Z :=
  match bucket with
  | [] => 0
  | hi :: bucket =>
      if negb (less hi e) && negb (less e hi) then hi else find_in bucket e
  end.

Definition find_elem (bucket e : Z) : ST hash Z :=
  h ← get_st; b ← deref (zlookup (buckets h) bucket); mret (find_in b e).

(** list_push_front on a bucket *)
Definition push_bucket (bucket e : Z) : ST hash unit :=
  h ← get_st;
  b ← deref (zlookup (buckets h) bucket);
  modify (λ h, set_buckets (zinsert bucket (e :: b) (buckets h)) h).

Definition insert_elem (bucket e : Z) : ST hash unit :=
  _ ← modify (λ h, set_elem_cnt (u64 (elem_cnt h + 1)) h);
  push_bucket bucket e.

(** list_remove takes the element out of the bucket that it is in. *)
Definition remove_elem (e : Z) : ST hash unit :=
  _ ← modify (λ h, set_elem_cnt (u64 (elem_cnt h - 1)) h);
  modify (λ h, set_buckets (filter (λ x, x ≠ e) <$> buckets h) h).

Definition round_step (x : Z) : ST hash (Z + Z) :=
  if negb (is_power_of_2 x) then mret (inl (turn_off_least_1bit x)) else mret (inr x).

(** Buckets are sequences here: the new ones take the elements, and the array of
    the old ones, which the code frees, is dropped. *)
Definition rehash : ST hash unit :=
  h ← get_st;
  let old_buckets := buckets h in
  let old_bucket_cnt := bucket_cnt h in
  let new_bucket_cnt := elem_cnt h / BEST_ELEMS_PER_BUCKET in
  let new_bucket_cnt := if new_bucket_cnt <? 4 then 4 else new_bucket_cnt in
  new_bucket_cnt ← loop 66 round_step new_bucket_cnt;
  if new_bucket_cnt =? old_bucket_cnt then mret tt else
  ok ← hash_malloc;
  if negb ok then mret tt else
  _ ← modify (λ h, Hash (elem_cnt h) new_bucket_cnt (replicate (Z.to_nat new_bucket_cnt) [])
                     (heap_ok h));
  for_st (λ i _,
    old_bucket ← deref (zlookup old_buckets i);
    for_st (λ elem _, new_bucket ← find_bucket elem; push_bucket new_bucket elem)
      old_bucket tt) (seqZ 0 old_bucket_cnt) tt.

Definition hash_insert (new : Z) : ST hash Z :=
  bucket ← find_bucket new;
  old ← find_elem bucket new;
  _ ← (if old =? 0 then insert_elem bucket new else mret tt);
  _ ← rehash;
  mret old.

Definition hash_replace (new : Z) : ST hash Z :=
  bucket ← find_bucket new;
  old ← find_elem bucket new;
  _ ← (if negb (old =? 0) then remove_elem old else mret tt);
  _ ← insert_elem bucket new;
  _ ← rehash;
  mret old.

Definition hash_find (e : Z) : ST hash Z :=
  bucket ← find_bucket e; find_elem bucket e.

Definition hash_delete (e : Z) : ST hash Z :=
  bucket ← find_bucket e;
  found ← find_elem bucket e;
  if negb (found =? 0) then _ ← remove_elem found; _ ← rehash; mret found
  else mret found.

(** hash_apply; the answer is the sequence of elements that the action,
    which does not change the table, is called on. *)
Definition hash_apply : ST hash (list Z) :=
  h ← get_st;
  for_st (λ i acc, bucket ← deref (zlookup (buckets h) i); mret (acc ++ bucket))
    (seqZ 0 (bucket_cnt h)) [].

(** struct hash_iterator: the bucket and the number of its elements that
    have been passed (0 for the list head), or the end. *)
Record hash_iterator := Iter { it_bucket : Z; it_pos : nat; it_done : bool }.

Definition hash_first : ST hash hash_iterator := mret (Iter 0 0 false).

(** hash_cur: NULL at the end. *)
Definition hash_cur (h : hash) (i : hash_iterator) : Z :=
  if it_done i then 0
  else default 0 (b ← zlookup (buckets h) (it_bucket i); b !! Nat.pred (it_pos i)).

Definition next_step (i : hash_iterator) : ST hash (hash_iterator + hash_iterator) :=
  h ← get_st;
  bucket ← deref (zlookup (buckets h) (it_bucket i));
  if (length bucket <? it_pos i)%nat then
    let bucket := it_bucket i + 1 in
    if bucket_cnt h <=? bucket then mret (inr (Iter bucket 0 true))
    else mret (inl (Iter bucket 1 false))
  else mret (inr i).

(** hash_next from an iterator that is not at the end. *)
Definition hash_next (i : hash_iterator) : ST hash hash_iterator :=
  if it_done i then undef else
  h ← get_st;
  loop (S (Z.to_nat (bucket_cnt h))) next_step (Iter (it_bucket i) (S (it_pos i)) false).

Definition hash_size (h : hash) : Z := elem_cnt h.
Definition hash_empty (h : hash) : bool := elem_cnt h =? 0.
End table.

(** ** The elements of a table *)

Definition elems (h : hash) : list Z := concat (buckets h).

Section lists.
Implicit Types (bs : list (list Z)).

Lemma concat_insert_perm bs i b e :
  bs !! i = Some b → concat (<[i := e :: b]> bs) ≡ₚ e :: concat bs.
Proof.
  revert i. induction bs as [|c bs IH]; intros [|i]; simpl; [done|done| |].
  - by intros [= ->].
  - intros Hi. rewrite (IH i) by done. symmetry. apply Permutation_middle.
Qed.

Lemma concat_filter (P : Z → Prop) `{!∀ x, Decision (P x)} bs :
  concat (filter P <$> bs) = filter P (concat bs).
Proof. induction bs as [|c bs IH]; [done|]. rewrite fmap_cons. simpl. by rewrite filter_app, IH. Qed.

Lemma filter_remove_perm (l : list Z) e :
  NoDup l → e ∈ l → l ≡ₚ e :: filter (λ x, x ≠ e) l.
Proof.
  intros Hnd (l1 & l2 & ->)%list_elem_of_split.
  rewrite filter_app, filter_cons_False by naive_solver.
  apply NoDup_app in Hnd as (_ & Hd & [He _]%NoDup_cons).
  assert (Hall : ∀ l : list Z, e ∉ l → filter (λ x, x ≠ e) l = l).
  { induction l as [|x l IH]; intros Hx; [done|].
    rewrite filter_cons_True by set_solver. by rewrite IH by set_solver. }
  rewrite !Hall by set_solver. symmetry. apply Permutation_middle.
Qed.

Lemma elem_of_concat (x : Z) bs : x ∈ concat bs ↔ ∃ i b, bs !! i = Some b ∧ x ∈ b.
Proof.
  rewrite list_elem_of_In, in_concat. split.
  - intros (b & Hb & Hx). apply list_elem_of_In in Hb, Hx.
    apply list_elem_of_lookup in Hb as [i Hi]. eauto.
  - intros (i & b & Hi & Hx). exists b. rewrite <- !list_elem_of_In.
    split; [by eapply list_elem_of_lookup_2|done].
Qed.
End lists.

(** ** The largest power of two below a number *)

Section power.
Implicit Types (x j k : Z).

Lemma turn_off_small x : 0 < x < 2 ^ 64 → turn_off_least_1bit x = Z.land x (x - 1).
Proof. intros. unfold turn_off_least_1bit. by rewrite u64_small by lia. Qed.

Lemma land_le x j : 0 <= x → 0 <= j → Z.land x j <= j.
Proof.
  intros Hx Hj. rewrite <- (Z2N.id x), <- (Z2N.id j) by done.
  rewrite <- N2Z.inj_land. apply N2Z.inj_le, N.land_le_r.
Qed.

(** Turning off a bit of a number that is not a power of two keeps its
    highest bit. *)
Lemma turn_off_log2 x :
  0 < x < 2 ^ 64 → turn_off_least_1bit x ≠ 0 →
  0 < turn_off_least_1bit x < x ∧ Z.log2 (turn_off_least_1bit x) = Z.log2 x.
Proof.
  intros Hx Hne. rewrite turn_off_small in * by done.
  pose proof (Z.log2_spec x ltac:(lia)) as [Hlo Hhi].
  assert (Hnn : 0 <= Z.land x (x - 1)) by (apply Z.land_nonneg; lia).
  assert (Hle : Z.land x (x - 1) <= x - 1) by (apply land_le; lia).
  split; [lia|].
  assert (Hbig : x ≠ 2 ^ Z.log2 x).
  { intros Heq. apply Hne. apply Z.bits_inj_0. intros i. rewrite Z.land_spec, Heq at 1.
    pose proof (Z.log2_nonneg x). rewrite Z.pow2_bits_eqb by done.
    destruct (Z.eqb_spec (Z.log2 x) i) as [<-|]; [|done].
    simpl. apply Z.bits_above_log2; [lia|]. apply Z.log2_lt_pow2; [|lia].
    assert (x - 1 ≠ 0); [|lia]. intros H1. apply Hne. by rewrite H1, Z.land_0_r. }
  apply Z.log2_unique; [apply Z.log2_nonneg|]. split; [|lia].
  assert (Hb1 : Z.testbit x (Z.log2 x) = true) by (apply Z.bit_log2; lia).
  assert (Hb2 : Z.testbit (x - 1) (Z.log2 x) = true).
  { assert (Z.log2 (x - 1) = Z.log2 x) as <-; [|apply Z.bit_log2; lia].
    apply Z.log2_unique; [apply Z.log2_nonneg|lia]. }
  apply Z.le_ngt. intros Hlt. apply Z.log2_lt_pow2 in Hlt; [|lia].
  assert (Z.testbit (Z.land x (x - 1)) (Z.log2 x) = false) as Hf
    by (apply Z.bits_above_log2; lia).
  by rewrite Z.land_spec, Hb1, Hb2 in Hf.
Qed.

(** Each turn makes the number divisible by a higher power of two. *)
Lemma turn_off_divide x j :
  0 <= j → 0 < x < 2 ^ 64 → (2 ^ j | x) → (2 ^ (j + 1) | turn_off_least_1bit x).
Proof.
  intros Hj Hx [y ->]. rewrite turn_off_small by done.
  apply Z.mod_divide; [lia|]. apply Z.bits_inj_0. intros i.
  destruct (Z.le_gt_cases 0 i) as [Hi|Hi]; [|by apply Z.testbit_neg_r].
  destruct (Z.le_gt_cases (j + 1) i) as [Hji|Hji]; [by rewrite Z.mod_pow2_bits_high by lia|].
  rewrite Z.mod_pow2_bits_low, Z.land_spec by lia.
  destruct (Z.eq_dec i j) as [->|Hne].
  - rewrite !Z.testbit_odd, !Z.shiftr_div_pow2, Z.div_mul by lia.
    replace ((y * 2 ^ j - 1) / 2 ^ j) with (y - 1).
    + replace (y - 1) with (y + -1) by lia. rewrite Z.odd_add. by destruct (Z.odd y).
    + apply Z.div_unique with (2 ^ j - 1); lia.
  - by rewrite Z.mul_pow2_bits_low by lia.
Qed.

Lemma turn_off_zero x : 0 < x < 2 ^ 64 → turn_off_least_1bit x = 0 → x = 2 ^ Z.log2 x.
Proof.
  intros Hx H0. rewrite turn_off_small in H0 by done.
  pose proof (Z.log2_spec x ltac:(lia)) as [Hlo Hhi].
  destruct (Z.eq_dec x (2 ^ Z.log2 x)) as [|Hne]; [done|]. exfalso.
  assert (x ≠ 1) by (intros ->; by apply Hne).
  assert (Hb1 : Z.testbit x (Z.log2 x) = true) by (apply Z.bit_log2; lia).
  assert (Hb2 : Z.testbit (x - 1) (Z.log2 x) = true).
  { assert (Z.log2 (x - 1) = Z.log2 x) as <-; [|apply Z.bit_log2; lia].
    apply Z.log2_unique; [apply Z.log2_nonneg|lia]. }
  assert (Z.testbit (Z.land x (x - 1)) (Z.log2 x) = true) as Ht
    by (by rewrite Z.land_spec, Hb1, Hb2).
  by rewrite H0, Z.bits_0 in Ht.
Qed.

(** The loop of rehash computes the largest power of two not above [x]. *)
Lemma round_loop_wp x (h : hash) :
  0 < x < 2 ^ 64 → wp (loop 66 round_step x) h (λ r h', h' = h ∧ r = 2 ^ Z.log2 x).
Proof.
  intros Hx.
  apply (wp_loop (λ n y h', h' = h ∧ 0 < y <= x ∧ Z.log2 y = Z.log2 x ∧
    (n <= 65)%nat ∧ (2 ^ Z.of_nat (65 - n) | y)) _ _ 65); [| |lia].
  - intros n y h' (-> & Hy & Hlog & Hn & Hdiv). unfold round_step, is_power_of_2.
    rewrite (proj2 (Z.eqb_neq y 0)) by lia.
    destruct (Z.eqb_spec (turn_off_least_1bit y) 0) as [H0|H0]; simpl.
    + wp_pure. split; [done|]. rewrite <- Hlog. apply turn_off_zero; [lia|done].
    + wp_pure. destruct (turn_off_log2 y) as [Hr Hl]; [lia|done|].
      assert (Hn1 : (1 ≤ n)%nat).
      { destruct n; [|lia]. apply Z.divide_pos_le in Hdiv; [|lia].
        change (2 ^ Z.of_nat (65 - 0)) with 36893488147419103232 in Hdiv. lia. }
      exists (n - 1)%nat. split; [lia|]. split; [done|]. split; [lia|]. split; [congruence|].
      split; [lia|]. replace (Z.of_nat (65 - (n - 1))) with (Z.of_nat (65 - n) + 1) by lia.
      apply turn_off_divide; [lia|lia|done].
  - split; [done|]. split; [lia|]. split; [done|]. split; [lia|]. apply Z.divide_1_l.
Qed.
End power.

(** ** What the operations do to the set of elements *)

(** What the code needs of its two functions: a strict weak order, and equal
    elements with equal hashes. *)
Class HashOk (hash_func : Z → Z) (less : Z → Z → bool) : Prop := {
  hash_order : WeakOrder less;
  hash_equiv : ∀ x y, equiv less x y → hash_func x = hash_func y;
  hash_nonneg : ∀ x, 0 <= hash_func x < 2 ^ 64;
}.

(** The number of buckets that rehash aims at. *)
Definition ideal_buckets (n : Z) : Z := 2 ^ Z.log2 (Z.max 4 (n / 2)).

Section contract.
Context (hash_func : Z → Z) (less : Z → Z → bool) `{!HashOk hash_func less}.
Implicit Types (h : hash) (e x y i : Z).

#[local] Instance less_order : WeakOrder less := hash_order (hash_func := hash_func).

Definition index h e : Z := Z.land (hash_func e) (bucket_cnt h - 1).

(** The buckets: a power of two of them, each element in the one of its hash. *)
Record shape h : Prop := {
  sh_power : ∃ k, 2 <= k < 64 ∧ bucket_cnt h = 2 ^ k;
  sh_length : zlength (buckets h) = bucket_cnt h;
  sh_place : ∀ i b e, zlookup (buckets h) i = Some b → e ∈ b → i = index h e;
}.

Record wf_hash h : Prop := {
  wh_shape : shape h;
  wh_count : elem_cnt h = zlength (elems h);
  wh_nodup : NoDup (elems h);
  wh_keys : ∀ x y, x ∈ elems h → y ∈ elems h → equiv less x y → x = y;
  wh_null : 0 ∉ elems h;
  wh_small : zlength (elems h) < 2 ^ 62;
}.

Lemma shape_cnt h : shape h → 4 <= bucket_cnt h < 2 ^ 64.
Proof.
  intros [(k & Hk & ->) _ _]. split.
  - change 4 with (2 ^ 2). apply Z.pow_le_mono_r; lia.
  - apply Z.pow_lt_mono_r; lia.
Qed.

Lemma index_range h e : shape h → 0 <= index h e < bucket_cnt h.
Proof.
  intros [(k & Hk & Hc) _ _]. unfold index. rewrite Hc.
  replace (2 ^ k - 1) with (Z.ones k) by (rewrite Z.ones_equiv; lia).
  rewrite Z.land_ones by lia. apply Z.mod_pos_bound. apply Z.pow_pos_nonneg; lia.
Qed.

Lemma find_bucket_wp h e (Q : Z → hash → Prop) :
  shape h → Q (index h e) h → wp (find_bucket hash_func e) h Q.
Proof.
  intros Hs HQ. pose proof (shape_cnt h Hs). unfold find_bucket. wp_pure.
  rewrite u64_small by lia. exact HQ.
Qed.

Lemma bucket_at h e : shape h → ∃ b, zlookup (buckets h) (index h e) = Some b.
Proof.
  intros Hs. apply zlookup_is_Some. rewrite (sh_length _ Hs). by apply index_range.
Qed.

(** Equal elements are only found in the bucket of the hash. *)
Lemma in_bucket h e x b :
  shape h → zlookup (buckets h) (index h e) = Some b → equiv less e x → x ∈ elems h → x ∈ b.
Proof.
  intros Hs Hb He Hx. apply elem_of_concat in Hx as (i & c & Hi & Hx).
  assert (Hz : zlookup (buckets h) (Z.of_nat i) = Some c).
  { rewrite zlookup_nat by lia. by rewrite Nat2Z.id. }
  pose proof (sh_place _ Hs _ _ _ Hz Hx) as Hix. unfold index in Hix, Hb.
  rewrite (hash_equiv e x He), <- Hix, Hz in Hb. congruence.
Qed.

Lemma find_in_spec b e :
  0 ∉ b → (find_in less b e ≠ 0 ∧ find_in less b e ∈ b ∧ equiv less e (find_in less b e)) ∨
          (find_in less b e = 0 ∧ ∀ x, x ∈ b → ¬ equiv less e x).
Proof.
  induction b as [|y b IH]; intros H0; simpl.
  { right. split; [done|]. set_solver. }
  destruct (less y e) eqn:H1, (less e y) eqn:H2; simpl.
  4: { left. split; [set_solver|]. split; [set_solver|done]. }
  all: destruct IH as [(?&?&?)|(?&Hno)]; [set_solver|left; split_and!; [done|set_solver|done]|].
  all: right; split; [done|]; intros x [->|Hx]%elem_of_cons; [|by apply Hno].
  all: intros [??]; congruence.
Qed.

Lemma find_elem_wp h e :
  wf_hash h → wp (find_elem less (index h e) e) h (λ r h', h' = h ∧
    ((r ≠ 0 ∧ r ∈ elems h ∧ equiv less e r) ∨ (r = 0 ∧ ∀ x, x ∈ elems h → ¬ equiv less e x))).
Proof.
  intros [Hs _ _ _ H0 _]. unfold find_elem. wp_pure. destruct (bucket_at h e Hs) as [b Hb].
  wp_step; [exact Hb|]. wp_pure. split; [done|].
  assert (Hsub : ∀ x, x ∈ b → x ∈ elems h).
  { intros x Hx. apply elem_of_concat. exists (Z.to_nat (index h e)), b.
    rewrite <- zlookup_nat; [done|]. by apply index_range. }
  destruct (find_in_spec b e) as [(?&?&?)|(?&Hno)]; [by intros ?%Hsub| |].
  - left. auto.
  - right. split; [done|]. intros x Hx Heq. apply (Hno x); [|done]. by eapply in_bucket.
Qed.

(** list_push_front of an element on its bucket *)
Lemma push_bucket_wp h e :
  shape h → wp (push_bucket (index h e) e) h (λ _ h', shape h' ∧ elem_cnt h' = elem_cnt h ∧
    bucket_cnt h' = bucket_cnt h ∧ elems h' ≡ₚ e :: elems h ∧ heap_ok h' = heap_ok h).
Proof.
  intros Hs. pose proof (index_range h e Hs) as Hr. destruct (bucket_at h e Hs) as [b Hb].
  unfold push_bucket. wp_pure. wp_step; [exact Hb|]. wp_pure. split; [|split; [done|split; [done|split; [|done]]]].
  - destruct Hs as [Hk Hl Hp]. split; simpl; [done|by rewrite zlength_zinsert|].
    intros i c x. destruct (Z.eq_dec i (index h e)) as [->|Hne].
    + rewrite zlookup_zinsert by lia. intros [= <-] [->|Hx]%elem_of_cons; [done|]. by eapply Hp.
    + rewrite zlookup_zinsert_ne by lia. apply Hp.
  - unfold elems, zinsert. simpl. apply concat_insert_perm. by rewrite <- zlookup_nat by lia.
Qed.

Lemma wp_hash_malloc h (Q : bool → hash → Prop) :
  (∀ b m, (heap_ok h = [] → b = true ∧ m = []) →
     Q b (Hash (elem_cnt h) (bucket_cnt h) (buckets h) m)) →
  wp hash_malloc h Q.
Proof.
  intros HQ. unfold wp, hash_malloc. destruct h as [n c b [|ok m]]; simpl in *.
  - by apply (HQ true []).
  - by apply HQ.
Qed.

(** [h'] is [h] with the elements [l] put in. *)
Definition filled_with h (l : list Z) h' : Prop :=
  shape h' ∧ elem_cnt h' = elem_cnt h ∧ bucket_cnt h' = bucket_cnt h ∧
  elems h' ≡ₚ l ++ elems h ∧ heap_ok h' = heap_ok h.

Lemma push_all_wp h l :
  shape h →
  wp (for_st (λ elem _, new_bucket ← find_bucket hash_func elem; push_bucket new_bucket elem) l tt) h
    (λ _ h', filled_with h l h').
Proof.
  intros Hs. apply (wp_for (λ p _ h', filled_with h p h')).
  - intros p e r [] h' _ (Hs' & H1 & H2 & H3 & H4). wp_pure. apply find_bucket_wp; [done|].
    eapply wp_mono; [by apply push_bucket_wp|]. intros [] h2 (Hs2 & H5 & H6 & H7 & H8).
    split; [done|]. split_and!; [congruence..| |congruence].
    rewrite H7, H3, <- app_assoc. apply Permutation_middle.
  - done.
  - done.
Qed.

(** Moving the elements of the old buckets [bs]. *)
Lemma move_all_wp h bs :
  shape h →
  wp (for_st (λ i _,
    old_bucket ← deref (zlookup bs i);
    for_st (λ elem _, new_bucket ← find_bucket hash_func elem; push_bucket new_bucket elem)
      old_bucket tt) (seqZ 0 (zlength bs)) tt) h
    (λ _ h', shape h' ∧ elem_cnt h' = elem_cnt h ∧ bucket_cnt h' = bucket_cnt h ∧
       elems h' ≡ₚ concat bs ++ elems h ∧ heap_ok h' = heap_ok h).
Proof.
  intros Hs. apply (wp_for (λ p _ h', filled_with h (concat (take (length p) bs)) h')).
  - intros p i r [] h' Hp (Hs' & H1 & H2 & H3 & H4).
    assert (i = Z.of_nat (length p) ∧ i < zlength bs) as [-> Hlt].
    { assert (seqZ 0 (zlength bs) !! length p = Some i) as Hl by (by rewrite Hp, list_lookup_middle).
      apply lookup_seqZ in Hl. lia. }
    destruct (zlookup_is_Some bs (Z.of_nat (length p))) as [b Hb]; [lia|].
    wp_pure. wp_step; [exact Hb|]. eapply wp_mono; [by apply push_all_wp|].
    intros [] h2 (Hs2 & H5 & H6 & H7 & H8). split; [done|].
    split_and!; [congruence..| |congruence].
    rewrite zlookup_nat, Nat2Z.id in Hb by lia. rewrite length_app, Nat.add_1_r.
    rewrite (take_S_r _ _ b) by done. rewrite concat_app, H7, H3. simpl. rewrite app_nil_r.
    rewrite app_assoc. by rewrite (Permutation_app_comm b).
  - done.
  - intros [] h' (? & ? & ? & Hp & ?). split_and!; try done.
    rewrite length_seqZ in Hp. unfold zlength in Hp. by rewrite Nat2Z.id, take_ge in Hp by lia.
Qed.

(** rehash keeps the elements and brings the number of buckets to the ideal
    one unless memory is short. *)
Lemma rehash_wp h :
  wf_hash h → wp (rehash hash_func) h (λ _ h', wf_hash h' ∧ elems h' ≡ₚ elems h ∧
    (heap_ok h = [] → bucket_cnt h' = ideal_buckets (elem_cnt h) ∧ heap_ok h' = [])).
Proof.
  intros Hwf. pose proof Hwf as [Hs Hc Hnd Hk H0 Hsm]. unfold rehash. wp_pure.
  unfold BEST_ELEMS_PER_BUCKET.
  replace (if elem_cnt h / 2 <? 4 then 4 else elem_cnt h / 2) with (Z.max 4 (elem_cnt h / 2))
    by (destruct (Z.ltb_spec (elem_cnt h / 2) 4); lia).
  assert (Hn : 4 <= Z.max 4 (elem_cnt h / 2) < 2 ^ 63) by (unfold zlength in *; zdiv).
  eapply wp_mono; [apply round_loop_wp; lia|]. intros new ? (-> & ->).
  fold (ideal_buckets (elem_cnt h)). set (new := ideal_buckets (elem_cnt h)).
  assert (Hnew : ∃ k, 2 <= k < 64 ∧ new = 2 ^ k).
  { exists (Z.log2 (Z.max 4 (elem_cnt h / 2))). split; [|done]. split.
    - change 2 with (Z.log2 4). apply Z.log2_le_mono. lia.
    - apply Z.log2_lt_pow2; lia. }
  destruct (Z.eqb_spec new (bucket_cnt h)) as [He|He]; [by wp_pure|].
  wp_pure. apply wp_hash_malloc. intros ok m Hm.
  destruct ok; simpl; [|].
  2: { wp_pure. split; [|split; [done|]]; [|intros H; by destruct (Hm H)].
       destruct Hs. by split. }
  wp_pure. simpl.
  assert (Hs1 : shape (Hash (elem_cnt h) new (replicate (Z.to_nat new) []) m)).
  { split; simpl; [done| |].
    - unfold zlength. rewrite length_replicate. destruct Hnew as (k & Hk1 & ->). lia.
    - intros i b e Hi He1. rewrite zlookup_nat in Hi.
      + apply lookup_replicate in Hi as [-> _]. set_solver.
      + apply zlookup_Some_range in Hi. lia. }
  rewrite <- (sh_length _ Hs). eapply wp_mono; [by apply move_all_wp|].
  intros [] h' (Hs' & H1 & H2 & H3 & H4). simpl in *.
  assert (Hp : elems h' ≡ₚ elems h).
  { rewrite H3. unfold elems. simpl.
    assert (∀ n, concat (replicate n []) = @nil Z) as -> by (by induction n). by rewrite app_nil_r. }
  split; [|split; [done|]].
  - split; try done.
    + rewrite H1, Hc. unfold zlength. by rewrite Hp.
    + by rewrite Hp.
    + intros x y. rewrite !Hp. apply Hk.
    + by rewrite Hp.
    + unfold zlength in *. by rewrite Hp.
  - intros H. destruct (Hm H) as [_ ->]. done.
Qed.

Lemma wf_add h e :
  wf_hash h → e ≠ 0 → zlength (elems h) + 1 < 2 ^ 62 → (∀ x, x ∈ elems h → ¬ equiv less e x) →
  ∀ h', shape h' → elem_cnt h' = u64 (elem_cnt h + 1) → elems h' ≡ₚ e :: elems h → wf_hash h'.
Proof.
  intros [Hs Hc Hnd Hk H0 Hsm] He Hlen Hno h' Hs' Hc' Hp.
  assert (zlength (elems h') = zlength (elems h) + 1) as Hl.
  { unfold zlength. rewrite Hp. simpl. lia. }
  split; try done.
  - rewrite Hc', u64_small; unfold zlength in *; lia.
  - rewrite Hp. constructor; [|done]. intros Hin. apply (Hno e Hin).
    split; by apply (le_refl less).
  - intros x y. rewrite !Hp, !elem_of_cons. intros [->|Hx] [->|Hy] Heq; try done.
    + exfalso. by apply (Hno y).
    + exfalso. apply (Hno x); [done|]. by destruct Heq.
    + by apply Hk.
  - rewrite Hp. set_solver.
  - lia.
Qed.

Lemma wf_remove h e :
  wf_hash h → e ∈ elems h →
  let h' := set_buckets (filter (λ x, x ≠ e) <$> buckets h)
              (set_elem_cnt (u64 (elem_cnt h - 1)) h) in
  wf_hash h' ∧ elems h ≡ₚ e :: elems h'.
Proof.
  intros [Hs Hc Hnd Hk H0 Hsm] He h'.
  assert (Hel : elems h' = filter (λ x, x ≠ e) (elems h)) by (apply concat_filter).
  assert (Hp : elems h ≡ₚ e :: elems h') by (rewrite Hel; by apply filter_remove_perm).
  assert (Hsub : ∀ x, x ∈ elems h' → x ∈ elems h) by (intros x Hx; rewrite Hp; by right).
  assert (Hl : zlength (elems h) = zlength (elems h') + 1).
  { unfold zlength. rewrite Hp. simpl. lia. }
  split; [|done]. split.
  - destruct Hs as [Hpw Hlen Hpl]. split; simpl; [done| |].
    + unfold zlength. by rewrite length_fmap.
    + intros i b x Hi Hx. pose proof (zlookup_Some_range _ _ _ Hi) as Hr.
      rewrite zlookup_nat, list_lookup_fmap in Hi by lia.
      destruct (buckets h !! Z.to_nat i) as [c|] eqn:Hci; [|done]. injection Hi as <-.
      apply list_elem_of_filter in Hx as [_ Hx]. apply (Hpl i c x); [|done].
      by rewrite zlookup_nat by lia.
  - simpl. rewrite Hc, u64_small; unfold zlength in *; lia.
  - rewrite Hel. by apply NoDup_filter.
  - intros x y Hx Hy. apply Hk; auto.
  - auto.
  - lia.
Qed.

(** Whether [e] has an equal element in the table, and which. *)
Definition found h e r : Prop :=
  (r ≠ 0 ∧ r ∈ elems h ∧ equiv less e r) ∨ (r = 0 ∧ ∀ x, x ∈ elems h → ¬ equiv less e x).

Lemma insert_elem_wp h e :
  wf_hash h → e ≠ 0 → zlength (elems h) + 1 < 2 ^ 62 → (∀ x, x ∈ elems h → ¬ equiv less e x) →
  wp (insert_elem (index h e) e) h (λ _ h', wf_hash h' ∧ elems h' ≡ₚ e :: elems h ∧
    bucket_cnt h' = bucket_cnt h).
Proof.
  intros Hwf He Hlen Hno. unfold insert_elem. wp_pure.
  set (h1 := set_elem_cnt (u64 (elem_cnt h + 1)) h).
  assert (Hs1 : shape h1) by (destruct (wh_shape _ Hwf); by split).
  eapply wp_mono; [apply (push_bucket_wp h1 e Hs1)|].
  intros [] h' (Hs' & H1 & H2 & H3 & _). split; [|done]. by eapply wf_add.
Qed.

Lemma hash_find_wp h e :
  wf_hash h → wp (hash_find hash_func less e) h (λ r h', h' = h ∧ found h e r).
Proof.
  intros Hwf. unfold hash_find. wp_pure. apply find_bucket_wp; [apply Hwf|].
  by apply find_elem_wp.
Qed.

Lemma hash_insert_wp h e :
  wf_hash h → e ≠ 0 → zlength (elems h) + 1 < 2 ^ 62 →
  wp (hash_insert hash_func less e) h (λ r h', wf_hash h' ∧ found h e r ∧
    elems h' ≡ₚ (if decide (r = 0) then e :: elems h else elems h)).
Proof.
  intros Hwf He Hlen. unfold hash_insert. wp_pure. apply find_bucket_wp; [apply Hwf|]. wp_pure.
  eapply wp_mono; [by apply find_elem_wp|]. intros r ? [-> Hf]. wp_pure.
  destruct Hf as [(Hr & Hin & Heq)|(-> & Hno)].
  - rewrite (proj2 (Z.eqb_neq r 0)) by done. wp_pure. eapply wp_mono; [by apply rehash_wp|].
    intros [] h' (Hwf' & Hp & _). wp_pure. rewrite decide_False by done.
    split; [done|]. split; [left; done|done].
  - simpl. eapply wp_mono; [by apply insert_elem_wp|]. intros [] h1 (Hwf1 & Hp1 & _). wp_pure.
    eapply wp_mono; [by apply rehash_wp|]. intros [] h' (Hwf' & Hp & _). wp_pure.
    split; [done|]. split; [by right|]. by rewrite Hp.
Qed.

Lemma hash_delete_wp h e :
  wf_hash h →
  wp (hash_delete hash_func less e) h (λ r h', wf_hash h' ∧ found h e r ∧
    elems h ≡ₚ (if decide (r = 0) then elems h' else r :: elems h')).
Proof.
  intros Hwf. unfold hash_delete. wp_pure. apply find_bucket_wp; [apply Hwf|]. wp_pure.
  eapply wp_mono; [by apply find_elem_wp|]. intros r ? [-> Hf].
  destruct Hf as [(Hr & Hin & Heq)|(-> & Hno)].
  - rewrite (proj2 (Z.eqb_neq r 0)) by done. simpl. unfold remove_elem. wp_pure. simpl.
    destruct (wf_remove h r Hwf Hin) as [Hwf1 Hp1].
    eapply wp_mono; [by apply (rehash_wp _ Hwf1)|]. intros [] h' (Hwf' & Hp & _). wp_pure.
    rewrite decide_False by done. split; [done|]. split; [by left|]. by rewrite Hp.
  - simpl. wp_pure. split; [done|]. split; [by right|done].
Qed.

Lemma hash_replace_wp h e :
  wf_hash h → e ≠ 0 → zlength (elems h) + 1 < 2 ^ 62 →
  wp (hash_replace hash_func less e) h (λ r h', wf_hash h' ∧ found h e r ∧
    e :: elems h ≡ₚ (if decide (r = 0) then elems h' else r :: elems h')).
Proof.
  intros Hwf He Hlen. unfold hash_replace. wp_pure. apply find_bucket_wp; [apply Hwf|]. wp_pure.
  eapply wp_mono; [by apply find_elem_wp|]. intros r ? [-> Hf]. wp_pure.
  destruct Hf as [(Hr & Hin & Heq)|(-> & Hno)].
  - rewrite (proj2 (Z.eqb_neq r 0)) by done. simpl. unfold remove_elem. wp_pure. simpl.
    destruct (wf_remove h r Hwf Hin) as [Hwf1 Hp1]. cbv zeta in *.
    set (h1 := set_buckets _ _) in *.
    change (index h e) with (index h1 e).
    assert (Hle : zlength (elems h) = zlength (elems h1) + 1).
    { unfold zlength. rewrite Hp1. simpl. lia. }
    eapply wp_mono.
    { apply (insert_elem_wp h1 e); [done|done|lia|].
      intros x Hx Hex.
      assert (x = r) as ->.
      { apply (wh_keys _ Hwf); [rewrite Hp1; by right|done|].
        destruct Heq, Hex. split; by eapply less_ntrans. }
      pose proof (wh_nodup _ Hwf) as Hnd. rewrite Hp1 in Hnd. by apply NoDup_cons in Hnd as []. }
    intros [] h2 (Hwf2 & Hp2 & _). wp_pure. eapply wp_mono; [by apply (rehash_wp h2)|].
    intros [] h' (Hwf' & Hp & _). wp_pure. rewrite decide_False by done.
    split; [done|]. split; [by left|]. rewrite Hp, Hp2, Hp1. apply perm_swap.
  - simpl. wp_pure. eapply wp_mono; [by apply insert_elem_wp|]. intros [] h1 (Hwf1 & Hp1 & _).
    wp_pure. eapply wp_mono; [by apply rehash_wp|]. intros [] h' (Hwf' & Hp & _). wp_pure.
    split; [done|]. split; [by right|]. rewrite decide_True by done. by rewrite Hp.
Qed.
End contract.

(** ** Iteration *)

(** The loop of the documentation: while (hash_next (&i)) ... hash_cur (&i) ... *)
Fixpoint visit (fuel : nat) (i : hash_iterator) : ST hash (list Z) :=
  match fuel with
  | O => λ _, NoFuel
  | S n =>
      i ← hash_next i;
      if it_done i then mret [] else
      h ← get_st;
      rest ← visit n i;
      mret (hash_cur h i :: rest)
  end.

Section iteration.
Context (h : hash) (Hlen : zlength (buckets h) = bucket_cnt h).

(** What an iterator has not passed yet. *)
Definition remaining (i : hash_iterator) : list Z :=
  drop (it_pos i) (default [] (zlookup (buckets h) (it_bucket i))) ++
  concat (drop (S (Z.to_nat (it_bucket i))) (buckets h)).

Definition valid_iter (i : hash_iterator) : Prop :=
  it_done i = false ∧ ∃ b, zlookup (buckets h) (it_bucket i) = Some b ∧
    (it_pos i ≤ length b)%nat.

Lemma hash_next_wp i :
  valid_iter i →
  wp (hash_next i) h (λ i' h', h' = h ∧
    match remaining i with
    | [] => it_done i' = true
    | x :: r => valid_iter i' ∧ hash_cur h i' = x ∧ remaining i' = r
    end).
Proof.
  intros (Hd & b & Hb & Hpos). unfold hash_next. rewrite Hd. wp_pure.
  apply (wp_loop (λ n j h', h' = h ∧ n = Z.to_nat (bucket_cnt h - it_bucket j) ∧
    it_done j = false ∧ (1 ≤ it_pos j)%nat ∧
    (∃ c, zlookup (buckets h) (it_bucket j) = Some c ∧ (it_pos j ≤ S (length c))%nat) ∧
    remaining (Iter (it_bucket j) (pred (it_pos j)) false) = remaining i) _ _
    (Z.to_nat (bucket_cnt h - it_bucket i))).
  - intros n j h' (-> & -> & Hdj & Hp1 & (c & Hc & Hp) & Hrem). unfold next_step. wp_pure.
    wp_step; [exact Hc|]. pose proof (zlookup_Some_range _ _ _ Hc) as Hr.
    destruct (Nat.ltb_spec (length c) (it_pos j)) as [Hlt|Hge].
    + assert (Hskip : remaining i = concat (drop (S (Z.to_nat (it_bucket j))) (buckets h))).
      { rewrite <- Hrem. unfold remaining. simpl. rewrite Hc. simpl.
        rewrite drop_ge by lia. done. }
      destruct (Z.leb_spec (bucket_cnt h) (it_bucket j + 1)) as [Hle|Hgt]; wp_pure.
      * split; [done|]. rewrite Hskip, drop_ge; [done|]. unfold zlength in *. lia.
      * destruct (zlookup_is_Some (buckets h) (it_bucket j + 1)) as [c2 Hc2]; [lia|].
        eexists; split; [|split; [done|split; [reflexivity|split; [done|split; [done|]]]]].
        -- simpl. lia.
        -- simpl. split; [exists c2; split; [done|lia]|]. rewrite Hskip. unfold remaining. simpl.
           rewrite Hc2. simpl. rewrite drop_0.
           rewrite zlookup_nat in Hc2 by lia.
           replace (S (Z.to_nat (it_bucket j))) with (Z.to_nat (it_bucket j + 1)) by lia.
           rewrite (drop_S _ _ _ Hc2). done.
    + wp_pure. split; [done|]. rewrite <- Hrem. unfold remaining at 1. simpl. rewrite Hc. simpl.
      destruct (lookup_lt_is_Some_2 c (pred (it_pos j))) as [x Hx]; [lia|].
      rewrite (drop_S _ _ _ Hx). simpl. split; [|split].
      * split; [done|]. eauto.
      * unfold hash_cur. rewrite Hdj, Hc. simpl. by rewrite Hx.
      * unfold remaining. rewrite Hc. simpl. do 2 f_equal. lia.
  - simpl. split; [done|]. split; [done|]. split; [done|]. split; [lia|]. split; [|by destruct i].
    exists b. split; [done|lia].
  - pose proof (zlookup_Some_range _ _ _ Hb). lia.
Qed.

Lemma visit_wp n i :
  valid_iter i → (length (remaining i) < n)%nat →
  wp (visit n i) h (λ l h', h' = h ∧ l = remaining i).
Proof.
  revert i. induction n as [|n IH]; intros i Hv Hn; [lia|]. simpl. wp_pure.
  eapply wp_mono; [by apply hash_next_wp|]. intros i' ? [-> Hi'].
  destruct (remaining i) as [|x r].
  - rewrite Hi'. by wp_pure.
  - destruct Hi' as (Hv' & Hc & Hr). pose proof Hv' as (Hd & _). rewrite Hd. wp_pure.
    eapply wp_mono; [apply IH; [done|simpl in Hn; rewrite Hr; lia]|].
    intros l ? [-> ->]. wp_pure. split; [done|]. by rewrite Hc, Hr.
Qed.
End iteration.

(** ** Properties *)

(** hash_insert keeps the table well formed; it adds the element if and only
    if no equal one is there, and otherwise answers with that one. *)
Theorem hash_insert_spec hash_func less `{!HashOk hash_func less} h e :
  wf_hash hash_func less h → e ≠ 0 → zlength (elems h) + 1 < 2 ^ 62 →
  ∃ r h', hash_insert hash_func less e h = Done (r, h') ∧ wf_hash hash_func less h' ∧
    found less h e r ∧ elems h' ≡ₚ (if decide (r = 0) then e :: elems h else elems h).
Proof. intros. apply wp_run. by apply hash_insert_wp. Qed.

(** hash_delete removes exactly the equal element, hash_find does not change
    anything, and hash_replace exchanges the equal element for the new one. *)
Theorem hash_delete_find_replace_spec hash_func less `{!HashOk hash_func less} h e :
  wf_hash hash_func less h → e ≠ 0 → zlength (elems h) + 1 < 2 ^ 62 →
  (∃ r h', hash_delete hash_func less e h = Done (r, h') ∧ wf_hash hash_func less h' ∧
     found less h e r ∧ elems h ≡ₚ (if decide (r = 0) then elems h' else r :: elems h')) ∧
  (∃ r, hash_find hash_func less e h = Done (r, h) ∧ found less h e r) ∧
  (∃ r h', hash_replace hash_func less e h = Done (r, h') ∧ wf_hash hash_func less h' ∧
     found less h e r ∧ e :: elems h ≡ₚ (if decide (r = 0) then elems h' else r :: elems h')).
Proof.
  intros Hwf He Hlen. split; [|split].
  - apply wp_run. by apply hash_delete_wp.
  - destruct (wp_run _ _ _ (hash_find_wp hash_func less h e Hwf)) as (r & h' & Hr & -> & Hf). eauto.
  - apply wp_run. by apply hash_replace_wp.
Qed.

(** C37: Resizing keeps the elements, and reaches the power of two below half the
    number of elements (at least four) whenever memory is available. *)
Theorem rehash_spec hash_func less `{!HashOk hash_func less} h :
  wf_hash hash_func less h →
  ∃ h', rehash hash_func h = Done (tt, h') ∧ wf_hash hash_func less h' ∧ elems h' ≡ₚ elems h ∧
    (heap_ok h = [] → bucket_cnt h' = ideal_buckets (elem_cnt h)).
Proof.
  intros Hwf. apply wp_run_unit. eapply wp_mono; [by apply (rehash_wp hash_func less)|].
  intros [] h' (? & ? & H). split; [done|]. split; [done|]. intros Hm. by apply H.
Qed.

(** An iteration visits every element of the table exactly once. *)
Theorem hash_iteration_spec hash_func less `{!HashOk hash_func less} h :
  wf_hash hash_func less h →
  ∃ l, (i ← hash_first; visit (S (length (elems h))) i) h = Done (l, h) ∧ l ≡ₚ elems h ∧ NoDup l.
Proof.
  intros Hwf. pose proof (wh_shape _ _ _ Hwf) as Hs.
  assert (Hlen : zlength (buckets h) = bucket_cnt h) by apply (sh_length _ _ Hs).
  destruct (zlookup_is_Some (buckets h) 0) as [b Hb].
  { pose proof (shape_cnt _ _ Hs). lia. }
  assert (Hrem : remaining h (Iter 0 0 false) = elems h).
  { unfold remaining, elems. simpl. rewrite Hb. simpl. rewrite zlookup_nat in Hb by lia.
    simpl in Hb. destruct (buckets h) as [|c bs]; [done|]. injection Hb as ->. done. }
  exists (elems h). split; [|split; [done|apply Hwf]].
  apply wp_run_eq. unfold hash_first. wp_pure.
  eapply wp_mono; [apply (visit_wp h Hlen)|].
  - split; [done|]. exists b. split; [done|simpl; lia].
  - rewrite Hrem. lia.
  - intros l ? [-> ->]. by rewrite Hrem.
Qed.
