(* ===== verification/Arith.v ===== *)
(** * 64-bit division (lib/arithmetic.c)

    The software division with its bit tricks and the trap of the DIVL
    instruction. *)
From stdpp Require Import base numbers.
From Stdlib Require Import ZArith Lia.
From S2P Require Import Prelude.
Open Scope Z_scope.

(** Signed arithmetic is undefined outside its type. *)
Definition as_int (x : Z) : outcome Z :=
  if (- 2 ^ 31 <=? x) && (x <? 2 ^ 31) then Done x else Undef.
Definition as_int64 (x : Z) : outcome Z :=
  if (- 2 ^ 63 <=? x) && (x <? 2 ^ 63) then Done x else Undef.

(** ** lib/arithmetic.c *)

(** The DIVL instruction: a trap when the quotient has more than 32 bits. *)
Definition divl (n d : Z) : outcome Z :=
  if d =? 0 then Panic else
  let q := n / d in if q <? 2 ^ 32 then Done q else Panic.

Definition nlz_step (limit k : Z) (xn : Z * Z) : Z * Z :=
  let '(x, n) := xn in if x <=? limit then (u32 (Z.shiftl x k), n + k) else (x, n).

Definition nlz (x : Z) : Z :=
  let xn := nlz_step 65535 16 (x, 0) in          (* 0x0000FFFF *)
  let xn := nlz_step 16777215 8 xn in            (* 0x00FFFFFF *)
  let xn := nlz_step 268435455 4 xn in           (* 0x0FFFFFFF *)
  let xn := nlz_step 1073741823 2 xn in          (* 0x3FFFFFFF *)
  let '(x, n) := xn in if x <=? 2147483647 then n + 1 else n.

Definition udiv64 (n d : Z) : outcome Z :=
  if Z.shiftr d 32 =? 0 then
    let b := 2 ^ 32 in
    let n1 := u32 (Z.shiftr n 32) in
    let n0 := u32 n in
    let d0 := u32 d in
    if d0 =? 0 then Panic else  (* n1 % d0 traps *)
    q ← divl (u64 (b * (n1 mod d0) + n0)) d0;
    Done (u64 (q + u64 (b * (n1 / d0))))
  else if n <? d then Done 0 else
    let d1 := u32 (Z.shiftr d 32) in
    let s := nlz d1 in
    q ← divl (Z.shiftr n 1) (u32 (Z.shiftr (u64 (Z.shiftl d s)) 32));
    let q := Z.shiftr q (31 - s) in
    Done (if u64 (n - u64 (u64 (q - 1) * d)) <? d then u64 (q - 1) else q).

(** The remainder is returned as a uint32_t. *)
Definition umod64 (n d : Z) : outcome Z :=
  q ← udiv64 n d; Done (u32 (u64 (n - u64 (d * q)))).

Definition abs64 (x : Z) : Z := if 0 <=? x then x else u64 (- u64 x).

Definition sdiv64 (n d : Z) : outcome Z :=
  q_abs ← udiv64 (abs64 n) (abs64 d);
  if eqb (n <? 0) (d <? 0) then Done (s64 q_abs) else as_int64 (- s64 q_abs).

Definition smod64 (n d : Z) : outcome Z :=
  q ← sdiv64 n d;
  p ← as_int64 (d * q);
  r ← as_int64 (n - p);
  Done (s32 r).

Definition __divdi3 (n d : Z) : outcome Z := sdiv64 n d.
Definition __moddi3 (n d : Z) : outcome Z := smod64 n d.
Definition __udivdi3 (n d : Z) : outcome Z := udiv64 n d.
Definition __umoddi3 (n d : Z) : outcome Z := umod64 n d.

(** *** Leading zeros *)

(** What the steps of nlz keep: [x] shifted by [n], below 2^32. *)
Definition nlz_inv (x0 : Z) (xn : Z * Z) : Prop :=
  0 <= snd xn ∧ fst xn = x0 * 2 ^ snd xn ∧ 0 < fst xn < 2 ^ 32.

(** After a step with [k], at most half as many leading zeros remain. *)
Lemma nlz_half x0 k xn :
  0 <= k <= 16 → nlz_inv x0 xn → 2 ^ (32 - 2 * k) <= fst xn →
  let xn' := nlz_step (2 ^ (32 - k) - 1) k xn in
  nlz_inv x0 xn' ∧ 2 ^ (32 - k) <= fst xn' ∧ snd xn <= snd xn' <= snd xn + k.
Proof.
  intros Hk (Hn & Hx & Hr) Hlo. destruct xn as [x n]. simpl in *. unfold nlz_step.
  assert (Hp : 2 ^ 32 = 2 ^ (32 - k) * 2 ^ k) by (rewrite <- Z.pow_add_r by lia; f_equal; lia).
  assert (Hp2 : 2 ^ (32 - k) = 2 ^ (32 - 2 * k) * 2 ^ k)
    by (rewrite <- Z.pow_add_r by lia; f_equal; lia).
  assert (Hk0 : 0 < 2 ^ k) by (apply Z.pow_pos_nonneg; lia).
  destruct (Z.leb_spec x (2 ^ (32 - k) - 1)) as [Hle|Hgt]; simpl.
  - assert (Hlt : x * 2 ^ k < 2 ^ 32) by (rewrite Hp; apply Z.mul_lt_mono_pos_r; lia).
    rewrite Z.shiftl_mul_pow2, u32_small by lia. split; [|split; [|lia]].
    + split; [simpl; lia|]. simpl. split; [|lia]. rewrite Hx, Z.pow_add_r by lia. lia.
    + rewrite Hp2. apply Z.mul_le_mono_nonneg_r; lia.
  - split; [done|]. lia.
Qed.

Lemma nlz_spec x :
  0 < x < 2 ^ 32 → 0 <= nlz x <= 31 ∧ 2 ^ 31 <= x * 2 ^ nlz x < 2 ^ 32.
Proof.
  intros Hx. unfold nlz.
  assert (H0 : nlz_inv x (x, 0)) by (split; simpl; lia).
  destruct (nlz_half x 16 (x, 0)) as (H1 & L1 & N1); [lia|done|simpl; lia|].
  change (2 ^ (32 - 16) - 1) with 65535 in *. set (x1 := nlz_step 65535 16 (x, 0)) in *.
  destruct (nlz_half x 8 x1) as (H2 & L2 & N2); [lia|done|exact L1|].
  change (2 ^ (32 - 8) - 1) with 16777215 in *. set (x2 := nlz_step 16777215 8 x1) in *.
  destruct (nlz_half x 4 x2) as (H3 & L3 & N3); [lia|done|exact L2|].
  change (2 ^ (32 - 4) - 1) with 268435455 in *. set (x3 := nlz_step 268435455 4 x2) in *.
  destruct (nlz_half x 2 x3) as (H4 & L4 & N4); [lia|done|exact L3|].
  change (2 ^ (32 - 2) - 1) with 1073741823 in *. set (x4 := nlz_step 1073741823 2 x3) in *.
  clearbody x4. destruct x4 as [y n]. destruct H4 as (Hn & Hy & Hr). simpl in *.
  destruct (Z.leb_spec y 2147483647).
  - rewrite Z.pow_add_r by lia. lia.
  - lia.
Qed.

(** *** Division *)

(** The estimate of the quotient for large divisors is at most one too big. *)
Lemma estimate n d s :
  0 <= n < 2 ^ 64 → 2 ^ 32 <= d < 2 ^ 64 → 0 <= s <= 31 →
  2 ^ 31 <= d / 2 ^ 32 * 2 ^ s < 2 ^ 32 →
  let v := d * 2 ^ s / 2 ^ 32 in
  2 ^ 31 <= v < 2 ^ 32 ∧ n / d <= n / 2 / v / 2 ^ (31 - s) <= n / d + 1.
Proof.
  intros Hn Hd Hs Hnorm v.
  set (t := 2 ^ (32 - s)). set (S := 2 ^ s).
  assert (HtS : t * S = 2 ^ 32).
  { unfold t, S. rewrite <- Z.pow_add_r by lia. f_equal. lia. }
  assert (Ht2 : 2 <= t).
  { unfold t. change 2 with (2 ^ 1) at 1. apply Z.pow_le_mono_r; lia. }
  assert (HS1 : 1 <= S).
  { unfold S. change 1 with (2 ^ 0). apply Z.pow_le_mono_r; lia. }
  assert (Hv : v = d / t).
  { unfold v. fold S. rewrite <- HtS. apply Z.div_mul_cancel_r; lia. }
  (* d = v t + r *)
  pose proof (Z.div_mod d t ltac:(lia)) as Hdm. rewrite <- Hv in Hdm.
  pose proof (Z.mod_pos_bound d t ltac:(lia)) as Hr. set (r := d mod t) in *.
  assert (Hvlo : 2 ^ 31 <= v).
  { rewrite Hv. apply Z.div_le_lower_bound; [lia|].
    assert (d / 2 ^ 32 * 2 ^ 32 <= d) by (pose proof (Z.mul_div_le d (2 ^ 32)); lia).
    fold S in Hnorm. nia. }
  assert (Hvhi : v < 2 ^ 32).
  { rewrite Hv. apply Z.div_lt_upper_bound; [lia|].
    assert (d < (d / 2 ^ 32 + 1) * 2 ^ 32) by (pose proof (Z.mul_succ_div_gt d (2 ^ 32)); lia).
    fold S in Hnorm. nia. }
  split; [lia|].
  set (D := v * t). assert (HD : d = D + r) by (unfold D; lia).
  assert (HDt : 2 ^ 31 * t <= D) by (unfold D; apply Z.mul_le_mono_nonneg_r; lia).
  assert (HDpos : 0 < D) by (unfold D; nia).
  assert (Heq : n / 2 / v / 2 ^ (31 - s) = n / D).
  { assert (t = 2 * 2 ^ (31 - s)) as Ht31.
    { unfold t. rewrite <- Z.pow_succ_r by lia. f_equal. lia. }
    assert (0 < 2 ^ (31 - s)) by (apply Z.pow_pos_nonneg; lia).
    rewrite !Z.div_div by lia. f_equal. unfold D. rewrite Ht31. lia. }
  rewrite Heq. split.
  - apply Z.div_le_compat_l; lia.
  - assert (Hnr : n * r < D * d).
    { clear Heq Hnorm Hdm Hv. clearbody D t S r v.
      assert (H1 : 4 * (t - 1) <= t * t) by nia.
      assert (H2 : 2 ^ 31 * t * (2 ^ 31 * t) <= D * D).
      { apply Z.mul_le_mono_nonneg; lia. }
      assert (H3 : D * D <= D * d) by (apply Z.mul_le_mono_nonneg_l; lia).
      assert (H4 : n * r <= (2 ^ 64 - 1) * (t - 1)) by (apply Z.mul_le_mono_nonneg; lia).
      lia. }
    pose proof (Z.mul_succ_div_gt n d ltac:(lia)) as HQ. set (Q := n / d) in *.
    assert (n / D < Q + 2); [|lia].
    apply Z.div_lt_upper_bound; [done|].
    assert (n * d < (Q + 2) * D * d); [|nia].
    assert (H5 : n * d = n * D + n * r) by (rewrite HD at 1; ring).
    assert (H6 : n * D <= (Q * d + d - 1) * D) by (apply Z.mul_le_mono_nonneg_r; lia).
    clear - Hnr H5 H6 HDpos. nia.
Qed.

(** The two cases of udiv64 compute the quotient, and neither traps. *)
Theorem udiv64_correct n d :
  0 <= n < 2 ^ 64 → 0 < d < 2 ^ 64 → udiv64 n d = Done (n / d).
Proof.
  intros Hn Hd. unfold udiv64. rewrite Z.shiftr_div_pow2 by lia.
  destruct (Z.eqb_spec (d / 2 ^ 32) 0) as [H0|H0].
  - assert (Hd32 : d < 2 ^ 32) by (pose proof (Z.mul_succ_div_gt d (2 ^ 32)); lia).
    rewrite (u32_small d) by lia. rewrite (proj2 (Z.eqb_neq d 0)) by lia.
    rewrite Z.shiftr_div_pow2 by lia.
    assert (Hn1 : 0 <= n / 2 ^ 32 < 2 ^ 32).
    { split; [apply Z.div_pos; lia|]. apply Z.div_lt_upper_bound; lia. }
    rewrite (u32_small (n / 2 ^ 32)) by done. unfold u32.
    set (n1 := n / 2 ^ 32) in *. set (n0 := n mod 2 ^ 32).
    pose proof (Z.mod_pos_bound n (2 ^ 32) ltac:(lia)) as Hn0. fold n0 in Hn0.
    pose proof (Z.mod_pos_bound n1 d ltac:(lia)) as Hm.
    pose proof (Z.div_mod n (2 ^ 32) ltac:(lia)) as Hdm. fold n1 n0 in Hdm.
    pose proof (Z.div_mod n1 d ltac:(lia)) as Hdm1.
    rewrite (u64_small (2 ^ 32 * _ + n0)) by nia.
    unfold divl. rewrite (proj2 (Z.eqb_neq d 0)) by lia.
    assert (Hq : (2 ^ 32 * (n1 mod d) + n0) / d < 2 ^ 32) by (apply Z.div_lt_upper_bound; nia).
    rewrite (proj2 (Z.ltb_lt _ _)) by done. simpl.
    assert (Hnd : n / d = (2 ^ 32 * (n1 mod d) + n0) / d + 2 ^ 32 * (n1 / d)).
    { rewrite <- Z.div_add by lia. f_equal. nia. }
    assert (Hq0 : 0 <= (2 ^ 32 * (n1 mod d) + n0) / d) by (apply Z.div_pos; nia).
    assert (Hq1 : 0 <= n1 / d) by (apply Z.div_pos; lia).
    assert (Hqn : n / d < 2 ^ 64) by (apply Z.div_lt_upper_bound; nia).
    unfold mbind, outcome_bind. rewrite (u64_small (2 ^ 32 * (n1 / d))), u64_small by lia.
    by rewrite Hnd.
  - assert (Hd32 : 2 ^ 32 <= d).
    { apply Z.nlt_ge. intros ?. apply H0, Z.div_small. lia. }
    destruct (Z.ltb_spec n d) as [Hlt|Hge]; [rewrite Z.div_small by lia; done|].
    assert (Hd1 : 0 < d / 2 ^ 32 < 2 ^ 32).
    { split; [apply Z.div_str_pos; lia|]. apply Z.div_lt_upper_bound; lia. }
    rewrite (u32_small (d / 2 ^ 32)) by lia.
    destruct (nlz_spec (d / 2 ^ 32) Hd1) as [Hs Hnorm]. set (s := nlz (d / 2 ^ 32)) in *.
    destruct (estimate n d s) as [Hv Hest]; [lia..|done|]. cbv zeta.
    assert (Hdv : d * 2 ^ s / 2 ^ 32 < 2 ^ 32) by lia.
    assert (Hds : 0 <= d * 2 ^ s < 2 ^ 64).
    { split; [apply Z.mul_nonneg_nonneg; [lia|apply Z.pow_nonneg; lia]|].
      pose proof (Z.mul_succ_div_gt (d * 2 ^ s) (2 ^ 32) ltac:(lia)). lia. }
    rewrite Z.shiftl_mul_pow2, (u64_small (d * 2 ^ s)) by lia.
    rewrite (Z.shiftr_div_pow2 (d * 2 ^ s)), (u32_small (d * 2 ^ s / 2 ^ 32)) by lia.
    rewrite (Z.shiftr_div_pow2 n) by lia. change (2 ^ 1) with 2.
    set (v := d * 2 ^ s / 2 ^ 32) in *. unfold divl.
    rewrite (proj2 (Z.eqb_neq v 0)) by lia.
    rewrite (proj2 (Z.ltb_lt (n / 2 / v) _)).
    2: { apply Z.div_lt_upper_bound; [lia|]. apply Z.div_lt_upper_bound; [lia|]. nia. }
    unfold mbind, outcome_bind. rewrite Z.shiftr_div_pow2 by lia.
    set (q := n / 2 / v / 2 ^ (31 - s)) in *. clearbody q. set (Q := n / d) in *.
    assert (HQ1 : 1 <= Q) by (unfold Q; apply Z.div_le_lower_bound; lia).
    pose proof (Z.mul_div_le n d ltac:(lia)) as Hle. fold Q in Hle.
    pose proof (Z.mul_succ_div_gt n d ltac:(lia)) as Hgt. fold Q in Hgt.
    assert (Hq64 : 0 <= q - 1 < 2 ^ 64) by nia.
    assert (Hqd : 0 <= (q - 1) * d <= n) by nia.
    rewrite (u64_small (q - 1)), (u64_small ((q - 1) * d)), u64_small by lia.
    destruct (Z.ltb_spec (n - (q - 1) * d) d); f_equal; nia.
Qed.

(** Signed division truncates towards zero, for every pair of operands whose
    quotient the C code can negate. *)
Theorem sdiv64_correct n d :
  - 2 ^ 63 <= n < 2 ^ 63 → - 2 ^ 63 <= d < 2 ^ 63 → d ≠ 0 → (n = - 2 ^ 63 → d ≠ 1 ∧ d ≠ -1) →
  sdiv64 n d = Done (Z.quot n d).
Proof.
  intros Hn Hd Hd0 Hov.
  assert (Habs : ∀ x, - 2 ^ 63 <= x < 2 ^ 63 → abs64 x = Z.abs x).
  { intros x Hx. unfold abs64. destruct (Z.leb_spec 0 x); [lia|].
    assert (u64 x = x + 2 ^ 64) as ->.
    { symmetry. apply Z.mod_unique with (-1); lia. }
    symmetry. rewrite Z.abs_neq by lia. apply Z.mod_unique with (-1); lia. }
  unfold sdiv64. rewrite !Habs by done. rewrite udiv64_correct by lia.
  unfold mbind, outcome_bind. rewrite <- Z.quot_div_nonneg by lia.
  assert (Hqa : Z.quot (Z.abs n) (Z.abs d) = Z.abs (Z.quot n d)) by (by rewrite Z.quot_abs).
  rewrite Hqa.
  assert (Hq : Z.abs (Z.quot n d) < 2 ^ 63).
  { rewrite <- Hqa, Z.quot_div_nonneg by lia.
    destruct (Z.eq_dec (Z.abs d) 1) as [Hd1|].
    - rewrite Hd1, Z.div_1_r. assert (n ≠ - 2 ^ 63) by (intros H; destruct (Hov H); lia). lia.
    - apply Z.div_lt_upper_bound; lia. }
  rewrite s64_small by lia.
  assert (Hsgn : if eqb (n <? 0) (d <? 0) then 0 <= Z.quot n d else Z.quot n d <= 0).
  { destruct (Z.ltb_spec n 0), (Z.ltb_spec d 0); simpl.
    - rewrite <- Z.quot_opp_opp by lia. apply Z.quot_pos; lia.
    - rewrite <- (Z.opp_involutive n), Z.quot_opp_l by lia.
      pose proof (Z.quot_pos (- n) d). lia.
    - rewrite <- (Z.opp_involutive d), Z.quot_opp_r by lia.
      pose proof (Z.quot_pos n (- d)). lia.
    - apply Z.quot_pos; lia. }
  destruct (eqb (n <? 0) (d <? 0)).
  - f_equal. lia.
  - unfold as_int64. rewrite (proj2 (Z.leb_le _ _)), (proj2 (Z.ltb_lt _ _)) by lia. simpl.
    f_equal. lia.
Qed.

(** The remainder routines return 32 bits: they are right exactly when the
    remainder fits, and lose its upper half otherwise. *)
Theorem umod64_truncates n d :
  0 <= n < 2 ^ 64 → 0 < d < 2 ^ 64 →
  umod64 n d = Done (u32 (n mod d)) ∧ (umod64 n d = Done (n mod d) ↔ n mod d < 2 ^ 32).
Proof.
  intros Hn Hd. pose proof (Z.div_mod n d ltac:(lia)) as Hdm.
  pose proof (Z.mod_pos_bound n d ltac:(lia)) as Hm.
  assert (Hq : 0 <= n / d) by (apply Z.div_pos; lia).
  assert (He : umod64 n d = Done (u32 (n mod d))).
  { unfold umod64. rewrite udiv64_correct by done. unfold mbind, outcome_bind.
    rewrite (u64_small (d * _)), u64_small by lia. do 2 f_equal. lia. }
  split; [done|]. rewrite He. split.
  - intros [= H]. rewrite <- H. apply u32_range.
  - intros H. by rewrite u32_small by lia.
Qed.
