(* ===== verification/FixedPoint.v ===== *)
(** * Fixed-point numbers (threads/fixed-point.c)

    The 17.14 numbers of the scheduler, with the C semantics of [int]: signed
    overflow is undefined, division truncates towards zero and traps on zero. *)
From stdpp Require Import base numbers.
From Stdlib Require Import ZArith Lia.
From S2P Require Import Prelude Arith.
Open Scope Z_scope.

(** #define F (1 << 14) *)
Definition F : Z := 16384.

Definition idiv (x y : Z) : outcome Z := if y =? 0 then Panic else as_int (Z.quot x y).

Definition int_to_fp (n : Z) : outcome Z := as_int (n * F).
Definition fp_to_int (x : Z) : outcome Z := idiv x F.
Definition fp_to_int_round (x : Z) : outcome Z :=
  if 0 <=? x then y ← as_int (x + F / 2); idiv y F
  else y ← as_int (x - F / 2); idiv y F.
Definition add_fp (x y : Z) : outcome Z := as_int (x + y).
Definition sub_fp (x y : Z) : outcome Z := as_int (x - y).
Definition add_fp_int (x n : Z) : outcome Z := p ← as_int (n * F); as_int (x + p).
Definition sub_fp_int (x n : Z) : outcome Z := p ← as_int (n * F); as_int (x - p).
(** The products and quotients are of int64_t, and converted to an int. *)
Definition mul_fp (x y : Z) : outcome Z := Done (s32 (Z.quot (x * y) F)).
Definition mul_fp_int (x n : Z) : outcome Z := as_int (x * n).
Definition div_fp (x y : Z) : outcome Z :=
  if y =? 0 then Panic else Done (s32 (Z.quot (x * F) y)).
Definition div_fp_int (x n : Z) : outcome Z := idiv x n.

Definition is_int (x : Z) : Prop := - 2 ^ 31 <= x < 2 ^ 31.

Lemma as_int_ok x : is_int x → as_int x = Done x.
Proof.
  intros [H1 H2]. unfold as_int. by rewrite (proj2 (Z.leb_le _ _)), (proj2 (Z.ltb_lt _ _)) by lia.
Qed.

Lemma as_int_done x y : as_int x = Done y → y = x ∧ is_int x.
Proof.
  unfold as_int, is_int. destruct (Z.leb_spec (- 2 ^ 31) x), (Z.ltb_spec x (2 ^ 31)); simpl; try done.
  intros [= ->]. lia.
Qed.

(** Whole numbers convert to fixed point and back, under truncation and under
    rounding. *)
Theorem fp_int_roundtrip n :
  - 131071 <= n <= 131070 →
  ∃ x, int_to_fp n = Done x ∧ fp_to_int x = Done n ∧ fp_to_int_round x = Done n.
Proof.
  intros Hn. exists (n * F). unfold F. split; [|split].
  - apply as_int_ok. unfold is_int, F. lia.
  - unfold fp_to_int, idiv, F. simpl. rewrite Z.quot_mul by lia. apply as_int_ok. unfold is_int. lia.
  - unfold fp_to_int_round, F. change (16384 / 2) with 8192.
    destruct (Z.leb_spec 0 (n * 16384)).
    all: rewrite as_int_ok by (unfold is_int; lia); unfold mbind, outcome_bind, idiv; simpl.
    + replace (n * 16384 + 8192) with (8192 + n * 16384) by lia.
      rewrite Z.quot_div_nonneg, Z.div_add by lia. apply as_int_ok. unfold is_int. lia.
    + replace (n * 16384 - 8192) with (- (8192 + (- n) * 16384)) by lia.
      rewrite Z.quot_opp_l, Z.quot_div_nonneg, Z.div_add by lia. change (8192 / 16384) with 0.
      replace (- (0 + - n)) with n by lia. apply as_int_ok. unfold is_int. lia.
Qed.

(** fp_to_int_round gives a nearest integer (a tie away from zero), whenever
    the code does not overflow. *)
Theorem fp_round_nearest x r :
  fp_to_int_round x = Done r →
  2 * Z.abs (x - r * F) <= F ∧ (∀ k, Z.abs (x - r * F) <= Z.abs (x - k * F)).
Proof.
  intros Hr. assert (2 * Z.abs (x - r * F) <= F) as Hb; [|split; [done|unfold F in *; lia]].
  revert Hr. unfold fp_to_int_round, F. change (16384 / 2) with 8192.
  destruct (Z.leb_spec 0 x).
  - destruct (as_int (x + 8192)) as [y| | |] eqn:He; try done. apply as_int_done in He as [-> _].
    unfold mbind, outcome_bind, idiv. simpl. intros [-> _]%as_int_done.
    rewrite Z.quot_div_nonneg by lia. zdiv.
  - destruct (as_int (x - 8192)) as [y| | |] eqn:He; try done. apply as_int_done in He as [-> _].
    unfold mbind, outcome_bind, idiv. simpl. intros [-> _]%as_int_done.
    replace (x - 8192) with (- (8192 - x)) by lia.
    rewrite Z.quot_opp_l, Z.quot_div_nonneg by lia. zdiv.
Qed.

(** The product and the quotient are exact up to less than one unit in the
    last place, truncated towards zero, when they fit an int. *)
Theorem fp_mul_div_exact x y :
  is_int x → is_int y →
  (is_int (Z.quot (x * y) F) →
     ∃ z, mul_fp x y = Done z ∧ Z.abs (x * y - z * F) < F ∧ Z.abs (z * F) <= Z.abs (x * y)) ∧
  (y ≠ 0 → is_int (Z.quot (x * F) y) →
     ∃ z, div_fp x y = Done z ∧ Z.abs (x * F - z * y) < Z.abs y ∧ Z.abs (z * y) <= Z.abs (x * F)).
Proof.
  intros Hx Hy.
  assert (Hq : ∀ a b, b ≠ 0 → Z.abs (a - Z.quot a b * b) < Z.abs b ∧
                              Z.abs (Z.quot a b * b) <= Z.abs a).
  { intros a b Hb. pose proof (Z.quot_rem' a b). pose proof (Z.rem_bound_abs a b Hb).
    replace (a - Z.quot a b * b) with (Z.rem a b) by lia. split; [done|].
    rewrite Z.abs_mul, <- Z.quot_abs, Z.mul_comm by done. apply Z.mul_quot_le; lia. }
  split.
  - intros Hz. exists (Z.quot (x * y) F). unfold mul_fp. rewrite s32_small by (unfold is_int in *; lia).
    split; [done|]. apply (Hq (x * y) F). done.
  - intros Hy0 Hz. exists (Z.quot (x * F) y). unfold div_fp.
    rewrite (proj2 (Z.eqb_neq y 0)) by done. rewrite s32_small by (unfold is_int in *; lia).
    split; [done|]. by apply Hq.
Qed.
