(* ===== verification/CStdlib.v ===== *)
(** * lib/stdlib.c: atoi, heapsort and binary search *)
From stdpp Require Import base numbers list sets gmap.
From Stdlib Require Import ZArith Lia Sorted.
From S2P Require Import Prelude Bytes CString.
Open Scope Z_scope.

(** ** atoi *)

(** lib/ctype.h *)
Definition isdigit (c : Z) : bool := (48 <=? c) && (c <=? 57).
Definition isspace (c : Z) : bool :=
  (c =? 32) || (c =? 12) || (c =? 10) || (c =? 13) || (c =? 9) || (c =? 11).

Definition space_step (s : Z) : ST mem (Z + Z) :=
  c ← load8 s; if isspace c then mret (inl (s + 1)) else mret (inr s).

Definition digit_step (st : Z * Z) : ST mem (Z * Z + Z) :=
  let '(s, value) := st in
  c ← load8 s;
  if isdigit c then
    v10 ← int_ok (value * 10);
    value ← int_ok (v10 - (c - 48));
    mret (inl (s + 1, value))
  else mret (inr value).

Definition atoi (s : Z) : ST mem Z :=
  _ ← nonnull s;
  s ← scan space_step s;
  c ← load8 s;
  let negative := (c =? 45) in
  let s := if (c =? 43) || (c =? 45) then s + 1 else s in
  value ← scan digit_step (s, 0);
  if negb negative then int_ok (- value) else mret value.

(** ** Sorting and searching

    The array of [cnt] elements of [size] bytes is a list of elements; [size]
    only scales addresses. *)
Section arrays.
Context {A : Type} (compare : A → A → Z).

(** The element with a 1-based index. *)
Definition elem_at (arr : list A) (idx : Z) : option A := zlookup arr (idx - 1).

Definition do_swap (a_idx b_idx : Z) : ST (list A) unit :=
  arr ← get_st;
  a ← deref (elem_at arr a_idx);
  b ← deref (elem_at arr b_idx);
  _ ← modify (zinsert (a_idx - 1) b);
  modify (zinsert (b_idx - 1) a).

Definition do_compare (a_idx b_idx : Z) : ST (list A) Z :=
  arr ← get_st;
  a ← deref (elem_at arr a_idx);
  b ← deref (elem_at arr b_idx);
  mret (compare a b).

(** [if (idx <= cnt && do_compare (array, idx, max) > 0) max = idx] *)
Definition larger (cnt idx max : Z) : ST (list A) Z :=
  if idx <=? cnt then
    c ← do_compare idx max; mret (if 0 <? c then idx else max)
  else mret max.

Definition heapify_step (cnt i : Z) : ST (list A) (Z + unit) :=
  let left := u64 (2 * i) in
  let right := u64 (2 * i + 1) in
  max ← larger cnt left i;
  max ← larger cnt right max;
  if max =? i then mret (inr tt) else
  _ ← do_swap i max;
  mret (inl max).

Definition heapify (i cnt : Z) : ST (list A) unit :=
  loop (S (Z.to_nat cnt)) (heapify_step cnt) i.

Definition build_step (cnt i : Z) : ST (list A) (Z + unit) :=
  if 0 <? i then _ ← heapify i cnt; mret (inl (i - 1)) else mret (inr tt).
Definition extract_step (i : Z) : ST (list A) (Z + unit) :=
  if 1 <? i then _ ← do_swap 1 i; _ ← heapify 1 (i - 1); mret (inl (i - 1)) else mret (inr tt).

Definition sort (cnt : Z) : ST (list A) unit :=
  _ ← loop (S (Z.to_nat cnt)) (build_step cnt) (cnt / 2);
  loop (S (Z.to_nat cnt)) extract_step cnt.

(** qsort passes its comparison through compare_thunk. *)
Definition qsort (cnt : Z) : ST (list A) unit := sort cnt.
End arrays.

(** binary_search: positions in the array, [None] for NULL. *)
Definition search_step {A} (arr : list A) (compare : A → Z) (fl : Z * Z) :
    ST unit (Z * Z + option Z) :=
  let '(first, last) := fl in
  if first <? last then
    let range := last - first in
    let middle := first + range / 2 in
    x ← deref (zlookup arr middle);
    let cmp := compare x in
    if cmp <? 0 then mret (inl (first, middle))
    else if 0 <? cmp then mret (inl (middle + 1, last))
    else mret (inr (Some middle))
  else mret (inr None).

(** [compare] is the comparison of the key with an element. *)
Definition binary_search {A} (arr : list A) (cnt : Z) (compare : A → Z) : ST unit (option Z) :=
  loop (S (Z.to_nat cnt)) (search_step arr compare) (0, cnt).

Definition bsearch {A} (arr : list A) (cnt : Z) (compare : A → Z) : ST unit (option Z) :=
  binary_search arr cnt compare.

(** ** atoi is decimal conversion *)

Definition decimal (ds : list Z) : Z := foldl (λ v c, v * 10 + (c - 48)) 0 ds.

Lemma decimal_snoc ds c : decimal (ds ++ [c]) = decimal ds * 10 + (c - 48).
Proof. unfold decimal. by rewrite foldl_app. Qed.

Lemma decimal_nonneg ds : Forall (λ c, isdigit c = true) ds → 0 <= decimal ds.
Proof.
  induction ds as [|c ds IH] using rev_ind; [done|]. intros [H1 H2]%Forall_app.
  rewrite decimal_snoc. apply Forall_cons in H2 as [Hc _]. unfold isdigit in Hc. specialize (IH H1). lia.
Qed.

Lemma decimal_prefix ds es :
  Forall (λ c, isdigit c = true) (ds ++ es) → decimal ds <= decimal (ds ++ es).
Proof.
  induction es as [|c es IH] using rev_ind; [rewrite app_nil_r; lia|].
  rewrite app_assoc. intros [H1 H2]%Forall_app. rewrite decimal_snoc.
  apply Forall_cons in H2 as [Hc _]. unfold isdigit in Hc. specialize (IH H1).
  pose proof (decimal_nonneg _ H1). lia.
Qed.

Lemma digits_wp m p ds rest :
  bytes_at m p (ds ++ rest ++ [0]) → Forall (λ c, isdigit c = true) ds →
  match rest with [] => True | c :: _ => isdigit c = false end →
  decimal ds <= 2 ^ 31 → wp (scan digit_step (p, 0)) m (λ v m', m' = m ∧ v = - decimal ds).
Proof.
  intros Hb Hds Hrest Hmax.
  apply (wp_scan (λ n st m', m' = m ∧ ∃ d1 d2, ds = d1 ++ d2 ∧ n = length d2 ∧
    st = (p + zlength d1, - decimal d1)) _ _ (length ds)).
  - intros n st m' (-> & d1 & d2 & -> & -> & ->). unfold digit_step. wp_pure.
    rewrite <- app_assoc in Hb. destruct d2 as [|c d2].
    + rewrite app_nil_r in *. simpl in Hb.
      apply (wp_load8 _ _ (default 0 (head rest))).
      { destruct rest; simpl in *; by eapply bytes_mid. }
      assert (isdigit (default 0 (head rest)) = false) as -> by (by destruct rest).
      wp_pure. done.
    + apply (wp_load8 _ _ c); [by eapply bytes_mid|].
      pose proof Hds as Hds2. apply Forall_app in Hds2 as [Hd1 [Hc Hd2]%Forall_cons].
      rewrite Hc. pose proof (decimal_nonneg _ Hd1) as Hnn.
      rewrite cons_middle, app_assoc in Hmax, Hds.
      pose proof (decimal_prefix (d1 ++ [c]) d2 Hds) as Hpre. rewrite decimal_snoc in Hpre.
      unfold isdigit in Hc.
      wp_pure. apply wp_int_ok; [lia|]. wp_pure. apply wp_int_ok; [lia|]. wp_pure.
      exists (length d2). split; [simpl; lia|]. split; [done|]. exists (d1 ++ [c]), d2.
      rewrite <- app_assoc, decimal_snoc, zlength_app. change (zlength [c]) with 1.
      split; [done|]. split; [done|]. f_equal; lia.
  - split; [done|]. exists [], ds. change (zlength []) with 0. split; [done|]. split; [done|].
    f_equal. lia.
  - apply bytes_size in Hb. rewrite length_app in Hb. lia.
Qed.

Lemma atoi_run m p sp sign ds rest :
  p ≠ 0 → str_at m p (sp ++ sign ++ ds ++ rest) →
  Forall (λ c, isspace c = true) sp → (sign = [] ∨ sign = [43] ∨ sign = [45]) →
  ds ≠ [] → Forall (λ c, isdigit c = true) ds →
  match rest with [] => True | c :: _ => isdigit c = false end →
  let v := if decide (sign = [45]) then - decimal ds else decimal ds in
  - 2 ^ 31 <= v < 2 ^ 31 → atoi p m = Done (v, m).
Proof.
  intros Hp [Hb _] Hsp Hsign Hne Hds Hrest v Hv. apply wp_run_eq. unfold atoi. wp_pure.
  apply wp_nonnull; [done|]. wp_pure. rewrite <- !app_assoc in Hb.
  assert (Hfirst : isspace (default 0 (head (sign ++ ds))) = false ∧
    default 0 (head (sign ++ ds)) = if decide (sign = []) then default 0 (head ds)
                                    else default 0 (head sign)).
  { destruct ds as [|d ds]; [done|]. apply Forall_cons in Hds as [Hd _].
    unfold isdigit in Hd. destruct Hsign as [->|[->| ->]]; simpl; split; try done.
    unfold isspace. rewrite !(proj2 (Z.eqb_neq d _)) by lia. done. }
  eapply wp_mono with (P := λ q m', m' = m ∧ q = p + zlength sp).
  { apply (wp_scan (λ n q m', m' = m ∧ ∃ s1 s2, sp = s1 ++ s2 ∧ n = length s2 ∧
      q = p + zlength s1) _ _ (length sp)).
    - intros n q m' (-> & s1 & s2 & -> & -> & ->). unfold space_step. wp_pure.
      rewrite <- app_assoc in Hb. destruct s2 as [|c s2].
      + rewrite app_nil_r in *. simpl in Hb.
        apply (wp_load8 _ _ (default 0 (head (sign ++ ds)))).
        { rewrite (app_assoc sign) in Hb. destruct (sign ++ ds) eqn:Hsd.
          - by apply app_eq_nil in Hsd as [_ ->].
          - by eapply bytes_mid. }
        rewrite (proj1 Hfirst). wp_pure. done.
      + apply (wp_load8 _ _ c); [by eapply bytes_mid|].
        apply Forall_app in Hsp as [_ [Hc _]%Forall_cons]. rewrite Hc. wp_pure.
        exists (length s2). split; [simpl; lia|]. split; [done|]. exists (s1 ++ [c]), s2.
        rewrite <- app_assoc, zlength_app. change (zlength [c]) with 1.
        split; [done|]. split; [done|]. lia.
    - split; [done|]. exists [], sp. change (zlength []) with 0. split; [done|]. split; [done|]. lia.
    - apply bytes_size in Hb. rewrite length_app in Hb. lia. }
  intros q ? [-> ->]. wp_pure. apply bytes_app in Hb as [_ Hb].
  set (q := p + zlength sp) in *.
  apply (wp_load8 _ _ (default 0 (head (sign ++ ds)))).
  { replace q with (q + zlength (@nil Z)) by (change (zlength []) with 0; lia).
    rewrite (app_assoc sign) in Hb. destruct (sign ++ ds) eqn:Hsd.
    - by apply app_eq_nil in Hsd as [_ ->].
    - exact (bytes_mid m q [] z _ Hb). }
  wp_pure. rewrite (proj2 Hfirst).
  assert (Hsg : ∀ c, c = (if decide (sign = []) then default 0 (head ds) else default 0 (head sign)) →
    (if (c =? 43) || (c =? 45) then q + 1 else q) = q + zlength sign ∧
    (c =? 45) = bool_decide (sign = [45])).
  { intros c ->. destruct ds as [|d ds]; [done|]. apply Forall_cons in Hds as [Hd _].
    unfold isdigit in Hd. destruct Hsign as [->|[->| ->]]; simpl.
    - rewrite !(proj2 (Z.eqb_neq d _)) by lia. simpl. change (zlength []) with 0. split; [lia|done].
    - done.
    - done. }
  destruct (Hsg _ eq_refl) as [-> ->]. apply bytes_app in Hb as [_ Hb].
  eapply wp_mono; [apply (digits_wp m _ ds rest); [done..|]|].
  { unfold v in Hv. destruct (decide (sign = [45])); lia. }
  intros x ? [-> ->]. unfold v in *. destruct (decide (sign = [45])) as [->|Hs].
  - simpl. by wp_pure.
  - rewrite bool_decide_eq_false_2 by done. simpl.
    apply wp_int_ok; [lia|]. split; [lia|done].
Qed.

(** atoi skips white space, reads a sign and the digits up to the first other
    character, and returns their value for every number that an int holds,
    the smallest one included. *)
Theorem atoi_spec m p sp sign ds rest :
  p ≠ 0 → str_at m p (sp ++ sign ++ ds ++ rest) →
  Forall (λ c, isspace c = true) sp → (sign = [] ∨ sign = [43] ∨ sign = [45]) →
  ds ≠ [] → Forall (λ c, isdigit c = true) ds →
  match rest with [] => True | c :: _ => isdigit c = false end →
  let v := if decide (sign = [45]) then - decimal ds else decimal ds in
  - 2 ^ 31 <= v < 2 ^ 31 → atoi p m = Done (v, m).
Proof. apply atoi_run. Qed.

(** ** Heapsort *)

(** What sort and bsearch ask of the comparison: it is a total preorder. *)
Class CmpOrder {A} (compare : A → A → Z) : Prop := {
  cmp_trans x y z : compare x y <= 0 → compare y z <= 0 → compare x z <= 0;
  cmp_total x y : 0 < compare x y → compare y x <= 0
}.

Section swaps.
Context {A : Type}.
Implicit Types (l : list A) (i j : nat) (a b : A).

Lemma swap_perm_lt l i j a b :
  (i < j)%nat → l !! i = Some a → l !! j = Some b → <[j := a]> (<[i := b]> l) ≡ₚ l.
Proof.
  intros Hij Ha (l1 & l2 & -> & ->)%list_elem_of_split_length.
  rewrite lookup_app_l in Ha by done.
  apply list_elem_of_split_length in Ha as (k1 & k2 & -> & ->).
  rewrite <- app_assoc. simpl. rewrite insert_app_r_alt by lia. rewrite Nat.sub_diag. simpl.
  replace (length (k1 ++ a :: k2)) with (length k1 + S (length k2))%nat
    by (rewrite length_app; simpl; lia).
  rewrite insert_app_r. simpl. rewrite insert_app_r_alt by lia. rewrite Nat.sub_diag. simpl.
  solve_Permutation.
Qed.
Lemma swap_perm l i j a b :
  l !! i = Some a → l !! j = Some b → <[j := a]> (<[i := b]> l) ≡ₚ l.
Proof.
  intros Ha Hb. destruct (lt_eq_lt_dec i j) as [[Hij| ->]|Hij].
  - by apply swap_perm_lt.
  - rewrite list_insert_insert_eq. by rewrite list_insert_id.
  - rewrite list_insert_insert_ne by lia. by apply swap_perm_lt.
Qed.
End swaps.

Section heapsort.
Context {A : Type} (compare : A → A → Z) `{!CmpOrder compare}.
Implicit Types (arr : list A) (i j p c cnt : Z) (x y z : A).

Definition cle x y : Prop := compare x y <= 0.

Lemma cle_refl x : cle x x.
Proof. unfold cle. destruct (Z.le_gt_cases (compare x x) 0); [done|]. by apply cmp_total. Qed.
Lemma cle_trans x y z : cle x y → cle y z → cle x z.
Proof. apply cmp_trans. Qed.

(** Parents are not smaller than their children at the indexes from [i0] to
    [cnt], except that nothing is said of the children of [k]; its
    grandchildren are still below its parent. *)
Definition child p c : Prop := c = 2 * p ∨ c = 2 * p + 1.
Definition below arr c p : Prop :=
  ∀ x y, elem_at arr p = Some x → elem_at arr c = Some y → cle y x.
Definition heap_except arr (i0 cnt k : Z) : Prop :=
  (∀ p c, i0 <= p → p ≠ k → child p c → c <= cnt → below arr c p) ∧
  (∀ p c, i0 <= p → child p k → child k c → c <= cnt → below arr c p).
Definition heap arr (i0 cnt : Z) : Prop :=
  ∀ p c, i0 <= p → child p c → c <= cnt → below arr c p.

Lemma elem_at_some arr i : 1 <= i <= zlength arr → ∃ x, elem_at arr i = Some x.
Proof. intros. apply zlookup_is_Some. lia. Qed.

(** The effect of do_swap. *)
Lemma do_swap_wp arr i j a b Q :
  elem_at arr i = Some a → elem_at arr j = Some b →
  (∀ arr', zlength arr' = zlength arr → arr' ≡ₚ arr →
     (∀ cnt, i <= cnt → j <= cnt → take (Z.to_nat cnt) arr' ≡ₚ take (Z.to_nat cnt) arr ∧
        drop (Z.to_nat cnt) arr' = drop (Z.to_nat cnt) arr) →
     elem_at arr' j = Some a → elem_at arr' i = Some b →
     (∀ k, k ≠ i → k ≠ j → elem_at arr' k = elem_at arr k) → Q tt arr') →
  wp (do_swap i j) arr Q.
Proof.
  intros Ha Hb HQ. unfold do_swap. wp_pure.
  apply wp_deref. exists a. split; [done|]. wp_pure. apply wp_deref. exists b. split; [done|].
  wp_pure. unfold elem_at in *.
  pose proof (zlookup_Some_range _ _ _ Ha). pose proof (zlookup_Some_range _ _ _ Hb).
  apply HQ.
  - by rewrite !zlength_zinsert.
  - rewrite zlookup_nat in Ha, Hb by lia. by apply swap_perm.
  - rewrite zlookup_nat in Ha, Hb by lia. intros cnt Hi Hj. unfold zinsert. split.
    + rewrite !take_insert_lt by lia.
      apply swap_perm; by rewrite lookup_take_lt by lia.
    + by rewrite !drop_insert_lt by lia.
  - apply zlookup_zinsert. rewrite zlength_zinsert. lia.
  - destruct (Z.eq_dec i j) as [->|Hne].
    + rewrite Ha in Hb. injection Hb as ->. apply zlookup_zinsert.
      rewrite zlength_zinsert. lia.
    + rewrite zlookup_zinsert_ne by lia. by apply zlookup_zinsert.
  - intros k Hki Hkj. by rewrite !zlookup_zinsert_ne by lia.
Qed.

Lemma larger_wp arr cnt idx max m Q :
  1 <= idx → cnt <= zlength arr → elem_at arr max = Some m →
  (∀ r z, r = max ∨ (r = idx ∧ idx <= cnt) → elem_at arr r = Some z → cle m z →
     (∀ y, idx <= cnt → elem_at arr idx = Some y → cle y z) → Q r arr) →
  wp (larger compare cnt idx max) arr Q.
Proof.
  intros Hidx Hcnt Hm HQ. unfold larger. destruct (Z.leb_spec idx cnt) as [Hle|Hgt].
  - unfold do_compare. wp_pure. destruct (elem_at_some arr idx) as [y Hy]; [lia|].
    apply wp_deref. exists y. split; [done|]. wp_pure.
    apply wp_deref. exists m. split; [done|]. wp_pure.
    destruct (Z.ltb_spec 0 (compare y m)) as [Hlt|Hge].
    + apply (HQ _ y); [by right|done|by apply cmp_total|].
      intros y' _ Hy'. rewrite Hy in Hy'. injection Hy' as <-. apply cle_refl.
    + apply (HQ _ m); [by left|done|apply cle_refl|].
      intros y' _ Hy'. rewrite Hy in Hy'. injection Hy' as <-. done.
  - wp_pure. apply (HQ _ m); [by left|done|apply cle_refl|]. intros; lia.
Qed.

Lemma heapify_wp arr i0 i cnt Q :
  1 <= i0 <= i → i <= cnt <= zlength arr → 2 * cnt + 1 < 2 ^ 64 → heap_except arr i0 cnt i →
  (∀ arr', zlength arr' = zlength arr → arr' ≡ₚ arr →
     take (Z.to_nat cnt) arr' ≡ₚ take (Z.to_nat cnt) arr →
     drop (Z.to_nat cnt) arr' = drop (Z.to_nat cnt) arr →
     heap arr' i0 cnt → Q tt arr') →
  wp (heapify compare i cnt) arr Q.
Proof.
  intros Hi0 Hcnt Hfit Hheap HQ. unfold heapify.
  apply (wp_loop (λ n j arr', n = Z.to_nat (cnt - j) ∧ i0 <= j <= cnt ∧
    zlength arr' = zlength arr ∧ arr' ≡ₚ arr ∧
    take (Z.to_nat cnt) arr' ≡ₚ take (Z.to_nat cnt) arr ∧
    drop (Z.to_nat cnt) arr' = drop (Z.to_nat cnt) arr ∧ heap_except arr' i0 cnt j)
    _ _ (Z.to_nat (cnt - i))); [|repeat (split; [done||lia|]); done|lia].
  intros n j b (-> & Hj & Hlen & Hp & Ht & Hd & [Hh Hg]). unfold heapify_step.
  rewrite !u64_small by lia. wp_pure. destruct (elem_at_some b j) as [x Hx]; [lia|].
  apply (larger_wp _ _ _ _ x); [lia|lia|done|]. intros m1 z1 Hm1 Hz1 Hxz1 Hl. wp_pure.
  apply (larger_wp _ _ _ _ z1); [lia|lia|done|]. intros m z Hm Hz Hz1z Hr.
  destruct (Z.eqb_spec m j) as [->|Hne].
  - wp_pure. apply HQ; [done..|]. intros p c Hp0 Hc Hle. destruct (Z.eq_dec p j) as [->|Hpj].
    + intros x' y Hx' Hy. rewrite Hz in Hx'. injection Hx' as <-. destruct Hc as [->| ->].
      * apply (cle_trans _ z1); [|done]. by apply Hl.
      * by apply Hr.
    + by apply Hh.
  - assert (Hmc : child j m ∧ m <= cnt).
    { unfold child. destruct Hm as [->|[-> ?]]; [|lia]. destruct Hm1 as [->|[-> ?]]; lia. }
    destruct Hmc as [Hmc Hmle]. wp_pure.
    apply (do_swap_wp _ _ _ x z); [done..|]. intros b' Hlen' Hp' Htd Hbm Hbj Hbo. wp_pure.
    destruct (Htd cnt) as [Ht' Hd']; [lia..|].
    exists (Z.to_nat (cnt - m)). split; [unfold child in Hmc; lia|].
    split; [done|]. split; [unfold child in Hmc; lia|]. split; [congruence|].
    split; [by rewrite Hp'|]. split; [by rewrite Ht'|]. split; [congruence|].
    assert (Hxz : cle x z) by by apply (cle_trans _ z1).
    assert (Hkids : ∀ c y, child j c → c <= cnt → elem_at b c = Some y → cle y z).
    { intros c y [->| ->] Hc Hy; [|by apply Hr].
      apply (cle_trans _ z1); [|done]. by apply Hl. }
    unfold child in Hmc. split.
    + intros p c Hp0 Hpm Hc Hle u v Hu Hv. unfold child in Hc.
      destruct (Z.eq_dec p j) as [->|Hpj].
      * rewrite Hbj in Hu. injection Hu as <-. destruct (Z.eq_dec c m) as [->|Hcm].
        -- rewrite Hbm in Hv. by injection Hv as <-.
        -- rewrite Hbo in Hv by lia. by apply (Hkids c).
      * rewrite Hbo in Hu by lia. destruct (Z.eq_dec c j) as [->|Hcj].
        -- rewrite Hbj in Hv. injection Hv as <-. by apply (Hg p m Hp0 Hc Hmc Hmle).
        -- rewrite Hbo in Hv by lia. by apply (Hh p c Hp0 Hpj Hc Hle).
    + intros p c Hp0 Hpm Hc Hle u v Hu Hv. unfold child in Hpm, Hc.
      replace p with j in * by lia. rewrite Hbj in Hu. injection Hu as <-.
      rewrite Hbo in Hv by lia. by apply (Hh m c ltac:(lia) Hne Hc Hle z v).
Qed.

(** The root of a heap is a maximum. *)
Lemma heap_root arr cnt j : heap arr 1 cnt → cnt <= zlength arr → 1 <= j <= cnt → below arr j 1.
Proof.
  intros Hh Hcnt Hj0. assert (Hpos : 0 <= j) by lia. revert j Hpos Hj0.
  apply (Z_lt_induction (λ j, 1 <= j <= cnt → below arr j 1)).
  intros j IH Hj x y Hx Hy. destruct (Z.eq_dec j 1) as [->|Hne].
  - rewrite Hx in Hy. injection Hy as <-. apply cle_refl.
  - destruct (elem_at_some arr (j / 2)) as [z Hz]; [zdiv|]. apply (cle_trans _ z).
    + apply (Hh (j / 2) j); [zdiv|unfold child; zdiv|lia|done..].
    + apply (IH (j / 2)); [zdiv|zdiv|done..].
Qed.

Lemma take_elem_at arr i x : 0 <= i → x ∈ take (Z.to_nat i) arr → ∃ j, 1 <= j <= i ∧ elem_at arr j = Some x.
Proof.
  intros Hi (k & Hk)%list_elem_of_lookup. apply lookup_take_Some in Hk as [Hk Hlt].
  exists (Z.of_nat k + 1). split; [lia|]. unfold elem_at. rewrite zlookup_nat by lia.
  by replace (Z.to_nat (Z.of_nat k + 1 - 1)) with k by lia.
Qed.

Lemma drop_elem_at arr i x :
  1 <= i → elem_at arr i = Some x → drop (Z.to_nat (i - 1)) arr = x :: drop (Z.to_nat i) arr.
Proof.
  unfold elem_at. intros Hi Hx. rewrite zlookup_nat in Hx by lia.
  rewrite (drop_S _ _ _ Hx). do 2 f_equal. lia.
Qed.
Lemma take_elem_at_snoc arr i x :
  1 <= i → elem_at arr i = Some x → take (Z.to_nat i) arr = take (Z.to_nat (i - 1)) arr ++ [x].
Proof.
  unfold elem_at. intros Hi Hx. rewrite zlookup_nat in Hx by lia.
  rewrite <- (take_S_r _ _ _ Hx). f_equal. lia.
Qed.

Lemma build_wp arr cnt Q :
  cnt = zlength arr → 2 * cnt + 1 < 2 ^ 64 →
  (∀ arr', zlength arr' = cnt → arr' ≡ₚ arr → heap arr' 1 cnt → Q tt arr') →
  wp (loop (S (Z.to_nat cnt)) (build_step compare cnt) (cnt / 2)) arr Q.
Proof.
  intros Hcnt Hfit HQ. assert (0 <= cnt) by (unfold zlength in Hcnt; lia).
  apply (wp_loop (λ n i arr', n = Z.to_nat i ∧ 0 <= i <= cnt / 2 ∧ zlength arr' = cnt ∧
    arr' ≡ₚ arr ∧ heap arr' (i + 1) cnt) _ _ (Z.to_nat (cnt / 2))); [..|zdiv].
  - intros n i b (-> & Hi & Hlen & Hp & Hh). unfold build_step.
    destruct (Z.ltb_spec 0 i) as [Hpos|Hneg]; wp_pure.
    + apply (heapify_wp _ i); [lia|zdiv|lia| |].
      { split; intros p c Hp0 Hpi; [intros Hc Hle; apply Hh; first [done|lia]|]. unfold child in *. lia. }
      intros b' Hlen' Hp' _ _ Hh'. wp_pure. exists (Z.to_nat (i - 1)). split; [lia|].
      split; [done|]. split; [lia|]. split; [lia|]. split; [by rewrite Hp'|].
      by replace (i - 1 + 1) with i by lia.
    + apply HQ; [done..|]. by replace i with 0 in Hh by lia.
  - split; [done|]. split; [zdiv|]. split; [done|]. split; [done|].
    intros p c Hp0 Hc Hle. unfold child in Hc. zdiv.
Qed.

Lemma extract_wp arr cnt Q :
  cnt = zlength arr → 2 * cnt + 1 < 2 ^ 64 → heap arr 1 cnt →
  (∀ arr', arr' ≡ₚ arr → StronglySorted cle arr' → Q tt arr') →
  wp (loop (S (Z.to_nat cnt)) (extract_step compare) cnt) arr Q.
Proof.
  intros Hcnt Hfit Hheap HQ. assert (0 <= cnt) by (unfold zlength in Hcnt; lia).
  apply (wp_loop (λ n i arr', n = Z.to_nat i ∧ 0 <= i <= cnt ∧ zlength arr' = cnt ∧
    arr' ≡ₚ arr ∧ heap arr' 1 i ∧ StronglySorted cle (drop (Z.to_nat i) arr') ∧
    ∀ x y, x ∈ take (Z.to_nat i) arr' → y ∈ drop (Z.to_nat i) arr' → cle x y)
    _ _ (Z.to_nat cnt)); [..|lia].
  - intros n i b (-> & Hi & Hlen & Hp & Hh & Hs & Hle). unfold extract_step.
    destruct (Z.ltb_spec 1 i) as [Hgt|Hend]; wp_pure.
    + destruct (elem_at_some b 1) as [top Htop]; [lia|].
      destruct (elem_at_some b i) as [x Hx]; [lia|].
      apply (do_swap_wp _ _ _ top x); [done..|]. intros b1 Hlen1 Hp1 Htd Hi1 _ Ho. wp_pure.
      destruct (Htd i) as [Ht1 Hd1]; [lia..|].
      apply (heapify_wp _ 1); [lia|lia|lia| |].
      { split; intros p c Hp0 Hpi; unfold child in *; [|lia]. intros Hc Hle' u v Hu Hv.
        rewrite Ho in Hu, Hv by lia. apply (Hh p c); first [done|lia]. }
      intros b2 Hlen2 Hp2 Ht2 Hd2 Hh2. wp_pure.
      rewrite (drop_elem_at b1 i top), Hd1 in Hd2 by first [done|lia].
      exists (Z.to_nat (i - 1)). split; [lia|]. split; [done|]. split; [lia|].
      split; [lia|]. split; [by rewrite Hp2, Hp1|]. split; [done|]. rewrite Hd2.
      assert (Htake : ∀ y, y ∈ take (Z.to_nat (i - 1)) b2 → y ∈ take (Z.to_nat i) b).
      { intros y Hy. rewrite Ht2 in Hy. rewrite <- Ht1.
        rewrite (take_elem_at_snoc b1 i top) by first [done|lia]. set_solver. }
      assert (Htopin : top ∈ take (Z.to_nat i) b).
      { rewrite <- Ht1, (take_elem_at_snoc b1 i top) by first [done|lia]. set_solver. }
      split.
      * constructor; [done|]. apply Forall_forall. intros y Hy.
        apply Hle; [done|first [done|by apply list_elem_of_In]].
      * intros u v Hu [->|Hv]%elem_of_cons; [|by auto].
        apply Htake, take_elem_at in Hu as (j & Hj & Hju); [|lia].
        apply (heap_root b i j Hh); [lia|lia|done|done].
    + apply HQ; [done|]. destruct (Z.eq_dec i 0) as [->|]; [done|]. replace i with 1 in * by lia.
      destruct b as [|x b]; [done|]. simpl in Hs, Hle. constructor; [done|].
      apply Forall_forall. intros y Hy. apply Hle; [set_solver|first [done|by apply list_elem_of_In]].
  - split; [done|]. split; [lia|]. split; [done|]. split; [done|]. split; [done|].
    rewrite drop_ge by (unfold zlength in Hcnt; lia). split; [constructor|]. set_solver.
Qed.
End heapsort.

(** sort is a heapsort: it returns, and leaves the elements of the array in an
    order in which every element is at most all later ones. *)
Theorem sort_spec {A} (compare : A → A → Z) `{!CmpOrder compare} (arr : list A) :
  2 * zlength arr + 1 < 2 ^ 64 →
  ∃ arr', sort compare (zlength arr) arr = Done (tt, arr') ∧ arr' ≡ₚ arr ∧
    StronglySorted (cle compare) arr'.
Proof.
  intros Hfit. apply wp_run_unit. unfold sort. wp_pure. apply (build_wp compare); [done..|].
  intros b Hlen Hp Hh. rewrite <- Hlen. apply (extract_wp compare); [done|lia|by rewrite Hlen|].
  intros b' Hp' Hs. split; [by rewrite Hp'|done].
Qed.

(** ** Binary search *)

(** binary_search returns, and finds a position of the array at which the key
    compares equal exactly when there is one, provided that the array is sorted
    as the key sees it: once the key is not above an element it is below or at
    all later ones. *)
Theorem binary_search_spec {A} (compare : A → Z) (arr : list A) :
  (∀ i j x y, i < j → zlookup arr i = Some x → zlookup arr j = Some y →
     (compare x < 0 → compare y < 0) ∧ (0 < compare y → 0 < compare x)) →
  ∃ r, binary_search arr (zlength arr) compare tt = Done (r, tt) ∧
    match r with
    | Some i => ∃ x, zlookup arr i = Some x ∧ compare x = 0
    | None => ∀ i x, zlookup arr i = Some x → compare x ≠ 0
    end.
Proof.
  intros Hs.
  cut (wp (binary_search arr (zlength arr) compare) tt (λ r _, match r with
    | Some i => ∃ x, zlookup arr i = Some x ∧ compare x = 0
    | None => ∀ i x, zlookup arr i = Some x → compare x ≠ 0
    end)).
  { intros (r & [] & ? & ?)%wp_done. eauto. }
  unfold binary_search.
  apply (wp_loop (λ n fl _, n = Z.to_nat (fl.2 - fl.1) ∧ 0 <= fl.1 ∧ fl.2 <= zlength arr ∧
    (∀ i x, zlookup arr i = Some x → i < fl.1 → 0 < compare x) ∧
    (∀ i x, zlookup arr i = Some x → fl.2 <= i → compare x < 0)) _ _ (Z.to_nat (zlength arr))).
  - intros n [first last] [] (-> & H0 & Hlen & Hlo & Hhi). simpl in *. unfold search_step.
    destruct (Z.ltb_spec first last) as [Hlt|Hge]; wp_pure.
    + set (mid := first + (last - first) / 2).
      assert (first <= mid < last) by (unfold mid; zdiv).
      destruct (zlookup_is_Some arr mid) as [x Hx]; [lia|].
      apply wp_deref. exists x. split; [done|].
      destruct (Z.ltb_spec (compare x) 0); [|destruct (Z.ltb_spec 0 (compare x))]; wp_pure.
      * exists (Z.to_nat (mid - first)). simpl. split; [lia|]. split; [done|]. split; [lia|].
        split; [lia|]. split; [done|]. intros i y Hy Hi. simpl in Hi. destruct (Z.eq_dec i mid) as [->|].
        -- rewrite Hx in Hy. by injection Hy as <-.
        -- refine (proj1 (Hs mid i x y _ Hx Hy) _); lia.
      * exists (Z.to_nat (last - (mid + 1))). simpl. split; [lia|]. split; [done|]. split; [lia|].
        split; [lia|]. split; [|done]. intros i y Hy Hi. simpl in Hi. destruct (Z.eq_dec i mid) as [->|].
        -- rewrite Hx in Hy. by injection Hy as <-.
        -- refine (proj2 (Hs i mid y x _ Hy Hx) _); lia.
      * exists x. split; [done|lia].
    + intros i x Hx. destruct (Z.lt_ge_cases i first) as [Hi|Hi].
      * specialize (Hlo i x Hx Hi). lia.
      * specialize (Hhi i x Hx). lia.
  - simpl. split; [f_equal; lia|]. split; [lia|]. split; [lia|]. split.
    + intros i x Hx%zlookup_Some_range. lia.
    + intros i x Hx%zlookup_Some_range. lia.
  - lia.
Qed.
