(* ===== verification/Stdio.v ===== *)
(** * Formatted output (lib/stdio.c, and vprintf of lib/kernel/console.c)

    __vprintf writes characters through the function [output] on a state of its
    own; vsnprintf instantiates it with a bounded buffer in memory, printf and
    hex_dump with the console. *)
From stdpp Require Import base numbers list sets gmap.
From Stdlib Require Import ZArith Lia Ascii String.
From S2P Require Import Prelude Bytes CString CStdlib.
Open Scope Z_scope.

(** A string literal without its terminator. *)
Definition lit (s : string) : list Z := (λ c, Z.of_nat (nat_of_ascii c)) <$> list_ascii_of_string s.

(** An argument of a variadic call: the 64 bits of an integer or pointer, or
    the array that a [char *] points to. *)
Inductive arg := Int (z : Z) | Str (l : list Z) | Null.

Inductive ptype := CHAR | SHORT | INT | INTMAX | LONG | LONGLONG | PTRDIFFT | SIZET.

(** The flags of struct printf_conversion *)
Definition MINUS : Z := 1.
Definition PLUS : Z := 2.
Definition SPACE : Z := 4.
Definition POUND : Z := 8.
Definition ZERO : Z := 16.
Definition GROUP : Z := 32.

Record printf_conversion := Conversion {
  flags : Z;
  width : Z;
  precision : Z;
  ctype : ptype;
}.

Record integer_base := Base {
  base : Z;
  digits : list Z;
  x_char : Z;
  group : Z;
}.

Definition base_d := Base 10 (lit "0123456789") 0 3.
Definition base_o := Base 8 (lit "01234567") 0 3.
Definition base_x := Base 16 (lit "0123456789abcdef") 120 4.
Definition base_X := Base 16 (lit "0123456789ABCDEF") 88 4.

Definition flag (fl bit : Z) : bool := negb (Z.land fl bit =? 0).

(** ** parse_conversion *)

Definition flag_of (c : Z) : option Z :=
  if c =? 45 then Some MINUS else if c =? 43 then Some PLUS else if c =? 32 then Some SPACE
  else if c =? 35 then Some POUND else if c =? 48 then Some ZERO
  else if c =? 39 then Some GROUP else None.

Fixpoint parse_flags (format : list Z) (fl : Z) : list Z * Z :=
  match format with
  | c :: f => match flag_of c with Some b => parse_flags f (Z.lor fl b) | None => (format, fl) end
  | [] => ([], fl)
  end.

(** [n = n * 10 + *format - '0'] over the digits *)
Fixpoint parse_digits {S} (format : list Z) (n : Z) : ST S (list Z * Z) :=
  match format with
  | c :: f =>
      if isdigit c then
        n10 ← int_ok (n * 10);
        nc ← int_ok (n10 + c);
        n ← int_ok (nc - 48);
        parse_digits f n
      else mret (format, n)
  | [] => undef
  end.

(** [va_arg (args, int)] and the like: the next argument, at its width. *)
Definition va_bits {S} (args : list arg) : ST S (Z * list arg) :=
  match args with Int z :: args => mret (z, args) | _ => undef end.

Definition peek {S} (format : list Z) : ST S Z := deref (head format).

Definition parse_width {S} (format : list Z) (fl : Z) (args : list arg) :
    ST S (list Z * Z * Z * list arg) :=
  c ← peek format;
  r ← (if c =? 42 then
         r ← va_bits args; mret (tail format, s32 (fst r), snd r)
       else r ← parse_digits format 0; mret (fst r, snd r, args));
  let '(format, w, args) := r in
  if w <? 0 then w ← int_ok (- w); mret (format, w, Z.lor fl MINUS, args)
  else mret (format, w, fl, args).

Definition parse_precision {S} (format : list Z) (args : list arg) : ST S (list Z * Z * list arg) :=
  c ← peek format;
  if negb (c =? 46) then mret (format, -1, args) else
  let format := tail format in
  c ← peek format;
  r ← (if c =? 42 then
         r ← va_bits args; mret (tail format, s32 (fst r), snd r)
       else r ← parse_digits format 0; mret (fst r, snd r, args));
  let '(format, p, args) := r in
  mret (format, if p <? 0 then -1 else p, args).

Definition parse_type {S} (format : list Z) : ST S (list Z * ptype) :=
  c ← peek format;
  let rest := tail format in
  if c =? 104 then
    c2 ← peek rest; mret (if c2 =? 104 then (tail rest, CHAR) else (rest, SHORT))
  else if c =? 106 then mret (rest, INTMAX)
  else if c =? 108 then
    c2 ← peek rest; mret (if c2 =? 108 then (tail rest, LONGLONG) else (rest, LONG))
  else if c =? 116 then mret (rest, PTRDIFFT)
  else if c =? 122 then mret (rest, SIZET)
  else mret (format, INT).

Definition parse_conversion {S} (format : list Z) (args : list arg) :
    ST S (list Z * printf_conversion * list arg) :=
  let '(format, fl) := parse_flags format 0 in
  let fl := if flag fl MINUS then Z.land fl (Z.lnot ZERO) else fl in
  let fl := if flag fl PLUS then Z.land fl (Z.lnot SPACE) else fl in
  r ← parse_width format fl args;
  let '(format, w, fl, args) := r in
  r ← parse_precision format args;
  let '(format, p, args) := r in
  let fl := if 0 <=? p then Z.land fl (Z.lnot ZERO) else fl in
  r ← parse_type format;
  let '(format, t) := r in
  mret (format, Conversion fl w p t, args).

(** ** The digits of format_integer *)

(** [*cp++ = c] in [char buf[64]]; the buffer's characters in the order they
    were stored. *)
Definition push (c : Z) (buf : list Z) : outcome (list Z) :=
  if zlength buf <? 64 then Done (buf ++ [c]) else Undef.

Fixpoint collect_digits (fuel : nat) (b : integer_base) (grp : bool) (value digit_cnt : Z)
    (buf : list Z) : outcome (list Z) :=
  match fuel with
  | O => NoFuel
  | S fuel =>
      if 0 <? value then
        buf ← (if grp && (0 <? digit_cnt) && (Z.rem digit_cnt (group b) =? 0)
               then push 44 buf else mret buf);
        match zlookup (digits b) (value mod base b) with
        | None => Undef
        | Some d => buf ← push d buf;
                    collect_digits fuel b grp (value / base b) (digit_cnt + 1) buf
        end
      else mret buf
  end.

(** [while (cp - buf < precision && cp < buf + sizeof buf - 1) *cp++ = '0';] *)
Fixpoint pad_zeros (fuel : nat) (precision : Z) (buf : list Z) : outcome (list Z) :=
  match fuel with
  | O => NoFuel
  | S fuel =>
      if (zlength buf <? precision) && (zlength buf <? 63)
      then buf ← push 48 buf; pad_zeros fuel precision buf
      else mret buf
  end.

(** The characters of the number, the last one first. *)
Definition integer_digits (value : Z) (b : integer_base) (c : printf_conversion) : outcome (list Z) :=
  buf ← collect_digits 65 b (flag (flags c) GROUP) value 0 [];
  buf ← pad_zeros 65 (if precision c <? 0 then 1 else precision c) buf;
  if flag (flags c) POUND && (base b =? 8) && negb (bool_decide (last buf = Some 48))
  then push 48 buf else mret buf.

Definition sign_of (is_signed negative : bool) (c : printf_conversion) : Z :=
  if is_signed then
    if flag (flags c) PLUS then if negative then 45 else 43
    else if flag (flags c) SPACE then if negative then 45 else 32
    else if negative then 45 else 0
  else 0.

(** ** Output *)

Section vprintf.
Context {O : Type} (output : Z → ST O unit).

Fixpoint emit (l : list Z) : ST O unit :=
  match l with [] => mret tt | c :: l => _ ← output c; emit l end.

Definition output_dup (ch cnt : Z) : ST O unit := emit (replicate (Z.to_nat cnt) ch).

Definition format_integer (value : Z) (is_signed negative : bool) (b : integer_base)
    (c : printf_conversion) : ST O unit :=
  let sign := sign_of is_signed negative c in
  let x := if flag (flags c) POUND && negb (value =? 0) then x_char b else 0 in
  buf ← lift_out (integer_digits value b c);
  let pad_cnt := width c - zlength buf - (if negb (x =? 0) then 2 else 0)
                 - (if negb (sign =? 0) then 1 else 0) in
  let pad_cnt := if pad_cnt <? 0 then 0 else pad_cnt in
  _ ← (if Z.land (flags c) (Z.lor MINUS ZERO) =? 0 then output_dup 32 pad_cnt else mret tt);
  _ ← (if negb (sign =? 0) then output sign else mret tt);
  _ ← (if negb (x =? 0) then _ ← output 48; output x else mret tt);
  _ ← (if flag (flags c) ZERO then output_dup 48 pad_cnt else mret tt);
  _ ← emit (reverse buf);
  if flag (flags c) MINUS then output_dup 32 pad_cnt else mret tt.

(** The first [length] characters of [string]. *)
Definition format_string (string : list Z) (length : Z) (c : printf_conversion) : ST O unit :=
  _ ← (if (length <? width c) && negb (flag (flags c) MINUS)
       then output_dup 32 (width c - length) else mret tt);
  _ ← emit (take (Z.to_nat length) string);
  if (length <? width c) && flag (flags c) MINUS
  then output_dup 32 (width c - length) else mret tt.

(** strnlen on the array that the argument points to *)
Fixpoint strnlen_of (l : list Z) (length maxlen : Z) : outcome Z :=
  match l with
  | [] => Undef
  | c :: l => if negb (c =? 0) && (length <? maxlen) then strnlen_of l (length + 1) maxlen
              else Done length
  end.

(** The value of a signed conversion ... *)
Definition signed_arg (t : ptype) (bits : Z) : Z :=
  match t with
  | CHAR => (bits + 128) mod 256 - 128
  | SHORT => (bits + 2 ^ 15) mod 2 ^ 16 - 2 ^ 15
  | INT => s32 bits
  | INTMAX | LONG | LONGLONG | PTRDIFFT => s64 bits
  | SIZET =>
      let value := s64 bits in
      if (2 ^ 64 - 1) / 2 <? u64 value then s64 (u64 (u64 (u64 value - (2 ^ 64 - 1)) - 1)) else value
  end.
(** ... and of an unsigned one. *)
Definition unsigned_arg (t : ptype) (bits : Z) : Z :=
  match t with
  | CHAR => u8 bits
  | SHORT => u16 bits
  | INT => u32 bits
  | INTMAX | LONG | LONGLONG | SIZET => u64 bits
  | PTRDIFFT => Z.land (u64 (s64 bits)) (Z.lor (Z.shiftl (2 ^ 63 - 1) 1) 1)
  end.

(** [-value] is undefined for the least [intmax_t]. *)
Definition convert_signed (c : printf_conversion) (args : list arg) : ST O (list arg) :=
  r ← va_bits args;
  let value := signed_arg (ctype c) (fst r) in
  if value =? - 2 ^ 63 then undef else
  _ ← format_integer (if value <? 0 then - value else value) true (value <? 0) base_d c;
  mret (snd r).

Definition convert_unsigned (b : integer_base) (c : printf_conversion) (args : list arg) :
    ST O (list arg) :=
  r ← va_bits args;
  _ ← format_integer (unsigned_arg (ctype c) (fst r)) false false b c;
  mret (snd r).

Definition convert_string (c : printf_conversion) (args : list arg) : ST O (list arg) :=
  match args with
  | a :: args =>
      s ← (match a with
           | Str l => mret l | Null => mret (lit "(null)" ++ [0]) | Int _ => undef
           end);
      n ← lift_out (strnlen_of s 0 (u64 (precision c)));
      _ ← format_string s (s32 n) c;
      mret args
  | [] => undef
  end.

(** One conversion; [nested] is the call of __printf for a character that has
    none. *)
Definition convert (nested : list Z → Z → ST O unit) (ch : Z) (c : printf_conversion)
    (args : list arg) : ST O (list arg) :=
  if (ch =? 100) || (ch =? 105) then convert_signed c args
  else if ch =? 111 then convert_unsigned base_o c args
  else if ch =? 117 then convert_unsigned base_d c args
  else if ch =? 120 then convert_unsigned base_x c args
  else if ch =? 88 then convert_unsigned base_X c args
  else if ch =? 99 then
    r ← va_bits args; _ ← format_string [u8 (fst r)] 1 c; mret (snd r)
  else if ch =? 115 then convert_string c args
  else if ch =? 112 then
    match args with
    | Int p :: args => 
        _ ← format_integer (u64 p) false false base_x
              (Conversion POUND (width c) (precision c) (ctype c));
        mret args
    | _ => undef
    end
  else if (ch =? 102) || (ch =? 101) || (ch =? 69) || (ch =? 103) || (ch =? 71) || (ch =? 110) then
    _ ← nested (lit "<<no %%%c in kernel>>") ch; mret args
  else _ ← nested (lit "<<no %%%c conversion>>") ch; mret args.

(** One turn of the loop over the format, which ends with its NUL. *)
Definition vprintf_step (nested : list Z → Z → ST O unit) (st : list Z * list arg) :
    ST O (list Z * list arg + unit) :=
  let '(format, args) := st in
  c ← peek format;
  if c =? 0 then mret (inr tt) else
  if negb (c =? 37) then _ ← output c; mret (inl (tail format, args)) else
  let format := tail format in
  c ← peek format;
  if c =? 37 then _ ← output 37; mret (inl (tail format, args)) else
  r ← parse_conversion format args;
  let '(format, conv, args) := r in
  ch ← peek format;
  args ← convert nested ch conv args;
  mret (inl (tail format, args)).

Definition vprintf_loop (nested : list Z → Z → ST O unit) (format : list Z) (args : list arg) :
    ST O unit :=
  loop (S (Datatypes.length format)) (vprintf_step nested) (format, args).

(** The formats of the nested call have only %% and %c. *)
Definition __vprintf (format : list Z) (args : list arg) : ST O unit :=
  vprintf_loop (λ f ch, vprintf_loop (λ _ _, undef) (f ++ [0]) [Int ch]) (format ++ [0]) args.

Definition __printf (format : list Z) (args : list arg) : ST O unit := __vprintf format args.
End vprintf.

(** ** vsnprintf *)

(** struct vsnprintf_aux, and the memory that holds the buffer *)
Record vsnprintf_aux := Aux {
  aux_mem : mem;
  aux_p : Z;
  aux_length : Z;
  aux_max : Z;
}.

Definition vsnprintf_helper (ch : Z) : ST vsnprintf_aux unit :=
  a ← get_st;
  n ← int_ok (aux_length a + 1);
  if aux_length a <? aux_max a then
    _ ← zoom aux_mem (λ m a, Aux m (aux_p a) (aux_length a) (aux_max a)) (store8 (aux_p a) ch);
    modify (λ a, Aux (aux_mem a) (aux_p a + 1) n (aux_max a))
  else modify (λ a, Aux (aux_mem a) (aux_p a) n (aux_max a)).

Definition vsnprintf (buffer buf_size : Z) (format : list Z) (args : list arg) : ST mem Z := λ m,
  match __vprintf vsnprintf_helper format args
          (Aux m buffer 0 (s32 (if 0 <? buf_size then buf_size - 1 else 0))) with
  | Done (_, a) =>
      (_ ← (if 0 <? buf_size then store8 (aux_p a) 0 else mret tt); mret (aux_length a)) (aux_mem a)
  | Panic => Panic | Undef => Undef | NoFuel => NoFuel
  end.

Definition snprintf (buffer buf_size : Z) (format : list Z) (args : list arg) : ST mem Z :=
  vsnprintf buffer buf_size format args.

(** ** The console *)

(** What has been written, and console.c's [write_cnt]; taking the console lock
    has no effect on them. *)
Record console := Console { con_out : list Z; write_cnt : Z }.

Definition putchar_have_lock (c : Z) : ST console unit :=
  modify (λ k, Console (con_out k ++ [c]) (write_cnt k + 1)).

(** vprintf counts the characters in [char_cnt]. *)
Definition vprintf_helper (c : Z) : ST (console * Z) unit :=
  s ← get_st;
  n ← int_ok (snd s + 1);
  _ ← modify (λ s, (fst s, n));
  zoom fst (λ k s, (k, snd s)) (putchar_have_lock c).

Definition vprintf (format : list Z) (args : list arg) : ST console Z := λ k,
  match __vprintf vprintf_helper format args (k, 0) with
  | Done (_, (k, n)) => Done (n, k)
  | Panic => Panic | Undef => Undef | NoFuel => NoFuel
  end.
Definition printf (format : string) (args : list arg) : ST console Z := vprintf (lit format) args.

(** ** hex_dump *)

Definition isprint (c : Z) : bool := (32 <=? c) && (c <? 127).

Fixpoint repeat_printf (n : nat) (s : string) : ST console unit :=
  match n with O => mret tt | S n => _ ← printf s []; repeat_printf n s end.

Fixpoint hex_bytes (i : Z) (l : list Z) : ST console unit :=
  match l with
  | [] => mret tt
  | c :: l => _ ← printf "%02hhx%c" [Int c; Int (if i =? 7 then 45 else 32)]; hex_bytes (i + 1) l
  end.
Fixpoint hex_chars (l : list Z) : ST console unit :=
  match l with
  | [] => mret tt
  | c :: l => _ ← printf "%c" [Int (if isprint c then c else 46)]; hex_chars l
  end.

(** One line: the bytes of [line] from column [start] on. *)
Definition hex_line (ofs start : Z) (line : list Z) (ascii : bool) : ST console unit :=
  let before := Z.to_nat start in
  let after := (16 - before - Datatypes.length line)%nat in
  _ ← printf "%016llx  " [Int (ofs / 16 * 16)];
  _ ← repeat_printf before "   ";
  _ ← hex_bytes start line;
  _ ← (if ascii then
         _ ← repeat_printf after "   ";
         _ ← printf "|" [];
         _ ← repeat_printf before " ";
         _ ← hex_chars line;
         _ ← repeat_printf after " ";
         _ ← printf "|" []; mret tt
       else mret tt);
  _ ← printf "
" []; mret tt.

Definition hex_dump_step (ascii : bool) (st : Z * list Z) : ST console (Z * list Z + unit) :=
  let '(ofs, buf) := st in
  if 0 <? zlength buf then
    let start := ofs mod 16 in
    let n := if zlength buf <? 16 - start then zlength buf else 16 - start in
    _ ← hex_line ofs start (take (Z.to_nat n) buf) ascii;
    mret (inl (u64 (ofs + n), drop (Z.to_nat n) buf))
  else mret (inr tt).

Definition hex_dump (ofs : Z) (buf : list Z) (ascii : bool) : ST console unit :=
  loop (S (Datatypes.length buf)) (hex_dump_step ascii) (ofs, buf).

(** ** On examples *)

Definition printed (format : string) (args : list arg) : outcome (list Z) :=
  match printf format args (Console [] 0) with
  | Done (_, k) => Done (con_out k) | Panic => Panic | Undef => Undef | NoFuel => NoFuel
  end.

Example printed_d : printed "%d|%5d|%-5d|%05d|%+d" [Int (-42); Int 7; Int 7; Int (-7); Int 3]
  = Done (lit "-42|    7|7    |-0007|+3").
Proof. vm_compute. reflexivity. Qed.
Example printed_x : printed "%#x %08X %o %'d %p" [Int 255; Int 48879; Int 8; Int 1234567; Int 4096]
  = Done (lit "0xff 0000BEEF 10 1,234,567 0x1000").
Proof. vm_compute. reflexivity. Qed.
Example printed_s : printed "%5s|%-5.2s|%s|%f%%" [Str (lit "abc" ++ [0]); Str (lit "abc" ++ [0]); Null]
  = Done (lit "  abc|ab   |(null)|<<no %f in kernel>>%").
Proof. vm_compute. reflexivity. Qed.

(** ** Digits *)

(** A number base of the code. *)
Record wf_base (b : integer_base) : Prop := {
  wb_base : 8 <= base b <= 16;
  wb_digits : zlength (digits b) = base b;
  wb_group : 0 < group b;
}.

Lemma wf_bases : wf_base base_d ∧ wf_base base_o ∧ wf_base base_x ∧ wf_base base_X.
Proof. repeat split; vm_compute; congruence. Qed.

(** The number with the digits [dn], the least significant one first. *)
Fixpoint le_num (base : Z) (dn : list Z) : Z :=
  match dn with [] => 0 | d :: dn => d + base * le_num base dn end.

Definition digit_char (b : integer_base) (d : Z) : Z := default 0 (zlookup (digits b) d).

(** [dn] are the digits of [value], without a leading zero. *)
Definition digits_of (b : integer_base) (value : Z) (dn : list Z) : Prop :=
  Forall (λ d, 0 <= d < base b) dn ∧ le_num (base b) dn = value ∧ ∀ d, last dn = Some d → d ≠ 0.

Section digits.
Implicit Types (b : integer_base) (buf dn : list Z).

Lemma push_ok c buf : zlength buf < 64 → push c buf = Done (buf ++ [c]).
Proof. intros H. unfold push. by rewrite (proj2 (Z.ltb_lt _ _)). Qed.

(** The loop over the digits never leaves the buffer. *)
Lemma collect_digits_ok b grp k fuel value cnt buf :
  wf_base b → 0 <= value < base b ^ Z.of_nat k → (k < fuel)%nat → zlength buf + 2 * Z.of_nat k <= 64 →
  ∃ buf', collect_digits fuel b grp value cnt buf = Done buf' ∧
    zlength buf <= zlength buf' <= zlength buf + 2 * Z.of_nat k ∧
    (grp = false → ∃ dn, buf' = buf ++ (digit_char b <$> dn) ∧ digits_of b value dn).
Proof.
  intros [Hb Hd Hg]. revert fuel value cnt buf.
  induction k as [|k IH]; intros [|fuel] value cnt buf Hv Hf Hl; try lia; cbn [collect_digits].
  { assert (value = 0) as -> by lia. simpl. exists buf. split; [done|]. split; [lia|].
    intros _. exists []. rewrite app_nil_r. done. }
  destruct (Z.ltb_spec 0 value) as [Hpos|Hz].
  2: { assert (value = 0) as -> by lia. exists buf. split; [done|]. split; [lia|].
       intros _. exists []. rewrite app_nil_r. done. }
  rewrite Nat2Z.inj_succ, Z.pow_succ_r in Hv by lia.
  assert (Hmod := Z.mod_pos_bound value (base b) ltac:(lia)).
  assert (Hdiv := Z.div_mod value (base b) ltac:(lia)).
  assert (Hq : 0 <= value / base b < base b ^ Z.of_nat k).
  { split; [apply Z.div_pos; lia|]. apply Z.div_lt_upper_bound; lia. }
  destruct (zlookup_is_Some (digits b) (value mod base b)) as [d Hdig]; [lia|].
  set (sep := grp && _ && _).
  assert (Hsep : ∃ buf1, (if sep then push 44 buf else Done buf) = Done buf1 ∧
    zlength buf <= zlength buf1 <= zlength buf + 1 ∧ (grp = false → buf1 = buf)).
  { destruct sep eqn:Hs.
    - rewrite push_ok by lia. exists (buf ++ [44]). rewrite zlength_app. change (zlength [44]) with 1.
      split; [done|]. split; [lia|]. intros ->. done.
    - exists buf. split; [done|]. split; [lia|done]. }
  destruct Hsep as (buf1 & He & Hl1 & Hg1). unfold mret, outcome_ret. rewrite He. cbn [mbind outcome_bind].
  rewrite Hdig, push_ok by lia. cbn [mbind outcome_bind].
  assert (Hlen : zlength (buf1 ++ [d]) = zlength buf1 + 1).
  { rewrite zlength_app. change (zlength [d]) with 1. lia. }
  destruct (IH fuel (value / base b) (cnt + 1) (buf1 ++ [d])) as (buf' & -> & Hl' & Hdn); [lia..|].
  exists buf'. split; [done|]. split; [lia|]. intros Hgf. destruct (Hdn Hgf) as (dn & -> & Hall & Hn & Hlast).
  exists (value mod base b :: dn). split; [|split; [|split]].
  - rewrite (Hg1 Hgf), fmap_cons, <- app_assoc. unfold digit_char at 2. by rewrite Hdig.
  - by constructor.
  - simpl. lia.
  - intros x. destruct dn as [|y dn]; [|by apply (Hlast x)]. intros [= <-]. simpl in Hn. lia.
Qed.

Lemma pad_zeros_ok fuel p buf :
  zlength buf <= 63 → (Z.to_nat (63 - zlength buf) < fuel)%nat →
  pad_zeros fuel p buf
  = Done (buf ++ replicate (Z.to_nat ((if p <? 63 then p else 63) - zlength buf)) 48).
Proof.
  revert buf. induction fuel as [|fuel IH]; intros buf Hl Hf; [lia|]. cbn [pad_zeros].
  destruct (Z.ltb_spec (zlength buf) p), (Z.ltb_spec (zlength buf) 63); simpl.
  - rewrite push_ok by lia. cbn [mbind outcome_bind].
    assert (Hlen : zlength (buf ++ [48]) = zlength buf + 1).
    { rewrite zlength_app. change (zlength [48]) with 1. lia. }
    rewrite IH by lia. rewrite Hlen, <- app_assoc. f_equal. f_equal.
    replace (Z.to_nat ((if p <? 63 then p else 63) - zlength buf))
      with (S (Z.to_nat ((if p <? 63 then p else 63) - (zlength buf + 1)))).
    + done.
    + destruct (Z.ltb_spec p 63); lia.
  - replace (Z.to_nat _) with O by (destruct (Z.ltb_spec p 63); lia). by rewrite app_nil_r.
  - replace (Z.to_nat _) with O by (destruct (Z.ltb_spec p 63); lia). by rewrite app_nil_r.
  - replace (Z.to_nat _) with O by (destruct (Z.ltb_spec p 63); lia). by rewrite app_nil_r.
Qed.
End digits.

Lemma integer_digits_ok b c value :
  wf_base b → 0 <= value < 2 ^ 64 →
  ∃ buf, integer_digits value b c = Done buf ∧ zlength buf <= 64 ∧
    (flag (flags c) GROUP = false →
     ∃ dn pad alt, buf = (digit_char b <$> dn) ++ replicate pad 48 ++ replicate alt 48 ∧
       digits_of b value dn ∧
       Z.of_nat pad = Z.max 0 (Z.min 63 (if precision c <? 0 then 1 else precision c) - zlength dn) ∧
       (alt ≤ 1)%nat ∧ (flag (flags c) POUND && (base b =? 8) = false → alt = 0%nat)).
Proof.
  intros Hb Hv. unfold integer_digits. set (p := if precision c <? 0 then 1 else precision c).
  destruct (collect_digits_ok b (flag (flags c) GROUP) 22 65 value 0 []) as (buf1 & -> & Hl1 & Hdn).
  { done. }
  { split; [lia|]. pose proof (wb_base b Hb).
    assert (8 ^ Z.of_nat 22 <= base b ^ Z.of_nat 22) by (apply Z.pow_le_mono_l; lia).
    change (8 ^ Z.of_nat 22) with (2 ^ 66) in *. lia. }
  { lia. }
  { done. }
  change (zlength []) with 0 in Hl1. cbn [mbind outcome_bind].
  rewrite pad_zeros_ok by lia. cbn [mbind outcome_bind]. set (z := Z.to_nat _).
  assert (Hz : zlength (buf1 ++ replicate z 48) <= 63).
  { rewrite zlength_app. unfold zlength at 2. rewrite length_replicate.
    unfold z. destruct (Z.ltb_spec p 63); lia. }
  assert (Hpad : ∀ dn, buf1 = digit_char b <$> dn →
    Z.of_nat z = Z.max 0 (Z.min 63 p - zlength dn)).
  { intros dn ->. unfold z, zlength. rewrite length_fmap. destruct (Z.ltb_spec p 63); lia. }
  destruct (flag (flags c) POUND && (base b =? 8) && _) eqn:Hoct.
  - rewrite push_ok by lia. eexists. split; [done|].
    split; [rewrite zlength_app; change (zlength [48]) with 1; lia|]. intros Hg.
    destruct (Hdn Hg) as (dn & -> & Hof). exists dn, z, 1%nat. simpl app at 1.
    split; [by rewrite <- app_assoc|]. split; [done|]. split; [by apply Hpad|]. split; [lia|].
    intros Hf. by rewrite Hf in Hoct.
  - eexists. split; [done|]. split; [lia|]. intros Hg. destruct (Hdn Hg) as (dn & -> & Hof).
    exists dn, z, 0%nat. simpl app at 1. rewrite app_nil_r. split; [done|]. split; [done|].
    split; [by apply Hpad|]. split; [lia|done].
Qed.

(** Every integer conversion stays inside of format_integer's 64-character
    buffer, whatever its flags and precision are; without the grouping flag
    the buffer holds the digits of the number, filled up with zeros to the
    precision (at most 63 characters), and one more zero for [%#o]. *)
Theorem integer_digits_spec b c value :
  wf_base b → 0 <= value < 2 ^ 64 →
  ∃ buf, integer_digits value b c = Done buf ∧ zlength buf <= 64 ∧
    (flag (flags c) GROUP = false →
     ∃ dn pad alt, buf = (digit_char b <$> dn) ++ replicate pad 48 ++ replicate alt 48 ∧
       digits_of b value dn ∧
       Z.of_nat pad = Z.max 0 (Z.min 63 (if precision c <? 0 then 1 else precision c) - zlength dn) ∧
       (alt ≤ 1)%nat ∧ (flag (flags c) POUND && (base b =? 8) = false → alt = 0%nat)).
Proof. apply integer_digits_ok. Qed.

(** ** The output function *)

(** The characters that a call emits. *)
Definition collect (c : Z) : ST (list Z) unit := modify (λ l, l ++ [c]).

Section simulation.
Context {O : Type} (output : Z → ST O unit) (R : list Z → O → Prop).
Context (Hout : ∀ c l o, R l o → zlength l + 1 < 2 ^ 31 →
  ∃ o', output c o = Done (tt, o') ∧ R (l ++ [c]) o').

(** [m1] adds to what was collected before, and [m2] does with [output] what
    [m1] does with [collect], as long as an [int] can count the characters. *)
Definition sim {A} (m1 : ST (list Z) A) (m2 : ST O A) : Prop :=
  ∀ l a l', m1 l = Done (a, l') → l `prefix_of` l' ∧
    ∀ o, R l o → zlength l' < 2 ^ 31 → ∃ o', m2 o = Done (a, o') ∧ R l' o'.

Lemma prefix_zlength {A} (l1 l2 : list A) : l1 `prefix_of` l2 → zlength l1 <= zlength l2.
Proof. intros H. apply prefix_length in H. unfold zlength. lia. Qed.

Lemma sim_same {A} (x : outcome A) : sim (lift_out x) (lift_out x).
Proof.
  intros l a l'. unfold lift_out. destruct x; [|done..]. intros [= <- <-]. split; [done|]. eauto.
Qed.
Lemma sim_ret {A} (a : A) : sim (mret a) (mret a).
Proof. apply (sim_same (Done a)). Qed.
Lemma sim_undef {A} : sim (A:=A) undef undef.
Proof. apply (sim_same Undef). Qed.
Lemma sim_lift {A} (x : outcome A) : sim (lift_out x) (lift_out x).
Proof. apply sim_same. Qed.
Lemma sim_deref {A} (x : option A) : sim (deref x) (deref x).
Proof. destruct x; [apply sim_ret|apply sim_undef]. Qed.
Lemma sim_bind {A B} (m1 : ST (list Z) A) m2 (k1 : A → ST (list Z) B) k2 :
  sim m1 m2 → (∀ a, sim (k1 a) (k2 a)) → sim (m1 ≫= k1) (m2 ≫= k2).
Proof.
  intros Hm Hk l b l'. unfold mbind, st_bind. destruct (m1 l) as [[a l1]| | |] eqn:H1; [|done..].
  intros H2. destruct (Hm _ _ _ H1) as [Hp1 Hr1], (Hk a _ _ _ H2) as [Hp2 Hr2].
  split; [by etrans|]. intros o HR Hlt. pose proof (prefix_zlength _ _ Hp2).
  destruct (Hr1 o HR) as (o1 & -> & HR1); [lia|]. by apply Hr2.
Qed.
Lemma sim_output c : sim (collect c) (output c).
Proof.
  intros l a l' [= <- <-]. split; [by apply prefix_app_r|]. intros o HR Hlt. apply Hout; [done|].
  rewrite zlength_app in Hlt. exact Hlt.
Qed.
Lemma sim_if {A} (b : bool) (m1 n1 : ST (list Z) A) m2 n2 :
  sim m1 m2 → sim n1 n2 → sim (if b then m1 else n1) (if b then m2 else n2).
Proof. by destruct b. Qed.
Lemma sim_loop {A B} n (f1 : A → ST (list Z) (A + B)) f2 a :
  (∀ a, sim (f1 a) (f2 a)) → sim (loop n f1 a) (loop n f2 a).
Proof.
  intros Hf. revert a. induction n as [|n IH]; intros a; [by intros l b l' [=]|].
  rewrite !loop_S. apply sim_bind; [done|]. intros [a'|b]; [apply IH|apply sim_ret].
Qed.

(** Follows the structure of both programs. *)
Ltac sim_with t :=
  repeat first
    [ t | apply sim_ret | apply sim_undef | apply sim_deref | apply sim_lift | apply sim_output
    | apply sim_if | (apply sim_bind; [|intros ?])
    | lazymatch goal with
      | |- sim (let '(_, _) := ?x in _) _ => destruct x
      | |- sim (match ?x with _ => _ end) _ => destruct x
      end ].
Ltac sim := sim_with fail.

Lemma sim_emit l : sim (emit collect l) (emit output l).
Proof. induction l as [|c l IH]; simpl; [apply sim_ret|]. sim. exact IH. Qed.
Lemma sim_int_ok x : sim (int_ok x) (int_ok x).
Proof. unfold int_ok. sim. Qed.
Lemma sim_parse_digits f n : sim (parse_digits f n) (parse_digits f n).
Proof.
  revert n. induction f as [|c f IH]; intros n; simpl; sim; try apply sim_int_ok. apply IH.
Qed.
Lemma sim_va_bits args : sim (va_bits args) (va_bits args).
Proof. unfold va_bits. sim. Qed.
Lemma sim_parse_conversion f args : sim (parse_conversion f args) (parse_conversion f args).
Proof.
  unfold parse_conversion, parse_width, parse_precision, parse_type, peek.
  destruct (parse_flags f 0) as [f' fl]. sim; try apply sim_va_bits; try apply sim_parse_digits; apply sim_int_ok.
Qed.
Lemma sim_format_integer v sg ng b c :
  sim (format_integer collect v sg ng b c) (format_integer output v sg ng b c).
Proof. unfold format_integer, output_dup. sim; apply sim_emit. Qed.
Lemma sim_format_string l n c : sim (format_string collect l n c) (format_string output l n c).
Proof. unfold format_string, output_dup. sim; apply sim_emit. Qed.

Lemma sim_convert n1 n2 ch c args :
  (∀ f x, sim (n1 f x) (n2 f x)) → sim (convert collect n1 ch c args) (convert output n2 ch c args).
Proof.
  intros Hn. unfold convert, convert_signed, convert_unsigned, convert_string.
  sim_with ltac:(first [apply sim_va_bits | apply sim_format_integer | apply sim_format_string
                       | apply Hn]).
Qed.
Lemma sim_vprintf_loop n1 n2 f args :
  (∀ f x, sim (n1 f x) (n2 f x)) →
  sim (vprintf_loop collect n1 f args) (vprintf_loop output n2 f args).
Proof.
  intros Hn. unfold vprintf_loop. apply sim_loop. intros [f' args']. unfold vprintf_step, peek.
  sim_with ltac:(first [apply sim_parse_conversion | by apply sim_convert]).
Qed.

(** __vprintf uses its output function as a sink only. *)
Lemma sim_vprintf f args : sim (__vprintf collect f args) (__vprintf output f args).
Proof.
  unfold __vprintf. apply sim_vprintf_loop. intros f' x. apply sim_vprintf_loop.
  intros. apply sim_undef.
Qed.
End simulation.

(** ** vsnprintf *)

Section bounded.
Context (m : mem) (buffer max : Z) (Hmap : mapped m buffer max).

(** The state of vsnprintf_helper after the characters [l]. *)
Definition stored_prefix (l : list Z) (a : vsnprintf_aux) : Prop :=
  let t := take (Z.to_nat max) l in
  aux_length a = zlength l ∧ aux_max a = max ∧ aux_p a = buffer + zlength t ∧
  overwritten m buffer (u8 <$> t) (aux_mem a).

Lemma helper_stores c l a :
  stored_prefix l a → zlength l + 1 < 2 ^ 31 →
  ∃ a', vsnprintf_helper c a = Done (tt, a') ∧ stored_prefix (l ++ [c]) a'.
Proof.
  intros (Hlen & Hm & Hp & Ho) Hlt. apply wp_run_unit. unfold vsnprintf_helper. wp_pure.
  pose proof (zlength_nonneg l). rewrite Hlen, Hm. apply wp_int_ok; [lia|].
  assert (Hl1 : zlength (l ++ [c]) = zlength l + 1) by apply zlength_app.
  destruct (Z.ltb_spec (zlength l) max) as [Hin|Hout].
  - assert (Ht : take (Z.to_nat max) l = l) by (apply firstn_all2; unfold zlength in Hin; lia).
    assert (Ht1 : take (Z.to_nat max) (l ++ [c]) = l ++ [c])
      by (apply firstn_all2; unfold zlength in *; lia).
    assert (Hu : zlength (u8 <$> l) = zlength l) by (unfold zlength; by rewrite length_fmap).
    rewrite Ht in *. wp_pure. rewrite Hp. apply wp_store8.
    { rewrite Ho, Hu, decide_False by lia. apply Hmap. lia. }
    wp_pure. unfold stored_prefix. rewrite Ht1, Hl1. simpl. split_and!; [done|done|lia|].
    rewrite fmap_app. simpl. rewrite <- Hu. pose proof (u8_range c) as Hr.
    replace (u8 c) with (u8 (u8 c)) at 2 by (by apply Z.mod_small).
    by apply overwritten_step.
  - assert (Ht1 : take (Z.to_nat max) (l ++ [c]) = take (Z.to_nat max) l)
      by (apply take_app_le; unfold zlength in Hout; lia).
    wp_pure. unfold stored_prefix. rewrite Ht1, Hl1. done.
Qed.
End bounded.

Lemma vsnprintf_run m buffer size format args l :
  __vprintf collect format args [] = Done (tt, l) → zlength l < 2 ^ 31 → Forall is_byte l →
  0 <= size <= 2 ^ 31 → mapped m buffer size →
  ∃ m', vsnprintf buffer size format args m = Done (zlength l, m') ∧
    if decide (size = 0) then m' = m
    else overwritten m buffer (take (Z.to_nat (size - 1)) l ++ [0]) m'.
Proof.
  intros Hrun Hlen Hby Hsize Hmap. unfold vsnprintf.
  set (mx := s32 (if 0 <? size then size - 1 else 0)).
  assert (Hmx : mx = if decide (size = 0) then 0 else size - 1).
  { unfold mx. destruct (Z.ltb_spec 0 size); case_decide; try lia; apply s32_small; lia. }
  assert (Hmx0 : 0 <= mx) by (rewrite Hmx; case_decide; lia).
  assert (Hmap' : mapped m buffer mx).
  { intros a Ha. apply Hmap. rewrite Hmx in Ha. case_decide; lia. }
  destruct (sim_vprintf vsnprintf_helper (stored_prefix m buffer mx)
    (λ c l a, helper_stores m buffer mx Hmap' c l a) format args _ _ _ Hrun) as [_ Hsim].
  destruct (Hsim (Aux m buffer 0 mx)) as (a & -> & (Ha & _ & Hp & Ho)); [|done|].
  { unfold stored_prefix. rewrite take_nil. simpl. split_and!; [done|done|unfold zlength; simpl; lia|].
    intros x. by rewrite decide_False by (unfold zlength; simpl; lia). }
  assert (Hu8 : u8 <$> take (Z.to_nat mx) l = take (Z.to_nat mx) l).
  { rewrite <- (list_fmap_id (take _ l)) at 2. apply list_fmap_ext. intros i x Hx.
    apply lookup_take_Some in Hx as [Hx _]. apply Z.mod_small. 
    exact (Forall_lookup_1 _ _ _ _ Hby Hx). }
  rewrite Hu8 in Ho. rewrite Hmx in *. case_decide as Hz.
  - subst size. simpl. exists (aux_mem a). rewrite <- Ha. split; [done|]. apply map_eq. intros x.
    rewrite Ho. rewrite decide_False; [done|]. simpl. unfold zlength. simpl. lia.
  - rewrite (proj2 (Z.ltb_lt 0 size)) by lia.
    assert (Htl : zlength (take (Z.to_nat (size - 1)) l) <= size - 1).
    { unfold zlength. rewrite length_take. lia. }
    pose proof (zlength_nonneg (take (Z.to_nat (size - 1)) l)).
    eexists. split; [apply wp_run_eq; wp_step; rewrite Hp; apply wp_store8; [|wp_pure; split; [exact Ha|reflexivity]]|].
    { rewrite Ho, decide_False by lia. apply Hmap. lia. }
    apply overwritten_step; [done|]. unfold is_byte. lia.
Qed.

(** vsnprintf answers the length of the whole output, and leaves the part that
    fits in the buffer, null-terminated; the rest of the memory is unchanged. *)
Theorem vsnprintf_spec m buffer size format args l :
  __vprintf collect format args [] = Done (tt, l) → zlength l < 2 ^ 31 → Forall is_byte l →
  0 <= size <= 2 ^ 31 → mapped m buffer size →
  ∃ m', vsnprintf buffer size format args m = Done (zlength l, m') ∧
    if decide (size = 0) then m' = m
    else overwritten m buffer (take (Z.to_nat (size - 1)) l ++ [0]) m'.
Proof. apply vsnprintf_run. Qed.

(** ** Printing and reading integers *)

Lemma decimal_digit d : 0 <= d < 10 → digit_char base_d d = 48 + d.
Proof.
  intros Hd. assert (d = 0 ∨ d = 1 ∨ d = 2 ∨ d = 3 ∨ d = 4 ∨ d = 5 ∨ d = 6 ∨ d = 7 ∨ d = 8 ∨ d = 9)
    as H by lia. by repeat destruct H as [->|H]; [..|subst d].
Qed.

Lemma decimal_le_num dn :
  Forall (λ d, 0 <= d < 10) dn →
  decimal (reverse (digit_char base_d <$> dn)) = le_num 10 dn ∧
  Forall (λ c, isdigit c = true) (reverse (digit_char base_d <$> dn)).
Proof.
  induction 1 as [|d dn Hd _ [IH1 IH2]]; [by split|]. rewrite fmap_cons, reverse_cons, decimal_snoc, IH1.
  rewrite decimal_digit by done. simpl. split; [lia|]. apply Forall_app. split; [done|].
  constructor; [|done]. unfold isdigit. lia.
Qed.

Lemma le_num_lower b dn d :
  2 <= b → Forall (λ d, 0 <= d < b) (dn ++ [d]) → d ≠ 0 → b ^ zlength dn <= le_num b (dn ++ [d]).
Proof.
  intros Hb. induction dn as [|x dn IH]; intros Hall Hd; simpl in *.
  - apply Forall_cons in Hall as [? _]. change (b ^ zlength []) with 1. lia.
  - apply Forall_cons in Hall as [Hx Hall]. specialize (IH Hall Hd). rewrite zlength_cons.
    rewrite Z.add_comm, Z.pow_add_r by (pose proof (zlength_nonneg dn); lia). nia.
Qed.

Lemma digits_of_length value dn k :
  digits_of base_d value dn → value < 10 ^ k → 0 <= k → zlength dn <= k.
Proof.
  intros (Hall & Hn & Hlast) Hv Hk. destruct dn as [|d dn' _] using rev_ind; [done|].
  change (base base_d) with 10 in *. specialize (Hlast d (last_snoc _ _)).
  pose proof (le_num_lower 10 dn' d ltac:(lia) Hall Hlast) as Hlow. rewrite Hn in Hlow.
  rewrite zlength_app. change (zlength [d]) with 1.
  destruct (Z.le_gt_cases k (zlength dn')) as [Hge|]; [|lia].
  pose proof (Z.pow_le_mono_r 10 k (zlength dn') ltac:(lia) Hge). lia.
Qed.

Lemma emit_collect l l0 : emit collect l l0 = Done (tt, l0 ++ l).
Proof.
  revert l0. induction l as [|c l IH]; intros l0; simpl; [by rewrite app_nil_r|].
  unfold mbind, st_bind, collect, modify. rewrite IH. by rewrite <- app_assoc.
Qed.

Lemma wp_lift_out {S A} (x : outcome A) a (s : S) Q : x = Done a → Q a s → wp (lift_out x) s Q.
Proof. by intros ->. Qed.

(** What %d prints for an [int]. *)
Lemma printed_int n :
  - 2 ^ 31 <= n < 2 ^ 31 → ∃ ds,
  __vprintf collect (lit "%d") [Int n] [] = Done (tt, (if n <? 0 then [45] else []) ++ ds) ∧
  ds ≠ [] ∧ Forall (λ c, isdigit c = true) ds ∧ decimal ds = Z.abs n ∧ zlength ds <= 10.
Proof.
  intros Hn. set (c := Conversion 0 0 (-1) INT).
  destruct (integer_digits_ok base_d c (Z.abs n)) as (buf & Hbuf & _ & Hdig);
    [apply wf_bases|lia|].
  destruct (Hdig eq_refl) as (dn & pad & alt & -> & Hof & Hpad & _ & Halt). rewrite (Halt eq_refl) in *.
  change (replicate 0 48) with (@nil Z) in Hbuf. rewrite app_nil_r in Hbuf.
  change (Z.min 63 (if precision c <? 0 then 1 else precision c)) with 1 in Hpad.
  pose proof Hof as (Hall & Hnum & _).
  pose proof (digits_of_length _ _ 10 Hof ltac:(lia) ltac:(lia)) as Hlen.
  destruct (decimal_le_num dn Hall) as [Hdec Hisd].
  exists (reverse ((digit_char base_d <$> dn) ++ replicate pad 48)). split.
  - apply wp_run_eq. unfold __vprintf, vprintf_loop. change (lit "%d" ++ [0]) with [37; 100; 0].
    rewrite loop_S. wp_pure. unfold vprintf_step at 1, peek. wp_pure. wp_step; [done|]. simpl. wp_pure.
    wp_step; [done|]. simpl. wp_pure.
    apply (wp_eq _ _ ([100; 0], c, [Int n]) []); [reflexivity|]. wp_pure. wp_step; [done|].
    change (tail [37; 100; 0]) with [100; 0]. unfold convert. cbn [Z.eqb Pos.eqb orb head default].
    unfold convert_signed. wp_pure. unfold va_bits. wp_pure. change (signed_arg (ctype c) (n, @nil arg).1) with (s32 n).
    rewrite s32_small by done. rewrite (proj2 (Z.eqb_neq n _)) by lia. wp_pure.
    replace (if n <? 0 then - n else n) with (Z.abs n) by (destruct (Z.ltb_spec n 0); lia).
    unfold format_integer. wp_pure. apply (wp_lift_out _ _ _ _ Hbuf). wp_pure.
    set (buf := (digit_char base_d <$> dn) ++ replicate pad 48) in *.
    assert (Hb1 : 0 <= zlength buf) by apply zlength_nonneg.
    change (flag (flags c) POUND) with false. change (flag (flags c) ZERO) with false.
    change (flag (flags c) MINUS) with false.
    change (Z.land (flags c) (Z.lor MINUS ZERO) =? 0) with true. cbn [andb negb width c].
    set (pc := if _ <? 0 then 0 else _).
    assert (Hpc : pc = 0).
    { unfold pc. destruct (Z.ltb_spec (0 - zlength buf - (if negb (0 =? 0) then 2 else 0) -
        (if negb (sign_of true (n <? 0) c =? 0) then 1 else 0)) 0) as [|Hge]; [done|].
      change (if negb (0 =? 0) then 2 else 0) with 0 in *.
      destruct (negb (sign_of true (n <? 0) c =? 0)); lia. }
    rewrite Hpc. unfold output_dup. simpl. wp_pure.
    apply (wp_eq _ _ tt (if n <? 0 then [45] else [])); [by destruct (n <? 0)|]. wp_pure.
    eapply wp_eq; [apply emit_collect|]. wp_pure. cbv beta iota.
    rewrite loop_S. wp_pure. unfold vprintf_step, peek. wp_pure. wp_step; [done|]. simpl. by wp_pure.
  - rewrite reverse_app, reverse_replicate.
    assert (Hp : pad = match dn with [] => 1%nat | _ => 0%nat end).
    { destruct dn as [|x dn]; [change (zlength []) with 0 in Hpad; lia|].
      rewrite zlength_cons in Hpad. pose proof (zlength_nonneg dn). lia. }
    destruct dn as [|x dn]; rewrite Hp; cbn [replicate app].
    + simpl in Hnum. rewrite <- Hnum. by repeat constructor.
    + split; [|split; [done|split; [by rewrite Hdec|]]].
      * intros Hnil%(f_equal Datatypes.length). rewrite length_reverse, length_fmap in Hnil. done.
      * unfold zlength in *. rewrite length_reverse, length_fmap. lia.
Qed.

(** C38: Printing an [int] with %d and reading it back with atoi is the identity. *)
Theorem snprintf_atoi n m buffer size :
  - 2 ^ 31 <= n < 2 ^ 31 → buffer ≠ 0 → 12 <= size <= 2 ^ 31 → mapped m buffer size →
  ∃ len m', snprintf buffer size (lit "%d") [Int n] m = Done (len, m') ∧
    atoi buffer m' = Done (n, m').
Proof.
  intros Hn Hb Hsize Hmap. destruct (printed_int n Hn) as (ds & Hrun & Hne & Hds & Hdec & Hlen).
  set (sign := if n <? 0 then [45] else []) in *.
  assert (Hsl : zlength sign <= 1) by (unfold sign; by destruct (n <? 0)).
  assert (Hby : Forall is_byte (sign ++ ds)).
  { apply Forall_app. split; [unfold sign; destruct (n <? 0); repeat constructor; done|].
    eapply Forall_impl; [exact Hds|]. intros c Hc. unfold isdigit in Hc. unfold is_byte. lia. }
  assert (Htot : zlength (sign ++ ds) <= 11) by (rewrite zlength_app; lia).
  destruct (vsnprintf_run m buffer size (lit "%d") [Int n] (sign ++ ds)) as (m' & Hv & Ho);
    [exact Hrun|lia|done|lia|done|].
  exists (zlength (sign ++ ds)), m'. split; [exact Hv|]. rewrite decide_False in Ho by lia.
  rewrite firstn_all2 in Ho by (unfold zlength in Htot; lia).
  assert (Hval : (if decide (sign = [45]) then - decimal ds else decimal ds) = n).
  { rewrite Hdec. unfold sign. destruct (Z.ltb_spec n 0).
    - rewrite decide_True by done. lia.
    - rewrite decide_False by done. lia. }
  etrans; [apply (atoi_run m' buffer [] sign ds [])|by rewrite Hval]; [done| |by constructor| |done|done|done|].
  - simpl. rewrite app_nil_r. split.
    + intros i Hi. rewrite Ho, decide_True by lia. f_equal. lia.
    + intros H0. apply elem_of_app in H0 as [H0|H0].
      * unfold sign in H0. destruct (n <? 0); set_solver.
      * rewrite Forall_forall in Hds. specialize (Hds _ H0). done.
  - unfold sign. destruct (n <? 0); auto.
  - by rewrite Hval.
Qed.
