(* ===== verification/Intq.v ===== *)
(** * Interrupt queues (devices/intq.c)

    Circular buffers between threads and interrupt handlers. A function that may
    put its thread to sleep is a turn: it ends where another thread may run, and
    is taken up again where it ended. *)
From stdpp Require Import base numbers list.
From Stdlib Require Import ZArith Lia.
From S2P Require Import Prelude.
Open Scope Z_scope.

Definition INTQ_BUFSIZE : Z := 64.

(** [q_lock] is the holder of the lock; it, [not_full] and [not_empty] are thread
    identifiers, or 0. *)
Record intq := Intq {
  q_lock : Z;
  not_full : Z;
  not_empty : Z;
  buf : list Z;
  head : Z;
  tail : Z;
}.
(** A queue, and what the functions see of the processor: whether interrupts are
    on, whether an external interrupt is being handled, the running thread, and
    the threads that have been unblocked. *)
Record cpu := Cpu {
  intr_on : bool;
  in_external_intr : bool;
  self : Z;
  woken : list Z;
}.
Record qst := Qst { q_cpu : cpu; q_ : intq }.

Inductive cond := NotFull | NotEmpty.
Definition waiter (w : cond) (q : intq) : Z := match w with NotFull => not_full q | NotEmpty => not_empty q end.
Definition set_waiter (w : cond) (t : Z) (q : intq) : intq :=
  match w with
  | NotFull => Intq (q_lock q) t (not_empty q) (buf q) (head q) (tail q)
  | NotEmpty => Intq (q_lock q) (not_full q) t (buf q) (head q) (tail q)
  end.
Definition set_lock (t : Z) (q : intq) : intq := Intq t (not_full q) (not_empty q) (buf q) (head q) (tail q).
Definition with_q (q : intq) (s : qst) : qst := Qst (q_cpu s) q.
Definition wake (t : Z) (s : qst) : qst :=
  let c := q_cpu s in Qst (Cpu (intr_on c) (in_external_intr c) (self c) (woken c ++ [t])) (q_ s).

(** Where a turn ends: the function returns, or its thread has blocked itself in
    wait, or it waits for the lock of the queue. *)
Inductive answer A := Ret (a : A) | Sleeps | Queues.
Arguments Ret {A} a.
Arguments Sleeps {A}.
Arguments Queues {A}.
(** Where a turn begins: with the call, in lock_acquire, behind wait. *)
Inductive place := Call | InLock | InWait.

(** intq_init does not clear the buffer. *)
Definition intq_init : ST intq unit := modify (λ q, Intq 0 0 0 (buf q) 0 0).

Definition next (pos : Z) : Z := (pos + 1) mod INTQ_BUFSIZE.

Definition intr_off : ST qst unit := s ← get_st; assert_st (negb (intr_on (q_cpu s))).
Definition intr_context : ST qst bool := gets (λ s, in_external_intr (q_cpu s)).
Definition intq_empty : ST qst bool := _ ← intr_off; gets (λ s, head (q_ s) =? tail (q_ s)).
Definition intq_full : ST qst bool := _ ← intr_off; gets (λ s, next (head (q_ s)) =? tail (q_ s)).

(** The condition that a waiter waits for does not hold. *)
Definition due (w : cond) : ST qst bool := match w with NotFull => intq_full | NotEmpty => intq_empty end.

Definition wait (w : cond) : ST qst unit :=
  ctx ← intr_context;
  _ ← assert_st (negb ctx);
  _ ← intr_off;
  b ← due w;
  _ ← assert_st b;
  modify (λ s, with_q (set_waiter w (self (q_cpu s)) (q_ s)) s).

Definition signal (w : cond) : ST qst unit :=
  _ ← intr_off;
  b ← due w;
  _ ← assert_st (negb b);
  s ← get_st;
  if waiter w (q_ s) =? 0 then mret tt else
  modify (λ s, with_q (set_waiter w 0 (q_ s)) (wake (waiter w (q_ s)) s)).

(** lock_acquire, then wait. *)
Definition lock_and_wait {A} (w : cond) : ST qst (answer A) :=
  ctx ← intr_context;
  _ ← assert_st (negb ctx);
  s ← get_st;
  _ ← assert_st (negb (q_lock (q_ s) =? self (q_cpu s)));
  if negb (q_lock (q_ s) =? 0) then mret Queues else
  _ ← modify (λ s, with_q (set_lock (self (q_cpu s)) (q_ s)) s);
  _ ← wait w;
  mret Sleeps.

Definition lock_release : ST qst unit :=
  s ← get_st;
  _ ← assert_st (q_lock (q_ s) =? self (q_cpu s));
  modify (λ s, with_q (set_lock 0 (q_ s)) s).

(** The loop at the head of intq_getc and intq_putc, and what is behind it. *)
Definition when {A} (w : cond) (p : place) (k : ST qst A) : ST qst (answer A) :=
  match p with
  | InLock => lock_and_wait w
  | Call | InWait =>
      _ ← (match p with InWait => lock_release | _ => mret tt end);
      _ ← intr_off;
      b ← due w;
      if (b : bool) then
        ctx ← intr_context; _ ← assert_st (negb ctx); lock_and_wait w
      else a ← k; mret (Ret a)
  end.

Definition intq_getc (p : place) : ST qst (answer Z) :=
  when NotEmpty p (
    s ← get_st;
    byte ← deref (zlookup (buf (q_ s)) (tail (q_ s)));
    _ ← modify (λ s, let q := q_ s in
                     with_q (Intq (q_lock q) (not_full q) (not_empty q) (buf q) (head q) (next (tail q))) s);
    _ ← signal NotFull;
    mret byte).

Definition intq_putc (p : place) (byte : Z) : ST qst (answer unit) :=
  when NotFull p (
    s ← get_st;
    _ ← deref (zlookup (buf (q_ s)) (head (q_ s)));
    _ ← modify (λ s, let q := q_ s in
                     with_q (Intq (q_lock q) (not_full q) (not_empty q) (zinsert (head q) byte (buf q)) (next (head q)) (tail q)) s);
    signal NotEmpty).

#[global] Arguments intq_getc : simpl never.
#[global] Arguments intq_putc : simpl never.

(** ** The queue as a sequence *)

Definition contents (q : intq) : list Z :=
  (λ i, default 0 (zlookup (buf q) ((tail q + i) mod INTQ_BUFSIZE))) <$> seqZ 0 ((head q - tail q) mod INTQ_BUFSIZE).

(** A thread waits only for what is not the case. *)
Record wf_intq (q : intq) : Prop := {
  wq_buf : zlength (buf q) = INTQ_BUFSIZE;
  wq_head : 0 <= head q < INTQ_BUFSIZE;
  wq_tail : 0 <= tail q < INTQ_BUFSIZE;
  wq_empty : not_empty q ≠ 0 → contents q = [];
  wq_full : not_full q ≠ 0 → zlength (contents q) = INTQ_BUFSIZE - 1;
}.
(** The parts of the state that a turn leaves alone. *)
Record same_rest (s s' : qst) : Prop := {
  sr_on : intr_on (q_cpu s') = intr_on (q_cpu s);
  sr_ext : in_external_intr (q_cpu s') = in_external_intr (q_cpu s);
  sr_self : self (q_cpu s') = self (q_cpu s);
}.

Section facts.
Implicit Types (q : intq) (s : qst) (t : Z) (w : cond).

Lemma contents_length q : zlength (contents q) = (head q - tail q) mod INTQ_BUFSIZE.
Proof.
  unfold contents, zlength. rewrite length_fmap, length_seqZ. pose proof (Z.mod_pos_bound (head q - tail q) INTQ_BUFSIZE).
  unfold INTQ_BUFSIZE in *. lia.
Qed.
Lemma empty_iff q : wf_intq q → (head q = tail q ↔ contents q = []).
Proof.
  intros [_ Hh Ht _ _]. pose proof (contents_length q) as Hl. unfold INTQ_BUFSIZE in *. split; intros H.
  - apply nil_length_inv. unfold zlength in Hl. zdiv.
  - rewrite H in Hl. unfold zlength in Hl. simpl in Hl. zdiv.
Qed.
Lemma full_iff q : wf_intq q → (next (head q) = tail q ↔ zlength (contents q) = INTQ_BUFSIZE - 1).
Proof. intros [_ Hh Ht _ _]. rewrite contents_length. unfold next, INTQ_BUFSIZE in *. split; intros H; zdiv. Qed.
Lemma contents_bound q : zlength (contents q) < INTQ_BUFSIZE.
Proof. rewrite contents_length. apply Z.mod_pos_bound. done. Qed.

(** Another waiter or lock does not change the contents. *)
Lemma contents_same q q' : buf q' = buf q → head q' = head q → tail q' = tail q → contents q' = contents q.
Proof. unfold contents. by intros -> -> ->. Qed.

Lemma seqZ_one m : seqZ m 1 = [m].
Proof. by rewrite seqZ_cons, seqZ_nil by lia. Qed.
Lemma contents_put q byte : wf_intq q → next (head q) ≠ tail q →
  contents (Intq (q_lock q) (not_full q) (not_empty q) (zinsert (head q) byte (buf q)) (next (head q)) (tail q)) = contents q ++ [byte].
Proof.
  intros Hwf Hn. destruct Hwf as [Hb Hh Ht _ _]. unfold contents. simpl.
  assert (Hlen : (next (head q) - tail q) mod INTQ_BUFSIZE = (head q - tail q) mod INTQ_BUFSIZE + 1)
    by (unfold next, INTQ_BUFSIZE in *; zdiv).
  pose proof (Z.mod_pos_bound (head q - tail q) INTQ_BUFSIZE ltac:(done)) as Hr.
  rewrite Hlen, seqZ_app by lia. rewrite fmap_app. f_equal.
  - apply list_fmap_ext. intros i x Hi. apply lookup_seqZ in Hi as [-> Hi]. f_equal.
    apply zlookup_zinsert_ne; unfold INTQ_BUFSIZE in *; zdiv.
  - rewrite seqZ_one. simpl.
    replace ((tail q + (0 + (head q - tail q) mod INTQ_BUFSIZE)) mod INTQ_BUFSIZE) with (head q)
      by (unfold INTQ_BUFSIZE in *; zdiv).
    rewrite zlookup_zinsert by (rewrite Hb; done). done.
Qed.
Lemma contents_get q : wf_intq q → head q ≠ tail q → ∃ byte, zlookup (buf q) (tail q) = Some byte ∧
  contents q = byte :: contents (Intq (q_lock q) (not_full q) (not_empty q) (buf q) (head q) (next (tail q))).
Proof.
  intros Hwf Hn. destruct Hwf as [Hb Hh Ht _ _].
  destruct (zlookup_is_Some (buf q) (tail q)) as [byte Hl]; [by rewrite Hb|]. exists byte. split; [done|].
  unfold contents. simpl.
  assert (Hlen : (head q - tail q) mod INTQ_BUFSIZE = 1 + (head q - next (tail q)) mod INTQ_BUFSIZE)
    by (unfold next, INTQ_BUFSIZE in *; zdiv).
  pose proof (Z.mod_pos_bound (head q - next (tail q)) INTQ_BUFSIZE ltac:(done)) as Hr.
  rewrite Hlen, seqZ_app, seqZ_one by lia. rewrite fmap_app. simpl. f_equal.
  - rewrite Z.add_0_r, Z.mod_small by done. by rewrite Hl.
  - replace (0 + 1) with (1 + 0) by lia. rewrite <- (fmap_add_seqZ 1 0), <- list_fmap_compose.
    apply list_fmap_ext. intros i x _. simpl. do 2 f_equal. unfold next, INTQ_BUFSIZE. zdiv.
Qed.
End facts.

(** ** What turns do *)

Definition full_cond (w : cond) (q : intq) : bool :=
  match w with NotFull => next (head q) =? tail q | NotEmpty => head q =? tail q end.
(** The same bytes at the same places, and the same waiters. *)
Definition same_bytes (q q' : intq) : Prop :=
  buf q' = buf q ∧ head q' = head q ∧ tail q' = tail q ∧ not_full q' = not_full q ∧ not_empty q' = not_empty q.

Section turns.
Implicit Types (q : intq) (s : qst) (t : Z) (w : cond) (p : place).

Lemma due_eq w s : intr_on (q_cpu s) = false → due w s = Done (full_cond w (q_ s), s).
Proof. intros H. destruct w; unfold due, intq_full, intq_empty, intr_off; unfold mbind, st_bind; simpl; by rewrite H. Qed.
Lemma intr_off_inv s u s' : intr_off s = Done (u, s') → intr_on (q_cpu s) = false ∧ s' = s.
Proof. unfold intr_off, mbind, st_bind, get_st, assert_st. destruct (intr_on (q_cpu s)); [done|]. by intros [= _ <-]. Qed.
Lemma due_inv w s b s' : due w s = Done (b, s') → intr_on (q_cpu s) = false ∧ b = full_cond w (q_ s) ∧ s' = s.
Proof.
  intros H. assert (Hon : intr_on (q_cpu s) = false).
  { revert H. destruct w; unfold due, intq_full, intq_empty, intr_off, mbind, st_bind, get_st, assert_st;
      destruct (intr_on (q_cpu s)); done. }
  rewrite due_eq in H by done. by injection H as <- <-.
Qed.

Lemma wf_same q q' : same_bytes q q' → wf_intq q → wf_intq q'.
Proof.
  intros (Hb & Hh & Ht & Hf & He) [? ? ? ? ?]. pose proof (contents_same q q' Hb Hh Ht) as Hc.
  split; rewrite ?Hb, ?Hh, ?Ht, ?Hf, ?He, ?Hc; done.
Qed.

(** How a thread goes to sleep. *)
Lemma lock_and_wait_inv {A} w s (r : answer A) s' : lock_and_wait w s = Done (r, s') →
  in_external_intr (q_cpu s) = false ∧ q_cpu s' = q_cpu s ∧
  (r = Queues ∧ s' = s ∨
   r = Sleeps ∧ full_cond w (q_ s) = true ∧ q_lock (q_ s) = 0 ∧
   q_ s' = set_waiter w (self (q_cpu s)) (set_lock (self (q_cpu s)) (q_ s))).
Proof.
  unfold lock_and_wait. intros H. run_step H. run_step H. apply negb_true_iff in E. split; [done|].
  run_step H. run_step H.
  destruct (Z.eqb_spec (q_lock (q_ s)) 0) as [Hl|Hl]; simpl in H.
  2: { injection H as <- <-. auto. }
  run_step H. run_step H. injection H as <- <-.
  unfold wait in Hs. do 2 run_step Hs. run_step Hs. apply intr_off_inv in Hs0 as [_ ->].
  run_step Hs. apply due_inv in Hs0 as (_ & -> & ->). run_step Hs. injection Hs as _ <-. simpl.
  split; [done|]. right. split_and!; [done| |done|done]. rewrite <- E2. by destruct w.
Qed.

(** A turn blocks its thread, or runs the rest of its function on a queue that is
    not full, or not empty. *)
Lemma when_inv {A} w p (k : ST qst A) s r s' : when w p k s = Done (r, s') →
  ∃ q1, same_bytes (q_ s) q1 ∧
  ((r = Queues ∧ q_cpu s' = q_cpu s ∧ q_ s' = q1 ∨
    r = Sleeps ∧ q_cpu s' = q_cpu s ∧ full_cond w (q_ s) = true ∧ q_ s' = set_waiter w (self (q_cpu s)) q1) ∨
   ∃ a, r = Ret a ∧ intr_on (q_cpu s) = false ∧ full_cond w (q_ s) = false ∧ k (with_q q1 s) = Done (a, s')).
Proof.
  assert (Hlock : ∀ s0, q_cpu s0 = q_cpu s → same_bytes (q_ s) (q_ s0) → lock_and_wait w s0 = Done (r, s') →
    ∃ q1, same_bytes (q_ s) q1 ∧
      (r = Queues ∧ q_cpu s' = q_cpu s ∧ q_ s' = q1 ∨
       r = Sleeps ∧ q_cpu s' = q_cpu s ∧ full_cond w (q_ s) = true ∧ q_ s' = set_waiter w (self (q_cpu s)) q1)).
  { intros s0 Hcpu Hsame H. pose proof Hsame as (Hb & Hh & Ht & Hf & He).
    apply lock_and_wait_inv in H as (_ & Hcpu' & [[-> ->]|(-> & Hc & _ & Hq)]).
    - exists (q_ s0). split; [done|]. left. split_and!; [done|done|done].
    - exists (set_lock (self (q_cpu s0)) (q_ s0)). split; [by split_and!|]. right. rewrite Hcpu'. split_and!; [done|done| |].
      + rewrite <- Hc. destruct w; simpl; by rewrite ?Hh, ?Ht.
      + rewrite Hq, Hcpu. done. }
  assert (Hloop : ∀ s0, q_cpu s0 = q_cpu s → same_bytes (q_ s) (q_ s0) →
    (_ ← intr_off; b ← due w;
     if (b : bool) then ctx ← intr_context; _ ← assert_st (negb ctx); lock_and_wait w else a ← k; mret (Ret a)) s0 = Done (r, s') →
    ∃ q1, same_bytes (q_ s) q1 ∧
    ((r = Queues ∧ q_cpu s' = q_cpu s ∧ q_ s' = q1 ∨
      r = Sleeps ∧ q_cpu s' = q_cpu s ∧ full_cond w (q_ s) = true ∧ q_ s' = set_waiter w (self (q_cpu s)) q1) ∨
     ∃ a, r = Ret a ∧ intr_on (q_cpu s) = false ∧ full_cond w (q_ s) = false ∧ k (with_q q1 s) = Done (a, s'))).
  { intros s0 Hcpu Hsame H. run_step H. apply intr_off_inv in Hs as [Hon ->].
    run_step H. apply due_inv in Hs as (_ & Hb & ->). destruct v0.
    - do 2 run_step H. destruct (Hlock s0 Hcpu Hsame H) as (q1 & ? & ?). exists q1. tauto.
    - run_step H. injection H as <- <-. exists (q_ s0). split; [done|]. right. exists v0.
      rewrite Hcpu in Hon. destruct Hsame as (Hb' & Hh & Ht & _ & _). split_and!; [done|done| |].
      + rewrite Hb. destruct w; simpl; by rewrite ?Hh, ?Ht.
      + rewrite <- Hs. f_equal. unfold with_q. rewrite <- Hcpu. by destruct s0. }
  destruct p; simpl; intros H.
  - run_step H. by apply (Hloop s).
  - destruct (Hlock s) as (q1 & ? & ?); [done|by split_and!|done|]. exists q1. tauto.
  - run_step H. unfold lock_release in Hs. do 2 run_step Hs. injection Hs as _ <-.
    by apply (Hloop (with_q (set_lock 0 (q_ s)) s)).
Qed.
End turns.

(** The bytes that the end of a turn has put into the queue, or taken out. *)
Definition put_by (byte : Z) (r : answer unit) : list Z := match r with Ret _ => [byte] | _ => [] end.
Definition got_by (r : answer Z) : list Z := match r with Ret byte => [byte] | _ => [] end.
(** Only threads are woken. *)
Definition same_cpu (s s' : qst) : Prop :=
  intr_on (q_cpu s') = intr_on (q_cpu s) ∧ in_external_intr (q_cpu s') = in_external_intr (q_cpu s) ∧ self (q_cpu s') = self (q_cpu s).

Section specs.
Implicit Types (q : intq) (s : qst) (w : cond) (p : place).

Definition signalled w s : qst :=
  if waiter w (q_ s) =? 0 then s else with_q (set_waiter w 0 (q_ s)) (wake (waiter w (q_ s)) s).
Lemma signal_run w s : intr_on (q_cpu s) = false → full_cond w (q_ s) = false → signal w s = Done (tt, signalled w s).
Proof.
  intros Hon Hc. unfold signal, intr_off, mbind, st_bind, get_st, assert_st. rewrite Hon. simpl.
  rewrite due_eq, Hc by done. simpl. unfold signalled. by destruct (_ =? 0).
Qed.
Lemma signalled_contents w s : contents (q_ (signalled w s)) = contents (q_ s).
Proof. unfold signalled. destruct (_ =? 0); [done|]. by destruct w. Qed.
Lemma signalled_cpu w s : same_cpu s (signalled w s).
Proof. unfold signalled. by destruct (_ =? 0). Qed.
Lemma signalled_waiter w s : waiter w (q_ (signalled w s)) = 0.
Proof. unfold signalled. destruct (Z.eqb_spec (waiter w (q_ s)) 0); [done|]. by destruct w. Qed.
(** The waiter of the other condition stays. *)
Lemma signalled_wf w s : wf_intq (q_ s) ∨
    zlength (buf (q_ s)) = INTQ_BUFSIZE ∧ 0 <= head (q_ s) < INTQ_BUFSIZE ∧ 0 <= tail (q_ s) < INTQ_BUFSIZE ∧
    match w with NotEmpty => not_full (q_ s) ≠ 0 → zlength (contents (q_ s)) = INTQ_BUFSIZE - 1
               | NotFull => not_empty (q_ s) ≠ 0 → contents (q_ s) = [] end →
  wf_intq (q_ (signalled w s)).
Proof.
  intros H. pose proof (signalled_contents w s) as Hc. pose proof (signalled_waiter w s) as Hw.
  assert (Hs : buf (q_ (signalled w s)) = buf (q_ s) ∧ head (q_ (signalled w s)) = head (q_ s) ∧ tail (q_ (signalled w s)) = tail (q_ s) ∧
    match w with NotEmpty => not_full (q_ (signalled w s)) = not_full (q_ s) | NotFull => not_empty (q_ (signalled w s)) = not_empty (q_ s) end).
  { unfold signalled. destruct (_ =? 0); destruct w; by split_and!. }
  destruct Hs as (Hb & Hh & Ht & Ho). destruct H as [[Hb' Hh' Ht' He Hf]|(Hb' & Hh' & Ht' & Hd)].
  - split; rewrite ?Hb, ?Hh, ?Ht, ?Hc; try done; destruct w; simpl in *; rewrite ?Hw, ?Ho; done.
  - split; rewrite ?Hb, ?Hh, ?Ht, ?Hc; try done; destruct w; simpl in *; rewrite ?Hw, ?Ho; done.
Qed.

Lemma not_full_room q : wf_intq q → full_cond NotFull q = false → zlength (contents q) < INTQ_BUFSIZE - 1.
Proof.
  intros Hwf Hf. simpl in Hf. apply Z.eqb_neq in Hf. pose proof (contents_bound q). rewrite (full_iff q Hwf) in Hf. lia.
Qed.
Lemma not_empty_some q : wf_intq q → full_cond NotEmpty q = false → contents q ≠ [].
Proof. intros Hwf Hf. simpl in Hf. apply Z.eqb_neq in Hf. by rewrite (empty_iff q Hwf) in Hf. Qed.

(** What is behind the loop of intq_putc, and of intq_getc. *)
Lemma put_body byte s : wf_intq (q_ s) → intr_on (q_cpu s) = false → full_cond NotFull (q_ s) = false →
  ∃ s', (s ← get_st;
         _ ← deref (zlookup (buf (q_ s)) (head (q_ s)));
         _ ← modify (λ s, let q := q_ s in
               with_q (Intq (q_lock q) (not_full q) (not_empty q) (zinsert (head q) byte (buf q)) (next (head q)) (tail q)) s);
         signal NotEmpty) s = Done (tt, s') ∧
    wf_intq (q_ s') ∧ contents (q_ s') = contents (q_ s) ++ [byte] ∧ same_cpu s s' ∧ not_empty (q_ s') = 0.
Proof.
  intros Hwf Hon Hc. pose proof (not_full_room _ Hwf Hc) as Hroom. pose proof Hwf as [Hb Hh Ht He Hf].
  set (q := q_ s) in *. set (q' := Intq (q_lock q) (not_full q) (not_empty q) (zinsert (head q) byte (buf q)) (next (head q)) (tail q)).
  assert (Hput : contents q' = contents q ++ [byte]).
  { apply contents_put; [done|]. simpl in Hc. by apply Z.eqb_neq. }
  destruct (zlookup_is_Some (buf q) (head q)) as [x Hx]; [by rewrite Hb|].
  exists (signalled NotEmpty (with_q q' s)). split.
  - unfold mbind, st_bind, get_st, deref, modify. fold q. rewrite Hx. apply (signal_run NotEmpty (with_q q' s)); [done|].
    simpl. apply Z.eqb_neq. simpl in Hc. apply Z.eqb_neq in Hc. unfold next in *. fold q in Hc. clear - Hc Hh Ht Hroom.
    rewrite contents_length in Hroom. unfold INTQ_BUFSIZE in *. zdiv.
  - rewrite signalled_contents. split_and!.
    + apply signalled_wf. right. simpl. rewrite zlength_zinsert. split_and!; [done| | |lia|lia| ].
      1-2: unfold next; apply Z.mod_pos_bound; done.
      intros Hnf. specialize (Hf Hnf). lia.
    + done.
    + apply (signalled_cpu NotEmpty (with_q q' s)).
    + apply (signalled_waiter NotEmpty).
Qed.
Lemma get_body s : wf_intq (q_ s) → intr_on (q_cpu s) = false → full_cond NotEmpty (q_ s) = false →
  ∃ byte s', (s ← get_st;
         byte ← deref (zlookup (buf (q_ s)) (tail (q_ s)));
         _ ← modify (λ s, let q := q_ s in
               with_q (Intq (q_lock q) (not_full q) (not_empty q) (buf q) (head q) (next (tail q))) s);
         _ ← signal NotFull;
         mret byte) s = Done (byte, s') ∧
    wf_intq (q_ s') ∧ contents (q_ s) = byte :: contents (q_ s') ∧ same_cpu s s' ∧ not_full (q_ s') = 0.
Proof.
  intros Hwf Hon Hc. pose proof (not_empty_some _ Hwf Hc) as Hne. pose proof Hwf as [Hb Hh Ht He Hf].
  set (q := q_ s) in *. destruct (contents_get q) as (byte & Hl & Hcon); [done|by apply Z.eqb_neq|].
  set (q' := Intq (q_lock q) (not_full q) (not_empty q) (buf q) (head q) (next (tail q))) in *.
  exists byte, (signalled NotFull (with_q q' s)). split.
  - unfold mbind, st_bind, get_st, deref, modify. fold q. rewrite Hl.
    change (match signal NotFull (with_q q' s) with Done (_, s') => Done (byte, s') | Panic => Panic | Undef => Undef | NoFuel => NoFuel end
            = Done (byte, signalled NotFull (with_q q' s))).
    rewrite (signal_run NotFull (with_q q' s)); [done|done|].
    simpl. apply Z.eqb_neq. simpl in Hc. apply Z.eqb_neq in Hc. fold q in Hc. clear - Hc Hh Ht.
    unfold next, INTQ_BUFSIZE in *. zdiv.
  - rewrite signalled_contents. split_and!.
    + apply signalled_wf. right. simpl. split_and!; [done|lia|lia| | |].
      1-2: unfold next; apply Z.mod_pos_bound; done.
      intros Hnf. specialize (He Hnf). done.
    + done.
    + apply (signalled_cpu NotFull (with_q q' s)).
    + apply (signalled_waiter NotFull).
Qed.
End specs.

Section whole_turns.
Implicit Types (q : intq) (s : qst) (w : cond) (p : place).

Lemma sleep_wf w t q : wf_intq q → full_cond w q = true → wf_intq (set_waiter w t q).
Proof.
  intros Hwf Hc. pose proof Hwf as [Hb Hh Ht He Hf].
  assert (Hs : contents (set_waiter w t q) = contents q) by (by destruct w).
  split; rewrite ?Hs; destruct w; simpl in *; try done; apply Z.eqb_eq in Hc; intros _.
  all: first [by apply full_iff|by apply empty_iff].
Qed.

(** A turn in a well-formed queue, whatever the processor does. *)
Lemma putc_turn p byte s r s' : wf_intq (q_ s) → intq_putc p byte s = Done (r, s') →
  wf_intq (q_ s') ∧ contents (q_ s') = contents (q_ s) ++ put_by byte r ∧ same_cpu s s' ∧
  match r with Ret _ => not_empty (q_ s') = 0 | Sleeps => not_full (q_ s') = self (q_cpu s) | Queues => True end.
Proof.
  intros Hwf H. apply when_inv in H as (q1 & Hs1 & H). pose proof (wf_same _ _ Hs1 Hwf) as Hwf1.
  pose proof Hs1 as (Hb & Hh & Ht & Hnf & Hne). pose proof (contents_same _ _ Hb Hh Ht) as Hc1.
  assert (Hfc : ∀ w, full_cond w q1 = full_cond w (q_ s)) by (intros []; simpl; by rewrite Hh, Ht).
  destruct H as [[(-> & Hcpu & Hq)|(-> & Hcpu & Hc & Hq)]|([] & -> & Hon & Hc & Hk)].
  - rewrite Hq. simpl. rewrite app_nil_r. unfold same_cpu. by rewrite Hcpu.
  - rewrite Hq. simpl. rewrite app_nil_r. unfold same_cpu. rewrite Hcpu. split_and!; try done.
    apply (sleep_wf NotFull); [done|]. by rewrite Hfc.
  - destruct (put_body byte (with_q q1 s)) as (s1 & Hrun & Hwf' & Hcon & Hcpu & Hne'); [done|done|by rewrite <- Hc; apply Hfc|].
    rewrite Hk in Hrun. injection Hrun as ->. split_and!; try done; try apply Hcpu. by rewrite Hcon, <- Hc1.
Qed.
Lemma getc_turn p s r s' : wf_intq (q_ s) → intq_getc p s = Done (r, s') →
  wf_intq (q_ s') ∧ contents (q_ s) = got_by r ++ contents (q_ s') ∧ same_cpu s s' ∧
  match r with Ret _ => not_full (q_ s') = 0 | Sleeps => not_empty (q_ s') = self (q_cpu s) | Queues => True end.
Proof.
  intros Hwf H. apply when_inv in H as (q1 & Hs1 & H). pose proof (wf_same _ _ Hs1 Hwf) as Hwf1.
  pose proof Hs1 as (Hb & Hh & Ht & Hnf & Hne). pose proof (contents_same _ _ Hb Hh Ht) as Hc1.
  assert (Hfc : ∀ w, full_cond w q1 = full_cond w (q_ s)) by (intros []; simpl; by rewrite Hh, Ht).
  destruct H as [[(-> & Hcpu & Hq)|(-> & Hcpu & Hc & Hq)]|(byte & -> & Hon & Hc & Hk)].
  - rewrite Hq. simpl. unfold same_cpu. by rewrite Hcpu.
  - rewrite Hq. simpl. unfold same_cpu. rewrite Hcpu. split_and!; try done.
    apply (sleep_wf NotEmpty); [done|]. by rewrite Hfc.
  - destruct (get_body (with_q q1 s)) as (b' & s1 & Hrun & Hwf' & Hcon & Hcpu & Hne'); [done|done|by rewrite <- Hc; apply Hfc|].
    rewrite Hk in Hrun. injection Hrun as -> ->. split_and!; try done; try apply Hcpu. by rewrite <- Hc1.
Qed.

Lemma when_call {A} w (k : ST qst A) s : intr_on (q_cpu s) = false → full_cond w (q_ s) = false →
  when w Call k s = (a ← k; mret (Ret a)) s.
Proof.
  intros Hon Hc. unfold when, intr_off, mbind, st_bind, mret, st_ret, get_st, assert_st. rewrite Hon. simpl.
  rewrite due_eq, Hc by done. done.
Qed.

(** With room, or with bytes, a call returns. *)
Lemma putc_room byte s : wf_intq (q_ s) → intr_on (q_cpu s) = false → zlength (contents (q_ s)) < INTQ_BUFSIZE - 1 →
  ∃ s', intq_putc Call byte s = Done (Ret tt, s').
Proof.
  intros Hwf Hon Hl. assert (Hc : full_cond NotFull (q_ s) = false).
  { simpl. apply Z.eqb_neq. intros Hn. apply (full_iff _ Hwf) in Hn. lia. }
  destruct (put_body byte s) as (s' & Hrun & _); [done..|]. exists s'.
  unfold intq_putc. rewrite when_call by done. exact (bind_run _ _ _ _ _ Hrun).
Qed.
Lemma getc_some s : wf_intq (q_ s) → intr_on (q_cpu s) = false → contents (q_ s) ≠ [] →
  ∃ byte s', intq_getc Call s = Done (Ret byte, s').
Proof.
  intros Hwf Hon Hl. assert (Hc : full_cond NotEmpty (q_ s) = false).
  { simpl. apply Z.eqb_neq. by rewrite (empty_iff _ Hwf). }
  destruct (get_body s) as (byte & s' & Hrun & _); [done..|]. exists byte, s'.
  unfold intq_getc. rewrite when_call by done. exact (bind_run _ _ _ _ _ Hrun).
Qed.
End whole_turns.
