(* ===== verification/Serial.v ===== *)
(** * Keyboard, serial line and input buffer (devices/kbd.c, serial.c, input.c)

    Port reads answer what the devices say, which is a list; port reads and
    writes are kept in a log. *)
From stdpp Require Import base numbers list.
From Stdlib Require Import ZArith Lia Ascii String.
From S2P Require Import Prelude Stdio Intq.
Open Scope Z_scope.

(** ** Ports *)

Inductive port_io := Out (port v : Z) | In (port v : Z).
(** What has been done with the ports, and what the reads to come will answer. *)
Record ports := Ports { log : list port_io; answers : list Z }.

Inductive serial_mode := UNINIT | POLL | QUEUE.
(** The variables of kbd.c *)
Record kbd := Kbd {
  left_shift : bool; right_shift : bool;
  left_alt : bool; right_alt : bool;
  left_ctrl : bool; right_ctrl : bool;
  caps_lock : bool;
  key_cnt : Z;
}.
(** [d_input] is [buffer] of input.c, [txq] and [mode] are variables of serial.c. *)
Record dev := Dev {
  d_cpu : cpu;
  d_ports : ports;
  d_input : intq;
  txq : intq;
  mode : serial_mode;
  d_kbd : kbd;
}.

Definition on_input {A} : ST qst A → ST dev A :=
  zoom (λ d, Qst (d_cpu d) (d_input d)) (λ q d, Dev (q_cpu q) (d_ports d) (q_ q) (txq d) (mode d) (d_kbd d)).
Definition on_txq {A} : ST qst A → ST dev A :=
  zoom (λ d, Qst (d_cpu d) (txq d)) (λ q d, Dev (q_cpu q) (d_ports d) (d_input d) (q_ q) (mode d) (d_kbd d)).
Definition set_level (b : bool) (d : dev) : dev :=
  let c := d_cpu d in Dev (Cpu b (in_external_intr c) (self c) (woken c)) (d_ports d) (d_input d) (txq d) (mode d) (d_kbd d).
Definition set_mode (m : serial_mode) (d : dev) : dev := Dev (d_cpu d) (d_ports d) (d_input d) (txq d) m (d_kbd d).
Definition set_kbd (k : kbd) (d : dev) : dev := Dev (d_cpu d) (d_ports d) (d_input d) (txq d) (mode d) k.
Definition set_ports (p : ports) (d : dev) : dev := Dev (d_cpu d) p (d_input d) (txq d) (mode d) (d_kbd d).

Definition outb (port v : Z) : ST dev unit :=
  modify (λ d, set_ports (Ports (log (d_ports d) ++ [Out port v]) (answers (d_ports d))) d).
(** Without an answer the run is longer than the list. *)
Definition inb (port : Z) : ST dev Z := λ d,
  match answers (d_ports d) with
  | v :: l => Done (v, set_ports (Ports (log (d_ports d) ++ [In port v]) l) d)
  | [] => NoFuel
  end.

Definition level_off : ST dev unit := d ← get_st; assert_st (negb (intr_on (d_cpu d))).
Definition intr_disable : ST dev bool :=
  d ← get_st; _ ← modify (set_level false); mret (intr_on (d_cpu d)).
Definition intr_set_level (b : bool) : ST dev unit :=
  d ← get_st; _ ← assert_st (negb b || negb (in_external_intr (d_cpu d))); modify (set_level b).

(** A call that returns at once; its thread would sleep otherwise, which does not
    happen where this is used. *)
Definition now {A} (c : ST dev (answer A)) : ST dev A :=
  r ← c; match r with Ret a => mret a | _ => undef end.

(** ** serial.c *)

Definition IO_BASE : Z := 1016. (* 0x3f8 *)
Definition RBR_REG := IO_BASE.
Definition THR_REG := IO_BASE.
Definition IER_REG := IO_BASE + 1.
Definition LS_REG := IO_BASE.
Definition MS_REG := IO_BASE + 1.
Definition IIR_REG := IO_BASE + 2.
Definition FCR_REG := IO_BASE + 2.
Definition LCR_REG := IO_BASE + 3.
Definition MCR_REG := IO_BASE + 4.
Definition LSR_REG := IO_BASE + 5.
Definition IER_RECV : Z := 1.
Definition IER_XMIT : Z := 2.
Definition LCR_N81 : Z := 3.
Definition LCR_DLAB : Z := 128.
Definition MCR_OUT2 : Z := 8.
Definition LSR_DR : Z := 1.
Definition LSR_THRE : Z := 32.

Definition input_full : ST dev bool := _ ← level_off; on_input intq_full.

Definition write_ier : ST dev unit :=
  _ ← level_off;
  empty ← on_txq intq_empty;
  let ier := if negb empty then IER_XMIT else 0 in
  full ← input_full;
  let ier := if negb full then Z.lor ier IER_RECV else ier in
  outb IER_REG ier.

Definition set_serial (bps : Z) : ST dev unit :=
  let base_rate := 1843200 / 16 in
  let divisor := u16 (base_rate / bps) in
  _ ← assert_st ((300 <=? bps) && (bps <=? 115200));
  _ ← outb LCR_REG (Z.lor LCR_N81 LCR_DLAB);
  _ ← outb LS_REG (Z.land divisor 255);
  _ ← outb MS_REG (Z.shiftr divisor 8);
  outb LCR_REG LCR_N81.

Definition is_mode (m : serial_mode) : ST dev bool :=
  gets (λ d, match mode d, m with UNINIT, UNINIT | POLL, POLL | QUEUE, QUEUE => true | _, _ => false end).

Definition init_poll : ST dev unit :=
  b ← is_mode UNINIT;
  _ ← assert_st b;
  _ ← outb IER_REG 0;
  _ ← outb FCR_REG 0;
  _ ← set_serial 115200;
  _ ← outb MCR_REG MCR_OUT2;
  _ ← on_txq (zoom q_ with_q intq_init);
  modify (set_mode POLL).

(** Registering the handler is not modelled here. *)
Definition serial_init_queue : ST dev unit :=
  b ← is_mode UNINIT;
  _ ← (if (b : bool) then init_poll else mret tt);
  b ← is_mode POLL;
  _ ← assert_st b;
  _ ← modify (set_mode QUEUE);
  old_level ← intr_disable;
  _ ← write_ier;
  intr_set_level old_level.

Definition poll_step (_ : unit) : ST dev (unit + unit) :=
  v ← inb LSR_REG; mret (if Z.land v LSR_THRE =? 0 then inl tt else inr tt).
Definition putc_poll (byte : Z) : ST dev unit :=
  _ ← level_off;
  d ← get_st;
  _ ← loop (S (Datatypes.length (answers (d_ports d)))) poll_step tt;
  outb THR_REG byte.

(** The end of serial_putc, from its call of intq_putc. *)
Definition serial_enqueue (p : place) (old_level : bool) (byte : Z) : ST dev (answer unit) :=
  r ← on_txq (intq_putc p byte);
  match r with
  | Ret _ => _ ← write_ier; _ ← intr_set_level old_level; mret (Ret tt)
  | Sleeps => mret Sleeps
  | Queues => mret Queues
  end.
Definition serial_putc (byte : Z) : ST dev (answer unit) :=
  old_level ← intr_disable;
  queue ← is_mode QUEUE;
  if negb queue then
    b ← is_mode UNINIT;
    _ ← (if (b : bool) then init_poll else mret tt);
    _ ← putc_poll byte;
    _ ← intr_set_level old_level;
    mret (Ret tt)
  else
    full ← (if negb old_level then on_txq intq_full else mret false);
    _ ← (if (full : bool) then c ← now (on_txq (intq_getc Call)); putc_poll c else mret tt);
    serial_enqueue Call old_level byte.

Definition flush_step (_ : unit) : ST dev (unit + unit) :=
  empty ← on_txq intq_empty;
  if (empty : bool) then mret (inr tt) else
  c ← now (on_txq (intq_getc Call)); _ ← putc_poll c; mret (inl tt).
Definition serial_flush : ST dev unit :=
  old_level ← intr_disable;
  _ ← loop (Z.to_nat INTQ_BUFSIZE) flush_step tt;
  intr_set_level old_level.

Definition serial_notify : ST dev unit :=
  _ ← level_off; b ← is_mode QUEUE; if (b : bool) then write_ier else mret tt.

(** ** input.c *)

Definition input_init : ST dev unit := on_input (zoom q_ with_q intq_init).

Definition input_putc (key : Z) : ST dev unit :=
  _ ← level_off;
  full ← on_input intq_full;
  _ ← assert_st (negb full);
  _ ← now (on_input (intq_putc Call key));
  serial_notify.

(** input_getc from its call of intq_getc. *)
Definition input_dequeue (p : place) (old_level : bool) : ST dev (answer Z) :=
  r ← on_input (intq_getc p);
  match r with
  | Ret key => _ ← serial_notify; _ ← intr_set_level old_level; mret (Ret key)
  | Sleeps => mret Sleeps
  | Queues => mret Queues
  end.
Definition input_getc : ST dev (answer Z) := old_level ← intr_disable; input_dequeue Call old_level.

(** ** serial_interrupt *)

Definition receive_step (_ : unit) : ST dev (unit + unit) :=
  full ← input_full;
  if (full : bool) then mret (inr tt) else
  v ← inb LSR_REG;
  if Z.land v LSR_DR =? 0 then mret (inr tt) else
  c ← inb RBR_REG; _ ← input_putc c; mret (inl tt).
Definition transmit_step (_ : unit) : ST dev (unit + unit) :=
  empty ← on_txq intq_empty;
  if (empty : bool) then mret (inr tt) else
  v ← inb LSR_REG;
  if Z.land v LSR_THRE =? 0 then mret (inr tt) else
  c ← now (on_txq (intq_getc Call)); _ ← outb THR_REG c; mret (inl tt).
Definition serial_interrupt : ST dev unit :=
  _ ← inb IIR_REG;
  _ ← loop (Z.to_nat INTQ_BUFSIZE) receive_step tt;
  _ ← loop (Z.to_nat INTQ_BUFSIZE) transmit_step tt;
  write_ier.

(** ** kbd.c *)

Definition DATA_REG : Z := 96. (* 0x60 *)

(** A keymap is a first scancode with its characters. *)
Definition invariant_keymap : list (Z * list Z) :=
  [(1, [27]); (14, [8]); (15, 9 :: lit "QWERTYUIOP"); (28, [13]); (30, lit "ASDFGHJKL"); (44, lit "ZXCVBNM");
   (55, lit "*"); (57, lit " ")].
Definition unshifted_keymap : list (Z * list Z) :=
  [(2, lit "1234567890-="); (26, lit "[]"); (39, lit ";'`"); (43, [92]); (51, lit ",./")].
Definition shifted_keymap : list (Z * list Z) :=
  [(2, lit "!@#$%^&*()_+"); (26, lit "{}"); (39, [58; 34; 126]); (43, lit "|"); (51, lit "<>?")].

Fixpoint map_key (k : list (Z * list Z)) (scancode : Z) : option Z :=
  match k with
  | [] => None
  | (first_scancode, chars) :: k =>
      if (first_scancode <=? scancode) && (scancode <? first_scancode + zlength chars)
      then zlookup chars (scancode - first_scancode)
      else map_key k scancode
  end.

Definition tolower (c : Z) : Z := if (65 <=? c) && (c <=? 90) then c - 65 + 97 else c.

(** The character of a key, from the tables. *)
Definition char_of (shift : bool) (code : Z) : option Z :=
  match map_key invariant_keymap code with
  | Some c => Some c
  | None => map_key (if shift then shifted_keymap else unshifted_keymap) code
  end.
(** Ctrl, Shift and Alt. *)
Definition modified (shift alt ctrl caps : bool) (c : Z) : Z :=
  let c := if ctrl && (64 <=? c) && (c <? 96) then c - 64 else if Bool.eqb shift caps then tolower c else c in
  if alt then u8 (c + 128) else c.

Definition set_caps b k := Kbd (left_shift k) (right_shift k) (left_alt k) (right_alt k) (left_ctrl k) (right_ctrl k) b (key_cnt k).
Definition count_key k := Kbd (left_shift k) (right_shift k) (left_alt k) (right_alt k) (left_ctrl k) (right_ctrl k) (caps_lock k) (key_cnt k + 1).
(** The table of shift keys. *)
Definition shift_key (code : Z) (b : bool) (k : kbd) : kbd :=
  if code =? 42 then Kbd b (right_shift k) (left_alt k) (right_alt k) (left_ctrl k) (right_ctrl k) (caps_lock k) (key_cnt k)
  else if code =? 54 then Kbd (left_shift k) b (left_alt k) (right_alt k) (left_ctrl k) (right_ctrl k) (caps_lock k) (key_cnt k)
  else if code =? 56 then Kbd (left_shift k) (right_shift k) b (right_alt k) (left_ctrl k) (right_ctrl k) (caps_lock k) (key_cnt k)
  else if code =? 57400 then Kbd (left_shift k) (right_shift k) (left_alt k) b (left_ctrl k) (right_ctrl k) (caps_lock k) (key_cnt k)
  else if code =? 29 then Kbd (left_shift k) (right_shift k) (left_alt k) (right_alt k) b (right_ctrl k) (caps_lock k) (key_cnt k)
  else if code =? 57373 then Kbd (left_shift k) (right_shift k) (left_alt k) (right_alt k) (left_ctrl k) b (caps_lock k) (key_cnt k)
  else k.

Definition keyboard_interrupt : ST dev unit :=
  d ← get_st;
  let k := d_kbd d in
  let shift := left_shift k || right_shift k in
  let alt := left_alt k || right_alt k in
  let ctrl := left_ctrl k || right_ctrl k in
  code ← inb DATA_REG;
  code ← (if code =? 224 then v ← inb DATA_REG; mret (Z.lor (Z.shiftl code 8) v) else mret code);
  let release := negb (Z.land code 128 =? 0) in
  let code := Z.land code (Z.lnot 128) in
  if code =? 58 then
    if negb release then modify (set_kbd (set_caps (negb (caps_lock k)) k)) else mret tt
  else match char_of shift code with
  | Some c =>
      if release then mret tt else
      full ← input_full;
      if (full : bool) then mret tt else
      _ ← modify (set_kbd (count_key k));
      input_putc (modified shift alt ctrl (caps_lock k) c)
  | None => modify (set_kbd (shift_key code (negb release) k))
  end.
