(* ===== verification/SerialSpec.v ===== *)
(** * The serial line and the input buffer in order

    What the port writes of serial.c mean to the device, a transition system of the
    calls and interrupts of Serial.v, and that no byte is lost, repeated or
    overtaken on the way out or in. *)
From stdpp Require Import base numbers list.
From Stdlib Require Import ZArith Lia.
From S2P Require Import Prelude Intq Serial.
Open Scope Z_scope.

(** ** The device *)

(** Two registers have two meanings, by the bit DLAB of the line control register. *)
Record uart := Uart { dlab : bool; sent : list Z; received : list Z; ier : option Z }.
Definition uart_step (u : uart) (e : port_io) : uart :=
  match e with
  | Out port v =>
      if port =? LCR_REG then Uart (negb (Z.land v LCR_DLAB =? 0)) (sent u) (received u) (ier u)
      else if dlab u then u
      else if port =? THR_REG then Uart (dlab u) (sent u ++ [v]) (received u) (ier u)
      else if port =? IER_REG then Uart (dlab u) (sent u) (received u) (Some v)
      else u
  | In port v => if (port =? RBR_REG) && negb (dlab u) then Uart (dlab u) (sent u) (received u ++ [v]) (ier u) else u
  end.
Definition uart_of (l : list port_io) : uart := foldl uart_step (Uart false [] [] None) l.
Definition d_uart (d : dev) : uart := uart_of (log (d_ports d)).

(** ** Calls and interrupts *)

Definition scan_code (l : list Z) : option Z :=
  match l with
  | v :: l => if v =? 224 then v2 ← hd_error l; Some (Z.lor (Z.shiftl v 8) v2) else Some v
  | [] => None
  end.
(** The character that a scancode stands for, if it is the press of such a key. *)
Definition key_char (k : kbd) (code : Z) : option Z :=
  if negb (Z.land code 128 =? 0) then None else
  let code := Z.land code (Z.lnot 128) in
  let shift := left_shift k || right_shift k in
  if code =? 58 then None else
  modified shift (left_alt k || right_alt k) (left_ctrl k || right_ctrl k) (caps_lock k) <$> char_of shift code.
(** A key is dropped when the buffer is full. *)
Definition typed (d : dev) : list Z :=
  match scan_code (answers (d_ports d)) ≫= key_char (d_kbd d) with
  | Some c => if zlength (contents (d_input d)) <? INTQ_BUFSIZE - 1 then [c] else []
  | None => []
  end.

Definition set_cpu (c : cpu) (d : dev) : dev := Dev c (d_ports d) (d_input d) (txq d) (mode d) (d_kbd d).
Definition set_answers (l : list Z) (d : dev) : dev := set_ports (Ports (log (d_ports d)) l) d.

(** [serial_run given got keys d]: [d] is reached, serial_putc has taken the bytes
    [given], input_getc has returned [got], and [keys] have come in. The processor
    may be in any state when a turn begins. *)
Inductive serial_run : list Z → list Z → list Z → dev → Prop :=
  | run_boot d : mode d = UNINIT → log (d_ports d) = [] → wf_intq (d_input d) → wf_intq (txq d) →
      contents (d_input d) = [] → contents (txq d) = [] → serial_run [] [] [] d
  | run_cpu given got keys d c : serial_run given got keys d → serial_run given got keys (set_cpu c d)
  | run_answers given got keys d l : serial_run given got keys d → serial_run given got keys (set_answers l d)
  | run_init given got keys d d' : serial_run given got keys d →
      serial_init_queue d = Done (tt, d') → serial_run given got keys d'
  | run_putc given got keys d byte r d' : serial_run given got keys d →
      serial_putc byte d = Done (r, d') → serial_run (given ++ put_by byte r) got keys d'
  | run_enqueue given got keys d p old byte r d' : serial_run given got keys d → mode d = QUEUE →
      serial_enqueue p old byte d = Done (r, d') → serial_run (given ++ put_by byte r) got keys d'
  | run_flush given got keys d d' : serial_run given got keys d →
      serial_flush d = Done (tt, d') → serial_run given got keys d'
  | run_getc given got keys d r d' : serial_run given got keys d →
      input_getc d = Done (r, d') → serial_run given (got ++ got_by r) keys d'
  | run_dequeue given got keys d p old r d' : serial_run given got keys d →
      input_dequeue p old d = Done (r, d') → serial_run given (got ++ got_by r) keys d'
  | run_serial given got keys new d d' : serial_run given got keys d →
      serial_interrupt d = Done (tt, d') → received (d_uart d') = received (d_uart d) ++ new →
      serial_run given got (keys ++ new) d'
  | run_kbd given got keys d d' : serial_run given got keys d →
      keyboard_interrupt d = Done (tt, d') → serial_run given got (keys ++ typed d) d'.

(** The interrupts that should be enabled. *)
Definition wanted (d : dev) : Z :=
  Z.lor (if bool_decide (contents (txq d) = []) then 0 else IER_XMIT)
        (if bool_decide (zlength (contents (d_input d)) = INTQ_BUFSIZE - 1) then 0 else IER_RECV).

Record wf_dev0 (given got keys : list Z) (d : dev) : Prop := {
  wd_input : wf_intq (d_input d);
  wd_txq : wf_intq (txq d);
  wd_dlab : dlab (d_uart d) = false;
  wd_sent : sent (d_uart d) ++ contents (txq d) = given;
  wd_keys : got ++ contents (d_input d) = keys;
  wd_idle : mode d ≠ QUEUE → contents (txq d) = [];
}.
(** serial_flush leaves the transmit interrupt enabled. *)
Definition ier_ok (d : dev) : Prop := mode d = QUEUE →
  ∃ v, ier (d_uart d) = Some v ∧ (v = wanted d ∨ v = Z.lor (wanted d) IER_XMIT).
Definition wf_dev given got keys d : Prop := wf_dev0 given got keys d ∧ ier_ok d.

(** ** Steps *)

Section steps.
Implicit Types (d : dev) (c : cpu) (u : unit).

Lemma uart_snoc l e : uart_of (l ++ [e]) = uart_step (uart_of l) e.
Proof. unfold uart_of. by rewrite foldl_app. Qed.

(** A change of the log only. *)
Record quiet d d' : Prop := {
  qt_cpu : d_cpu d' = d_cpu d;
  qt_input : d_input d' = d_input d;
  qt_txq : txq d' = txq d;
  qt_mode : mode d' = mode d;
  qt_kbd : d_kbd d' = d_kbd d;
}.
Lemma quiet_trans d1 d2 d3 : quiet d1 d2 → quiet d2 d3 → quiet d1 d3.
Proof. intros [] []. split; congruence. Qed.
Lemma outb_inv port v d u d' : outb port v d = Done (u, d') → quiet d d' ∧ d_uart d' = uart_step (d_uart d) (Out port v).
Proof. unfold outb, modify. intros [= _ <-]. split; [done|]. apply uart_snoc. Qed.
Lemma inb_inv port d v d' : inb port d = Done (v, d') →
  quiet d d' ∧ d_uart d' = uart_step (d_uart d) (In port v) ∧ answers (d_ports d) = v :: answers (d_ports d').
Proof.
  unfold inb. destruct (answers (d_ports d)) as [|v0 l]; [done|]. intros [= <- <-]. split_and!; [done| |done].
  apply uart_snoc.
Qed.
Lemma level_off_inv d u d' : level_off d = Done (u, d') → intr_on (d_cpu d) = false ∧ d' = d.
Proof. unfold level_off. intros H. run_step H. apply assert_inv in H as [H ->]. split; [by apply negb_true_iff|done]. Qed.
Lemma tx_empty_inv d b d' : wf_intq (txq d) → on_txq intq_empty d = Done (b, d') →
  intr_on (d_cpu d) = false ∧ b = bool_decide (contents (txq d) = []) ∧ d' = d.
Proof.
  intros Hwf H. apply zoom_inv in H as (q' & H & ->). apply (due_inv NotEmpty) in H as (Hon & -> & ->).
  split_and!; [done| |by destruct d]. simpl. apply eq_bool_prop_intro.
  rewrite !Is_true_true, Z.eqb_eq, bool_decide_eq_true. by apply empty_iff.
Qed.
Lemma input_full_inv d b d' : wf_intq (d_input d) → input_full d = Done (b, d') →
  intr_on (d_cpu d) = false ∧ b = bool_decide (zlength (contents (d_input d)) = INTQ_BUFSIZE - 1) ∧ d' = d.
Proof.
  intros Hwf H. unfold input_full in H. run_step H. apply level_off_inv in Hs as [_ ->].
  apply zoom_inv in H as (q' & H & ->). apply (due_inv NotFull) in H as (Hon & -> & ->).
  split_and!; [done| |by destruct d]. simpl. apply eq_bool_prop_intro.
  rewrite !Is_true_true, Z.eqb_eq, bool_decide_eq_true. by apply full_iff.
Qed.

(** The registers stay as they are but for the one that is written. *)
Lemma write_ier_inv d u d' : wf_intq (d_input d) → wf_intq (txq d) → dlab (d_uart d) = false →
  write_ier d = Done (u, d') →
  quiet d d' ∧ intr_on (d_cpu d) = false ∧ d_uart d' = Uart false (sent (d_uart d)) (received (d_uart d)) (Some (wanted d)).
Proof.
  intros Hin Htx Hd H. unfold write_ier in H. run_step H. apply level_off_inv in Hs as [Hon ->].
  run_step H. apply tx_empty_inv in Hs as (_ & -> & ->); [|done].
  run_step H. apply input_full_inv in Hs as (_ & -> & ->); [|done].
  apply outb_inv in H as [Hq ->]. split_and!; [done|done|]. unfold uart_step. simpl. rewrite Hd. unfold wanted.
  by repeat case_bool_decide.
Qed.

Lemma poll_inv byte d u d' : dlab (d_uart d) = false → putc_poll byte d = Done (u, d') →
  quiet d d' ∧ d_uart d' = Uart false (sent (d_uart d) ++ [byte]) (received (d_uart d)) (ier (d_uart d)).
Proof.
  intros Hd H. unfold putc_poll in H. run_step H. apply level_off_inv in Hs as [_ ->]. run_step H.
  run_step H. apply (loop_inv (λ _ d1, quiet d d1 ∧ d_uart d1 = d_uart d) (λ _ d1, quiet d d1 ∧ d_uart d1 = d_uart d)) in Hs.
  - destruct Hs as [Hq Hu]. apply outb_inv in H as [Hq' ->]. split; [by eapply quiet_trans|]. rewrite Hu. simpl. by rewrite Hd.
  - intros a d1 r d2 [Hq Hu] H1. unfold poll_step in H1. run_step H1. injection H1 as <- <-.
    apply inb_inv in Hs0 as (Hq' & Hu' & _). rewrite Hu in Hu'. destruct (_ =? 0); (split; [by eapply quiet_trans|done]).
  - done.
Qed.
End steps.

(** ** Operations *)

Record tx_only d d' : Prop := {
  to_ports : d_ports d' = d_ports d;
  to_input : d_input d' = d_input d;
  to_mode : mode d' = mode d;
  to_kbd : d_kbd d' = d_kbd d;
}.
Record in_only d d' : Prop := {
  io_ports : d_ports d' = d_ports d;
  io_txq : txq d' = txq d;
  io_mode : mode d' = mode d;
  io_kbd : d_kbd d' = d_kbd d;
}.

Section operations.
Implicit Types (d : dev) (c : cpu) (u : unit) (given got keys : list Z).

Lemma tx_put_inv p byte d r d' : wf_intq (txq d) → on_txq (intq_putc p byte) d = Done (r, d') →
  tx_only d d' ∧ wf_intq (txq d') ∧ contents (txq d') = contents (txq d) ++ put_by byte r.
Proof. intros Hwf H. apply zoom_inv in H as (q & H & ->). apply putc_turn in H as (? & ? & _); done. Qed.
Lemma tx_get_inv p d r d' : wf_intq (txq d) → on_txq (intq_getc p) d = Done (r, d') →
  tx_only d d' ∧ wf_intq (txq d') ∧ contents (txq d) = got_by r ++ contents (txq d').
Proof. intros Hwf H. apply zoom_inv in H as (q & H & ->). apply getc_turn in H as (? & ? & _); done. Qed.
Lemma in_put_inv p byte d r d' : wf_intq (d_input d) → on_input (intq_putc p byte) d = Done (r, d') →
  in_only d d' ∧ wf_intq (d_input d') ∧ contents (d_input d') = contents (d_input d) ++ put_by byte r.
Proof. intros Hwf H. apply zoom_inv in H as (q & H & ->). apply putc_turn in H as (? & ? & _); done. Qed.
Lemma in_get_inv p d r d' : wf_intq (d_input d) → on_input (intq_getc p) d = Done (r, d') →
  in_only d d' ∧ wf_intq (d_input d') ∧ contents (d_input d) = got_by r ++ contents (d_input d').
Proof. intros Hwf H. apply zoom_inv in H as (q & H & ->). apply getc_turn in H as (? & ? & _); done. Qed.
Lemma now_inv {A} (m : ST dev (answer A)) d a d' : now m d = Done (a, d') → m d = Done (Ret a, d').
Proof. unfold now. intros (r & d1 & H1 & H)%bind_inv. destruct r; [|done|done]. by injection H as <- <-. Qed.

(** The processor is not part of the invariant. *)
Lemma wf_ext given got keys d d' : d_ports d' = d_ports d → d_input d' = d_input d → txq d' = txq d → mode d' = mode d →
  wf_dev given got keys d → wf_dev given got keys d'.
Proof.
  intros Hp Hi Ht Hm [[? ? ? ? ? ?] Hier]. split; [split; unfold d_uart in *; rewrite ?Hp, ?Hi, ?Ht, ?Hm; done|].
  unfold ier_ok, d_uart, wanted in *. by rewrite Hp, Hi, Ht, Hm.
Qed.
Lemma set_level_inv b d u d' : intr_set_level b d = Done (u, d') → d' = set_level b d.
Proof. unfold intr_set_level. intros H. do 2 run_step H. by injection H as _ <-. Qed.
Lemma disable_inv d b d' : intr_disable d = Done (b, d') → d' = set_level false d ∧ b = intr_on (d_cpu d).
Proof. unfold intr_disable. intros H. do 2 run_step H. by injection H as <- <-. Qed.
Lemma is_mode_inv m d b d' : is_mode m d = Done (b, d') → d' = d ∧ (b = true ↔ mode d = m).
Proof. unfold is_mode, gets. intros [= <- <-]. split; [done|]. by destruct (mode d), m. Qed.

Lemma write_ier_ok given got keys d u d' : wf_dev0 given got keys d → write_ier d = Done (u, d') →
  wf_dev given got keys d' ∧ quiet d d' ∧ received (d_uart d') = received (d_uart d).
Proof.
  intros [Hin Htx Hd Hs Hk Hi] H. apply write_ier_inv in H as (Hq & _ & Hu); [|done..]. pose proof Hq as [Hc Hin' Htx' Hm Hkb].
  split_and!; [|done|by rewrite Hu]. split.
  - split; rewrite ?Hin', ?Htx', ?Hm, ?Hu; done.
  - intros _. exists (wanted d). rewrite Hu. split; [done|]. left. unfold wanted. by rewrite Hin', Htx'.
Qed.
Lemma notify_ok given got keys d u d' : wf_dev0 given got keys d → serial_notify d = Done (u, d') →
  wf_dev given got keys d' ∧ quiet d d' ∧ received (d_uart d') = received (d_uart d).
Proof.
  intros Hwf H. unfold serial_notify in H. run_step H. apply level_off_inv in Hs as [_ ->].
  run_call H. apply is_mode_inv in Hs as [-> Hm]. destruct v0; [by apply (write_ier_ok given got keys) in H|].
  injection H as _ <-. split_and!; [|done|done]. split; [done|]. intros Hq. apply Hm in Hq. done.
Qed.

Lemma poll_ok given got keys byte rest d u d' : wf_intq (d_input d) → wf_intq (txq d) → dlab (d_uart d) = false →
  sent (d_uart d) ++ byte :: contents (txq d) = given → got ++ contents (d_input d) = keys →
  (mode d ≠ QUEUE → contents (txq d) = []) → rest = ier (d_uart d) →
  putc_poll byte d = Done (u, d') →
  wf_dev0 given got keys d' ∧ quiet d d' ∧ ier (d_uart d') = rest ∧ received (d_uart d') = received (d_uart d).
Proof.
  intros Hin Htx Hd Hs Hk Hi -> H. apply poll_inv in H as (Hq & Hu); [|done]. pose proof Hq as [Hc Hin' Htx' Hm Hkb].
  split_and!; [|done|by rewrite Hu|by rewrite Hu]. split; rewrite ?Hin', ?Htx', ?Hm, ?Hu; try done.
  simpl. by rewrite <- app_assoc.
Qed.
End operations.

Lemma uart_ier v u : dlab u = false → uart_step u (Out IER_REG v) = Uart false (sent u) (received u) (Some v).
Proof. destruct u. simpl. by intros ->. Qed.
Lemma uart_other port v u : dlab u = false → bool_decide (port ∈ [LCR_REG; THR_REG; IER_REG]) = false →
  uart_step u (Out port v) = u.
Proof.
  intros Hd Hp. apply bool_decide_eq_false in Hp. rewrite !elem_of_cons in Hp. simpl. rewrite Hd.
  repeat (case_match; [naive_solver lia|]). done.
Qed.

Section calls.
Implicit Types (d : dev) (c : cpu) (u : unit) (given got keys : list Z).

(** The interrupts wanted do not change while both queues stay as empty, or full,
    as they are. *)
Lemma wanted_same d d' : contents (txq d') = [] ↔ contents (txq d) = [] →
  (zlength (contents (d_input d')) = INTQ_BUFSIZE - 1 ↔ zlength (contents (d_input d)) = INTQ_BUFSIZE - 1) → wanted d' = wanted d.
Proof. intros H1 H2. unfold wanted. by rewrite (bool_decide_ext _ _ H1), (bool_decide_ext _ _ H2). Qed.

Lemma enqueue_ok given got keys p old byte d r d' : wf_dev given got keys d → mode d = QUEUE →
  serial_enqueue p old byte d = Done (r, d') → wf_dev (given ++ put_by byte r) got keys d'.
Proof.
  intros [[Hin Htx Hd Hs Hk Hi] Hier] Hm H. unfold serial_enqueue in H. run_call H. rename Hs0 into Hput.
  apply tx_put_inv in Hput as ([Hp Hi' Hm' Hkb] & Htx' & Hc); [|done].
  assert (Hwf0 : wf_dev0 (given ++ put_by byte v) got keys x).
  { unfold d_uart in *. split; unfold d_uart; rewrite ?Hi', ?Hp, ?Hm'; try done. rewrite Hc, <- Hs. by rewrite app_assoc. }
  destruct v as [[]| |].
  - run_call H. apply (write_ier_ok _ _ _ _ _ _ Hwf0) in Hs0 as (Hwf & _ & _). run_call H. apply set_level_inv in Hs0 as ->.
    injection H as <- <-. by eapply wf_ext; [..|exact Hwf].
  - injection H as <- <-. split; [done|]. intros _. destruct (Hier Hm) as (v & Hv & Hor). exists v.
    unfold d_uart in *. rewrite Hp. split; [done|]. rewrite (wanted_same d x); [done| |by rewrite Hi'].
    by rewrite Hc, app_nil_r.
  - injection H as <- <-. split; [done|]. intros _. destruct (Hier Hm) as (v & Hv & Hor). exists v.
    unfold d_uart in *. rewrite Hp. split; [done|]. rewrite (wanted_same d x); [done| |by rewrite Hi'].
    by rewrite Hc, app_nil_r.
Qed.

Lemma set_serial_inv bps d u d' : dlab (d_uart d) = false → set_serial bps d = Done (u, d') →
  quiet d d' ∧ d_uart d' = d_uart d.
Proof.
  intros Hd H. unfold set_serial in H. run_step H. run_call H. apply outb_inv in Hs as [Hq1 Hu1].
  run_call H. apply outb_inv in Hs as [Hq2 Hu2]. run_call H. apply outb_inv in Hs as [Hq3 Hu3]. apply outb_inv in H as [Hq4 Hu4].
  split; [by repeat (eapply quiet_trans; [eassumption|])|].
  rewrite Hu4, Hu3, Hu2, Hu1. simpl. destruct (d_uart d) as [? ? ? ?]; simpl in *. by rewrite Hd.
Qed.

Lemma init_poll_ok given got keys d u d' : wf_dev given got keys d → init_poll d = Done (u, d') →
  wf_dev given got keys d' ∧ mode d' = POLL.
Proof.
  intros [[Hin Htx Hd Hs Hk Hi] Hier] H. unfold init_poll in H. run_call H. apply is_mode_inv in Hs0 as [-> Hm].
  run_step H. destruct Hm as [Hm _]. specialize (Hm E). specialize (Hi ltac:(by rewrite Hm)).
  run_call H. apply outb_inv in Hs0 as [Hq1 Hu1]. run_call H. apply outb_inv in Hs0 as [Hq2 Hu2].
  assert (Hd2 : dlab (d_uart x0) = false) by (rewrite Hu2, Hu1; simpl; by rewrite !Hd, ?Hd).
  run_call H. apply set_serial_inv in Hs0 as [Hq3 Hu3]; [|done]. run_call H. apply outb_inv in Hs0 as [Hq4 Hu4].
  run_call H. apply zoom_inv in Hs0 as (q & Hq & ->). apply zoom_inv in Hq as (q0 & Hq & ->). injection Hq as _ <-.
  injection H as _ <-.
  assert (Hq : quiet d x2) by (by repeat (eapply quiet_trans; [eassumption|])). pose proof Hq as [Hc' Hin' Htx' Hm' Hkb'].
  assert (Hu : dlab (d_uart x2) = false ∧ sent (d_uart x2) = sent (d_uart d)).
  { by rewrite Hu4, Hu3, (uart_other MCR_REG), Hu2, Hu1, uart_ier, uart_other by (done || by rewrite Hu2, Hu1, uart_ier, uart_other by done). }
  split; [|done]. split; [|done]. destruct Hu as [Hu1' Hu2']. rewrite Hi in Hs. split.
  - simpl. by rewrite Hin'.
  - simpl. rewrite Htx'. destruct Htx as [Hb _ _ _ _]. split; simpl; try done.
  - done.
  - change (sent (d_uart x2) ++ [] = given). by rewrite Hu2'.
  - simpl. by rewrite Hin'.
  - done.
Qed.

Lemma putc_ok given got keys byte d r d' : wf_dev given got keys d → serial_putc byte d = Done (r, d') →
  wf_dev (given ++ put_by byte r) got keys d'.
Proof.
  intros Hwf H. unfold serial_putc in H. run_call H. apply disable_inv in Hs as [-> Hold].
  assert (Hwf0 : wf_dev given got keys (set_level false d)) by (by eapply wf_ext; [..|exact Hwf]).
  run_call H. apply is_mode_inv in Hs as [-> Hm]. destruct v0; simpl in H.
  - destruct Hm as [Hm _]. specialize (Hm eq_refl). run_call H.
    assert (Hx : x = set_level false d ∧ v0 = (negb v && full_cond NotFull (txq d))).
    { destruct v; simpl in Hs; [by injection Hs as <- <-|]. apply zoom_inv in Hs as (q & Hq & ->).
      apply (due_inv NotFull) in Hq as (_ & -> & ->). by destruct d. }
    destruct Hx as [-> ->]. clear Hs. run_call H. destruct (negb v && full_cond NotFull (txq d)) eqn:Hfull.
    + run_call Hs. apply now_inv, tx_get_inv in Hs0 as ([Hp Hi' Hm' Hkb] & Htx' & Hc); [|apply Hwf].
      destruct Hwf0 as [[Hin Htx Hd Hsent Hk Hi] Hier]. simpl in Hc, Hm, Hm'. unfold d_uart in *.
      assert (Hux : d_uart x0 = uart_of (log (d_ports (set_level false d)))) by (unfold d_uart; by rewrite Hp).
      destruct (poll_ok given got keys v1 (ier (d_uart x0)) x0 v0 x) as (Hwf1 & Hq & Hier' & _);
        [by rewrite Hi'|done|by rewrite Hux|by rewrite Hux, <- Hsent; simpl; rewrite Hc|by rewrite Hi'|by rewrite Hm', Hm|done|done|].
      pose proof Hq as [_ Hqi Hqt Hqm _]. eapply enqueue_ok; [split; [exact Hwf1|]|by rewrite Hqm, Hm'|exact H].
      intros _. destruct (Hier Hm) as (v' & Hv & Hor). exists v'. rewrite Hier', Hux. split; [done|].
      rewrite (wanted_same (set_level false d) x); [done| |by rewrite Hqi, Hi'].
      rewrite Hqt. simpl. rewrite Hc. apply andb_true_iff in Hfull as [_ Hfull]. simpl in Hfull. apply Z.eqb_eq in Hfull.
      apply (full_iff (txq d)) in Hfull; [|apply Hwf]. rewrite Hc in Hfull. split; [|done].
      intros He. rewrite He in Hfull. done.
    + injection Hs as _ <-. by eapply enqueue_ok; [..|exact H].
  - run_call H. apply is_mode_inv in Hs as [-> Hm']. run_call H.
    assert (Hwf1 : wf_dev given got keys x ∧ mode x ≠ QUEUE).
    { destruct v0. 
      - apply (init_poll_ok given got keys) in Hs as [? Hx]; [|done]. by rewrite Hx.
      - injection Hs as _ <-. split; [done|]. intros Hq. by apply Hm in Hq. }
    destruct Hwf1 as [[[Hin Htx Hd Hsent Hk Hi] Hier] Hnq]. specialize (Hi Hnq).
    run_call H. destruct (poll_ok (given ++ [byte]) got keys byte (ier (d_uart x)) x v2 x0) as (Hwf1 & Hq & _ & _);
      [done|done|done|by rewrite Hi in *; rewrite <- Hsent, app_nil_r|done|done|done|done|].
    run_call H. apply set_level_inv in Hs1 as ->. injection H as <- <-.
    apply (wf_ext _ _ _ x0); [done..|]. split; [done|]. intros Hmq. by rewrite (qt_mode _ _ Hq) in Hmq.
Qed.
End calls.

Section interrupts.
Implicit Types (d : dev) (c : cpu) (u : unit) (given got keys : list Z).

Lemma init_queue_ok given got keys d u d' : wf_dev given got keys d → serial_init_queue d = Done (u, d') →
  wf_dev given got keys d'.
Proof.
  intros Hwf H. unfold serial_init_queue in H. run_call H. apply is_mode_inv in Hs as [-> Hm]. run_call H.
  assert (Hx : wf_dev given got keys x).
  { destruct v; [by apply (init_poll_ok given got keys) in Hs as [? _]|]. by injection Hs as _ <-. }
  clear Hs. run_call H. apply is_mode_inv in Hs as [-> Hm']. run_step H. rewrite Hm' in E.
  run_step H. run_call H. apply disable_inv in Hs as [-> _]. run_call H.
  apply (write_ier_ok given got keys) in Hs as (Hw & _ & _).
  - apply set_level_inv in H as ->. by eapply wf_ext; [..|exact Hw].
  - destruct Hx as [[? ? ? ? ? Hi] _]. by split.
Qed.

(** Sending what the queue has, without looking at the interrupts. *)
Lemma send_ok given got keys (c : Z) d d1 d2 : wf_dev0 given got keys d →
  on_txq (intq_getc Call) d = Done (Ret c, d1) → quiet d1 d2 →
  d_uart d2 = Uart false (sent (d_uart d1) ++ [c]) (received (d_uart d1)) (ier (d_uart d1)) →
  wf_dev0 given got keys d2 ∧ mode d2 = mode d ∧ received (d_uart d2) = received (d_uart d) ∧
  ier (d_uart d2) = ier (d_uart d) ∧ d_input d2 = d_input d ∧ contents (txq d) = c :: contents (txq d2).
Proof.
  intros [Hin Htx Hd Hs Hk Hi] H1 [Hqc Hqi Hqt Hqm Hqk] Hu. apply tx_get_inv in H1 as ([Hp Hi' Hm' Hkb] & Htx' & Hc); [|done].
  assert (Hu1 : d_uart d1 = d_uart d) by (unfold d_uart; by rewrite Hp). rewrite Hu1 in Hu. simpl in Hc.
  split_and!; [|congruence|by rewrite Hu|by rewrite Hu|congruence|by rewrite Hqt]. split.
  - by rewrite Hqi, Hi'.
  - by rewrite Hqt.
  - by rewrite Hu.
  - rewrite Hu, Hqt, <- Hs, Hc. simpl. by rewrite <- app_assoc.
  - by rewrite Hqi, Hi'.
  - rewrite Hqm, Hm', Hqt. intros Hm. specialize (Hi Hm). by rewrite Hi in Hc.
Qed.

Lemma flush_ok given got keys d u d' : wf_dev given got keys d → serial_flush d = Done (u, d') →
  wf_dev given got keys d'.
Proof.
  intros Hwf H. unfold serial_flush in H. run_call H. apply disable_inv in Hs as [-> _]. run_call H.
  apply set_level_inv in H as ->. apply (wf_ext _ _ _ x); [done..|].
  set (I := λ d1 : dev, wf_dev0 given got keys d1 ∧ mode d1 = mode d ∧ d_input d1 = d_input d ∧
    ier (d_uart d1) = ier (d_uart d) ∧ (contents (txq d) = [] → contents (txq d1) = [])).
  apply (loop_inv (λ _, I) (λ _ d1, I d1 ∧ contents (txq d1) = [])) in Hs.
  - destruct Hs as [(Hwf0 & Hm & Hin & Hier & He) He']. split; [done|]. intros Hq. rewrite Hm in Hq.
    destruct Hwf as [_ Hok]. destruct (Hok Hq) as (v' & Hv & Hor). exists v'. rewrite Hier. split; [done|].
    unfold wanted in *. rewrite Hin, He'. rewrite bool_decide_eq_true_2 by done. clear - Hor.
    repeat case_bool_decide; simpl in *; destruct Hor; subst; auto.
  - intros a d1 r d2 (Hwf0 & Hm & Hin & Hier & He) H1. unfold flush_step in H1. run_call H1.
    apply tx_empty_inv in Hs0 as (_ & -> & ->); [|apply Hwf0]. case_bool_decide as Hemp.
    + injection H1 as <- <-. done.
    + run_call H1. apply now_inv in Hs0. run_call H1. injection H1 as <- <-.
      assert (Hd1 : dlab (d_uart x0) = false).
      { pose proof Hs0 as Hg. apply tx_get_inv in Hg as ([Hp _ _ _] & _); [|apply Hwf0]. unfold d_uart. rewrite Hp. apply Hwf0. }
      apply poll_inv in Hs1 as [Hq Hu]; [|done].
      destruct (send_ok given got keys v1 d1 x0 x1) as (? & Hm2 & _ & Hi2 & Hin2 & _); [done|done|done|done|].
      split_and!; [done|congruence|congruence|congruence|]. intros Hd. by specialize (He Hd).
  - split_and!; try done. destruct Hwf as [[? ? ? ? ? ?] _]. done.
Qed.

Lemma dequeue_ok given got keys p old d r d' : wf_dev given got keys d → input_dequeue p old d = Done (r, d') →
  wf_dev given (got ++ got_by r) keys d'.
Proof.
  intros [[Hin Htx Hd Hs Hk Hi] Hier] H. unfold input_dequeue in H. run_call H. rename Hs0 into Hget.
  apply in_get_inv in Hget as ([Hp Ht' Hm' Hkb] & Hin' & Hc); [|done].
  assert (Hwf0 : wf_dev0 given (got ++ got_by v) keys x).
  { unfold d_uart in *. split; unfold d_uart; rewrite ?Ht', ?Hp, ?Hm'; try done. by rewrite <- app_assoc, <- Hc. }
  assert (Hsame : got_by v = [] → ier_ok x).
  { intros Hv Hq. rewrite Hm' in Hq. destruct (Hier Hq) as (v' & Hv' & Hor). exists v'. unfold d_uart in *. rewrite Hp. split; [done|].
    rewrite (wanted_same d x); [done|by rewrite Ht'|]. by rewrite Hc, Hv. }
  destruct v as [key| |].
  - run_call H. apply (notify_ok given (got ++ [key]) keys) in Hs0 as (Hw & _); [|done]. run_call H.
    apply set_level_inv in Hs0 as ->. injection H as <- <-. by eapply wf_ext; [..|exact Hw].
  - injection H as <- <-. split; [done|]. by apply Hsame.
  - injection H as <- <-. split; [done|]. by apply Hsame.
Qed.
Lemma getc_ok given got keys d r d' : wf_dev given got keys d → input_getc d = Done (r, d') →
  wf_dev given (got ++ got_by r) keys d'.
Proof.
  intros Hwf H. unfold input_getc in H. run_call H. apply disable_inv in Hs as [-> _].
  eapply dequeue_ok; [|exact H]. by eapply wf_ext; [..|exact Hwf].
Qed.

Lemma input_putc_ok given got keys key d u d' : wf_dev0 given got keys d → input_putc key d = Done (u, d') →
  wf_dev given got (keys ++ [key]) d' ∧ received (d_uart d') = received (d_uart d) ∧ mode d' = mode d ∧ d_kbd d' = d_kbd d.
Proof.
  intros [Hin Htx Hd Hs Hk Hi] H. unfold input_putc in H. run_call H. apply level_off_inv in Hs0 as [_ ->].
  run_call H. apply zoom_inv in Hs0 as (q & Hq & ->). apply (due_inv NotFull) in Hq as (_ & -> & ->).
  run_step H. run_call H. apply now_inv, in_put_inv in Hs0 as ([Hp Ht' Hm' Hkb] & Hin' & Hc); [|done].
  assert (Hu : d_uart x = d_uart d) by (unfold d_uart; by rewrite Hp).
  apply (notify_ok given got (keys ++ [key])) in H as (Hw & [_ _ _ Hm2 Hk2] & Hr).
  - split_and!; [done|by rewrite Hr, Hu| |]; [by rewrite Hm2, Hm'|by rewrite Hk2, Hkb].
  - split; rewrite ?Hu, ?Ht', ?Hm'; try done. simpl in Hc. by rewrite Hc, <- Hk, app_assoc.
Qed.
End interrupts.

Section handlers.
Implicit Types (d : dev) (c : cpu) (u : unit) (given got keys : list Z).

Lemma inb_ok given got keys port d v d' : wf_dev0 given got keys d → inb port d = Done (v, d') →
  wf_dev0 given got keys d' ∧ quiet d d' ∧ answers (d_ports d) = v :: answers (d_ports d') ∧
  d_uart d' = Uart false (sent (d_uart d)) (received (d_uart d) ++ (if port =? RBR_REG then [v] else [])) (ier (d_uart d)).
Proof.
  intros [Hin Htx Hd Hs Hk Hi] H. apply inb_inv in H as (Hq & Hu & Ha). pose proof Hq as [_ Hqi Hqt Hqm _].
  assert (Hu' : d_uart d' = Uart false (sent (d_uart d)) (received (d_uart d) ++ (if port =? RBR_REG then [v] else [])) (ier (d_uart d))).
  { rewrite Hu. simpl. rewrite Hd. destruct (port =? RBR_REG); simpl; [done|].
    rewrite app_nil_r. destruct (d_uart d); simpl in *. by rewrite Hd. }
  split_and!; try done. split; rewrite ?Hqi, ?Hqt, ?Hqm, ?Hu'; done.
Qed.

Lemma receive_ok given got keys old d a r d' :
  (∃ new, wf_dev0 given got (keys ++ new) d ∧ received (d_uart d) = old ++ new) → receive_step a d = Done (r, d') →
  ∃ new, wf_dev0 given got (keys ++ new) d' ∧ received (d_uart d') = old ++ new.
Proof.
  intros (new & Hwf & Hr) H. unfold receive_step in H. run_call H. apply input_full_inv in Hs as (_ & -> & ->); [|apply Hwf].
  case_bool_decide; [injection H as _ <-; eauto|]. run_call H. eapply inb_ok in Hs as (Hwf1 & _ & _ & Hu); [|done].
  simpl in Hu. rewrite app_nil_r in Hu. destruct (_ =? 0); [injection H as _ <-; exists new; by rewrite Hu|].
  run_call H. eapply inb_ok in Hs as (Hwf2 & _ & _ & Hu2); [|done]. simpl in Hu2. run_call H. injection H as _ <-.
  apply (input_putc_ok given got (keys ++ new)) in Hs as ([Hwf3 _] & Hr3 & _); [|done]. exists (new ++ [v0]).
  rewrite app_assoc. split; [done|]. rewrite Hr3, Hu2. simpl. rewrite Hu. simpl. by rewrite Hr, <- app_assoc.
Qed.
Lemma transmit_ok given got keys old d a r d' : wf_dev0 given got keys d ∧ received (d_uart d) = old →
  transmit_step a d = Done (r, d') → wf_dev0 given got keys d' ∧ received (d_uart d') = old.
Proof.
  intros [Hwf Hr] H. unfold transmit_step in H. run_call H. apply tx_empty_inv in Hs as (_ & -> & ->); [|apply Hwf].
  case_bool_decide; [by injection H as _ <-|]. run_call H. eapply inb_ok in Hs as (Hwf1 & _ & _ & Hu); [|done].
  simpl in Hu. rewrite app_nil_r in Hu. destruct (_ =? 0); [injection H as _ <-; by rewrite Hu|].
  run_call H. apply now_inv in Hs. run_call H. injection H as _ <-. apply outb_inv in Hs0 as [Hq Hu2].
  assert (Hd : dlab (d_uart x0) = false).
  { pose proof Hs as Hg. apply tx_get_inv in Hg as ([Hp _ _ _] & _); [|apply Hwf1]. unfold d_uart. rewrite Hp. apply Hwf1. }
  destruct (send_ok given got keys v0 x x0 x1) as (? & _ & Hr2 & _); [done|done|done| |].
  - rewrite Hu2. simpl. by rewrite Hd.
  - by rewrite Hr2, Hu.
Qed.

Lemma serial_interrupt_ok given got keys d u d' : wf_dev given got keys d → serial_interrupt d = Done (u, d') →
  ∃ new, wf_dev given got (keys ++ new) d' ∧ received (d_uart d') = received (d_uart d) ++ new.
Proof.
  intros [Hwf _] H. unfold serial_interrupt in H. run_call H. eapply inb_ok in Hs as (Hwf1 & _ & _ & Hu); [|done].
  simpl in Hu. rewrite app_nil_r in Hu. run_call H.
  set (P := λ d1 : dev, ∃ new, wf_dev0 given got (keys ++ new) d1 ∧ received (d_uart d1) = received (d_uart d) ++ new).
  apply (loop_inv (λ _, P) (λ _, P)) in Hs as (new & Hwf2 & Hr2).
  - run_call H. set (P2 := λ d1 : dev, wf_dev0 given got (keys ++ new) d1 ∧ received (d_uart d1) = received (d_uart d) ++ new).
    apply (loop_inv (λ _, P2) (λ _, P2)) in Hs as [Hwf3 Hr3].
    + apply (write_ier_ok _ _ _ _ _ _ Hwf3) in H as (Hw & _ & Hr). exists new. split; [done|]. by rewrite Hr.
    + intros a d1 r d2 HP H1. apply (transmit_ok given got (keys ++ new) (received (d_uart d) ++ new)) in H1; [by destruct r|done].
    + done.
  - intros a d1 r d2 HP H1. apply (receive_ok given got keys (received (d_uart d))) in H1; [by destruct r|done].
  - exists []. rewrite !app_nil_r. split; [done|]. by rewrite Hu.
Qed.

Lemma set_kbd_ok given got keys k d : wf_dev given got keys d → wf_dev given got keys (set_kbd k d).
Proof. by apply wf_ext. Qed.
Lemma inb_quiet_ok given got keys port d v d' : port ≠ RBR_REG → wf_dev given got keys d → inb port d = Done (v, d') →
  wf_dev given got keys d' ∧ quiet d d' ∧ answers (d_ports d) = v :: answers (d_ports d').
Proof.
  intros Hp [Hwf Hier] H. eapply inb_ok in H as (Hwf' & Hq & Ha & Hu); [|done]. split_and!; [|done|done].
  split; [done|]. destruct Hq as [_ Hqi Hqt Hqm _]. intros Hm. rewrite Hqm in Hm. destruct (Hier Hm) as (v' & Hv & Hor).
  exists v'. rewrite Hu. split; [done|]. unfold wanted. by rewrite Hqi, Hqt.
Qed.

Lemma keyboard_ok given got keys d u d' : wf_dev given got keys d → keyboard_interrupt d = Done (u, d') →
  wf_dev given got (keys ++ typed d) d'.
Proof.
  intros Hwf H. unfold keyboard_interrupt in H. run_step H. run_call H.
  eapply inb_quiet_ok in Hs as (Hwf1 & Hq1 & Ha1); [|done|done]. run_call H.
  assert (Hx : wf_dev given got keys x0 ∧ quiet d x0 ∧ scan_code (answers (d_ports d)) = Some v0).
  { unfold scan_code. rewrite Ha1. destruct (v =? 224).
    - run_call Hs. injection Hs as <- <-. eapply inb_quiet_ok in Hs0 as (Hwf2 & Hq2 & Ha2); [|done|done].
      split_and!; [done|by eapply quiet_trans|]. by rewrite Ha2.
    - injection Hs as <- <-. done. }
  clear Hs. destruct Hx as (Hwf2 & Hq2 & Hsc). unfold typed. rewrite Hsc. simpl. unfold key_char.
  destruct Hq2 as [_ Hqi _ _ _]. destruct (negb (Z.land v0 128 =? 0)) eqn:Hrel; simpl in H.
  - rewrite app_nil_r. repeat case_match; injection H as _ <-; auto using set_kbd_ok.
  - destruct (_ =? 58); [rewrite app_nil_r; injection H as _ <-; by apply set_kbd_ok|].
    destruct (char_of _ _) as [ch|]; simpl; [|rewrite app_nil_r; injection H as _ <-; by apply set_kbd_ok].
    run_call H. apply input_full_inv in Hs as (_ & -> & ->); [|apply Hwf2]. rewrite <- Hqi.
    pose proof (contents_bound (d_input x0)). case_bool_decide as Hf.
    + rewrite (proj2 (Z.ltb_ge _ _)) by lia. rewrite app_nil_r. by injection H as _ <-.
    + rewrite (proj2 (Z.ltb_lt _ _)) by lia. run_step H. apply (input_putc_ok given got keys) in H as (Hw & _); [done|].
      apply (set_kbd_ok given got keys). done.
Qed.

Lemma serial_run_wf given got keys d : serial_run given got keys d → wf_dev given got keys d.
Proof.
  induction 1 as [d Hm Hl Hin Htx Hci Hct|? ? ? d c _ IH|? ? ? d l _ IH|? ? ? d d' _ IH H|? ? ? d byte r d' _ IH H
    |? ? ? d p old byte r d' _ IH Hm H|? ? ? d d' _ IH H|? ? ? d r d' _ IH H|? ? ? d p old r d' _ IH H
    |? ? ? new d d' _ IH H Hr|? ? ? d d' _ IH H].
  - split; [|intros Hq; congruence]. unfold d_uart. split; unfold d_uart; rewrite ?Hl, ?Hci, ?Hct; done.
  - by eapply wf_ext; [..|exact IH].
  - destruct IH as [[? ? ? ? ? ?] Hier]. by split.
  - by eapply init_queue_ok.
  - by eapply putc_ok.
  - by eapply enqueue_ok.
  - by eapply flush_ok.
  - by eapply getc_ok.
  - by eapply dequeue_ok.
  - destruct (serial_interrupt_ok _ _ _ _ _ _ IH H) as (new' & Hw & Hr'). rewrite Hr in Hr'. by apply app_inv_head in Hr' as ->.
  - by eapply keyboard_ok.
Qed.
End handlers.

(** C35: The serial line and the input buffer are queues. Whatever the order of
    calls and interrupts, what has been sent over the line followed by what waits in
    the transmit queue is what serial_putc was given; what input_getc has returned
    followed by what waits in the buffer is what the line and the keyboard have
    brought (a key that meets a full buffer is dropped, a byte of the line is left in
    the device). A thread sleeps in input_getc only while there is nothing to read,
    and in serial_putc only while there is no room, and while the queues need the
    device its interrupts are on. The calls of the run are those that end: a second
    thread that comes to wait for the same queue fails the ASSERT of intq.c
    (two_readers_panic). *)
Theorem serial_in_order given got keys d : serial_run given got keys d →
  sent (d_uart d) ++ contents (txq d) = given ∧
  got ++ contents (d_input d) = keys ∧
  (not_empty (d_input d) ≠ 0 → contents (d_input d) = []) ∧
  (not_full (txq d) ≠ 0 → zlength (contents (txq d)) = INTQ_BUFSIZE - 1) ∧
  (mode d = QUEUE → ∃ v, ier (d_uart d) = Some v ∧
     (contents (txq d) ≠ [] → Z.land v IER_XMIT ≠ 0) ∧
     (Z.land v IER_RECV ≠ 0 ↔ zlength (contents (d_input d)) < INTQ_BUFSIZE - 1)).
Proof.
  intros [[Hin Htx Hd Hs Hk Hi] Hier]%serial_run_wf. split_and!; [done|done|apply Hin|apply Htx|].
  intros Hm. destruct (Hier Hm) as (v & Hv & Hor). exists v. split; [done|].
  pose proof (contents_bound (d_input d)). unfold wanted in Hor.
  case_bool_decide as H1; case_bool_decide as H2; simpl in Hor; destruct Hor; subst v; simpl; split; try done; (split; [lia|done]) || (split; [done|lia]).
Qed.

(** ** Keyboard and serial line on examples

    A run of the devices to which the property of SerialSpec.v applies, and two
    readers of the keyboard that meet. *)

Definition empty_queue : intq := Intq 0 0 0 (replicate 64 0) 0 0.
Definition off (t : Z) : cpu := Cpu false false t [].
Definition on (t : Z) : cpu := Cpu true false t [].
Definition handler (t : Z) : cpu := Cpu false true t [].
Definition dev0 : dev :=
  Dev (on 1) (Ports [] []) empty_queue empty_queue UNINIT (Kbd false false false false false false false 0).

(** What a computation leaves, and its answer. *)
Definition after {A} (m : ST dev A) (d : dev) : dev := match m d with Done (_, d') => d' | _ => d end.
Definition said {A} (m : ST dev A) (d : dev) (a : A) : A := match m d with Done (a', _) => a' | _ => a end.

(** A byte is polled out; the queues are switched on; two bytes are queued; an
    interrupt brings in the byte 120 and sends one byte; the key A is pressed; a
    thread reads a key. *)
Definition d1 := after (serial_putc 65) (set_answers [0; 32] dev0).
Definition d2 := after serial_init_queue d1.
Definition d3 := after (serial_putc 66) d2.
Definition d4 := after (serial_putc 67) d3.
Definition d5 := after serial_interrupt (set_answers [0; 1; 120; 0; 32; 0] (set_cpu (handler 1) d4)).
Definition d6 := after keyboard_interrupt (set_answers [30] d5).
Definition d7 := after input_getc (set_cpu (on 1) d6).

Lemma serial_in_order_witness :
  serial_run [65; 66; 67] [120] [120; 97] d7 ∧
  sent (d_uart d7) ++ contents (txq d7) = [65; 66; 67] ∧ sent (d_uart d7) = [65; 66] ∧ contents (d_input d7) = [97] ∧
  ier (d_uart d7) = Some 3.
Proof.
  assert (Hr : serial_run [65; 66; 67] [120] [120; 97] d7).
  { apply (run_getc _ [] _ (set_cpu (on 1) d6) (Ret 120)); [apply run_cpu|by vm_compute].
    apply (run_kbd _ _ [120] (set_answers [30] d5)); [apply run_answers|by vm_compute].
    apply (run_serial _ _ [] [120] (set_answers [0; 1; 120; 0; 32; 0] (set_cpu (handler 1) d4))); [|by vm_compute|by vm_compute].
    apply run_answers, run_cpu. apply (run_putc [65; 66] _ _ d3 67 (Ret tt)); [|by vm_compute].
    apply (run_putc [65] _ _ d2 66 (Ret tt)); [|by vm_compute]. apply (run_init _ _ _ d1); [|by vm_compute].
    apply (run_putc [] _ _ (set_answers [0; 32] dev0) 65 (Ret tt)); [|by vm_compute]. apply run_answers.
    assert (Hq : wf_intq empty_queue) by (split; (by vm_compute) || done).
    by apply run_boot. }
  destruct (serial_in_order _ _ _ _ Hr) as (Hs & _). split; [exact Hr|]. split; [exact Hs|]. clear. vm_compute. auto.
Defined.

(** Two threads wait for keys: the first sleeps, the second waits for the lock. Two
    keys come in before the first runs; it takes one of them. The second gets the
    lock, and calls wait although there is a key: ASSERT fails. *)
Definition r1 := set_cpu (off 1) dev0.
Definition r2 := after (input_dequeue Call true) r1.
Definition r3 := after (input_dequeue Call true) (set_cpu (off 2) r2).
Definition r4 := after (input_putc 97) (set_cpu (handler 3) r3).
Definition r5 := after (input_putc 98) r4.
Definition r6 := after (input_dequeue InWait true) (set_cpu (off 1) r5).
Lemma two_readers_panic :
  said (input_dequeue Call true) r1 (Ret 0) = Sleeps ∧
  said (input_dequeue Call true) (set_cpu (off 2) r2) (Ret 0) = Queues ∧
  woken (d_cpu r4) = [1] ∧
  said (input_dequeue InWait true) (set_cpu (off 1) r5) (Ret 0) = Ret 97 ∧ contents (d_input r6) = [98] ∧
  input_dequeue InLock true (set_cpu (off 2) r6) = Panic.
Proof. by vm_compute. Qed.

(** Shift and Caps Lock. *)
Definition no_keys : kbd := Kbd false false false false false false false 0.
Example key_a : key_char no_keys 30 = Some 97. Proof. done. Qed.
Example key_A : key_char (shift_key 42 true no_keys) 30 = Some 65. Proof. done. Qed.
Example key_caps : key_char (set_caps true no_keys) 30 = Some 65. Proof. done. Qed.
Example key_ctrl_c : key_char (shift_key 29 true no_keys) 46 = Some 3. Proof. done. Qed.
Example key_shift_1 : key_char (shift_key 54 true no_keys) 2 = Some 33. Proof. done. Qed.
Example key_release : key_char no_keys (30 + 128) = None. Proof. done. Qed.
