(* ===== verification/Palloc.v ===== *)
(** * The page allocator (threads/palloc.c)

    Two pools of pages, each with a bitmap of the pages in use. The locks of the
    pools are not modelled: a function runs alone. *)
From stdpp Require Import base numbers list sets gmap.
From Stdlib Require Import ZArith Lia.
From S2P Require Import Prelude Bytes CString Bitmap.
Open Scope Z_scope.

(** ** Addresses of pages *)

Definition PGBITS : Z := 12.
Definition PGSIZE : Z := 4096.
Definition PGMASK : Z := PGSIZE - 1.
Definition pg_ofs (va : Z) : Z := Z.land va PGMASK.
Definition pg_no (va : Z) : Z := Z.shiftr va PGBITS.
Definition pg_round_up (va : Z) : Z := Z.land (u64 (va + PGSIZE - 1)) (Z.lnot PGMASK).
Definition pg_round_down (va : Z) : Z := Z.land va (Z.lnot PGMASK).

Lemma pg_ofs_mod va : pg_ofs va = va mod PGSIZE.
Proof. unfold pg_ofs, PGMASK, PGSIZE. change (4096 - 1) with (Z.ones 12). by rewrite Z.land_ones. Qed.
Lemma pg_no_div va : pg_no va = va / PGSIZE.
Proof. unfold pg_no, PGSIZE, PGBITS. by rewrite Z.shiftr_div_pow2. Qed.
Lemma land_lnot_mask va : Z.land va (Z.lnot PGMASK) = va - va mod PGSIZE.
Proof.
  rewrite <- pg_ofs_mod. unfold pg_ofs. pose proof (Z.land_ones va 12) as H.
  change PGMASK with (Z.ones 12). rewrite <- Z.ldiff_land, Z.ldiff_ones_r by lia.
  rewrite Z.land_ones, Z.shiftl_mul_pow2, Z.shiftr_div_pow2 by lia.
  pose proof (Z.div_mod va (2 ^ 12)). lia.
Qed.
Lemma pg_round_down_sub va : pg_round_down va = va - va mod PGSIZE.
Proof. apply land_lnot_mask. Qed.
Lemma pg_round_up_spec va : 0 <= va → va + PGSIZE <= 2 ^ 64 →
  va <= pg_round_up va < va + PGSIZE ∧ pg_round_up va mod PGSIZE = 0.
Proof.
  intros H0 H1. unfold pg_round_up. rewrite u64_small by (unfold PGSIZE in *; lia).
  rewrite land_lnot_mask. unfold PGSIZE in *. zdiv.
Qed.

(** ** Pools *)

(** enum palloc_flags *)
Definition PAL_ASSERT : Z := 1.
Definition PAL_ZERO : Z := 2.
Definition PAL_USER : Z := 4.

(** struct pool *)
Record pool := Pool { used_map : bitmap; base : Z }.

(** The two pools and the memory behind them. *)
Record ram := Ram { kernel_pool : pool; user_pool : pool; pg_mem : mem }.

Definition pool_of (user : bool) (pg : ram) : pool := if user then user_pool pg else kernel_pool pg.
Definition set_pool (user : bool) (p : pool) (pg : ram) : ram :=
  if user then Ram (kernel_pool pg) p (pg_mem pg) else Ram p (user_pool pg) (pg_mem pg).
Definition on_map {A} (user : bool) : ST bitmap A → ST ram A :=
  zoom (λ pg, used_map (pool_of user pg)) (λ b pg, set_pool user (Pool b (base (pool_of user pg))) pg).
Definition on_mem {A} : ST mem A → ST ram A :=
  zoom pg_mem (λ m pg, Ram (kernel_pool pg) (user_pool pg) m).

Definition page_from_pool (p : pool) (page : Z) : bool :=
  let start_page := pg_no (base p) in
  let end_page := u64 (start_page + bitmap_size (used_map p)) in
  (start_page <=? pg_no page) && (pg_no page <? end_page).

Definition palloc_get_multiple (flags page_cnt : Z) : ST ram Z :=
  let user := negb (Z.land flags PAL_USER =? 0) in
  page_idx ← on_map user (bitmap_scan_and_flip 0 page_cnt false);
  pg ← get_st;
  let pages := if negb (page_idx =? BITMAP_ERROR)
               then u64 (base (pool_of user pg) + PGSIZE * page_idx) else 0 in
  _ ← (if negb (pages =? 0) then
         if negb (Z.land flags PAL_ZERO =? 0)
         then _ ← on_mem (memset pages 0 (u64 (PGSIZE * page_cnt))); mret tt
         else mret tt
       else assert_st (Z.land flags PAL_ASSERT =? 0));
  mret pages.

Definition palloc_get_page (flags : Z) : ST ram Z := palloc_get_multiple flags 1.

Definition palloc_free_multiple (pages page_cnt : Z) : ST ram unit :=
  _ ← assert_st (pg_ofs pages =? 0);
  if (pages =? 0) || (page_cnt =? 0) then mret tt else
  pg ← get_st;
  _ ← assert_st (page_from_pool (kernel_pool pg) pages || page_from_pool (user_pool pg) pages);
  let user := negb (page_from_pool (kernel_pool pg) pages) in
  let page_idx := u64 (pg_no pages - pg_no (base (pool_of user pg))) in
  _ ← on_mem (memset pages 204 (u64 (PGSIZE * page_cnt)));
  all ← on_map user (bitmap_all page_idx page_cnt);
  _ ← assert_st all;
  on_map user (bitmap_set_multiple page_idx page_cnt false).

Definition palloc_free_page (page : Z) : ST ram unit := palloc_free_multiple page 1.

(** ** The state of the pools *)

Definition pool_end (p : pool) : Z := base p + PGSIZE * bit_cnt (used_map p).
Record wf_pool (m : mem) (p : pool) : Prop := {
  wp_map : wf_bitmap (used_map p);
  wp_base : 0 < base p ∧ base p mod PGSIZE = 0 ∧ pool_end p < 2 ^ 64;
  wp_mapped : ∀ a, base p <= a < pool_end p → is_Some (m !! a);
}.
Record wf_pages (pg : ram) : Prop := {
  wp_kernel : wf_pool (pg_mem pg) (kernel_pool pg);
  wp_user : wf_pool (pg_mem pg) (user_pool pg);
  wp_apart : pool_end (kernel_pool pg) <= base (user_pool pg) ∨ pool_end (user_pool pg) <= base (kernel_pool pg);
}.

(** The page at the address [a] belongs to the pool, and it is in use. *)
Definition in_pool (p : pool) (a : Z) : Prop := base p <= a < pool_end p.
Definition page_used (p : pool) (a : Z) : bool := bget (used_map p) ((a - base p) / PGSIZE).

(** The pages from [a] on, [cnt] of them, lie in the pool with the use [v]. *)
Definition run_of (p : pool) (a cnt : Z) (v : bool) : Prop :=
  a mod PGSIZE = 0 ∧ base p <= a ∧ a + PGSIZE * cnt <= pool_end p ∧
  ∀ b, a <= b < a + PGSIZE * cnt → page_used p b = v.

(** Only the use of the pages from [a] on has changed, to [v]. *)
Definition reused (user : bool) (pg pg' : ram) (a cnt : Z) (v : bool) : Prop :=
  base (pool_of user pg') = base (pool_of user pg) ∧
  bit_cnt (used_map (pool_of user pg')) = bit_cnt (used_map (pool_of user pg)) ∧
  pool_of (negb user) pg' = pool_of (negb user) pg ∧
  ∀ b, in_pool (pool_of user pg) b →
    page_used (pool_of user pg') b = if decide (a <= b < a + PGSIZE * cnt) then v else page_used (pool_of user pg) b.

(** The memory is as before but for [n] bytes from [a] on, which are [v]. *)
Definition wiped (m m' : mem) (a n v : Z) : Prop :=
  ∀ b, m' !! b = if decide (a <= b < a + n) then Some v else m !! b.

Section facts.
Implicit Types (pg : ram) (p : pool) (m : mem).

Lemma memset_wp m dst v n (Q : Z → mem → Prop) :
  0 < dst → 0 <= n → (∀ a, dst <= a < dst + n → is_Some (m !! a)) →
  (∀ m', wiped m m' dst n (u8 v) → Q dst m') → wp (memset dst v n) m Q.
Proof.
  intros Hd Hn Hm HQ. unfold memset, block_ok. wp_pure.
  wp_step; [by rewrite (proj2 (Z.eqb_neq _ _)) by lia|]. wp_pure. unfold times.
  apply (wp_loop (λ k st m', ∃ i, st = (dst + i, n - i) ∧ 0 <= i <= n ∧ k = Z.to_nat (n - i) ∧ wiped m m' dst i (u8 v))
    _ _ (Z.to_nat n)); [| |lia].
  - intros k st m' (i & -> & Hi & -> & Hw). unfold memset_step. destruct (Z.ltb_spec 0 (n - i)).
    + unfold store8. wp_pure. assert (is_Some (m' !! (dst + i))) as [x Hx].
      { rewrite Hw. destruct (decide _); [eauto|]. apply Hm. lia. }
      wp_step; [exact Hx|]. wp_pure. exists (Z.to_nat (n - (i + 1))). split; [lia|]. exists (i + 1).
      split; [f_equal; lia|]. split; [lia|]. split; [done|]. intros b.
      destruct (decide (b = dst + i)) as [->|Hne].
      * rewrite lookup_insert_eq, decide_True by lia. done.
      * rewrite lookup_insert_ne by done. rewrite Hw.
        destruct (decide (dst <= b < dst + i)); [by rewrite decide_True by lia|by rewrite decide_False by lia].
    + wp_pure. apply HQ. by replace n with i by lia.
  - exists 0. split; [f_equal; lia|]. split; [lia|]. split; [f_equal; lia|]. intros b. by rewrite decide_False by lia.
Qed.

Lemma wiped_mapped m m' a n v b : wiped m m' a n v → is_Some (m !! b) → is_Some (m' !! b).
Proof. intros Hw Hb. rewrite Hw. destruct (decide _); eauto. Qed.
Lemma wf_pool_mem m m' p : (∀ a, is_Some (m !! a) → is_Some (m' !! a)) → wf_pool m p → wf_pool m' p.
Proof. intros Hm [H1 H2 H3]. split; [done|done|]. intros a Ha. by apply Hm, H3. Qed.

(** The bits and the pages of a pool. *)
Lemma page_index p a : base p <= a → (a - base p) / PGSIZE * PGSIZE <= a - base p < (a - base p) / PGSIZE * PGSIZE + PGSIZE.
Proof. unfold PGSIZE. intros. zdiv. Qed.
Lemma index_in p a : in_pool p a → 0 <= (a - base p) / PGSIZE < bit_cnt (used_map p).
Proof. unfold in_pool, pool_end, PGSIZE. intros. zdiv. Qed.
Lemma group_run m p i cnt v :
  wf_pool m p → 0 <= i → 0 <= cnt → i + cnt <= bit_cnt (used_map p) → group (used_map p) i cnt v →
  run_of p (base p + PGSIZE * i) cnt v.
Proof.
  intros [_ (Hb & Hal & _) _] Hi Hc Hr Hg. unfold run_of, pool_end. split; [|split; [|split]].
  - unfold PGSIZE in *. zdiv.
  - unfold PGSIZE in *. lia.
  - unfold PGSIZE in *. lia.
  - intros b Hbr. apply Hg. unfold PGSIZE in *. zdiv.
Qed.
Lemma run_group m p a cnt v :
  wf_pool m p → run_of p a cnt v → 0 <= cnt →
  let i := (a - base p) / PGSIZE in
  a = base p + PGSIZE * i ∧ 0 <= i ∧ i + cnt <= bit_cnt (used_map p) ∧ group (used_map p) i cnt v.
Proof.
  intros [_ (Hb & Hal & _) _] (Hm & Hge & Hle & Hu) Hc i.
  assert (Hi : a = base p + PGSIZE * i) by (unfold i, PGSIZE in *; zdiv).
  split; [done|]. unfold pool_end, PGSIZE in *. split; [lia|]. split; [lia|]. intros j Hj.
  specialize (Hu (base p + 4096 * j)). unfold page_used, PGSIZE in Hu.
  replace (base p + 4096 * j - base p) with (j * 4096) in Hu by lia. rewrite Z.div_mul in Hu by lia. apply Hu. lia.
Qed.

Lemma pool_of_set user p pg : pool_of user (set_pool user p pg) = p.
Proof. by destruct user. Qed.
Lemma pool_of_set_other user p pg : pool_of (negb user) (set_pool user p pg) = pool_of (negb user) pg.
Proof. by destruct user. Qed.
Lemma pg_mem_set user p pg : pg_mem (set_pool user p pg) = pg_mem pg.
Proof. by destruct user. Qed.
Lemma wf_pool_of pg user : wf_pages pg → wf_pool (pg_mem pg) (pool_of user pg).
Proof. intros [? ? _]. by destruct user. Qed.

(** After the bits of a run have been set to [v]. *)
Lemma filled_reused pg user i cnt v b' :
  wf_pages pg → 0 <= i → 0 <= cnt → i + cnt <= bit_cnt (used_map (pool_of user pg)) →
  filled (used_map (pool_of user pg)) i cnt v b' →
  let pg' := set_pool user (Pool b' (base (pool_of user pg))) pg in
  wf_pages pg' ∧ reused user pg pg' (base (pool_of user pg) + PGSIZE * i) cnt v ∧ pg_mem pg' = pg_mem pg.
Proof.
  intros Hwf Hi Hc Hr (Hb & Hcnt & H1 & H2) pg'. pose proof (wf_pool_of pg user Hwf) as [Hw1 Hw2 Hw3].
  assert (Hend : ∀ q, q = Pool b' (base (pool_of user pg)) → pool_end q = pool_end (pool_of user pg)).
  { intros q ->. unfold pool_end. simpl. by rewrite Hcnt. }
  assert (Hp : wf_pool (pg_mem pg) (Pool b' (base (pool_of user pg)))).
  { split; [done| |].
    - rewrite Hend by done. done.
    - rewrite Hend by done. done. }
  split; [|split].
  - destruct Hwf as [Hk Hu Ha]. unfold pg'. destruct user; simpl in *; split; try done; simpl; rewrite (Hend _ eq_refl); done.
  - unfold pg', reused. rewrite pool_of_set, pool_of_set_other. split; [done|]. split; [done|]. split; [done|].
    intros b Hin. unfold page_used. simpl. pose proof (index_in _ _ Hin) as Hidx.
    assert (Hiff : (base (pool_of user pg) + PGSIZE * i <= b < base (pool_of user pg) + PGSIZE * i + PGSIZE * cnt) ↔
      i <= (b - base (pool_of user pg)) / PGSIZE < i + cnt) by (unfold PGSIZE in *; zdiv).
    destruct (decide _) as [Hd|Hd]; [apply H1; by apply Hiff|apply H2; [lia|]]. by rewrite <- Hiff.
  - by unfold pg'; rewrite pg_mem_set.
Qed.

Lemma page_from_pool_iff m p a : wf_pool m p → page_from_pool p a = true ↔ in_pool p a.
Proof.
  intros [[Hc _] (Hb & Hal & Hend) _]. unfold page_from_pool, in_pool, pool_end, bitmap_size in *.
  rewrite andb_true_iff, Z.leb_le, Z.ltb_lt, !pg_no_div. unfold PGSIZE in *.
  rewrite u64_small by zdiv. zdiv.
Qed.
Lemma pools_exclusive pg a : wf_pages pg → in_pool (kernel_pool pg) a → in_pool (user_pool pg) a → False.
Proof. intros [_ _ Ha]. unfold in_pool. lia. Qed.

(** Which pool palloc_free_multiple finds. *)
Lemma find_pool pg user a : wf_pages pg → in_pool (pool_of user pg) a →
  page_from_pool (kernel_pool pg) a || page_from_pool (user_pool pg) a = true ∧
  negb (page_from_pool (kernel_pool pg) a) = user.
Proof.
  intros Hwf Hin. pose proof (page_from_pool_iff _ _ a (wp_kernel _ Hwf)) as Hk.
  pose proof (page_from_pool_iff _ _ a (wp_user _ Hwf)) as Hu.
  destruct user; simpl in Hin.
  - destruct (page_from_pool (kernel_pool pg) a).
    + exfalso. apply (pools_exclusive pg a); [done| |done]. by apply Hk.
    + split; [by apply Hu|done].
  - rewrite (proj2 Hk Hin). done.
Qed.

Lemma wf_pages_mem pg m' : (∀ a, is_Some (pg_mem pg !! a) → is_Some (m' !! a)) →
  wf_pages pg → wf_pages (Ram (kernel_pool pg) (user_pool pg) m').
Proof. intros Hm [Hk Hu Ha]. split; [by apply (wf_pool_mem (pg_mem pg))|by apply (wf_pool_mem (pg_mem pg))|done]. Qed.

(** The memory of a run of pages may be written. *)
Lemma run_mapped pg user a cnt v b : wf_pages pg → run_of (pool_of user pg) a cnt v →
  a <= b < a + PGSIZE * cnt → is_Some (pg_mem pg !! b).
Proof.
  intros Hwf (_ & H1 & H2 & _) Hb. apply (wp_mapped _ _ (wf_pool_of pg user Hwf)). lia.
Qed.
Lemma run_pos pg user a cnt v : wf_pages pg → run_of (pool_of user pg) a cnt v → 0 <= cnt →
  0 < a ∧ a + PGSIZE * cnt < 2 ^ 64.
Proof. intros Hwf (_ & H1 & H2 & _) Hc. destruct (wf_pool_of pg user Hwf) as [_ (? & ? & ?) _]. lia. Qed.
Lemma reused_mem user pg pg' a cnt v m' :
  reused user pg pg' a cnt v → reused user pg (Ram (kernel_pool pg') (user_pool pg') m') a cnt v.
Proof. unfold reused. by destruct user. Qed.
Lemma reused_mem_l user pg pg' a cnt v m' :
  reused user (Ram (kernel_pool pg) (user_pool pg) m') pg' a cnt v → reused user pg pg' a cnt v.
Proof. unfold reused. by destruct user. Qed.

(** What getting pages does to the memory. *)
Definition got_mem (flags a cnt : Z) m m' : Prop :=
  if Z.land flags PAL_ZERO =? 0 then m' = m else wiped m m' a (PGSIZE * cnt) 0.

(** The pages [a] are handed out. *)
Definition got (flags : Z) pg (a cnt : Z) pg' : Prop :=
  let user := negb (Z.land flags PAL_USER =? 0) in
  a ≠ 0 ∧ wf_pages pg' ∧ run_of (pool_of user pg) a cnt false ∧
  (∀ b, run_of (pool_of user pg) b cnt false → a <= b) ∧
  reused user pg pg' a cnt true ∧ got_mem flags a cnt (pg_mem pg) (pg_mem pg').

Lemma palloc_get_cases pg flags cnt :
  wf_pages pg → 0 <= cnt →
  let user := negb (Z.land flags PAL_USER =? 0) in
  (∃ a pg', palloc_get_multiple flags cnt pg = Done (a, pg') ∧ got flags pg a cnt pg') ∨
  ((∀ b, ¬ run_of (pool_of user pg) b cnt false) ∧
   palloc_get_multiple flags cnt pg = if Z.land flags PAL_ASSERT =? 0 then Done (0, pg) else Panic).
Proof.
  intros Hwf Hc user. pose proof (wf_pool_of pg user Hwf) as Hp. pose proof (wb_cnt _ (wp_map _ _ Hp)) as Hcnt.
  assert (Hscan := bitmap_scan_and_flip_wp (used_map (pool_of user pg)) 0 cnt false (wp_map _ _ Hp) ltac:(lia) Hc).
  apply wp_run in Hscan as (i & b' & Hrun & [(Hi & Hr & Hg & Hmin & Hf)|(-> & -> & Hno)]).
  - left. destruct (filled_reused pg user i cnt true b' Hwf Hi Hc Hr Hf) as (Hwf' & Hre & Hmem).
    pose proof (group_run _ _ _ _ _ Hp Hi Hc Hr Hg) as Hrn.
    set (a := base (pool_of user pg) + PGSIZE * i) in *.
    set (pg1 := set_pool user (Pool b' (base (pool_of user pg))) pg) in *.
    destruct (run_pos pg user a cnt false Hwf Hrn Hc) as [Ha0 Haend].
    assert (Hfirst : ∀ b, run_of (pool_of user pg) b cnt false → a <= b).
    { intros b Hb. destruct (run_group _ _ _ _ _ Hp Hb Hc) as (Hbi & H1 & H2 & H3).
      destruct (decide (i <= (b - base (pool_of user pg)) / PGSIZE)); [unfold a, PGSIZE in *; lia|].
      exfalso. apply (Hmin ((b - base (pool_of user pg)) / PGSIZE)); [lia|done]. }
    apply wp_run. unfold palloc_get_multiple. fold user. wp_pure. unfold on_map. wp_pure.
    apply (wp_eq _ _ i b'); [exact Hrun|]. fold pg1. wp_pure.
    rewrite (proj2 (Z.eqb_neq i BITMAP_ERROR)) by (unfold BITMAP_ERROR; lia). simpl.
    replace (base (pool_of user pg1)) with (base (pool_of user pg)) by (by unfold pg1; rewrite pool_of_set).
    fold a. unfold PGSIZE in Haend. rewrite (u64_small a) by lia.
    rewrite (proj2 (Z.eqb_neq a 0)) by lia. simpl. unfold got. fold user. unfold got_mem.
    destruct (Z.land flags PAL_ZERO =? 0) eqn:Hz; simpl.
    + wp_pure. rewrite Hmem. split_and!; try done; lia.
    + rewrite (u64_small (PGSIZE * cnt)) by (unfold PGSIZE; lia). unfold on_mem. wp_pure.
      rewrite Hmem. apply memset_wp; [done|unfold PGSIZE; lia| |].
      { intros c. by apply (run_mapped pg user a cnt false). }
      intros m' Hw. change (u8 0) with 0 in Hw. wp_pure.
      split; [lia|]. split.
      { apply wf_pages_mem; [|done]. rewrite Hmem. intros c. by apply (wiped_mapped _ _ _ _ _ _ Hw). }
      split; [done|]. split; [done|]. split; [by apply reused_mem|done].
  - right. split.
    { intros b Hb. destruct (run_group _ _ _ _ _ Hp Hb Hc) as (_ & H1 & H2 & H3). by apply (Hno _ H1 H2). }
    unfold palloc_get_multiple. fold user. unfold on_map, zoom, mbind, st_bind. rewrite Hrun. simpl.
    assert (Hsame : set_pool user (Pool (used_map (pool_of user pg)) (base (pool_of user pg))) pg = pg).
    { destruct pg as [[] [] ?]. by destruct user. }
    rewrite Hsame. unfold assert_st. by destruct (Z.land flags PAL_ASSERT =? 0).
Qed.

(** The pages from [a] on, [cnt] of them, lie in the pool. *)
Definition range_of p (a cnt : Z) : Prop := a mod PGSIZE = 0 ∧ base p <= a ∧ a + PGSIZE * cnt <= pool_end p.

(** palloc_free_multiple from where it has cleared the pages. *)
Definition free_checked (user : bool) (i cnt : Z) : ST ram unit :=
  all ← on_map user (bitmap_all i cnt); _ ← assert_st all; on_map user (bitmap_set_multiple i cnt false).

Lemma palloc_free_clears pg user a cnt :
  wf_pages pg → 0 < cnt → range_of (pool_of user pg) a cnt →
  ∃ m', wiped (pg_mem pg) m' a (PGSIZE * cnt) 204 ∧
    wf_pages (Ram (kernel_pool pg) (user_pool pg) m') ∧
    palloc_free_multiple a cnt pg =
      free_checked user ((a - base (pool_of user pg)) / PGSIZE) cnt (Ram (kernel_pool pg) (user_pool pg) m').
Proof.
  intros Hwf Hc (Hal & Hge & Hle). pose proof (wf_pool_of pg user Hwf) as [_ (Hb & Hbal & Hend) Hmap].
  assert (Hin : in_pool (pool_of user pg) a) by (unfold in_pool, PGSIZE in *; lia).
  destruct (find_pool pg user a Hwf Hin) as [Hf1 Hf2].
  assert (Hms : wp (memset a 204 (PGSIZE * cnt)) (pg_mem pg) (λ r m', wiped (pg_mem pg) m' a (PGSIZE * cnt) 204)).
  { apply memset_wp; [lia|unfold PGSIZE; lia| |].
    - intros c Hcr. apply Hmap. lia.
    - intros m'. by change (u8 204) with 204. }
  apply wp_run in Hms as (r & m' & Hrun & Hw). exists m'. split; [done|]. split.
  { apply wf_pages_mem; [|done]. intros c. by apply (wiped_mapped _ _ _ _ _ _ Hw). }
  unfold palloc_free_multiple. rewrite pg_ofs_mod, Hal.
  rewrite (proj2 (Z.eqb_neq a 0)), (proj2 (Z.eqb_neq cnt 0)) by lia. simpl.
  unfold get_st, assert_st, on_mem, zoom, mbind, st_bind. simpl. rewrite Hf1, Hf2.
  rewrite (u64_small (PGSIZE * cnt)) by (unfold PGSIZE in *; lia). rewrite Hrun.
  replace (u64 (pg_no a - pg_no (base (pool_of user pg)))) with ((a - base (pool_of user pg)) / PGSIZE); [done|].
  rewrite !pg_no_div. unfold pool_end, PGSIZE in *. rewrite u64_small; zdiv.
Qed.

Lemma free_checked_cases pg user i cnt :
  wf_pages pg → 0 <= i → 0 <= cnt → i + cnt <= bit_cnt (used_map (pool_of user pg)) →
  (group (used_map (pool_of user pg)) i cnt true → ∃ b', filled (used_map (pool_of user pg)) i cnt false b' ∧
     free_checked user i cnt pg = Done (tt, set_pool user (Pool b' (base (pool_of user pg))) pg)) ∧
  (¬ group (used_map (pool_of user pg)) i cnt true → free_checked user i cnt pg = Panic).
Proof.
  intros Hwf Hi Hc Hr. pose proof (wp_map _ _ (wf_pool_of pg user Hwf)) as Hm.
  assert (Hall := bitmap_contains_wp _ i cnt false Hm Hi Hc Hr).
  apply wp_run in Hall as (r & b & Hrun & -> & Hiff).
  assert (Hsame : set_pool user (Pool (used_map (pool_of user pg)) (base (pool_of user pg))) pg = pg).
  { destruct pg as [[] [] ?]. by destruct user. }
  unfold free_checked, on_map, bitmap_all, zoom, assert_st, mbind, st_bind. rewrite Hrun. simpl. rewrite Hsame.
  split; intros Hg.
  - assert (r = false) as ->.
    { destruct r; [|done]. destruct (proj1 Hiff eq_refl) as (j & Hj & He). by rewrite (Hg j Hj) in He. }
    assert (Hset := bitmap_set_multiple_wp _ i cnt false Hm Hi Hc Hr).
    apply wp_run_unit in Hset as (b' & Hset & Hf). exists b'. split; [done|]. simpl. by rewrite Hset.
  - destruct r; [done|]. exfalso. apply Hg. intros j Hj. destruct (bget _ j) eqn:He; [done|].
    assert (false = true) by (apply Hiff; eauto). done.
Qed.

Lemma palloc_free_wp pg user a cnt :
  wf_pages pg → 0 < cnt → run_of (pool_of user pg) a cnt true →
  wp (palloc_free_multiple a cnt) pg (λ _ pg', wf_pages pg' ∧ reused user pg pg' a cnt false ∧
    wiped (pg_mem pg) (pg_mem pg') a (PGSIZE * cnt) 204).
Proof.
  intros Hwf Hc Hrn. destruct (run_group _ _ _ _ _ (wf_pool_of pg user Hwf) Hrn ltac:(lia)) as (Hai & H1 & H2 & H3).
  destruct (palloc_free_clears pg user a cnt Hwf Hc) as (m' & Hw & Hwf1 & Heq).
  { destruct Hrn as (? & ? & ? & _). done. }
  set (pg1 := Ram (kernel_pool pg) (user_pool pg) m') in *.
  assert (Hpool : pool_of user pg1 = pool_of user pg) by (by destruct user).
  rewrite <- Hpool in *. set (i := (a - base (pool_of user pg1)) / PGSIZE) in *.
  destruct (proj1 (free_checked_cases pg1 user i cnt Hwf1 H1 ltac:(lia) H2) H3) as (b' & Hf & Hrun).
  destruct (filled_reused pg1 user i cnt false b' Hwf1 H1 ltac:(lia) H2 Hf) as (Hwf' & Hre & Hmem).
  rewrite <- Hai in Hre. eapply wp_eq; [rewrite Heq; exact Hrun|].
  split; [done|]. split; [by apply reused_mem_l in Hre|]. by rewrite Hmem.
Qed.
(** *** Runs of pages, when others are taken or freed *)

Lemma run_keep pg pg' a cnt v a2 c2 w :
  reused false pg pg' a cnt v → run_of (kernel_pool pg) a2 c2 w → 0 <= c2 →
  a2 + PGSIZE * c2 <= a ∨ a + PGSIZE * cnt <= a2 → run_of (kernel_pool pg') a2 c2 w.
Proof.
  intros (Hb & Hc & _ & Hu) (H1 & H2 & H3 & H4) Hc2 Hd. simpl in *. unfold run_of, pool_end in *. rewrite Hb, Hc.
  split; [done|]. split; [done|]. split; [done|]. intros b Hbr.
  rewrite Hu by (unfold in_pool, pool_end; lia). rewrite decide_False by lia. by apply H4.
Qed.
Lemma run_set pg pg' a cnt v w :
  reused false pg pg' a cnt v → run_of (kernel_pool pg) a cnt w → run_of (kernel_pool pg') a cnt v.
Proof.
  intros (Hb & Hc & _ & Hu) (H1 & H2 & H3 & H4). simpl in *. unfold run_of, pool_end in *. rewrite Hb, Hc.
  split; [done|]. split; [done|]. split; [done|]. intros b Hbr.
  rewrite Hu by (unfold in_pool, pool_end; lia). by rewrite decide_True.
Qed.
(** A run of free pages and one of pages in use do not overlap. *)
Lemma runs_apart pg a c a2 c2 : 
  run_of (kernel_pool pg) a c false → run_of (kernel_pool pg) a2 c2 true → 0 < c → 0 < c2 →
  a + PGSIZE * c <= a2 ∨ a2 + PGSIZE * c2 <= a.
Proof.
  intros (H1 & _ & _ & H4) (H1' & _ & _ & H4') Hc Hc2. unfold PGSIZE in *.
  destruct (decide (a + 4096 * c <= a2)); [by left|]. destruct (decide (a2 + 4096 * c2 <= a)); [by right|].
  exfalso. specialize (H4 (Z.max a a2) ltac:(lia)). specialize (H4' (Z.max a a2) ltac:(lia)). congruence.
Qed.
End facts.

(** ** Properties *)

(** palloc_get_multiple hands out the first run of free pages of its pool,
    which is in use afterwards and cleared if PAL_ZERO asks for it, and changes
    nothing else; only if there is none it answers a null pointer, or panics
    under PAL_ASSERT. *)
Theorem palloc_get_multiple_spec pg flags cnt :
  wf_pages pg → 0 <= cnt →
  let user := negb (Z.land flags PAL_USER =? 0) in
  (∃ a pg', palloc_get_multiple flags cnt pg = Done (a, pg') ∧ got flags pg a cnt pg') ∨
  ((∀ b, ¬ run_of (pool_of user pg) b cnt false) ∧
   palloc_get_multiple flags cnt pg = if Z.land flags PAL_ASSERT =? 0 then Done (0, pg) else Panic).
Proof. apply palloc_get_cases. Qed.

(** palloc_free_multiple frees a run of pages in use and fills them with 0xcc;
    if one of the pages is free already, it panics. *)
Theorem palloc_free_multiple_spec pg user a cnt :
  wf_pages pg → 0 < cnt → range_of (pool_of user pg) a cnt →
  (run_of (pool_of user pg) a cnt true → ∃ pg', palloc_free_multiple a cnt pg = Done (tt, pg') ∧
     wf_pages pg' ∧ reused user pg pg' a cnt false ∧ wiped (pg_mem pg) (pg_mem pg') a (PGSIZE * cnt) 204) ∧
  ((∃ b, a <= b < a + PGSIZE * cnt ∧ page_used (pool_of user pg) b = false) →
     palloc_free_multiple a cnt pg = Panic).
Proof.
  intros Hwf Hc Hr. split.
  { intros Hrn. apply wp_run_unit. eapply wp_mono; [by apply palloc_free_wp|]. by intros [] pg'. }
  intros (b & Hb & Hfree). destruct (palloc_free_clears pg user a cnt Hwf Hc Hr) as (m' & _ & Hwf1 & ->).
  set (pg1 := Ram (kernel_pool pg) (user_pool pg) m') in *.
  assert (Hpool : pool_of user pg1 = pool_of user pg) by (by destruct user).
  pose proof (wf_pool_of pg user Hwf) as [_ (_ & Hbal & _) _]. destruct Hr as (Hal & Hge & Hle).
  unfold page_used in Hfree. rewrite <- Hpool in *. unfold pool_end in Hle.
  apply free_checked_cases; [done|unfold PGSIZE in *; zdiv|lia|unfold PGSIZE in *; zdiv|].
  intros Hg. rewrite Hg in Hfree; [done|]. unfold PGSIZE in *. zdiv.
Qed.
