(* ===== verification/PallocInit.v ===== *)
(** * Booting the page allocator (threads/palloc.c)

    palloc_init reads the memory map of the machine, splits the usable memory
    into two pools and frees the pages behind the kernel. The messages that it
    prints are left out. *)
From stdpp Require Import base numbers list sets gmap.
From Stdlib Require Import ZArith Lia.
From S2P Require Import Prelude Bytes CString Bitmap Palloc.
Open Scope Z_scope.

Definition KERN_BASE : Z := 549822922752. (* 0x8004000000 *)
Definition ptov (paddr : Z) : Z := u64 (paddr + KERN_BASE).

(** struct e820_entry *)
Record e820_entry := E820 { mem_lo : Z; mem_hi : Z; len_lo : Z; len_hi : Z; type_ : Z }.

(** struct area *)
Record area := Area { a_start : Z; a_end : Z; a_size : Z }.

Definition BASE_MEM_THRESHOLD : Z := 1048576.
Definition USABLE : Z := 1.
Definition ACPI_RECLAIMABLE : Z := 3.
Definition APPEND_HILO (hi lo : Z) : Z := u64 (u64 (Z.shiftl hi 32) + lo).

Definition usable (entry : e820_entry) : bool := (type_ entry =? ACPI_RECLAIMABLE) || (type_ entry =? USABLE).
Definition e_start (entry : e820_entry) : Z := APPEND_HILO (mem_hi entry) (mem_lo entry).
Definition e_size (entry : e820_entry) : Z := APPEND_HILO (len_hi entry) (len_lo entry).

Definition resolve_step (entry : e820_entry) (areas : area * area) : area * area :=
  if usable entry then
    let start := e_start entry in
    let size := e_size entry in
    let end_ := u64 (start + size) in
    let area := if start <? BASE_MEM_THRESHOLD then fst areas else snd areas in
    let area' := if a_size area =? 0 then Area start end_ size
                 else Area (if start <? a_start area then start else a_start area)
                           (if a_end area <? end_ then end_ else a_end area)
                           (u64 (a_size area + size)) in
    if start <? BASE_MEM_THRESHOLD then (area', snd areas) else (fst areas, area')
  else areas.

(** The areas of base and of extended memory. *)
Definition resolve_area_info (entries : list e820_entry) (areas : area * area) : area * area :=
  foldl (λ areas entry, resolve_step entry areas) areas entries.

(** Where the loop of populate_pools is. *)
Inductive claim_state := KERN_START | KERN | USER_START | USER.

(** The variables of populate_pools, and the pools as far as they are there. *)
Record claim := Claim {
  state : claim_state;
  rem : Z;
  region_start : Z;
  end_ : Z;
  free_start : Z;
  kernel : option pool;
  user : option pool;
}.

Section boot.
(** What the words of the memory hold, from an address on. *)
Context (buf : Z → list Z).

(** init_pool answers the pool and the new value of [*bm_base]. *)
Definition init_pool (bm_base start end_ : Z) : outcome (pool * Z) :=
  let pgcnt := u64 (end_ - start) / PGSIZE in
  let bm_pages := u64 (DIV_ROUND_UP (bitmap_buf_size pgcnt) PGSIZE * PGSIZE) in
  r ← bitmap_create_in_buf pgcnt (buf bm_base) bm_pages;
  r ← bitmap_set_all true (snd r);
  mret (Pool (snd r) start, u64 (bm_base + bm_pages)).

(** The part of the loop that begins where the kernel's memory ends. *)
Definition claim_kernel (user_pages start size_in_pg : Z) : ST claim unit :=
  s ← get_st;
  r ← lift_out (init_pool (free_start s) (region_start s) (u64 (start + rem s * PGSIZE)));
  modify (λ s,
    if rem s =? size_in_pg
    then Claim USER_START user_pages (region_start s) (end_ s) (snd r) (Some (fst r)) (user s)
    else Claim USER (u64 (user_pages - size_in_pg + rem s)) (u64 (start + rem s * PGSIZE)) (end_ s)
           (snd r) (Some (fst r)) (user s)).

Definition claim_step (user_pages : Z) (entry : e820_entry) : ST claim unit :=
  if usable entry then
    let start := ptov (e_start entry) in
    let size := e_size entry in
    let size_in_pg := size / PGSIZE in
    _ ← modify (λ s, Claim (state s) (rem s) (region_start s) (u64 (start + size)) (free_start s) (kernel s) (user s));
    _ ← modify (λ s, match state s with
                     | KERN_START => Claim KERN (rem s) start (end_ s) (free_start s) (kernel s) (user s)
                     | _ => s
                     end);
    s ← get_st;
    let less := Claim (state s) (u64 (rem s - size_in_pg)) (region_start s) (end_ s) (free_start s) (kernel s) (user s) in
    match state s with
    | KERN => if size_in_pg <? rem s then modify (λ _, less) else claim_kernel user_pages start size_in_pg
    | USER_START => modify (λ s, Claim USER (rem s) start (end_ s) (free_start s) (kernel s) (user s))
    | USER => if size_in_pg <? rem s then modify (λ _, less) else assert_st (rem s =? size)
    | KERN_START => panic
    end
  else mret tt.

(** A pool of the boot, by number; its bits may be set before it is there only
    by undefined behaviour. *)
Definition on_pool {A} (user_ : bool) (m : ST bitmap A) : ST claim A :=
  s ← get_st;
  p ← deref (if user_ then user s else kernel s);
  r ← lift_out (m (used_map p));
  _ ← modify (λ s, if user_
    then Claim (state s) (rem s) (region_start s) (end_ s) (free_start s) (kernel s) (Some (Pool (snd r) (base p)))
    else Claim (state s) (rem s) (region_start s) (end_ s) (free_start s) (Some (Pool (snd r) (base p))) (user s));
  mret (fst r).

(** From the label [split] on. *)
Definition split_step (end_ start : Z) : ST claim (Z + unit) :=
  s ← get_st;
  k ← deref (kernel s);
  u ← deref (user s);
  let in_kernel := page_from_pool k start in
  _ ← assert_st (in_kernel || page_from_pool u start);
  let p := if in_kernel then k else u in
  let pool_end := u64 (base p + bitmap_size (used_map p) * PGSIZE) in
  let page_idx := u64 (pg_no start - pg_no (base p)) in
  if pool_end <? end_ then
    let page_cnt := u64 (pool_end - start) / PGSIZE in
    _ ← on_pool (negb in_kernel) (bitmap_set_multiple page_idx page_cnt false);
    mret (inl pool_end)
  else
    let page_cnt := u64 (end_ - start) / PGSIZE in
    _ ← on_pool (negb in_kernel) (bitmap_set_multiple page_idx page_cnt false);
    mret (inr tt).

Definition free_step (usable_bound : Z) (entry : e820_entry) : ST claim unit :=
  if usable entry then
    let start := ptov (e_start entry) in
    let size := e_size entry in
    let end_ := u64 (start + size) in
    if end_ <? usable_bound then mret tt else
    loop 4 (split_step end_) (pg_round_up (if usable_bound <=? start then start else usable_bound))
  else mret tt.

(** The two loops over the memory map. *)
Definition populate (entries : list e820_entry) (user_pages : Z) : ST claim unit :=
  _ ← for_st (λ entry _, claim_step user_pages entry) entries tt;
  s ← get_st;
  r ← lift_out (init_pool (free_start s) (region_start s) (end_ s));
  _ ← modify (λ s, Claim (state s) (rem s) (region_start s) (end_ s) (snd r) (kernel s) (Some (fst r)));
  for_st (λ entry _, free_step (snd r) entry) entries tt.

(** [kernel_end] is the symbol [_end] of the linker script. *)
Definition populate_pools (entries : list e820_entry) (kernel_end user_page_limit : Z) (base_mem ext_mem : area) :
    outcome (unit * claim) :=
  let total_pages := u64 (a_size base_mem + a_size ext_mem) / PGSIZE in
  let user_pages := if user_page_limit <? total_pages / 2 then user_page_limit else total_pages / 2 in
  let kern_pages := u64 (total_pages - user_pages) in
  populate entries user_pages (Claim KERN_START kern_pages 0 0 (pg_round_up kernel_end) None None).

Definition palloc_init (entries : list e820_entry) (kernel_end user_page_limit : Z) : outcome (Z * claim) :=
  let areas := resolve_area_info entries (Area 0 0 0, Area 0 0 0) in
  r ← populate_pools entries kernel_end user_page_limit (fst areas) (snd areas);
  mret (a_end (snd areas), snd r).
End boot.


(** ** What the steps compute *)

(** A pool of [n] pages from [start] on, of which page [j] is in use when [f j]. *)
Definition pool_with (p : pool) (start n : Z) (f : Z → bool) : Prop :=
  base p = start ∧ bit_cnt (used_map p) = n ∧ wf_bitmap (used_map p) ∧
  ∀ j, 0 <= j < n → bget (used_map p) j = f j.

(** The bytes that the bitmap of a pool takes. *)
Definition bm_bytes (n : Z) : Z := DIV_ROUND_UP (bitmap_buf_size n) PGSIZE * PGSIZE.

Lemma bm_bytes_bound n : 0 <= n → PGSIZE <= bm_bytes n <= n + 4200 ∧ bm_bytes n mod PGSIZE = 0.
Proof.
  intros Hn. unfold bm_bytes, bitmap_buf_size, byte_cnt, elem_cnt, DIV_ROUND_UP, ELEM_BITS, PGSIZE. zdiv.
Qed.

Section facts.
Implicit Types (p k u : pool) (s : claim) (start n : Z).

Lemma init_pool_done buf bm start n :
  0 <= bm < 2 ^ 62 → 0 <= start → 0 <= n → start + n * PGSIZE < 2 ^ 62 → elem_cnt n <= zlength (buf bm) →
  ∀ end_, start + n * PGSIZE <= end_ < start + n * PGSIZE + PGSIZE →
  ∃ p, init_pool buf bm start end_ = Done (p, bm + bm_bytes n) ∧ pool_with p start n (λ _, true).
Proof.
  intros Hbm Hs Hn Hlt Hbuf end_ He. unfold PGSIZE in *. unfold init_pool.
  replace (u64 (end_ - start) / PGSIZE) with n by (rewrite u64_small by lia; unfold PGSIZE; apply Z.div_unique_pos with (end_ - start - n * 4096); lia).
  fold (bm_bytes n). pose proof (bm_bytes_bound n Hn) as [Hb _]. unfold PGSIZE in Hb. 
  rewrite (u64_small (bm_bytes n)), (u64_small (bm + bm_bytes n)) by lia.
  assert (Hfit : bitmap_buf_size n <=? bm_bytes n = true).
  { apply Z.leb_le. unfold bm_bytes, DIV_ROUND_UP, PGSIZE. zdiv. }
  unfold bitmap_create_in_buf. rewrite Hfit.
  set (b0 := Bitmap n (buf bm)). assert (Hwf0 : wf_bitmap b0) by (split; simpl; [lia|done]).
  assert (Hall : ∀ b v, wf_bitmap b → bit_cnt b = n → ∃ b', bitmap_set_all v b = Done (tt, b') ∧ filled b 0 n v b').
  { intros b v Hwf Hc. apply wp_run_unit. unfold bitmap_set_all, bitmap_size. wp_pure. rewrite Hc.
    by apply bitmap_set_multiple_wp; rewrite ?Hc. }
  destruct (Hall b0 false Hwf0 eq_refl) as (b1 & -> & Hwf1 & Hc1 & _). simpl in *.
  destruct (Hall b1 true Hwf1 Hc1) as (b2 & -> & Hwf2 & Hc2 & H1 & _). simpl.
  eexists. split; [done|]. split; [done|]. split; [simpl; congruence|]. split; [done|]. simpl. intros j Hj. apply H1. lia.
Qed.

Lemma for_skip {T} (f : e820_entry → ST T unit) l (t : T) :
  (∀ e t, usable e = false → f e t = Done (tt, t)) →
  for_st (λ e _, f e) l tt t = for_st (λ e _, f e) (filter (λ e, usable e = true) l) tt t.
Proof.
  intros Hf. revert t. induction l as [|e l IH]; intros t; [done|]. rewrite filter_cons.
  destruct (decide _) as [Hu|Hu]; simpl; unfold mbind, st_bind.
  - destruct (f e t) as [[[] t']| | |]; [apply IH|done..].
  - rewrite (Hf e t) by (by destruct (usable e)). apply IH.
Qed.
Lemma wp_two {T} (f : e820_entry → ST T unit) l e1 e2 (t : T) Q :
  (∀ e t, usable e = false → f e t = Done (tt, t)) → filter (λ e, usable e = true) l = [e1; e2] →
  wp (f e1) t (λ _ t', wp (f e2) t' Q) → wp (for_st (λ e _, f e) l tt) t Q.
Proof.
  intros Hf Hl Hwp. unfold wp at 1. rewrite for_skip, Hl by done.
  change (wp (for_st (λ e _, f e) [e1; e2] tt) t Q). simpl. wp_pure.
  eapply wp_mono; [exact Hwp|]. intros [] t' Ht. wp_pure.
  eapply wp_mono; [exact Ht|]. by intros [].
Qed.
Lemma resolve_skip l areas :
  resolve_area_info l areas = resolve_area_info (filter (λ e, usable e = true) l) areas.
Proof.
  unfold resolve_area_info. revert areas. induction l as [|e l IH]; intros areas; [done|]. rewrite filter_cons.
  destruct (decide _) as [Hu|Hu]; simpl; [apply IH|]. rewrite <- IH. f_equal.
  unfold resolve_step. by destruct (usable e).
Qed.

(** The range of the memory that belongs to a pool. *)
Lemma from_pool_with p start n f a :
  pool_with p start n f → start mod PGSIZE = 0 → 0 <= start → start + n * PGSIZE < 2 ^ 62 →
  page_from_pool p a = true ↔ start <= a < start + n * PGSIZE.
Proof.
  intros (<- & <- & [Hc _] & _) Hal Hs Hlt. unfold page_from_pool, bitmap_size.
  rewrite andb_true_iff, Z.leb_le, Z.ltb_lt, !pg_no_div. unfold PGSIZE in *. rewrite u64_small by zdiv. zdiv.
Qed.

Lemma on_pool_wp (user_ : bool) s p n start f i cnt :
  (if user_ then user s else kernel s) = Some p → pool_with p start n f →
  0 <= i → 0 <= cnt → i + cnt <= n →
  wp (on_pool user_ (bitmap_set_multiple i cnt false)) s (λ _ s',
    ∃ p', pool_with p' start n (λ j, if decide (i <= j < i + cnt) then false else f j) ∧
      s' = if user_ then Claim (state s) (rem s) (region_start s) (end_ s) (free_start s) (kernel s) (Some p')
           else Claim (state s) (rem s) (region_start s) (end_ s) (free_start s) (Some p') (user s)).
Proof.
  intros Hp (Hb & Hc & Hwf & Hf) Hi Hcnt Hr. unfold on_pool. wp_pure. wp_step; [exact Hp|]. wp_pure.
  assert (Hset := bitmap_set_multiple_wp (used_map p) i cnt false Hwf Hi Hcnt ltac:(lia)).
  apply wp_run_unit in Hset as (b' & Hrun & Hwf' & Hc' & H1 & H2).
  rewrite Hrun. unfold lift_out, wp. simpl. exists (Pool b' (base p)). split; [|done].
  split; [done|]. split; [simpl; congruence|]. split; [done|]. simpl. intros j Hj.
  destruct (decide _) as [Hd|Hd]; [by apply H1|]. rewrite H2 by (lia || done). by apply Hf.
Qed.
Lemma aligned_diff a b : 0 <= a <= b → b < 2 ^ 62 → a mod PGSIZE = 0 → b mod PGSIZE = 0 →
  ∃ i, b = a + i * PGSIZE ∧ 0 <= i ∧ u64 (b / PGSIZE - a / PGSIZE) = i.
Proof.
  intros. exists (b / PGSIZE - a / PGSIZE). unfold PGSIZE in *. rewrite u64_small by zdiv. zdiv.
Qed.
Lemma aligned_pages a b : 0 <= a <= b → b < 2 ^ 62 → a mod PGSIZE = 0 → b mod PGSIZE = 0 →
  ∃ c, b = a + c * PGSIZE ∧ 0 <= c ∧ u64 (b - a) / PGSIZE = c.
Proof.
  intros. exists ((b - a) / PGSIZE). rewrite u64_small by lia. unfold PGSIZE in *. zdiv.
Qed.


(** One round from the label [split] on: the pages from [start] to the end of
    the pool or of the region become free. *)
Lemma split_step_wp (user_ : bool) s k u p pstart n f start stop e :
  kernel s = Some k → user s = Some u → p = (if user_ then u else k) →
  page_from_pool k start = negb user_ →
  pool_with p pstart n f → 0 <= pstart → pstart mod PGSIZE = 0 → pstart + n * PGSIZE < 2 ^ 62 →
  pstart <= start < pstart + n * PGSIZE → start mod PGSIZE = 0 →
  stop = Z.min (pstart + n * PGSIZE) e → start <= e → stop mod PGSIZE = 0 →
  wp (split_step e start) s (λ r s', ∃ p',
    pool_with p' pstart n (λ j, if decide (start <= pstart + j * PGSIZE < stop) then false else f j) ∧
    kernel s' = Some (if user_ then k else p') ∧ user s' = Some (if user_ then p' else u) ∧
    r = if pstart + n * PGSIZE <? e then inl stop else inr tt).
Proof.
  intros Hk Hu Hp Hfk Hpw H0 Hal Hlt Hst Hsal Hstop Hse Hstal.
  unfold split_step. wp_pure. wp_step; [exact Hk|]. wp_pure. wp_step; [exact Hu|]. wp_pure. rewrite Hfk.
  assert (Hfp : page_from_pool p start = true) by (by apply (from_pool_with _ _ _ _ _ Hpw)).
  wp_step; [destruct user_; [by rewrite Hp in Hfp|done]|].
  assert (Hpp : (if negb user_ then k else u) = p) by (by destruct user_). rewrite Hpp.
  pose proof Hpw as (Hb & Hn & _). unfold bitmap_size. rewrite Hb, Hn.
  rewrite (u64_small (pstart + n * PGSIZE)) by (unfold PGSIZE in *; lia). rewrite !pg_no_div.
  destruct (aligned_diff pstart start) as (i & Hi & Hi0 & ->); [lia..|].
  destruct (aligned_pages start stop) as (c & Hc & Hc0 & Hcu); [lia..|].
  assert (Hset : ∀ r, wp (_ ← on_pool (negb (negb user_)) (bitmap_set_multiple i c false); mret r) s (λ r' s', ∃ p',
    pool_with p' pstart n (λ j, if decide (start <= pstart + j * PGSIZE < stop) then false else f j) ∧
    kernel s' = Some (if user_ then k else p') ∧ user s' = Some (if user_ then p' else u) ∧ r' = (r : Z + unit))).
  { intros r. rewrite negb_involutive. wp_pure. 
    eapply wp_mono; [apply (on_pool_wp user_ s p n pstart f i c)|].
    - by destruct user_; rewrite Hp.
    - done.
    - done.
    - done.
    - unfold PGSIZE in *. lia.
    - intros [] s' (p' & (Hb' & Hn' & Hw' & Hf') & ->). wp_pure. exists p'. split; [|by destruct user_].
      split; [done|]. split; [done|]. split; [done|]. intros j Hj. rewrite Hf' by done.
      unfold PGSIZE in *. by destruct (decide _), (decide _); try lia. }
  destruct (Z.ltb_spec (pstart + n * PGSIZE) e).
  - replace (pstart + n * PGSIZE) with stop by lia. rewrite Hcu. apply Hset.
  - replace e with stop by lia. rewrite Hcu. apply Hset.
Qed.
End facts.

(** ** A machine with base memory and one region of extended memory *)

(** The shape of the memory map that the theorem below is about: one usable
    region of base memory, one of extended memory that holds the kernel, and
    half of the pages, or [user_page_limit] of them, for the users. *)
Record two_regions (buf : Z → list Z) (entries : list e820_entry) (kernel_end user_page_limit : Z)
    (s1 n1 s2 n2 kern : Z) : Prop := {
  tr_usable : ∃ e1 e2, filter (λ e, usable e = true) entries = [e1; e2] ∧
    e_start e1 = s1 ∧ e_size e1 = n1 ∧ e_start e2 = s2 ∧ e_size e2 = n2;
  tr_base : 0 <= s1 ∧ s1 mod PGSIZE = 0 ∧ 0 < n1 ∧ s1 < BASE_MEM_THRESHOLD ∧ s1 + n1 <= s2;
  tr_ext : BASE_MEM_THRESHOLD <= s2 ∧ s2 mod PGSIZE = 0 ∧ n2 mod PGSIZE = 0 ∧ s2 + n2 < 2 ^ 60;
  (** [kern] pages of the extended memory go to the kernel pool. *)
  tr_kern : kern = (n1 + n2) / PGSIZE - Z.min user_page_limit ((n1 + n2) / PGSIZE / 2) - n1 / PGSIZE ∧
    0 < kern < n2 / PGSIZE ∧ 0 <= user_page_limit < 2 ^ 64;
  tr_end : ptov s2 <= kernel_end < 2 ^ 61;
  tr_buf : ∀ a, elem_cnt (s2 + n2) <= zlength (buf a);
}.

(** The first address that is free: behind the kernel and the two bitmaps. *)
Definition first_free (kernel_end s1 s2 n2 kern : Z) : Z :=
  pg_round_up kernel_end + bm_bytes ((s2 - s1) / PGSIZE + kern) + bm_bytes (n2 / PGSIZE - kern).

Section two_regions.
Context (buf : Z → list Z) (entries : list e820_entry) (kernel_end user_page_limit s1 n1 s2 n2 kern : Z).
Hypothesis Htr : two_regions buf entries kernel_end user_page_limit s1 n1 s2 n2 kern.
Hypothesis Hroom : first_free kernel_end s1 s2 n2 kern < ptov s2 + kern * PGSIZE.
Abbreviation kpages := ((s2 - s1) / PGSIZE + kern).
Abbreviation upages := (n2 / PGSIZE - kern).
Abbreviation bound := (first_free kernel_end s1 s2 n2 kern).
Abbreviation mid := (ptov s2 + kern * PGSIZE).

Lemma ptov_small a : 0 <= a < 2 ^ 61 → ptov a = a + KERN_BASE.
Proof. intros. unfold ptov. apply u64_small. unfold KERN_BASE. lia. Qed.

Lemma tr_sizes :
  mid = ptov s1 + kpages * PGSIZE ∧ ptov (s2 + n2) = mid + upages * PGSIZE ∧
  0 < kpages ∧ 0 < upages ∧ kpages < s2 + n2 ∧ upages < s2 + n2.
Proof.
  destruct Htr as [_ (? & ? & ? & ? & ?) (? & ? & ? & ?) (? & ? & ?) _ _].
  unfold PGSIZE, BASE_MEM_THRESHOLD in *. assert (0 < n2) by zdiv. rewrite !ptov_small by lia.
  split; [zdiv|]. split; [zdiv|]. zdiv.
Qed.
Lemma elem_cnt_mono a b : a <= b → elem_cnt a <= elem_cnt b.
Proof. intros. unfold elem_cnt, DIV_ROUND_UP, ELEM_BITS. apply Z.div_le_mono; lia. Qed.
Lemma tr_bound : ptov s2 <= pg_round_up kernel_end ∧ pg_round_up kernel_end < 2 ^ 61 + PGSIZE ∧
  bound mod PGSIZE = 0 ∧ pg_round_up kernel_end + bm_bytes kpages + bm_bytes upages = bound ∧
  PGSIZE <= bm_bytes kpages ∧ PGSIZE <= bm_bytes upages.
Proof.
  destruct tr_sizes as (_ & _ & ? & ? & _). pose proof (tr_end _ _ _ _ _ _ _ _ _ Htr) as He.
  assert (0 <= ptov s2) by apply u64_range.
  destruct (pg_round_up_spec kernel_end) as [Hr1 Hr2]; [lia|unfold PGSIZE; lia|].
  destruct (bm_bytes_bound kpages) as [? Hm1]; [lia|]. destruct (bm_bytes_bound upages) as [? Hm2]; [lia|].
  unfold first_free. split; [lia|]. split; [lia|]. split; [|lia].
  rewrite Z.add_mod, (Z.add_mod (pg_round_up kernel_end)), Hr2, Hm1, Hm2 by (unfold PGSIZE; lia). done.
Qed.

Lemma claim_base e1 kp up fs : usable e1 = true → e_start e1 = s1 → e_size e1 = n1 → n1 / PGSIZE < kp < 2 ^ 64 →
  claim_step buf up e1 (Claim KERN_START kp 0 0 fs None None)
    = Done (tt, Claim KERN (kp - n1 / PGSIZE) (ptov s1) (ptov s1 + n1) fs None None).
Proof.
  intros Hu Hs Hn Hkp. apply wp_run_eq. unfold claim_step. rewrite Hu, Hs, Hn. wp_pure. simpl.
  rewrite (proj2 (Z.ltb_lt _ _)) by lia. wp_pure. split; [done|].
  destruct Htr as [_ (? & ? & ? & ? & ?) (? & ? & ? & ?) (_ & ? & _) _ _].
  assert (0 < n2) by (unfold PGSIZE in *; zdiv). rewrite !ptov_small by lia.
  rewrite !u64_small; [done| |]; unfold PGSIZE, KERN_BASE in *; zdiv.
Qed.

Lemma claim_ext e2 up fs s_end : usable e2 = true → e_start e2 = s2 → e_size e2 = n2 → 0 <= fs < 2 ^ 62 →
  wp (claim_step buf up e2) (Claim KERN kern (ptov s1) s_end fs None None) (λ _ s, ∃ k rem_,
    pool_with k (ptov s1) kpages (λ _, true) ∧
    s = Claim USER rem_ mid (ptov (s2 + n2)) (fs + bm_bytes kpages) (Some k) None).
Proof.
  intros Hu Hs Hn Hfs. destruct tr_sizes as (Hmid & Htop & H1 & H2 & H3 & H4).
  destruct Htr as [_ (? & ? & ? & ? & ?) (? & ? & ? & ?) (_ & Hk & _) _ Hbuf].
  assert (Hn2 : 0 < n2) by (unfold PGSIZE in *; zdiv).
  assert (Hp : ptov s2 = s2 + KERN_BASE ∧ ptov (s2 + n2) = s2 + n2 + KERN_BASE ∧ ptov s1 = s1 + KERN_BASE)
    by (rewrite !ptov_small by lia; done). destruct Hp as (Hp2 & Hpe & Hp1).
  assert (Hrange : mid < 2 ^ 62 ∧ 0 <= mid ∧ n2 / PGSIZE * PGSIZE <= n2).
  { rewrite Hp2. unfold PGSIZE, KERN_BASE in *. zdiv. }
  unfold claim_step. rewrite Hu, Hs, Hn. wp_pure. simpl.
  rewrite (proj2 (Z.ltb_ge _ _)) by lia. unfold claim_kernel. wp_pure. simpl.
  rewrite (u64_small mid) by lia.
  destruct (init_pool_done buf fs (ptov s1) kpages Hfs ltac:(rewrite Hp1; unfold KERN_BASE; lia) ltac:(lia)
    ltac:(rewrite <- Hmid; lia)) with (end_ := mid) as (k & Hrun & Hk').
  { etrans; [|apply Hbuf]. apply elem_cnt_mono. lia. }
  { rewrite <- Hmid. unfold PGSIZE. lia. }
  rewrite Hrun. apply (wp_eq _ _ (k, fs + bm_bytes kpages) _ _ eq_refl). wp_pure. simpl.
  rewrite (proj2 (Z.eqb_neq kern (n2 / PGSIZE))) by lia.
  exists k, (u64 (up - n2 / PGSIZE + kern)). split; [done|].
  rewrite (u64_small mid) by lia.
  rewrite (u64_small (ptov s2 + n2)), Hpe by (rewrite Hp2; unfold KERN_BASE; lia).
  f_equal. lia.
Qed.

Lemma round_aligned a : 0 <= a → a + PGSIZE <= 2 ^ 64 → a mod PGSIZE = 0 → pg_round_up a = a.
Proof. intros H1 H2 H3. destruct (pg_round_up_spec a H1 H2) as [H4 H5]. unfold PGSIZE in *. zdiv. Qed.

Lemma free_base e1 s : usable e1 = true → e_start e1 = s1 → e_size e1 = n1 → free_step bound e1 s = Done (tt, s).
Proof.
  intros Hu Hs Hn. apply wp_run_eq. unfold free_step. rewrite Hu, Hs, Hn.
  destruct tr_bound as (Hb1 & _ & _ & Hb2 & Hb3 & Hb4).
  destruct Htr as [_ (? & ? & ? & ? & ?) (? & ? & ? & ?) (_ & ? & _) _ _].
  assert (0 < n2) by (unfold PGSIZE in *; zdiv). rewrite !ptov_small in * by lia.
  rewrite u64_small by (unfold KERN_BASE; lia). rewrite (proj2 (Z.ltb_lt _ _)) by (unfold PGSIZE in *; lia).
  by wp_pure.
Qed.

Lemma free_ext e2 s k u :
  usable e2 = true → e_start e2 = s2 → e_size e2 = n2 → kernel s = Some k → user s = Some u →
  pool_with k (ptov s1) kpages (λ _, true) → pool_with u mid upages (λ _, true) →
  wp (free_step bound e2) s (λ _ s', ∃ k' u', kernel s' = Some k' ∧ user s' = Some u' ∧
    pool_with k' (ptov s1) kpages (λ j, ptov s1 + j * PGSIZE <? bound) ∧ pool_with u' mid upages (λ _, false)).
Proof.
  intros Hu Hs Hn Hks Hus Hk Hup. unfold free_step. rewrite Hu, Hs, Hn.
  destruct tr_bound as (Hb1 & _ & Hbm & Hb2 & Hb3 & Hb4). destruct tr_sizes as (Hmid & Htop & Hn1 & Hn2 & _).
  destruct Htr as [_ (? & Hm1 & ? & ? & ?) (? & Hm2 & Hmn & ?) (_ & Hkern & _) _ _].
  assert (0 < n2) by (unfold PGSIZE in *; zdiv).
  assert (Hp1 : ptov s1 = s1 + KERN_BASE) by (apply ptov_small; lia).
  assert (Hp2 : ptov s2 = s2 + KERN_BASE) by (apply ptov_small; lia).
  assert (Hpe : ptov (s2 + n2) = ptov s2 + n2) by (rewrite !ptov_small by lia; lia).
  assert (Hlt : ptov s2 + n2 < 2 ^ 62) by (rewrite Hp2; unfold KERN_BASE; lia).
  assert (Hkb : KERN_BASE mod PGSIZE = 0 ∧ 0 <= KERN_BASE) by done.
  assert (Hal : ptov s1 mod PGSIZE = 0 ∧ 0 <= ptov s1 ∧ mid mod PGSIZE = 0 ∧ 0 <= mid).
  { rewrite Hp1, Hp2. unfold PGSIZE in *. zdiv. }
  assert (Hin : ptov s1 <= bound ∧ ptov s2 < bound) by (rewrite Hp1, Hp2 in *; unfold PGSIZE in *; lia).
  rewrite Hpe in Htop. assert (Hup1 : 0 < PGSIZE ∧ PGSIZE <= upages * PGSIZE) by (unfold PGSIZE in *; lia).
  rewrite (u64_small (ptov s2 + n2)) by lia. wp_pure.
  rewrite (proj2 (Z.ltb_ge _ _)) by lia. rewrite (proj2 (Z.leb_gt _ _)) by lia.
  rewrite round_aligned; [|lia|unfold PGSIZE in *; lia|done].
  pose proof (from_pool_with k _ _ _ bound Hk ltac:(apply Hal) ltac:(apply Hal) ltac:(lia)) as Hf1.
  change 4%nat with (S 3). rewrite loop_S. wp_pure.
  eapply wp_mono; [apply (split_step_wp false s k u k (ptov s1) kpages (λ _, true) bound mid); try done; try lia|].
  { apply Hf1. lia. }
  intros r s' (k' & Hk' & Hks' & Hus' & ->). rewrite <- Hmid, (proj2 (Z.ltb_lt _ _)) by lia. rewrite loop_S. wp_pure.
  pose proof (from_pool_with k' _ _ _ mid Hk' ltac:(apply Hal) ltac:(apply Hal) ltac:(lia)) as Hf2.
  eapply wp_mono; [apply (split_step_wp true s' k' u u mid upages (λ _, true) mid (ptov s2 + n2)); try done; try lia|].
  { apply not_true_is_false. rewrite Hf2. lia. }
  { rewrite Htop, Z.add_mod by done. destruct Hal as (_ & _ & -> & _). by rewrite Z.mod_mul. }
  intros r s2' (u' & Hu' & Hks2 & Hus2 & ->). rewrite <- Htop, (proj2 (Z.ltb_ge _ _)) by lia. wp_pure.
  exists k', u'. split; [done|]. split; [done|]. destruct Hk' as (? & ? & ? & Hfk), Hu' as (? & ? & ? & Hfu).
  split; (split; [done|]; split; [done|]; split; [done|]); intros j Hj; [rewrite Hfk by done|rewrite Hfu by done].
  - unfold PGSIZE in *. destruct (decide _), (Z.ltb_spec (ptov s1 + j * 4096) bound); try done; lia.
  - destruct (decide _); [done|]. unfold PGSIZE in *. lia.
Qed.

Lemma resolve_two : resolve_area_info entries (Area 0 0 0, Area 0 0 0) = (Area s1 (s1 + n1) n1, Area s2 (s2 + n2) n2).
Proof.
  destruct Htr as [(e1 & e2 & Hl & Hs1 & Hn1 & Hs2 & Hn2) (? & ? & ? & ? & ?) (? & ? & ? & ?) (_ & ? & _) _ _].
  rewrite resolve_skip, Hl. assert (0 < n2) by (unfold PGSIZE in *; zdiv).
  assert (Hu : usable e1 = true ∧ usable e2 = true).
  { split; eapply (list_elem_of_filter (λ e, usable e = true) entries); rewrite Hl; set_solver. }
  unfold resolve_area_info. simpl. unfold resolve_step. destruct Hu as [-> ->]. rewrite Hs1, Hn1, Hs2, Hn2.
  rewrite (proj2 (Z.ltb_lt s1 _)), (proj2 (Z.ltb_ge s2 _)) by lia. simpl. rewrite !u64_small by lia. done.
Qed.

Lemma two_usable e1 e2 : filter (λ e, usable e = true) entries = [e1; e2] → usable e1 = true ∧ usable e2 = true.
Proof.
  intros Hl. split; eapply (list_elem_of_filter (λ e, usable e = true) entries); rewrite Hl; set_solver.
Qed.

Lemma populate_wp up kp : kp = kern + n1 / PGSIZE →
  wp (populate buf entries up) (Claim KERN_START kp 0 0 (pg_round_up kernel_end) None None)
    (λ _ s, ∃ k u, kernel s = Some k ∧ user s = Some u ∧
      pool_with k (ptov s1) kpages (λ j, ptov s1 + j * PGSIZE <? bound) ∧ pool_with u mid upages (λ _, false)).
Proof.
  intros ->. destruct tr_sizes as (Hmid & Htop & Hn1 & Hn2 & Hn3 & Hn4). destruct tr_bound as (Hb1 & Hb2 & Hbm & Hb & Hb3 & Hb4).
  destruct Htr as [(e1 & e2 & Hl & He1 & He2 & He3 & He4) (H0 & Hm1 & H2 & H3 & H4) (H5 & Hm2 & Hmn & H8) (_ & Hkern & _) Hend Hbuf].
  destruct (two_usable e1 e2 Hl) as [Hu1 Hu2].
  assert (H9 : 0 < n2 ∧ n2 / PGSIZE * PGSIZE = n2) by (unfold PGSIZE in *; zdiv).
  pose proof (bm_bytes_bound upages ltac:(lia)) as [Hbu _]. pose proof (bm_bytes_bound kpages ltac:(lia)) as [Hbk _].
  assert (Hptov : ptov s1 = s1 + KERN_BASE ∧ ptov s2 = s2 + KERN_BASE ∧ ptov (s2 + n2) = s2 + n2 + KERN_BASE) by (by rewrite !ptov_small by lia).
  unfold populate. wp_pure.
  apply (wp_two (claim_step buf up) _ _ _ _ _ ltac:(intros e t Hf; unfold claim_step; by rewrite Hf) Hl).
  eapply wp_eq; [apply (claim_base e1); try done|].
  { unfold KERN_BASE in *. unfold PGSIZE in *. zdiv. }
  replace (kern + n1 / PGSIZE - n1 / PGSIZE) with kern by lia.
  eapply wp_mono; [apply (claim_ext e2); [done..|unfold PGSIZE, KERN_BASE, BASE_MEM_THRESHOLD in *; lia]|].
  intros [] s (k & rem_ & Hk & ->). wp_pure. simpl.
  destruct (init_pool_done buf (pg_round_up kernel_end + bm_bytes kpages) mid upages) with (end_ := ptov (s2 + n2))
    as (u & Hrun & Hu); [unfold PGSIZE, KERN_BASE, BASE_MEM_THRESHOLD in *; lia..| | |].
  { etrans; [|apply Hbuf]. apply elem_cnt_mono. lia. }
  { rewrite Htop. unfold PGSIZE. lia. }
  rewrite Hrun, Hb. apply (wp_eq _ _ (u, bound) _ _ eq_refl). wp_pure. simpl.
  apply (wp_two (free_step bound) _ _ _ _ _ ltac:(intros e t Hf; unfold free_step; by rewrite Hf) Hl).
  eapply wp_eq; [by apply (free_base e1)|]. by eapply (free_ext e2).
Qed.

Lemma palloc_init_wp : ∃ s k u,
  palloc_init buf entries kernel_end user_page_limit = Done (s2 + n2, s) ∧
  kernel s = Some k ∧ user s = Some u ∧
  pool_with k (ptov s1) kpages (λ j, ptov s1 + j * PGSIZE <? bound) ∧
  pool_with u mid upages (λ _, false).
Proof.
  unfold palloc_init. rewrite resolve_two. simpl. unfold populate_pools. simpl.
  destruct Htr as [_ (? & ? & ? & ? & ?) (? & ? & ? & ?) (Hk & Hkern & Hlim) _ _].
  assert (H9 : 0 < n2) by (unfold PGSIZE in *; zdiv). rewrite (u64_small (n1 + n2)) by lia.
  set (up := if user_page_limit <? _ then _ else _).
  assert (Hup : up = Z.min user_page_limit ((n1 + n2) / PGSIZE / 2)).
  { unfold up. destruct (Z.ltb_spec user_page_limit ((n1 + n2) / PGSIZE / 2)); lia. }
  assert (Hkp : u64 ((n1 + n2) / PGSIZE - up) = kern + n1 / PGSIZE).
  { rewrite <- Hup in Hk. rewrite u64_small by (unfold PGSIZE in *; zdiv). lia. }
  destruct (wp_run_unit _ _ _ (populate_wp up _ Hkp)) as (s & Hrun & k & u & Hpools).
  exists s, k, u. rewrite Hrun. split; [done|exact Hpools].
Qed.
End two_regions.

(** ** Properties *)

Lemma pool_with_used p start n f b :
  pool_with p start n f → in_pool p b → page_used p b = f ((b - start) / PGSIZE).
Proof.
  intros (Hb & Hn & _ & Hf) Hin. pose proof (index_in p b Hin) as Hi. unfold page_used.
  rewrite Hb, Hn in *. by apply Hf.
Qed.

(** C23: On a machine with one usable region of base memory and one of extended
    memory, which holds the kernel and is made of whole pages, palloc_init ends, and
    it leaves two adjacent well-formed pools that make up the memory: the pages behind
    the kernel and the two bitmaps are free, the pages before are in use. The kernel
    pool reaches into the extended memory behind the kernel and the bitmaps. *)
Theorem palloc_init_spec buf entries kernel_end user_page_limit s1 n1 s2 n2 kern :
  two_regions buf entries kernel_end user_page_limit s1 n1 s2 n2 kern →
  first_free kernel_end s1 s2 n2 kern < ptov s2 + kern * PGSIZE →
  ∃ s k u, palloc_init buf entries kernel_end user_page_limit = Done (s2 + n2, s) ∧
    kernel s = Some k ∧ user s = Some u ∧
    base k = ptov s1 ∧ pool_end k = base u ∧ pool_end u = ptov (s2 + n2) ∧
    (∀ m, (∀ a, ptov s1 <= a < ptov (s2 + n2) → is_Some (m !! a)) → wf_pages (Ram k u m)) ∧
    (∀ b, in_pool k b → page_used k b = (pg_round_down b <? first_free kernel_end s1 s2 n2 kern)) ∧
    (∀ b, in_pool u b → page_used u b = false).
Proof.
  intros Htr Hroom. destruct (palloc_init_wp _ _ _ _ _ _ _ _ _ Htr Hroom) as (s & k & u & Hrun & Hk & Hu & Hkp & Hup).
  destruct (tr_sizes _ _ _ _ _ _ _ _ _ Htr) as (Hmid & Htop & Hn1 & Hn2 & _).
  pose proof Hkp as (Hkb & Hkc & Hkw & _). pose proof Hup as (Hub & Huc & Huw & _).
  assert (Hke : pool_end k = base u) by (unfold pool_end; rewrite Hkb, Hkc, Hub, Hmid; lia).
  assert (Hue : pool_end u = ptov (s2 + n2)) by (unfold pool_end; rewrite Hub, Huc, Htop; lia).
  destruct Htr as [_ (H0 & Hm1 & H2 & H3 & H4) (H5 & Hm2 & _ & H8) (_ & Hkern & _) _ _].
  assert (Hn : 0 < n2) by (unfold PGSIZE in *; zdiv).
  assert (Hp1 : ptov s1 = s1 + KERN_BASE) by (apply ptov_small; lia).
  assert (Hp2 : ptov s2 = s2 + KERN_BASE) by (apply ptov_small; lia).
  assert (Hpe : ptov (s2 + n2) = s2 + n2 + KERN_BASE) by (apply ptov_small; lia).
  assert (Hal : ptov s1 mod PGSIZE = 0 ∧ base u mod PGSIZE = 0).
  { rewrite Hub, Hp1, Hp2. unfold KERN_BASE, PGSIZE in *. zdiv. }
  assert (Hlow : 0 < ptov s1 ∧ ptov s1 < base u ∧ base u < ptov (s2 + n2) ∧ ptov (s2 + n2) < 2 ^ 64).
  { rewrite Hub. unfold KERN_BASE, PGSIZE in *. lia. }
  exists s, k, u. split_and!; try done.
  - intros m Hm. split; [split|split|left; simpl; by rewrite Hke]; simpl; try done.
    + rewrite Hkb, Hke. lia.
    + intros a Ha. apply Hm. lia.
    + rewrite Hue. lia.
    + intros a Ha. apply Hm. lia.
  - intros b Hb. rewrite (pool_with_used _ _ _ _ _ Hkp Hb). f_equal.
    unfold in_pool in Hb. rewrite pg_round_down_sub. unfold PGSIZE in *. zdiv.
  - intros b Hb. apply (pool_with_used _ _ _ _ _ Hup Hb).
Qed.

(** A usable region that starts after the user pool has got all of its pages
    stops the kernel: the code compares pages with bytes. *)
Lemma claim_third_panics buf user_pages entry s :
  usable entry = true → state s = USER → rem s <= e_size entry / PGSIZE → rem s ≠ e_size entry →
  claim_step buf user_pages entry s = Panic.
Proof.
  intros Hu Hs Hr Hne. unfold claim_step. rewrite Hu. unfold modify, get_st, mbind, st_bind. simpl.
  rewrite Hs. simpl. rewrite (proj2 (Z.ltb_ge _ _)) by done.
  unfold assert_st. simpl. by rewrite (proj2 (Z.eqb_neq _ _)) by done.
Qed.

(** The memory map of a machine with 20 MB, as its BIOS reports it. *)
Definition qemu_map : list e820_entry :=
  [E820 0 0 654336 0 1; E820 654336 0 1024 0 2; E820 983040 0 65536 0 2;
   E820 1048576 0 19791872 0 1; E820 20840448 0 131072 0 2; E820 4294705152 0 262144 0 2].
Definition qemu_kernel_end : Z := KERN_BASE + 2097152 + 300000.
Definition qemu_buf (a : Z) : list Z := replicate (Z.to_nat 330000) 0.

Lemma qemu_two_regions : two_regions qemu_buf qemu_map qemu_kernel_end (2 ^ 64 - 1) 0 654336 1048576 19791872 2337.
Proof.
  split.
  - do 2 eexists. split; [vm_compute; reflexivity|]. done.
  - done.
  - done.
  - split; [vm_compute; reflexivity|]. done.
  - split; [by vm_compute|done].
  - intros a. apply Z.leb_le. vm_compute. reflexivity.
Qed.
Lemma palloc_init_spec_witness :
  ∃ s k u, palloc_init qemu_buf qemu_map qemu_kernel_end (2 ^ 64 - 1) = Done (20840448, s) ∧
    kernel s = Some k ∧ user s = Some u ∧ base k = KERN_BASE ∧ pool_end k = base u.
Proof.
  destruct (palloc_init_spec _ _ _ _ _ _ _ _ _ qemu_two_regions ltac:(by vm_compute)) as (s & k & u & H1 & H2 & H3 & H4 & H5 & _).
  exists s, k, u. split; [exact H1|]. split; [exact H2|]. split; [exact H3|]. split; [exact H4|exact H5].
Defined.

(** With one MB of memory above 4 GB, the kernel does not boot. *)
Example palloc_init_above_4GB :
  palloc_init qemu_buf (qemu_map ++ [E820 0 1 1048576 0 1]) qemu_kernel_end (2 ^ 64 - 1) = Panic.
Proof. by vm_compute. Qed.
