(* ===== verification/Malloc.v ===== *)
(** * The block allocator (threads/malloc.c)

    The headers of the arenas and the free lists lie in the pages that the
    allocator gets from palloc; here they are kept beside the bytes of these
    pages, by address, so that the memory of [pages] holds what the users of the
    blocks have written. The list operations are the ones on sequences that
    ListOps.v proves of lib/kernel/list.c. The locks of the descriptors are not
    modelled: a function runs alone. *)
From stdpp Require Import base numbers list sets gmap.
From Stdlib Require Import ZArith Lia.
From S2P Require Import Prelude Bytes CString Bitmap Palloc.
Open Scope Z_scope.

Definition ARENA_MAGIC : Z := 2589232877. (* 0x9a548eed *)

(** struct arena; [a_desc] is the index of the owning descriptor, [None] in a
    big block. *)
Record arena := Arena { magic : Z; a_desc : option Z; free_cnt : Z }.
(** sizeof (struct arena) *)
Definition ARENA_SIZE : Z := 24.

(** struct desc, without its lock; the free list as the addresses of its blocks *)
Record desc := Desc { d_block_size : Z; blocks_per_arena : Z; free_list : list Z }.

(** The pages, the arenas in them, and the first [desc_cnt] descriptors. *)
Record heap := Heap { pages : ram; arenas : gmap Z arena; descs : list desc }.

Definition on_ram {A} : ST ram A → ST heap A := zoom pages (λ r h, Heap r (arenas h) (descs h)).
Definition get_arena (a : Z) : ST heap arena := h ← get_st; deref (arenas h !! a).
Definition get_desc (i : Z) : ST heap desc := h ← get_st; deref (zlookup (descs h) i).
Definition set_arena (a : Z) (ar : arena) : ST heap unit :=
  modify (λ h, Heap (pages h) (<[a := ar]> (arenas h)) (descs h)).
Definition set_free_cnt (a cnt : Z) : ST heap unit :=
  ar ← get_arena a; set_arena a (Arena (magic ar) (a_desc ar) cnt).
Definition set_free_list (i : Z) (l : list Z) : ST heap unit :=
  d ← get_desc i;
  modify (λ h, Heap (pages h) (arenas h) (zinsert i (Desc (d_block_size d) (blocks_per_arena d) l) (descs h))).

Definition block_to_arena (b : Z) : ST heap Z :=
  let a := pg_round_down b in
  _ ← assert_st (negb (a =? 0));
  ar ← get_arena a;
  _ ← assert_st (magic ar =? ARENA_MAGIC);
  _ ← match a_desc ar with
      | Some i => d ← get_desc i; assert_st (u64 (pg_ofs b - ARENA_SIZE) mod d_block_size d =? 0)
      | None => assert_st (pg_ofs b =? ARENA_SIZE)
      end;
  mret a.

Definition arena_to_block (a idx : Z) : ST heap Z :=
  _ ← assert_st (negb (a =? 0));
  ar ← get_arena a;
  _ ← assert_st (magic ar =? ARENA_MAGIC);
  i ← deref (a_desc ar);
  d ← get_desc i;
  _ ← assert_st (idx <? blocks_per_arena d);
  mret (u64 (a + ARENA_SIZE + idx * d_block_size d)).

(** One turn of the loop in malloc_init; [descs] is an array of ten. *)
Definition malloc_init_step (block_size : Z) : ST heap (Z + unit) :=
  if block_size <? PGSIZE / 2 then
    h ← get_st;
    _ ← assert_st (zlength (descs h) + 1 <=? 10);
    _ ← modify (λ h, Heap (pages h) (arenas h)
          (descs h ++ [Desc block_size ((PGSIZE - ARENA_SIZE) / block_size) []]));
    mret (inl (u64 (block_size * 2)))
  else mret (inr tt).
Definition malloc_init : ST heap unit := loop 12 malloc_init_step 16.

(** The first descriptor, from [i] on, whose blocks are large enough. *)
Fixpoint find_desc (size : Z) (ds : list desc) (i : Z) : option Z :=
  match ds with
  | [] => None
  | d :: ds => if size <=? d_block_size d then Some i else find_desc size ds (i + 1)
  end.

Definition malloc_big (size : Z) : ST heap Z :=
  let page_cnt := u64 (size + ARENA_SIZE + PGSIZE - 1) / PGSIZE in
  a ← on_ram (palloc_get_multiple 0 page_cnt);
  if a =? 0 then mret 0 else
  _ ← set_arena a (Arena ARENA_MAGIC None page_cnt);
  mret (u64 (a + ARENA_SIZE)).

(** list_push_back (&d->free_list, &b->free_elem) *)
Definition push_block (i a idx : Z) : ST heap unit :=
  b ← arena_to_block a idx; d ← get_desc i; set_free_list i (free_list d ++ [b]).

(** A new arena for the descriptor [i]; false if there is no page. *)
Definition new_arena (i : Z) : ST heap bool :=
  a ← on_ram (palloc_get_page 0);
  if a =? 0 then mret false else
  d ← get_desc i;
  _ ← set_arena a (Arena ARENA_MAGIC (Some i) (blocks_per_arena d));
  _ ← for_st (λ idx _, push_block i a idx) (seqZ 0 (blocks_per_arena d)) tt;
  mret true.

(** Pops the first block of the free list. *)
Definition take_block (i : Z) : ST heap Z :=
  d ← get_desc i;
  b ← deref (head (free_list d));
  _ ← set_free_list i (tail (free_list d));
  a ← block_to_arena b;
  ar ← get_arena a;
  _ ← set_free_cnt a (u64 (free_cnt ar - 1));
  mret b.

Definition malloc (size : Z) : ST heap Z :=
  if size =? 0 then mret 0 else
  h ← get_st;
  match find_desc size (descs h) 0 with
  | None => malloc_big size
  | Some i =>
      d ← get_desc i;
      ok ← (if bool_decide (free_list d = []) then new_arena i else mret true);
      if negb ok then mret 0 else take_block i
  end.

Definition calloc (a b : Z) : ST heap Z :=
  let size := u64 (a * b) in
  if (size <? a) || (size <? b) then mret 0 else
  p ← malloc size;
  _ ← (if negb (p =? 0) then _ ← on_ram (on_mem (memset p 0 size)); mret tt else mret tt);
  mret p.

Definition block_size (block : Z) : ST heap Z :=
  a ← block_to_arena block;
  ar ← get_arena a;
  match a_desc ar with
  | Some i => d ← get_desc i; mret (d_block_size d)
  | None => mret (u64 (PGSIZE * free_cnt ar - pg_ofs block))
  end.

(** list_remove (&b->free_elem), of a block that is in the list *)
Definition remove_block (i a idx : Z) : ST heap unit :=
  b ← arena_to_block a idx;
  d ← get_desc i;
  if bool_decide (b ∈ free_list d) then set_free_list i (filter (λ x, x ≠ b) (free_list d)) else undef.

(** The arena [a] of the descriptor [i] goes back to the page allocator. *)
Definition free_arena (i a : Z) : ST heap unit :=
  d ← get_desc i;
  ar ← get_arena a;
  _ ← assert_st (free_cnt ar =? blocks_per_arena d);
  _ ← for_st (λ idx _, remove_block i a idx) (seqZ 0 (blocks_per_arena d)) tt;
  _ ← modify (λ h, Heap (pages h) (delete a (arenas h)) (descs h));
  on_ram (palloc_free_page a).

Definition free (p : Z) : ST heap unit :=
  if p =? 0 then mret tt else
  a ← block_to_arena p;
  ar ← get_arena a;
  match a_desc ar with
  | Some i =>
      d ← get_desc i;
      _ ← on_ram (on_mem (memset p 204 (d_block_size d)));
      _ ← set_free_list i (p :: free_list d);
      _ ← set_free_cnt a (u64 (free_cnt ar + 1));
      if blocks_per_arena d <=? u64 (free_cnt ar + 1) then free_arena i a else mret tt
  | None =>
      _ ← modify (λ h, Heap (pages h) (delete a (arenas h)) (descs h));
      on_ram (palloc_free_multiple a (free_cnt ar))
  end.

Definition realloc (old_block new_size : Z) : ST heap Z :=
  if new_size =? 0 then _ ← free old_block; mret 0 else
  new_block ← malloc new_size;
  _ ← (if negb (old_block =? 0) && negb (new_block =? 0) then
         old_size ← block_size old_block;
         let min_size := if new_size <? old_size then new_size else old_size in
         _ ← on_ram (on_mem (memcpy new_block old_block min_size));
         free old_block
       else mret tt);
  mret new_block.
