(* ===== verification/MallocInv.v ===== *)
(** * The invariant of the block allocator

    Every arena is made of pages of the kernel pool in use, arenas do not
    overlap, the free lists hold blocks of arenas, each at most once, and an
    arena counts its blocks in the free list, which are never all of them. *)
From stdpp Require Import base numbers list sets gmap.
From Stdlib Require Import ZArith Lia.
From S2P Require Import Prelude Bytes CString Bitmap Palloc Malloc.
Open Scope Z_scope.

(** ** Descriptors and blocks *)

Definition shape (d : desc) : Z * Z := (d_block_size d, blocks_per_arena d).
(** The block sizes of malloc_init, and the blocks of each in an arena. *)
Definition shapes : list (Z * Z) :=
  [(16, 254); (32, 127); (64, 63); (128, 31); (256, 15); (512, 7); (1024, 3)].

Definition arena_of (b : Z) : Z := b - b mod PGSIZE.
Definition blk (a : Z) (d : desc) (k : Z) : Z := a + ARENA_SIZE + k * d_block_size d.
Definition arena_pages (ar : arena) : Z := match a_desc ar with Some _ => 1 | None => free_cnt ar end.
(** The address [b] lies in a page of an arena. *)
Definition owned (h : heap) (b : Z) : Prop :=
  ∃ a ar, arenas h !! a = Some ar ∧ a <= b < a + PGSIZE * arena_pages ar.
(** The pages that the arenas do not own are as free as before. *)
Definition pages_kept (h h' : heap) : Prop :=
  user_pool (pages h') = user_pool (pages h) ∧
  base (kernel_pool (pages h')) = base (kernel_pool (pages h)) ∧
  bit_cnt (used_map (kernel_pool (pages h'))) = bit_cnt (used_map (kernel_pool (pages h))) ∧
  ∀ b, in_pool (kernel_pool (pages h)) b →
    (page_used (kernel_pool (pages h')) b = true ∧ ¬ owned h' b ↔
     page_used (kernel_pool (pages h)) b = true ∧ ¬ owned h b).
(** The free blocks of the arena [a]. *)
Definition free_in (a : Z) (l : list Z) : list Z := filter (λ b, arena_of b = a) l.

(** [b] is a block of an arena of the descriptor [i]. *)
Definition block_of (h : heap) (i : Z) (d : desc) (b : Z) : Prop :=
  ∃ ar k, arenas h !! arena_of b = Some ar ∧ a_desc ar = Some i ∧
    0 <= k < blocks_per_arena d ∧ b = blk (arena_of b) d k.

(** [b] has been handed out, with [n] bytes. *)
Definition live (h : heap) (b n : Z) : Prop :=
  ∃ ar, arenas h !! arena_of b = Some ar ∧
    match a_desc ar with
    | None => b = arena_of b + ARENA_SIZE ∧ n = PGSIZE * free_cnt ar - ARENA_SIZE
    | Some i => ∃ d, zlookup (descs h) i = Some d ∧ n = d_block_size d ∧ block_of h i d b ∧ b ∉ free_list d
    end.

(** The count of an arena; the arenas of [P] may be entirely free. *)
Definition count_ok (P : Z → Prop) (ds : list desc) (a : Z) (ar : arena) : Prop :=
  match a_desc ar with
  | None => True
  | Some i => ∃ d, zlookup ds i = Some d ∧ free_cnt ar = zlength (free_in a (free_list d)) ∧
      (free_cnt ar < blocks_per_arena d ∨ P a ∧ free_cnt ar = blocks_per_arena d)
  end.

Record heap_inv (P : Z → Prop) (h : heap) : Prop := {
  hi_pages : wf_pages (pages h);
  hi_descs : shape <$> descs h = shapes;
  hi_arena : ∀ a ar, arenas h !! a = Some ar →
    magic ar = ARENA_MAGIC ∧ 0 < arena_pages ar ∧ run_of (kernel_pool (pages h)) a (arena_pages ar) true;
  hi_count : ∀ a ar, arenas h !! a = Some ar → count_ok P (descs h) a ar;
  hi_apart : ∀ a1 a2 ar1 ar2, arenas h !! a1 = Some ar1 → arenas h !! a2 = Some ar2 → a1 ≠ a2 →
    a1 + PGSIZE * arena_pages ar1 <= a2 ∨ a2 + PGSIZE * arena_pages ar2 <= a1;
  hi_free : ∀ i d, zlookup (descs h) i = Some d →
    NoDup (free_list d) ∧ ∀ b, b ∈ free_list d → block_of h i d b;
}.
Definition heap_ok : heap → Prop := heap_inv (λ _, False).

Section facts.
Implicit Types (h : heap) (d : desc) (ar : arena) (a b i k : Z) (P Q : Z → Prop).

Lemma zlookup_fmap {A B} (f : A → B) l i : zlookup (f <$> l) i = f <$> zlookup l i.
Proof. unfold zlookup. destruct (0 <=? i); [apply list_lookup_fmap|done]. Qed.

Lemma shape_ok ds i d : shape <$> ds = shapes → zlookup ds i = Some d →
  16 <= d_block_size d <= 1024 ∧ 3 <= blocks_per_arena d ∧ ARENA_SIZE + blocks_per_arena d * d_block_size d <= PGSIZE.
Proof.
  intros Hs Hi. assert (Hz : zlookup (shape <$> ds) i = Some (shape d)) by (by rewrite zlookup_fmap, Hi).
  rewrite Hs in Hz. apply zlookup_elem in Hz. unfold ARENA_SIZE, PGSIZE.
  assert (Forall (λ s, 16 <= s.1 <= 1024 ∧ 3 <= s.2 ∧ 24 + s.2 * s.1 <= 4096) shapes) as HF.
  { repeat constructor; done. }
  rewrite Forall_forall in HF. apply (HF (shape d) Hz).
Qed.
Lemma shape_set ds i d l : shape <$> ds = shapes → zlookup ds i = Some d →
  shape <$> zinsert i (Desc (d_block_size d) (blocks_per_arena d) l) ds = shapes.
Proof.
  intros <- Hi. pose proof (zlookup_Some_range _ _ _ Hi). rewrite zlookup_nat in Hi by lia.
  unfold zinsert. rewrite list_fmap_insert. apply list_insert_id. by rewrite list_lookup_fmap, Hi.
Qed.

Lemma arena_of_aligned a k : a mod PGSIZE = 0 → 0 <= k < PGSIZE → arena_of (a + k) = a.
Proof. intros. unfold arena_of, PGSIZE in *. zdiv. Qed.
Lemma arena_of_blk ds i d a k : shape <$> ds = shapes → zlookup ds i = Some d → a mod PGSIZE = 0 →
  0 <= k < blocks_per_arena d → arena_of (blk a d k) = a.
Proof.
  intros Hs Hi Ha Hk. destruct (shape_ok ds i d Hs Hi) as (? & ? & ?).
  unfold blk. rewrite <- Z.add_assoc. apply arena_of_aligned; [done|]. unfold ARENA_SIZE in *. nia.
Qed.
Lemma pg_round_down_arena b : pg_round_down b = arena_of b.
Proof. apply pg_round_down_sub. Qed.

Lemma arena_bounds P h a ar : heap_inv P h → arenas h !! a = Some ar →
  a mod PGSIZE = 0 ∧ 0 < a ∧ a + PGSIZE * arena_pages ar < 2 ^ 64.
Proof.
  intros Hok Ha. destruct (hi_arena _ _ Hok a ar Ha) as (_ & Hp & Hr).
  split; [apply Hr|]. apply (run_pos (pages h) false a _ true (hi_pages _ _ Hok) Hr). lia.
Qed.

Lemma heap_inv_mono P Q h : (∀ a, P a → Q a) → heap_inv P h → heap_inv Q h.
Proof.
  intros HPQ Hok. destruct Hok as [H1 H2 H3 H4 H5 H6]. split; try done.
  intros a ar Ha. specialize (H4 a ar Ha). unfold count_ok in *. destruct (a_desc ar); [|done]. naive_solver.
Qed.

(** *** Runs of the functions on headers and blocks *)

Lemma block_to_arena_run h b ar :
  arenas h !! arena_of b = Some ar → magic ar = ARENA_MAGIC → 0 < arena_of b →
  match a_desc ar with
  | None => b = arena_of b + ARENA_SIZE
  | Some i => ∃ d k, zlookup (descs h) i = Some d ∧ 0 < d_block_size d ∧ 0 <= k ∧
      ARENA_SIZE + k * d_block_size d < PGSIZE ∧ b = blk (arena_of b) d k
  end →
  block_to_arena b h = Done (arena_of b, h).
Proof.
  intros Ha Hm H0 Hb. apply wp_run_eq. unfold block_to_arena. rewrite pg_round_down_arena.
  wp_step. wp_step; [by rewrite (proj2 (Z.eqb_neq _ _)) by lia|]. wp_pure. unfold get_arena. wp_pure.
  wp_step; [exact Ha|]. wp_pure. wp_step; [by apply Z.eqb_eq|]. rewrite pg_ofs_mod.
  destruct (a_desc ar) as [i|].
  - destruct Hb as (d & k & Hi & Hs & Hk & Hlt & Hb). wp_pure. unfold get_desc. wp_pure. wp_step; [exact Hi|].
    wp_step; [|by wp_pure]. replace (b mod PGSIZE) with (ARENA_SIZE + k * d_block_size d).
    + rewrite u64_small by (unfold ARENA_SIZE, PGSIZE in *; nia).
      replace (ARENA_SIZE + _ - ARENA_SIZE) with (k * d_block_size d) by lia. rewrite Z.mod_mul by lia. done.
    + unfold blk, arena_of in Hb. lia.
  - wp_pure. wp_step; [|by wp_pure]. apply Z.eqb_eq. unfold arena_of in Hb. lia.
Qed.

Lemma arena_to_block_run h a k i c d :
  arenas h !! a = Some (Arena ARENA_MAGIC (Some i) c) → zlookup (descs h) i = Some d →
  0 < a → a + PGSIZE < 2 ^ 64 → 0 <= k < blocks_per_arena d → 0 < d_block_size d →
  ARENA_SIZE + blocks_per_arena d * d_block_size d <= PGSIZE →
  arena_to_block a k h = Done (blk a d k, h).
Proof.
  intros Ha Hi H0 Hlt Hk Hs Hsz. apply wp_run_eq. unfold arena_to_block.
  wp_step. wp_step; [by rewrite (proj2 (Z.eqb_neq _ _)) by lia|]. unfold get_arena. wp_pure.
  wp_step; [exact Ha|]. wp_pure. wp_step; [done|]. wp_pure. wp_step; [done|]. unfold get_desc. wp_pure.
  wp_step; [exact Hi|]. wp_pure. wp_step; [apply Z.ltb_lt; lia|]. wp_pure.
  unfold blk. rewrite u64_small; [done|]. unfold ARENA_SIZE, PGSIZE in *. nia.
Qed.

(** *** The free list and the count of an arena change together *)

Definition upd h i d (l : list Z) a ar (c : Z) : heap :=
  Heap (pages h) (<[a := Arena (magic ar) (a_desc ar) c]> (arenas h))
    (zinsert i (Desc (d_block_size d) (blocks_per_arena d) l) (descs h)).

Lemma upd_arena h i d l a ar c a' : arenas h !! a = Some ar →
  ∀ ar', arenas (upd h i d l a ar c) !! a' = Some ar' ↔
    ∃ ar0, arenas h !! a' = Some ar0 ∧ ar' = Arena (magic ar0) (a_desc ar0) (if decide (a' = a) then c else free_cnt ar0).
Proof.
  intros Ha ar'. unfold upd. simpl. destruct (decide (a' = a)) as [->|Hne].
  - rewrite lookup_insert_eq, Ha. naive_solver.
  - rewrite lookup_insert_ne by done. split.
    + intros Hl. exists ar'. split; [done|]. by destruct ar'.
    + intros (ar0 & -> & ->). by destruct ar0.
Qed.
Lemma upd_desc h i d l a ar c j d' : zlookup (descs h) i = Some d →
  zlookup (descs (upd h i d l a ar c)) j = Some d' ↔
    if decide (j = i) then d' = Desc (d_block_size d) (blocks_per_arena d) l else zlookup (descs h) j = Some d'.
Proof.
  intros Hi. pose proof (zlookup_Some_range _ _ _ Hi). unfold upd. simpl. destruct (decide (j = i)) as [->|Hne].
  - rewrite zlookup_zinsert by done. naive_solver.
  - rewrite zlookup_zinsert_ne by (lia || done). done.
Qed.
Lemma upd_block h i d l a ar c j d' b : arenas h !! a = Some ar →
  block_of (upd h i d l a ar c) j d' b ↔ block_of h j d' b.
Proof.
  intros Ha. unfold block_of. split.
  - intros (ar' & k & Hl & Hd & Hk & Hb). apply (upd_arena _ _ _ _ _ _ _ _ Ha) in Hl as (ar0 & Hl & ->).
    exists ar0, k. done.
  - intros (ar0 & k & Hl & Hd & Hk & Hb). exists (Arena (magic ar0) (a_desc ar0) (if decide (arena_of b = a) then c else free_cnt ar0)), k.
    split; [|done]. apply (upd_arena _ _ _ _ _ _ _ _ Ha). eauto.
Qed.

Lemma upd_inv P Q h i d l a ar c :
  heap_inv P h → zlookup (descs h) i = Some d → arenas h !! a = Some ar → a_desc ar = Some i →
  NoDup l → (∀ b, b ∈ l → block_of h i d b) → c = zlength (free_in a l) →
  (c < blocks_per_arena d ∨ Q a ∧ c = blocks_per_arena d) →
  (∀ a', a' ≠ a → zlength (free_in a' l) = zlength (free_in a' (free_list d)) ∧ (P a' → Q a')) →
  heap_inv Q (upd h i d l a ar c).
Proof.
  intros [H1 H2 H3 H4 H5 H6] Hi Ha Hd Hnd Hbl Hc Hlt Hoth. 
  assert (Hap : ∀ a' ar0, arenas h !! a' = Some ar0 →
    arena_pages (Arena (magic ar0) (a_desc ar0) (if decide (a' = a) then c else free_cnt ar0)) = arena_pages ar0).
  { intros a' ar0 Hl. unfold arena_pages. simpl. destruct (decide (a' = a)) as [->|]; [|done].
    rewrite Ha in Hl. injection Hl as <-. by rewrite Hd. }
  split.
  - done.
  - by apply shape_set.
  - intros a' ar' Hl. apply (upd_arena _ _ _ _ _ _ _ _ Ha) in Hl as (ar0 & Hl & ->). rewrite (Hap a' ar0 Hl). exact (H3 a' ar0 Hl).
  - intros a' ar' Hl. apply (upd_arena _ _ _ _ _ _ _ _ Ha) in Hl as (ar0 & Hl & ->).
    pose proof (H4 a' ar0 Hl) as Hok. unfold count_ok in *. cbn [a_desc free_cnt magic]. destruct (decide (a' = a)) as [->|Hne].
    + rewrite Ha in Hl. injection Hl as <-. rewrite Hd.
      exists (Desc (d_block_size d) (blocks_per_arena d) l). split; [|done].
      refine (proj2 (upd_desc h i d l a ar c i _ Hi) _). by rewrite decide_True.
    + destruct (a_desc ar0) as [j|]; [|done]. destruct Hok as (dj & Hj & Hcnt & Hbd).
      destruct (Hoth a' Hne) as [He HPQ]. destruct (decide (j = i)) as [->|Hji].
      * rewrite Hi in Hj. injection Hj as <-. exists (Desc (d_block_size d) (blocks_per_arena d) l).
        split; [refine (proj2 (upd_desc h i d l a ar c i _ Hi) _); by rewrite decide_True|]. simpl. rewrite He. naive_solver.
      * exists dj. split; [refine (proj2 (upd_desc h i d l a ar c j _ Hi) _); by rewrite decide_False|]. naive_solver.
  - intros a1 a2 ar1 ar2 Hl1 Hl2. apply (upd_arena _ _ _ _ _ _ _ _ Ha) in Hl1 as (ar01 & Hl1 & ->).
    apply (upd_arena _ _ _ _ _ _ _ _ Ha) in Hl2 as (ar02 & Hl2 & ->).
    rewrite (Hap a1 ar01 Hl1), (Hap a2 ar02 Hl2). by apply H5.
  - intros j d' Hj. apply upd_desc in Hj; [|done]. destruct (decide (j = i)) as [->|Hji].
    + subst d'. split; [done|]. intros b Hb. apply upd_block; [done|]. by apply Hbl.
    + destruct (H6 j d' Hj) as [Hn Hf]. split; [done|]. intros b Hb. apply upd_block; [done|]. by apply Hf.
Qed.

(** The live blocks by whether they belong to the descriptor. *)
Lemma live_split h i d q n : zlookup (descs h) i = Some d →
  live h q n ↔ (live h q n ∧ ¬ block_of h i d q) ∨ (block_of h i d q ∧ n = d_block_size d ∧ q ∉ free_list d).
Proof.
  intros Hi. split; [|intros [[Hl _]|(Hb & -> & Hq)]; [done|]].
  - intros (ar & Ha & Hl). pose proof (conj Ha Hl) as Hlive. destruct (a_desc ar) as [j|] eqn:Hd.
    + destruct Hl as (dj & Hj & -> & Hb & Hq). destruct (decide (j = i)) as [->|Hne].
      * rewrite Hi in Hj. injection Hj as <-. by right.
      * left. split; [exists ar; rewrite Hd; naive_solver|].
        intros (ar' & k & Ha' & Hd' & _). congruence.
    + left. split; [exists ar; by rewrite Hd|]. intros (ar' & k & Ha' & Hd' & _). congruence.
  - pose proof Hb as (ar & k & Ha & Hd & _). exists ar. split; [done|]. rewrite Hd. eauto.
Qed.
Lemma live_upd h i d l a ar c q n :
  zlookup (descs h) i = Some d → arenas h !! a = Some ar → a_desc ar = Some i →
  live (upd h i d l a ar c) q n ↔
    (live h q n ∧ ¬ block_of h i d q) ∨ (block_of h i d q ∧ n = d_block_size d ∧ q ∉ l).
Proof.
  intros Hi Ha Hd. set (d' := Desc (d_block_size d) (blocks_per_arena d) l).
  assert (Hi' : zlookup (descs (upd h i d l a ar c)) i = Some d').
  { apply upd_desc; [done|]. by rewrite decide_True. }
  rewrite (live_split _ _ _ _ _ Hi'). rewrite (upd_block _ _ _ _ _ _ _ i d' q Ha).
  change (block_of h i d' q) with (block_of h i d q). change (d_block_size d') with (d_block_size d).
  assert (Hout : ¬ block_of h i d q → live (upd h i d l a ar c) q n ↔ live h q n); [|tauto].
  intros Hnb. split.
  - intros (ar' & Hl & Hm). apply (upd_arena _ _ _ _ _ _ _ _ Ha) in Hl as (ar0 & Hl & ->). exists ar0. split; [done|].
    cbn [a_desc free_cnt magic] in Hm. destruct (a_desc ar0) as [j|] eqn:Hj.
    + destruct Hm as (dj & Hdj & -> & Hb & Hq). apply upd_block in Hb; [|done]. apply upd_desc in Hdj; [|done].
      destruct (decide (j = i)) as [->|]; [|by eauto]. subst dj. by destruct Hnb.
    + destruct (decide (arena_of q = a)) as [He|]; [|done]. rewrite He in Hl. congruence.
  - intros (ar0 & Hl & Hm). exists (Arena (magic ar0) (a_desc ar0) (if decide (arena_of q = a) then c else free_cnt ar0)).
    split; [apply (upd_arena _ _ _ _ _ _ _ _ Ha); eauto|]. cbn [a_desc free_cnt magic]. destruct (a_desc ar0) as [j|] eqn:Hj.
    + destruct Hm as (dj & Hdj & -> & Hb & Hq). destruct (decide (j = i)) as [->|Hne].
      { rewrite Hi in Hdj. injection Hdj as <-. done. }
      exists dj. split; [apply upd_desc; [done|]; by rewrite decide_False|]. split; [done|]. split; [|done]. by apply upd_block.
    + destruct (decide (arena_of q = a)) as [He|]; [|done]. rewrite He in Hl. congruence.
Qed.

(** *** Taking a block, and putting one back *)

Lemma block_facts P h i d b : heap_inv P h → zlookup (descs h) i = Some d → block_of h i d b →
  ∃ ar, arenas h !! arena_of b = Some ar ∧ a_desc ar = Some i ∧ magic ar = ARENA_MAGIC ∧
    free_cnt ar = zlength (free_in (arena_of b) (free_list d)) ∧
    0 < arena_of b ∧ arena_of b + PGSIZE < 2 ^ 64 ∧ arena_of b + ARENA_SIZE <= b ∧ b + d_block_size d <= arena_of b + PGSIZE ∧
    ∀ h' d', arenas h' = arenas h → zlookup (descs h') i = Some d' → shape d' = shape d →
      block_to_arena b h' = Done (arena_of b, h').
Proof.
  intros Hok Hi (ar & k & Ha & Hd & Hk & Hb). exists ar.
  destruct (arena_bounds P h _ ar Hok Ha) as (_ & H0 & Hlt). destruct (hi_arena _ _ Hok _ _ Ha) as (Hm & _ & _).
  assert (Hp : arena_pages ar = 1) by (unfold arena_pages; by rewrite Hd). rewrite Hp in Hlt.
  destruct (shape_ok _ _ _ (hi_descs _ _ Hok) Hi) as (Hs & Hn & Hsz).
  pose proof (hi_count _ _ Hok _ _ Ha) as Hc. unfold count_ok in Hc. rewrite Hd in Hc.
  destruct Hc as (d0 & Hi0 & Hc & _). rewrite Hi in Hi0. injection Hi0 as <-.
  assert (Hbk : arena_of b + ARENA_SIZE <= b ∧ b + d_block_size d <= arena_of b + PGSIZE).
  { rewrite Hb at 2 3. unfold blk. nia. }
  split; [done|]. split; [done|]. split; [done|]. split; [done|]. split; [done|]. split; [lia|].
  split; [apply Hbk|]. split; [apply Hbk|].
  intros h' d' Harn Hd' [= Hsh1 Hsh2]. apply (block_to_arena_run h' b ar); [by rewrite Harn|done|done|].
  rewrite Hd. exists d', k. rewrite Hsh1. split; [done|]. split; [lia|]. split; [lia|]. split; [nia|].
  unfold blk. rewrite Hsh1. exact Hb.
Qed.

Lemma free_in_cons b l : free_in (arena_of b) (b :: l) = b :: free_in (arena_of b) l.
Proof. unfold free_in. by rewrite filter_cons_True. Qed.
Lemma free_in_cons_ne a b l : a ≠ arena_of b → free_in a (b :: l) = free_in a l.
Proof. intros. unfold free_in. rewrite filter_cons_False; [done|congruence]. Qed.

Lemma set_free_list_run h i d l : zlookup (descs h) i = Some d →
  set_free_list i l h = Done (tt, Heap (pages h) (arenas h) (zinsert i (Desc (d_block_size d) (blocks_per_arena d) l) (descs h))).
Proof.
  intros Hi. apply wp_run_eq. unfold set_free_list, get_desc. wp_pure. wp_step; [exact Hi|]. by wp_pure.
Qed.
Lemma set_free_cnt_run h a ar c : arenas h !! a = Some ar →
  set_free_cnt a c h = Done (tt, Heap (pages h) (<[a := Arena (magic ar) (a_desc ar) c]> (arenas h)) (descs h)).
Proof.
  intros Ha. apply wp_run_eq. unfold set_free_cnt, get_arena, set_arena. wp_pure. wp_step; [exact Ha|]. by wp_pure.
Qed.

(** *** The pages of the arenas *)

Lemma pages_kept_refl h : pages_kept h h.
Proof. done. Qed.
Lemma pages_kept_trans h1 h2 h3 : pages_kept h1 h2 → pages_kept h2 h3 → pages_kept h1 h3.
Proof.
  intros (U1 & B1 & C1 & P1) (U2 & B2 & C2 & P2). split; [congruence|]. split; [congruence|]. split; [congruence|].
  intros b Hb. rewrite P2; [by apply P1|]. unfold in_pool, pool_end in *. by rewrite B1, C1.
Qed.
(** Arenas with the same pages. *)
Lemma pages_kept_same h h' :
  kernel_pool (pages h') = kernel_pool (pages h) → user_pool (pages h') = user_pool (pages h) →
  (∀ a, arena_pages <$> arenas h' !! a = arena_pages <$> arenas h !! a) → pages_kept h h'.
Proof.
  intros Hk Hu Ha. split; [done|]. rewrite Hk. split; [done|]. split; [done|]. intros b _.
  assert (Hsub : ∀ h1 h2, (∀ a, arena_pages <$> arenas h2 !! a = arena_pages <$> arenas h1 !! a) → owned h1 b → owned h2 b).
  { intros h1 h2 H12 (a & ar & Hl & Hb). specialize (H12 a). rewrite Hl in H12.
    destruct (arenas h2 !! a) as [ar2|] eqn:Hl2; [|done]. simpl in H12. injection H12 as H12. exists a, ar2. by rewrite H12. }
  split; intros [Hp Ho]; (split; [done|]); contradict Ho; [by apply (Hsub h h')|]. by apply (Hsub h' h).
Qed.
Lemma pages_kept_upd h i d l a ar c : arenas h !! a = Some ar → is_Some (a_desc ar) → pages_kept h (upd h i d l a ar c).
Proof.
  intros Ha [j Hd]. apply pages_kept_same; [done|done|]. intros a'. unfold upd. simpl.
  destruct (decide (a = a')) as [<-|]; [|by rewrite lookup_insert_ne]. rewrite lookup_insert_eq, Ha. simpl.
  unfold arena_pages. simpl. by rewrite Hd.
Qed.
(** A new arena of pages that were free. *)
Lemma pages_kept_get h r' a c ar ds :
  arenas h !! a = None → run_of (kernel_pool (pages h)) a c false → reused false (pages h) r' a c true →
  arena_pages ar = c → pages_kept h (Heap r' (<[a := ar]> (arenas h)) ds).
Proof.
  intros Hnone (_ & _ & _ & Hfree) (HB & HC & HU & Hu) Hc. simpl in *. split; [done|]. split; [done|]. split; [done|].
  intros b Hb. simpl. rewrite (Hu b Hb).
  assert (Ho : owned (Heap r' (<[a := ar]> (arenas h)) ds) b ↔ owned h b ∨ a <= b < a + PGSIZE * c).
  { subst c. unfold owned. simpl. split.
    - intros (a' & ar' & [[<- <-]|[_ Hl]]%lookup_insert_Some & Hr); [by right|left; eauto].
    - intros [(a' & ar' & Hl & Hr)|Hr].
      + exists a', ar'. rewrite lookup_insert_ne; [done|]. congruence.
      + exists a, ar. by rewrite lookup_insert_eq. }
  rewrite Ho. destruct (decide (a <= b < a + PGSIZE * c)) as [Hr|Hr]; [rewrite (Hfree b Hr)|tauto].
  split; intros [? ?]; [tauto|done].
Qed.
(** An arena whose pages are free again. *)
Lemma pages_kept_drop P h r' a ar ds :
  heap_inv P h → arenas h !! a = Some ar → reused false (pages h) r' a (arena_pages ar) false →
  pages_kept h (Heap r' (delete a (arenas h)) ds).
Proof.
  intros Hok Ha (HB & HC & HU & Hu). simpl in *. split; [done|]. split; [done|]. split; [done|]. intros b Hb. simpl.
  rewrite (Hu b Hb).
  assert (Ho : ¬ a <= b < a + PGSIZE * arena_pages ar → owned (Heap r' (delete a (arenas h)) ds) b ↔ owned h b).
  { intros Hr. unfold owned. simpl. split.
    - intros (a' & ar' & [_ Hl]%lookup_delete_Some & Hb'). eauto.
    - intros (a' & ar' & Hl & Hb'). exists a', ar'. split; [|done]. apply lookup_delete_Some. split; [|done].
      intros <-. rewrite Ha in Hl. injection Hl as <-. done. }
  destruct (decide (a <= b < a + PGSIZE * arena_pages ar)) as [Hr|Hr]; [|by rewrite Ho].
  split; [by intros [? _]|]. intros [_ Hno]. exfalso. apply Hno. by exists a, ar.
Qed.

(** *** A block is taken *)

Lemma take_block_wp h i d b l :
  heap_inv (λ a, a = arena_of b) h → zlookup (descs h) i = Some d → free_list d = b :: l →
  wp (take_block i) h (λ r h', r = b ∧ heap_ok h' ∧ pages h' = pages h ∧ ¬ live h b (d_block_size d) ∧
    (∀ q n, live h' q n ↔ live h q n ∨ (q = b ∧ n = d_block_size d)) ∧ pages_kept h h').
Proof.
  intros Hok Hi Hl. destruct (hi_free _ _ Hok i d Hi) as [Hnd Hbl]. rewrite Hl in Hnd, Hbl.
  apply NoDup_cons in Hnd as [Hbn Hnd]. pose proof (Hbl b ltac:(left)) as Hb.
  destruct (block_facts _ _ _ _ _ Hok Hi Hb) as (ar & Ha & Hd & Hm & Hc & _ & _ & _ & _ & Hrun).
  rewrite Hl, free_in_cons, zlength_cons in Hc. pose proof (zlength_nonneg (free_in (arena_of b) l)).
  assert (Hcb : free_cnt ar <= blocks_per_arena d).
  { pose proof (hi_count _ _ Hok _ _ Ha) as Hco. unfold count_ok in Hco. rewrite Hd in Hco.
    destruct Hco as (d0 & Hi0 & _ & Hco). rewrite Hi in Hi0. injection Hi0 as <-. lia. }
  destruct (shape_ok _ _ _ (hi_descs _ _ Hok) Hi) as (Hss & Hbp & Hsz).
  assert (Hfc : 0 <= free_cnt ar - 1 < 2 ^ 64) by (unfold PGSIZE, ARENA_SIZE in *; nia).
  unfold take_block, get_desc. wp_pure. wp_step; [exact Hi|]. wp_pure. wp_step; [by rewrite Hl|]. rewrite Hl. wp_pure.
  eapply wp_eq; [by apply set_free_list_run|]. wp_pure. simpl.
  eapply wp_eq; [eapply (Hrun _ (Desc (d_block_size d) (blocks_per_arena d) l)); [done| |done]|].
  { apply zlookup_zinsert. by eapply zlookup_Some_range. }
  unfold get_arena. wp_pure. wp_step; [exact Ha|]. wp_pure.
  eapply wp_eq; [by apply set_free_cnt_run|]. wp_pure. simpl. rewrite u64_small by done.
  fold (upd h i d l (arena_of b) ar (free_cnt ar - 1)).
  split; [done|]. split; [|split; [done|split; [|split; [|by apply pages_kept_upd]]]].
  - eapply (upd_inv _ _ h i d l (arena_of b) ar); [exact Hok|done..| | | |].
    + intros q Hq. apply Hbl. by right.
    + lia.
    + left. lia.
    + intros a' Hne. split; [|done]. by rewrite Hl, free_in_cons_ne.
  - rewrite (live_split _ _ _ _ _ Hi), Hl. intros [[_ ?]|(_ & _ & Hnin)]; [done|]. apply Hnin. left.
  - intros q n. rewrite (live_upd h i d l _ _ _ q n Hi Ha Hd), (live_split h i d q n Hi), Hl.
    rewrite not_elem_of_cons. destruct (decide (q = b)) as [->|]; [|tauto]. tauto.
Qed.

(** *** Arenas of pages that were free *)

(** The pages of an arena that is made of pages that were free. *)
Lemma fresh_apart P h a c a2 ar : heap_inv P h → run_of (kernel_pool (pages h)) a c false → 0 < c →
  arenas h !! a2 = Some ar → a + PGSIZE * c <= a2 ∨ a2 + PGSIZE * arena_pages ar <= a.
Proof. intros Hok Hr Hc Ha. destruct (hi_arena _ _ Hok _ _ Ha) as (_ & Hp & Hr2). by apply (runs_apart (pages h)). Qed.
Lemma fresh_none P h a c : heap_inv P h → run_of (kernel_pool (pages h)) a c false → 0 < c → arenas h !! a = None.
Proof.
  intros Hok Hr Hc. destruct (arenas h !! a) as [ar|] eqn:Ha; [|done]. exfalso.
  destruct (hi_arena _ _ Hok _ _ Ha) as (_ & Hp & _).
  pose proof (fresh_apart _ _ _ _ _ _ Hok Hr Hc Ha). unfold PGSIZE in *. lia.
Qed.
Lemma fresh_arena P h a c ar r' : heap_inv P h → run_of (kernel_pool (pages h)) a c false → 0 < c →
  wf_pages r' → reused false (pages h) r' a c true → magic ar = ARENA_MAGIC → arena_pages ar = c →
  let m := <[a := ar]> (arenas h) in
  (∀ a2 ar2, m !! a2 = Some ar2 → magic ar2 = ARENA_MAGIC ∧ 0 < arena_pages ar2 ∧
     run_of (kernel_pool r') a2 (arena_pages ar2) true) ∧
  (∀ a1 a2 ar1 ar2, m !! a1 = Some ar1 → m !! a2 = Some ar2 → a1 ≠ a2 →
    a1 + PGSIZE * arena_pages ar1 <= a2 ∨ a2 + PGSIZE * arena_pages ar2 <= a1).
Proof.
  intros Hok Hr Hc Hwf Hre Hm Hp m. split.
  - intros a2 ar2 Ha2. unfold m in Ha2. apply lookup_insert_Some in Ha2 as [[<- <-]|[Hne Ha2]].
    + rewrite Hp. split; [done|]. split; [done|]. by apply (run_set (pages h) _ _ _ _ false).
    + destruct (hi_arena _ _ Hok _ _ Ha2) as (H1 & H2 & H3). split; [done|]. split; [done|].
      apply (run_keep (pages h) _ a c true); [done|done|lia|].
      destruct (fresh_apart _ _ _ _ _ _ Hok Hr Hc Ha2); lia.
  - intros a1 a2 ar1 ar2 H1 H2 Hne. unfold m in H1, H2.
    apply lookup_insert_Some in H1 as [[<- <-]|[Hne1 H1]]; apply lookup_insert_Some in H2 as [[<- <-]|[Hne2 H2]].
    + done.
    + rewrite Hp. by apply (fresh_apart _ h _ _ _ _ Hok).
    + rewrite Hp. destruct (fresh_apart _ h _ _ _ _ Hok Hr Hc H1); [by right|by left].
    + by apply (hi_apart _ _ Hok).
Qed.

(** *** A new arena *)

Definition blocks_of a d : list Z := blk a d <$> seqZ 0 (blocks_per_arena d).

Lemma push_blocks_wp h i a d c :
  shape <$> descs h = shapes → zlookup (descs h) i = Some d → arenas h !! a = Some (Arena ARENA_MAGIC (Some i) c) →
  0 < a → a + PGSIZE < 2 ^ 64 →
  wp (for_st (λ idx _, push_block i a idx) (seqZ 0 (blocks_per_arena d)) tt) h (λ _ h',
    h' = Heap (pages h) (arenas h)
      (zinsert i (Desc (d_block_size d) (blocks_per_arena d) (free_list d ++ blocks_of a d)) (descs h))).
Proof.
  intros Hsh Hi Ha H0 Hlt. destruct (shape_ok _ _ _ Hsh Hi) as (Hs & Hn & Hsz). pose proof (zlookup_Some_range _ _ _ Hi) as Hr.
  set (st := λ p : list Z, Heap (pages h) (arenas h)
    (zinsert i (Desc (d_block_size d) (blocks_per_arena d) (free_list d ++ (blk a d <$> p))) (descs h))).
  apply (wp_for (λ p _ h', h' = st p)).
  - intros p k r [] h' Hp ->.
    assert (Hk : 0 <= k < blocks_per_arena d).
    { assert (Hin : k ∈ seqZ 0 (blocks_per_arena d)) by (rewrite Hp; set_solver). apply elem_of_seqZ in Hin. lia. }
    assert (Hd : zlookup (descs (st p)) i = Some (Desc (d_block_size d) (blocks_per_arena d) (free_list d ++ (blk a d <$> p)))).
    { by apply zlookup_zinsert. }
    unfold push_block, get_desc. wp_pure. eapply wp_eq; [apply (arena_to_block_run (st p) a k i c _ Ha Hd); simpl; lia|].
    wp_pure. wp_step; [exact Hd|]. eapply wp_eq; [by apply set_free_list_run|]. unfold st. simpl.
    rewrite fmap_app. unfold zinsert. rewrite list_insert_insert_eq, app_assoc. done.
  - unfold st. rewrite app_nil_r. destruct h as [pg m ds]. simpl in *. f_equal.
    rewrite zlookup_nat in Hi by lia. unfold zinsert. rewrite list_insert_id; [done|]. rewrite Hi. by destruct d.
  - by intros [] h' ->.
Qed.

Lemma elem_blocks a d b : b ∈ blocks_of a d ↔ ∃ k, 0 <= k < blocks_per_arena d ∧ b = blk a d k.
Proof.
  unfold blocks_of. rewrite list_elem_of_fmap. split; intros (k & H1 & H2); exists k.
  - apply elem_of_seqZ in H2. split; [lia|done].
  - split; [done|]. apply elem_of_seqZ. lia.
Qed.
Lemma blocks_nodup a d : 0 < d_block_size d → NoDup (blocks_of a d).
Proof.
  intros Hs. unfold blocks_of. apply NoDup_fmap_2; [|apply NoDup_seqZ]. intros x y. unfold blk. nia.
Qed.
Lemma blocks_length a d : 0 <= blocks_per_arena d → zlength (blocks_of a d) = blocks_per_arena d.
Proof. intros. unfold zlength, blocks_of. rewrite length_fmap, length_seqZ. lia. Qed.
Lemma free_in_all a l : (∀ b, b ∈ l → arena_of b = a) → free_in a l = l.
Proof.
  induction l as [|b l IH]; intros Hl; [done|]. unfold free_in in *. rewrite filter_cons_True by (apply Hl; left).
  f_equal. apply IH. intros q Hq. apply Hl. by right.
Qed.
Lemma free_in_none a l : (∀ b, b ∈ l → arena_of b ≠ a) → free_in a l = [].
Proof.
  induction l as [|b l IH]; intros Hl; [done|]. unfold free_in in *. rewrite filter_cons_False by (apply Hl; left).
  apply IH. intros q Hq. apply Hl. by right.
Qed.

(** The state after a new arena has been made at [a]. *)
Definition with_arena h (r' : ram) i d a : heap :=
  Heap r' (<[a := Arena ARENA_MAGIC (Some i) (blocks_per_arena d)]> (arenas h))
    (zinsert i (Desc (d_block_size d) (blocks_per_arena d) (blocks_of a d)) (descs h)).

Section new_arena.
Context (h : heap) (r' : ram) (i a : Z) (d : desc).
Hypotheses (Hok : heap_ok h) (Hi : zlookup (descs h) i = Some d) (Hl : free_list d = [])
  (Hr : run_of (kernel_pool (pages h)) a 1 false) (Hwf : wf_pages r') (Hre : reused false (pages h) r' a 1 true).
Abbreviation h' := (with_arena h r' i d a).
Abbreviation d' := (Desc (d_block_size d) (blocks_per_arena d) (blocks_of a d)).

Lemma wa_none : arenas h !! a = None.
Proof. by apply (fresh_none (λ _, False) h a 1). Qed.
Lemma wa_desc j dj : zlookup (descs h') j = Some dj ↔ if decide (j = i) then dj = d' else zlookup (descs h) j = Some dj.
Proof.
  pose proof (zlookup_Some_range _ _ _ Hi). unfold with_arena. simpl. destruct (decide (j = i)) as [->|Hne].
  - rewrite zlookup_zinsert by done. naive_solver.
  - rewrite zlookup_zinsert_ne by (lia || done). done.
Qed.
Lemma wa_blocks_arena b : b ∈ blocks_of a d → arena_of b = a.
Proof. intros (k & Hk & ->)%elem_blocks. by apply (arena_of_blk (descs h) i d a k (hi_descs _ _ Hok) Hi (proj1 Hr)). Qed.
Lemma wa_block_new j dj b : arena_of b = a → block_of h' j dj b ↔ j = i ∧ ∃ k, 0 <= k < blocks_per_arena dj ∧ b = blk a dj k.
Proof.
  intros Hb. unfold block_of. rewrite Hb. unfold with_arena. simpl. rewrite lookup_insert_eq. split.
  - intros (ar & k & [= <-] & [= ->] & Hk & Hbk). eauto.
  - intros (-> & k & Hk & Hbk). eauto 10.
Qed.
Lemma wa_block_old j dj b : arena_of b ≠ a → block_of h' j dj b ↔ block_of h j dj b.
Proof. intros Hb. unfold block_of, with_arena. simpl. by rewrite lookup_insert_ne by done. Qed.
Lemma wa_old_arena j dj b : block_of h j dj b → arena_of b ≠ a.
Proof. intros (ar & k & Ha & _) He. rewrite He, wa_none in Ha. done. Qed.

Lemma wa_inv : heap_inv (λ a', a' = a) h'.
Proof.
  destruct (fresh_arena _ h a 1 (Arena ARENA_MAGIC (Some i) (blocks_per_arena d)) r' Hok Hr) as [Har Hap]; try done.
  destruct (shape_ok _ _ _ (hi_descs _ _ Hok) Hi) as (Hs & Hn & _).
  split.
  - done.
  - by apply shape_set; [apply Hok|].
  - done.
  - intros a2 ar2 Ha2. unfold with_arena in Ha2. simpl in Ha2. apply lookup_insert_Some in Ha2 as [[<- <-]|[Hne Ha2]].
    + unfold count_ok. simpl. exists d'. split; [by apply wa_desc; rewrite decide_True|]. simpl.
      rewrite free_in_all by apply wa_blocks_arena. rewrite blocks_length by lia. split; [done|]. by right.
    + pose proof (hi_count _ _ Hok _ _ Ha2) as Hc. unfold count_ok in *. destruct (a_desc ar2) as [j|]; [|done].
      destruct Hc as (dj & Hj & Hc & Hlt). destruct (decide (j = i)) as [->|Hji].
      * rewrite Hi in Hj. injection Hj as <-. exists d'. split; [by apply wa_desc; rewrite decide_True|]. simpl.
        rewrite free_in_none; [|intros b Hb; by rewrite (wa_blocks_arena b Hb)]. rewrite Hl in Hc. split; [done|].
        left. unfold zlength, free_in in Hc. simpl in Hc. lia.
      * exists dj. split; [by apply wa_desc; rewrite decide_False|]. split; [done|]. left. naive_solver.
  - exact Hap.
  - intros j dj Hj. apply wa_desc in Hj. destruct (decide (j = i)) as [->|Hji].
    + subst dj. split; [apply blocks_nodup; lia|]. intros b Hb. apply wa_block_new; [by apply wa_blocks_arena|].
      split; [done|]. by apply elem_blocks in Hb.
    + destruct (hi_free _ _ Hok j dj Hj) as [Hnd Hbl]. split; [done|]. intros b Hb.
      apply wa_block_old; [|by apply Hbl]. by eapply wa_old_arena, Hbl.
Qed.

Lemma wa_live q n : live h' q n ↔ live h q n.
Proof.
  assert (Hi' : zlookup (descs h') i = Some d') by (by apply wa_desc; rewrite decide_True).
  destruct (decide (arena_of q = a)) as [Hq|Hq].
  - split; intros (ar & Ha & Hm); exfalso.
    + rewrite Hq in Ha. unfold with_arena in Ha. simpl in Ha. rewrite lookup_insert_eq in Ha. injection Ha as <-.
      simpl in Hm. destruct Hm as (dj & Hj & _ & Hb & Hnin). apply wa_desc in Hj. rewrite decide_True in Hj by done. subst dj.
      apply wa_block_new in Hb as (_ & k & Hk & Hb); [|done]. apply Hnin. simpl. apply elem_blocks. eauto.
    + rewrite Hq, wa_none in Ha. done.
  - unfold live. unfold with_arena at 1. simpl. rewrite lookup_insert_ne by done.
    apply exist_proper. intros ar. apply and_iff_compat_l. destruct (a_desc ar) as [j|]; [|done].
    destruct (decide (j = i)) as [->|Hji].
    + split; intros (dj & Hj & -> & Hb & Hnin).
      * apply wa_desc in Hj. rewrite decide_True in Hj by done. subst dj. exists d. split; [done|]. split; [done|].
        split; [by apply (wa_block_old i d') in Hb|]. rewrite Hl. apply not_elem_of_nil.
      * rewrite Hi in Hj. injection Hj as <-. exists d'. split; [done|]. split; [done|].
        split; [by apply (wa_block_old i d')|]. simpl. intros Hin%wa_blocks_arena. done.
    + apply exist_proper. intros dj. rewrite wa_desc, decide_False by done. by rewrite wa_block_old.
Qed.
End new_arena.
End facts.
