(* ===== verification/MallocOps.v ===== *)
(** * malloc and free keep the invariant of the block allocator *)
From stdpp Require Import base numbers list sets gmap.
From Stdlib Require Import ZArith Lia.
From S2P Require Import Prelude Bytes CString Bitmap Palloc Malloc MallocInv.
Open Scope Z_scope.

Section facts.
Implicit Types (h : heap) (d : desc) (ar : arena) (a b i k : Z) (P Q : Z → Prop).

(** *** malloc *)

(** The block [p] of [n] bytes is new, and nothing else has changed for the
    users of other blocks. *)
Definition allocated h (p n : Z) h' : Prop :=
  p ≠ 0 ∧ (∀ n', ¬ live h p n') ∧ heap_ok h' ∧ pg_mem (pages h') = pg_mem (pages h) ∧
  (∀ q n', live h' q n' ↔ live h q n' ∨ (q = p ∧ n' = n)) ∧ pages_kept h h'.

Lemma live_fun h q n1 n2 : live h q n1 → live h q n2 → n1 = n2.
Proof.
  intros (ar & Ha & H1) (ar' & Ha' & H2). rewrite Ha in Ha'. injection Ha' as <-.
  destruct (a_desc ar); [|naive_solver]. destruct H1 as (d1 & Hd1 & -> & _), H2 as (d2 & Hd2 & -> & _). congruence.
Qed.
Lemma live_block_size h i d q n : zlookup (descs h) i = Some d → block_of h i d q → live h q n → n = d_block_size d.
Proof. intros Hi Hb Hl. apply (live_split h i d) in Hl as [[_ ?]|(_ & -> & _)]; done. Qed.

Lemma head_block P h i d b l : heap_inv P h → zlookup (descs h) i = Some d → free_list d = b :: l → 0 < b ∧ ∀ n, ¬ live h b n.
Proof.
  intros Hok Hi Hl. destruct (hi_free _ _ Hok i d Hi) as [_ Hbl]. pose proof (Hbl b ltac:(rewrite Hl; left)) as Hb.
  destruct (block_facts _ _ _ _ _ Hok Hi Hb) as (ar & _ & _ & _ & _ & H0 & _ & H1 & _).
  split; [unfold ARENA_SIZE in *; lia|]. intros n Hlive. apply (live_split h i d) in Hlive as [[_ ?]|(_ & _ & Hn)]; [done| |done].
  apply Hn. rewrite Hl. left.
Qed.

Lemma take_block_allocates P h i d : heap_inv P h → (∀ b, head (free_list d) = Some b → ∀ a, P a → a = arena_of b) →
  zlookup (descs h) i = Some d → free_list d ≠ [] →
  wp (take_block i) h (λ p h', allocated h p (d_block_size d) h').
Proof.
  intros Hok HP Hi Hne. destruct (free_list d) as [|b l] eqn:Hl; [done|].
  destruct (head_block _ _ _ _ _ _ Hok Hi Hl) as [H0 Hnl].
  eapply wp_mono; [apply (take_block_wp h i d b l); [|done|done]|].
  { eapply heap_inv_mono; [|exact Hok]. intros a. by apply HP. }
  intros p h' (-> & Hok' & Hpg & _ & Hlive & Hk). split; [lia|]. split; [done|]. split; [done|]. by split; [rewrite Hpg|].
Qed.

Lemma got_zero pg a cnt pg' : got 0 pg a cnt pg' →
  a ≠ 0 ∧ wf_pages pg' ∧ run_of (kernel_pool pg) a cnt false ∧ reused false pg pg' a cnt true ∧ pg_mem pg' = pg_mem pg.
Proof. intros (H1 & H2 & H3 & _ & H4 & H5). done. Qed.

Lemma on_ram_run {A} (m : ST ram A) h (x : A) r : m (pages h) = Done (x, r) → on_ram m h = Done (x, Heap r (arenas h) (descs h)).
Proof. intros Hm. unfold on_ram, zoom. by rewrite Hm. Qed.
Lemma heap_eta h : Heap (pages h) (arenas h) (descs h) = h.
Proof. by destruct h. Qed.

Lemma new_arena_wp h i d : heap_ok h → zlookup (descs h) i = Some d → free_list d = [] →
  wp (new_arena i) h (λ ok h',
    if ok then ∃ a r', h' = with_arena h r' i d a ∧ run_of (kernel_pool (pages h)) a 1 false ∧ wf_pages r' ∧
      reused false (pages h) r' a 1 true ∧ pg_mem r' = pg_mem (pages h)
    else h' = h ∧ ∀ b, ¬ run_of (kernel_pool (pages h)) b 1 false).
Proof.
  intros Hok Hi Hl. unfold new_arena. wp_pure. unfold palloc_get_page.
  destruct (palloc_get_cases (pages h) 0 1 (hi_pages _ _ Hok) ltac:(done)) as [(a & r' & Hrun & Hg)|[Hno Hrun]].
  - apply got_zero in Hg as (Ha0 & Hwf & Hr & Hre & Hmem).
    destruct (run_pos (pages h) false a 1 false (hi_pages _ _ Hok) Hr ltac:(done)) as [H0 Hlt].
    eapply wp_eq; [by apply on_ram_run|]. rewrite (proj2 (Z.eqb_neq a 0)) by done.
    unfold get_desc. wp_pure. wp_step; [exact Hi|]. unfold set_arena. wp_pure. simpl.
    eapply wp_mono; [eapply (push_blocks_wp _ i a d (blocks_per_arena d)); [apply Hok|done| |done|lia]|].
    { simpl. by rewrite lookup_insert_eq. }
    intros [] h' ->. wp_pure. exists a, r'. rewrite Hl. done.
  - eapply wp_eq; [exact (on_ram_run _ h 0 (pages h) Hrun)|]. rewrite heap_eta. wp_pure. done.
Qed.

Lemma find_desc_spec size ds i0 :
  match find_desc size ds i0 with
  | Some i => ∃ d, zlookup ds (i - i0) = Some d ∧ size <= d_block_size d ∧ i0 <= i
  | None => ∀ d, d ∈ ds → d_block_size d < size
  end.
Proof.
  revert i0. induction ds as [|d ds IH]; intros i0; simpl; [set_solver|].
  destruct (Z.leb_spec size (d_block_size d)).
  - exists d. rewrite Z.sub_diag. split; [done|]. lia.
  - specialize (IH (i0 + 1)). destruct (find_desc size ds (i0 + 1)) as [i|].
    + destruct IH as (d' & Hd & Hs & Hi). exists d'. split; [|lia].
      rewrite zlookup_nat in Hd |- * by lia. by replace (Z.to_nat (i - i0)) with (S (Z.to_nat (i - (i0 + 1)))) by lia.
    + intros d' [->|Hd]%elem_of_cons; [done|]. by apply IH.
Qed.

Lemma malloc_small_wp h i d : heap_ok h → zlookup (descs h) i = Some d →
  wp (ok ← (if bool_decide (free_list d = []) then new_arena i else mret true); if negb ok then mret 0 else take_block i) h
    (λ p h', allocated h p (d_block_size d) h' ∨ p = 0 ∧ h' = h ∧ ∀ b, ¬ run_of (kernel_pool (pages h)) b 1 false).
Proof.
  intros Hok Hi. wp_pure. destruct (bool_decide_reflect (free_list d = [])) as [Hl|Hl].
  - eapply wp_mono; [by apply (new_arena_wp h i d)|]. intros [] h1; simpl.
    2: { intros [-> Hno]. wp_pure. by right. }
    intros (a & r' & -> & Hr & Hwf & Hre & Hmem). 
    pose proof (wa_inv h r' i a d Hok Hi Hl Hr Hwf Hre) as Hinv.
    pose proof (wa_live h r' i a d Hok Hi Hl Hr) as Hlive.
    destruct (shape_ok _ _ _ (hi_descs _ _ Hok) Hi) as (Hs & Hn & _).
    eapply wp_mono; [apply (take_block_allocates _ _ i (Desc (d_block_size d) (blocks_per_arena d) (blocks_of a d)) Hinv)|].
    + simpl. intros b Hb a' ->. symmetry. apply (wa_blocks_arena h i a d Hok Hi Hr). by apply head_Some_elem_of.
    + apply (wa_desc h r' i a d Hi). by rewrite decide_True.
    + simpl. intros He. pose proof (blocks_length a d ltac:(lia)) as Hln. rewrite He in Hln. change (zlength []) with 0 in Hln. lia.
    + intros p h' (H1 & H2 & H3 & H4 & H5 & H6). left. split; [done|]. split; [intros n' Hn'; apply (H2 n'); by apply Hlive|].
      split; [done|]. split; [rewrite H4; exact Hmem|]. split; [intros q n'; by rewrite H5, Hlive|].
      eapply pages_kept_trans; [|exact H6]. apply (pages_kept_get _ _ _ 1); [by apply (wa_none h a)|done..].
  - wp_pure. simpl. eapply wp_mono; [by apply (take_block_allocates (λ _, False) h i d)|]. intros p h' Ha. by left.
Qed.

(** The state after a big block of [c] pages has been made at [a]. *)
Lemma with_big h r' a c :
  heap_ok h → run_of (kernel_pool (pages h)) a c false → 0 < c → wf_pages r' → reused false (pages h) r' a c true →
  pg_mem r' = pg_mem (pages h) →
  allocated h (a + ARENA_SIZE) (PGSIZE * c - ARENA_SIZE) (Heap r' (<[a := Arena ARENA_MAGIC None c]> (arenas h)) (descs h)).
Proof.
  intros Hok Hr Hc Hwf Hre Hmem. set (h' := Heap _ _ _).
  destruct (run_pos (pages h) false a c false (hi_pages _ _ Hok) Hr ltac:(lia)) as [H0 _].
  assert (Hnone : arenas h !! a = None) by (by apply (fresh_none (λ _, False) h a c)).
  assert (Har : arena_of (a + ARENA_SIZE) = a) by (by apply arena_of_aligned; [apply Hr|]).
  assert (Hblk : ∀ j dj b, block_of h' j dj b ↔ block_of h j dj b).
  { intros j dj b. unfold block_of, h'. simpl. destruct (decide (arena_of b = a)) as [->|Hne].
    - rewrite lookup_insert_eq, Hnone. naive_solver.
    - by rewrite lookup_insert_ne by done. }
  destruct (fresh_arena _ h a c (Arena ARENA_MAGIC None c) r' Hok Hr) as [Hpg Hap]; try done.
  split; [unfold ARENA_SIZE; lia|]. split; [|split; [|split; [done|split; [|by apply (pages_kept_get _ _ _ c)]]]].
  - intros n' (ar & Ha & _). by rewrite Har, Hnone in Ha.
  - split; [done|apply Hok|done| |done|].
    + intros a2 ar2 Ha2. unfold h' in Ha2. simpl in Ha2. apply lookup_insert_Some in Ha2 as [[<- <-]|[Hne Ha2]]; [done|].
      by apply (hi_count _ _ Hok).
    + intros j dj Hj. destruct (hi_free _ _ Hok j dj Hj) as [Hnd Hbl]. split; [done|]. intros b Hb. by apply Hblk, Hbl.
  - intros q n'. unfold live at 1. unfold h' at 1. simpl. destruct (decide (arena_of q = a)) as [Hq|Hq].
    + rewrite Hq, lookup_insert_eq. split.
      * intros (ar & [= <-] & Hm). cbn [a_desc free_cnt] in Hm. by right.
      * intros [(ar & Ha & _)|[-> ->]]; [by rewrite Hq, Hnone in Ha|]. eexists. split; [done|]. done.
    + rewrite lookup_insert_ne by done. split.
      * intros (ar & Ha & Hm). left. exists ar. split; [done|]. destruct (a_desc ar) as [j|]; [|done].
        destruct Hm as (dj & Hj & -> & Hb & Hn). exists dj. by rewrite Hblk in Hb.
      * intros [(ar & Ha & Hm)|[-> _]]; [|done]. exists ar. split; [done|]. destruct (a_desc ar) as [j|]; [|done].
        destruct Hm as (dj & Hj & -> & Hb & Hn). exists dj. by rewrite Hblk.
Qed.

(** The pages that a request for [size] bytes may need. *)
Definition no_memory h (size : Z) : Prop :=
  ∃ c, PGSIZE * c < size + ARENA_SIZE + PGSIZE ∧ 0 < c ∧ ∀ b, ¬ run_of (kernel_pool (pages h)) b c false.

Lemma malloc_wp h size : heap_ok h → 0 < size → size + ARENA_SIZE + PGSIZE <= 2 ^ 64 →
  wp (malloc size) h (λ p h',
    (∃ n, size <= n ∧ allocated h p n h') ∨ p = 0 ∧ h' = h ∧ no_memory h size).
Proof.
  intros Hok H0 Hlt. unfold malloc. rewrite (proj2 (Z.eqb_neq size 0)) by lia. wp_pure.
  pose proof (find_desc_spec size (descs h) 0) as Hf. destruct (find_desc size (descs h) 0) as [i|].
  - destruct Hf as (d & Hi & Hs & _). rewrite Z.sub_0_r in Hi. unfold get_desc. wp_pure. wp_step; [exact Hi|].
    eapply wp_mono; [exact (malloc_small_wp h i d Hok Hi)|]. intros p h' [Ha|(-> & -> & Hno)].
    + left. eauto.
    + right. split; [done|]. split; [done|]. exists 1. unfold ARENA_SIZE, PGSIZE. split; [lia|]. done.
  - unfold malloc_big. rewrite u64_small by (unfold PGSIZE, ARENA_SIZE in *; lia).
    set (c := (size + ARENA_SIZE + PGSIZE - 1) / PGSIZE).
    assert (Hc : 0 < c ∧ PGSIZE * c < size + ARENA_SIZE + PGSIZE ∧ size + ARENA_SIZE <= PGSIZE * c)
      by (unfold c, PGSIZE, ARENA_SIZE in *; zdiv).
    clearbody c. wp_pure.
    destruct (palloc_get_cases (pages h) 0 c (hi_pages _ _ Hok) ltac:(lia)) as [(a & r' & Hrun & Hg)|[Hno Hrun]].
    + apply got_zero in Hg as (Ha0 & Hwf & Hr & Hre & Hmem).
      destruct (run_pos (pages h) false a c false (hi_pages _ _ Hok) Hr ltac:(lia)) as [Hpos Hend].
      eapply wp_eq; [by apply on_ram_run|]. rewrite (proj2 (Z.eqb_neq a 0)) by done. unfold set_arena. wp_pure. simpl.
      rewrite u64_small by (unfold PGSIZE, ARENA_SIZE in *; lia).
      left. exists (PGSIZE * c - ARENA_SIZE). split; [lia|]. apply with_big; try done; lia.
    + eapply wp_eq; [exact (on_ram_run _ h 0 (pages h) Hrun)|]. rewrite heap_eta. wp_pure. right. split; [done|]. split; [done|].
      exists c. split; [lia|]. split; [lia|]. exact Hno.
Qed.

(** *** An arena goes back to the page allocator *)

Definition strip a d : desc :=
  Desc (d_block_size d) (blocks_per_arena d) (filter (λ b, arena_of b ≠ a) (free_list d)).
Definition dropped h (r' : ram) a : heap := Heap r' (delete a (arenas h)) (strip a <$> descs h).

Section dropped.
Context (P : Z → Prop) (h : heap) (r' : ram) (a : Z) (ar : arena).
Hypotheses (Hok : heap_inv P h) (Ha : arenas h !! a = Some ar) (Hwf : wf_pages r')
  (Hre : reused false (pages h) r' a (arena_pages ar) false) (HP : ∀ a', P a' → a' = a).
Abbreviation h' := (dropped h r' a).

Lemma dr_arena a' ar' : arenas h' !! a' = Some ar' ↔ a' ≠ a ∧ arenas h !! a' = Some ar'.
Proof. unfold dropped. simpl. rewrite lookup_delete_Some. naive_solver. Qed.
Lemma dr_desc j dj : zlookup (descs h') j = Some dj ↔ ∃ d, zlookup (descs h) j = Some d ∧ dj = strip a d.
Proof.
  unfold dropped. simpl. rewrite zlookup_fmap. destruct (zlookup (descs h) j); simpl; naive_solver.
Qed.
Lemma dr_block j dj b : block_of h' j dj b ↔ arena_of b ≠ a ∧ block_of h j dj b.
Proof.
  unfold block_of. split.
  - intros (ar' & k & [Hne Hl]%dr_arena & Hr). split; [done|]. eauto.
  - intros (Hne & ar' & k & Hl & Hr). exists ar', k. split; [by apply dr_arena|done].
Qed.
Lemma dr_free_in a' d : a' ≠ a → free_in a' (free_list (strip a d)) = free_in a' (free_list d).
Proof.
  intros Hne. unfold free_in. simpl. rewrite list_filter_filter_l; [done|]. intros b <-. done.
Qed.

Lemma dr_inv : heap_ok h'.
Proof.
  split.
  - done.
  - rewrite <- (hi_descs _ _ Hok). unfold dropped. simpl. rewrite <- list_fmap_compose. by apply list_fmap_ext.
  - intros a2 ar2 [Hne Hl]%dr_arena. destruct (hi_arena _ _ Hok _ _ Hl) as (H1 & H2 & H3). split; [done|]. split; [done|].
    apply (run_keep (pages h) _ a (arena_pages ar) false); [done|done|lia|].
    by apply (hi_apart _ _ Hok).
  - intros a2 ar2 [Hne Hl]%dr_arena. pose proof (hi_count _ _ Hok _ _ Hl) as Hc. unfold count_ok in *.
    destruct (a_desc ar2) as [j|]; [|done]. destruct Hc as (d & Hj & Hc & Hlt). exists (strip a d).
    split; [by apply dr_desc; eauto|]. rewrite dr_free_in by done. split; [done|]. left. naive_solver.
  - intros a1 a2 ar1 ar2 [Hne1 Hl1]%dr_arena [Hne2 Hl2]%dr_arena. by apply (hi_apart _ _ Hok).
  - intros j dj (d & Hj & ->)%dr_desc. destruct (hi_free _ _ Hok j d Hj) as [Hnd Hbl]. split; [by apply NoDup_filter|].
    intros b [Hne Hb]%list_elem_of_filter. apply dr_block. split; [done|]. by apply (Hbl b).
Qed.
Lemma dr_live q n : live h' q n ↔ live h q n ∧ arena_of q ≠ a.
Proof.
  unfold live at 1. split.
  - intros (ar' & [Hne Hl]%dr_arena & Hm). split; [|done]. exists ar'. split; [done|].
    destruct (a_desc ar') as [j|]; [|done]. destruct Hm as (dj & (d & Hj & ->)%dr_desc & -> & [_ Hb]%dr_block & Hn).
    exists d. split; [done|]. split; [done|]. split; [done|]. contradict Hn. simpl. by apply list_elem_of_filter.
  - intros [(ar' & Hl & Hm) Hne]. exists ar'. split; [by apply dr_arena|]. destruct (a_desc ar') as [j|]; [|done].
    destruct Hm as (d & Hj & -> & Hb & Hn). exists (strip a d). split; [apply dr_desc; eauto|]. split; [done|].
    split; [by apply dr_block|]. simpl. by intros [_ ?]%list_elem_of_filter.
Qed.
End dropped.

(** An arena whose count is full has all of its blocks in the free list. *)
Lemma all_free P h i d a ar : heap_inv P h → zlookup (descs h) i = Some d → arenas h !! a = Some ar → a_desc ar = Some i →
  free_cnt ar = blocks_per_arena d → ∀ b, b ∈ blocks_of a d ↔ b ∈ free_list d ∧ arena_of b = a.
Proof.
  intros Hok Hi Ha Hd Hc. destruct (hi_free _ _ Hok i d Hi) as [Hnd Hbl].
  destruct (shape_ok _ _ _ (hi_descs _ _ Hok) Hi) as (Hs & Hn & _).
  pose proof (hi_count _ _ Hok _ _ Ha) as Hco. unfold count_ok in Hco. rewrite Hd in Hco.
  destruct Hco as (d0 & Hi0 & Hcnt & _). rewrite Hi in Hi0. injection Hi0 as <-.
  assert (Hsub : free_in a (free_list d) ⊆+ blocks_of a d).
  { apply NoDup_submseteq; [by apply NoDup_filter|]. intros b [<- Hb]%list_elem_of_filter.
    destruct (Hbl b Hb) as (ar' & k & _ & _ & Hk & Hbk). apply elem_blocks. eauto. }
  assert (Hperm : free_in a (free_list d) ≡ₚ blocks_of a d).
  { apply submseteq_length_Permutation; [done|]. pose proof (blocks_length a d ltac:(lia)) as Hl.
    unfold zlength in *. lia. }
  intros b. rewrite <- Hperm. unfold free_in. rewrite list_elem_of_filter. tauto.
Qed.

Lemma remove_blocks_wp P h i d a ar :
  heap_inv P h → zlookup (descs h) i = Some d → arenas h !! a = Some ar → a_desc ar = Some i →
  free_cnt ar = blocks_per_arena d →
  wp (for_st (λ idx _, remove_block i a idx) (seqZ 0 (blocks_per_arena d)) tt) h (λ _ h',
    h' = Heap (pages h) (arenas h)
      (zinsert i (Desc (d_block_size d) (blocks_per_arena d) (filter (λ b, b ∉ blocks_of a d) (free_list d))) (descs h))).
Proof.
  intros Hok Hi Ha Hd Hc. destruct (shape_ok _ _ _ (hi_descs _ _ Hok) Hi) as (Hs & Hn & Hsz).
  pose proof (zlookup_Some_range _ _ _ Hi) as Hr. pose proof (all_free _ _ _ _ _ _ Hok Hi Ha Hd Hc) as Hall.
  destruct (arena_bounds _ _ _ _ Hok Ha) as (_ & H0 & Hlt). destruct (hi_arena _ _ Hok _ _ Ha) as (Hm & _ & _).
  assert (Hp1 : arena_pages ar = 1) by (unfold arena_pages; by rewrite Hd). rewrite Hp1 in Hlt.
  assert (Har : arenas h !! a = Some (Arena ARENA_MAGIC (Some i) (free_cnt ar))).
  { rewrite Ha. destruct ar. simpl in *. congruence. }
  set (st := λ p : list Z, Heap (pages h) (arenas h)
    (zinsert i (Desc (d_block_size d) (blocks_per_arena d) (filter (λ b, b ∉ blk a d <$> p) (free_list d))) (descs h))).
  apply (wp_for (λ p _ h', h' = st p)).
  - intros p k r [] h' Hp ->.
    assert (Hk : 0 <= k < blocks_per_arena d).
    { assert (Hin : k ∈ seqZ 0 (blocks_per_arena d)) by (rewrite Hp; set_solver). apply elem_of_seqZ in Hin. lia. }
    assert (Hkp : blk a d k ∉ blk a d <$> p).
    { intros (j & He & Hj)%list_elem_of_fmap. assert (j = k) as -> by (unfold blk in He; nia).
      pose proof (NoDup_seqZ 0 (blocks_per_arena d)) as Hnd. rewrite Hp in Hnd.
      apply NoDup_app in Hnd as (_ & Hnd & _). apply (Hnd k Hj). left. }
    assert (Hkl : blk a d k ∈ free_list d) by (apply Hall, elem_blocks; eauto).
    set (dp := Desc (d_block_size d) (blocks_per_arena d) (filter (λ b, b ∉ blk a d <$> p) (free_list d))).
    assert (Hdp : zlookup (descs (st p)) i = Some dp) by (by apply zlookup_zinsert).
    unfold remove_block, get_desc. wp_pure.
    eapply wp_eq; [apply (arena_to_block_run (st p) a k i (free_cnt ar) dp Har Hdp); simpl; lia|].
    wp_pure. wp_step; [exact Hdp|]. change (blk a dp k) with (blk a d k).
    rewrite bool_decide_eq_true_2 by (by apply list_elem_of_filter).
    eapply wp_eq; [by apply set_free_list_run|]. unfold st. simpl. unfold zinsert. rewrite list_insert_insert_eq.
    rewrite list_filter_filter. do 3 f_equal. apply list_filter_iff. intros b. rewrite fmap_app, not_elem_of_app.
    simpl. rewrite list_elem_of_singleton. tauto.
  - assert (Hid : filter (λ b, b ∉ blk a d <$> []) (free_list d) = free_list d).
    { clear. induction (free_list d) as [|b l IH]; [done|]. rewrite filter_cons_True by apply not_elem_of_nil. by rewrite IH. }
    unfold st. rewrite Hid. rewrite zlookup_nat in Hi by lia. unfold zinsert.
    rewrite list_insert_id; [by destruct h|]. rewrite Hi. by destruct d.
  - by intros [] h' ->.
Qed.

Lemma filter_agree (A B : Z → Prop) `{!∀ b, Decision (A b)} `{!∀ b, Decision (B b)} (l : list Z) :
  (∀ b, b ∈ l → A b ↔ B b) → filter A l = filter B l.
Proof.
  induction l as [|b l IH]; intros Hl; [done|]. rewrite !filter_cons, IH by (intros q Hq; apply Hl; by right).
  pose proof (Hl b ltac:(left)). by destruct (decide (A b)), (decide (B b)); try tauto.
Qed.
Lemma strip_same a d : (∀ b, b ∈ free_list d → arena_of b ≠ a) → strip a d = d.
Proof.
  intros Hn. unfold strip. destruct d as [s n l]. simpl in *. f_equal.
  induction l as [|b l IH]; [done|]. rewrite filter_cons_True by (apply Hn; left). f_equal. apply IH. intros q Hq. apply Hn. by right.
Qed.
(** The other descriptors have no blocks in the arena. *)
Lemma strip_others P h a ar j d : heap_inv P h → arenas h !! a = Some ar → a_desc ar ≠ Some j → zlookup (descs h) j = Some d →
  strip a d = d.
Proof.
  intros Hok Ha Hd Hj. apply strip_same. intros b Hb He. destruct (hi_free _ _ Hok j d Hj) as [_ Hbl].
  destruct (Hbl b Hb) as (ar' & k & Hl & Hd' & _). rewrite He in Hl. congruence.
Qed.
Lemma strip_descs P h i d a ar : heap_inv P h → zlookup (descs h) i = Some d → arenas h !! a = Some ar → a_desc ar = Some i →
  free_cnt ar = blocks_per_arena d →
  zinsert i (Desc (d_block_size d) (blocks_per_arena d) (filter (λ b, b ∉ blocks_of a d) (free_list d))) (descs h) = strip a <$> descs h.
Proof.
  intros Hok Hi Ha Hd Hc. pose proof (all_free _ _ _ _ _ _ Hok Hi Ha Hd Hc) as Hall.
  pose proof (zlookup_Some_range _ _ _ Hi) as Hr. unfold zlength in Hr.
  assert (Hf : filter (λ b, b ∉ blocks_of a d) (free_list d) = filter (λ b, arena_of b ≠ a) (free_list d)).
  { apply filter_agree. intros b Hb. rewrite Hall. tauto. }
  rewrite Hf. apply list_eq. intros n. rewrite list_lookup_fmap. unfold zinsert.
  destruct (decide (n = Z.to_nat i)) as [->|Hne].
  - rewrite list_lookup_insert_eq by lia. rewrite zlookup_nat in Hi by lia. by rewrite Hi.
  - rewrite list_lookup_insert_ne by done. destruct (descs h !! n) as [dj|] eqn:Hj; [|done]. simpl. f_equal. symmetry.
    apply (strip_others _ h a ar (Z.of_nat n) dj Hok Ha).
    + rewrite Hd. intros [= He]. lia.
    + rewrite zlookup_nat, Nat2Z.id by lia. done.
Qed.

Lemma free_arena_wp h i d a ar :
  heap_inv (λ a', a' = a) h → zlookup (descs h) i = Some d → arenas h !! a = Some ar → a_desc ar = Some i →
  free_cnt ar = blocks_per_arena d →
  wp (free_arena i a) h (λ _ h', ∃ r', h' = dropped h r' a ∧ reused false (pages h) r' a 1 false ∧ wf_pages r' ∧
    wiped (pg_mem (pages h)) (pg_mem r') a PGSIZE 204).
Proof.
  intros Hok Hi Ha Hd Hc. destruct (hi_arena _ _ Hok _ _ Ha) as (_ & _ & Hr).
  assert (Hp1 : arena_pages ar = 1) by (unfold arena_pages; by rewrite Hd). rewrite Hp1 in Hr.
  unfold free_arena, get_desc, get_arena. wp_pure. wp_step; [exact Hi|]. wp_pure. wp_step; [exact Ha|]. wp_pure.
  wp_step; [by apply Z.eqb_eq|]. wp_pure.
  eapply wp_mono; [by apply (remove_blocks_wp _ h i d a ar Hok)|]. intros [] h1 ->. wp_pure. simpl.
  rewrite (strip_descs _ _ _ _ _ _ Hok Hi Ha Hd Hc).
  pose proof (palloc_free_wp (pages h) false a 1 (hi_pages _ _ Hok) ltac:(done) Hr) as Hfree.
  apply wp_run_unit in Hfree as (r' & Hrun & Hwf & Hre & Hw).
  eapply wp_eq; [apply (on_ram_run (palloc_free_page a) _ tt r'); exact Hrun|]. simpl. exists r'. done.
Qed.

Lemma heap_inv_mem P h m' : (∀ x, is_Some (pg_mem (pages h) !! x) → is_Some (m' !! x)) → heap_inv P h →
  heap_inv P (Heap (Ram (kernel_pool (pages h)) (user_pool (pages h)) m') (arenas h) (descs h)).
Proof. intros Hm [H1 H2 H3 H4 H5 H6]. split; try done. by apply wf_pages_mem. Qed.

(** *** Live blocks do not overlap *)

Lemma live_range P h q n : heap_inv P h → live h q n →
  ∃ ar, arenas h !! arena_of q = Some ar ∧ arena_of q + ARENA_SIZE <= q ∧ 0 < n ∧
    q + n <= arena_of q + PGSIZE * arena_pages ar.
Proof.
  intros Hok (ar & Ha & Hm). exists ar. split; [done|]. destruct (hi_arena _ _ Hok _ _ Ha) as (_ & Hp & _).
  unfold arena_pages in *. destruct (a_desc ar) as [i|].
  - destruct Hm as (d & Hi & -> & Hb & _).
    destruct (block_facts _ _ _ _ _ Hok Hi Hb) as (ar' & _ & _ & _ & _ & _ & _ & H1 & H2 & _).
    destruct (shape_ok _ _ _ (hi_descs _ _ Hok) Hi) as (Hs & _). lia.
  - destruct Hm as [Hq ->]. unfold ARENA_SIZE, PGSIZE in *. lia.
Qed.

Lemma live_apart P h q1 n1 q2 n2 : heap_inv P h → live h q1 n1 → live h q2 n2 → q1 ≠ q2 → q1 + n1 <= q2 ∨ q2 + n2 <= q1.
Proof.
  intros Hok H1 H2 Hne. destruct (live_range _ _ _ _ Hok H1) as (ar1 & Ha1 & Hlo1 & Hn1 & Hhi1).
  destruct (live_range _ _ _ _ Hok H2) as (ar2 & Ha2 & Hlo2 & Hn2 & Hhi2).
  destruct (decide (arena_of q1 = arena_of q2)) as [He|He].
  - destruct H1 as (ar & Ha & Hm1), H2 as (ar' & Ha' & Hm2). rewrite He, Ha' in Ha. injection Ha as ->.
    destruct (a_desc ar) as [i|]; [|rewrite He in Hm1; lia].
    destruct Hm1 as (d & Hi & -> & (? & k1 & _ & _ & Hk1 & Hb1) & _).
    destruct Hm2 as (d' & Hi' & -> & (? & k2 & _ & _ & Hk2 & Hb2) & _). rewrite Hi in Hi'. injection Hi' as <-.
    rewrite He in Hb1. unfold blk in *. assert (k1 ≠ k2) by congruence. nia.
  - destruct (hi_apart _ _ Hok _ _ _ _ Ha1 Ha2 He); unfold ARENA_SIZE in *; lia.
Qed.

(** *** free *)

(** The block [p] is live no more; the blocks that are still live are as before. *)
Definition freed h (p : Z) h' : Prop :=
  heap_ok h' ∧ (∀ q n, live h' q n ↔ live h q n ∧ q ≠ p) ∧
  (∀ q n x, live h' q n → q <= x < q + n → pg_mem (pages h') !! x = pg_mem (pages h) !! x) ∧
  pages_kept h h'.

(** A block goes back to the free list; [Q] holds of its arena if all is free. *)
Lemma put_back_inv (Q : Z → Prop) h i d p ar :
  heap_ok h → zlookup (descs h) i = Some d → block_of h i d p → p ∉ free_list d → arenas h !! arena_of p = Some ar →
  (free_cnt ar + 1 < blocks_per_arena d ∨ Q (arena_of p) ∧ free_cnt ar + 1 = blocks_per_arena d) →
  let h' := upd h i d (p :: free_list d) (arena_of p) ar (free_cnt ar + 1) in
  heap_inv Q h' ∧ ∀ q n, live h' q n ↔ live h q n ∧ q ≠ p.
Proof.
  intros Hok Hi Hb Hn Ha HQ h'. destruct (block_facts _ _ _ _ _ Hok Hi Hb) as (ar' & Ha' & Hd & Hm & Hc & _).
  rewrite Ha in Ha'. injection Ha' as <-. destruct (hi_free _ _ Hok i d Hi) as [Hnd Hbl]. split.
  - apply (upd_inv (λ _, False) Q h i d (p :: free_list d) (arena_of p) ar); [exact Hok|done..| | | | |].
    + by apply NoDup_cons.
    + intros b [->|Hin]%elem_of_cons; [done|]. by apply Hbl.
    + rewrite free_in_cons, zlength_cons. lia.
    + done.
    + intros a' Hne. split; [|done]. by rewrite free_in_cons_ne.
  - intros q n. unfold h'. rewrite (live_upd h i d _ _ _ _ q n Hi Ha Hd), (live_split h i d q n Hi), not_elem_of_cons.
    destruct (decide (q = p)) as [->|]; tauto.
Qed.

Lemma freed_mem h p n m' : heap_ok h → live h p n → wiped (pg_mem (pages h)) m' p n 204 →
  ∀ q n' x, live h q n' → q ≠ p → q <= x < q + n' → m' !! x = pg_mem (pages h) !! x.
Proof.
  intros Hok Hp Hw q n' x Hq Hne Hx. rewrite Hw, decide_False; [done|].
  pose proof (live_apart _ _ _ _ _ _ Hok Hq Hp Hne). lia.
Qed.

(** No block of an arena that is entirely free is live. *)
Lemma full_not_live P h i d a ar q n : heap_inv P h → zlookup (descs h) i = Some d → arenas h !! a = Some ar → a_desc ar = Some i →
  free_cnt ar = blocks_per_arena d → live h q n → arena_of q ≠ a.
Proof.
  intros Hok Hi Ha Hd Hc (ar' & Ha' & Hm) He. rewrite He, Ha in Ha'. injection Ha' as <-. rewrite Hd in Hm.
  destruct Hm as (d0 & Hi0 & _ & (ar' & k & _ & _ & Hk & Hb) & Hn). rewrite Hi in Hi0. injection Hi0 as <-.
  apply Hn. apply (all_free _ _ _ _ _ _ Hok Hi Ha Hd Hc). apply elem_blocks. rewrite He in Hb. eauto.
Qed.

(** After its page has been given back, nothing that is live has changed. *)
Lemma dropped_mem P h a ar r' q n x : heap_inv P h → arenas h !! a = Some ar →
  wiped (pg_mem (pages h)) (pg_mem r') a (PGSIZE * arena_pages ar) 204 →
  live h q n → arena_of q ≠ a → q <= x < q + n → pg_mem r' !! x = pg_mem (pages h) !! x.
Proof.
  intros Hok Ha Hw Hq Hne Hx. rewrite Hw, decide_False; [done|].
  destruct (live_range _ _ _ _ Hok Hq) as (ar' & Ha' & Hlo & _ & Hhi).
  destruct (hi_apart _ _ Hok _ _ _ _ Ha' Ha Hne); unfold ARENA_SIZE in *; lia.
Qed.

(** The end of free, when the arena is entirely free. *)
Lemma free_full_wp h i d a ar :
  heap_inv (λ a', a' = a) h → zlookup (descs h) i = Some d → arenas h !! a = Some ar → a_desc ar = Some i →
  free_cnt ar = blocks_per_arena d →
  wp (free_arena i a) h (λ _ h', heap_ok h' ∧ (∀ q n, live h' q n ↔ live h q n) ∧
    (∀ q n x, live h' q n → q <= x < q + n → pg_mem (pages h') !! x = pg_mem (pages h) !! x) ∧ pages_kept h h').
Proof.
  intros Hok Hi Ha Hd Hc. assert (Hp1 : arena_pages ar = 1) by (unfold arena_pages; by rewrite Hd).
  eapply wp_mono; [by apply (free_arena_wp h i d a ar)|]. intros [] h' (r' & -> & Hre & Hwf & Hw). rewrite <- Hp1 in Hre.
  split; [by apply (dr_inv (λ a', a' = a) h r' a ar)|]. split; [|split; [|by apply (pages_kept_drop _ _ _ _ _ _ Hok Ha)]].
  - intros q n. rewrite (dr_live h r' a). split; [by intros [? _]|]. intros Hq. split; [done|].
    by apply (full_not_live _ h i d a ar q n Hok).
  - intros q n x [Hq Hne]%(dr_live h r' a) Hx. apply (dropped_mem _ h a ar r' q n x Hok Ha); try done. by rewrite Hp1.
Qed.

Lemma free_small_wp h p i d ar :
  heap_ok h → zlookup (descs h) i = Some d → block_of h i d p → p ∉ free_list d → arenas h !! arena_of p = Some ar →
  a_desc ar = Some i → wp (free p) h (λ _ h', freed h p h').
Proof.
  intros Hok Hi Hb Hn Ha Hd. set (a := arena_of p) in *.
  destruct (block_facts _ _ _ _ _ Hok Hi Hb) as (ar' & Ha' & _ & Hm & Hc & H0 & Hlt & Hlo & Hhi & Hrun).
  fold a in Ha', Hc, H0, Hlt, Hlo, Hhi, Hrun. rewrite Ha in Ha'. injection Ha' as <-.
  destruct (shape_ok _ _ _ (hi_descs _ _ Hok) Hi) as (Hs & Hbp & Hsz).
  assert (Hlive : live h p (d_block_size d)) by (apply (live_split h i d _ _ Hi); right; done).
  pose proof (hi_count _ _ Hok _ _ Ha) as Hco. unfold count_ok in Hco. rewrite Hd in Hco.
  destruct Hco as (d0 & Hi0 & _ & [Hcb|[[] _]]). rewrite Hi in Hi0. injection Hi0 as <-.
  pose proof (zlength_nonneg (free_in a (free_list d))) as Hc0. rewrite <- Hc in Hc0.
  destruct (hi_arena _ _ Hok _ _ Ha) as (_ & _ & Hr). unfold arena_pages in Hr. rewrite Hd in Hr.
  assert (Hms : wp (on_ram (on_mem (memset p 204 (d_block_size d)))) h (λ _ h', ∃ m',
    wiped (pg_mem (pages h)) m' p (d_block_size d) 204 ∧
    h' = Heap (Ram (kernel_pool (pages h)) (user_pool (pages h)) m') (arenas h) (descs h))).
  { unfold on_ram, on_mem. wp_pure. apply memset_wp; [unfold ARENA_SIZE in *; lia|lia| |].
    - intros x Hx. apply (run_mapped (pages h) false a 1 true _ (hi_pages _ _ Hok) Hr). unfold ARENA_SIZE in *. lia.
    - intros m' Hw. change (u8 204) with 204 in Hw. eauto. }
  unfold free. rewrite (proj2 (Z.eqb_neq p 0)) by (unfold ARENA_SIZE in *; lia). wp_pure.
  eapply wp_eq; [by apply (Hrun h d)|]. unfold get_arena. wp_pure. wp_step; [exact Ha|]. rewrite Hd.
  unfold get_desc. wp_pure. wp_step; [exact Hi|]. wp_pure.
  eapply wp_mono; [exact Hms|]. intros _ h1 (m' & Hw & ->). wp_pure.
  pose proof (heap_inv_mem (λ _, False) h m' (λ x, wiped_mapped _ _ _ _ _ x Hw) Hok) as Hok1.
  set (h1 := Heap _ (arenas h) (descs h)) in *.
  eapply wp_eq; [by apply (set_free_list_run h1 i d)|]. wp_pure.
  eapply wp_eq; [by apply (set_free_cnt_run _ a ar)|]. simpl.
  rewrite u64_small by (unfold PGSIZE, ARENA_SIZE in *; nia).
  change (Heap _ _ _) with (upd h1 i d (p :: free_list d) a ar (free_cnt ar + 1)).
  pose proof (freed_mem h p _ m' Hok Hlive Hw) as Hmem.
  destruct (Z.leb_spec (blocks_per_arena d) (free_cnt ar + 1)) as [Hfull|Hfull].
  - destruct (put_back_inv (λ a', a' = a) h1 i d p ar Hok1 Hi Hb Hn Ha) as [Hok2 Hlive2]; [right; split; [done|lia]|].
    fold a in Hok2, Hlive2. set (h2 := upd h1 i d (p :: free_list d) a ar (free_cnt ar + 1)) in *.
    eapply wp_mono; [apply (free_full_wp h2 i (Desc (d_block_size d) (blocks_per_arena d) (p :: free_list d)) a
      (Arena (magic ar) (a_desc ar) (free_cnt ar + 1)) Hok2)|].
    + apply (upd_desc h1); [done|]. by rewrite decide_True.
    + apply (upd_arena h1 _ _ _ _ _ _ _ Ha). exists ar. by rewrite decide_True.
    + done.
    + simpl. lia.
    + intros [] h' (Hok' & Hl' & Hmem' & Hk'). split; [done|]. split; [intros q n; by rewrite Hl', Hlive2|]. split.
      2: { eapply pages_kept_trans; [|exact Hk']. apply (pages_kept_trans _ h1); [by apply pages_kept_same|].
        apply pages_kept_upd; [done|by rewrite Hd]. }
      intros q n x Hq Hx. rewrite (Hmem' q n x Hq Hx). apply Hl', Hlive2 in Hq as [Hq Hne]. by apply (Hmem q n).
  - destruct (put_back_inv (λ _, False) h1 i d p ar Hok1 Hi Hb Hn Ha) as [Hok2 Hlive2]; [left; lia|]. wp_pure.
    split; [done|]. split; [done|]. split; [intros q n x [Hq Hne]%Hlive2 Hx; by apply (Hmem q n)|].
    apply (pages_kept_trans _ h1); [by apply pages_kept_same|]. apply pages_kept_upd; [done|by rewrite Hd].
Qed.

Lemma free_big_wp h p ar :
  heap_ok h → arenas h !! arena_of p = Some ar → a_desc ar = None → p = arena_of p + ARENA_SIZE →
  wp (free p) h (λ _ h', freed h p h').
Proof.
  intros Hok Ha Hd Hp. set (a := arena_of p) in *.
  destruct (hi_arena _ _ Hok _ _ Ha) as (Hm & Hpos & Hr). destruct (arena_bounds _ _ _ _ Hok Ha) as (_ & H0 & _).
  assert (Hpg : arena_pages ar = free_cnt ar) by (unfold arena_pages; by rewrite Hd).
  unfold free. rewrite (proj2 (Z.eqb_neq p 0)) by (unfold ARENA_SIZE in *; lia). wp_pure.
  eapply wp_eq; [apply (block_to_arena_run h p ar); [done|done|done|by rewrite Hd]|]. fold a.
  unfold get_arena. wp_pure. wp_step; [exact Ha|]. rewrite Hd. wp_pure. simpl. rewrite <- Hpg.
  pose proof (palloc_free_wp (pages h) false a (arena_pages ar) (hi_pages _ _ Hok) Hpos Hr) as Hfree.
  apply wp_run_unit in Hfree as (r' & Hrun & Hwf & Hre & Hw).
  eapply wp_eq; [apply (on_ram_run (palloc_free_multiple a (arena_pages ar)) _ tt r'); exact Hrun|]. simpl.
  assert (Hst : strip a <$> descs h = descs h).
  { apply list_eq. intros n. rewrite list_lookup_fmap. destruct (descs h !! n) as [dj|] eqn:Hj; [|done]. simpl. f_equal.
    apply (strip_others _ h a ar (Z.of_nat n) dj Hok Ha); [by rewrite Hd|]. rewrite zlookup_nat, Nat2Z.id by lia. done. }
  assert (Heq : Heap r' (delete a (arenas h)) (descs h) = dropped h r' a) by (unfold dropped; by rewrite Hst).
  rewrite Heq. split; [by apply (dr_inv (λ _, False) h r' a ar)|].
  split; [|split; [|by apply (pages_kept_drop _ _ _ _ _ _ Hok Ha)]].
  - intros q n. rewrite (dr_live h r' a). split; intros [Hq Hne]; (split; [done|]); [by intros ->|].
    intros He. apply Hne. destruct Hq as (ar' & Ha' & Hm'). rewrite He, Ha in Ha'. injection Ha' as <-. rewrite Hd in Hm'.
    rewrite He in Hm'. lia.
  - intros q n x [Hq Hne]%(dr_live h r' a) Hx. by apply (dropped_mem _ h a ar r' q n x Hok Ha).
Qed.

Lemma free_wp h p n : heap_ok h → live h p n → wp (free p) h (λ _ h', freed h p h').
Proof.
  intros Hok (ar & Ha & Hm). destruct (a_desc ar) as [i|] eqn:Hd.
  - destruct Hm as (d & Hi & _ & Hb & Hn). by apply (free_small_wp h p i d ar).
  - destruct Hm as [Hp _]. by apply (free_big_wp h p ar).
Qed.
End facts.
