(* ===== verification/MallocSpec.v ===== *)
(** * What the block allocator promises

    malloc, calloc, realloc and free, from a state that satisfies the invariant
    of MallocInv.v; where requests of absurd sizes go wrong; and an example. *)
From stdpp Require Import base numbers list sets gmap.
From Stdlib Require Import ZArith Lia.
From S2P Require Import Prelude Bytes CString Bitmap Palloc Malloc MallocInv MallocOps.
Open Scope Z_scope.

Section facts.
Implicit Types (h : heap) (d : desc) (ar : arena) (a b i k : Z) (P Q : Z → Prop).

Lemma live_mapped P h q n x : heap_inv P h → live h q n → q <= x < q + n → is_Some (pg_mem (pages h) !! x).
Proof.
  intros Hok Hq Hx. destruct (live_range _ _ _ _ Hok Hq) as (ar & Ha & Hlo & _ & Hhi).
  destruct (hi_arena _ _ Hok _ _ Ha) as (_ & Hp & Hr).
  apply (run_mapped (pages h) false _ _ _ _ (hi_pages _ _ Hok) Hr). unfold ARENA_SIZE in *. lia.
Qed.
Lemma live_pos P h q n : heap_inv P h → live h q n → 0 < q ∧ 0 < n ∧ q + n < 2 ^ 64.
Proof.
  intros Hok Hq. destruct (live_range _ _ _ _ Hok Hq) as (ar & Ha & Hlo & Hn & Hhi).
  destruct (arena_bounds _ _ _ _ Hok Ha) as (_ & H0 & Hlt). unfold ARENA_SIZE in *. lia.
Qed.

Lemma block_size_run h p n : heap_ok h → live h p n → block_size p h = Done (n, h).
Proof.
  intros Hok Hl. pose proof Hl as (ar & Ha & Hm). destruct (hi_arena _ _ Hok _ _ Ha) as (Hmg & Hpos & _).
  destruct (arena_bounds _ _ _ _ Hok Ha) as (_ & H0 & Hlt). apply wp_run_eq. unfold block_size. wp_pure.
  destruct (a_desc ar) as [i|] eqn:Hd.
  - destruct Hm as (d & Hi & -> & Hb & _). destruct (block_facts _ _ _ _ _ Hok Hi Hb) as (_ & _ & _ & _ & _ & _ & _ & _ & _ & Hrun).
    eapply wp_eq; [by apply (Hrun h d)|]. unfold get_arena. wp_pure. wp_step; [exact Ha|]. rewrite Hd.
    unfold get_desc. wp_pure. wp_step; [exact Hi|]. by wp_pure.
  - eapply wp_eq; [apply (block_to_arena_run h p ar); [done|done|done|rewrite Hd; apply Hm]|].
    unfold get_arena. wp_pure. wp_step; [exact Ha|]. rewrite Hd. wp_pure. split; [|done]. rewrite pg_ofs_mod.
    destruct (live_pos _ _ _ _ Hok Hl) as (_ & Hn & _). destruct Hm as [Hp ->]. unfold arena_pages in *. rewrite Hd in *.
    assert (Hmod : p mod PGSIZE = ARENA_SIZE) by (unfold arena_of in Hp; lia). rewrite Hmod.
    apply u64_small. unfold ARENA_SIZE in *. lia.
Qed.

(** Writing into a live block leaves the heap as it is. *)
Definition with_mem h (m' : mem) : heap :=
  Heap (Ram (kernel_pool (pages h)) (user_pool (pages h)) m') (arenas h) (descs h).
Lemma with_mem_run {A} (c : ST mem A) h (Q : A → heap → Prop) :
  wp c (pg_mem (pages h)) (λ r m', Q r (with_mem h m')) → wp (on_ram (on_mem c)) h Q.
Proof. intros Hwp. unfold on_ram, on_mem. wp_pure. exact Hwp. Qed.
Lemma overwritten_mapped m dst l m' x : overwritten m dst l m' → is_Some (m !! x) → is_Some (m' !! x).
Proof.
  intros Hw Hx. rewrite Hw. destruct (decide _); [|done]. apply zlookup_is_Some. lia.
Qed.
Lemma overwritten_at m dst l m' : overwritten m dst l m' → bytes_at m' dst l.
Proof. intros Hw i Hi. rewrite Hw, decide_True by lia. f_equal. lia. Qed.

(** The bytes of the blocks that stay live are the same. *)
Definition same_bytes h h' : Prop :=
  ∀ q n x, live h q n → q <= x < q + n → pg_mem (pages h') !! x = pg_mem (pages h) !! x.

Lemma calloc_wp h a b :
  heap_ok h → 0 < a → 0 < b → a * b + ARENA_SIZE + PGSIZE <= 2 ^ 64 →
  wp (calloc a b) h (λ p h',
    (∃ n, a * b <= n ∧ p ≠ 0 ∧ (∀ n', ¬ live h p n') ∧ heap_ok h' ∧ same_bytes h h' ∧
      (∀ q n', live h' q n' ↔ live h q n' ∨ (q = p ∧ n' = n)) ∧
      (∀ x, p <= x < p + a * b → pg_mem (pages h') !! x = Some 0) ∧ pages_kept h h') ∨
    p = 0 ∧ h' = h ∧ no_memory h (a * b)).
Proof.
  intros Hok Ha Hb Hlt. unfold calloc. rewrite u64_small by (unfold ARENA_SIZE, PGSIZE in *; nia).
  assert (Hge : a <= a * b ∧ b <= a * b) by nia.
  rewrite (proj2 (Z.ltb_ge _ _) (proj1 Hge)), (proj2 (Z.ltb_ge _ _) (proj2 Hge)). simpl. wp_pure.
  eapply wp_mono; [apply (malloc_wp h (a * b) Hok); [nia|done]|].
  intros p h1 [(n & Hn & Hp0 & Hnl & Hok1 & Hmem & Hl & Hk)|(-> & -> & Hno)].
  2: { simpl. wp_pure. by right. }
  rewrite (proj2 (Z.eqb_neq p 0)) by done. simpl. wp_pure. apply with_mem_run.
  assert (Hlive : live h1 p n) by (apply Hl; by right). destruct (live_pos _ _ _ _ Hok1 Hlive) as (Hp & _ & Hpe).
  apply memset_wp; [lia|nia| |].
  { intros x Hx. apply (live_mapped _ _ _ _ _ Hok1 Hlive). lia. }
  intros m' Hw. change (u8 0) with 0 in Hw. wp_pure. left. exists n. split; [done|]. split; [done|]. split; [done|]. split; [|split; [|split; [done|split]]].
  - apply heap_inv_mem; [|done]. intros x. by apply (wiped_mapped _ _ _ _ _ _ Hw).
  - intros q n' x Hq Hx. simpl. rewrite Hw, decide_False, Hmem; [done|].
    assert (Hqp : q ≠ p) by (intros ->; by apply (Hnl n')).
    destruct (live_apart _ _ q n' p n Hok1 ltac:(apply Hl; by left) Hlive Hqp); lia.
  - intros x Hx. simpl. rewrite Hw, decide_True by done. done.
  - apply (pages_kept_trans _ h1); [done|]. by apply pages_kept_same.
Qed.

Lemma realloc_wp h p n size l :
  heap_ok h → live h p n → 0 < size → size + ARENA_SIZE + PGSIZE <= 2 ^ 64 →
  Forall is_byte l → zlength l = Z.min size n → bytes_at (pg_mem (pages h)) p l →
  wp (realloc p size) h (λ r h',
    (∃ n', size <= n' ∧ r ≠ 0 ∧ heap_ok h' ∧ bytes_at (pg_mem (pages h')) r l ∧
      (∀ q m, live h' q m ↔ (live h q m ∧ q ≠ p) ∨ (q = r ∧ m = n')) ∧
      ∀ q m x, live h q m → q ≠ p → q <= x < q + m → pg_mem (pages h') !! x = pg_mem (pages h) !! x) ∨
    r = 0 ∧ h' = h ∧ no_memory h size).
Proof.
  intros Hok Hp H0 Hlt Hby Hlen Hat. destruct (live_pos _ _ _ _ Hok Hp) as (Hp0 & Hn0 & _).
  unfold realloc. rewrite (proj2 (Z.eqb_neq size 0)) by lia. wp_pure.
  eapply wp_mono; [apply (malloc_wp h size Hok); done|].
  intros r h1 [(n' & Hn' & Hr0 & Hnl & Hok1 & Hmem & Hl & Hk)|(-> & -> & Hno)].
  2: { rewrite andb_false_r. wp_pure. by right. }
  rewrite (proj2 (Z.eqb_neq p 0)), (proj2 (Z.eqb_neq r 0)) by lia. simpl. wp_pure.
  assert (Hp1 : live h1 p n) by (apply Hl; by left). assert (Hr1 : live h1 r n') by (apply Hl; by right).
  assert (Hne : p ≠ r) by (intros ->; by apply (Hnl n)).
  destruct (live_pos _ _ _ _ Hok1 Hr1) as (Hrp & _ & _).
  eapply wp_eq; [by apply (block_size_run h1 p n)|].
  replace (if size <? n then size else n) with (zlength l) by (rewrite Hlen; destruct (Z.ltb_spec size n); lia).
  wp_pure. apply with_mem_run.
  pose proof (live_apart _ _ _ _ _ _ Hok1 Hp1 Hr1 Hne) as Hap.
  eapply wp_mono; [apply (memcpy_wp (pg_mem (pages h1)) r p l Hby); [lia|lia|by rewrite Hmem| |lia]|].
  { intros x Hx. apply (live_mapped _ _ _ _ _ Hok1 Hr1). lia. }
  intros _ m' [_ Hov].
  assert (Hok2 : heap_ok (with_mem h1 m')).
  { apply heap_inv_mem; [|done]. intros x. by apply (overwritten_mapped _ _ _ _ _ Hov). }
  eapply wp_mono; [exact (free_wp (with_mem h1 m') p n Hok2 Hp1)|]. intros [] h2 (Hok3 & Hl3 & Hmem3 & Hk3). wp_pure.
  assert (Hr3 : live h2 r n') by (by apply Hl3).
  left. exists n'. split; [done|]. split; [done|]. split; [done|]. split; [|split].
  - intros i Hi. rewrite (Hmem3 r n' (r + i) Hr3) by lia. by apply (overwritten_at _ _ _ _ Hov).
  - intros q m. rewrite Hl3. change (live (with_mem h1 m') q m) with (live h1 q m). rewrite Hl. naive_solver.
  - intros q m x Hq Hqp Hx. assert (Hqr : q ≠ r) by (intros ->; by apply (Hnl m)).
    assert (Hq1 : live h1 q m) by (apply Hl; by left).
    rewrite (Hmem3 q m x) by (by apply Hl3 || done). simpl. rewrite Hov, decide_False, Hmem; [done|].
    destruct (live_apart _ _ q m r n' Hok1 Hq1 Hr1 Hqr); lia.
Qed.

Lemma malloc_init_run r : malloc_init (Heap r ∅ []) = Done (tt, Heap r ∅ ((λ s, Desc (fst s) (snd s) []) <$> shapes)).
Proof. reflexivity. Qed.

Lemma init_ok r : wf_pages r → heap_ok (Heap r ∅ ((λ s, Desc (fst s) (snd s) []) <$> shapes)).
Proof.
  intros Hwf. split; [done|done|done|done|done|]. intros i d Hi. cbn [descs] in Hi. rewrite zlookup_fmap in Hi.
  destruct (zlookup shapes i); [|done]. injection Hi as <-. simpl. split; [apply NoDup_nil_2|]. intros b Hb. by apply not_elem_of_nil in Hb.
Qed.
End facts.

(** ** No page is lost *)

Section leak.
Implicit Types (h : heap) (d : desc) (ar : arena) (a b i k : Z).

(** An arena has a block that is live. *)
Lemma arena_live h a ar : heap_ok h → arenas h !! a = Some ar → ∃ q n, live h q n.
Proof.
  intros Hok Ha. destruct (arena_bounds _ _ _ _ Hok Ha) as (Hal & _ & _). destruct (a_desc ar) as [i|] eqn:Hd.
  - pose proof (hi_count _ _ Hok _ _ Ha) as Hc. unfold count_ok in Hc. rewrite Hd in Hc.
    destruct Hc as (d & Hi & Hc & [Hlt|[[] _]]). destruct (shape_ok _ _ _ (hi_descs _ _ Hok) Hi) as (Hs & Hn & _).
    destruct (decide (Exists (λ b, b ∉ free_list d) (blocks_of a d))) as [Hex|Hall].
    + apply Exists_exists in Hex as (q & (k & Hk & ->)%elem_blocks & Hq).
      assert (Har : arena_of (blk a d k) = a) by (by apply (arena_of_blk (descs h) i d a k (hi_descs _ _ Hok) Hi)).
      exists (blk a d k), (d_block_size d). exists ar. rewrite Har. split; [done|]. rewrite Hd. exists d.
      split; [done|]. split; [done|]. split; [|done]. exists ar, k. rewrite Har. done.
    + exfalso. assert (Hsub : blocks_of a d ⊆+ free_in a (free_list d)).
      { apply NoDup_submseteq; [apply blocks_nodup; lia|]. intros q Hq. unfold free_in. apply list_elem_of_filter.
        pose proof Hq as (k & Hk & ->)%elem_blocks.
        split; [by apply (arena_of_blk (descs h) i d a k (hi_descs _ _ Hok) Hi)|].
        destruct (decide (blk a d k ∈ free_list d)); [done|]. exfalso. apply Hall, Exists_exists. eauto. }
      apply submseteq_length in Hsub. pose proof (blocks_length a d ltac:(lia)). unfold zlength in *. lia.
  - assert (Har : arena_of (a + ARENA_SIZE) = a) by (by apply arena_of_aligned).
    exists (a + ARENA_SIZE), (PGSIZE * free_cnt ar - ARENA_SIZE), ar. rewrite Har, Hd. done.
Qed.
Lemma no_leak h : heap_ok h → (∀ q n, ¬ live h q n) → arenas h = ∅.
Proof.
  intros Hok Hno. apply map_empty. intros a. destruct (arenas h !! a) as [ar|] eqn:Ha; [|done].
  destruct (arena_live h a ar Hok Ha) as (q & n & Hl). by destruct (Hno q n).
Qed.
End leak.

(** ** Properties *)

(** What the users of the allocator do: they get blocks, write into their
    blocks, and give them back. *)
Inductive use : heap → heap → Prop :=
  | use_malloc h size p h' : 0 <= size → size + ARENA_SIZE + PGSIZE <= 2 ^ 64 → malloc size h = Done (p, h') → use h h'
  | use_calloc h a b p h' : 0 < a → 0 < b → a * b + ARENA_SIZE + PGSIZE <= 2 ^ 64 → calloc a b h = Done (p, h') → use h h'
  | use_free h p n h' : live h p n → free p h = Done (tt, h') → use h h'
  | use_write h q n x v : live h q n → q <= x < q + n → use h (with_mem h (<[x := v]> (pg_mem (pages h)))).

Lemma use_ok h h' : use h h' → heap_ok h → heap_ok h' ∧ pages_kept h h'.
Proof.
  intros [h0 size p h1 H0 Hlt Hrun|h0 a b p h1 Ha Hb Hlt Hrun|h0 p n h1 Hl Hrun|h0 q n x v Hl Hx] Hok.
  - destruct (decide (size = 0)) as [->|Hne]; [injection Hrun as <- <-; by split|].
    pose proof (malloc_wp h0 size Hok ltac:(lia) Hlt) as Hwp. unfold wp in Hwp. rewrite Hrun in Hwp.
    destruct Hwp as [(n & _ & _ & _ & Hok' & _ & _ & Hk)|(_ & -> & _)]; by split.
  - pose proof (calloc_wp h0 a b Hok Ha Hb Hlt) as Hwp. unfold wp in Hwp. rewrite Hrun in Hwp.
    destruct Hwp as [(n & _ & _ & _ & Hok' & _ & _ & _ & Hk)|(_ & -> & _)]; by split.
  - pose proof (free_wp h0 p n Hok Hl) as Hwp. unfold wp in Hwp. rewrite Hrun in Hwp.
    destruct Hwp as (? & _ & _ & ?). by split.
  - split; [|by apply pages_kept_same]. apply heap_inv_mem; [|done]. intros y Hy. by apply lookup_insert_is_Some'; right.
Qed.

Lemma use_rtc_ok h h' : rtc use h h' → heap_ok h → heap_ok h' ∧ pages_kept h h'.
Proof.
  induction 1 as [h1|h1 h2 h3 H12 _ IH]; intros Hok; [by split|]. destruct (use_ok _ _ H12 Hok) as [Hok2 Hk].
  destruct (IH Hok2) as [? ?]. split; [done|]. by eapply pages_kept_trans.
Qed.

(** Every page of the kernel pool is as free as in [r], and so is the user pool. *)
Definition pages_back (r : ram) h : Prop :=
  user_pool (pages h) = user_pool r ∧ base (kernel_pool (pages h)) = base (kernel_pool r) ∧
  bit_cnt (used_map (kernel_pool (pages h))) = bit_cnt (used_map (kernel_pool r)) ∧
  ∀ b, in_pool (kernel_pool r) b → page_used (kernel_pool (pages h)) b = page_used (kernel_pool r) b.

Lemma none_live r ds q n : ¬ live (Heap r ∅ ds) q n.
Proof. by intros (ar & Ha & _). Qed.

Lemma kept_back r ds h : pages_kept (Heap r ∅ ds) h → arenas h = ∅ → pages_back r h.
Proof.
  intros (Hu & Hb & Hc & Hp) Ha. split; [done|]. split; [done|]. split; [done|]. intros b Hin. specialize (Hp b Hin).
  assert (Hno : ¬ owned h b) by (intros (a & ar & Hl & _); by rewrite Ha in Hl).
  assert (Hno' : ¬ owned (Heap r ∅ ds) b) by (by intros (a & ar & Hl & _)). simpl in Hp.
  destruct (page_used (kernel_pool (pages h)) b), (page_used (kernel_pool r) b); naive_solver.
Qed.

(** C3: However malloc, calloc and free are used after malloc_init, with sizes
    that are at least a page and a header short of 2^64: malloc answers; the blocks
    in use can be freed and do not overlap; a page of the kernel pool that was in
    use before is in use and in no arena, a page that was free is free or in an
    arena; and when no block is left, exactly the pages are free that were free
    at the start. *)
Theorem heap_safe r h0 h :
  wf_pages r → malloc_init (Heap r ∅ []) = Done (tt, h0) → rtc use h0 h →
  (∀ size, 0 <= size → size + ARENA_SIZE + PGSIZE <= 2 ^ 64 → ∃ p h', malloc size h = Done (p, h')) ∧
  (∀ p n, live h p n → ∃ h', free p h = Done (tt, h')) ∧
  (∀ q1 n1 q2 n2, live h q1 n1 → live h q2 n2 → q1 ≠ q2 → q1 + n1 <= q2 ∨ q2 + n2 <= q1) ∧
  pages_kept h0 h ∧
  ((∀ q n, ¬ live h q n) → pages_back r h).
Proof.
  intros Hwf Hinit Huse. rewrite malloc_init_run in Hinit. injection Hinit as <-.
  destruct (use_rtc_ok _ _ Huse (init_ok r Hwf)) as [Hok Hk].
  split; [|split; [|split; [|split; [done|]]]].
  - intros size H0 Hlt. destruct (decide (size = 0)) as [->|Hne]; [by exists 0, h|].
    destruct (wp_run _ _ _ (malloc_wp h size Hok ltac:(lia) Hlt)) as (p & h' & Hrun & _). eauto.
  - intros p n Hl. destruct (wp_run_unit _ _ _ (free_wp h p n Hok Hl)) as (h' & Hrun & _). eauto.
  - intros q1 n1 q2 n2. by apply (live_apart (λ _, False)).
  - intros Hno. apply (kept_back _ _ _ Hk). by apply no_leak.
Qed.

(** C22: malloc answers a null pointer and changes nothing, if there are no pages;
    or a new block of at least the size that is asked for, which overlaps with
    no block in use, while the other blocks keep their bytes. *)
Theorem malloc_spec h size :
  heap_ok h → 0 < size → size + ARENA_SIZE + PGSIZE <= 2 ^ 64 →
  ∃ p h', malloc size h = Done (p, h') ∧
    ((p = 0 ∧ h' = h ∧ no_memory h size) ∨
     ∃ n, size <= n ∧ allocated h p n h' ∧
       ∀ q m, live h q m → q + m <= p ∨ p + n <= q).
Proof.
  intros Hok H0 Hlt. apply wp_run. eapply wp_mono; [by apply malloc_wp|].
  intros p h' [(n & Hn & Ha)|?]; [|by left]. right. exists n. split; [done|]. split; [done|].
  destruct Ha as (Hp & Hnl & Hok' & _ & Hl & _). intros q m Hq.
  apply (live_apart (λ _, False) h'); [done|apply Hl; by left|apply Hl; by right|]. intros ->. by apply (Hnl m).
Qed.

(** free takes exactly the block away; the others keep their bytes. *)
Theorem free_spec h p n :
  heap_ok h → live h p n → ∃ h', free p h = Done (tt, h') ∧ freed h p h'.
Proof.
  intros Hok Hl. apply wp_run_unit. eapply wp_mono; [by apply (free_wp h p n)|]. by intros [] h'.
Qed.

(** realloc moves the first bytes of a block into a new block of the size
    that is asked for, and frees the old one; the other blocks keep their bytes.
    Without pages it answers a null pointer and the old block stays. *)
Theorem realloc_spec h p n size l :
  heap_ok h → live h p n → 0 < size → size + ARENA_SIZE + PGSIZE <= 2 ^ 64 →
  Forall is_byte l → zlength l = Z.min size n → bytes_at (pg_mem (pages h)) p l →
  ∃ r h', realloc p size h = Done (r, h') ∧
    ((∃ n', size <= n' ∧ r ≠ 0 ∧ heap_ok h' ∧ bytes_at (pg_mem (pages h')) r l ∧
      (∀ q m, live h' q m ↔ (live h q m ∧ q ≠ p) ∨ (q = r ∧ m = n')) ∧
      ∀ q m x, live h q m → q ≠ p → q <= x < q + m → pg_mem (pages h') !! x = pg_mem (pages h) !! x) ∨
     r = 0 ∧ h' = h ∧ no_memory h size).
Proof. intros. apply wp_run. by apply realloc_wp with n. Qed.

(** calloc answers a block of zeroes. *)
Theorem calloc_spec h a b :
  heap_ok h → 0 < a → 0 < b → a * b + ARENA_SIZE + PGSIZE <= 2 ^ 64 →
  ∃ p h', calloc a b h = Done (p, h') ∧
    ((∃ n, a * b <= n ∧ p ≠ 0 ∧ (∀ n', ¬ live h p n') ∧ heap_ok h' ∧ same_bytes h h' ∧
      (∀ q n', live h' q n' ↔ live h q n' ∨ (q = p ∧ n' = n)) ∧
      (∀ x, p <= x < p + a * b → pg_mem (pages h') !! x = Some 0) ∧ pages_kept h h') ∨
     p = 0 ∧ h' = h ∧ no_memory h (a * b)).
Proof. intros. apply wp_run. by apply calloc_wp. Qed.

(** ** Absurd sizes *)

(** C40: A request for a size near to 2^64 overflows: malloc answers an address in
    the first page of the kernel pool, of which it has got no page, and has made
    a header there. *)
Theorem malloc_wraps h size :
  heap_ok h → 2 ^ 64 - ARENA_SIZE - PGSIZE < size <= 2 ^ 64 - ARENA_SIZE →
  let p := base (kernel_pool (pages h)) in
  ∃ h', malloc size h = Done (p + ARENA_SIZE, h') ∧
    arenas h' !! p = Some (Arena ARENA_MAGIC None 0) ∧
    ∀ b, in_pool (kernel_pool (pages h)) b → page_used (kernel_pool (pages h')) b = page_used (kernel_pool (pages h)) b.
Proof.
  intros Hok Hs p. destruct (wp_kernel _ (hi_pages _ _ Hok)) as [[Hm _] (Hb & Hbal & He) _]. unfold pool_end in He.
  assert (Hend : p + ARENA_SIZE < 2 ^ 64) by (unfold p, ARENA_SIZE, PGSIZE in *; zdiv).
  unfold malloc. rewrite (proj2 (Z.eqb_neq size 0)) by (unfold ARENA_SIZE, PGSIZE in *; lia).
  pose proof (find_desc_spec size (descs h) 0) as Hf. destruct (find_desc size (descs h) 0) as [i|] eqn:Hfind.
  { exfalso. destruct Hf as (d & Hi & Hd & _). rewrite Z.sub_0_r in Hi.
    destruct (shape_ok _ _ _ (hi_descs _ _ Hok) Hi) as (Hsz & _). unfold ARENA_SIZE, PGSIZE in *. lia. }
  assert (Hcnt : u64 (size + ARENA_SIZE + PGSIZE - 1) / PGSIZE = 0).
  { unfold u64, ARENA_SIZE, PGSIZE in *. zdiv. }
  assert (Hrun0 : run_of (kernel_pool (pages h)) p 0 false).
  { unfold run_of, pool_end, p, PGSIZE in *. split; [done|]. split; [lia|]. split; [lia|]. intros b Hbr. lia. }
  destruct (palloc_get_cases (pages h) 0 0 (hi_pages _ _ Hok) ltac:(done)) as [(a & r' & Hrun & Hg)|[Hno _]].
  2: { by destruct (Hno p). }
  pose proof Hg as (Ha0 & _ & (_ & Hle & _) & Hfirst & (_ & _ & _ & Hu) & _). simpl in Hle, Hu.
  assert (a = p) as -> by (specialize (Hfirst p Hrun0); unfold p in *; lia).
  exists (Heap r' (<[p := Arena ARENA_MAGIC None 0]> (arenas h)) (descs h)). split; [|split].
  - apply wp_run_eq. wp_pure. rewrite Hfind. unfold malloc_big. rewrite Hcnt. wp_pure.
    eapply wp_eq; [by apply on_ram_run|]. rewrite (proj2 (Z.eqb_neq p 0)) by done. unfold set_arena. wp_pure.
    by rewrite u64_small by (unfold p, ARENA_SIZE in *; lia).
  - apply lookup_insert_eq.
  - intros b Hin. simpl. rewrite Hu by done. by rewrite decide_False by (unfold PGSIZE; lia).
Qed.

(** A product that overflows and is still larger than both factors gets through
    the check in calloc. *)
Lemma calloc_overflow h : calloc (2 ^ 32 + 1) (2 ^ 32 + 1) h = calloc 1 (2 ^ 33 + 1) h.
Proof. reflexivity. Qed.

(** ** An example: four free pages in each pool *)

Definition example_base : Z := 549823971328. (* KERN_BASE + 1 MB *)
Definition example_mem : mem := gset_to_gmap 0 (list_to_set (seqZ example_base (8 * PGSIZE))).
Definition example_ram : ram :=
  Ram (Pool (Bitmap 4 [0]) example_base) (Pool (Bitmap 4 [0]) (example_base + 4 * PGSIZE))
    example_mem.
Definition example_heap : heap := Heap example_ram ∅ ((λ s, Desc (fst s) (snd s) []) <$> shapes).

Lemma example_mapped a : example_base <= a < example_base + 8 * PGSIZE → is_Some (pg_mem example_ram !! a).
Proof.
  intros Ha. exists 0. unfold example_ram, pg_mem, example_mem. apply lookup_gset_to_gmap_Some. split; [|done].
  by apply elem_of_list_to_set, elem_of_seqZ.
Qed.
Lemma example_zero a x : pg_mem example_ram !! a = Some x → x = 0.
Proof. unfold example_ram, pg_mem, example_mem. by intros [_ <-]%lookup_gset_to_gmap_Some. Qed.
#[local] Opaque example_mem.
Lemma example_pool user : wf_pool (pg_mem example_ram) (pool_of user example_ram).
Proof.
  assert (Hp : used_map (pool_of user example_ram) = Bitmap 4 [0] ∧
    base (pool_of user example_ram) = example_base + (if user then 4 * PGSIZE else 0)) by (by destruct user).
  destruct Hp as [Hm Hb]. split.
  - rewrite Hm. split; done.
  - unfold pool_end. rewrite Hm, Hb. by destruct user.
  - intros a Ha. apply example_mapped. unfold pool_end in Ha. rewrite Hm, Hb in Ha. simpl in Ha.
    unfold PGSIZE in *. destruct user; lia.
Qed.
Lemma example_ram_wf : wf_pages example_ram.
Proof. split; [apply (example_pool false)|apply (example_pool true)|]. by left. Qed.
Lemma example_ok : heap_ok example_heap.
Proof. apply init_ok, example_ram_wf. Qed.
Lemma example_free : run_of (kernel_pool example_ram) example_base 1 false.
Proof.
  split; [done|]. split; [done|]. split; [done|]. intros b Hb. unfold page_used. simpl.
  replace ((b - example_base) / PGSIZE) with 0 by (unfold PGSIZE in *; zdiv). done.
Qed.
(** A block of 100 bytes is live after malloc. *)
Lemma example_block : ∃ h p n, heap_ok h ∧ live h p n ∧ 100 <= n ∧ bytes_at (pg_mem (pages h)) p [0].
Proof.
  destruct (wp_run _ _ _ (malloc_wp example_heap 100 example_ok ltac:(done) ltac:(done))) as
    (p & h & _ & [(n & Hn & _ & _ & Hok & Hmem & Hl & _)|(_ & _ & c & Hc & H0 & Hno)]).
  - exists h, p, n. assert (Hlive : live h p n) by (apply (proj2 (Hl p n)); right; split; reflexivity). split; [exact Hok|]. split; [exact Hlive|]. split; [exact Hn|].
    intros i Hi. change (zlength [0]) with 1 in Hi. replace i with 0 by lia. rewrite Z.add_0_r.
    destruct (live_mapped (λ _, False) h p n p Hok Hlive ltac:(lia)) as [x Hx]. rewrite Hx. rewrite Hmem in Hx.
    by rewrite (example_zero _ _ Hx).
  - exfalso. assert (c = 1) as -> by (unfold PGSIZE, ARENA_SIZE in *; lia). by apply (Hno example_base), example_free.
Qed.

Lemma palloc_get_multiple_spec_witness : ∃ a pg', palloc_get_multiple 0 1 example_ram = Done (a, pg') ∧ got 0 example_ram a 1 pg'.
Proof.
  destruct (palloc_get_multiple_spec example_ram 0 1 example_ram_wf ltac:(done)) as [H|[Hno _]]; [exact H|].
  exfalso. exact (Hno example_base example_free).
Defined.
Lemma palloc_free_multiple_spec_witness : palloc_free_multiple example_base 1 example_ram = Panic.
Proof.
  apply (palloc_free_multiple_spec example_ram false example_base 1 example_ram_wf); [done|split; done|].
  exists example_base. split; [done|]. apply example_free. done.
Defined.
Lemma example_malloc : ∃ p h n, malloc 100 example_heap = Done (p, h) ∧ live h p n ∧ ∀ q m, live h q m → q = p.
Proof.
  destruct (wp_run _ _ _ (malloc_wp example_heap 100 example_ok ltac:(done) ltac:(done))) as
    (p & h & Hrun & [(n & Hn & _ & _ & _ & _ & Hl & _)|(_ & _ & c & Hc & H0 & Hno)]).
  - exists p, h, n. split; [exact Hrun|]. split; [apply (proj2 (Hl p n)); right; split; reflexivity|].
    intros q m Hq. apply (proj1 (Hl q m)) in Hq as [Hq|[Hq _]]; [|exact Hq].
    exfalso. exact (none_live _ _ q m Hq).
  - exfalso. assert (c = 1) as -> by (unfold PGSIZE, ARENA_SIZE in *; lia). by apply (Hno example_base), example_free.
Qed.
Lemma heap_safe_witness : ∃ p h1 h2,
  malloc 100 example_heap = Done (p, h1) ∧ free p h1 = Done (tt, h2) ∧ pages_back example_ram h2.
Proof.
  destruct example_malloc as (p & h1 & n & Hrun & Hl & Hone).
  assert (Hu1 : use example_heap h1) by (apply (use_malloc _ 100 p); [lia|unfold ARENA_SIZE, PGSIZE; lia|exact Hrun]).
  destruct (heap_safe example_ram example_heap h1 example_ram_wf eq_refl (rtc_once _ _ Hu1)) as (_ & Hfree & _).
  destruct (Hfree p n Hl) as [h2 Hrun2]. exists p, h1, h2. split; [exact Hrun|]. split; [exact Hrun2|].
  assert (Hu2 : rtc use example_heap h2) by (eapply rtc_l; [exact Hu1|]; apply rtc_once; exact (use_free _ p n _ Hl Hrun2)).
  apply (heap_safe example_ram example_heap h2 example_ram_wf eq_refl Hu2). intros q m Hq.
  destruct (use_ok _ _ Hu1 example_ok) as [Hok1 _].
  pose proof (free_wp h1 p n Hok1 Hl) as Hwp. unfold wp in Hwp. rewrite Hrun2 in Hwp. destruct Hwp as (_ & Hl2 & _).
  apply (proj1 (Hl2 q m)) in Hq as [Hq Hne]. exact (Hne (Hone q m Hq)).
Defined.
Lemma malloc_spec_witness : ∃ p h', malloc 100 example_heap = Done (p, h') ∧
  (p = 0 ∨ ∃ n, 100 <= n ∧ allocated example_heap p n h').
Proof.
  destruct (malloc_spec example_heap 100 example_ok ltac:(done) ltac:(done)) as (p & h' & Hrun & Hr).
  exists p, h'. split; [exact Hrun|]. destruct Hr as [[Hp _]|(n & Hn & Ha & _)]; [by left|right; eauto].
Defined.
Lemma free_spec_witness : ∃ h p h', free p h = Done (tt, h') ∧ freed h p h'.
Proof.
  destruct example_block as (h & p & n & Hok & Hl & _). exists h, p. exact (free_spec h p n Hok Hl).
Defined.
Lemma realloc_spec_witness : ∃ h p r h', realloc p 1 h = Done (r, h').
Proof.
  destruct example_block as (h & p & n & Hok & Hl & Hn & Hb).
  destruct (realloc_spec h p n 1 [0] Hok Hl ltac:(done) ltac:(done)) as (r & h' & Hrun & _).
  - repeat constructor; done.
  - change (zlength [0]) with 1. lia.
  - exact Hb.
  - exists h, p, r, h'. exact Hrun.
Defined.
Lemma malloc_wraps_witness : ∃ h', malloc (2 ^ 64 - 24) example_heap = Done (example_base + 24, h').
Proof.
  destruct (malloc_wraps example_heap (2 ^ 64 - 24) example_ok ltac:(done)) as (h' & Hrun & _). exists h'. exact Hrun.
Defined.
