(* ===== verification/Words.v ===== *)
(** * 64-bit words in memory

    Loads and stores of eight bytes, little-endian, in the byte-addressed memory
    of CString.v. *)
From stdpp Require Import base numbers list gmap.
From Stdlib Require Import ZArith Lia.
From S2P Require Import Prelude Bytes CString.
Open Scope Z_scope.

Definition offsets : list Z := [0; 1; 2; 3; 4; 5; 6; 7].

(** The word at [p], if all of its bytes may be accessed. *)
Definition word64 (m : mem) (p : Z) : option Z := le_val <$> mapM (λ i, m !! (p + i)) offsets.
Definition byte_of (v i : Z) : Z := v / 256 ^ i mod 256.
Definition put64 (p v : Z) (m : mem) : mem := foldr (λ i m, <[p + i := byte_of v i]> m) m offsets.

Definition load64 (p : Z) : ST mem Z := m ← get_st; deref (word64 m p).
Definition store64 (p v : Z) : ST mem unit := m ← get_st; _ ← deref (word64 m p); modify (put64 p v).

Section words.
Implicit Types (m : mem) (p v x : Z).

Lemma word64_ext m m' p : (∀ x, p <= x < p + 8 → m' !! x = m !! x) → word64 m' p = word64 m p.
Proof. intros He. unfold word64, offsets. simpl. by rewrite !He by lia. Qed.
Lemma word64_copy m m' p p' : (∀ k, 0 <= k < 8 → m' !! (p' + k) = m !! (p + k)) → word64 m' p' = word64 m p.
Proof. intros He. unfold word64, offsets. simpl. by rewrite !He by lia. Qed.

Lemma word64_mapped m p : mapped m p 8 → is_Some (word64 m p).
Proof.
  intros Hm. unfold word64. apply fmap_is_Some, mapM_is_Some_2, Forall_forall. intros i Hi. apply Hm.
  unfold offsets in Hi. set_unfold. lia.
Qed.

Lemma put64_lookup m p v x :
  put64 p v m !! x = if decide (p <= x < p + 8) then Some (byte_of v (x - p)) else m !! x.
Proof.
  unfold put64, offsets. simpl. destruct (decide _) as [Hx|Hx].
  - assert (x = p + 0 ∨ x = p + 1 ∨ x = p + 2 ∨ x = p + 3 ∨ x = p + 4 ∨ x = p + 5 ∨ x = p + 6 ∨ x = p + 7) as Hc by lia.
    rewrite !lookup_insert. repeat destruct (decide (_ = _)); subst; try (f_equal; f_equal; lia); lia.
  - by rewrite !lookup_insert_ne by lia.
Qed.

Lemma le_val_byte_of v : 0 <= v < 2 ^ 64 → le_val (byte_of v <$> offsets) = v.
Proof.
  intros Hv. assert (byte_of v <$> offsets = le_bytes 8 v) as ->.
  { unfold offsets, byte_of. simpl. rewrite !Z.div_1_r. by rewrite !Z.div_div by lia. }
  rewrite le_val_bytes. by apply Z.mod_small.
Qed.
Lemma word64_put_same m p v : 0 <= v < 2 ^ 64 → word64 (put64 p v m) p = Some v.
Proof.
  intros Hv. unfold word64. assert (mapM (λ i, put64 p v m !! (p + i)) offsets = Some (byte_of v <$> offsets)) as ->.
  { apply mapM_Some_2, Forall2_fmap_r, Forall_Forall2_diag, Forall_forall. intros i Hi.
    assert (0 <= i < 8) by (unfold offsets in Hi; set_unfold; lia).
    rewrite put64_lookup, decide_True by lia. do 2 f_equal. lia. }
  simpl. f_equal. by apply le_val_byte_of.
Qed.
Lemma word64_put_other m p v p' : p' + 8 <= p ∨ p + 8 <= p' → word64 (put64 p v m) p' = word64 m p'.
Proof. intros Hd. apply word64_ext. intros x Hx. rewrite put64_lookup, decide_False; [done|lia]. Qed.
Lemma put64_mapped m p v x : is_Some (m !! x) → is_Some (put64 p v m !! x).
Proof. intros Hx. rewrite put64_lookup. destruct (decide _); eauto. Qed.

Lemma wp_load64 m p v (Q : Z → mem → Prop) : word64 m p = Some v → Q v m → wp (load64 p) m Q.
Proof. intros Hp HQ. unfold load64. wp_pure. wp_step; [exact Hp|done]. Qed.
Lemma wp_store64 m p v (Q : unit → mem → Prop) :
  is_Some (word64 m p) → Q tt (put64 p v m) → wp (store64 p v) m Q.
Proof. intros [w Hw] HQ. unfold store64. wp_pure. wp_step; [exact Hw|]. by wp_pure. Qed.

(** The bytes of a block as a list. *)
Lemma bytes_list m p n : 0 <= n → (∀ x, p <= x < p + n → ∃ v, m !! x = Some v ∧ is_byte v) →
  ∃ l, zlength l = n ∧ Forall is_byte l ∧ bytes_at m p l.
Proof.
  intros Hn Hm. exists ((λ i, default 0 (m !! (p + i))) <$> seqZ 0 n). unfold zlength. rewrite length_fmap, length_seqZ.
  split; [lia|]. split.
  - apply Forall_fmap, Forall_seqZ. intros i Hi. destruct (Hm (p + i)) as (v & Hv & Hb); [lia|]. simpl. by rewrite Hv.
  - intros i Hi. unfold zlength in Hi. rewrite length_fmap, length_seqZ in Hi. destruct (Hm (p + i)) as (v & Hv & _); [lia|].
    rewrite Hv. unfold zlookup. rewrite (proj2 (Z.leb_le 0 i)) by lia. rewrite list_lookup_fmap.
    rewrite (lookup_seqZ_lt 0 n (Z.to_nat i)) by lia. simpl. rewrite Z2Nat.id, Z.add_0_l by lia. by rewrite Hv.
Qed.
End words.
