(* ===== verification/Mmu.v ===== *)
(** * Page tables (threads/mmu.c, and paging_init of threads/init.c)

    The four levels of tables are pages of 512 words in the memory behind the
    page pools. The flush of single entries of the processor's cache (invlpg) has
    no effect on the model, which has no cache. *)
From stdpp Require Import base numbers list gmap.
From Stdlib Require Import ZArith Lia.
From S2P Require Import Prelude Bytes CString Bitmap Palloc PallocInit Words.
Open Scope Z_scope.

(** ** Indices and entries *)

Definition PML4SHIFT : Z := 39.
Definition PDPESHIFT : Z := 30.
Definition PDXSHIFT : Z := 21.
Definition PTXSHIFT : Z := 12.
Definition PML4 (la : Z) : Z := Z.land (Z.shiftr la PML4SHIFT) 511.
Definition PDPE (la : Z) : Z := Z.land (Z.shiftr la PDPESHIFT) 511.
Definition PDX (la : Z) : Z := Z.land (Z.shiftr la PDXSHIFT) 511.
Definition PTX (la : Z) : Z := Z.land (Z.shiftr la PTXSHIFT) 511.
Definition PTE_ADDR (pte : Z) : Z := Z.land pte (u64 (Z.lnot 4095)).

Definition PTE_P : Z := 1.
Definition PTE_W : Z := 2.
Definition PTE_U : Z := 4.
Definition PTE_A : Z := 32.
Definition PTE_D : Z := 64.

Definition is_kernel_vaddr (vaddr : Z) : bool := KERN_BASE <=? vaddr.
Definition is_user_vaddr (vaddr : Z) : bool := negb (is_kernel_vaddr vaddr).

(** vtop asserts that it is given a kernel address. *)
Definition vtop {S} (vaddr : Z) : ST S Z :=
  _ ← assert_st (is_kernel_vaddr vaddr); mret (u64 (vaddr - KERN_BASE)).

Definition present (e : Z) : bool := negb (Z.land e PTE_P =? 0).

(** ** The walk *)

(** Entry [idx] of the table at [table]. *)
Definition get_entry (table idx : Z) : ST ram Z := on_mem (load64 (table + 8 * idx)).
Definition set_entry (table idx e : Z) : ST ram unit := on_mem (store64 (table + 8 * idx) e).

(** The beginning of the three walks: if the entry has no table yet, a new one is
    made when [create] asks for it. The answer is whether that happened, or
    [None] when there is no table. *)
Definition ensure_table (table idx create : Z) : ST ram (option bool) :=
  e ← get_entry table idx;
  if present e then mret (Some false) else
  if create =? 0 then mret None else
  new_page ← palloc_get_page PAL_ZERO;
  if new_page =? 0 then mret None else
  pa ← vtop new_page;
  _ ← set_entry table idx (Z.lor (Z.lor (Z.lor pa PTE_U) PTE_W) PTE_P);
  mret (Some true).

Definition pgdir_walk (pdp va create : Z) : ST ram Z :=
  let idx := PDX va in
  if pdp =? 0 then mret 0 else
  r ← ensure_table pdp idx create;
  match r with
  | None => mret 0
  | Some _ => e ← get_entry pdp idx; mret (ptov (PTE_ADDR e + 8 * PTX va))
  end.

(** The body that pdpe_walk and pml4e_walk share: a new table is freed again when
    the walk fails in a level below. *)
Definition walk_level (table idx create : Z) (next : Z → ST ram Z) : ST ram Z :=
  if table =? 0 then mret 0 else
  r ← ensure_table table idx create;
  match r with
  | None => mret 0
  | Some allocated =>
      e ← get_entry table idx;
      pte ← next (ptov (PTE_ADDR e));
      _ ← (if (pte =? 0) && allocated then
             e ← get_entry table idx;
             _ ← palloc_free_page (ptov (PTE_ADDR e));
             set_entry table idx 0
           else mret tt);
      mret pte
  end.

Definition pdpe_walk (pdpe va create : Z) : ST ram Z :=
  walk_level pdpe (PDPE va) create (λ pdp, pgdir_walk pdp va create).
Definition pml4e_walk (pml4e va create : Z) : ST ram Z :=
  walk_level pml4e (PML4 va) create (λ pdpe, pdpe_walk pdpe va create).

(** ** Page tables of processes *)

(** The pages, the page table of the kernel, and the register CR3. *)
Record mmu := Mmu { m_ram : ram; base_pml4 : Z; cr3 : Z }.
Definition on_pages {A} : ST ram A → ST mmu A := zoom m_ram (λ r s, Mmu r (base_pml4 s) (cr3 s)).

Definition pml4_create : ST mmu Z :=
  pml4 ← on_pages (palloc_get_page 0);
  s ← get_st;
  _ ← (if negb (pml4 =? 0) then _ ← on_pages (on_mem (memcpy pml4 (base_pml4 s) PGSIZE)); mret tt else mret tt);
  mret pml4.

Definition pml4_activate (pml4 : Z) : ST mmu unit :=
  s ← get_st;
  pa ← vtop (if negb (pml4 =? 0) then pml4 else base_pml4 s);
  modify (λ s, Mmu (m_ram s) (base_pml4 s) pa).

Definition pml4_get_page (pml4 uaddr : Z) : ST mmu Z :=
  _ ← assert_st (is_user_vaddr uaddr);
  pte ← on_pages (pml4e_walk pml4 uaddr 0);
  if pte =? 0 then mret 0 else
  e ← on_pages (on_mem (load64 pte));
  mret (if present e then u64 (ptov (PTE_ADDR e) + pg_ofs uaddr) else 0).

Definition pml4_set_page (pml4 upage kpage : Z) (rw : bool) : ST mmu bool :=
  _ ← assert_st (pg_ofs upage =? 0);
  _ ← assert_st (pg_ofs kpage =? 0);
  _ ← assert_st (is_user_vaddr upage);
  s ← get_st;
  _ ← assert_st (negb (pml4 =? base_pml4 s));
  pte ← on_pages (pml4e_walk pml4 upage 1);
  _ ← (if negb (pte =? 0) then
         pa ← vtop kpage;
         on_pages (on_mem (store64 pte (Z.lor (Z.lor (Z.lor pa PTE_P) (if rw then PTE_W else 0)) PTE_U)))
       else mret tt);
  mret (negb (pte =? 0)).

Definition pml4_clear_page (pml4 upage : Z) : ST mmu unit :=
  _ ← assert_st (pg_ofs upage =? 0);
  _ ← assert_st (is_user_vaddr upage);
  pte ← on_pages (pml4e_walk pml4 upage 0);
  if pte =? 0 then mret tt else
  e ← on_pages (on_mem (load64 pte));
  if present e then
    _ ← on_pages (on_mem (store64 pte (Z.land e (u64 (Z.lnot PTE_P)))));
    _ ← vtop pml4; mret tt
  else mret tt.

(** A flag of the entry for [vpage]; false if there is no table. *)
Definition pml4_flag (flag pml4 vpage : Z) : ST mmu bool :=
  pte ← on_pages (pml4e_walk pml4 vpage 0);
  if pte =? 0 then mret false else
  e ← on_pages (on_mem (load64 pte));
  mret (negb (Z.land e flag =? 0)).
(** Sets or clears a flag; the complement of a flag is an unsigned int, so that
    clearing keeps the lower half of the entry only. *)
Definition pml4_set_flag (flag pml4 vpage : Z) (v : bool) : ST mmu unit :=
  pte ← on_pages (pml4e_walk pml4 vpage 0);
  if pte =? 0 then mret tt else
  e ← on_pages (on_mem (load64 pte));
  _ ← on_pages (on_mem (store64 pte (if v then Z.lor e flag else Z.land e (u32 (Z.lnot flag)))));
  _ ← vtop pml4; mret tt.

Definition pml4_is_dirty : Z → Z → ST mmu bool := pml4_flag PTE_D.
Definition pml4_set_dirty : Z → Z → bool → ST mmu unit := pml4_set_flag PTE_D.
Definition pml4_is_accessed : Z → Z → ST mmu bool := pml4_flag PTE_A.
Definition pml4_set_accessed : Z → Z → bool → ST mmu unit := pml4_set_flag PTE_A.

(** ** All entries, and the end of a page table *)

(** A function on every index until one answers false. *)
Fixpoint until_false {S} (f : Z → ST S bool) (l : list Z) : ST S bool :=
  match l with
  | [] => mret true
  | i :: l => r ← f i; if (r : bool) then until_false f l else mret false
  end.
(** The indices of a table of 8-byte entries. *)
Definition all_entries : list Z := seqZ 0 (PGSIZE / 8).

(** The entry of an inner table as a pointer of the kernel. *)
Definition child (table i : Z) : ST mmu Z := e ← on_pages (get_entry table i); mret (ptov e).

Section for_each.
(** [func pte va] *)
Context (func : Z → Z → ST mmu bool).

Definition pt_for_each (pt pml4_index pdp_index pdx_index : Z) : ST mmu bool :=
  until_false (λ i,
    e ← on_pages (get_entry pt i);
    if present e then
      let va := Z.lor (Z.lor (Z.lor (u64 (Z.shiftl pml4_index PML4SHIFT)) (u64 (Z.shiftl pdp_index PDPESHIFT)))
                        (u64 (Z.shiftl pdx_index PDXSHIFT))) (u64 (Z.shiftl i PTXSHIFT)) in
      func (pt + 8 * i) va
    else mret true) all_entries.

Definition pgdir_for_each (pdp pml4_index pdp_index : Z) : ST mmu bool :=
  until_false (λ i, pte ← child pdp i;
    if present pte then pt_for_each (PTE_ADDR pte) pml4_index pdp_index i else mret true) all_entries.

Definition pdp_for_each (pdp pml4_index : Z) : ST mmu bool :=
  until_false (λ i, pde ← child pdp i;
    if present pde then pgdir_for_each (PTE_ADDR pde) pml4_index i else mret true) all_entries.

Definition pml4_for_each (pml4 : Z) : ST mmu bool :=
  until_false (λ i, pdpe ← child pml4 i;
    if present pdpe then pdp_for_each (PTE_ADDR pdpe) i else mret true) all_entries.
End for_each.

Definition free_page (page : Z) : ST mmu unit := on_pages (palloc_free_page page).

Definition pt_destroy (pt : Z) : ST mmu unit :=
  _ ← for_st (λ i _, pte ← child pt i; if present pte then free_page (PTE_ADDR pte) else mret tt) all_entries tt;
  free_page pt.
Definition pgdir_destroy (pdp : Z) : ST mmu unit :=
  _ ← for_st (λ i _, pte ← child pdp i; if present pte then pt_destroy (PTE_ADDR pte) else mret tt) all_entries tt;
  free_page pdp.
Definition pdpe_destroy (pdpe : Z) : ST mmu unit :=
  _ ← for_st (λ i _, pde ← child pdpe i; if present pde then pgdir_destroy (PTE_ADDR pde) else mret tt) all_entries tt;
  free_page pdpe.

(** Entries from the second on are the kernel's. *)
Definition pml4_destroy (pml4 : Z) : ST mmu unit :=
  if pml4 =? 0 then mret tt else
  s ← get_st;
  _ ← assert_st (negb (pml4 =? base_pml4 s));
  pdpe ← child pml4 0;
  _ ← (if present pdpe then pdpe_destroy (PTE_ADDR pdpe) else mret tt);
  free_page pml4.

(** ** The page table of the kernel (threads/init.c) *)

(** [start] and [end_kernel_text] are symbols of the linker script. *)
Definition paging_step (pml4 start end_kernel_text pa : Z) : ST mmu unit :=
  let va := ptov pa in
  let perm := if (start <=? va) && (va <? end_kernel_text) then PTE_P else Z.lor PTE_P PTE_W in
  pte ← on_pages (pml4e_walk pml4 va 1);
  if negb (pte =? 0) then on_pages (on_mem (store64 pte (Z.lor pa perm))) else mret tt.

Definition paging_init (start end_kernel_text mem_end : Z) : ST mmu unit :=
  pml4 ← on_pages (palloc_get_page (Z.lor PAL_ASSERT PAL_ZERO));
  _ ← modify (λ s, Mmu (m_ram s) pml4 (cr3 s));
  _ ← for_st (λ i _, paging_step pml4 start end_kernel_text (PGSIZE * i)) (seqZ 0 (DIV_ROUND_UP mem_end PGSIZE)) tt;
  pml4_activate 0.
