(* ===== verification/MmuInv.v ===== *)
(** * Page tables as trees

    The tables below a root are pages of the kernel pool in use, no two of which
    are the same; a walk that makes new tables extends the tree by pages that
    were free, or leaves it alone when there are none. *)
From stdpp Require Import base numbers list gmap.
From Stdlib Require Import ZArith Lia.
From S2P Require Import Prelude Bytes CString Bitmap Palloc PallocInit Words Mmu.
Open Scope Z_scope.

(** ** Entries *)

Section entries.
Implicit Types (e f pa a i : Z).

Lemma land_u64 e f : 0 <= e < 2 ^ 64 → Z.land e (u64 f) = Z.land e f.
Proof.
  intros He. unfold u64. rewrite <- Z.land_ones by lia. rewrite (Z.land_comm f), Z.land_assoc.
  rewrite Z.land_ones by lia. by rewrite Z.mod_small.
Qed.
Lemma PTE_ADDR_sub e : 0 <= e < 2 ^ 64 → PTE_ADDR e = e - e mod PGSIZE.
Proof. intros He. unfold PTE_ADDR. rewrite land_u64 by done. apply land_lnot_mask. Qed.
Lemma PTE_ADDR_small e : PTE_ADDR e = e - e mod PGSIZE ∨ ¬ (0 <= e < 2 ^ 64).
Proof. destruct (decide (0 <= e < 2 ^ 64)); [left; by apply PTE_ADDR_sub|by right]. Qed.

Lemma land_low pa f : pa mod PGSIZE = 0 → 0 <= f < PGSIZE → Z.land pa f = 0.
Proof.
  intros Hp Hf. assert (pa = Z.shiftl (pa / PGSIZE) 12) as ->.
  { rewrite Z.shiftl_mul_pow2 by lia. unfold PGSIZE in *. zdiv. }
  apply Z.bits_inj'. intros n Hn. rewrite Z.land_spec, Z.bits_0.
  destruct (decide (n < 12)).
  - by rewrite Z.shiftl_spec_low by lia.
  - rewrite (Z.bits_above_log2 f n); [by rewrite andb_false_r|lia|].
    destruct (decide (f = 0)) as [->|]; [simpl; lia|]. apply Z.log2_lt_pow2; [lia|].
    unfold PGSIZE in Hf. apply Z.lt_le_trans with (2 ^ 12); [lia|]. apply Z.pow_le_mono_r; lia.
Qed.
Lemma lor_low pa f : pa mod PGSIZE = 0 → 0 <= f < PGSIZE → Z.lor pa f = pa + f.
Proof. intros. symmetry. apply Z.add_nocarry_lor. by apply land_low. Qed.

Lemma present_odd e : present e = Z.odd e.
Proof.
  unfold present, PTE_P. change 1 with (Z.ones 1) at 1. rewrite Z.land_ones by lia. change (2 ^ 1) with 2.
  rewrite Zmod_odd. by destruct (Z.odd e).
Qed.
(** An entry that is made of an address and flags. *)
Lemma made_entry pa f : 0 <= pa < 2 ^ 64 → pa mod PGSIZE = 0 → 0 <= f < PGSIZE →
  0 <= pa + f < 2 ^ 64 ∧ PTE_ADDR (pa + f) = pa ∧ present (pa + f) = Z.odd f.
Proof.
  intros Hpa Hal Hf. unfold PGSIZE in *. split; [zdiv|]. split.
  - rewrite PTE_ADDR_sub by zdiv. unfold PGSIZE. zdiv.
  - rewrite present_odd, Z.odd_add. assert (Z.odd pa = false) as ->; [|by destruct (Z.odd f)].
    assert (pa = 2 * (pa / 2)) as -> by zdiv. by rewrite Z.odd_mul.
Qed.
Lemma ptov_vtop b : KERN_BASE <= b < 2 ^ 64 → ptov (b - KERN_BASE) = b.
Proof. intros. unfold ptov. rewrite u64_small; unfold KERN_BASE in *; lia. Qed.
Lemma table_index_range la s : 0 <= Z.land (Z.shiftr la s) 511 < 512.
Proof. change 511 with (Z.ones 9). rewrite Z.land_ones by lia. apply Z.mod_pos_bound. lia. Qed.
End entries.

(** ** Nodes *)

Definition entry (m : mem) (a i : Z) : option Z := word64 m (a + 8 * i).
(** The table behind entry [i] of the table at [a]. *)
Definition next (m : mem) (a i : Z) : option Z :=
  match entry m a i with Some e => if present e then Some (ptov (PTE_ADDR e)) else None | None => None end.
Fixpoint node (m : mem) (a : Z) (p : list Z) : option Z :=
  match p with [] => Some a | i :: p => match next m a i with Some b => node m b p | None => None end end.

Definition idx (i : Z) : Prop := 0 <= i < 512.
(** A path of at most [k] indices, the first of which is allowed by [top]. *)
Definition okp (top : Z → Prop) (k : nat) (p : list Z) : Prop :=
  (length p ≤ k)%nat ∧ Forall idx p ∧ match p with [] => True | i :: _ => top i end.
Definition any (i : Z) : Prop := True.

Definition table_page (pg : ram) (b : Z) : Prop := run_of (kernel_pool pg) b 1 true.

Record tree (top : Z → Prop) (k : nat) (pg : ram) (a : Z) : Prop := {
  tr_page : ∀ p b, okp top k p → node (pg_mem pg) a p = Some b → table_page pg b;
  tr_inj : ∀ p q b, okp top k p → okp top k q →
    node (pg_mem pg) a p = Some b → node (pg_mem pg) a q = Some b → p = q;
}.

(** The pages are well formed, and the kernel's are in the kernel's half. *)
Definition ram_ok (pg : ram) : Prop := wf_pages pg ∧ KERN_BASE <= base (kernel_pool pg).

Section nodes.
Implicit Types (m : mem) (a b i : Z) (p q : list Z) (pg : ram).

Lemma node_app m a p q : node m a (p ++ q) = match node m a p with Some b => node m b q | None => None end.
Proof.
  revert a. induction p as [|i p IH]; intros a; simpl; [done|]. destruct (next m a i); [apply IH|done].
Qed.
Lemma node_agree m m' a p :
  (∀ p1 i p2 b, p = p1 ++ i :: p2 → node m a p1 = Some b → next m' b i = next m b i) → node m' a p = node m a p.
Proof.
  revert a. induction p as [|i p IH]; intros a Ha; simpl; [done|].
  rewrite (Ha [] i p a eq_refl eq_refl). destruct (next m a i) as [c|] eqn:Hc; [|done].
  apply IH. intros p1 j p2 b -> Hb. apply (Ha (i :: p1) j p2 b); [done|]. simpl. by rewrite Hc.
Qed.
Lemma next_agree m m' a i : entry m' a i = entry m a i → next m' a i = next m a i.
Proof. unfold next. by intros ->. Qed.

(** Entries of a page, where the memory is the same. *)
Lemma entry_page m m' a i : idx i → (∀ x, a <= x < a + PGSIZE → m' !! x = m !! x) → entry m' a i = entry m a i.
Proof. intros Hi Hx. apply word64_ext. intros x Hr. apply Hx. unfold idx, PGSIZE in *. lia. Qed.

Lemma okp_app_l top k p q : okp top k (p ++ q) → okp top k p.
Proof.
  intros (Hl & Hf & Ht). rewrite length_app in Hl. split; [lia|]. split; [by apply Forall_app in Hf as [? _]|].
  by destruct p.
Qed.
Lemma okp_cons top k i p : okp top (S k) (i :: p) ↔ idx i ∧ top i ∧ okp any k p.
Proof.
  unfold okp. simpl. rewrite Forall_cons. split.
  - intros (Hl & [Hi Hp] & Ht). split; [done|]. split; [done|]. split; [lia|]. split; [done|]. by destruct p.
  - intros (Hi & Ht & Hl & Hp & _). split; [lia|]. done.
Qed.
Lemma okp_nil top k : okp top k [].
Proof. split; [simpl; lia|done]. Qed.

Lemma table_facts pg b : ram_ok pg → table_page pg b →
  b mod PGSIZE = 0 ∧ KERN_BASE <= b ∧ b + PGSIZE < 2 ^ 64 ∧ in_pool (kernel_pool pg) b ∧
  (∀ x, b <= x < b + PGSIZE → in_pool (kernel_pool pg) x ∧ page_used (kernel_pool pg) x = true ∧ is_Some (pg_mem pg !! x)).
Proof.
  intros [Hwf Hk] Hb. destruct (run_pos pg false b 1 true Hwf Hb ltac:(done)) as [H0 Hlt].
  destruct Hb as (Hal & Hge & Hle & Hu). unfold in_pool. unfold PGSIZE in *. split; [done|]. split; [lia|]. split; [lia|].
  split; [lia|]. intros x Hx. split; [lia|]. split; [apply Hu; lia|].
  apply (wp_mapped _ _ (wf_pool_of pg false Hwf)). simpl. lia.
Qed.
Lemma table_entry pg b i : ram_ok pg → table_page pg b → idx i → is_Some (entry (pg_mem pg) b i).
Proof.
  intros Hok Hb Hi. destruct (table_facts pg b Hok Hb) as (_ & _ & _ & _ & Hx). apply word64_mapped.
  intros x Hr. apply Hx. unfold idx, PGSIZE in *. lia.
Qed.
(** Two pages are the same or apart. *)
Lemma pages_apart a b : a mod PGSIZE = 0 → b mod PGSIZE = 0 → a ≠ b → a + PGSIZE <= b ∨ b + PGSIZE <= a.
Proof. unfold PGSIZE. intros. zdiv. Qed.
End nodes.


(** ** A new table *)

(** A free page [c] has become the table behind entry [i] of the table at [a]. *)
Record attached (pg : ram) (a i c : Z) (pg' : ram) : Prop := {
  at_ram : ram_ok pg';
  at_free : run_of (kernel_pool pg) c 1 false;
  at_used : reused false pg pg' c 1 true;
  at_low : KERN_BASE <= c < 2 ^ 64;
  at_mem : ∃ mz, wiped (pg_mem pg) mz c PGSIZE 0 ∧ pg_mem pg' = put64 (a + 8 * i) (c - KERN_BASE + 7) mz;
}.

Section attached.
Implicit Types (m : mem) (a b c i j : Z) (p q : list Z) (pg : ram).

Lemma get_entry_wp pg a i e (Q : Z → ram → Prop) : entry (pg_mem pg) a i = Some e → Q e pg → wp (get_entry a i) pg Q.
Proof.
  intros He HQ. unfold get_entry, on_mem. wp_pure. apply (wp_load64 _ _ e); [exact He|]. by destruct pg.
Qed.
Definition with_bytes pg (m' : mem) : ram := Ram (kernel_pool pg) (user_pool pg) m'.
Lemma set_entry_wp pg a i e (Q : unit → ram → Prop) : is_Some (entry (pg_mem pg) a i) →
  Q tt (with_bytes pg (put64 (a + 8 * i) e (pg_mem pg))) → wp (set_entry a i e) pg Q.
Proof. intros He HQ. unfold set_entry, on_mem. wp_pure. by apply wp_store64. Qed.

Lemma ram_ok_bytes pg m' : (∀ x, is_Some (pg_mem pg !! x) → is_Some (m' !! x)) → ram_ok pg → ram_ok (with_bytes pg m').
Proof. intros Hm [Hwf Hk]. split; [by apply wf_pages_mem|done]. Qed.
Lemma ram_ok_reused pg pg' a cnt v : wf_pages pg' → reused false pg pg' a cnt v → ram_ok pg → ram_ok pg'.
Proof. intros Hwf (Hb & _) [_ Hk]. simpl in Hb. split; [done|]. by rewrite Hb. Qed.

Lemma entry_flags pa : 0 <= pa < 2 ^ 64 → pa mod PGSIZE = 0 → Z.lor (Z.lor (Z.lor pa PTE_U) PTE_W) PTE_P = pa + 7.
Proof.
  intros Hpa Hal. rewrite <- !Z.lor_assoc. change (Z.lor PTE_U (Z.lor PTE_W PTE_P)) with 7. apply lor_low; [done|]. done.
Qed.

Lemma ensure_table_wp pg a i :
  ram_ok pg → table_page pg a → idx i →
  wp (ensure_table a i 1) pg (λ r pg', match r with
    | Some false => pg' = pg ∧ ∃ c, next (pg_mem pg) a i = Some c
    | Some true => next (pg_mem pg) a i = None ∧ ∃ c, attached pg a i c pg'
    | None => pg' = pg ∧ next (pg_mem pg) a i = None ∧ ∀ c, ¬ run_of (kernel_pool pg) c 1 false
    end).
Proof.
  intros Hok Ha Hi. destruct (table_entry pg a i Hok Ha Hi) as [e He].
  destruct (table_facts pg a Hok Ha) as (Hal & Hka & Hae & _ & Hax).
  unfold ensure_table. wp_pure. apply (get_entry_wp _ _ _ e); [done|]. unfold next. rewrite He.
  destruct (present e) eqn:Hpe; [wp_pure; eauto|]. simpl. wp_pure. unfold palloc_get_page.
  destruct (palloc_get_cases pg PAL_ZERO 1 (proj1 Hok) ltac:(done)) as [(c & pg1 & Hrun & Hg)|[Hno Hrun]].
  2: { eapply wp_eq; [exact Hrun|]. simpl. by wp_pure. }
  eapply wp_eq; [exact Hrun|]. destruct Hg as (Hc0 & Hwf1 & Hfree & _ & Hre & Hmem).
  change (run_of (kernel_pool pg) c 1 false) in Hfree. change (wiped (pg_mem pg) (pg_mem pg1) c (PGSIZE * 1) 0) in Hmem.
  change (reused false pg pg1 c 1 true) in Hre.
  destruct (run_pos pg false c 1 false (proj1 Hok) Hfree ltac:(done)) as [Hc1 Hc2].
  assert (Hkc : KERN_BASE <= c) by (destruct Hok as [_ Hk], Hfree as (_ & Hge & _); lia).
  rewrite (proj2 (Z.eqb_neq c 0)) by done. unfold vtop. wp_pure. wp_step; [by apply Z.leb_le|]. wp_pure.
  unfold PGSIZE in Hc2. rewrite u64_small by (unfold KERN_BASE in *; lia).
  assert (Hcal : (c - KERN_BASE) mod PGSIZE = 0).
  { destruct Hfree as (Hcal & _). unfold PGSIZE, KERN_BASE in *. zdiv. }
  rewrite entry_flags by (unfold KERN_BASE in *; done || lia).
  pose proof (ram_ok_reused _ _ _ _ _ Hwf1 Hre Hok) as Hok1.
  apply set_entry_wp.
  { apply word64_mapped. intros x Hx. apply (wiped_mapped _ _ _ _ _ x Hmem), Hax. unfold idx, PGSIZE in *. lia. }
  wp_pure. split; [done|]. exists c. split.
  - apply ram_ok_bytes; [|done]. intros x. apply put64_mapped.
  - done.
  - by apply reused_mem.
  - lia.
  - exists (pg_mem pg1). split; [|done]. by rewrite Z.mul_1_r in Hmem.
Qed.

Section one.
Context (pg : ram) (a i c : Z) (pg' : ram).
Hypotheses (Hok : ram_ok pg) (Ha : table_page pg a) (Hi : idx i) (Hat : attached pg a i c pg').

Lemma at_aligned : c mod PGSIZE = 0.
Proof. apply (at_free _ _ _ _ _ Hat). Qed.
Lemma at_apart b : table_page pg b → b + PGSIZE <= c ∨ c + PGSIZE <= b.
Proof.
  intros Hb. apply pages_apart; [apply Hb|apply at_aligned|]. intros ->.
  destruct (at_free _ _ _ _ _ Hat) as (_ & _ & _ & Hf). destruct Hb as (_ & _ & _ & Hu).
  unfold PGSIZE in *. specialize (Hf c ltac:(lia)). specialize (Hu c ltac:(lia)). congruence.
Qed.
Lemma at_entry_new : entry (pg_mem pg') a i = Some (c - KERN_BASE + 7).
Proof.
  destruct (at_mem _ _ _ _ _ Hat) as (mz & _ & ->). apply word64_put_same.
  destruct (at_low _ _ _ _ _ Hat). pose proof at_aligned. unfold KERN_BASE, PGSIZE in *. zdiv.
Qed.
Lemma at_next_new : next (pg_mem pg') a i = Some c.
Proof.
  unfold next. rewrite at_entry_new. destruct (at_low _ _ _ _ _ Hat). pose proof at_aligned.
  destruct (made_entry (c - KERN_BASE) 7) as (_ & -> & ->); [unfold KERN_BASE in *; lia|unfold PGSIZE, KERN_BASE in *; zdiv|done|].
  simpl. by rewrite ptov_vtop by lia.
Qed.
Lemma at_entry_old b j : table_page pg b → idx j → b ≠ a ∨ j ≠ i → entry (pg_mem pg') b j = entry (pg_mem pg) b j.
Proof.
  intros Hb Hj Hne. destruct (at_mem _ _ _ _ _ Hat) as (mz & Hw & ->). unfold entry.
  rewrite word64_put_other.
  - apply word64_ext. intros x Hx. rewrite Hw, decide_False; [done|]. pose proof (at_apart b Hb). unfold idx, PGSIZE in *. lia.
  - destruct (decide (b = a)) as [->|Hba].
    + unfold idx in *. lia.
    + destruct (pages_apart b a) as [|]; [apply Hb|apply Ha|done|..]; unfold idx, PGSIZE in *; lia.
Qed.
Lemma at_entry_zero j : idx j → entry (pg_mem pg') c j = Some 0.
Proof.
  intros Hj. destruct (at_mem _ _ _ _ _ Hat) as (mz & Hw & ->). unfold entry. rewrite word64_put_other.
  - assert (Hz : ∀ x, c <= x < c + PGSIZE → mz !! x = Some 0) by (intros x Hx; by rewrite Hw, decide_True).
    unfold word64, offsets. simpl. unfold idx, PGSIZE in *. by rewrite !Hz by lia.
  - pose proof (at_apart a Ha). unfold idx, PGSIZE in *. lia.
Qed.
Lemma at_next_zero j : idx j → next (pg_mem pg') c j = None.
Proof. intros Hj. unfold next. by rewrite at_entry_zero. Qed.
Lemma at_next_old b j : table_page pg b → idx j → b ≠ a ∨ j ≠ i → next (pg_mem pg') b j = next (pg_mem pg) b j.
Proof. intros. by apply next_agree, at_entry_old. Qed.
Lemma at_table b : table_page pg b → table_page pg' b.
Proof.
  intros Hb. apply (run_keep pg _ c 1 true); [apply Hat|done|done|]. destruct (at_apart b Hb); lia.
Qed.
Lemma at_table_new : table_page pg' c.
Proof. apply (run_set pg _ c 1 true false); [apply Hat|apply Hat]. Qed.
End one.
End attached.

(** ** A tree that has grown *)

Definition in_tree (top : Z → Prop) (k : nat) (pg : ram) (a x : Z) : Prop :=
  ∃ p b, okp top k p ∧ node (pg_mem pg) a p = Some b ∧ b <= x < b + PGSIZE.
(** The address is not in a free page of the kernel pool. *)
Definition kept (pg : ram) (x : Z) : Prop :=
  ¬ (in_pool (kernel_pool pg) x ∧ page_used (kernel_pool pg) x = false).

Record grown (top : Z → Prop) (k : nat) (pg : ram) (a : Z) (pg' : ram) : Prop := {
  g_ram : ram_ok pg';
  g_tree : tree top k pg' a;
  g_base : base (kernel_pool pg') = base (kernel_pool pg) ∧ bit_cnt (used_map (kernel_pool pg')) = bit_cnt (used_map (kernel_pool pg)) ∧
    user_pool pg' = user_pool pg;
  g_used : ∀ x, in_pool (kernel_pool pg) x → page_used (kernel_pool pg) x = true → page_used (kernel_pool pg') x = true;
  g_conf : ∀ x, kept pg x → ¬ in_tree top k pg a x → pg_mem pg' !! x = pg_mem pg !! x;
  g_old : ∀ p b, okp top k p → node (pg_mem pg) a p = Some b → node (pg_mem pg') a p = Some b;
  g_new : ∀ p b, okp top k p → node (pg_mem pg') a p = Some b →
    node (pg_mem pg) a p = Some b ∨ in_pool (kernel_pool pg) b ∧ page_used (kernel_pool pg) b = false;
  g_leaf : ∀ p b i, okp top k p → length p = k → node (pg_mem pg) a p = Some b → idx i →
    entry (pg_mem pg') b i = entry (pg_mem pg) b i;
  g_leaf_new : ∀ p b i, okp top k p → length p = k → node (pg_mem pg) a p = None →
    node (pg_mem pg') a p = Some b → idx i → entry (pg_mem pg') b i = Some 0;
}.
(** The tree is what it was, and no page has been taken. *)
Record unchanged (top : Z → Prop) (k : nat) (pg : ram) (a : Z) (pg' : ram) : Prop := {
  u_grown : grown top k pg a pg';
  u_used : ∀ x, in_pool (kernel_pool pg) x → page_used (kernel_pool pg') x = page_used (kernel_pool pg) x;
  u_node : ∀ p, okp top k p → node (pg_mem pg') a p = node (pg_mem pg) a p;
}.

Section grown.
Implicit Types (m : mem) (a b c i j : Z) (p q : list Z) (pg : ram) (top : Z → Prop) (k : nat).

Lemma unchanged_refl top k pg a : ram_ok pg → tree top k pg a → unchanged top k pg a pg.
Proof.
  intros Hok Ht. split; [split|..]; try done.
  - intros p b Hp Hb. by left.
  - intros p b i _ _ Hn Hb. congruence.
Qed.

Lemma in_pool_eq top k pg a pg' x : grown top k pg a pg' → in_pool (kernel_pool pg') x ↔ in_pool (kernel_pool pg) x.
Proof. intros Hg. destruct (g_base _ _ _ _ _ Hg) as (Hb & Hc & _). unfold in_pool, pool_end. by rewrite Hb, Hc. Qed.

(** The pages of a table are used or not as one. *)
Lemma same_page_used pg b x : 0 <= base (kernel_pool pg) → base (kernel_pool pg) mod PGSIZE = 0 → b mod PGSIZE = 0 → b <= x < b + PGSIZE →
  page_used (kernel_pool pg) x = page_used (kernel_pool pg) b.
Proof. intros. unfold page_used. f_equal. unfold PGSIZE in *. zdiv. Qed.
Lemma kernel_base pg : ram_ok pg → 0 <= base (kernel_pool pg) ∧ base (kernel_pool pg) mod PGSIZE = 0.
Proof. intros [Hwf _]. destruct (wp_base _ _ (wp_kernel _ Hwf)). lia. Qed.

Lemma grown_trans top k pg a pg1 pg2 : ram_ok pg → grown top k pg a pg1 → grown top k pg1 a pg2 → grown top k pg a pg2.
Proof.
  intros Hok G1 G2.
  assert (Hnew : ∀ b, in_pool (kernel_pool pg1) b ∧ page_used (kernel_pool pg1) b = false →
    in_pool (kernel_pool pg) b ∧ page_used (kernel_pool pg) b = false).
  { intros b [Hin Hu]. rewrite (in_pool_eq _ _ _ _ _ _ G1) in Hin. split; [done|].
    apply not_true_is_false. intros Ht. by rewrite (g_used _ _ _ _ _ G1 b Hin Ht) in Hu. }
  split.
  - apply G2.
  - apply G2.
  - destruct (g_base _ _ _ _ _ G1) as (? & ? & ?), (g_base _ _ _ _ _ G2) as (? & ? & ?). split_and!; congruence.
  - intros x Hx Hu. apply (g_used _ _ _ _ _ G2); [by apply (in_pool_eq _ _ _ _ _ _ G1)|by apply (g_used _ _ _ _ _ G1)].
  - intros x Hk Hn. rewrite (g_conf _ _ _ _ _ G2), (g_conf _ _ _ _ _ G1); [done|done|done| |].
    + intros Hx. apply Hk, (Hnew x Hx).
    + intros (p & b & Hp & Hb & Hx). destruct (g_new _ _ _ _ _ G1 p b Hp Hb) as [Hb0|[Hin Hu]].
      * apply Hn. by exists p, b.
      * apply Hk. destruct (kernel_base pg Hok) as [Hb0 Hbal].
        pose proof (tr_page _ _ _ _ (g_tree _ _ _ _ _ G1) p b Hp Hb) as Ht.
        destruct (table_facts pg1 b (g_ram _ _ _ _ _ G1) Ht) as (Hal & _ & _ & _ & Hxs).
        rewrite (same_page_used pg b x) by done. split; [|done].
        apply (in_pool_eq _ _ _ _ _ _ G1). by apply Hxs.
  - intros p b Hp Hb. by apply (g_old _ _ _ _ _ G2), (g_old _ _ _ _ _ G1).
  - intros p b Hp Hb. destruct (g_new _ _ _ _ _ G2 p b Hp Hb) as [Hb1|Hb1]; [by apply (g_new _ _ _ _ _ G1)|].
    right. by apply Hnew.
  - intros p b i Hp Hl Hb Hi. rewrite (g_leaf _ _ _ _ _ G2 p b i), (g_leaf _ _ _ _ _ G1 p b i); try done.
    by apply (g_old _ _ _ _ _ G1).
  - intros p b i Hp Hl Hn Hb Hi. destruct (node (pg_mem pg1) a p) as [b1|] eqn:Hb1.
    + pose proof (g_old _ _ _ _ _ G2 p b1 Hp Hb1) as He. rewrite Hb in He. injection He as ->.
      rewrite (g_leaf _ _ _ _ _ G2 p b1 i) by done. by apply (g_leaf_new _ _ _ _ _ G1 p).
    + by apply (g_leaf_new _ _ _ _ _ G2 p).
Qed.

(** A new table behind an empty entry of the root. *)
Lemma attached_node_other top k pg a i c pg' p :
  ram_ok pg → tree top (S k) pg a → idx i → attached pg a i c pg' → okp top (S k) p → head p ≠ Some i →
  node (pg_mem pg') a p = node (pg_mem pg) a p.
Proof.
  intros Hok Ht Hi Hat Hp Hh. assert (Ha : table_page pg a) by (apply (tr_page _ _ _ _ Ht []); [apply okp_nil|done]).
  apply node_agree. intros p1 j p2 b -> Hb. pose proof (okp_app_l _ _ _ _ Hp) as Hp1.
  apply (at_next_old pg a i c pg' Ha Hi Hat).
  - by apply (tr_page _ _ _ _ Ht p1).
  - destruct Hp as (_ & Hf & _). apply Forall_app in Hf as [_ Hf]. by apply Forall_cons in Hf as [? _].
  - destruct (decide (b = a)) as [->|]; [|by left]. right. intros ->.
    assert (p1 = []) as -> by (apply (tr_inj _ _ _ _ Ht p1 [] a); [done|apply okp_nil|done|done]). by destruct Hh.
Qed.
Lemma attached_node_new pg a i c pg' p k :
  ram_ok pg → table_page pg a → idx i → attached pg a i c pg' → okp any k p →
  node (pg_mem pg') a (i :: p) = if decide (p = []) then Some c else None.
Proof.
  intros Hok Ha Hi Hat Hp. simpl. rewrite (at_next_new pg a i c pg' Hat). destruct p as [|j p]; [done|].
  simpl. rewrite (at_next_zero pg a i c pg' Ha Hi Hat); [done|]. destruct Hp as (_ & Hf & _). by apply Forall_cons in Hf as [? _].
Qed.

Lemma attached_grown top k pg a i c pg' :
  ram_ok pg → tree top (S k) pg a → idx i → top i → next (pg_mem pg) a i = None → attached pg a i c pg' →
  grown top (S k) pg a pg'.
Proof.
  intros Hok Ht Hi Hti Hnone Hat. assert (Ha : table_page pg a) by (apply (tr_page _ _ _ _ Ht []); [apply okp_nil|done]).
  assert (Hcase : ∀ p b, okp top (S k) p → node (pg_mem pg') a p = Some b → p = [i] ∧ b = c ∨ node (pg_mem pg) a p = Some b).
  { intros p b Hp Hb. destruct (decide (head p = Some i)) as [Hh|Hh].
    - destruct p as [|j p]; [done|]. injection Hh as ->. apply okp_cons in Hp as (_ & _ & Hp).
      rewrite (attached_node_new pg a i c pg' p k Hok Ha Hi Hat Hp) in Hb. destruct (decide (p = [])) as [->|]; [|done].
      injection Hb as ->. by left.
    - right. by rewrite (attached_node_other top k pg a i c pg' p) in Hb. }
  assert (Hpage : ∀ b, table_page pg b → b ≠ c).
  { intros b Hb ->. destruct (at_apart pg a i c pg' Hat c Hb); unfold PGSIZE in *; lia. }
  split.
  - apply Hat.
  - split.
    + intros p b Hp Hb. destruct (Hcase p b Hp Hb) as [[_ ->]|Hb0]; [by apply (at_table_new pg a i c pg' Hat)|].
      apply (at_table pg a i c pg' Hat). by apply (tr_page _ _ _ _ Ht p).
    + intros p q b Hp Hq Hpb Hqb. destruct (Hcase p b Hp Hpb) as [[-> Hbp]|Hpb0], (Hcase q b Hq Hqb) as [[-> Hbc]|Hqb0]; try done.
      * subst b. destruct (Hpage c); [by apply (tr_page _ _ _ _ Ht q)|done].
      * subst b. destruct (Hpage c); [by apply (tr_page _ _ _ _ Ht p)|done].
      * by apply (tr_inj _ _ _ _ Ht p q b).
  - destruct (at_used _ _ _ _ _ Hat) as (? & ? & ? & _). done.
  - intros x Hx Hu. destruct (at_used _ _ _ _ _ Hat) as (_ & _ & _ & Hr). simpl in Hr. rewrite Hr by done. by destruct (decide _).
  - intros x Hk Hn. destruct (at_mem _ _ _ _ _ Hat) as (mz & Hw & ->).
    rewrite put64_lookup, decide_False; [rewrite Hw, decide_False; [done|]|].
    + intros Hx. apply Hk. destruct (at_free _ _ _ _ _ Hat) as (_ & Hge & Hle & Hf). unfold in_pool.
      split; [unfold PGSIZE in *; lia|]. apply Hf. unfold PGSIZE in *. lia.
    + intros Hx. apply Hn. exists [], a. split; [apply okp_nil|]. split; [done|]. unfold idx, PGSIZE in *. lia.
  - intros p b Hp Hb. destruct (decide (head p = Some i)) as [Hh|Hh].
    + destruct p as [|j p]; [done|]. injection Hh as ->. simpl in Hb. by rewrite Hnone in Hb.
    + by rewrite (attached_node_other top k pg a i c pg' p).
  - intros p b Hp Hb. destruct (Hcase p b Hp Hb) as [[_ ->]|Hb0]; [|by left]. right.
    destruct (at_free _ _ _ _ _ Hat) as (_ & Hge & Hle & Hf). unfold in_pool. split; [unfold PGSIZE in *; lia|].
    apply Hf. unfold PGSIZE. lia.
  - intros p b j Hp Hl Hb Hj. apply (at_entry_old pg a i c pg' Ha Hi Hat); [by apply (tr_page _ _ _ _ Ht p)|done|].
    left. intros ->. assert (p = []) as -> by (apply (tr_inj _ _ _ _ Ht p [] a); [done|apply okp_nil|done|done]). done.
  - intros p b j Hp Hl Hn Hb Hj. destruct (Hcase p b Hp Hb) as [[_ ->]|Hb0]; [|congruence].
    by apply (at_entry_zero pg a i c pg' Ha Hi Hat).
Qed.
End grown.
