(* ===== verification/MmuWalk.v ===== *)
(** * The walks through the page tables

    What pml4e_walk, pdpe_walk and pgdir_walk do to the tree of tables: they find
    the entry, or extend the tree to hold it, or give every page back that they
    have taken and answer a null pointer. *)
From stdpp Require Import base numbers list gmap.
From Stdlib Require Import ZArith Lia.
From S2P Require Import Prelude Bytes CString Bitmap Palloc PallocInit Words Mmu MmuInv.
Open Scope Z_scope.

(** The entry of a table that exists. *)
Lemma next_entry m a i b : next m a i = Some b → ∃ e, entry m a i = Some e ∧ present e = true ∧ ptov (PTE_ADDR e) = b.
Proof. unfold next. destruct (entry m a i) as [e|]; [|done]. destruct (present e) eqn:Hp; [|done]. intros [= <-]. eauto. Qed.

(** ** The tree below an entry *)

Section graft.
Context (top : Z → Prop) (k : nat) (pg1 pg2 : ram) (a i c : Z).
Hypotheses (Hok : ram_ok pg1) (Ht : tree top (S k) pg1 a) (Hi : idx i) (Hti : top i).
Hypothesis (Hc : next (pg_mem pg1) a i = Some c).

Lemma node_below p : node (pg_mem pg1) a (i :: p) = node (pg_mem pg1) c p.
Proof. simpl. by rewrite Hc. Qed.
Lemma okp_below p : okp any k p → okp top (S k) (i :: p).
Proof. intros. by apply okp_cons. Qed.
Lemma subtree : tree any k pg1 c.
Proof.
  split.
  - intros p b Hp Hb. apply (tr_page _ _ _ _ Ht (i :: p)); [by apply okp_below|by rewrite node_below].
  - intros p q b Hp Hq Hpb Hqb. assert (i :: p = i :: q) as He; [|by injection He].
    apply (tr_inj _ _ _ _ Ht _ _ b); rewrite ?node_below; try done; by apply okp_below.
Qed.
Lemma in_tree_below x : in_tree any k pg1 c x → in_tree top (S k) pg1 a x.
Proof. intros (p & b & Hp & Hb & Hx). exists (i :: p), b. rewrite node_below. split; [by apply okp_below|done]. Qed.

Hypothesis (Hg : grown any k pg1 c pg2).

(** A table that is not below the entry is as it was. *)
Lemma outside_page p b x :
  okp top (S k) p → head p ≠ Some i → node (pg_mem pg1) a p = Some b → b <= x < b + PGSIZE →
  pg_mem pg2 !! x = pg_mem pg1 !! x.
Proof.
  intros Hp Hh Hb Hx. pose proof (tr_page _ _ _ _ Ht p b Hp Hb) as Htb.
  destruct (table_facts pg1 b Hok Htb) as (Hal & _ & _ & _ & Hxs). apply (g_conf _ _ _ _ _ Hg).
  - intros [_ Hf]. destruct (Hxs x Hx) as (_ & Hu & _). congruence.
  - intros (q & b' & Hq & Hb' & Hx'). rewrite <- node_below in Hb'. apply okp_below in Hq.
    assert (b ≠ b') as Hne.
    { intros <-. apply Hh. by rewrite (tr_inj _ _ _ _ Ht p (i :: q) b). }
    pose proof (tr_page _ _ _ _ Ht _ b' Hq Hb') as Htb'.
    destruct (table_facts pg1 b' Hok Htb') as (Hal' & _). destruct (pages_apart b b' Hal Hal' Hne); lia.
Qed.
Lemma outside_entry p b j :
  okp top (S k) p → head p ≠ Some i → node (pg_mem pg1) a p = Some b → idx j →
  entry (pg_mem pg2) b j = entry (pg_mem pg1) b j.
Proof. intros Hp Hh Hb Hj. apply entry_page; [done|]. intros x. by apply (outside_page p). Qed.
Lemma outside_node p : okp top (S k) p → head p ≠ Some i → node (pg_mem pg2) a p = node (pg_mem pg1) a p.
Proof.
  intros Hp Hh. apply node_agree. intros p1 j p2 b -> Hb. apply next_agree, (outside_entry p1); [by apply okp_app_l in Hp| |done|].
  - by destruct p1.
  - destruct Hp as (_ & Hf & _). apply Forall_app in Hf as [_ Hf]. by apply Forall_cons in Hf as [? _].
Qed.
Lemma below_next : next (pg_mem pg2) a i = Some c.
Proof. rewrite <- Hc. apply next_agree, (outside_entry []); [apply okp_nil|done|done|done]. Qed.
Lemma below_node p : node (pg_mem pg2) a (i :: p) = node (pg_mem pg2) c p.
Proof. simpl. by rewrite below_next. Qed.

(** A path is below the entry or outside. *)
Lemma path_cases p : okp top (S k) p → (∃ q, p = i :: q ∧ okp any k q) ∨ head p ≠ Some i.
Proof.
  intros Hp. destruct p as [|j q]; [by right|]. destruct (decide (j = i)) as [->|]; [left|right; simpl; congruence].
  apply okp_cons in Hp as (_ & _ & Hq). eauto.
Qed.

Lemma used_table b : table_page pg1 b → table_page pg2 b.
Proof.
  intros Hb. destruct (g_base _ _ _ _ _ Hg) as (Hba & Hbc & _). destruct Hb as (H1 & H2 & H3 & H4).
  unfold table_page, run_of, pool_end in *. rewrite Hba, Hbc. split; [done|]. split; [done|]. split; [done|].
  intros x Hx. apply (g_used _ _ _ _ _ Hg); [|by apply H4]. unfold in_pool, pool_end. lia.
Qed.

Lemma graft_grown : grown top (S k) pg1 a pg2.
Proof.
  assert (Hmixed : ∀ p q b, okp any k p → okp top (S k) q → head q ≠ Some i →
    node (pg_mem pg2) c p = Some b → node (pg_mem pg1) a q = Some b → False).
  { intros p q b Hp Hq Hh Hpb Hqb. destruct (g_new _ _ _ _ _ Hg p b Hp Hpb) as [Hb|[_ Hb]].
    - apply Hh. rewrite <- node_below in Hb. by rewrite <- (tr_inj _ _ _ _ Ht (i :: p) q b) by (done || by apply okp_below).
    - pose proof (tr_page _ _ _ _ Ht q b Hq Hqb) as Htb. destruct (table_facts pg1 b Hok Htb) as (_ & _ & _ & _ & Hxs).
      destruct (Hxs b) as (_ & Hu & _); [unfold PGSIZE; lia|]. congruence. }
  split.
  - apply Hg.
  - split.
    + intros p b Hp. destruct (path_cases p Hp) as [(q & -> & Hq)|Hh].
      * rewrite below_node. by apply (tr_page _ _ _ _ (g_tree _ _ _ _ _ Hg)).
      * rewrite outside_node by done. intros Hb. by apply used_table, (tr_page _ _ _ _ Ht p).
    + intros p q b Hp Hq Hpb Hqb.
      destruct (path_cases p Hp) as [(p' & -> & Hp')|Hh], (path_cases q Hq) as [(q' & -> & Hq')|Hh'].
      * rewrite below_node in Hpb, Hqb. f_equal. by apply (tr_inj _ _ _ _ (g_tree _ _ _ _ _ Hg) p' q' b).
      * rewrite below_node in Hpb. rewrite outside_node in Hqb by done. by destruct (Hmixed p' q b).
      * rewrite below_node in Hqb. rewrite outside_node in Hpb by done. by destruct (Hmixed q' p b).
      * rewrite outside_node in Hpb, Hqb by done. by apply (tr_inj _ _ _ _ Ht p q b).
  - apply Hg.
  - apply Hg.
  - intros x Hk Hn. apply (g_conf _ _ _ _ _ Hg); [done|]. by intros Hx%in_tree_below.
  - intros p b Hp. destruct (path_cases p Hp) as [(q & -> & Hq)|Hh].
    + rewrite below_node, node_below. by apply (g_old _ _ _ _ _ Hg).
    + by rewrite outside_node.
  - intros p b Hp. destruct (path_cases p Hp) as [(q & -> & Hq)|Hh].
    + rewrite below_node, node_below. by apply (g_new _ _ _ _ _ Hg).
    + rewrite outside_node by done. by left.
  - intros p b j Hp Hl. destruct (path_cases p Hp) as [(q & -> & Hq)|Hh].
    + rewrite node_below. apply (g_leaf _ _ _ _ _ Hg); [done|]. by injection Hl.
    + by apply outside_entry.
  - intros p b j Hp Hl. destruct (path_cases p Hp) as [(q & -> & Hq)|Hh].
    + rewrite node_below, below_node. apply (g_leaf_new _ _ _ _ _ Hg); [done|]. by injection Hl.
    + rewrite outside_node by done. congruence.
Qed.
Lemma graft_node p : (∀ q, okp any k q → node (pg_mem pg2) c q = node (pg_mem pg1) c q) →
  okp top (S k) p → node (pg_mem pg2) a p = node (pg_mem pg1) a p.
Proof.
  intros Hn Hp. destruct (path_cases p Hp) as [(q & -> & Hq)|Hh]; [|by apply outside_node].
  rewrite below_node, node_below. by apply Hn.
Qed.
End graft.

(** ** Giving a new table back *)

Section undo.
Context (top : Z → Prop) (k : nat) (pg pg1 pg2 pg3 : ram) (a i c : Z).
Hypotheses (Hok : ram_ok pg) (Ht : tree top (S k) pg a) (Hi : idx i) (Hti : top i).
Hypotheses (Hnone : next (pg_mem pg) a i = None) (Hat : attached pg a i c pg1).
Hypothesis (Hu : unchanged any k pg1 c pg2).
Hypotheses (Hok3 : ram_ok pg3) (Hre : reused false pg2 pg3 c 1 false).
Hypothesis (Hw : wiped (pg_mem pg2) (pg_mem pg3) c (PGSIZE * 1) 204).
Let pg4 := with_bytes pg3 (put64 (a + 8 * i) 0 (pg_mem pg3)).

Lemma undo_grown1 : grown top (S k) pg a pg1.
Proof. by apply (attached_grown top k pg a i c). Qed.
Lemma undo_table : table_page pg a.
Proof. apply (tr_page _ _ _ _ Ht []); [apply okp_nil|done]. Qed.
Lemma undo_below : next (pg_mem pg1) a i = Some c.
Proof. apply (at_next_new pg a i c pg1 Hat). Qed.
Lemma undo_grown : grown top (S k) pg a pg2.
Proof.
  apply (grown_trans _ _ pg a pg1 pg2 Hok undo_grown1).
  apply (graft_grown top k pg1 pg2 a i c); [apply Hat|apply undo_grown1|done|done|apply undo_below|apply Hu].
Qed.

(** The table was a free page. *)
Lemma undo_free x : c <= x < c + PGSIZE → in_pool (kernel_pool pg) x ∧ page_used (kernel_pool pg) x = false.
Proof.
  intros Hx. destruct (at_free _ _ _ _ _ Hat) as (_ & H1 & H2 & H3). unfold in_pool.
  split; [lia|]. apply H3. lia.
Qed.
Lemma undo_used x : in_pool (kernel_pool pg) x → page_used (kernel_pool pg4) x = page_used (kernel_pool pg) x.
Proof.
  intros Hx. change (kernel_pool pg4) with (kernel_pool pg3). destruct Hre as (_ & _ & _ & Hr). simpl in Hr.
  assert (Hx1 : in_pool (kernel_pool pg1) x) by (by apply (in_pool_eq _ _ _ _ _ _ undo_grown1)).
  rewrite Hr by (by apply (in_pool_eq _ _ _ _ _ _ (u_grown _ _ _ _ _ Hu))).
  destruct (decide _) as [Hin|Hout].
  - rewrite Z.mul_1_r in Hin. destruct (undo_free x Hin) as [_ Hf]. by rewrite Hf.
  - rewrite (u_used _ _ _ _ _ Hu) by done. destruct (at_used _ _ _ _ _ Hat) as (_ & _ & _ & Hr1). simpl in Hr1.
    rewrite Hr1 by done. by rewrite decide_False.
Qed.
Lemma undo_base : base (kernel_pool pg4) = base (kernel_pool pg) ∧
  bit_cnt (used_map (kernel_pool pg4)) = bit_cnt (used_map (kernel_pool pg)) ∧ user_pool pg4 = user_pool pg.
Proof.
  destruct (g_base _ _ _ _ _ undo_grown) as (H1 & H2 & H3), Hre as (H4 & H5 & H6 & _). simpl in *.
  split; [congruence|]. split; congruence.
Qed.
Lemma undo_page b : table_page pg b → table_page pg4 b.
Proof.
  destruct undo_base as (Hba & Hbc & _). intros (H1 & H2 & H3 & H4).
  unfold table_page, run_of, pool_end in *. rewrite Hba, Hbc. split; [done|]. split; [done|]. split; [done|].
  intros x Hx. rewrite undo_used; [by apply H4|]. unfold in_pool, pool_end. lia.
Qed.

Lemma undo_entry b j : table_page pg b → idx j → b ≠ a ∨ j ≠ i → entry (pg_mem pg4) b j = entry (pg_mem pg2) b j.
Proof.
  intros Hb Hj Hne. unfold entry. simpl. rewrite word64_put_other.
  - apply word64_ext. intros x Hx. rewrite Hw, decide_False; [done|].
    destruct (at_apart pg a i c pg1 Hat b Hb); unfold idx, PGSIZE in *; lia.
  - destruct (decide (b = a)) as [->|Hba]; [unfold idx in *; lia|].
    destruct (pages_apart b a) as [|]; [apply Hb|apply undo_table|done|..]; unfold idx, PGSIZE in *; lia.
Qed.
Lemma undo_next : next (pg_mem pg4) a i = None.
Proof. unfold next, entry. simpl. by rewrite word64_put_same by done. Qed.

Lemma undo_node p : okp top (S k) p → node (pg_mem pg4) a p = node (pg_mem pg) a p.
Proof.
  intros Hp. destruct (decide (head p = Some i)) as [Hh|Hh].
  { destruct p as [|j p]; [done|]. injection Hh as ->. cbn [node]. by rewrite undo_next, Hnone. }
  apply node_agree. intros p1 j p2 b -> Hb. pose proof (okp_app_l _ _ _ _ Hp) as Hp1.
  assert (Hj : idx j). { destruct Hp as (_ & Hf & _). apply Forall_app in Hf as [_ Hf]. by apply Forall_cons in Hf as [? _]. }
  assert (Hne : b ≠ a ∨ j ≠ i).
  { destruct (decide (b = a)) as [->|]; [right; intros ->|by left].
    assert (p1 = []) as -> by (apply (tr_inj _ _ _ _ Ht p1 [] a); [done|apply okp_nil|done|done]). by destruct Hh. }
  assert (Hh1 : head p1 ≠ Some i) by (by destruct p1).
  pose proof (tr_page _ _ _ _ Ht p1 b Hp1 Hb) as Htb. apply next_agree. rewrite undo_entry by done.
  rewrite (outside_entry top k pg1 pg2 a i c) with (p := p1); [by apply (at_entry_old pg a i c pg1 undo_table Hi Hat)|..].
  - apply Hat.
  - apply undo_grown1.
  - done.
  - done.
  - apply undo_below.
  - apply Hu.
  - done.
  - done.
  - by rewrite (attached_node_other top k pg a i c pg1).
  - done.
Qed.

Lemma undo_unchanged : unchanged top (S k) pg a pg4.
Proof.
  assert (Hok4 : ram_ok pg4) by (apply ram_ok_bytes; [intros x; apply put64_mapped|done]).
  split; [split|apply undo_used|apply undo_node].
  - done.
  - split.
    + intros p b Hp. rewrite undo_node by done. intros Hb. by apply undo_page, (tr_page _ _ _ _ Ht p).
    + intros p q b Hp Hq. rewrite !undo_node by done. by apply (tr_inj _ _ _ _ Ht).
  - apply undo_base.
  - intros x Hx Hx1. by rewrite undo_used.
  - intros x Hk Hn. simpl. rewrite put64_lookup, decide_False.
    + rewrite Hw, decide_False; [by apply (g_conf _ _ _ _ _ undo_grown)|]. intros Hx. apply Hk, undo_free. lia.
    + intros Hx. apply Hn. exists [], a. split; [apply okp_nil|]. split; [done|]. unfold idx, PGSIZE in *. lia.
  - intros p b Hp. by rewrite undo_node.
  - intros p b Hp. rewrite undo_node by done. by left.
  - intros p b j Hp Hl Hb Hj. rewrite undo_entry; [|by apply (tr_page _ _ _ _ Ht p)|done|left].
    + by apply (g_leaf _ _ _ _ _ undo_grown p).
    + intros ->. assert (p = []) as -> by (apply (tr_inj _ _ _ _ Ht p [] a); [done|apply okp_nil|done|done]). done.
  - intros p b j Hp Hl. rewrite undo_node by done. congruence.
Qed.
End undo.

(** The end of a walk that fails: the new table is freed and its entry cleared. *)
Lemma undo_wp top k pg pg1 pg2 a i c (Q : Z → ram → Prop) :
  ram_ok pg → tree top (S k) pg a → idx i → top i → next (pg_mem pg) a i = None → attached pg a i c pg1 →
  unchanged any k pg1 c pg2 → (∀ pg4, unchanged top (S k) pg a pg4 → Q 0 pg4) →
  wp (_ ← (e ← get_entry a i; _ ← palloc_free_page (ptov (PTE_ADDR e)); set_entry a i 0); mret 0) pg2 Q.
Proof.
  intros Hok Ht Hi Hti Hnone Hat Hu HQ.
  pose proof (undo_grown top k pg pg1 pg2 a i c Hok Ht Hi Hti Hnone Hat Hu) as Hg.
  pose proof (attached_grown top k pg a i c pg1 Hok Ht Hi Hti Hnone Hat) as Hg1.
  assert (Hn2 : next (pg_mem pg2) a i = Some c).
  { apply (below_next top k pg1 pg2 a i c); [apply Hat|apply Hg1|done|done|apply (at_next_new pg a i c pg1 Hat)|apply Hu]. }
  assert (Htc : table_page pg2 c).
  { apply (tr_page _ _ _ _ (g_tree _ _ _ _ _ (u_grown _ _ _ _ _ Hu)) []); [apply okp_nil|done]. }
  assert (Hta : table_page pg2 a) by (apply (tr_page _ _ _ _ (g_tree _ _ _ _ _ Hg) []); [apply okp_nil|done]).
  destruct (next_entry _ _ _ _ Hn2) as (e & He & _ & Hc). wp_pure.
  apply (get_entry_wp _ _ _ e); [done|]. wp_pure. rewrite Hc. unfold palloc_free_page.
  eapply wp_mono; [apply (palloc_free_wp pg2 false c 1); [apply Hg|done|done]|]. intros [] pg3 (Hwf3 & Hre & Hw).
  pose proof (ram_ok_reused _ _ _ _ _ Hwf3 Hre (g_ram _ _ _ _ _ Hg)) as Hok3.
  apply set_entry_wp.
  { apply word64_mapped. intros x Hx. apply (wiped_mapped _ _ _ _ _ x Hw).
    destruct (table_facts pg2 a (g_ram _ _ _ _ _ Hg) Hta) as (_ & _ & _ & _ & Hxs). apply Hxs. unfold idx, PGSIZE in *. lia. }
  wp_pure. apply HQ. by apply (undo_unchanged top k pg pg1 pg2 pg3 a i c).
Qed.

(** ** The walks *)

(** There are less than [n] free pages in the kernel pool. *)
Definition few (pg : ram) (n : nat) : Prop :=
  ∀ l, NoDup l → Forall (λ b, run_of (kernel_pool pg) b 1 false) l → (length l < n)%nat.

(** What a walk with [create] answers for the path [q] below its root. *)
Definition walked (top : Z → Prop) (va : Z) (q : list Z) (pg : ram) (a r : Z) (pg' : ram) : Prop :=
  grown top (length q) pg a pg' ∧
  ((∃ b, node (pg_mem pg') a q = Some b ∧ r = b + 8 * PTX va) ∨
   (r = 0 ∧ unchanged top (length q) pg a pg' ∧ node (pg_mem pg) a q = None ∧ few pg (length q))).
Definition walks (top : Z → Prop) (va : Z) (q : list Z) (w : Z → ST ram Z) : Prop :=
  ∀ pg a, ram_ok pg → tree top (length q) pg a → wp (w a) pg (walked top va q pg a).

Section walks.
Implicit Types (pg : ram) (a b c i va : Z) (q : list Z) (top : Z → Prop).

Lemma few_S pg n : few pg n → few pg (S n).
Proof. intros Hf l Hn Hl. specialize (Hf l Hn Hl). lia. Qed.
Lemma few_none pg n : (∀ c, ¬ run_of (kernel_pool pg) c 1 false) → few pg (S n).
Proof. intros Hno l _ Hl. destruct l as [|c l]; [simpl; lia|]. apply Forall_cons in Hl as [Hc _]. by destruct (Hno c). Qed.
Lemma few_attached pg a i c pg1 n : attached pg a i c pg1 → few pg1 n → few pg (S n).
Proof.
  intros Hat Hf l Hn Hl.
  assert (Hrest : ∀ l', NoDup l' → c ∉ l' → Forall (λ b, run_of (kernel_pool pg) b 1 false) l' → (length l' < n)%nat).
  { intros l' Hn' Hc Hl'. apply Hf; [done|]. rewrite Forall_forall in Hl'. apply Forall_forall. intros b Hb.
    pose proof (Hl' b Hb) as Hfree. apply (run_keep pg pg1 c 1 true); [apply Hat|done|done|].
    rewrite Z.mul_1_r. assert (b ≠ c) as Hbc by (by intros ->).
    apply pages_apart; [apply Hfree|apply (at_free _ _ _ _ _ Hat)|done]. }
  destruct (decide (c ∈ l)) as [Hin|Hout]; [|by specialize (Hrest l Hn Hout Hl); lia].
  apply list_elem_of_split in Hin as (l1 & l2 & ->). apply NoDup_app in Hn as (Hn1 & Hd & Hn2).
  apply NoDup_cons in Hn2 as [Hc2 Hn2]. apply Forall_app in Hl as [Hl1 Hl2]. apply Forall_cons in Hl2 as [_ Hl2].
  specialize (Hrest (l1 ++ l2)). rewrite length_app in *. simpl. enough (length l1 + length l2 < n)%nat by lia. apply Hrest.
  - apply NoDup_app. split; [done|]. split; [|done]. intros x Hx. specialize (Hd x Hx). set_solver.
  - intros [Hx|Hx]%elem_of_app; [|done]. apply (Hd c Hx). set_solver.
  - by apply Forall_app.
Qed.

Lemma root_page top k pg a : tree top k pg a → table_page pg a.
Proof. intros Ht. apply (tr_page _ _ _ _ Ht []); [apply okp_nil|done]. Qed.
Lemma table_nonzero pg a : ram_ok pg → table_page pg a → (a =? 0) = false.
Proof. intros Hok Ha. destruct (table_facts pg a Hok Ha) as (_ & Hk & _). apply Z.eqb_neq. unfold KERN_BASE in *. lia. Qed.
Lemma PTX_range va : 0 <= PTX va < 512.
Proof. apply table_index_range. Qed.
Lemma ptov_plus e va b : ptov (PTE_ADDR e) = b → 0 <= b → b + PGSIZE < 2 ^ 64 → ptov (PTE_ADDR e + 8 * PTX va) = b + 8 * PTX va.
Proof.
  intros <- H0 Hb. pose proof (PTX_range va). revert H0 Hb. unfold ptov, u64, PGSIZE. intros.
  replace (PTE_ADDR e + 8 * PTX va + KERN_BASE) with (PTE_ADDR e + KERN_BASE + 8 * PTX va) by lia.
  rewrite <- Z.add_mod_idemp_l by lia. apply Z.mod_small. lia.
Qed.

Lemma pgdir_walk_walks top va : (idx (PDX va) → top (PDX va)) → walks top va [PDX va] (λ pdp, pgdir_walk pdp va 1).
Proof.
  intros Htop pg a Hok Ht. pose proof (root_page _ _ _ _ Ht) as Ha. assert (Hi : idx (PDX va)) by apply table_index_range.
  unfold pgdir_walk. rewrite (table_nonzero pg a) by done.
  assert (Hfin : ∀ pg', ram_ok pg' → table_page pg' a → ∀ c, next (pg_mem pg') a (PDX va) = Some c → table_page pg' c →
    grown top 1 pg a pg' → wp (e ← get_entry a (PDX va); mret (ptov (PTE_ADDR e + 8 * PTX va))) pg' (walked top va [PDX va] pg a)).
  { intros pg' Hok' Ha' c Hc Htc Hg. destruct (next_entry _ _ _ _ Hc) as (e & He & _ & Hb). wp_pure.
    apply (get_entry_wp _ _ _ e); [done|]. wp_pure. split; [done|]. left. exists c. simpl. rewrite Hc. split; [done|].
    destruct (table_facts pg' c Hok' Htc) as (_ & Hk & Hend & _). apply ptov_plus; [done| |done]. unfold KERN_BASE in *. lia. }
  wp_pure. eapply wp_mono; [by apply ensure_table_wp|]. intros [[]|] pg'.
  - intros (Hnone & c & Hat). assert (Hg : grown top 1 pg a pg') by (by apply (attached_grown top 0 pg a (PDX va) c); auto).
    refine (Hfin pg' _ _ c _ _ _); [apply Hat|by apply (root_page _ _ _ _ (g_tree _ _ _ _ _ Hg))|by apply (at_next_new pg _ _ c pg')|by apply (at_table_new pg a (PDX va) c pg')|done].
  - intros (-> & c & Hc). apply (Hfin pg Hok Ha c Hc); [|by apply unchanged_refl].
    apply (tr_page _ _ _ _ Ht [PDX va]); [apply okp_cons; split; [done|]; split; [auto|apply okp_nil]|]. simpl. by rewrite Hc.
  - intros (-> & Hnone & Hno). wp_pure. split; [by apply unchanged_refl|]. right. split; [done|].
    split; [by apply unchanged_refl|]. split; [simpl; by rewrite Hnone|]. by apply few_none.
Qed.

(** The answer of the walk below, seen from the table above it. *)
Lemma walked_graft top va i q pg pg2 a c r :
  ram_ok pg → tree top (S (length q)) pg a → idx i → top i → next (pg_mem pg) a i = Some c →
  walked any va q pg c r pg2 → walked top va (i :: q) pg a r pg2.
Proof.
  intros Hok Ht Hi Hti Hc [Hg Hr]. pose proof (graft_grown top (length q) pg pg2 a i c Hok Ht Hi Hti Hc Hg) as Hgg.
  split; [done|]. destruct Hr as [(b & Hb & ->)|(-> & Hu & Hn & Hf)]; [left|right].
  - exists b. split; [|done]. by rewrite (below_node top (length q) pg pg2 a i c).
  - split; [done|]. split; [split; [done|apply Hu|]|].
    + intros p Hp. apply (graft_node top (length q) pg pg2 a i c); try done. apply Hu.
    + split; [by rewrite (node_below pg a i c)|]. by apply few_S.
Qed.

Lemma walked_zero top va q pg a r pg' : ram_ok pg → walked top va q pg a r pg' → okp top (length q) q →
  (r =? 0) = true → r = 0 ∧ unchanged top (length q) pg a pg' ∧ node (pg_mem pg) a q = None ∧ few pg (length q).
Proof.
  intros Hok [Hg [(b & Hb & ->)|Hr]] Hq Hz; [|done]. exfalso. apply Z.eqb_eq in Hz.
  pose proof (tr_page _ _ _ _ (g_tree _ _ _ _ _ Hg) q b Hq Hb) as Htb.
  destruct (table_facts pg' b (g_ram _ _ _ _ _ Hg) Htb) as (_ & Hk & _). pose proof (PTX_range va).
  unfold KERN_BASE in *. lia.
Qed.

Lemma walk_level_walks top va i q w :
  idx i → top i → okp any (length q) q → walks any va q w →
  walks top va (i :: q) (λ table, walk_level table i 1 w).
Proof.
  intros Hi Hti Hq Hw pg a Hok Ht. pose proof (root_page _ _ _ _ Ht) as Ha.
  unfold walk_level. rewrite (table_nonzero pg a) by done. wp_pure.
  eapply wp_mono; [by apply ensure_table_wp|]. intros [[]|] pg1.
  - intros (Hnone & c & Hat). pose proof (attached_grown top (length q) pg a i c pg1 Hok Ht Hi Hti Hnone Hat) as Hg1.
    destruct (next_entry _ _ _ _ (at_next_new pg a i c pg1 Hat)) as (e & He & _ & Hc). wp_pure.
    apply (get_entry_wp _ _ _ e); [done|]. wp_pure. rewrite Hc.
    assert (Htc : tree any (length q) pg1 c).
    { apply (subtree top (length q) pg1 a i c); [apply Hg1|done|done|apply (at_next_new pg a i c pg1 Hat)]. }
    eapply wp_mono; [apply (Hw pg1 c (at_ram _ _ _ _ _ Hat) Htc)|]. intros r pg2 Hwalk.
    destruct (r =? 0) eqn:Hr; simpl.
    + destruct (walked_zero any va q pg1 c r pg2 (at_ram _ _ _ _ _ Hat) Hwalk Hq Hr) as (-> & Hu & Hn & Hf).
      apply (undo_wp top (length q) pg pg1 pg2 a i c (walked top va (i :: q) pg a)); try done.
      intros pg4 Hu4. split; [apply Hu4|]. right. split; [done|]. split; [done|]. split; [simpl; by rewrite Hnone|].
      by apply (few_attached pg a i c pg1).
    + wp_pure. pose proof (walked_graft top va i q pg1 pg2 a c r (at_ram _ _ _ _ _ Hat) (g_tree _ _ _ _ _ Hg1) Hi Hti
        (at_next_new pg a i c pg1 Hat) Hwalk) as [Hg2 Hr2].
      split; [by apply (grown_trans _ _ pg a pg1)|]. left. destruct Hr2 as [Hb|[-> _]]; done.
  - intros (-> & c & Hc). destruct (next_entry _ _ _ _ Hc) as (e & He & _ & Hpc). wp_pure.
    apply (get_entry_wp _ _ _ e); [done|]. wp_pure. rewrite Hpc.
    eapply wp_mono; [apply (Hw pg c Hok), (subtree top (length q) pg a i c); done|]. intros r pg2 Hwalk.
    rewrite andb_false_r. wp_pure. by apply (walked_graft top va i q pg pg2 a c).
  - intros (-> & Hnone & Hno). wp_pure. split; [by apply unchanged_refl|]. right. split; [done|].
    split; [by apply unchanged_refl|]. split; [simpl; by rewrite Hnone|]. by apply few_none.
Qed.
End walks.
