(* ===== verification/MmuSpec.v ===== *)
(** * What the page table operations do

    The mapping of a page table is read off its tree as the processor does; the
    operations of mmu.c look it up and change it at one page. *)
From stdpp Require Import base numbers list gmap.
From Stdlib Require Import ZArith Lia.
From S2P Require Import Prelude Bytes CString Bitmap Palloc PallocInit Words Mmu MmuInv MmuWalk.
Open Scope Z_scope.

(** ** The mapping of a page table *)

Definition path (va : Z) : list Z := [PML4 va; PDPE va; PDX va].
(** The entry of the page of [va], if there is a table for it. *)
Definition slot (m : mem) (a va : Z) : option Z :=
  match node m a (path va) with Some b => entry m b (PTX va) | None => None end.
(** The entry, if it is present. *)
Definition mapping (m : mem) (a va : Z) : option Z :=
  match slot m a va with Some e => if present e then Some e else None | None => None end.
(** The address of the kernel for the byte that a user address is mapped to. *)
Definition translate (m : mem) (a va : Z) : option Z := (λ e, ptov (PTE_ADDR e) + pg_ofs va) <$> mapping m a va.

(** The address of the entry. *)
Definition entry_at (m : mem) (a va : Z) : Z :=
  match node m a (path va) with Some b => b + 8 * PTX va | None => 0 end.

(** The entry is one that the root's owner may change. *)
Definition user_va (top : Z → Prop) (va : Z) : Prop := 0 <= va < KERN_BASE ∧ top (PML4 va).
(** A page table of a process, with the entries of the root that are its own. *)
Record space (top : Z → Prop) (s : mmu) (a : Z) : Prop := {
  sp_ram : ram_ok (m_ram s);
  sp_tree : tree top 3 (m_ram s) a;
  sp_base : a ≠ base_pml4 s;
}.
Abbreviation bytes s := (pg_mem (m_ram s)).

Section indices.
Implicit Types (va : Z).
Lemma index_div va n : 0 <= n → Z.land (Z.shiftr va n) 511 = va / 2 ^ n mod 512.
Proof. intros. change 511 with (Z.ones 9). rewrite Z.land_ones, Z.shiftr_div_pow2 by lia. done. Qed.
(** The indices are those of one page only. *)
Lemma same_indices va va' : 0 <= va < 2 ^ 48 → 0 <= va' < 2 ^ 48 → path va = path va' → PTX va = PTX va' →
  va / PGSIZE = va' / PGSIZE.
Proof.
  intros H H' [= H1 H2 H3] H4. unfold PML4, PDPE, PDX, PTX, PML4SHIFT, PDPESHIFT, PDXSHIFT, PTXSHIFT in *.
  rewrite !index_div in * by lia. unfold PGSIZE.
  change (2 ^ 39) with 549755813888 in *. change (2 ^ 30) with 1073741824 in *. change (2 ^ 21) with 2097152 in *.
  change (2 ^ 12) with 4096 in *. change (2 ^ 48) with 281474976710656 in *. zdiv.
Qed.
Lemma path_ok top va : top (PML4 va) → okp top 3 (path va).
Proof.
  intros Ht. split; [done|]. split; [|done]. unfold path. rewrite !Forall_cons. split; [apply table_index_range|].
  split; [apply table_index_range|]. split; [apply table_index_range|done].
Qed.
Lemma path_tail va : okp any 2 [PDPE va; PDX va].
Proof. apply (okp_cons any 2 (PML4 va)). by apply path_ok. Qed.
Lemma path_tail2 va : okp any 1 [PDX va].
Proof. apply (okp_cons any 1 (PDPE va)). apply path_tail. Qed.
End indices.

(** ** Changing one entry *)

Section leaf.
Context (top : Z → Prop) (k : nat) (pg : ram) (a b i e : Z) (q : list Z).
Hypotheses (Hok : ram_ok pg) (Ht : tree top k pg a) (Hq : okp top k q) (Hl : length q = k).
Hypotheses (Hb : node (pg_mem pg) a q = Some b) (Hi : idx i) (He : 0 <= e < 2 ^ 64).
Let pg' := with_bytes pg (put64 (b + 8 * i) e (pg_mem pg)).

Lemma leaf_entry p c j : okp top k p → node (pg_mem pg) a p = Some c → idx j → c ≠ b ∨ j ≠ i →
  entry (pg_mem pg') c j = entry (pg_mem pg) c j.
Proof.
  intros Hp Hc Hj Hne. unfold entry. simpl. apply word64_put_other. destruct (decide (c = b)) as [->|Hcb].
  - unfold idx in *. lia.
  - pose proof (tr_page _ _ _ _ Ht p c Hp Hc) as Htc. pose proof (tr_page _ _ _ _ Ht q b Hq Hb) as Htb.
    destruct (pages_apart c b) as [|]; [apply Htc|apply Htb|done|..]; unfold idx, PGSIZE in *; lia.
Qed.
Lemma leaf_same : entry (pg_mem pg') b i = Some e.
Proof. by apply word64_put_same. Qed.
Lemma leaf_node p : okp top k p → node (pg_mem pg') a p = node (pg_mem pg) a p.
Proof.
  intros Hp. apply node_agree. intros p1 j p2 c -> Hc. pose proof (okp_app_l _ _ _ _ Hp) as Hp1.
  apply next_agree, (leaf_entry p1); [done|done| |left; intros ->].
  - destruct Hp as (_ & Hf & _). apply Forall_app in Hf as [_ Hf]. by apply Forall_cons in Hf as [? _].
  - assert (p1 = q) as <- by (by apply (tr_inj _ _ _ _ Ht p1 q b)).
    destruct Hp as (Hlp & _). rewrite length_app in Hlp. simpl in Hlp. lia.
Qed.
Lemma leaf_ram : ram_ok pg'.
Proof. apply ram_ok_bytes; [intros x; apply put64_mapped|done]. Qed.
Lemma leaf_tree : tree top k pg' a.
Proof.
  split.
  - intros p c Hp. rewrite leaf_node by done. by apply (tr_page _ _ _ _ Ht).
  - intros p p' c Hp Hp'. rewrite !leaf_node by done. by apply (tr_inj _ _ _ _ Ht).
Qed.
Lemma leaf_mapped : is_Some (entry (pg_mem pg) b i).
Proof. apply table_entry; [done|by apply (tr_page _ _ _ _ Ht q)|done]. Qed.
(** The bytes outside of the tree. *)
Lemma leaf_conf x : ¬ in_tree top k pg a x → pg_mem pg' !! x = pg_mem pg !! x.
Proof.
  intros Hn. simpl. rewrite put64_lookup, decide_False; [done|]. intros Hx. apply Hn. exists q, b.
  split; [done|]. split; [done|]. unfold idx, PGSIZE in *. lia.
Qed.
End leaf.

(** ** Looking up *)

(** A walk that creates nothing changes nothing. *)
Definition finds (top : Z → Prop) (va : Z) (q : list Z) (w : Z → ST ram Z) : Prop :=
  ∀ pg a, ram_ok pg → tree top (length q) pg a → wp (w a) pg (λ r pg', pg' = pg ∧
    r = match node (pg_mem pg) a q with Some b => b + 8 * PTX va | None => 0 end).

Section finds.
Implicit Types (pg : ram) (a b i va : Z) (q : list Z) (top : Z → Prop).

Lemma ensure_table_find pg a i : ram_ok pg → table_page pg a → idx i →
  wp (ensure_table a i 0) pg (λ r pg', pg' = pg ∧ r = match next (pg_mem pg) a i with Some _ => Some false | None => None end).
Proof.
  intros Hok Ha Hi. destruct (table_entry pg a i Hok Ha Hi) as [e He]. unfold ensure_table. wp_pure.
  apply (get_entry_wp _ _ _ e); [done|]. unfold next. rewrite He. destruct (present e); simpl; by wp_pure.
Qed.
Lemma pgdir_walk_finds top va : (idx (PDX va) → top (PDX va)) → finds top va [PDX va] (λ pdp, pgdir_walk pdp va 0).
Proof.
  intros Htop pg a Hok Ht. pose proof (root_page _ _ _ _ Ht) as Ha. assert (Hi : idx (PDX va)) by apply table_index_range.
  unfold pgdir_walk. rewrite (table_nonzero pg a) by done. wp_pure.
  eapply wp_mono; [by apply ensure_table_find|]. intros r pg' [-> ->]. simpl.
  destruct (next (pg_mem pg) a (PDX va)) as [c|] eqn:Hc; [|by wp_pure].
  destruct (next_entry _ _ _ _ Hc) as (e & He & _ & Hb). wp_pure. apply (get_entry_wp _ _ _ e); [done|]. wp_pure.
  split; [done|]. assert (Htc : table_page pg c).
  { apply (tr_page _ _ _ _ Ht [PDX va]); [apply okp_cons; split; [done|]; split; [auto|apply okp_nil]|]. simpl. by rewrite Hc. }
  destruct (table_facts pg c Hok Htc) as (_ & Hk & Hend & _). apply ptov_plus; [done| |done]. unfold KERN_BASE in *. lia.
Qed.
Lemma walk_level_finds top va i q w : idx i → top i → okp any (length q) q → finds any va q w →
  finds top va (i :: q) (λ table, walk_level table i 0 w).
Proof.
  intros Hi Hti Hq Hw pg a Hok Ht. pose proof (root_page _ _ _ _ Ht) as Ha.
  unfold walk_level. rewrite (table_nonzero pg a) by done. wp_pure.
  eapply wp_mono; [by apply ensure_table_find|]. intros r pg' [-> ->]. simpl.
  destruct (next (pg_mem pg) a i) as [c|] eqn:Hc; [|by wp_pure].
  destruct (next_entry _ _ _ _ Hc) as (e & He & _ & Hpc). wp_pure. apply (get_entry_wp _ _ _ e); [done|]. wp_pure. rewrite Hpc.
  eapply wp_mono; [apply (Hw pg c Hok), (subtree top (length q) pg a i c); done|]. intros r pg' [-> ->].
  rewrite andb_false_r. by wp_pure.
Qed.

Lemma pml4e_walk_finds top va : top (PML4 va) → finds top va (path va) (λ pml4, pml4e_walk pml4 va 0).
Proof.
  intros Ht. apply walk_level_finds; [apply table_index_range|done|apply (path_tail va)|].
  apply walk_level_finds; [apply table_index_range|done|apply (path_tail2 va)|]. by apply pgdir_walk_finds.
Qed.
Lemma pml4e_walk_walks top va : top (PML4 va) → walks top va (path va) (λ pml4, pml4e_walk pml4 va 1).
Proof.
  intros Ht. apply walk_level_walks; [apply table_index_range|done|apply (path_tail va)|].
  apply walk_level_walks; [apply table_index_range|done|apply (path_tail2 va)|]. by apply pgdir_walk_walks.
Qed.
End finds.

(** ** The operations *)

Section ops.
Implicit Types (s : mmu) (a va upage kpage : Z) (top : Z → Prop).

Lemma wp_on_pages {A} (c : ST ram A) s (Q : A → mmu → Prop) :
  wp c (m_ram s) (λ x pg', Q x (Mmu pg' (base_pml4 s) (cr3 s))) → wp (on_pages c) s Q.
Proof. intros Hc. unfold on_pages. wp_pure. exact Hc. Qed.
Lemma same_pages s : Mmu (m_ram s) (base_pml4 s) (cr3 s) = s.
Proof. by destruct s. Qed.

(** The entry of a page, by its address. *)
Lemma slot_at s top a va : space top s a → top (PML4 va) →
  match slot (bytes s) a va with
  | Some e => ∃ b, node (bytes s) a (path va) = Some b ∧ entry (bytes s) b (PTX va) = Some e ∧
      entry_at (bytes s) a va = b + 8 * PTX va ∧ (entry_at (bytes s) a va =? 0) = false
  | None => node (bytes s) a (path va) = None ∧ entry_at (bytes s) a va = 0
  end.
Proof.
  intros [Hok Ht _] Htop. unfold slot, entry_at. destruct (node (bytes s) a (path va)) as [b|] eqn:Hb; [|done].
  pose proof (tr_page _ _ _ _ Ht _ b (path_ok top va Htop) Hb) as Htb.
  destruct (table_entry _ b (PTX va) Hok Htb (PTX_range va)) as [e He]. rewrite He. exists b. split; [done|].
  split; [done|]. split; [done|]. apply Z.eqb_neq. pose proof (PTX_range va).
  destruct (table_facts _ b Hok Htb) as (_ & Hk & _). unfold KERN_BASE in *. lia.
Qed.
(** A walk that only looks. *)
Lemma find_wp s top a va (Q : Z → mmu → Prop) : space top s a → top (PML4 va) →
  Q (entry_at (bytes s) a va) s → wp (on_pages (pml4e_walk a va 0)) s Q.
Proof.
  intros [Hok Ht _] Htop HQ. apply wp_on_pages. eapply wp_mono; [by apply (pml4e_walk_finds top va Htop)|].
  intros r pg' [-> ->]. by rewrite same_pages.
Qed.
Lemma load_wp s b i e (Q : Z → mmu → Prop) : entry (bytes s) b i = Some e → Q e s →
  wp (on_pages (on_mem (load64 (b + 8 * i)))) s Q.
Proof.
  intros He HQ. apply wp_on_pages. unfold on_mem. wp_pure. apply (wp_load64 _ _ e); [exact He|]. by destruct s as [[] ? ?].
Qed.
Definition with_entry s (b i e : Z) : mmu :=
  Mmu (with_bytes (m_ram s) (put64 (b + 8 * i) e (bytes s))) (base_pml4 s) (cr3 s).
Lemma store_wp s b i e (Q : unit → mmu → Prop) : is_Some (entry (bytes s) b i) → Q tt (with_entry s b i e) →
  wp (on_pages (on_mem (store64 (b + 8 * i) e))) s Q.
Proof. intros He HQ. apply wp_on_pages. unfold on_mem. wp_pure. by apply wp_store64. Qed.

Lemma user_checks top va : user_va top va → is_user_vaddr va = true ∧ 0 <= va < 2 ^ 48.
Proof. intros [Hr _]. unfold is_user_vaddr, is_kernel_vaddr, KERN_BASE in *. rewrite (proj2 (Z.leb_gt _ _)) by lia. split; [done|lia]. Qed.

Lemma PTE_ADDR_aligned e : PTE_ADDR e mod PGSIZE = 0.
Proof.
  unfold PTE_ADDR, PGSIZE. change 4096 with (2 ^ 12). rewrite <- Z.land_ones, <- Z.land_assoc by lia.
  change (Z.land (u64 (Z.lnot 4095)) (Z.ones 12)) with 0. apply Z.land_0_r.
Qed.
Lemma ptov_page e va : 0 <= va → u64 (ptov (PTE_ADDR e) + pg_ofs va) = ptov (PTE_ADDR e) + pg_ofs va.
Proof.
  intros Hva. pose proof (PTE_ADDR_aligned e). assert (0 <= ptov (PTE_ADDR e) < 2 ^ 64) as Hr by apply u64_range.
  rewrite pg_ofs_mod. apply u64_small. assert (ptov (PTE_ADDR e) mod PGSIZE = 0); [|unfold PGSIZE in *; zdiv].
  unfold ptov, u64, PGSIZE, KERN_BASE in *. zdiv.
Qed.

(** pml4_get_page answers what the processor's translation is. *)
Lemma get_page_wp top s a va : space top s a → user_va top va →
  wp (pml4_get_page a va) s (λ r s', s' = s ∧ r = default 0 (translate (bytes s) a va)).
Proof.
  intros Hs Hva. destruct (user_checks top va Hva) as [Hu Hr]. unfold pml4_get_page. wp_pure. wp_step; [done|]. wp_pure.
  apply (find_wp s top); [done|apply Hva|]. pose proof (slot_at s top a va Hs (proj2 Hva)) as Hslot.
  unfold translate, mapping. destruct (slot (bytes s) a va) as [e|].
  - destruct Hslot as (b & Hb & He & Hat & ->). wp_pure. rewrite Hat. apply (load_wp _ _ _ e); [done|]. wp_pure.
    split; [done|]. destruct (present e); [|done]. simpl. apply ptov_page. lia.
  - destruct Hslot as [_ ->]. by wp_pure.
Qed.

(** What is left alone when a page table changes. *)
Record extends top s a (s' : mmu) : Prop := {
  ex_space : space top s' a;
  ex_regs : base_pml4 s' = base_pml4 s ∧ cr3 s' = cr3 s;
  ex_pool : base (kernel_pool (m_ram s')) = base (kernel_pool (m_ram s)) ∧
    bit_cnt (used_map (kernel_pool (m_ram s'))) = bit_cnt (used_map (kernel_pool (m_ram s))) ∧
    user_pool (m_ram s') = user_pool (m_ram s);
  ex_used : ∀ x, in_pool (kernel_pool (m_ram s)) x → page_used (kernel_pool (m_ram s)) x = true →
    page_used (kernel_pool (m_ram s')) x = true;
  ex_conf : ∀ x, kept (m_ram s) x → ¬ in_tree top 3 (m_ram s) a x → bytes s' !! x = bytes s !! x;
  ex_new : ∀ p b, okp top 3 p → node (bytes s') a p = Some b → node (bytes s) a p = Some b ∨
    in_pool (kernel_pool (m_ram s)) b ∧ page_used (kernel_pool (m_ram s)) b = false;
}.

Lemma grown_extends top s a pg' : space top s a → grown top 3 (m_ram s) a pg' → extends top s a (Mmu pg' (base_pml4 s) (cr3 s)).
Proof. intros [Hok Ht Hb] Hg. split; [split; [apply Hg|apply Hg|done]|done|apply Hg|apply Hg|apply Hg|apply Hg]. Qed.
Lemma extends_refl top s a : space top s a → extends top s a s.
Proof. intros Hs. rewrite <- (same_pages s) at 2. apply grown_extends, unchanged_refl; [done|apply Hs..]. Qed.

(** The mapping does not change when the tree grows. *)
Lemma grown_slot top pg a pg' va : grown top 3 pg a pg' → top (PML4 va) →
  slot (pg_mem pg') a va = slot (pg_mem pg) a va ∨ slot (pg_mem pg) a va = None ∧ slot (pg_mem pg') a va = Some 0.
Proof.
  intros Hg Hva. pose proof (path_ok top va Hva) as Hp. unfold slot.
  destruct (node (pg_mem pg) a (path va)) as [b|] eqn:Hb.
  - left. rewrite (g_old _ _ _ _ _ Hg _ b) by done. by apply (g_leaf _ _ _ _ _ Hg (path va) b _ Hp eq_refl Hb (PTX_range va)).
  - destruct (node (pg_mem pg') a (path va)) as [b|] eqn:Hb'; [right|by left]. split; [done|].
    by apply (g_leaf_new _ _ _ _ _ Hg (path va) b _ Hp eq_refl Hb Hb' (PTX_range va)).
Qed.
Lemma grown_mapping top pg a pg' va : grown top 3 pg a pg' → top (PML4 va) →
  mapping (pg_mem pg') a va = mapping (pg_mem pg) a va.
Proof. intros Hg Hva. unfold mapping. by destruct (grown_slot top pg a pg' va Hg Hva) as [->|[-> ->]]. Qed.

Section one.
Context (top : Z → Prop) (s : mmu) (a va b e : Z).
Hypotheses (Hs : space top s a) (Hva : user_va top va) (Hb : node (bytes s) a (path va) = Some b) (He : 0 <= e < 2 ^ 64).
Let s' := with_entry s b (PTX va) e.

Lemma entry_extends : extends top s a s'.
Proof.
  pose proof (path_ok top va (proj2 Hva)) as Hp. destruct Hs as [Hok Ht Hba]. split.
  - split; [by apply leaf_ram|by apply (leaf_tree top 3 _ a b _ e (path va) Ht Hp eq_refl Hb (PTX_range va))|done].
  - done.
  - done.
  - done.
  - intros x _ Hn. by apply (leaf_conf top 3 (m_ram s) a b _ e (path va) Hp eq_refl Hb (PTX_range va)).
  - intros p c Hpp Hc. left. by rewrite <- (leaf_node top 3 (m_ram s) a b _ e (path va) Ht Hp eq_refl Hb (PTX_range va)).
Qed.
Lemma entry_slot_same : slot (bytes s') a va = Some e.
Proof.
  pose proof (path_ok top va (proj2 Hva)) as Hp. destruct Hs as [Hok Ht Hba]. unfold slot.
  rewrite (leaf_node top 3 (m_ram s) a b _ e (path va) Ht Hp eq_refl Hb (PTX_range va)), Hb by done. by apply leaf_same.
Qed.
Lemma entry_slot_other v : user_va top v → v / PGSIZE ≠ va / PGSIZE → slot (bytes s') a v = slot (bytes s) a v.
Proof.
  intros Hv Hne. pose proof (path_ok top va (proj2 Hva)) as Hp. pose proof (path_ok top v (proj2 Hv)) as Hpv.
  destruct (user_checks top va Hva) as [_ Hr], (user_checks top v Hv) as [_ Hrv].
  destruct Hs as [Hok Ht Hba]. unfold slot.
  rewrite (leaf_node top 3 (m_ram s) a b _ e (path va) Ht Hp eq_refl Hb (PTX_range va)) by done.
  destruct (node (bytes s) a (path v)) as [c|] eqn:Hc; [|done].
  apply (leaf_entry top 3 (m_ram s) a b _ e (path va) Ht Hp eq_refl Hb (PTX_range va) (path v)); [done|done|apply PTX_range|].
  destruct (decide (c = b)) as [->|]; [right|by left]. intros He'. apply Hne, same_indices; [done|done| |done].
  by apply (tr_inj _ _ _ _ Ht _ _ b).
Qed.
End one.

Lemma entry_mapping_same top s a va b e : space top s a → user_va top va → node (bytes s) a (path va) = Some b →
  0 <= e < 2 ^ 64 → mapping (bytes (with_entry s b (PTX va) e)) a va = if present e then Some e else None.
Proof. intros Hs Hva Hb He. unfold mapping. by rewrite (entry_slot_same top s a va b e). Qed.
Lemma entry_mapping_other top s a va b e v : space top s a → user_va top va → node (bytes s) a (path va) = Some b →
  0 <= e < 2 ^ 64 → user_va top v → v / PGSIZE ≠ va / PGSIZE →
  mapping (bytes (with_entry s b (PTX va) e)) a v = mapping (bytes s) a v.
Proof. intros Hs Hva Hb He Hv Hne. unfold mapping. by rewrite (entry_slot_other top s a va b e). Qed.
End ops.
