(* ===== verification/AddressSpace.v ===== *)
(** * Address spaces of processes

    Setting, clearing and looking up the pages of a process, and that one
    process's page table is not another's. *)
From stdpp Require Import base numbers list gmap.
From Stdlib Require Import ZArith Lia.
From S2P Require Import Prelude Bytes CString Bitmap Palloc PallocInit Words Mmu MmuInv MmuWalk MmuSpec.
Open Scope Z_scope.

Section ops.
Implicit Types (s : mmu) (a va upage kpage : Z) (top : Z → Prop).

Lemma extends_trans top s a s1 s2 : space top s a → extends top s a s1 → extends top s1 a s2 → extends top s a s2.
Proof.
  intros Hs E1 E2.
  assert (Hpe : ∀ x, in_pool (kernel_pool (m_ram s1)) x ↔ in_pool (kernel_pool (m_ram s)) x).
  { intros x. destruct (ex_pool _ _ _ _ E1) as (Hb & Hc & _). unfold in_pool, pool_end. by rewrite Hb, Hc. }
  assert (Hfree : ∀ x, in_pool (kernel_pool (m_ram s1)) x ∧ page_used (kernel_pool (m_ram s1)) x = false →
    in_pool (kernel_pool (m_ram s)) x ∧ page_used (kernel_pool (m_ram s)) x = false).
  { intros x [Hin Hu]. rewrite Hpe in Hin. split; [done|]. apply not_true_is_false. intros Ht.
    by rewrite (ex_used _ _ _ _ E1 x Hin Ht) in Hu. }
  split.
  - apply E2.
  - destruct (ex_regs _ _ _ _ E1), (ex_regs _ _ _ _ E2). split; congruence.
  - destruct (ex_pool _ _ _ _ E1) as (? & ? & ?), (ex_pool _ _ _ _ E2) as (? & ? & ?). split_and!; congruence.
  - intros x Hx Hu. apply (ex_used _ _ _ _ E2); [by apply Hpe|by apply (ex_used _ _ _ _ E1)].
  - intros x Hk Hn. rewrite (ex_conf _ _ _ _ E2), (ex_conf _ _ _ _ E1); [done|done|done| |].
    + intros Hx. by apply Hk, Hfree.
    + intros (p & b & Hp & Hb & Hx). destruct (ex_new _ _ _ _ E1 p b Hp Hb) as [Hb0|[Hin Hu]].
      * apply Hn. by exists p, b.
      * apply Hk. pose proof (tr_page _ _ _ _ (sp_tree _ _ _ (ex_space _ _ _ _ E1)) p b Hp Hb) as Ht.
        destruct (kernel_base _ (sp_ram _ _ _ Hs)) as [Hb0 Hbal].
        destruct (table_facts _ b (sp_ram _ _ _ (ex_space _ _ _ _ E1)) Ht) as (Hal & _ & _ & _ & Hxs).
        rewrite (same_page_used _ b x) by done. split; [|done]. apply Hpe. by apply Hxs.
  - intros p b Hp Hb. destruct (ex_new _ _ _ _ E2 p b Hp Hb) as [Hb1|Hb1]; [by apply (ex_new _ _ _ _ E1)|].
    right. by apply Hfree.
Qed.

(** *** Setting a page *)

(** The entry that pml4_set_page makes. *)
Definition page_entry (kpage : Z) (rw : bool) : Z := kpage - KERN_BASE + (if rw then 7 else 5).
(** A page of the kernel's half. *)
Definition kernel_page (kpage : Z) : Prop := kpage mod PGSIZE = 0 ∧ KERN_BASE <= kpage < 2 ^ 64.

Lemma page_entry_ok kpage (rw : bool) : kernel_page kpage →
  Z.lor (Z.lor (Z.lor (u64 (kpage - KERN_BASE)) PTE_P) (if rw then PTE_W else 0)) PTE_U = page_entry kpage rw ∧
  0 <= page_entry kpage rw < 2 ^ 64 ∧ present (page_entry kpage rw) = true ∧ ptov (PTE_ADDR (page_entry kpage rw)) = kpage.
Proof.
  intros [Hal Hk]. assert (Hp : (kpage - KERN_BASE) mod PGSIZE = 0) by (unfold PGSIZE, KERN_BASE in *; zdiv).
  assert (Hr : 0 <= kpage - KERN_BASE < 2 ^ 64) by (unfold KERN_BASE in *; lia).
  rewrite u64_small by done. unfold page_entry. split.
  - rewrite <- !Z.lor_assoc. destruct rw; apply lor_low; done.
  - destruct (made_entry (kpage - KERN_BASE) (if rw then 7 else 5)) as (H1 & H2 & H3); [done|done|by destruct rw|].
    rewrite H2, H3. split; [done|]. split; [by destruct rw|]. by apply ptov_vtop.
Qed.

Definition set_page_result top s a upage kpage (rw ok : bool) (s' : mmu) : Prop :=
  extends top s a s' ∧
  (∀ va, user_va top va → va / PGSIZE ≠ upage / PGSIZE → mapping (bytes s') a va = mapping (bytes s) a va) ∧
  if ok then mapping (bytes s') a upage = Some (page_entry kpage rw)
  else unchanged top 3 (m_ram s) a (m_ram s') ∧ mapping (bytes s') a upage = mapping (bytes s) a upage ∧ few (m_ram s) 3.

Lemma set_page_wp top s a upage kpage rw :
  space top s a → user_va top upage → upage mod PGSIZE = 0 → kernel_page kpage →
  wp (pml4_set_page a upage kpage rw) s (set_page_result top s a upage kpage rw).
Proof.
  intros Hs Hu Hal Hk. destruct (user_checks top upage Hu) as [Huser Hr]. destruct (page_entry_ok kpage rw Hk) as (He & Her & Hpe & _).
  unfold pml4_set_page. wp_pure. wp_step; [by rewrite pg_ofs_mod, Hal|]. wp_pure. wp_step; [rewrite pg_ofs_mod; by destruct Hk as [-> _]|].
  wp_pure. wp_step; [done|]. wp_pure. wp_step; [by rewrite (proj2 (Z.eqb_neq _ _) (sp_base _ _ _ Hs))|]. wp_pure.
  apply wp_on_pages. eapply wp_mono; [apply (pml4e_walk_walks top upage (proj2 Hu)); apply Hs|].
  intros r pg1 Hw. pose proof (proj1 Hw) as Hg. change (length (path upage)) with 3%nat in Hg.
  pose proof (grown_extends top s a pg1 Hs Hg) as He1. set (s1 := Mmu pg1 (base_pml4 s) (cr3 s)) in *.
  destruct (r =? 0) eqn:Hz; simpl.
  - destruct (walked_zero top upage (path upage) _ a r pg1 (sp_ram _ _ _ Hs) Hw (path_ok top upage (proj2 Hu)) Hz) as (-> & Hun & _ & Hf).
    wp_pure. split; [done|]. split; [|split; [done|split; [|done]]].
    + intros va Hva _. by apply (grown_mapping top (m_ram s) a pg1), Hva.
    + by apply (grown_mapping top (m_ram s) a pg1), Hu.
  - destruct Hw as [_ [(b & Hb & ->)|[-> _]]]; [|done]. unfold vtop. wp_pure. wp_step.
    { apply Z.leb_le. apply Hk. }
    wp_pure. rewrite He. apply (store_wp s1).
    { apply (leaf_mapped top 3 pg1 a b _ (path upage)); [apply Hg|apply Hg|by apply path_ok, Hu|done|apply PTX_range]. }
    wp_pure. simpl. pose proof (ex_space _ _ _ _ He1) as Hs1. split; [|split].
    + apply (extends_trans top s a s1); [done|done|]. by apply entry_extends.
    + intros va Hva Hne. rewrite (entry_mapping_other top s1 a upage b) by done. by apply (grown_mapping top (m_ram s) a pg1), Hva.
    + rewrite (entry_mapping_same top s1 a upage b) by done. by rewrite Hpe.
Qed.

(** *** Clearing a page, and the flags of its entry *)

(** The entry of one page, if there is one, has become [f] of it. *)
Record reentered top s a upage (f : Z → Z) (s' : mmu) : Prop := {
  re_ext : extends top s a s';
  re_used : kernel_pool (m_ram s') = kernel_pool (m_ram s);
  re_other : ∀ va, user_va top va → va / PGSIZE ≠ upage / PGSIZE → slot (bytes s') a va = slot (bytes s) a va;
  re_same : slot (bytes s') a upage = f <$> slot (bytes s) a upage;
}.
Lemma reentered_refl top s a upage f : space top s a → f <$> slot (bytes s) a upage = slot (bytes s) a upage →
  reentered top s a upage f s.
Proof. intros Hs Hf. split; [by apply extends_refl|done|done|done]. Qed.
Lemma reentered_store top s a upage (f : Z → Z) b e : space top s a → user_va top upage →
  node (bytes s) a (path upage) = Some b → slot (bytes s) a upage = Some e → 0 <= f e < 2 ^ 64 →
  reentered top s a upage f (with_entry s b (PTX upage) (f e)).
Proof.
  intros Hs Hu Hb Hslot Hf. split.
  - by apply entry_extends.
  - done.
  - intros va Hva Hne. by apply (entry_slot_other top).
  - rewrite Hslot. by apply (entry_slot_same top).
Qed.
Lemma root_kernel top s a : space top s a → is_kernel_vaddr a = true.
Proof.
  intros [Hok Ht _]. destruct (table_facts _ a Hok (root_page _ _ _ _ Ht)) as (_ & Hk & _). by apply Z.leb_le.
Qed.

(** A store to an entry and the flush that follows it. *)
Lemma reenter_wp top s a upage b e e' (Q : unit → mmu → Prop) : space top s a → user_va top upage →
  node (bytes s) a (path upage) = Some b → slot (bytes s) a upage = Some e →
  Q tt (with_entry s b (PTX upage) e') →
  wp (_ ← on_pages (on_mem (store64 (b + 8 * PTX upage) e')); _ ← vtop a; mret tt) s Q.
Proof.
  intros Hs Hu Hb Hslot HQ. wp_pure. apply store_wp.
  { apply (leaf_mapped top 3 _ a b _ (path upage)); [apply Hs|apply Hs|by apply path_ok, Hu|done|apply PTX_range]. }
  unfold vtop. wp_pure. wp_step; [by apply (root_kernel top s)|]. by wp_pure.
Qed.

Definition drop_present (e : Z) : Z := if present e then Z.land e (u64 (Z.lnot PTE_P)) else e.
Lemma land_range e m : 0 <= m < 2 ^ 64 → 0 <= Z.land e m < 2 ^ 64.
Proof.
  intros Hm. assert (H0 : 0 <= Z.land e m) by (apply Z.land_nonneg; lia). split; [done|].
  rewrite <- (Z.mod_small m (2 ^ 64)) by done. rewrite <- Z.land_ones, Z.land_assoc, Z.land_ones by lia. apply Z.mod_pos_bound. lia.
Qed.
Lemma drop_present_clears e : present (drop_present e) = false.
Proof.
  unfold drop_present. destruct (present e) eqn:Hp; [|done]. unfold present. rewrite <- Z.land_assoc.
  change (Z.land (u64 (Z.lnot PTE_P)) PTE_P) with 0. by rewrite Z.land_0_r.
Qed.

Lemma clear_page_wp top s a upage :
  space top s a → user_va top upage → upage mod PGSIZE = 0 →
  wp (pml4_clear_page a upage) s (λ _ s', reentered top s a upage drop_present s').
Proof.
  intros Hs Hu Hal. destruct (user_checks top upage Hu) as [Huser Hr].
  unfold pml4_clear_page. wp_pure. wp_step; [by rewrite pg_ofs_mod, Hal|]. wp_pure. wp_step; [done|]. wp_pure.
  apply (find_wp s top); [done|apply Hu|]. pose proof (slot_at s top a upage Hs (proj2 Hu)) as Hslot.
  destruct (slot (bytes s) a upage) as [e|] eqn:He.
  - destruct Hslot as (b & Hb & Hent & -> & Hnz). rewrite Hnz. wp_pure. apply (load_wp _ _ _ e); [done|].
    destruct (present e) eqn:Hp.
    + apply (reenter_wp top s a upage b e); [done..|].
      assert (Z.land e (u64 (Z.lnot PTE_P)) = drop_present e) as Hd by (unfold drop_present; by rewrite Hp).
      rewrite Hd. apply reentered_store; [done..|]. rewrite <- Hd. by apply land_range.
    + wp_pure. apply reentered_refl; [done|]. rewrite He. simpl. unfold drop_present. by rewrite Hp.
  - destruct Hslot as [_ ->]. wp_pure. apply reentered_refl; [done|]. by rewrite He.
Qed.

Definition put_flag (flag : Z) (v : bool) (e : Z) : Z := if v then Z.lor e flag else Z.land e (u32 (Z.lnot flag)).
Lemma put_flag_range flag v e : 0 <= e < 2 ^ 64 → 0 <= flag < 2 ^ 64 → 0 <= put_flag flag v e < 2 ^ 64.
Proof.
  intros He Hf. destruct v; simpl.
  - assert (H0 : 0 <= Z.lor e flag) by (apply Z.lor_nonneg; lia). split; [done|]. apply (Z.log2_lt_cancel).
    change (Z.log2 (2 ^ 64)) with 64. rewrite Z.log2_lor by lia.
    assert (Hlog : ∀ x, 0 <= x < 2 ^ 64 → Z.log2 x < 64).
    { intros x Hx. destruct (decide (x = 0)) as [->|]; [done|]. apply Z.log2_lt_pow2; lia. }
    apply Z.max_lub_lt; by apply Hlog.
  - apply land_range. pose proof (u32_range (Z.lnot flag)). lia.
Qed.
(** The common part of setting a flag. *)
Lemma set_flag_store top s a va flag v (Q : unit → mmu → Prop) : space top s a → user_va top va →
  (slot (bytes s) a va = None → Q tt s) →
  (∀ b e, node (bytes s) a (path va) = Some b → slot (bytes s) a va = Some e → Q tt (with_entry s b (PTX va) (put_flag flag v e))) →
  wp (pml4_set_flag flag a va v) s Q.
Proof.
  intros Hs Hu Hn HQ. unfold pml4_set_flag. wp_pure.
  apply (find_wp s top); [done|apply Hu|]. pose proof (slot_at s top a va Hs (proj2 Hu)) as Hslot.
  destruct (slot (bytes s) a va) as [e|] eqn:He.
  - destruct Hslot as (b & Hb & Hent & -> & Hnz). rewrite Hnz. wp_pure. apply (load_wp _ _ _ e); [done|].
    change (if v then Z.lor e flag else Z.land e (u32 (Z.lnot flag))) with (put_flag flag v e).
    apply (reenter_wp top s a va b e); [done..|by apply HQ].
  - destruct Hslot as [_ ->]. wp_pure. by apply Hn.
Qed.
Lemma set_flag_extends top s a va flag v : space top s a → user_va top va →
  wp (pml4_set_flag flag a va v) s (λ _ s', extends top s a s').
Proof.
  intros Hs Hu. apply (set_flag_store top); [done|done| |].
  - intros _. by apply extends_refl.
  - intros b e Hb _. by apply entry_extends.
Qed.
Lemma set_flag_wp top s a va flag v :
  space top s a → user_va top va → 0 <= flag < 2 ^ 64 → (∀ e, slot (bytes s) a va = Some e → 0 <= e < 2 ^ 64) →
  wp (pml4_set_flag flag a va v) s (λ _ s', reentered top s a va (put_flag flag v) s').
Proof.
  intros Hs Hu Hf Hrng. apply (set_flag_store top); [done|done| |].
  - intros He. apply reentered_refl; [done|]. by rewrite He.
  - intros b e Hb He. apply reentered_store; [done..|]. apply put_flag_range; [by apply Hrng|done].
Qed.
Lemma flag_wp top s a va flag : space top s a → user_va top va →
  wp (pml4_flag flag a va) s (λ r s', s' = s ∧
    r = match slot (bytes s) a va with Some e => negb (Z.land e flag =? 0) | None => false end).
Proof.
  intros Hs Hu. unfold pml4_flag. wp_pure.
  apply (find_wp s top); [done|apply Hu|]. pose proof (slot_at s top a va Hs (proj2 Hu)) as Hslot.
  destruct (slot (bytes s) a va) as [e|] eqn:He.
  - destruct Hslot as (b & Hb & Hent & -> & Hnz). rewrite Hnz. wp_pure. apply (load_wp _ _ _ e); [done|]. by wp_pure.
  - destruct Hslot as [_ ->]. by wp_pure.
Qed.
End ops.
