(* ===== verification/Isolation.v ===== *)
(** * Address spaces do not interfere

    The page tables of processes as a set: a new one comes from pml4_create, the
    operations on one leave the mappings of the others alone. *)
From stdpp Require Import base numbers list gmap.
From Stdlib Require Import ZArith Lia.
From S2P Require Import Prelude Bytes CString Bitmap Palloc PallocInit Words Mmu MmuInv MmuWalk MmuSpec AddressSpace.
Open Scope Z_scope.

(** The first entry of the root is the process's own; the others are the kernel's. *)
Definition own (i : Z) : Prop := i = 0.

(** The trees of two page tables have no page in common. *)
Definition apart (m : mem) (a1 a2 : Z) : Prop :=
  ∀ p q b, okp own 3 p → okp own 3 q → node m a1 p = Some b → node m a2 q = Some b → False.

(** The page tables of the processes and of the kernel. *)
Record processes (s : mmu) (l : list Z) : Prop := {
  pr_ram : ram_ok (m_ram s);
  pr_base : table_page (m_ram s) (base_pml4 s);
  pr_bytes : ∀ x, base_pml4 s <= x < base_pml4 s + PGSIZE → ∃ v, bytes s !! x = Some v ∧ is_byte v;
  pr_own : next (bytes s) (base_pml4 s) 0 = None;
  pr_space : ∀ a, a ∈ l → space own s a;
  pr_apart : ∀ a1 a2, a1 ∈ l → a2 ∈ l → a1 ≠ a2 → apart (bytes s) a1 a2;
  pr_kernel : ∀ a p, a ∈ l → okp own 3 p → node (bytes s) a p ≠ Some (base_pml4 s);
}.

(** ** What is kept when something else changes *)

(** Pages in use stay in use, and the bytes at [P] stay the same. *)
Record keeps (P : Z → Prop) (s s' : mmu) : Prop := {
  ke_ram : ram_ok (m_ram s');
  ke_base : base_pml4 s' = base_pml4 s;
  ke_pool : base (kernel_pool (m_ram s')) = base (kernel_pool (m_ram s)) ∧
    bit_cnt (used_map (kernel_pool (m_ram s'))) = bit_cnt (used_map (kernel_pool (m_ram s)));
  ke_used : ∀ x, in_pool (kernel_pool (m_ram s)) x → page_used (kernel_pool (m_ram s)) x = true →
    page_used (kernel_pool (m_ram s')) x = true;
  ke_bytes : ∀ x, P x → bytes s' !! x = bytes s !! x;
}.

Section keeps.
Implicit Types (s : mmu) (a b va : Z) (p q : list Z).

Lemma keeps_table P s s' b : keeps P s s' → table_page (m_ram s) b → table_page (m_ram s') b.
Proof.
  intros Hk (H1 & H2 & H3 & H4). destruct (ke_pool _ _ _ Hk) as [Hb Hc].
  unfold table_page, run_of, pool_end in *. rewrite Hb, Hc. split; [done|]. split; [done|]. split; [done|].
  intros x Hx. apply (ke_used _ _ _ Hk); [|by apply H4]. unfold in_pool, pool_end. lia.
Qed.

Section one.
Context (top : Z → Prop) (s s' : mmu) (a : Z).
Hypotheses (Hs : space top s a) (Hk : keeps (in_tree top 3 (m_ram s) a) s s').

Lemma keeps_entry p b i : okp top 3 p → node (bytes s) a p = Some b → idx i → entry (bytes s') b i = entry (bytes s) b i.
Proof. intros Hp Hb Hi. apply entry_page; [done|]. intros x Hx. apply (ke_bytes (in_tree top 3 (m_ram s) a) s s' Hk). by exists p, b. Qed.
Lemma keeps_node p : okp top 3 p → node (bytes s') a p = node (bytes s) a p.
Proof.
  intros Hp. apply node_agree. intros p1 i p2 b -> Hb. apply next_agree, (keeps_entry p1); [by apply okp_app_l in Hp|done|].
  destruct Hp as (_ & Hf & _). apply Forall_app in Hf as [_ Hf]. by apply Forall_cons in Hf as [? _].
Qed.
Lemma keeps_space : space top s' a.
Proof.
  split; [apply Hk| |rewrite (ke_base _ _ _ Hk); apply Hs]. split.
  - intros p b Hp. rewrite keeps_node by done. intros Hb. apply (keeps_table _ s s' b Hk). by apply (tr_page _ _ _ _ (sp_tree _ _ _ Hs) p).
  - intros p q b Hp Hq. rewrite !keeps_node by done. by apply (tr_inj _ _ _ _ (sp_tree _ _ _ Hs)).
Qed.
Lemma keeps_slot va : top (PML4 va) → slot (bytes s') a va = slot (bytes s) a va.
Proof.
  intros Hva. unfold slot. rewrite keeps_node by (by apply path_ok). destruct (node (bytes s) a (path va)) as [b|] eqn:Hb; [|done].
  apply (keeps_entry (path va)); [by apply path_ok|done|apply PTX_range].
Qed.
End one.

Lemma keeps_mono (P P' : Z → Prop) s s' : (∀ x, P x → P' x) → keeps P' s s' → keeps P s s'.
Proof. intros HP [H1 H2 H3 H4 H5]. split; auto. Qed.

(** An operation on one page table keeps the pages of another. *)
Lemma extends_keeps s a s' : ram_ok (m_ram s) → extends own s a s' →
  keeps (λ x, kept (m_ram s) x ∧ ¬ in_tree own 3 (m_ram s) a x) s s'.
Proof.
  intros Hok He. split; [apply He|apply He|split; apply He|apply He|]. intros x [Hk Hn]. by apply (ex_conf _ _ _ _ He).
Qed.
(** A page in use is kept, unless it is in the tree. *)
Lemma table_kept pg b x : ram_ok pg → table_page pg b → b <= x < b + PGSIZE → kept pg x.
Proof.
  intros Hok Hb Hx [_ Hf]. destruct (table_facts pg b Hok Hb) as (_ & _ & _ & _ & Hxs).
  destruct (Hxs x Hx) as (_ & Hu & _). congruence.
Qed.
Lemma outside_tree s a b x : space own s a → table_page (m_ram s) b → b <= x < b + PGSIZE →
  (∀ p, okp own 3 p → node (bytes s) a p ≠ Some b) → ¬ in_tree own 3 (m_ram s) a x.
Proof.
  intros Hs Hb Hx Hn (p & c & Hp & Hc & Hxc). assert (c ≠ b) as Hne by (intros ->; by apply (Hn p)).
  pose proof (tr_page _ _ _ _ (sp_tree _ _ _ Hs) p c Hp Hc) as Htc.
  destruct (pages_apart c b) as [|]; [apply Htc|apply Hb|done|..]; lia.
Qed.
Lemma apart_sym m a1 a2 : apart m a1 a2 → apart m a2 a1.
Proof. intros H p q b Hp Hq Hpb Hqb. by apply (H q p b). Qed.

Lemma processes_extends s l a s' : processes s l → a ∈ l → extends own s a s' →
  processes s' l ∧ ∀ a2 va, a2 ∈ l → a2 ≠ a → PML4 va = 0 → slot (bytes s') a2 va = slot (bytes s) a2 va.
Proof.
  intros Hp Ha He. pose proof (pr_space _ _ Hp a Ha) as Hs. pose proof (extends_keeps s a s' (pr_ram _ _ Hp) He) as Hk.
  assert (Hbase : ∀ x, base_pml4 s <= x < base_pml4 s + PGSIZE → bytes s' !! x = bytes s !! x).
  { intros x Hx. apply (ke_bytes _ _ _ Hk). split; [by apply (table_kept _ (base_pml4 s)); [apply Hp|apply Hp|]|].
    apply (outside_tree s a (base_pml4 s)); [done|apply Hp|done|]. intros p Hpp. by apply (pr_kernel _ _ Hp). }
  assert (Hother : ∀ a2, a2 ∈ l → a2 ≠ a → keeps (in_tree own 3 (m_ram s) a2) s s').
  { intros a2 Ha2 Hne. refine (keeps_mono _ _ _ _ _ Hk). intros x (q & b & Hq & Hb & Hx).
    pose proof (tr_page _ _ _ _ (sp_tree _ _ _ (pr_space _ _ Hp a2 Ha2)) q b Hq Hb) as Htb.
    split; [by apply (table_kept _ b); [apply Hp|..]|]. apply (outside_tree s a b); [done|done|done|].
    intros p Hpp Hpb. by apply (pr_apart _ _ Hp a a2 Ha Ha2 ltac:(done) p q b). }
  assert (Hnode : ∀ a2 p, a2 ∈ l → a2 ≠ a → okp own 3 p → node (bytes s') a2 p = node (bytes s) a2 p).
  { intros a2 p Ha2 Hne. by apply (keeps_node own s s' a2), Hother. }
  assert (Hnew : ∀ p b, okp own 3 p → node (bytes s') a p = Some b → table_page (m_ram s) b → node (bytes s) a p = Some b).
  { intros p b Hpp Hb Htb. destruct (ex_new _ _ _ _ He p b Hpp Hb) as [|Hf]; [done|].
    exfalso. apply (table_kept _ b b (pr_ram _ _ Hp) Htb); [unfold PGSIZE; lia|done]. }
  pose proof (ke_base _ _ _ Hk) as Hbs. split.
  - split.
    + apply He.
    + rewrite Hbs. apply (keeps_table _ s s' _ Hk), Hp.
    + rewrite Hbs. intros x Hx. rewrite Hbase by done. by apply Hp.
    + rewrite Hbs, <- (pr_own _ _ Hp). apply next_agree, entry_page; [done|exact Hbase].
    + intros a2 Ha2. destruct (decide (a2 = a)) as [->|Hne]; [apply He|]. by apply (keeps_space own s s' a2), Hother; [apply Hp|..].
    + assert (Hmix : ∀ a2, a2 ∈ l → a2 ≠ a → apart (bytes s') a a2).
      { intros a2 Ha2 Hne p q b Hpp Hq Hpb Hqb. rewrite Hnode in Hqb by done.
        apply (pr_apart _ _ Hp a a2 Ha Ha2 ltac:(done) p q b); try done. apply Hnew; [done..|].
        by apply (tr_page _ _ _ _ (sp_tree _ _ _ (pr_space _ _ Hp a2 Ha2)) q b). }
      intros a1 a2 Ha1 Ha2 Hne. destruct (decide (a1 = a)) as [->|]; [by apply Hmix|].
      destruct (decide (a2 = a)) as [->|]; [by apply apart_sym, Hmix|].
      intros p q b Hpp Hq. rewrite !Hnode by done. by apply (pr_apart _ _ Hp).
    + intros a2 p Ha2 Hpp. rewrite Hbs. destruct (decide (a2 = a)) as [->|Hne].
      * intros Hb. apply (pr_kernel _ _ Hp a p Ha Hpp), Hnew; [done..|]. apply Hp.
      * rewrite Hnode by done. by apply (pr_kernel _ _ Hp).
  - intros a2 va Ha2 Hne Hva. apply (keeps_slot own s s' a2); [by apply Hother|done].
Qed.

(** ** A new process *)

(** A free page [c] has become a copy of the kernel's root. *)
Record copied (s : mmu) (c : Z) (s' : mmu) : Prop := {
  co_free : run_of (kernel_pool (m_ram s)) c 1 false;
  co_ram : ram_ok (m_ram s');
  co_base : base_pml4 s' = base_pml4 s;
  co_used : reused false (m_ram s) (m_ram s') c 1 true;
  co_copy : ∀ x, 0 <= x < PGSIZE → bytes s' !! (c + x) = bytes s !! (base_pml4 s + x);
  co_other : ∀ x, ¬ (c <= x < c + PGSIZE) → bytes s' !! x = bytes s !! x;
}.

Lemma create_copies s l : processes s l →
  wp pml4_create s (λ r s',
    r = 0 ∧ s' = s ∧ (∀ c, ¬ run_of (kernel_pool (m_ram s)) c 1 false) ∨ r ≠ 0 ∧ copied s r s').
Proof.
  intros Hp. pose proof (pr_ram _ _ Hp) as Hok. unfold pml4_create, palloc_get_page. wp_pure. apply wp_on_pages.
  destruct (palloc_get_cases (m_ram s) 0 1 (proj1 Hok) ltac:(done)) as [(c & pg1 & Hrun & Hg)|[Hno Hrun]].
  2: { eapply wp_eq; [exact Hrun|]. simpl. wp_pure. left. by rewrite same_pages. }
  eapply wp_eq; [exact Hrun|]. destruct Hg as (Hc0 & Hwf1 & Hfree & _ & Hre & Hmem).
  change (run_of (kernel_pool (m_ram s)) c 1 false) in Hfree. change (reused false (m_ram s) pg1 c 1 true) in Hre.
  change (pg_mem pg1 = pg_mem (m_ram s)) in Hmem. wp_pure. rewrite (proj2 (Z.eqb_neq c 0)) by done. simpl. wp_pure.
  destruct (table_facts _ _ Hok (pr_base _ _ Hp)) as (Hbal & Hbk & Hbe & _ & Hbx).
  assert (Hlist : ∃ l, zlength l = PGSIZE ∧ Forall is_byte l ∧ bytes_at (bytes s) (base_pml4 s) l).
  { apply bytes_list; [done|]. apply Hp. }
  destruct Hlist as (bs & Hlen & Hby & Hat).
  assert (Hne : c ≠ base_pml4 s).
  { intros ->. destruct Hfree as (_ & _ & _ & Hf), (Hbx (base_pml4 s)) as (_ & Hu & _); [unfold PGSIZE; lia|].
    rewrite Hf in Hu; [done|unfold PGSIZE; lia]. }
  assert (Hcal : c mod PGSIZE = 0) by apply Hfree.
  pose proof (pages_apart c _ Hcal Hbal Hne) as Hap. pose proof (ram_ok_reused _ _ _ _ _ Hwf1 Hre Hok) as Hok1.
  apply wp_on_pages. unfold on_mem. wp_pure. rewrite <- Hlen at 1. eapply wp_mono.
  { apply memcpy_wp; [done|done|unfold KERN_BASE in *; lia| | |]; simpl; rewrite ?Hmem; [done| |unfold PGSIZE in *; lia].
    intros x Hx. destruct (run_set _ _ _ _ _ _ Hre Hfree) as (_ & H1 & H2 & _). rewrite <- Hmem.
    apply (wp_mapped _ _ (wp_kernel _ Hwf1)). unfold PGSIZE in *. lia. }
  intros r m' [_ Ho]. wp_pure. right. split; [done|]. simpl in Ho.
  assert (Hx : ∀ x, m' !! x = if decide (c <= x < c + PGSIZE) then zlookup bs (x - c) else bytes s !! x).
  { intros x. rewrite <- Hlen, <- Hmem. apply Ho. }
  clear Ho. rename Hx into Ho. split; try done.
  - simpl. apply (ram_ok_bytes pg1); [|done]. intros x Hx. rewrite Ho. rewrite Hmem in Hx.
    destruct (decide _); [|done]. apply zlookup_is_Some. lia.
  - intros x Hx. simpl. rewrite Ho, decide_True by lia. rewrite Hat by lia. f_equal. lia.
  - intros x Hx. simpl. by rewrite Ho, decide_False.
Qed.

(** The copy is the root of an address space of its own. *)
Section copied.
Context (s : mmu) (l : list Z) (c : Z) (s' : mmu).
Hypotheses (Hp : processes s l) (Hco : copied s c s').

Lemma copy_keeps : keeps (λ x, ¬ (c <= x < c + PGSIZE)) s s'.
Proof.
  destruct (co_used _ _ _ Hco) as (Hb & Hc & _ & Hu). simpl in *. split; [apply Hco|apply Hco|done| |apply Hco].
  intros x Hx Hxu. rewrite Hu by done. by destruct (decide _).
Qed.
Lemma copy_away b x : table_page (m_ram s) b → b <= x < b + PGSIZE → ¬ (c <= x < c + PGSIZE).
Proof.
  intros Hb Hx Hxc. destruct (co_free _ _ _ Hco) as (_ & _ & _ & Hf).
  destruct (table_facts _ b (pr_ram _ _ Hp) Hb) as (_ & _ & _ & _ & Hxs). destruct (Hxs x Hx) as (_ & Hu & _).
  rewrite Hf in Hu; [done|lia].
Qed.
Lemma copy_table : table_page (m_ram s') c.
Proof. apply (run_set (m_ram s) _ c 1 true false); apply Hco. Qed.
Lemma copy_entry i : idx i → entry (bytes s') c i = entry (bytes s) (base_pml4 s) i.
Proof.
  intros Hi. apply word64_copy. intros k Hk. rewrite <- !Z.add_assoc. apply (co_copy _ _ _ Hco). unfold idx, PGSIZE in *. lia.
Qed.
(** The new tree is its root. *)
Lemma copy_node p b : okp own 3 p → node (bytes s') c p = Some b → p = [] ∧ b = c.
Proof.
  intros Hpp. destruct p as [|i p]; [intros [= <-]; done|]. apply okp_cons in Hpp as (Hi & Hown & _).
  unfold own in Hown. subst i. assert (Hn : next (bytes s') c 0 = None).
  { rewrite <- (pr_own _ _ Hp). unfold next. by rewrite copy_entry. }
  cbn [node]. by rewrite Hn.
Qed.
Lemma copy_space : space own s' c.
Proof.
  split; [apply Hco| |].
  - split; [intros p b Hpp [_ Hbc]%copy_node; [|done]; rewrite Hbc; apply copy_table|].
    intros p q b Hpp Hq Hpb Hqb. by apply copy_node in Hpb as [-> _], Hqb as [-> _].
  - rewrite (co_base _ _ _ Hco). intros Hcb. apply (copy_away (base_pml4 s) c); [apply Hp|unfold PGSIZE; lia..].
Qed.
Lemma copy_tree a : a ∈ l → keeps (in_tree own 3 (m_ram s) a) s s'.
Proof.
  intros Ha. refine (keeps_mono _ _ _ _ _ copy_keeps). intros x (p & b & Hpp & Hb & Hx).
  apply (copy_away b); [|done]. by apply (tr_page _ _ _ _ (sp_tree _ _ _ (pr_space _ _ Hp a Ha)) p).
Qed.
Lemma copy_old a p : a ∈ l → okp own 3 p → node (bytes s') a p = node (bytes s) a p.
Proof. intros Ha. apply (keeps_node own s s' a), copy_tree, Ha. Qed.
Lemma copy_apart a : a ∈ l → apart (bytes s') c a.
Proof.
  intros Ha p q b Hpp Hq [_ Hbc]%copy_node Hqb; [|done]. rewrite copy_old in Hqb by done. rewrite Hbc in Hqb.
  apply (copy_away c c); [|unfold PGSIZE; lia..]. by apply (tr_page _ _ _ _ (sp_tree _ _ _ (pr_space _ _ Hp a Ha)) q).
Qed.
Lemma copy_fresh : c ∉ l.
Proof. intros Hc. by apply (copy_apart c Hc [] [] c); [apply okp_nil|apply okp_nil|..]. Qed.

Lemma copy_processes : processes s' (c :: l).
Proof.
  pose proof (co_base _ _ _ Hco) as Hbs.
  assert (Hbase : ∀ x, base_pml4 s <= x < base_pml4 s + PGSIZE → bytes s' !! x = bytes s !! x).
  { intros x Hx. apply (co_other _ _ _ Hco), (copy_away (base_pml4 s)); [apply Hp|done]. }
  split.
  - apply Hco.
  - rewrite Hbs. apply (keeps_table _ s s' _ copy_keeps), Hp.
  - rewrite Hbs. intros x Hx. rewrite Hbase by done. by apply Hp.
  - rewrite Hbs, <- (pr_own _ _ Hp). apply next_agree, entry_page; [done|exact Hbase].
  - intros a [->|Ha]%elem_of_cons; [apply copy_space|]. by apply (keeps_space own s s' a), copy_tree; [apply Hp|].
  - intros a1 a2 [->|H1]%elem_of_cons [->|H2]%elem_of_cons Hne; [done|by apply copy_apart|by apply apart_sym, copy_apart|].
    intros p q b Hpp Hq. rewrite !copy_old by done. by apply (pr_apart _ _ Hp).
  - intros a p [->|Ha]%elem_of_cons Hpp; rewrite Hbs.
    + intros [_ He]%copy_node; [|done]. apply (sp_base _ _ _ copy_space). by rewrite Hbs.
    + rewrite copy_old by done. by apply (pr_kernel _ _ Hp).
Qed.
Lemma copy_slot va : PML4 va = 0 → slot (bytes s') c va = None.
Proof.
  intros Hva. unfold slot. destruct (node (bytes s') c (path va)) as [b|] eqn:Hb; [|done].
  by apply copy_node in Hb as [? _]; [|apply path_ok].
Qed.
Lemma copy_slot_old a va : a ∈ l → PML4 va = 0 → slot (bytes s') a va = slot (bytes s) a va.
Proof. intros Ha. apply (keeps_slot own s s' a), copy_tree, Ha. Qed.
End copied.
End keeps.
