(* ===== verification/PageTables.v ===== *)
(** * Page tables: the properties

    What a process sees of pml4_create, pml4_set_page, pml4_get_page,
    pml4_clear_page and the flags of entries, alone and among other processes. *)
From stdpp Require Import base numbers list gmap.
From Stdlib Require Import ZArith Lia.
From S2P Require Import Prelude Bytes CString Bitmap Palloc PallocInit MallocSpec Words Mmu MmuInv MmuWalk MmuSpec AddressSpace Isolation.
Open Scope Z_scope.

(** ** Operations on a page table *)

Inductive page_op :=
  | SetPage (upage kpage : Z) (rw : bool) | ClearPage (upage : Z)
  | SetDirty (va : Z) (v : bool) | SetAccessed (va : Z) (v : bool).
Definition run_op (a : Z) (o : page_op) : ST mmu unit :=
  match o with
  | SetPage upage kpage rw => _ ← pml4_set_page a upage kpage rw; mret tt
  | ClearPage upage => pml4_clear_page a upage
  | SetDirty va v => pml4_set_dirty a va v
  | SetAccessed va v => pml4_set_accessed a va v
  end.
Definition legal (o : page_op) : Prop :=
  match o with
  | SetPage upage kpage _ => user_va own upage ∧ upage mod PGSIZE = 0 ∧ kernel_page kpage
  | ClearPage upage => user_va own upage ∧ upage mod PGSIZE = 0
  | SetDirty va _ | SetAccessed va _ => user_va own va
  end.

(** A page table is made, or one of them is changed. *)
Inductive mm_step : mmu * list Z → option Z → mmu * list Z → Prop :=
  | mm_create s l r s' : pml4_create s = Done (r, s') → mm_step (s, l) None (s', if r =? 0 then l else r :: l)
  | mm_op s l a o s' : a ∈ l → legal o → run_op a o s = Done (tt, s') → mm_step (s, l) (Some a) (s', l).
(** Steps none of which is an operation on the page table [a]. *)
Inductive mm_steps (a : Z) : mmu * list Z → mmu * list Z → Prop :=
  | mm_refl x : mm_steps a x x
  | mm_next x y z w : mm_step x w y → w ≠ Some a → mm_steps a y z → mm_steps a x z.

Section steps.
Implicit Types (s : mmu) (a va : Z) (l : list Z) (o : page_op).

Lemma legal_wp s a o : space own s a → legal o → wp (run_op a o) s (λ _ s', extends own s a s').
Proof.
  intros Hs. destruct o as [u k rw|u|va v|va v]; simpl.
  - intros (Hu & Hal & Hk). wp_pure. eapply wp_mono; [by apply (set_page_wp own)|]. intros b s' [He _]. by wp_pure.
  - intros (Hu & Hal). eapply wp_mono; [by apply (clear_page_wp own)|]. intros [] s' [He _ _ _]. done.
  - intros Hu. by apply (set_flag_extends own).
  - intros Hu. by apply (set_flag_extends own).
Qed.

Lemma mm_step_keeps s l w s' l' : processes s l → mm_step (s, l) w (s', l') →
  processes s' l' ∧ l ⊆ l' ∧ ∀ a va, a ∈ l → w ≠ Some a → PML4 va = 0 → slot (bytes s') a va = slot (bytes s) a va.
Proof.
  intros Hp Hst. inversion Hst as [? ? r ? Hr|? ? a o ? Ha Ho Hr]; subst.
  - pose proof (create_copies s l Hp) as Hwp. unfold wp in Hwp. rewrite Hr in Hwp. destruct Hwp as [(-> & -> & _)|[Hr0 Hco]].
    + done.
    + rewrite (proj2 (Z.eqb_neq r 0)) by done. split; [by apply (copy_processes s l)|].
      split; [set_solver|]. intros a va Ha _. by apply (copy_slot_old s l r).
  - pose proof (legal_wp s a o (pr_space _ _ Hp a Ha) Ho) as Hwp. unfold wp in Hwp. rewrite Hr in Hwp.
    destruct (processes_extends s l' a s' Hp Ha Hwp) as [Hp' Hslot]. split; [done|]. split; [done|].
    intros a2 va Ha2 Hne. apply Hslot; [done|congruence].
Qed.
Lemma mm_steps_keep a x y : mm_steps a x y → processes (fst x) (snd x) → a ∈ snd x →
  processes (fst y) (snd y) ∧ a ∈ snd y ∧ ∀ va, PML4 va = 0 → slot (bytes (fst y)) a va = slot (bytes (fst x)) a va.
Proof.
  induction 1 as [x|[s l] [s1 l1] z w Hst Hw _ IH]; intros Hp Ha; [done|].
  destruct (mm_step_keeps s l w s1 l1 Hp Hst) as (Hp1 & Hl & Hslot).
  destruct IH as (H1 & H2 & H3); [done|by apply Hl|]. split; [done|]. split; [done|].
  intros va Hva. rewrite H3 by done. by apply Hslot.
Qed.

(** All addresses of a page have the same entry. *)
Lemma same_path va va' : va / PGSIZE = va' / PGSIZE → path va = path va' ∧ PTX va = PTX va'.
Proof.
  intros Hd. unfold path, PML4, PDPE, PDX, PTX. rewrite !index_div by (unfold PML4SHIFT, PDPESHIFT, PDXSHIFT, PTXSHIFT; lia).
  assert (Hs : ∀ n, 0 <= n → va / 2 ^ (12 + n) = va' / 2 ^ (12 + n)).
  { intros n Hn. rewrite Z.pow_add_r, <- !Z.div_div by lia. change (2 ^ 12) with PGSIZE. by rewrite Hd. }
  change PML4SHIFT with (12 + 27). change PDPESHIFT with (12 + 18). change PDXSHIFT with (12 + 9). change PTXSHIFT with (12 + 0).
  rewrite !Hs by lia. done.
Qed.
Lemma same_mapping m a va va' : va / PGSIZE = va' / PGSIZE → mapping m a va = mapping m a va'.
Proof. intros Hd. destruct (same_path va va' Hd) as [Hp Hx]. unfold mapping, slot. by rewrite Hp, Hx. Qed.
Lemma same_user top va va' : va / PGSIZE = va' / PGSIZE → user_va top va → user_va top va'.
Proof.
  intros Hd [Hr Ht]. destruct (same_path va va' Hd) as [Hp _]. split; [unfold PGSIZE, KERN_BASE in *; zdiv|].
  injection Hp as <- _ _. done.
Qed.
Lemma page_offset u ofs : u mod PGSIZE = 0 → 0 <= ofs < PGSIZE → u / PGSIZE = (u + ofs) / PGSIZE ∧ pg_ofs (u + ofs) = ofs.
Proof. intros Hu Ho. rewrite pg_ofs_mod. unfold PGSIZE in *. split; zdiv. Qed.
Lemma get_page_run top s a va : space top s a → user_va top va →
  pml4_get_page a va s = Done (default 0 (translate (bytes s) a va), s).
Proof. intros Hs Hva. apply wp_run_eq. eapply wp_mono; [by apply (get_page_wp top)|]. naive_solver. Qed.
End steps.

(** ** Properties *)

(** C24: pml4_set_page enters the page, or, when it answers false, leaves the tables
    and the pool as they were, which happens only if less than three pages are
    free; in both cases no other page of the process is mapped differently. *)
Theorem pml4_set_page_spec top s a upage kpage rw :
  space top s a → user_va top upage → upage mod PGSIZE = 0 → kernel_page kpage →
  ∃ ok s', pml4_set_page a upage kpage rw s = Done (ok, s') ∧ set_page_result top s a upage kpage rw ok s'.
Proof. intros Hs Hu Hal Hk. apply wp_run. by apply set_page_wp. Qed.

(** C25: After pml4_set_page, pml4_get_page answers for every byte of the page its
    address for the kernel; after pml4_clear_page it answers a null pointer; and
    the answers for all other pages are what they were before both. *)
Theorem page_table_roundtrip top s a upage kpage rw s1 ofs :
  space top s a → user_va top upage → upage mod PGSIZE = 0 → kernel_page kpage → 0 <= ofs < PGSIZE →
  pml4_set_page a upage kpage rw s = Done (true, s1) →
  pml4_get_page a (upage + ofs) s1 = Done (kpage + ofs, s1) ∧
  ∃ s2, pml4_clear_page a upage s1 = Done (tt, s2) ∧ pml4_get_page a (upage + ofs) s2 = Done (0, s2) ∧
    ∀ va, user_va top va → va / PGSIZE ≠ upage / PGSIZE → ∃ r,
      pml4_get_page a va s = Done (r, s) ∧ pml4_get_page a va s1 = Done (r, s1) ∧ pml4_get_page a va s2 = Done (r, s2).
Proof.
  intros Hs Hu Hal Hk Ho Hset. destruct (page_offset upage ofs Hal Ho) as [Hpg Hofs].
  pose proof (set_page_wp top s a upage kpage rw Hs Hu Hal Hk) as Hwp. unfold wp in Hwp. rewrite Hset in Hwp.
  destruct Hwp as (He & Hother & Hmap). pose proof (ex_space _ _ _ _ He) as Hs1.
  assert (Hu' : user_va top (upage + ofs)) by (by apply (same_user top upage)).
  destruct (page_entry_ok kpage rw Hk) as (_ & _ & Hpres & Hptov). split.
  { rewrite (get_page_run top) by done. unfold translate. rewrite <- (same_mapping _ _ upage) by done. rewrite Hmap. simpl.
    by rewrite Hptov, Hofs. }
  destruct (wp_run_unit _ _ _ (clear_page_wp top s1 a upage Hs1 Hu Hal)) as (s2 & Hclear & [He2 _ Hother2 Hsame]).
  pose proof (ex_space _ _ _ _ He2) as Hs2. exists s2. split; [done|]. split.
  - rewrite (get_page_run top) by done. unfold translate. rewrite <- (same_mapping _ _ upage) by done.
    unfold mapping. rewrite Hsame. destruct (slot (bytes s1) a upage) as [e|]; [|done]. simpl. by rewrite drop_present_clears.
  - intros va Hva Hne. rewrite !(get_page_run top) by done. unfold translate.
    assert (mapping (bytes s2) a va = mapping (bytes s1) a va) as -> by (unfold mapping; by rewrite Hother2).
    rewrite Hother by done. eauto.
Qed.

(** C4: In every run of pml4_create, pml4_set_page, pml4_clear_page and the
    operations on flags, with user addresses below 2^39 and page-aligned pages: the
    mapping of a page table [a] below 2^39 stays the same unless the call is about
    [a], the tables of any two processes stay apart, and none of these calls panics.
    (Addresses below 2^39 are those under the first entry of the root, the one that
    pml4_create leaves to the process. From 2^39 up to KERN_BASE, which is_user_vaddr
    accepts as well, the tables are the kernel's and shared.) *)
Theorem address_spaces_isolated s l s' l' a :
  processes s l → a ∈ l → mm_steps a (s, l) (s', l') →
  processes s' l' ∧ (∀ va, PML4 va = 0 → mapping (bytes s') a va = mapping (bytes s) a va) ∧
  (∀ b o, b ∈ l' → legal o → ∃ s'', run_op b o s' = Done (tt, s'')) ∧ ∃ r s'', pml4_create s' = Done (r, s'').
Proof.
  intros Hp Ha Hst. destruct (mm_steps_keep a _ _ Hst Hp Ha) as (Hp' & _ & Hslot). simpl in *.
  split; [done|]. split; [intros va Hva; unfold mapping; by rewrite Hslot|]. split.
  - intros b o Hb Ho. destruct (wp_run_unit _ _ _ (legal_wp s' b o (pr_space _ _ Hp' b Hb) Ho)) as (s'' & Hr & _). eauto.
  - destruct (wp_run _ _ _ (create_copies s' l' Hp')) as (r & s'' & Hr & _). eauto.
Qed.

(** Clearing the flag of an entry keeps the physical address only if it is below
    4 GB, because the complement of the flag is a 32-bit number. *)
Lemma clear_flag_address e : 0 <= e < 2 ^ 64 →
  PTE_ADDR (put_flag PTE_D false e) = PTE_ADDR e mod 2 ^ 32.
Proof.
  intros He. unfold put_flag, PTE_ADDR. change (u32 (Z.lnot PTE_D)) with (Z.land (Z.ones 32) (Z.lnot PTE_D)).
  rewrite <- Z.land_ones by lia. rewrite <- !Z.land_assoc. f_equal.
Qed.

(** ** An example: the kernel's root and one of a process, both empty *)

#[local] Opaque example_mem.
Definition example_root : Z := example_base + PGSIZE.
Definition example_frame : Z := example_base + 7 * PGSIZE.
Definition example_mmu : mmu :=
  Mmu (Ram (Pool (Bitmap 7 [3]) example_base) (Pool (Bitmap 1 [1]) example_frame) example_mem) example_base 0.

Lemma example_mmu_mapped a : example_base <= a < example_base + 8 * PGSIZE → bytes example_mmu !! a = Some 0.
Proof.
  intros Ha. destruct (example_mapped a Ha) as [x Hx]. pose proof (example_zero a x Hx) as ->. exact Hx.
Qed.
Lemma example_pages_ok : ram_ok (m_ram example_mmu).
Proof.
  split; [|done]. split; [split|split|by left].
  - split; done.
  - done.
  - intros a Ha. exists 0. apply example_mmu_mapped. unfold pool_end in Ha. simpl in Ha. unfold PGSIZE in *. lia.
  - split; done.
  - done.
  - intros a Ha. exists 0. apply example_mmu_mapped. unfold pool_end in Ha. simpl in Ha. unfold example_frame, PGSIZE in *. lia.
Qed.
Lemma example_page k v : 0 <= k < 7 → bget (Bitmap 7 [3]) k = v →
  run_of (kernel_pool (m_ram example_mmu)) (example_base + k * PGSIZE) 1 v.
Proof.
  intros Hk Hv. split; [unfold example_base, PGSIZE; zdiv|]. split; [simpl; unfold PGSIZE; lia|].
  split; [unfold pool_end; simpl; unfold PGSIZE; lia|]. intros b Hb. unfold page_used. simpl.
  replace ((b - example_base) / PGSIZE) with k by (unfold PGSIZE in *; zdiv). done.
Qed.
Lemma example_entry k i : 0 <= k < 8 → idx i → entry (bytes example_mmu) (example_base + k * PGSIZE) i = Some 0.
Proof.
  intros Hk Hi. unfold entry, word64, offsets. simpl. unfold idx in Hi.
  rewrite !example_mmu_mapped by (unfold PGSIZE; lia). done.
Qed.
Lemma example_node p b : okp own 3 p → node (bytes example_mmu) example_root p = Some b → p = [] ∧ b = example_root.
Proof.
  intros (_ & Hf & _). destruct p as [|i p]; [intros [= <-]; done|]. apply Forall_cons in Hf as [Hi _].
  simpl. unfold next. rewrite (example_entry 1) by done. done.
Qed.
Lemma example_processes : processes example_mmu [example_root].
Proof.
  assert (Hroot : table_page (m_ram example_mmu) example_root) by (by apply (example_page 1)).
  split.
  - apply example_pages_ok.
  - by apply (example_page 0).
  - intros x Hx. exists 0. split; [apply example_mmu_mapped; simpl in Hx; unfold PGSIZE in *; lia|done].
  - simpl. unfold next. by rewrite (example_entry 0).
  - intros a ->%list_elem_of_singleton. split; [apply example_pages_ok| |done]. split.
    + by intros p b Hp [_ ->]%example_node.
    + by intros p q b Hp Hq [-> _]%example_node [-> _]%example_node.
  - intros a1 a2 ->%list_elem_of_singleton ->%list_elem_of_singleton. done.
  - intros a p ->%list_elem_of_singleton Hp [_ He]%example_node; done.
Qed.
Lemma example_space : space own example_mmu example_root.
Proof. apply (pr_space _ _ example_processes). by apply list_elem_of_singleton. Qed.
Lemma example_user : user_va own 4194304.
Proof. by split. Qed.
Lemma example_kernel_page : kernel_page example_frame.
Proof. by split. Qed.
(** There are enough pages for the tables. *)
Lemma example_set : ∃ s', pml4_set_page example_root 4194304 example_frame true example_mmu = Done (true, s').
Proof.
  destruct (wp_run _ _ _ (set_page_wp own example_mmu example_root 4194304 example_frame true example_space example_user eq_refl example_kernel_page))
    as (ok & s' & Hrun & (_ & _ & Hok)). destruct ok; [by exists s'|]. destruct Hok as (_ & _ & Hf). exfalso.
  set (l := [example_base + 2 * PGSIZE; example_base + 3 * PGSIZE; example_base + 4 * PGSIZE]).
  assert (Hn : NoDup l) by (apply (bool_decide_unpack _); vm_compute; exact I).
  assert (Hl : Forall (λ b, run_of (kernel_pool (m_ram example_mmu)) b 1 false) l).
  { assert (Hk : ∀ k, 2 <= k < 7 → run_of (kernel_pool (m_ram example_mmu)) (example_base + k * PGSIZE) 1 false).
    { intros k Hk. apply example_page; [lia|]. assert (k = 2 ∨ k = 3 ∨ k = 4 ∨ k = 5 ∨ k = 6) as Hc by lia.
      destruct Hc as [->|[->|[->|[->| ->]]]]; reflexivity. }
    unfold l. repeat constructor; apply Hk; lia. }
  pose proof (Hf l Hn Hl) as Hlt. change (length l) with 3%nat in Hlt. change (length (path 4194304)) with 3%nat in Hlt. lia.
Qed.

Lemma pml4_set_page_spec_witness : ∃ ok s',
  pml4_set_page example_root 4194304 example_frame true example_mmu = Done (ok, s') ∧
  set_page_result own example_mmu example_root 4194304 example_frame true ok s'.
Proof.
  exact (pml4_set_page_spec own example_mmu example_root 4194304 example_frame true example_space example_user eq_refl example_kernel_page).
Defined.
Lemma page_table_roundtrip_witness : ∃ s1,
  pml4_set_page example_root 4194304 example_frame true example_mmu = Done (true, s1) ∧
  pml4_get_page example_root (4194304 + 5) s1 = Done (example_frame + 5, s1).
Proof.
  destruct example_set as [s1 Hset]. exists s1. split; [exact Hset|].
  assert (H5 : 0 <= 5 < PGSIZE) by (unfold PGSIZE; lia).
  destruct (page_table_roundtrip own example_mmu example_root 4194304 example_frame true s1 5 example_space example_user eq_refl
    example_kernel_page H5 Hset) as [Hget _]. exact Hget.
Defined.
Lemma address_spaces_isolated_witness : ∃ s', mm_steps example_base (example_mmu, [example_root]) (s', [example_root]) ∧
  ∃ s'', run_op example_root (ClearPage 4194304) s' = Done (tt, s'').
Proof.
  destruct example_set as [s' Hset]. exists s'. assert (Hop : run_op example_root (SetPage 4194304 example_frame true) example_mmu = Done (tt, s')).
  { unfold run_op, mbind, st_bind. by rewrite Hset. }
  assert (Hin : example_root ∈ [example_root]) by (by apply list_elem_of_singleton).
  assert (Hst : mm_step (example_mmu, [example_root]) (Some example_root) (s', [example_root])).
  { apply (mm_op _ _ _ (SetPage 4194304 example_frame true)); [exact Hin| |exact Hop].
    split; [exact example_user|]. split; [reflexivity|exact example_kernel_page]. }
  split; [by apply (mm_next _ _ _ _ _ Hst); [|apply mm_refl]|].
  destruct (mm_step_keeps _ _ _ _ _ example_processes Hst) as (Hp & _).
  apply (address_spaces_isolated s' [example_root] s' [example_root] example_root Hp Hin (mm_refl _ _)); [exact Hin|].
  split; [exact example_user|reflexivity].
Defined.
