(* ===== verification/UserMem.v ===== *)
(** * What processes see of the user pool

    Every present entry of a process's page table leads to a page of the user
    pool that is in use. A fresh frame is taken, entered and filled without any
    process seeing a change anywhere else. *)
From stdpp Require Import base numbers list gmap.
From Stdlib Require Import ZArith Lia.
From S2P Require Import Prelude Bytes CString Bitmap Palloc PallocInit Words Mmu MmuInv MmuWalk MmuSpec AddressSpace Isolation PageTables.
Open Scope Z_scope.

(** The byte at a user address. *)
Definition user_byte (m : mem) (a va : Z) : option Z := q ← translate m a va; m !! q.
(** The frame an entry leads to. *)
Abbreviation target e := (ptov (PTE_ADDR e)).

Record wf_user (s : mmu) (l : list Z) : Prop := {
  wu_proc : processes s l;
  wu_base : KERN_BASE <= base (user_pool (m_ram s));
  wu_used : ∀ a va e, a ∈ l → user_va own va → mapping (bytes s) a va = Some e →
    run_of (user_pool (m_ram s)) (target e) 1 true;
}.

(** Only the frame [k] of the user pool may have other bytes, and pages in use
    are still in use. *)
Record user_change (k : Z) (s s' : mmu) : Prop := {
  uc_ram : wf_pages (m_ram s');
  uc_regs : base_pml4 s' = base_pml4 s;
  uc_kernel : kernel_pool (m_ram s') = kernel_pool (m_ram s);
  uc_user : base (user_pool (m_ram s')) = base (user_pool (m_ram s)) ∧
    bit_cnt (used_map (user_pool (m_ram s'))) = bit_cnt (used_map (user_pool (m_ram s)));
  uc_used : ∀ x, in_pool (user_pool (m_ram s)) x → page_used (user_pool (m_ram s)) x = true →
    page_used (user_pool (m_ram s')) x = true;
  uc_bytes : ∀ x, ¬ (k <= x < k + PGSIZE) → bytes s' !! x = bytes s !! x;
}.

(** No page but [u] of [a] leads to the frame [k]. *)
Definition alone (s : mmu) (l : list Z) (k a u : Z) : Prop :=
  ∀ b va e, b ∈ l → user_va own va → mapping (bytes s) b va = Some e → target e = k →
    b = a ∧ va / PGSIZE = u / PGSIZE.
(** The byte belongs to a page table of [l], or to the kernel's. *)
Definition table_byte (s : mmu) (l : list Z) (x : Z) : Prop :=
  base_pml4 s <= x < base_pml4 s + PGSIZE ∨ ∃ a, a ∈ l ∧ in_tree own 3 (m_ram s) a x.
(** It belongs to the kernel alone, and to no page table. *)
Definition kernel_byte (s : mmu) (l : list Z) (x : Z) : Prop :=
  ¬ in_pool (user_pool (m_ram s)) x ∧ ¬ table_byte s l x.
(** No process sees a change, but perhaps [a] in its page [u]. *)
Definition view_except (a u : Z) (l : list Z) (s s' : mmu) : Prop :=
  ∀ b va, b ∈ l → user_va own va → ¬ (b = a ∧ va / PGSIZE = u / PGSIZE) →
    mapping (bytes s') b va = mapping (bytes s) b va ∧ user_byte (bytes s') b va = user_byte (bytes s) b va.
(** A page of the user pool, used or not. *)
Definition user_page (s : mmu) (k : Z) : Prop :=
  k mod PGSIZE = 0 ∧ base (user_pool (m_ram s)) <= k ∧ k + PGSIZE <= pool_end (user_pool (m_ram s)).

Section view.
Implicit Types (s : mmu) (l : list Z) (k a u va e : Z).

Lemma run_user_page s k v : run_of (user_pool (m_ram s)) k 1 v → user_page s k.
Proof. intros (H1 & H2 & H3 & _). unfold user_page. rewrite Z.mul_1_r in H3. done. Qed.
Lemma wf_user_kernel s l k : wf_user s l → user_page s k → kernel_page k.
Proof.
  intros Hw (H1 & H2 & H3). pose proof (wu_base _ _ Hw). destruct (wp_base _ _ (wp_user _ (proj1 (pr_ram _ _ (wu_proc _ _ Hw))))) as (_ & _ & ?).
  split; [done|]. unfold PGSIZE in *. lia.
Qed.
Lemma view_trans a u l s1 s2 s3 : view_except a u l s1 s2 → view_except a u l s2 s3 → view_except a u l s1 s3.
Proof. intros H1 H2 b va Hb Hva Hn. destruct (H1 b va Hb Hva Hn), (H2 b va Hb Hva Hn). split; congruence. Qed.
Lemma view_refl a u l s : view_except a u l s s.
Proof. done. Qed.

(** The bytes of the page tables [l]. *)
Lemma keeps_tables s s' l : processes s l → keeps (table_byte s l) s s' →
  processes s' l ∧ ∀ a va, a ∈ l → PML4 va = 0 → slot (bytes s') a va = slot (bytes s) a va.
Proof.
  intros Hp Hk.
  assert (Hbase : ∀ x, base_pml4 s <= x < base_pml4 s + PGSIZE → bytes s' !! x = bytes s !! x).
  { intros x Hx. apply (ke_bytes _ _ _ Hk). by left. }
  assert (Hone : ∀ a, a ∈ l → keeps (in_tree own 3 (m_ram s) a) s s').
  { intros a Ha. refine (keeps_mono _ _ _ _ _ Hk). intros x Hx. right. by exists a. }
  assert (Hnode : ∀ a p, a ∈ l → okp own 3 p → node (bytes s') a p = node (bytes s) a p).
  { intros a p Ha. by apply (keeps_node own s s' a), Hone. }
  pose proof (ke_base _ _ _ Hk) as Hb. split.
  - split.
    + apply Hk.
    + rewrite Hb. apply (keeps_table _ s s' _ Hk), Hp.
    + rewrite Hb. intros x Hx. rewrite Hbase by done. by apply Hp.
    + rewrite Hb, <- (pr_own _ _ Hp). apply next_agree, entry_page; [done|exact Hbase].
    + intros a Ha. by apply (keeps_space own s s' a), Hone; [apply Hp|..].
    + intros a1 a2 H1 H2 Hne p q b Hpp Hq. rewrite !Hnode by done. by apply (pr_apart _ _ Hp).
    + intros a p Ha Hpp. rewrite Hb, Hnode by done. by apply (pr_kernel _ _ Hp).
  - intros a va Ha Hva. apply (keeps_slot own s s' a); [by apply Hone|done].
Qed.
Lemma table_byte_same s s' l x : processes s l → keeps (table_byte s l) s s' → table_byte s' l x → table_byte s l x.
Proof.
  intros Hp Hk [Hx|(a & Ha & q & b & Hq & Hb & Hx)]; [left; by rewrite <- (ke_base _ _ _ Hk)|]. right. exists a. split; [done|].
  exists q, b. split; [done|]. split; [|done]. rewrite <- (keeps_node own s s' a); [done| |done].
  refine (keeps_mono _ _ _ _ _ Hk). intros y Hy. right. by exists a.
Qed.
(** Everything about the page tables is in the kernel pool. *)
Lemma table_byte_pool s l x : processes s l → table_byte s l x → in_pool (kernel_pool (m_ram s)) x.
Proof.
  intros Hp. assert (Htab : ∀ b, table_page (m_ram s) b → b <= x < b + PGSIZE → in_pool (kernel_pool (m_ram s)) x).
  { intros b (H1 & H2 & H3 & _) Hx. unfold in_pool. lia. }
  intros [Hx|(a & Ha & p & b & Hpp & Hb & Hx)]; [apply (Htab (base_pml4 s)); [apply Hp|done]|].
  apply (Htab b); [|done]. by apply (tr_page _ _ _ _ (sp_tree _ _ _ (pr_space _ _ Hp a Ha)) p).
Qed.
Lemma keeps_processes s s' l : processes s l → keeps (in_pool (kernel_pool (m_ram s))) s s' →
  processes s' l ∧ ∀ a va, a ∈ l → PML4 va = 0 → slot (bytes s') a va = slot (bytes s) a va.
Proof.
  intros Hp Hk. apply (keeps_tables s s' l Hp). refine (keeps_mono _ _ _ _ _ Hk). intros x. by apply table_byte_pool.
Qed.

Lemma user_change_keeps k s s' : ram_ok (m_ram s) → user_page s k → user_change k s s' →
  keeps (in_pool (kernel_pool (m_ram s))) s s'.
Proof.
  intros [Hwf Hbase] (H1 & H2 & H3) [Hw Hr Hkn Hu Hus Hby]. split; try done.
  - split; [done|]. by rewrite Hkn.
  - by rewrite Hkn.
  - by rewrite Hkn.
  - intros x Hx. apply Hby. intros Hxk. apply (pools_exclusive (m_ram s) x); [done|done|]. unfold in_pool. lia.
Qed.

(** Bytes change that belong to the kernel alone. *)
Lemma kernel_bytes_change s l m : wf_user s l → (∀ x, is_Some (bytes s !! x) → is_Some (m !! x)) →
  (∀ x, ¬ kernel_byte s l x → m !! x = bytes s !! x) →
  let s' := Mmu (Ram (kernel_pool (m_ram s)) (user_pool (m_ram s)) m) (base_pml4 s) (cr3 s) in
  wf_user s' l ∧ (∀ b va, b ∈ l → user_va own va → mapping m b va = mapping (bytes s) b va) ∧
  (∀ b va, b ∈ l → user_va own va → user_byte m b va = user_byte (bytes s) b va) ∧ ∀ x, kernel_byte s l x → kernel_byte s' l x.
Proof.
  intros Hw Hdom Hby s'. pose proof (wu_proc _ _ Hw) as Hp. destruct (pr_ram _ _ Hp) as [Hwf Hbase].
  assert (Hkeep : keeps (table_byte s l) s s').
  { split; [|done|done|done|].
    - split; [|done]. by apply (wf_pages_mem (m_ram s) m).
    - intros x Hx. apply Hby. by intros [_ ?]. }
  destruct (keeps_tables s s' l Hp Hkeep) as [Hp' Hslot].
  assert (Hmap : ∀ b va, b ∈ l → user_va own va → mapping m b va = mapping (bytes s) b va).
  { intros b va Hb [_ Hva]. unfold mapping. by rewrite <- (Hslot b va Hb Hva). }
  split; [|split; [done|]].
  - split; [done|apply Hw|]. intros b va e Hb Hva He. apply (wu_used _ _ Hw b va e Hb Hva). by rewrite <- Hmap.
  - split; [|intros x [H1 H2]; split; [done|]; intros Hx; apply H2; by apply (table_byte_same s s')].
    intros b va Hb Hva. unfold user_byte, translate. rewrite Hmap by done. destruct (mapping (bytes s) b va) as [e|] eqn:He; [|done].
    simpl. destruct (wu_used _ _ Hw b va e Hb Hva He) as (_ & H2 & H3 & _). rewrite pg_ofs_mod.
    pose proof (Z.mod_pos_bound va PGSIZE ltac:(done)). apply Hby. intros [Hn _]. apply Hn. unfold in_pool. lia.
Qed.

(** What belongs to the kernel alone stays so when a frame of the user pool changes. *)
Lemma kernel_byte_change k s s' l x : processes s l → user_page s k → user_change k s s' → kernel_byte s l x →
  kernel_byte s' l x ∧ bytes s' !! x = bytes s !! x.
Proof.
  intros Hp Hk Hc [H1 H2]. pose proof (user_change_keeps k s s' (pr_ram _ _ Hp) Hk Hc) as Hkeep.
  destruct (uc_user _ _ _ Hc) as [Hub Huc]. split; [split|].
  - unfold in_pool, pool_end. by rewrite Hub, Huc.
  - intros Ht. apply H2. apply (table_byte_same s s'); [done| |done]. refine (keeps_mono _ _ _ _ _ Hkeep). intros y. by apply table_byte_pool.
  - apply (uc_bytes _ _ _ Hc). intros Hx. apply H1. destruct Hk as (_ & ? & ?). unfold in_pool. lia.
Qed.

(** What a translation answers is in the frame. *)
Lemma translate_frame s l a va e : wf_user s l → a ∈ l → user_va own va → mapping (bytes s) a va = Some e →
  translate (bytes s) a va = Some (target e + pg_ofs va) ∧ 0 <= pg_ofs va < PGSIZE.
Proof. intros Hw Ha Hva He. unfold translate. rewrite He. split; [done|]. rewrite pg_ofs_mod. unfold PGSIZE. by apply Z.mod_pos_bound. Qed.

(** Two frames are the same or apart. *)
Lemma frames_apart k k' x : k mod PGSIZE = 0 → k' mod PGSIZE = 0 → k ≠ k' → k <= x < k + PGSIZE → ¬ (k' <= x < k' + PGSIZE).
Proof. intros H1 H2 Hne Hx Hx'. apply Hne. unfold PGSIZE in *. zdiv. Qed.

(** The view depends on the mappings and on the bytes of the frames. *)
Lemma view_agree a u l s s' k :
  wf_user s l → k mod PGSIZE = 0 → alone s l k a u →
  (∀ b va, b ∈ l → user_va own va → ¬ (b = a ∧ va / PGSIZE = u / PGSIZE) → mapping (bytes s') b va = mapping (bytes s) b va) →
  (∀ x, in_pool (user_pool (m_ram s)) x → ¬ (k <= x < k + PGSIZE) → bytes s' !! x = bytes s !! x) → view_except a u l s s'.
Proof.
  intros Hw Hkal Hal Hmap Hby b va Hb Hva Hn. pose proof (Hmap b va Hb Hva Hn) as Hm. split; [done|].
  unfold user_byte, translate. rewrite Hm. destruct (mapping (bytes s) b va) as [e|] eqn:He; [|done]. simpl. 
  destruct (translate_frame s l b va e Hw Hb Hva He) as [_ Ho].
  pose proof (wu_used _ _ Hw b va e Hb Hva He) as (H1 & H2 & H3 & _). rewrite Z.mul_1_r in H3. apply Hby.
  - unfold in_pool. lia.
  - apply (frames_apart (target e)); [done|done| |lia]. intros Hk. apply Hn. by apply (Hal b va e).
Qed.

(** *** A frame of the user pool changes *)
Lemma user_change_view k a u l s s' : wf_user s l → user_page s k → alone s l k a u → user_change k s s' →
  wf_user s' l ∧ view_except a u l s s' ∧ (∀ b va, b ∈ l → user_va own va → mapping (bytes s') b va = mapping (bytes s) b va).
Proof.
  intros Hw Hk Hal Hc. pose proof (wu_proc _ _ Hw) as Hp.
  destruct (keeps_processes s s' l Hp (user_change_keeps k s s' (pr_ram _ _ Hp) Hk Hc)) as [Hp' Hslot].
  assert (Hmap : ∀ b va, b ∈ l → user_va own va → mapping (bytes s') b va = mapping (bytes s) b va).
  { intros b va Hb [_ Hva]. unfold mapping. by rewrite Hslot. }
  destruct (uc_user _ _ _ Hc) as [Hub Huc]. split; [|split; [|done]].
  - split; [done| |].
    + rewrite Hub. apply Hw.
    + intros b va e Hb Hva He. rewrite Hmap in He by done. destruct (wu_used _ _ Hw b va e Hb Hva He) as (H1 & H2 & H3 & H4).
      unfold run_of, pool_end in *. rewrite Hub, Huc. split_and!; [done..|]. intros x Hx. apply (uc_used _ _ _ Hc); [|by apply H4].
      unfold in_pool, pool_end. lia.
  - apply (view_agree a u l s s' k); [done|apply Hk|done|auto|]. intros x _ Hx. by apply (uc_bytes _ _ _ Hc).
Qed.
Lemma alone_same k a u l s s' : (∀ b va, b ∈ l → user_va own va → mapping (bytes s') b va = mapping (bytes s) b va) →
  alone s l k a u → alone s' l k a u.
Proof. intros Hm Hal b va e Hb Hva He. rewrite Hm in He by done. by apply (Hal b va e). Qed.

(** *** A frame is entered in a page table *)
Lemma extends_user s a s' x : space own s a → extends own s a s' → in_pool (user_pool (m_ram s)) x → bytes s' !! x = bytes s !! x.
Proof.
  intros Hs He Hx. pose proof (proj1 (sp_ram _ _ _ Hs)) as Hwf. apply (ex_conf _ _ _ _ He).
  - intros [Hk _]. by apply (pools_exclusive (m_ram s) x).
  - intros (p & b & Hp & Hb & Hxb). destruct (tr_page _ _ _ _ (sp_tree _ _ _ Hs) p b Hp Hb) as (_ & H1 & H2 & _).
    apply (pools_exclusive (m_ram s) x); [done| |done]. unfold in_pool. lia.
Qed.

Lemma set_page_view a u k rw l s s' : wf_user s l → a ∈ l → user_va own u → u mod PGSIZE = 0 →
  run_of (user_pool (m_ram s)) k 1 true → alone s l k a u → set_page_result own s a u k rw true s' →
  wf_user s' l ∧ view_except a u l s s' ∧ alone s' l k a u ∧ mapping (bytes s') a u = Some (page_entry k rw) ∧
  user_pool (m_ram s') = user_pool (m_ram s) ∧ (∀ x, in_pool (user_pool (m_ram s)) x → bytes s' !! x = bytes s !! x) ∧
  ∀ x, kept (m_ram s) x → kernel_byte s l x → bytes s' !! x = bytes s !! x.
Proof.
  intros Hw Ha Hu Hual Hk Hal (He & Hother & Hmap). pose proof (wu_proc _ _ Hw) as Hp. pose proof (pr_space _ _ Hp a Ha) as Hs.
  destruct (processes_extends s l a s' Hp Ha He) as [Hp' Hslot]. destruct (ex_pool _ _ _ _ He) as (_ & _ & Hup).
  pose proof (wf_user_kernel s l k Hw (run_user_page s k true Hk)) as Hkp. destruct (page_entry_ok k rw Hkp) as (_ & _ & _ & Htar).
  assert (Hm : ∀ b va, b ∈ l → user_va own va → ¬ (b = a ∧ va / PGSIZE = u / PGSIZE) → mapping (bytes s') b va = mapping (bytes s) b va).
  { intros b va Hb Hva Hn. destruct (decide (b = a)) as [->|Hne]; [apply Hother; [done|tauto]|]. unfold mapping. rewrite Hslot; [done..|apply Hva]. }
  assert (Hsame : ∀ va, va / PGSIZE = u / PGSIZE → mapping (bytes s') a va = Some (page_entry k rw)).
  { intros va Hva. by rewrite (same_mapping _ _ va u). }
  assert (Hbytes : ∀ x, in_pool (user_pool (m_ram s)) x → bytes s' !! x = bytes s !! x) by (intros x; by apply (extends_user s a)).
  split; [split; [done|by rewrite Hup; apply Hw|]|].
  - intros b va e Hb Hva Hbe. rewrite Hup. destruct (decide (b = a ∧ va / PGSIZE = u / PGSIZE)) as [[-> Hd]|Hn].
    + rewrite Hsame in Hbe by done. injection Hbe as <-. by rewrite Htar.
    + rewrite Hm in Hbe by done. by apply (wu_used _ _ Hw b va).
  - split; [|split; [|split; [by apply Hsame|split; [done|split; [done|]]]]].
    + apply (view_agree a u l s s' k); [done|apply Hk|done|done|auto].
    + intros b va e Hb Hva Hbe Ht. destruct (decide (b = a ∧ va / PGSIZE = u / PGSIZE)) as [Hy|Hn]; [done|].
      rewrite Hm in Hbe by done. by apply (Hal b va e).
    + intros x Hx [_ Hn]. apply (ex_conf _ _ _ _ He); [done|]. intros Hin. apply Hn. right. by exists a.
Qed.

(** What the process sees in its page is the contents of the frame. *)
Lemma user_byte_frame s a u k rw ofs : kernel_page k → mapping (bytes s) a u = Some (page_entry k rw) → u mod PGSIZE = 0 →
  0 <= ofs < PGSIZE → user_byte (bytes s) a (u + ofs) = bytes s !! (k + ofs).
Proof.
  intros Hk Hm Hu Ho. destruct (page_offset u ofs Hu Ho) as [Hpg Hofs]. destruct (page_entry_ok k rw Hk) as (_ & _ & _ & Ht).
  unfold user_byte, translate. rewrite <- (same_mapping _ _ u) by done. rewrite Hm. simpl. by rewrite Ht, Hofs.
Qed.

(** *** A new frame *)
Lemma alone_free s l k a u : wf_user s l → run_of (user_pool (m_ram s)) k 1 false → alone s l k a u.
Proof.
  intros Hw (_ & _ & _ & Hf) b va e Hb Hva He Ht. destruct (wu_used _ _ Hw b va e Hb Hva He) as (_ & _ & _ & Hu).
  rewrite Ht in Hu. specialize (Hu k). specialize (Hf k). unfold PGSIZE in *. rewrite Hu in Hf by lia. discriminate Hf. lia.
Qed.
End view.
