(* ===== verification/Vm.v ===== *)
(** * Virtual memory (vm/vm.c, vm/uninit.c, vm/anon.c, vm/file.c)

    Pages, frames and the supplemental page tables of all processes, with lazy
    loading, the fault handler, eviction to the swap disk, copy-on-write and
    mapped files. The objects that come from malloc are kept by address, typed,
    beside the bytes of the page pools; the frames' contents are those bytes. One
    operation runs at a time, so the lock of the file system that the write-backs
    take does not appear. *)
From stdpp Require Import base numbers list gmap.
From Stdlib Require Import ZArith Lia.
From S2P Require Import Prelude Bytes Fat Volume Inode File CString Bitmap Hash Palloc Words Mmu.
Open Scope Z_scope.

(** ** Data *)

Definition VM_UNINIT : Z := 0.
Definition VM_ANON : Z := 1.
Definition VM_FILE : Z := 2.
Definition VM_MMAP : Z := 4.
Definition VM_TYPE (type : Z) : Z := Z.land type 7.
Definition STACK_GROW_RANGE : Z := 4192.
Definition USER_STACK : Z := 1195900928. (* 0x47480000 *)

(** The values that a [vm_initializer *] and a page initializer take. *)
Inductive vm_initializer := no_init | lazy_load.
Inductive page_initializer := init_anon | init_file.
(** The three tables of operations. *)
Inductive page_operations := uninit_ops | anon_ops | file_ops.
Definition ops_type (o : page_operations) : Z :=
  match o with uninit_ops => VM_UNINIT | anon_ops => VM_ANON | file_ops => VM_FILE end.

Record file_page := FilePage {
  mapping_count : Z;
  fp_file : Z;
  fp_offset : Z;
  read_byte : Z;
  zero_byte : Z;
}.
(** The union of struct page, with the member that was stored last. *)
Inductive page_data :=
  | Uninit (init : vm_initializer) (type aux : Z) (initializer : page_initializer)
  | Anon (swap_idx : Z)
  | FileData (f : file_page).
Record page := Page {
  operations : page_operations;
  va : Z;
  frame_of : Z;
  writable : bool;
  data : page_data;
}.
Record frame := Frame {
  kva : Z;
  ref_cnt : Z;
  page_of : Z;
}.
Record SPT_entry := Entry { e_va : Z; e_page : Z }.
Record lazy_load_info := Info { li_file : Z; li_offset : Z; readbyte : Z; zerobyte : Z }.
Record mmap_info := MmapInfo { mi_info : Z; mi_count : Z }.
Inductive obj :=
  | OPage (p : page) | OFrame (f : frame) | OEntry (e : SPT_entry)
  | OInfo (i : lazy_load_info) | OMmap (m : mmap_info).

(** What virtual memory has of a struct thread. *)
Record proc := Proc {
  pml4 : Z;
  spt : hash;
  user_rsp : Z;
}.

(** [frame_table] lists the frames in the order of the list; [clock_start] is a
    frame, 0, or [TAIL] for the end of the list. [malloc_ok] lists whether the
    coming calls of malloc succeed; when it is used up they do. *)
Record vm := Vm {
  v_mmu : mmu;
  v_k : kfs;
  objs : gmap Z obj;
  next_obj : Z;
  malloc_ok : list bool;
  frame_table : list Z;
  clock_start : Z;
  swap_table : bitmap;
  swap_disk : disk;
  procs : gmap Z proc;
  cur : Z;
}.
Definition TAIL : Z := -1.

Definition with_mmu m s := Vm m (v_k s) (objs s) (next_obj s) (malloc_ok s) (frame_table s) (clock_start s) (swap_table s) (swap_disk s) (procs s) (cur s).
Definition with_k k s := Vm (v_mmu s) k (objs s) (next_obj s) (malloc_ok s) (frame_table s) (clock_start s) (swap_table s) (swap_disk s) (procs s) (cur s).
Definition with_objs o s := Vm (v_mmu s) (v_k s) o (next_obj s) (malloc_ok s) (frame_table s) (clock_start s) (swap_table s) (swap_disk s) (procs s) (cur s).
Definition with_frames l s := Vm (v_mmu s) (v_k s) (objs s) (next_obj s) (malloc_ok s) l (clock_start s) (swap_table s) (swap_disk s) (procs s) (cur s).
Definition with_clock c s := Vm (v_mmu s) (v_k s) (objs s) (next_obj s) (malloc_ok s) (frame_table s) c (swap_table s) (swap_disk s) (procs s) (cur s).
Definition with_swap b s := Vm (v_mmu s) (v_k s) (objs s) (next_obj s) (malloc_ok s) (frame_table s) (clock_start s) b (swap_disk s) (procs s) (cur s).
Definition with_disk d s := Vm (v_mmu s) (v_k s) (objs s) (next_obj s) (malloc_ok s) (frame_table s) (clock_start s) (swap_table s) d (procs s) (cur s).
Definition with_procs p s := Vm (v_mmu s) (v_k s) (objs s) (next_obj s) (malloc_ok s) (frame_table s) (clock_start s) (swap_table s) (swap_disk s) p (cur s).

Definition on_mmu {A} : ST mmu A → ST vm A := zoom v_mmu with_mmu.
Definition on_k {A} : ST kfs A → ST vm A := zoom v_k with_k.
Definition on_swap {A} : ST bitmap A → ST vm A := zoom swap_table with_swap.
Definition on_swap_disk {A} : ST disk A → ST vm A := zoom swap_disk with_disk.
Definition on_ram {A} (c : ST ram A) : ST vm A := on_mmu (on_pages c).
Definition on_bytes {A} (c : ST mem A) : ST vm A := on_ram (Palloc.on_mem c).

(** *** Objects *)

(** malloc of an object; its contents are what the caller stores first. *)
Definition new_obj (o : obj) : ST vm Z := λ s,
  let '(ok, rest) := match malloc_ok s with [] => (true, []) | b :: r => (b, r) end in
  let p := next_obj s in
  if (ok : bool) then
    Done (p, Vm (v_mmu s) (v_k s) (<[p := o]> (objs s)) (p + 1) rest (frame_table s) (clock_start s) (swap_table s) (swap_disk s) (procs s) (cur s))
  else Done (0, Vm (v_mmu s) (v_k s) (objs s) p rest (frame_table s) (clock_start s) (swap_table s) (swap_disk s) (procs s) (cur s)).
Definition free_obj (p : Z) : ST vm unit :=
  if p =? 0 then mret tt else
  s ← get_st; _ ← deref (objs s !! p); modify (λ s, with_objs (delete p (objs s)) s).
Definition set_obj (p : Z) (o : obj) : ST vm unit :=
  s ← get_st; _ ← deref (objs s !! p); modify (λ s, with_objs (<[p := o]> (objs s)) s).

Definition as_page (o : obj) := match o with OPage p => Some p | _ => None end.
Definition as_frame (o : obj) := match o with OFrame p => Some p | _ => None end.
Definition as_entry (o : obj) := match o with OEntry p => Some p | _ => None end.
Definition as_info (o : obj) := match o with OInfo p => Some p | _ => None end.
Definition as_mmap (o : obj) := match o with OMmap p => Some p | _ => None end.
Definition get_obj {A} (f : obj → option A) (p : Z) : ST vm A :=
  s ← get_st; deref (objs s !! p ≫= f).
Definition get_page : Z → ST vm page := get_obj as_page.
Definition get_frame : Z → ST vm frame := get_obj as_frame.
Definition get_entry : Z → ST vm SPT_entry := get_obj as_entry.
Definition get_info : Z → ST vm lazy_load_info := get_obj as_info.
Definition get_mmap : Z → ST vm mmap_info := get_obj as_mmap.

Definition set_frame_of (f : Z) (p : page) := Page (operations p) (va p) f (writable p) (data p).
Definition set_writable (w : bool) (p : page) := Page (operations p) (va p) (frame_of p) w (data p).
Definition set_data (o : page_operations) (d : page_data) (p : page) := Page o (va p) (frame_of p) (writable p) d.
Definition set_ref_cnt (n : Z) (f : frame) := Frame (kva f) n (page_of f).
Definition set_page_of (p : Z) (f : frame) := Frame (kva f) (ref_cnt f) p.

Definition upd_page (p : Z) (g : page → page) : ST vm unit := x ← get_page p; set_obj p (OPage (g x)).
Definition upd_frame (p : Z) (g : frame → frame) : ST vm unit := x ← get_frame p; set_obj p (OFrame (g x)).

(** thread_current () *)
Definition current : ST vm proc := s ← get_st; deref (procs s !! cur s).

(** *** Bytes *)

Definition put_bytes (p : Z) (l : list Z) : ST mem unit :=
  for_st (λ ix _, store8 (p + fst ix) (snd ix)) (zip (seqZ 0 (zlength l)) l) tt.
Definition get_bytes (p n : Z) : ST mem (list Z) :=
  for_st (λ i acc, b ← load8 (p + i); mret (acc ++ [b])) (seqZ 0 n) [].

(** ** The supplemental page table *)

(** The key of an entry; the entry [LOOKUP] is the local variable [lookup]. *)
Definition va_of (m : gmap Z obj) (e : Z) : Z := match m !! e ≫= as_entry with Some x => e_va x | None => 0 end.
Definition my_hash (m : gmap Z obj) (e : Z) : Z := hash_int (va_of m e).
Definition my_less (m : gmap Z obj) (a b : Z) : bool :=
  if a =? 0 then true else if b =? 0 then false else va_of m a <? va_of m b.
Definition LOOKUP : Z := -2.
Definition with_lookup (v : Z) (m : gmap Z obj) : gmap Z obj := <[LOOKUP := OEntry (Entry v 0)]> m.

Definition with_spt (t : Z) (h : hash) (s : vm) : vm :=
  with_procs (alter (λ p, Proc (pml4 p) h (user_rsp p)) t (procs s)) s.
(** An operation on the table of the process [t]. *)
Definition on_spt {A} (t : Z) (c : ST hash A) : ST vm A :=
  s ← get_st; p ← deref (procs s !! t); zoom (λ _, spt p) (with_spt t) c.

Definition spt_find_page (t v : Z) : ST vm Z :=
  s ← get_st;
  let m := with_lookup (pg_round_down v) (objs s) in
  e ← on_spt t (hash_find (my_hash m) (my_less m) LOOKUP);
  if negb (e =? 0) then x ← get_entry e; mret (e_page x) else mret 0.

Definition spt_insert_page (t p : Z) : ST vm bool :=
  if p =? 0 then mret false else
  entry ← new_obj (OEntry (Entry 0 0));
  if entry =? 0 then mret false else
  x ← get_page p;
  _ ← set_obj entry (OEntry (Entry (va x) p));
  s ← get_st;
  old ← on_spt t (hash_insert (my_hash (objs s)) (my_less (objs s)) entry);
  if negb (old =? 0) then _ ← free_obj entry; mret false
  else mret true.

Definition supplemental_page_table_init (t : Z) (junk : list (list Z)) : ST vm unit :=
  _ ← on_spt t (hash_init junk); mret tt.

(** uninit_new *)
Definition uninit_new (p v : Z) (init : vm_initializer) (type aux : Z) (initializer : page_initializer) : ST vm unit :=
  _ ← assert_st (negb (p =? 0));
  set_obj p (OPage (Page uninit_ops v 0 false (Uninit init type aux initializer))).

Definition initializer_of (type : Z) : option page_initializer :=
  if VM_TYPE type =? VM_ANON then Some init_anon
  else if (VM_TYPE type =? VM_MMAP) || (VM_TYPE type =? VM_FILE) then Some init_file
  else None.

Definition blank_page : page := Page uninit_ops 0 0 false (Uninit no_init 0 0 init_anon).

Definition vm_alloc_page_with_initializer (type upage : Z) (w : bool) (init : vm_initializer) (aux : Z) : ST vm bool :=
  _ ← assert_st (negb (VM_TYPE type =? VM_UNINIT));
  s ← get_st;
  found ← spt_find_page (cur s) upage;
  if negb (found =? 0) then mret false else
  p ← new_obj (OPage blank_page);
  if p =? 0 then mret false else
  match initializer_of type with
  | None => _ ← free_obj p; mret false
  | Some initializer =>
      _ ← uninit_new p upage init type aux initializer;
      _ ← upd_page p (set_writable w);
      ok ← spt_insert_page (cur s) p;
      if negb ok then _ ← free_obj p; mret false
      else mret true
  end.
Definition vm_alloc_page (type upage : Z) (w : bool) : ST vm bool :=
  vm_alloc_page_with_initializer type upage w no_init 0.

Definition page_get_type (p : Z) : ST vm Z :=
  x ← get_page p;
  let ty := VM_TYPE (ops_type (operations x)) in
  if ty =? VM_UNINIT then
    match data x with Uninit _ type _ _ => mret (VM_TYPE type) | _ => undef end
  else mret ty.

(** ** Anonymous pages (vm/anon.c) *)

Definition anon_initializer (p type k : Z) : ST vm bool :=
  if p =? 0 then mret false else
  _ ← upd_page p (set_data anon_ops (Anon (-1)));
  x ← get_page p;
  _ ← (if negb (k =? 0) then
         f ← get_frame (frame_of x);
         if ref_cnt f <=? 1 then _ ← on_bytes (memset k 0 PGSIZE); mret tt else mret tt
       else mret tt);
  mret true.

Definition swap_idx_of (x : page) : ST vm Z := match data x with Anon i => mret i | _ => undef end.

(** The transfers of a page: eight sectors. *)
Definition swap_read (idx k : Z) : ST vm unit :=
  for_st (λ i _, bytes ← on_swap_disk (disk_read (u32 (idx * 8 + i)));
                 on_bytes (put_bytes (k + DISK_SECTOR_SIZE * i) bytes)) (seqZ 0 8) tt.
Definition swap_write (idx k : Z) : ST vm unit :=
  for_st (λ i _, bytes ← on_bytes (get_bytes (k + DISK_SECTOR_SIZE * i) DISK_SECTOR_SIZE);
                 on_swap_disk (disk_write (u32 (idx * 8 + i)) bytes)) (seqZ 0 8) tt.

Definition anon_swap_in (p k : Z) : ST vm bool :=
  x ← get_page p;
  swap_idx ← swap_idx_of x;
  if swap_idx <? 0 then mret false else
  _ ← swap_read swap_idx k;
  _ ← on_swap (bitmap_reset swap_idx);
  _ ← upd_page p (set_data (operations x) (Anon (-1)));
  mret true.

(** The end of both swap_out functions: page and frame forget each other. *)
Definition unlink (p : Z) : ST vm unit :=
  x ← get_page p;
  _ ← upd_frame (frame_of x) (set_page_of 0);
  upd_page p (set_frame_of 0).

Definition anon_swap_out (p : Z) : ST vm bool :=
  if p =? 0 then mret false else
  swap_idx ← on_swap (bitmap_scan_and_flip 0 1 false);
  if swap_idx =? BITMAP_ERROR then
    b ← on_swap (bitmap_test swap_idx);
    _ ← assert_st (negb b);
    mret false
  else
    x ← get_page p;
    f ← get_frame (frame_of x);
    _ ← swap_write swap_idx (kva f);
    _ ← unlink p;
    x ← get_page p;
    _ ← upd_page p (set_data (operations x) (Anon (s32 swap_idx)));
    mret true.

Definition anon_destroy (p : Z) : ST vm unit :=
  t ← current;
  x ← get_page p;
  _ ← on_mmu (pml4_clear_page (pml4 t) (va x));
  swap_idx ← swap_idx_of x;
  if swap_idx <? 0 then mret tt else on_swap (bitmap_reset swap_idx).

(** The table of slots; without memory for it the first use of the null pointer
    is undefined, and so is this function. *)
Definition vm_anon_init (block : bool) (junk : option (list Z)) : ST vm unit :=
  s ← get_st;
  r ← lift_out (bitmap_create (disk_size (swap_disk s) / (PGSIZE / DISK_SECTOR_SIZE)) block junk);
  b ← deref r;
  modify (with_swap b).

(** ** File-backed pages (vm/file.c) *)

Definition file_page_of (x : page) : ST vm file_page := match data x with FileData f => mret f | _ => undef end.
Definition aux_of (x : page) : ST vm Z := match data x with Uninit _ _ aux _ => mret aux | _ => undef end.

Definition file_backed_initializer (p type k : Z) : ST vm bool :=
  x ← get_page p;
  aux ← aux_of x;
  mapping_info ← get_mmap aux;
  i ← get_info (mi_info mapping_info);
  _ ← upd_page p (set_data file_ops
        (FileData (FilePage (mi_count mapping_info) (li_file i) (li_offset i) (readbyte i) (zerobyte i))));
  mret true.

(** Part of a file read into a frame, and zeros behind it: the common part of
    file_backed_swap_in and lazy_load_segment. *)
Definition load_bytes (file k size zeros ofs : Z) : ST vm bool :=
  bytes ← on_k (file_read_at file (s32 size) ofs);
  _ ← on_bytes (put_bytes k bytes);
  if negb (zlength bytes =? s32 size) then mret false else
  _ ← on_bytes (memset (k + size) 0 zeros);
  mret true.

Definition file_backed_swap_in (p k : Z) : ST vm bool :=
  x ← get_page p;
  f ← file_page_of x;
  load_bytes (fp_file f) k (read_byte f) (zero_byte f) (fp_offset f).

(** The frame's bytes written back to the file. *)
Definition write_back (x : page) (f : file_page) : ST vm Z :=
  fr ← get_frame (frame_of x);
  bytes ← on_bytes (get_bytes (kva fr) (read_byte f));
  on_k (file_write_at (fp_file f) bytes (s32 (read_byte f)) (fp_offset f)).

Definition file_backed_swap_out (p : Z) : ST vm bool :=
  x ← get_page p;
  f ← file_page_of x;
  curr ← current;
  dirty_bit ← on_mmu (pml4_is_dirty (pml4 curr) (va x));
  ok ← (if (dirty_bit : bool) then
          written ← write_back x f;
          if negb (written =? s32 (read_byte f)) then mret false
          else _ ← on_mmu (pml4_set_dirty (pml4 curr) (va x) false); mret true
        else mret true);
  if negb ok then mret false else
  _ ← unlink p;
  mret true.

Definition file_backed_destroy (p : Z) : ST vm unit :=
  x ← get_page p;
  f ← file_page_of x;
  curr ← current;
  _ ← on_k (file_allow_write (fp_file f));
  dirty ← on_mmu (pml4_is_dirty (pml4 curr) (va x));
  _ ← (if (dirty : bool) then
         written ← write_back x f;
         _ ← assert_st (u64 written =? read_byte f);
         on_mmu (pml4_set_dirty (pml4 curr) (va x) false)
       else mret tt);
  _ ← (if negb (frame_of x =? 0) then
         fr ← get_frame (frame_of x);
         if ref_cnt fr <? 1 then
           _ ← on_ram (palloc_free_page (kva fr));
           _ ← free_obj (frame_of x);
           upd_page p (set_frame_of 0)
         else mret tt
       else mret tt);
  on_mmu (pml4_clear_page (pml4 curr) (va x)).

Definition make_info (file ofs size : Z) : ST vm Z :=
  i ← new_obj (OInfo (Info 0 0 0 0));
  _ ← set_obj i (OInfo (Info file ofs size (u64 (PGSIZE - size))));
  mret i.
Definition make_mmap_info (i mcount : Z) : ST vm Z :=
  m ← new_obj (OMmap (MmapInfo 0 0));
  _ ← set_obj m (OMmap (MmapInfo i mcount));
  mret m.

(** ** The first fault on a page (vm/uninit.c, lazy_load_segment of process.c) *)

Definition lazy_load_segment (p aux : Z) : ST vm bool :=
  lazy_info ← get_info aux;
  x ← get_page p;
  f ← get_frame (frame_of x);
  ok ← load_bytes (li_file lazy_info) (kva f) (readbyte lazy_info) (zerobyte lazy_info) (li_offset lazy_info);
  if negb ok then mret false else
  _ ← free_obj aux;
  mret true.

Definition run_initializer (i : page_initializer) : Z → Z → Z → ST vm bool :=
  match i with init_anon => anon_initializer | init_file => file_backed_initializer end.

Definition uninit_initialize (p k : Z) : ST vm bool :=
  x ← get_page p;
  match data x with
  | Uninit init type aux initializer =>
      aux ← (if (type =? VM_MMAP) || (type =? VM_FILE) then m ← get_mmap aux; mret (mi_info m) else mret aux);
      ok ← run_initializer initializer p type k;
      if negb ok then mret false else
      match init with no_init => mret true | lazy_load => lazy_load_segment p aux end
  | _ => undef
  end.
Definition uninit_destroy (p : Z) : ST vm unit :=
  x ← get_page p; aux ← aux_of x; free_obj aux.

(** ** The operations of a page, by its table *)

Definition swap_in (p k : Z) : ST vm bool :=
  x ← get_page p;
  match operations x with
  | uninit_ops => uninit_initialize p k | anon_ops => anon_swap_in p k | file_ops => file_backed_swap_in p k
  end.
(** uninit.c has a null pointer for swap_out. *)
Definition swap_out (p : Z) : ST vm bool :=
  x ← get_page p;
  match operations x with
  | uninit_ops => undef | anon_ops => anon_swap_out p | file_ops => file_backed_swap_out p
  end.
Definition destroy (p : Z) : ST vm unit :=
  x ← get_page p;
  match operations x with
  | uninit_ops => uninit_destroy p | anon_ops => anon_destroy p | file_ops => file_backed_destroy p
  end.

(** ** Frames and eviction *)

Definition frame_table_insert (f : Z) : ST vm unit := modify (λ s, with_frames (frame_table s ++ [f]) s).
Definition frame_table_remove : ST vm Z :=
  s ← get_st;
  match frame_table s with
  | [] => mret 0
  | f :: l => _ ← modify (with_frames l); mret f
  end.

(** list_begin, and list_next of an element of the list. *)
Definition frames_begin (l : list Z) : Z := default TAIL (head l).
Fixpoint frames_next (l : list Z) (e : Z) : option Z :=
  match l with
  | [] => None
  | f :: l => if f =? e then Some (frames_begin l) else frames_next l e
  end.

(** One turn of the clock. *)
Definition victim_step (clock_now : Z) : ST vm (Z + Z) :=
  victim ← get_frame clock_now;
  x ← get_page (page_of victim);
  t ← current;
  success ← on_mmu (pml4_is_accessed (pml4 t) (va x));
  s ← get_st;
  next ← deref (frames_next (frame_table s) clock_now);
  if negb success then _ ← modify (with_clock next); mret (inr clock_now)
  else
    _ ← on_mmu (pml4_set_accessed (pml4 t) (va x) false);
    let clock_now := if next =? TAIL then frames_begin (frame_table s) else next in
    if negb (clock_now =? clock_start s) then mret (inl clock_now)
    else
      next ← deref (frames_next (frame_table s) clock_now);
      _ ← modify (with_clock next);
      mret (inr clock_now).

(** [victim] is the value of the local variable of that name, which the function
    asserts not to be null before it is set. *)
Definition vm_get_victim (victim : Z) : ST vm Z :=
  _ ← assert_st (negb (victim =? 0));
  s ← get_st;
  let start := if (clock_start s =? 0) || (clock_start s =? TAIL) then frames_begin (frame_table s)
               else clock_start s in
  _ ← modify (with_clock start);
  loop (S (length (frame_table s))) victim_step start.

(** list_remove of an element of the frame table *)
Definition frames_delete (f : Z) : ST vm unit :=
  s ← get_st;
  if bool_decide (f ∈ frame_table s) then modify (with_frames (filter (λ g, g ≠ f) (frame_table s))) else undef.

Section faults.
(** What the uninitialised variable of vm_get_victim holds. *)
Context (junk : Z).

Definition vm_evict_frame : ST vm Z :=
  victim ← vm_get_victim junk;
  if victim =? 0 then mret 0 else
  v ← get_frame victim;
  let victim_page := page_of v in
  if victim_page =? 0 then mret 0 else
  ok ← swap_out victim_page;
  if negb ok then mret 0 else
  t ← current;
  x ← get_page victim_page;
  _ ← on_mmu (pml4_clear_page (pml4 t) (va x));
  _ ← frames_delete victim;
  mret victim.

Definition vm_get_frame : ST vm Z :=
  f ← new_obj (OFrame (Frame 0 0 0));
  _ ← assert_st (negb (f =? 0));
  k ← on_ram (palloc_get_page (Z.lor PAL_USER PAL_ZERO));
  k ← (if k =? 0 then
         victim1 ← vm_evict_frame;
         _ ← assert_st (negb (victim1 =? 0));
         v ← get_frame victim1;
         _ ← free_obj victim1;
         mret (kva v)
       else mret k);
  _ ← set_obj f (OFrame (Frame k 1 0));
  _ ← frame_table_insert f;
  mret f.

(** A page that is in the table is given a frame. *)
Definition vm_do_claim_page (p : Z) : ST vm bool :=
  f ← vm_get_frame;
  _ ← upd_frame f (set_page_of p);
  _ ← upd_page p (set_frame_of f);
  t ← current;
  x ← get_page p;
  fr ← get_frame f;
  ok ← on_mmu (pml4_set_page (pml4 t) (va x) (kva fr) (writable x));
  if negb ok then mret false else
  swap_in p (kva fr).

Definition vm_claim_page (v : Z) : ST vm bool :=
  s ← get_st;
  p ← spt_find_page (cur s) v;
  if p =? 0 then mret false else vm_do_claim_page p.

Definition vm_stack_growth (addr : Z) : ST vm unit :=
  _ ← vm_alloc_page VM_ANON addr true;
  _ ← vm_claim_page addr;
  mret tt.

Definition vm_handle_wp (p : Z) : ST vm bool :=
  if p =? 0 then mret false else
  x ← get_page p;
  copy_frame ← get_frame (frame_of x);
  t ← current;
  if 1 <? ref_cnt copy_frame then
    f ← vm_get_frame;
    _ ← upd_page p (set_frame_of f);
    fr ← get_frame f;
    _ ← on_bytes (memcpy (kva fr) (kva copy_frame) PGSIZE);
    _ ← upd_frame (frame_of x) (λ fr, set_ref_cnt (ref_cnt fr - 1) fr);
    on_mmu (pml4_set_page (pml4 t) (va x) (kva fr) true)
  else
    _ ← upd_frame (frame_of x) (set_page_of p);
    on_mmu (pml4_set_page (pml4 t) (va x) (kva copy_frame) true).

(** A fault on the stack: not far below the stack pointer, and in the first MB. *)
Definition stack_fault (rsp addr : Z) : bool :=
  (u64 (rsp - STACK_GROW_RANGE) <=? addr) && (addr <? USER_STACK) && (USER_STACK - 2 ^ 20 <=? addr).

Definition vm_try_handle_fault (addr : Z) (user write not_present : bool) : ST vm bool :=
  let addr := pg_round_down addr in
  t ← current;
  let rsp := user_rsp t in
  s ← get_st;
  p ← spt_find_page (cur s) addr;
  if (p =? 0) && stack_fault rsp addr then _ ← vm_stack_growth addr; mret true else
  if p =? 0 then mret false else
  x ← get_page p;
  if write && negb (writable x) then mret false else
  if write && writable x && negb (frame_of x =? 0) then vm_handle_wp p else
  vm_do_claim_page p.

(** ** The end of pages *)

Definition vm_dealloc_page (p : Z) : ST vm unit :=
  x ← get_page p;
  _ ← (if negb (frame_of x =? 0) then upd_frame (frame_of x) (λ f, set_ref_cnt (ref_cnt f - 1) f) else mret tt);
  _ ← destroy p;
  free_obj p.

Definition spt_remove_page (t p : Z) : ST vm unit :=
  x ← get_page p;
  s ← get_st;
  let m := <[LOOKUP := OEntry (Entry (va x) 0)]> (objs s) in
  e ← on_spt t (hash_delete (my_hash m) (my_less m) LOOKUP);
  if e =? 0 then mret tt else
  curr ← current;
  _ ← on_mmu (pml4_clear_page (pml4 curr) (va x));
  _ ← vm_dealloc_page p;
  free_obj e.

Definition hash_spt_entry_kill (e : Z) : ST vm unit :=
  entry ← get_entry e;
  _ ← vm_dealloc_page (e_page entry);
  free_obj e.
(** hash_clear calls the destructor while it takes the elements out of their
    buckets, which the destructor does not look at. *)
Definition supplemental_page_table_kill : ST vm unit :=
  s ← get_st;
  dead ← on_spt (cur s) (hash_clear true);
  for_st (λ e _, hash_spt_entry_kill e) dead tt.

(** ** fork *)

Definition vm_copy_claim_page (v parent : Z) : ST vm bool :=
  s ← get_st;
  p ← spt_find_page (cur s) v;
  if p =? 0 then mret false else
  px ← get_page parent;
  _ ← upd_frame (frame_of px) (λ f, set_ref_cnt (ref_cnt f + 1) f);
  f ← get_frame (frame_of px);
  if ref_cnt f =? 1 then mret true else
  _ ← upd_page p (set_frame_of (frame_of px));
  t ← current;
  x ← get_page p;
  ok ← on_mmu (pml4_set_page (pml4 t) (va x) (kva f) false);
  if negb ok then mret false else
  swap_in p (kva f).

Definition copy_info (i : Z) : ST vm Z :=
  src_info ← get_info i;
  dst_info ← new_obj (OInfo (Info 0 0 0 0));
  file ← on_k (file_reopen (li_file src_info));
  _ ← set_obj dst_info (OInfo (Info file (li_offset src_info) (readbyte src_info) (zerobyte src_info)));
  mret dst_info.
(** The source reads both infos before it allocates, and allocates the outer one
    first. *)
Definition duplicate_aux (src_page : Z) : ST vm Z :=
  x ← get_page src_page;
  match data x with
  | Uninit _ type aux _ =>
      if type =? VM_MMAP then
        src_mmap_info ← get_mmap aux;
        _ ← get_info (mi_info src_mmap_info);
        dst_mmap_info ← new_obj (OMmap (MmapInfo 0 0));
        dst_info ← copy_info (mi_info src_mmap_info);
        _ ← set_obj dst_mmap_info (OMmap (MmapInfo dst_info (mi_count src_mmap_info)));
        mret dst_mmap_info
      else copy_info aux
  | _ => undef
  end.

(** One page of the parent; false ends the copy. *)
Definition copy_page (dst e : Z) : ST vm bool :=
  src_entry ← get_entry e;
  let src := e_page src_entry in
  src_page ← get_page src;
  let upage := va src_page in
  match operations src_page with
  | uninit_ops =>
      match data src_page with
      | Uninit init _ _ _ =>
          aux ← duplicate_aux src;
          _ ← vm_alloc_page_with_initializer VM_ANON upage (writable src_page) init aux;
          mret true
      | _ => undef
      end
  | file_ops =>
      src_info ← file_page_of src_page;
      file ← on_k (file_reopen (fp_file src_info));
      i ← make_info file (fp_offset src_info) (read_byte src_info);
      aux ← make_mmap_info i (mapping_count src_info);
      ok ← vm_alloc_page_with_initializer VM_FILE upage (writable src_page) lazy_load aux;
      if negb ok then mret false else
      vm_copy_claim_page upage src
  | anon_ops =>
      ok ← vm_alloc_page_with_initializer VM_ANON upage (writable src_page) no_init 0;
      if negb ok then mret false else
      ok ← vm_copy_claim_page upage src;
      if negb ok then mret false else
      dst_page ← spt_find_page dst upage;
      dx ← get_page dst_page;
      df ← get_frame (frame_of dx);
      sx ← get_page src;
      sf ← get_frame (frame_of sx);
      _ ← on_bytes (memcpy (kva df) (kva sf) PGSIZE);
      mret true
  end.

Definition copy_step (dst src : Z) (i : hash_iterator) : ST vm (hash_iterator + bool) :=
  i ← on_spt src (hash_next i);
  s ← get_st;
  p ← deref (procs s !! src);
  let e := hash_cur (spt p) i in
  if e =? 0 then mret (inr true) else
  ok ← copy_page dst e;
  if (ok : bool) then mret (inl i) else mret (inr false).

(** The table of the parent is [src]; the child, [dst], is the current thread. *)
Definition supplemental_page_table_copy (dst src : Z) : ST vm bool :=
  i ← on_spt src hash_first;
  s ← get_st;
  p ← deref (procs s !! src);
  loop (S (length (concat (buckets (spt p))))) (copy_step dst src) i.

(** ** mmap and munmap *)

(** The loop over the pages of a mapping. *)
Definition mmap_step (w : bool) (reopen_file : Z) (st : Z * Z * Z * Z) : ST vm (Z * Z * Z * Z + unit) :=
  let '(remain_length, cur_addr, cur_offset, mcount) := st in
  if negb (0 <? remain_length) then mret (inr tt) else
  let allocate_length := if PGSIZE <? remain_length then PGSIZE else remain_length in
  i ← make_info reopen_file cur_offset allocate_length;
  aux ← make_mmap_info i mcount;
  _ ← vm_alloc_page_with_initializer VM_MMAP cur_addr w lazy_load aux;
  if remain_length <? PGSIZE then mret (inr tt) else
  cur_offset ← int_ok (cur_offset + PGSIZE);
  mret (inl (remain_length - PGSIZE, u64 (cur_addr + PGSIZE), cur_offset, mcount + 1)).

(** The mapping covers the rest of the file, whatever [length] is. *)
Definition do_mmap (addr length : Z) (w : bool) (file ofs : Z) : ST vm unit :=
  file_size ← on_k (file_length file);
  read_size ← int_ok (file_size - ofs);
  let read_size := if read_size <? 0 then 0 else read_size in
  reopen_file ← on_k (file_reopen file);
  loop (S (Z.to_nat (DIV_ROUND_UP read_size PGSIZE))) (mmap_step w reopen_file) (read_size, addr, ofs, 0).

(** What the union holds when it is read as a file page: its last member may be
    another one. *)
Context (as_file : page_data → file_page).

Definition is_my_mmap (addr mmap_file mmap_count : Z) : ST vm bool :=
  s ← get_st;
  find_page ← spt_find_page (cur s) addr;
  if find_page =? 0 then mret false else
  x ← get_page find_page;
  let f := as_file (data x) in
  if (fp_file f =? 0) || negb (fp_file f =? mmap_file) then mret false else
  if negb (mapping_count f =? mmap_count) then mret false else
  mret true.

Definition munmap_step (target_file : Z) (st : Z * Z) : ST vm (Z * Z + unit) :=
  let '(addr, mmap_count) := st in
  mmap_count ← int_ok (mmap_count + 1);
  mine ← is_my_mmap addr target_file mmap_count;
  if negb mine then mret (inr tt) else
  s ← get_st;
  remove_page ← spt_find_page (cur s) addr;
  _ ← spt_remove_page (cur s) remove_page;
  mret (inl (u64 (addr + PGSIZE), mmap_count)).

Definition do_munmap (addr : Z) : ST vm unit :=
  s ← get_st;
  target_page ← spt_find_page (cur s) addr;
  if target_page =? 0 then mret tt else
  x ← get_page target_page;
  let f := as_file (data x) in
  t ← current;
  _ ← loop (S (length (concat (buckets (spt t))))) (munmap_step (fp_file f))
        (u64 (addr + PGSIZE), mapping_count f);
  spt_remove_page (cur s) target_page.
End faults.
