(* ===== verification/VmSpt.v ===== *)
(** * The supplemental page table as a map

    The hash table of a process holds entries whose keys are the addresses of
    their pages; spt_find_page, spt_insert_page and the deletion in
    spt_remove_page are the operations of a map from addresses to pages. *)
From stdpp Require Import base numbers list gmap.
From Stdlib Require Import ZArith Lia.
From S2P Require Import Prelude Bytes ListSort Hash Palloc Mmu Vm.
Open Scope Z_scope.

(** ** The hash functions *)

(** my_less on elements that are not null. *)
Definition key_less (m : gmap Z obj) (a b : Z) : bool := va_of m a <? va_of m b.

Lemma fnv_range l x : 0 <= x < 2 ^ 64 → Forall is_byte l → 0 <= foldl fnv_step x l < 2 ^ 64.
Proof.
  revert x. induction l as [|b l IH]; intros x Hx Hl; [done|]. apply Forall_cons in Hl as [Hb Hl]. simpl. apply IH; [|done].
  unfold fnv_step, is_byte in *. pose proof (u64_range (x * FNV_64_PRIME)) as Hu.
  set (y := u64 (x * FNV_64_PRIME)) in *. assert (H0 : 0 <= Z.lxor y b) by (apply Z.lxor_nonneg; lia).
  split; [done|]. destruct (decide (Z.lxor y b = 0)) as [->|Hne]; [done|].
  apply Z.log2_lt_pow2; [lia|]. eapply Z.le_lt_trans; [apply Z.log2_lxor; lia|].
  assert (Hlog : ∀ z, 0 <= z < 2 ^ 64 → Z.log2 z < 64).
  { intros z Hz. destruct (decide (z = 0)) as [->|]; [done|]. apply Z.log2_lt_pow2; lia. }
  apply Z.max_lub_lt; apply Hlog; lia.
Qed.
Lemma hash_int_range i : 0 <= hash_int i < 2 ^ 64.
Proof. apply fnv_range; [done|]. apply le_bytes_byte. Qed.

#[export] Instance key_order m : WeakOrder (key_less m).
Proof. split; unfold key_less; intros *; rewrite ?Z.ltb_lt, ?Z.ltb_ge; lia. Qed.
Lemma key_equiv m x y : equiv (key_less m) x y ↔ va_of m x = va_of m y.
Proof. unfold equiv, key_less. rewrite !Z.ltb_ge. lia. Qed.
#[export] Instance key_hash_ok m : HashOk (my_hash m) (key_less m).
Proof.
  split; [apply _| |].
  - intros x y He%key_equiv. unfold my_hash. by rewrite He.
  - intros x. apply hash_int_range.
Qed.

(** The comparison with null pointers does not matter in a table without them. *)
Lemma find_in_less m b e : e ≠ 0 → 0 ∉ b → find_in (my_less m) b e = find_in (key_less m) b e.
Proof.
  intros He. induction b as [|x b IH]; intros H0; [done|]. apply not_elem_of_cons in H0 as [Hx Hb].
  simpl. rewrite IH by done. unfold my_less, key_less.
  by rewrite (proj2 (Z.eqb_neq x 0)), (proj2 (Z.eqb_neq e 0)) by done.
Qed.
Lemma find_elem_less m h i e : e ≠ 0 → 0 ∉ elems h →
  find_elem (my_less m) i e h = find_elem (key_less m) i e h.
Proof.
  intros He H0. unfold find_elem, get_st, deref, mbind, st_bind. destruct (zlookup (buckets h) i) as [b|] eqn:Hb; [|done].
  unfold mret, st_ret. rewrite find_in_less; [done|done|]. intros Hin. apply H0, elem_of_concat.
  exists (Z.to_nat i), b. split; [|done]. unfold zlookup in Hb. by destruct (0 <=? i).
Qed.
Lemma find_less m h e : e ≠ 0 → 0 ∉ elems h →
  hash_find (my_hash m) (my_less m) e h = hash_find (my_hash m) (key_less m) e h.
Proof. intros He H0. apply find_elem_less; done. Qed.
Lemma insert_less m h e : e ≠ 0 → 0 ∉ elems h →
  hash_insert (my_hash m) (my_less m) e h = hash_insert (my_hash m) (key_less m) e h.
Proof.
  intros He H0. unfold hash_insert, find_bucket, get_st, mbind, st_bind, mret, st_ret. by rewrite find_elem_less.
Qed.
Lemma delete_less m h e : e ≠ 0 → 0 ∉ elems h →
  hash_delete (my_hash m) (my_less m) e h = hash_delete (my_hash m) (key_less m) e h.
Proof.
  intros He H0. unfold hash_delete, find_bucket, get_st, mbind, st_bind, mret, st_ret. by rewrite find_elem_less.
Qed.

(** The table does not depend on the keys of other objects. *)
Lemma wf_hash_keys m m' h : (∀ e, e ∈ elems h → va_of m' e = va_of m e) →
  wf_hash (my_hash m) (key_less m) h → wf_hash (my_hash m') (key_less m') h.
Proof.
  intros Hk [[Hp Hl Hpl] Hc Hn Hkeys H0 Hs]. split; [split|..]; try done.
  - intros i b e Hb He. rewrite (Hpl i b e Hb He). unfold index, my_hash. rewrite Hk; [done|].
    apply elem_of_concat. exists (Z.to_nat i), b. unfold zlookup in Hb. by destruct (0 <=? i).
  - intros x y Hx Hy Hxy%key_equiv. apply Hkeys; [done|done|]. apply key_equiv. by rewrite <- !Hk.
Qed.

(** ** The map *)

(** The page of [v] in the table of the process [t]. *)
Definition maps (s : vm) (t v p : Z) : Prop :=
  ∃ pr e x, procs s !! t = Some pr ∧ e ∈ elems (spt pr) ∧ objs s !! e = Some (OEntry x) ∧ e_va x = v ∧ e_page x = p.

(** Entries and their pages exist and agree on the address. *)
Record wf_spt (s : vm) (t : Z) (pr : proc) : Prop := {
  sp_proc : procs s !! t = Some pr;
  sp_hash : wf_hash (my_hash (objs s)) (key_less (objs s)) (spt pr);
  sp_entry : ∀ e, e ∈ elems (spt pr) → ∃ x p, objs s !! e = Some (OEntry x) ∧
    objs s !! e_page x = Some (OPage p) ∧ va p = e_va x;
  sp_room : zlength (elems (spt pr)) + 1 < 2 ^ 62;
}.
(** Addresses of objects are positive, and [next_obj] is above them. *)
Definition wf_objs (s : vm) : Prop := 0 < next_obj s ∧ ∀ p, is_Some (objs s !! p) → 0 < p < next_obj s.

Section spt.
Implicit Types (s : vm) (t v p e : Z) (pr : proc).

Lemma va_of_lookup v m e : e ≠ LOOKUP → va_of (with_lookup v m) e = va_of m e.
Proof. intros He. unfold va_of, with_lookup. by rewrite lookup_insert_ne. Qed.
Lemma va_of_LOOKUP v m : va_of (with_lookup v m) LOOKUP = v.
Proof. unfold va_of, with_lookup. by rewrite lookup_insert_eq. Qed.
Lemma va_of_entry m e x : m !! e = Some (OEntry x) → va_of m e = e_va x.
Proof. unfold va_of. by intros ->. Qed.

Lemma entry_not_lookup s t pr e : wf_objs s → wf_spt s t pr → e ∈ elems (spt pr) → e ≠ LOOKUP ∧ e ≠ 0.
Proof.
  intros [_ Ho] Hw He. destruct (sp_entry _ _ _ Hw e He) as (x & p & Hx & _). destruct (Ho e) as [? _]; [by rewrite Hx|].
  unfold LOOKUP. lia.
Qed.
Lemma lookup_hash s t pr v : wf_objs s → wf_spt s t pr →
  wf_hash (my_hash (with_lookup v (objs s))) (key_less (with_lookup v (objs s))) (spt pr).
Proof.
  intros Ho Hw. apply (wf_hash_keys (objs s)); [|apply Hw]. intros e He. apply va_of_lookup.
  by apply (entry_not_lookup s t pr).
Qed.
Lemma no_null s t pr : wf_spt s t pr → 0 ∉ elems (spt pr).
Proof. intros Hw. apply (wh_null _ _ _ (sp_hash _ _ _ Hw)). Qed.

Lemma wp_on_spt {A} s t pr (c : ST hash A) (Q : A → vm → Prop) :
  procs s !! t = Some pr → wp c (spt pr) (λ r h, Q r (with_spt t h s)) → wp (on_spt t c) s Q.
Proof. intros Hp Hc. unfold on_spt. wp_pure. wp_step; [exact Hp|]. by wp_pure. Qed.
Lemma with_spt_same s t pr : procs s !! t = Some pr → with_spt t (spt pr) s = s.
Proof.
  intros Hp. unfold with_spt, with_procs. rewrite alter_id; [by destruct s|]. intros q Hq. rewrite Hp in Hq.
  injection Hq as <-. by destruct pr.
Qed.

(** Looking up changes nothing. *)
Lemma spt_find_wp s t pr v (Q : Z → vm → Prop) :
  wf_objs s → wf_spt s t pr →
  (∀ p, p ≠ 0 → maps s t (pg_round_down v) p → (∃ x, objs s !! p = Some (OPage x) ∧ va x = pg_round_down v) → Q p s) →
  ((∀ p, ¬ maps s t (pg_round_down v) p) → Q 0 s) → wp (spt_find_page t v) s Q.
Proof.
  intros Ho Hw Hyes Hno. pose proof (sp_proc _ _ _ Hw) as Hpr. pose proof (lookup_hash s t pr (pg_round_down v) Ho Hw) as Hh.
  unfold spt_find_page. wp_pure. apply (wp_on_spt s t pr); [done|].
  assert (Hwp := hash_find_wp _ _ (spt pr) LOOKUP Hh).
  apply wp_run in Hwp as (r & h' & Hrun & -> & Hf).
  eapply wp_eq; [rewrite find_less; [exact Hrun|done|by apply (no_null s t)]|].
  rewrite with_spt_same by done. destruct Hf as [(Hr & Hin & He)|(-> & Hn)].
  - rewrite (proj2 (Z.eqb_neq r 0)) by done. simpl. destruct (entry_not_lookup s t pr r Ho Hw Hin) as [Hrl _].
    apply key_equiv in He. rewrite va_of_LOOKUP, va_of_lookup in He by done.
    destruct (sp_entry _ _ _ Hw r Hin) as (x & p & Hx & Hp & Hva). rewrite (va_of_entry _ _ _ Hx) in He.
    unfold get_entry, get_obj. wp_pure. wp_step; [rewrite Hx; done|]. wp_pure. apply Hyes.
    + destruct (proj2 Ho (e_page x)) as [? _]; [by rewrite Hp|lia].
    + exists pr, r, x. done.
    + exists p. by rewrite Hva.
  - simpl. wp_pure. apply Hno. intros p (pr' & e & x & Hpr' & He & Hx & Hva & _).
    assert (pr' = pr) as -> by congruence. apply (Hn e He). apply key_equiv.
    destruct (entry_not_lookup s t pr e Ho Hw He) as [Hel _]. rewrite va_of_LOOKUP, va_of_lookup by done.
    by rewrite (va_of_entry _ _ _ Hx).
Qed.

(** Each address has one page. *)
Lemma maps_inj s t pr v p q : wf_spt s t pr → maps s t v p → maps s t v q → p = q.
Proof.
  intros Hw (pr1 & e & x & H1 & He & Hx & Hv & <-) (pr2 & e' & x' & H2 & He' & Hx' & Hv' & <-).
  pose proof (sp_proc _ _ _ Hw) as Hpr. assert (pr1 = pr) as -> by congruence. assert (pr2 = pr) as -> by congruence.
  assert (e = e') as ->; [|by rewrite Hx in Hx'; injection Hx' as ->].
  apply (wh_keys _ _ _ (sp_hash _ _ _ Hw)); [done|done|]. apply key_equiv.
  by rewrite (va_of_entry _ _ _ Hx), (va_of_entry _ _ _ Hx'), Hv, Hv'.
Qed.

(** *** Changes of the table *)

(** New objects, and new elements in the table of [t]: what spt_insert_page
    changes. *)
Definition grown_objs s (o : gmap Z obj) (n : Z) : vm :=
  Vm (v_mmu s) (v_k s) o n (malloc_ok s) (frame_table s) (clock_start s) (swap_table s) (swap_disk s) (procs s) (cur s).

Lemma wp_new_obj s o (Q : Z → vm → Prop) : malloc_ok s = [] →
  Q (next_obj s) (grown_objs s (<[next_obj s := o]> (objs s)) (next_obj s + 1)) → wp (new_obj o) s Q.
Proof. intros Hm HQ. unfold wp, new_obj. rewrite Hm. unfold grown_objs in HQ. by rewrite Hm in HQ. Qed.
Lemma wp_set_obj s p o (Q : unit → vm → Prop) : is_Some (objs s !! p) →
  Q tt (with_objs (<[p := o]> (objs s)) s) → wp (set_obj p o) s Q.
Proof. intros [x Hx] HQ. unfold set_obj. wp_pure. wp_step; [exact Hx|]. by wp_pure. Qed.
Lemma wp_get_page s p x (Q : page → vm → Prop) : objs s !! p = Some (OPage x) → Q x s → wp (get_page p) s Q.
Proof. intros Hp HQ. unfold get_page, get_obj. wp_pure. wp_step; [rewrite Hp; done|done]. Qed.
Lemma wp_get_frame s p x (Q : frame → vm → Prop) : objs s !! p = Some (OFrame x) → Q x s → wp (get_frame p) s Q.
Proof. intros Hp HQ. unfold get_frame, get_obj. wp_pure. wp_step; [rewrite Hp; done|done]. Qed.
Lemma wp_get_info s p x (Q : lazy_load_info → vm → Prop) : objs s !! p = Some (OInfo x) → Q x s → wp (get_info p) s Q.
Proof. intros Hp HQ. unfold get_info, get_obj. wp_pure. wp_step; [rewrite Hp; done|done]. Qed.
Lemma wp_get_mmap s p x (Q : mmap_info → vm → Prop) : objs s !! p = Some (OMmap x) → Q x s → wp (get_mmap p) s Q.
Proof. intros Hp HQ. unfold get_mmap, get_obj. wp_pure. wp_step; [rewrite Hp; done|done]. Qed.
Lemma wp_upd_page s p x g (Q : unit → vm → Prop) : objs s !! p = Some (OPage x) →
  Q tt (with_objs (<[p := OPage (g x)]> (objs s)) s) → wp (upd_page p g) s Q.
Proof. intros Hp HQ. unfold upd_page. wp_pure. apply (wp_get_page _ _ x); [done|]. apply wp_set_obj; [by rewrite Hp|done]. Qed.
Lemma wp_upd_frame s p x g (Q : unit → vm → Prop) : objs s !! p = Some (OFrame x) →
  Q tt (with_objs (<[p := OFrame (g x)]> (objs s)) s) → wp (upd_frame p g) s Q.
Proof. intros Hp HQ. unfold upd_frame. wp_pure. apply (wp_get_frame _ _ x); [done|]. apply wp_set_obj; [by rewrite Hp|done]. Qed.
Lemma wp_this_proc s pr (Q : proc → vm → Prop) : procs s !! cur s = Some pr → Q pr s → wp current s Q.
Proof. intros Hp HQ. unfold current. wp_pure. wp_step; [exact Hp|done]. Qed.

Lemma fresh_obj s : wf_objs s → objs s !! next_obj s = None.
Proof. intros [_ Ho]. destruct (objs s !! next_obj s) as [o|] eqn:He; [|done]. destruct (Ho (next_obj s)) as [_ ?]; [by rewrite He|lia]. Qed.

(** The state after [p] has been entered for its address in the table of [t]:
    [e] is the new entry, [h] the table. *)
Definition entered s t (v p : Z) (h : hash) : vm :=
  with_spt t h (grown_objs s (<[next_obj s := OEntry (Entry v p)]> (objs s)) (next_obj s + 1)).

Lemma entered_objs s t v p h : objs (entered s t v p h) = <[next_obj s := OEntry (Entry v p)]> (objs s).
Proof. done. Qed.
Lemma entered_proc s t v p h t' : procs (entered s t v p h) !! t' =
  if decide (t' = t) then (λ pr, Proc (pml4 pr) h (user_rsp pr)) <$> procs s !! t' else procs s !! t'.
Proof.
  unfold entered, with_spt, with_procs. simpl. destruct (decide (t' = t)) as [->|Hne]; [by rewrite lookup_alter_eq|].
  by rewrite lookup_alter_ne.
Qed.

Lemma spt_insert_wp s t pr p x (Q : bool → vm → Prop) :
  wf_objs s → wf_spt s t pr → malloc_ok s = [] → objs s !! p = Some (OPage x) → (∀ q, ¬ maps s t (va x) q) →
  (∀ h, elems h ≡ₚ next_obj s :: elems (spt pr) →
     wf_hash (my_hash (objs (entered s t (va x) p h))) (key_less (objs (entered s t (va x) p h))) h →
     Q true (entered s t (va x) p h)) →
  wp (spt_insert_page t p) s Q.
Proof.
  intros Ho Hw Hm Hp Hno HQ. pose proof (sp_proc _ _ _ Hw) as Hpr. pose proof (fresh_obj s Ho) as Hf.
  destruct (proj2 Ho p) as [Hp0 Hpn]; [by rewrite Hp|]. set (e := next_obj s) in *.
  assert (He0 : e ≠ 0) by lia. assert (Hes : e ∉ elems (spt pr)).
  { intros Hin. destruct (sp_entry _ _ _ Hw e Hin) as (y & _ & Hy & _). congruence. }
  unfold spt_insert_page. rewrite (proj2 (Z.eqb_neq p 0)) by lia. wp_pure. apply wp_new_obj; [done|]. fold e.
  rewrite (proj2 (Z.eqb_neq e 0)) by done. wp_pure. apply (wp_get_page _ _ x); [simpl; rewrite lookup_insert_ne by lia; done|]. wp_pure.
  apply wp_set_obj; [simpl; by rewrite lookup_insert_eq|]. simpl. rewrite insert_insert_eq. wp_pure.
  set (m := <[e := OEntry (Entry (va x) p)]> (objs s)).
  match goal with |- wp (on_spt t _) ?z _ => set (s1 := z) end.
  assert (Hk : ∀ y, y ∈ elems (spt pr) → va_of m y = va_of (objs s) y).
  { intros y Hy. unfold va_of, m. rewrite lookup_insert_ne; [done|]. intros <-. done. }
  assert (Hh : wf_hash (my_hash m) (key_less m) (spt pr)) by (apply (wf_hash_keys (objs s)); [exact Hk|apply Hw]).
  apply (wp_on_spt s1 t pr); [exact Hpr|]. change (objs s1) with m.
  destruct (wp_run _ _ _ (hash_insert_wp _ _ (spt pr) e Hh He0 (sp_room _ _ _ Hw))) as (r & h & Hrun & Hwf & Hfound & Hel).
  eapply wp_eq; [rewrite insert_less; [exact Hrun|done|by apply (no_null s t)]|].
  destruct Hfound as [(Hr & Hin & Heq)|(-> & _)].
  - exfalso. apply key_equiv in Heq. rewrite (Hk r Hin) in Heq. unfold va_of at 1 in Heq. unfold m in Heq.
    rewrite lookup_insert_eq in Heq. simpl in Heq. destruct (sp_entry _ _ _ Hw r Hin) as (y & q & Hy & Hq & Hv).
    rewrite (va_of_entry _ _ _ Hy) in Heq. apply (Hno (e_page y)). exists pr, r, y. done.
  - simpl. wp_pure. by apply (HQ h).
Qed.

(** What the new table maps. *)
Lemma entered_maps s t pr v p h t' v' q :
  wf_objs s → wf_spt s t pr → elems h ≡ₚ next_obj s :: elems (spt pr) →
  (∀ t2 pr2, procs s !! t2 = Some pr2 → next_obj s ∉ elems (spt pr2)) →
  maps (entered s t v p h) t' v' q ↔ maps s t' v' q ∨ t' = t ∧ v' = v ∧ q = p.
Proof.
  intros Ho Hw Hel Hfr. pose proof (sp_proc _ _ _ Hw) as Hpr. unfold maps. rewrite entered_objs. setoid_rewrite entered_proc. split.
  - intros (pr' & e & x & Hp & He & Hx & Hv & Hq). destruct (decide (t' = t)) as [->|Hne].
    + rewrite Hpr in Hp. injection Hp as <-. simpl in He. rewrite Hel in He. apply elem_of_cons in He as [->|He].
      * rewrite lookup_insert_eq in Hx. injection Hx as <-. right. done.
      * left. exists pr, e, x. rewrite lookup_insert_ne in Hx; [done|]. intros <-. by apply (Hfr t pr Hpr).
    + left. exists pr', e, x. rewrite lookup_insert_ne in Hx; [done|]. intros <-. by apply (Hfr t' pr' Hp).
  - intros [(pr' & e & x & Hp & He & Hx & Hv & Hq)|(-> & -> & ->)].
    + assert (next_obj s ≠ e) as Hne by (intros <-; by apply (Hfr t' pr' Hp)).
      destruct (decide (t' = t)) as [->|Hnt].
      * assert (pr' = pr) as -> by congruence. eexists _, e, x. rewrite Hpr. split; [done|]. simpl. rewrite Hel.
        split; [by right|]. by rewrite lookup_insert_ne.
      * exists pr', e, x. by rewrite lookup_insert_ne.
    + eexists _, (next_obj s), (Entry v p). rewrite decide_True, Hpr by done. split; [done|]. simpl. rewrite Hel.
      split; [by left|]. by rewrite lookup_insert_eq.
Qed.

Lemma entered_wf s t pr p x h :
  wf_objs s → wf_spt s t pr → objs s !! p = Some (OPage x) → elems h ≡ₚ next_obj s :: elems (spt pr) →
  zlength (elems (spt pr)) + 2 < 2 ^ 62 →
  wf_hash (my_hash (objs (entered s t (va x) p h))) (key_less (objs (entered s t (va x) p h))) h →
  wf_objs (entered s t (va x) p h) ∧ wf_spt (entered s t (va x) p h) t (Proc (pml4 pr) h (user_rsp pr)).
Proof.
  intros Ho Hw Hp Hel Hroom Hh. pose proof (fresh_obj s Ho) as Hf. destruct Ho as [Hn Ho]. split.
  - split; [simpl; lia|]. intros q. rewrite entered_objs, lookup_insert_is_Some. intros [<-|[_ Hq]]; [simpl; lia|].
    specialize (Ho q Hq). simpl. lia.
  - split.
    + rewrite entered_proc, decide_True, (sp_proc _ _ _ Hw) by done. done.
    + done.
    + intros e He. simpl in He. rewrite Hel in He. rewrite entered_objs. apply elem_of_cons in He as [->|He].
      * exists (Entry (va x) p), x. rewrite lookup_insert_eq. split; [done|]. simpl.
        rewrite lookup_insert_ne; [done|]. intros <-. congruence.
      * destruct (sp_entry _ _ _ Hw e He) as (y & q & Hy & Hq & Hv). exists y, q.
        rewrite !lookup_insert_ne; [done|intros He'; rewrite He' in Hf; congruence|intros He'; rewrite He' in Hf; congruence].
    + simpl. apply Permutation_length in Hel. unfold zlength in *. simpl in *. lia.
Qed.

(** *** All tables *)

(** The tables of all processes are well formed and share no page. *)
Record wf_tables s : Prop := {
  wt_objs : wf_objs s;
  wt_spt : ∀ t pr, procs s !! t = Some pr → wf_spt s t pr;
  wt_own : ∀ t1 v1 t2 v2 p, maps s t1 v1 p → maps s t2 v2 p → t1 = t2 ∧ v1 = v2;
}.

Lemma fresh_elem s : wf_tables s → ∀ t pr, procs s !! t = Some pr → next_obj s ∉ elems (spt pr).
Proof.
  intros Hw t pr Hpr Hin. destruct (sp_entry _ _ _ (wt_spt _ Hw t pr Hpr) _ Hin) as (x & _ & Hx & _).
  rewrite (fresh_obj s (wt_objs _ Hw)) in Hx. done.
Qed.
Lemma maps_page s t v p : wf_tables s → maps s t v p → ∃ x, objs s !! p = Some (OPage x) ∧ va x = v.
Proof.
  intros Hw (pr & e & x & Hpr & He & Hx & <- & <-).
  destruct (sp_entry _ _ _ (wt_spt _ Hw t pr Hpr) e He) as (x' & q & Hx' & Hq & Hv).
  rewrite Hx in Hx'. injection Hx' as <-. eauto.
Qed.

(** The tables stay well formed when pages and other objects change, but for the
    addresses of pages. *)
Record same_shape s s' : Prop := {
  ss_procs : procs s' = procs s;
  ss_objs : wf_objs s';
  ss_entry : ∀ e y, objs s !! e = Some (OEntry y) → objs s' !! e = Some (OEntry y);
  ss_page : ∀ p x, objs s !! p = Some (OPage x) → ∃ x', objs s' !! p = Some (OPage x') ∧ va x' = va x;
}.
Lemma same_shape_maps s s' t v p : wf_tables s → same_shape s s' → maps s' t v p ↔ maps s t v p.
Proof.
  intros Hw [Hpr _ He _]. unfold maps. rewrite Hpr. split; intros (pr & e & x & Hp & Hin & Hx & Hr); exists pr, e.
  - destruct (sp_entry _ _ _ (wt_spt _ Hw t pr Hp) e Hin) as (y & _ & Hy & _). exists y.
    apply He in Hy as Hy'. rewrite Hx in Hy'. injection Hy' as ->. done.
  - exists x. split; [done|]. split; [done|]. split; [by apply He|done].
Qed.
Lemma same_shape_wf s s' : wf_tables s → same_shape s s' → wf_tables s'.
Proof.
  intros Hw Hs. pose proof Hs as [Hpr Ho He Hpg]. split; [done| |].
  - intros t pr Hp. rewrite Hpr in Hp. pose proof (wt_spt _ Hw t pr Hp) as [H1 H2 H3 H4]. split; [by rewrite Hpr| | |done].
    + apply (wf_hash_keys (objs s)); [|done]. intros e Hin. destruct (H3 e Hin) as (x & _ & Hx & _).
      by rewrite (va_of_entry _ _ _ Hx), (va_of_entry _ _ _ (He e x Hx)).
    + intros e Hin. destruct (H3 e Hin) as (x & q & Hx & Hq & Hv). destruct (Hpg _ _ Hq) as (q' & Hq' & Hv').
      exists x, q'. split; [by apply He|]. split; [done|congruence].
  - intros t1 v1 t2 v2 p H1 H2. rewrite (same_shape_maps s s') in H1, H2 by done. by apply (wt_own _ Hw t1 v1 t2 v2 p).
Qed.

(** An object that is no entry, at a new address. *)
Lemma add_obj_maps s o t v p : wf_tables s →
  maps (grown_objs s (<[next_obj s := o]> (objs s)) (next_obj s + 1)) t v p ↔ maps s t v p.
Proof.
  intros Hw. unfold maps. simpl. split.
  - intros (pr & e & x & Hpr & He & Hx & Hr). exists pr, e, x. rewrite lookup_insert_ne in Hx; [done|].
    intros <-. by apply (fresh_elem s Hw t pr).
  - intros (pr & e & x & Hpr & He & Hx & Hr). exists pr, e, x. rewrite lookup_insert_ne; [done|].
    intros <-. by apply (fresh_elem s Hw t pr).
Qed.
Lemma add_obj_wf s o : wf_tables s → wf_tables (grown_objs s (<[next_obj s := o]> (objs s)) (next_obj s + 1)).
Proof.
  intros Hw. pose proof (wt_objs _ Hw) as [Hn Ho]. pose proof (fresh_obj s (wt_objs _ Hw)) as Hf.
  assert (Hkeep : ∀ q y, objs s !! q = Some y → <[next_obj s := o]> (objs s) !! q = Some y).
  { intros q y Hq. rewrite lookup_insert_ne; [done|]. intros <-. congruence. }
  split.
  - split; [simpl; lia|]. intros q. simpl. rewrite lookup_insert_is_Some. intros [<-|[_ Hq]]; [lia|]. specialize (Ho q Hq). lia.
  - intros t pr Hpr. pose proof (wt_spt _ Hw t pr Hpr) as [H1 H2 H3 H4]. split; [done| | |done].
    + apply (wf_hash_keys (objs s)); [|done]. intros e He. unfold va_of. simpl. rewrite lookup_insert_ne; [done|].
      intros <-. by apply (fresh_elem s Hw t pr).
    + intros e He. destruct (H3 e He) as (x & q & Hx & Hq & Hv). exists x, q. simpl. eauto.
  - intros t1 v1 t2 v2 p H1 H2. rewrite add_obj_maps in H1, H2 by done. by apply (wt_own _ Hw t1 v1 t2 v2 p).
Qed.

Definition rest_same s s' : Prop :=
  v_mmu s' = v_mmu s ∧ v_k s' = v_k s ∧ malloc_ok s' = malloc_ok s ∧ frame_table s' = frame_table s ∧
  clock_start s' = clock_start s ∧ swap_table s' = swap_table s ∧ swap_disk s' = swap_disk s ∧ cur s' = cur s.
(** The new page of vm_alloc_page_with_initializer. *)
Record allocated s (upage p : Z) (x : page) (s' : vm) : Prop := {
  al_wf : wf_tables s';
  al_fresh : objs s !! p = None ∧ p ≠ 0;
  al_page : objs s' !! p = Some (OPage x);
  al_old : ∀ q y, objs s !! q = Some y → objs s' !! q = Some y;
  al_maps : ∀ t v q, maps s' t v q ↔ maps s t v q ∨ t = cur s ∧ v = upage ∧ q = p;
  al_procs : ∀ t pr, procs s !! t = Some pr → ∃ h, procs s' !! t = Some (Proc (pml4 pr) h (user_rsp pr)) ∧
    zlength (elems h) <= zlength (elems (spt pr)) + 1;
  al_rest : rest_same s s';
}.

Lemma entered_tables s pr p x h : wf_tables s → procs s !! cur s = Some pr → objs s !! p = Some (OPage x) →
  (∀ t v, ¬ maps s t v p) → elems h ≡ₚ next_obj s :: elems (spt pr) → zlength (elems (spt pr)) + 2 < 2 ^ 62 →
  wf_hash (my_hash (objs (entered s (cur s) (va x) p h))) (key_less (objs (entered s (cur s) (va x) p h))) h →
  wf_tables (entered s (cur s) (va x) p h).
Proof.
  intros Hw Hpr Hp Hnp Hel Hroom Hh. pose proof (wt_objs _ Hw) as Ho. pose proof (wt_spt _ Hw _ _ Hpr) as Hs.
  destruct (entered_wf s (cur s) pr p x h Ho Hs Hp Hel Hroom Hh) as [Ho' Hs'].
  assert (Hm : ∀ t v q, maps (entered s (cur s) (va x) p h) t v q ↔ maps s t v q ∨ t = cur s ∧ v = va x ∧ q = p).
  { intros t v q. apply (entered_maps s (cur s) pr); [done|done|done|]. by apply fresh_elem. }
  split; [done| |].
  - intros t pr' Hpr'. rewrite entered_proc in Hpr'. destruct (decide (t = cur s)) as [->|Hne].
    + rewrite Hpr in Hpr'. injection Hpr' as <-. done.
    + pose proof (wt_spt _ (add_obj_wf s (OEntry (Entry (va x) p)) Hw) t pr' Hpr') as [H1 H2 H3 H4].
      split; [by rewrite entered_proc, decide_False|done|done|done].
  - intros t1 v1 t2 v2 q H1 H2. rewrite Hm in H1, H2.
    destruct H1 as [H1|(-> & -> & ->)], H2 as [H2|(-> & -> & ?)]; [by apply (wt_own _ Hw t1 v1 t2 v2 q)|subst q|..|done].
    + by destruct (Hnp t1 v1).
    + by destruct (Hnp t2 v2).
Qed.

Lemma vm_alloc_wp s pr type upage w init aux ini :
  wf_tables s → procs s !! cur s = Some pr → upage mod PGSIZE = 0 → initializer_of type = Some ini →
  VM_TYPE type ≠ VM_UNINIT → malloc_ok s = [] → zlength (elems (spt pr)) + 2 < 2 ^ 62 →
  wp (vm_alloc_page_with_initializer type upage w init aux) s (λ r s',
    r = false ∧ s' = s ∧ (∃ q, maps s (cur s) upage q) ∨
    r = true ∧ (∀ q, ¬ maps s (cur s) upage q) ∧
      allocated s upage (next_obj s) (Page uninit_ops upage 0 w (Uninit init type aux ini)) s').
Proof.
  intros Hw Hpr Hal Hini Hty Hm Hroom. pose proof (wt_objs _ Hw) as Ho. pose proof (fresh_obj s Ho) as Hf.
  unfold vm_alloc_page_with_initializer. wp_pure. wp_step; [by rewrite (proj2 (Z.eqb_neq _ _) Hty)|]. wp_pure.
  assert (Hrd : pg_round_down upage = upage) by (rewrite pg_round_down_sub; lia).
  apply (spt_find_wp s (cur s) pr); [done|by apply (wt_spt _ Hw)| |]; rewrite Hrd.
  { intros q Hq Hmq _. rewrite (proj2 (Z.eqb_neq q 0)) by done. wp_pure. left. eauto. }
  intros Hno. simpl. wp_pure. apply wp_new_obj; [done|]. destruct Ho as [Hn Ho].
  rewrite (proj2 (Z.eqb_neq (next_obj s) 0)) by lia. rewrite Hini. wp_pure. unfold uninit_new. wp_pure.
  wp_step; [by rewrite (proj2 (Z.eqb_neq (next_obj s) 0)) by lia|]. wp_pure.
  apply wp_set_obj; [simpl; by rewrite lookup_insert_eq|]. wp_pure. simpl. rewrite insert_insert_eq.
  eapply wp_upd_page; [simpl; by rewrite lookup_insert_eq|]. wp_pure. unfold set_writable. simpl. rewrite insert_insert_eq.
  set (x := Page uninit_ops upage 0 w (Uninit init type aux ini)).
  change (with_objs (<[next_obj s := OPage x]> (objs s)) _) with (grown_objs s (<[next_obj s := OPage x]> (objs s)) (next_obj s + 1)).
  set (s2 := grown_objs s (<[next_obj s := OPage x]> (objs s)) (next_obj s + 1)).
  pose proof (add_obj_wf s (OPage x) Hw) as Hw2. fold s2 in Hw2.
  assert (Hm2 : ∀ t v q, maps s2 t v q ↔ maps s t v q) by (intros; by apply add_obj_maps).
  assert (Hp2 : objs s2 !! next_obj s = Some (OPage x)) by (by apply lookup_insert_eq).
  apply (spt_insert_wp s2 (cur s) pr (next_obj s) x); [apply Hw2|by apply (wt_spt _ Hw2)|done|done| |].
  { intros q. by rewrite Hm2. }
  intros h Hel Hh. simpl. wp_pure. right. split; [done|]. split; [done|].
  assert (Hnp : ∀ t v, ¬ maps s2 t v (next_obj s)).
  { intros t v. rewrite Hm2. intros (y & Hy & _)%(maps_page s t v _ Hw). congruence. }
  assert (Hkeep : ∀ q y, objs s !! q = Some y → objs (entered s2 (cur s) (va x) (next_obj s) h) !! q = Some y).
  { intros q y Hq. rewrite entered_objs. simpl. destruct (Ho q) as [_ Hlt]; [by rewrite Hq|].
    rewrite !lookup_insert_ne by lia. done. }
  split.
  - exact (entered_tables s2 pr (next_obj s) x h Hw2 Hpr Hp2 Hnp Hel Hroom Hh).
  - split; [done|lia].
  - rewrite entered_objs, lookup_insert_ne by (simpl; lia). done.
  - done.
  - intros t v q. rewrite <- Hm2. apply (entered_maps s2 (cur s) pr); [apply Hw2|by apply (wt_spt _ Hw2)|done|]. by apply fresh_elem.
  - intros t pr' Hpr'. rewrite entered_proc. change (procs s2) with (procs s). rewrite Hpr'. destruct (decide (t = cur s)) as [->|]; simpl.
    + exists h. split; [done|]. assert (pr' = pr) as -> by congruence. apply Permutation_length in Hel. unfold zlength. rewrite Hel. simpl. lia.
    + exists (spt pr'). split; [by destruct pr'|lia].
  - done.
Qed.
End spt.
