(* ===== verification/VmSwap.v ===== *)
(** * Anonymous pages on the swap disk

    A page that is swapped out is found again, byte for byte, whatever other
    pages have gone to the disk and come back in the meantime. *)
From stdpp Require Import base numbers list gmap.
From Stdlib Require Import ZArith Lia.
From S2P Require Import Prelude Bytes Fat Volume CString Bitmap Palloc Words Mmu Vm VmSpt.
Open Scope Z_scope.

Abbreviation vbytes s := (pg_mem (m_ram (v_mmu s))).
(** The bytes of a state, replaced. *)
Definition with_vbytes (m : mem) (s : vm) : vm :=
  with_mmu (Mmu (Ram (kernel_pool (m_ram (v_mmu s))) (user_pool (m_ram (v_mmu s))) m) (base_pml4 (v_mmu s)) (cr3 (v_mmu s))) s.

(** ** Blocks of bytes *)

Section blocks.
Implicit Types (m : mem) (l : list Z) (p n i : Z).

Lemma get_bytes_wp m p l : bytes_at m p l → wp (get_bytes p (zlength l)) m (λ r m', m' = m ∧ r = l).
Proof.
  intros Hb. unfold get_bytes.
  apply (wp_for (λ q acc m', m' = m ∧ acc = take (length q) l)).
  - intros q i r acc m' Hq [-> ->].
    assert (Hi : i = zlength q ∧ i < zlength l).
    { assert (seqZ 0 (zlength l) !! length q = Some i) as Hs by (rewrite Hq; apply list_lookup_middle; done).
      apply lookup_seqZ in Hs. unfold zlength in *. lia. }
    destruct Hi as [-> Hlt]. destruct (zlookup_is_Some l (zlength q)) as [b Hx]; [pose proof (zlength_nonneg q); lia|].
    wp_pure. apply (wp_load8 _ _ b); [rewrite Hb; [done|pose proof (zlength_nonneg q); lia]|]. wp_pure. split; [done|].
    rewrite length_app. simpl. rewrite Nat.add_1_r. symmetry. apply take_S_r.
    rewrite zlookup_nat in Hx by apply zlength_nonneg. unfold zlength in Hx. by rewrite Nat2Z.id in Hx.
  - done.
  - intros acc m' [-> ->]. split; [done|]. apply take_ge. rewrite length_seqZ. unfold zlength. lia.
Qed.

Lemma put_bytes_wp m p l : Forall is_byte l → mapped m p (zlength l) →
  wp (put_bytes p l) m (λ _ m', overwritten m p l m').
Proof.
  intros Hby Hm. unfold put_bytes.
  set (ix := zip (seqZ 0 (zlength l)) l).
  assert (Hix : ∀ k i x, ix !! k = Some (i, x) → i = Z.of_nat k ∧ l !! k = Some x).
  { intros k i x Hk. apply lookup_zip_Some in Hk as [H1 H2]. apply lookup_seqZ in H1. split; [lia|done]. }
  assert (Hlen : length ix = length l).
  { unfold ix. rewrite length_zip_with, length_seqZ. unfold zlength. lia. }
  apply (wp_for (λ q _ m', overwritten m p (take (length q) l) m')).
  - intros q [i x] r [] m' Hq Ho. assert (ix !! length q = Some (i, x)) as Hk by (rewrite Hq; apply list_lookup_middle; done).
    destruct (Hix _ _ _ Hk) as [-> Hx]. pose proof (lookup_lt_Some _ _ _ Hx) as Hlt. simpl.
    assert (Hql : zlength (take (length q) l) = Z.of_nat (length q)) by (unfold zlength; rewrite length_take; lia).
    apply wp_store8.
    { rewrite Ho, Hql, decide_False by lia. apply Hm. unfold zlength. lia. }
    rewrite length_app. simpl. rewrite Nat.add_1_r, (take_S_r _ _ x) by done.
    assert (is_byte x) as Hbx by (by apply (Forall_lookup_1 _ _ _ _ Hby Hx)).
    intros a. rewrite zlength_app, Hql. change (zlength [x]) with 1.
    destruct (decide (a = p + Z.of_nat (length q))) as [->|Hne].
    + rewrite lookup_insert_eq, decide_True by lia. rewrite zlookup_app_r by lia. rewrite Hql.
      replace (p + Z.of_nat (length q) - p - Z.of_nat (length q)) with 0 by lia. unfold is_byte in Hbx.
      unfold u8. rewrite Z.mod_small by lia. done.
    + rewrite lookup_insert_ne, Ho, Hql by done. destruct (decide (p <= a < p + Z.of_nat (length q))).
      * rewrite decide_True by lia. rewrite zlookup_app_l by (rewrite Hql; lia). done.
      * by rewrite decide_False by lia.
  - intros a. simpl. rewrite take_0. change (zlength []) with 0. by rewrite decide_False by lia.
  - intros _ m'. rewrite Hlen. by rewrite firstn_all.
Qed.

(** Sector [i] of a page. *)
Definition sec (l : list Z) (i : Z) : list Z := take 512 (drop (Z.to_nat (512 * i)) l).
Lemma sec_length l i : zlength l = PGSIZE → 0 <= i < 8 → zlength (sec l i) = 512.
Proof. unfold zlength, sec, PGSIZE. rewrite length_take, length_drop. intros. lia. Qed.
Lemma sec_lookup l i y : 0 <= i → 0 <= y < 512 → zlookup (sec l i) y = zlookup l (512 * i + y).
Proof.
  intros Hi Hy. unfold sec. rewrite !zlookup_nat by lia. rewrite lookup_take, lookup_drop.
  rewrite decide_True by lia. f_equal. lia.
Qed.
Lemma sec_at m p l i : zlength l = PGSIZE → 0 <= i < 8 → bytes_at m p l → bytes_at m (p + 512 * i) (sec l i).
Proof.
  intros Hl Hi Hb y Hy. rewrite sec_length in Hy by done. rewrite sec_lookup by lia.
  replace (p + 512 * i + y) with (p + (512 * i + y)) by lia. apply Hb. unfold PGSIZE in Hl. lia.
Qed.
Lemma sec_byte l i : Forall is_byte l → Forall is_byte (sec l i).
Proof. intros Hl. by apply Forall_take, Forall_drop. Qed.
Lemma seqZ_mid lo n (p : list Z) (i : Z) r : seqZ lo n = p ++ i :: r → i = lo + zlength p ∧ lo <= i < lo + n.
Proof.
  intros Hs. assert (seqZ lo n !! length p = Some i) as Hl by (rewrite Hs; by apply list_lookup_middle).
  apply lookup_seqZ in Hl. unfold zlength. lia.
Qed.
End blocks.

(** ** Slots of the swap disk *)

(** The disk has room for all slots. *)
Record wf_swap (s : vm) : Prop := {
  ws_map : wf_bitmap (swap_table s);
  ws_disk : 8 * bit_cnt (swap_table s) <= capacity (swap_disk s) ∧ capacity (swap_disk s) <= 2 ^ 28;
}.
Definition slot_holds (d : disk) (idx : Z) (l : list Z) : Prop :=
  ∀ i, 0 <= i < 8 → sector_at d (idx * 8 + i) = sec l i.

(** A disk that differs in the sectors of one slot at most. *)
Definition same_but (d : disk) (idx : Z) (d' : disk) : Prop :=
  capacity d' = capacity d ∧ ∀ n, ¬ (idx * 8 <= n < idx * 8 + 8) → sector_at d' n = sector_at d n.

Section transfers.
Implicit Types (s : vm) (d : disk) (l : list Z) (k idx i p : Z).

Lemma slot_sector s idx i : wf_swap s → 0 <= idx < bit_cnt (swap_table s) → 0 <= i < 8 →
  u32 (idx * 8 + i) = idx * 8 + i ∧ idx * 8 + i < capacity (swap_disk s) ∧ idx * 8 + i < 2 ^ 28.
Proof. intros [_ [H1 H2]] Hi Hn. rewrite u32_small by lia. lia. Qed.

Lemma wp_sector_write d n b (Q : unit → disk → Prop) : n < capacity d → n < 2 ^ 28 →
  Q tt (Disk (capacity d) (<[n := b]> (sectors d)) (read_cnt d) (write_cnt d + 1)) → wp (disk_write n b) d Q.
Proof. intros H1 H2 HQ. unfold disk_write, select_sector. wp_pure. wp_step; [by apply Z.ltb_lt|]. wp_step; [by apply Z.ltb_lt|]. by wp_pure. Qed.
Lemma wp_sector_read d n (Q : list Z → disk → Prop) : n < capacity d → n < 2 ^ 28 →
  Q (sector_at d n) (Disk (capacity d) (sectors d) (read_cnt d + 1) (write_cnt d)) → wp (disk_read n) d Q.
Proof. intros H1 H2 HQ. unfold disk_read, select_sector. wp_pure. wp_step; [by apply Z.ltb_lt|]. wp_step; [by apply Z.ltb_lt|]. by wp_pure. Qed.

Lemma wp_on_bytes {A} s (c : ST mem A) (Q : A → vm → Prop) :
  wp c (vbytes s) (λ r m, Q r (with_vbytes m s)) → wp (on_bytes c) s Q.
Proof. intros Hc. unfold on_bytes, on_ram, on_mmu, on_pages, Palloc.on_mem. wp_pure. exact Hc. Qed.
Lemma with_vbytes_same s : with_vbytes (vbytes s) s = s.
Proof. unfold with_vbytes, with_mmu. by destruct s as [[[] ? ?]]. Qed.

Lemma swap_write_wp s idx k l : wf_swap s → 0 <= idx < bit_cnt (swap_table s) → zlength l = PGSIZE → bytes_at (vbytes s) k l →
  wp (swap_write idx k) s (λ _ s', ∃ d, s' = with_disk d s ∧ slot_holds d idx l ∧ same_but (swap_disk s) idx d).
Proof.
  intros Hw Hi Hl Hb. unfold swap_write.
  apply (wp_for (λ q _ s', ∃ d, s' = with_disk d s ∧ (∀ i, 0 <= i < zlength q → sector_at d (idx * 8 + i) = sec l i) ∧
    same_but (swap_disk s) idx d)).
  - intros q i r [] s' Hq (d & -> & Hd & Hc & Ho). apply seqZ_mid in Hq as [Hiq Hir]. rewrite Z.add_0_l in Hiq. subst i.
    wp_pure. apply wp_on_bytes. change DISK_SECTOR_SIZE with 512. rewrite <- (sec_length l (zlength q)) at 2 by (done || lia).
    eapply wp_mono; [apply get_bytes_wp, (sec_at _ _ l); [done|lia|exact Hb]|]. intros bs m' [-> ->].
    rewrite with_vbytes_same. destruct (slot_sector s idx (zlength q) Hw Hi ltac:(lia)) as (-> & H1 & H2).
    unfold on_swap_disk. wp_pure. apply wp_sector_write; [simpl; destruct_and?; lia|done|]. eexists. split; [reflexivity|]. split; [|split].
    + intros i Hir2. rewrite zlength_app in Hir2. change (zlength [zlength q]) with 1 in Hir2. unfold sector_at. simpl.
      destruct (decide (i = zlength q)) as [->|Hne]; [by rewrite lookup_insert_eq|].
      rewrite lookup_insert_ne by lia. apply Hd. lia.
    + done.
    + intros n Hn. unfold sector_at. simpl. rewrite lookup_insert_ne by lia. by apply Ho.
  - exists (swap_disk s). split; [by destruct s|]. split; [|done]. intros i Hi0. change (zlength []) with 0 in Hi0. lia.
  - intros _ s' (d & -> & Hd & Hsb). exists d. split; [done|]. split; [|done]. intros i Hi8. apply Hd.
    unfold zlength. rewrite length_seqZ. lia.
Qed.

(** A disk with the same sectors. *)
Definition same_sectors d d' : Prop := capacity d' = capacity d ∧ sectors d' = sectors d.

Lemma swap_read_wp s idx k l : wf_swap s → 0 <= idx < bit_cnt (swap_table s) → zlength l = PGSIZE → Forall is_byte l →
  slot_holds (swap_disk s) idx l → mapped (vbytes s) k PGSIZE →
  wp (swap_read idx k) s (λ _ s', ∃ d m, s' = with_disk d (with_vbytes m s) ∧ same_sectors (swap_disk s) d ∧
    overwritten (vbytes s) k l m).
Proof.
  intros Hw Hi Hl Hby Hd Hm. unfold swap_read.
  apply (wp_for (λ q _ s', ∃ d m, s' = with_disk d (with_vbytes m s) ∧ same_sectors (swap_disk s) d ∧
    ∀ a, m !! a = if decide (k <= a < k + 512 * zlength q) then zlookup l (a - k) else vbytes s !! a)).
  - intros q i r [] s' Hq (d & m & -> & [Hc Hs] & Ho). apply seqZ_mid in Hq as [Hiq Hir]. rewrite Z.add_0_l in Hiq. subst i.
    destruct (slot_sector s idx (zlength q) Hw Hi ltac:(lia)) as (-> & H1 & H2).
    unfold on_swap_disk. wp_pure. apply wp_sector_read; [simpl; lia|done|]. simpl.
    assert (sector_at d (idx * 8 + zlength q) = sec l (zlength q)) as ->.
    { unfold sector_at. rewrite Hs. apply Hd. lia. }
    apply wp_on_bytes. eapply wp_mono.
    { apply put_bytes_wp; [by apply sec_byte|]. intros a Ha. simpl. rewrite sec_length in Ha by (done || lia). rewrite Ho.
      change DISK_SECTOR_SIZE with 512 in Ha. rewrite decide_False by lia. apply Hm. unfold PGSIZE. lia. }
    intros [] m' Ho'. eexists _, m'. split; [reflexivity|]. split; [done|]. intros a. rewrite Ho'. simpl. change DISK_SECTOR_SIZE with 512.
    rewrite sec_length by (done || lia). rewrite zlength_app. change (zlength [zlength q]) with 1. pose proof (zlength_nonneg q).
    destruct (decide (k + 512 * zlength q <= a < k + 512 * zlength q + 512)).
    + rewrite decide_True by lia. rewrite sec_lookup by lia. f_equal. lia.
    + rewrite Ho. destruct (decide (k <= a < k + 512 * zlength q)); [by rewrite decide_True by lia|by rewrite decide_False by lia].
  - exists (swap_disk s), (vbytes s). split; [rewrite with_vbytes_same; by destruct s|]. split; [done|].
    intros a. change (zlength []) with 0. by rewrite decide_False by lia.
  - intros _ s' (d & m & -> & Hs & Ho). exists d, m. split; [done|]. split; [done|]. intros a. rewrite Ho, Hl.
    unfold PGSIZE. done.
Qed.
End transfers.

(** ** Swapping out and in *)

(** Each page on the disk has a slot of its own, which is marked. *)
Record slots_ok (s : vm) : Prop := {
  so_swap : wf_swap s;
  so_used : ∀ p x idx, objs s !! p = Some (OPage x) → data x = Anon idx → 0 <= idx →
    idx < bit_cnt (swap_table s) ∧ bget (swap_table s) idx = true;
  so_inj : ∀ p q x y idx, objs s !! p = Some (OPage x) → objs s !! q = Some (OPage y) →
    data x = Anon idx → data y = Anon idx → 0 <= idx → p = q;
}.
(** The page is on the disk with the contents [l]. *)
Definition swapped (s : vm) (p : Z) (l : list Z) : Prop :=
  ∃ x idx, objs s !! p = Some (OPage x) ∧ operations x = anon_ops ∧ data x = Anon idx ∧ 0 <= idx ∧
    slot_holds (swap_disk s) idx l.
(** The page is in a frame, with the contents [l]. *)
Definition resident (s : vm) (p : Z) (l : list Z) : Prop :=
  ∃ x f, objs s !! p = Some (OPage x) ∧ operations x = anon_ops ∧ data x = Anon (-1) ∧
    objs s !! frame_of x = Some (OFrame f) ∧ bytes_at (vbytes s) (kva f) l.
Definition page_bytes (l : list Z) : Prop := zlength l = PGSIZE ∧ Forall is_byte l.

(** What happens to one page leaves the other pages on the disk alone. *)
Definition others_kept (s : vm) (p : Z) (s' : vm) : Prop := ∀ q l, q ≠ p → swapped s q l → swapped s' q l.

Section swap.
Implicit Types (s : vm) (d : disk) (l : list Z) (k idx i p q : Z) (x : page).

(** A page object changes, and its slot with it. *)
Lemma slots_set s p x y : slots_ok s → objs s !! p = Some (OPage x) →
  (∀ idx, data y = Anon idx → 0 <= idx → idx < bit_cnt (swap_table s) ∧ bget (swap_table s) idx = true) →
  (∀ q z idx, q ≠ p → objs s !! q = Some (OPage z) → data z = Anon idx → data y = Anon idx → 0 <= idx → False) →
  slots_ok (with_objs (<[p := OPage y]> (objs s)) s).
Proof.
  intros [Hw Hu Hi] Hp H1 H2. split; [by destruct Hw|..].
  - intros q z idx. simpl. rewrite lookup_insert_Some. intros [[<- [= <-]]|[_ Hq]]; [by apply H1|by apply (Hu q)].
  - intros q1 q2 z1 z2 idx. simpl. rewrite !lookup_insert_Some.
    intros [[<- [= <-]]|[Hn1 Hq1]] [[<- [= <-]]|[Hn2 Hq2]] Hd1 Hd2 Hj0; [done| | |by apply (Hi q1 q2 z1 z2 idx)].
    + exfalso. by apply (H2 q2 z2 idx).
    + exfalso. by apply (H2 q1 z1 idx).
Qed.
Lemma slots_frame s p f g : slots_ok s → objs s !! p = Some (OFrame f) →
  slots_ok (with_objs (<[p := OFrame g]> (objs s)) s).
Proof.
  intros [Hw Hu Hi] Hp. split; [by destruct Hw|..].
  - intros q z idx. simpl. rewrite lookup_insert_Some. intros [[_ [=]]|[_ Hq]]. by apply (Hu q).
  - intros q1 q2 z1 z2 idx. simpl. rewrite !lookup_insert_Some.
    intros [[_ [=]]|[Hn1 Hq1]] [[_ [=]]|[Hn2 Hq2]]. by apply Hi.
Qed.

Lemma swap_full_panics s p : slots_ok s → p ≠ 0 → (∀ i, 0 <= i < bit_cnt (swap_table s) → bget (swap_table s) i = true) →
  anon_swap_out p s = Panic.
Proof.
  intros Hs Hp Hfull. pose proof (ws_map _ (so_swap _ Hs)) as Hm. pose proof (wb_cnt _ Hm).
  destruct (wp_run _ _ _ (bitmap_scan_and_flip_wp (swap_table s) 0 1 false Hm ltac:(lia) ltac:(lia))) as (r & b' & Hrun & Hr).
  unfold anon_swap_out. rewrite (proj2 (Z.eqb_neq p 0)) by done. unfold on_swap, zoom, mbind, st_bind. rewrite Hrun.
  destruct Hr as [(H1 & H2 & Hg & _)|(-> & -> & _)].
  - exfalso. assert (bget (swap_table s) r = false) by (apply Hg; lia). rewrite Hfull in *; [done|lia].
  - rewrite Z.eqb_refl. unfold bitmap_test, get_st, assert_st, mbind, st_bind. simpl.
    destruct (Z.ltb_spec BITMAP_ERROR (bit_cnt (swap_table s))); [|done]. destruct (so_swap _ Hs) as [_ [? ?]].
    unfold BITMAP_ERROR in *. lia.
Qed.

Lemma swap_out_wp s p l : slots_ok s → p ≠ 0 → resident s p l → page_bytes l →
  (∃ i, 0 <= i < bit_cnt (swap_table s) ∧ bget (swap_table s) i = false) →
  wp (anon_swap_out p) s (λ r s', r = true ∧ slots_ok s' ∧ swapped s' p l ∧ others_kept s p s' ∧
    v_mmu s' = v_mmu s ∧ capacity (swap_disk s') = capacity (swap_disk s)).
Proof.
  intros Hs Hp (x & f & Hx & Hops & Hdata & Hf & Hb) [Hl Hby] (i0 & Hi0 & Hfree0).
  pose proof Hs as [[Hm [Hcap1 Hcap2]] Hu Hinj]. pose proof (wb_cnt _ Hm).
  unfold anon_swap_out. rewrite (proj2 (Z.eqb_neq p 0)) by done. unfold on_swap. wp_pure.
  eapply wp_mono; [apply bitmap_scan_and_flip_wp; [done|lia|lia]|]. intros idx b' Hr.
  destruct Hr as [(H1 & H2 & Hg & _ & Hfill)|(_ & _ & Hno)].
  2: { exfalso. apply (Hno i0); [lia|lia|]. intros j Hj. by replace j with i0 by lia. }
  assert (Hbit : bget (swap_table s) idx = false) by (apply Hg; lia). destruct Hfill as (Hm' & Hc' & Hfill & Hkeep).
  rewrite (proj2 (Z.eqb_neq idx BITMAP_ERROR)) by (unfold BITMAP_ERROR; lia). wp_pure.
  set (s1 := with_swap b' s). apply (wp_get_page s1 p x); [done|]. wp_pure. apply (wp_get_frame s1 _ f); [done|]. wp_pure.
  assert (Hs1 : wf_swap s1) by (split; [done|simpl; lia]).
  eapply wp_mono; [apply (swap_write_wp s1 idx (kva f) l); [done|simpl; lia|done|exact Hb]|].
  intros [] s2 (d & -> & Hd & Hdc & Hdo). unfold unlink. wp_pure.
  apply (wp_get_page _ p x); [done|]. wp_pure. eapply wp_upd_frame; [exact Hf|]. wp_pure.
  assert (Hpf : p ≠ frame_of x) by congruence.
  eapply wp_upd_page; [simpl; rewrite lookup_insert_ne by done; exact Hx|]. wp_pure.
  eapply wp_get_page; [simpl; by rewrite lookup_insert_eq|]. wp_pure.
  eapply wp_upd_page; [simpl; by rewrite lookup_insert_eq|]. wp_pure. simpl. rewrite insert_insert_eq.
  rewrite s32_small by lia.
  set (y := set_data (operations x) (Anon idx) (set_frame_of 0 x)).
  match goal with |- _ ∧ slots_ok ?z ∧ _ => set (s3 := z) end.
  assert (Hobj : ∀ q z, objs s3 !! q = Some (OPage z) → q = p ∧ z = y ∨ q ≠ p ∧ objs s !! q = Some (OPage z)).
  { intros q z. simpl. rewrite !lookup_insert_Some. intros [[<- [= <-]]|[Hn [[_ [=]]|[_ Hq]]]]; [by left|]. right. done. }
  assert (Hbits : ∀ j, 0 <= j < bit_cnt (swap_table s) → bget b' j = if decide (j = idx) then true else bget (swap_table s) j).
  { intros j Hj. destruct (decide (j = idx)) as [->|]; [by rewrite Hfill by lia|by rewrite Hkeep by lia]. }
  split; [done|]. split; [|split; [|split; [|done]]].
  - split.
    + split; [done|]. simpl. simpl in Hdc. lia.
    + intros q z j Hq Hz Hj. simpl. destruct (Hobj q z Hq) as [[-> ->]|[Hn Hq0]].
      * injection Hz as <-. rewrite Hbits by lia. rewrite decide_True by done. split; [lia|done].
      * destruct (Hu q z j Hq0 Hz Hj) as [? Hset]. rewrite Hbits by lia. split; [lia|]. by destruct (decide _).
    + intros q1 q2 z1 z2 j Hq1 Hq2 Hz1 Hz2 Hj.
      destruct (Hobj q1 z1 Hq1) as [[-> ->]|[Hn1 Hq1']], (Hobj q2 z2 Hq2) as [[-> ->]|[Hn2 Hq2']]; [done| | |by apply (Hinj q1 q2 z1 z2 j)].
      * injection Hz1 as <-. destruct (Hu q2 z2 idx Hq2' Hz2 Hj). congruence.
      * injection Hz2 as <-. destruct (Hu q1 z1 idx Hq1' Hz1 Hj). congruence.
  - exists y, idx. simpl. rewrite lookup_insert_eq. done.
  - intros q l' Hq (z & j & Hz & Hzo & Hzd & Hj & Hsl). exists z, j. simpl. rewrite lookup_insert_ne by done.
    assert (Hqf : q ≠ frame_of x) by congruence. rewrite lookup_insert_ne by done. split; [done|]. split; [done|]. split; [done|].
    split; [done|]. intros i Hi. rewrite Hdo; [by apply Hsl|]. destruct (Hu q z j Hz Hzd Hj) as [_ Hset].
    assert (j ≠ idx) by congruence. lia.
Qed.

Lemma swap_in_wp s p k l : slots_ok s → swapped s p l → page_bytes l → mapped (vbytes s) k PGSIZE →
  wp (anon_swap_in p k) s (λ r s', r = true ∧ slots_ok s' ∧ others_kept s p s' ∧
    overwritten (vbytes s) k l (vbytes s') ∧ capacity (swap_disk s') = capacity (swap_disk s) ∧
    ∃ x idx, objs s !! p = Some (OPage x) ∧ data x = Anon idx ∧ 0 <= idx < bit_cnt (swap_table s') ∧ bget (swap_table s') idx = false ∧
      objs s' = <[p := OPage (set_data anon_ops (Anon (-1)) x)]> (objs s)).
Proof.
  intros Hs (x & idx & Hx & Hops & Hdata & Hidx & Hd) [Hl Hby] Hk. pose proof Hs as [Hws Hu Hinj].
  destruct (Hu p x idx Hx Hdata Hidx) as [Hlt Hset]. pose proof (ws_map _ Hws) as Hm.
  unfold anon_swap_in. wp_pure. apply (wp_get_page _ p x); [done|]. unfold swap_idx_of. rewrite Hdata. wp_pure.
  rewrite (proj2 (Z.ltb_ge idx 0)) by done. wp_pure.
  eapply wp_mono; [apply (swap_read_wp s idx k l); [done|lia|done|done|done|done]|].
  intros [] s1 (d & m & -> & [Hdc Hds] & Ho). unfold on_swap. wp_pure.
  eapply wp_mono; [apply bitmap_reset_wp; [done|simpl; lia]|]. intros [] b' (Hm' & Hc' & Hfree & Hrest). wp_pure.
  eapply wp_upd_page; [exact Hx|]. wp_pure. rewrite Hops. simpl in Hc'.
  set (y := set_data anon_ops (Anon (-1)) x). split; [done|].
  assert (Hobj : ∀ q z, <[p := OPage y]> (objs s) !! q = Some (OPage z) → q = p ∧ z = y ∨ q ≠ p ∧ objs s !! q = Some (OPage z)).
  { intros q z. rewrite lookup_insert_Some. intros [[<- [= <-]]|[Hn Hq]]; [by left|by right]. }
  assert (Hother : ∀ q z j, q ≠ p → objs s !! q = Some (OPage z) → data z = Anon j → 0 <= j →
    j ≠ idx ∧ j < bit_cnt (swap_table s) ∧ bget b' j = true).
  { intros q z j Hq Hz Hzd Hj. destruct (Hu q z j Hz Hzd Hj) as [? Hset']. assert (j ≠ idx) as Hne.
    { intros ->. apply Hq. by apply (Hinj q p z x idx). }
    split; [done|]. split; [done|]. by rewrite Hrest by done. }
  split; [|split; [|split; [exact Ho|split; [exact Hdc|]]]].
  - split.
    + destruct Hws as [_ Hcap]. split; [done|]. simpl. rewrite Hc', Hdc. done.
    + intros q z j Hq Hz Hj. simpl. destruct (Hobj q z Hq) as [[-> ->]|[Hn Hq0]]; [injection Hz as <-; lia|].
      destruct (Hother q z j Hn Hq0 Hz Hj) as (_ & ? & ?). rewrite Hc'. done.
    + intros q1 q2 z1 z2 j Hq1 Hq2 Hz1 Hz2 Hj.
      destruct (Hobj q1 z1 Hq1) as [[-> ->]|[Hn1 Hq1']]; [injection Hz1 as <-; lia|].
      destruct (Hobj q2 z2 Hq2) as [[-> ->]|[Hn2 Hq2']]; [injection Hz2 as <-; lia|]. by apply (Hinj q1 q2 z1 z2 j).
  - intros q l' Hq (z & j & Hz & Hzo & Hzd & Hj & Hsl). exists z, j. simpl. rewrite lookup_insert_ne by done.
    split; [done|]. split; [done|]. split; [done|]. split; [done|]. intros i Hi. unfold sector_at. simpl. rewrite Hds. by apply Hsl.
  - exists x, idx. split; [done|]. split; [done|]. simpl. rewrite Hc'. done.
Qed.
End swap.

(** ** A page goes to the disk and comes back *)

(** What may happen while [p] is on the disk: other pages go out and come in, and
    everything else changes, but for the swap and the pages on it. *)
Inductive swap_step (p : Z) (s s' : vm) : Prop :=
  | step_out q l : q ≠ p → q ≠ 0 → resident s q l → page_bytes l → anon_swap_out q s = Done (true, s') → swap_step p s s'
  | step_in q k l : q ≠ p → swapped s q l → page_bytes l → mapped (vbytes s) k PGSIZE →
      anon_swap_in q k s = Done (true, s') → swap_step p s s'
  | step_other : swap_table s' = swap_table s → swap_disk s' = swap_disk s →
      (∀ q x idx, data x = Anon idx → 0 <= idx → objs s' !! q = Some (OPage x) ↔ objs s !! q = Some (OPage x)) → swap_step p s s'.

Section roundtrip.
Implicit Types (s : vm) (l : list Z) (k p q : Z).

Lemma free_slot_dec s : (∃ i, 0 <= i < bit_cnt (swap_table s) ∧ bget (swap_table s) i = false) ∨
  (∀ i, 0 <= i < bit_cnt (swap_table s) → bget (swap_table s) i = true).
Proof.
  destruct (decide (Exists (λ i, bget (swap_table s) i = false) (seqZ 0 (bit_cnt (swap_table s))))) as [He|Hn].
  - left. apply Exists_exists in He as (i & Hi & Hb). apply elem_of_seqZ in Hi. exists i. split; [lia|done].
  - right. intros i Hi. destruct (bget (swap_table s) i) eqn:Hb; [done|]. exfalso. apply Hn, Exists_exists. exists i.
    split; [apply elem_of_seqZ; lia|done].
Qed.
Lemma swap_step_keeps p l s s' : swap_step p s s' → slots_ok s ∧ swapped s p l → slots_ok s' ∧ swapped s' p l.
Proof.
  intros [q lq Hq Hq0 Hres Hpb Hrun|q k lq Hq Hsw Hpb Hk Hrun|Ht Hd Hobj] [Hs Hp].
  - destruct (free_slot_dec s) as [Hfree|Hfull].
    + pose proof (swap_out_wp s q lq Hs Hq0 Hres Hpb Hfree) as Hwp. unfold wp in Hwp. rewrite Hrun in Hwp.
      destruct Hwp as (_ & H1 & _ & H2 & _). split; [done|]. by apply H2.
    + by rewrite (swap_full_panics s q Hs Hq0 Hfull) in Hrun.
  - pose proof (swap_in_wp s q k lq Hs Hsw Hpb Hk) as Hwp. unfold wp in Hwp. rewrite Hrun in Hwp.
    destruct Hwp as (_ & H1 & H2 & _). split; [done|]. by apply H2.
  - destruct Hs as [[Hw1 Hw2] Hu Hi], Hp as (x & idx & Hx & Hops & Hdt & Hidx & Hsl). split.
    + split.
      * split; [by rewrite Ht|by rewrite Ht, Hd].
      * intros r y j Hy Hyd Hj. rewrite Ht. apply (Hu r y j); [by apply (Hobj r y j)|done|done].
      * intros r1 r2 y1 y2 j H1 H2 Hd1 Hd2 Hj. apply (Hi r1 r2 y1 y2 j); [by apply (Hobj r1 y1 j)|by apply (Hobj r2 y2 j)|done..].
    + exists x, idx. split; [by apply (Hobj p x idx)|]. by rewrite Hd.
Qed.

(** C28: A page that goes to the swap disk comes back with its bytes, into any frame,
    whatever other pages have been swapped out and in meanwhile and whatever else
    has happened; its slot is free again, and the pages still on the disk keep
    their contents. *)
Theorem swap_roundtrip s p l : slots_ok s → p ≠ 0 → resident s p l → page_bytes l →
  (∃ i, 0 <= i < bit_cnt (swap_table s) ∧ bget (swap_table s) i = false) →
  ∃ s1, anon_swap_out p s = Done (true, s1) ∧
  ∀ s2 k, rtc (swap_step p) s1 s2 → mapped (vbytes s2) k PGSIZE →
  ∃ s3, anon_swap_in p k s2 = Done (true, s3) ∧ bytes_at (vbytes s3) k l ∧ slots_ok s3 ∧ others_kept s2 p s3 ∧
    ∃ x idx, objs s2 !! p = Some (OPage x) ∧ data x = Anon idx ∧ bget (swap_table s3) idx = false ∧
      objs s3 = <[p := OPage (set_data anon_ops (Anon (-1)) x)]> (objs s2).
Proof.
  intros Hs Hp Hres Hpb Hfree.
  destruct (wp_run_val _ _ _ _ (swap_out_wp s p l Hs Hp Hres Hpb Hfree)) as (s1 & Hrun & Hs1 & Hsw & _). exists s1. split; [done|].
  intros s2 k Hst Hk. assert (Hinv : slots_ok s2 ∧ swapped s2 p l).
  { clear Hrun Hk. induction Hst as [|a b c Hab _ IH]; [done|]. by apply IH; apply (swap_step_keeps p l a b). }
  destruct Hinv as [Hs2 Hsw2].
  destruct (wp_run_val _ _ _ _ (swap_in_wp s2 p k l Hs2 Hsw2 Hpb Hk)) as (s3 & Hrun3 & Hs3 & Hoth & Hov & _ & x & idx & Hx & Hd & _ & Hb & Ho).
  exists s3. split; [done|]. split; [|split; [done|split; [done|by exists x, idx]]].
  intros i Hi. rewrite Hov, decide_True by lia. f_equal. lia.
Qed.
End roundtrip.
