(* ===== verification/VmFrame.v ===== *)
(** * A frame for a page and its contents (vm_get_frame, vm_do_claim_page)

    A fresh frame of the user pool is linked with its page and entered in the
    page table of the current process; no process sees another change. swap_in
    fills it with what backs the page. *)
From stdpp Require Import base numbers list gmap.
From Stdlib Require Import ZArith Lia.
From S2P Require Import Prelude Bytes Fat Volume Inode InodeData InodeGrow File CString Bitmap Hash Palloc PallocInit Words Mmu MmuInv MmuWalk MmuSpec AddressSpace Isolation PageTables UserMem Vm VmSpt VmSwap.
Open Scope Z_scope.

Definition zeros (n : Z) : list Z := replicate (Z.to_nat n) 0.
Lemma zeros_length n : 0 <= n → zlength (zeros n) = n.
Proof. intros. unfold zlength, zeros. rewrite length_replicate. lia. Qed.
Lemma zeros_lookup n i : 0 <= i < n → zlookup (zeros n) i = Some 0.
Proof. intros. unfold zeros. rewrite zlookup_nat by lia. apply lookup_replicate_2. lia. Qed.

(** The state once a frame at [k] has been made, with the pages [mm]. *)
Definition framed (s : vm) (k : Z) (mm : mmu) : vm :=
  Vm mm (v_k s) (<[next_obj s := OFrame (Frame k 1 0)]> (objs s)) (next_obj s + 1) (malloc_ok s)
     (frame_table s ++ [next_obj s]) (clock_start s) (swap_table s) (swap_disk s) (procs s) (cur s).
(** [k] was free and is now in use, with the contents [c]. *)
Record fresh_frame (s : mmu) (k : Z) (c : list Z) (s' : mmu) : Prop := {
  ff_free : run_of (user_pool (m_ram s)) k 1 false;
  ff_used : run_of (user_pool (m_ram s')) k 1 true;
  ff_change : user_change k s s';
  ff_bytes : bytes_at (bytes s') k c;
}.
Definition user_free (s : vm) : Prop := ∃ b, run_of (user_pool (m_ram (v_mmu s))) b 1 false.

Section frame.
Implicit Types (s : vm) (l : list Z) (k f p : Z).

Lemma palloc_user_wp (mm : mmu) : ram_ok (m_ram mm) → (∃ b, run_of (user_pool (m_ram mm)) b 1 false) →
  wp (palloc_get_page (Z.lor PAL_USER PAL_ZERO)) (m_ram mm) (λ k pg, k ≠ 0 ∧ fresh_frame mm k (zeros PGSIZE) (Mmu pg (base_pml4 mm) (cr3 mm))).
Proof.
  intros Hok [b Hb]. unfold palloc_get_page.
  destruct (palloc_get_cases (m_ram mm) (Z.lor PAL_USER PAL_ZERO) 1 (proj1 Hok) ltac:(done)) as [(k & pg & Hrun & Hg)|[Hno _]].
  2: { by destruct (Hno b). }
  eapply wp_eq; [exact Hrun|]. destruct Hg as (Hk0 & Hwf & Hfree & _ & Hre & Hmem). split; [done|].
  change (run_of (user_pool (m_ram mm)) k 1 false) in Hfree. change (wiped (pg_mem (m_ram mm)) (pg_mem pg) k (PGSIZE * 1) 0) in Hmem.
  change (reused true (m_ram mm) pg k 1 true) in Hre. destruct Hre as (H1 & H2 & H3 & H4). simpl in H1, H2, H3, H4.
  destruct Hfree as (F1 & F2 & F3 & F4). rewrite Z.mul_1_r in *. split.
  - unfold run_of. rewrite Z.mul_1_r. done.
  - unfold run_of, pool_end. simpl. rewrite H1, H2. split_and!; [done|done|unfold pool_end in F3; lia|].
    intros x Hx. rewrite H4 by (unfold in_pool; lia). by rewrite decide_True by lia.
  - split; simpl; [done|done|done|done| |].
    + intros x Hx Hu. rewrite H4 by done. by destruct (decide _).
    + intros x Hx. rewrite Hmem. by rewrite decide_False by (unfold PGSIZE in *; lia).
  - intros x Hx. rewrite zeros_length in Hx by done. simpl. rewrite Hmem, zeros_lookup by done. by rewrite decide_True by (unfold PGSIZE in *; lia).
Qed.

Lemma get_frame_wp s junk (Q : Z → vm → Prop) : ram_ok (m_ram (v_mmu s)) → wf_objs s → malloc_ok s = [] → user_free s →
  (∀ k mm, fresh_frame (v_mmu s) k (zeros PGSIZE) mm → Q (next_obj s) (framed s k mm)) → wp (vm_get_frame junk) s Q.
Proof.
  intros Hok [Hn _] Hm Hfree HQ. unfold vm_get_frame. wp_pure. apply wp_new_obj; [done|]. wp_pure.
  wp_step; [by rewrite (proj2 (Z.eqb_neq (next_obj s) 0)) by lia|]. unfold on_ram, on_mmu, on_pages. wp_pure.
  eapply wp_mono; [apply (palloc_user_wp (v_mmu s) Hok Hfree)|]. intros k pg [Hk0 Hff].
  rewrite (proj2 (Z.eqb_neq k 0)) by done. wp_pure. apply wp_set_obj; [simpl; by rewrite lookup_insert_eq|]. wp_pure.
  simpl. rewrite insert_insert_eq. unfold frame_table_insert. wp_pure. by apply (HQ k _).
Qed.
End frame.

(** ** Linking, and the page table *)

(** The state after the links and the entry in the page table. *)
Definition linked (s : vm) (p : Z) (x : page) (k : Z) (mm : mmu) : vm :=
  Vm mm (v_k s) (<[p := OPage (set_frame_of (next_obj s) x)]> (<[next_obj s := OFrame (Frame k 1 p)]> (objs s)))
     (next_obj s + 1) (malloc_ok s)
     (frame_table s ++ [next_obj s]) (clock_start s) (swap_table s) (swap_disk s) (procs s) (cur s).
(** The page [u] of [a] leads to the frame [k] alone, which was free in [s] and now
    has the contents [c]; no process sees another change. *)
Record entered_frame (s : mmu) (l : list Z) (a u k : Z) (rw : bool) (c : list Z) (s' : mmu) : Prop := {
  ef_wf : wf_user s' l;
  ef_view : view_except a u l s s';
  ef_alone : alone s' l k a u;
  ef_map : mapping (bytes s') a u = Some (page_entry k rw);
  ef_used : run_of (user_pool (m_ram s')) k 1 true;
  ef_free : run_of (user_pool (m_ram s)) k 1 false;
  ef_bytes : bytes_at (bytes s') k c;
  ef_pool : base (user_pool (m_ram s')) = base (user_pool (m_ram s)) ∧
    bit_cnt (used_map (user_pool (m_ram s'))) = bit_cnt (used_map (user_pool (m_ram s)));
  ef_kernel : ∀ x, kept (m_ram s) x → kernel_byte s l x → bytes s' !! x = bytes s !! x;
}.

Section claim.
Implicit Types (s : vm) (l : list Z) (k f p a u : Z).

Lemma enter_wp mm mm1 l a u k rw c : zlength c = PGSIZE → wf_user mm l → a ∈ l → user_va own u → u mod PGSIZE = 0 →
  fresh_frame mm k c mm1 → ¬ few (m_ram mm) 3 →
  wp (pml4_set_page a u k rw) mm1 (λ ok mm2, ok = true ∧ entered_frame mm l a u k rw c mm2).
Proof.
  intros Hc Hw Ha Hu Hal Hff Hfew. pose proof (run_user_page mm k false (ff_free _ _ _ _ Hff)) as Hup.
  pose proof (alone_free mm l k a u Hw (ff_free _ _ _ _ Hff)) as Hno.
  destruct (user_change_view k a u l mm mm1 Hw Hup Hno (ff_change _ _ _ _ Hff)) as (Hw1 & Hv1 & Hm1).
  pose proof (alone_same k a u l mm mm1 Hm1 Hno) as Hno1. pose proof (ff_used _ _ _ _ Hff) as Hused.
  pose proof (wf_user_kernel mm1 l k Hw1 (run_user_page mm1 k true Hused)) as Hkp.
  eapply wp_mono; [apply (set_page_wp own); [by apply (pr_space _ _ (wu_proc _ _ Hw1))|done|done|done]|].
  intros ok mm2 Hres. destruct ok.
  - split; [done|]. destruct (set_page_view a u k rw l mm1 mm2 Hw1 Ha Hu Hal Hused Hno1 Hres) as (Hw2 & Hv2 & Hal2 & Hmap & Hpool & Hby & Hkern).
    split; [done|by apply (view_trans _ _ _ _ mm1)|done|done|by rewrite Hpool|apply Hff| |rewrite Hpool; apply Hff|].
    + intros i Hi. rewrite Hby; [by apply (ff_bytes _ _ _ _ Hff)|]. destruct (run_user_page mm1 k true Hused) as (_ & H2 & H3).
      unfold in_pool. lia.
    + intros x Hx Hkx. destruct (kernel_byte_change k mm mm1 l x (wu_proc _ _ Hw) Hup (ff_change _ _ _ _ Hff) Hkx) as [Hkx1 <-].
      apply Hkern; [|done]. unfold kept. by rewrite (uc_kernel _ _ _ (ff_change _ _ _ _ Hff)).
  - exfalso. destruct Hres as (_ & _ & _ & _ & Hf). apply Hfew. intros bs Hnd Hall. apply (Hf bs Hnd).
    eapply Forall_impl; [exact Hall|]. intros b Hb. by rewrite (uc_kernel _ _ _ (ff_change _ _ _ _ Hff)).
Qed.

(** vm_do_claim_page up to its call of swap_in. *)
Lemma claim_wp s l junk pr p x (Q : bool → vm → Prop) :
  wf_objs s → malloc_ok s = [] → user_free s → ¬ few (m_ram (v_mmu s)) 3 → wf_user (v_mmu s) l →
  procs s !! cur s = Some pr → pml4 pr ∈ l → objs s !! p = Some (OPage x) → user_va own (va x) → va x mod PGSIZE = 0 →
  (∀ k mm, entered_frame (v_mmu s) l (pml4 pr) (va x) k (writable x) (zeros PGSIZE) mm → wp (swap_in p k) (linked s p x k mm) Q) →
  wp (vm_do_claim_page junk p) s Q.
Proof.
  intros Ho Hm Hfree Hfew Hw Hpr Ha Hx Hu Hal HQ. unfold vm_do_claim_page. wp_pure.
  apply get_frame_wp; [apply (pr_ram _ _ (wu_proc _ _ Hw))|done|done|done|]. intros k mm1 Hff. wp_pure.
  assert (Hpf : p ≠ next_obj s) by (intros ->; rewrite fresh_obj in Hx; done).
  eapply wp_upd_frame; [simpl; by rewrite lookup_insert_eq|]. wp_pure. simpl. rewrite insert_insert_eq.
  eapply wp_upd_page; [simpl; rewrite lookup_insert_ne by done; exact Hx|]. wp_pure.
  apply (wp_this_proc _ pr); [done|]. wp_pure. eapply wp_get_page; [simpl; by rewrite lookup_insert_eq|]. wp_pure.
  eapply wp_get_frame; [simpl; rewrite lookup_insert_ne by done; by rewrite lookup_insert_eq|]. wp_pure. simpl.
  unfold on_mmu. wp_pure. eapply wp_mono; [by apply (enter_wp (v_mmu s) mm1 l _ _ _ _ (zeros PGSIZE))|]. intros ok mm2 [-> Hef]. simpl.
  by apply (HQ k mm2).
Qed.
End claim.

(** ** The contents of a page when it is first touched

    swap_in fills the frame of a page with what backs the page: zeros, a part of
    a file, or a slot of the swap disk. *)

(** ** Memory *)

Section memory.
Implicit Types (m : mem) (l : list Z) (k n : Z).

Lemma memset_zero_wp m k n : 0 < k → 0 <= n → mapped m k n → wp (memset k 0 n) m (λ _ m', overwritten m k (zeros n) m').
Proof.
  intros Hk Hn Hm. apply memset_wp; [done|done|exact Hm|]. intros m' Hw a. rewrite Hw, zeros_length by done.
  destruct (decide (k <= a < k + n)); [|done]. by rewrite zeros_lookup by lia.
Qed.
Lemma overwritten_stays_mapped m k l m' p n : overwritten m k l m' → mapped m p n → mapped m' p n.
Proof.
  intros Ho Hm a Ha. rewrite Ho. destruct (decide (k <= a < k + zlength l)); [|by apply Hm].
  apply zlookup_is_Some. lia.
Qed.
Lemma overwritten_over m1 m2 m3 k l1 l2 : zlength l1 <= zlength l2 → overwritten m1 k l1 m2 → overwritten m2 k l2 m3 → overwritten m1 k l2 m3.
Proof.
  intros Hl H1 H2 a. rewrite H2. destruct (decide (k <= a < k + zlength l2)); [done|]. rewrite H1. by rewrite decide_False by lia.
Qed.
Lemma overwritten_app m1 m2 m3 k l1 l2 : overwritten m1 k l1 m2 → overwritten m2 (k + zlength l1) l2 m3 → overwritten m1 k (l1 ++ l2) m3.
Proof.
  intros H1 H2 a. rewrite H2, H1, zlength_app. pose proof (zlength_nonneg l1). pose proof (zlength_nonneg l2).
  destruct (decide (k + zlength l1 <= a < k + zlength l1 + zlength l2)).
  - rewrite decide_True by lia. rewrite zlookup_app_r by lia. f_equal. lia.
  - destruct (decide (k <= a < k + zlength l1)).
    + rewrite decide_True by lia. by rewrite zlookup_app_l by lia.
    + by rewrite decide_False by lia.
Qed.
Lemma overwritten_bytes m k l m' : overwritten m k l m' → bytes_at m' k l.
Proof. intros Ho i Hi. rewrite Ho, decide_True by lia. f_equal. lia. Qed.
End memory.

(** ** What backs a page *)

(** The file object [file] has the bytes [l] at [ofs]. *)
Definition file_range (kk : kfs) (file ofs : Z) (l : list Z) : Prop :=
  ∃ fl i cl, files kk !! file = Some fl ∧ f_inode fl ≠ 0 ∧ inodes (k_fs kk) !! f_inode fl = Some i ∧
    file_on (fs_vol (k_fs kk)) (i_data i) cl ∧ v_mem (fs_vol (k_fs kk)) = [] ∧ 0 <= ofs ∧
    l = take (length l) (drop (Z.to_nat ofs) (file_content (fs_vol (k_fs kk)) (i_data i) cl)) ∧ Forall is_byte l.
(** A part of a file, and zeros up to the end of the page. *)
Definition file_page_bytes (kk : kfs) (file ofs size zero : Z) (l : list Z) : Prop :=
  ∃ l1, l = l1 ++ zeros zero ∧ zlength l1 = size ∧ 0 <= zero ∧ size + zero = PGSIZE ∧ file_range kk file ofs l1.

(** The contents a page has when it is brought in. *)
Inductive backing (s : vm) : page → list Z → Prop :=
  | back_zero v fr w type aux : type ≠ VM_MMAP → type ≠ VM_FILE →
      backing s (Page uninit_ops v fr w (Uninit no_init type aux init_anon)) (zeros PGSIZE)
  | back_segment v fr w type aux i l : type ≠ VM_MMAP → type ≠ VM_FILE →
      objs s !! aux = Some (OInfo i) → file_page_bytes (v_k s) (li_file i) (li_offset i) (readbyte i) (zerobyte i) l →
      backing s (Page uninit_ops v fr w (Uninit lazy_load type aux init_anon)) l
  | back_mapping v fr w type aux m i l : type = VM_MMAP ∨ type = VM_FILE →
      objs s !! aux = Some (OMmap m) → objs s !! mi_info m = Some (OInfo i) →
      file_page_bytes (v_k s) (li_file i) (li_offset i) (readbyte i) (zerobyte i) l →
      backing s (Page uninit_ops v fr w (Uninit lazy_load type aux init_file)) l
  | back_file v fr w f l : file_page_bytes (v_k s) (fp_file f) (fp_offset f) (read_byte f) (zero_byte f) l →
      backing s (Page file_ops v fr w (FileData f)) l
  | back_swap v fr w idx l : wf_swap s → 0 <= idx < bit_cnt (swap_table s) → slot_holds (swap_disk s) idx l →
      page_bytes l → backing s (Page anon_ops v fr w (Anon idx)) l.

(** The frame at [k] has the contents [l]; otherwise only the page's own data and
    the objects it was made from have changed. *)
Record filled (p k : Z) (l : list Z) (s s' : vm) : Prop := {
  fl_mem : ∃ m, v_mmu s' = v_mmu (with_vbytes m s) ∧ overwritten (vbytes s) k l m;
  fl_page : ∃ x o d, objs s !! p = Some (OPage x) ∧ objs s' !! p = Some (OPage (set_data o d x)) ∧ o ≠ uninit_ops;
  fl_objs : ∀ q y, q ≠ p → objs s !! q = Some y → (∀ i, y ≠ OInfo i) → objs s' !! q = Some y;
  fl_dom : next_obj s' = next_obj s ∧ ∀ q, is_Some (objs s' !! q) → is_Some (objs s !! q);
  fl_rest : procs s' = procs s ∧ cur s' = cur s ∧ frame_table s' = frame_table s ∧ malloc_ok s' = malloc_ok s;
}.

Section fill.
Implicit Types (s : vm) (l : list Z) (k p : Z) (x : page).

Lemma file_read_wp kk file ofs l (Q : list Z → kfs → Prop) : file_range kk file ofs l → zlength l <= PGSIZE →
  (∀ kk', files kk' = files kk → Q l kk') → wp (file_read_at file (s32 (zlength l)) ofs) kk Q.
Proof.
  intros (fl & i & cl & Hfl & Hi0 & Hi & Hon & Hm & Hofs & Hl & Hby) Hsz HQ. unfold file_read_at, get_file. wp_pure.
  wp_step; [exact Hfl|]. unfold on_fs. wp_pure.
  eapply wp_mono; [by apply (inode_read_at_wp _ _ i cl)|]. intros r fs (v' & _ & -> & ->).
  unfold PGSIZE in Hsz. pose proof (zlength_nonneg l). rewrite s32_small by lia. unfold zlength. rewrite Nat2Z.id, <- Hl. by apply HQ.
Qed.

(** load_bytes, with the frame's bytes afterwards. *)
Lemma load_bytes_wp s file k ofs size zero l : file_page_bytes (v_k s) file ofs size zero l → 0 < k → mapped (vbytes s) k PGSIZE →
  wp (load_bytes file k size zero ofs) s (λ r s', r = true ∧ ∃ kk m, s' = with_k kk (with_vbytes m s) ∧ overwritten (vbytes s) k l m).
Proof.
  intros (l1 & -> & <- & Hz & Hsum & Hf) Hk Hm. pose proof (zlength_nonneg l1). unfold load_bytes, on_k. wp_pure.
  apply file_read_wp; [done|lia|]. intros kk _. wp_pure. apply wp_on_bytes. destruct Hf as (_ & _ & _ & _ & _ & _ & _ & _ & _ & _ & Hby).
  eapply wp_mono; [apply put_bytes_wp; [done|]|].
  { intros a Ha. simpl. apply Hm. lia. }
  intros [] m1 Ho1. rewrite s32_small by (unfold PGSIZE in *; lia). rewrite Z.eqb_refl. simpl. wp_pure. apply wp_on_bytes.
  eapply wp_mono; [apply memset_zero_wp; [lia|done|]|].
  { simpl. apply (overwritten_stays_mapped (vbytes s) k l1); [exact Ho1|]. intros a Ha. apply Hm. lia. }
  intros ? m2 Ho2. wp_pure. split; [done|]. exists kk, m2. split; [done|]. by apply (overwritten_app _ m1).
Qed.

(** *** The three tables of operations *)

Lemma filled_refl p k l s s' x o d m kk sw di objs' :
  objs s !! p = Some (OPage x) → o ≠ uninit_ops → overwritten (vbytes s) k l m →
  objs' !! p = Some (OPage (set_data o d x)) →
  (∀ q y, q ≠ p → objs s !! q = Some y → (∀ i, y ≠ OInfo i) → objs' !! q = Some y) →
  (∀ q, is_Some (objs' !! q) → is_Some (objs s !! q)) →
  s' = Vm (v_mmu (with_vbytes m s)) kk objs' (next_obj s) (malloc_ok s) (frame_table s) (clock_start s) sw di (procs s) (cur s) →
  filled p k l s s'.
Proof.
  intros Hx Ho Hm Hp Hq Hd ->. split; [by exists m|by exists x, o, d|done|done|done].
Qed.

Lemma lazy_load_wp s p k aux i x f l : objs s !! p = Some (OPage x) → objs s !! frame_of x = Some (OFrame f) → kva f = k →
  objs s !! aux = Some (OInfo i) → aux ≠ 0 →
  file_page_bytes (v_k s) (li_file i) (li_offset i) (readbyte i) (zerobyte i) l → 0 < k → mapped (vbytes s) k PGSIZE →
  wp (lazy_load_segment p aux) s (λ r s', r = true ∧ ∃ kk m, s' = with_objs (delete aux (objs s)) (with_k kk (with_vbytes m s)) ∧
    overwritten (vbytes s) k l m).
Proof.
  intros Hp Hf <- Ha Ha0 Hl Hk Hm. unfold lazy_load_segment. wp_pure. apply (wp_get_info _ _ i); [done|]. wp_pure.
  apply (wp_get_page _ _ x); [done|]. wp_pure. apply (wp_get_frame _ _ f); [done|]. wp_pure.
  eapply wp_mono; [by apply load_bytes_wp|]. intros r s' (-> & kk & m & -> & Ho). simpl. wp_pure. unfold free_obj.
  rewrite (proj2 (Z.eqb_neq aux 0)) by done. wp_pure. wp_step; [exact Ha|]. wp_pure. split; [done|]. by exists kk, m.
Qed.

Lemma anon_init_wp s p k type x f : objs s !! p = Some (OPage x) → objs s !! frame_of x = Some (OFrame f) → frame_of x ≠ p → p ≠ 0 →
  ref_cnt f = 1 → 0 < k → mapped (vbytes s) k PGSIZE →
  wp (anon_initializer p type k) s (λ r s', r = true ∧ ∃ m, overwritten (vbytes s) k (zeros PGSIZE) m ∧
    s' = with_vbytes m (with_objs (<[p := OPage (set_data anon_ops (Anon (-1)) x)]> (objs s)) s)).
Proof.
  intros Hp Hf Hne Hp0 Hr Hk Hm. unfold anon_initializer. rewrite (proj2 (Z.eqb_neq p 0)) by done. wp_pure.
  apply (wp_upd_page _ _ x); [done|]. wp_pure. eapply wp_get_page; [simpl; by rewrite lookup_insert_eq|].
  wp_pure. rewrite (proj2 (Z.eqb_neq k 0)) by lia. cbn [negb]. wp_pure. eapply wp_get_frame; [simpl; rewrite lookup_insert_ne by done; exact Hf|].
  rewrite Hr. simpl. wp_pure. apply wp_on_bytes. eapply wp_mono; [by apply memset_zero_wp|]. intros ? m Ho. wp_pure.
  split; [done|]. by exists m.
Qed.

(** Whatever backs a page, swap_in brings it in. *)
Lemma swap_in_wp_any s p k x f l : objs s !! p = Some (OPage x) → backing s x l → objs s !! frame_of x = Some (OFrame f) →
  kva f = k → ref_cnt f = 1 → frame_of x ≠ p → wf_objs s → 0 < k → mapped (vbytes s) k PGSIZE →
  wp (swap_in p k) s (λ r s', r = true ∧ filled p k l s s').
Proof.
  intros Hp Hb Hf Hkf Hr Hne Ho Hk Hm. destruct (proj2 Ho p) as [Hp0 _]; [by rewrite Hp|].
  unfold swap_in. wp_pure. apply (wp_get_page _ _ x); [done|].
  destruct Hb as [v fr w type aux Ht1 Ht2|v fr w type aux i l Ht1 Ht2 Ha Hl|v fr w type aux mi i l Ht Ha Hi Hl|v fr w fd l Hl|v fr w idx l Hws Hidx Hsl Hl];
    cbn [operations]; simpl in Hf, Hne.
  - unfold uninit_initialize. wp_pure. eapply wp_get_page; [exact Hp|]. simpl.
    rewrite (proj2 (Z.eqb_neq _ _) Ht1), (proj2 (Z.eqb_neq _ _) Ht2). simpl. wp_pure.
    eapply wp_mono; [apply (anon_init_wp s p k type _ f Hp); simpl; done || lia|]. intros r s' (-> & m & Hov & ->). simpl. wp_pure. split; [done|].
    eapply filled_refl; [exact Hp| |exact Hov|apply lookup_insert_eq| | |reflexivity]; [done| |].
    + intros q y Hq Hy _. by rewrite lookup_insert_ne.
    + intros q [<-|[_ Hq]]%lookup_insert_is_Some; [by rewrite Hp|done].
  - unfold uninit_initialize. wp_pure. eapply wp_get_page; [exact Hp|]. simpl.
    rewrite (proj2 (Z.eqb_neq _ _) Ht1), (proj2 (Z.eqb_neq _ _) Ht2). simpl. wp_pure.
    eapply wp_mono; [apply (anon_init_wp s p k type _ f Hp); simpl; done || lia|]. intros r s' (-> & m & Hov & ->). simpl.
    assert (Hap : p ≠ aux) by congruence. assert (Ha0 : aux ≠ 0) by (destruct (proj2 Ho aux) as [? _]; [by rewrite Ha|lia]).
    eapply wp_mono; [apply (lazy_load_wp _ p k aux i (set_data anon_ops (Anon (-1)) (Page uninit_ops v fr w (Uninit lazy_load type aux init_anon))) f l)|].
    + simpl. apply lookup_insert_eq.
    + simpl. by rewrite lookup_insert_ne.
    + done.
    + simpl. by rewrite lookup_insert_ne.
    + done.
    + exact Hl.
    + done.
    + simpl. by apply (overwritten_stays_mapped (vbytes s) k (zeros PGSIZE)).
    + intros r s' (-> & kk & m' & -> & Hov'). split; [done|]. simpl in Hov'.
      eapply (filled_refl _ _ _ _ _ _ anon_ops (Anon (-1)) m'); [exact Hp| | | | | |reflexivity].
      * done.
      * apply (overwritten_over _ m _ _ (zeros PGSIZE) l); [|done|done]. destruct Hl as (l1 & -> & <- & Hz & Hsum & _).
        rewrite zlength_app, !zeros_length by (done || lia). lia.
      * rewrite lookup_delete_ne by done. apply lookup_insert_eq.
      * intros q y Hq Hy Hny. rewrite lookup_delete_ne by congruence. simpl. by rewrite lookup_insert_ne.
      * intros q [_ Hq]%lookup_delete_is_Some. simpl in Hq. apply lookup_insert_is_Some in Hq as [<-|[_ Hq]]; [by rewrite Hp|done].
  - unfold uninit_initialize. wp_pure. eapply wp_get_page; [exact Hp|]. simpl.
    assert (((type =? VM_MMAP) || (type =? VM_FILE)) = true) as -> by (destruct Ht as [-> | ->]; done). wp_pure.
    apply (wp_get_mmap _ _ mi); [done|]. wp_pure. unfold file_backed_initializer. wp_pure.
    eapply wp_get_page; [exact Hp|]. unfold aux_of. cbn [data]. wp_pure. apply (wp_get_mmap _ _ mi); [done|]. wp_pure.
    apply (wp_get_info _ _ i); [done|]. wp_pure. eapply wp_upd_page; [exact Hp|]. wp_pure. simpl.
    assert (Hap : p ≠ mi_info mi) by congruence. assert (Ha0 : mi_info mi ≠ 0) by (destruct (proj2 Ho (mi_info mi)) as [? _]; [by rewrite Hi|lia]).
    eapply wp_mono; [eapply (lazy_load_wp _ p k (mi_info mi) i _ f l)|].
    + simpl. apply lookup_insert_eq.
    + simpl. by rewrite lookup_insert_ne.
    + done.
    + simpl. by rewrite lookup_insert_ne.
    + done.
    + exact Hl.
    + done.
    + done.
    + intros r s' (-> & kk & m' & -> & Hov'). split; [done|]. simpl in Hov'.
      eapply (filled_refl _ _ _ _ _ _ file_ops _ m'); [exact Hp| |exact Hov'| | | |reflexivity].
      * done.
      * rewrite lookup_delete_ne by done. apply lookup_insert_eq.
      * intros q y Hq Hy Hny. rewrite lookup_delete_ne by congruence. simpl. by rewrite lookup_insert_ne.
      * intros q [_ Hq]%lookup_delete_is_Some. simpl in Hq. apply lookup_insert_is_Some in Hq as [<-|[_ Hq]]; [by rewrite Hp|done].
  - unfold file_backed_swap_in. wp_pure. eapply wp_get_page; [exact Hp|]. unfold file_page_of. cbn [data]. wp_pure.
    eapply wp_mono; [by apply load_bytes_wp|]. intros r s' (-> & kk & m & -> & Hov). split; [done|].
    eapply (filled_refl _ _ _ _ _ _ file_ops (FileData fd)); [exact Hp|done|exact Hov|exact Hp|done|done|reflexivity].
  - unfold anon_swap_in. wp_pure. eapply wp_get_page; [exact Hp|]. unfold swap_idx_of. cbn [data]. wp_pure.
    rewrite (proj2 (Z.ltb_ge idx 0)) by lia. wp_pure. destruct Hl as [Hl Hby].
    eapply wp_mono; [apply (swap_read_wp s idx k l); done|]. intros [] s1 (d & m & -> & _ & Hov). unfold on_swap. wp_pure.
    eapply wp_mono; [apply bitmap_reset_wp; [apply Hws|done]|]. intros [] b' _. wp_pure.
    eapply wp_upd_page; [exact Hp|]. wp_pure. split; [done|].
    eapply filled_refl; [exact Hp| |exact Hov|apply lookup_insert_eq| | |reflexivity]; [done| |].
    + intros q y Hq Hy _. simpl. by rewrite lookup_insert_ne.
    + intros q [<-|[_ Hq]]%lookup_insert_is_Some; [by rewrite Hp|done].
Qed.
End fill.
