(* ===== verification/VmSpec.v ===== *)
(** * Page faults

    What vm_try_handle_fault does on each kind of fault: a page is brought in, the
    stack grows, a shared frame is copied, or the fault is refused; and no process
    sees a change anywhere else. *)
From stdpp Require Import base numbers list gmap.
From Stdlib Require Import ZArith Lia.
From S2P Require Import Prelude Bytes Fat Volume Inode InodeData InodeGrow File CString Bitmap Hash Palloc PallocInit Words Mmu MmuInv MmuWalk MmuSpec AddressSpace Isolation PageTables UserMem Vm VmSpt VmSwap VmFrame.
Open Scope Z_scope.

(** The current process is [pr], the page tables are [l], and there is memory for
    one more page. *)
Record can_load (s : vm) (l : list Z) (pr : proc) : Prop := {
  cl_tables : wf_tables s;
  cl_user : wf_user (v_mmu s) l;
  cl_proc : procs s !! cur s = Some pr;
  cl_in : pml4 pr ∈ l;
  cl_malloc : malloc_ok s = [];
  cl_free : user_free s;
  cl_few : ¬ few (m_ram (v_mmu s)) 3;
}.

(** The process [a] sees the contents [c] in its page [x]. *)
Definition sees (s : vm) (a u : Z) (c : list Z) : Prop :=
  ∀ ofs, 0 <= ofs < PGSIZE → user_byte (vbytes s) a (u + ofs) = zlookup c ofs.
(** The page [p], which was [x], is in a frame of its own and the process [a] sees
    the contents [c]; no process sees another change. *)
Record brought_in (s : vm) (l : list Z) (a p : Z) (x : page) (c : list Z) (s' : vm) : Prop := {
  bi_wf : wf_user (v_mmu s') l ∧ wf_tables s';
  bi_view : view_except a (va x) l (v_mmu s) (v_mmu s');
  bi_bytes : sees s' a (va x) c;
  bi_frame : ∃ f k o d, kernel_page k ∧ objs s' !! p = Some (OPage (set_data o d (set_frame_of f x))) ∧ o ≠ uninit_ops ∧
    objs s' !! f = Some (OFrame (Frame k 1 p)) ∧ frame_table s' = frame_table s ++ [f] ∧
    mapping (vbytes s') a (va x) = Some (page_entry k (writable x)) ∧ alone (v_mmu s') l k a (va x);
  bi_rest : procs s' = procs s ∧ cur s' = cur s ∧ malloc_ok s' = malloc_ok s;
  bi_pool : base (user_pool (m_ram (v_mmu s'))) = base (user_pool (m_ram (v_mmu s))) ∧
    bit_cnt (used_map (user_pool (m_ram (v_mmu s')))) = bit_cnt (used_map (user_pool (m_ram (v_mmu s))));
  bi_kernel : ∀ y, kept (m_ram (v_mmu s)) y → kernel_byte (v_mmu s) l y → vbytes s' !! y = vbytes s !! y;
}.

Section fault.
Implicit Types (s : vm) (l c : list Z) (k f p a u addr : Z) (x : page) (pr : proc).

Lemma linked_objs s p x k mm : wf_objs s → objs s !! p = Some (OPage x) → wf_objs (linked s p x k mm).
Proof.
  intros [Hn Ho] Hp. split; [simpl; lia|]. intros q. simpl. rewrite !lookup_insert_is_Some.
  destruct (Ho p) as [? ?]; [by rewrite Hp|]. intros [<-|[_ [<-|[_ Hq]]]]; [lia|lia|]. specialize (Ho q Hq). lia.
Qed.
Lemma linked_backing s p x k mm c : wf_objs s → objs s !! p = Some (OPage x) → backing s x c →
  backing (linked s p x k mm) (set_frame_of (next_obj s) x) c.
Proof.
  intros Ho Hp Hb. pose proof (fresh_obj s Ho) as Hf.
  assert (Hk : ∀ q y, objs s !! q = Some y → (∀ z, y ≠ OPage z) → objs (linked s p x k mm) !! q = Some y).
  { intros q y Hq Hy. simpl. rewrite !lookup_insert_ne; [done|intros <-; congruence..]. }
  destruct Hb as [v fr w type aux H1 H2|v fr w type aux i c H1 H2 Ha Hc|v fr w type aux mi i c Ht Ha Hi Hc|v fr w fd c Hc|v fr w idx c Hws Hi Hs Hc].
  - by apply back_zero.
  - apply (back_segment _ _ _ _ _ _ i); [done|done|by apply Hk|done].
  - apply (back_mapping _ _ _ _ _ _ mi i); [done|by apply Hk|by apply Hk|done].
  - by apply back_file.
  - apply back_swap; [by destruct Hws|done|done|done].
Qed.
Lemma backing_length s x c : backing s x c → zlength c = PGSIZE.
Proof.
  assert (Hf : ∀ kk file ofs size zero c', file_page_bytes kk file ofs size zero c' → zlength c' = PGSIZE).
  { intros kk file ofs size zero c' (l1 & -> & <- & Hz & Hsum & _). by rewrite zlength_app, zeros_length. }
  destruct 1 as [| | | |? ? ? ? ? ? ? ? []]; [by apply zeros_length|by eapply Hf..|done].
Qed.

(** The contents of the frame that is alone behind a page change. *)
Lemma fill_view (mm mm' s : mmu) l a u k (rw : bool) c0 c : entered_frame s l a u k rw c0 mm → zlength c = PGSIZE → a ∈ l → user_va own u → u mod PGSIZE = 0 →
  kernel_pool (m_ram mm') = kernel_pool (m_ram mm) → user_pool (m_ram mm') = user_pool (m_ram mm) → base_pml4 mm' = base_pml4 mm →
  overwritten (bytes mm) k c (bytes mm') →
  wf_user mm' l ∧ view_except a u l s mm' ∧ alone mm' l k a u ∧ mapping (bytes mm') a u = Some (page_entry k rw) ∧
  ∀ ofs, 0 <= ofs < PGSIZE → user_byte (bytes mm') a (u + ofs) = zlookup c ofs.
Proof.
  intros Hef Hc Ha Hu Hal Hkp Hup Hb Ho. pose proof (ef_wf _ _ _ _ _ _ _ _ Hef) as Hw. pose proof (ef_alone _ _ _ _ _ _ _ _ Hef) as Hon.
  pose proof (run_user_page _ _ _ (ef_used _ _ _ _ _ _ _ _ Hef)) as Hpg.
  assert (Hch : user_change k mm mm').
  { split; [|done|done|by rewrite Hup|by rewrite Hup|].
    - pose proof (wf_pages_mem (m_ram mm) (bytes mm')) as Hwf. rewrite <- Hkp, <- Hup in Hwf.
      destruct (m_ram mm') as [kp up m']. apply Hwf; [|apply (pr_ram _ _ (wu_proc _ _ Hw))].
      intros y Hy. simpl in Ho. rewrite Ho. destruct (decide _); [|done]. apply zlookup_is_Some. lia.
    - intros y Hy. rewrite Ho, Hc. by rewrite decide_False. }
  destruct (user_change_view k a u l mm mm' Hw Hpg Hon Hch) as (Hw' & Hv & Hm). split; [done|].
  split; [apply (view_trans _ _ _ _ mm); [apply Hef|done]|]. split; [by apply (alone_same k a u l mm)|].
  assert (Hmap : mapping (bytes mm') a u = Some (page_entry k rw)) by (rewrite Hm by done; apply Hef). split; [done|].
  intros ofs Hofs. rewrite (user_byte_frame mm' a u k rw) by (done || by apply (wf_user_kernel mm l k)).
  rewrite Ho, Hc, decide_True by lia. f_equal. lia.
Qed.

(** Claiming a page brings it in, when swap_in fills its frame. *)
Lemma claim_fills s l junk pr p x c (R : vm → Prop) : can_load s l pr → objs s !! p = Some (OPage x) → zlength c = PGSIZE →
  user_va own (va x) → va x mod PGSIZE = 0 →
  (∀ k mm, 0 < k → mapped (bytes mm) k PGSIZE → wf_objs (linked s p x k mm) →
     wp (swap_in p k) (linked s p x k mm) (λ r s', r = true ∧ filled p k c (linked s p x k mm) s' ∧ R s')) →
  wp (vm_do_claim_page junk p) s (λ r s', r = true ∧ brought_in s l (pml4 pr) p x c s' ∧ R s').
Proof.
  intros [Ht Hw Hpr Ha Hm Hfree Hfew] Hp Hc Hu Hal Hswap. pose proof (wt_objs _ Ht) as Ho. pose proof (fresh_obj s Ho) as Hnew.
  assert (Hpf : next_obj s ≠ p) by congruence.
  apply (claim_wp s l junk pr p x); [done..|]. intros k mm Hef.
  pose proof (run_user_page _ _ _ (ef_used _ _ _ _ _ _ _ _ Hef)) as Hpg. pose proof (ef_wf _ _ _ _ _ _ _ _ Hef) as Hwm.
  pose proof (wf_user_kernel mm l k Hwm Hpg) as [_ Hkr].
  eapply wp_mono.
  { apply Hswap; [unfold KERN_BASE in Hkr; lia| |by apply linked_objs].
    intros y Hy. pose proof (ef_bytes _ _ _ _ _ _ _ _ Hef (y - k)) as Hz. replace (k + (y - k)) with y in Hz by lia.
    rewrite zeros_length, zeros_lookup in Hz by (done || lia). exists 0. apply Hz. lia. }
  intros r s' (-> & [(m & Hmm & Hov) (y & o & d & Hy & Hy' & Hop) Hobjs [Hnext Hdom] (Hprocs & Hcur & Hft & Hmal)] & HR). split; [done|]. split; [|exact HR].
  simpl in Hy. rewrite lookup_insert_eq in Hy. injection Hy as <-.
  destruct (fill_view mm (v_mmu s') (v_mmu s) l (pml4 pr) (va x) k (writable x) (zeros PGSIZE) c Hef Hc Ha Hu Hal) as (H1 & H2 & H3 & H4 & H5);
    [by rewrite Hmm..|].
  assert (Hss : same_shape s s').
  { split; [by rewrite Hprocs| | |].
    - split; [rewrite Hnext; simpl; destruct Ho; lia|]. rewrite Hnext. intros q Hq. apply Hdom in Hq. by apply (linked_objs s p x k mm).
    - intros e y Hy. apply Hobjs; [congruence| |done]. simpl. by rewrite !lookup_insert_ne by congruence.
    - intros q y Hy. destruct (decide (q = p)) as [->|Hqp].
      + eexists. split; [exact Hy'|]. by assert (y = x) as -> by congruence.
      + exists y. split; [|done]. apply Hobjs; [done| |done]. simpl. by rewrite !lookup_insert_ne by congruence. }
  destruct (ef_pool _ _ _ _ _ _ _ _ Hef) as [Hub Huc]. pose proof (wf_user_kernel mm l k Hwm Hpg) as Hkk.
  split; [split; [done|by apply (same_shape_wf s)]|done|done| |done|by rewrite Hmm|].
  - exists (next_obj s), k, o, d. split; [done|]. split; [done|]. split; [done|]. split; [|done]. apply Hobjs; [done| |done].
    simpl. rewrite lookup_insert_ne by done. apply lookup_insert_eq.
  - intros y Hy1 Hy2. rewrite Hmm. simpl in Hov. simpl. rewrite Hov, Hc, decide_False; [by apply (ef_kernel _ _ _ _ _ _ _ _ Hef)|].
    intros Hyk. destruct Hy2 as [Hy2 _]. apply Hy2. destruct Hpg as (_ & P2 & P3). unfold in_pool, pool_end in *. rewrite <- Hub, <- Huc. lia.
Qed.
(** A page's backing is enough for that. *)
Lemma claim_brings s l junk pr p x c : can_load s l pr → objs s !! p = Some (OPage x) → backing s x c →
  user_va own (va x) → va x mod PGSIZE = 0 →
  wp (vm_do_claim_page junk p) s (λ r s', r = true ∧ brought_in s l (pml4 pr) p x c s').
Proof.
  intros Hcl Hp Hb Hu Hal. pose proof (wt_objs _ (cl_tables _ _ _ Hcl)) as Ho. pose proof (fresh_obj s Ho) as Hnew.
  assert (Hpf : next_obj s ≠ p) by congruence.
  eapply wp_mono; [apply (claim_fills s l junk pr p x c (λ _, True) Hcl Hp (backing_length s x c Hb) Hu Hal)|]; [|by intros r s' (? & ? & _)].
  intros k mm Hk Hmap Hlo.
  eapply wp_mono; [apply (swap_in_wp_any _ p k (set_frame_of (next_obj s) x) (Frame k 1 p) c)|by intros r s' [? ?]]; try done.
  - simpl. apply lookup_insert_eq.
  - by apply linked_backing.
  - simpl. rewrite lookup_insert_ne by done. apply lookup_insert_eq.
Qed.
(** A page of zeros needs no file, and everything else stays as it is. *)
Lemma claim_zero s l junk pr p x type aux : can_load s l pr → objs s !! p = Some (OPage x) → type ≠ VM_MMAP → type ≠ VM_FILE →
  operations x = uninit_ops → data x = Uninit no_init type aux init_anon → user_va own (va x) → va x mod PGSIZE = 0 →
  wp (vm_do_claim_page junk p) s (λ r s', r = true ∧ brought_in s l (pml4 pr) p x (zeros PGSIZE) s' ∧
    v_k s' = v_k s ∧ (∀ q y, q ≠ p → objs s !! q = Some y → objs s' !! q = Some y) ∧ swap_table s' = swap_table s ∧ swap_disk s' = swap_disk s).
Proof.
  intros Hcl Hp Ht1 Ht2 Hops Hdata Hu Hal. pose proof (wt_objs _ (cl_tables _ _ _ Hcl)) as Ho. pose proof (fresh_obj s Ho) as Hnew.
  assert (Hpf : next_obj s ≠ p) by congruence. destruct (proj2 Ho p) as [Hp0 _]; [by rewrite Hp|].
  apply (claim_fills s l junk pr p x); [done|done|by apply zeros_length|done|done|]. intros k mm Hk Hmap Hlo.
  assert (Hp' : objs (linked s p x k mm) !! p = Some (OPage (set_frame_of (next_obj s) x))) by (simpl; apply lookup_insert_eq).
  unfold swap_in. wp_pure. apply (wp_get_page _ _ _ _ Hp'). cbn [operations set_frame_of]. rewrite Hops. wp_pure.
  unfold uninit_initialize. wp_pure. apply (wp_get_page _ _ _ _ Hp'). cbn [data set_frame_of]. rewrite Hdata. wp_pure.
  rewrite (proj2 (Z.eqb_neq _ _) Ht1), (proj2 (Z.eqb_neq _ _) Ht2). simpl. wp_pure.
  eapply wp_mono; [apply (anon_init_wp _ p k type _ (Frame k 1 p) Hp')|]; simpl; try (done || lia).
  { rewrite lookup_insert_ne by done. apply lookup_insert_eq. }
  intros r s' (-> & m & Hov & ->). wp_pure. split; [done|]. split.
  - eapply filled_refl; [exact Hp'| |exact Hov|apply lookup_insert_eq| | |reflexivity]; [done| |].
    + intros q y Hq Hy _. by rewrite lookup_insert_ne.
    + intros q [<-|[_ Hq]]%lookup_insert_is_Some; [by rewrite Hp'|done].
  - simpl. split; [done|]. split; [|done]. intros q y Hq Hy. by rewrite !lookup_insert_ne by congruence.
Qed.

Lemma spt_find_page_wp s pr addr (Q : Z → vm → Prop) : wf_tables s → procs s !! cur s = Some pr →
  (∀ p x, maps s (cur s) (pg_round_down addr) p → p ≠ 0 → objs s !! p = Some (OPage x) → va x = pg_round_down addr → Q p s) →
  ((∀ p, ¬ maps s (cur s) (pg_round_down addr) p) → Q 0 s) → wp (spt_find_page (cur s) addr) s Q.
Proof.
  intros Hw Hpr H1 H2. apply (spt_find_wp s (cur s) pr); [apply Hw|by apply (wt_spt _ Hw)| |done].
  intros p Hp Hm (x & Hx & Hva). by apply (H1 p x).
Qed.
Lemma round_twice addr : pg_round_down (pg_round_down addr) = pg_round_down addr ∧ pg_round_down addr mod PGSIZE = 0.
Proof. rewrite !pg_round_down_sub. unfold PGSIZE. split; zdiv. Qed.

(** *** A page that is shared until it is written *)

(** The page [x] of [a] is in a frame with the contents [c]. *)
Record in_frame (s : vm) (l : list Z) (a : Z) (x : page) (n q : Z) (k : Z) (c : list Z) : Prop := {
  if_frame : objs s !! frame_of x = Some (OFrame (Frame k n q));
  if_map : ∃ w, mapping (vbytes s) a (va x) = Some (page_entry k w);
  if_bytes : bytes_at (vbytes s) k c;
  if_page : page_bytes c;
}.

Lemma in_frame_run s l a x n q k c : wf_user (v_mmu s) l → a ∈ l → user_va own (va x) → kernel_page k → in_frame s l a x n q k c →
  run_of (user_pool (m_ram (v_mmu s))) k 1 true.
Proof.
  intros Hw Ha Hu Hk [_ [w Hm] _ _]. destruct (page_entry_ok k w Hk) as (_ & _ & _ & Ht). rewrite <- Ht.
  by apply (wu_used _ _ Hw a (va x)).
Qed.

(** A fresh frame that has been filled. *)
Lemma fill_fresh (mm mm1 mm2 : mmu) k c : fresh_frame mm k (zeros PGSIZE) mm1 → zlength c = PGSIZE →
  (∀ y, is_Some (bytes mm1 !! y) → is_Some (bytes mm2 !! y)) → ram_ok (m_ram mm1) →
  kernel_pool (m_ram mm2) = kernel_pool (m_ram mm1) → user_pool (m_ram mm2) = user_pool (m_ram mm1) → base_pml4 mm2 = base_pml4 mm1 →
  overwritten (bytes mm1) k c (bytes mm2) → fresh_frame mm k c mm2.
Proof.
  intros [H1 H2 [U1 U2 U3 U4 U5 U6] H4] Hc Hmapped [Hwf _] Hkp Hup Hb Ho. split.
  - done.
  - by rewrite Hup.
  - split; [|by rewrite Hb|by rewrite Hkp|by rewrite Hup|by rewrite Hup|].
    + pose proof (wf_pages_mem (m_ram mm1) (bytes mm2) Hmapped Hwf) as Hw2. rewrite <- Hkp, <- Hup in Hw2. by destruct (m_ram mm2).
    + intros y Hy. rewrite Ho, Hc, decide_False by done. by apply U6.
  - intros i Hi. rewrite Ho, decide_True by lia. f_equal. lia.
Qed.

Lemma sees_frame s l a u k rw c : wf_user (v_mmu s) l → kernel_page k → mapping (vbytes s) a u = Some (page_entry k rw) → u mod PGSIZE = 0 →
  bytes_at (vbytes s) k c → zlength c = PGSIZE → sees s a u c.
Proof.
  intros Hw Hk Hm Hu Hb Hc ofs Ho. rewrite (user_byte_frame _ a u k rw) by done. apply Hb. lia.
Qed.

(** What a write to a page in a frame with [n] users leads to: the page is in the
    frame [k], alone and writable, and everyone sees what they saw. *)
Record made_writable (s : vm) (l : list Z) (a p : Z) (x : page) (n q k0 : Z) (k : Z) (s' : vm) : Prop := {
  mw_wf : wf_user (v_mmu s') l ∧ wf_tables s';
  mw_view : ∀ b v, b ∈ l → user_va own v → user_byte (vbytes s') b v = user_byte (vbytes s) b v;
  mw_map : mapping (vbytes s') a (va x) = Some (page_entry k true);
  mw_alone : alone (v_mmu s') l k a (va x);
  mw_objs : if 1 <? n then k ≠ k0 ∧ ∃ f, objs s' !! p = Some (OPage (set_frame_of f x)) ∧ objs s' !! f = Some (OFrame (Frame k 1 0)) ∧
      objs s' !! frame_of x = Some (OFrame (Frame k0 (n - 1) q))
    else k = k0 ∧ objs s' !! p = Some (OPage x) ∧ objs s' !! frame_of x = Some (OFrame (Frame k0 n p));
}.
Lemma view_whole s s' l a u c : view_except a u l (v_mmu s) (v_mmu s') → sees s a u c → sees s' a u c → u mod PGSIZE = 0 →
  ∀ b v, b ∈ l → user_va own v → user_byte (vbytes s') b v = user_byte (vbytes s) b v.
Proof.
  intros Hv H1 H2 Hu b v Hb Hva. destruct (decide (b = a ∧ v / PGSIZE = u / PGSIZE)) as [[-> Hd]|Hn].
  - replace v with (u + (v - u)) by lia. rewrite H1, H2; [done|unfold PGSIZE in *; zdiv..].
  - by apply Hv.
Qed.
Lemma in_frame_sees s l a x n q k c : wf_user (v_mmu s) l → kernel_page k → va x mod PGSIZE = 0 → in_frame s l a x n q k c → sees s a (va x) c.
Proof.
  intros Hw Hk Hal Hin. destruct (if_map _ _ _ _ _ _ _ _ Hin) as [w Hm]. apply (sees_frame s l _ _ k w); [done..|apply Hin|].
  by apply (if_page _ _ _ _ _ _ _ _ Hin).
Qed.

(** vm_handle_wp on a frame that has other users. *)
Lemma handle_wp_copies s l junk pr p x n q k0 c : can_load s l pr → objs s !! p = Some (OPage x) → user_va own (va x) → va x mod PGSIZE = 0 →
  kernel_page k0 → in_frame s l (pml4 pr) x n q k0 c → 1 < n →
  wp (vm_handle_wp junk p) s (λ r s', r = true ∧ ∃ k, made_writable s l (pml4 pr) p x n q k0 k s').
Proof.
  intros [Ht Hw Hpr Ha Hm Hfree Hfew] Hp Hu Hal Hk0 Hin Hn. pose proof (wt_objs _ Ht) as Ho. pose proof (fresh_obj s Ho) as Hnew.
  pose proof (in_frame_run s l _ x n q k0 c Hw Ha Hu Hk0 Hin) as Hrun. pose proof (in_frame_sees s l _ x n q k0 c Hw Hk0 Hal Hin) as Hsees. destruct Hin as [Hf _ Hby [Hc Hcb]].
  assert (Hpf : p ≠ next_obj s) by congruence. assert (Hff : frame_of x ≠ next_obj s) by congruence. assert (Hfp : frame_of x ≠ p) by congruence.
  destruct (proj2 Ho p) as [Hp0 _]; [by rewrite Hp|].
  unfold vm_handle_wp. rewrite (proj2 (Z.eqb_neq p 0)) by lia. wp_pure. apply (wp_get_page _ _ x); [done|]. wp_pure.
  eapply wp_get_frame; [exact Hf|]. wp_pure. apply (wp_this_proc _ pr); [done|]. simpl. rewrite (proj2 (Z.ltb_lt 1 n)) by done. wp_pure.
  apply get_frame_wp; [apply (pr_ram _ _ (wu_proc _ _ Hw))|done|done|done|]. intros k mm1 Hfr. wp_pure.
  eapply wp_upd_page; [simpl; rewrite lookup_insert_ne by done; exact Hp|]. wp_pure.
  eapply wp_get_frame; [simpl; rewrite lookup_insert_ne by done; by rewrite lookup_insert_eq|]. wp_pure. simpl. apply wp_on_bytes.
  pose proof (ff_free _ _ _ _ Hfr) as Hkfree. pose proof (run_user_page _ _ _ Hkfree) as Hkp.
  pose proof (wf_user_kernel _ l k Hw Hkp) as [Hkal Hkr].
  assert (Hne : k ≠ k0).
  { intros ->. destruct Hrun as (_ & _ & _ & Hr1), Hkfree as (_ & _ & _ & Hr2). specialize (Hr1 k0). specialize (Hr2 k0).
    unfold PGSIZE in *. rewrite Hr1 in Hr2 by lia. discriminate Hr2. lia. }
  assert (Hap : ∀ y, k0 <= y < k0 + PGSIZE → ¬ (k <= y < k + PGSIZE)) by (intros y Hy; apply (frames_apart k0 k); [apply Hk0|done|done|done]).
  assert (Hsrc : bytes_at (bytes mm1) k0 c).
  { intros i Hi. rewrite (uc_bytes _ _ _ (ff_change _ _ _ _ Hfr)); [by apply Hby|]. apply Hap. lia. }
  assert (Hdst : mapped (bytes mm1) k PGSIZE).
  { intros y Hy. pose proof (ff_bytes _ _ _ _ Hfr (y - k)) as Hz. rewrite zeros_length, zeros_lookup in Hz by (done || lia).
    replace (k + (y - k)) with y in Hz by lia. exists 0. apply Hz. lia. }
  rewrite <- Hc at 1. eapply wp_mono; [apply (memcpy_wp _ k k0 c)|].
  - done.
  - unfold KERN_BASE in *. lia.
  - destruct Hk0 as [_ ?]. unfold KERN_BASE in *. lia.
  - exact Hsrc.
  - by rewrite Hc.
  - rewrite Hc. destruct (pages_apart k k0); [done|apply Hk0|done|..]; unfold PGSIZE in *; lia.
  - intros r m2 (-> & Hov). wp_pure. eapply wp_upd_frame.
    { simpl. rewrite !lookup_insert_ne by done. exact Hf. }
    wp_pure. unfold on_mmu. wp_pure.
    set (mm2 := v_mmu (with_vbytes m2 (framed s k mm1))).
    assert (Hram1 : ram_ok (m_ram mm1)).
    { destruct (user_change_view k 0 0 l (v_mmu s) mm1 Hw Hkp (alone_free _ l k 0 0 Hw Hkfree) (ff_change _ _ _ _ Hfr)) as (Hw1 & _).
      apply (pr_ram _ _ (wu_proc _ _ Hw1)). }
    assert (Hfr2 : fresh_frame (v_mmu s) k c mm2).
    { apply (fill_fresh _ mm1); [done|done| |done|done|done|done|exact Hov]. intros y Hy. simpl in Hov. simpl. rewrite Hov.
      destruct (decide _); [|done]. apply zlookup_is_Some. lia. }
    eapply wp_mono; [apply (enter_wp (v_mmu s) mm2 l _ _ _ _ c); done|]. intros ok mm3 [-> Hef]. split; [done|].
    exists k. pose proof (ef_wf _ _ _ _ _ _ _ _ Hef) as Hw3.
    match goal with |- made_writable _ _ _ _ _ _ _ _ _ ?z => set (s' := z) end.
    assert (Hs' : sees s' (pml4 pr) (va x) c).
    { apply (sees_frame s' l _ _ k true); [exact Hw3|by split|exact (ef_map _ _ _ _ _ _ _ _ Hef)|done|exact (ef_bytes _ _ _ _ _ _ _ _ Hef)|done]. }
    split.
    + split; [exact Hw3|]. apply (same_shape_wf s); [done|]. split; [done| | |].
      * split; [simpl; destruct Ho; lia|]. intros z. simpl. rewrite !lookup_insert_is_Some. destruct Ho as [Hn0 Ho].
        destruct (Ho p) as [? ?]; [by rewrite Hp|]. destruct (Ho (frame_of x)) as [? ?]; [by rewrite Hf|].
        intros [<-|[_ [<-|[_ [<-|[_ Hz]]]]]]; [lia..|]. specialize (Ho z Hz). lia.
      * intros e y Hy. simpl. by rewrite !lookup_insert_ne by congruence.
      * intros z y Hy. simpl. rewrite lookup_insert_ne by congruence. destruct (decide (z = p)) as [->|Hz].
        -- rewrite lookup_insert_eq. eexists. split; [done|]. by assert (y = x) as -> by congruence.
        -- exists y. by rewrite !lookup_insert_ne by congruence.
    + exact (view_whole s s' l (pml4 pr) (va x) c (ef_view _ _ _ _ _ _ _ _ Hef) Hsees Hs' Hal).
    + exact (ef_map _ _ _ _ _ _ _ _ Hef).
    + exact (ef_alone _ _ _ _ _ _ _ _ Hef).
    + simpl. rewrite (proj2 (Z.ltb_lt 1 n)) by done. split; [done|]. exists (next_obj s).
      rewrite lookup_insert_ne, lookup_insert_eq by done. split; [done|]. rewrite !lookup_insert_eq, !lookup_insert_ne, lookup_insert_eq by done. done.
Qed.

(** vm_handle_wp on a frame that the page has to itself. *)
Lemma handle_wp_owns s l junk pr p x n q k0 c : can_load s l pr → objs s !! p = Some (OPage x) → user_va own (va x) → va x mod PGSIZE = 0 →
  kernel_page k0 → in_frame s l (pml4 pr) x n q k0 c → n <= 1 → alone (v_mmu s) l k0 (pml4 pr) (va x) →
  wp (vm_handle_wp junk p) s (λ r s', r = true ∧ made_writable s l (pml4 pr) p x n q k0 k0 s').
Proof.
  intros [Ht Hw Hpr Ha Hm Hfree Hfew] Hp Hu Hal Hk0 Hin Hn Hon. pose proof (wt_objs _ Ht) as Ho. pose proof (in_frame_run s l _ x n q k0 c Hw Ha Hu Hk0 Hin) as Hrun. pose proof (in_frame_sees s l _ x n q k0 c Hw Hk0 Hal Hin) as Hsees. destruct Hin as [Hf _ Hby [Hc Hcb]].
  destruct (proj2 Ho p) as [Hp0 _]; [by rewrite Hp|].
  unfold vm_handle_wp. rewrite (proj2 (Z.eqb_neq p 0)) by lia. wp_pure. apply (wp_get_page _ _ x); [done|]. wp_pure.
  eapply wp_get_frame; [exact Hf|]. wp_pure. apply (wp_this_proc _ pr); [done|]. simpl. rewrite (proj2 (Z.ltb_ge 1 n)) by done. wp_pure.
  eapply wp_upd_frame; [exact Hf|]. wp_pure. unfold on_mmu. wp_pure.
  eapply wp_mono; [apply (set_page_wp own); [by apply (pr_space _ _ (wu_proc _ _ Hw))|done|done|done]|].
  intros ok mm Hres. destruct ok; [|by destruct Hres as (_ & _ & _ & _ & Hno)]. split; [done|].
  destruct (set_page_view (pml4 pr) (va x) k0 true l (v_mmu s) mm Hw Ha Hu Hal Hrun Hon Hres) as (Hw' & Hv & Hon' & Hmap & _ & Hby' & _).
  match goal with |- made_writable _ _ _ _ _ _ _ _ _ ?z => set (s' := z) end.
  assert (Hs' : sees s' (pml4 pr) (va x) c).
  { apply (sees_frame s' l _ _ k0 true); [exact Hw'|done|exact Hmap|done| |done]. intros i Hi. simpl. rewrite Hby'; [by apply Hby|].
    destruct Hrun as (_ & H2 & H3 & _). unfold in_pool. lia. }
  split; [split; [exact Hw'|]|exact (view_whole s s' l (pml4 pr) (va x) c Hv Hsees Hs' Hal)|exact Hmap|exact Hon'|].
  - apply (same_shape_wf s); [done|]. split; [done| | |].
    + destruct Ho as [Hn0 Ho]. split; [done|]. intros z. simpl. rewrite lookup_insert_is_Some.
      intros [<-|[_ Hz]]; [apply Ho; by rewrite Hf|by apply Ho].
    + intros e y Hy. simpl. by rewrite lookup_insert_ne by congruence.
    + intros z y Hy. exists y. simpl. by rewrite lookup_insert_ne by congruence.
  - simpl. rewrite (proj2 (Z.ltb_ge 1 n)), lookup_insert_eq, lookup_insert_ne by (done || congruence). done.
Qed.

(** vm_try_handle_fault, once the page has been looked up. *)
Lemma fault_found s pr junk addr (user write not_present : bool) p x (Q : bool → vm → Prop) :
  wf_tables s → procs s !! cur s = Some pr → maps s (cur s) (pg_round_down addr) p → objs s !! p = Some (OPage x) →
  wp (if write && negb (writable x) then mret false else
      if write && writable x && negb (frame_of x =? 0) then vm_handle_wp junk p else vm_do_claim_page junk p) s Q →
  wp (vm_try_handle_fault junk addr user write not_present) s Q.
Proof.
  intros Ht Hpr Hm Hp HQ. destruct (round_twice addr) as [Hr _]. unfold vm_try_handle_fault. wp_pure. apply (wp_this_proc _ pr); [done|].
  wp_pure. apply (spt_find_page_wp s pr); [done|done| |]; rewrite Hr.
  - intros p' x' Hm' Hp0 Hx' Hva. assert (p' = p) as -> by (by apply (maps_inj s (cur s) pr (pg_round_down addr) p'); [by apply (wt_spt _ Ht)|..]).
    rewrite (proj2 (Z.eqb_neq p 0)) by done. cbn [andb]. wp_pure. by apply (wp_get_page _ _ x).
  - intros Hno. by destruct (Hno p).
Qed.
(** And once no page has been found. *)
Lemma fault_absent s pr junk addr (user write not_present : bool) (Q : bool → vm → Prop) :
  wf_tables s → procs s !! cur s = Some pr → (∀ p, ¬ maps s (cur s) (pg_round_down addr) p) →
  wp (if stack_fault (user_rsp pr) (pg_round_down addr) then _ ← vm_stack_growth junk (pg_round_down addr); mret true else mret false) s Q →
  wp (vm_try_handle_fault junk addr user write not_present) s Q.
Proof.
  intros Ht Hpr Hno HQ. destruct (round_twice addr) as [Hr _]. unfold vm_try_handle_fault. wp_pure. apply (wp_this_proc _ pr); [done|].
  wp_pure. apply (spt_find_page_wp s pr); [done|done| |]; rewrite Hr.
  - intros p x Hm _ _ _. by destruct (Hno p).
  - intros _. cbn [Z.eqb andb]. by destruct (stack_fault _ _).
Qed.
End fault.

(** ** Properties *)

(** C26: A fault on a page that has no frame brings it in, whatever backs it
    (zeros, a segment of the executable, a mapped file or the swap disk): the call
    answers true, the process sees the contents in the page, with the page's right to
    write, the frame is used for nothing else, and no process sees another change. The
    address is below 2^39, and it is about the way through vm_get_frame without an
    eviction: the user pool has a free page, the kernel pool three, and malloc does
    not fail ([can_load]). *)
Theorem page_fault_loads s l pr junk addr user write not_present p x c :
  can_load s l pr → maps s (cur s) (pg_round_down addr) p → objs s !! p = Some (OPage x) → frame_of x = 0 → backing s x c →
  user_va own (pg_round_down addr) → (write = true → writable x = true) →
  ∃ s', vm_try_handle_fault junk addr user write not_present s = Done (true, s') ∧ brought_in s l (pml4 pr) p x c s'.
Proof.
  intros Hcl Hm Hp Hf0 Hb Hu Hwr. pose proof (cl_tables _ _ _ Hcl) as Ht. pose proof (cl_proc _ _ _ Hcl) as Hpr.
  apply wp_run_val, (fault_found _ pr _ _ _ _ _ p x); [done..|]. destruct (maps_page s _ _ p Ht Hm) as (x' & Hx' & Hva).
  assert (x' = x) as -> by congruence. rewrite Hf0. 
  rewrite Bool.andb_false_r. destruct (write && negb (writable x)) eqn:Hw.
  { apply andb_prop in Hw as [H1 H2]. by rewrite Hwr in H2. }
  apply (claim_brings s l junk pr p x c); [done..| |]; rewrite Hva; [done|]. apply round_twice.
Qed.

(** C27: A write fault on a page that is in a frame: a frame that other processes
    use is copied, and the page is entered, writable, with a frame of its own, while
    the old frame has one user less; a frame without other users becomes writable.
    Every process, also the one that writes, sees the bytes it saw before. The address
    is below 2^39, a frame with one user is mapped for that user only, and the copy
    takes its frame without an eviction: the user pool has a free page, the kernel
    pool three, and malloc does not fail ([can_load]). *)
Theorem copy_on_write s l pr junk addr user not_present p x n q k0 c :
  can_load s l pr → maps s (cur s) (pg_round_down addr) p → objs s !! p = Some (OPage x) → writable x = true →
  user_va own (pg_round_down addr) → kernel_page k0 → in_frame s l (pml4 pr) x n q k0 c →
  (n <= 1 → alone (v_mmu s) l k0 (pml4 pr) (va x)) →
  ∃ s' k, vm_try_handle_fault junk addr user true not_present s = Done (true, s') ∧ made_writable s l (pml4 pr) p x n q k0 k s'.
Proof.
  intros Hcl Hm Hp Hwr Hu Hk0 Hin Hal. pose proof (cl_tables _ _ _ Hcl) as Ht. destruct (round_twice addr) as [_ Hmod].
  destruct (maps_page s _ _ p Ht Hm) as (x' & Hx' & Hva). assert (x' = x) as -> by congruence. rewrite <- Hva in Hu, Hmod.
  destruct (proj2 (wt_objs _ Ht) (frame_of x)) as [Hf0 _]; [by rewrite (if_frame _ _ _ _ _ _ _ _ Hin)|].
  assert (Hgo : wp (vm_handle_wp junk p) s (λ r s', r = true ∧ ∃ k, made_writable s l (pml4 pr) p x n q k0 k s')).
  { destruct (Z.lt_ge_cases 1 n) as [Hn|Hn]; [by apply (handle_wp_copies s l junk pr p x n q k0 c)|].
    eapply wp_mono; [by apply (handle_wp_owns s l junk pr p x n q k0 c), Hal|]. intros r s' [-> Hmw]. eauto. }
  destruct (wp_run_val (vm_try_handle_fault junk addr user true not_present) s true (λ s', ∃ k, made_writable s l (pml4 pr) p x n q k0 k s')) as (s' & Hrun & k & Hk); [|by exists s', k].
  apply (fault_found s pr _ _ _ _ _ p x _ (cl_tables _ _ _ Hcl) (cl_proc _ _ _ Hcl) Hm Hp).
  by rewrite Hwr, (proj2 (Z.eqb_neq (frame_of x) 0)) by lia.
Qed.

(** C30: Faults that are refused change nothing: a fault on an address without a
    page that is not near the stack, and a write to a page that may not be
    written. *)
Theorem fault_refused s pr junk addr user write not_present :
  wf_tables s → procs s !! cur s = Some pr →
  (∀ p, ¬ maps s (cur s) (pg_round_down addr) p) ∧ stack_fault (user_rsp pr) (pg_round_down addr) = false ∨
  write = true ∧ (∃ p x, maps s (cur s) (pg_round_down addr) p ∧ objs s !! p = Some (OPage x) ∧ writable x = false) →
  vm_try_handle_fault junk addr user write not_present s = Done (false, s).
Proof.
  intros Ht Hpr Hcase. apply wp_run_eq. destruct Hcase as [[Hno Hst]|[-> (p & x & Hm & Hp & Hwr)]].
  - apply (fault_absent s pr); [done..|]. rewrite Hst. by wp_pure.
  - apply (fault_found s pr _ _ _ _ _ p x); [done..|]. rewrite Hwr. simpl. by wp_pure.
Qed.


(** The answer of spt_find_page. *)
Definition found (s : vm) (t v q : Z) : Prop := q ≠ 0 ∧ maps s t (pg_round_down v) q ∨ q = 0 ∧ ∀ p, ¬ maps s t (pg_round_down v) p.
Lemma spt_find_run s t pr v : wf_tables s → procs s !! t = Some pr → ∃ q, spt_find_page t v s = Done (q, s) ∧ found s t v q.
Proof.
  intros Hw Hpr. assert (Hwp : wp (spt_find_page t v) s (λ q s', s' = s ∧ found s t v q)).
  { apply (spt_find_wp s t pr); [apply Hw|by apply (wt_spt _ Hw)| |].
    - intros q Hq Hm _. split; [done|by left].
    - intros Hno. split; [done|by right]. }
  destruct (wp_run _ _ _ Hwp) as (q & s' & Hrun & -> & Hf). eauto.
Qed.
Lemma found_unique s t pr v q q' : wf_tables s → procs s !! t = Some pr → found s t v q → found s t v q' → q = q'.
Proof.
  intros Hw Hpr [[H1 H2]|[-> H2]] [[H3 H4]|[-> H4]]; [|by destruct (H4 q)|by destruct (H2 q')|done].
  by apply (maps_inj s t pr (pg_round_down v)); [apply (wt_spt _ Hw)|..].
Qed.

(** vm_alloc_page_with_initializer answers true exactly when the process has no
    page at the address; then spt_find_page finds the new page at every address
    in it, with the initializer and the right to write that were asked for, and
    all other answers of spt_find_page, for all processes, are what they were. *)
Theorem vm_alloc_spec s pr type upage w init aux ini :
  wf_tables s → procs s !! cur s = Some pr → upage mod PGSIZE = 0 → initializer_of type = Some ini →
  VM_TYPE type ≠ VM_UNINIT → malloc_ok s = [] → zlength (elems (spt pr)) + 2 < 2 ^ 62 →
  ∃ r s', vm_alloc_page_with_initializer type upage w init aux s = Done (r, s') ∧ wf_tables s' ∧
    (r = true ↔ ∀ p, ¬ maps s (cur s) upage p) ∧
    (r = true → objs s' !! next_obj s = Some (OPage (Page uninit_ops upage 0 w (Uninit init type aux ini)))) ∧
    ∀ t v q, is_Some (procs s !! t) → spt_find_page t v s = Done (q, s) →
      spt_find_page t v s' = Done (if r && bool_decide (t = cur s ∧ pg_round_down v = upage) then next_obj s else q, s').
Proof.
  intros Hw Hpr Hal Hini Hty Hm Hroom.
  destruct (wp_run _ _ _ (vm_alloc_wp s pr type upage w init aux ini Hw Hpr Hal Hini Hty Hm Hroom)) as (r & s' & Hrun & Hcase).
  exists r, s'. split; [done|]. destruct Hcase as [(-> & -> & q0 & Hq0)|(-> & Hno & Hal')].
  - split; [done|]. split; [split; [done|intros Hno; by destruct (Hno q0)]|]. split; [done|]. by intros t v q _ ->.
  - split; [apply Hal'|]. split; [done|]. split; [intros _; apply Hal'|]. intros t v q [prt Hprt] Hq.
    destruct (spt_find_run s t prt v Hw Hprt) as (q1 & Hq1 & Hf). rewrite Hq in Hq1. injection Hq1 as <-.
    destruct (al_procs _ _ _ _ _ Hal' t prt Hprt) as (h & Hh & _).
    destruct (spt_find_run s' t _ v (al_wf _ _ _ _ _ Hal') Hh) as (q2 & Hq2 & Hf2). rewrite Hq2. f_equal. f_equal.
    apply (found_unique s' t _ v _ _ (al_wf _ _ _ _ _ Hal') Hh Hf2). simpl. case_bool_decide as Hc.
    + left. split; [apply Hal'|]. apply (al_maps _ _ _ _ _ Hal'). right. destruct Hc as [-> ->]. done.
    + destruct Hf as [[H1 H2]|[-> H2]]; [left; split; [done|]; apply (al_maps _ _ _ _ _ Hal'); by left|right].
      split; [done|]. intros p [Hp|(-> & He & _)]%(al_maps _ _ _ _ _ Hal'); [by apply (H2 p)|]. by apply Hc.
Qed.

(** The frame that vm_handle_wp makes for a copy belongs to no page, so the clock
    reads the page of a null pointer when it comes to that frame. *)
Lemma copied_frame_breaks_clock s f k n : wf_objs s → objs s !! f = Some (OFrame (Frame k n 0)) → victim_step f s = Undef.
Proof.
  intros [_ Ho] Hf. unfold victim_step, get_frame, get_page, get_obj, mbind, st_bind, get_st. rewrite Hf. simpl.
  destruct (objs s !! 0) as [o|] eqn:H0; [|done]. destruct (Ho 0) as [? _]; [by rewrite H0|lia].
Qed.
