(* ===== verification/Access.v ===== *)
(** * Page faults of the processor (userprog/exception.c), and user pointers in the kernel

    page_fault and kill; and what happens when the kernel itself loads or stores
    through an address of the current process: the processor translates the
    address by the process's page table, and on a fault runs page_fault and
    repeats the instruction. *)
From stdpp Require Import base numbers list gmap.
From Stdlib Require Import ZArith Lia.
From S2P Require Import Prelude Bytes CString Bitmap Palloc PallocInit Words Mmu MmuSpec Vm.
Open Scope Z_scope.

Definition SEL_KCSEG : Z := 8.
Definition SEL_UCSEG : Z := 35. (* 0x23 *)
(** Bits of the error code of a page fault. *)
Definition PF_P : Z := 1.
Definition PF_W : Z := 2.
Definition PF_U : Z := 4.

(** What is left of the process that was interrupted: it goes on, or it ends with
    the status that kill has stored, if it has. *)
Inductive fault_end := Resume | Ended (status : option Z).

(** kill, for the code segment of the frame. *)
Definition kill (cs : Z) : ST vm fault_end :=
  if cs =? SEL_UCSEG then mret (Ended (Some (-1)))
  else if cs =? SEL_KCSEG then panic
  else mret (Ended None).

Definition set_user_rsp (rsp : Z) : ST vm unit :=
  _ ← current;
  modify (λ s, with_procs (alter (λ p, Proc (pml4 p) (spt p) rsp) (cur s) (procs s)) s).

Section access.
(** See Vm.v: the uninitialised variable of vm_get_victim. *)
Context (junk : Z).

(** page_fault, for the members of the frame that it reads, and the register cr2. *)
Definition page_fault (cs rsp error_code cr2 : Z) : ST vm fault_end :=
  _ ← (if cs =? SEL_UCSEG then set_user_rsp rsp else mret tt);
  let not_present := Z.land error_code PF_P =? 0 in
  let write := negb (Z.land error_code PF_W =? 0) in
  let user := negb (Z.land error_code PF_U =? 0) in
  ok ← vm_try_handle_fault junk cr2 user write not_present;
  if (ok : bool) then mret Resume else kill cs.

(** The address in the kernel of the byte at the user address [va]. The bit WP of
    cr0 is not set (threads/start.S), so that the kernel may store to read-only
    pages, and only a page that is not there faults. A page that has been brought
    in is there, so that one repetition is enough. *)
Definition user_addr (write : bool) (va : Z) : ST vm Z :=
  loop 2 (λ _,
    t ← current;
    s ← get_st;
    match translate (pg_mem (m_ram (v_mmu s))) (pml4 t) va with
    | Some q => mret (inr q)
    | None =>
        r ← page_fault SEL_KCSEG 0 (if write then PF_W else 0) va;
        match r with Resume => mret (inl tt) | Ended _ => panic end
    end) tt.

Definition user_load (va : Z) : ST vm Z := q ← user_addr false va; on_bytes (load8 q).
Definition user_store (va b : Z) : ST vm unit := q ← user_addr true va; on_bytes (store8 q b).

(** A run of bytes stored, one of them loaded, and one of them copied from the
    kernel's memory, as memset and memcpy do it. *)
Definition user_put (va : Z) (l : list Z) : ST vm unit :=
  for_st (λ ix _, user_store (va + fst ix) (snd ix)) (zip (seqZ 0 (zlength l)) l) tt.
Definition user_get (va n : Z) : ST vm (list Z) :=
  for_st (λ i acc, b ← user_load (va + i); mret (acc ++ [b])) (seqZ 0 n) [].
Definition copy_to_user (va p n : Z) : ST vm unit :=
  for_st (λ i _, b ← on_bytes (load8 (p + i)); user_store (va + i) b) (seqZ 0 n) tt.
End access.
