(* ===== verification/Resident.v ===== *)
(** * Pages that are in memory

    A page of a process that is in a frame of its own: what the kernel stores
    through the process's addresses arrives there, and no process sees another
    change. *)
From stdpp Require Import base numbers list gmap.
From Stdlib Require Import ZArith Lia.
From S2P Require Import Prelude Bytes CString Bitmap Hash Palloc PallocInit Words Mmu MmuInv MmuWalk MmuSpec AddressSpace Isolation PageTables UserMem Vm VmSpt VmSwap VmFrame VmSpec Access.
Open Scope Z_scope.

(** The page [u] of the current process [pr] is in the frame [k], alone, with the
    contents [c]. *)
Record resident (s : vm) (l : list Z) (pr : proc) (u k : Z) (c : list Z) : Prop := {
  rs_user : wf_user (v_mmu s) l;
  rs_proc : procs s !! cur s = Some pr;
  rs_in : pml4 pr ∈ l;
  rs_va : user_va own u;
  rs_al : u mod PGSIZE = 0;
  rs_kernel : kernel_page k;
  rs_map : ∃ w, mapping (vbytes s) (pml4 pr) u = Some (page_entry k w);
  rs_alone : alone (v_mmu s) l k (pml4 pr) u;
  rs_bytes : bytes_at (vbytes s) k c;
  rs_len : zlength c = PGSIZE;
}.
(** The state in which only the bytes behind the page tables have changed, for the
    current process in its page [u]. *)
Record stored (s : vm) (l : list Z) (a u : Z) (s' : vm) : Prop := {
  st_bytes : ∃ m, s' = with_vbytes m s;
  st_view : view_except a u l (v_mmu s) (v_mmu s');
  st_kernel : ∀ x, ¬ in_pool (user_pool (m_ram (v_mmu s))) x → vbytes s' !! x = vbytes s !! x;
}.

Section resident.
Implicit Types (s : vm) (l c b : list Z) (pr : proc) (u k i v : Z).

Lemma resident_run s l pr u k c : resident s l pr u k c → run_of (user_pool (m_ram (v_mmu s))) k 1 true.
Proof.
  intros [Hw Hpr Ha Hu Hal Hk [w Hm] _ _ _]. destruct (page_entry_ok k w Hk) as (_ & _ & _ & Ht). rewrite <- Ht.
  by apply (wu_used _ _ Hw (pml4 pr) u).
Qed.
Lemma resident_translate s l pr u k c i : resident s l pr u k c → 0 <= i < PGSIZE → translate (vbytes s) (pml4 pr) (u + i) = Some (k + i).
Proof.
  intros [Hw Hpr Ha Hu Hal Hk [w Hm] _ _ _] Hi. destruct (page_offset u i Hal Hi) as [Hpg Hofs].
  destruct (page_entry_ok k w Hk) as (_ & _ & _ & Ht). unfold translate. rewrite <- (same_mapping _ _ u), Hm, Hofs by done. simpl. by rewrite Ht.
Qed.
Lemma resident_sees s l pr u k c : resident s l pr u k c → sees s (pml4 pr) u c.
Proof.
  intros Hr i Hi. unfold user_byte. rewrite (resident_translate s l pr u k c i Hr Hi). simpl.
  apply (rs_bytes _ _ _ _ _ _ Hr). by rewrite (rs_len _ _ _ _ _ _ Hr).
Qed.

Lemma stored_refl s l a u : stored s l a u s.
Proof. split; [exists (vbytes s); by rewrite with_vbytes_same|done|done]. Qed.
Lemma stored_trans s1 s2 s3 l a u : stored s1 l a u s2 → stored s2 l a u s3 → stored s1 l a u s3.
Proof.
  intros [(m & ->) H2 H3] [(m' & ->) H5 H6]. split; [by exists m'|by apply (view_trans _ _ _ _ (v_mmu (with_vbytes m s1)))|].
  intros x Hx. rewrite H6 by done. by apply H3.
Qed.

(** The bytes of the frame change. *)
Lemma resident_change s l pr u k c c' m : resident s l pr u k c → zlength c' = PGSIZE → overwritten (vbytes s) k c' m →
  resident (with_vbytes m s) l pr u k c' ∧ stored s l (pml4 pr) u (with_vbytes m s).
Proof.
  intros Hr Hc' Ho. pose proof (resident_run _ _ _ _ _ _ Hr) as Hrun. pose proof (run_user_page _ _ _ Hrun) as Hup.
  destruct Hr as [Hw Hpr Ha Hu Hal Hk [w Hm] Hon Hb Hlen].
  assert (Hch : user_change k (v_mmu s) (v_mmu (with_vbytes m s))).
  { split; [|done|done|done|done|].
    - simpl. refine (wf_pages_mem (m_ram (v_mmu s)) m _ (proj1 (pr_ram _ _ (wu_proc _ _ Hw)))).
      intros y Hy. rewrite Ho. destruct (decide _); [|done]. apply zlookup_is_Some. lia.
    - intros y Hy. simpl. rewrite Ho, Hc'. by rewrite decide_False. }
  destruct (user_change_view k (pml4 pr) u l _ _ Hw Hup Hon Hch) as (Hw' & Hv & Hmm). split.
  - split; try done.
    + exists w. rewrite <- Hm. by apply Hmm.
    + by apply (alone_same k (pml4 pr) u l (v_mmu s)).
    + intros i Hi. simpl. rewrite Ho, decide_True by lia. f_equal. lia.
  - split; [by exists m|done|]. intros x Hx. simpl. rewrite Ho, decide_False; [done|]. intros Hx'. apply Hx.
    destruct Hup as (_ & H1 & H2). unfold in_pool. lia.
Qed.

(** Bytes of the kernel change. *)
Lemma resident_kernel s l pr u k c m : resident s l pr u k c → (∀ x, is_Some (vbytes s !! x) → is_Some (m !! x)) →
  (∀ x, ¬ kernel_byte (v_mmu s) l x → m !! x = vbytes s !! x) → resident (with_vbytes m s) l pr u k c.
Proof.
  intros Hr Hdom Hby. pose proof (resident_run _ _ _ _ _ _ Hr) as (_ & Hk1 & Hk2 & _). destruct Hr as [Hw Hpr Ha Hu Hal Hk [w Hm] Hon Hb Hlen].
  destruct (kernel_bytes_change (v_mmu s) l m Hw Hdom Hby) as (Hw' & Hmap & _). split; try done.
  - exists w. rewrite <- Hm. by apply Hmap.
  - by apply (alone_same k (pml4 pr) u l (v_mmu s)).
  - intros i Hi. simpl. rewrite Hby; [by apply Hb|]. intros [Hn _]. apply Hn. unfold in_pool. lia.
Qed.

Lemma user_addr_wp junk w s l pr u k c i (Q : Z → vm → Prop) : resident s l pr u k c → 0 <= i < PGSIZE →
  Q (k + i) s → wp (user_addr junk w (u + i)) s Q.
Proof.
  intros Hr Hi HQ. unfold user_addr. rewrite loop_S. wp_pure. apply (wp_this_proc _ pr); [apply Hr|]. wp_pure.
  rewrite (resident_translate s l pr u k c i) by done. wp_pure. exact HQ.
Qed.
Lemma user_load_wp junk s l pr u k c i x (Q : Z → vm → Prop) : resident s l pr u k c → zlookup c i = Some x →
  Q x s → wp (user_load junk (u + i)) s Q.
Proof.
  intros Hr Hx HQ. pose proof (zlookup_Some_range _ _ _ Hx) as Hi. rewrite (rs_len _ _ _ _ _ _ Hr) in Hi.
  unfold user_load. wp_pure. eapply user_addr_wp; [done..|]. apply wp_on_bytes. apply (wp_load8 _ _ x).
  - rewrite <- Hx. apply (rs_bytes _ _ _ _ _ _ Hr). by rewrite (rs_len _ _ _ _ _ _ Hr).
  - by rewrite with_vbytes_same.
Qed.
Lemma user_store_wp junk s l pr u k c i x (Q : unit → vm → Prop) : resident s l pr u k c → 0 <= i < PGSIZE → is_byte x →
  (∀ s', resident s' l pr u k (zinsert i x c) → stored s l (pml4 pr) u s' → Q tt s') → wp (user_store junk (u + i) x) s Q.
Proof.
  intros Hr Hi Hx HQ. unfold user_store. wp_pure. eapply user_addr_wp; [done..|]. apply wp_on_bytes.
  pose proof (rs_len _ _ _ _ _ _ Hr) as Hlen. pose proof (rs_bytes _ _ _ _ _ _ Hr) as Hb.
  apply wp_store8; [rewrite Hb by lia; apply zlookup_is_Some; lia|].
  destruct (resident_change s l pr u k c (zinsert i x c) (<[k + i := u8 x]> (vbytes s)) Hr) as [H1 H2].
  - by rewrite zlength_zinsert.
  - unfold u8. rewrite Z.mod_small by exact Hx. intros y. rewrite zlength_zinsert. destruct (decide (y = k + i)) as [->|Hne].
    + rewrite lookup_insert_eq, decide_True by lia. replace (k + i - k) with i by lia. by rewrite zlookup_zinsert by lia.
    + rewrite lookup_insert_ne by done. destruct (decide _) as [Hd|]; [|done]. rewrite zlookup_zinsert_ne by lia.
      rewrite <- Hb by lia. f_equal. lia.
  - by apply HQ.
Qed.

(** *** Runs of bytes *)

Lemma splice_snoc off d x buf : (off + length d < length buf)%nat →
  splice off (d ++ [x]) buf = <[(off + length d)%nat := x]> (splice off d buf).
Proof.
  intros Hl. unfold splice. destruct (drop (off + length d) buf) as [|y r] eqn:Hd.
  { apply (f_equal length) in Hd. rewrite length_drop in Hd. simpl in Hd. lia. }
  assert (Hr : drop (off + length (d ++ [x])) buf = r).
  { rewrite length_app. simpl. replace (off + (length d + 1))%nat with (off + length d + 1)%nat by lia.
    rewrite <- drop_drop, Hd. done. }
  rewrite Hr. rewrite !app_assoc. rewrite <- app_assoc. simpl.
  assert (Hlen : length (take off buf ++ d) = (off + length d)%nat) by (rewrite length_app, length_take; lia).
  rewrite insert_app_r_alt by lia. rewrite Hlen. by rewrite Nat.sub_diag.
Qed.

(** A loop that stores the bytes of [b] from the offset [i] on. *)
Lemma store_run_wp {A} (f : A → unit → ST vm unit) (ix : list A) s l pr u k c i b (P : vm → Prop) (Q : unit → vm → Prop) :
  resident s l pr u k c → 0 <= i → i + zlength b <= PGSIZE → Forall is_byte b → length ix = length b → P s →
  (∀ s s', P s → stored s l (pml4 pr) u s' → P s') →
  (∀ n a x s' c' (Q' : unit → vm → Prop), ix !! n = Some a → b !! n = Some x → P s' → resident s' l pr u k c' →
     (∀ s2, resident s2 l pr u k (zinsert (i + Z.of_nat n) x c') → stored s' l (pml4 pr) u s2 → Q' tt s2) → wp (f a tt) s' Q') →
  (∀ s', resident s' l pr u k (splice (Z.to_nat i) b c) → stored s l (pml4 pr) u s' → P s' → Q tt s') →
  wp (for_st f ix tt) s Q.
Proof.
  intros Hr Hi Hle Hby Hlen HP HPs Hf HQ. pose proof (rs_len _ _ _ _ _ _ Hr) as Hc. unfold zlength in Hle, Hc.
  apply (wp_for (λ q _ s', resident s' l pr u k (splice (Z.to_nat i) (take (length q) b) c) ∧ stored s l (pml4 pr) u s' ∧ P s')).
  - intros q a r [] s' Hq (Hr' & Hs' & HP').
    assert (Ha : ix !! length q = Some a) by (rewrite Hq; by apply list_lookup_middle).
    destruct (lookup_lt_is_Some_2 b (length q)) as [x Hx]; [apply lookup_lt_Some in Ha; lia|].
    pose proof (lookup_lt_Some _ _ _ Hx) as Hlt.
    eapply Hf; [done|done|done|done|]. intros s2 H1 H2. split_and!.
    + rewrite length_app. simpl. rewrite Nat.add_1_r, (take_S_r _ _ x) by done.
      rewrite splice_snoc by (rewrite length_take; lia). rewrite length_take, Nat.min_l by lia.
      unfold zinsert in H1. by replace (Z.to_nat (i + Z.of_nat (length q))) with (Z.to_nat i + length q)%nat in H1 by lia.
    + by apply (stored_trans _ s').
    + by apply (HPs s').
  - split_and!; [by rewrite splice_nil|apply stored_refl|done].
  - intros [] s' (H1 & H2 & H3). rewrite Hlen, firstn_all in H1. by apply HQ.
Qed.

Lemma user_put_wp junk s l pr u k c i b (Q : unit → vm → Prop) :
  resident s l pr u k c → 0 <= i → i + zlength b <= PGSIZE → Forall is_byte b →
  (∀ s', resident s' l pr u k (splice (Z.to_nat i) b c) → stored s l (pml4 pr) u s' → Q tt s') → wp (user_put junk (u + i) b) s Q.
Proof.
  intros Hr Hi Hle Hby HQ. unfold user_put.
  apply (store_run_wp _ _ s l pr u k c i b (λ _, True)); try done.
  - rewrite length_zip_with, length_seqZ. unfold zlength. lia.
  - intros n [j y] x s' c' Q' Hn Hx _ Hr' HQ'. apply lookup_zip_Some in Hn as [Hj Hy]. rewrite Hx in Hy. injection Hy as <-.
    apply lookup_seqZ in Hj as [-> _]. simpl. rewrite <- Z.add_assoc. pose proof (lookup_lt_Some _ _ _ Hx) as Hlt. unfold zlength in Hle.
    rewrite Z.add_0_l. eapply user_store_wp; [done|lia|by apply (Forall_lookup_1 _ _ _ _ Hby Hx)|exact HQ'].
  - intros s' H1 H2 _. by apply HQ.
Qed.

(** A copy from the kernel's memory, which is outside of the user pool. *)
Lemma copy_to_user_wp junk s l pr u k c i p b (Q : unit → vm → Prop) :
  resident s l pr u k c → 0 <= i → i + zlength b <= PGSIZE → Forall is_byte b → bytes_at (vbytes s) p b →
  (∀ x, p <= x < p + zlength b → ¬ in_pool (user_pool (m_ram (v_mmu s))) x) →
  (∀ s', resident s' l pr u k (splice (Z.to_nat i) b c) → stored s l (pml4 pr) u s' → Q tt s') →
  wp (copy_to_user junk (u + i) p (zlength b)) s Q.
Proof.
  intros Hr Hi Hle Hby Hb Hout HQ. unfold copy_to_user.
  apply (store_run_wp _ _ s l pr u k c i b (λ s', bytes_at (vbytes s') p b ∧ m_ram (v_mmu s') = Ram (kernel_pool (m_ram (v_mmu s))) (user_pool (m_ram (v_mmu s))) (vbytes s'))); try done.
  - rewrite length_seqZ. unfold zlength. lia.
  - split; [done|]. by destruct (m_ram (v_mmu s)).
  - intros s1 s2 [H1 H2] [(m & ->) _ H3]. split; [|simpl; by rewrite H2]. intros j Hj. rewrite H3; [by apply H1|]. rewrite H2. simpl.
    apply Hout. lia.
  - intros n j x s' c' Q' Hj Hx [Hb' _] Hr' HQ'. apply lookup_seqZ in Hj as [-> Hj]. wp_pure.
    apply wp_on_bytes. apply (wp_load8 _ _ x).
    { rewrite Hb' by lia. rewrite zlookup_nat by lia. rewrite <- Hx. f_equal. lia. }
    rewrite with_vbytes_same, Z.add_0_l, <- Z.add_assoc. pose proof (lookup_lt_Some _ _ _ Hx) as Hlt. unfold zlength in Hle.
    eapply user_store_wp; [done|lia|by apply (Forall_lookup_1 _ _ _ _ Hby Hx)|exact HQ'].
  - intros s' H1 H2 _. by apply HQ.
Qed.
End resident.
