(* ===== verification/OpenDirs.v ===== *)
(** * Open directories (filesys/directory.c)

    A struct dir holds a reference of its inode, as a struct file does: reopening
    and closing directories keeps the counts of File.v in step. *)
From stdpp Require Import base numbers list sets gmap.
From Stdlib Require Import ZArith Lia.
From S2P Require Import Prelude Bytes Fat Volume Inode InodeTable File Directory.
Open Scope Z_scope.

Section dirs.
Implicit Types (s : kfs) (p q : Z) (d : dir) (i : inode).

Lemma wf_files_new_dir s q i :
  wf_files s → inodes (k_fs s) !! q = Some i →
  count (refers q) (files s) + count (dir_refers q) (dirs s) < open_cnt i →
  wf_files (Kfs (k_fs s) (files s) (<[k_next s := Dir q 0]> (dirs s)) (k_next s + 1)).
Proof.
  intros Hwf Hi Hlt. pose proof Hwf as [Hwi Hf Hd Hnx Hmag Hdn Hr].
  assert (Hfresh : dirs s !! k_next s = None).
  { destruct (dirs s !! k_next s) as [g|] eqn:Hg; [|done]. apply Hd in Hg as [_ ?]. lia. }
  split; simpl; [done|..].
  - intros r g Hg. destruct (Hf _ _ Hg). split; [done|lia].
  - intros r g. rewrite lookup_insert_Some. intros [[<- <-]|[_ Hg]]; [split; [by eexists|lia]|].
    destruct (Hd _ _ Hg). split; [done|lia].
  - lia.
  - done.
  - done.
  - intros q' j Hj. rewrite count_fresh by done. unfold dir_refers at 2. simpl. specialize (Hr _ _ Hj).
    destruct (Z.eqb_spec q q') as [<-|]; [|lia]. rewrite Hi in Hj. injection Hj as <-. lia.
Qed.

(** A directory object is dropped and its inode closed. *)
Section drop.
Context (s : kfs) (p : Z) (d : dir) (i : inode).
Context (Hwf : wf_files s) (Hp : dirs s !! p = Some d) (Hi : inodes (k_fs s) !! d_inode d = Some i).

Lemma drop_dir_refers q :
  count (dir_refers q) (delete p (dirs s))
  = count (dir_refers q) (dirs s) - (if d_inode d =? q then 1 else 0).
Proof. rewrite (count_delete (dir_refers q) (dirs s) p d Hp). unfold dir_refers at 3. lia. Qed.

Lemma wf_files_drop_dir_count fs' :
  wf_inodes fs' → 1 < open_cnt i →
  inodes fs' = <[d_inode d := set_open_cnt (open_cnt i - 1) i]> (inodes (k_fs s)) →
  wf_files (Kfs fs' (files s) (delete p (dirs s)) (k_next s)).
Proof.
  intros Hwi Hlt Hin. pose proof Hwf as [_ Hff Hdd Hnx Hmag Hdn Hrr].
  split; simpl; [done|..]; rewrite ?Hin.
  - intros r g Hg. rewrite lookup_insert_is_Some.
    destruct (Hff _ _ Hg). split; [|done]. destruct (decide (d_inode d = f_inode g)); tauto.
  - intros r g [_ Hg]%lookup_delete_Some. rewrite lookup_insert_is_Some.
    destruct (Hdd _ _ Hg). split; [|done]. destruct (decide (d_inode d = d_inode g)); tauto.
  - done.
  - intros q j [[<- <-]|[_ Hj]]%lookup_insert_Some; [exact (Hmag _ _ Hi)|by eapply Hmag].
  - intros q j [[<- <-]|[_ Hj]]%lookup_insert_Some; [exact (Hdn _ _ Hi)|by apply Hdn].
  - intros q j. rewrite drop_dir_refers. intros [[<- <-]|[Hq Hj]]%lookup_insert_Some.
    + rewrite Z.eqb_refl. specialize (Hrr _ _ Hi). simpl. lia.
    + rewrite (proj2 (Z.eqb_neq _ _)) by done. specialize (Hrr _ _ Hj). lia.
Qed.

Lemma wf_files_drop_dir_last fs' :
  wf_inodes fs' → open_cnt i = 1 → inodes fs' = delete (d_inode d) (inodes (k_fs s)) →
  wf_files (Kfs fs' (files s) (delete p (dirs s)) (k_next s)).
Proof.
  intros Hwi Hone Hin. pose proof Hwf as [_ Hff Hdd Hnx Hmag Hdn Hrr].
  assert (Hz := Hrr _ _ Hi). pose proof (drop_dir_refers (d_inode d)) as Hd. rewrite Z.eqb_refl in Hd.
  pose proof (count_nonneg (dir_refers (d_inode d)) (delete p (dirs s))).
  pose proof (count_nonneg (refers (d_inode d)) (files s)).
  split; simpl; [done|..]; rewrite ?Hin.
  - intros r g Hg. destruct (Hff _ _ Hg). split; [|done]. rewrite lookup_delete_is_Some. split; [|done].
    intros Heq. pose proof (count_delete (refers (d_inode d)) _ _ _ Hg) as Hc.
    unfold refers at 3 in Hc. rewrite (proj2 (Z.eqb_eq (f_inode g) _)) in Hc by done.
    pose proof (count_nonneg (refers (d_inode d)) (delete r (files s))). lia.
  - intros r g Hg. pose proof Hg as [_ Hg']%lookup_delete_Some.
    destruct (Hdd _ _ Hg'). split; [|done]. rewrite lookup_delete_is_Some. split; [|done].
    intros Heq. pose proof (count_delete (dir_refers (d_inode d)) _ _ _ Hg) as Hc.
    unfold dir_refers at 3 in Hc. rewrite (proj2 (Z.eqb_eq (d_inode g) _)) in Hc by done.
    pose proof (count_nonneg (dir_refers (d_inode d)) (delete r (delete p (dirs s)))). lia.
  - done.
  - intros q j [_ Hj]%lookup_delete_Some. by eapply Hmag.
  - intros q j [_ Hj]%lookup_delete_Some. by apply Hdn.
  - intros q j [Hq Hj]%lookup_delete_Some. rewrite drop_dir_refers.
    rewrite (proj2 (Z.eqb_neq _ _)) by done. specialize (Hrr _ _ Hj). lia.
Qed.
End drop.

(** An open directory keeps its inode from being the inode of a denial alone. *)
Lemma deny_lt_dirs s p d i :
  wf_files s → dirs s !! p = Some d → inodes (k_fs s) !! d_inode d = Some i →
  deny_write_cnt i < open_cnt i.
Proof.
  intros Hwf Hp Hi. pose proof (wff_refs _ Hwf _ _ Hi). pose proof (wff_deny _ Hwf _ _ Hi).
  pose proof (deny_le_refers s (d_inode d)).
  pose proof (count_delete (dir_refers (d_inode d)) (dirs s) p d Hp) as Hc.
  unfold dir_refers at 3 in Hc. rewrite Z.eqb_refl in Hc.
  pose proof (count_nonneg (dir_refers (d_inode d)) (delete p (dirs s))). lia.
Qed.

Lemma dir_close_wp s p d i l :
  wf_files s → dirs s !! p = Some d → inodes (k_fs s) !! d_inode d = Some i →
  releasable (v_fat (fs_vol (k_fs s))) i l →
  wp (dir_close p) s (λ _ s', wf_files s' ∧ files s' = files s ∧ k_next s' = k_next s ∧
    dirs s' = delete p (dirs s) ∧
    (1 < open_cnt i → fs_vol (k_fs s') = fs_vol (k_fs s) ∧
       inodes (k_fs s') = <[d_inode d := set_open_cnt (open_cnt i - 1) i]> (inodes (k_fs s))) ∧
    (open_cnt i = 1 → inodes (k_fs s') = delete (d_inode d) (inodes (k_fs s)) ∧
       if removed i then
         freed (fs_vol (k_fs s)) (sector_to_cluster (v_fat (fs_vol (k_fs s))) (i_sector i) :: l) (fs_vol (k_fs s'))
       else fs_vol (k_fs s') = fs_vol (k_fs s))).
Proof.
  intros Hwf Hp Hi Hrel. pose proof (wff_dir _ Hwf _ _ Hp) as [_ Hpp]. unfold dir_close.
  rewrite (proj2 (Z.eqb_neq _ _)) by lia. unfold get_dir, on_fs. wp_pure. wp_step; [done|]. wp_pure.
  pose proof (deny_lt_dirs s p d i Hwf Hp Hi) as Hlt. pose proof (wi_count _ (wff_inodes _ Hwf) _ _ Hi) as Ho.
  eapply wp_mono; [apply (inode_close_wp _ _ i l); [apply (wff_inodes _ Hwf)|done|
    by apply (wff_magic _ Hwf (d_inode d))|left; lia|done]|].
  intros [] fs' [Hwi' Hcase]. wp_pure. simpl. case_decide as Hd.
  - subst fs'. simpl in *. split; [by apply (wf_files_drop_dir_count s p d i)|]. do 4 (split; [done|]). lia.
  - destruct Hcase as (Hin & Hnot & Hvol). assert (Hone : open_cnt i = 1) by lia.
    split; [by apply (wf_files_drop_dir_last s p d i)|]. do 4 (split; [try done; try lia|]). done.
Qed.

(** dir_reopen: one more reference, or, without memory, none. *)
Lemma dir_reopen_wp s p d :
  wf_files s → dirs s !! p = Some d →
  wp (dir_reopen p) s (λ r s', wf_files s' ∧ files s' = files s ∧ inodes_kept (k_fs s) (k_fs s') ∧
    k_next s <= k_next s' ∧
    (r = 0 ∧ dirs s' = dirs s ∧ v_mem (fs_vol (k_fs s)) ≠ [] ∨ r = k_next s ∧ dirs s' = <[r := Dir (d_inode d) 0]> (dirs s))).
Proof.
  intros Hwf Hp. destruct (wff_dir _ Hwf _ _ Hp) as [[i Hi] _].
  assert (Hq : d_inode d ∈ open_inodes (k_fs s)).
  { apply (wi_dom _ (wff_inodes _ Hwf)). by eexists. }
  pose proof (wi_ptr _ (wff_inodes _ Hwf) _ Hq) as Hpq. pose proof (wi_count _ (wff_inodes _ Hwf) _ _ Hi).
  pose proof (wff_refs _ Hwf _ _ Hi) as Hr. set (q := d_inode d) in *.
  unfold dir_reopen, get_dir, on_fs, inode_reopen, get_inode, put_inode. wp_pure. wp_step; [done|].
  wp_pure. fold q. rewrite (proj2 (Z.eqb_neq _ _)) by lia. wp_pure. wp_step; [done|]. wp_pure.
  set (s1 := Kfs _ _ _ _). set (i1 := set_open_cnt (open_cnt i + 1) i) in *.
  assert (Hwf1 : wf_files s1).
  { exact (wf_files_opens s q i (open_cnt i + 1) (fs_vol (k_fs s)) Hwf Hi ltac:(lia) ltac:(lia)). }
  assert (Hi1 : inodes (k_fs s1) !! q = Some i1) by (simpl; apply lookup_insert_eq).
  assert (Hk1 : inodes_kept (k_fs s) (k_fs s1)) by (by eapply inodes_kept_insert).
  unfold dir_open, on_vol, malloc, on_fs. wp_step.
  apply wp_mono with (P := λ b s2, ∃ m, s2 = Kfs (Fsys (Vol (v_disk (fs_vol (k_fs s1))) (v_fat (fs_vol (k_fs s1))) m)
    (inodes (k_fs s1)) (open_inodes (k_fs s1)) (next_ptr (k_fs s1))) (files s1) (dirs s1) (k_next s1) ∧
    (b = false → v_mem (fs_vol (k_fs s)) ≠ [])).
  { wp_pure. unfold wp. simpl. destruct (v_mem (fs_vol (k_fs s))) as [|b m] eqn:Hv; [|by exists m].
    exists []. split; [|done]. rewrite <- Hv. by destruct (fs_vol (k_fs s)). }
  intros b s2 (m & -> & Hb). rewrite (proj2 (Z.eqb_neq _ _)) by lia.
  pose proof (wf_files_mem s1 m Hwf1) as Hwf2. destruct b; simpl.
  - wp_pure. split.
    { apply (wf_files_new_dir _ q i1 Hwf2 Hi1). simpl. lia. }
    split; [done|]. split; [exact Hk1|]. split; [simpl; lia|]. by right.
  - unfold inode_close, get_inode, put_inode. rewrite (proj2 (Z.eqb_neq _ _)) by lia.
    wp_pure. simpl. wp_step; [apply lookup_insert_eq|].
    change (id_magic (i_data i1)) with (id_magic (i_data i)).
    rewrite (wff_magic _ Hwf _ _ Hi), Z.eqb_refl. simpl. wp_pure. simpl.
    rewrite (proj2 (Z.eqb_neq (open_cnt i + 1 - 1) 0)) by lia. wp_pure. split.
    { refine (wf_files_opens _ q i1 _ _ Hwf2 Hi1 _ _); simpl; lia. }
    split; [done|]. split; [|split; [done|left; auto]].
    eapply inodes_kept_insert; [done|exact Hi|simpl; by rewrite insert_insert_eq|done..].
Qed.
End dirs.
