(* ===== verification/Desc.v ===== *)
(** * File descriptors (userprog/syscall.c, userprog/process.c)

    The descriptor tables of all processes over the open files of File.v: opening,
    closing, dup2, the copies that fork makes and the loop of process_exit. *)
From stdpp Require Import base numbers list sets gmap.
From Stdlib Require Import ZArith Lia.
From S2P Require Import Prelude Bytes Fat Volume Inode InodeTable File Directory.
Open Scope Z_scope.

Definition MAX_FD : Z := 1536.
(** The two values that a slot may hold beside NULL and pointers. *)
Definition STDIN : Z := 1.
Definition STDOUT : Z := 2.

(** What the file system has of a struct thread; [fd_table] is [[]] while the
    pointer is NULL. *)
Record task := Task {
  fd_table : list Z;
  fd_idx : Z;
  stdin_count : Z;
  stdout_count : Z;
  running_file : Z;
  cwd : Z;
}.
(** The processes, by thread identifier, and the running one. *)
Record pst := Pst {
  p_k : kfs;
  tasks : gmap Z task;
  p_cur : Z;
}.

Definition on_kfs {A} : ST kfs A → ST pst A := zoom p_k (λ k s, Pst k (tasks s) (p_cur s)).
Definition set_tasks m s := Pst (p_k s) m (p_cur s).
Definition set_table l t := Task l (fd_idx t) (stdin_count t) (stdout_count t) (running_file t) (cwd t).
Definition set_fd_idx n t := Task (fd_table t) n (stdin_count t) (stdout_count t) (running_file t) (cwd t).
Definition set_stdin n t := Task (fd_table t) (fd_idx t) n (stdout_count t) (running_file t) (cwd t).
Definition set_stdout n t := Task (fd_table t) (fd_idx t) (stdin_count t) n (running_file t) (cwd t).
Definition set_running r t := Task (fd_table t) (fd_idx t) (stdin_count t) (stdout_count t) r (cwd t).
Definition set_cwd d t := Task (fd_table t) (fd_idx t) (stdin_count t) (stdout_count t) (running_file t) d.

Definition task_of (i : Z) : ST pst task := s ← get_st; deref (tasks s !! i).
Definition thread_current : ST pst task := s ← get_st; deref (tasks s !! p_cur s).
Definition upd_task (g : task → task) : ST pst unit :=
  t ← thread_current; modify (λ s, set_tasks (<[p_cur s := g t]> (tasks s)) s).

(** [cur->fd_table[fd]]: nothing checks the index but the code around it. *)
Definition get_fd (fd : Z) : ST pst Z := t ← thread_current; deref (zlookup (fd_table t) fd).
Definition put_fd (fd p : Z) : ST pst unit :=
  _ ← get_fd fd; upd_task (λ t, set_table (zinsert fd p (fd_table t)) t).

(** ** System calls on descriptors *)

Definition bad_fd (fd : Z) : bool := (fd <? 0) || (MAX_FD <=? fd).

Definition process_get_file (fd : Z) : ST pst Z :=
  if (fd <? 2) || (MAX_FD <? fd) then mret 0 else get_fd fd.

(** One turn of the search, which reads the slot before it looks at the index. *)
Definition find_step (_ : unit) : ST pst (unit + unit) :=
  t ← thread_current;
  p ← get_fd (fd_idx t);
  if negb (p =? 0) && (fd_idx t <? MAX_FD) then
    _ ← upd_task (set_fd_idx (fd_idx t + 1)); mret (inl tt)
  else mret (inr tt).
Definition find_unused_fd (file : Z) : ST pst Z :=
  _ ← loop (S (Z.to_nat MAX_FD)) find_step tt;
  t ← thread_current;
  if MAX_FD <=? fd_idx t then mret (-1) else
  _ ← put_fd (fd_idx t) file;
  mret (fd_idx t).

(** The end of sys_open, for the file that was opened; the file object of a
    directory is freed, but its inode not closed. *)
Definition open_fd (file_obj : Z) : ST pst Z :=
  isdir ← on_kfs (is_file_dir file_obj);
  file_obj ← (if (isdir : bool) then
                dir ← on_kfs (file_to_dir file_obj);
                _ ← on_kfs (s ← get_st;
                            _ ← deref (files s !! file_obj);
                            modify (set_files (delete file_obj (files s))));
                mret dir
              else mret file_obj);
  find_unused_fd file_obj.

Definition sys_filesize (fd : Z) : ST pst Z :=
  if bad_fd fd then mret (-1) else
  file_obj ← get_fd fd;
  if file_obj =? 0 then mret (-1) else on_kfs (file_length file_obj).

Definition sys_seek (fd position : Z) : ST pst unit :=
  if bad_fd fd then mret tt else
  file_obj ← get_fd fd;
  if (file_obj =? STDIN) || (file_obj =? STDOUT) then mret tt else
  if file_obj =? 0 then mret tt else on_kfs (file_seek file_obj (s32 position)).

Definition sys_tell (fd : Z) : ST pst Z :=
  if bad_fd fd then mret (u32 (-1)) else
  file_obj ← get_fd fd;
  if file_obj =? 0 then mret (u32 (-1)) else r ← on_kfs (file_tell file_obj); mret (u32 r).

Definition sys_close (fd : Z) : ST pst unit :=
  if bad_fd fd then mret tt else
  file_object ← get_fd fd;
  _ ← (if file_object =? STDIN then upd_task (λ t, set_stdin (stdin_count t - 1) t) else mret tt);
  _ ← (if file_object =? STDOUT then upd_task (λ t, set_stdout (stdout_count t - 1) t) else mret tt);
  if (file_object =? 0) || (file_object =? STDIN) || (file_object =? STDOUT) then put_fd fd 0 else
  _ ← on_kfs (decrease_dup_count file_object);
  n ← on_kfs (check_dup_count file_object);
  _ ← (if n =? 0 then on_kfs (file_close file_object) else mret tt);
  put_fd fd 0.

Definition sys_dup2 (oldfd newfd : Z) : ST pst Z :=
  if bad_fd oldfd then mret (-1) else
  old ← get_fd oldfd;
  if old =? 0 then mret (-1) else
  if oldfd =? newfd then mret newfd else
  _ ← (if old =? STDIN then upd_task (λ t, set_stdin (stdin_count t + 1) t)
       else if old =? STDOUT then upd_task (λ t, set_stdout (stdout_count t + 1) t)
       else on_kfs (increase_dup_count old));
  new ← get_fd newfd;
  _ ← (if negb (new =? 0) then sys_close newfd else mret tt);
  old ← get_fd oldfd;
  _ ← put_fd newfd old;
  mret newfd.

Definition sys_inumber (fd : Z) : ST pst Z :=
  if fd <? 2 then mret (-1) else
  p ← get_fd fd; n ← on_kfs (get_file_inode_num p); mret (s32 n).
Definition sys_isdir (fd : Z) : ST pst bool :=
  if fd <? 2 then mret false else p ← get_fd fd; on_kfs (is_file_dir p).

(** ** The tables of new, forked and ending processes *)

(** process_init; [page] tells whether palloc has pages for the table. *)
Definition process_init (page : bool) : ST pst unit :=
  _ ← (if page then upd_task (set_table (STDIN :: STDOUT :: replicate (Z.to_nat (MAX_FD - 2)) 0))
       else undef);
  _ ← upd_task (λ t, set_stdout 1 (set_stdin 1 (set_fd_idx 2 t)));
  d ← on_kfs dir_open_root;
  upd_task (set_cwd d).

(** A turn of the loop of __do_fork. *)
Definition copy_fd (parent fd : Z) : ST pst unit :=
  t ← task_of parent;
  p ← deref (zlookup (fd_table t) fd);
  if fd <=? 1 then put_fd fd p else
  if p =? 0 then mret tt else
  if (p =? STDIN) || (p =? STDOUT) then put_fd fd p else
  q ← on_kfs (file_duplicate p); put_fd fd q.

(** The part of __do_fork that copies the descriptors; false is the jump to the
    label error. *)
Definition fork_fds (parent : Z) : ST pst bool :=
  t ← task_of parent;
  if fd_idx t =? MAX_FD then mret false else
  _ ← for_st (λ fd _, copy_fd parent fd) (seqZ 0 MAX_FD) tt;
  t ← task_of parent;
  _ ← upd_task (λ c, set_stdout (stdout_count t) (set_stdin (stdin_count t) (set_fd_idx (fd_idx t) c)));
  d ← on_kfs (dir_reopen (cwd t));
  _ ← upd_task (set_cwd d);
  mret true.

(** A turn of the loop of process_exit. *)
Definition exit_fd (fd : Z) : ST pst unit :=
  p ← get_fd fd;
  if negb (p =? 0) then _ ← sys_close fd; put_fd fd 0 else mret tt.
Definition exit_fds : ST pst unit :=
  t ← thread_current;
  if bool_decide (fd_table t = []) then mret tt else for_st (λ fd _, exit_fd fd) (seqZ 0 MAX_FD) tt.

(** The files that process_exit gives back, in order: the descriptors, the
    executable, the working directory. *)
Definition exit_files : ST pst unit :=
  _ ← exit_fds;
  t ← thread_current;
  _ ← (if negb (running_file t =? 0) then
         _ ← on_kfs (file_allow_write (running_file t)); on_kfs (file_close (running_file t))
       else mret tt);
  if cwd t =? 0 then mret tt else
  d ← on_kfs (get_dir (cwd t));
  i ← on_kfs (on_fs (get_inode (d_inode d)));
  if is_good_inode i then on_kfs (dir_close (cwd t)) else mret tt.

(** The executable is exchanged by process_exec: before and after load. *)
Definition exec_close : ST pst unit :=
  t ← thread_current;
  if negb (running_file t =? 0) then
    _ ← on_kfs (file_allow_write (running_file t));
    _ ← on_kfs (file_close (running_file t));
    upd_task (set_running 0)
  else mret tt.
Definition exec_deny (new_file : Z) : ST pst unit :=
  _ ← upd_task (set_running new_file);
  on_kfs (file_deny_write new_file).

(** ** Slots that hold a pointer *)

Definition slots (p : Z) (l : list Z) : Z := Z.of_nat (length (filter (λ q, q = p) l)).
(** In the tables of all processes. *)
Definition total (p : Z) (ts : gmap Z task) : Z := map_fold (λ _ t n, slots p (fd_table t) + n) 0 ts.

Section slots.
Implicit Types (p q fd : Z) (l : list Z) (t : task) (ts : gmap Z task).

Lemma slots_nonneg p l : 0 <= slots p l.
Proof. unfold slots. lia. Qed.
Lemma slots_app p l1 l2 : slots p (l1 ++ l2) = slots p l1 + slots p l2.
Proof. unfold slots. rewrite filter_app, length_app. lia. Qed.
Lemma slots_cons p q l : slots p (q :: l) = (if decide (q = p) then 1 else 0) + slots p l.
Proof. unfold slots. rewrite filter_cons. case_decide; simpl; lia. Qed.
Lemma slots_elem p l : 0 < slots p l ↔ p ∈ l.
Proof.
  unfold slots. split.
  - intros H. destruct (filter (λ q, q = p) l) as [|q k] eqn:Hf; [done|].
    assert (Hq : q ∈ filter (λ q, q = p) l) by (rewrite Hf; apply elem_of_cons; by left).
    apply list_elem_of_filter in Hq as [-> ?]. done.
  - intros H. destruct (filter (λ q, q = p) l) as [|q k] eqn:Hf; [|simpl; lia].
    assert (Hq : p ∈ filter (λ q, q = p) l) by (by apply list_elem_of_filter). rewrite Hf in Hq. by apply elem_of_nil in Hq.
Qed.
Lemma slots_zinsert p q l fd r : zlookup l fd = Some r →
  slots p (zinsert fd q l) = slots p l - (if decide (r = p) then 1 else 0) + (if decide (q = p) then 1 else 0).
Proof.
  intros Hl. pose proof (zlookup_Some_range _ _ _ Hl) as [H0 H1]. rewrite zlookup_nat in Hl by done.
  unfold zinsert. rewrite insert_take_drop by (unfold zlength in H1; lia).
  rewrite <- (take_drop_middle l _ r Hl) at 3. rewrite !slots_app, !slots_cons. lia.
Qed.

Lemma total_delete p ts i t : ts !! i = Some t → total p ts = slots p (fd_table t) + total p (delete i ts).
Proof. intros Hi. unfold total. apply (map_fold_delete_L (λ _ t n, slots p (fd_table t) + n) 0 i t); [intros; lia|done]. Qed.
Lemma total_insert p ts i t t' : ts !! i = Some t →
  total p (<[i := t']> ts) = total p ts - slots p (fd_table t) + slots p (fd_table t').
Proof.
  intros Hi. rewrite (total_delete p ts i t Hi), (total_delete p (<[i := t']> ts) i t') by apply lookup_insert_eq.
  rewrite delete_insert_eq. lia.
Qed.
Lemma total_new p ts i t : ts !! i = None → total p (<[i := t]> ts) = slots p (fd_table t) + total p ts.
Proof. intros Hi. rewrite (total_delete p _ i t) by apply lookup_insert_eq. by rewrite delete_insert_id. Qed.
Lemma total_nonneg p ts : 0 <= total p ts.
Proof.
  unfold total. apply (map_fold_weak_ind (λ n _, 0 <= n)); [done|].
  intros i t m n _ Hn. pose proof (slots_nonneg p (fd_table t)). lia.
Qed.
Lemma total_slots p ts i t : ts !! i = Some t → slots p (fd_table t) <= total p ts.
Proof. intros Hi. rewrite (total_delete p ts i t Hi). pose proof (total_nonneg p (delete i ts)). lia. Qed.
Lemma total_ex p ts : 0 < total p ts → ∃ i t, ts !! i = Some t ∧ p ∈ fd_table t.
Proof.
  unfold total. apply (map_fold_weak_ind (λ n m, 0 < n → ∃ i t, m !! i = Some t ∧ p ∈ fd_table t)); [lia|].
  intros i t m n Hi IH Hn. destruct (decide (p ∈ fd_table t)) as [Hp|Hp].
  - exists i, t. by rewrite lookup_insert_eq.
  - rewrite <- slots_elem in Hp. pose proof (slots_nonneg p (fd_table t)).
    destruct IH as (j & u & Hj & Hu); [lia|]. exists j, u. rewrite lookup_insert_ne by congruence. done.
Qed.
End slots.
