(* ===== verification/DescInv.v ===== *)
(** * The invariant of the descriptor tables

    The count in an open file is the number of slots of all tables that lead to
    it, a removed file keeps its clusters until its last close, and executables
    and working directories are not shared. *)
From stdpp Require Import base numbers list sets gmap.
From Stdlib Require Import ZArith Lia.
From S2P Require Import Prelude Bytes Fat Volume Inode InodeTable File Directory OpenDirs Desc.
Open Scope Z_scope.

(** ** The clusters of removed files *)

(** [own] gives each removed inode that is still open the clusters of its data;
    no two of them share a cluster. *)
Record reclaims (own : Z → list Z) (s : fsys) : Prop := {
  rc_data : ∀ p i, inodes s !! p = Some i → removed i = true →
    let f := v_fat (fs_vol s) in
    let c := sector_to_cluster f (i_sector i) in
    wf_fat f ∧ chain (fat f) (id_start (i_data i)) (own p) ∧ own p ≠ [] ∧ chain (fat f) c [c] ∧ c ∉ own p;
  rc_apart : ∀ p q i j, p ≠ q → inodes s !! p = Some i → inodes s !! q = Some j →
    removed i = true → removed j = true →
    let c := sector_to_cluster (v_fat (fs_vol s)) in
    (c (i_sector i) :: own p) ## (c (i_sector j) :: own q);
}.
Definition reclaimable (s : fsys) : Prop := ∃ own, reclaims own s.

Section reclaim.
Implicit Types (s : fsys) (p q : Z) (i : inode).

Lemma reclaims_releasable own s p i :
  reclaims own s → inodes s !! p = Some i → releasable (v_fat (fs_vol s)) i (own p).
Proof. intros [H _] Hi Hr _. by apply H. Qed.
Lemma reclaims_kept own s s' : reclaims own s → inodes_kept s s' → reclaims own s'.
Proof.
  intros [H1 H2] [Hf Hk]. split.
  - intros p i' Hi' Hr. destruct (Hk _ _ Hi') as (i & Hi & Hd & Hs & Hrm). cbv zeta. rewrite Hf, Hd, Hs.
    apply H1; [done|congruence].
  - intros p q i' j' Hne Hi' Hj' Hri Hrj. destruct (Hk _ _ Hi') as (i & Hi & _ & Hs & Hrm).
    destruct (Hk _ _ Hj') as (j & Hj & _ & Hs' & Hrm'). cbv zeta. rewrite Hf, Hs, Hs'.
    apply (H2 p q i j); [done..|congruence|congruence].
Qed.
(** A removed inode goes, and its clusters with it. *)
Lemma reclaims_freed own s s' p i :
  reclaims own s → inodes s !! p = Some i → inodes s' = delete p (inodes s) →
  (if removed i then
     freed (fs_vol s) (sector_to_cluster (v_fat (fs_vol s)) (i_sector i) :: own p) (fs_vol s')
   else fs_vol s' = fs_vol s) → reclaims own s'.
Proof.
  intros Hrc Hi Hin Hv. pose proof Hrc as [H1 H2]. destruct (removed i) eqn:Hr.
  - assert (Hc : ∀ x, sector_to_cluster (v_fat (fs_vol s')) x = sector_to_cluster (v_fat (fs_vol s)) x).
    { intros x. unfold sector_to_cluster. by rewrite (fr_start _ _ _ Hv). }
    split.
    + intros q j. rewrite Hin. intros [Hne Hj]%lookup_delete_Some Hrj. cbv zeta. rewrite Hc.
      destruct (H1 q j Hj Hrj) as (_ & Hch & Hn & Hcc & Hcl). pose proof (H2 _ _ _ _ Hne Hi Hj Hr Hrj) as Hd.
      split_and!; [apply (fr_fat _ _ _ Hv)| |done| |done]; apply (fr_chain _ _ _ Hv); [done| |done|]; set_solver.
    + intros q r j k Hne. rewrite Hin. intros [_ Hj]%lookup_delete_Some [_ Hk]%lookup_delete_Some Hrj Hrk.
      cbv zeta. rewrite !Hc. by apply (H2 q r j k).
  - eapply reclaims_kept; [exact Hrc|]. split; [by rewrite Hv|]. intros q j. rewrite Hin.
    intros [_ Hj]%lookup_delete_Some. eauto.
Qed.
(** The close of a reference of an inode, in the words of file_close_wp and
    dir_close_wp. *)
Lemma reclaims_close own s s' p i i1 :
  wf_inodes s → reclaims own s → inodes s !! p = Some i →
  i_data i1 = i_data i → i_sector i1 = i_sector i → removed i1 = removed i →
  (1 < open_cnt i → fs_vol s' = fs_vol s ∧ inodes s' = <[p := i1]> (inodes s)) →
  (open_cnt i = 1 → inodes s' = delete p (inodes s) ∧
     if removed i then
       freed (fs_vol s) (sector_to_cluster (v_fat (fs_vol s)) (i_sector i) :: own p) (fs_vol s')
     else fs_vol s' = fs_vol s) → reclaims own s'.
Proof.
  intros Hwi Hrc Hi E1 E2 E3 Hmany Hone. pose proof (wi_count _ Hwi _ _ Hi).
  destruct (decide (open_cnt i = 1)) as [Ho|Ho].
  - destruct (Hone Ho). by eapply reclaims_freed.
  - destruct Hmany as [Hv Hin]; [lia|]. eapply reclaims_kept; [exact Hrc|].
    eapply inodes_kept_insert; [by rewrite Hv|exact Hi|exact Hin|done..].
Qed.
End reclaim.

(** ** The invariant *)

Record wf_task (t : task) : Prop := {
  wt_size : zlength (fd_table t) = MAX_FD;
  wt_idx : 0 <= fd_idx t <= MAX_FD;
  wt_in : stdin_count t = slots STDIN (fd_table t);
  wt_out : stdout_count t = slots STDOUT (fd_table t);
}.
(** What a slot holds when it leads to no file. *)
Definition special (p : Z) : Prop := p = 0 ∨ p = STDIN ∨ p = STDOUT.
#[export] Instance special_dec p : Decision (special p) := _.

Record wf_desc (s : pst) : Prop := {
  wd_files : wf_files (p_k s);
  wd_next : 2 < k_next (p_k s);
  wd_ptr : ∀ p f, files (p_k s) !! p = Some f → 2 < p;
  wd_reclaim : reclaimable (k_fs (p_k s));
  wd_task : ∀ i t, tasks s !! i = Some t → wf_task t;
  wd_open : ∀ i t p, tasks s !! i = Some t → p ∈ fd_table t →
    special p ∨ ∃ f, files (p_k s) !! p = Some f ∧ dup_count f = total p (tasks s);
  wd_run : ∀ i t, tasks s !! i = Some t → running_file t = 0 ∨
    (∃ f, files (p_k s) !! running_file t = Some f ∧ f_deny f = true) ∧ total (running_file t) (tasks s) = 0;
  wd_run_own : ∀ i j t u, i ≠ j → tasks s !! i = Some t → tasks s !! j = Some u →
    running_file t = running_file u → running_file t = 0;
  wd_cwd : ∀ i t, tasks s !! i = Some t → cwd t = 0 ∨ is_Some (dirs (p_k s) !! cwd t);
  wd_cwd_own : ∀ i j t u, i ≠ j → tasks s !! i = Some t → tasks s !! j = Some u →
    cwd t = cwd u → cwd t = 0;
}.

(** What the running process has. *)
Definition running (s : pst) (t : task) : Prop := wf_desc s ∧ tasks s !! p_cur s = Some t.

Lemma not_special s p f : wf_desc s → files (p_k s) !! p = Some f → ¬ special p.
Proof. intros Hwf Hp. pose proof (wd_ptr _ Hwf _ _ Hp). unfold special, STDIN, STDOUT. lia. Qed.
Lemma special_cases p : p = 0 ∨ p = STDIN ∨ p = STDOUT ∨ ¬ special p.
Proof. destruct (decide (special p)) as [[]|]; unfold special in *; tauto. Qed.

Section rules.
Implicit Types (s : pst) (t : task) (p fd : Z).

Lemma wp_thread_current s t Q : tasks s !! p_cur s = Some t → Q t s → wp thread_current s Q.
Proof. intros Ht HQ. unfold thread_current. wp_pure. by wp_step. Qed.
Lemma wp_task_of s i t Q : tasks s !! i = Some t → Q t s → wp (task_of i) s Q.
Proof. intros Ht HQ. unfold task_of. wp_pure. by wp_step. Qed.
Lemma wp_upd_task s t g Q : tasks s !! p_cur s = Some t →
  Q tt (set_tasks (<[p_cur s := g t]> (tasks s)) s) → wp (upd_task g) s Q.
Proof. intros Ht HQ. unfold upd_task. wp_step. eapply wp_thread_current; [done|]. by wp_pure. Qed.
Lemma wp_get_fd s t fd p Q :
  tasks s !! p_cur s = Some t → zlookup (fd_table t) fd = Some p → Q p s → wp (get_fd fd) s Q.
Proof. intros Ht Hp HQ. unfold get_fd. wp_step. eapply wp_thread_current; [done|]. by wp_step. Qed.
Lemma wp_put_fd s t fd p q Q :
  tasks s !! p_cur s = Some t → zlookup (fd_table t) fd = Some q →
  Q tt (set_tasks (<[p_cur s := set_table (zinsert fd p (fd_table t)) t]> (tasks s)) s) →
  wp (put_fd fd p) s Q.
Proof.
  intros Ht Hq HQ. unfold put_fd. wp_step. eapply wp_get_fd; [done..|]. by eapply wp_upd_task.
Qed.

Lemma good_fd t fd : wf_task t → bad_fd fd = false → ∃ p, zlookup (fd_table t) fd = Some p.
Proof.
  intros Hwf [H1 H2]%orb_false_iff. apply zlookup_is_Some. rewrite (wt_size _ Hwf).
  apply Z.ltb_ge in H1. apply Z.leb_gt in H2. lia.
Qed.
Lemma good_fd_range fd : bad_fd fd = false ↔ 0 <= fd < MAX_FD.
Proof. unfold bad_fd. rewrite orb_false_iff, Z.ltb_ge, Z.leb_gt. done. Qed.
Lemma elem_zlookup (l : list Z) p : p ∈ l → ∃ fd, zlookup l fd = Some p.
Proof.
  intros [k Hk]%list_elem_of_lookup. exists (Z.of_nat k). rewrite zlookup_nat by lia. by rewrite Nat2Z.id.
Qed.

(** A slot that leads to a file. *)
Lemma open_slot s t fd p :
  running s t → zlookup (fd_table t) fd = Some p → ¬ special p →
  ∃ f, files (p_k s) !! p = Some f ∧ dup_count f = total p (tasks s) ∧ 0 < total p (tasks s).
Proof.
  intros [Hwf Ht] Hp Hs. pose proof (zlookup_elem _ _ _ Hp) as Hel.
  destruct (wd_open _ Hwf _ _ _ Ht Hel) as [|(f & Hf & Hd)]; [done|]. exists f. split; [done|]. split; [done|].
  pose proof (total_slots p _ _ _ Ht). apply slots_elem in Hel. lia.
Qed.
End rules.
