(* ===== verification/DescOps.v ===== *)
(** * The operations on descriptors keep the invariant

    What sys_close, sys_dup2, find_unused_fd, the loop of process_exit and the
    copies of __do_fork do to the tables and to the open files. *)
From stdpp Require Import base numbers list sets gmap.
From Stdlib Require Import ZArith Lia.
From S2P Require Import Prelude Bytes Fat Volume Inode InodeTable File Directory OpenDirs Desc DescInv.
Open Scope Z_scope.

(** ** What the operations compute *)

(** The open files after a reference of [p] is given back, or taken. *)
Definition closed (p : Z) (m : gmap Z file) : gmap Z file :=
  match m !! p with
  | Some f => if dup_count f - 1 =? 0 then delete p m else <[p := set_dup (dup_count f - 1) f]> m
  | None => m
  end.
Definition shared (p : Z) (m : gmap Z file) : gmap Z file :=
  match m !! p with Some f => <[p := set_dup (dup_count f + 1) f]> m | None => m end.

(** The table after the slot [fd], which held [p], is cleared. *)
Definition bump (n p : Z) (t : task) : task :=
  Task (fd_table t) (fd_idx t) (stdin_count t + if decide (p = STDIN) then n else 0)
    (stdout_count t + if decide (p = STDOUT) then n else 0) (running_file t) (cwd t).
Definition fill (fd p : Z) (t : task) : task := set_table (zinsert fd p (fd_table t)) t.

Lemma bump_stdin n t : set_stdin (stdin_count t + n) t = bump n STDIN t.
Proof. unfold bump, set_stdin. simpl. by rewrite Z.add_0_r. Qed.
Lemma bump_stdout n t : set_stdout (stdout_count t + n) t = bump n STDOUT t.
Proof. unfold bump, set_stdout. simpl. by rewrite Z.add_0_r. Qed.
Lemma bump_other n p t : p ≠ STDIN → p ≠ STDOUT → bump n p t = t.
Proof. intros H1 H2. unfold bump. rewrite !decide_False, !Z.add_0_r by done. by destruct t. Qed.

(** What two states of the file system have in common when files are opened,
    shared and closed. *)
Record files_step (k k' : kfs) : Prop := {
  fs_wf : wf_files k';
  fs_next : k_next k <= k_next k';
  fs_reclaim : reclaimable (k_fs k');
  fs_dirs : dirs k' = dirs k;
}.

Section maps.
Implicit Types (m : gmap Z file) (p q : Z).
Lemma closed_ne p q m : p ≠ q → closed p m !! q = m !! q.
Proof.
  intros Hne. unfold closed. destruct (m !! p); [|done]. case_match; by rewrite ?lookup_delete_ne, ?lookup_insert_ne.
Qed.
Lemma closed_eq p m f : m !! p = Some f →
  closed p m !! p = if dup_count f - 1 =? 0 then None else Some (set_dup (dup_count f - 1) f).
Proof. intros Hp. unfold closed. rewrite Hp. case_match; by rewrite ?lookup_delete_eq, ?lookup_insert_eq. Qed.
Lemma closed_special s p : wf_desc s → special p → closed p (files (p_k s)) = files (p_k s).
Proof.
  intros Hwf Hp. unfold closed. destruct (files (p_k s) !! p) as [f|] eqn:Hf; [|done].
  by pose proof (not_special _ _ _ Hwf Hf).
Qed.
Lemma shared_ne p q m : p ≠ q → shared p m !! q = m !! q.
Proof. intros Hne. unfold shared. destruct (m !! p); [|done]. by rewrite lookup_insert_ne. Qed.
Lemma shared_eq p m f : m !! p = Some f → shared p m !! p = Some (set_dup (dup_count f + 1) f).
Proof. intros Hp. unfold shared. rewrite Hp. by rewrite lookup_insert_eq. Qed.
Lemma shared_None p m : m !! p = None → shared p m = m.
Proof. intros Hp. unfold shared. by rewrite Hp. Qed.
End maps.

(** ** The running process and the open files change *)

Lemma wf_desc_put s k' t t' :
  let ts' := <[p_cur s := t']> (tasks s) in
  running s t → files_step (p_k s) k' → wf_task t' →
  running_file t' = running_file t → cwd t' = cwd t →
  (∀ p f, files k' !! p = Some f → 2 < p) →
  (∀ p, ¬ special p → 0 < total p ts' → ∃ f, files k' !! p = Some f ∧ dup_count f = total p ts') →
  (∀ i u, tasks s !! i = Some u → running_file u ≠ 0 →
     (∃ f, files k' !! running_file u = Some f ∧ f_deny f = true) ∧ total (running_file u) ts' = 0) →
  running (Pst k' ts' (p_cur s)) t'.
Proof.
  intros ts' [Hwf Ht] [Hf Hn Hrc Hd] Ht' Hrun Hcwd Hptr Hopen Hruns.
  assert (Hts : ∀ i u, ts' !! i = Some u → ∃ v, tasks s !! i = Some v ∧
    running_file u = running_file v ∧ cwd u = cwd v ∧ wf_task u).
  { intros i u [[<- <-]|[_ Hu]]%lookup_insert_Some; [by exists t|]. exists u. split; [done|].
    split; [done|]. split; [done|]. by apply (wd_task _ Hwf i). }
  split; [|simpl; apply lookup_insert_eq]. split; simpl; [done| |done|done|..].
  - pose proof (wd_next _ Hwf). lia.
  - intros i u Hu. by destruct (Hts i u Hu) as (v & _ & _ & _ & ?).
  - intros i u p Hu Hp. destruct (decide (special p)) as [|Hs]; [by left|right]. apply Hopen; [done|].
    pose proof (total_slots p _ _ _ Hu). apply slots_elem in Hp. lia.
  - intros i u Hu. destruct (Hts i u Hu) as (v & Hv & -> & _). destruct (decide (running_file v = 0)); [by left|right].
    by apply (Hruns i).
  - intros i j u v Hij Hu Hv. destruct (Hts i u Hu) as (u' & Hu' & -> & _), (Hts j v Hv) as (v' & Hv' & -> & _).
    by apply (wd_run_own _ Hwf i j).
  - intros i u Hu. destruct (Hts i u Hu) as (v & Hv & _ & -> & _). rewrite Hd. by apply (wd_cwd _ Hwf i).
  - intros i j u v Hij Hu Hv. destruct (Hts i u Hu) as (u' & Hu' & _ & -> & _), (Hts j v Hv) as (v' & Hv' & _ & -> & _).
    by apply (wd_cwd_own _ Hwf i j).
Qed.

Lemma running_not_total s t i u p :
  running s t → tasks s !! i = Some u → running_file u ≠ 0 → 0 < total p (tasks s) → p ≠ running_file u.
Proof. intros [Hwf _] Hu Hr Hp ->. destruct (wd_run _ Hwf _ _ Hu) as [|[_ H]]; [done|]. lia. Qed.
Lemma running_file_special s t i u :
  running s t → tasks s !! i = Some u → running_file u ≠ 0 → ¬ special (running_file u).
Proof.
  intros [Hwf _] Hu Hr. destruct (wd_run _ Hwf _ _ Hu) as [|[(f & Hf & _) _]]; [done|]. by eapply not_special.
Qed.

(** ** sys_close *)

Section close.
Implicit Types (s : pst) (t : task) (p fd : Z).

Lemma sys_close_wp s t fd p :
  tasks s !! p_cur s = Some t → 0 <= fd < MAX_FD → zlookup (fd_table t) fd = Some p →
  wf_files (p_k s) → reclaimable (k_fs (p_k s)) → (special p → files (p_k s) !! p = None) →
  (¬ special p → is_Some (files (p_k s) !! p)) →
  wp (sys_close fd) s (λ _ s', ∃ k', s' = Pst k' (<[p_cur s := fill fd 0 (bump (-1) p t)]> (tasks s)) (p_cur s) ∧
    files_step (p_k s) k' ∧ k_next k' = k_next (p_k s) ∧ files k' = closed p (files (p_k s))).
Proof.
  intros Ht Hfd Hp Hwf Hrc Hsp Hop. unfold sys_close.
  rewrite (proj2 (good_fd_range fd)) by done. wp_step. eapply wp_get_fd; [done..|].
  assert (Hspecial : special p →
    wp (put_fd fd 0) (Pst (p_k s) (<[p_cur s := bump (-1) p t]> (tasks s)) (p_cur s)) (λ _ s',
      ∃ k', s' = Pst k' (<[p_cur s := fill fd 0 (bump (-1) p t)]> (tasks s)) (p_cur s) ∧
      files_step (p_k s) k' ∧ k_next k' = k_next (p_k s) ∧ files k' = closed p (files (p_k s)))).
  { intros Hs. eapply wp_put_fd; [simpl; apply lookup_insert_eq|done|]. simpl.
    exists (p_k s). unfold set_tasks. simpl. rewrite insert_insert_eq. split; [done|].
    split; [by split|]. split; [done|]. unfold closed. by rewrite (Hsp Hs). }
  destruct (special_cases p) as [->|[->|[->|Hns]]].
  - simpl. wp_pure. rewrite bump_other in * by done. specialize (Hspecial ltac:(by left)).
    rewrite insert_id in Hspecial by done. by destruct s.
  - simpl. wp_step. eapply wp_upd_task; [done|]. wp_pure. change (set_stdin (stdin_count t - 1) t) with (set_stdin (stdin_count t + -1) t). rewrite bump_stdin. apply Hspecial. by right; left.
  - simpl. wp_pure. eapply wp_upd_task; [done|]. change (set_stdout (stdout_count t - 1) t) with (set_stdout (stdout_count t + -1) t). rewrite bump_stdout. apply Hspecial. by right; right.
  - rewrite bump_other in * by (unfold special in Hns; tauto).
    unfold special in Hns. rewrite (proj2 (Z.eqb_neq p STDIN)), (proj2 (Z.eqb_neq p STDOUT)), (proj2 (Z.eqb_neq p 0)) by tauto.
    simpl. wp_pure. destruct (Hop Hns) as [f Hf]. unfold on_kfs, decrease_dup_count, check_dup_count, get_file, put_file.
    wp_pure. simpl. wp_step; [done|]. wp_pure. simpl. wp_step; [apply lookup_insert_eq|]. wp_pure. simpl.
    set (f1 := set_dup (dup_count f - 1) f). set (k1 := set_files _ _).
    assert (Hwf1 : wf_files k1) by (by eapply wf_files_put).
    destruct Hrc as [own Hrc].
    assert (Hfin : ∀ k', files_step (p_k s) k' → k_next k' = k_next (p_k s) → files k' = closed p (files (p_k s)) →
      wp (put_fd fd 0) (Pst k' (tasks s) (p_cur s)) (λ _ s', ∃ k', s' = Pst k' (<[p_cur s := fill fd 0 t]> (tasks s)) (p_cur s) ∧
        files_step (p_k s) k' ∧ k_next k' = k_next (p_k s) ∧ files k' = closed p (files (p_k s)))).
    { intros k' H1 H2 H3. eapply wp_put_fd; [done..|]. by exists k'. }
    unfold closed in *. rewrite Hf in *. destruct (Z.eqb_spec (dup_count f - 1) 0) as [H0|H0].
    + wp_pure. simpl. destruct (wff_file _ Hwf _ _ Hf) as [[i Hi] _].
      assert (Hf1 : files k1 !! p = Some f1) by apply lookup_insert_eq.
      eapply wp_mono; [apply (file_close_wp k1 p f1 i (own (f_inode f)) Hwf1 Hf1 Hi)|].
      { by apply (reclaims_releasable own (k_fs (p_k s))). }
      intros [] k2 (Hwf2 & Hd2 & Hn2 & Hfi2 & Hmany & Hone). simpl in *. apply Hfin.
      * split; [done|by rewrite Hn2| |done]. exists own.
        eapply (reclaims_close own (k_fs (p_k s)) (k_fs k2) (f_inode f));
          [apply (wff_inodes _ Hwf)|exact Hrc|exact Hi| | | |exact Hmany|exact Hone]; done.
      * done.
      * by rewrite Hfi2, delete_insert_eq.
    + wp_pure. apply Hfin; [|done|done]. split; [done|simpl; lia|by exists own|done].
Qed.
End close.

(** ** A slot is filled *)

(** The slot [fd], which held [p], holds [q]. *)
Definition move (fd p q : Z) (t : task) : task := fill fd q (bump (-1) p (bump 1 q t)).
Definition moved (r p q n : Z) : Z := n - (if decide (p = r) then 1 else 0) + (if decide (q = r) then 1 else 0).

Section move.
Implicit Types (s : pst) (t : task) (p q r fd : Z).

Lemma move_fields fd p q t :
  fd_table (move fd p q t) = zinsert fd q (fd_table t) ∧ fd_idx (move fd p q t) = fd_idx t ∧
  running_file (move fd p q t) = running_file t ∧ cwd (move fd p q t) = cwd t.
Proof. done. Qed.
Lemma move_close fd p t : move fd p 0 t = fill fd 0 (bump (-1) p t).
Proof. unfold move. by rewrite (bump_other 1 0). Qed.
Lemma fill_fill fd p q t : fill fd q (fill fd p t) = fill fd q t.
Proof. unfold fill, set_table, zinsert. simpl. by rewrite list_insert_insert_eq. Qed.

Lemma wf_task_move fd p q t : wf_task t → zlookup (fd_table t) fd = Some p → wf_task (move fd p q t).
Proof.
  intros [H1 H2 H3 H4] Hp. split; unfold move, fill, bump; simpl.
  - by rewrite zlength_zinsert.
  - done.
  - rewrite (slots_zinsert _ _ _ _ p Hp), H3. repeat case_decide; lia.
  - rewrite (slots_zinsert _ _ _ _ p Hp), H4. repeat case_decide; lia.
Qed.
Lemma total_move s t fd p q r :
  tasks s !! p_cur s = Some t → zlookup (fd_table t) fd = Some p →
  total r (<[p_cur s := move fd p q t]> (tasks s)) = moved r p q (total r (tasks s)).
Proof.
  intros Ht Hp. rewrite (total_insert _ _ _ t) by done. simpl. rewrite (slots_zinsert _ _ _ _ p Hp). unfold moved. lia.
Qed.

Lemma wf_desc_move s t fd p q k' :
  running s t → zlookup (fd_table t) fd = Some p → files_step (p_k s) k' →
  (∀ r, r ≠ p → r ≠ q → files k' !! r = files (p_k s) !! r) →
  (∀ r, r = p ∨ r = q → ¬ special r → 0 < moved r p q (total r (tasks s)) →
     ∃ f, files k' !! r = Some f ∧ dup_count f = moved r p q (total r (tasks s))) →
  (∀ r f, files k' !! r = Some f → 2 < r) →
  (∀ i u, tasks s !! i = Some u → running_file u = q → special q) →
  running (Pst k' (<[p_cur s := move fd p q t]> (tasks s)) (p_cur s)) (move fd p q t).
Proof.
  intros Hr Hp Hk Hsame Hpq Hptr Hq. pose proof Hr as [Hwf Ht].
  assert (Hnp : ∀ i u, tasks s !! i = Some u → running_file u ≠ 0 → running_file u ≠ p).
  { intros i u Hu Hu0 Heq. destruct (decide (special p)) as [Hs|Hs].
    - rewrite <- Heq in Hs. by apply (running_file_special s t i u).
    - destruct (open_slot s t fd p Hr Hp Hs) as (f & _ & _ & Hpos). by apply (running_not_total s t i u p). }
  apply (wf_desc_put s k' t); [done|done|apply wf_task_move; [by apply (wd_task _ Hwf (p_cur s))|done]|done|done|done|..].
  - intros r Hs Hpos. rewrite (total_move s t fd p q r) in * by done.
    destruct (decide (r = p)) as [->|Hnrp]; [apply Hpq; auto|].
    destruct (decide (r = q)) as [->|Hnrq]; [apply Hpq; auto|]. rewrite Hsame by done.
    unfold moved in *. rewrite !decide_False in * by done.
    destruct (total_ex r (tasks s)) as (i & u & Hu & Hru); [lia|].
    destruct (wd_open _ Hwf i u r Hu Hru) as [|(f & Hf & Hd)]; [done|]. exists f. split; [done|lia].
  - intros i u Hu Hu0. pose proof (Hnp i u Hu Hu0) as Hne1.
    assert (Hne2 : running_file u ≠ q).
    { intros Heq. pose proof (Hq i u Hu Heq) as Hs. rewrite <- Heq in Hs. by apply (running_file_special s t i u). }
    rewrite Hsame by done. rewrite (total_move s t fd p q) by done. unfold moved. rewrite !decide_False by done.
    destruct (wd_run _ Hwf i u Hu) as [|[H1 H2]]; [done|]. split; [done|lia].
Qed.

(** Sharing and closing files is what the counts need. *)
Lemma files_shared s t fd p q k' r :
  running s t → zlookup (fd_table t) fd = Some p → (special q ∨ 0 < total q (tasks s)) →
  files k' = closed p (shared q (files (p_k s))) →
  (r ≠ p → r ≠ q → files k' !! r = files (p_k s) !! r) ∧
  (r = p ∨ r = q → ¬ special r → 0 < moved r p q (total r (tasks s)) →
     ∃ f, files k' !! r = Some f ∧ dup_count f = moved r p q (total r (tasks s))) ∧
  (∀ f, files k' !! r = Some f → 2 < r).
Proof.
  intros Hr Hp Hq Hk. pose proof Hr as [Hwf Ht].
  assert (Hdup : ∀ x, ¬ special x → x = p ∨ x = q → ∃ f, files (p_k s) !! x = Some f ∧ dup_count f = total x (tasks s)).
  { intros x Hs [-> | ->].
    - destruct (open_slot s t fd p Hr Hp Hs) as (f & Hf & Hd & _). eauto.
    - destruct Hq as [|Hq]; [done|]. destruct (total_ex q (tasks s) Hq) as (i & u & Hu & Hel).
      by destruct (wd_open _ Hwf i u q Hu Hel). }
  assert (Hsh : ∀ x, shared q (files (p_k s)) !! x =
    if decide (x = q) then (λ f, set_dup (dup_count f + 1) f) <$> files (p_k s) !! x else files (p_k s) !! x).
  { intros x. case_decide as Hx; [subst x|by rewrite shared_ne].
    destruct (files (p_k s) !! q) as [f|] eqn:Hf; [by apply shared_eq|]. by rewrite shared_None. }
  assert (Hcl : ∀ x, x ≠ p → files k' !! x = shared q (files (p_k s)) !! x).
  { intros x Hx. rewrite Hk. by apply closed_ne. }
  split; [|split].
  - intros H1 H2. rewrite Hcl, Hsh, decide_False by done. done.
  - intros Hrpq Hs Hpos. destruct (Hdup r Hs Hrpq) as (f & Hf & Hd). unfold moved in *.
    destruct (decide (p = r)) as [->|Hne].
    + assert (Hg : shared q (files (p_k s)) !! r = Some (set_dup (if decide (q = r) then dup_count f + 1 else dup_count f) f)).
      { rewrite Hsh, Hf. destruct (decide (q = r)) as [->|]; [by rewrite decide_True|rewrite decide_False by done].
        f_equal. by destruct f. }
      rewrite Hk, (closed_eq _ _ _ Hg). simpl. rewrite (proj2 (Z.eqb_neq _ 0)) by (case_decide; lia).
      eexists. split; [done|]. simpl. case_decide; lia.
    + destruct Hrpq as [->| ->]; [done|]. rewrite Hcl, Hsh, !decide_True, Hf by done. simpl.
      eexists. split; [done|]. simpl. lia.
  - intros f Hf. assert (is_Some (files (p_k s) !! r)) as [g Hg].
    { assert (Hx : is_Some (shared q (files (p_k s)) !! r)).
      { rewrite Hk in Hf. unfold closed in Hf. destruct (shared q (files (p_k s)) !! p) as [h|] eqn:Hh; [|by eexists].
        destruct (dup_count h - 1 =? 0); [by apply lookup_delete_Some in Hf as [_ ?]; eexists|].
        apply lookup_insert_Some in Hf as [[<- _]|[_ ?]]; by eexists. }
      rewrite Hsh in Hx. case_decide; [|done]. by apply fmap_is_Some in Hx. }
    by apply (wd_ptr _ Hwf r g).
Qed.

Lemma sys_close_running s t fd p :
  running s t → zlookup (fd_table t) fd = Some p →
  wp (sys_close fd) s (λ _ s', ∃ k', s' = Pst k' (<[p_cur s := move fd p 0 t]> (tasks s)) (p_cur s) ∧
    running s' (move fd p 0 t) ∧ files_step (p_k s) k' ∧ files k' = closed p (files (p_k s))).
Proof.
  intros Hr Hp. pose proof Hr as [Hwf Ht]. pose proof (zlookup_Some_range _ _ _ Hp) as Hfd.
  rewrite (wt_size _ (wd_task _ Hwf _ _ Ht)) in Hfd.
  assert (Hnone : ∀ x, special x → files (p_k s) !! x = None).
  { intros x Hx. destruct (files (p_k s) !! x) eqn:Hf; [|done]. by pose proof (not_special _ _ _ Hwf Hf). }
  eapply wp_mono; [apply (sys_close_wp s t fd p); try done; [apply Hwf|apply Hwf|by apply Hnone|]|].
  - intros Hs. destruct (open_slot s t fd p Hr Hp Hs) as (f & Hf & _). by eexists.
  - intros [] s' (k' & -> & Hk & _ & Hfi). exists k'. rewrite <- move_close. split; [done|]. split; [|done].
    assert (Hsh : files k' = closed p (shared 0 (files (p_k s)))).
    { rewrite shared_None; [done|]. apply Hnone. by left. }
    assert (Hz : special 0) by by left.
    apply wf_desc_move; [done|done|done| | | |done];
      intros r; destruct (files_shared s t fd p 0 k' r Hr Hp (or_introl Hz) Hsh) as (H1 & H2 & H3); done.
Qed.
End move.

(** ** Calls on descriptors, and the executable of a process

    dup2, the opening of a slot, the calls that only look at the file, and the
    exchange of the executable by exec. *)

Section calls.
Implicit Types (s : pst) (t : task) (p q r fd : Z) (f : file).

(** Only the state of the file system changes, and no count. *)
Lemma running_files s t k' :
  running s t → files_step (p_k s) k' →
  (∀ p f', files k' !! p = Some f' → ∃ f, files (p_k s) !! p = Some f) →
  (∀ p f, files (p_k s) !! p = Some f →
     ∃ f', files k' !! p = Some f' ∧ dup_count f' = dup_count f ∧ f_deny f' = f_deny f) →
  running (Pst k' (tasks s) (p_cur s)) t.
Proof.
  intros Hr Hk Hback Hforth. pose proof Hr as [Hwf Ht].
  assert (Heq : tasks s = <[p_cur s := t]> (tasks s)) by (symmetry; by apply insert_id). rewrite Heq.
  apply (wf_desc_put s k' t t); [done|done|by apply (wd_task _ Hwf (p_cur s))|done|done|..]; rewrite <- ?Heq.
  - intros p f' Hf'. destruct (Hback p f' Hf') as [f Hf]. by apply (wd_ptr _ Hwf p f).
  - intros p Hs Hpos. destruct (total_ex p (tasks s) Hpos) as (i & u & Hu & Hel).
    destruct (wd_open _ Hwf i u p Hu Hel) as [|(f & Hf & Hd)]; [done|].
    destruct (Hforth p f Hf) as (f' & Hf' & Hd' & _). exists f'. split; [done|congruence].
  - intros i u Hu Hu0. destruct (wd_run _ Hwf i u Hu) as [|[(f & Hf & Hd) Hz]]; [done|]. split; [|done].
    destruct (Hforth _ f Hf) as (f' & Hf' & _ & Hd'). exists f'. split; [done|congruence].
Qed.

(** Only the index of the running process changes. *)
Lemma running_idx s t n :
  running s t → 0 <= n <= MAX_FD →
  running (set_tasks (<[p_cur s := set_fd_idx n t]> (tasks s)) s) (set_fd_idx n t).
Proof.
  intros Hr Hn. pose proof Hr as [Hwf Ht]. pose proof (wd_task _ Hwf _ _ Ht) as [H1 H2 H3 H4].
  assert (Htot : ∀ p, total p (<[p_cur s := set_fd_idx n t]> (tasks s)) = total p (tasks s)).
  { intros p. rewrite (total_insert _ _ _ t) by done. simpl. lia. }
  apply (wf_desc_put s (p_k s) t); [done| | |done|done|apply Hwf|..].
  - split; [apply Hwf|done|apply Hwf|done].
  - by split.
  - intros p Hs. rewrite Htot. intros Hpos. destruct (total_ex p (tasks s) Hpos) as (i & u & Hu & Hel).
    by destruct (wd_open _ Hwf i u p Hu Hel).
  - intros i u Hu Hu0. rewrite Htot. by destruct (wd_run _ Hwf i u Hu).
Qed.

(** *** Opening a slot *)

Lemma find_unused_fd_wp s t file k :
  tasks s !! p_cur s = Some t → wf_task t → fd_idx t <= k < MAX_FD → zlookup (fd_table t) k = Some 0 →
  (∀ j, fd_idx t <= j < k → zlookup (fd_table t) j ≠ Some 0) →
  wp (find_unused_fd file) s (λ r s', r = k ∧
    s' = set_tasks (<[p_cur s := fill k file (set_fd_idx k t)]> (tasks s)) s).
Proof.
  intros Ht [Hsz Hidx _ _] Hk H0 Hfull. unfold find_unused_fd. wp_step.
  apply (wp_loop (λ n _ s', ∃ j, fd_idx t <= j <= k ∧ n = Z.to_nat (k - j) ∧
    s' = set_tasks (<[p_cur s := set_fd_idx j t]> (tasks s)) s) _ _ (Z.to_nat (k - fd_idx t))).
  - intros n [] s' (j & Hj & -> & ->). unfold find_step. wp_step.
    eapply wp_thread_current; [simpl; apply lookup_insert_eq|]. wp_step.
    destruct (zlookup_is_Some (fd_table t) j) as [p Hp]; [lia|].
    eapply wp_get_fd; [simpl; apply lookup_insert_eq|exact Hp|]. simpl.
    destruct (decide (j = k)) as [->|Hjk].
    + rewrite H0 in Hp. injection Hp as <-. simpl. wp_pure.
      eapply wp_thread_current; [simpl; apply lookup_insert_eq|]. simpl.
      rewrite (proj2 (Z.leb_gt MAX_FD k)) by lia. wp_step.
      eapply wp_put_fd; [simpl; apply lookup_insert_eq|exact H0|]. wp_pure. split; [done|].
      unfold set_tasks. simpl. by rewrite insert_insert_eq.
    + assert (p ≠ 0) by (intros ->; apply (Hfull j); [lia|done]).
      rewrite (proj2 (Z.eqb_neq p 0)), (proj2 (Z.ltb_lt j MAX_FD)) by lia. simpl. wp_step.
      eapply wp_upd_task; [simpl; apply lookup_insert_eq|]. wp_pure.
      exists (Z.to_nat (k - (j + 1))). split; [lia|]. exists (j + 1). split; [lia|]. split; [done|].
      unfold set_tasks, set_fd_idx. simpl. by rewrite insert_insert_eq.
  - exists (fd_idx t). split; [lia|]. split; [done|]. destruct s as [k0 ts c]. unfold set_tasks. simpl in *.
    rewrite insert_id; [done|]. rewrite Ht. by destruct t.
  - lia.
Qed.

(** The first free slot from the index on. *)
Lemma first_free t k : wf_task t → fd_idx t <= k < MAX_FD → zlookup (fd_table t) k = Some 0 →
  ∃ j, fd_idx t <= j <= k ∧ zlookup (fd_table t) j = Some 0 ∧
    ∀ i, fd_idx t <= i < j → zlookup (fd_table t) i ≠ Some 0.
Proof.
  intros Hwf Hk H0.
  assert (Hind : ∀ n : nat, fd_idx t + Z.of_nat n <= k →
    (∃ j, fd_idx t <= j <= fd_idx t + Z.of_nat n ∧ zlookup (fd_table t) j = Some 0 ∧
       ∀ i, fd_idx t <= i < j → zlookup (fd_table t) i ≠ Some 0) ∨
    ∀ i, fd_idx t <= i <= fd_idx t + Z.of_nat n → zlookup (fd_table t) i ≠ Some 0).
  { induction n as [|n IH]; intros Hn.
    - destruct (decide (zlookup (fd_table t) (fd_idx t) = Some 0)) as [Hz|Hz].
      + left. exists (fd_idx t). split; [lia|]. split; [done|]. lia.
      + right. intros i Hi. by replace i with (fd_idx t) by lia.
    - destruct IH as [(j & ? & ? & ?)|Hno]; [lia|left; exists j; split; [lia|done]|].
      set (x := fd_idx t + Z.of_nat (S n)). destruct (decide (zlookup (fd_table t) x = Some 0)) as [Hz|Hz].
      + left. exists x. split; [lia|]. split; [done|]. intros i Hi. apply Hno. lia.
      + right. intros i Hi. destruct (decide (i = x)) as [->|]; [done|]. apply Hno. lia. }
  destruct (Hind (Z.to_nat (k - fd_idx t))) as [(j & Hj & Hz & Hm)|Hno]; [lia|exists j; split; [lia|done]|].
  destruct (Hno k); [lia|done].
Qed.

(** A file that was just opened and that no process has. *)
Record fresh_file s p f : Prop := {
  ff_file : files (p_k s) !! p = Some f;
  ff_count : dup_count f = 1;
  ff_total : total p (tasks s) = 0;
  ff_run : ∀ i u, tasks s !! i = Some u → running_file u ≠ p;
}.

Lemma open_fd_running s t p f i k :
  running s t → fresh_file s p f → inodes (k_fs (p_k s)) !! f_inode f = Some i → is_dir i = false →
  fd_idx t <= k < MAX_FD → zlookup (fd_table t) k = Some 0 →
  wp (open_fd p) s (λ fd s', fd_idx t <= fd <= k ∧ zlookup (fd_table t) fd = Some 0 ∧
    let t' := move fd 0 p (set_fd_idx fd t) in
    running s' t' ∧ s' = set_tasks (<[p_cur s := t']> (tasks s)) s).
Proof.
  intros Hr [Hf Hone Hz Hrun] Hi Hd Hk H0. pose proof Hr as [Hwf Ht].
  pose proof (wd_task _ Hwf _ _ Ht) as Hwt. pose proof (wt_idx _ Hwt) as Hidx.
  pose proof (not_special _ _ _ Hwf Hf) as Hs.
  destruct (first_free t k Hwt Hk H0) as (j & Hj & Hj0 & Hmin).
  unfold open_fd, on_kfs, is_file_dir. wp_pure. apply (wp_head_of _ _ f); [done|]. unfold on_fs, get_inode. wp_pure. wp_step; [done|].
  wp_pure. rewrite Hd. wp_pure.
  match goal with |- wp _ ?x _ => replace x with s by (by destruct s as [[] ? ?]) end.
  eapply wp_mono; [apply (find_unused_fd_wp s t p j); [done|done|lia|done|done]|].
  intros fd s' [-> ->]. split; [lia|]. split; [done|]. cbv zeta.
  assert (Hm : fill j p (set_fd_idx j t) = move j 0 p (set_fd_idx j t)).
  { unfold move. unfold special in Hs. rewrite (bump_other 1 p) by tauto.
    by rewrite (bump_other (-1) 0). }
  rewrite Hm. split; [|done]. pose proof (running_idx s t j Hr ltac:(lia)) as Hr1.
  assert (Hs1 : ∀ n, total n (<[p_cur s := set_fd_idx j t]> (tasks s)) = total n (tasks s)).
  { intros n. rewrite (total_insert _ _ _ t) by done. simpl. lia. }
  pose proof (wf_desc_move _ _ j 0 p (p_k s) Hr1 Hj0) as Hmv. simpl in Hmv. rewrite insert_insert_eq in Hmv.
  apply Hmv; clear Hmv.
  - split; [apply Hwf|done|apply Hwf|done].
  - done.
  - intros r [-> | ->] Hsr; [destruct Hsr; by left|]. intros _. exists f. split; [done|]. rewrite Hs1, Hz.
    assert (0 ≠ p) by (intros <-; apply Hs; by left). unfold moved. repeat case_decide; first [done|lia].
  - apply Hwf.
  - intros i0 u [[<- <-]|[_ Hu]]%lookup_insert_Some Hru; [by destruct (Hrun _ _ Ht)|by destruct (Hrun _ _ Hu)].
Qed.

(** *** dup2 *)

Lemma sys_dup2_running s t oldfd newfd old new :
  running s t → zlookup (fd_table t) oldfd = Some old → old ≠ 0 →
  zlookup (fd_table t) newfd = Some new → oldfd ≠ newfd →
  wp (sys_dup2 oldfd newfd) s (λ r s', r = newfd ∧
    ∃ k', s' = Pst k' (<[p_cur s := move newfd new old t]> (tasks s)) (p_cur s) ∧
      running s' (move newfd new old t) ∧ files_step (p_k s) k' ∧
      files k' = closed new (shared old (files (p_k s)))).
Proof.
  intros Hr Hold Hold0 Hnew Hne. pose proof Hr as [Hwf Ht]. pose proof (wd_task _ Hwf _ _ Ht) as Hwt.
  pose proof (zlookup_Some_range _ _ _ Hold) as Ho. pose proof (zlookup_Some_range _ _ _ Hnew) as Hn.
  rewrite (wt_size _ Hwt) in Ho, Hn.
  assert (Hnone : ∀ x, special x → files (p_k s) !! x = None).
  { intros x Hx. destruct (files (p_k s) !! x) eqn:Hf; [|done]. by pose proof (not_special _ _ _ Hwf Hf). }
  assert (Hoq : special old ∨ 0 < total old (tasks s)).
  { destruct (decide (special old)); [by left|right]. by destruct (open_slot s t oldfd old Hr Hold n) as (f & _ & _ & ?). }
  unfold sys_dup2. rewrite (proj2 (good_fd_range oldfd)) by done. wp_step. eapply wp_get_fd; [done..|].
  rewrite (proj2 (Z.eqb_neq old 0)), (proj2 (Z.eqb_neq oldfd newfd)) by done. wp_step.
  (* the reference of the new slot is counted *)
  set (t1 := bump 1 old t).
  apply wp_mono with (P := λ _ s1, ∃ k1, s1 = Pst k1 (<[p_cur s := t1]> (tasks s)) (p_cur s) ∧
    files_step (p_k s) k1 ∧ files k1 = shared old (files (p_k s))).
  { destruct (special_cases old) as [->|[->|[->|Hs]]]; [done|..].
    - simpl. eapply wp_upd_task; [done|]. rewrite bump_stdin. exists (p_k s). split; [done|].
      split; [split; [apply Hwf|done|apply Hwf|done]|]. rewrite shared_None; [done|]. apply Hnone. by right; left.
    - simpl. eapply wp_upd_task; [done|]. rewrite bump_stdout. exists (p_k s). split; [done|].
      split; [split; [apply Hwf|done|apply Hwf|done]|]. rewrite shared_None; [done|]. apply Hnone. by right; right.
    - destruct (open_slot s t oldfd old Hr Hold Hs) as (f & Hf & _ & _). unfold t1.
      rewrite bump_other by (unfold special in Hs; tauto). unfold special in Hs.
      rewrite (proj2 (Z.eqb_neq old STDIN)), (proj2 (Z.eqb_neq old STDOUT)) by tauto.
      unfold on_kfs, increase_dup_count, get_file, put_file. wp_pure. simpl. wp_step; [done|]. wp_pure. simpl.
      rewrite (insert_id (tasks s)) by done. eexists. split; [done|]. unfold shared. rewrite Hf. split; [|done].
      split; [|simpl; lia|apply Hwf|done]. eapply wf_files_put; [apply Hwf|done..]. }
  intros [] s1 (k1 & -> & Hk1 & Hf1). wp_step.
  eapply wp_get_fd; [simpl; apply lookup_insert_eq|exact Hnew|]. wp_step.
  (* the old file of the new slot is closed *)
  apply wp_mono with (P := λ _ s2, ∃ k2 t2, s2 = Pst k2 (<[p_cur s := t2]> (tasks s)) (p_cur s) ∧
    fill newfd old t2 = move newfd new old t ∧ zlookup (fd_table t2) oldfd = Some old ∧
    is_Some (zlookup (fd_table t2) newfd) ∧
    files_step (p_k s) k2 ∧ files k2 = closed new (shared old (files (p_k s)))).
  { destruct (Z.eqb_spec new 0) as [->|Hnew0]; simpl.
    - wp_pure. exists k1, t1. split; [done|]. split; [unfold move; by rewrite (bump_other (-1) 0)|].
      split; [done|]. split; [by eexists|]. split; [done|].
      rewrite Hf1. unfold closed. destruct (decide (old = 0)) as [->|]; [done|].
      rewrite shared_ne by done. by rewrite Hnone by by left.
    - eapply wp_mono; [apply (sys_close_wp (Pst k1 (<[p_cur s := t1]> (tasks s)) (p_cur s)) t1 newfd new)|].
      + simpl. apply lookup_insert_eq.
      + done.
      + exact Hnew.
      + apply Hk1.
      + apply Hk1.
      + intros Hs. simpl. rewrite Hf1. unfold shared. destruct (files (p_k s) !! old) as [f|] eqn:Hf; [|by apply Hnone].
        rewrite lookup_insert_ne; [by apply Hnone|]. intros ->. by pose proof (not_special _ _ _ Hwf Hf).
      + intros Hs. simpl. rewrite Hf1. destruct (open_slot s t newfd new Hr Hnew Hs) as (f & Hf & _).
        destruct (decide (old = new)) as [->|]; [rewrite (shared_eq _ _ f) by done; by eexists|].
        rewrite shared_ne by done. by eexists.
      + intros [] s2 (k2 & -> & Hk2 & _ & Hf2). simpl. rewrite insert_insert_eq.
        exists k2, (fill newfd 0 (bump (-1) new t1)). split; [done|]. split; [by rewrite fill_fill|].
        split; [|split; [|split; [|by rewrite Hf2, <- Hf1]]].
        * simpl. rewrite zlookup_zinsert_ne by lia. done.
        * simpl. rewrite zlookup_zinsert; [by eexists|]. by rewrite (wt_size _ Hwt).
        * destruct Hk1 as [_ Hn1 _ Hd1], Hk2 as [A1 A2 A3 A4]. split; [done|simpl in *; lia|done|simpl in *; congruence]. }
  intros [] s2 (k2 & t2 & -> & Hfill & Hol & [x Hx] & Hk2 & Hf2). wp_step.
  eapply wp_get_fd; [simpl; apply lookup_insert_eq|exact Hol|]. wp_step.
  eapply wp_put_fd; [simpl; apply lookup_insert_eq|exact Hx|]. wp_pure. split; [done|].
  exists k2. unfold set_tasks. simpl. rewrite insert_insert_eq. split; [unfold fill in Hfill; by rewrite Hfill|].
  split; [|done]. unfold fill in Hfill. rewrite Hfill.
  apply wf_desc_move; [done|done|done|..].
  - intros r. by destruct (files_shared s t newfd new old k2 r Hr Hnew Hoq Hf2) as (? & _ & _).
  - intros r. by destruct (files_shared s t newfd new old k2 r Hr Hnew Hoq Hf2) as (_ & ? & _).
  - intros r. by destruct (files_shared s t newfd new old k2 r Hr Hnew Hoq Hf2) as (_ & _ & ?).
  - intros i u Hu Heq. destruct Hoq as [|Hpos]; [done|]. subst old.
    destruct (decide (running_file u = 0)) as [H0|H0]; [by rewrite H0; left|].
    by pose proof (running_not_total s t i u (running_file u) Hr Hu H0 Hpos).
Qed.
End calls.
