(* ===== verification/DescExit.v ===== *)
(** * The descriptors of processes that end and fork

    process_exit closes every descriptor, the executable and the working
    directory; what other processes have stays open. A fork duplicates what the
    slots of the parent lead to. *)
From stdpp Require Import base numbers list sets gmap.
From Stdlib Require Import ZArith Lia.
From S2P Require Import Prelude Bytes Fat Volume Inode InodeTable File Directory OpenDirs Desc DescInv DescOps.
Open Scope Z_scope.

(** What has become of a file when the slots of [ts] that led to it are down to
    those of [ts']. *)
Definition file_left (n n' : Z) (f : file) : option file :=
  if n =? n' then Some f else if n' =? 0 then None else Some (set_dup n' f).
Definition files_left (m m' : gmap Z file) (ts ts' : gmap Z task) : Prop :=
  ∀ q, m' !! q = m !! q ≫= file_left (total q ts) (total q ts').

Section exit.
Implicit Types (s : pst) (t : task) (p q fd : Z).

Lemma file_left_trans n1 n2 n3 f : n3 <= n2 <= n1 → 0 <= n3 →
  file_left n1 n2 f ≫= file_left n2 n3 = file_left n1 n3 f.
Proof.
  intros Hn H0. unfold file_left. destruct (Z.eqb_spec n1 n2) as [->|H12]; simpl; [done|].
  destruct (Z.eqb_spec n2 0) as [->|H2]; simpl.
  - replace n3 with 0 by lia. by rewrite (proj2 (Z.eqb_neq n1 0)) by lia.
  - rewrite (proj2 (Z.eqb_neq n1 n3)) by lia. destruct (Z.eqb_spec n2 n3) as [->|]; [|done].
    by rewrite (proj2 (Z.eqb_neq n3 0)).
Qed.
Lemma files_left_trans m1 m2 m3 ts1 ts2 ts3 :
  (∀ q, total q ts3 <= total q ts2 <= total q ts1) →
  files_left m1 m2 ts1 ts2 → files_left m2 m3 ts2 ts3 → files_left m1 m3 ts1 ts3.
Proof.
  intros Hle H1 H2 q. rewrite H2, H1. destruct (m1 !! q) as [f|]; simpl; [|done].
  apply file_left_trans; [apply Hle|apply total_nonneg].
Qed.

(** One close. *)
Lemma close_left s t fd p m' :
  running s t → zlookup (fd_table t) fd = Some p → m' = closed p (files (p_k s)) →
  files_left (files (p_k s)) m' (tasks s) (<[p_cur s := move fd p 0 t]> (tasks s)) ∧
  ∀ q, q ≠ 0 → total q (<[p_cur s := move fd p 0 t]> (tasks s)) <= total q (tasks s).
Proof.
  intros Hr Hp ->. pose proof Hr as [Hwf Ht]. split.
  - intros q. rewrite (total_move s t fd p 0) by done. unfold moved.
    destruct (files (p_k s) !! q) as [f|] eqn:Hf; simpl.
    + pose proof (not_special _ _ _ Hwf Hf) as Hs.
      rewrite (decide_False (P:=0 = q)) by (intros <-; apply Hs; by left).
      destruct (decide (p = q)) as [->|Hne].
      * destruct (open_slot s t fd q Hr Hp Hs) as (g & Hg & Hd & Hpos). rewrite Hf in Hg. injection Hg as <-.
        rewrite (closed_eq _ _ _ Hf), Hd. unfold file_left. rewrite (proj2 (Z.eqb_neq _ (_ - 1 + 0))) by lia.
        by rewrite Z.add_0_r.
      * rewrite closed_ne by done. unfold file_left. by rewrite (proj2 (Z.eqb_eq _ _)) by lia.
    + unfold closed. destruct (files (p_k s) !! p) as [g|] eqn:Hg; [|done].
      assert (p ≠ q) by congruence. case_match; by rewrite ?lookup_delete_ne, ?lookup_insert_ne.
  - intros q Hq. rewrite (total_move s t fd p 0) by done. unfold moved. rewrite (decide_False (P:=0 = q)) by done.
    case_decide; lia.
Qed.

Lemma files_step_trans k1 k2 k3 : files_step k1 k2 → files_step k2 k3 → files_step k1 k3.
Proof. intros [] []. split; [done|lia|done|congruence]. Qed.
Lemma files_step_refl s : wf_desc s → files_step (p_k s) (p_k s).
Proof. intros Hwf. split; [apply Hwf|done|apply Hwf|done]. Qed.

(** The loop of process_exit. *)
Record closing (s : pst) (t : task) (done : list Z) (s' : pst) (t' : task) : Prop := {
  cl_run : running s' t';
  cl_state : ∃ k', s' = Pst k' (<[p_cur s := t']> (tasks s)) (p_cur s);
  cl_step : files_step (p_k s) (p_k s');
  cl_keep : running_file t' = running_file t ∧ cwd t' = cwd t;
  cl_done : ∀ fd, fd ∈ done → zlookup (fd_table t') fd = Some 0;
  cl_total : ∀ q, q ≠ 0 → total q (tasks s') <= total q (tasks s);
  cl_left : files_left (files (p_k s)) (files (p_k s')) (tasks s) (tasks s');
}.

Lemma files_left_refl m ts : files_left m m ts ts.
Proof. intros q. destruct (m !! q); simpl; [|done]. unfold file_left. by rewrite Z.eqb_refl. Qed.

Lemma exit_fd_wp s t done fd s1 t1 :
  running s t → closing s t done s1 t1 → 0 <= fd < MAX_FD →
  wp (exit_fd fd) s1 (λ _ s2, ∃ t2, closing s t (done ++ [fd]) s2 t2).
Proof.
  intros Hr [Hr1 (k1 & Hs1) Hstep1 [Hrun Hcwd] Hdone Htot Hleft] Hfd. pose proof Hr1 as [Hwf1 Ht1].
  pose proof (wd_task _ Hwf1 _ _ Ht1) as Hwt. destruct (zlookup_is_Some (fd_table t1) fd) as [p Hp].
  { by rewrite (wt_size _ Hwt). }
  assert (Hnext : ∀ fd' t', fd_table t' = zinsert fd 0 (fd_table t1) → fd' ∈ done ++ [fd] → zlookup (fd_table t') fd' = Some 0).
  { intros fd' t' -> Hin. destruct (decide (fd' = fd)) as [->|Hne].
    - apply zlookup_zinsert. by rewrite (wt_size _ Hwt).
    - rewrite zlookup_zinsert_ne by (done || lia). apply Hdone. apply elem_of_app in Hin as [|Hin]; [done|].
      by apply list_elem_of_singleton in Hin. }
  unfold exit_fd. wp_step. eapply wp_get_fd; [done..|].
  destruct (Z.eqb_spec p 0) as [->|Hp0]; simpl.
  - wp_pure. exists t1. split; [done|by exists k1|done|done| |done|done].
    intros fd' Hin. apply Hnext; [|done]. unfold zinsert. rewrite list_insert_id; [done|].
    by rewrite <- zlookup_nat by lia.
  - wp_step. eapply wp_mono; [apply (sys_close_running s1 t1 fd p Hr1 Hp)|].
    intros [] s2 (k2 & -> & Hr2 & Hstep2 & Hf2). set (t2 := move fd p 0 t1) in *.
    assert (Hz : zlookup (fd_table t2) fd = Some 0).
    { apply (zlookup_zinsert (fd_table t1)). by rewrite (wt_size _ Hwt). }
    destruct (close_left s1 t1 fd p (files k2) Hr1 Hp Hf2) as [Hleft2 Htot2]. fold t2 in Hleft2, Htot2.
    eapply wp_put_fd; [simpl; apply lookup_insert_eq|exact Hz|].
    unfold set_tasks. cbn [p_cur tasks p_k].
    assert (Hid : set_table (zinsert fd 0 (fd_table t2)) t2 = t2).
    { destruct t2 as [l ? ? ? ? ?]. unfold set_table. simpl in *. f_equal. apply list_insert_id.
      by rewrite <- zlookup_nat by lia. }
    rewrite insert_insert_eq, Hid. exists t2. split; simpl.
    + done.
    + exists k2. subst s1. simpl. by rewrite insert_insert_eq.
    + by apply (files_step_trans _ (p_k s1)).
    + done.
    + intros fd' Hin. by apply (Hnext fd' t2).
    + intros q Hq. specialize (Htot q Hq). specialize (Htot2 q Hq). lia.
    + intros q. rewrite Hleft2, Hleft. destruct (files (p_k s) !! q) as [f|] eqn:Hf; simpl; [|done].
      pose proof (wd_ptr _ (proj1 Hr) _ _ Hf). apply file_left_trans; [|apply total_nonneg].
      split; [apply Htot2|apply Htot]; lia.
Qed.

Lemma exit_fds_wp s t :
  running s t → wp exit_fds s (λ _ s', ∃ t', closing s t (seqZ 0 MAX_FD) s' t').
Proof.
  intros Hr. pose proof Hr as [Hwf Ht]. unfold exit_fds. wp_step. eapply wp_thread_current; [done|].
  rewrite bool_decide_eq_false_2.
  - apply (wp_for (λ done _ s', ∃ t', closing s t done s' t')).
    + intros p fd r [] s1 Hl (t1 & Hc). apply exit_fd_wp with (t1 := t1); [done..|].
      assert (Hin : fd ∈ seqZ 0 MAX_FD) by (rewrite Hl; apply elem_of_app; right; apply elem_of_cons; by left).
      apply elem_of_seqZ in Hin. lia.
    + exists t. split; [done| |by apply files_step_refl|done| |done|apply files_left_refl].
      * exists (p_k s). rewrite insert_id by done. by destruct s.
      * intros fd Hin. by apply elem_of_nil in Hin.
    + intros [] s'. done.
  - intros Hnil. pose proof (wt_size _ (wd_task _ Hwf _ _ Ht)) as Hs. rewrite Hnil in Hs. done.
Qed.

(** *** The executable and the working directory *)

Lemma run_close_wp (k : kfs) (r : Z) (f : file) :
  wf_files k → reclaimable (k_fs k) → files k !! r = Some f →
  wp (_ ← file_allow_write r; file_close r) k (λ _ k', files_step k k' ∧ k_next k' = k_next k ∧
    files k' = delete r (files k)).
Proof.
  intros Hwf [own Hrc] Hf. destruct (wff_file _ Hwf _ _ Hf) as [[i Hi] _]. wp_step.
  eapply wp_mono; [by apply (file_allow_write_wp k r f i)|].
  intros [] k1 (Hwf1 & Hn1 & Hd1 & Hf1 & Hv1 & Hi1). set (i1 := set_deny _ i) in *.
  assert (Hk1 : inodes_kept (k_fs k) (k_fs k1)) by (eapply inodes_kept_insert; [by rewrite Hv1|exact Hi|exact Hi1|done..]).
  pose proof (reclaims_kept own _ _ Hrc Hk1) as Hrc1.
  assert (Hr1 : files k1 !! r = Some (set_file_deny false f)) by (by rewrite Hf1, lookup_insert_eq).
  assert (Hii : inodes (k_fs k1) !! f_inode f = Some i1) by (by rewrite Hi1, lookup_insert_eq).
  eapply wp_mono; [apply (file_close_wp k1 r _ i1 (own (f_inode f)) Hwf1 Hr1 Hii)|].
  { by apply (reclaims_releasable own (k_fs k1)). }
  intros [] k2 (Hwf2 & Hd2 & Hn2 & Hf2 & Hmany & Hone). simpl in Hmany.
  split; [|split; [congruence|by rewrite Hf2, Hf1, delete_insert_eq]].
  split; [done|lia| |congruence]. exists own.
  eapply (reclaims_close own (k_fs k1) (k_fs k2) (f_inode f));
    [apply (wff_inodes _ Hwf1)|exact Hrc1|exact Hii| | | |exact Hmany|exact Hone]; done.
Qed.

Lemma cwd_close_wp (k : kfs) (p : Z) (d : dir) :
  wf_files k → reclaimable (k_fs k) → dirs k !! p = Some d →
  wp (d ← get_dir p; i ← on_fs (get_inode (d_inode d)); if is_good_inode i then dir_close p else mret tt) k
    (λ _ k', wf_files k' ∧ reclaimable (k_fs k') ∧ k_next k' = k_next k ∧ files k' = files k ∧
       dirs k' = delete p (dirs k)).
Proof.
  intros Hwf [own Hrc] Hd. destruct (wff_dir _ Hwf _ _ Hd) as [[i Hi] _].
  unfold get_dir at 1, on_fs, get_inode. wp_pure. wp_step; [done|]. wp_pure. wp_step; [done|]. wp_pure.
  unfold is_good_inode. rewrite (wff_magic _ Hwf _ _ Hi), Z.eqb_refl.
  match goal with |- wp _ ?x _ => replace x with k by (by destruct k as [[] ? ? ?]) end.
  eapply wp_mono; [apply (dir_close_wp k p d i (own (d_inode d)) Hwf Hd Hi)|].
  { by apply (reclaims_releasable own (k_fs k)). }
  intros [] k2 (Hwf2 & Hf2 & Hn2 & Hd2 & Hmany & Hone). split; [done|]. split; [|done]. exists own.
  eapply (reclaims_close own (k_fs k) (k_fs k2) (d_inode d));
    [apply (wff_inodes _ Hwf)|exact Hrc|exact Hi| | | |exact Hmany|exact Hone]; done.
Qed.

(** The process goes, with what only it had. *)
Lemma wf_desc_gone s t k' :
  running s t → (∀ fd, 0 <= fd < MAX_FD → zlookup (fd_table t) fd = Some 0) →
  wf_files k' → reclaimable (k_fs k') → k_next (p_k s) <= k_next k' →
  files k' = delete (running_file t) (files (p_k s)) → dirs k' = delete (cwd t) (dirs (p_k s)) →
  wf_desc (Pst k' (delete (p_cur s) (tasks s)) (p_cur s)).
Proof.
  intros [Hwf Ht] Hz Hwf' Hrc Hn Hfi Hdi.
  assert (Hslots : ∀ q, q ≠ 0 → slots q (fd_table t) = 0).
  { intros q Hq. pose proof (slots_nonneg q (fd_table t)). destruct (decide (0 < slots q (fd_table t))) as [Hp|]; [|lia].
    apply slots_elem, elem_zlookup in Hp as [fd Hfd]. pose proof (zlookup_Some_range _ _ _ Hfd) as Hr.
    rewrite (wt_size _ (wd_task _ Hwf _ _ Ht)) in Hr. rewrite Hz in Hfd by done. congruence. }
  assert (Htot : ∀ q, q ≠ 0 → total q (delete (p_cur s) (tasks s)) = total q (tasks s)).
  { intros q Hq. rewrite (total_delete q (tasks s) _ _ Ht), Hslots by done. lia. }
  assert (H0 : ∀ q f, files (p_k s) !! q = Some f → q ≠ 0).
  { intros q f Hf. pose proof (wd_ptr _ Hwf _ _ Hf). lia. }
  assert (Hother : ∀ i u, delete (p_cur s) (tasks s) !! i = Some u →
    tasks s !! i = Some u ∧ (running_file u = 0 ∨ running_file u ≠ running_file t) ∧ (cwd u = 0 ∨ cwd u ≠ cwd t)).
  { intros i u [Hne Hu]%lookup_delete_Some. split; [done|]. split.
    - destruct (decide (running_file u = running_file t)) as [He|]; [left|by right].
      apply (wd_run_own _ Hwf i (p_cur s) u t); done.
    - destruct (decide (cwd u = cwd t)) as [He|]; [left|by right].
      apply (wd_cwd_own _ Hwf i (p_cur s) u t); done. }
  split; simpl; [done| | |done|..].
  - pose proof (wd_next _ Hwf). lia.
  - intros p f. rewrite Hfi. intros [_ Hf]%lookup_delete_Some. by apply (wd_ptr _ Hwf p f).
  - intros i u Hu. apply (wd_task _ Hwf i). by apply Hother in Hu as [? _].
  - intros i u p Hu Hp. destruct (Hother i u Hu) as [Hu' _].
    destruct (wd_open _ Hwf i u p Hu' Hp) as [|(f & Hf & Hd)]; [by left|right]. exists f.
    rewrite Htot by eauto. split; [|done]. rewrite Hfi. apply lookup_delete_Some. split; [|done].
    intros Heq. destruct (wd_run _ Hwf _ _ Ht) as [Hr|[_ Hr]].
    + pose proof (H0 _ _ Hf). congruence.
    + rewrite Heq in Hr. pose proof (total_slots p _ _ _ Hu'). apply slots_elem in Hp. lia.
  - intros i u Hu. destruct (Hother i u Hu) as [Hu' [[Hr|Hr] _]]; [by left|].
    destruct (wd_run _ Hwf i u Hu') as [|[(f & Hf & Hd) Hz']]; [by left|right].
    rewrite Htot by eauto. split; [|done]. exists f. split; [|done]. rewrite Hfi. by apply lookup_delete_Some.
  - intros i j u v Hij Hu Hv. destruct (Hother i u Hu) as [Hu' _], (Hother j v Hv) as [Hv' _].
    by apply (wd_run_own _ Hwf i j).
  - intros i u Hu. destruct (Hother i u Hu) as [Hu' [_ [Hr|Hr]]]; [by left|].
    destruct (wd_cwd _ Hwf i u Hu') as [|Hd]; [by left|right]. rewrite Hdi. by apply lookup_delete_is_Some.
  - intros i j u v Hij Hu Hv. destruct (Hother i u Hu) as [Hu' _], (Hother j v Hv) as [Hv' _].
    by apply (wd_cwd_own _ Hwf i j).
Qed.

Lemma exit_files_wp s t :
  running s t →
  wp exit_files s (λ _ s', wf_desc (set_tasks (delete (p_cur s') (tasks s')) s') ∧
    (∀ q, q ≠ running_file t → files (p_k s') !! q =
       files (p_k s) !! q ≫= file_left (total q (tasks s)) (total q (delete (p_cur s) (tasks s)))) ∧
    files (p_k s') !! running_file t = None ∧ dirs (p_k s') = delete (cwd t) (dirs (p_k s))).
Proof.
  intros Hr. pose proof Hr as [Hwf Ht]. unfold exit_files. wp_step.
  eapply wp_mono; [by apply exit_fds_wp|]. intros [] s1 (t1 & [Hr1 (k1 & Hs1) Hst [Hrun Hcwd] Hz _ Hleft]).
  pose proof Hr1 as [Hwf1 Ht1]. wp_step. eapply wp_thread_current; [done|]. rewrite Hrun, Hcwd. wp_step.
  assert (Htot : ∀ q, q ≠ 0 → total q (tasks s1) = total q (delete (p_cur s) (tasks s))).
  { intros q Hq. subst s1. simpl. rewrite (total_delete q _ (p_cur s) t1) by apply lookup_insert_eq.
    rewrite delete_insert_eq. pose proof (slots_nonneg q (fd_table t1)).
    destruct (decide (0 < slots q (fd_table t1))) as [Hp|]; [|lia]. apply slots_elem, elem_zlookup in Hp as [fd Hfd].
    pose proof (zlookup_Some_range _ _ _ Hfd) as Hrg.
    rewrite (wt_size _ (wd_task _ Hwf1 _ _ Ht1)) in Hrg. rewrite Hz in Hfd by (apply elem_of_seqZ; lia). congruence. }
  assert (Hq0 : ∀ q f, files (p_k s) !! q = Some f → q ≠ 0).
  { intros q f Hf. pose proof (wd_ptr _ Hwf _ _ Hf). lia. }
  apply wp_mono with (P := λ _ s2, ∃ k2, s2 = Pst k2 (tasks s1) (p_cur s1) ∧ files_step (p_k s1) k2 ∧
    files k2 = delete (running_file t) (files (p_k s1))).
  { destruct (Z.eqb_spec (running_file t) 0) as [H0|H0]; simpl.
    - wp_pure. exists (p_k s1). split; [by destruct s1|]. split; [by apply files_step_refl|].
      symmetry. apply delete_id. rewrite H0. destruct (files (p_k s1) !! 0) eqn:Hf; [|done].
      pose proof (wd_ptr _ Hwf1 _ _ Hf). lia.
    - destruct (wd_run _ Hwf1 _ _ Ht1) as [|[(f & Hf & _) _]]; [congruence|]. rewrite Hrun in Hf.
      pose proof (run_close_wp (p_k s1) (running_file t) f (wd_files _ Hwf1) (wd_reclaim _ Hwf1) Hf) as Hcl.
      rewrite wp_bind in Hcl. unfold on_kfs. wp_step. wp_step. eapply wp_mono; [exact Hcl|].
      intros [] k' Hcl'. wp_step. simpl. eapply wp_mono; [exact Hcl'|]. intros [] k2 (H1 & _ & H2). by exists k2. }
  intros [] s2 (k2 & -> & Hst2 & Hf2).
  assert (Hfin : ∀ k3, wf_files k3 → reclaimable (k_fs k3) → k_next k2 <= k_next k3 → files k3 = files k2 →
    dirs k3 = delete (cwd t) (dirs (p_k s1)) →
    wf_desc (set_tasks (delete (p_cur s1) (tasks s1)) (Pst k3 (tasks s1) (p_cur s1))) ∧
    (∀ q, q ≠ running_file t → files k3 !! q =
       files (p_k s) !! q ≫= file_left (total q (tasks s)) (total q (delete (p_cur s) (tasks s)))) ∧
    files k3 !! running_file t = None ∧ dirs k3 = delete (cwd t) (dirs (p_k s))).
  { intros k3 A1 A2 A3 A4 A5. split; [|split; [|split]].
    - pose proof (wf_desc_gone s1 t1 k3 Hr1) as Hg. rewrite Hrun, Hcwd, A4 in Hg.
      destruct Hst2 as [_ Hn2 _ _].
      unfold set_tasks. simpl. apply Hg; try done; [|lia]. intros fd Hfd. apply Hz, elem_of_seqZ. lia.
    - intros q Hq. rewrite A4, Hf2, lookup_delete_ne, Hleft by done.
      destruct (files (p_k s) !! q) eqn:Hf; simpl; [|done]. by rewrite Htot by eauto.
    - by rewrite A4, Hf2, lookup_delete_eq.
    - rewrite A5. by destruct Hst as [_ _ _ ->]. }
  destruct Hst2 as [B1 B2 B3 B4]. destruct (Z.eqb_spec (cwd t) 0) as [H0|H0].
  - wp_pure. apply (Hfin k2); [done|done|done|done|]. rewrite B4. symmetry. apply delete_id. rewrite H0.
    destruct (dirs (p_k s1) !! 0) as [d|] eqn:Hd; [|done]. apply (wff_dir _ (wd_files _ Hwf1)) in Hd as [_ ?]. lia.
  - destruct (wd_cwd _ Hwf1 _ _ Ht1) as [|[d Hd]]; [congruence|]. rewrite Hcwd, <- B4 in Hd.
    pose proof (cwd_close_wp k2 (cwd t) d B1 B3 Hd) as Hcl. rewrite wp_bind in Hcl. unfold on_kfs.
    do 2 wp_step. eapply wp_mono; [exact Hcl|]. intros d' k' Hcl'. rewrite wp_bind in Hcl'. do 2 wp_step.
    eapply wp_mono; [exact Hcl'|]. intros i k'' Hcl''. cbv beta in Hcl''. simpl.
    destruct (is_good_inode i).
    + wp_step. eapply wp_mono; [exact Hcl''|]. intros [] k3 (C1 & C2 & C3 & C4 & C5).
      apply (Hfin k3 C1 C2); [lia|done|by rewrite C5, B4].
    + rewrite wp_ret in Hcl''. destruct Hcl'' as (C1 & C2 & C3 & C4 & C5). wp_pure.
      apply (Hfin k'' C1 C2); [lia|done|by rewrite C5, B4].
Qed.
End exit.

(** ** The descriptors of a forked process

    The loop of __do_fork copies the table of the parent: what the slots lead to is
    duplicated, slot by slot, and the counts of the copies are right. *)

(** A slot of the child for a slot of the parent: the same special value, or a new
    open file of the same inode, position and denial; NULL when memory is short. *)
Definition copied (k : kfs) (p : Z) (k' : kfs) (q : Z) : Prop :=
  if decide (special p) then q = p
  else q = 0 ∧ v_mem (fs_vol (k_fs k)) ≠ [] ∨
    ∃ f, files k !! p = Some f ∧ k_next k <= q < k_next k' ∧
      files k' !! q = Some (File (f_inode f) (f_pos f) (f_deny f) 1).

(** New open files beside the old ones. *)
Record more_files (k k' : kfs) : Prop := {
  mf_step : files_step k k';
  mf_inodes : inodes_kept (k_fs k) (k_fs k');
  mf_mem : v_mem (fs_vol (k_fs k)) = [] → v_mem (fs_vol (k_fs k')) = [];
  mf_old : ∀ q f, files k !! q = Some f → files k' !! q = Some f;
  mf_new : ∀ q f, files k' !! q = Some f → files k !! q = Some f ∨ k_next k <= q < k_next k';
}.

Section fork.
Implicit Types (s : pst) (t c : task) (p q fd : Z) (k : kfs).

Lemma more_files_refl s : wf_desc s → more_files (p_k s) (p_k s).
Proof.
  intros Hwf. split; [by apply files_step_refl|by apply inodes_kept_same|done|done|]. by left.
Qed.

(** One file is duplicated. *)
Lemma more_files_dup k0 k p f :
  more_files k0 k → files k !! p = Some f →
  wp (file_duplicate p) k (λ q k', more_files k0 k' ∧
    (∀ x g, files k !! x = Some g → files k' !! x = Some g) ∧ k_next k <= k_next k' ∧
    (q = 0 ∧ v_mem (fs_vol (k_fs k0)) ≠ [] ∨
     q = k_next k ∧ q < k_next k' ∧ files k' !! q = Some (File (f_inode f) (f_pos f) (f_deny f) 1))).
Proof.
  intros [[Hwf Hnx [own Hrc] Hdirs] Hin Hmem Hold Hnew] Hp.
  eapply wp_mono; [by apply (file_duplicate_wp k p f)|].
  intros q k' (Hwf' & (Hd' & Hin' & Hn' & Hm') & Hcase).
  assert (Hfresh : files k !! k_next k = None).
  { destruct (files k !! k_next k) eqn:Hg; [|done]. apply (wff_file _ Hwf) in Hg as [_ ?]. lia. }
  assert (Hsub : ∀ x g, files k !! x = Some g → files k' !! x = Some g).
  { intros x g Hg. destruct Hcase as [(_ & -> & _)|(-> & ->)]; [done|].
    rewrite lookup_insert_ne; [done|]. intros <-. congruence. }
  assert (Hin3 := inodes_kept_trans _ _ _ Hin Hin').
  split; [|split; [done|split; [done|]]].
  - split; [|done|by auto|by auto|].
    + split; [done|lia| |congruence]. exists own. by apply (reclaims_kept own _ _ Hrc).
    + intros x g Hg. destruct Hcase as [(_ & Hf & _)|(-> & Hf)]; rewrite Hf in Hg.
      * destruct (Hnew x g Hg) as [|[]]; [by left|right]. lia.
      * assert (Hq : files k' !! k_next k = Some (File (f_inode f) (f_pos f) (f_deny f) 1)) by (rewrite Hf; apply lookup_insert_eq).
        apply (wff_file _ Hwf') in Hq as [_ Hq].
        apply lookup_insert_Some in Hg as [[<- _]|[_ Hg]]; [right; lia|].
        destruct (Hnew x g Hg) as [|[]]; [by left|right]. lia.
  - destruct Hcase as [(-> & _ & Hne)|(-> & Hf)]; [left|right].
    + split; [done|]. intros H0. apply Hne. by apply Hmem.
    + assert (Hq : files k' !! k_next k = Some (File (f_inode f) (f_pos f) (f_deny f) 1)) by (rewrite Hf; apply lookup_insert_eq).
      split; [done|]. split; [|done]. by apply (wff_file _ Hwf') in Hq as [_ [_ Hq]].
Qed.

(** What the loop starts from: a parent that waits, and a child whose table is
    fresh. *)
Record forking (s : pst) (parent : Z) (t c : task) : Prop := {
  fk_run : running s c;
  fk_other : parent ≠ p_cur s;
  fk_parent : tasks s !! parent = Some t;
  fk_special : ∀ fd p, zlookup (fd_table t) fd = Some p → fd <= 1 → special p;
  fk_fresh : ∀ fd p, zlookup (fd_table c) fd = Some p → 2 <= fd → p = 0;
  fk_fresh2 : ∀ fd p, zlookup (fd_table c) fd = Some p → special p;
}.

Record forked (s : pst) (t c : task) (done : list Z) (s' : pst) (c' : task) : Prop := {
  fd_state : ∃ k', s' = Pst k' (<[p_cur s := c']> (tasks s)) (p_cur s);
  fd_size : zlength (fd_table c') = MAX_FD;
  fd_keep : running_file c' = running_file c ∧ cwd c' = cwd c;
  fd_more : more_files (p_k s) (p_k s');
  fd_copied : ∀ fd p, fd ∈ done → zlookup (fd_table t) fd = Some p →
    ∃ q, zlookup (fd_table c') fd = Some q ∧ copied (p_k s) p (p_k s') q;
  fd_rest : ∀ fd, fd ∉ done → zlookup (fd_table c') fd = zlookup (fd_table c) fd;
  fd_new : ∀ fd q, zlookup (fd_table c') fd = Some q → ¬ special q → k_next (p_k s) <= q < k_next (p_k s');
  fd_once : ∀ fd1 fd2 q, zlookup (fd_table c') fd1 = Some q → zlookup (fd_table c') fd2 = Some q →
    ¬ special q → fd1 = fd2;
}.

Lemma copied_more k p k1 k2 q :
  copied k p k1 q → (∀ x g, files k1 !! x = Some g → files k2 !! x = Some g) → k_next k1 <= k_next k2 →
  copied k p k2 q.
Proof.
  unfold copied. intros Hc Hsub Hn. case_decide; [done|]. destruct Hc as [|(f & Hf & Hq & Hg)]; [by left|right].
  exists f. split; [done|]. split; [lia|]. by apply Hsub.
Qed.

Lemma copy_fd_wp s parent t c done fd s1 c1 :
  forking s parent t c → forked s t c done s1 c1 → 0 <= fd < MAX_FD → fd ∉ done →
  wp (copy_fd parent fd) s1 (λ _ s2, ∃ c2, forked s t c (done ++ [fd]) s2 c2).
Proof.
  intros [[Hwf Hc] Hne Ht Hsp Hz Hz2] [(k1 & ->) Hsz [Hru Hcw] Hm Hcp Hrest Hnew Honce] Hfd Hnin. simpl in Hm, Hcp, Hnew.
  destruct (zlookup_is_Some (fd_table t) fd) as [p Hp]; [by rewrite (wt_size _ (wd_task _ Hwf _ _ Ht))|].
  destruct (zlookup_is_Some (fd_table c1) fd) as [q0 Hq0]; [by rewrite Hsz|].
  assert (Hq0s : special q0).
  { rewrite Hrest in Hq0 by done. by apply Hz2 in Hq0. }
  (* the slot is filled *)
  assert (Hput : ∀ k2 q, more_files (p_k s) k2 → (∀ x g, files k1 !! x = Some g → files k2 !! x = Some g) →
    k_next k1 <= k_next k2 → copied (p_k s) p k2 q → (special q ∨ k_next k1 <= q < k_next k2) →
    forked s t c (done ++ [fd]) (Pst k2 (<[p_cur s := fill fd q c1]> (tasks s)) (p_cur s)) (fill fd q c1)).
  { intros k2 q Hm2 Hsub Hn Hcq Hq. destruct (mf_step _ _ Hm) as [_ Hn1 _ _].
    assert (Hlook : ∀ fd' x, zlookup (fd_table (fill fd q c1)) fd' = Some x →
      fd' = fd ∧ x = q ∨ fd' ≠ fd ∧ zlookup (fd_table c1) fd' = Some x).
    { intros fd' x. simpl. destruct (decide (fd' = fd)) as [->|Hx].
      - rewrite zlookup_zinsert by (by rewrite Hsz). intros [= <-]. by left.
      - rewrite zlookup_zinsert_ne by (done || lia). by right. }
    split; [by exists k2|simpl; by rewrite zlength_zinsert|done|done|..]; simpl.
    - intros fd' p' Hin Hp'. destruct (decide (fd' = fd)) as [->|Hx].
      + exists q. rewrite zlookup_zinsert by (by rewrite Hsz). split; [done|].
        rewrite Hp in Hp'. by injection Hp' as <-.
      + rewrite zlookup_zinsert_ne by (done || lia). apply elem_of_app in Hin as [Hin|Hin%list_elem_of_singleton]; [|done].
        destruct (Hcp fd' p' Hin Hp') as (q' & Hq' & Hcq'). exists q'. split; [done|]. by eapply copied_more.
    - intros fd' Hin. rewrite zlookup_zinsert_ne; [apply Hrest|lia|]; intros ?; apply Hin; apply elem_of_app;
        [by left|right; subst; by apply list_elem_of_singleton].
    - intros fd' x [[-> ->]|[Hx Hl]]%Hlook Hns.
      + destruct Hq; [done|lia].
      + specialize (Hnew fd' x Hl Hns). lia.
    - intros fd1 fd2 x [[-> ->]|[Hx1 Hl1]]%Hlook [[-> Hx]|[Hx2 Hl2]]%Hlook Hns; [done|..].
      + destruct Hq; [done|]. specialize (Hnew fd2 q Hl2 Hns). lia.
      + subst x. destruct Hq; [done|]. specialize (Hnew fd1 q Hl1 Hns). lia.
      + by apply (Honce fd1 fd2 x). }
  assert (Hsame : special p → forked s t c (done ++ [fd]) (Pst k1 (<[p_cur s := fill fd p c1]> (tasks s)) (p_cur s)) (fill fd p c1)).
  { intros Hs. apply Hput; [done|done|done| |by left]. unfold copied. by rewrite decide_True. }
  unfold copy_fd. wp_step. eapply wp_task_of; [simpl; by rewrite lookup_insert_ne|]. wp_step. wp_step; [done|].
  destruct (Z.leb_spec fd 1) as [Hle|Hgt].
  { eapply wp_put_fd; [simpl; apply lookup_insert_eq|exact Hq0|]. unfold set_tasks. simpl. rewrite insert_insert_eq.
    eexists. apply Hsame. by apply (Hsp fd). }
  destruct (Z.eqb_spec p 0) as [->|Hp0].
  { wp_pure. exists c1. assert (Hfill : fill fd 0 c1 = c1).
    { assert (q0 = 0) as -> by (rewrite Hrest in Hq0 by done; apply (Hz fd); [done|lia]).
      destruct c1 as [l ? ? ? ? ?]. unfold fill, set_table. simpl in *. f_equal. apply list_insert_id.
      by rewrite <- zlookup_nat by lia. }
    specialize (Hsame ltac:(by left)). by rewrite Hfill in Hsame. }
  destruct ((p =? STDIN) || (p =? STDOUT)) eqn:Hstd.
  { eapply wp_put_fd; [simpl; apply lookup_insert_eq|exact Hq0|]. unfold set_tasks. simpl. rewrite insert_insert_eq.
    eexists. apply Hsame. apply orb_true_iff in Hstd as [?%Z.eqb_eq|?%Z.eqb_eq]; right; auto. }
  assert (Hns : ¬ special p).
  { apply orb_false_iff in Hstd as [?%Z.eqb_neq ?%Z.eqb_neq]. unfold special. tauto. }
  destruct (wd_open _ Hwf _ _ p Ht) as [|(f & Hf & _)]; [by eapply zlookup_elem|done|].
  unfold on_kfs. wp_step. wp_step. simpl.
  eapply wp_mono; [apply (more_files_dup (p_k s) k1 p f Hm); by apply (mf_old _ _ Hm)|].
  intros q k2 (Hm2 & Hsub & Hn2 & Hq). eapply wp_put_fd; [simpl; apply lookup_insert_eq|exact Hq0|].
  unfold set_tasks. simpl. rewrite insert_insert_eq. eexists. apply Hput; [done..| |].
  - unfold copied. rewrite decide_False by done. destruct Hq as [|(-> & Hlt & Hg)]; [by left|right].
    destruct (mf_step _ _ Hm) as [_ Hn1 _ _]. exists f. split; [done|]. split; [lia|done].
  - destruct Hq as [[-> _]|(-> & Hlt & _)]; [left; by left|right; lia].
Qed.
End fork.

(** *** After the loop *)

Section slots_of.
Implicit Types (l : list Z) (p : Z).

Lemma slots_ext p l1 l2 : length l1 = length l2 →
  (∀ fd x y, zlookup l1 fd = Some x → zlookup l2 fd = Some y → x = p ↔ y = p) → slots p l1 = slots p l2.
Proof.
  revert l2. induction l1 as [|a l1 IH]; intros [|b l2] Hlen H; simplify_eq/=; [done|].
  rewrite !slots_cons, (IH l2 Hlen).
  - specialize (H 0 a b eq_refl eq_refl). repeat case_decide; tauto || lia.
  - intros fd x y Hx Hy. apply (H (fd + 1)).
    + pose proof (zlookup_Some_range _ _ _ Hx). rewrite zlookup_nat in * by lia.
      replace (Z.to_nat (fd + 1)) with (S (Z.to_nat fd)) by lia. done.
    + pose proof (zlookup_Some_range _ _ _ Hy). rewrite zlookup_nat in * by lia.
      replace (Z.to_nat (fd + 1)) with (S (Z.to_nat fd)) by lia. done.
Qed.
Lemma slots_none p l : p ∉ l → slots p l = 0.
Proof. intros Hp. pose proof (slots_nonneg p l). destruct (decide (0 < slots p l)) as [H0|]; [by apply slots_elem in H0|lia]. Qed.
Lemma slots_one p l : p ≠ 0 → p ∈ l →
  (∀ fd1 fd2, zlookup l fd1 = Some p → zlookup l fd2 = Some p → fd1 = fd2) → slots p l = 1.
Proof.
  intros Hp0 [fd Hfd]%elem_zlookup Honce. pose proof (zlookup_Some_range _ _ _ Hfd) as Hr.
  pose proof (slots_zinsert p 0 l fd p Hfd) as Hs. rewrite decide_True, decide_False in Hs by done.
  rewrite slots_none in Hs; [lia|]. intros [fd' Hfd']%elem_zlookup. destruct (decide (fd' = fd)) as [->|Hne].
  - rewrite zlookup_zinsert in Hfd' by done. congruence.
  - rewrite zlookup_zinsert_ne in Hfd' by (done || lia). by apply Hne, Honce.
Qed.
End slots_of.

Section forked.
Implicit Types (s : pst) (t c : task) (p q fd : Z) (k : kfs).

(** The child takes the index and the counts of its parent: its table is sound. *)
Definition with_counts t c : task :=
  set_stdout (stdout_count t) (set_stdin (stdin_count t) (set_fd_idx (fd_idx t) c)).

Lemma copied_slots k k' p q v :
  2 < k_next k → copied k p k' q → v = STDIN ∨ v = STDOUT → p = v ↔ q = v.
Proof.
  intros Hn Hc Hv. assert (Hsv : special v) by (by destruct Hv as [-> | ->]; right; auto).
  unfold copied in Hc. destruct (decide (special p)) as [Hs|Hs]; [by subst|].
  split; [by intros ->|]. intros ->. destruct Hc as [[-> _]|(f & _ & Hr & _)].
  - by destruct Hv.
  - unfold STDIN, STDOUT in Hv. lia.
Qed.

Lemma forked_running s parent t c s1 c1 :
  forking s parent t c → forked s t c (seqZ 0 MAX_FD) s1 c1 →
  running (Pst (p_k s1) (<[p_cur s := with_counts t c1]> (tasks s)) (p_cur s)) (with_counts t c1).
Proof.
  intros [Hr Hne Ht Hsp Hz Hz2] [(k1 & ->) Hsz [Hru Hcw] Hm Hcp Hrest Hnew Honce]. simpl in *.
  pose proof Hr as [Hwf Hc]. pose proof (wd_task _ Hwf _ _ Ht) as Hwt. pose proof (wd_next _ Hwf) as Hnx.
  assert (Hall : ∀ fd p q, zlookup (fd_table t) fd = Some p → zlookup (fd_table c1) fd = Some q → copied (p_k s) p k1 q).
  { intros fd p q Hp Hq. pose proof (zlookup_Some_range _ _ _ Hp) as Hrg. rewrite (wt_size _ Hwt) in Hrg.
    destruct (Hcp fd p) as (q' & Hq' & Hcq); [apply elem_of_seqZ; lia|done|]. rewrite Hq in Hq'. by injection Hq' as <-. }
  assert (Hlen : length (fd_table t) = length (fd_table c1)).
  { pose proof (wt_size _ Hwt). unfold zlength in *. lia. }
  assert (Hc0 : ∀ q, ¬ special q → slots q (fd_table c) = 0).
  { intros q Hq. apply slots_none. intros [fd Hfd]%elem_zlookup. by apply Hz2 in Hfd. }
  assert (Htot : ∀ q, ¬ special q → total q (<[p_cur s := with_counts t c1]> (tasks s)) = total q (tasks s) + slots q (fd_table c1)).
  { intros q Hq. rewrite (total_insert _ _ _ c) by done. rewrite Hc0 by done. simpl. lia. }
  assert (Hnot : ∀ q f, files (p_k s) !! q = Some f → slots q (fd_table c1) = 0).
  { intros q f Hf. pose proof (not_special _ _ _ Hwf Hf) as Hs. apply slots_none. intros [fd Hfd]%elem_zlookup.
    specialize (Hnew fd q Hfd Hs). apply (wff_file _ (wd_files _ Hwf)) in Hf as [_ ?]. lia. }
  apply (wf_desc_put s k1 c); [done|apply Hm| |done|done|..].
  - split; simpl; [done|apply Hwt|rewrite (wt_in _ Hwt)|rewrite (wt_out _ Hwt)];
      apply slots_ext; try done; intros fd x y Hx Hy; eapply copied_slots; eauto.
  - intros p f Hf. destruct (mf_new _ _ Hm p f Hf) as [Hf'|]; [by apply (wd_ptr _ Hwf p f)|lia].
  - intros p Hs Hpos. rewrite Htot in * by done.
    destruct (decide (p ∈ fd_table c1)) as [Hin|Hnin].
    + pose proof Hin as [fd Hq]%elem_zlookup.
      pose proof (zlookup_Some_range _ _ _ Hq) as Hrg. rewrite Hsz in Hrg.
      destruct (zlookup_is_Some (fd_table t) fd) as [p' Hp']; [by rewrite (wt_size _ Hwt)|].
      pose proof (Hall fd p' p Hp' Hq) as Hcq. unfold copied in Hcq.
      destruct (decide (special p')); [subst p'; done|].
      destruct Hcq as [[-> _]|(f & _ & Hrange & Hg)]; [destruct Hs; by left|]. eexists. split; [exact Hg|]. simpl.
      rewrite slots_one; [|intros ->; apply Hs; by left|done|intros fd1 fd2 H1 H2; by apply (Honce fd1 fd2 p)].
      assert (total p (tasks s) = 0) as ->; [|done]. pose proof (total_nonneg p (tasks s)).
      destruct (decide (0 < total p (tasks s))) as [Hp|]; [|lia].
      destruct (total_ex p _ Hp) as (i & u & Hu & Hel). destruct (wd_open _ Hwf i u p Hu Hel) as [|(g' & Hg' & _)]; [done|].
      apply (wff_file _ (wd_files _ Hwf)) in Hg' as [_ ?]. lia.
    + rewrite (slots_none p) in * by done. destruct (total_ex p (tasks s)) as (i & u & Hu & Hel); [lia|].
      destruct (wd_open _ Hwf i u p Hu Hel) as [|(f & Hf & Hd)]; [done|]. exists f. split; [by apply (mf_old _ _ Hm)|lia].
  - intros i u Hu Hu0. destruct (wd_run _ Hwf i u Hu) as [|[(f & Hf & Hd) Hzz]]; [done|].
    split; [exists f; split; [by apply (mf_old _ _ Hm)|done]|].
    rewrite Htot by (by eapply not_special). rewrite (Hnot _ _ Hf). lia.
Qed.

(** The working directory of the running process is exchanged. *)
Lemma running_cwd s t k' d dd :
  running s t → wf_files k' → files k' = files (p_k s) → inodes_kept (k_fs (p_k s)) (k_fs k') →
  k_next (p_k s) <= k_next k' →
  (d = 0 ∧ dirs k' = dirs (p_k s) ∨ d = k_next (p_k s) ∧ dirs k' = <[d := dd]> (dirs (p_k s))) →
  running (Pst k' (<[p_cur s := set_cwd d t]> (tasks s)) (p_cur s)) (set_cwd d t).
Proof.
  intros [Hwf Ht] Hwf' Hfi Hin Hn Hd.
  assert (Htot : ∀ p, total p (<[p_cur s := set_cwd d t]> (tasks s)) = total p (tasks s)).
  { intros p. rewrite (total_insert _ _ _ t) by done. simpl. lia. }
  assert (Hother : ∀ i u, <[p_cur s := set_cwd d t]> (tasks s) !! i = Some u → ∃ v, tasks s !! i = Some v ∧
    wf_task u ∧ running_file u = running_file v ∧ fd_table u = fd_table v ∧
    (i = p_cur s ∧ cwd u = d ∨ i ≠ p_cur s ∧ cwd u = cwd v)).
  { intros i u [[<- <-]|[Hne Hu]]%lookup_insert_Some.
    - exists t. split; [done|]. destruct (wd_task _ Hwf _ _ Ht). split; [by split|]. by auto.
    - exists u. split; [done|]. split; [by apply (wd_task _ Hwf i)|]. by auto. }
  assert (Hold : ∀ x, is_Some (dirs (p_k s) !! x) → is_Some (dirs k' !! x) ∧ x ≠ d).
  { intros x [e He]. apply (wff_dir _ (wd_files _ Hwf)) in He as Hx.
    destruct Hd as [[-> ->]|[-> ->]]; [split; [by eexists|lia]|].
    rewrite lookup_insert_ne by lia. split; [by eexists|lia]. }
  split; [|apply lookup_insert_eq]. destruct (wd_reclaim _ Hwf) as [own Hrc].
  split; simpl; [done| | |exists own; by apply (reclaims_kept own _ _ Hrc)|..].
  - pose proof (wd_next _ Hwf). lia.
  - rewrite Hfi. apply Hwf.
  - intros i u Hu. by destruct (Hother i u Hu) as (v & _ & ? & _).
  - intros i u p Hu. destruct (Hother i u Hu) as (v & Hv & _ & _ & -> & _). rewrite Hfi, Htot. by apply (wd_open _ Hwf i).
  - intros i u Hu. destruct (Hother i u Hu) as (v & Hv & _ & -> & _). rewrite Hfi, Htot. by apply (wd_run _ Hwf i).
  - intros i j u v Hij Hu Hv. destruct (Hother i u Hu) as (u' & Hu' & _ & -> & _), (Hother j v Hv) as (v' & Hv' & _ & -> & _).
    by apply (wd_run_own _ Hwf i j).
  - intros i u Hu. destruct (Hother i u Hu) as (v & Hv & _ & _ & _ & [[-> ->]|[Hne ->]]).
    + destruct Hd as [[-> _]|[-> ->]]; [by left|right]. rewrite lookup_insert_eq. by eexists.
    + destruct (wd_cwd _ Hwf i v Hv) as [|Hs]; [by left|right]. by apply Hold.
  - intros i j u v Hij Hu Hv Heq. destruct (Hother i u Hu) as (u' & Hu' & _ & _ & _ & Hcu), (Hother j v Hv) as (v' & Hv' & _ & _ & _ & Hcv).
    destruct Hcu as [[-> Hcu]|[Hiu Hcu]], Hcv as [[-> Hcv]|[Hjv Hcv]]; [done|..].
    + destruct (wd_cwd _ Hwf j v' Hv') as [|[_ Hs]%Hold]; congruence.
    + destruct (wd_cwd _ Hwf i u' Hu') as [|[_ Hs]%Hold]; congruence.
    + rewrite Hcu. apply (wd_cwd_own _ Hwf i j u' v'); [done..|congruence].
Qed.

(** The whole of fork_fds. *)
Lemma fork_fds_wp s parent t c dd :
  forking s parent t c → fd_idx t ≠ MAX_FD → dirs (p_k s) !! cwd t = Some dd →
  wp (fork_fds parent) s (λ r s', r = true ∧ ∃ c', running s' c' ∧
    (∃ k', s' = Pst k' (<[p_cur s := c']> (tasks s)) (p_cur s)) ∧
    (∀ fd p, zlookup (fd_table t) fd = Some p →
       ∃ q, zlookup (fd_table c') fd = Some q ∧ copied (p_k s) p (p_k s') q) ∧
    (∀ q f, files (p_k s) !! q = Some f → files (p_k s') !! q = Some f) ∧
    (cwd c' = 0 ∧ v_mem (fs_vol (k_fs (p_k s))) ≠ [] ∨ dirs (p_k s') !! cwd c' = Some (Dir (d_inode dd) 0)) ∧
    fd_idx c' = fd_idx t ∧ running_file c' = running_file c).
Proof.
  intros Hfk Hidx Hdd. pose proof Hfk as [Hr Hne Ht Hsp Hz Hz2]. pose proof Hr as [Hwf Hc].
  unfold fork_fds. wp_step. eapply wp_task_of; [done|]. rewrite (proj2 (Z.eqb_neq _ _)) by done. wp_step.
  apply (wp_for (λ done _ s', ∃ c', forked s t c done s' c')).
  - intros done fd r [] s1 Hl [c1 Hc1].
    assert (Hin : fd ∈ seqZ 0 MAX_FD) by (rewrite Hl; apply elem_of_app; right; apply elem_of_cons; by left).
    apply elem_of_seqZ in Hin. eapply copy_fd_wp; [done|exact Hc1|lia|].
    pose proof (NoDup_seqZ 0 MAX_FD) as Hnd. rewrite Hl in Hnd. apply NoDup_app in Hnd as (_ & Hd & _).
    intros Hdone. apply (Hd fd Hdone). apply elem_of_cons. by left.
  - exists c. split.
    + exists (p_k s). rewrite insert_id by done. by destruct s.
    + apply (wd_task _ Hwf _ _ Hc).
    + done.
    + by apply more_files_refl.
    + intros fd p Hin. by apply elem_of_nil in Hin.
    + done.
    + intros fd q Hq Hns. by apply Hz2 in Hq.
    + intros fd1 fd2 q Hq _ Hns. by apply Hz2 in Hq.
  - intros [] s1 [c1 Hc1]. pose proof (forked_running s parent t c s1 c1 Hfk Hc1) as Hr2.
    pose proof Hc1 as [(k1 & ->) Hsz [Hru Hcw] Hm Hcp _ _ _]. simpl in *.
    assert (Hpar : ∀ x, <[p_cur s := x]> (tasks s) !! parent = Some t) by (intros x; by rewrite lookup_insert_ne).
    wp_step. eapply wp_task_of; [apply Hpar|]. wp_step. eapply wp_upd_task; [simpl; apply lookup_insert_eq|].
    unfold set_tasks. cbn [p_k tasks p_cur]. rewrite insert_insert_eq. fold (with_counts t c1).
    destruct (mf_step _ _ Hm) as [Hwf1 Hn1 _ Hd1].
    unfold on_kfs. wp_step. wp_step. cbn [p_k].
    eapply wp_mono; [apply (dir_reopen_wp k1 (cwd t) dd Hwf1); by rewrite Hd1|].
    intros d k2 (Hwf2 & Hf2 & Hin2 & Hn2 & Hcase). wp_step.
    eapply wp_upd_task; [simpl; apply lookup_insert_eq|]. unfold set_tasks. cbn [p_k tasks p_cur].
    rewrite insert_insert_eq. wp_pure. split; [done|]. set (c2 := set_cwd d (with_counts t c1)).
    exists c2. split; [|split; [by exists k2|split; [|split; [|split; [|done]]]]].
    + pose proof (running_cwd _ _ k2 d (Dir (d_inode dd) 0) Hr2 Hwf2 Hf2 Hin2 Hn2) as Hfin. simpl in Hfin.
      rewrite insert_insert_eq in Hfin. apply Hfin. destruct Hcase as [(-> & ? & _)|[-> ?]]; [by left|by right].
    + intros fd p Hp. pose proof (zlookup_Some_range _ _ _ Hp) as Hrg.
      rewrite (wt_size _ (wd_task _ Hwf _ _ Ht)) in Hrg.
      destruct (Hcp fd p) as (q & Hq & Hcq); [apply elem_of_seqZ; lia|done|]. exists q. split; [done|].
      apply (copied_more (p_k s) p k1 k2 q Hcq); [intros x g Hg; by rewrite Hf2|done].
    + intros q f Hf. change (files k2 !! q = Some f). rewrite Hf2. by apply (mf_old _ _ Hm).
    + simpl. destruct Hcase as [(-> & _ & Hmem)|[-> Hdk]].
      * left. split; [done|]. intros H0. apply Hmem. by apply (mf_mem _ _ Hm).
      * right. rewrite Hdk. apply lookup_insert_eq.
Qed.
End forked.
