(* ===== verification/DescSpec.v ===== *)
(** * Properties of file descriptors

    Whatever calls the processes make, in whatever order, an open file counts its
    descriptors, and is there as long as it has one; what dup2, fork and exit do. *)
From stdpp Require Import base numbers list sets gmap.
From Stdlib Require Import ZArith Lia.
From S2P Require Import Prelude Bytes Fat Volume Inode InodeTable File Directory OpenDirs Desc DescInv DescOps DescExit.
Open Scope Z_scope.

(** ** Calls *)

Inductive desc_call :=
  | CallOpen (p : Z) | CallClose (fd : Z) | CallDup2 (oldfd newfd : Z) | CallSeek (fd position : Z)
  | CallTell (fd : Z) | CallFilesize (fd : Z) | CallExecClose | CallExecDeny (p : Z)
  | CallFork (parent : Z) | CallExit | CallSwitch (i : Z).

(** A call of the running process; the scheduler switches to another one. *)
Definition run_call (c : desc_call) : ST pst Z :=
  match c with
  | CallOpen p => open_fd p
  | CallClose fd => _ ← sys_close fd; mret 0
  | CallDup2 oldfd newfd => sys_dup2 oldfd newfd
  | CallSeek fd position => _ ← sys_seek fd position; mret 0
  | CallTell fd => sys_tell fd
  | CallFilesize fd => sys_filesize fd
  | CallExecClose => _ ← exec_close; mret 0
  | CallExecDeny p => _ ← exec_deny p; mret 0
  | CallFork parent => _ ← fork_fds parent; mret 0
  | CallExit => _ ← exit_files; _ ← modify (λ s, set_tasks (delete (p_cur s) (tasks s)) s); mret 0
  | CallSwitch i => _ ← modify (λ s, Pst (p_k s) (tasks s) i); mret 0
  end.

(** What the code around a call, or the caller, guarantees. The numbers of
    descriptors are arbitrary but for the second argument of dup2; a slot that is
    asked for a position or a size is not a console. *)
Definition call_ok (s : pst) (t : task) (c : desc_call) : Prop :=
  match c with
  | CallOpen p => ∃ f i k, fresh_file s p f ∧ inodes (k_fs (p_k s)) !! f_inode f = Some i ∧
      is_dir i = false ∧ fd_idx t <= k < MAX_FD ∧ zlookup (fd_table t) k = Some 0
  | CallClose _ | CallExecClose | CallExit => True
  | CallDup2 _ newfd => 0 <= newfd < MAX_FD
  | CallSeek _ position => 0 <= position < 2 ^ 31
  | CallTell fd | CallFilesize fd => zlookup (fd_table t) fd ≠ Some STDIN ∧ zlookup (fd_table t) fd ≠ Some STDOUT
  | CallExecDeny p => running_file t = 0 ∧ ∃ f, fresh_file s p f
  | CallFork parent => ∃ pt dd, forking s parent pt t ∧ fd_idx pt ≠ MAX_FD ∧ dirs (p_k s) !! cwd pt = Some dd
  | CallSwitch i => is_Some (tasks s !! i)
  end.

Section calls.
Implicit Types (s : pst) (t : task) (p fd : Z) (f : file).

Lemma open_slot_file s t fd p :
  running s t → zlookup (fd_table t) fd = Some p → p ≠ 0 → p ≠ STDIN → p ≠ STDOUT →
  ∃ f, files (p_k s) !! p = Some f ∧ 0 < p.
Proof.
  intros Hr Hp H0 H1 H2. destruct (open_slot s t fd p Hr Hp) as (f & Hf & _); [unfold special; tauto|].
  exists f. split; [done|]. pose proof (wd_ptr _ (proj1 Hr) _ _ Hf). lia.
Qed.

Lemma sys_seek_running s t fd position :
  running s t → 0 <= position < 2 ^ 31 → wp (sys_seek fd position) s (λ _ s', running s' t).
Proof.
  intros Hr Hpos. pose proof Hr as [Hwf Ht]. unfold sys_seek. destruct (bad_fd fd) eqn:Hb; [by wp_pure|].
  destruct (good_fd t fd (wd_task _ Hwf _ _ Ht) Hb) as [p Hp]. wp_step. eapply wp_get_fd; [done..|].
  destruct (Z.eqb_spec p STDIN), (Z.eqb_spec p STDOUT); simpl; try by wp_pure.
  destruct (Z.eqb_spec p 0); [by wp_pure|]. destruct (open_slot_file s t fd p) as (f & Hf & Hp0); [done..|].
  unfold on_kfs, file_seek. wp_step. wp_step. wp_step.
  { by rewrite (proj2 (Z.eqb_neq p 0)) by lia. }
  wp_step. wp_step; [apply Z.leb_le; rewrite s32_small by lia; lia|].
  apply (wp_put_pos _ _ f); [done|]. apply running_files; [done|..].
  - split; [|simpl; lia|apply Hwf|done]. eapply wf_files_put; [apply Hwf|done..].
  - intros q g. simpl. rewrite lookup_insert_Some. intros [[<- <-]|[_ Hg]]; eauto.
  - intros q g Hg. simpl. destruct (decide (p = q)) as [<-|Hne].
    + rewrite lookup_insert_eq. rewrite Hf in Hg. injection Hg as <-. by eexists.
    + rewrite lookup_insert_ne by done. by eexists.
Qed.

(** Calls that only look at the file. *)
Lemma sys_tell_run s t fd :
  running s t → zlookup (fd_table t) fd ≠ Some STDIN → zlookup (fd_table t) fd ≠ Some STDOUT →
  wp (sys_tell fd) s (λ _ s', s' = s).
Proof.
  intros Hr H1 H2. pose proof Hr as [Hwf Ht]. unfold sys_tell. destruct (bad_fd fd) eqn:Hb; [by wp_pure|].
  destruct (good_fd t fd (wd_task _ Hwf _ _ Ht) Hb) as [p Hp]. wp_step. eapply wp_get_fd; [done..|].
  destruct (Z.eqb_spec p 0); [by wp_pure|].
  destruct (open_slot_file s t fd p) as (f & Hf & Hp0); [done..|congruence|congruence|].
  unfold on_kfs, file_tell. wp_step. wp_step. wp_step. wp_step; [by rewrite (proj2 (Z.eqb_neq p 0)) by lia|].
  wp_step. apply (wp_head_of _ _ f); [done|]. wp_pure. by destruct s.
Qed.
Lemma sys_filesize_run s t fd :
  running s t → zlookup (fd_table t) fd ≠ Some STDIN → zlookup (fd_table t) fd ≠ Some STDOUT →
  wp (sys_filesize fd) s (λ _ s', s' = s).
Proof.
  intros Hr H1 H2. pose proof Hr as [Hwf Ht]. unfold sys_filesize. destruct (bad_fd fd) eqn:Hb; [by wp_pure|].
  destruct (good_fd t fd (wd_task _ Hwf _ _ Ht) Hb) as [p Hp]. wp_step. eapply wp_get_fd; [done..|].
  destruct (Z.eqb_spec p 0); [by wp_pure|].
  destruct (open_slot_file s t fd p) as (f & Hf & Hp0); [done..|congruence|congruence|].
  destruct (wff_file _ (wd_files _ Hwf) _ _ Hf) as [[i Hi] _].
  unfold on_kfs, file_length, on_fs, get_inode. wp_step. wp_step. wp_step; [by rewrite (proj2 (Z.eqb_neq p 0)) by lia|].
  wp_step. apply (wp_head_of _ _ f); [done|]. wp_pure. wp_step; [done|]. wp_pure. by destruct s as [[[] ? ? ?] ? ?].
Qed.

(** *** The executable *)

Lemma running_exec s t k' r :
  running s t → files_step (p_k s) k' →
  (∀ q, q ≠ running_file t → q ≠ r → files k' !! q = files (p_k s) !! q) →
  files k' !! running_file t = None ∨ running_file t = 0 →
  (r = 0 ∨ (∃ f, files k' !! r = Some f ∧ f_deny f = true) ∧ total r (tasks s) = 0 ∧ 2 < r ∧
     ∀ i u, tasks s !! i = Some u → running_file u ≠ r) →
  (∀ q f, files k' !! q = Some f → 2 < q) →
  running (Pst k' (<[p_cur s := set_running r t]> (tasks s)) (p_cur s)) (set_running r t).
Proof.
  intros [Hwf Ht] [Hwf' Hn Hrc Hd] Hsame Hgone Hr Hptr.
  assert (Htot : ∀ p, total p (<[p_cur s := set_running r t]> (tasks s)) = total p (tasks s)).
  { intros p. rewrite (total_insert _ _ _ t) by done. simpl. lia. }
  assert (Hother : ∀ i u, <[p_cur s := set_running r t]> (tasks s) !! i = Some u → ∃ v, tasks s !! i = Some v ∧
    wf_task u ∧ cwd u = cwd v ∧ fd_table u = fd_table v ∧
    (i = p_cur s ∧ running_file u = r ∨ i ≠ p_cur s ∧ running_file u = running_file v)).
  { intros i u [[<- <-]|[Hne Hu]]%lookup_insert_Some.
    - exists t. split; [done|]. destruct (wd_task _ Hwf _ _ Ht). split; [by split|]. by auto.
    - exists u. split; [done|]. split; [by apply (wd_task _ Hwf i)|]. by auto. }
  split; [|apply lookup_insert_eq]. split; simpl; [done| |done|done|..].
  - pose proof (wd_next _ Hwf). lia.
  - intros i u Hu. by destruct (Hother i u Hu) as (v & _ & ? & _).
  - intros i u p Hu Hp. destruct (Hother i u Hu) as (v & Hv & _ & _ & Heq & _). rewrite Heq in Hp.
    destruct (wd_open _ Hwf i v p Hv Hp) as [|(f & Hf & Hc)]; [by left|right]. exists f. rewrite Htot.
    split; [|done]. pose proof (total_slots p _ _ _ Hv). apply slots_elem in Hp. rewrite Hsame; [done|..]; intros ->.
    + destruct (wd_run _ Hwf _ _ Ht) as [H0|[_ H0]]; [|lia]. pose proof (wd_ptr _ Hwf _ _ Hf). lia.
    + destruct Hr as [->|(_ & H0 & _)]; [|lia]. pose proof (wd_ptr _ Hwf _ _ Hf). lia.
  - intros i u Hu. destruct (Hother i u Hu) as (v & Hv & _ & _ & _ & [[-> ->]|[Hne ->]]); rewrite Htot; [tauto|].
    destruct (wd_run _ Hwf i v Hv) as [|[(f & Hf & Hdn) Hz]]; [by left|].
    destruct (decide (running_file v = 0)) as [|H0]; [by left|right]. split; [|done]. exists f. split; [|done].
    rewrite Hsame; [done| |].
    + intros Heq. apply H0. by apply (wd_run_own _ Hwf i (p_cur s) v t).
    + destruct Hr as [->|(_ & _ & _ & Hr)]; [done|]. by apply (Hr i).
  - intros i j u v Hij Hu Hv Heq.
    destruct (Hother i u Hu) as (u' & Hu' & _ & _ & _ & Hcu), (Hother j v Hv) as (v' & Hv' & _ & _ & _ & Hcv).
    destruct Hr as [->|(_ & _ & _ & Hr)]; [destruct Hcu as [[-> Hcu]|[Hi Hcu]], Hcv as [[-> Hcv]|[Hj Hcv]];
      [congruence..|rewrite Hcu; apply (wd_run_own _ Hwf i j u' v'); [done..|congruence]]|].
    destruct Hcu as [[-> Hcu]|[Hi Hcu]], Hcv as [[-> Hcv]|[Hj Hcv]]; [done|..].
    + by destruct (Hr j v' Hv'); congruence.
    + by destruct (Hr i u' Hu'); congruence.
    + rewrite Hcu. apply (wd_run_own _ Hwf i j u' v'); [done..|congruence].
  - intros i u Hu. destruct (Hother i u Hu) as (v & Hv & _ & -> & _). rewrite Hd. by apply (wd_cwd _ Hwf i).
  - intros i j u v Hij Hu Hv. destruct (Hother i u Hu) as (u' & Hu' & _ & -> & _), (Hother j v Hv) as (v' & Hv' & _ & -> & _).
    by apply (wd_cwd_own _ Hwf i j).
Qed.

Lemma exec_close_wp s t : running s t →
  wp exec_close s (λ _ s', ∃ t', running s' t' ∧ running_file t' = 0).
Proof.
  intros Hr. pose proof Hr as [Hwf Ht]. unfold exec_close. wp_step. eapply wp_thread_current; [done|].
  destruct (Z.eqb_spec (running_file t) 0) as [H0|H0]; simpl; [wp_pure; by exists t|].
  destruct (wd_run _ Hwf _ _ Ht) as [|[(f & Hf & _) _]]; [done|].
  pose proof (run_close_wp (p_k s) _ f (wd_files _ Hwf) (wd_reclaim _ Hwf) Hf) as Hcl. rewrite wp_bind in Hcl.
  unfold on_kfs. wp_step. wp_step. eapply wp_mono; [exact Hcl|]. intros [] k1 Hcl1. cbv beta in Hcl1. wp_step. wp_step. simpl.
  eapply wp_mono; [exact Hcl1|]. intros [] k2 (Hst & Hn & Hf2).
  eapply wp_upd_task; [done|]. exists (set_running 0 t). split; [|done].
  apply (running_exec s t k2 0); [done|done| |left; by rewrite Hf2, lookup_delete_eq|by left|].
  - intros q Hq _. by rewrite Hf2, lookup_delete_ne.
  - intros q g. rewrite Hf2. intros [_ Hg]%lookup_delete_Some. by apply (wd_ptr _ Hwf q g).
Qed.

Lemma exec_deny_wp s t p f : running s t → running_file t = 0 → fresh_file s p f →
  wp (exec_deny p) s (λ _ s', running s' (set_running p t)).
Proof.
  intros Hr H0 [Hf Hone Hz Hrun]. pose proof Hr as [Hwf Ht]. destruct (wff_file _ (wd_files _ Hwf) _ _ Hf) as [[i Hi] _].
  unfold exec_deny. wp_step. eapply wp_upd_task; [done|]. unfold on_kfs. wp_step. simpl.
  eapply wp_mono; [by apply (file_deny_write_wp (p_k s) p f i (wd_files _ Hwf))|].
  intros [] k' (Hwf' & Hn & Hd & Hf' & Hv & Hin). destruct (wd_reclaim _ Hwf) as [own Hrc].
  apply (running_exec s t k' p); [done| | |by right| |].
  - split; [done|lia| |done]. exists own. apply (reclaims_kept own _ _ Hrc).
    eapply inodes_kept_insert; [by rewrite Hv|exact Hi|exact Hin|done..].
  - intros q _ Hq. by rewrite Hf', lookup_insert_ne.
  - right. split; [exists (set_file_deny true f); by rewrite Hf', lookup_insert_eq|]. split; [done|].
    split; [by apply (wd_ptr _ Hwf p f)|done].
  - intros q g. rewrite Hf'. intros [[<- _]|[_ Hg]]%lookup_insert_Some; [by apply (wd_ptr _ Hwf p f)|by apply (wd_ptr _ Hwf q g)].
Qed.
End calls.

(** ** Properties *)

(** A call keeps the invariant. *)
Lemma call_keeps s t c :
  wf_desc s → tasks s !! p_cur s = Some t → call_ok s t c → ∃ r s', run_call c s = Done (r, s') ∧ wf_desc s'.
Proof.
  intros Hwf Ht Hok. assert (Hr : running s t) by done. apply wp_done.
  destruct c as [p|fd|a b|fd pos|fd|fd| |p|parent| |i]; simpl in *.
  - destruct Hok as (f & i & k & Hf & Hi & Hd & Hk & H0).
    eapply wp_mono; [by apply (open_fd_running s t p f i k)|]. by intros fd s' (_ & _ & [? _] & _).
  - wp_step. destruct (bad_fd fd) eqn:Hb; [unfold sys_close; rewrite Hb; by wp_pure|].
    destruct (good_fd t fd (wd_task _ Hwf _ _ Ht) Hb) as [p Hp].
    eapply wp_mono; [by apply (sys_close_running s t fd p)|]. intros [] s' (k' & -> & [? _] & _). by wp_pure.
  - destruct (bad_fd a) eqn:Hb; [unfold sys_dup2; rewrite Hb; by wp_pure|].
    destruct (good_fd t a (wd_task _ Hwf _ _ Ht) Hb) as [old Hold].
    destruct (decide (old = 0 ∨ a = b)) as [Hc|Hc].
    + unfold sys_dup2. rewrite Hb. wp_step. eapply wp_get_fd; [done..|].
      destruct Hc as [->| ->]; [by wp_pure|]. rewrite Z.eqb_refl. destruct (old =? 0); by wp_pure.
    + destruct (zlookup_is_Some (fd_table t) b) as [new Hnew]; [by rewrite (wt_size _ (wd_task _ Hwf _ _ Ht))|].
      eapply wp_mono; [apply (sys_dup2_running s t a b old new); tauto|]. by intros r s' (_ & k' & -> & [? _] & _).
  - wp_step. eapply wp_mono; [by apply (sys_seek_running s t)|]. intros [] s' [? _]. by wp_pure.
  - destruct Hok. eapply wp_mono; [by apply (sys_tell_run s t)|]. by intros r s' ->.
  - destruct Hok. eapply wp_mono; [by apply (sys_filesize_run s t)|]. by intros r s' ->.
  - wp_step. eapply wp_mono; [by apply (exec_close_wp s t)|]. intros [] s' (t' & [? _] & _). by wp_pure.
  - destruct Hok as (H0 & f & Hf). wp_step. eapply wp_mono; [by apply (exec_deny_wp s t p f)|].
    intros [] s' [? _]. by wp_pure.
  - destruct Hok as (pt & dd & Hf & Hidx & Hdd). wp_step. eapply wp_mono; [by apply (fork_fds_wp s parent pt t dd)|].
    intros r s' (_ & c' & [? _] & _). by wp_pure.
  - wp_step. eapply wp_mono; [by apply (exit_files_wp s t)|]. intros [] s' (Hw & _). by wp_pure.
  - wp_pure. by destruct Hwf.
Qed.


(** C5: No call on descriptors reads outside of the tables, follows a pointer to a
    closed file or fails an ASSERT, whatever the processes did before, and after it
    every open file counts exactly the slots that lead to it in all tables, the
    consoles' counts are right, executables deny writes and are not shared: for the
    calls that [call_ok] admits, which are those whose arguments the functions do not
    check themselves. That is, the second argument of dup2 is in the table, a position
    for seek is below 2^31, filesize and tell are not asked about a console, open
    finds a free slot, a parent forks with no file in its slots 0 and 1 and its table
    not full, and no directory is in a slot. *)
Theorem calls_keep_counts s t c :
  wf_desc s → tasks s !! p_cur s = Some t → call_ok s t c →
  ∃ r s', run_call c s = Done (r, s') ∧ wf_desc s'.
Proof. apply call_keeps. Qed.

(** C12: After dup2 both descriptors lead to the same open file, and no other slot
    has changed; the file that the new descriptor led to is closed when that was
    its last one. *)
Theorem dup2_spec s t oldfd newfd old new :
  wf_desc s → tasks s !! p_cur s = Some t →
  zlookup (fd_table t) oldfd = Some old → old ≠ 0 → zlookup (fd_table t) newfd = Some new → oldfd ≠ newfd →
  ∃ s' t', sys_dup2 oldfd newfd s = Done (newfd, s') ∧ tasks s' = <[p_cur s := t']> (tasks s) ∧
    zlookup (fd_table t') newfd = Some old ∧
    (∀ fd, fd ≠ newfd → zlookup (fd_table t') fd = zlookup (fd_table t) fd) ∧
    (∀ p f, files (p_k s) !! p = Some f →
       files (p_k s') !! p = if decide (p = new ∧ new ≠ old ∧ total new (tasks s) = 1) then None
                            else Some (set_dup (moved p new old (dup_count f)) f)).
Proof.
  intros Hwf Ht Hold H0 Hnew Hne. assert (Hr : running s t) by done.
  pose proof (sys_dup2_running s t oldfd newfd old new Hr Hold H0 Hnew Hne) as Hwp.
  apply wp_done in Hwp as (r & s' & Hrun & -> & k' & -> & _ & _ & Hf').
  pose proof (zlookup_Some_range _ _ _ Hnew) as Hn.
  exists (Pst k' (<[p_cur s := move newfd new old t]> (tasks s)) (p_cur s)), (move newfd new old t).
  split; [done|]. split; [done|]. split; [simpl; by apply zlookup_zinsert|].
  split; [intros fd Hfd; simpl; apply zlookup_zinsert_ne; [lia|done]|].
  intros p f Hp. simpl. rewrite Hf'. pose proof (not_special _ _ _ Hwf Hp) as Hs. unfold moved.
  assert (Hsh : shared old (files (p_k s)) !! p = Some (set_dup (dup_count f + if decide (old = p) then 1 else 0) f)).
  { destruct (decide (old = p)) as [->|]; [by rewrite (shared_eq _ _ f)|]. rewrite shared_ne by done.
    rewrite Hp. destruct f. unfold set_dup. simpl. by rewrite Z.add_0_r. }
  destruct (decide (new = p)) as [->|Hnp].
  - rewrite (closed_eq _ _ _ Hsh). simpl. destruct (open_slot s t newfd p Hr Hnew Hs) as (g & Hg & Hd & Hpos).
    rewrite Hp in Hg. injection Hg as <-. rewrite Hd.
    destruct (decide (old = p)) as [->|Hop].
    + rewrite (decide_False (P:=p = p ∧ _)) by (by intros (_ & ? & _)). rewrite (proj2 (Z.eqb_neq _ 0)) by lia. f_equal. unfold set_dup. simpl. f_equal. lia.
    + case_decide as Hc.
      * rewrite (proj2 (Z.eqb_eq _ 0)) by lia. done.
      * rewrite (proj2 (Z.eqb_neq _ 0)) by (intros ?; apply Hc; split; [done|split; [done|lia]]).
        f_equal. unfold set_dup. simpl. f_equal. lia.
  - rewrite closed_ne, Hsh, (decide_False (P:=p = new ∧ _)) by (done || by intros [-> _]). f_equal. unfold set_dup. simpl. f_equal. lia.
Qed.

(** C10: When a process ends, the files that only its descriptors led to are closed,
    those that others share stay open with one reference less for each of its
    descriptors, and its executable and its working directory are given back. *)
Theorem exit_closes_files s t :
  wf_desc s → tasks s !! p_cur s = Some t →
  ∃ s', exit_files s = Done (tt, s') ∧
    (∀ p f, files (p_k s) !! p = Some f → p ∈ fd_table t →
       let left := total p (delete (p_cur s) (tasks s)) in
       files (p_k s') !! p = if left =? 0 then None else Some (set_dup left f)) ∧
    (∀ p, p ∉ fd_table t → p ≠ running_file t → files (p_k s') !! p = files (p_k s) !! p) ∧
    files (p_k s') !! running_file t = None ∧ dirs (p_k s') = delete (cwd t) (dirs (p_k s)).
Proof.
  intros Hwf Ht. assert (Hr : running s t) by done. pose proof (exit_files_wp s t Hr) as Hwp.
  apply wp_done in Hwp as ([] & s' & Hrun & _ & Hleft & Hgone & Hdirs). exists s'. split; [done|].
  split; [|split; [|done]].
  - intros p f Hf Hin. cbv zeta. pose proof (not_special _ _ _ Hwf Hf) as Hs. rewrite Hleft, Hf; simpl.
    + unfold file_left. pose proof (total_delete p _ _ _ Ht) as Htd. pose proof Hin as Hsl. apply slots_elem in Hsl.
      by rewrite (proj2 (Z.eqb_neq (total p (tasks s)) _)) by lia.
    + pose proof Hin as Hsl. apply slots_elem in Hsl. pose proof (total_slots p _ _ _ Ht).
      intros ->. destruct (decide (running_file t = 0)) as [H0|H0]; [apply Hs; by left|].
      by apply (running_not_total s t (p_cur s) t (running_file t) Hr Ht H0); [lia|].
  - intros p Hnin Hp. rewrite Hleft by done. destruct (files (p_k s) !! p) as [f|]; simpl; [|done].
    unfold file_left. rewrite (proj2 (Z.eqb_eq _ _)); [done|]. rewrite (total_delete p _ _ _ Ht), slots_none by done. lia.
Qed.

(** C11: A forked process has a descriptor for each one of its parent: the same
    console, or an open file of its own with the inode, the position and the denial of
    the parent's; the parent's files and table are as they were. The parent's slots 0
    and 1 lead to no file ([forking]; for a file that dup2 has put there, see
    fork_redirected in DescExamples.v), its table is not full, and malloc does not
    fail. *)
Theorem fork_copies_files s parent t c dd :
  wf_desc s → tasks s !! p_cur s = Some c → forking s parent t c → fd_idx t ≠ MAX_FD →
  dirs (p_k s) !! cwd t = Some dd → v_mem (fs_vol (k_fs (p_k s))) = [] →
  ∃ s' c', fork_fds parent s = Done (true, s') ∧ tasks s' = <[p_cur s := c']> (tasks s) ∧
    (∀ fd p, zlookup (fd_table t) fd = Some p → ∃ q, zlookup (fd_table c') fd = Some q ∧
       if decide (special p) then q = p else
       ∃ f, files (p_k s) !! p = Some f ∧ files (p_k s) !! q = None ∧
         files (p_k s') !! q = Some (File (f_inode f) (f_pos f) (f_deny f) 1)) ∧
    (∀ p f, files (p_k s) !! p = Some f → files (p_k s') !! p = Some f) ∧
    dirs (p_k s') !! cwd c' = Some (Dir (d_inode dd) 0).
Proof.
  intros Hwf Hc Hfk Hidx Hdd Hmem. pose proof (fork_fds_wp s parent t c dd Hfk Hidx Hdd) as Hwp.
  apply wp_done in Hwp as (r & s' & Hrun & -> & c' & _ & (k' & ->) & Hcp & Hold & Hcwd & _).
  exists (Pst k' (<[p_cur s := c']> (tasks s)) (p_cur s)), c'. split; [done|]. split; [done|]. split; [|split; [done|]].
  - intros fd p Hp. destruct (Hcp fd p Hp) as (q & Hq & Hcq). exists q. split; [done|]. unfold copied in Hcq.
    destruct (decide (special p)); [done|]. destruct Hcq as [[_ Hm]|(f & Hf & Hrg & Hg)]; [done|].
    exists f. split; [done|]. split; [|done]. destruct (files (p_k s) !! q) as [g|] eqn:Hq'; [|done].
    apply (wff_file _ (wd_files _ Hwf)) in Hq' as [_ ?]. lia.
  - destruct Hcwd as [[_ Hm]|Hd]; [done|done].
Qed.

(** A call of the running process, as [call_ok] admits it. *)
Definition call_step s s' : Prop :=
  ∃ t c r, tasks s !! p_cur s = Some t ∧ call_ok s t c ∧ run_call c s = Done (r, s').
Lemma calls_wf s s' : rtc call_step s s' → wf_desc s → wf_desc s'.
Proof.
  induction 1 as [|s1 s2 s3 (t & c & r & Ht & Hok & Hrun) _ IH]; intros Hwf; [done|]. apply IH.
  destruct (call_keeps s1 t c Hwf Ht Hok) as (r' & s' & Hrun' & Hwf'). by rewrite Hrun in Hrun'; injection Hrun' as _ <-.
Qed.

Lemma denied_write s i u g p f buffer size :
  wf_desc s → tasks s !! i = Some u → running_file u ≠ 0 → files (p_k s) !! running_file u = Some g →
  files (p_k s) !! p = Some f → f_inode f = f_inode g → - 2 ^ 31 <= f_pos f < 2 ^ 31 →
  file_write p buffer size (p_k s) = Done (0, p_k s).
Proof.
  intros Hwf Hu Hr0 Hg Hf Hin Hpos. pose proof (wd_files _ Hwf) as Hwff.
  destruct (wd_run _ Hwf _ _ Hu) as [|[(g' & Hg' & Hdeny) _]]; [done|]. rewrite Hg in Hg'. injection Hg' as <-.
  destruct (wff_file _ Hwff _ _ Hf) as [[j Hj] _]. pose proof Hj as Hjd. apply (wff_deny _ Hwff) in Hjd.
  assert (Hd : 1 <= deny_write_cnt j).
  { rewrite Hjd, (count_delete (denies (f_inode f)) _ _ _ Hg). unfold denies at 2. rewrite Hin, Z.eqb_refl, Hdeny. simpl.
    pose proof (count_nonneg (denies (f_inode g)) (delete (running_file u) (files (p_k s)))). lia. }
  apply wp_run_eq. unfold file_write, get_file, put_file, on_fs, inode_write_at, get_inode. wp_pure. wp_step; [done|].
  wp_pure. wp_step; [done|]. rewrite (proj2 (Z.eqb_neq _ 0)) by lia. simpl. wp_pure.
  apply wp_int_ok; [lia|]. wp_pure. split; [done|]. rewrite Z.add_0_r. unfold set_files. simpl.
  replace (set_pos (f_pos f) f) with f by (by destruct f). rewrite insert_id by done. by destruct (p_k s) as [[] ? ? ?].
Qed.

(** C14: After process_exec has denied writes to its new executable [p], the file is
    not written as long as the process runs it, whatever calls of [call_ok] the
    processes make: a write to its inode, through any open file, writes nothing and
    leaves the file system as it is. *)
Theorem executable_not_written s t p f :
  wf_desc s → tasks s !! p_cur s = Some t → running_file t = 0 → fresh_file s p f →
  ∃ s1, exec_deny p s = Done (tt, s1) ∧
    ∀ s2 u g q h buffer size, rtc call_step s1 s2 →
      tasks s2 !! p_cur s = Some u → running_file u = p → files (p_k s2) !! p = Some g →
      files (p_k s2) !! q = Some h → f_inode h = f_inode g → - 2 ^ 31 <= f_pos h < 2 ^ 31 →
      file_write q buffer size (p_k s2) = Done (0, p_k s2).
Proof.
  intros Hwf Ht H0 Hf. pose proof (wd_ptr _ Hwf _ _ (ff_file _ _ _ Hf)) as Hp.
  destruct (wp_run_unit _ _ _ (exec_deny_wp s t p f (conj Hwf Ht) H0 Hf)) as (s1 & Hrun & Hwf1 & _).
  exists s1. split; [done|]. intros s2 u g q h buffer size Hcalls Hu Hr Hg Hh Hin Hpos.
  apply (denied_write s2 (p_cur s) u g q h); try done; [by apply (calls_wf s1)|lia|by rewrite Hr].
Qed.
