(* ===== verification/Wait.v ===== *)
(** * fork, wait and exit (userprog/process.c)

    The semaphores by which a process and its children wait for each other, as a
    transition system: each turn of a thread is the code between two points where
    another thread may run. What semaphores do is the subject of Synch.v; here one
    is its value. *)
From stdpp Require Import base numbers list gmap relations.
From Stdlib Require Import ZArith Lia.
From S2P Require Import Prelude.
Open Scope Z_scope.

Definition TID_ERROR : Z := -1.

(** Where a thread is in process_fork, __do_fork, process_wait and process_exit. *)
Inductive place :=
  | User                        (** anywhere else *)
  | ForkDown (c : Z)            (** before sema_down (&parent->fork_sema) *)
  | ForkRead (c : Z)            (** behind it *)
  | DoFork (parent : Z)         (** copying the parent *)
  | ForkError                   (** before sys_exit (TID_ERROR) *)
  | WaitDown (c : Z)            (** before sema_down (&child->wait_sema) *)
  | WaitRead (c : Z)            (** behind it *)
  | WaitFree (c status : Z)     (** before sema_up (&child->free_sema) *)
  | Exiting                     (** in thread_exit, before sema_up (&curr->wait_sema) *)
  | FreeDown.                   (** before sema_down (&curr->free_sema) *)

(** The part of struct thread, by thread identifier; a thread that has died is no
    longer there. *)
Record thread := Thread {
  exit_status : Z;
  wait_sema : Z;
  free_sema : Z;
  fork_sema : Z;
  children_list : list Z;
  at_ : place;
}.
Record procs := Procs {
  threads : gmap Z thread;
  next_tid : Z;
}.

Definition set_at l t := Thread (exit_status t) (wait_sema t) (free_sema t) (fork_sema t) (children_list t) l.
Definition set_status n t := Thread n (wait_sema t) (free_sema t) (fork_sema t) (children_list t) (at_ t).
Definition set_wait n t := Thread (exit_status t) n (free_sema t) (fork_sema t) (children_list t) (at_ t).
Definition set_free n t := Thread (exit_status t) (wait_sema t) n (fork_sema t) (children_list t) (at_ t).
Definition set_fork n t := Thread (exit_status t) (wait_sema t) (free_sema t) n (children_list t) (at_ t).
Definition set_children l t := Thread (exit_status t) (wait_sema t) (free_sema t) (fork_sema t) l (at_ t).
Definition put (i : Z) (t : thread) (s : procs) : procs := Procs (<[i := t]> (threads s)) (next_tid s).

(** What can be seen of a turn. *)
Inductive event :=
  | Silent
  | Created (p c : Z)           (** thread_create *)
  | Copied (c : Z) (succ : bool) (** __do_fork is done *)
  | Forked (p r : Z)            (** process_fork returns [r] *)
  | Exited (c status : Z)       (** the exit status is final *)
  | Waited (p c status : Z)     (** process_wait for the child [c] returns *)
  | NotWaited (p tid : Z).      (** process_wait returns -1 at once *)

(** The end of a turn: the thread waits, it follows a pointer to a thread that is
    gone, or it goes on. *)
Inductive turn := Blocked | Dangling | Next (e : event) (s : procs).

(** The choices that the program makes. *)
Inductive action :=
  | Spawn                       (** thread_create, for initd *)
  | Fork | ForkNoMem
  | Wait (tid : Z)
  | Exit (status : option Z)    (** sys_exit, or thread_exit alone *)
  | Fail                        (** __do_fork fails *)
  | Go.                         (** whatever comes next *)

Definition new_thread (l : place) : thread := Thread 0 0 0 0 [] l.

(** thread_create, as far as it concerns this protocol. *)
Definition thread_create (p : Z) (t : thread) (l l' : place) (s : procs) : turn :=
  let c := next_tid s in
  Next (Created p c)
    (Procs (<[c := new_thread l]> (<[p := set_at l' (set_children (children_list t ++ [c]) t)]> (threads s))) (c + 1)).

(** process_fork up to the sema_down *)
Definition process_fork (p : Z) (t : thread) (ok : bool) (s : procs) : turn :=
  if ok then thread_create p t (DoFork p) (ForkDown (next_tid s)) s
  else Next (Forked p TID_ERROR) s.
Definition fork_down (p : Z) (t : thread) (c : Z) (s : procs) : turn :=
  if fork_sema t =? 0 then Blocked
  else Next Silent (put p (set_at (ForkRead c) (set_fork (fork_sema t - 1) t)) s).
(** get_my_child *)
Definition get_my_child (t : thread) (tid : Z) : option Z := list_find (λ c, c = tid) (children_list t) ≫= λ x, Some (snd x).
(** Its result is not compared with NULL, but dereferenced. *)
Definition fork_read (p : Z) (t : thread) (c : Z) (s : procs) : turn :=
  match get_my_child t c ≫= λ c, threads s !! c with
  | None => Dangling
  | Some u => Next (Forked p (if exit_status u =? TID_ERROR then TID_ERROR else c)) (put p (set_at User t) s)
  end.

(** The end of __do_fork. *)
Definition do_fork (c : Z) (t : thread) (parent : Z) (succ : bool) (s : procs) : turn :=
  match threads s !! parent with
  | None => Dangling
  | Some u => Next (Copied c succ) (put c (set_at (if succ then User else ForkError) t) (put parent (set_fork (fork_sema u + 1) u) s))
  end.

Definition sys_exit (c : Z) (t : thread) (status : Z) (s : procs) : turn :=
  Next (Exited c status) (put c (set_at Exiting (set_status status t)) s).
(** The end of process_exit, and the death of the thread. *)
Definition exit_up (c : Z) (t : thread) (s : procs) : turn :=
  Next Silent (put c (set_at FreeDown (set_wait (wait_sema t + 1) t)) s).
Definition exit_down (c : Z) (t : thread) (s : procs) : turn :=
  if free_sema t =? 0 then Blocked else Next Silent (Procs (delete c (threads s)) (next_tid s)).

Definition process_wait (p : Z) (t : thread) (tid : Z) (s : procs) : turn :=
  match get_my_child t tid with
  | None => Next (NotWaited p tid) s
  | Some c => Next Silent (put p (set_at (WaitDown c) t) s)
  end.
Definition wait_down (p : Z) (t : thread) (c : Z) (s : procs) : turn :=
  match threads s !! c with
  | None => Dangling
  | Some u => if wait_sema u =? 0 then Blocked
      else Next Silent (put p (set_at (WaitRead c) t) (put c (set_wait (wait_sema u - 1) u) s))
  end.
Definition wait_read (p : Z) (t : thread) (c : Z) (s : procs) : turn :=
  match threads s !! c with
  | None => Dangling
  | Some u => Next Silent (put p (set_at (WaitFree c (exit_status u))
                                   (set_children (filter (λ x, x ≠ c) (children_list t)) t)) s)
  end.
Definition wait_free (p : Z) (t : thread) (c status : Z) (s : procs) : turn :=
  match threads s !! c with
  | None => Dangling
  | Some u => Next (Waited p c (if status <? 0 then -1 else status))
                (put p (set_at User t) (put c (set_free (free_sema u + 1) u) s))
  end.

(** One turn of the thread [i]; a thread that is not there, or not where the
    action belongs, does nothing. *)
Definition act (i : Z) (a : action) (s : procs) : turn :=
  match threads s !! i with
  | None => Blocked
  | Some t =>
      match at_ t, a with
      | User, Spawn => thread_create i t User User s
      | User, Fork => process_fork i t true s
      | User, ForkNoMem => process_fork i t false s
      | User, Wait tid => process_wait i t tid s
      | User, Exit (Some status) => sys_exit i t status s
      | User, Exit None => sys_exit i t (exit_status t) s
      | ForkDown c, Go => fork_down i t c s
      | ForkRead c, Go => fork_read i t c s
      | DoFork parent, Go => do_fork i t parent true s
      | DoFork parent, Fail => do_fork i t parent false s
      | ForkError, Go => sys_exit i t TID_ERROR s
      | WaitDown c, Go => wait_down i t c s
      | WaitRead c, Go => wait_read i t c s
      | WaitFree c status, Go => wait_free i t c status s
      | Exiting, Go => exit_up i t s
      | FreeDown, Go => exit_down i t s
      | _, _ => Blocked
      end
  end.

(** The first thread, which starts initd and waits for it. *)
Definition boot : procs := Procs {[1 := new_thread User]} 2.

(** The events so far, the last one first, and the threads. *)
Inductive run : list event → procs → Prop :=
  | run_boot : run [] boot
  | run_turn tr s i a e s' : run tr s → act i a s = Next e s' → run (e :: tr) s'.
