(* ===== verification/WaitInv.v ===== *)
(** * The invariant of fork, wait and exit

    A thread stays as long as somebody may still follow a pointer to it, and each
    value of a semaphore is accounted for by where the threads are. *)
From stdpp Require Import base numbers list gmap relations.
From Stdlib Require Import ZArith Lia.
From S2P Require Import Prelude Wait.
Open Scope Z_scope.

(** [p] has yet to release its child [c]: it is in its list, or about to be. *)
Definition frees (t : thread) (c : Z) : Prop := ∃ st, at_ t = WaitFree c st.
Definition reaps (t : thread) (c : Z) : Prop := at_ t = WaitRead c ∨ frees t c.
Definition holds (s : procs) (p c : Z) : Prop :=
  ∃ t, threads s !! p = Some t ∧ (c ∈ children_list t ∨ frees t c).

(** Where a thread is tells the value of its [fork_sema], and where others are. *)
Definition forking_at (l : place) (p : Z) : Prop := l = DoFork p.
Definition is_dofork (l : place) : Prop := ∃ p, l = DoFork p.
Definition place_ok (s : procs) (p : Z) (t : thread) : Prop :=
  match at_ t with
  | User | ForkError | Exiting | FreeDown => fork_sema t = 0
  | DoFork q => fork_sema t = 0 ∧ ∃ u, threads s !! q = Some u ∧ at_ u = ForkDown p ∧ fork_sema u = 0
  | ForkDown c => c ∈ children_list t ∧ ∃ u, threads s !! c = Some u ∧
      (fork_sema t = 0 ∧ at_ u = DoFork p ∨ fork_sema t = 1 ∧ ¬ is_dofork (at_ u))
  | ForkRead c => fork_sema t = 0 ∧ c ∈ children_list t
  | WaitDown c => fork_sema t = 0 ∧ c ∈ children_list t
  | WaitRead c => fork_sema t = 0 ∧ c ∈ children_list t ∧
      ∃ u, threads s !! c = Some u ∧ at_ u = FreeDown ∧ wait_sema u = 0
  | WaitFree c st => fork_sema t = 0 ∧ c ∉ children_list t ∧
      ∃ u, threads s !! c = Some u ∧ at_ u = FreeDown ∧ wait_sema u = 0 ∧ exit_status u = st
  end.

(** The semaphores on which a process waits for its parent, and its parent for it. *)
Definition sema_ok (s : procs) (c : Z) (u : thread) : Prop :=
  match at_ u with
  | FreeDown =>
      wait_sema u = 1 ∧ free_sema u = 0 ∨
      wait_sema u = 0 ∧ free_sema u = 0 ∧ (∃ p t, threads s !! p = Some t ∧ reaps t c) ∨
      wait_sema u = 0 ∧ free_sema u = 1
  | _ => wait_sema u = 0 ∧ free_sema u = 0
  end.

Record wf_procs (s : procs) : Prop := {
  wp_tid : ∀ c u, threads s !! c = Some u → 0 < c < next_tid s;
  wp_hold : ∀ p c, holds s p c → p < c ∧ ∃ u, threads s !! c = Some u ∧ free_sema u = 0;
  wp_own : ∀ p q c, holds s p c → holds s q c → p = q;
  wp_nodup : ∀ p t, threads s !! p = Some t → NoDup (children_list t);
  wp_place : ∀ p t, threads s !! p = Some t → place_ok s p t;
  wp_sema : ∀ c u, threads s !! c = Some u → sema_ok s c u;
}.

Section inv.
Implicit Types (s : procs) (p q c : Z) (t u v : thread).

Lemma listed s p t c : wf_procs s → threads s !! p = Some t → c ∈ children_list t →
  p < c ∧ ∃ u, threads s !! c = Some u ∧ free_sema u = 0.
Proof. intros Hwf Ht Hc. apply (wp_hold _ Hwf). exists t. auto. Qed.
Lemma get_my_child_Some t tid c : get_my_child t tid = Some c → c = tid ∧ c ∈ children_list t.
Proof.
  unfold get_my_child. destruct (list_find _ _) as [[k x]|] eqn:Hf; simpl; [|done]. intros [= <-].
  apply list_find_Some in Hf as (Hl & -> & _). split; [done|]. by eapply list_elem_of_lookup_2.
Qed.
Lemma get_my_child_elem t c : c ∈ children_list t → get_my_child t c = Some c.
Proof.
  intros Hc. unfold get_my_child. destruct (list_find (λ x, x = c) (children_list t)) as [[k x]|] eqn:Hf; simpl.
  - by apply list_find_Some in Hf as (_ & -> & _).
  - apply list_find_None in Hf. rewrite Forall_forall in Hf. by destruct (Hf c Hc).
Qed.

(** *** One thread moves *)

(** The moves that no other thread depends on. *)
Definition plain (l : place) : Prop :=
  match l with User | ForkRead _ | ForkError | WaitDown _ | Exiting => True | _ => False end.

Lemma inv_move s p t t' :
  wf_procs s → threads s !! p = Some t → plain (at_ t) → plain (at_ t') →
  wait_sema t' = wait_sema t → free_sema t' = free_sema t → children_list t' = children_list t →
  place_ok s p t' → wf_procs (put p t' s).
Proof.
  intros Hwf Ht Hl Hl' Hw Hf Hch Hpl.
  assert (Hlook : ∀ q v, threads (put p t' s) !! q = Some v → q = p ∧ v = t' ∨ q ≠ p ∧ threads s !! q = Some v).
  { intros q v. simpl. intros [[<- <-]|[? ?]]%lookup_insert_Some; auto. }
  assert (Hback : ∀ q v, threads s !! q = Some v → ∃ v', threads (put p t' s) !! q = Some v' ∧
    wait_sema v' = wait_sema v ∧ free_sema v' = free_sema v ∧ children_list v' = children_list v ∧ (v' = v ∨ q = p)).
  { intros q v Hv. simpl. destruct (decide (q = p)) as [->|Hne].
    - rewrite lookup_insert_eq. rewrite Ht in Hv. injection Hv as <-. exists t'. split_and!; auto.
    - rewrite lookup_insert_ne by done. exists v. split_and!; auto. }
  assert (Hholds : ∀ q c, holds (put p t' s) q c → holds s q c).
  { intros q c (v & [[-> ->]|[_ Hv]]%Hlook & Hc); [|by exists v]. exists t. split; [done|]. left.
    destruct Hc as [Hc|[st Hc]]; [by rewrite <- Hch|]. by rewrite Hc in Hl'. }
  assert (Hstay : ∀ q v l, threads s !! q = Some v → at_ v = l → ¬ plain l → threads (put p t' s) !! q = Some v).
  { intros q v l Hv <- Hnp. simpl. rewrite lookup_insert_ne; [done|]. intros <-. rewrite Ht in Hv. by injection Hv as <-. }
  assert (Hplace : ∀ q v, place_ok s q v → place_ok (put p t' s) q v).
  { intros q v. unfold place_ok. destruct (at_ v); try done.
    - intros (Hc & u & Hu & Hcase). split; [done|]. destruct (Hback c u Hu) as (u' & Hu' & _ & _ & _ & Heq).
      exists u'. split; [done|]. destruct Heq as [->| ->]; [done|].
      rewrite Ht in Hu. injection Hu as <-. simpl in Hu'. rewrite lookup_insert_eq in Hu'. injection Hu' as <-.
      destruct Hcase as [[_ He]|[H1 _]]; [by rewrite He in Hl|]. right. split; [done|]. intros [x Hx]. by rewrite Hx in Hl'.
    - intros (H1 & u & Hu & Hat & H2). split; [done|]. exists u. split; [|done]. apply (Hstay _ _ _ Hu Hat). tauto.
    - intros (H1 & H2 & u & Hu & Hat & H3). split; [done|]. split; [done|]. exists u. split; [|done]. apply (Hstay _ _ _ Hu Hat). tauto.
    - intros (H1 & H2 & u & Hu & Hat & H3). split; [done|]. split; [done|]. exists u. split; [|done]. apply (Hstay _ _ _ Hu Hat). tauto. }
  split.
  - intros c u [[-> ->]|[_ Hu]]%Hlook; [by apply (wp_tid _ Hwf p t)|by apply (wp_tid _ Hwf c u)].
  - intros q c Hq. destruct (wp_hold _ Hwf q c (Hholds _ _ Hq)) as (Hlt & u & Hu & Hfr). split; [done|].
    destruct (Hback c u Hu) as (u' & Hu' & _ & E & _). exists u'. split; [done|congruence].
  - intros q r c Hq Hr. by apply (wp_own _ Hwf q r c); apply Hholds.
  - intros q v [[-> ->]|[_ Hv]]%Hlook; [rewrite Hch; by apply (wp_nodup _ Hwf p)|by apply (wp_nodup _ Hwf q)].
  - intros q v [[-> ->]|[_ Hv]]%Hlook; apply Hplace; [done|]. by apply (wp_place _ Hwf).
  - intros c u [[-> ->]|[Hne Hu]]%Hlook.
    + pose proof (wp_sema _ Hwf p t Ht) as Hs. unfold sema_ok in *. rewrite Hw, Hf.
      destruct (at_ t) eqn:E1; simpl in Hl; try done; destruct (at_ t') eqn:E2; simpl in Hl'; try done.
    + pose proof (wp_sema _ Hwf c u Hu) as Hs. unfold sema_ok in *. destruct (at_ u); try done.
      destruct Hs as [|[(H1 & H2 & q & v & Hv & Hr)|]]; [by left| |by right; right]. right; left. split; [done|].
      split; [done|]. exists q, v. split; [|done]. destruct Hr as [Hr|[st Hr]]; apply (Hstay _ _ _ Hv Hr); tauto.
Qed.

(** *** Rules for the other turns *)

Lemma inv_update s s' :
  wf_procs s → next_tid s' = next_tid s →
  (∀ q v', threads s' !! q = Some v' → ∃ v, threads s !! q = Some v ∧
     (NoDup (children_list v) → NoDup (children_list v'))) →
  (∀ q c, holds s' q c → holds s q c) →
  (∀ q c u, holds s' q c → threads s !! c = Some u → free_sema u = 0 →
     ∃ u', threads s' !! c = Some u' ∧ free_sema u' = 0) →
  (∀ p t, threads s' !! p = Some t → place_ok s' p t) →
  (∀ c u, threads s' !! c = Some u → sema_ok s' c u) → wf_procs s'.
Proof.
  intros Hwf Hn Hold Hh Hfree Hp Hs. split; try done.
  - intros c u Hu. destruct (Hold c u Hu) as (v & Hv & _). rewrite Hn. by apply (wp_tid _ Hwf c v).
  - intros q c Hq. destruct (wp_hold _ Hwf q c (Hh q c Hq)) as (Hlt & u & Hu & Hf). split; [done|].
    by apply (Hfree q c u).
  - intros q r c Hq Hr. apply (wp_own _ Hwf q r c); auto.
  - intros q v' Hv'. destruct (Hold q v' Hv') as (v & Hv & Hnd). by apply Hnd, (wp_nodup _ Hwf q).
Qed.

Lemma place_frame s s' q v :
  place_ok s q v →
  (∀ x u, at_ v = ForkDown x → threads s !! x = Some u → ∃ u', threads s' !! x = Some u' ∧
     (at_ u' = at_ u ∨ ¬ is_dofork (at_ u) ∧ ¬ is_dofork (at_ u'))) →
  (∀ x u, at_ v = DoFork x → threads s !! x = Some u → threads s' !! x = Some u) →
  (∀ x u, reaps v x → threads s !! x = Some u → at_ u = FreeDown → wait_sema u = 0 →
     ∃ u', threads s' !! x = Some u' ∧ at_ u' = FreeDown ∧ wait_sema u' = 0 ∧ exit_status u' = exit_status u) →
  place_ok s' q v.
Proof.
  intros Hok HF HD HR. unfold place_ok in *. destruct (at_ v) eqn:Hat; try done.
  - destruct Hok as (Hc & u & Hu & Hcase). split; [done|]. destruct (HF c u eq_refl Hu) as (u' & Hu' & He).
    exists u'. split; [done|]. destruct He as [->|[He1 He2]]; [done|]. right.
    destruct Hcase as [[_ Hx]|[? _]]; [|done]. destruct He1. by exists q.
  - destruct Hok as (H1 & u & Hu & H2). split; [done|]. exists u. split; [|done]. by apply HD.
  - destruct Hok as (H1 & H2 & u & Hu & H3 & H4). split; [done|]. split; [done|].
    destruct (HR c u) as (u' & ? & ? & ? & _); [by left|done..|]. by exists u'.
  - destruct Hok as (H1 & H2 & u & Hu & H3 & H4 & H5). split; [done|]. split; [done|].
    destruct (HR c u) as (u' & ? & ? & ? & ?); [right; by exists status|done..|]. exists u'. split_and!; congruence.
Qed.
Lemma sema_frame s s' c u :
  sema_ok s c u →
  (∀ p t, threads s !! p = Some t → reaps t c → ∃ p' t', threads s' !! p' = Some t' ∧ reaps t' c) →
  sema_ok s' c u.
Proof.
  intros Hok HR. unfold sema_ok in *. destruct (at_ u); try done.
  destruct Hok as [|[(H1 & H2 & p & t & Ht & Hr)|]]; [by left| |by right; right]. right; left.
  split; [done|]. split; [done|]. by apply (HR p t).
Qed.

(** The two threads of a turn. *)
Definition two s p t' c u' : procs := put p t' (put c u' s).
Lemma two_lookup s p t' c u' q v : p ≠ c → threads (two s p t' c u') !! q = Some v →
  q = p ∧ v = t' ∨ q = c ∧ v = u' ∨ q ≠ p ∧ q ≠ c ∧ threads s !! q = Some v.
Proof. intros Hne. simpl. rewrite !lookup_insert_Some. intuition. Qed.
Lemma two_p s p t' c u' : threads (two s p t' c u') !! p = Some t'.
Proof. apply lookup_insert_eq. Qed.
Lemma two_c s p t' c u' : p ≠ c → threads (two s p t' c u') !! c = Some u'.
Proof. intros. simpl. rewrite lookup_insert_ne by done. apply lookup_insert_eq. Qed.
Lemma two_other s p t' c u' q : q ≠ p → q ≠ c → threads (two s p t' c u') !! q = threads s !! q.
Proof. intros. simpl. by rewrite !lookup_insert_ne. Qed.

Lemma reaps_holds s p t c : wf_procs s → threads s !! p = Some t → reaps t c → holds s p c.
Proof.
  intros Hwf Ht Hr. exists t. split; [done|]. destruct Hr as [Hr|]; [left|by right].
  pose proof (wp_place _ Hwf p t Ht) as Hp. unfold place_ok in Hp. rewrite Hr in Hp. tauto.
Qed.
(** A child is at most reaped by one, and only when it waits for that. *)
Lemma reaps_child s p t c u : wf_procs s → threads s !! p = Some t → reaps t c → threads s !! c = Some u →
  at_ u = FreeDown ∧ wait_sema u = 0 ∧ free_sema u = 0.
Proof.
  intros Hwf Ht Hr Hu. destruct (wp_hold _ Hwf p c (reaps_holds _ _ _ _ Hwf Ht Hr)) as (_ & u2 & Hu2 & Hf).
  rewrite Hu in Hu2. injection Hu2 as <-. pose proof (wp_place _ Hwf p t Ht) as Hp. unfold place_ok in Hp.
  destruct Hr as [Hr|[st Hr]]; rewrite Hr in Hp.
  - destruct Hp as (_ & _ & u2 & Hu2 & ? & ?). rewrite Hu in Hu2. by injection Hu2 as <-.
  - destruct Hp as (_ & _ & u2 & Hu2 & ? & ? & _). rewrite Hu in Hu2. by injection Hu2 as <-.
Qed.
(** The parent of a thread that copies it waits for that. *)
Lemma dofork_parent s q v x u : wf_procs s → threads s !! q = Some v → at_ v = DoFork x → threads s !! x = Some u →
  at_ u = ForkDown q ∧ fork_sema u = 0.
Proof.
  intros Hwf Hv Hat Hu. pose proof (wp_place _ Hwf q v Hv) as Hp. unfold place_ok in Hp. rewrite Hat in Hp.
  destruct Hp as (_ & u2 & Hu2 & ? & ?). rewrite Hu in Hu2. by injection Hu2 as <-.
Qed.
Lemma forkdown_child s q v x u : wf_procs s → threads s !! q = Some v → at_ v = ForkDown x → threads s !! x = Some u →
  x ∈ children_list v ∧ (fork_sema v = 0 ∧ at_ u = DoFork q ∨ fork_sema v = 1 ∧ ¬ is_dofork (at_ u)).
Proof.
  intros Hwf Hv Hat Hu. pose proof (wp_place _ Hwf q v Hv) as Hp. unfold place_ok in Hp. rewrite Hat in Hp.
  destruct Hp as (? & u2 & Hu2 & ?). rewrite Hu in Hu2. by injection Hu2 as <-.
Qed.
Lemma plain_fork s p t : wf_procs s → threads s !! p = Some t → (∀ c, at_ t ≠ ForkDown c) → fork_sema t = 0.
Proof.
  intros Hwf Ht Hn. pose proof (wp_place _ Hwf p t Ht) as Hp. unfold place_ok in Hp.
  destruct (at_ t) eqn:Hat; try tauto. by destruct (Hn c).
Qed.
End inv.
