(* ===== verification/WaitStep.v ===== *)
(** * Every turn keeps the invariant *)
From stdpp Require Import base numbers list gmap relations.
From Stdlib Require Import ZArith Lia.
From S2P Require Import Prelude Wait WaitInv.
Open Scope Z_scope.

(** A thread is in one place only. *)
Ltac place_clash :=
  repeat match goal with H : reaps _ _ |- _ => destruct H as [H|[? H]] end;
  try match goal with H1 : at_ ?t = _, H2 : at_ ?t = _ |- _ => rewrite H1 in H2; discriminate H2 end.
Ltac same_thread :=
  repeat match goal with
  | H1 : threads ?s !! ?x = Some ?a, H2 : threads ?s !! ?x = Some ?b |- _ =>
      tryif constr_eq a b then clear H2 else (rewrite H1 in H2; injection H2 as H2; subst b) end.
(** No thread is at DoFork. *)
Ltac not_dofork := let x := fresh in let H := fresh in intros [x H]; simpl in H; congruence.

Section turns.
Implicit Types (s : procs) (p q c : Z) (t u v : thread).

Lemma sema_zero s p t : wf_procs s → threads s !! p = Some t → at_ t ≠ FreeDown → wait_sema t = 0 ∧ free_sema t = 0.
Proof.
  intros Hwf Ht Hne. pose proof (wp_sema _ Hwf p t Ht) as Hs. unfold sema_ok in Hs. by destruct (at_ t).
Qed.
Lemma sema_ok_zero s p t : at_ t ≠ FreeDown → wait_sema t = 0 → free_sema t = 0 → sema_ok s p t.
Proof. intros Hne H1 H2. unfold sema_ok. by destruct (at_ t). Qed.

Lemma fork_down_inv s p t c e s' :
  wf_procs s → threads s !! p = Some t → at_ t = ForkDown c → fork_down p t c s = Next e s' → wf_procs s'.
Proof.
  intros Hwf Ht Hat. unfold fork_down. destruct (Z.eqb_spec (fork_sema t) 0) as [|Hf]; [done|]. intros [= _ <-].
  set (t' := set_at (ForkRead c) (set_fork (fork_sema t - 1) t)).
  pose proof (wp_place _ Hwf p t Ht) as Hp. unfold place_ok in Hp. rewrite Hat in Hp. destruct Hp as (Hc & x & Hx & Hcase).
  destruct (sema_zero s p t Hwf Ht) as [Hw0 Hf0]; [congruence|].
  assert (Hlook : ∀ q v, threads (put p t' s) !! q = Some v → q = p ∧ v = t' ∨ q ≠ p ∧ threads s !! q = Some v).
  { intros q v. simpl. intros [[<- <-]|[? ?]]%lookup_insert_Some; auto. }
  apply (inv_update s); [done|done|..].
  - intros q v [[-> ->]|[_ Hv]]%Hlook; eauto.
  - intros q x0 (v & [[-> ->]|[_ Hv]]%Hlook & Hh); [|by exists v]. exists t. split; [done|].
    destruct Hh as [|[st Hh]]; [by left|done].
  - intros q y v _ Hv Hv0. simpl. destruct (decide (y = p)) as [->|]; [rewrite lookup_insert_eq; by eexists|].
    rewrite lookup_insert_ne by done. by exists v.
  - intros q v [[-> ->]|[Hne Hv]]%Hlook.
    + unfold place_ok. simpl. split; [|done]. destruct Hcase as [[? _]|[? _]]; lia.
    + apply (place_frame s); [by apply (wp_place _ Hwf)|..].
      * intros y u Hy Hu. simpl. destruct (decide (y = p)) as [->|]; [|rewrite lookup_insert_ne by done; eauto].
        same_thread. rewrite lookup_insert_eq. exists t'. split; [done|]. right. split; not_dofork.
      * intros y u Hy Hu. simpl. destruct (decide (y = p)) as [->|]; [|by rewrite lookup_insert_ne].
        destruct (dofork_parent s q v p u Hwf Hv Hy Hu). same_thread. done.
      * intros y u Hy Hu Hfd Hw. simpl. destruct (decide (y = p)) as [->|]; [same_thread; congruence|].
        rewrite lookup_insert_ne by done. by exists u.
  - intros q v [[-> ->]|[Hne Hv]]%Hlook; [by apply sema_ok_zero|].
    apply (sema_frame s); [by apply (wp_sema _ Hwf)|]. intros r u Hu Hr. exists r, u. split; [|done].
    simpl. rewrite lookup_insert_ne; [done|]. intros <-. same_thread. place_clash.
Qed.

Lemma do_fork_inv s c t parent succ e s' :
  wf_procs s → threads s !! c = Some t → at_ t = DoFork parent → do_fork c t parent succ s = Next e s' → wf_procs s'.
Proof.
  intros Hwf Ht Hat. unfold do_fork. destruct (threads s !! parent) as [u|] eqn:Hu; [|done]. intros [= _ <-].
  set (t' := set_at (if succ then User else ForkError) t). set (u' := set_fork (fork_sema u + 1) u).
  destruct (dofork_parent s c t parent u Hwf Ht Hat Hu) as [Hau Hfu].
  pose proof (plain_fork s c t Hwf Ht) as Hft. destruct (forkdown_child s parent u c t Hwf Hu Hau Ht) as [Hc _].
  destruct (sema_zero s c t Hwf Ht) as [Hw0 Hf0]; [congruence|].
  destruct (sema_zero s parent u Hwf Hu) as [Hw1 Hf1]; [congruence|].
  assert (Hne : c ≠ parent) by (intros ->; same_thread; congruence).
  assert (Hat' : at_ t' = User ∨ at_ t' = ForkError) by (unfold t'; simpl; destruct succ; auto).
  pose proof (two_lookup s c t' parent u') as Hlook. unfold two in Hlook.
  pose proof (two_p s c t' parent u') as Hnc. pose proof (two_c s c t' parent u' Hne) as Hnp. unfold two in Hnc, Hnp.
  pose proof (λ q, two_other s c t' parent u' q) as Hno. unfold two in Hno.
  apply (inv_update s); [done|done|..].
  - intros q v [[-> ->]|[[-> ->]|(_ & _ & Hv)]]%Hlook; [by exists t|by exists u|by exists v|done].
  - intros q y (v & Hv & Hh). apply Hlook in Hv as [[-> ->]|[[-> ->]|(_ & _ & Hv)]]; [|..|done].
    + exists t. split; [done|]. left. destruct Hh as [|[st Hh]]; [done|]. destruct Hat'; congruence.
    + exists u. by split.
    + by exists v.
  - intros q y v _ Hv Hv0. destruct (decide (y = c)) as [->|]; [exists t'; same_thread; done|].
    destruct (decide (y = parent)) as [->|]; [exists u'; same_thread; done|]. rewrite Hno by done. by exists v.
  - intros q v [[-> ->]|[[-> ->]|(Hq1 & Hq2 & Hv)]]%Hlook; [| | |done].
    + unfold place_ok. assert (fork_sema t' = 0) by (apply Hft; congruence). destruct Hat' as [-> | ->]; done.
    + unfold place_ok. simpl. rewrite Hau. split; [done|]. exists t'. split; [done|]. right. split; [lia|].
      intros [z Hz]. destruct Hat'; congruence.
    + apply (place_frame s); [by apply (wp_place _ Hwf)|..].
      * intros y w Hy Hw. destruct (decide (y = c)) as [->|].
        { same_thread. destruct (forkdown_child s q v c t Hwf Hv Hy Ht) as [Hcv _].
          destruct Hq2. apply (wp_own _ Hwf q parent c); [exists v|exists u]; auto. }
        destruct (decide (y = parent)) as [->|]; [|rewrite Hno by done; eauto].
        same_thread. exists u'. split; [done|]. by left.
      * intros y w Hy Hw. destruct (dofork_parent s q v y w Hwf Hv Hy Hw) as [Haw _].
        destruct (decide (y = c)) as [->|]; [same_thread; congruence|].
        destruct (decide (y = parent)) as [->|]; [same_thread; congruence|]. by rewrite Hno.
      * intros y w Hy Hw Hfd Hwz. destruct (decide (y = c)) as [->|]; [same_thread; congruence|].
        destruct (decide (y = parent)) as [->|]; [same_thread; congruence|]. rewrite Hno by done. by exists w.
  - intros q v [[-> ->]|[[-> ->]|(Hq1 & Hq2 & Hv)]]%Hlook; [| | |done].
    + apply sema_ok_zero; [destruct Hat'; congruence|done|done].
    + apply sema_ok_zero; [simpl; congruence|done|done].
    + apply (sema_frame s); [by apply (wp_sema _ Hwf)|]. intros r w Hw Hr. exists r, w. split; [|done].
      rewrite Hno; [done| |]; intros ->; same_thread; place_clash.
Qed.

Lemma exit_up_inv s c t e s' :
  wf_procs s → threads s !! c = Some t → at_ t = Exiting → exit_up c t s = Next e s' → wf_procs s'.
Proof.
  intros Hwf Ht Hat [= _ <-]. set (t' := set_at FreeDown (set_wait (wait_sema t + 1) t)).
  destruct (sema_zero s c t Hwf Ht) as [Hw0 Hf0]; [congruence|].
  assert (Hlook : ∀ q v, threads (put c t' s) !! q = Some v → q = c ∧ v = t' ∨ q ≠ c ∧ threads s !! q = Some v).
  { intros q v. simpl. intros [[<- <-]|[? ?]]%lookup_insert_Some; auto. }
  apply (inv_update s); [done|done|..].
  - intros q v [[-> ->]|[_ Hv]]%Hlook; eauto.
  - intros q y (v & [[-> ->]|[_ Hv]]%Hlook & Hh); [|by exists v]. exists t. split; [done|].
    destruct Hh as [|[st Hh]]; [by left|done].
  - intros q y v _ Hv Hv0. simpl. destruct (decide (y = c)) as [->|]; [rewrite lookup_insert_eq; by eexists|].
    rewrite lookup_insert_ne by done. by exists v.
  - intros q v [[-> ->]|[Hne Hv]]%Hlook.
    + unfold place_ok. simpl. apply (plain_fork s c t Hwf Ht). congruence.
    + apply (place_frame s); [by apply (wp_place _ Hwf)|..].
      * intros y u Hy Hu. simpl. destruct (decide (y = c)) as [->|]; [|rewrite lookup_insert_ne by done; eauto].
        same_thread. rewrite lookup_insert_eq. exists t'. split; [done|]. right. split; not_dofork.
      * intros y u Hy Hu. simpl. destruct (decide (y = c)) as [->|]; [|by rewrite lookup_insert_ne].
        destruct (dofork_parent s q v c u Hwf Hv Hy Hu). same_thread. congruence.
      * intros y u Hy Hu Hfd Hw. simpl. destruct (decide (y = c)) as [->|]; [same_thread; congruence|].
        rewrite lookup_insert_ne by done. by exists u.
  - intros q v [[-> ->]|[Hne Hv]]%Hlook; [unfold sema_ok; simpl; left; lia|].
    apply (sema_frame s); [by apply (wp_sema _ Hwf)|]. intros r u Hu Hr. exists r, u. split; [|done].
    simpl. rewrite lookup_insert_ne; [done|]. intros <-. same_thread. place_clash.
Qed.

Lemma exit_down_inv s c t e s' :
  wf_procs s → threads s !! c = Some t → at_ t = FreeDown → exit_down c t s = Next e s' → wf_procs s'.
Proof.
  intros Hwf Ht Hat. unfold exit_down. destruct (Z.eqb_spec (free_sema t) 0) as [|Hf]; [done|]. intros [= _ <-].
  assert (Hnh : ∀ q, ¬ holds s q c).
  { intros q Hq. destruct (wp_hold _ Hwf q c Hq) as (_ & u & Hu & H0). same_thread. done. }
  assert (Hlook : ∀ q v, delete c (threads s) !! q = Some v → q ≠ c ∧ threads s !! q = Some v).
  { intros q v [? ?]%lookup_delete_Some; auto. }
  apply (inv_update s); [done|done|..]; simpl.
  - intros q v [_ Hv]%Hlook. eauto.
  - intros q y (v & [_ Hv]%Hlook & Hh). by exists v.
  - intros q y v Hq Hv Hv0. exists v. split; [|done]. apply lookup_delete_Some. split; [|done]. intros <-.
    destruct Hq as (w & [_ Hw]%Hlook & Hh). apply (Hnh q). by exists w.
  - intros q v [Hne Hv]%Hlook. apply (place_frame s); [by apply (wp_place _ Hwf)|..]; simpl.
    + intros y u Hy Hu. exists u. split; [|by left]. apply lookup_delete_Some. split; [|done]. intros <-.
      apply (Hnh q). exists v. split; [done|]. left. by destruct (forkdown_child s q v c u Hwf Hv Hy Hu).
    + intros y u Hy Hu. apply lookup_delete_Some. split; [|done]. intros <-.
      destruct (dofork_parent s q v c u Hwf Hv Hy Hu). same_thread. congruence.
    + intros y u Hy Hu Hfd Hw. exists u. split; [|done]. apply lookup_delete_Some. split; [|done]. intros <-.
      apply (Hnh q). by apply (reaps_holds _ _ v).
  - intros q v [Hne Hv]%Hlook. apply (sema_frame s); [by apply (wp_sema _ Hwf)|]. intros r u Hu Hr.
    exists r, u. split; [|done]. simpl. apply lookup_delete_Some. split; [|done]. intros <-. same_thread. place_clash.
Qed.

Lemma wait_down_inv s p t c e s' :
  wf_procs s → threads s !! p = Some t → at_ t = WaitDown c → wait_down p t c s = Next e s' → wf_procs s'.
Proof.
  intros Hwf Ht Hat. unfold wait_down. destruct (threads s !! c) as [u|] eqn:Hu; [|done].
  destruct (Z.eqb_spec (wait_sema u) 0) as [|Hw]; [done|]. intros [= _ <-].
  pose proof (wp_place _ Hwf p t Ht) as Hp. unfold place_ok in Hp. rewrite Hat in Hp. destruct Hp as [Hft Hc].
  assert (Hau : at_ u = FreeDown ∧ wait_sema u = 1 ∧ free_sema u = 0).
  { pose proof (wp_sema _ Hwf c u Hu) as Hs. unfold sema_ok in Hs. destruct (at_ u); try lia.
    destruct Hs as [[? ?]|[(? & _)|[? _]]]; [done|lia|lia]. }
  destruct Hau as (Hau & Hwu & Hfu). destruct (sema_zero s p t Hwf Ht) as [Hw0 Hf0]; [congruence|].
  set (t' := set_at (WaitRead c) t). set (u' := set_wait (wait_sema u - 1) u).
  assert (Hne : p ≠ c) by (intros ->; same_thread; congruence).
  pose proof (two_lookup s p t' c u') as Hlook. unfold two in Hlook.
  pose proof (two_p s p t' c u') as Hnp. pose proof (two_c s p t' c u' Hne) as Hnc. unfold two in Hnc, Hnp.
  pose proof (λ q, two_other s p t' c u' q) as Hno. unfold two in Hno.
  apply (inv_update s); [done|done|..].
  - intros q v [[-> ->]|[[-> ->]|(_ & _ & Hv)]]%Hlook; [by exists t|by exists u|by exists v|done].
  - intros q y (v & Hv & Hh). apply Hlook in Hv as [[-> ->]|[[-> ->]|(_ & _ & Hv)]]; [|..|done].
    + exists t. split; [done|]. left. by destruct Hh as [|[st Hh]].
    + exists u. by split.
    + by exists v.
  - intros q y v _ Hv Hv0. destruct (decide (y = p)) as [->|]; [exists t'; same_thread; done|].
    destruct (decide (y = c)) as [->|]; [exists u'; same_thread; done|]. rewrite Hno by done. by exists v.
  - intros q v [[-> ->]|[[-> ->]|(Hq1 & Hq2 & Hv)]]%Hlook; [| | |done].
    + unfold place_ok. simpl. split; [done|]. split; [done|]. exists u'. split; [done|]. split; [done|]. simpl. lia.
    + pose proof (wp_place _ Hwf c u Hu) as Hpu. unfold place_ok in *. simpl. by rewrite Hau in *.
    + assert (Hnc' : ¬ holds s q c).
      { intros Hh. apply Hq1. apply (wp_own _ Hwf q p c); [done|]. exists t. auto. }
      apply (place_frame s); [by apply (wp_place _ Hwf)|..].
      * intros y w Hy Hw'. destruct (decide (y = p)) as [->|].
        { same_thread. exists t'. split; [done|]. right. split; not_dofork. }
        destruct (decide (y = c)) as [->|]; [|rewrite Hno by done; eauto]. same_thread. exists u'. split; [done|]. by left.
      * intros y w Hy Hw'. destruct (dofork_parent s q v y w Hwf Hv Hy Hw') as [Haw _].
        destruct (decide (y = p)) as [->|]; [same_thread; congruence|].
        destruct (decide (y = c)) as [->|]; [same_thread; congruence|]. by rewrite Hno.
      * intros y w Hy Hw' Hfd Hwz. destruct (decide (y = p)) as [->|]; [same_thread; congruence|].
        destruct (decide (y = c)) as [->|]; [destruct Hnc'; by apply (reaps_holds _ _ v)|]. rewrite Hno by done. by exists w.
  - intros q v [[-> ->]|[[-> ->]|(Hq1 & Hq2 & Hv)]]%Hlook; [| | |done].
    + by apply sema_ok_zero.
    + unfold sema_ok. simpl. rewrite Hau. right; left. split; [lia|]. split; [done|]. exists p, t'. split; [done|]. by left.
    + apply (sema_frame s); [by apply (wp_sema _ Hwf)|]. intros r w Hw' Hr. exists r, w. split; [|done].
      rewrite Hno; [done| |]; intros ->; same_thread; place_clash.
Qed.

Lemma wait_read_inv s p t c e s' :
  wf_procs s → threads s !! p = Some t → at_ t = WaitRead c → wait_read p t c s = Next e s' → wf_procs s'.
Proof.
  intros Hwf Ht Hat. unfold wait_read. destruct (threads s !! c) as [u|] eqn:Hu; [|done]. intros [= _ <-].
  destruct (reaps_child s p t c u Hwf Ht (or_introl Hat) Hu) as (Hau & Hwu & Hfu).
  pose proof (wp_place _ Hwf p t Ht) as Hp. unfold place_ok in Hp. rewrite Hat in Hp. destruct Hp as (Hft & Hc & _).
  destruct (sema_zero s p t Hwf Ht) as [Hw0 Hf0]; [congruence|].
  set (t' := set_at (WaitFree c (exit_status u)) (set_children (filter (λ x, x ≠ c) (children_list t)) t)).
  assert (Hne : p ≠ c) by (intros ->; same_thread; congruence).
  assert (Hlook : ∀ q v, threads (put p t' s) !! q = Some v → q = p ∧ v = t' ∨ q ≠ p ∧ threads s !! q = Some v).
  { intros q v. simpl. intros [[<- <-]|[? ?]]%lookup_insert_Some; auto. }
  apply (inv_update s); [done|done|..].
  - intros q v [[-> ->]|[_ Hv]]%Hlook; [|eauto]. exists t. split; [done|]. simpl. apply NoDup_filter.
  - intros q y (v & [[-> ->]|[_ Hv]]%Hlook & Hh); [|by exists v]. exists t. split; [done|]. left.
    destruct Hh as [[_ ?]%list_elem_of_filter|[st [= <- _]]]; done.
  - intros q y v _ Hv Hv0. simpl. destruct (decide (y = p)) as [->|].
    + rewrite lookup_insert_eq. exists t'. by same_thread.
    + rewrite lookup_insert_ne by done. by exists v.
  - intros q v [[-> ->]|[Hq Hv]]%Hlook.
    + unfold place_ok. simpl. split; [done|]. split; [rewrite list_elem_of_filter; tauto|].
      exists u. by rewrite lookup_insert_ne.
    + apply (place_frame s); [by apply (wp_place _ Hwf)|..].
      * intros y w Hy Hw. simpl. destruct (decide (y = p)) as [->|]; [|rewrite lookup_insert_ne by done; eauto].
        same_thread. rewrite lookup_insert_eq. exists t'. split; [done|]. right. split; not_dofork.
      * intros y w Hy Hw. simpl. destruct (decide (y = p)) as [->|]; [|by rewrite lookup_insert_ne].
        destruct (dofork_parent s q v p w Hwf Hv Hy Hw). same_thread. congruence.
      * intros y w Hy Hw Hfd Hwz. simpl. destruct (decide (y = p)) as [->|]; [same_thread; congruence|].
        rewrite lookup_insert_ne by done. by exists w.
  - intros q v [[-> ->]|[Hq Hv]]%Hlook; [by apply sema_ok_zero|].
    apply (sema_frame s); [by apply (wp_sema _ Hwf)|]. intros r w Hw Hr. destruct (decide (r = p)) as [->|].
    + same_thread. exists p, t'. split; [apply lookup_insert_eq|]. right. destruct Hr as [Hr|[st Hr]]; rewrite Hat in Hr; [|done].
      injection Hr as <-. by eexists.
    + exists r, w. split; [|done]. simpl. by rewrite lookup_insert_ne.
Qed.

Lemma wait_free_inv s p t c st e s' :
  wf_procs s → threads s !! p = Some t → at_ t = WaitFree c st → wait_free p t c st s = Next e s' → wf_procs s'.
Proof.
  intros Hwf Ht Hat. unfold wait_free. destruct (threads s !! c) as [u|] eqn:Hu; [|done]. intros [= _ <-].
  assert (Hreap : reaps t c) by (right; by exists st).
  destruct (reaps_child s p t c u Hwf Ht Hreap Hu) as (Hau & Hwu & Hfu).
  pose proof (wp_place _ Hwf p t Ht) as Hp. unfold place_ok in Hp. rewrite Hat in Hp. destruct Hp as (Hft & Hc & _).
  destruct (sema_zero s p t Hwf Ht) as [Hw0 Hf0]; [congruence|].
  set (t' := set_at User t). set (u' := set_free (free_sema u + 1) u).
  assert (Hne : p ≠ c) by (intros ->; same_thread; congruence).
  pose proof (two_lookup s p t' c u') as Hlook. unfold two in Hlook.
  pose proof (two_p s p t' c u') as Hnp. pose proof (two_c s p t' c u' Hne) as Hnc. unfold two in Hnc, Hnp.
  pose proof (λ q, two_other s p t' c u' q) as Hno. unfold two in Hno.
  assert (Hown : ∀ q, holds s q c → q = p).
  { intros q Hq. apply (wp_own _ Hwf q p c); [done|]. by apply (reaps_holds _ _ t). }
  assert (Hh' : ∀ q y, holds (put p t' (put c u' s)) q y → holds s q y ∧ y ≠ c).
  { intros q y (v & Hv & Hh). apply Hlook in Hv as [[-> ->]|[[-> ->]|(Hq & _ & Hv)]]; [|..|done].
    - destruct Hh as [Hh|[st' Hh]]; [|done]. split; [exists t; auto|]. by intros ->.
    - assert (Hh2 : holds s c y) by (exists u; by split). split; [done|]. intros ->. by apply Hne, eq_sym, Hown.
    - assert (Hh2 : holds s q y) by (by exists v). split; [done|]. intros ->. by apply Hq, Hown. }
  apply (inv_update s); [done|done|..].
  - intros q v [[-> ->]|[[-> ->]|(_ & _ & Hv)]]%Hlook; [by exists t|by exists u|by exists v|done].
  - intros q y Hq. by apply Hh'.
  - intros q y v Hq Hv Hv0. destruct (Hh' q y Hq) as [_ Hyc].
    destruct (decide (y = p)) as [->|]; [exists t'; same_thread; done|]. rewrite Hno by done. by exists v.
  - intros q v [[-> ->]|[[-> ->]|(Hq1 & Hq2 & Hv)]]%Hlook; [done| | |done].
    + pose proof (wp_place _ Hwf c u Hu) as Hpu. unfold place_ok in *. simpl. by rewrite Hau in *.
    + apply (place_frame s); [by apply (wp_place _ Hwf)|..].
      * intros y w Hy Hw'. destruct (decide (y = p)) as [->|].
        { same_thread. exists t'. split; [done|]. right. split; not_dofork. }
        destruct (decide (y = c)) as [->|]; [|rewrite Hno by done; eauto]. same_thread. exists u'. split; [done|]. by left.
      * intros y w Hy Hw'. destruct (dofork_parent s q v y w Hwf Hv Hy Hw') as [Haw _].
        destruct (decide (y = p)) as [->|]; [same_thread; congruence|].
        destruct (decide (y = c)) as [->|]; [same_thread; congruence|]. by rewrite Hno.
      * intros y w Hy Hw' Hfd Hwz. destruct (decide (y = p)) as [->|]; [same_thread; congruence|].
        destruct (decide (y = c)) as [->|]; [destruct Hq1; apply Hown; by apply (reaps_holds _ _ v)|].
        rewrite Hno by done. by exists w.
  - intros q v [[-> ->]|[[-> ->]|(Hq1 & Hq2 & Hv)]]%Hlook; [| | |done].
    + by apply sema_ok_zero.
    + unfold sema_ok. simpl. rewrite Hau. right; right. split; [done|lia].
    + apply (sema_frame s); [by apply (wp_sema _ Hwf)|]. intros r w Hw' Hr.
      destruct (decide (r = p)) as [->|]; [same_thread; destruct Hr as [Hr|[? Hr]]; rewrite Hat in Hr; [done|congruence]|].
      exists r, w. split; [|done]. rewrite Hno; [done|done|]. intros ->. same_thread. place_clash.
Qed.

(** A new thread; its parent goes on, or waits for the copy. *)
Lemma thread_create_inv s p t l l' e s' :
  wf_procs s → threads s !! p = Some t → at_ t = User →
  (l = User ∧ l' = User ∨ l = DoFork p ∧ l' = ForkDown (next_tid s)) →
  thread_create p t l l' s = Next e s' → wf_procs s'.
Proof.
  intros Hwf Ht Hat Hl. unfold thread_create. intros [= _ <-]. set (c := next_tid s) in *.
  set (t' := set_at l' (set_children (children_list t ++ [c]) t)). set (m := <[c := new_thread l]> _).
  pose proof (wp_tid _ Hwf p t Ht) as Hpt. assert (Hne : p ≠ c) by (unfold c; lia).
  assert (Hfresh : ∀ q v, threads s !! q = Some v → q ≠ c).
  { intros q v Hv. pose proof (wp_tid _ Hwf q v Hv). unfold c. lia. }
  pose proof (plain_fork s p t Hwf Ht) as Hft. destruct (sema_zero s p t Hwf Ht) as [Hw0 Hf0]; [congruence|].
  assert (Hnh : ∀ q, ¬ holds s q c).
  { intros q Hq. destruct (wp_hold _ Hwf q c Hq) as (_ & u & Hu & _). by apply Hfresh in Hu. }
  assert (Hlook : ∀ q v, m !! q = Some v → q = c ∧ v = new_thread l ∨ q = p ∧ v = t' ∨ q ≠ p ∧ q ≠ c ∧ threads s !! q = Some v).
  { intros q v. unfold m. rewrite !lookup_insert_Some. intros [[<- <-]|[? [[<- <-]|[? ?]]]]; auto 6. }
  assert (Hmc : m !! c = Some (new_thread l)) by apply lookup_insert_eq.
  assert (Hmp : m !! p = Some t') by (unfold m; rewrite lookup_insert_ne by done; apply lookup_insert_eq).
  assert (Hmo : ∀ q, q ≠ p → q ≠ c → m !! q = threads s !! q) by (intros q ? ?; unfold m; by rewrite !lookup_insert_ne).
  assert (Hplain : ¬ reaps t' c ∧ (∀ x st, at_ t' ≠ WaitFree x st) ∧ ¬ reaps (new_thread l) c ∧ ∀ x st, at_ (new_thread l) ≠ WaitFree x st).
  { split_and!; try (intros [H|[? H]]); try intros x st; simpl; destruct Hl as [[-> ->]|[-> ->]]; try done. }
  destruct Hplain as (_ & Hnw1 & _ & Hnw2).
  assert (Hh : ∀ q y, holds (Procs m (c + 1)) q y → q = p ∧ y = c ∨ y ≠ c ∧ holds s q y).
  { intros q y (v & [[-> ->]|[[-> ->]|(? & ? & Hv)]]%Hlook & Hy).
    - destruct Hy as [Hy|[st Hy]]; [by apply elem_of_nil in Hy|by destruct (Hnw2 y st)].
    - destruct Hy as [Hy|[st Hy]]; [|by destruct (Hnw1 y st)].
      apply elem_of_app in Hy as [Hy|Hy%list_elem_of_singleton]; [right|by left].
      assert (Hq : holds s p y) by (exists t; auto). split; [|done]. intros ->. by apply (Hnh p).
    - right. assert (Hq : holds s q y) by (by exists v). split; [|done]. intros ->. by apply (Hnh q). }
  split; simpl.
  - intros q v [[-> ->]|[[-> ->]|(_ & _ & Hv)]]%Hlook; [unfold c; pose proof (wp_tid _ Hwf p t Ht); lia|unfold c; lia|].
    pose proof (wp_tid _ Hwf q v Hv). unfold c. lia.
  - intros q y [[-> ->]|[Hy Hq]]%Hh; [split; [unfold c; lia|]; by exists (new_thread l)|].
    destruct (wp_hold _ Hwf q y Hq) as (Hlt & u & Hu & Hfu). split; [done|].
    destruct (decide (y = p)) as [->|]; [exists t'; same_thread; done|]. exists u. by rewrite Hmo.
  - intros q r y [[-> ->]|[Hy Hq]]%Hh [[-> Hy2]|[Hy2 Hr]]%Hh; [done..|]. by apply (wp_own _ Hwf q r y).
  - intros q v [[-> ->]|[[-> ->]|(_ & _ & Hv)]]%Hlook; [constructor| |by apply (wp_nodup _ Hwf q)].
    simpl. apply NoDup_app. split; [by apply (wp_nodup _ Hwf p)|]. split; [|apply NoDup_singleton].
    intros y Hy ->%list_elem_of_singleton. apply (Hnh p). exists t. auto.
  - intros q v [[-> ->]|[[-> ->]|(Hq1 & Hq2 & Hv)]]%Hlook.
    + unfold place_ok. simpl. destruct Hl as [[-> ->]|[-> ->]]; [done|]. split; [done|]. exists t'. split; [done|].
      split; [done|]. simpl. apply Hft. congruence.
    + unfold place_ok. simpl. assert (fork_sema t = 0) by (apply Hft; congruence).
      destruct Hl as [[-> ->]|[-> ->]]; [done|]. split; [apply elem_of_app; right; by apply list_elem_of_singleton|].
      exists (new_thread (DoFork p)). split; [done|]. by left.
    + apply (place_frame s); [by apply (wp_place _ Hwf)|..]; simpl.
      * intros y w Hy Hw'. destruct (decide (y = p)) as [->|]; [|rewrite Hmo by (done || by eapply Hfresh); eauto].
        same_thread. exists t'. split; [done|]. right. split; [not_dofork|]. intros [z Hz]. simpl in Hz.
        destruct Hl as [[_ ->]|[_ ->]]; done.
      * intros y w Hy Hw'. destruct (dofork_parent s q v y w Hwf Hv Hy Hw') as [Haw _].
        rewrite Hmo; [done| |by eapply Hfresh]. intros ->. same_thread. congruence.
      * intros y w Hy Hw' Hfd Hwz. exists w. rewrite Hmo; [done| |by eapply Hfresh]. intros ->. same_thread. congruence.
  - intros q v [[-> ->]|[[-> ->]|(Hq1 & Hq2 & Hv)]]%Hlook.
    + apply sema_ok_zero; [|done|done]. simpl. destruct Hl as [[-> _]|[-> _]]; done.
    + apply sema_ok_zero; [|done|done]. simpl. destruct Hl as [[_ ->]|[_ ->]]; done.
    + apply (sema_frame s); [by apply (wp_sema _ Hwf)|]. intros r w Hw' Hr. exists r, w. split; [|done]. simpl.
      rewrite Hmo; [done| |by eapply Hfresh]. intros ->. same_thread. place_clash.
Qed.

Lemma act_inv s i a e s' : wf_procs s → act i a s = Next e s' → wf_procs s'.
Proof.
  intros Hwf. unfold act. destruct (threads s !! i) as [t|] eqn:Ht; [|done].
  pose proof (plain_fork s i t Hwf Ht) as Hfk.
  destruct (at_ t) eqn:Hat; destruct a; try done.
  - intros H. eapply thread_create_inv; [exact Hwf|exact Ht|done| |exact H]. by left.
  - intros H. eapply thread_create_inv; [exact Hwf|exact Ht|done| |exact H]. by right.
  - by intros [= _ <-].
  - unfold process_wait. destruct (get_my_child t tid) as [c|] eqn:Hc; [|by intros [= _ <-]]. intros [= _ <-].
    apply get_my_child_Some in Hc as [-> Hc]. apply (inv_move s i t); try done; [by rewrite Hat|].
    split; [|done]. by apply Hfk.
  - destruct status as [st|]; intros [= _ <-]; (apply (inv_move s i t); try done; [by rewrite Hat|]); by apply Hfk.
  - intros H. by eapply fork_down_inv.
  - unfold fork_read. destruct (get_my_child t c ≫= _); [|done]. intros [= _ <-].
    apply (inv_move s i t); try done; [by rewrite Hat|]. by apply Hfk.
  - intros H. by eapply do_fork_inv.
  - intros H. by eapply do_fork_inv.
  - intros [= _ <-]. apply (inv_move s i t); try done; [by rewrite Hat|]. by apply Hfk.
  - intros H. by eapply wait_down_inv.
  - intros H. by eapply wait_read_inv.
  - intros H. by eapply wait_free_inv.
  - intros H. by eapply exit_up_inv.
  - intros H. by eapply exit_down_inv.
Qed.

Lemma boot_procs_wf : wf_procs boot.
Proof.
  assert (Hl : ∀ p t, threads boot !! p = Some t → p = 1 ∧ t = new_thread User).
  { intros p t. simpl. by intros [<- <-]%lookup_singleton_Some. }
  assert (Hh : ∀ p c, ¬ holds boot p c).
  { intros p c (t & [-> ->]%Hl & [H|[st H]]); [by apply elem_of_nil in H|done]. }
  split.
  - by intros c u [-> ->]%Hl.
  - by intros p c Hp%Hh.
  - by intros p q c Hp%Hh.
  - intros p t [-> ->]%Hl. constructor.
  - by intros p t [-> ->]%Hl.
  - by intros c u [-> ->]%Hl.
Qed.
Lemma run_wf tr s : run tr s → wf_procs s.
Proof. induction 1; [exact boot_procs_wf|]. by eapply act_inv. Qed.
End turns.
