(* ===== verification/WaitSpec.v ===== *)
(** * Properties of fork, wait and exit

    No dangling child, the exit status once and only once, no return from fork
    before the copy is done, no deadlock; and what goes wrong. *)
From stdpp Require Import base numbers list gmap relations.
From Stdlib Require Import ZArith Lia.
From S2P Require Import Prelude Wait WaitInv WaitStep.
Open Scope Z_scope.

#[export] Instance event_eq_dec : EqDecision event.
Proof. solve_decision. Defined.

(** ** What has happened so far *)

Definition ended (l : place) : Prop := l = Exiting ∨ l = FreeDown.
Record history (tr : list event) (s : procs) : Prop := {
  hi_exit : ∀ c u st, threads s !! c = Some u → Exited c st ∈ tr ↔ ended (at_ u) ∧ exit_status u = st;
  hi_hold : ∀ p c, holds s p c → Created p c ∈ tr ∧ ∀ q st, Waited q c st ∉ tr;
  hi_fork : ∀ p t c, threads s !! p = Some t →
    at_ t = ForkRead c ∨ at_ t = ForkDown c ∧ fork_sema t = 1 → ∃ b, Copied c b ∈ tr;
  hi_old : ∀ c, next_tid s <= c → (∀ st, Exited c st ∉ tr) ∧ (∀ q st, Waited q c st ∉ tr);
}.

Section history.
Implicit Types (s : procs) (p q c : Z) (t u v : thread) (tr : list event).

Lemma boot_history : history [] boot.
Proof.
  assert (Hl : ∀ p t, threads boot !! p = Some t → p = 1 ∧ t = new_thread User).
  { intros p t. simpl. by intros [<- <-]%lookup_singleton_Some. }
  split.
  - intros c u st [-> ->]%Hl. split; [by intros ?%elem_of_nil|]. by intros [[?|?] _].
  - intros p c (t & [-> ->]%Hl & [H|[st H]]); [by apply elem_of_nil in H|done].
  - by intros p t c [-> ->]%Hl [?|[? _]].
  - intros c _. split; intros; apply not_elem_of_nil.
Qed.

(** A turn that is silent about exits and waits, and moves no thread in or out of
    its end. *)
Lemma history_quiet tr s e s' :
  history tr s → next_tid s <= next_tid s' →
  (∀ c st, e ≠ Exited c st) → (∀ q c st, e ≠ Waited q c st) →
  (∀ c u', threads s' !! c = Some u' → (∃ u, threads s !! c = Some u ∧ exit_status u' = exit_status u ∧
     (ended (at_ u') ↔ ended (at_ u))) ∨ next_tid s <= c ∧ ¬ ended (at_ u')) →
  (∀ p c, holds s' p c → holds s p c ∨ e = Created p c ∧ next_tid s <= c) →
  (∀ p t c, threads s' !! p = Some t → at_ t = ForkRead c ∨ at_ t = ForkDown c ∧ fork_sema t = 1 →
     (∃ b, e = Copied c b) ∨ ∃ t0, threads s !! p = Some t0 ∧ (at_ t0 = ForkRead c ∨ at_ t0 = ForkDown c ∧ fork_sema t0 = 1)) →
  history (e :: tr) s'.
Proof.
  intros [H1 H2 H3 H4] Hn He1 He2 Hth Hh Hf. split.
  - intros c u' st Hu'. rewrite elem_of_cons. destruct (Hth c u' Hu') as [(u & Hu & -> & Hend)|[Hc Hend]].
    + rewrite Hend, <- (H1 c u st Hu). split; [|by right]. intros [?|?]; [|done]. by destruct (He1 c st).
    + split; [|tauto]. intros [?|Hin]; [by destruct (He1 c st)|]. by destruct (proj1 (H4 c Hc) st).
  - intros p c Hp. destruct (Hh p c Hp) as [Hp0|[-> Hc]].
    + destruct (H2 p c Hp0) as [Hcr Hw]. split; [by apply elem_of_cons; right|]. intros q st [?|Hin]%elem_of_cons.
      * by destruct (He2 q c st).
      * by apply (Hw q st).
    + split; [apply elem_of_cons; by left|]. intros q st [?|Hin]%elem_of_cons; [done|]. by apply (proj2 (H4 c Hc) q st).
  - intros p t c Ht Hat. destruct (Hf p t c Ht Hat) as [[b ->]|(t0 & Ht0 & Hat0)].
    + exists b. apply elem_of_cons. by left.
    + destruct (H3 p t0 c Ht0 Hat0) as [b Hb]. exists b. apply elem_of_cons. by right.
  - intros c Hc. destruct (H4 c) as [Ha Hb]; [lia|]. split.
    + intros st [?|Hin]%elem_of_cons; [by destruct (He1 c st)|]. by apply (Ha st).
    + intros q st [?|Hin]%elem_of_cons; [by destruct (He2 q c st)|]. by apply (Hb q st).
Qed.

(** The same, for turns of [i] that change [i] alone or [i] and [j]. *)
Lemma history_two tr s e i t t' j u u' :
  wf_procs s → history tr s → threads s !! i = Some t → threads s !! j = Some u → i ≠ j →
  (∀ c st, e ≠ Exited c st) → (∀ q c st, e ≠ Waited q c st) →
  exit_status t' = exit_status t → exit_status u' = exit_status u →
  (ended (at_ t') ↔ ended (at_ t)) → at_ u' = at_ u →
  (∀ c, c ∈ children_list t' ∨ frees t' c → c ∈ children_list t ∨ frees t c) → children_list u' = children_list u →
  (∀ c, at_ t' = ForkRead c ∨ at_ t' = ForkDown c ∧ fork_sema t' = 1 → at_ t = ForkRead c ∨ at_ t = ForkDown c ∧ fork_sema t = 1) →
  (∀ c, at_ u = ForkRead c ∨ at_ u = ForkDown c ∧ fork_sema u' = 1 →
     (∃ b, e = Copied c b) ∨ at_ u = ForkRead c ∨ at_ u = ForkDown c ∧ fork_sema u = 1) →
  history (e :: tr) (put i t' (put j u' s)).
Proof.
  intros Hwf Hh Ht Hu Hne He1 He2 Hst Hsu Hend Hau Hch Hcu Hft Hfu.
  pose proof (two_lookup s i t' j u') as Hlook. unfold two in Hlook.
  apply (history_quiet tr s); [done|done|done|done|..].
  - intros c v [[-> ->]|[[-> ->]|(_ & _ & Hv)]]%Hlook; [left; by exists t|left; exists u; by rewrite Hau|left; by exists v|done].
  - intros p c (v & Hv & Hc). left. apply Hlook in Hv as [[-> ->]|[[-> ->]|(_ & _ & Hv)]]; [| | |done].
    + exists t. split; [done|]. by apply Hch.
    + exists u. split; [done|]. unfold frees in *. by rewrite <- Hcu, <- Hau.
    + by exists v.
  - intros p v c Hv Hc. apply Hlook in Hv as [[-> ->]|[[-> ->]|(_ & _ & Hv)]]; [| | |done].
    + right. exists t. split; [done|]. by apply Hft.
    + rewrite Hau in Hc. destruct (Hfu c Hc) as [|H]; [by left|right]. exists u. by split.
    + right. by exists v.
Qed.
Lemma history_one tr s e i t t' :
  history tr s → threads s !! i = Some t →
  (∀ c st, e ≠ Exited c st) → (∀ q c st, e ≠ Waited q c st) →
  exit_status t' = exit_status t → (ended (at_ t') ↔ ended (at_ t)) →
  (∀ c, c ∈ children_list t' ∨ frees t' c → c ∈ children_list t ∨ frees t c) →
  (∀ c, at_ t' = ForkRead c ∨ at_ t' = ForkDown c ∧ fork_sema t' = 1 → at_ t = ForkRead c ∨ at_ t = ForkDown c ∧ fork_sema t = 1) →
  history (e :: tr) (put i t' s).
Proof.
  intros Hh Ht He1 He2 Hst Hend Hch Hft.
  assert (Hlook : ∀ q v, threads (put i t' s) !! q = Some v → q = i ∧ v = t' ∨ q ≠ i ∧ threads s !! q = Some v).
  { intros q v. simpl. intros [[<- <-]|[? ?]]%lookup_insert_Some; auto. }
  apply (history_quiet tr s); [done|done|done|done|..].
  - intros c v [[-> ->]|[_ Hv]]%Hlook; left; [by exists t|by exists v].
  - intros p c (v & [[-> ->]|[_ Hv]]%Hlook & Hc); left; [exists t; split; [done|by apply Hch]|by exists v].
  - intros p v c [[-> ->]|[_ Hv]]%Hlook Hc; right; [exists t; split; [done|by apply Hft]|by exists v].
Qed.

Lemma history_exit tr s i t st :
  history tr s → wf_procs s → threads s !! i = Some t → ¬ ended (at_ t) → (∀ c, ¬ frees t c) →
  (∀ c, at_ t ≠ ForkDown c) → history (Exited i st :: tr) (put i (set_at Exiting (set_status st t)) s).
Proof.
  intros [H1 H2 H3 H4] Hwf Ht Hend Hfr Hfd. set (t' := set_at _ _).
  assert (Hlook : ∀ q v, threads (put i t' s) !! q = Some v → q = i ∧ v = t' ∨ q ≠ i ∧ threads s !! q = Some v).
  { intros q v. simpl. intros [[<- <-]|[? ?]]%lookup_insert_Some; auto. }
  split.
  - intros c v st' [[-> ->]|[Hne Hv]]%Hlook; rewrite elem_of_cons.
    + simpl. unfold ended. simpl. split.
      * intros [[= ->]|Hin]; [auto|]. by apply (H1 i t st' Ht) in Hin as [? _].
      * intros [_ ->]. by left.
    + rewrite <- (H1 c v st' Hv). split; [intros [[= ? _]|?]; [done|done]|by right].
  - intros p c (v & Hv & Hc). assert (Hh : holds s p c).
    { apply Hlook in Hv as [[-> ->]|[_ Hv]]; [|by exists v]. exists t. split; [done|]. left.
      destruct Hc as [Hc|[? Hc]]; [done|done]. }
    destruct (H2 p c Hh) as [Hcr Hw]. split; [by apply elem_of_cons; right|].
    intros q st' [?|Hin]%elem_of_cons; [done|]. by apply (Hw q st').
  - intros p v c [[-> ->]|[_ Hv]]%Hlook Hc; [by destruct Hc as [?|[? _]]|].
    destruct (H3 p v c Hv Hc) as [b Hb]. exists b. apply elem_of_cons. by right.
  - intros c Hc. destruct (H4 c Hc) as [Ha Hb]. pose proof (wp_tid _ Hwf i t Ht). split.
    + intros st' [[= -> _]|Hin]%elem_of_cons; [simpl in Hc; lia|]. by apply (Ha st').
    + intros q st' [?|Hin]%elem_of_cons; [done|]. by apply (Hb q st').
Qed.

Lemma history_waited tr s p t c st u :
  history tr s → wf_procs s → threads s !! p = Some t → at_ t = WaitFree c st → threads s !! c = Some u →
  ∀ w, history (Waited p c w :: tr) (put p (set_at User t) (put c (set_free (free_sema u + 1) u) s)).
Proof.
  intros [H1 H2 H3 H4] Hwf Ht Hat Hu w. set (t' := set_at User t). set (u' := set_free _ u).
  assert (Hreap : reaps t c) by (right; by exists st).
  destruct (reaps_child s p t c u Hwf Ht Hreap Hu) as (Hau & _ & _).
  assert (Hown : ∀ q, holds s q c → q = p).
  { intros q Hq. apply (wp_own _ Hwf q p c); [done|]. by apply (reaps_holds _ _ t). }
  pose proof (wp_place _ Hwf p t Ht) as Hp. unfold place_ok in Hp. rewrite Hat in Hp. destruct Hp as (_ & Hc & _).
  assert (Hne : p ≠ c) by (intros ->; rewrite Ht in Hu; injection Hu as <-; congruence).
  pose proof (two_lookup s p t' c u') as Hlook. unfold two in Hlook. split.
  - intros q v st' Hv. rewrite elem_of_cons. apply Hlook in Hv as [[-> ->]|[[-> ->]|(_ & _ & Hv)]]; [| | |done].
    + pose proof (H1 p t st' Ht) as H. split; [intros [?|Hin]; [done|]|by intros [[?|?] _]].
      apply H in Hin as [[?|?] _]; congruence.
    + change (exit_status u') with (exit_status u). change (at_ u') with (at_ u). rewrite <- (H1 c u st' Hu). split; [by intros [|]|by right].
    + rewrite <- (H1 q v st' Hv). split; [by intros [|]|by right].
  - intros q y (v & Hv & Hy). assert (Hh : holds s q y ∧ y ≠ c).
    { apply Hlook in Hv as [[-> ->]|[[-> ->]|(Hq & _ & Hv)]]; [| | |done].
      - destruct Hy as [Hy|[? Hy]]; [|done]. split; [exists t; auto|]. by intros ->.
      - assert (Hh2 : holds s c y) by (exists u; by split). split; [done|]. intros ->. by apply Hne, eq_sym, Hown.
      - assert (Hh2 : holds s q y) by (by exists v). split; [done|]. intros ->. by apply Hq, Hown. }
    destruct Hh as [Hh Hyc]. destruct (H2 q y Hh) as [Hcr Hw]. split; [by apply elem_of_cons; right|].
    intros r st' [[= _ -> _]|Hin]%elem_of_cons; [done|]. by apply (Hw r st').
  - intros q v y Hv Hy. apply Hlook in Hv as [[-> ->]|[[-> ->]|(_ & _ & Hv)]]; [| | |done].
    + by destruct Hy as [?|[? _]].
    + simpl in Hy. rewrite Hau in Hy. by destruct Hy as [?|[? _]].
    + destruct (H3 q v y Hv Hy) as [b Hb]. exists b. apply elem_of_cons. by right.
  - intros y Hy. destruct (H4 y Hy) as [Ha Hb]. pose proof (wp_tid _ Hwf c u Hu). split.
    + intros st' [?|Hin]%elem_of_cons; [done|]. by apply (Ha st').
    + intros q st' [[= _ -> _]|Hin]%elem_of_cons; [simpl in Hy; lia|]. by apply (Hb q st').
Qed.

Lemma act_history tr s i a e s' : wf_procs s → history tr s → act i a s = Next e s' → history (e :: tr) s'.
Proof.
  intros Hwf Hh. unfold act. destruct (threads s !! i) as [t|] eqn:Ht; [|done].
  destruct (at_ t) eqn:Hat; destruct a; try done.
  1, 2: unfold process_fork, thread_create; intros [= <- <-]; set (t' := set_at _ _); set (n := new_thread _);
    pose proof (wp_tid _ Hwf i t Ht) as Hti;
    (assert (Hlook : ∀ q v, <[next_tid s := n]> (<[i := t']> (threads s)) !! q = Some v →
       q = next_tid s ∧ v = n ∨ q = i ∧ v = t' ∨ q ≠ next_tid s ∧ q ≠ i ∧ threads s !! q = Some v)
     by (intros q v; rewrite !lookup_insert_Some; intros [[<- <-]|[? [[<- <-]|[? ?]]]]; auto 6));
    (apply (history_quiet tr s); [done|simpl; lia|done|done|..]; simpl);
    [intros c v [[-> ->]|[[-> ->]|(_ & _ & Hv)]]%Hlook;
       [right; split; [done|by intros [|]]
       |left; exists t; split; [done|]; split; [done|]; unfold ended; simpl; rewrite Hat; split; by intros [|]
       |left; by exists v]
    |intros p c (v & [[-> ->]|[[-> ->]|(_ & _ & Hv)]]%Hlook & Hc);
       [destruct Hc as [Hc|[? Hc]]; [by apply elem_of_nil in Hc|done]
       |destruct Hc as [[Hc|Hc%list_elem_of_singleton]%elem_of_app|[? Hc]]; [left; exists t; auto|right; subst; by split|done]
       |left; by exists v]
    |intros p v c [[-> ->]|[[-> ->]|(_ & _ & Hv)]]%Hlook Hc;
       [by destruct Hc as [?|[? _]]
       |destruct Hc as [Hc|[_ Hc]]; [done|]; simpl in Hc;
        pose proof (plain_fork s i t Hwf Ht) as Hf; rewrite Hf in Hc; [done|congruence]
       |right; by exists v]].
  - intros [= <- <-]. apply (history_quiet tr s); [done|done|done|done|..].
    + intros c u Hu. left. by exists u.
    + auto.
    + intros p u c Hu Hc. right. by exists u.
  - unfold process_wait. destruct (get_my_child t tid) as [c|] eqn:Hc; intros [= <- <-].
    + apply (history_one tr s Silent i t); try done.
      * unfold ended. simpl. rewrite Hat. split; by intros [|].
      * simpl. intros x [?|[? ?]]; [by left|done].
      * by intros x [?|[? _]].
    + apply (history_quiet tr s); [done|done|done|done|..].
      * intros x u Hu. left. by exists u.
      * auto.
      * intros p u x Hu Hx. right. by exists u.
  - assert (Hne : ¬ ended (at_ t)) by (rewrite Hat; by intros [|]).
    assert (Hnf : ∀ c, ¬ frees t c) by (intros c [x Hx]; congruence).
    destruct status as [st|]; intros [= <- <-]; apply (history_exit tr s i t); try done; congruence.
  - unfold fork_down. destruct (Z.eqb_spec (fork_sema t) 0) as [|Hf]; [done|]. intros [= <- <-].
    pose proof (wp_place _ Hwf i t Ht) as Hp. unfold place_ok in Hp. rewrite Hat in Hp. destruct Hp as (_ & u & _ & Hcase).
    apply (history_one tr s Silent i t); try done.
    + unfold ended. simpl. rewrite Hat. split; by intros [|].
    + simpl. intros x [?|[? ?]]; [by left|done].
    + simpl. intros x [[= <-]|[? _]]; [|done]. right. split; [done|]. destruct Hcase as [[? _]|[? _]]; lia.
  - unfold fork_read. destruct (get_my_child t c ≫= _); [|done]. intros [= <- <-].
    apply (history_one tr s _ i t); try done.
    + unfold ended. simpl. rewrite Hat. split; by intros [|].
    + simpl. intros x [?|[? ?]]; [by left|done].
    + by intros x [?|[? _]].
  - unfold do_fork. destruct (threads s !! parent) as [u|] eqn:Hu; [|done]. intros [= <- <-].
    destruct (dofork_parent s i t parent u Hwf Ht Hat Hu) as [Hau Hfu].
    apply (history_two tr s _ i t _ parent u); try done; [congruence| | | |].
    + unfold ended. simpl. rewrite Hat. split; by intros [|].
    + simpl. intros x [?|[? ?]]; [by left|done].
    + by intros x [?|[? _]].
    + intros x [?|[Hx _]]; [congruence|]. left. exists false. congruence.
  - unfold do_fork. destruct (threads s !! parent) as [u|] eqn:Hu; [|done]. intros [= <- <-].
    destruct (dofork_parent s i t parent u Hwf Ht Hat Hu) as [Hau Hfu].
    apply (history_two tr s _ i t _ parent u); try done; [congruence| | | |].
    + unfold ended. simpl. rewrite Hat. split; by intros [|].
    + simpl. intros x [?|[? ?]]; [by left|done].
    + by intros x [?|[? _]].
    + intros x [?|[Hx _]]; [congruence|]. left. exists true. congruence.
  - intros [= <- <-]. apply (history_exit tr s i t); try done; [rewrite Hat; by intros [|]|intros c [x Hx]; congruence|congruence].
  - unfold wait_down. destruct (threads s !! c) as [u|] eqn:Hu; [|done].
    destruct (wait_sema u =? 0) eqn:Hw0; [done|]. intros [= <- <-].
    assert (Hau : at_ u = FreeDown).
    { pose proof (wp_sema _ Hwf c u Hu) as Hs. unfold sema_ok in Hs. apply Z.eqb_neq in Hw0. destruct (at_ u); lia || done. }
    apply (history_two tr s _ i t _ c u); try done; [congruence| | | |].
    + unfold ended. simpl. rewrite Hat. split; by intros [|].
    + simpl. intros x [?|[? ?]]; [by left|done].
    + by intros x [?|[? _]].
    + intros x [?|[? _]]; congruence.
  - unfold wait_read. destruct (threads s !! c) as [u|] eqn:Hu; [|done]. intros [= <- <-].
    apply (history_one tr s Silent i t); try done.
    + unfold ended. simpl. rewrite Hat. split; by intros [|].
    + simpl. intros x [[_ ?]%list_elem_of_filter|[? [= <- _]]]; [by left|].
      pose proof (wp_place _ Hwf i t Ht) as Hp. unfold place_ok in Hp. rewrite Hat in Hp. left. tauto.
    + by intros x [?|[? _]].
  - unfold wait_free. destruct (threads s !! c) as [u|] eqn:Hu; [|done]. intros [= <- <-].
    by apply (history_waited tr s i t c status u).
  - intros [= <- <-]. apply (history_one tr s Silent i t); try done.
    + unfold ended. simpl. rewrite Hat. split; auto.
    + simpl. intros x [?|[? ?]]; [by left|done].
    + by intros x [?|[? _]].
  - unfold exit_down. destruct (free_sema t =? 0) eqn:Hf; [done|]. intros [= <- <-].
    apply (history_quiet tr s); [done|done|done|done|..]; simpl.
    + intros x u [_ Hu]%lookup_delete_Some. left. by exists u.
    + intros p x (u & Hu & Hx). simpl in Hu. apply lookup_delete_Some in Hu as [_ Hu]. left. by exists u.
    + intros p u x [_ Hu]%lookup_delete_Some Hx. right. by exists u.
Qed.
Lemma run_history tr s : run tr s → wf_procs s ∧ history tr s.
Proof.
  induction 1 as [|tr s i a e s' Hr [Hwf Hh] Ha]; [split; [exact boot_procs_wf|exact boot_history]|].
  split; [by eapply act_inv|by eapply act_history].
Qed.
End history.

(** ** Properties *)

(** C6: No turn of a thread follows a pointer to a thread that is gone, in whatever
    order processes are forked, waited for and ended: a child stays until its parent
    has released it, and a parent until its copy is done. *)
Theorem no_dangling_thread tr s i a : run tr s → act i a s ≠ Dangling.
Proof.
  intros [Hwf _]%run_history. unfold act. destruct (threads s !! i) as [t|] eqn:Ht; [|done].
  pose proof (wp_place _ Hwf i t Ht) as Hp. unfold place_ok in Hp.
  destruct (at_ t) eqn:Hat; destruct a; try done.
  - unfold process_wait. by destruct (get_my_child t tid).
  - by destruct status.
  - unfold fork_down. by destruct (fork_sema t =? 0).
  - destruct Hp as [_ Hc]. destruct (listed s i t c Hwf Ht Hc) as (_ & u & Hu & _).
    unfold fork_read. by rewrite (get_my_child_elem t c Hc); simpl; rewrite Hu.
  - unfold do_fork. destruct Hp as (_ & u & -> & _). done.
  - unfold do_fork. destruct Hp as (_ & u & -> & _). done.
  - destruct Hp as [_ Hc]. destruct (listed s i t c Hwf Ht Hc) as (_ & u & Hu & _).
    unfold wait_down. rewrite Hu. by destruct (wait_sema u =? 0).
  - destruct Hp as (_ & _ & u & Hu & _). unfold wait_read. by rewrite Hu.
  - destruct Hp as (_ & _ & u & Hu & _). unfold wait_free. by rewrite Hu.
  - unfold exit_down. by destruct (free_sema t =? 0).
Qed.

(** C7: process_wait returns for a child of the caller, with the status that the
    child has ended with (or -1 for a negative one), and for each child once. *)
Theorem wait_returns_status tr s i a p c v s' :
  run tr s → act i a s = Next (Waited p c v) s' →
  i = p ∧ Created p c ∈ tr ∧ (∃ st, Exited c st ∈ tr ∧ v = (if st <? 0 then -1 else st) ∧
    ∀ st', Exited c st' ∈ tr → st' = st) ∧ ∀ q w, Waited q c w ∉ tr.
Proof.
  intros [Hwf Hh]%run_history. unfold act. destruct (threads s !! i) as [t|] eqn:Ht; [|done].
  destruct (at_ t) eqn:Hat; destruct a; try done.
  - unfold process_wait. by destruct (get_my_child t tid).
  - by destruct status.
  - unfold fork_down. by destruct (fork_sema t =? 0).
  - unfold fork_read. by destruct (get_my_child t c0 ≫= _).
  - unfold do_fork. by destruct (threads s !! parent).
  - unfold do_fork. by destruct (threads s !! parent).
  - unfold wait_down. destruct (threads s !! c0) as [u|]; [|done]. by destruct (wait_sema u =? 0).
  - unfold wait_read. by destruct (threads s !! c0).
  - unfold wait_free. destruct (threads s !! c0) as [u|] eqn:Hu; [|done]. intros [= <- <- <- _].
    pose proof (wp_place _ Hwf i t Ht) as Hp. unfold place_ok in Hp. rewrite Hat in Hp.
    destruct Hp as (_ & _ & u2 & Hu2 & Hau & _ & Hst). rewrite Hu in Hu2. injection Hu2 as <-.
    destruct (hi_hold _ _ Hh i c0) as [Hcr Hw]; [exists t; split; [done|right; by exists status]|].
    split; [done|]. split; [done|]. split; [|done]. exists status. split.
    + apply (hi_exit _ _ Hh c0 u); [done|]. split; [by right|done].
    + split; [done|]. intros st' Hin. apply (hi_exit _ _ Hh c0 u st' Hu) in Hin as [_ Heq]. congruence.
  - unfold exit_down. by destruct (free_sema t =? 0).
Qed.

(** C13: process_fork does not return before the child has copied its parent, or has
    failed to. *)
Theorem fork_returns_after_copy tr s i a p c s' :
  run tr s → act i a s = Next (Forked p c) s' → c ≠ TID_ERROR →
  i = p ∧ Created p c ∈ tr ∧ ∃ succ, Copied c succ ∈ tr.
Proof.
  intros [Hwf Hh]%run_history. unfold act. destruct (threads s !! i) as [t|] eqn:Ht; [|done].
  destruct (at_ t) eqn:Hat; destruct a; try done.
  - by intros [= <- <- _].
  - unfold process_wait. by destruct (get_my_child t tid).
  - by destruct status.
  - unfold fork_down. by destruct (fork_sema t =? 0).
  - pose proof (wp_place _ Hwf i t Ht) as Hp. unfold place_ok in Hp. rewrite Hat in Hp. destruct Hp as [_ Hc].
    destruct (listed s i t c0 Hwf Ht Hc) as (_ & u & Hu & _).
    unfold fork_read. rewrite (get_my_child_elem t c0 Hc). simpl. rewrite Hu. intros [= <- <- _].
    destruct (exit_status u =? TID_ERROR); [done|]. intros _. split; [done|]. split.
    + apply (hi_hold _ _ Hh i c0). exists t. auto.
    + apply (hi_fork _ _ Hh i t c0 Ht). by left.
  - unfold do_fork. by destruct (threads s !! parent).
  - unfold do_fork. by destruct (threads s !! parent).
  - unfold wait_down. destruct (threads s !! c0) as [u|]; [|done]. by destruct (wait_sema u =? 0).
  - unfold wait_read. by destruct (threads s !! c0).
  - unfold wait_free. by destruct (threads s !! c0).
  - unfold exit_down. by destruct (free_sema t =? 0).
Qed.

(** [c] is a child of [p] that [p] has not waited for. *)
Definition child_of (s : procs) (p c : Z) : Prop := ∃ t, threads s !! p = Some t ∧ c ∈ children_list t.

(** A thread that waits for a child goes on, or the child goes on or waits for one
    of its own. *)
Lemma waiting_progress s p t c :
  wf_procs s → threads s !! p = Some t → at_ t = ForkDown c ∨ at_ t = WaitDown c →
  (∃ e s', act p Go s = Next e s') ∨
  child_of s p c ∧ ∃ u, threads s !! c = Some u ∧
    ((∃ a e s', act c a s = Next e s') ∨ ∃ d, at_ u = ForkDown d ∨ at_ u = WaitDown d).
Proof.
  intros Hwf Ht Hat. pose proof (wp_place _ Hwf p t Ht) as Hp. unfold place_ok in Hp.
  destruct Hat as [Hat|Hat]; rewrite Hat in Hp.
  - destruct Hp as (Hc & u & Hu & [[_ Hau]|[Hf _]]).
    + right. split; [by exists t|]. exists u. split; [done|]. left. exists Go. unfold act. rewrite Hu, Hau. unfold do_fork.
      rewrite Ht. eauto.
    + left. unfold act. rewrite Ht, Hat. unfold fork_down. rewrite Hf. eauto.
  - destruct Hp as [_ Hc]. destruct (listed s p t c Hwf Ht Hc) as (_ & u & Hu & Hfu).
    destruct (Z.eqb_spec (wait_sema u) 0) as [Hw|Hw].
    2:{ left. unfold act. rewrite Ht, Hat. unfold wait_down. rewrite Hu, (proj2 (Z.eqb_neq _ _)) by done. eauto. }
    right. split; [by exists t|]. exists u. split; [done|].
    pose proof (wp_sema _ Hwf c u Hu) as Hs. unfold sema_ok in Hs.
    pose proof (wp_place _ Hwf c u Hu) as Hpc. unfold place_ok in Hpc.
    destruct (at_ u) eqn:Hau.
    + left. exists (Exit (Some 0)). unfold act. rewrite Hu, Hau. unfold sys_exit. eauto.
    + right. exists c0. auto.
    + left. exists Go. unfold act. rewrite Hu, Hau. destruct Hpc as [_ Hcc].
      destruct (listed s c u c0 Hwf Hu Hcc) as (_ & v & Hv & _).
      unfold fork_read. rewrite (get_my_child_elem u c0 Hcc). simpl. rewrite Hv. eauto.
    + left. exists Go. unfold act. rewrite Hu, Hau. destruct Hpc as (_ & v & Hv & _). unfold do_fork. rewrite Hv. eauto.
    + left. exists Go. unfold act. rewrite Hu, Hau. unfold sys_exit. eauto.
    + right. exists c0. auto.
    + left. exists Go. unfold act. rewrite Hu, Hau. destruct Hpc as (_ & _ & v & Hv & _). unfold wait_read. rewrite Hv. eauto.
    + left. exists Go. unfold act. rewrite Hu, Hau. destruct Hpc as (_ & _ & v & Hv & _). unfold wait_free. rewrite Hv. eauto.
    + left. exists Go. unfold act. rewrite Hu, Hau. unfold exit_up. eauto.
    + destruct Hs as [[? _]|[(_ & _ & q & v & Hv & Hr)|[_ ?]]]; [lia| |lia].
      assert (q = p) as ->.
      { apply (wp_own _ Hwf q p c); [by apply (reaps_holds _ _ v)|exists t; auto]. }
      rewrite Ht in Hv. injection Hv as <-. by destruct Hr as [Hr|[? Hr]]; rewrite Hat in Hr.
Qed.

(** C8: fork and wait do not deadlock: whenever a process waits in them for a
    child, it can go on itself, or one of its descendants can. *)
Theorem waiting_has_runner tr s p t c :
  run tr s → threads s !! p = Some t → at_ t = ForkDown c ∨ at_ t = WaitDown c →
  ∃ q a e s', rtc (child_of s) p q ∧ act q a s = Next e s'.
Proof.
  intros [Hwf _]%run_history.
  assert (Hind : ∀ n p t c, next_tid s - p <= Z.of_nat n → threads s !! p = Some t →
    at_ t = ForkDown c ∨ at_ t = WaitDown c → ∃ q a e s', rtc (child_of s) p q ∧ act q a s = Next e s').
  { induction n as [|n IH]; intros r u d Hn Hu Hat; pose proof (wp_tid _ Hwf r u Hu); [lia|].
    destruct (waiting_progress s r u d Hwf Hu Hat) as [(e & s' & Ha)|(Hch & v & Hv & [(a & e & s' & Ha)|(x & Hx)])].
    - by exists r, Go, e, s'.
    - exists d, a, e, s'. split; [by apply rtc_once|done].
    - assert (r < d).
      { destruct Hch as (u2 & Hu2 & Hd). by destruct (listed s r u2 d Hwf Hu2 Hd). }
      destruct (IH d v x) as (q & a & e & s' & Hq & Ha); [lia|done|done|].
      exists q, a, e, s'. split; [by eapply rtc_l|done]. }
  intros Ht Hat. apply (Hind (Z.to_nat (next_tid s - p)) p t c); [lia|done|done].
Qed.

(** ** Concrete runs *)

(** A sequence of turns. *)
Fixpoint play (l : list (Z * action)) (tr : list event) (s : procs) : option (list event * procs) :=
  match l with
  | [] => Some (tr, s)
  | (i, a) :: l => match act i a s with Next e s' => play l (e :: tr) s' | _ => None end
  end.
Lemma play_run l tr s tr' s' : run tr s → play l tr s = Some (tr', s') → run tr' s'.
Proof.
  revert tr s. induction l as [|[i a] l IH]; intros tr s Hr; simpl; [by intros [= <- <-]|].
  destruct (act i a s) as [| |e s1] eqn:Ha; [done..|]. apply IH. by eapply run_turn.
Qed.
Lemma play_boot l tr s : play l [] boot = Some (tr, s) → run tr s.
Proof. apply play_run, run_boot. Qed.

(** The first thread starts initd (2), which forks (3) and waits for it. *)
Definition ex_start : list (Z * action) :=
  [(1, Spawn); (2, Fork); (3, Go); (2, Go); (2, Go); (2, Wait 3); (3, Exit (Some 7)); (3, Go); (2, Go); (2, Go)].

Lemma no_dangling_thread_witness : ∃ tr s, run tr s ∧ act 2 Go s ≠ Dangling ∧ ∃ e s', act 2 Go s = Next e s'.
Proof.
  destruct (play ex_start [] boot) as [[tr s]|] eqn:Hp; [|by vm_compute in Hp].
  pose proof (play_boot _ _ _ Hp) as Hr. exists tr, s. split; [exact Hr|].
  split; [by apply (no_dangling_thread tr)|]. vm_compute in Hp. injection Hp as <- <-. by do 2 eexists.
Defined.

Lemma wait_returns_status_witness : ∃ tr s s', run tr s ∧ act 2 Go s = Next (Waited 2 3 7) s' ∧ Created 2 3 ∈ tr.
Proof.
  destruct (play ex_start [] boot) as [[tr s]|] eqn:Hp; [|by vm_compute in Hp].
  pose proof (play_boot _ _ _ Hp) as Hr. exists tr, s.
  assert (Ha : ∃ s', act 2 Go s = Next (Waited 2 3 7) s') by (vm_compute in Hp; injection Hp as <- <-; by eexists).
  destruct Ha as [s' Ha]. exists s'. split; [exact Hr|]. split; [exact Ha|].
  by apply (wait_returns_status tr s 2 Go 2 3 7 s').
Defined.

Lemma fork_returns_after_copy_witness : ∃ tr s s', run tr s ∧ act 2 Go s = Next (Forked 2 3) s' ∧ ∃ b, Copied 3 b ∈ tr.
Proof.
  destruct (play (take 4 ex_start) [] boot) as [[tr s]|] eqn:Hp; [|by vm_compute in Hp].
  pose proof (play_boot _ _ _ Hp) as Hr. exists tr, s.
  assert (Ha : ∃ s', act 2 Go s = Next (Forked 2 3) s') by (vm_compute in Hp; injection Hp as <- <-; by eexists).
  destruct Ha as [s' Ha]. exists s'. split; [exact Hr|]. split; [exact Ha|].
  by apply (fork_returns_after_copy tr s 2 Go 2 3 s').
Defined.

Lemma waiting_has_runner_witness : ∃ tr s q a e s', run tr s ∧ rtc (child_of s) 2 q ∧ act q a s = Next e s'.
Proof.
  destruct (play (take 6 ex_start) [] boot) as [[tr s]|] eqn:Hp; [|by vm_compute in Hp].
  pose proof (play_boot _ _ _ Hp) as Hr.
  assert (Ht : ∃ t, threads s !! 2 = Some t ∧ (at_ t = ForkDown 3 ∨ at_ t = WaitDown 3)).
  { vm_compute in Hp. injection Hp as <- <-. eexists. split; [reflexivity|]. by right. }
  destruct Ht as (t & Ht & Hat).
  destruct (waiting_has_runner tr s 2 t 3 Hr Ht Hat) as (q & a & e & s' & Hq & Ha).
  exists tr, s, q, a, e, s'. split; [exact Hr|]. split; [exact Hq|exact Ha].
Defined.

(** The child releases its parent before it sets its exit status: fork reports
    success though the copy failed. *)
Example fork_misses_failure : ∃ tr s, run tr s ∧ Forked 2 3 ∈ tr ∧ Copied 3 false ∈ tr.
Proof.
  destruct (play [(1, Spawn); (2, Fork); (3, Fail); (2, Go); (2, Go)] [] boot) as [[tr s]|] eqn:Hp; [|by vm_compute in Hp].
  exists tr, s. split; [by eapply play_boot|]. vm_compute in Hp. injection Hp as <- <-.
  split; apply (bool_decide_unpack _); vm_compute; exact I.
Qed.
(** A child that has ended with -1 before its parent runs again: fork reports
    failure though the copy was made, and nobody will wait for the child. *)
Example fork_denies_success : ∃ tr s, run tr s ∧ Forked 2 TID_ERROR ∈ tr ∧ Copied 3 true ∈ tr ∧ act 3 Go s = Blocked.
Proof.
  destruct (play [(1, Spawn); (2, Fork); (3, Go); (3, Exit (Some (-1))); (3, Go); (2, Go); (2, Go)] [] boot)
    as [[tr s]|] eqn:Hp; [|by vm_compute in Hp].
  exists tr, s. split; [by eapply play_boot|]. vm_compute in Hp. injection Hp as <- <-.
  split_and!; try (apply (bool_decide_unpack _); vm_compute; exact I). by vm_compute.
Qed.
(** A child that nobody waits for stays for ever: its parent is gone. *)
Example orphan_blocked : ∃ tr s, run tr s ∧ act 3 Go s = Blocked ∧ threads s !! 2 = None.
Proof.
  destruct (play [(1, Spawn); (2, Fork); (3, Go); (2, Go); (2, Go); (3, Exit (Some 0)); (3, Go); (2, Exit (Some 0)); (2, Go);
    (1, Wait 2); (1, Go); (1, Go); (1, Go); (2, Go)] [] boot) as [[tr s]|] eqn:Hp; [|by vm_compute in Hp].
  exists tr, s. split; [by eapply play_boot|]. vm_compute in Hp. injection Hp as <- <-. by vm_compute.
Qed.
