(* ===== verification/Exec.v ===== *)
(** * Running programs (userprog/process.c)

    process_exec: the program headers of an executable are entered as pages that
    are loaded on their first fault, the stack gets the words of the command
    line. fork and exit, as far as they concern memory, are here too. *)
From stdpp Require Import base numbers list gmap.
From Stdlib Require Import ZArith Lia.
From S2P Require Import Prelude Bytes Fat Volume Inode File Directory CString Filesys Bitmap Hash Palloc PallocInit Words Mmu Desc Vm VmSwap Access.
Open Scope Z_scope.

Definition MAX_ARGS : Z := 128.
Definition MAX_BUF : Z := 128.

(** ** ELF *)

Definition PT_LOAD : Z := 1.
Definition PT_DYNAMIC : Z := 2.
Definition PT_INTERP : Z := 3.
Definition PT_SHLIB : Z := 5.
Definition PF_W : Z := 2.

(** The members of the headers that are used. *)
Record ELF64_hdr := Ehdr {
  e_ident : list Z;
  e_type : Z;
  e_machine : Z;
  e_version : Z;
  e_entry : Z;
  e_phoff : Z;
  e_phentsize : Z;
  e_phnum : Z;
}.
Record ELF64_PHDR := Phdr {
  p_type : Z;
  p_flags : Z;
  p_offset : Z;
  p_vaddr : Z;
  p_filesz : Z;
  p_memsz : Z;
}.
Definition EHDR_SIZE : Z := 64.
Definition PHDR_SIZE : Z := 56.

(** The member of [n] bytes at [ofs] of a struct in memory. *)
Definition field (ofs n : nat) (l : list Z) : Z := le_val (take n (drop ofs l)).
Definition ehdr_of (l : list Z) : ELF64_hdr :=
  Ehdr (take 16 l) (field 16 2 l) (field 18 2 l) (field 20 4 l) (field 24 8 l) (field 32 8 l) (field 54 2 l) (field 56 2 l).
Definition phdr_of (l : list Z) : ELF64_PHDR :=
  Phdr (field 0 4 l) (field 4 4 l) (field 8 8 l) (field 16 8 l) (field 32 8 l) (field 40 8 l).

(** "\177ELF\2\1\1" *)
Definition ELF_MAGIC : list Z := [127; 69; 76; 70; 2; 1; 1].
Definition good_header (h : ELF64_hdr) : bool :=
  bool_decide (take 7 (e_ident h) = ELF_MAGIC) && (e_type h =? 2) && (e_machine h =? 62) && (e_version h =? 1) &&
  (e_phentsize h =? PHDR_SIZE) && (e_phnum h <=? 1024).

Definition ROUND_UP64 (x step : Z) : Z := u64 (u64 (x + step - 1) / step * step).

Definition validate_segment (phdr : ELF64_PHDR) (file : Z) : ST kfs bool :=
  if negb (Z.land (p_offset phdr) PGMASK =? Z.land (p_vaddr phdr) PGMASK) then mret false else
  n ← file_length file;
  if u64 n <? p_offset phdr then mret false else
  if p_memsz phdr <? p_filesz phdr then mret false else
  if p_memsz phdr =? 0 then mret false else
  if negb (is_user_vaddr (p_vaddr phdr)) then mret false else
  if negb (is_user_vaddr (u64 (p_vaddr phdr + p_memsz phdr))) then mret false else
  if u64 (p_vaddr phdr + p_memsz phdr) <? p_vaddr phdr then mret false else
  if p_vaddr phdr <? PGSIZE then mret false else
  mret true.

(** The arguments of load_segment for a program header. *)
Record segment := Segment {
  sg_ofs : Z;
  sg_upage : Z;
  sg_read : Z;
  sg_zero : Z;
  sg_writable : bool;
}.
Definition segment_of (phdr : ELF64_PHDR) : segment :=
  let page_offset := Z.land (p_vaddr phdr) PGMASK in
  let read_bytes := if 0 <? p_filesz phdr then u32 (page_offset + p_filesz phdr) else 0 in
  let zero_bytes := u32 (ROUND_UP64 (u64 (page_offset + p_memsz phdr)) PGSIZE - read_bytes) in
  Segment (s32 (Z.land (p_offset phdr) (Z.lnot PGMASK))) (Z.land (p_vaddr phdr) (Z.lnot PGMASK))
    read_bytes zero_bytes (negb (Z.land (p_flags phdr) PF_W =? 0)).

(** A turn of the loop of load_segment; [inr false] is the early return. *)
Definition segment_step (file : Z) (writable : bool) (st : Z * Z * Z * Z) : ST vm (Z * Z * Z * Z + bool) :=
  let '(ofs, upage, read_bytes, zero_bytes) := st in
  if negb ((0 <? read_bytes) || (0 <? zero_bytes)) then mret (inr true) else
  let page_read_bytes := if read_bytes <? PGSIZE then read_bytes else PGSIZE in
  let page_zero_bytes := PGSIZE - page_read_bytes in
  aux ← new_obj (OInfo (Info 0 0 0 0));
  if aux =? 0 then mret (inr false) else
  f ← on_k (file_reopen file);
  _ ← set_obj aux (OInfo (Info f ofs page_read_bytes page_zero_bytes));
  ok ← vm_alloc_page_with_initializer VM_ANON upage writable lazy_load aux;
  if negb ok then mret (inr false) else
  mret (inl (s32 (ofs + page_read_bytes), u64 (upage + PGSIZE), read_bytes - page_read_bytes, u32 (zero_bytes - page_zero_bytes))).

Definition load_segment (file : Z) (g : segment) : ST vm bool :=
  _ ← assert_st (u32 (sg_read g + sg_zero g) mod PGSIZE =? 0);
  _ ← assert_st (pg_ofs (sg_upage g) =? 0);
  _ ← assert_st (sg_ofs g mod PGSIZE =? 0);
  loop (S (Z.to_nat ((sg_read g + sg_zero g) / PGSIZE))) (segment_step file (sg_writable g))
    (sg_ofs g, sg_upage g, sg_read g, sg_zero g).

(** A turn of the loop over the program headers; [inr false] is a jump to done. *)
Definition header_step (file phnum : Z) (st : Z * Z) : ST vm (Z * Z + bool) :=
  let '(i, file_ofs) := st in
  if negb (i <? phnum) then mret (inr true) else
  n ← on_k (file_length file);
  if (file_ofs <? 0) || (n <? file_ofs) then mret (inr false) else
  _ ← on_k (file_seek file file_ofs);
  bytes ← on_k (file_read file PHDR_SIZE);
  if negb (zlength bytes =? PHDR_SIZE) then mret (inr false) else
  let phdr := phdr_of bytes in
  let next := (i + 1, s32 (file_ofs + PHDR_SIZE)) in
  if (p_type phdr =? PT_DYNAMIC) || (p_type phdr =? PT_INTERP) || (p_type phdr =? PT_SHLIB) then mret (inr false) else
  if negb (p_type phdr =? PT_LOAD) then mret (inl next) else
  valid ← on_k (validate_segment phdr file);
  if negb valid then mret (inr false) else
  ok ← load_segment file (segment_of phdr);
  if negb ok then mret (inr false) else mret (inl next).

(** ** The stack *)

Section exec.
(** The variable of vm_get_victim, what local directory entries hold, the
    addresses of the literals " " and "/", and of the buffers in the frames of
    process_exec and filesys_open. *)
Context (junk : Z) (entry : dir_entry) (space slash cp_file_name first_word cp_name : Z).

Definition setup_stack : ST vm bool :=
  let stack_bottom := USER_STACK - PGSIZE in
  ok ← vm_alloc_page VM_ANON stack_bottom true;
  if negb ok then mret false else vm_claim_page junk stack_bottom.

(** The first loop: the strings, from the last one down; the addresses they get
    are collected in the order of the arguments. *)
Definition push_string (p : Z) (st : Z * list Z) : ST vm (Z * list Z) :=
  n ← on_bytes (strlen p);
  let rsp := u64 (fst st - (n + 1)) in
  n ← on_bytes (strlen p);
  _ ← copy_to_user junk rsp p (n + 1);
  mret (rsp, rsp :: snd st).
Definition align_step (rsp : Z) : ST vm (Z + Z) :=
  if negb (rsp mod 8 =? 0) then
    let rsp := u64 (rsp - 1) in _ ← user_store junk rsp 0; mret (inl rsp)
  else mret (inr rsp).
Definition push_word (w rsp : Z) : ST vm Z :=
  let rsp := u64 (rsp - 8) in _ ← user_put junk rsp (le_bytes 8 w); mret rsp.

(** The stack pointer, and the registers rdi and rsi. *)
Definition push_args (rsp : Z) (argv : list Z) : ST vm (Z * Z * Z) :=
  st ← for_st push_string (rev argv) (rsp, []);
  rsp ← loop 8 align_step (fst st);
  rsp ← push_word 0 rsp;
  rsp ← for_st push_word (rev (snd st)) rsp;
  rsp ← push_word 0 rsp;
  mret (rsp, zlength argv, u64 (rsp + 8)).

(** parse_args is parse_path with another delimiter. *)
Definition parse_args (target : Z) : ST mem (list Z) := parse_path target space MAX_ARGS.

(** What load stores in the interrupt frame. *)
Record user_frame := UFrame { if_rip : Z; if_rsp : Z; if_rdi : Z; if_rsi : Z }.

(** load, from the point where the file is open to the label done. *)
Definition load_image (file : Z) (argv : list Z) : ST vm (option user_frame) :=
  bytes ← on_k (file_read file EHDR_SIZE);
  let ehdr := ehdr_of bytes in
  if negb (zlength bytes =? EHDR_SIZE) || negb (good_header ehdr) then mret None else
  ok ← loop (S (Z.to_nat (e_phnum ehdr))) (header_step file (e_phnum ehdr)) (0, s32 (e_phoff ehdr));
  if negb ok then mret None else
  ok ← setup_stack;
  if negb ok then mret None else
  r ← push_args USER_STACK argv;
  let '(rsp, rdi, rsi) := r in
  mret (Some (UFrame (e_entry ehdr) rsp rdi rsi)).

(** ** The state of processes: memory and files, and the descriptors *)

Record kst := Kst {
  k_vm : vm;
  k_tasks : gmap Z task;
}.
Definition on_vm {A} : ST vm A → ST kst A := zoom k_vm (λ v s, Kst v (k_tasks s)).
Definition on_pst {A} : ST pst A → ST kst A :=
  zoom (λ s, Pst (v_k (k_vm s)) (k_tasks s) (cur (k_vm s))) (λ p s, Kst (with_k (p_k p) (k_vm s)) (tasks p)).
(** The functions of filesys.c, for the current thread. *)
Definition on_sys {A} (c : ST sys A) : ST kst A :=
  t ← on_pst thread_current;
  zoom (λ s, Sys (v_k (k_vm s)) (vbytes (k_vm s)) (cwd t))
       (λ y s, Kst (with_vbytes (y_mem y) (with_k (y_k y) (k_vm s))) (alter (set_cwd (y_cwd y)) (cur (k_vm s)) (k_tasks s))) c.

Definition set_pml4 (a : Z) : ST vm unit :=
  _ ← current; modify (λ s, with_procs (alter (λ p, Proc a (spt p) (user_rsp p)) (cur s) (procs s)) s).

(** t->pml4 = pml4_create (); process_activate (t), which load and __do_fork share. *)
Definition new_pml4 : ST vm bool :=
  a ← on_mmu pml4_create;
  _ ← set_pml4 a;
  if a =? 0 then mret false else _ ← on_mmu (pml4_activate a); mret true.

Definition load (file_name : Z) : ST kst (option user_frame) :=
  argv ← on_vm (on_bytes (parse_args file_name));
  ok ← on_vm new_pml4;
  if negb ok then mret None else
  file ← on_sys (load_file_open entry file_name);
  if file =? 0 then mret None else
  r ← on_vm (load_image file argv);
  _ ← on_vm (on_k (file_close file));
  mret r.

Definition process_cleanup : ST vm unit :=
  _ ← supplemental_page_table_kill;
  curr ← current;
  if negb (pml4 curr =? 0) then
    _ ← set_pml4 0;
    _ ← on_mmu (pml4_activate 0);
    on_mmu (pml4_destroy (pml4 curr))
  else mret tt.

(** The loop that copies the first word of the command line. *)
Definition first_word_step (i : Z) : ST mem (Z + Z) :=
  c ← load8 (cp_file_name + i);
  if negb (c =? 0) && negb (c =? 32) && (i <? MAX_BUF - 1) then
    _ ← store8 (first_word + i) c; mret (inl (i + 1))
  else mret (inr i).

(** process_exec; [None] is the return of -1. A command line that does not fit
    into the buffer is written behind it. [spt_junk] is what the memory for the
    new table holds. *)
Definition process_exec (spt_junk : list (list Z)) (f_name : Z) : ST kst (option user_frame) :=
  n ← on_vm (on_bytes (strlen f_name));
  if MAX_BUF <? n + 1 then undef else
  _ ← on_vm (on_bytes (memcpy cp_file_name f_name (n + 1)));
  i ← on_vm (on_bytes (loop (Z.to_nat MAX_BUF) first_word_step 0));
  _ ← on_vm (on_bytes (store8 (first_word + i) 0));
  _ ← on_pst exec_close;
  new_file ← on_sys (filesys_open slash cp_name entry first_word);
  _ ← on_vm process_cleanup;
  _ ← on_vm (s ← get_st; supplemental_page_table_init (cur s) spt_junk);
  r ← load cp_file_name;
  _ ← on_vm (on_ram (palloc_free_page f_name));
  match r with
  | None => mret None
  | Some uf =>
      if new_file =? 0 then mret None else
      _ ← on_pst (exec_deny new_file);
      mret (Some uf)
  end.

(** ** fork and exit *)

(** __do_fork up to its label: the copy of the parent; [page] tells whether
    process_init gets its pages. *)
Definition do_fork_copy (spt_junk : list (list Z)) (page : bool) (parent : Z) : ST kst bool :=
  ok ← on_vm new_pml4;
  if negb ok then mret false else
  _ ← on_vm (s ← get_st; supplemental_page_table_init (cur s) spt_junk);
  ok ← on_vm (s ← get_st; supplemental_page_table_copy (cur s) parent);
  if negb ok then mret false else
  _ ← on_pst (process_init page);
  on_pst (fork_fds parent).

(** process_exit up to its semaphores; the pages of the descriptor table, which is
    kept as a list, are not in the pools of the model. *)
Definition process_exit : ST kst unit :=
  _ ← on_pst exit_files;
  on_vm process_cleanup.
End exec.
