(* ===== verification/ExecArgs.v ===== *)
(** * The arguments of a program

    What load puts on the stack of a new program is an array of pointers to the
    words of its command line, as the program reads it there. *)
From stdpp Require Import base numbers list gmap.
From Stdlib Require Import ZArith Lia.
From S2P Require Import Prelude Bytes Fat Volume File Directory CString Filesys Bitmap Hash Palloc PallocInit Words Mmu MmuInv MmuWalk MmuSpec AddressSpace Isolation PageTables UserMem Vm VmSpt VmSwap VmFrame VmSpec Access Resident Exec.
Open Scope Z_scope.

(** The strings of the arguments, one behind the other, and where they begin when
    they end at [e]. *)
Definition strs (args : list (list Z)) : list Z := concat ((λ a, a ++ [0]) <$> args).
Fixpoint arg_ptrs (e : Z) (args : list (list Z)) : list Z :=
  match args with [] => [] | a :: r => (e - zlength (strs (a :: r))) :: arg_ptrs e r end.
(** The top of the stack: a fake return address, the array with its null pointer,
    zeros up to an address that 8 divides, and the strings. *)
Definition words64 (l : list Z) : list Z := concat (le_bytes 8 <$> l).
Definition pad (t : list Z) : list Z := zeros (- zlength t mod 8) ++ t.
Definition args_image (args : list (list Z)) : list Z :=
  words64 (0 :: arg_ptrs USER_STACK args ++ [0]) ++ pad (strs args).
(** A page of zeros but for its top. *)
Definition top (t : list Z) : list Z := zeros (PGSIZE - zlength t) ++ t.
Abbreviation STACK_PAGE := (USER_STACK - PGSIZE).

(** ** Lists *)

Section lists.
Implicit Types (t l : list Z) (args : list (list Z)).

Lemma strs_cons a args : strs (a :: args) = (a ++ [0]) ++ strs args.
Proof. done. Qed.
Lemma strs_bytes args : Forall (Forall is_byte) args → Forall is_byte (strs args).
Proof.
  induction 1 as [|a args Ha _ IH]; [done|]. rewrite strs_cons. apply Forall_app. split; [|done].
  apply Forall_app. split; [done|]. by repeat constructor.
Qed.
Lemma words64_length l : zlength (words64 l) = 8 * zlength l.
Proof.
  unfold words64. induction l as [|w l IH]; [done|]. rewrite fmap_cons. cbn [concat]. rewrite zlength_app, zlength_cons, IH.
  unfold zlength. rewrite length_le_bytes. lia.
Qed.
Lemma words64_cons w l : words64 (w :: l) = le_bytes 8 w ++ words64 l.
Proof. done. Qed.
Lemma words64_app l1 l2 : words64 (l1 ++ l2) = words64 l1 ++ words64 l2.
Proof. induction l1 as [|w l1 IH]; [done|]. rewrite <- app_comm_cons, !words64_cons, IH. by rewrite app_assoc. Qed.
Lemma words64_one w : words64 [w] = le_bytes 8 w.
Proof. rewrite words64_cons. apply app_nil_r. Qed.
Lemma words64_bytes l : Forall is_byte (words64 l).
Proof.
  unfold words64. induction l as [|w l IH]; [done|]. rewrite fmap_cons. cbn [concat]. apply Forall_app. split; [|done]. apply le_bytes_byte.
Qed.
Lemma arg_ptrs_length e args : zlength (arg_ptrs e args) = zlength args.
Proof. induction args as [|a args IH]; [done|]. cbn [arg_ptrs]. by rewrite !zlength_cons, IH. Qed.
Lemma zeros_bytes n : Forall is_byte (zeros n).
Proof. unfold zeros. by apply Forall_replicate. Qed.

Lemma top_splice t l : zlength t + zlength l <= PGSIZE →
  splice (Z.to_nat (PGSIZE - zlength t - zlength l)) l (top t) = top (l ++ t).
Proof.
  intros Hle. pose proof (zlength_nonneg t). pose proof (zlength_nonneg l). unfold top, splice. rewrite zlength_app.
  assert (Hz : zeros (PGSIZE - zlength t) = zeros (PGSIZE - (zlength l + zlength t)) ++ zeros (zlength l)).
  { unfold zeros. rewrite <- replicate_add. f_equal. lia. }
  assert (Hl1 : length (zeros (PGSIZE - (zlength l + zlength t))) = Z.to_nat (PGSIZE - zlength t - zlength l)).
  { unfold zeros. rewrite length_replicate. f_equal. lia. }
  assert (Hl2 : length (zeros (zlength l)) = length l) by (unfold zeros, zlength; rewrite length_replicate; lia).
  rewrite Hz, <- !app_assoc. rewrite take_app_length' by done. f_equal. f_equal. rewrite <- drop_drop.
  rewrite drop_app_length' by done. by rewrite drop_app_length'.
Qed.
Lemma top_nil : top [] = zeros PGSIZE.
Proof. unfold top. by rewrite app_nil_r. Qed.
End lists.

(** ** The loops *)

Lemma wp_for_app {S A B} (f : B → A → ST S A) (l1 l2 : list B) (a : A) (s : S) (Q : A → S → Prop) :
  wp (for_st f l1 a) s (λ a' s', wp (for_st f l2 a') s' Q) → wp (for_st f (l1 ++ l2) a) s Q.
Proof.
  revert a s. induction l1 as [|b l1 IH]; intros a s H; simpl in *; [done|]. rewrite wp_bind in *.
  eapply wp_mono; [exact H|]. intros a' s'. apply IH.
Qed.

Section push.
Implicit Types (s : vm) (l t : list Z) (pr : proc) (k : Z) (args : list (list Z)).
Context (junk : Z).

(** The stack of [pr] has [t] at its top. *)
Abbreviation stack s l pr k t := (resident s l pr STACK_PAGE k (top t)).
Abbreviation sp t := (USER_STACK - zlength t).

Lemma sp_range t : zlength t <= PGSIZE → u64 (sp t) = sp t.
Proof. intros Ht. pose proof (zlength_nonneg t). apply u64_small. unfold USER_STACK, PGSIZE in *. lia. Qed.
Lemma sp_app l t : sp (l ++ t) = sp t - zlength l.
Proof. rewrite zlength_app. lia. Qed.
Lemma sp_page l t : sp (l ++ t) = STACK_PAGE + (PGSIZE - zlength t - zlength l).
Proof. rewrite zlength_app. lia. Qed.

(** Storing [b] below the top. *)
Lemma push_wp s l pr k t b (Q : unit → vm → Prop) : stack s l pr k t → zlength t + zlength b <= PGSIZE → Forall is_byte b →
  (∀ s', stack s' l pr k (b ++ t) → stored s l (pml4 pr) STACK_PAGE s' → Q tt s') → wp (user_put junk (sp (b ++ t)) b) s Q.
Proof.
  intros Hs Hle Hb HQ. pose proof (zlength_nonneg t). rewrite sp_page. eapply user_put_wp; [done|lia|lia|done|]. intros s'. rewrite top_splice by lia. apply HQ.
Qed.
Lemma push_word_wp s l pr k t w (Q : Z → vm → Prop) : stack s l pr k t → zlength t + 8 <= PGSIZE →
  (∀ s', stack s' l pr k (le_bytes 8 w ++ t) → stored s l (pml4 pr) STACK_PAGE s' → Q (sp (le_bytes 8 w ++ t)) s') →
  wp (push_word junk w (sp t)) s Q.
Proof.
  intros Hs Hle HQ. assert (H8 : zlength (le_bytes 8 w) = 8) by (unfold zlength; by rewrite length_le_bytes).
  unfold push_word. replace (sp t - 8) with (sp (le_bytes 8 w ++ t)) by (rewrite zlength_app; lia).
  pose proof (zlength_nonneg t). rewrite sp_range by (rewrite zlength_app; lia). wp_pure.
  eapply push_wp; [done|lia|apply le_bytes_byte|]. intros s' H1 H2. wp_pure. by apply HQ.
Qed.

(** A string of the kernel, outside of the user pool. *)
Definition kernel_str (s : vm) (p : Z) (a : list Z) : Prop :=
  0 < p ∧ str_at (vbytes s) p a ∧ Forall is_byte a ∧ ∀ x, p <= x <= p + zlength a → ¬ in_pool (user_pool (m_ram (v_mmu s))) x.
Lemma kernel_str_stored s l a u s' p x : stored s l a u s' → kernel_str s p x → kernel_str s' p x.
Proof.
  intros [(m & ->) _ Hk] (H0 & H1 & H2 & H3). split; [done|]. split; [|done]. eapply str_at_frame; [done|].
  intros y Hy. apply Hk, H3. lia.
Qed.

Lemma push_string_wp s l pr k t p a arr (Q : Z * list Z → vm → Prop) : stack s l pr k t → kernel_str s p a →
  zlength t + zlength a + 1 <= PGSIZE →
  (∀ s', stack s' l pr k ((a ++ [0]) ++ t) → stored s l (pml4 pr) STACK_PAGE s' →
     Q (sp ((a ++ [0]) ++ t), sp ((a ++ [0]) ++ t) :: arr) s') → wp (push_string junk p (sp t, arr)) s Q.
Proof.
  intros Hs (Hp & Hstr & Hby & Hout) Hle HQ. assert (Hl : zlength (a ++ [0]) = zlength a + 1) by (by rewrite zlength_app).
  pose proof (zlength_nonneg t). pose proof (zlength_nonneg a).
  unfold push_string. wp_pure. apply wp_on_bytes. eapply wp_mono; [apply (strlen_wp _ p a); [lia|done]|].
  intros n m [-> ->]. rewrite with_vbytes_same. wp_pure. apply wp_on_bytes. eapply wp_mono; [apply (strlen_wp _ p a); [lia|done]|].
  intros n m [-> ->]. rewrite with_vbytes_same. wp_pure. simpl fst. rewrite <- Hl, <- sp_app, sp_range by (rewrite zlength_app; lia).
  rewrite sp_page. eapply copy_to_user_wp; [done|lia|lia| |apply Hstr|intros x Hx; apply Hout; lia|].
  { apply Forall_app. split; [done|]. by repeat constructor. }
  intros s' H1 H2. wp_pure. rewrite top_splice in H1 by lia. rewrite <- sp_page. by apply HQ.
Qed.

Lemma push_strings_wp argv args s l pr k (Q : Z * list Z → vm → Prop) : stack s l pr k [] → Forall2 (kernel_str s) argv args →
  zlength (strs args) <= PGSIZE →
  (∀ s', stack s' l pr k (strs args) → stored s l (pml4 pr) STACK_PAGE s' → Q (sp (strs args), arg_ptrs USER_STACK args) s') →
  wp (for_st (push_string junk) (rev argv) (USER_STACK, [])) s Q.
Proof.
  intros Hs Hk. revert Q. induction Hk as [|p a argv args Hp Hk IH]; intros Q Hle HQ.
  - simpl. wp_pure. pose proof (HQ s Hs (stored_refl _ _ _ _)) as Hq. change (sp (strs [])) with (USER_STACK - 0) in Hq. by rewrite Z.sub_0_r in Hq.
  - rewrite strs_cons, zlength_app in Hle. pose proof (zlength_nonneg (a ++ [0])). simpl rev. apply wp_for_app, IH; [lia|].
    intros s1 H1 H2. cbn [for_st]. wp_pure. rewrite zlength_app in Hle. change (zlength [0]) with 1 in Hle.
    eapply push_string_wp; [done|by eapply kernel_str_stored|lia|]. intros s2 H3 H4. wp_pure. apply HQ; [done|]. by eapply stored_trans.
Qed.

Lemma push_words_wp ws s l pr k t (Q : Z → vm → Prop) : stack s l pr k t → zlength t + 8 * zlength ws <= PGSIZE →
  (∀ s', stack s' l pr k (words64 ws ++ t) → stored s l (pml4 pr) STACK_PAGE s' → Q (sp (words64 ws ++ t)) s') →
  wp (for_st (push_word junk) (rev ws) (sp t)) s Q.
Proof.
  intros Hs. revert Q. induction ws as [|w ws IH]; intros Q Hle HQ.
  - simpl. wp_pure. apply HQ; [done|apply stored_refl].
  - rewrite zlength_cons in Hle. simpl rev. apply wp_for_app, IH; [lia|]. intros s1 H1 H2. cbn [for_st]. wp_pure.
    eapply push_word_wp; [done|rewrite zlength_app, words64_length; lia|]. intros s2 H3 H4. wp_pure. rewrite app_assoc in H3 |- *.
    apply HQ; [done|]. by eapply stored_trans.
Qed.

Lemma align_wp s l pr k t (Q : Z → vm → Prop) : stack s l pr k t → zlength t + 8 <= PGSIZE →
  (∀ s', stack s' l pr k (pad t) → stored s l (pml4 pr) STACK_PAGE s' → Q (sp (pad t)) s') →
  wp (loop 8 (align_step junk) (sp t)) s Q.
Proof.
  intros Hs Hle HQ. pose proof (zlength_nonneg t) as Hn. set (d := - zlength t mod 8) in *.
  assert (Hd : 0 <= d < 8) by (apply Z.mod_pos_bound; lia).
  apply (wp_loop (λ n rsp s', ∃ j, 0 <= j <= d ∧ Z.of_nat n = d - j ∧ rsp = sp (zeros j ++ t) ∧ stack s' l pr k (zeros j ++ t) ∧
     stored s l (pml4 pr) STACK_PAGE s') _ _ (Z.to_nat d)); [| |lia].
  - intros n rsp s1 (j & Hj & Hnj & -> & H1 & H2). unfold align_step.
    assert (Hz : zlength (zeros j ++ t) = j + zlength t) by (rewrite zlength_app, zeros_length by lia; lia).
    destruct (decide (j = d)) as [->|Hjd].
    + rewrite (proj2 (Z.eqb_eq _ 0)); [|unfold d, USER_STACK in *; rewrite Hz; zdiv]. simpl. wp_pure. by apply HQ.
    + rewrite (proj2 (Z.eqb_neq _ 0)); [|unfold d, USER_STACK in *; rewrite Hz; zdiv]. simpl. wp_pure.
      replace (sp (zeros j ++ t) - 1) with (sp ([0] ++ zeros j ++ t)) by (rewrite (sp_app [0]); done).
      rewrite sp_range by (rewrite zlength_app, Hz; change (zlength [0]) with 1; lia). rewrite sp_page, Hz. change (zlength [0]) with 1.
      eapply user_store_wp; [exact H1|unfold PGSIZE in *; lia|done|]. intros s2 H3 H4. wp_pure. exists (n - 1)%nat. split; [lia|].
      assert (Hzj : zeros (j + 1) = [0] ++ zeros j).
      { unfold zeros. replace (Z.to_nat (j + 1)) with (S (Z.to_nat j)) by lia. done. }
      exists (j + 1). split; [lia|]. split; [lia|]. rewrite Hzj, <- app_assoc. split_and!.
      * rewrite sp_page, Hz. done.
      * rewrite <- top_splice by (rewrite Hz; change (zlength [0]) with 1; lia). rewrite Hz. change (zlength [0]) with 1.
        assert (Hlen : length (top (zeros j ++ t)) = Z.to_nat PGSIZE).
        { pose proof (rs_len _ _ _ _ _ _ H1) as Hlen. unfold zlength in Hlen. lia. }
        change [0] with ([] ++ [0]). rewrite splice_snoc by (rewrite Hlen; simpl; unfold PGSIZE in *; lia). rewrite splice_nil. simpl.
        rewrite Nat.add_0_r. exact H3.
      * by eapply stored_trans.
  - exists 0. split; [lia|]. split; [lia|]. change (zeros 0 ++ t) with t. split; [done|]. split; [done|]. apply stored_refl.
Qed.

Lemma push_args_wp argv args s l pr k (Q : Z * Z * Z → vm → Prop) : stack s l pr k [] → Forall2 (kernel_str s) argv args →
  zlength (args_image args) <= PGSIZE →
  (∀ s', stack s' l pr k (args_image args) → stored s l (pml4 pr) STACK_PAGE s' →
     Q (sp (args_image args), zlength args, sp (args_image args) + 8) s') →
  wp (push_args junk USER_STACK argv) s Q.
Proof.
  intros Hs Hk Hle HQ. unfold args_image in *. set (t := strs args) in *. set (ps := arg_ptrs USER_STACK args) in *.
  assert (Hpad : zlength (pad t) = - zlength t mod 8 + zlength t).
  { unfold pad. rewrite zlength_app, zeros_length; [done|]. apply Z.mod_pos_bound. lia. }
  pose proof (Z.mod_pos_bound (- zlength t) 8 ltac:(lia)) as Hm. pose proof (zlength_nonneg t). pose proof (zlength_nonneg ps).
  rewrite zlength_app, words64_length, zlength_cons, zlength_app, Hpad in Hle. change (zlength [0]) with 1 in Hle.
  unfold push_args. wp_pure. eapply push_strings_wp; [done|done|fold t; lia|]. fold t ps. intros s1 H1 H2. wp_pure. simpl fst. simpl snd.
  eapply align_wp; [done|lia|]. intros s2 H3 H4. wp_pure. eapply push_word_wp; [done|lia|]. intros s3 H5 H6. wp_pure.
  eapply push_words_wp; [done| |].
  { rewrite zlength_app, Hpad. unfold zlength at 1. rewrite length_le_bytes. lia. }
  intros s4 H7 H8. wp_pure. eapply push_word_wp; [done| |].
  { rewrite !zlength_app, Hpad, words64_length. unfold zlength at 2. rewrite length_le_bytes. lia. }
  intros s5 H9 H10. wp_pure.
  assert (Him : le_bytes 8 0 ++ words64 ps ++ le_bytes 8 0 ++ pad t = words64 (0 :: ps ++ [0]) ++ pad t).
  { by rewrite words64_cons, words64_app, words64_one, <- !app_assoc. }
  rewrite Him in H9 |- *. assert (Hlen : zlength argv = zlength args).
  { unfold zlength. by rewrite (Forall2_length _ _ _ Hk). }
  rewrite Hlen, u64_small.
  - apply HQ; [done|]. eapply stored_trans; [done|]. eapply stored_trans; [done|]. eapply stored_trans; [done|].
    by eapply stored_trans.
  - rewrite zlength_app, words64_length, zlength_cons, zlength_app, Hpad. change (zlength [0]) with 1. unfold USER_STACK, PGSIZE in *. lia.
Qed.
End push.

(** ** The arguments of a program, as it finds them

    From the command line to argc and argv: parse_args cuts the line into words,
    and what load stores on the stack is what the program reads there. *)

(** ** The kernel's memory keeps its size *)

Definition keeps_mapped {A} (c : ST mem A) : Prop :=
  ∀ m a m', c m = Done (a, m') → ∀ x, is_Some (m !! x) → is_Some (m' !! x).

Section mapped.
Lemma kept_ret {A} (a : A) : keeps_mapped (mret a).
Proof. by intros m b m' [= <- <-]. Qed.
Lemma kept_bind {A B} (c : ST mem A) (f : A → ST mem B) :
  keeps_mapped c → (∀ a, keeps_mapped (f a)) → keeps_mapped (c ≫= f).
Proof.
  intros Hc Hf m b m' H x Hx. unfold mbind, st_bind in H. destruct (c m) as [[a m1]| | |] eqn:Hm; try done.
  by eapply Hf, Hc.
Qed.
Lemma kept_load p : keeps_mapped (load8 p).
Proof.
  intros m a m' H. unfold load8, get_st, mbind, st_bind, deref in H. destruct (m !! p); [|done]. by injection H as <- <-.
Qed.
Lemma kept_store p v : keeps_mapped (store8 p v).
Proof.
  intros m a m' H x Hx. unfold store8, get_st, mbind, st_bind, deref, modify in H. destruct (m !! p); [|done].
  injection H as <- <-. apply lookup_insert_is_Some. destruct (decide (p = x)); auto.
Qed.
Lemma kept_assert b : keeps_mapped (assert_st b).
Proof. intros m a m' H. destruct b; [|done]. by injection H as <- <-. Qed.
Lemma kept_undef {A} : keeps_mapped (undef : ST mem A).
Proof. by intros m a m' H. Qed.
Lemma kept_if {A} (b : bool) (c d : ST mem A) : keeps_mapped c → keeps_mapped d → keeps_mapped (if b then c else d).
Proof. by destruct b. Qed.
Lemma kept_loop {A B} n (body : A → ST mem (A + B)) a : (∀ a, keeps_mapped (body a)) → keeps_mapped (loop n body a).
Proof.
  intros Hb. revert a. induction n as [|n IH]; intros a; [by intros m b m' H|].
  cbn [loop]. apply kept_bind; [done|]. intros [a'|b]; [apply IH|apply kept_ret].
Qed.
Lemma kept_scan {A B} (body : A → ST mem (A + B)) a : (∀ a, keeps_mapped (body a)) → keeps_mapped (scan body a).
Proof. intros Hb m b m' H. by apply (kept_loop _ body a Hb) in H. Qed.
End mapped.

Create HintDb mapped.
#[export] Hint Resolve kept_ret kept_bind kept_load kept_store kept_assert kept_undef kept_if kept_scan : mapped.
#[export] Hint Extern 1 (keeps_mapped (let '(_, _) := ?r in _)) => destruct r : mapped.

Lemma strchr_kept p c : keeps_mapped (strchr p c).
Proof. unfold strchr, strchr_step, nonnull. auto 10 with mapped. Qed.
#[export] Hint Resolve strchr_kept : mapped.
Lemma strtok_r_kept s d save : keeps_mapped (strtok_r s d save).
Proof. unfold strtok_r, skip_step, token_step, nonnull. auto 20 with mapped. Qed.
#[export] Hint Resolve strtok_r_kept : mapped.
Lemma parse_path_kept p d n : keeps_mapped (parse_path p d n).
Proof. unfold parse_path. apply kept_bind; [auto with mapped|]. intros r. apply kept_scan. intros [[tok save] argv]. unfold parse_step. auto 10 with mapped. Qed.

(** ** The words of a line *)

Section words.
Implicit Types (ds cur s t : list Z).

Lemma strs_split l1 a l2 : strs (l1 ++ a :: l2) = strs l1 ++ (a ++ [0]) ++ strs l2.
Proof. unfold strs. by rewrite fmap_app, concat_app. Qed.
Lemma tokens_size ds cur s : zlength (strs (tokens ds cur s)) <= zlength cur + zlength s + 1 ∧ Forall (λ t, t ≠ []) (tokens ds cur s).
Proof.
  revert cur. induction s as [|c s IH]; intros cur; cbn [tokens]; pose proof (zlength_nonneg cur).
  - change (zlength []) with 0. destruct (decide (cur = [])); [split; [change (zlength (strs [])) with 0; lia|by apply Forall_nil]|].
    split; [|by repeat constructor]. unfold strs. simpl. rewrite app_nil_r, zlength_app. change (zlength [0]) with 1. lia.
  - rewrite zlength_cons. destruct (decide (c ∈ ds)); [destruct (decide (cur = []))|].
    + destruct (IH []) as [H1 H2]. split; [|done]. change (zlength []) with 0 in H1. lia.
    + destruct (IH []) as [H1 H2]. split; [|by constructor]. change (zlength []) with 0 in H1.
      rewrite strs_cons, !zlength_app. change (zlength [0]) with 1. lia.
    + destruct (IH (cur ++ [c])) as [H1 H2]. split; [|done]. rewrite zlength_app in H1. change (zlength [c]) with 1 in H1. lia.
Qed.
Lemma tokens_bytes ds cur s : Forall is_byte cur → Forall is_byte s → Forall (Forall is_byte) (tokens ds cur s).
Proof.
  intros Hc Hs. revert cur Hc. induction Hs as [|c s Hx _ IH]; intros cur Hc; cbn [tokens].
  - destruct (decide _); by repeat constructor.
  - destruct (decide _); [destruct (decide _); [by apply IH; constructor|constructor; [done|by apply IH; constructor]]|].
    apply IH, Forall_app. auto.
Qed.
Lemma strs_words (args : list (list Z)) : Forall (λ t, t ≠ []) args → 2 * zlength args <= zlength (strs args).
Proof.
  induction 1 as [|a args Ha _ IH]; [done|]. rewrite strs_cons, zlength_cons, !zlength_app. change (zlength [0]) with 1.
  destruct a as [|x a]; [done|]. rewrite zlength_cons. pose proof (zlength_nonneg a). lia.
Qed.
(** A command line fits into the stack's page, with its array. *)
Lemma args_fit ds s : zlength s < MAX_BUF → zlength (split_on ds s) < MAX_ARGS ∧ zlength (args_image (split_on ds s)) <= PGSIZE.
Proof.
  intros Hs. destruct (tokens_size ds [] s) as [H1 H2]. apply strs_words in H2. fold (split_on ds s) in *.
  change (zlength []) with 0 in H1. unfold MAX_BUF, MAX_ARGS in *. split; [lia|].
  unfold args_image, pad. pose proof (Z.mod_pos_bound (- zlength (strs (split_on ds s))) 8 ltac:(lia)).
  rewrite !zlength_app, words64_length, zlength_cons, zlength_app, arg_ptrs_length, zeros_length by lia.
  change (zlength [0]) with 1. unfold PGSIZE. lia.
Qed.
(** The pointers from the [n]th argument on. *)
Lemma arg_ptrs_app e l1 l2 : ∃ ws, arg_ptrs e (l1 ++ l2) = ws ++ arg_ptrs e l2 ∧ zlength ws = zlength l1.
Proof.
  induction l1 as [|a l1 (ws & Hws & Hl)]; [by exists []|]. rewrite <- app_comm_cons. cbn [arg_ptrs]. rewrite Hws.
  eexists (_ :: ws). split; [done|]. by rewrite !zlength_cons, Hl.
Qed.
End words.

(** ** What the program reads *)

(** The program [a] has the bytes [b] at [va]. *)
Definition user_has (s : vm) (a va : Z) (b : list Z) : Prop :=
  ∀ i, 0 <= i < zlength b → user_byte (vbytes s) a (va + i) = zlookup b i.

(** The registers and the stack of main (argc, argv), as the calling convention
    wants them: argv[i] is a string, argv[argc] is null, and the stack pointer, a
    multiple of 8, points to a return address. *)
Record main_args (s : vm) (a : Z) (args : list (list Z)) (rsp rdi rsi : Z) : Prop := {
  ma_argc : rdi = zlength args;
  ma_argv : rsi = rsp + 8;
  ma_align : rsp mod 8 = 0;
  ma_return : user_has s a rsp (le_bytes 8 0);
  ma_strings : ∀ i arg, zlookup args i = Some arg → ∃ q, user_has s a (rsi + 8 * i) (le_bytes 8 q) ∧
    rsp < q < USER_STACK ∧ user_has s a q (arg ++ [0]);
  ma_null : user_has s a (rsi + 8 * zlength args) (le_bytes 8 0);
}.

Section spec.
Implicit Types (s : vm) (l b : list Z) (pr : proc) (k : Z) (args : list (list Z)).

Lemma user_has_part s a va b1 b b2 v : user_has s a va (b1 ++ b ++ b2) → v = va + zlength b1 → user_has s a v b.
Proof.
  intros H -> i Hi. specialize (H (zlength b1 + i)). rewrite !zlength_app in H. pose proof (zlength_nonneg b1). pose proof (zlength_nonneg b2).
  rewrite zlookup_app_r, zlookup_app_l in H by lia. replace (va + zlength b1 + i) with (va + (zlength b1 + i)) by lia.
  rewrite H by lia. f_equal. lia.
Qed.
Lemma words64_split l1 w l2 : words64 (l1 ++ w :: l2) = words64 l1 ++ le_bytes 8 w ++ words64 l2.
Proof. by rewrite words64_app, words64_cons. Qed.

Lemma stack_has s l pr k t : resident s l pr STACK_PAGE k (top t) → zlength t <= PGSIZE →
  user_has s (pml4 pr) (USER_STACK - zlength t) t.
Proof.
  intros Hr Hle i Hi. pose proof (resident_sees _ _ _ _ _ _ Hr (PGSIZE - zlength t + i) ltac:(lia)) as Hs.
  replace (USER_STACK - zlength t + i) with (STACK_PAGE + (PGSIZE - zlength t + i)) by lia. rewrite Hs.
  unfold top. rewrite zlookup_app_r; rewrite ?zeros_length by lia; [f_equal; lia|lia].
Qed.

Lemma app_four {A} (a b c d : list A) : a ++ b ++ c ++ d = (a ++ b ++ c) ++ d.
Proof. by rewrite !app_assoc. Qed.
Lemma image_args s a args : zlength (args_image args) <= PGSIZE →
  user_has s a (USER_STACK - zlength (args_image args)) (args_image args) →
  let rsp := USER_STACK - zlength (args_image args) in main_args s a args rsp (zlength args) (rsp + 8).
Proof.
  intros Hle Hh rsp. set (n := - zlength (strs args) mod 8).
  assert (Hn : 0 <= n < 8) by (apply Z.mod_pos_bound; lia). pose proof (zlength_nonneg args).
  assert (Hlen : zlength (args_image args) = 8 * (zlength args + 2) + n + zlength (strs args)).
  { unfold args_image, pad. rewrite !zlength_app, words64_length, zlength_cons, zlength_app, arg_ptrs_length, zeros_length by (fold n; lia).
    change (zlength [0]) with 1. fold n. lia. }
  assert (Hw : ∀ l1 w l2, 0 :: arg_ptrs USER_STACK args ++ [0] = l1 ++ w :: l2 → user_has s a (rsp + 8 * zlength l1) (le_bytes 8 w)).
  { intros l1 w l2 He. unfold args_image in Hh. rewrite He, words64_split, <- !app_assoc in Hh.
    eapply user_has_part; [exact Hh|]. unfold rsp. rewrite words64_length. unfold args_image. by rewrite He, words64_split, <- !app_assoc. }
  split; try done.
  - unfold rsp. rewrite Hlen. unfold USER_STACK, n. zdiv.
  - pose proof (Hw [] 0 _ eq_refl) as H0. change (zlength []) with 0 in H0. by rewrite Z.mul_0_r, Z.add_0_r in H0.
  - intros i arg Hi. apply zlookup_Some_range in Hi as Hr. rewrite zlookup_nat in Hi by lia.
    destruct (list_elem_of_split_length _ _ _ Hi) as (l1 & l2 & -> & Hl1). 
    destruct (arg_ptrs_app USER_STACK l1 (arg :: l2)) as (ws & Hws & Hwl). cbn [arg_ptrs] in Hws.
    exists (USER_STACK - zlength (strs (arg :: l2))). rewrite strs_split, (zlength_app (strs l1)) in Hlen. change ((arg ++ [0]) ++ strs l2) with (strs (arg :: l2)) in Hlen.
    pose proof (zlength_nonneg (strs l1)). assert (Hpos : 0 < zlength (strs (arg :: l2))).
    { rewrite strs_cons, !zlength_app. change (zlength [0]) with 1. pose proof (zlength_nonneg arg). pose proof (zlength_nonneg (strs l2)). lia. }
    split; [|split].
    + replace (rsp + 8 + 8 * i) with (rsp + 8 * zlength (0 :: ws)) by (rewrite zlength_cons, Hwl; unfold zlength; lia).
      eapply Hw. rewrite Hws, <- app_assoc. done.
    + unfold rsp. lia.
    + assert (Him : ∃ w, args_image (l1 ++ arg :: l2) = w ++ (arg ++ [0]) ++ strs l2).
      { unfold args_image, pad. rewrite strs_split. eexists. apply app_four. }
      destruct Him as [w Him]. rewrite Him in Hh. eapply user_has_part; [exact Hh|].
      change ((arg ++ [0]) ++ strs l2) with (strs (arg :: l2)). rewrite zlength_app. lia.
  - pose proof (Hw (0 :: arg_ptrs USER_STACK args) 0 [] eq_refl) as H0. rewrite zlength_cons, arg_ptrs_length in H0.
    replace (rsp + 8 + 8 * zlength args) with (rsp + 8 * (1 + zlength args)) by lia. exact H0.
Qed.
End spec.

(** ** The command line *)

Section line.
Implicit Types (s : vm) (l cmd : list Z) (pr : proc) (k p b : Z).

Lemma Forall2_with {A B} (R : A → B → Prop) (P : B → Prop) xs ys : Forall2 R xs ys → Forall P ys → Forall2 (λ x y, R x y ∧ P y) xs ys.
Proof. induction 1; intros Hp; inversion Hp; subst; constructor; auto. Qed.
(** A line in the kernel's memory, of at most 127 bytes, and the literal " ". *)
Record command_line (s : vm) (l : list Z) (p space : Z) (cmd : list Z) : Prop := {
  cm_null : 0 < p ∧ 0 < space;
  cm_line : str_at (vbytes s) p cmd;
  cm_space : str_at (vbytes s) space [32];
  cm_bytes : Forall is_byte cmd;
  cm_size : zlength cmd < MAX_BUF;
  cm_apart : space + 1 < p ∨ p + zlength cmd <= space;
  cm_kernel : ∀ x, p <= x <= p + zlength cmd → kernel_byte (v_mmu s) l x;
}.

(** What parse_args leaves: the words are strings, in place, and nothing but bytes
    of the kernel has changed. *)
Lemma parse_args_wp s l p space cmd (Q : list Z → vm → Prop) : command_line s l p space cmd →
  (∀ argv m, Forall2 (λ q t, kernel_str (with_vbytes m s) q t ∧ p <= q ∧ q + zlength t <= p + zlength cmd) argv (split_on [32] cmd) →
     (∀ x, ¬ kernel_byte (v_mmu s) l x → m !! x = vbytes s !! x) → (∀ x, is_Some (vbytes s !! x) → is_Some (m !! x)) → Q argv (with_vbytes m s)) →
  wp (on_bytes (parse_args space p)) s Q.
Proof.
  intros [[Hp Hsp] Hl Hs Hb Hz Hap Hk] HQ. apply wp_on_bytes. destruct (args_fit [32] cmd Hz) as [Hn _].
  destruct (wp_run _ _ _ (parse_wp (vbytes s) p space MAX_ARGS cmd [32] Hp Hsp Hl Hs Hb ltac:(by repeat constructor) Hap Hn))
    as (argv & m & Hrun & Hpa & Hfr).
  pose proof (parse_path_kept p space MAX_ARGS (vbytes s) argv m Hrun) as Hdom.
  eapply wp_eq; [exact Hrun|]. apply HQ; [| |done].
  - pose proof (tokens_bytes [32] [] cmd ltac:(by constructor) Hb) as Hbt. fold (split_on [32] cmd) in Hbt.
    eapply Forall2_impl; [exact (Forall2_with _ _ _ _ Hpa Hbt)|]. intros q t ((Hstr & Hlo & Hhi) & Ht). split; [|done].
    split; [lia|]. split; [done|]. split; [done|]. intros x Hx. apply Hk. lia.
  - intros x Hx. apply Hfr. destruct (decide (p <= x <= p + zlength cmd)); [|lia]. by destruct Hx; apply Hk.
Qed.
End line.
