(* ===== verification/ExecLoad.v ===== *)
(** * Loading an executable

    What load makes of a file: its segments become pages that are brought in on
    their first fault, with the bytes of the file. *)
From stdpp Require Import base numbers list gmap.
From Stdlib Require Import ZArith Lia.
From S2P Require Import Prelude Bytes Fat Volume Inode InodeData InodeGrow File Directory CString Filesys Bitmap Hash Palloc PallocInit Words Mmu MmuInv MmuWalk MmuSpec AddressSpace Isolation PageTables UserMem Vm VmSpt VmSwap VmFrame VmSpec Access Resident Exec ExecArgs.
Open Scope Z_scope.

(** ** The file *)

(** The open file [file] has the contents [c], and is at the position [pos]. *)
Record file_is (kk : kfs) (file : Z) (c : list Z) (pos : Z) : Prop := {
  fi_open : ∃ fl i cl, files kk !! file = Some fl ∧ f_pos fl = pos ∧ f_inode fl ≠ 0 ∧ inodes (k_fs kk) !! f_inode fl = Some i ∧
    file_on (fs_vol (k_fs kk)) (i_data i) cl ∧ c = file_content (fs_vol (k_fs kk)) (i_data i) cl;
  fi_mem : v_mem (fs_vol (k_fs kk)) = [];
  fi_bytes : Forall is_byte c;
  fi_pos : 0 <= pos;
  fi_next : 0 < k_next kk ∧ ∀ p, is_Some (files kk !! p) → 0 < p < k_next kk;
}.
(** Open files stay open, with the contents they have. *)
Record files_stay (kk kk' : kfs) : Prop := {
  fs_same : same_data (fs_vol (k_fs kk)) (fs_vol (k_fs kk'));
  fs_files : ∀ p f, files kk !! p = Some f → ∃ f', files kk' !! p = Some f' ∧ f_inode f' = f_inode f;
  fs_inodes : ∀ q i, inodes (k_fs kk) !! q = Some i → ∃ i', inodes (k_fs kk') !! q = Some i' ∧ i_data i' = i_data i;
}.

Section file.
Implicit Types (kk : kfs) (c l : list Z) (file pos n : Z).

Lemma same_content v v' data l : same_data v v' → file_content v' data l = file_content v data l.
Proof. intros Hs. unfold file_content. by rewrite (same_file_bytes v v' l Hs). Qed.
Lemma files_stay_refl kk : files_stay kk kk.
Proof. split; [done|eauto..]. Qed.
Lemma files_stay_trans k1 k2 k3 : files_stay k1 k2 → files_stay k2 k3 → files_stay k1 k3.
Proof.
  intros [Hs1 H2 H3] [Hs2 H5 H6]. split.
  - unfold same_data in *. intuition congruence.
  - intros p f Hf. destruct (H2 p f Hf) as (f' & Hf' & ?). destruct (H5 p f' Hf') as (f'' & ? & ?). exists f''. split; [done|congruence].
  - intros q i Hi. destruct (H3 q i Hi) as (i' & Hi' & ?). destruct (H6 q i' Hi') as (i'' & ? & ?). exists i''. split; [done|congruence].
Qed.
Lemma range_stays kk kk' file ofs l : files_stay kk kk' → file_range kk file ofs l → file_range kk' file ofs l.
Proof.
  intros [Hs Hf Hin] (fl & i & cl & Hfl & Hi0 & Hi & Hon & Hm & Hofs & Hl & Hby).
  destruct (Hf _ _ Hfl) as (fl' & Hfl' & Heq). destruct (Hin _ _ Hi) as (i' & Hi' & Hd).
  exists fl', i', cl. rewrite Heq, Hd. split_and!; try done.
  - by apply (same_file_on (fs_vol (k_fs kk))).
  - destruct Hs as (_ & -> & _). done.
  - by rewrite (same_content _ _ _ _ Hs).
Qed.
Lemma page_bytes_stay kk kk' file ofs size zero l : files_stay kk kk' → file_page_bytes kk file ofs size zero l → file_page_bytes kk' file ofs size zero l.
Proof. intros Hs (l1 & ? & ? & ? & ? & Hr). exists l1. split_and!; try done. by eapply range_stays. Qed.

Lemma file_content_length kk file c pos : file_is kk file c pos → ∃ fl i, files kk !! file = Some fl ∧ f_pos fl = pos ∧
  f_inode fl ≠ 0 ∧ inodes (k_fs kk) !! f_inode fl = Some i ∧ zlength c = id_length (i_data i) ∧ 0 <= zlength c < 2 ^ 31.
Proof.
  intros [(fl & i & cl & Hfl & Hpos & Hi0 & Hi & Hon & ->) _ _ _ _]. exists fl, i. pose proof (fo_length _ _ _ Hon) as Hlen.
  assert (Hz : zlength (file_content (fs_vol (k_fs kk)) (i_data i) cl) = id_length (i_data i)).
  { unfold file_content, zlength. rewrite length_take.
    assert (Hb : length (file_bytes (fs_vol (k_fs kk)) cl) = (512 * length cl)%nat) by (by apply length_file_bytes with (data := i_data i)).
    rewrite Hb. unfold zlength in Hlen. lia. }
  pose proof (fo_off _ _ _ Hon). split_and!; try done; lia.
Qed.
Lemma file_length_is_wp kk file c pos (Q : Z → kfs → Prop) : file_is kk file c pos → Q (zlength c) kk → wp (file_length file) kk Q.
Proof.
  intros Hf HQ. destruct (file_content_length _ _ _ _ Hf) as (fl & i & Hfl & _ & _ & Hi & Hlen & _).
  destruct (proj2 (fi_next _ _ _ _ Hf) file) as [Hp _]; [by eexists|].
  unfold file_length, on_fs, get_inode. rewrite (proj2 (Z.eqb_neq file 0)) by lia. wp_pure. wp_step; [done|]. wp_pure.
  apply (wp_head_of _ _ fl); [done|]. wp_pure. wp_step; [exact Hi|]. wp_pure. unfold inode_length. rewrite <- Hlen. by destruct kk as [[] ? ? ?].
Qed.

(** Another position, after the volume's counters have changed. *)
Lemma file_is_moved kk file c pos n fs fl : file_is kk file c pos → files kk !! file = Some fl → 0 <= n →
  same_data (fs_vol (k_fs kk)) (fs_vol fs) → inodes fs = inodes (k_fs kk) →
  let kk' := Kfs fs (<[file := set_pos n fl]> (files kk)) (dirs kk) (k_next kk) in files_stay kk kk' ∧ file_is kk' file c n.
Proof.
  intros [(fl' & i & cl & Hfl & Hpos & Hi0 & Hi & Hon & ->) Hm Hby _ [Hn Hlt]] Hfl' Hn0 Hs Hin kk'.
  assert (fl' = fl) as -> by congruence. split; [split; [done| |simpl; rewrite Hin; eauto]|split; try done].
  - intros p f Hf. simpl. destruct (decide (p = file)) as [->|Hne].
    + exists (set_pos n fl). rewrite lookup_insert_eq. by assert (f = fl) as -> by congruence.
    + exists f. by rewrite lookup_insert_ne.
  - exists (set_pos n fl), i, cl. simpl. rewrite lookup_insert_eq, Hin, (same_content _ _ _ _ Hs). split_and!; try done.
    by apply (same_file_on (fs_vol (k_fs kk))).
  - destruct Hs as (_ & Hs & _). simpl. by rewrite Hs.
  - split; [done|]. intros p. simpl. rewrite lookup_insert_is_Some. intros [<-|[_ Hp]]; [|by apply Hlt]. apply Hlt. by exists fl.
Qed.
Lemma file_seek_is_wp kk file c pos n (Q : unit → kfs → Prop) : file_is kk file c pos → 0 <= n →
  (∀ kk', files_stay kk kk' → file_is kk' file c n → Q tt kk') → wp (file_seek file n) kk Q.
Proof.
  intros Hf Hn HQ. pose proof Hf as [(fl & i & cl & Hfl & _) _ _ _ [_ Hlt]]. destruct (Hlt file) as [Hp _]; [by exists fl|].
  unfold file_seek. rewrite (proj2 (Z.eqb_neq file 0)) by lia. wp_pure. wp_step; [done|]. wp_pure. wp_step; [by apply Z.leb_le|]. wp_pure.
  apply (wp_put_pos _ _ fl); [done|]. destruct (file_is_moved kk file c pos n (k_fs kk) fl) as [H1 H2]; try done. by apply HQ.
Qed.
Lemma file_read_is_wp kk file c pos n (Q : list Z → kfs → Prop) : file_is kk file c pos → 0 <= n → pos <= zlength c →
  (∀ kk', files_stay kk kk' → let r := take (Z.to_nat n) (drop (Z.to_nat pos) c) in file_is kk' file c (pos + zlength r) → Q r kk') →
  wp (file_read file n) kk Q.
Proof.
  intros Hf Hn Hpos HQ. destruct (file_content_length _ _ _ _ Hf) as (_ & _ & _ & _ & _ & _ & _ & Hlen).
  pose proof Hf as [(fl & i & cl & Hfl & Hp & Hi0 & Hi & Hon & Hc) Hm _ Hp0 _].
  unfold file_read. wp_pure. apply (wp_head_of _ _ fl); [done|]. wp_pure. simpl fst. simpl snd. rewrite Hp. unfold on_fs. wp_pure.
  eapply wp_mono; [by apply (inode_read_at_wp _ _ i cl)|]. intros r fs (v' & Hs & -> & ->). rewrite <- Hc.
  set (r := take (Z.to_nat n) (drop (Z.to_nat pos) c)).
  assert (Hr : 0 <= zlength r ∧ pos + zlength r <= zlength c).
  { unfold r, zlength in *. rewrite length_take, length_drop. lia. }
  wp_pure. apply wp_int_ok; [lia|]. wp_pure. apply (wp_put_pos _ _ fl); [done|].
  destruct (file_is_moved kk file c pos (pos + zlength r) (Fsys v' (inodes (k_fs kk)) (open_inodes (k_fs kk)) (next_ptr (k_fs kk))) fl)
    as [H1 H2]; try done; [lia|]. by apply HQ.
Qed.
Lemma file_reopen_is_wp kk file c pos (Q : Z → kfs → Prop) : file_is kk file c pos →
  (∀ f kk', f ≠ 0 → files_stay kk kk' → file_is kk' file c pos → file_is kk' f c 0 → Q f kk') → wp (file_reopen file) kk Q.
Proof.
  intros [(fl & i & cl & Hfl & Hp & Hi0 & Hi & Hon & Hc) Hm Hby Hp0 [Hn Hlt]] HQ.
  unfold file_reopen. wp_pure. apply (wp_head_of _ _ fl); [done|]. wp_pure. simpl fst. unfold on_fs, inode_reopen, get_inode, put_inode.
  rewrite (proj2 (Z.eqb_neq _ _) Hi0). wp_pure. wp_step; [done|]. wp_pure. unfold file_open, on_fs, on_vol. wp_pure.
  unfold malloc at 1. unfold wp at 1. simpl. rewrite Hm. rewrite (proj2 (Z.eqb_neq _ _) Hi0). simpl. wp_pure.
  simpl. assert (Hnf : files kk !! k_next kk = None).
  { destruct (files kk !! k_next kk) as [g|] eqn:Hg; [|done]. destruct (Hlt (k_next kk)); [by exists g|lia]. }
  assert (Hnp : k_next kk ≠ file) by congruence.
  set (i' := set_open_cnt (open_cnt i + 1) i).
  assert (Hin : <[f_inode fl := i']> (inodes (k_fs kk)) !! f_inode fl = Some i') by apply lookup_insert_eq.
  assert (Hnext : ∀ p, is_Some (<[k_next kk := File (f_inode fl) 0 false 1]> (files kk) !! p) → 0 < p < k_next kk + 1).
  { intros p. rewrite lookup_insert_is_Some. intros [<-|[_ Hp']]; [lia|]. specialize (Hlt p Hp'). lia. }
  apply HQ; [lia| | |].
  - split; [done| |].
    + intros p f Hf. exists f. simpl. rewrite lookup_insert_ne; [done|]. intros <-. congruence.
    + intros q j Hj. simpl. destruct (decide (q = f_inode fl)) as [->|Hne].
      * exists i'. split; [done|]. by assert (j = i) as -> by congruence.
      * exists j. by rewrite lookup_insert_ne.
  - split; [|done|done|done|split; [simpl; lia|done]]. exists fl, i', cl. simpl. by rewrite lookup_insert_ne.
  - split; [|done|done|done|split; [simpl; lia|done]]. exists (File (f_inode fl) 0 false 1), i', cl. simpl. by rewrite lookup_insert_eq.
Qed.
End file.

(** ** Pages that wait for their first fault *)

(** The current process has a page at [v], writable or not, that has no frame yet
    and will have the contents [c]. *)
Definition lazy_page (s : vm) (v : Z) (w : bool) (c : list Z) : Prop :=
  ∃ p x, maps s (cur s) v p ∧ objs s !! p = Some (OPage x) ∧ frame_of x = 0 ∧ writable x = w ∧ backing s x c.

(** The address of a page, its right to write, and its contents. *)
Abbreviation page_spec := (Z * bool * list Z)%type.

(** The current process has the page table [a], and the pages [ps] and no others;
    it is loaded from [file], which has the contents [c]. *)
Record image (l : list Z) (a file : Z) (c : list Z) (ps : list page_spec) (s : vm) : Prop := {
  im_tables : wf_tables s;
  im_proc : ∃ pr, procs s !! cur s = Some pr ∧ pml4 pr = a ∧ zlength (elems (spt pr)) <= zlength ps;
  im_malloc : malloc_ok s = [];
  im_file : ∃ pos, file_is (v_k s) file c pos;
  im_pages : ∀ v w b, (v, w, b) ∈ ps → lazy_page s v w b;
  im_only : ∀ v q, maps s (cur s) v q → v ∈ ps.*1.*1;
}.

Section pages.
Implicit Types (s : vm) (l c b : list Z) (v p aux : Z) (w : bool) (ps : list page_spec).

(** What a page's contents depend on. *)
Record sources_stay (s s' : vm) : Prop := {
  ss_files : files_stay (v_k s) (v_k s');
  ss_info : ∀ q i, objs s !! q = Some (OInfo i) → objs s' !! q = Some (OInfo i);
  ss_mmap : ∀ q i, objs s !! q = Some (OMmap i) → objs s' !! q = Some (OMmap i);
  ss_swap : swap_table s' = swap_table s ∧ swap_disk s' = swap_disk s;
}.
Lemma backing_stays s s' x b : sources_stay s s' → backing s x b → backing s' x b.
Proof.
  intros [Hf Hi Hm [Ht Hd]]. destruct 1 as [v fr w type aux H1 H2|v fr w type aux i c H1 H2 Ha Hc|v fr w type aux mi i c H1 Ha Hii Hc|v fr w fd c Hc|v fr w idx c [W1 W2] Hidx Hs Hc].
  - by apply back_zero.
  - apply (back_segment _ _ _ _ _ _ i); [done|done|by apply Hi|by eapply page_bytes_stay].
  - apply (back_mapping _ _ _ _ _ _ mi i); [done|by apply Hm|by apply Hi|by eapply page_bytes_stay].
  - apply back_file. by eapply page_bytes_stay.
  - apply back_swap; [by split; rewrite ?Ht, ?Hd|by rewrite Ht|by rewrite Hd|done].
Qed.
(** The page itself stays, too. *)
Lemma lazy_stays s s' v w b : cur s' = cur s → sources_stay s s' →
  (∀ p, maps s (cur s) v p → maps s' (cur s) v p ∧ ∀ x, objs s !! p = Some (OPage x) → objs s' !! p = Some (OPage x)) →
  lazy_page s v w b → lazy_page s' v w b.
Proof.
  intros Hc Hss Hp (p & x & Hm & Hx & Hf & Hw & Hb). destruct (Hp p Hm) as [Hm' Hx']. exists p, x. rewrite Hc.
  split_and!; try done; [by apply Hx'|by eapply backing_stays].
Qed.

(** Another page is entered. *)
Lemma image_page l a file c ps s v w type init aux ini b (Q : bool → vm → Prop) :
  image l a file c ps s → v mod PGSIZE = 0 → v ∉ ps.*1.*1 → initializer_of type = Some ini → VM_TYPE type ≠ VM_UNINIT →
  zlength ps + 2 < 2 ^ 62 → backing s (Page uninit_ops v 0 w (Uninit init type aux ini)) b →
  (∀ s', image l a file c (ps ++ [(v, w, b)]) s' → v_mmu s' = v_mmu s → v_k s' = v_k s → cur s' = cur s →
     allocated s v (next_obj s) (Page uninit_ops v 0 w (Uninit init type aux ini)) s' → Q true s') →
  wp (vm_alloc_page_with_initializer type v w init aux) s Q.
Proof.
  intros [Ht (pr & Hpr & Hpa & Hel) Hm (pos & Hfile) Hpages Honly] Hal Hv Hini Hty Hroom Hb HQ.
  assert (Hno : ∀ q, ¬ maps s (cur s) v q) by (intros q Hq; by apply Hv, (Honly v q)).
  eapply wp_mono; [apply (vm_alloc_wp s pr type v w init aux ini); try done; lia|].
  intros r s' [(_ & _ & q & Hq)|(-> & _ & Hall)]; [by destruct (Hno q)|].
  destruct (al_rest _ _ _ _ _ Hall) as (Hmm & Hk & Hmal & _ & _ & Hst & Hsd & Hcur).
  assert (Hss : sources_stay s s').
  { split; [rewrite Hk; apply files_stay_refl|intros q i; apply Hall|intros q i; apply Hall|done]. }
  apply HQ; [|done..]. split.
  - apply Hall.
  - destruct (al_procs _ _ _ _ _ Hall _ _ Hpr) as (h & Hpr' & Hh). rewrite Hcur. eexists. split; [exact Hpr'|]. split; [done|].
    simpl. rewrite zlength_app. change (zlength [(v, w, b)]) with 1. lia.
  - by rewrite Hmal.
  - exists pos. by rewrite Hk.
  - intros v' w' b' [Hin|Hin%list_elem_of_singleton]%elem_of_app.
    + apply (lazy_stays s); [done|done| |by apply Hpages]. intros p Hmp. split; [apply Hall; by left|]. intros x. by apply Hall.
    + injection Hin as -> -> ->. exists (next_obj s), (Page uninit_ops v 0 w (Uninit init type aux ini)). rewrite Hcur.
      split; [apply Hall; by right|]. split; [apply Hall|]. split; [done|]. split; [done|]. by apply (backing_stays s).
  - intros v' q Hq. rewrite !fmap_app. apply elem_of_app. rewrite Hcur in Hq.
    apply Hall in Hq as [Hq|(_ & -> & _)]; [left; by apply (Honly v' q)|right; by left].
Qed.

(** The object that says where a page's bytes are. *)
Lemma image_info l a file c ps s i pos kk : image l a file c ps s → files_stay (v_k s) kk → file_is kk file c pos →
  let s' := with_k kk (grown_objs s (<[next_obj s := OInfo i]> (objs s)) (next_obj s + 1)) in
  image l a file c ps s' ∧ objs s' !! next_obj s = Some (OInfo i).
Proof.
  intros [Ht Hpr Hm _ Hpages Honly] Hst Hfile s'. pose proof (fresh_obj s (wt_objs _ Ht)) as Hf.
  set (s1 := grown_objs s (<[next_obj s := OInfo i]> (objs s)) (next_obj s + 1)) in *.
  assert (Hold : ∀ q y, objs s !! q = Some y → objs s' !! q = Some y) by (intros q y Hq; simpl; rewrite lookup_insert_ne by congruence; done).
  assert (Hmaps : ∀ t v p, maps s' t v p ↔ maps s t v p) by (intros t v p; apply (add_obj_maps s (OInfo i)); done).
  split; [|simpl; apply lookup_insert_eq]. split.
  - apply (same_shape_wf s1); [by apply add_obj_wf|]. split; [done|apply (wt_objs _ (add_obj_wf s (OInfo i) Ht))|done|eauto].
  - exact Hpr.
  - exact Hm.
  - by exists pos.
  - intros v w b Hin. apply (lazy_stays s); [done| | |by apply Hpages].
    + split; [done|intros q j; apply Hold|intros q j; apply Hold|done].
    + intros p Hp. split; [by apply Hmaps|intros x; apply Hold].
  - intros v q Hq. apply Hmaps in Hq. by apply (Honly v q).
Qed.
End pages.

(** ** Segments *)

(** A segment in memory: its bytes of the file, and zeros. *)
Definition seg_mem (c : list Z) (g : segment) : list Z :=
  take (Z.to_nat (sg_read g)) (drop (Z.to_nat (sg_ofs g)) c) ++ zeros (sg_zero g).
(** The first [n] pages of the memory [m] at [v]. *)
Fixpoint pages_of (n : nat) (v : Z) (w : bool) (m : list Z) : list page_spec :=
  match n with
  | O => []
  | S n => (v, w, take (Z.to_nat PGSIZE) m) :: pages_of n (v + PGSIZE) w (drop (Z.to_nat PGSIZE) m)
  end.
Definition seg_count (g : segment) : nat := Z.to_nat ((sg_read g + sg_zero g) / PGSIZE).
Definition seg_pages (c : list Z) (g : segment) : list page_spec :=
  pages_of (seg_count g) (sg_upage g) (sg_writable g) (seg_mem c g).

(** The file has the bytes, and the segment is made of whole pages of the user. *)
Record seg_ok (c : list Z) (g : segment) : Prop := {
  so_ofs : 0 <= sg_ofs g ∧ sg_ofs g + sg_read g <= zlength c ∧ sg_ofs g mod PGSIZE = 0;
  so_size : 0 <= sg_read g ∧ 0 <= sg_zero g ∧ sg_read g + sg_zero g < 2 ^ 32 ∧ (sg_read g + sg_zero g) mod PGSIZE = 0;
  so_page : sg_upage g mod PGSIZE = 0 ∧ 0 <= sg_upage g ∧ sg_upage g + (sg_read g + sg_zero g) <= KERN_BASE;
}.

Section segment.
Implicit Types (s : vm) (l c b : list Z) (v p aux ofs read zero : Z) (w : bool) (ps : list page_spec).

(** One page of the loop: what it reads, and what is left. *)
Lemma segment_page c ofs read zero : 0 <= ofs → 0 <= read → 0 <= zero → ofs + read <= zlength c → PGSIZE <= read + zero →
  let m := take (Z.to_nat read) (drop (Z.to_nat ofs) c) ++ zeros zero in
  let rd := if read <? PGSIZE then read else PGSIZE in
  take (Z.to_nat PGSIZE) m = take (Z.to_nat rd) (drop (Z.to_nat ofs) c) ++ zeros (PGSIZE - rd) ∧
  drop (Z.to_nat PGSIZE) m = take (Z.to_nat (read - rd)) (drop (Z.to_nat (ofs + rd)) c) ++ zeros (zero - (PGSIZE - rd)).
Proof.
  intros Ho Hr Hz Hle Hp m rd. unfold zlength in Hle. assert (Hpos : 0 < PGSIZE) by done.
  assert (Hlen : length (take (Z.to_nat read) (drop (Z.to_nat ofs) c)) = Z.to_nat read) by (rewrite length_take, length_drop; lia).
  unfold m, rd. destruct (Z.ltb_spec read PGSIZE) as [Hlt|Hge].
  - assert (Hzz : zeros zero = zeros (PGSIZE - read) ++ zeros (zero - (PGSIZE - read))).
    { unfold zeros. rewrite <- replicate_add. f_equal. lia. }
    assert (Hzl : length (zeros (PGSIZE - read)) = Z.to_nat (PGSIZE - read)) by (unfold zeros; by rewrite length_replicate).
    rewrite Hzz, app_assoc. assert (Hl2 : length (take (Z.to_nat read) (drop (Z.to_nat ofs) c) ++ zeros (PGSIZE - read)) = Z.to_nat PGSIZE).
    { rewrite length_app. lia. }
    rewrite take_app_length' by done. rewrite drop_app_length' by done. split; [done|]. by rewrite Z.sub_diag.
  - rewrite take_app_le, drop_app_le by lia. rewrite take_take, Nat.min_l by lia. split.
    + rewrite Z.sub_diag. by rewrite app_nil_r.
    + rewrite Z.sub_diag, Z.sub_0_r. f_equal. rewrite skipn_firstn_comm, drop_drop. f_equal; [lia|]. f_equal. lia.
Qed.

Lemma segment_step_wp l a file c w ofs v read zero ps s (Q : Z * Z * Z * Z + bool → vm → Prop) :
  image l a file c ps s → 0 <= ofs → 0 <= read → 0 <= zero → ofs + read <= zlength c → PGSIZE <= read + zero < 2 ^ 32 →
  v mod PGSIZE = 0 → 0 <= v → v + PGSIZE <= KERN_BASE → v ∉ ps.*1.*1 → zlength ps + 2 < 2 ^ 62 →
  let m := take (Z.to_nat read) (drop (Z.to_nat ofs) c) ++ zeros zero in
  let rd := if read <? PGSIZE then read else PGSIZE in
  (∀ s', image l a file c (ps ++ [(v, w, take (Z.to_nat PGSIZE) m)]) s' → v_mmu s' = v_mmu s → cur s' = cur s → files_stay (v_k s) (v_k s') →
     Q (inl (ofs + rd, v + PGSIZE, read - rd, zero - (PGSIZE - rd))) s') →
  wp (segment_step file w (ofs, v, read, zero)) s Q.
Proof.
  intros Him Ho Hr Hz Hle [Hge Hmax] Hal Hv Hend Hvn Hroom m rd HQ. unfold segment_step. cbv zeta. fold rd.
  assert ((0 <? read) || (0 <? zero) = true) as ->.
  { destruct (Z.ltb_spec 0 read) as [|Hr0]; [done|]. apply Z.ltb_lt. unfold PGSIZE in *. lia. }
  destruct (segment_page c ofs read zero Ho Hr Hz Hle Hge) as [Htake _]. fold m rd in Htake.
  assert (Hrd : 0 <= rd <= read ∧ rd <= PGSIZE ∧ PGSIZE - rd <= zero) by (unfold rd; destruct (Z.ltb_spec read PGSIZE); unfold PGSIZE in *; lia).
  pose proof (wt_objs _ (im_tables _ _ _ _ _ _ Him)) as [Hnx _]. destruct (im_file _ _ _ _ _ _ Him) as [pos Hf].
  destruct (file_content_length _ _ _ _ Hf) as (_ & _ & _ & _ & _ & _ & _ & Hlen). simpl negb. cbv iota. wp_pure.
  apply wp_new_obj; [apply Him|]. rewrite (proj2 (Z.eqb_neq (next_obj s) 0)) by lia. wp_pure. unfold on_k. wp_pure.
  eapply file_reopen_is_wp; [exact Hf|]. intros f kk Hf0 Hst Hf1 Hf2. wp_pure.
  apply wp_set_obj; [simpl; rewrite lookup_insert_eq; by eexists|]. wp_pure. simpl. rewrite insert_insert_eq.
  set (i := Info f ofs rd (PGSIZE - rd)). destruct (image_info l a file c ps s i pos kk Him Hst Hf1) as [Him1 Hi1].
  change (with_objs ?o (with_k kk (grown_objs s _ ?n))) with (with_k kk (grown_objs s o n)).
  eapply (image_page l a file c ps (with_k kk (grown_objs s (<[next_obj s := OInfo i]> (objs s)) (next_obj s + 1))));
    [exact Him1|done|exact Hvn|done|done|lia| |].
  - apply (back_segment _ _ _ _ _ _ i); [done|done|exact Hi1|]. simpl.
    exists (take (Z.to_nat rd) (drop (Z.to_nat ofs) c)). unfold zlength in *.
    assert (Hll : length (take (Z.to_nat rd) (drop (Z.to_nat ofs) c)) = Z.to_nat rd) by (rewrite length_take, length_drop; lia).
    split; [exact Htake|]. rewrite Hll. split; [lia|]. split; [lia|]. split; [lia|].
    destruct Hf2 as [(fl & j & cl & Hfl & _ & Hi0 & Hi & Hon & Hc) Hm Hby _ _]. exists fl, j, cl. rewrite Hll, <- Hc. split_and!; try done.
    by apply Forall_take, Forall_drop.
  - intros s' Him' Hmm Hk Hcur _. simpl. wp_pure. unfold KERN_BASE, PGSIZE in *. rewrite s32_small, u64_small, u32_small by lia.
    apply HQ; [done|done|done|]. by rewrite Hk.
Qed.

Lemma segment_loop_wp l a file c w n : ∀ ofs v read zero ps s (Q : bool → vm → Prop),
  image l a file c ps s → 0 <= ofs → 0 <= read → 0 <= zero → ofs + read <= zlength c → read + zero = Z.of_nat n * PGSIZE →
  read + zero < 2 ^ 32 → v mod PGSIZE = 0 → 0 <= v → v + (read + zero) <= KERN_BASE →
  let m := take (Z.to_nat read) (drop (Z.to_nat ofs) c) ++ zeros zero in
  NoDup (ps ++ pages_of n v w m).*1.*1 → zlength ps + Z.of_nat n + 2 < 2 ^ 62 →
  (∀ s', image l a file c (ps ++ pages_of n v w m) s' → v_mmu s' = v_mmu s → cur s' = cur s → files_stay (v_k s) (v_k s') → Q true s') →
  wp (loop (S n) (segment_step file w) (ofs, v, read, zero)) s Q.
Proof.
  induction n as [|n IH]; intros ofs v read zero ps s Q Him Ho Hr Hz Hle Hn Hmax Hal Hv Hend m Hnd Hroom HQ; rewrite loop_S, wp_bind.
  - assert (read = 0 ∧ zero = 0) as [-> ->] by lia. unfold segment_step. simpl. wp_pure. apply HQ; [by rewrite app_nil_r|done|done|apply files_stay_refl].
  - assert (Hge : PGSIZE <= read + zero) by (unfold PGSIZE in *; lia).
    destruct (segment_page c ofs read zero Ho Hr Hz Hle Hge) as [_ Hdrop]. fold m in Hdrop. cbn [pages_of] in Hnd, HQ.
    set (rd := if read <? PGSIZE then read else PGSIZE) in *.
    assert (Hrd : 0 <= rd <= read ∧ rd <= PGSIZE ∧ PGSIZE - rd <= zero) by (unfold rd; destruct (Z.ltb_spec read PGSIZE); unfold PGSIZE in *; lia).
    eapply segment_step_wp; [exact Him|done..|unfold PGSIZE in *; lia|done|done|unfold PGSIZE in *; lia| |lia|].
    { rewrite !fmap_app in Hnd. apply NoDup_app in Hnd as (_ & Hnd & _). intros Hin. apply (Hnd v Hin). left. }
    fold m rd. intros s1 Him1 Hmm1 Hc1 Hst1.
    eapply IH; [exact Him1|lia|lia|lia|lia|unfold PGSIZE in *; lia|lia|rewrite Z.add_mod, Hal by done; done|unfold PGSIZE in *; lia|unfold PGSIZE in *; lia| | |].
    + rewrite <- Hdrop, <- app_assoc. exact Hnd.
    + rewrite zlength_app, zlength_cons. change (zlength []) with 0. lia.
    + intros s2 Him2 Hmm2 Hc2 Hst2. rewrite <- Hdrop, <- app_assoc in Him2. apply HQ; [exact Him2|congruence|congruence|]. by eapply files_stay_trans.
Qed.

Lemma load_segment_wp l a file c g ps s (Q : bool → vm → Prop) : image l a file c ps s → seg_ok c g →
  NoDup (ps ++ seg_pages c g).*1.*1 → zlength ps < 2 ^ 60 →
  (∀ s', image l a file c (ps ++ seg_pages c g) s' → v_mmu s' = v_mmu s → cur s' = cur s → files_stay (v_k s) (v_k s') → Q true s') →
  wp (load_segment file g) s Q.
Proof.
  intros Him [(Ho & Hle & Hoal) (Hr & Hz & Hmax & Hmod) (Hal & Hv & Hend)] Hnd Hroom HQ. unfold load_segment.
  assert (Hn : sg_read g + sg_zero g = Z.of_nat (seg_count g) * PGSIZE) by (unfold seg_count, PGSIZE in *; zdiv).
  wp_pure. wp_step; [rewrite u32_small by lia; by apply Z.eqb_eq|]. wp_pure. wp_step; [rewrite pg_ofs_mod; by apply Z.eqb_eq|]. wp_pure.
  wp_step; [by apply Z.eqb_eq|]. wp_pure. eapply segment_loop_wp; [exact Him|done..| |exact HQ].
  unfold seg_count, PGSIZE in *. zdiv.
Qed.
End segment.

(** ** The headers *)

(** What validate_segment answers for a file with the contents [c]. *)
Definition valid_segment (c : list Z) (ph : ELF64_PHDR) : bool :=
  (Z.land (p_offset ph) PGMASK =? Z.land (p_vaddr ph) PGMASK) && negb (zlength c <? p_offset ph) &&
  negb (p_memsz ph <? p_filesz ph) && negb (p_memsz ph =? 0) && is_user_vaddr (p_vaddr ph) &&
  is_user_vaddr (u64 (p_vaddr ph + p_memsz ph)) && negb (u64 (p_vaddr ph + p_memsz ph) <? p_vaddr ph) && negb (p_vaddr ph <? PGSIZE).

(** The segments that [n] program headers at [ofs] describe; [None] when one of
    them is not accepted. *)
Fixpoint segments (c : list Z) (ofs : Z) (n : nat) : option (list segment) :=
  match n with
  | O => Some []
  | S n =>
      let b := take (Z.to_nat PHDR_SIZE) (drop (Z.to_nat ofs) c) in
      if (ofs <? 0) || (zlength c <? ofs) || negb (zlength b =? PHDR_SIZE) then None else
      let ph := phdr_of b in
      if (p_type ph =? PT_DYNAMIC) || (p_type ph =? PT_INTERP) || (p_type ph =? PT_SHLIB) then None else
      if negb (p_type ph =? PT_LOAD) then segments c (ofs + PHDR_SIZE) n else
      if valid_segment c ph then cons (segment_of ph) <$> segments c (ofs + PHDR_SIZE) n else None
  end.
(** The entry point and the segments of an executable. *)
Definition executable (c : list Z) : option (Z * list segment) :=
  let b := take (Z.to_nat EHDR_SIZE) c in
  let h := ehdr_of b in
  if (zlength b =? EHDR_SIZE) && good_header h then pair (e_entry h) <$> segments c (s32 (e_phoff h)) (Z.to_nat (e_phnum h)) else None.
Definition all_pages (c : list Z) (gs : list segment) : list page_spec := concat (seg_pages c <$> gs).

Section headers.
Implicit Types (s : vm) (l c b : list Z) (ofs v : Z) (ps : list page_spec) (gs : list segment).

Lemma nodup_prefix ps1 ps2 : NoDup (ps1 ++ ps2).*1.*1 → NoDup ps1.*1.*1.
Proof. rewrite !fmap_app. by intros [H _]%NoDup_app. Qed.
Lemma all_pages_app c gs gs' : all_pages c (gs ++ gs') = all_pages c gs ++ all_pages c gs'.
Proof. unfold all_pages. by rewrite fmap_app, concat_app. Qed.
Lemma validate_wp kk file c pos ph (Q : bool → kfs → Prop) : file_is kk file c pos → Q (valid_segment c ph) kk → wp (validate_segment ph file) kk Q.
Proof.
  intros Hf HQ. destruct (file_content_length _ _ _ _ Hf) as (_ & _ & _ & _ & _ & _ & _ & Hlen). unfold validate_segment, valid_segment in *.
  destruct (Z.land (p_offset ph) PGMASK =? Z.land (p_vaddr ph) PGMASK); [|by wp_pure]. simpl negb. cbv iota. wp_pure.
  apply (file_length_is_wp _ _ c pos); [done|]. rewrite u64_small by lia.
  destruct (zlength c <? p_offset ph); [by wp_pure|]. destruct (p_memsz ph <? p_filesz ph); [by wp_pure|].
  destruct (p_memsz ph =? 0); [by wp_pure|]. destruct (is_user_vaddr (p_vaddr ph)); [|by wp_pure].
  destruct (is_user_vaddr (u64 (p_vaddr ph + p_memsz ph))); [|by wp_pure].
  destruct (u64 (p_vaddr ph + p_memsz ph) <? p_vaddr ph); [by wp_pure|]. destruct (p_vaddr ph <? PGSIZE); by wp_pure.
Qed.

Lemma image_files l a file c ps s kk pos : image l a file c ps s → files_stay (v_k s) kk → file_is kk file c pos → image l a file c ps (with_k kk s).
Proof.
  intros [Ht Hpr Hm _ Hpages Honly] Hst Hf. split; try done.
  - apply (same_shape_wf s); [done|]. split; [done|apply Ht|done|eauto].
  - by exists pos.
  - intros v w b Hin. apply (lazy_stays s); [done|by split|done|by apply Hpages].
Qed.

Lemma header_step_wp l a file c phnum i ofs ps s (Q : Z * Z + bool → vm → Prop) :
  image l a file c ps s → i < phnum → 0 <= ofs <= zlength c →
  let b := take (Z.to_nat PHDR_SIZE) (drop (Z.to_nat ofs) c) in let ph := phdr_of b in
  zlength b = PHDR_SIZE → (p_type ph =? PT_DYNAMIC) || (p_type ph =? PT_INTERP) || (p_type ph =? PT_SHLIB) = false →
  let gs := if p_type ph =? PT_LOAD then [segment_of ph] else [] in
  ((p_type ph =? PT_LOAD) = true → valid_segment c ph = true) → Forall (seg_ok c) gs → NoDup (ps ++ all_pages c gs).*1.*1 → zlength ps < 2 ^ 60 →
  (∀ s', image l a file c (ps ++ all_pages c gs) s' → v_mmu s' = v_mmu s → cur s' = cur s → files_stay (v_k s) (v_k s') → Q (inl (i + 1, ofs + PHDR_SIZE)) s') →
  wp (header_step file phnum (i, ofs)) s Q.
Proof.
  intros Him Hi [Ho Hoc] b ph Hb Hty gs Hv Hok Hnd Hroom HQ. destruct (im_file _ _ _ _ _ _ Him) as [pos Hf].
  destruct (file_content_length _ _ _ _ Hf) as (_ & _ & _ & _ & _ & _ & _ & Hlen).
  unfold header_step. rewrite (proj2 (Z.ltb_lt i phnum)) by lia. simpl negb. cbv iota. unfold on_k. wp_pure.
  eapply file_length_is_wp; [exact Hf|]. rewrite (proj2 (Z.ltb_ge ofs 0)), (proj2 (Z.ltb_ge (zlength c) ofs)) by lia. simpl orb. cbv iota. wp_pure.
  eapply file_seek_is_wp; [exact Hf|lia|]. intros k1 Hst1 Hf1. wp_pure.
  eapply file_read_is_wp; [exact Hf1|done|done|]. intros k2 Hst2 r Hf2. change r with b in *. clear r.
  rewrite (proj2 (Z.eqb_eq _ _) Hb). simpl negb. cbv iota zeta. change (phdr_of b) with ph. change (field 0 4 b) with (p_type ph). rewrite Hty.
  assert (Hst : files_stay (v_k s) k2) by (by eapply files_stay_trans).
  assert (Him2 : image l a file c ps (with_k k2 s)) by (by eapply image_files).
  assert (Hnext : s32 (ofs + PHDR_SIZE) = ofs + PHDR_SIZE).
  { apply s32_small. unfold b, zlength in *. rewrite length_take, length_drop in Hb. unfold PHDR_SIZE in *. lia. }
  rewrite Hnext. unfold gs in *. destruct (p_type ph =? PT_LOAD).
  - simpl negb. cbv iota. wp_pure. eapply validate_wp; [exact Hf2|]. rewrite (Hv eq_refl). simpl negb. cbv iota. wp_pure.
    apply Forall_cons in Hok as [Hok _]. unfold all_pages in *. change (seg_pages c <$> [segment_of ph]) with [seg_pages c (segment_of ph)] in *.
    cbn [concat] in *. rewrite app_nil_r in *. eapply load_segment_wp; [exact Him2|done|done|done|].
    intros s3 Him3 Hmm3 Hc3 Hst3. simpl negb. cbv iota. wp_pure. apply HQ; [done|done|done|]. by eapply files_stay_trans.
  - simpl negb. cbv iota. wp_pure. apply HQ; [|done|done|done]. unfold all_pages. simpl. by rewrite app_nil_r.
Qed.

Lemma headers_wp l a file c phnum n : ∀ i ofs ps s gs (Q : bool → vm → Prop),
  image l a file c ps s → segments c ofs n = Some gs → phnum = i + Z.of_nat n → Forall (seg_ok c) gs →
  NoDup (ps ++ all_pages c gs).*1.*1 → zlength (ps ++ all_pages c gs) < 2 ^ 60 →
  (∀ s', image l a file c (ps ++ all_pages c gs) s' → v_mmu s' = v_mmu s → cur s' = cur s → files_stay (v_k s) (v_k s') → Q true s') →
  wp (loop (S n) (header_step file phnum) (i, ofs)) s Q.
Proof.
  induction n as [|n IH]; intros i ofs ps s gs Q Him Hgs Hph Hok Hnd Hroom HQ; rewrite loop_S, wp_bind.
  - unfold header_step. rewrite (proj2 (Z.ltb_ge i phnum)) by lia. simpl. wp_pure. injection Hgs as <-.
    apply HQ; [unfold all_pages; simpl; by rewrite app_nil_r|done|done|apply files_stay_refl].
  - cbn [segments] in Hgs. set (b := take (Z.to_nat PHDR_SIZE) (drop (Z.to_nat ofs) c)) in *. set (ph := phdr_of b) in *.
    destruct (Z.ltb_spec ofs 0) as [|Ho]; [done|]. destruct (Z.ltb_spec (zlength c) ofs) as [|Hoc]; [done|]. simpl orb in Hgs.
    destruct (Z.eqb_spec (zlength b) PHDR_SIZE) as [Hb|]; [|done]. simpl negb in Hgs. cbv iota zeta in Hgs.
    change (field 0 4 b) with (p_type ph) in Hgs.
    destruct ((p_type ph =? PT_DYNAMIC) || (p_type ph =? PT_INTERP) || (p_type ph =? PT_SHLIB)) eqn:Hty; [done|].
    assert (Hsplit : ∃ gs', segments c (ofs + PHDR_SIZE) n = Some gs' ∧ gs = (if p_type ph =? PT_LOAD then [segment_of ph] else []) ++ gs' ∧
      ((p_type ph =? PT_LOAD) = true → valid_segment c ph = true)).
    { destruct (p_type ph =? PT_LOAD); simpl negb in Hgs; cbv iota in Hgs; [|by exists gs].
      destruct (valid_segment c ph); [|done]. destruct (segments c (ofs + PHDR_SIZE) n) as [gs'|]; [|done]. injection Hgs as <-. by exists gs'. }
    destruct Hsplit as (gs' & Hgs' & -> & Hv). apply Forall_app in Hok as [Hok1 Hok2].
    rewrite all_pages_app, app_assoc in Hnd, Hroom, HQ.
    eapply header_step_wp; [exact Him|lia|lia|exact Hb|exact Hty|exact Hv|exact Hok1| | |].
    + exact (nodup_prefix _ _ Hnd).
    + rewrite !zlength_app in Hroom. unfold zlength in *. lia.
    + intros s1 Him1 Hmm1 Hc1 Hst1. eapply IH; [exact Him1|exact Hgs'|lia|done|exact Hnd|exact Hroom|].
      intros s2 Him2 Hmm2 Hc2 Hst2. apply HQ; [exact Him2|congruence|congruence|]. by eapply files_stay_trans.
Qed.
End headers.
