(* ===== verification/ExecImage.v ===== *)
(** * A program is started

    load, from the headers of the file to the registers: the segments wait for
    their first fault, and the stack is there, with the arguments. *)
From stdpp Require Import base numbers list gmap.
From Stdlib Require Import ZArith Lia.
From S2P Require Import Prelude Bytes Fat Volume Inode InodeData InodeGrow File Directory CString Filesys Bitmap Hash Palloc PallocInit Words Mmu MmuInv MmuWalk MmuSpec AddressSpace Isolation PageTables UserMem Vm VmSpt VmSwap VmFrame VmSpec Access Resident Exec ExecArgs ExecLoad.
Open Scope Z_scope.

(** The current process has the page table [a], the pages [ps], which have not
    been touched, and its stack's page, and no others. *)
Record loaded (l : list Z) (a : Z) (ps : list page_spec) (s : vm) : Prop := {
  ld_tables : wf_tables s;
  ld_user : wf_user (v_mmu s) l;
  ld_proc : ∃ pr, procs s !! cur s = Some pr ∧ pml4 pr = a;
  ld_pages : ∀ v w b, (v, w, b) ∈ ps → lazy_page s v w b;
  ld_only : ∀ v q, maps s (cur s) v q → v = STACK_PAGE ∨ v ∈ ps.*1.*1;
}.
(** A string of the kernel, which is not in a free page or a page table. *)
Definition safe_str (l : list Z) (s : vm) (p : Z) (b : list Z) : Prop :=
  kernel_str s p b ∧ ∀ x, p <= x <= p + zlength b → kept (m_ram (v_mmu s)) x ∧ kernel_byte (v_mmu s) l x.

Section image.
Implicit Types (s : vm) (l c b : list Z) (pr : proc) (k p u : Z) (ps : list page_spec).

(** A page that has been brought in is in a frame of its own. *)
Lemma brought_resident s l pr p x c s' : brought_in s l (pml4 pr) p x c s' → procs s' !! cur s' = Some pr → pml4 pr ∈ l →
  user_va own (va x) → va x mod PGSIZE = 0 → zlength c = PGSIZE → ∃ k, resident s' l pr (va x) k c.
Proof.
  intros [[Hw Ht] _ Hsees (f & k & o & d & Hk & _ & _ & _ & _ & Hmap & Hal) _ _ _] Hpr Ha Hu Hual Hc. exists k.
  split; try done; [by eexists|]. intros i Hi. rewrite Hc in Hi. rewrite <- (user_byte_frame (v_mmu s') (pml4 pr) (va x) k (writable x)) by done.
  by apply Hsees.
Qed.

Lemma stack_page_user : user_va own STACK_PAGE ∧ STACK_PAGE mod PGSIZE = 0.
Proof. by vm_compute. Qed.

(** What setup_stack brings: the stack's page, and everything else stays. *)
Record stack_ready (l : list Z) (a : Z) (ps : list page_spec) (s s' : vm) (pr : proc) (k : Z) : Prop := {
  sr_loaded : loaded l a ps s';
  sr_proc : pml4 pr = a;
  sr_page : resident s' l pr STACK_PAGE k (zeros PGSIZE);
  sr_view : view_except a STACK_PAGE l (v_mmu s) (v_mmu s');
  sr_kernel : ∀ x, kept (m_ram (v_mmu s)) x → kernel_byte (v_mmu s) l x → vbytes s' !! x = vbytes s !! x;
  sr_pool : base (user_pool (m_ram (v_mmu s'))) = base (user_pool (m_ram (v_mmu s))) ∧
    bit_cnt (used_map (user_pool (m_ram (v_mmu s')))) = bit_cnt (used_map (user_pool (m_ram (v_mmu s))));
}.
Lemma setup_stack_wp junk l a file c ps s (Q : bool → vm → Prop) : image l a file c ps s → wf_user (v_mmu s) l → a ∈ l →
  user_free s → ¬ few (m_ram (v_mmu s)) 3 → STACK_PAGE ∉ ps.*1.*1 → zlength ps < 2 ^ 60 →
  (∀ pr k s', stack_ready l a ps s s' pr k → Q true s') → wp (setup_stack junk) s Q.
Proof.
  intros Him Hw Ha Hfree Hfew Hns Hroom HQ. destruct stack_page_user as [Hu Hal]. unfold setup_stack. wp_pure.
  unfold vm_alloc_page. eapply (image_page l a file c ps s STACK_PAGE true VM_ANON no_init 0 init_anon (zeros PGSIZE));
    [exact Him|done|done|done|done|lia|by apply back_zero|].
  intros s1 Him1 Hmm1 Hk1 Hc1 Hall. simpl negb. cbv iota. unfold vm_claim_page. wp_pure.
  set (x := Page uninit_ops STACK_PAGE 0 true (Uninit no_init VM_ANON 0 init_anon)) in *.
  pose proof (im_tables _ _ _ _ _ _ Him1) as Ht1. destruct (im_proc _ _ _ _ _ _ Him1) as (pr & Hpr & Hpa & _).
  assert (Hcl : can_load s1 l pr).
  { split; [done|by rewrite Hmm1|done|by rewrite Hpa|apply Him1|by unfold user_free; rewrite Hmm1|by rewrite Hmm1]. }
  assert (Hrd : pg_round_down STACK_PAGE = STACK_PAGE) by (by vm_compute).
  assert (Hm1 : maps s1 (cur s1) STACK_PAGE (next_obj s)) by (apply Hall; right; by rewrite Hc1).
  apply (spt_find_page_wp s1 pr); [done|done| |]; rewrite Hrd.
  2: { intros Hno. by destruct (Hno (next_obj s)). }
  intros p y Hm Hp0 _ _. assert (p = next_obj s) as -> by (by apply (maps_inj s1 (cur s1) pr STACK_PAGE p); [by apply (wt_spt _ Ht1)|..]).
  rewrite (proj2 (Z.eqb_neq (next_obj s) 0)) by done.
  eapply wp_mono; [apply (claim_zero s1 l junk pr (next_obj s) x VM_ANON 0 Hcl); try done; apply Hall|].
  intros r s2 (-> & Hbi & Hk2 & Hobjs & Hsw & Hsd). destruct (bi_rest _ _ _ _ _ _ _ Hbi) as (Hp2 & Hc2 & Hmal2).
  assert (Hss : same_shape s1 s2).
  { split; [done|apply Hbi| |].
    - intros e z He. apply Hobjs; [|done]. intros ->. rewrite (al_page _ _ _ _ _ Hall) in He. done.
    - intros q z Hq. destruct (decide (q = next_obj s)) as [->|Hne]; [|eauto].
      destruct (bi_frame _ _ _ _ _ _ _ Hbi) as (f & k & o & d & _ & Hx & _). eexists. split; [exact Hx|].
      rewrite (al_page _ _ _ _ _ Hall) in Hq. by injection Hq as <-. }
  assert (Hmaps : ∀ t v q, maps s2 t v q ↔ maps s1 t v q) by (intros t v q; by apply same_shape_maps).
  destruct (brought_resident s1 l pr (next_obj s) x (zeros PGSIZE) s2) as [k Hr]; [by rewrite Hpa in *|by rewrite Hp2, Hc2|by rewrite Hpa|done|done|done|].
  apply (HQ pr k). split; [split|done|exact Hr| | |].
  - apply Hbi.
  - apply Hbi.
  - exists pr. by rewrite Hp2, Hc2.
  - intros v w b Hin. apply (lazy_stays s1); [done| | |apply Him1, elem_of_app; by left].
    + split; [rewrite Hk2; apply files_stay_refl| | |done].
      * intros q i Hq. apply Hobjs; [|done]. intros ->. rewrite (al_page _ _ _ _ _ Hall) in Hq. done.
      * intros q i Hq. apply Hobjs; [|done]. intros ->. rewrite (al_page _ _ _ _ _ Hall) in Hq. done.
    + intros q Hq. split; [by apply Hmaps|]. intros z. apply Hobjs. intros ->.
      destruct (wt_own _ Ht1 _ _ _ _ _ Hq Hm1) as [_ ->]. apply Hns. apply list_elem_of_fmap. exists (STACK_PAGE, w). split; [done|].
      apply list_elem_of_fmap. by exists (STACK_PAGE, w, b).
  - intros v q Hq. rewrite Hc2 in Hq. apply Hmaps in Hq. apply (im_only _ _ _ _ _ _ Him1) in Hq. rewrite !fmap_app in Hq.
    apply elem_of_app in Hq as [Hq|Hq]; [by right|left; by apply list_elem_of_singleton in Hq].
  - rewrite <- Hpa, <- Hmm1. apply Hbi.
  - intros y0. rewrite <- Hmm1. apply Hbi.
  - rewrite <- Hmm1. apply Hbi.
Qed.

(** Stores in the stack leave the pages alone. *)
Lemma loaded_stored l a ps s u k pr b s' : loaded l a ps s → stored s l a u s' → resident s' l pr u k b → loaded l a ps s'.
Proof.
  intros [Ht _ Hpr Hpages Honly] [(m & ->) _ _] Hr. split; [|apply Hr|done| |done].
  - apply (same_shape_wf s); [done|]. split; [done|apply Ht|done|eauto].
  - intros v w b' Hin. apply (lazy_stays s); [done| |done|by apply Hpages]. split; [apply files_stay_refl|done..].
Qed.
(** A string is still there once the stack's page has been brought in. *)
Lemma safe_str_stays l a ps s s' pr k p b s0 : stack_ready l a ps s s' pr k → m_ram (v_mmu s) = m_ram (v_mmu s0) → v_mmu s = v_mmu s0 →
  safe_str l s0 p b → kernel_str s' p b.
Proof.
  intros Hsr _ Hmm [(Hp & Hstr & Hb & Hout) Hsafe]. destruct (sr_pool _ _ _ _ _ _ _ Hsr) as [Hub Huc]. split; [done|]. split; [|split; [done|]].
  - eapply str_at_frame; [exact Hstr|]. intros x Hx. rewrite <- Hmm. destruct (Hsafe x Hx). apply (sr_kernel _ _ _ _ _ _ _ Hsr); by rewrite Hmm.
  - intros x Hx. specialize (Hout x Hx). unfold in_pool, pool_end in *. by rewrite Hub, Huc, Hmm.
Qed.
Lemma header_count c : Forall is_byte c → 0 <= e_phnum (ehdr_of (take (Z.to_nat EHDR_SIZE) c)).
Proof. intros Hc. apply le_val_range. by apply Forall_take, Forall_drop, Forall_take. Qed.

Lemma load_image_wp junk l a file c s entry gs argv args : image l a file c [] s → file_is (v_k s) file c 0 →
  executable c = Some (entry, gs) → Forall (seg_ok c) gs → NoDup (STACK_PAGE :: (all_pages c gs).*1.*1) → zlength (all_pages c gs) < 2 ^ 60 →
  wf_user (v_mmu s) l → a ∈ l → user_free s → ¬ few (m_ram (v_mmu s)) 3 →
  Forall2 (safe_str l s) argv args → zlength (args_image args) <= PGSIZE →
  wp (load_image junk file argv) s (λ r s', ∃ uf, r = Some uf ∧ if_rip uf = entry ∧ main_args s' a args (if_rsp uf) (if_rdi uf) (if_rsi uf) ∧
    loaded l a (all_pages c gs) s' ∧ view_except a STACK_PAGE l (v_mmu s) (v_mmu s')).
Proof.
  intros Him Hf Hex Hok Hnd Hroom Hw Ha Hfree Hfew Hargs Hfit. unfold executable in Hex.
  pose proof (header_count c (fi_bytes _ _ _ _ Hf)) as Hph. set (b := take (Z.to_nat EHDR_SIZE) c) in *. set (h := ehdr_of b) in *.
  destruct (Z.eqb_spec (zlength b) EHDR_SIZE) as [Hb|]; [|done]. destruct (good_header h) eqn:Hh; [|done]. cbn [andb] in Hex.
  destruct (segments c (s32 (e_phoff h)) (Z.to_nat (e_phnum h))) as [gs'|] eqn:Hgs; [|done]. injection Hex as <- <-.
  apply NoDup_cons in Hnd as [Hns Hnd].
  unfold load_image, on_k. wp_pure. eapply file_read_is_wp; [exact Hf|done|apply zlength_nonneg|]. intros k1 Hst1 r Hf1.
  change r with b in *. clear r. change (ehdr_of b) with h. rewrite Hh, (proj2 (Z.eqb_eq _ _) Hb). simpl orb. cbv iota. wp_pure.
  assert (Him1 : image l a file c [] (with_k k1 s)) by (by eapply image_files).
  eapply headers_wp; [exact Him1|exact Hgs|lia|done|exact Hnd|exact Hroom|].
  intros s2 Him2 Hmm2 Hc2 _. simpl negb. cbv iota. wp_pure.
  assert (Hmm : v_mmu s2 = v_mmu s) by (rewrite Hmm2; done).
  eapply setup_stack_wp; [exact Him2|by rewrite Hmm|exact Ha|unfold user_free; by rewrite Hmm|by rewrite Hmm|exact Hns|exact Hroom|].
  intros pr k s3 Hsr. simpl negb. cbv iota. wp_pure. pose proof (sr_proc _ _ _ _ _ _ _ Hsr) as Hpa.
  eapply push_args_wp; [rewrite top_nil; apply Hsr| |exact Hfit|].
  { eapply Forall2_impl; [exact Hargs|]. intros p arg Hp. apply (safe_str_stays l a _ s2 s3 pr k p arg s Hsr); [by rewrite Hmm|done|done]. }
  intros s4 Hr4 Hst4. wp_pure. eexists. split; [done|]. split; [done|]. cbn [if_rsp if_rdi if_rsi]. rewrite <- Hpa. split; [|split].
  - apply image_args; [done|]. by eapply stack_has.
  - rewrite Hpa in *. eapply loaded_stored; [apply Hsr|exact Hst4|exact Hr4].
  - rewrite <- Hmm. eapply view_trans; [rewrite Hpa; apply Hsr|apply Hst4].
Qed.

(** Bytes of the kernel do not matter to it. *)
Lemma image_bytes l a file c ps s m : image l a file c ps s → image l a file c ps (with_vbytes m s).
Proof.
  intros [Ht Hpr Hm Hf Hpages Honly]. split; try done.
  - apply (same_shape_wf s); [done|]. split; [done|apply Ht|done|eauto].
  - intros v w b Hin. apply (lazy_stays s); [done| |done|by apply Hpages]. split; [apply files_stay_refl|done..].
Qed.


(** A file that does not begin with the header of an executable is refused by the
    loop of load behind the opening of the file, which then changes nothing but the
    position of the file. (By then load has made and activated an empty page table for
    the process.) *)
Lemma load_refuses junk l a file c ps s argv : image l a file c ps s → file_is (v_k s) file c 0 →
  zlength c < EHDR_SIZE ∨ good_header (ehdr_of (take (Z.to_nat EHDR_SIZE) c)) = false →
  ∃ kk, load_image junk file argv s = Done (None, with_k kk s) ∧ files_stay (v_k s) kk.
Proof.
  intros Him Hf Hbad. destruct (wp_run_val (load_image junk file argv) s None (λ s', ∃ kk, s' = with_k kk s ∧ files_stay (v_k s) kk))
    as (s' & Hrun & kk & -> & Hst); [|by exists kk].
  unfold load_image, on_k. wp_pure. eapply file_read_is_wp; [exact Hf|done|apply zlength_nonneg|]. intros k1 Hst r Hf1.
  change r with (take (Z.to_nat EHDR_SIZE) c). clear Hf1 r. set (r := take (Z.to_nat EHDR_SIZE) c) in *.
  assert (Hr : negb (zlength r =? EHDR_SIZE) || negb (good_header (ehdr_of r)) = true).
  { destruct Hbad as [Hlt| ->]; [|apply orb_true_r]. apply orb_true_iff. left. apply negb_true_iff, Z.eqb_neq.
    unfold r, zlength in *. rewrite length_take. unfold EHDR_SIZE in *. lia. }
  cbv zeta. rewrite Hr. wp_pure. split; [done|]. by exists k1.
Qed.
End image.
