(* ===== verification/Syscall.v ===== *)
(** * System calls (userprog/syscall.c, lib/user/syscall.c)

    What the functions of the user library put into the registers, syscall_handler,
    and the calls: their checks of the arguments, the lock of the file system, and
    the calls that do not come back. The work itself is done by the functions of
    Desc.v, Filesys.v, Vm.v and Exec.v. At the end, the functions of the user library
    themselves. *)
From stdpp Require Import base numbers list gmap.
From Stdlib Require Import ZArith Lia String.
From S2P Require Import Prelude Bytes Fat Volume Inode File Directory CString Filesys Bitmap Hash Palloc PallocInit Words Mmu.
From S2P Require Import Stdio Intq Serial Desc Vm VmSwap Access Exec.
Open Scope Z_scope.

(** ** State *)

(** [fs_lock] is the holder of filesys_lock, or 0; [t_name] the names of threads. *)
Record ust := Ust {
  u_k : kst;
  u_dev : dev;
  u_console : console;
  fs_lock : Z;
  t_name : gmap Z (list Z);
}.

(** How a call may end other than by a return: thread_exit, with the status that
    sys_exit has stored if it has; the new program of exec; power_off; a fork or a
    wait, which go on in Wait.v; a thread that sleeps in input_getc with [i] bytes
    read, or waits for filesys_lock. *)
Inductive ending :=
  | Exits (status : option Z)
  | Enters (uf : user_frame)
  | PowersOff
  | Forks (name : Z)
  | WaitsFor (pid : Z)
  | WaitsForKey (i : Z)
  | Blocks.

Definition call (A : Type) : Type := ST ust (ending + A).
#[export] Instance call_ret : MRet call := λ A a s, Done (inr a, s).
#[export] Instance call_bind : MBind call := λ A B f c s,
  match c s with
  | Done (inl e, s') => Done (inl e, s')
  | Done (inr a, s') => f a s'
  | Panic => Panic | Undef => Undef | NoFuel => NoFuel
  end.
Definition lift {A} (c : ST ust A) : call A := λ s,
  match c s with Done (a, s') => Done (inr a, s') | Panic => Panic | Undef => Undef | NoFuel => NoFuel end.
Definition leave {A} (e : ending) : call A := λ s, Done (inl e, s).

Definition on_kst {A} (c : ST kst A) : call A :=
  lift (zoom u_k (λ k s, Ust k (u_dev s) (u_console s) (fs_lock s) (t_name s)) c).
Definition on_v {A} (c : ST vm A) : call A := on_kst (on_vm c).
Definition on_p {A} (c : ST pst A) : call A := on_kst (on_pst c).
Definition on_y {A} (c : ST sys A) : call A := on_kst (on_sys c).
Definition on_dev {A} (c : ST dev A) : call A :=
  lift (zoom u_dev (λ d s, Ust (u_k s) d (u_console s) (fs_lock s) (t_name s)) c).
Definition on_console {A} (c : ST console A) : call A :=
  lift (zoom u_console (λ k s, Ust (u_k s) (u_dev s) k (fs_lock s) (t_name s)) c).
Definition tid (s : ust) : Z := cur (k_vm (u_k s)).
Definition set_fs_lock (t : Z) : call unit := lift (modify (λ s, Ust (u_k s) (u_dev s) (u_console s) t (t_name s))).

(** lock_acquire (&filesys_lock), and its release. *)
Definition lock_acquire : call unit :=
  s ← lift get_st;
  _ ← lift (assert_st (negb (fs_lock s =? tid s)));
  if negb (fs_lock s =? 0) then leave Blocks else set_fs_lock (tid s).
Definition lock_release : call unit :=
  s ← lift get_st;
  _ ← lift (assert_st (fs_lock s =? tid s));
  set_fs_lock 0.

(** Runs [body] until it answers [inr], as [loop]. *)
Fixpoint repeat_call {A B} (fuel : nat) (body : A → call (A + B)) (a : A) : call B :=
  match fuel with
  | O => λ _, NoFuel
  | S n => r ← body a; match r with inl a' => repeat_call n body a' | inr b => mret b end
  end.

Section calls.
(** As in Exec.v and Filesys.v; [spt_junk] is what the memory for a page table
    holds, [as_file] what a union holds (see do_munmap), [empty] the address of the
    empty literal. *)
Context (junk : Z) (entry : dir_entry) (space slash cp_file_name first_word cp_name : Z).
Context (spt_junk : list (list Z)) (as_file : page_data → file_page) (empty new_dir_junk : Z).

(** ** Checks *)

Definition sys_exit {A} (status : Z) : call A :=
  s ← lift get_st;
  name ← lift (deref (t_name s !! tid s));
  _ ← on_console (printf "%s: exit(%d)
" [Str (name ++ [0]); Int status]);
  leave (Exits (Some status)).

Definition get_page_of (addr : Z) : call Z :=
  t ← on_v current; on_v (on_mmu (pml4_get_page (pml4 t) addr)).

Definition check_address (addr : Z) : call unit :=
  if (addr =? empty) || negb (is_user_vaddr addr) then sys_exit (-1) else
  page ← get_page_of addr;
  if page =? 0 then sys_exit (-1) else mret tt.

(** The pages from [addr] to the one that holds the last byte. *)
Definition last_page (buffer size : Z) : Z := pg_round_down (u64 (buffer + size - 1)).
Definition pages_fuel (buffer size : Z) : nat :=
  S (Z.to_nat ((last_page buffer size - pg_round_down buffer) / PGSIZE + 1)).

Definition check_step (end_ addr : Z) : call (Z + unit) :=
  if negb (addr <=? end_) then mret (inr tt) else
  if negb (is_user_vaddr addr) then sys_exit (-1) else
  page ← get_page_of addr;
  _ ← (if page =? 0 then
         ok ← on_v (vm_try_handle_fault junk addr true false true);
         if (ok : bool) then mret tt else sys_exit (-1)
       else mret tt);
  mret (inl (u64 (addr + PGSIZE))).
Definition check_buffer (buffer size : Z) : call unit :=
  if buffer =? 0 then sys_exit (-1) else
  repeat_call (pages_fuel buffer size) (check_step (last_page buffer size)) (pg_round_down buffer).

Definition check_read_buffer (buffer size : Z) : call unit :=
  if negb (is_user_vaddr buffer) || negb (is_user_vaddr (u64 (buffer + size - 1))) then sys_exit (-1) else
  check_buffer buffer size.

Definition write_step (end_ addr : Z) : call (Z + unit) :=
  if negb (addr <=? end_) then mret (inr tt) else
  if negb (is_user_vaddr addr) then sys_exit (-1) else
  page ← get_page_of addr;
  _ ← (if page =? 0 then
         ok ← on_v (vm_try_handle_fault junk addr true true true);
         if (ok : bool) then mret tt else sys_exit (-1)
       else
         t ← on_v current;
         pte ← on_v (on_ram (pml4e_walk (pml4 t) addr 0));
         s ← lift get_st;
         p ← on_v (spt_find_page (tid s) addr);
         cur_page ← on_v (get_page p);
         e ← (if pte =? 0 then mret 0 else on_v (on_bytes (load64 pte)));
         let is_writable := negb (Z.land e PTE_W =? 0) in
         if (pte =? 0) || (negb is_writable && negb (writable cur_page)) then sys_exit (-1)
         else if negb is_writable && writable cur_page then
           _ ← on_v (vm_try_handle_fault junk addr true true true); mret tt
         else mret tt);
  mret (inl (u64 (addr + PGSIZE))).
Definition check_write_buffer (buffer size : Z) : call unit :=
  if negb (is_user_vaddr buffer) || negb (is_user_vaddr (u64 (buffer + size - 1))) then sys_exit (-1) else
  _ ← check_buffer buffer size;
  repeat_call (pages_fuel buffer size) (write_step (last_page buffer size)) (pg_round_down buffer).

(** The kernel's own address of the string at the user address [va]. The frames of
    neighbouring pages are not neighbours: a string that goes on in another page is
    outside of this model. *)
Definition user_string (va : Z) : call Z :=
  q ← on_v (user_addr junk false va);
  n ← on_v (on_bytes (strlen q));
  if PGSIZE <? pg_ofs va + n + 1 then lift undef else mret q.

(** ** Files *)

Definition sys_create (file initial_size : Z) : call bool :=
  _ ← lock_acquire;
  _ ← check_address file;
  q ← user_string file;
  c ← on_v (on_bytes (strcmp q empty));
  if (file =? 0) || (c =? 0) then sys_exit (-1) else
  success ← on_y (filesys_create slash entry q initial_size);
  _ ← lock_release;
  mret success.

Definition sys_remove (file : Z) : call bool :=
  _ ← check_address file;
  _ ← lock_acquire;
  q ← user_string file;
  success ← on_y (filesys_remove slash entry q);
  _ ← lock_release;
  mret success.

Definition sys_open (file : Z) : call Z :=
  _ ← check_address file;
  q ← user_string file;
  c ← on_v (on_bytes (strcmp q empty));
  if (file =? 0) || (c =? 0) then mret (-1) else
  _ ← lock_acquire;
  file_obj ← on_y (filesys_open slash cp_name entry q);
  if file_obj =? 0 then _ ← lock_release; mret (-1) else
  fd ← on_p (open_fd file_obj);
  _ ← lock_release;
  mret fd.

(** The loop over the keys, from the [i]th on; [p] tells where the thread is in
    input_getc. The bytes go to the buffer one by one. *)
Definition key_step (buffer size : Z) (st : Z * place) : call (Z * place + unit) :=
  let '(i, p) := st in
  if negb (i <? size) then mret (inr tt) else
  r ← on_dev (match p with Call => input_getc | _ => input_dequeue p true end);
  match r with
  | Ret c => _ ← on_v (user_store junk (buffer + i) c); mret (inl (i + 1, Call))
  | _ => leave (WaitsForKey i)
  end.
Definition read_keys (buffer size i : Z) (p : place) : call Z :=
  _ ← repeat_call (S (Z.to_nat size)) (key_step buffer size) (i, p); mret (s32 size).

(** file_read reads into the buffer of the user; here the bytes are read first and
    stored then. *)
Definition sys_read (fd buffer size : Z) : call Z :=
  if size =? 0 then mret 0 else
  _ ← check_write_buffer buffer size;
  if bad_fd fd then mret (-1) else
  file_obj ← on_p (get_fd fd);
  if file_obj =? STDIN then
    t ← on_p thread_current;
    if negb (stdin_count t =? 0) then read_keys buffer size 0 Call else mret (-1)
  else if (file_obj =? 0) || (file_obj =? STDIN) || (file_obj =? STDOUT) then mret (-1) else
  _ ← lock_acquire;
  bytes ← on_v (on_k (file_read file_obj (s32 size)));
  _ ← on_v (user_put junk buffer bytes);
  _ ← lock_release;
  mret (zlength bytes).

Definition putbuf (l : list Z) : ST console unit :=
  modify (λ k, Console (con_out k ++ l) (write_cnt k + zlength l)).

Definition sys_write (fd buffer size : Z) : call Z :=
  _ ← check_read_buffer buffer size;
  if bad_fd fd then mret (-1) else
  p ← on_p (get_fd fd);
  t ← on_p thread_current;
  if (p =? STDOUT) && negb (stdout_count t =? 0) then
    bytes ← on_v (user_get junk buffer size);
    _ ← on_console (putbuf bytes);
    mret (s32 size)
  else
  f ← on_p (process_get_file fd);
  if f =? 0 then mret (-1) else
  _ ← lock_acquire;
  isdir ← on_v (on_k (is_file_dir f));
  if (isdir : bool) then _ ← lock_release; sys_exit (-1) else
  bytes ← on_v (user_get junk buffer (Z.max 0 (s32 size)));
  bytes_written ← on_v (on_k (file_write f bytes (s32 size)));
  _ ← lock_release;
  mret bytes_written.

Definition readdir_turn (dir name : Z) (_ : unit) : call (unit + bool) :=
  r ← on_v (on_k (dir_readdir dir entry));
  match r with
  | None => mret (inr false)
  | Some s =>
      _ ← on_v (user_put junk name (s ++ [0]));
      if bool_decide (s = [46]) || bool_decide (s = [46; 46]) then mret (inl tt) else mret (inr true)
  end.
Definition sys_readdir (fd name : Z) : call bool :=
  if fd <? 2 then mret false else
  file ← on_p (get_fd fd);
  isdir ← on_v (on_k (is_file_dir file));
  if negb isdir then mret false else
  dir ← on_v (on_k (file_to_dir file));
  fuel ← on_v (on_k (d ← get_dir dir; on_fs (entry_fuel (d_inode d))));
  repeat_call fuel (readdir_turn dir name) tt.

(** ** Memory and processes *)

Definition MAP_FAILED : Z := 0.

Definition mmap_free_step (end_page start_page : Z) : call (Z + bool) :=
  if negb (start_page <? end_page) then mret (inr true) else
  s ← lift get_st;
  p ← on_v (spt_find_page (tid s) start_page);
  if negb (p =? 0) then mret (inr false) else mret (inl (u64 (start_page + PGSIZE))).

Definition sys_mmap (addr length writable fd offset : Z) : call Z :=
  if fd <? 2 then mret MAP_FAILED else
  filesize ← on_p (sys_filesize fd);
  if (filesize =? 0) || (length =? 0) then mret MAP_FAILED else
  if addr <? length then mret MAP_FAILED else
  if (addr =? 0) || negb (addr mod PGSIZE =? 0) || negb (Z.rem offset PGSIZE =? 0) || negb (is_user_vaddr addr)
  then mret MAP_FAILED else
  target_file ← on_p (get_fd fd);
  if target_file =? 0 then mret MAP_FAILED else
  let end_page := pg_round_down (u64 (u64 (addr + length) + PGSIZE - 1)) in
  free ← repeat_call (S (S (Z.to_nat ((end_page - addr) / PGSIZE)))) (mmap_free_step end_page) addr;
  if negb free then mret MAP_FAILED else
  _ ← on_v (do_mmap addr length (negb (writable =? 0)) target_file offset);
  mret addr.

Definition sys_munmap (addr : Z) : call unit := on_v (do_munmap as_file addr).

(** The copy may be longer than its page. *)
Definition sys_exec {A} (file_name : Z) : call A :=
  _ ← check_address file_name;
  q ← user_string file_name;
  n ← on_v (on_bytes (strlen q));
  fn_copy ← on_v (on_ram (palloc_get_page PAL_ZERO));
  if fn_copy =? 0 then sys_exit (-1) else
  _ ← on_v (on_bytes (strlcpy fn_copy q (n + 1)));
  r ← on_kst (process_exec junk entry space slash cp_file_name first_word cp_name spt_junk fn_copy);
  match r with
  | None => sys_exit (-1)
  | Some uf => leave (Enters uf)
  end.

(** sys_mkdir and sys_chdir check nothing. *)
Definition call_mkdir (dir : Z) : call bool := q ← user_string dir; on_y (sys_mkdir slash entry new_dir_junk q).
Definition call_chdir (dir : Z) : call bool := q ← user_string dir; on_y (sys_chdir slash entry q).

(** ** Registers *)

Record gp_registers := Regs { rax : Z; rdi : Z; rsi : Z; rdx : Z; r10 : Z; r8 : Z; r9 : Z }.
Record intr_frame := IFrame { R : gp_registers; f_cs : Z; f_rsp : Z }.
Definition set_rax (v : Z) (f : intr_frame) : intr_frame :=
  let r := R f in IFrame (Regs v (rdi r) (rsi r) (rdx r) (r10 r) (r8 r) (r9 r)) (f_cs f) (f_rsp f).

Definition SYS_HALT : Z := 0.
Definition SYS_EXIT : Z := 1.
Definition SYS_FORK : Z := 2.
Definition SYS_EXEC : Z := 3.
Definition SYS_WAIT : Z := 4.
Definition SYS_CREATE : Z := 5.
Definition SYS_REMOVE : Z := 6.
Definition SYS_OPEN : Z := 7.
Definition SYS_FILESIZE : Z := 8.
Definition SYS_READ : Z := 9.
Definition SYS_WRITE : Z := 10.
Definition SYS_SEEK : Z := 11.
Definition SYS_TELL : Z := 12.
Definition SYS_CLOSE : Z := 13.
Definition SYS_MMAP : Z := 14.
Definition SYS_MUNMAP : Z := 15.
Definition SYS_CHDIR : Z := 16.
Definition SYS_MKDIR : Z := 17.
Definition SYS_READDIR : Z := 18.
Definition SYS_ISDIR : Z := 19.
Definition SYS_INUMBER : Z := 20.
Definition SYS_SYMLINK : Z := 21.
Definition SYS_DUP2 : Z := 22.
Definition SYS_MOUNT : Z := 23.
Definition SYS_UMOUNT : Z := 24.

(** The conversion of a result to uint64_t. *)
Definition ret {A} (conv : A → Z) (c : call A) (f : intr_frame) : call intr_frame :=
  v ← c; mret (set_rax (u64 (conv v)) f).
Definition no_ret (c : call unit) (f : intr_frame) : call intr_frame := _ ← c; mret f.
Definition int_of (v : Z) : Z := v.
Definition bool_of (b : bool) : Z := if b then 1 else 0.

Definition dispatch (f : intr_frame) : call intr_frame :=
  let syscall_num := rax (R f) in
  let arg1 := rdi (R f) in
  let arg2 := rsi (R f) in
  let arg3 := rdx (R f) in
  let arg4 := r10 (R f) in
  let arg5 := r8 (R f) in
  if syscall_num =? SYS_HALT then leave PowersOff
  else if syscall_num =? SYS_EXIT then sys_exit (s32 arg1)
  else if syscall_num =? SYS_FORK then leave (Forks arg1)
  else if syscall_num =? SYS_EXEC then sys_exec arg1
  else if syscall_num =? SYS_WAIT then leave (WaitsFor (s32 arg1))
  else if syscall_num =? SYS_CREATE then ret bool_of (sys_create arg1 (u32 arg2)) f
  else if syscall_num =? SYS_REMOVE then ret bool_of (sys_remove arg1) f
  else if syscall_num =? SYS_OPEN then ret int_of (sys_open arg1) f
  else if syscall_num =? SYS_FILESIZE then ret int_of (on_p (sys_filesize (s32 arg1))) f
  else if syscall_num =? SYS_READ then ret int_of (sys_read (s32 arg1) arg2 (u32 arg3)) f
  else if syscall_num =? SYS_WRITE then ret int_of (sys_write (s32 arg1) arg2 (u32 arg3)) f
  else if syscall_num =? SYS_SEEK then no_ret (on_p (sys_seek (s32 arg1) (u32 arg2))) f
  else if syscall_num =? SYS_TELL then ret int_of (on_p (sys_tell (s32 arg1))) f
  else if syscall_num =? SYS_CLOSE then no_ret (on_p (sys_close (s32 arg1))) f
  else if syscall_num =? SYS_DUP2 then ret int_of (on_p (sys_dup2 (s32 arg1) (s32 arg2))) f
  else if syscall_num =? SYS_MMAP then ret int_of (sys_mmap arg1 arg2 (s32 arg3) (s32 arg4) (s32 arg5)) f
  else if syscall_num =? SYS_MUNMAP then no_ret (sys_munmap arg1) f
  else if syscall_num =? SYS_CHDIR then ret bool_of (call_chdir arg1) f
  else if syscall_num =? SYS_MKDIR then ret bool_of (call_mkdir arg1) f
  else if syscall_num =? SYS_READDIR then ret bool_of (sys_readdir (s32 arg1) arg2) f
  else if syscall_num =? SYS_ISDIR then ret bool_of (on_p (sys_isdir (s32 arg1))) f
  else if syscall_num =? SYS_INUMBER then ret int_of (on_p (sys_inumber (s32 arg1))) f
  else leave (Exits None).

Definition syscall_handler (f : intr_frame) : call intr_frame :=
  _ ← on_v (if f_cs f =? SEL_UCSEG then set_user_rsp (f_rsp f) else mret tt);
  dispatch f.
End calls.

(** ** The system calls of user programs (lib/user/syscall.c)

    What each function of the user library puts into the registers, and what it
    makes of the answer. *)

(** What the instruction syscall finds: the number in rax, the arguments in rdi,
    rsi, rdx, r10, r8 and r9. *)
Definition syscall (num_ a1_ a2_ a3_ a4_ a5_ a6_ : Z) : gp_registers := Regs num_ a1_ a2_ a3_ a4_ a5_ a6_.
(** The macros convert their arguments to uint64_t. *)
Definition syscall0 (NUMBER : Z) := syscall (u64 NUMBER) 0 0 0 0 0 0.
Definition syscall1 (NUMBER ARG0 : Z) := syscall (u64 NUMBER) (u64 ARG0) 0 0 0 0 0.
Definition syscall2 (NUMBER ARG0 ARG1 : Z) := syscall (u64 NUMBER) (u64 ARG0) (u64 ARG1) 0 0 0 0.
Definition syscall3 (NUMBER ARG0 ARG1 ARG2 : Z) := syscall (u64 NUMBER) (u64 ARG0) (u64 ARG1) (u64 ARG2) 0 0 0.
Definition syscall4 (NUMBER ARG0 ARG1 ARG2 ARG3 : Z) :=
  syscall (u64 NUMBER) (u64 ARG0) (u64 ARG1) (u64 ARG2) (u64 ARG3) 0 0.
Definition syscall5 (NUMBER ARG0 ARG1 ARG2 ARG3 ARG4 : Z) :=
  syscall (u64 NUMBER) (u64 ARG0) (u64 ARG1) (u64 ARG2) (u64 ARG3) (u64 ARG4) 0.

(** The functions with their arguments. *)
Inductive request :=
  | halt
  | exit (status : Z)
  | fork (thread_name : Z)
  | exec (file : Z)
  | wait (pid : Z)
  | create (file initial_size : Z)
  | remove (file : Z)
  | open (file : Z)
  | filesize (fd : Z)
  | read (fd buffer size : Z)
  | write (fd buffer size : Z)
  | seek (fd position : Z)
  | tell (fd : Z)
  | close (fd : Z)
  | dup2 (oldfd newfd : Z)
  | mmap (addr length writable fd offset : Z)
  | munmap (addr : Z)
  | chdir (dir : Z)
  | mkdir (dir : Z)
  | readdir (fd name : Z)
  | isdir (fd : Z)
  | inumber (fd : Z)
  | symlink (target linkpath : Z)
  | mount (path chan_no dev_no : Z)
  | umount (path : Z).

Definition stub (q : request) : gp_registers :=
  match q with
  | halt => syscall0 SYS_HALT
  | exit status => syscall1 SYS_EXIT status
  | fork thread_name => syscall1 SYS_FORK thread_name
  | exec file => syscall1 SYS_EXEC file
  | wait pid => syscall1 SYS_WAIT pid
  | create file initial_size => syscall2 SYS_CREATE file initial_size
  | remove file => syscall1 SYS_REMOVE file
  | open file => syscall1 SYS_OPEN file
  | filesize fd => syscall1 SYS_FILESIZE fd
  | read fd buffer size => syscall3 SYS_READ fd buffer size
  | write fd buffer size => syscall3 SYS_WRITE fd buffer size
  | seek fd position => syscall2 SYS_SEEK fd position
  | tell fd => syscall1 SYS_TELL fd
  | close fd => syscall1 SYS_CLOSE fd
  | dup2 oldfd newfd => syscall2 SYS_DUP2 oldfd newfd
  | mmap addr length writable fd offset => syscall5 SYS_MMAP addr length writable fd offset
  | munmap addr => syscall1 SYS_MUNMAP addr
  | chdir dir => syscall1 SYS_CHDIR dir
  | mkdir dir => syscall1 SYS_MKDIR dir
  | readdir fd name => syscall2 SYS_READDIR fd name
  | isdir fd => syscall1 SYS_ISDIR fd
  | inumber fd => syscall1 SYS_INUMBER fd
  | symlink target linkpath => syscall2 SYS_SYMLINK target linkpath
  | mount path chan_no dev_no => syscall3 SYS_MOUNT path chan_no dev_no
  | umount path => syscall1 SYS_UMOUNT path
  end.

(** The types of the results. *)
Inductive ctype := Void | Bool | Int | Unsigned | Pointer.
Definition result_type (q : request) : ctype :=
  match q with
  | halt | exit _ | seek _ _ | close _ | munmap _ => Void
  | create _ _ | remove _ | chdir _ | mkdir _ | readdir _ _ | isdir _ => Bool
  | tell _ => Unsigned
  | mmap _ _ _ _ _ => Pointer
  | _ => Int
  end.
(** The conversion of the int64_t that syscall returns. *)
Definition result_of (t : ctype) (rax : Z) : Z :=
  let v := s64 rax in
  match t with
  | Void => 0
  | Bool => if v =? 0 then 0 else 1
  | Int => s32 v
  | Unsigned => u32 v
  | Pointer => u64 v
  end.

(** ** What the kernel does for a request *)

(** The values of the types of arguments. *)
Definition is_int (v : Z) : Prop := - 2 ^ 31 <= v < 2 ^ 31.
Definition is_unsigned (v : Z) : Prop := 0 <= v < 2 ^ 32.
Definition is_pointer (v : Z) : Prop := 0 <= v < 2 ^ 64.
Definition of_type (t : ctype) (v : Z) : Prop :=
  match t with
  | Void => True | Bool => v = 0 ∨ v = 1 | Int => is_int v | Unsigned => is_unsigned v | Pointer => is_pointer v
  end.
Definition typed (q : request) : Prop :=
  match q with
  | halt => True
  | exit v | wait v | filesize v | tell v | close v | isdir v | inumber v => is_int v
  | fork p | exec p | remove p | open p | munmap p | chdir p | mkdir p | umount p => is_pointer p
  | create p n => is_pointer p ∧ is_unsigned n
  | read fd p n | write fd p n => is_int fd ∧ is_pointer p ∧ is_unsigned n
  | seek fd n => is_int fd ∧ is_unsigned n
  | dup2 a b => is_int a ∧ is_int b
  | mmap p n w fd ofs => is_pointer p ∧ is_pointer n ∧ is_int w ∧ is_int fd ∧ is_int ofs
  | readdir fd p => is_int fd ∧ is_pointer p
  | symlink p q => is_pointer p ∧ is_pointer q
  | mount p a b => is_pointer p ∧ is_int a ∧ is_int b
  end.

Section serve.
Context (junk : Z) (entry : dir_entry) (space slash cp_file_name first_word cp_name : Z).
Context (spt_junk : list (list Z)) (as_file : page_data → file_page) (empty new_dir_junk : Z).

Definition value {A} (conv : A → Z) (c : call A) : call (option Z) := v ← c; mret (Some (conv v)).
Definition no_value (c : call unit) : call (option Z) := _ ← c; mret None.

(** The kernel's function with the arguments of the user's. *)
Definition serve (q : request) : call (option Z) :=
  match q with
  | halt => leave PowersOff
  | exit status => sys_exit status
  | fork thread_name => leave (Forks thread_name)
  | exec file => sys_exec junk entry space slash cp_file_name first_word cp_name spt_junk empty file
  | wait pid => leave (WaitsFor pid)
  | create file initial_size => value bool_of (sys_create junk entry slash empty file initial_size)
  | remove file => value bool_of (sys_remove junk entry slash empty file)
  | open file => value int_of (sys_open junk entry slash cp_name empty file)
  | filesize fd => value int_of (on_p (sys_filesize fd))
  | read fd buffer size => value int_of (sys_read junk fd buffer size)
  | write fd buffer size => value int_of (sys_write junk fd buffer size)
  | seek fd position => no_value (on_p (sys_seek fd position))
  | tell fd => value int_of (on_p (sys_tell fd))
  | close fd => no_value (on_p (sys_close fd))
  | dup2 oldfd newfd => value int_of (on_p (sys_dup2 oldfd newfd))
  | mmap addr length writable fd offset => value int_of (sys_mmap addr length writable fd offset)
  | munmap addr => no_value (sys_munmap as_file addr)
  | chdir dir => value bool_of (call_chdir junk entry slash dir)
  | mkdir dir => value bool_of (call_mkdir junk entry slash new_dir_junk dir)
  | readdir fd name => value bool_of (sys_readdir junk entry fd name)
  | isdir fd => value bool_of (on_p (sys_isdir fd))
  | inumber fd => value int_of (on_p (sys_inumber fd))
  | symlink _ _ | mount _ _ _ | umount _ => leave (Exits None)
  end.
End serve.

(** The registers of a request when the kernel has served it. *)
Definition answered (v : option Z) (f : intr_frame) : intr_frame :=
  match v with Some v => set_rax (u64 v) f | None => f end.
