(* ===== verification/OrderedSeq.v ===== *)
(** * Sequences kept in order

    What list_insert_ordered and list_sort compute, as functions on sequences.
    The clients that keep threads in lists (threads/thread.c, threads/synch.c,
    devices/timer.c) are modelled with these functions; the theorems at the end
    show that lib/kernel/list.c implements them. *)
From stdpp Require Import base numbers list sets gmap sorting.
From Stdlib Require Import ZArith Lia.
From S2P Require Import Prelude DList ListOps ListSort.
Open Scope Z_scope.

(** ** The functions *)

Section seqs.
Context {A : Type} (less : A → A → bool).
Implicit Types (e x y : A) (l xs ys : list A).

(** Before the first element that [e] is less than. *)
Fixpoint insert_ordered e l : list A :=
  match l with
  | [] => [e]
  | y :: l' => if less e y then e :: l else y :: insert_ordered e l'
  end.

(** The stable sort. *)
Definition isort l : list A := foldl (λ acc e, insert_ordered e acc) [] l.

Lemma insert_ordered_perm e l : insert_ordered e l ≡ₚ e :: l.
Proof.
  induction l as [|y l IH]; simpl; [done|]. destruct (less e y); [done|].
  rewrite IH. apply Permutation_swap.
Qed.
Lemma isort_from_perm acc l : foldl (λ acc e, insert_ordered e acc) acc l ≡ₚ l ++ acc.
Proof.
  revert acc. induction l as [|e l IH]; intros acc; simpl; [done|].
  rewrite IH, insert_ordered_perm. by rewrite Permutation_middle.
Qed.
Lemma isort_perm l : isort l ≡ₚ l.
Proof. unfold isort. by rewrite isort_from_perm, app_nil_r. Qed.

Lemma elem_of_insert_ordered x e l : x ∈ insert_ordered e l ↔ x = e ∨ x ∈ l.
Proof. by rewrite insert_ordered_perm, elem_of_cons. Qed.
Lemma elem_of_isort x l : x ∈ isort l ↔ x ∈ l.
Proof. by rewrite isort_perm. Qed.
Lemma NoDup_insert_ordered e l : NoDup l → e ∉ l → NoDup (insert_ordered e l).
Proof. intros. rewrite insert_ordered_perm. by constructor. Qed.
Lemma NoDup_isort l : NoDup l → NoDup (isort l).
Proof. by rewrite isort_perm. Qed.
Lemma isort_nil l : isort l = [] ↔ l = [].
Proof.
  split; [|by intros ->]. intros H. apply Permutation_nil_r. by rewrite <- H, isort_perm.
Qed.
Lemma length_isort l : length (isort l) = length l.
Proof. by rewrite isort_perm. Qed.

(** The result only depends on the order of the elements at hand. *)
Lemma insert_ordered_split e l :
  ∃ dn rest, l = dn ++ rest ∧ insert_ordered e l = dn ++ e :: rest ∧
    Forall (λ y, less e y = false) dn ∧ match rest with [] => True | y :: _ => less e y = true end.
Proof.
  induction l as [|y l (dn & rest & -> & Hi & Hf & Hr)]; simpl; [by exists [], []|].
  destruct (less e y) eqn:Hy.
  - by exists [], (y :: dn ++ rest).
  - exists (y :: dn), rest. rewrite Hi. split_and!; try done. by constructor.
Qed.
End seqs.

(** Sorting by a key, the largest first. *)
Section keys.
Context {A : Type} (key : A → Z).
Definition above (a b : A) : bool := key b <? key a.

Lemma isort_front l e r : isort above l = e :: r → ∀ x, x ∈ l → key x <= key e.
Proof.
  assert (H : ∀ l acc, StronglySorted (λ a b, key b <= key a) acc →
    StronglySorted (λ a b, key b <= key a) (foldl (λ acc e, insert_ordered above e acc) acc l)).
  { clear. induction l as [|e l IH]; intros acc Hs; simpl; [done|]. apply IH. clear IH.
    induction Hs as [|y acc Hs IH Hf]; simpl; [by repeat constructor|].
    unfold above at 1. destruct (Z.ltb_spec (key y) (key e)) as [Hlt|Hge].
    - constructor; [by constructor|]. constructor; [lia|].
      eapply Forall_impl; [exact Hf|]. simpl. lia.
    - constructor; [done|]. rewrite insert_ordered_perm. by constructor. }
  intros Heq x Hx. specialize (H l [] (SSorted_nil _)). fold (isort above l) in H.
  rewrite <- (elem_of_isort above), Heq in Hx. rewrite Heq in H.
  apply StronglySorted_inv in H as [_ Hf]. apply elem_of_cons in Hx as [->|Hx]; [lia|].
  exact (proj1 (Forall_forall _ _) Hf x Hx).
Qed.
End keys.

#[export] Instance above_order (key : Z → Z) : WeakOrder (above key).
Proof. unfold above. split; intros *; rewrite ?Z.ltb_lt, ?Z.ltb_ge; lia. Qed.

(** ** What lib/kernel/list.c computes *)

Section refinement.
Context (less : Z → Z → bool) `{!WeakOrder less}.
Implicit Types (h : heap) (ls e : Z) (xs ys : list Z).

Lemma insert_ordered_ok e xs :
  ordered less xs → ordered less (insert_ordered less e xs) ∧ stable less (xs ++ [e]) (insert_ordered less e xs).
Proof.
  intros Ho. destruct (insert_ordered_split less e xs) as (dn & rest & -> & -> & Hdn & Hr).
  apply ordered_app in Ho as (Ho1 & Ho2 & Ho3); [|done].
  assert (Hlt : Forall (λ y, less e y = true) rest).
  { destruct rest as [|y rest]; [done|]. apply StronglySorted_inv in Ho2 as [_ Hf].
    constructor; [done|]. eapply Forall_impl; [exact Hf|]. intros z Hz. by eapply less_le_trans. }
  split.
  - apply ordered_app; [done|]. split; [done|]. split.
    + constructor; [done|]. eapply Forall_impl; [exact Hlt|]. intros y. by apply less_le.
    + intros a b Ha Hb. apply elem_of_cons in Hb as [->|Hb]; [|by apply Ho3].
      exact (proj1 (Forall_forall _ _) Hdn a Ha).
  - rewrite <- app_assoc. apply stable_app; [done|]. by apply stable_move.
Qed.

Lemma isort_ok xs : ordered less (isort less xs) ∧ stable less xs (isort less xs).
Proof.
  assert (H : ∀ xs acc, ordered less acc →
    ordered less (foldl (λ acc e, insert_ordered less e acc) acc xs) ∧
    stable less (acc ++ xs) (foldl (λ acc e, insert_ordered less e acc) acc xs)).
  { clear xs. induction xs as [|e xs IH]; intros acc Ho; simpl; [by rewrite app_nil_r|].
    destruct (insert_ordered_ok e acc Ho) as [Ho' Hs]. destruct (IH _ Ho') as [H1 H2].
    split; [done|]. eapply stable_trans; [|exact H2]. rewrite cons_middle, app_assoc.
    by apply stable_app. }
  apply (H xs []). constructor.
Qed.

(** Order and stability determine a sequence. *)
Lemma ordered_stable_eq xs ys : ordered less xs → ordered less ys → stable less xs ys → xs = ys.
Proof.
  revert ys. induction xs as [|x xs IH]; intros ys Hx Hy [Hp Hf].
  { by apply Permutation_nil_l in Hp as ->. }
  destruct ys as [|y ys]; [by apply Permutation_nil_r in Hp|].
  apply StronglySorted_inv in Hx as [Hx Hxf]. apply StronglySorted_inv in Hy as [Hy Hyf].
  assert (Hxy : le less x y).
  { assert (y ∈ x :: xs) as [->|?]%elem_of_cons by (rewrite Hp; set_solver); [by apply le_refl|].
    by apply (proj1 (Forall_forall _ _) Hxf). }
  assert (Hyx : le less y x).
  { assert (x ∈ y :: ys) as [->|?]%elem_of_cons by (rewrite <- Hp; set_solver); [by apply le_refl|].
    by apply (proj1 (Forall_forall _ _) Hyf). }
  assert (x = y) as ->.
  { specialize (Hf x). rewrite !filter_cons_True in Hf.
    - congruence.
    - split; [apply le_refl|apply le_refl]; done.
    - by split. }
  f_equal. apply IH; [done..|]. split; [by eapply Permutation_cons_inv|].
  intros z. specialize (Hf z). rewrite !filter_cons in Hf. destruct (decide (equiv less z y)); congruence.
Qed.

Lemma list_sort_seq h ls xs :
  dlist h ls xs → ∃ h', list_sort less ls h = Done (tt, h') ∧ dlist h' ls (isort less xs) ∧
    outside (nodes ls xs) h h'.
Proof.
  intros Hd. destruct (wp_run_unit _ _ _ (list_sort_wp less h ls xs Hd)) as (h' & Hrun & ys & Hd' & Ho & Hs & Hout).
  destruct (isort_ok xs) as [Ho2 [Hp2 Hf2]]. exists h'. split; [done|]. split; [|done].
  assert (isort less xs = ys) as ->; [|done]. apply ordered_stable_eq; [done..|].
  destruct Hs as [Hp Hf]. split; [by rewrite <- Hp2|]. intros x. by rewrite Hf, Hf2.
Qed.

(** The list operations compute the functions on sequences with which the
    clients are modelled. *)
Theorem list_order_refines h ls xs :
  dlist h ls xs →
  (∃ h', list_sort less ls h = Done (tt, h') ∧ dlist h' ls (isort less xs) ∧
     outside (nodes ls xs) h h') ∧
  ∀ e x, e ≠ 0 → e ∉ nodes ls xs → h !! e = Some x →
    ∃ h', list_insert_ordered less ls e h = Done (tt, h') ∧
      dlist h' ls (insert_ordered less e xs) ∧ outside (e :: nodes ls xs) h h'.
Proof.
  intros Hd. split; [by apply list_sort_seq|]. intros e x He Hel Hx.
  destruct (wp_run_unit _ _ _ (list_insert_ordered_wp less h ls xs e x Hd He Hel Hx))
    as (h' & Hrun & dn & rest & -> & Hd' & Hout & Hle & Hr).
  exists h'. split; [done|]. split; [|done].
  assert (insert_ordered less e (dn ++ rest) = dn ++ e :: rest) as ->; [|done].
  clear -Hle Hr. induction Hle as [|y dn Hy _ IH]; simpl.
  - destruct rest as [|y rest]; simpl; [done|]. by rewrite Hr.
  - unfold le in Hy. by rewrite Hy, IH.
Qed.
End refinement.
