(* ===== verification/Thread.v ===== *)
(** * Threads and the scheduler (threads/thread.c)

    The threads, the ready list and the priority scheduler, with the advanced
    scheduler's arithmetic. A thread that waits inside of a kernel function keeps
    what is left of that function in [todo]; Synch.v runs it. *)
From stdpp Require Import base numbers list sets gmap countable.
From Stdlib Require Import ZArith Lia.
From S2P Require Import Prelude OrderedSeq Arith FixedPoint.
Open Scope Z_scope.

(** ** Data *)

(** enum thread_status *)
Inductive thread_status := THREAD_RUNNING | THREAD_READY | THREAD_BLOCKED | THREAD_DYING.
#[export] Instance thread_status_eq : EqDecision thread_status.
Proof. solve_decision. Defined.

Definition PRI_MIN : Z := 0.
Definition PRI_DEFAULT : Z := 31.
Definition PRI_MAX : Z := 63.
Definition TIME_SLICE : Z := 4.
Definition TIMER_FREQ : Z := 100.

(** A semaphore is named by the object that it is a part of: none, a struct
    lock, or the struct semaphore_elem of a thread in cond_wait. *)
Inductive sema_id := Sema (a : Z) | OfLock (l : Z) | OfWaiter (t : Z).
#[export] Instance sema_id_eq : EqDecision sema_id.
Proof. solve_decision. Defined.
#[export] Instance sema_id_countable : Countable sema_id.
Proof.
  apply (inj_countable' (λ s, match s with Sema a => inl (inl a) | OfLock a => inl (inr a) | OfWaiter a => inr a end)
    (λ x, match x with inl (inl a) => Sema a | inl (inr a) => OfLock a | inr a => OfWaiter a end)).
  by intros [].
Defined.

(** struct semaphore *)
Record semaphore := Semaphore { value : Z; waiters : list Z }.

(** struct __donation__, without its list element *)
Record donation := Donation { dn_priority : Z; dn_donor : Z; dn_lock : Z }.

(** What is left of the kernel functions that a thread is in: each frame is a
    part of a function of threads/synch.c, threads/thread.c or devices/timer.c.
    A part is one step of the model, and the timer may interrupt between any two.
    That it may also interrupt inside of the parts that run with interrupts on (a
    turn of lock_acquire's donation loop, lock_release before its sema_up,
    lock_acquire behind it) is not modelled. *)
Inductive frame :=
  | SemaDown (s : sema_id) | SemaUp (s : sema_id)
  | LockAcquire (l : Z) | Donate (pending : Z) | LockDown (l : Z) | LockAcquired (l : Z)
  | LockTryAcquire (l : Z) | LockTried (l : Z)
  | LockRelease (l : Z) | LockUp (l : Z) | Preempt
  | CondWait (c l : Z) | CondSignal (c l : Z) | CondBroadcast (c l : Z)
  | ThreadYield | SetPriority (p : Z) | SetNice (n : Z)
  | TimerSleep (n : Z) | Asleep
  | ThreadExit | IdleLoop | KernelThread | CreateEnd (t : Z).

(** struct thread: the members that the scheduler and the locks use. *)
Record thread := Thread {
  status : thread_status;
  priority : Z;
  original_priority : Z;
  donations : list donation;
  pending_lock : Z;
  nice : Z;
  recent_cpu : Z;
  todo : list frame;
}.

(** The variables of the scheduler. Lists hold the threads of their elements;
    OrderedSeq.v relates them to lib/kernel/list.c. [sleepers] is
    block_thread_list: threads with the ticks to wake them at. *)
Record sched := Sched {
  threads : gmap Z thread;
  ready_list : list Z;
  all_list : list Z;
  destruction_req : list Z;
  current : Z;
  idle_thread : Z;
  initial_thread : Z;
  semas : gmap sema_id semaphore;
  locks : gmap Z Z;            (** the holder of each struct lock *)
  conds : gmap Z (list Z);     (** the threads whose semaphore_elem waits *)
  sleepers : list (Z * Z);
  closet_tick : Z;
  ticks : Z;
  thread_ticks : Z;
  load_avg : Z;
  thread_mlfqs : bool;
  in_external_intr : bool;
  yield_on_return : bool;
}.

(** ** Updates *)

Definition set_status x t := Thread x (priority t) (original_priority t) (donations t)
  (pending_lock t) (nice t) (recent_cpu t) (todo t).
Definition set_prio x t := Thread (status t) x (original_priority t) (donations t)
  (pending_lock t) (nice t) (recent_cpu t) (todo t).
Definition set_original x t := Thread (status t) (priority t) x (donations t)
  (pending_lock t) (nice t) (recent_cpu t) (todo t).
Definition set_donations x t := Thread (status t) (priority t) (original_priority t) x
  (pending_lock t) (nice t) (recent_cpu t) (todo t).
Definition set_pending x t := Thread (status t) (priority t) (original_priority t) (donations t)
  x (nice t) (recent_cpu t) (todo t).
Definition set_nice x t := Thread (status t) (priority t) (original_priority t) (donations t)
  (pending_lock t) x (recent_cpu t) (todo t).
Definition set_recent x t := Thread (status t) (priority t) (original_priority t) (donations t)
  (pending_lock t) (nice t) x (todo t).
Definition set_todo x t := Thread (status t) (priority t) (original_priority t) (donations t)
  (pending_lock t) (nice t) (recent_cpu t) x.

Definition with_threads x s := Sched x (ready_list s) (all_list s) (destruction_req s) (current s)
  (idle_thread s) (initial_thread s) (semas s) (locks s) (conds s) (sleepers s) (closet_tick s)
  (ticks s) (thread_ticks s) (load_avg s) (thread_mlfqs s) (in_external_intr s) (yield_on_return s).
Definition with_ready x s := Sched (threads s) x (all_list s) (destruction_req s) (current s)
  (idle_thread s) (initial_thread s) (semas s) (locks s) (conds s) (sleepers s) (closet_tick s)
  (ticks s) (thread_ticks s) (load_avg s) (thread_mlfqs s) (in_external_intr s) (yield_on_return s).
Definition with_all x s := Sched (threads s) (ready_list s) x (destruction_req s) (current s)
  (idle_thread s) (initial_thread s) (semas s) (locks s) (conds s) (sleepers s) (closet_tick s)
  (ticks s) (thread_ticks s) (load_avg s) (thread_mlfqs s) (in_external_intr s) (yield_on_return s).
Definition with_destr x s := Sched (threads s) (ready_list s) (all_list s) x (current s)
  (idle_thread s) (initial_thread s) (semas s) (locks s) (conds s) (sleepers s) (closet_tick s)
  (ticks s) (thread_ticks s) (load_avg s) (thread_mlfqs s) (in_external_intr s) (yield_on_return s).
Definition with_current x s := Sched (threads s) (ready_list s) (all_list s) (destruction_req s) x
  (idle_thread s) (initial_thread s) (semas s) (locks s) (conds s) (sleepers s) (closet_tick s)
  (ticks s) (thread_ticks s) (load_avg s) (thread_mlfqs s) (in_external_intr s) (yield_on_return s).
Definition with_idle x s := Sched (threads s) (ready_list s) (all_list s) (destruction_req s) (current s)
  x (initial_thread s) (semas s) (locks s) (conds s) (sleepers s) (closet_tick s)
  (ticks s) (thread_ticks s) (load_avg s) (thread_mlfqs s) (in_external_intr s) (yield_on_return s).
Definition with_initial x s := Sched (threads s) (ready_list s) (all_list s) (destruction_req s) (current s)
  (idle_thread s) x (semas s) (locks s) (conds s) (sleepers s) (closet_tick s)
  (ticks s) (thread_ticks s) (load_avg s) (thread_mlfqs s) (in_external_intr s) (yield_on_return s).
Definition with_semas x s := Sched (threads s) (ready_list s) (all_list s) (destruction_req s)
  (current s) (idle_thread s) (initial_thread s) x (locks s) (conds s) (sleepers s) (closet_tick s)
  (ticks s) (thread_ticks s) (load_avg s) (thread_mlfqs s) (in_external_intr s) (yield_on_return s).
Definition with_locks x s := Sched (threads s) (ready_list s) (all_list s) (destruction_req s)
  (current s) (idle_thread s) (initial_thread s) (semas s) x (conds s) (sleepers s) (closet_tick s)
  (ticks s) (thread_ticks s) (load_avg s) (thread_mlfqs s) (in_external_intr s) (yield_on_return s).
Definition with_conds x s := Sched (threads s) (ready_list s) (all_list s) (destruction_req s)
  (current s) (idle_thread s) (initial_thread s) (semas s) (locks s) x (sleepers s) (closet_tick s)
  (ticks s) (thread_ticks s) (load_avg s) (thread_mlfqs s) (in_external_intr s) (yield_on_return s).
Definition with_sleepers x c s := Sched (threads s) (ready_list s) (all_list s) (destruction_req s)
  (current s) (idle_thread s) (initial_thread s) (semas s) (locks s) (conds s) x c
  (ticks s) (thread_ticks s) (load_avg s) (thread_mlfqs s) (in_external_intr s) (yield_on_return s).
Definition with_ticks x s := Sched (threads s) (ready_list s) (all_list s) (destruction_req s)
  (current s) (idle_thread s) (initial_thread s) (semas s) (locks s) (conds s) (sleepers s)
  (closet_tick s) x (thread_ticks s) (load_avg s) (thread_mlfqs s) (in_external_intr s) (yield_on_return s).
Definition with_thread_ticks x s := Sched (threads s) (ready_list s) (all_list s) (destruction_req s)
  (current s) (idle_thread s) (initial_thread s) (semas s) (locks s) (conds s) (sleepers s)
  (closet_tick s) (ticks s) x (load_avg s) (thread_mlfqs s) (in_external_intr s) (yield_on_return s).
Definition with_load_avg x s := Sched (threads s) (ready_list s) (all_list s) (destruction_req s)
  (current s) (idle_thread s) (initial_thread s) (semas s) (locks s) (conds s) (sleepers s)
  (closet_tick s) (ticks s) (thread_ticks s) x (thread_mlfqs s) (in_external_intr s) (yield_on_return s).
Definition with_intr a b s := Sched (threads s) (ready_list s) (all_list s) (destruction_req s)
  (current s) (idle_thread s) (initial_thread s) (semas s) (locks s) (conds s) (sleepers s)
  (closet_tick s) (ticks s) (thread_ticks s) (load_avg s) (thread_mlfqs s) a b.

Definition get_thread (t : Z) : ST sched thread := s ← get_st; deref (threads s !! t).
Definition upd_thread (t : Z) (f : thread → thread) : ST sched unit :=
  th ← get_thread t; modify (λ s, with_threads (<[t := f th]> (threads s)) s).

(** ** Priorities *)

(** compare_priority compares the priorities that the threads have now. *)
Definition prio (s : sched) (t : Z) : Z := from_option priority 0 (threads s !! t).
Definition compare_priority (s : sched) : Z → Z → bool := above (prio s).

(** list_insert_ordered and list_sort with compare_priority; the elements of
    the list must be threads. *)
Definition insert_by_priority (t : Z) (l : list Z) : ST sched (list Z) :=
  s ← get_st; _ ← deref (mapM (λ t, threads s !! t) (t :: l));
  mret (insert_ordered (compare_priority s) t l).
Definition sort_by_priority (l : list Z) : ST sched (list Z) :=
  s ← get_st; _ ← deref (mapM (λ t, threads s !! t) l); mret (isort (compare_priority s) l).

(** ** Switching threads *)

Definition thread_current : ST sched Z :=
  s ← get_st; th ← get_thread (current s);
  _ ← assert_st (bool_decide (status th = THREAD_RUNNING)); mret (current s).

(** The rest of the function that the current thread is in, when it goes on. *)
Definition later (fs : list frame) : ST sched unit :=
  s ← get_st; upd_thread (current s) (λ th, set_todo (fs ++ todo th) th).

Definition next_thread_to_run : ST sched Z :=
  s ← get_st;
  match ready_list s with
  | [] => mret (idle_thread s)
  | t :: l => _ ← modify (with_ready l); mret t
  end.

Definition schedule : ST sched unit :=
  curr ← gets current;
  next ← next_thread_to_run;
  cth ← get_thread curr;
  _ ← assert_st (negb (bool_decide (status cth = THREAD_RUNNING)));
  s ← get_st;
  _ ← assert_st (bool_decide (is_Some (threads s !! next)));
  _ ← upd_thread next (set_status THREAD_RUNNING);
  _ ← modify (with_thread_ticks 0);
  if curr =? next then mret tt else
  _ ← (if bool_decide (status cth = THREAD_DYING) && negb (curr =? initial_thread s) then
         l ← insert_by_priority curr (destruction_req s);
         modify (with_destr l)
       else mret tt);
  modify (with_current next).

Definition do_schedule (st : thread_status) : ST sched unit :=
  cur ← thread_current;
  _ ← modify (λ s, with_destr [] (with_threads
        (foldr delete (threads s) (destruction_req s)) s));
  _ ← upd_thread cur (set_status st);
  schedule.

(** thread_block, in an interrupt-free part of a function *)
Definition thread_block : ST sched unit :=
  s ← get_st;
  _ ← assert_st (negb (in_external_intr s));
  cur ← thread_current;
  _ ← upd_thread cur (set_status THREAD_BLOCKED);
  schedule.

Definition thread_unblock (t : Z) : ST sched unit :=
  th ← get_thread t;
  _ ← assert_st (bool_decide (status th = THREAD_BLOCKED));
  s ← get_st;
  l ← insert_by_priority t (ready_list s);
  _ ← modify (with_ready l);
  upd_thread t (set_status THREAD_READY).

Definition thread_yield : ST sched unit :=
  curr ← thread_current;
  s ← get_st;
  _ ← assert_st (negb (in_external_intr s));
  _ ← (if negb (curr =? idle_thread s) then
         l ← insert_by_priority curr (ready_list s); modify (with_ready l)
       else mret tt);
  do_schedule THREAD_READY.

(** What thread_exit does behind its call of process_exit, which is modelled in
    Desc.v, Exec.v and Wait.v. *)
Definition thread_exit : ST sched unit :=
  s ← get_st;
  _ ← assert_st (negb (in_external_intr s));
  do_schedule THREAD_DYING.

Definition compare_cur_next_priority : ST sched unit :=
  s ← get_st;
  match ready_list s with
  | [] => mret tt
  | _ =>
    l ← sort_by_priority (ready_list s);
    _ ← modify (with_ready l);
    next ← deref (head l);
    nth ← get_thread next;
    cur ← thread_current;
    cth ← get_thread cur;
    if priority cth <? priority nth then
      if in_external_intr s then modify (λ s, with_intr (in_external_intr s) true s)
      else thread_yield
    else mret tt
  end.

Definition thread_set_priority (new_priority : Z) : ST sched unit :=
  s ← get_st;
  if thread_mlfqs s then mret tt else
  cur ← thread_current;
  _ ← upd_thread cur (set_original new_priority);
  th ← get_thread cur;
  _ ← upd_thread cur (set_prio
        match donations th with
        | [] => new_priority
        | d :: _ => if new_priority <? dn_priority d then dn_priority d else new_priority
        end);
  compare_cur_next_priority.

Definition thread_get_priority : ST sched Z :=
  cur ← thread_current; th ← get_thread cur; mret (priority th).

(** init_thread and thread_unblock of thread_create, for the page [t] that the
    page allocator returned; the new thread starts in kernel_thread. *)
Definition init_thread (t priority : Z) : ST sched unit :=
  _ ← assert_st ((PRI_MIN <=? priority) && (priority <=? PRI_MAX));
  s ← get_st;
  nr ← (if thread_mlfqs s then
          if t =? initial_thread s then mret (0, 0) else
          cur ← thread_current; th ← get_thread cur; mret (nice th, recent_cpu th)
        else mret (0, 0));
  modify (λ s, with_all (all_list s ++ [t]) (with_threads
    (<[t := Thread THREAD_BLOCKED priority priority [] 0 (fst nr) (snd nr) [KernelThread]]>
       (threads s)) s)).

(** thread_init: the code that runs becomes the thread [t] that is main; the
    lock of the thread identifiers is not modelled. *)
Definition thread_init (t : Z) : ST sched unit :=
  _ ← modify (λ s, with_ready [] (with_destr [] (with_all [] s)));
  _ ← modify (with_initial t);
  _ ← modify (with_current t);
  _ ← init_thread t PRI_DEFAULT;
  upd_thread t (λ th, set_todo [] (set_status THREAD_RUNNING th)).

(** ** The advanced scheduler *)

Definition update_recent_cpu : ST sched unit :=
  cur ← thread_current;
  th ← get_thread cur;
  x ← lift_out (add_fp_int (recent_cpu th) 1);
  upd_thread cur (set_recent x).

Definition update_load_avg : ST sched unit :=
  s ← get_st;
  cur ← thread_current;
  let ready_threads := zlength (ready_list s) + (if cur =? idle_thread s then 0 else 1) in
  a ← lift_out (mul_fp_int (load_avg s) 59);
  term1 ← lift_out (div_fp_int a 60);
  one ← lift_out (int_to_fp 1);
  b ← lift_out (div_fp_int one 60);
  term2 ← lift_out (mul_fp_int b ready_threads);
  x ← lift_out (add_fp term1 term2);
  modify (with_load_avg x).

(** The priority that update_priority computes. *)
Definition mlfqs_priority (th : thread) : outcome Z :=
  q ← div_fp_int (recent_cpu th) 4;
  r ← fp_to_int_round q;
  a ← as_int (PRI_MAX - r);
  n ← as_int (nice th * 2);
  p ← as_int (a - n);
  let p := if PRI_MAX <? p then PRI_MAX else p in
  Done (if p <? PRI_MIN then PRI_MIN else p).

Definition update_priority (t : Z) : ST sched unit :=
  s ← get_st;
  if t =? idle_thread s then mret tt else
  th ← get_thread t;
  p ← lift_out (mlfqs_priority th);
  upd_thread t (set_prio p).

(** The new recent_cpu of one thread. *)
Definition decay (load_avg : Z) (th : thread) : outcome Z :=
  a ← mul_fp_int load_avg 2;
  b ← add_fp_int a 1;
  coeff ← div_fp a b;
  c ← mul_fp coeff (recent_cpu th);
  n ← int_to_fp (nice th);
  add_fp c n.

(** The loops over [all_list] skip the idle thread and dying threads. *)
Definition for_all_threads (f : Z → ST sched unit) : ST sched unit :=
  s ← get_st;
  for_st (λ t _,
    th ← get_thread t;
    if bool_decide (status th = THREAD_DYING) || (t =? idle_thread s) then mret tt else f t)
  (all_list s) tt.

Definition update_recent_cpu_all : ST sched unit :=
  for_all_threads (λ t,
    s ← get_st;
    th ← get_thread t;
    x ← lift_out (decay (load_avg s) th);
    upd_thread t (set_recent x)).

Definition update_all_priority : ST sched unit :=
  _ ← for_all_threads update_priority;
  compare_cur_next_priority.

Definition thread_set_nice (n : Z) : ST sched unit :=
  cur ← thread_current;
  _ ← upd_thread cur (set_nice n);
  _ ← update_priority cur;
  compare_cur_next_priority.

Definition thread_get_nice : ST sched Z :=
  cur ← thread_current; th ← get_thread cur; mret (nice th).
Definition thread_get_load_avg : ST sched Z :=
  s ← get_st; x ← lift_out (as_int (load_avg s * 100)); lift_out (fp_to_int_round x).
Definition thread_get_recent_cpu : ST sched Z :=
  cur ← thread_current; th ← get_thread cur;
  x ← lift_out (as_int (recent_cpu th * 100)); lift_out (fp_to_int_round x).

(** thread_tick, in the timer interrupt; [mlfqs_on_tick] is that of
    devices/timer.c. *)
Definition thread_tick (mlfqs_on_tick : ST sched unit) : ST sched unit :=
  _ ← thread_current;
  s ← get_st;
  _ ← (if thread_mlfqs s then mlfqs_on_tick else mret tt);
  _ ← modify (λ s, with_thread_ticks (thread_ticks s + 1) s);
  s ← get_st;
  if TIME_SLICE <=? thread_ticks s then modify (λ s, with_intr (in_external_intr s) true s)
  else mret tt.
