(* ===== verification/Synch.v ===== *)
(** * Semaphores, locks and condition variables (threads/synch.c)

    Each function is split at the places where it may wait or be preempted: what
    follows such a place is left in the thread's [todo] (see Thread.v). *)
From stdpp Require Import base numbers list sets gmap.
From Stdlib Require Import ZArith Lia.
From S2P Require Import Prelude OrderedSeq Thread.
Open Scope Z_scope.

(** ** Semaphores *)

Definition get_sema (a : sema_id) : ST sched semaphore := s ← get_st; deref (semas s !! a).
Definition put_sema (a : sema_id) (sm : semaphore) : ST sched unit :=
  modify (λ s, with_semas (<[a := sm]> (semas s)) s).

Definition sema_init (a : sema_id) (v : Z) : ST sched unit := put_sema a (Semaphore v []).

(** One turn of sema_down's loop: the thread waits, with [wait] left to do, or
    it takes the semaphore and goes on with [go]. *)
Definition sema_down_with (a : sema_id) (wait go : list frame) : ST sched unit :=
  s ← get_st;
  _ ← assert_st (negb (in_external_intr s));
  sm ← get_sema a;
  if value sm =? 0 then
    cur ← thread_current;
    l ← insert_by_priority cur (waiters sm);
    _ ← put_sema a (Semaphore (value sm) l);
    _ ← later wait;
    thread_block
  else
    _ ← put_sema a (Semaphore (u32 (value sm - 1)) (waiters sm));
    later go.

Definition sema_down (a : sema_id) : ST sched unit := sema_down_with a [SemaDown a] [].

Definition sema_try_down (a : sema_id) : ST sched bool :=
  sm ← get_sema a;
  if 0 <? value sm then
    _ ← put_sema a (Semaphore (u32 (value sm - 1)) (waiters sm)); mret true
  else mret false.

Definition sema_up (a : sema_id) : ST sched unit :=
  sm ← get_sema a;
  _ ← (match waiters sm with
       | [] => mret tt
       | _ =>
         l ← sort_by_priority (waiters sm);
         t ← deref (head l);
         _ ← put_sema a (Semaphore (value sm) (tail l));
         thread_unblock t
       end);
  sm ← get_sema a;
  _ ← put_sema a (Semaphore (u32 (value sm + 1)) (waiters sm));
  compare_cur_next_priority.

(** ** Locks *)

Definition get_holder (l : Z) : ST sched Z := s ← get_st; deref (locks s !! l).
Definition put_holder (l t : Z) : ST sched unit :=
  modify (λ s, with_locks (<[l := t]> (locks s)) s).

Definition lock_init (l : Z) : ST sched unit :=
  _ ← put_holder l 0; sema_init (OfLock l) 1.

Definition lock_held_by_current_thread (l : Z) : ST sched bool :=
  h ← get_holder l; cur ← thread_current; mret (h =? cur).

(** create_donation, as long as malloc has memory: the source stores through the
    result before it looks at it. *)
Definition create_donation (cur l : Z) : ST sched donation :=
  p ← thread_get_priority; mret (Donation p cur l).
Definition compare_priority_for_donate : donation → donation → bool := above dn_priority.

(** One turn of lock_acquire's loop over the locks that the holders wait for. *)
Definition donate_step (cur pending : Z) : ST sched (Z + unit) :=
  if pending =? 0 then mret (inr tt) else
  holder ← get_holder pending;
  p ← thread_get_priority;
  if holder =? 0 then mret (inr tt) else
  hth ← get_thread holder;
  if p <? priority hth then mret (inr tt) else
  donate ← create_donation cur pending;
  _ ← (if priority hth <? p then upd_thread holder (set_prio p) else mret tt);
  _ ← upd_thread holder (λ th,
        set_donations (insert_ordered compare_priority_for_donate donate (donations th)) th);
  hth ← get_thread holder;
  _ ← (if pending_lock hth =? 0 then mret tt else
         sm ← get_sema (OfLock (pending_lock hth));
         l ← sort_by_priority (waiters sm);
         put_sema (OfLock (pending_lock hth)) (Semaphore (value sm) l));
  mret (inl (pending_lock hth)).

(** The loop: each turn is a part. *)
Definition donate (pending : Z) : ST sched unit :=
  cur ← thread_current;
  r ← donate_step cur pending;
  match r with inl next => later [Donate next] | inr _ => mret tt end.

(** lock_acquire up to its loop; sema_down is LockDown, and the rest of it
    LockAcquired. *)
Definition lock_acquire (l : Z) : ST sched unit :=
  s ← get_st;
  _ ← assert_st (negb (in_external_intr s));
  mine ← lock_held_by_current_thread l;
  _ ← assert_st (negb mine);
  cur ← thread_current;
  holder ← get_holder l;
  if holder =? 0 then later [LockDown l] else
  _ ← upd_thread cur (set_pending l);
  later [Donate l; LockDown l].
Definition lock_down (l : Z) : ST sched unit := sema_down_with (OfLock l) [LockDown l] [LockAcquired l].
Definition lock_acquired (l : Z) : ST sched unit :=
  cur ← thread_current;
  _ ← upd_thread cur (set_pending 0);
  put_holder l cur.

Definition lock_try_acquire (l : Z) : ST sched unit :=
  mine ← lock_held_by_current_thread l;
  _ ← assert_st (negb mine);
  success ← sema_try_down (OfLock l);
  if (success : bool) then later [LockTried l] else mret tt.
Definition lock_tried (l : Z) : ST sched unit := cur ← thread_current; put_holder l cur.

Definition remove_donation_for_lock (l : Z) : ST sched unit :=
  cur ← thread_current;
  upd_thread cur (λ th, set_donations (filter (λ d, dn_lock d ≠ l) (donations th)) th).

Definition recalc_priority : ST sched unit :=
  cur ← thread_current;
  _ ← upd_thread cur (λ th, set_prio (original_priority th) th);
  th ← get_thread cur;
  match donations th with
  | [] => mret tt
  | _ =>
    let ds := isort compare_priority_for_donate (donations th) in
    _ ← upd_thread cur (set_donations ds);
    d ← deref (head ds);
    if priority th <? dn_priority d then upd_thread cur (set_prio (dn_priority d)) else mret tt
  end.

(** lock_release up to its sema_up, which LockUp does. *)
Definition lock_release (l : Z) : ST sched unit :=
  mine ← lock_held_by_current_thread l;
  _ ← assert_st mine;
  h ← get_holder l;
  _ ← assert_st (negb (h =? 0));
  _ ← remove_donation_for_lock l;
  _ ← recalc_priority;
  _ ← put_holder l 0;
  later [LockUp l; Preempt].
Definition lock_up (l : Z) : ST sched unit := sema_up (OfLock l).

(** ** Condition variables

    A waiter of a condition variable is the semaphore_elem on the stack of a
    thread; lists of them are lists of these threads. *)

Definition cond_init (c : Z) : ST sched unit := modify (λ s, with_conds (<[c := []]> (conds s)) s).

(** compare_priority_for_cond: by the first thread that waits on the semaphore
    of each element. *)
Definition compare_priority_for_cond (s : sched) (a b : Z) : bool :=
  match from_option waiters [] (semas s !! OfWaiter a), from_option waiters [] (semas s !! OfWaiter b) with
  | [], _ => false
  | _, [] => true
  | t1 :: _, t2 :: _ => prio s t2 <? prio s t1
  end.

Definition cond_wait (c l : Z) : ST sched unit :=
  s ← get_st;
  _ ← assert_st (negb (in_external_intr s));
  mine ← lock_held_by_current_thread l;
  _ ← assert_st mine;
  cur ← thread_current;
  _ ← sema_init (OfWaiter cur) 0;
  s ← get_st;
  ws ← deref (conds s !! c);
  _ ← modify (λ s, with_conds (<[c := insert_ordered (compare_priority_for_cond s) cur ws]> (conds s)) s);
  later [LockRelease l; SemaDown (OfWaiter cur); LockAcquire l].

Definition cond_signal_with (c l : Z) (go : list frame) : ST sched unit :=
  s ← get_st;
  _ ← assert_st (negb (in_external_intr s));
  mine ← lock_held_by_current_thread l;
  _ ← assert_st mine;
  ws ← deref (conds s !! c);
  match isort (compare_priority_for_cond s) ws with
  | [] => mret tt
  | t :: ws' =>
    _ ← modify (λ s, with_conds (<[c := ws']> (conds s)) s);
    later (SemaUp (OfWaiter t) :: go)
  end.
Definition cond_signal (c l : Z) : ST sched unit := cond_signal_with c l [].
(** One turn of the loop of cond_broadcast. *)
Definition cond_broadcast (c l : Z) : ST sched unit :=
  s ← get_st;
  ws ← deref (conds s !! c);
  match ws with [] => mret tt | _ => cond_signal_with c l [CondBroadcast c l] end.
