(* ===== verification/Timer.v ===== *)
(** * The timer (devices/timer.c) and its interrupt

    Sleeping threads, the timer interrupt with the periodic work of the advanced
    scheduler, and the part of intr_handler of threads/interrupt.c that runs an
    external interrupt. *)
From stdpp Require Import base numbers list sets gmap.
From Stdlib Require Import ZArith Lia.
From S2P Require Import Prelude OrderedSeq Arith Thread.
Open Scope Z_scope.

(** ** Sleeping *)

Definition compare_tick (a b : Z * Z) : bool := snd a <? snd b.

(** timer_sleep; the NULL of closet_tick is 0. The malloc succeeds, since a
    failure is dereferenced. *)
Definition timer_sleep (n : Z) : ST sched unit :=
  cur ← thread_current;
  s ← get_st;
  let wakeup_tick := s64 (ticks s + n) in
  let closet := if (closet_tick s =? 0) || (wakeup_tick <? closet_tick s) then wakeup_tick
                else closet_tick s in
  _ ← modify (with_sleepers (insert_ordered compare_tick (cur, wakeup_tick) (sleepers s)) closet);
  _ ← later [Asleep];
  thread_block.

(** One turn of wake_up's loop: the answer tells whether to stop. *)
Definition wake_step (cur_tick : Z) (_ : unit) : ST sched (unit + unit) :=
  s ← get_st;
  match sleepers s with
  | [] => mret (inr tt)
  | (t, w) :: l =>
    if w <=? cur_tick then
      _ ← modify (λ s, with_sleepers l (closet_tick s) s);
      _ ← thread_unblock t;
      mret (inl tt)
    else mret (inr tt)
  end.

Definition wake_up (cur_tick : Z) : ST sched unit :=
  s ← get_st;
  _ ← loop (S (length (sleepers s))) (wake_step cur_tick) tt;
  modify (λ s, with_sleepers (sleepers s)
    (match sleepers s with [] => 0 | (_, w) :: _ => w end) s).

(** ** The interrupt *)

Definition mlfqs_on_tick : ST sched unit :=
  _ ← update_recent_cpu;
  s ← get_st;
  _ ← (if Z.rem (ticks s) TIMER_FREQ =? 0 then _ ← update_load_avg; update_recent_cpu_all else mret tt);
  if Z.rem (ticks s) 4 =? 0 then _ ← update_all_priority; compare_cur_next_priority else mret tt.

Definition timer_interrupt : ST sched unit :=
  _ ← modify (λ s, with_ticks (s64 (ticks s + 1)) s);
  _ ← thread_tick mlfqs_on_tick;
  s ← get_st;
  if negb (closet_tick s =? 0) && (closet_tick s <=? ticks s) then wake_up (ticks s) else mret tt.

(** intr_handler for an external interrupt with the handler [handler]. *)
Definition external_interrupt (handler : ST sched unit) : ST sched unit :=
  s ← get_st;
  _ ← assert_st (negb (in_external_intr s));
  _ ← modify (with_intr true false);
  _ ← handler;
  s ← get_st;
  _ ← assert_st (in_external_intr s);
  _ ← modify (with_intr false (yield_on_return s));
  if yield_on_return s then thread_yield else mret tt.

(** ** Reading the clock and real-time delays *)

Definition timer_ticks : ST sched Z := gets ticks.
Definition timer_elapsed (since : Z) : ST sched Z :=
  t ← timer_ticks; lift_out (as_int64 (t - since)).

(** A delay of less than a tick waits in a loop that changes nothing. *)
Definition real_time_sleep (num denom : Z) : ST sched unit :=
  p ← lift_out (as_int64 (num * TIMER_FREQ));
  let ticks := Z.quot p denom in
  if 0 <? ticks then timer_sleep ticks else assert_st (Z.rem denom 1000 =? 0).
Definition timer_msleep (ms : Z) : ST sched unit := real_time_sleep ms 1000.
Definition timer_usleep (us : Z) : ST sched unit := real_time_sleep us (1000 * 1000).
Definition timer_nsleep (ns : Z) : ST sched unit := real_time_sleep ns (1000 * 1000 * 1000).
