(* ===== verification/Kernel.v ===== *)
(** * Threads at work: the kernel as a step relation

    The running thread does the next part of the kernel function that it is in,
    or calls another function; between any two parts the timer may interrupt. *)
From stdpp Require Import base numbers list sets gmap.
From Stdlib Require Import ZArith Lia Relations.
From S2P Require Import Prelude OrderedSeq Thread Synch Timer.
Open Scope Z_scope.

(** ** Steps *)

(** thread_create, without the identifier that allocate_tid draws: [t] is the
    page of the new thread. When the new thread is ready it may run, and even
    end, before its creator goes on with [thread_create_end]. *)
Definition thread_create (t priority : Z) : ST sched unit :=
  s ← get_st;
  _ ← init_thread t priority;
  _ ← (if thread_mlfqs s then update_priority t else mret tt);
  _ ← thread_unblock t;
  later [CreateEnd t].
Definition thread_create_end (t : Z) : ST sched unit :=
  s ← get_st;
  _ ← get_thread t;
  if compare_priority s t (current s) then thread_yield else mret tt.

(** The idle thread blocks whenever it runs. *)
Definition idle_loop : ST sched unit := _ ← later [IdleLoop]; thread_block.

Definition run_frame (f : frame) : ST sched unit :=
  match f with
  | SemaDown a => sema_down a
  | SemaUp a => sema_up a
  | LockAcquire l => lock_acquire l
  | Donate pending => donate pending
  | LockDown l => lock_down l
  | LockAcquired l => lock_acquired l
  | LockTryAcquire l => lock_try_acquire l
  | LockTried l => lock_tried l
  | LockRelease l => lock_release l
  | LockUp l => lock_up l
  | Preempt => compare_cur_next_priority
  | CondWait c l => cond_wait c l
  | CondSignal c l => cond_signal c l
  | CondBroadcast c l => cond_broadcast c l
  | ThreadYield => thread_yield
  | SetPriority p => thread_set_priority p
  | SetNice n => thread_set_nice n
  | TimerSleep n => timer_sleep n
  | Asleep | KernelThread => mret tt
  | ThreadExit => thread_exit
  | IdleLoop => idle_loop
  | CreateEnd t => thread_create_end t
  end.

(** The running thread does the part at the head of its [todo]. *)
Definition run_next : ST sched unit :=
  s ← get_st;
  th ← get_thread (current s);
  match todo th with
  | [] => mret tt
  | f :: fs => _ ← upd_thread (current s) (set_todo fs); run_frame f
  end.

Definition tick : ST sched unit := external_interrupt timer_interrupt.

(** ** Booting *)

(** The idle thread's start: it makes itself known and wakes thread_start. *)
Definition idle_start (idle_started : sema_id) : ST sched unit :=
  cur ← thread_current;
  _ ← modify (with_idle cur);
  _ ← later [IdleLoop];
  sema_up idle_started.

(** thread_init and thread_start of init.c, part by part as they run: main waits,
    the idle thread starts and gives the processor back, and main goes on. *)
Definition thread_start (idle : Z) : ST sched unit :=
  let idle_started := Sema 0 in
  _ ← sema_init idle_started 0;
  _ ← thread_create idle PRI_MIN;
  _ ← run_next;
  _ ← later [SemaDown idle_started];
  _ ← run_next;
  _ ← run_next;
  _ ← idle_start idle_started;
  run_next.
Definition boot (main idle : Z) : ST sched unit := _ ← thread_init main; thread_start idle.

(** Nothing is set up; [mlfqs] is the kernel's option. *)
Definition powered_on (mlfqs : bool) : sched :=
  Sched ∅ [] [] [] 0 0 0 ∅ ∅ ∅ [] 0 0 0 0 mlfqs false false.
