(* ===== verification/SchedInv.v ===== *)
(** * The invariant of the scheduler

    Every thread is where its status says: it runs, it is in the ready list, it
    waits in exactly the queue that the function it is in waits on, or it has
    ended; and every lock that is not free has exactly one owner. *)
From stdpp Require Import base numbers list sets gmap.
From Stdlib Require Import ZArith Lia.
From S2P Require Import Prelude OrderedSeq Thread Synch Timer Kernel.
Open Scope Z_scope.

(** ** Frames *)

(** The semaphore that a thread with this frame waits on, and the lock that it
    owns without being its holder. *)
Definition waits_on (f : frame) : option sema_id :=
  match f with SemaDown a => Some a | LockDown l => Some (OfLock l) | _ => None end.
Definition owns (f : frame) : option Z :=
  match f with LockAcquired l | LockTried l | LockUp l => Some l | _ => None end.
Definition head_owns (fs : list frame) : option Z := f ← head fs; owns f.
Definition head_waits (fs : list frame) : option sema_id := f ← head fs; waits_on f.

(** The objects that a frame of thread [t] names exist. *)
Definition frame_refs (s : sched) (t : Z) (f : frame) : Prop :=
  match f with
  | SemaDown (Sema a) | SemaUp (Sema a) => is_Some (semas s !! Sema a)
  | SemaDown (OfWaiter w) => w = t ∧ is_Some (semas s !! OfWaiter w)
  | SemaUp (OfWaiter w) => is_Some (semas s !! OfWaiter w)
  | SemaDown (OfLock _) | SemaUp (OfLock _) => False
  | LockAcquire l | LockDown l | LockAcquired l | LockTryAcquire l | LockTried l
  | LockRelease l | LockUp l => is_Some (locks s !! l)
  | CondWait c l | CondSignal c l | CondBroadcast c l =>
      is_Some (locks s !! l) ∧ is_Some (conds s !! c)
  | Donate l => l = 0 ∨ is_Some (locks s !! l)
  | SetNice _ => False
  | _ => True
  end.

(** A thread that holds the locks [H] may do [fs]: it acquires only what it does
    not hold, releases only what it holds, and exits without a lock. *)
Fixpoint may_run (H : gset Z) (fs : list frame) : Prop :=
  match fs with
  | [] => True
  | f :: fs =>
    match f with
    | LockAcquire l | LockDown l | LockAcquired l => l ∉ H ∧ may_run ({[l]} ∪ H) fs
    | LockTryAcquire l => l ∉ H ∧ fs = []
    | LockTried l => l ∉ H ∧ fs = []
    | LockUp l => l ∉ H ∧ may_run H fs
    | LockRelease l => l ∈ H ∧ may_run (H ∖ {[l]}) fs
    | CondWait _ l | CondSignal _ l => l ∈ H ∧ may_run H fs
    | CondBroadcast _ l => l ∈ H ∧ may_run H fs
    | ThreadExit => H = ∅ ∧ fs = []
    | _ => may_run H fs
    end
  end.

(** The locks that [t] holds. *)
Definition held (s : sched) (t : Z) : gset Z := dom (filter (λ kv, snd kv = t) (locks s)).

Record todo_ok (s : sched) (t : Z) (fs : list frame) : Prop := {
  to_refs : Forall (frame_refs s t) fs;
  to_inner : Forall (λ f, owns f = None) (tail fs);
  to_may : may_run (held s t) fs;
  to_idle : ∀ f, f ∈ fs → (f = IdleLoop ↔ t = idle_thread s);
}.

(** ** The invariant *)

(** A blocked thread is in the queue that its frame waits on. *)
Definition queued (s : sched) (t : Z) (fs : list frame) : Prop :=
  (∃ a sm, head_waits fs = Some a ∧ semas s !! a = Some sm ∧ t ∈ waiters sm) ∨
  (head fs = Some Asleep ∧ t ∈ fst <$> sleepers s).

Record thread_ok (s : sched) (t : Z) (th : thread) : Prop := {
  tk_running : status th = THREAD_RUNNING → t = current s;
  tk_ready : status th = THREAD_READY → t = idle_thread s ∨ t ∈ ready_list s;
  tk_blocked : status th = THREAD_BLOCKED → t = idle_thread s ∨ queued s t (todo th);
  tk_dying : status th = THREAD_DYING →
    (t ∈ destruction_req s ∨ t = initial_thread s ∨ t = current s) ∧
    held s t = ∅ ∧ todo th = [] ∧ t ≠ idle_thread s;
  tk_todo : todo_ok s t (todo th);
}.

(** Thread [t] owns the lock [l]: it is the holder, or about to be, or about to
    give the semaphore back. *)
Definition owner (s : sched) (l t : Z) : Prop :=
  t ≠ 0 ∧ (locks s !! l = Some t ∨ ∃ th, threads s !! t = Some th ∧ head_owns (todo th) = Some l).

(** The invariant without the locks and without the status of the current
    thread. *)
Record wf_base (s : sched) : Prop := {
  wb_thread : ∀ t th, threads s !! t = Some th → t ≠ 0 ∧ thread_ok s t th;
  wb_ready_nodup : NoDup (ready_list s);
  wb_ready : ∀ t, t ∈ ready_list s → t ≠ idle_thread s ∧
    ∃ th, threads s !! t = Some th ∧ status th = THREAD_READY;
  wb_sema : ∀ a sm, semas s !! a = Some sm → 0 <= value sm < 2 ^ 32 ∧ NoDup (waiters sm);
  wb_waiters : ∀ a sm t, semas s !! a = Some sm → t ∈ waiters sm →
    ∃ th, threads s !! t = Some th ∧ status th = THREAD_BLOCKED ∧ head_waits (todo th) = Some a;
  wb_sleep_nodup : NoDup (fst <$> sleepers s);
  wb_sleep : ∀ t, t ∈ fst <$> sleepers s →
    ∃ th, threads s !! t = Some th ∧ status th = THREAD_BLOCKED ∧ head (todo th) = Some Asleep;
  wb_destr : ∀ t, t ∈ destruction_req s → t ≠ current s ∧
    ∃ th, threads s !! t = Some th ∧ status th = THREAD_DYING;
  wb_current : is_Some (threads s !! current s);
  wb_idle : is_Some (threads s !! idle_thread s);
  wb_locks : ∀ l h, locks s !! l = Some h →
    l ≠ 0 ∧ (h = 0 ∨ is_Some (threads s !! h)) ∧ is_Some (semas s !! OfLock l);
  wb_conds : ∀ c ws t, conds s !! c = Some ws → t ∈ ws → is_Some (semas s !! OfWaiter t);
  wb_pending : ∀ t th, threads s !! t = Some th → pending_lock th = 0 ∨ is_Some (locks s !! pending_lock th);
  wb_mlfqs : thread_mlfqs s = false;
}.

(** A lock is free, or it has exactly one owner. *)
Definition mutex_ok (s : sched) (l : Z) : Prop :=
  ∃ sm, semas s !! OfLock l = Some sm ∧
    ((value sm = 1 ∧ ∀ t, ¬ owner s l t) ∨
     (value sm = 0 ∧ ∃ t, owner s l t ∧ ∀ t', owner s l t' → t' = t)).
Definition mutex (s : sched) : Prop := ∀ l, is_Some (locks s !! l) → mutex_ok s l.

Definition running (s : sched) : Prop :=
  ∃ th, threads s !! current s = Some th ∧ status th = THREAD_RUNNING.
Record wf (s : sched) : Prop := {
  wf_base_ : wf_base s;
  wf_mutex : mutex s;
  wf_running : running s;
}.

(** ** States that differ in priorities and orders only *)

Definition thread_alike (a b : thread) : Prop :=
  status a = status b ∧ todo a = todo b.
Definition sema_alike (a b : semaphore) : Prop := value a = value b ∧ waiters a ≡ₚ waiters b.

Record alike (s s' : sched) : Prop := {
  al_threads : ∀ t, option_relation thread_alike (λ _, False) (λ _, False) (threads s !! t) (threads s' !! t);
  al_semas : ∀ a, option_relation sema_alike (λ _, False) (λ _, False) (semas s !! a) (semas s' !! a);
  al_ready : ready_list s ≡ₚ ready_list s';
  al_destr : destruction_req s ≡ₚ destruction_req s';
  al_sleepers : sleepers s = sleepers s';
  al_current : current s = current s';
  al_idle : idle_thread s = idle_thread s';
  al_initial : initial_thread s = initial_thread s';
  al_locks : locks s = locks s';
  al_conds : conds s = conds s';
  al_mlfqs : thread_mlfqs s = thread_mlfqs s';
  al_intr : in_external_intr s = in_external_intr s';
}.

#[export] Instance thread_alike_equiv : Equivalence thread_alike.
Proof. unfold thread_alike. split; red; intuition congruence. Qed.
#[export] Instance sema_alike_equiv : Equivalence sema_alike.
Proof.
  unfold sema_alike. split; red.
  - done.
  - intros x y [-> ->]. done.
  - intros x y z [-> ->] [-> ->]. done.
Qed.

Section alike.
Implicit Types (s : sched) (t l : Z) (th : thread).

Lemma alike_thread s s' t th' :
  alike s s' → threads s' !! t = Some th' → ∃ th, threads s !! t = Some th ∧ thread_alike th th'.
Proof.
  intros H Ht. pose proof (al_threads _ _ H t) as Hr. rewrite Ht in Hr.
  destruct (threads s !! t); [eauto|done].
Qed.
Lemma alike_sema s s' a sm' :
  alike s s' → semas s' !! a = Some sm' → ∃ sm, semas s !! a = Some sm ∧ sema_alike sm sm'.
Proof.
  intros H Ht. pose proof (al_semas _ _ H a) as Hr. rewrite Ht in Hr.
  destruct (semas s !! a); [eauto|done].
Qed.

#[export] Instance alike_equiv : Equivalence alike.
Proof.
  split; red.
  - intros s. split; try done; intros x; by destruct (_ !! x).
  - intros s s' []. split; try done; intros x.
    + specialize (al_threads0 x). destruct (threads s !! x), (threads s' !! x); simpl in *; try done; by symmetry.
    + specialize (al_semas0 x). destruct (semas s !! x), (semas s' !! x); simpl in *; try done; by symmetry.
  - intros s1 s2 s3 [] []. split; try (by etrans); intros x.
    + specialize (al_threads0 x). specialize (al_threads1 x).
      destruct (threads s1 !! x), (threads s2 !! x), (threads s3 !! x); simpl in *; try done; by etrans.
    + specialize (al_semas0 x). specialize (al_semas1 x).
      destruct (semas s1 !! x), (semas s2 !! x), (semas s3 !! x); simpl in *; try done; by etrans.
Qed.

Lemma alike_some_sema s s' a : alike s s' → is_Some (semas s !! a) → is_Some (semas s' !! a).
Proof.
  intros H [sm Hsm]. symmetry in H. destruct (alike_sema _ _ _ _ H Hsm) as (sm' & -> & _). eauto.
Qed.
Lemma alike_some_thread s s' a : alike s s' → is_Some (threads s !! a) → is_Some (threads s' !! a).
Proof.
  intros H [th Hth]. symmetry in H. destruct (alike_thread _ _ _ _ H Hth) as (th' & -> & _). eauto.
Qed.
Lemma alike_refs s s' t f : alike s s' → frame_refs s t f → frame_refs s' t f.
Proof.
  intros H Hf. pose proof (al_locks _ _ H). pose proof (al_conds _ _ H).
  destruct f as [[]|[]| | | | | | | | | | | | | | | | | | | | | ]; simpl in *; try congruence; try done;
    try (by eapply alike_some_sema); try (destruct Hf; split; [done|by eapply alike_some_sema]).
Qed.
Lemma alike_held s s' t : alike s s' → held s' t = held s t.
Proof. intros H. unfold held. by rewrite (al_locks _ _ H). Qed.
Lemma alike_todo s s' t fs : alike s s' → todo_ok s t fs → todo_ok s' t fs.
Proof.
  intros H []. split; [|done| |].
  - eapply Forall_impl; [done|]. intros f. by apply alike_refs.
  - by rewrite (alike_held _ _ _ H).
  - by rewrite <- (al_idle _ _ H).
Qed.
Lemma alike_owner s s' l t : alike s s' → owner s l t → owner s' l t.
Proof.
  intros H [Ht0 Ho]. split; [done|]. rewrite <- (al_locks _ _ H). destruct Ho as [Ho|(th & Hth & Ho)]; [by left|].
  right. symmetry in H. destruct (alike_thread _ _ _ _ H Hth) as (th' & Hth' & _ & Htd).
  exists th'. by rewrite Htd.
Qed.

Lemma alike_base s s' :
  alike s s' → wf_base s →
  (∀ t th, threads s' !! t = Some th → pending_lock th = 0 ∨ is_Some (locks s' !! pending_lock th)) →
  wf_base s'.
Proof.
  intros H Hwf Hp. pose proof H as Hs. symmetry in Hs. split; try done.
  - intros t th' Hth'. destruct (alike_thread _ _ _ _ H Hth') as (th & Hth & Hst & Htd).
    destruct (wb_thread _ Hwf _ _ Hth) as [Ht0 [Hr Hrd Hb Hd Ho]]. split; [done|].
    rewrite Hst, Htd in *. split.
    + by rewrite <- (al_current _ _ H).
    + intros Hx. rewrite <- (al_idle _ _ H), <- (al_ready _ _ H). by apply Hrd.
    + intros Hx. rewrite <- (al_idle _ _ H). destruct (Hb Hx) as [|Hq]; [by left|right].
      destruct Hq as [(a & sm & Hh & Hsm & Hin)|[Hh Hin]]; [left|right].
      * destruct (alike_sema _ _ _ _ Hs Hsm) as (sm' & Hsm' & _ & Hw). exists a, sm'. by rewrite Hw.
      * by rewrite <- (al_sleepers _ _ H).
    + intros Hx. rewrite <- (al_idle _ _ H), <- (al_destr _ _ H), <- (al_initial _ _ H),
        <- (al_current _ _ H), (alike_held _ _ _ H). by apply Hd.
    + by eapply alike_todo.
  - rewrite <- (al_ready _ _ H). apply (wb_ready_nodup _ Hwf).
  - intros t. rewrite <- (al_ready _ _ H), <- (al_idle _ _ H). intros Ht.
    destruct (wb_ready _ Hwf _ Ht) as (? & th & Hth & Hst). split; [done|].
    destruct (alike_thread _ _ _ _ Hs Hth) as (th' & Hth' & Hst' & _). exists th'. by rewrite Hst'.
  - intros a sm' Hsm'. destruct (alike_sema _ _ _ _ H Hsm') as (sm & Hsm & <- & <-).
    by apply (wb_sema _ Hwf a).
  - intros a sm' t Hsm'. destruct (alike_sema _ _ _ _ H Hsm') as (sm & Hsm & _ & <-). intros Hin.
    destruct (wb_waiters _ Hwf _ _ _ Hsm Hin) as (th & Hth & Hst & Hw).
    destruct (alike_thread _ _ _ _ Hs Hth) as (th' & Hth' & Hst' & Htd'). exists th'.
    by rewrite Hst', Htd'.
  - rewrite <- (al_sleepers _ _ H). apply (wb_sleep_nodup _ Hwf).
  - intros t. rewrite <- (al_sleepers _ _ H). intros Hin.
    destruct (wb_sleep _ Hwf _ Hin) as (th & Hth & Hst & Hw).
    destruct (alike_thread _ _ _ _ Hs Hth) as (th' & Hth' & Hst' & Htd'). exists th'.
    by rewrite Hst', Htd'.
  - intros t. rewrite <- (al_destr _ _ H), <- (al_current _ _ H). intros Hin.
    destruct (wb_destr _ Hwf _ Hin) as (? & th & Hth & Hst). split; [done|].
    destruct (alike_thread _ _ _ _ Hs Hth) as (th' & Hth' & Hst' & _). exists th'. by rewrite Hst'.
  - rewrite <- (al_current _ _ H). eapply alike_some_thread; [done|]. apply (wb_current _ Hwf).
  - rewrite <- (al_idle _ _ H). eapply alike_some_thread; [done|]. apply (wb_idle _ Hwf).
  - intros l h. rewrite <- (al_locks _ _ H). intros Hl. destruct (wb_locks _ Hwf _ _ Hl) as (? & Hh & ?).
    split; [done|]. split; [|by eapply alike_some_sema].
    destruct Hh; [by left|right]. by eapply alike_some_thread.
  - intros c ws t. rewrite <- (al_conds _ _ H). intros Hc Hin. eapply alike_some_sema; [exact H|]. exact (wb_conds _ Hwf _ _ _ Hc Hin).
  - by rewrite <- (al_mlfqs _ _ H), (wb_mlfqs _ Hwf).
Qed.

Lemma alike_mutex_ok s s' l : alike s s' → mutex_ok s l → mutex_ok s' l.
Proof.
  intros H (sm & Hsm & Hm). pose proof H as Hs. symmetry in Hs.
  destruct (alike_sema _ _ _ _ Hs Hsm) as (sm' & Hsm' & Hv & _). exists sm'. split; [done|].
  rewrite Hv. destruct Hm as [[? Hno]|(? & t & Ho & Hu)]; [left|right].
  - split; [done|]. intros t Ht. apply (Hno t). by eapply alike_owner.
  - split; [done|]. exists t. split; [by eapply alike_owner|]. intros t' Ht'. apply Hu.
    by eapply alike_owner.
Qed.
Lemma alike_mutex s s' : alike s s' → mutex s → mutex s'.
Proof.
  intros H Hm l. rewrite <- (al_locks _ _ H). intros Hl. apply (alike_mutex_ok s); [done|by apply Hm].
Qed.
Lemma alike_running s s' : alike s s' → running s → running s'.
Proof.
  intros H (th & Hth & Hst). symmetry in H. destruct (alike_thread _ _ _ _ H Hth) as (th' & Hth' & Hst' & _).
  exists th'. rewrite (al_current _ _ H). by rewrite Hst'.
Qed.

Lemma alike_wf s s' :
  alike s s' → wf s →
  (∀ t th, threads s' !! t = Some th → pending_lock th = 0 ∨ is_Some (locks s' !! pending_lock th)) →
  wf s'.
Proof.
  intros H [Hb Hm Hr] Hp. split; [by eapply alike_base|by eapply alike_mutex|by eapply alike_running].
Qed.
End alike.
