(* ===== verification/SchedSafe.v ===== *)
(** * The operations of the scheduler keep the invariant

    Parking the running thread, switching to the next one and waking a waiting
    one, and with them the functions of threads/thread.c. *)
From stdpp Require Import base numbers list sets gmap.
From Stdlib Require Import ZArith Lia.
From S2P Require Import Prelude OrderedSeq Thread Synch Timer Kernel SchedInv.
Open Scope Z_scope.

Section ops.
Implicit Types (s : sched) (t l : Z) (th : thread).

(** ** Reading and sorting *)

Lemma wp_get_thread t th s Q : threads s !! t = Some th → Q th s → wp (get_thread t) s Q.
Proof. intros Ht HQ. unfold get_thread. wp_pure. wp_step; [exact Ht|done]. Qed.
Lemma wp_upd_thread t f th s (Q : unit → sched → Prop) :
  threads s !! t = Some th → Q tt (with_threads (<[t := f th]> (threads s)) s) → wp (upd_thread t f) s Q.
Proof. intros Ht HQ. unfold upd_thread. wp_pure. by eapply wp_get_thread. Qed.
Lemma wp_current s th Q :
  threads s !! current s = Some th → status th = THREAD_RUNNING → Q (current s) s →
  wp thread_current s Q.
Proof.
  intros Ht Hst HQ. unfold thread_current. wp_pure. eapply wp_get_thread; [done|]. wp_pure.
  wp_step; [by apply bool_decide_eq_true|]. by wp_pure.
Qed.

Lemma all_threads s (ts : list Z) :
  (∀ t, t ∈ ts → is_Some (threads s !! t)) → ∃ ths, mapM (λ t, threads s !! t) ts = Some ths.
Proof. intros H. apply mapM_is_Some. by apply Forall_forall. Qed.
Lemma wp_insert_by_priority t ts s (Q : list Z → sched → Prop) :
  (∀ u, u ∈ t :: ts → is_Some (threads s !! u)) →
  Q (insert_ordered (compare_priority s) t ts) s →
  wp (insert_by_priority t ts) s Q.
Proof.
  intros H HQ. unfold insert_by_priority. destruct (all_threads s _ H) as [ths Hths].
  wp_pure. wp_step; [exact Hths|]. by wp_pure.
Qed.
Lemma wp_sort_by_priority ts s (Q : list Z → sched → Prop) :
  (∀ u, u ∈ ts → is_Some (threads s !! u)) →
  Q (isort (compare_priority s) ts) s → wp (sort_by_priority ts) s Q.
Proof.
  intros H HQ. unfold sort_by_priority. destruct (all_threads s _ H) as [ths Hths].
  wp_pure. wp_step; [exact Hths|]. by wp_pure.
Qed.

Lemma ready_threads s : wf_base s → ∀ t, t ∈ ready_list s → is_Some (threads s !! t).
Proof. intros H t Ht. destruct (wb_ready _ H _ Ht) as (_ & th & -> & _). eauto. Qed.
Lemma waiter_threads s a sm : wf_base s → semas s !! a = Some sm → ∀ t, t ∈ waiters sm → is_Some (threads s !! t).
Proof. intros H Ha t Ht. destruct (wb_waiters _ H _ _ _ Ha Ht) as (th & -> & _). eauto. Qed.

(** ** Locks and owners under changes *)

Lemma elem_of_held s t l : l ∈ held s t ↔ locks s !! l = Some t.
Proof.
  unfold held. rewrite elem_of_dom. split.
  - intros [h [Hl Hh]%map_lookup_filter_Some]. simpl in Hh. by subst h.
  - intros Hl. exists t. by apply map_lookup_filter_Some.
Qed.

(** A change that keeps the todo lists and the locks keeps the owners. *)
Definition same_todo s s' : Prop :=
  locks s' = locks s ∧
  ∀ t th', threads s' !! t = Some th' → ∃ th, threads s !! t = Some th ∧ todo th' = todo th.
Lemma same_todo_owner s s' l t : same_todo s s' → owner s' l t → owner s l t.
Proof.
  intros [Hl Hth] [Ht0 Ho]. split; [done|]. rewrite <- Hl. destruct Ho as [|(th' & Hth' & Ho)]; [by left|right].
  destruct (Hth _ _ Hth') as (th & ? & Htd). exists th. by rewrite <- Htd.
Qed.
Lemma mutex_ok_change s s' l :
  (∀ t, owner s l t ↔ owner s' l t) →
  (∀ sm, semas s !! OfLock l = Some sm → ∃ sm', semas s' !! OfLock l = Some sm' ∧ value sm' = value sm) →
  mutex_ok s l → mutex_ok s' l.
Proof.
  intros Ho Hv (sm & Hsm & Hm). destruct (Hv _ Hsm) as (sm' & Hsm' & Hval). exists sm'. split; [done|].
  rewrite Hval. destruct Hm as [[? H]|(? & t & Ht & H)]; [left|right].
  - split; [done|]. intros t Ht. by apply (H t), Ho.
  - split; [done|]. exists t. split; [by apply Ho|]. intros t' Ht'. by apply H, Ho.
Qed.

(** Frames and todo lists only need the objects to exist. *)
Definition more_objects s s' : Prop :=
  (∀ a, is_Some (semas s !! a) → is_Some (semas s' !! a)) ∧
  (∀ l, is_Some (locks s !! l) → is_Some (locks s' !! l)) ∧
  (∀ c, is_Some (conds s !! c) → is_Some (conds s' !! c)).
Lemma more_refs s s' t f : more_objects s s' → frame_refs s t f → frame_refs s' t f.
Proof.
  intros (Ha & Hl & Hc) Hf.
  destruct f as [[]|[]| | | | | | | | | | | | | | | | | | | | | ]; simpl in *; try done; try naive_solver.
Qed.
Lemma more_todo s s' t fs :
  more_objects s s' → idle_thread s' = idle_thread s → held s' t = held s t →
  todo_ok s t fs → todo_ok s' t fs.
Proof.
  intros Hm Hi Hh []. split; [|done|by rewrite Hh|by rewrite Hi].
  eapply Forall_impl; [done|]. intros f. by apply more_refs.
Qed.

(** ** Switching to the next thread *)

(** The state in which [next] runs. *)
Definition switched (s : sched) (next : Z) (nth : thread) (ready destr : list Z) : sched :=
  with_current next (with_destr destr (with_thread_ticks 0
    (with_threads (<[next := set_status THREAD_RUNNING nth]> (threads s)) (with_ready ready s)))).

Lemma switched_wf s next nth ready destr :
  wf_base s → mutex s → ¬ running s → threads s !! next = Some nth →
  (ready_list s = next :: ready ∨ (ready_list s = [] ∧ ready = [] ∧ next = idle_thread s)) →
  (∀ t, t ∈ destr ↔ t ∈ destruction_req s ∨
     (t = current s ∧ t ≠ initial_thread s ∧ ∃ th, threads s !! t = Some th ∧ status th = THREAD_DYING)) →
  wf (switched s next nth ready destr).
Proof.
  intros Hwf Hmx Hnr Hn Hready Hdestr.
  assert (Hnrun : ∀ t th, threads s !! t = Some th → status th ≠ THREAD_RUNNING).
  { intros t th Ht Hst. apply Hnr. destruct (wb_thread _ Hwf _ _ Ht) as [_ Hok].
    rewrite (tk_running _ _ _ Hok Hst) in Ht. by exists th. }
  assert (Hnst : status nth ≠ THREAD_DYING ∧ next ∉ ready ∧
    (status nth = THREAD_BLOCKED → next = idle_thread s)).
  { destruct (wb_thread _ Hwf _ _ Hn) as [_ Hok]. destruct Hready as [Hr|(Hr & -> & ->)].
    - assert (Hin : next ∈ ready_list s) by (rewrite Hr; set_solver).
      destruct (wb_ready _ Hwf _ Hin) as (_ & th & Hth & Hst). simplify_eq.
      rewrite Hst. split; [done|]. split; [|done]. pose proof (wb_ready_nodup _ Hwf) as Hnd.
      rewrite Hr in Hnd. by apply NoDup_cons in Hnd as [? _].
    - split; [|by split; [apply not_elem_of_nil|]]. intros Hst. by apply (tk_dying _ _ _ Hok Hst). }
  destruct Hnst as (Hnd & Hnin & Hnb).
  assert (Hsub : ∀ t, t ∈ ready → t ∈ ready_list s).
  { intros t Ht. destruct Hready as [->|(_ & -> & _)]; set_solver. }
  assert (Hold : ∀ t th', threads (switched s next nth ready destr) !! t = Some th' →
    ∃ th, threads s !! t = Some th ∧ todo th' = todo th ∧ pending_lock th' = pending_lock th ∧
      ((t = next ∧ status th' = THREAD_RUNNING) ∨ (t ≠ next ∧ th' = th))).
  { intros t th' Ht. simpl in Ht. apply lookup_insert_Some in Ht as [[<- <-]|[? Ht]]; [|by eauto 8].
    exists nth. split; [done|]. split; [done|]. split; [done|]. by left. }
  assert (Hkeep : ∀ t th, t ≠ next → threads s !! t = Some th → threads (switched s next nth ready destr) !! t = Some th).
  { intros t th Hne Ht. simpl. by rewrite lookup_insert_ne. }
  assert (Hmore : more_objects s (switched s next nth ready destr)) by done.
  split.
  - split; try done.
    + intros t th' Ht'. destruct (Hold _ _ Ht') as (th & Ht & Htd & _ & Hcase).
      destruct (wb_thread _ Hwf _ _ Ht) as [Ht0 [Hr Hrd Hb Hd Ho]]. split; [done|].
      destruct Hcase as [[-> Hst]|[Hne ->]].
      * split; try (by rewrite Hst). rewrite Htd. by apply (more_todo s).
      * split; [| | | |by apply (more_todo s)].
        -- intros Hst. by destruct (Hnrun _ _ Ht).
        -- intros Hst. destruct (Hrd Hst) as [|Hin]; [by left|right]. simpl.
           destruct Hready as [Hreq|(Hreq & _)]; rewrite Hreq in Hin; [|by apply not_elem_of_nil in Hin].
           by apply elem_of_cons in Hin as [->|?].
        -- intros Hst. destruct (Hb Hst) as [|Hq]; [by left|right]. done.
        -- intros Hst. destruct (Hd Hst) as (Hor & ?). split; [|done]. simpl.
           destruct Hor as [Hin|[->|Hc]]; [left|by right; left|].
           { apply Hdestr. by left. }
           destruct (decide (t = initial_thread s)) as [|Hni]; [by right; left|left].
           apply Hdestr. right. eauto.
    + simpl. pose proof (wb_ready_nodup _ Hwf) as Hx.
      destruct Hready as [Hr|(_ & -> & _)]; [|constructor]. rewrite Hr in Hx. by apply NoDup_cons in Hx as [_ ?].
    + intros t Ht. simpl in Ht. destruct (wb_ready _ Hwf t (Hsub _ Ht)) as (? & th & Hth & ?). split; [done|].
      exists th. split; [|done]. apply Hkeep; [|done]. by intros ->.
    + apply (wb_sema _ Hwf).
    + intros a sm t Ha Hin. destruct (wb_waiters _ Hwf a sm t Ha Hin) as (th & Hth & Hst & Hw).
      exists th. split; [|done]. apply Hkeep; [|done]. intros ->. simplify_eq.
      destruct (wb_thread _ Hwf _ _ Hn) as [_ Hok]. rewrite (Hnb Hst) in *.
      destruct (todo nth) as [|f fs] eqn:Htd; [done|].
      assert (f = IdleLoop) as ->; [|done].
      apply (to_idle _ _ _ (tk_todo _ _ _ Hok)); [rewrite Htd; set_solver|done].
    + apply (wb_sleep_nodup _ Hwf).
    + intros t Hin. destruct (wb_sleep _ Hwf t Hin) as (th & Hth & Hst & Hw).
      exists th. split; [|done]. apply Hkeep; [|done]. intros ->. simplify_eq.
      destruct (wb_thread _ Hwf _ _ Hn) as [_ Hok]. rewrite (Hnb Hst) in *.
      destruct (todo nth) as [|f fs] eqn:Htd; [done|].
      assert (f = IdleLoop) as ->; [|done].
      apply (to_idle _ _ _ (tk_todo _ _ _ Hok)); [rewrite Htd; set_solver|done].
    + intros t Hin. simpl in *. assert (Hdy : ∃ th, threads s !! t = Some th ∧ status th = THREAD_DYING).
      { apply Hdestr in Hin as [Hin|(_ & _ & Hx)]; [|done]. by apply (wb_destr _ Hwf _ Hin). }
      destruct Hdy as (th & Hth & Hst). assert (t ≠ next) by (intros ->; simplify_eq; done).
      split; [done|]. exists th. by rewrite lookup_insert_ne.
    + simpl. rewrite lookup_insert_eq. eauto.
    + simpl. destruct (decide (next = idle_thread s)) as [->|]; [rewrite lookup_insert_eq; eauto|].
      rewrite lookup_insert_ne by done. apply (wb_idle _ Hwf).
    + intros l h Hl. destruct (wb_locks _ Hwf l h Hl) as (? & Hh & ?). split; [done|]. split; [|done].
      destruct Hh as [|Hh]; [by left|right]. simpl. destruct (decide (next = h)) as [->|].
      * rewrite lookup_insert_eq. eauto.
      * by rewrite lookup_insert_ne.
    + apply (wb_conds _ Hwf).
    + intros t th' Ht'. destruct (Hold _ _ Ht') as (th & Ht & _ & Hp & _). rewrite Hp. by apply (wb_pending _ Hwf t).
    + apply (wb_mlfqs _ Hwf).
  - intros l Hl. apply (mutex_ok_change s); [|by eauto|by apply Hmx].
    intros t. split.
    + apply same_todo_owner. split; [done|]. intros u th Hu.
      destruct (decide (u = next)) as [->|Hne].
      * exists (set_status THREAD_RUNNING nth). simpl. rewrite lookup_insert_eq. by simplify_eq.
      * exists th. by rewrite (Hkeep u th).
    + apply same_todo_owner. split; [done|]. intros u th Hu.
      destruct (Hold _ _ Hu) as (th0 & ? & ? & _). eauto.
  - exists (set_status THREAD_RUNNING nth). simpl. by rewrite lookup_insert_eq.
Qed.

(** What a switch from the ready list [r] changes: the running thread and the
    ready list; a thread that has not ended keeps its priority. *)
Record scheduled (s : sched) (r : list Z) (s' : sched) : Prop := {
  sd_next : r = current s' :: ready_list s' ∨ r = [] ∧ ready_list s' = [] ∧ current s' = idle_thread s;
  sd_semas : semas s' = semas s;
  sd_locks : locks s' = locks s;
  sd_conds : conds s' = conds s;
  sd_sleepers : sleepers s' = sleepers s;
  sd_prio : ∀ t, t ∉ destruction_req s → priority <$> threads s' !! t = priority <$> threads s !! t;
}.
Lemma scheduled_trans s1 s2 r s3 :
  semas s2 = semas s1 → locks s2 = locks s1 → conds s2 = conds s1 → sleepers s2 = sleepers s1 → idle_thread s2 = idle_thread s1 →
  (∀ t, t ∉ destruction_req s1 → t ∉ destruction_req s2 ∧ priority <$> threads s2 !! t = priority <$> threads s1 !! t) →
  scheduled s2 r s3 → scheduled s1 r s3.
Proof.
  intros H1 H2 H3 H3' H4 Hp [Hn E1 E2 E3 E4 Hp']. split; try congruence.
  intros t Ht. destruct (Hp t Ht) as [Ht2 <-]. by apply Hp'.
Qed.

Lemma switched_scheduled s next nth ready destr :
  threads s !! next = Some nth →
  (ready_list s = next :: ready ∨ (ready_list s = [] ∧ ready = [] ∧ next = idle_thread s)) →
  scheduled s (ready_list s) (switched s next nth ready destr).
Proof.
  intros Hn Hr. split; try done. intros t _. simpl. destruct (decide (next = t)) as [<-|].
  - by rewrite lookup_insert_eq, Hn.
  - by rewrite lookup_insert_ne.
Qed.

Lemma schedule_spec s :
  wf_base s → mutex s → ¬ running s →
  wp schedule s (λ _ s', wf s' ∧ in_external_intr s' = in_external_intr s ∧ scheduled s (ready_list s) s').
Proof.
  intros Hwf Hmx Hnr. destruct (wb_current _ Hwf) as [cth Hc]. destruct (wb_idle _ Hwf) as [ith Hi].
  assert (Hst : bool_decide (status cth = THREAD_RUNNING) = false).
  { apply bool_decide_eq_false. intros Hst. apply Hnr. by exists cth. }
  assert (∃ next nth ready, threads s !! next = Some nth ∧
    (ready_list s = next :: ready ∨ (ready_list s = [] ∧ ready = [] ∧ next = idle_thread s)) ∧
    next_thread_to_run s = Done (next, with_ready ready s)) as (next & nth & ready & Hn & Hr & Hrun).
  { unfold next_thread_to_run. destruct (ready_list s) as [|t l] eqn:Hr.
    - exists (idle_thread s), ith, []. split; [done|]. split; [by right|].
      unfold mbind, st_bind, get_st. rewrite Hr. destruct s; simpl in *; by subst.
    - destruct (wb_ready _ Hwf t) as (_ & th & Hth & _); [rewrite Hr; set_solver|].
      exists t, th, l. split; [done|]. split; [by left|].
      unfold mbind, st_bind, get_st. by rewrite Hr. }
  unfold schedule. wp_pure. eapply wp_eq; [exact Hrun|]. wp_pure.
  eapply wp_get_thread; [exact Hc|]. wp_pure. wp_step; [by rewrite Hst|]. wp_pure.
  wp_step; [apply bool_decide_eq_true; simpl; eauto|]. wp_pure.
  eapply wp_upd_thread; [exact Hn|]. wp_pure.
  destruct (Z.eqb_spec (current s) next) as [Hcn|Hcn].
  - wp_pure. set (s2 := with_thread_ticks _ _).
    assert (Heq : s2 = switched s next nth ready (destruction_req s)) by (unfold switched, s2; by rewrite <- Hcn).
    rewrite Heq. split; [|by split; [|apply switched_scheduled]].
    apply switched_wf; try done. intros t. split; [by left|]. intros [|(-> & _ & th & Ht & Hdy)]; [done|].
    subst next. simplify_eq.
    destruct (wb_thread _ Hwf _ _ Hc) as [_ Hok]. destruct Hr as [Hr|(_ & _ & Hid)].
    + destruct (wb_ready _ Hwf (current s)) as (_ & th & ? & ?); [rewrite Hr; set_solver|]. simplify_eq. congruence.
    + by destruct (tk_dying _ _ _ Hok Hdy) as (_ & _ & _ & []).
  - assert (Hsd : ∀ destr, scheduled s (ready_list s) (switched s next nth ready destr))
      by (intros; by apply switched_scheduled).
    assert (Hfin : ∀ destr, (∀ t, t ∈ destr ↔ t ∈ destruction_req s ∨
      (t = current s ∧ t ≠ initial_thread s ∧ ∃ th, threads s !! t = Some th ∧ status th = THREAD_DYING)) →
      wf (switched s next nth ready destr)) by (intros; by apply switched_wf).
    change (initial_thread (with_ready ready s)) with (initial_thread s).
    destruct (bool_decide (status cth = THREAD_DYING) && negb (current s =? initial_thread s)) eqn:Hb.
    + apply andb_true_iff in Hb as [Hdy%bool_decide_eq_true Hni%negb_true_iff%Z.eqb_neq].
      wp_pure. apply wp_insert_by_priority.
      { intros u [->|Hu]%elem_of_cons; simpl.
        - rewrite lookup_insert_ne by done. eauto.
        - destruct (wb_destr _ Hwf _ Hu) as (_ & th & Hth & _).
          destruct (decide (next = u)) as [->|]; [rewrite lookup_insert_eq|rewrite lookup_insert_ne by done]; eauto. }
      wp_pure. split; [|split; [done|apply Hsd]]. apply Hfin. intros t. rewrite elem_of_insert_ordered. simpl.
      split; [|naive_solver]. intros [->|?]; [|by left]. right. eauto.
    + wp_pure. split; [|split; [done|apply (Hsd (destruction_req s))]]. apply (Hfin (destruction_req s)). intros t. split; [by left|].
      intros [|(-> & Hni & th & Hth & Hdy)]; [done|]. simplify_eq.
      by rewrite bool_decide_eq_true_2, (proj2 (Z.eqb_neq _ _) Hni) in Hb.
Qed.

(** ** Parking the running thread *)

(** The queues [r'], [sm'], [sl'] differ from those of [s] in that the current
    thread has been added to the one that its new status [st] asks for. *)
Record parks s th (st : thread_status) (r' : list Z) (sm' : gmap sema_id semaphore)
    (sl' : list (Z * Z)) : Prop := {
  pk_not : st ≠ THREAD_RUNNING;
  pk_r_nodup : NoDup r';
  pk_r : ∀ t, t ∈ r' ↔ t ∈ ready_list s ∨ (t = current s ∧ st = THREAD_READY ∧ t ≠ idle_thread s);
  pk_sm : ∀ a, is_Some (sm' !! a) ↔ is_Some (semas s !! a);
  pk_w : ∀ a x y, semas s !! a = Some x → sm' !! a = Some y → value y = value x ∧ NoDup (waiters y) ∧
    ∀ t, t ∈ waiters y ↔ t ∈ waiters x ∨ (t = current s ∧ st = THREAD_BLOCKED ∧ head_waits (todo th) = Some a);
  pk_sl_nodup : NoDup (fst <$> sl');
  pk_sl : ∀ t, t ∈ fst <$> sl' ↔ t ∈ fst <$> sleepers s ∨
    (t = current s ∧ st = THREAD_BLOCKED ∧ head (todo th) = Some Asleep);
  pk_blocked : st = THREAD_BLOCKED → current s = idle_thread s ∨ head (todo th) = Some Asleep ∨
    ∃ a, head_waits (todo th) = Some a ∧ is_Some (semas s !! a);
  pk_dying : st = THREAD_DYING → held s (current s) = ∅ ∧ todo th = [] ∧ current s ≠ idle_thread s;
}.

Definition parked s th st r' sm' sl' c : sched :=
  with_sleepers sl' c (with_semas sm' (with_ready r'
    (with_threads (<[current s := set_status st th]> (threads s)) s))).

Lemma parked_wf s th st r' sm' sl' c :
  wf s → threads s !! current s = Some th → parks s th st r' sm' sl' →
  let s' := parked s th st r' sm' sl' c in wf_base s' ∧ mutex s' ∧ ¬ running s'.
Proof.
  intros [Hwf Hmx (th0 & Hth0 & Hrun)] Hc Hpk s'. rewrite Hc in Hth0. injection Hth0 as <-.
  destruct Hpk as [Hst Hrnd Hr Hsm Hw Hslnd Hsl Hblk Hdy].
  assert (Hold : ∀ t th', threads s' !! t = Some th' → ∃ th1, threads s !! t = Some th1 ∧
    todo th' = todo th1 ∧ pending_lock th' = pending_lock th1 ∧
    ((t = current s ∧ status th' = st) ∨ (t ≠ current s ∧ th' = th1))).
  { intros t th' Ht. change (threads s') with (<[current s := set_status st th]> (threads s)) in Ht.
    apply lookup_insert_Some in Ht as [[<- <-]|[? Ht]]; eauto 8. }
  assert (Hkeep : ∀ t th1, status th1 ≠ THREAD_RUNNING → threads s !! t = Some th1 → threads s' !! t = Some th1).
  { intros t th1 Hne Ht. simpl. rewrite lookup_insert_ne; [done|]. intros <-. by simplify_eq. }
  assert (Hmore : more_objects s s').
  { split; [|done]. intros a. by apply Hsm. }
  assert (Hback : ∀ a y, sm' !! a = Some y → ∃ x, semas s !! a = Some x).
  { intros a y Hy. apply Hsm. eauto. }
  split; [split|split].
  - intros t th' Ht'. destruct (Hold _ _ Ht') as (th1 & Ht & Htd & _ & Hcase).
    destruct (wb_thread _ Hwf _ _ Ht) as [Ht0 [Hr1 Hrd Hb Hd Ho]]. split; [done|].
    destruct Hcase as [[-> Hst']|[Hne ->]].
    + rewrite Hc in Ht. injection Ht as <-.
      split; rewrite ?Hst', ?Htd; try done; [| | |by apply (more_todo s)].
      * intros ->. simpl. destruct (decide (current s = idle_thread s)); [by left|right].
        apply Hr. by right.
      * intros ->. simpl. destruct (Hblk eq_refl) as [|[Hh|(a & Hh & x & Hx)]]; [by left|right..].
        -- right. split; [done|]. apply Hsl. by right.
        -- left. destruct (proj2 (Hsm a)) as [y Hy]; [eauto|]. exists a, y. split; [done|]. split; [done|].
           apply (Hw _ _ _ Hx Hy). by right.
      * intros ->. destruct (Hdy eq_refl) as (? & ? & ?). split; [by right; right|]. done.
    + split; [| | | |by apply (more_todo s)].
      * intros Hrun'. destruct Hne. by apply Hr1.
      * intros Hst'. destruct (Hrd Hst'); [by left|right]. apply Hr. by left.
      * intros Hst'. destruct (Hb Hst') as [|Hq]; [by left|right].
        destruct Hq as [(a & x & Hh & Hx & Hin)|[Hh Hin]]; [left|right].
        -- destruct (proj2 (Hsm a)) as [y Hy]; [eauto|]. exists a, y. split; [done|]. split; [done|].
           apply (Hw _ _ _ Hx Hy). by left.
        -- split; [done|]. apply Hsl. by left.
      * intros Hst'. by apply Hd.
  - done.
  - intros t Ht. apply Hr in Ht as [Ht|(-> & -> & ?)].
    + destruct (wb_ready _ Hwf _ Ht) as (? & th1 & Hth1 & Hst1). split; [done|]. exists th1.
      split; [|done]. apply Hkeep; [congruence|done].
    + split; [done|]. exists (set_status THREAD_READY th). simpl. by rewrite lookup_insert_eq.
  - intros a y Hy. destruct (Hback _ _ Hy) as [x Hx]. destruct (Hw _ _ _ Hx Hy) as (-> & ? & _).
    split; [|done]. by apply (wb_sema _ Hwf _ _ Hx).
  - intros a y t Hy Hin. destruct (Hback _ _ Hy) as [x Hx]. destruct (Hw _ _ _ Hx Hy) as (_ & _ & Hiff).
    destruct (proj1 (Hiff t) Hin) as [Hin'|(-> & -> & Hh)].
    + destruct (wb_waiters _ Hwf _ _ _ Hx Hin') as (th1 & Hth1 & Hst1 & ?). exists th1.
      split; [|done]. apply Hkeep; [congruence|done].
    + exists (set_status THREAD_BLOCKED th). simpl. by rewrite lookup_insert_eq.
  - done.
  - intros t Hin. apply Hsl in Hin as [Hin|(-> & -> & Hh)].
    + destruct (wb_sleep _ Hwf _ Hin) as (th1 & Hth1 & Hst1 & ?). exists th1.
      split; [|done]. apply Hkeep; [congruence|done].
    + exists (set_status THREAD_BLOCKED th). simpl. by rewrite lookup_insert_eq.
  - intros t Hin. destruct (wb_destr _ Hwf _ Hin) as (? & th1 & Hth1 & Hst1). split; [done|]. exists th1.
    split; [|done]. apply Hkeep; [congruence|done].
  - simpl. rewrite lookup_insert_eq. eauto.
  - simpl. destruct (decide (current s = idle_thread s)) as [->|]; [rewrite lookup_insert_eq; eauto|].
    rewrite lookup_insert_ne by done. apply (wb_idle _ Hwf).
  - intros l h Hl. destruct (wb_locks _ Hwf l h Hl) as (? & Hh & ?). split; [done|]. split; [|by apply Hsm].
    destruct Hh as [|Hh]; [by left|right]. simpl. destruct (decide (current s = h)) as [->|].
    + rewrite lookup_insert_eq. eauto.
    + by rewrite lookup_insert_ne.
  - intros k ws t Hk Hin. apply Hsm. by apply (wb_conds _ Hwf k ws).
  - intros t th' Ht'. destruct (Hold _ _ Ht') as (th1 & Ht & _ & Hp & _). rewrite Hp. by apply (wb_pending _ Hwf t).
  - apply (wb_mlfqs _ Hwf).
  - intros l Hl. apply (mutex_ok_change s); [| |by apply Hmx].
    + intros t. split; apply same_todo_owner; (split; [done|]).
      * intros u th1 Hu. destruct (decide (u = current s)) as [->|].
        -- exists (set_status st th). simpl. rewrite lookup_insert_eq. by simplify_eq.
        -- exists th1. simpl. by rewrite lookup_insert_ne.
      * intros u th' Hu. destruct (Hold _ _ Hu) as (th1 & ? & ? & _). eauto.
    + intros x Hx. destruct (proj2 (Hsm (OfLock l))) as [y Hy]; [eauto|]. exists y. split; [done|].
      by apply (Hw _ _ _ Hx Hy).
  - intros (th' & Ht' & Hst'). simpl in Ht'. rewrite lookup_insert_eq in Ht'. by simplify_eq.
Qed.

(** ** thread_block, thread_yield and thread_exit *)

(** What the operations keep. *)
Definition inv (b : bool) s : Prop := wf s ∧ in_external_intr s = b.

Lemma wf_current s : wf s → ∃ th, threads s !! current s = Some th ∧ status th = THREAD_RUNNING.
Proof. by intros [_ _ ?]. Qed.

Lemma wf_current_is s th : wf s → threads s !! current s = Some th → status th = THREAD_RUNNING.
Proof. intros [_ _ (th' & Hth & Hst)] Hc. by rewrite Hc in Hth; injection Hth as <-. Qed.

Lemma thread_block_spec s th sm' sl' c :
  inv false s → threads s !! current s = Some th →
  parks s th THREAD_BLOCKED (ready_list s) sm' sl' →
  wp thread_block (with_sleepers sl' c (with_semas sm' s)) (λ _ s', inv false s' ∧ sleepers s' = sl').
Proof.
  intros [Hwf Hi] Hc Hpk. pose proof (wf_current_is _ _ Hwf Hc) as Hst.
  unfold thread_block. wp_pure. wp_step; [simpl; by rewrite Hi|]. wp_pure.
  eapply wp_current; [exact Hc|done|]. wp_pure.
  eapply wp_upd_thread; [exact Hc|]. wp_pure.
  destruct (parked_wf s th _ _ _ _ c Hwf Hc Hpk) as (Hb & Hm & Hr).
  eapply wp_mono; [apply (schedule_spec (parked s th THREAD_BLOCKED (ready_list s) sm' sl' c)); done|].
  intros [] s' (Hwf' & Hi' & Hsd). split; [split; [done|by rewrite Hi']|]. apply (sd_sleepers _ _ _ Hsd).
Qed.
Lemma thread_block_wf s th sm' sl' c :
  inv false s → threads s !! current s = Some th →
  parks s th THREAD_BLOCKED (ready_list s) sm' sl' →
  wp thread_block (with_sleepers sl' c (with_semas sm' s)) (λ _ s', inv false s').
Proof. intros. eapply wp_mono; [by eapply thread_block_spec|]. by intros [] s' [? _]. Qed.

(** The pages of the threads that have ended are freed. *)
Definition reap s : sched := with_destr [] (with_threads (foldr delete (threads s) (destruction_req s)) s).

Lemma lookup_reap s t :
  threads (reap s) !! t = if decide (t ∈ destruction_req s) then None else threads s !! t.
Proof.
  simpl. induction (destruction_req s) as [|u l IH]; simpl; [done|].
  destruct (decide (t = u)) as [->|Hne].
  - rewrite lookup_delete_eq. rewrite decide_True; [done|]. set_solver.
  - rewrite lookup_delete_ne, IH by done. destruct (decide (t ∈ l)).
    + rewrite decide_True; [done|]. set_solver.
    + rewrite decide_False; [done|]. set_solver.
Qed.

Lemma reap_wf s : wf s → wf (reap s) ∧ threads (reap s) !! current s = threads s !! current s.
Proof.
  intros [Hwf Hmx (th & Hth & Hst)].
  assert (Hsome : ∀ t u, threads (reap s) !! t = Some u → threads s !! t = Some u).
  { intros t u. rewrite lookup_reap. by destruct (decide _). }
  assert (Hkeep : ∀ t u, threads s !! t = Some u → status u ≠ THREAD_DYING ∨ held s t ≠ ∅ ∨
    t = current s ∨ t = idle_thread s → threads (reap s) !! t = Some u).
  { intros t u Ht Hor. rewrite lookup_reap. destruct (decide _) as [Hin|]; [|done].
    destruct (wb_destr _ Hwf _ Hin) as (Hne & u' & Hu' & Hdy). simplify_eq.
    destruct (wb_thread _ Hwf _ _ Ht) as [_ Hok]. destruct (tk_dying _ _ _ Hok Hdy) as (_ & ? & _ & ?).
    naive_solver. }
  assert (Hcur : threads (reap s) !! current s = Some th) by (apply Hkeep; auto).
  split; [|by rewrite Hcur]. split; [split|..]; try done.
  - intros t u Ht. destruct (wb_thread _ Hwf _ _ (Hsome _ _ Ht)) as [Ht0 [Hr1 Hrd Hb Hd Ho]].
    split; [done|]. split; [done|done|done| |by apply (more_todo s)].
    intros Hdy. destruct (Hd Hdy) as (Hor & ?). split; [|done]. destruct Hor as [Hin|Hor]; [|by right].
    rewrite lookup_reap in Ht. by rewrite decide_True in Ht.
  - apply (wb_ready_nodup _ Hwf).
  - intros t Ht. destruct (wb_ready _ Hwf _ Ht) as (? & u & Hu & Hst'). split; [done|]. exists u.
    split; [|done]. apply Hkeep; [done|]. left. congruence.
  - apply (wb_sema _ Hwf).
  - intros a sm t Ha Hin. destruct (wb_waiters _ Hwf a sm t Ha Hin) as (u & Hu & Hst' & ?). exists u.
    split; [|done]. apply Hkeep; [done|]. left. congruence.
  - apply (wb_sleep_nodup _ Hwf).
  - intros t Hin. destruct (wb_sleep _ Hwf t Hin) as (u & Hu & Hst' & ?). exists u.
    split; [|done]. apply Hkeep; [done|]. left. congruence.
  - intros t Hin. by apply not_elem_of_nil in Hin.
  - change (idle_thread (reap s)) with (idle_thread s). destruct (wb_idle _ Hwf) as [u Hu].
    exists u. apply Hkeep; auto.
  - intros l h Hl. destruct (wb_locks _ Hwf l h Hl) as (? & Hh & ?). split; [done|]. split; [|done].
    destruct Hh as [|[u Hu]]; [by left|right]. exists u. apply Hkeep; [done|]. right; left.
    apply elem_of_held in Hl. set_solver.
  - apply (wb_conds _ Hwf).
  - intros t u Ht. apply (wb_pending _ Hwf t). by apply Hsome.
  - apply (wb_mlfqs _ Hwf).
  - intros l Hl. apply (mutex_ok_change s); [|by eauto|by apply Hmx].
    intros t. split; [|apply same_todo_owner; split; [done|]; intros u v Hu; exists v; auto].
    intros [Ht0 [Ho|(u & Hu & Ho)]]; split; [done|by left|done|right].
    exists u. split; [|done]. apply Hkeep; [done|]. left. intros Hdy.
    destruct (wb_thread _ Hwf _ _ Hu) as [_ Hok]. destruct (tk_dying _ _ _ Hok Hdy) as (_ & _ & Htd & _).
    by rewrite Htd in Ho.
  - by exists th.
Qed.

Lemma do_schedule_spec s th st r' :
  wf s → threads s !! current s = Some th →
  parks s th st r' (semas s) (sleepers s) →
  wp (do_schedule st) (with_ready r' s) (λ _ s', inv (in_external_intr s) s' ∧ scheduled s r' s').
Proof.
  intros Hwf Hc Hpk. pose proof (wf_current_is _ _ Hwf Hc) as Hst.
  destruct (reap_wf s Hwf) as [Hwf' Hcur]. rewrite Hc in Hcur.
  unfold do_schedule. wp_pure. eapply wp_current; [exact Hc|done|]. wp_pure.
  eapply (wp_upd_thread _ _ th); [exact Hcur|]. wp_pure.
  destruct (parked_wf (reap s) th st r' (semas s) (sleepers s) (closet_tick s)) as (Hb & Hm & Hr);
    [done|exact Hcur|by destruct Hpk|].
  eapply wp_mono; [apply (schedule_spec (parked (reap s) th st r' (semas s) (sleepers s) (closet_tick s))); done|].
  intros [] s' (? & Hi & Hsd). split; [split; [done|by rewrite Hi]|].
  apply (scheduled_trans _ (parked (reap s) th st r' (semas s) (sleepers s) (closet_tick s))); try done.
  intros t Ht. split; [apply not_elem_of_nil|]. pose proof (lookup_reap s t) as Hl. rewrite decide_False in Hl by done.
  simpl in *. destruct (decide (current s = t)) as [<-|].
  - by rewrite lookup_insert_eq, Hc.
  - by rewrite lookup_insert_ne, Hl.
Qed.

Lemma parks_ready s th :
  wf s → threads s !! current s = Some th → status th = THREAD_RUNNING →
  ∀ r', (if decide (current s = idle_thread s) then r' = ready_list s else r' ≡ₚ current s :: ready_list s) →
  parks s th THREAD_READY r' (semas s) (sleepers s).
Proof.
  intros [Hwf _ _] Hc Hst r' Hr. assert (Hnin : current s ∉ ready_list s).
  { intros Hin. destruct (wb_ready _ Hwf _ Hin) as (_ & u & Hu & ?). simplify_eq. congruence. }
  split; try done.
  - destruct (decide _); subst; [apply (wb_ready_nodup _ Hwf)|]. rewrite Hr.
    constructor; [done|apply (wb_ready_nodup _ Hwf)].
  - intros t. destruct (decide _) as [Hid|Hid]; subst.
    + split; [by left|]. intros [|(-> & _ & [])]; done.
    + rewrite Hr, elem_of_cons. split; [|naive_solver]. intros [->|]; [right|by left]. done.
  - intros a x y Hx Hy. simplify_eq. split; [done|]. split; [by apply (wb_sema _ Hwf a)|].
    intros t. split; [by left|]. intros [|(_ & [=] & _)]; done.
  - apply (wb_sleep_nodup _ Hwf).
  - intros t. split; [by left|]. intros [|(_ & [=] & _)]; done.
Qed.

(** The ready list that the running thread gives the processor to. *)
Definition yielded s : list Z :=
  if decide (current s = idle_thread s) then ready_list s
  else insert_ordered (compare_priority s) (current s) (ready_list s).

Lemma thread_yield_spec s :
  inv false s → wp thread_yield s (λ _ s', inv false s' ∧ scheduled s (yielded s) s').
Proof.
  intros [Hwf Hi]. destruct (wf_current _ Hwf) as (th & Hth & Hst).
  unfold thread_yield. wp_pure. eapply wp_current; [exact Hth|done|]. wp_pure.
  wp_step; [by rewrite Hi|]. wp_pure. pose proof (parks_ready s th Hwf Hth Hst) as Hpk.
  assert (Hgo : ∀ r', parks s th THREAD_READY r' (semas s) (sleepers s) →
    wp (do_schedule THREAD_READY) (with_ready r' s) (λ _ s', inv false s' ∧ scheduled s r' s')).
  { intros r' H. rewrite <- Hi. by apply (do_schedule_spec s th). }
  unfold yielded.
  destruct (Z.eqb_spec (current s) (idle_thread s)) as [Hid|Hid]; simpl.
  - wp_pure. replace s with (with_ready (ready_list s) s) at 1 by by destruct s.
    rewrite decide_True by done. apply Hgo, Hpk. by rewrite decide_True.
  - wp_pure. apply wp_insert_by_priority.
    { intros u [->|Hu]%elem_of_cons; [eauto|]. by apply (ready_threads s); [apply Hwf|]. }
    wp_pure. rewrite decide_False by done. apply Hgo, Hpk. rewrite decide_False by done. apply insert_ordered_perm.
Qed.
Lemma thread_yield_wf s : inv false s → wp thread_yield s (λ _ s', inv false s').
Proof. intros H. eapply wp_mono; [by apply thread_yield_spec|]. by intros [] s' [? _]. Qed.

Lemma thread_exit_wf s th :
  inv false s → threads s !! current s = Some th → held s (current s) = ∅ → todo th = [] →
  current s ≠ idle_thread s → wp thread_exit s (λ _ s', inv false s').
Proof.
  intros [Hwf Hi] Hth Hh Htd Hid. unfold thread_exit. wp_pure. wp_step; [by rewrite Hi|].
  replace s with (with_ready (ready_list s) s) at 1 by by destruct s. rewrite <- Hi.
  eapply wp_mono; [apply (do_schedule_spec s th); [done|done|]|by intros [] s' [? _]]. destruct Hwf as [Hwf _ _]. split; try done.
  - apply (wb_ready_nodup _ Hwf).
  - intros t. split; [by left|]. intros [|(_ & [=] & _)]; done.
  - intros a x y Hx Hy. simplify_eq. split; [done|]. split; [by apply (wb_sema _ Hwf a)|].
    intros t. split; [by left|]. intros [|(_ & [=] & _)]; done.
  - apply (wb_sleep_nodup _ Hwf).
  - intros t. split; [by left|]. intros [|(_ & [=] & _)]; done.
Qed.

(** ** Waking a thread *)

Record wakes s (t : Z) (sm' : gmap sema_id semaphore) (sl' : list (Z * Z)) : Prop := {
  wk_sm : ∀ a, is_Some (sm' !! a) ↔ is_Some (semas s !! a);
  wk_w : ∀ a x y, semas s !! a = Some x → sm' !! a = Some y → value y = value x ∧ NoDup (waiters y) ∧
    ∀ u, u ∈ waiters y ↔ u ∈ waiters x ∧ u ≠ t;
  wk_sl_nodup : NoDup (fst <$> sl');
  wk_sl : ∀ u, u ∈ fst <$> sl' ↔ u ∈ fst <$> sleepers s ∧ u ≠ t;
}.

(** The state in which the operation has taken [t] out of its queue. *)
Definition dequeued s sm' sl' c : sched := with_sleepers sl' c (with_semas sm' s).
Definition woken s t th r' sm' sl' c : sched :=
  with_threads (<[t := set_status THREAD_READY th]> (threads s)) (with_ready r' (dequeued s sm' sl' c)).

Lemma woken_wf s t th r' sm' sl' c :
  wf_base s → threads s !! t = Some th → status th = THREAD_BLOCKED → t ≠ idle_thread s →
  wakes s t sm' sl' → r' ≡ₚ t :: ready_list s →
  let s' := woken s t th r' sm' sl' c in
  wf_base s' ∧ (∀ l, mutex_ok s l → mutex_ok s' l) ∧ (running s → running s').
Proof.
  intros Hwf Ht Hst Hid [Hsm Hw Hslnd Hsl] Hr s'.
  assert (Hths : threads s' = <[t := set_status THREAD_READY th]> (threads s)) by done.
  assert (Hold : ∀ u th', threads s' !! u = Some th' → ∃ th1, threads s !! u = Some th1 ∧
    todo th' = todo th1 ∧ pending_lock th' = pending_lock th1 ∧
    ((u = t ∧ status th' = THREAD_READY) ∨ (u ≠ t ∧ th' = th1))).
  { intros u th' Hu. rewrite Hths in Hu. apply lookup_insert_Some in Hu as [[<- <-]|[? Hu]]; eauto 8. }
  assert (Hkeep : ∀ u th1, status th1 ≠ THREAD_BLOCKED ∨ u ≠ t → threads s !! u = Some th1 → threads s' !! u = Some th1).
  { intros u th1 Hor Hu. rewrite Hths, lookup_insert_ne; [done|]. intros <-.
    rewrite Hu in Ht. injection Ht as ->. naive_solver. }
  assert (Hmore : more_objects s s') by (split; [intros a; apply Hsm|done]).
  assert (Hback : ∀ a y, sm' !! a = Some y → ∃ x, semas s !! a = Some x).
  { intros a y Hy. apply Hsm. eauto. }
  assert (Hin : ∀ u, u ∈ r' ↔ u = t ∨ u ∈ ready_list s) by (intros u; by rewrite Hr, elem_of_cons).
  split; [split|split].
  - intros u th' Hu'. destruct (Hold _ _ Hu') as (th1 & Hu & Htd & _ & Hcase).
    destruct (wb_thread _ Hwf _ _ Hu) as [Hu0 [Hr1 Hrd Hb Hd Ho]]. split; [done|].
    destruct Hcase as [[-> Hst']|[Hne ->]].
    + split; rewrite ?Hst', ?Htd; try done; [|by apply (more_todo s)]. intros _. right. apply Hin. by left.
    + split; [done| | |done|by apply (more_todo s)].
      * intros Hx. destruct (Hrd Hx); [by left|right]. apply Hin. by right.
      * intros Hx. destruct (Hb Hx) as [|Hq]; [by left|right].
        destruct Hq as [(a & x & Hh & Hx' & Hin')|[Hh Hin']]; [left|right].
        -- destruct (proj2 (Hsm a)) as [y Hy]; [eauto|]. exists a, y. split; [done|]. split; [done|].
           by apply (Hw _ _ _ Hx' Hy).
        -- split; [done|]. by apply Hsl.
  - simpl. rewrite Hr. constructor; [|apply (wb_ready_nodup _ Hwf)]. intros Hx.
    destruct (wb_ready _ Hwf _ Hx) as (_ & u & Hu & ?). rewrite Ht in Hu. congruence.
  - intros u Hu. apply Hin in Hu as [->|Hu].
    + split; [done|]. exists (set_status THREAD_READY th). by rewrite Hths, lookup_insert_eq.
    + destruct (wb_ready _ Hwf _ Hu) as (? & th1 & Hth1 & Hst1). split; [done|]. exists th1.
      split; [|done]. apply Hkeep; [|done]. left. congruence.
  - intros a y Hy. destruct (Hback _ _ Hy) as [x Hx]. destruct (Hw _ _ _ Hx Hy) as (-> & ? & _).
    split; [|done]. by apply (wb_sema _ Hwf _ _ Hx).
  - intros a y u Hy Hiny. destruct (Hback _ _ Hy) as [x Hx]. destruct (Hw _ _ _ Hx Hy) as (_ & _ & Hiff).
    destruct (proj1 (Hiff u) Hiny) as [Hinx Hne].
    destruct (wb_waiters _ Hwf _ _ _ Hx Hinx) as (th1 & Hth1 & ?). exists th1.
    split; [|done]. apply Hkeep; [by right|done].
  - done.
  - intros u Hinu. destruct (proj1 (Hsl u) Hinu) as [Hinx Hne].
    destruct (wb_sleep _ Hwf _ Hinx) as (th1 & Hth1 & ?). exists th1.
    split; [|done]. apply Hkeep; [by right|done].
  - intros u Hinu. destruct (wb_destr _ Hwf _ Hinu) as (? & th1 & Hth1 & Hst1). split; [done|]. exists th1.
    split; [|done]. apply Hkeep; [|done]. left. congruence.
  - rewrite Hths. apply lookup_insert_is_Some. destruct (decide (t = current s)); [by left|right].
    split; [done|]. apply (wb_current _ Hwf).
  - rewrite Hths. apply lookup_insert_is_Some. right. split; [done|]. apply (wb_idle _ Hwf).
  - intros l h Hl. destruct (wb_locks _ Hwf l h Hl) as (? & Hh & ?). split; [done|]. split; [|by apply Hsm].
    destruct Hh as [|Hh]; [by left|right]. rewrite Hths. apply lookup_insert_is_Some.
    destruct (decide (t = h)); [by left|by right].
  - intros k ws u Hk Hu. apply Hsm. by apply (wb_conds _ Hwf k ws).
  - intros u th' Hu'. destruct (Hold _ _ Hu') as (th1 & Hu & _ & Hp & _). rewrite Hp. by apply (wb_pending _ Hwf u).
  - apply (wb_mlfqs _ Hwf).
  - intros l. apply mutex_ok_change.
    + intros u. split; apply same_todo_owner; (split; [done|]).
      * intros v th1 Hv. destruct (decide (v = t)) as [->|].
        -- exists (set_status THREAD_READY th). rewrite Hths, lookup_insert_eq.
           split; [done|]. rewrite Ht in Hv. by injection Hv as ->.
        -- exists th1. by rewrite Hths, lookup_insert_ne.
      * intros v th' Hv. destruct (Hold _ _ Hv) as (th1 & ? & ? & _). eauto.
    + intros x Hx. destruct (proj2 (Hsm (OfLock l))) as [y Hy]; [eauto|]. exists y. split; [done|].
      by apply (Hw _ _ _ Hx Hy).
  - intros (cth & Hc & Hrun). exists cth. split; [|done]. apply Hkeep; [|done]. left. congruence.
Qed.

(** thread_unblock makes a thread that is in no queue ready. *)
Lemma wp_thread_unblock s t th (Q : unit → sched → Prop) :
  threads s !! t = Some th → status th = THREAD_BLOCKED →
  (∀ u, u ∈ ready_list s → is_Some (threads s !! u)) →
  (∀ r', r' ≡ₚ t :: ready_list s →
     Q tt (with_threads (<[t := set_status THREAD_READY th]> (threads s)) (with_ready r' s))) →
  wp (thread_unblock t) s Q.
Proof.
  intros Ht Hst Hr HQ. unfold thread_unblock. wp_pure.
  eapply wp_get_thread; [exact Ht|]. wp_pure. wp_step; [by apply bool_decide_eq_true|]. wp_pure.
  apply wp_insert_by_priority; [intros u [->|Hu]%elem_of_cons; eauto|].
  wp_pure. eapply wp_upd_thread; [exact Ht|]. apply HQ, insert_ordered_perm.
Qed.

(** ** Priorities *)

Lemma thread_alike_set s t th f :
  threads s !! t = Some th → thread_alike th (f th) → alike s (with_threads (<[t := f th]> (threads s)) s).
Proof.
  intros Ht Hf. split; try done; intros x; simpl; [|by destruct (_ !! x)].
  destruct (decide (t = x)) as [->|].
  - by rewrite Ht, lookup_insert_eq.
  - rewrite lookup_insert_ne by done. by destruct (_ !! x).
Qed.
Lemma alike_ready s r : ready_list s ≡ₚ r → alike s (with_ready r s).
Proof. intros H. split; try done; intros x; simpl; by destruct (_ !! x). Qed.

(** An alike state with the same pending locks. *)
Lemma inv_alike b s s' :
  alike s s' → inv b s →
  (∀ t th', threads s' !! t = Some th' → pending_lock th' = 0 ∨
     ∃ u th, threads s !! u = Some th ∧ pending_lock th' = pending_lock th) → inv b s'.
Proof.
  intros H [Hwf Hi] Hp. split; [|by rewrite <- (al_intr _ _ H)]. apply (alike_wf s); [done..|].
  intros t th' Ht. destruct (Hp _ _ Ht) as [|(u & th & Hu & ->)]; [by left|].
  rewrite <- (al_locks _ _ H). apply (wb_pending _ (wf_base_ _ Hwf) u th Hu).
Qed.

(** Updates of a thread's priorities and donations. *)
Lemma inv_set b s t th f :
  inv b s → threads s !! t = Some th → thread_alike th (f th) → pending_lock (f th) = pending_lock th →
  inv b (with_threads (<[t := f th]> (threads s)) s).
Proof.
  intros H Ht Hf Hp. eapply inv_alike; [by apply thread_alike_set|done|].
  intros u th' Hu. right. simpl in Hu. apply lookup_insert_Some in Hu as [[<- <-]|[_ Hu]]; eauto.
Qed.

Lemma compare_cur_next_priority_wf b s :
  inv b s → wp compare_cur_next_priority s (λ _ s', inv b s').
Proof.
  intros Hinv. pose proof Hinv as [Hwf Hi]. destruct (wf_current _ Hwf) as (cth & Hc & Hst).
  unfold compare_cur_next_priority. wp_pure. destruct (ready_list s) as [|r rs] eqn:Hr; [by wp_pure|].
  rewrite <- Hr. wp_pure. apply wp_sort_by_priority; [by apply ready_threads, Hwf|]. wp_pure.
  set (l := isort (compare_priority s) (ready_list s)).
  assert (Hl : ready_list s ≡ₚ l) by (symmetry; apply isort_perm).
  destruct l as [|next l']; [apply Permutation_nil_r in Hl; congruence|].
  destruct (ready_threads s (wf_base_ _ Hwf) next) as [nth Hn]; [rewrite Hl; set_solver|].
  assert (Hinv' : inv b (with_ready (next :: l') s)).
  { eapply inv_alike; [by apply alike_ready|done|]. intros t th' Ht. right. eauto. }
  wp_step; [done|]. wp_pure. eapply wp_get_thread; [exact Hn|]. wp_pure.
  eapply wp_current; [exact Hc|done|]. wp_pure. eapply wp_get_thread; [exact Hc|].
  destruct (_ <? _); [|by wp_pure].
  change (in_external_intr (with_ready _ s)) with (in_external_intr s).
  destruct (in_external_intr s) eqn:Hin.
  - wp_pure. eapply inv_alike; [|exact Hinv'|intros t th' Ht; right; eauto].
    split; try done; intros x; simpl; by destruct (_ !! x).
  - rewrite <- Hi in *. by apply thread_yield_wf.
Qed.

Lemma thread_set_priority_wf b s p : inv b s → wp (thread_set_priority p) s (λ _ s', inv b s').
Proof.
  intros Hinv. pose proof Hinv as [Hwf Hi]. destruct (wf_current _ Hwf) as (cth & Hc & Hst).
  unfold thread_set_priority. wp_pure. destruct (thread_mlfqs s); [by wp_pure|]. wp_pure.
  eapply wp_current; [exact Hc|done|]. wp_pure. eapply wp_upd_thread; [exact Hc|]. wp_pure.
  eapply wp_get_thread; [by apply lookup_insert_eq|]. wp_pure.
  eapply wp_upd_thread; [by apply lookup_insert_eq|]. wp_pure.
  apply compare_cur_next_priority_wf. simpl. rewrite insert_insert_eq.
  match goal with |- inv _ ?s' => match s' with context [set_prio ?q _] =>
    by apply (inv_set b s (current s) cth (λ th, set_prio q (set_original p th))) end end.
Qed.
End ops.
