(* ===== verification/SynchSafe.v ===== *)
(** * Semaphores, locks and condition variables keep the invariant

    Every part of a function that a thread may do leads from a state with the
    invariant to one with it, and never fails an ASSERT. *)
From stdpp Require Import base numbers list sets gmap.
From Stdlib Require Import ZArith Lia.
From S2P Require Import Prelude OrderedSeq Thread Synch Timer Kernel SchedInv SchedSafe.
Open Scope Z_scope.

Section synch.
Implicit Types (s : sched) (t l : Z) (th : thread) (a : sema_id) (fs gs : list frame).

(** ** The running thread acts on objects *)

(** The running thread, now [th'], has changed holders, values and conditions. *)
Definition acted s th' lk sm cd : sched :=
  with_threads (<[current s := th']> (threads s)) (with_locks lk (with_semas sm (with_conds cd s))).

Record acts s th th' (lk : gmap Z Z) (sm : gmap sema_id semaphore) (cd : gmap Z (list Z)) : Prop := {
  ac_status : status th' = THREAD_RUNNING;
  ac_sm : ∀ a x, semas s !! a = Some x → ∃ y, sm !! a = Some y ∧ waiters y = waiters x;
  ac_val : ∀ a y, sm !! a = Some y → 0 <= value y < 2 ^ 32 ∧ (is_Some (semas s !! a) ∨ waiters y = []);
  ac_lk : ∀ l, is_Some (lk !! l) ↔ is_Some (locks s !! l);
  ac_holder : ∀ l h, lk !! l = Some h → h = 0 ∨ h = current s ∨ locks s !! l = Some h;
  ac_others : ∀ l t, t ≠ current s → t ≠ 0 → (lk !! l = Some t ↔ locks s !! l = Some t);
  ac_conds : ∀ c, is_Some (conds s !! c) → is_Some (cd !! c);
  ac_cd : ∀ c ws t, cd !! c = Some ws → t ∈ ws → is_Some (sm !! OfWaiter t);
  ac_todo : todo_ok (acted s th' lk sm cd) (current s) (todo th');
  ac_pending : pending_lock th' = 0 ∨ is_Some (locks s !! pending_lock th');
}.

Lemma acted_wf s th th' lk sm cd :
  wf_base s → threads s !! current s = Some th → status th = THREAD_RUNNING → acts s th th' lk sm cd →
  wf_base (acted s th' lk sm cd) ∧ running (acted s th' lk sm cd).
Proof.
  intros Hwf Hc Hst [Hst' Hsm Hval Hlk Hho Hoth Hcm Hcd Htd Hpd].
  set (s' := acted s th' lk sm cd) in *.
  assert (Hths : threads s' = <[current s := th']> (threads s)) by done.
  assert (Hold : ∀ t u, threads s' !! t = Some u → (t = current s ∧ u = th') ∨ (t ≠ current s ∧ threads s !! t = Some u)).
  { intros t u Ht. rewrite Hths in Ht. apply lookup_insert_Some in Ht as [[<- <-]|[? Ht]]; auto. }
  assert (Hkeep : ∀ t u, status u ≠ THREAD_RUNNING → threads s !! t = Some u → threads s' !! t = Some u).
  { intros t u Hne Ht. rewrite Hths, lookup_insert_ne; [done|]. intros <-. rewrite Hc in Ht. by injection Ht as <-. }
  assert (Hmore : more_objects s s').
  { split; [|split; [|done]].
    - intros a [x Hx]. destruct (Hsm _ _ Hx) as (y & Hy & _). simpl. eauto.
    - intros l. apply Hlk. }
  assert (Hheld : ∀ t, t ≠ current s → t ≠ 0 → held s' t = held s t).
  { intros t Hne Ht0. apply set_eq. intros l. rewrite !elem_of_held. by apply Hoth. }
  assert (Hcur0 : current s ≠ 0) by (by apply (wb_thread _ Hwf _ _ Hc)).
  split; [split|].
  - intros t u Hu. destruct (Hold _ _ Hu) as [[-> ->]|[Hne Ht]].
    + split; [done|]. split; rewrite ?Hst'; done.
    + destruct (wb_thread _ Hwf _ _ Ht) as [Ht0 [Hr1 Hrd Hb Hd Ho]]. split; [done|].
      split; [done|done| | |by apply (more_todo s); auto].
      * intros Hx. destruct (Hb Hx) as [|[(a & x & Hh & Hx' & Hin)|Hq]]; [by left|right..]; [left|by right].
        destruct (Hsm _ _ Hx') as (y & Hy & Hw). exists a, y. by rewrite Hw.
      * intros Hx. destruct (Hd Hx) as (H1 & H2 & H3). split; [done|]. by rewrite Hheld.
  - apply (wb_ready_nodup _ Hwf).
  - intros t Ht. destruct (wb_ready _ Hwf _ Ht) as (? & u & Hu & Hx). split; [done|]. exists u.
    split; [|done]. apply Hkeep; [congruence|done].
  - intros a y Hy. destruct (Hval _ _ Hy) as (? & Hor). split; [done|]. destruct Hor as [[x Hx]| ->]; [|constructor].
    destruct (Hsm _ _ Hx) as (y' & Hy' & Hw). change (sm !! a = Some y) in Hy. simplify_eq. rewrite Hw.
    by apply (wb_sema _ Hwf _ _ Hx).
  - intros a y t Hy Hin. change (sm !! a = Some y) in Hy. destruct (Hval _ _ Hy) as (_ & [[x Hx]|He]).
    + destruct (Hsm _ _ Hx) as (y' & Hy' & Hw). simplify_eq. rewrite Hw in Hin.
      destruct (wb_waiters _ Hwf _ _ _ Hx Hin) as (u & Hu & Hx' & ?). exists u. split; [|done].
      apply Hkeep; [congruence|done].
    + rewrite He in Hin. by apply not_elem_of_nil in Hin.
  - apply (wb_sleep_nodup _ Hwf).
  - intros t Hin. destruct (wb_sleep _ Hwf _ Hin) as (u & Hu & Hx' & ?). exists u. split; [|done].
    apply Hkeep; [congruence|done].
  - intros t Hin. destruct (wb_destr _ Hwf _ Hin) as (? & u & Hu & Hx'). split; [done|]. exists u. split; [|done].
    apply Hkeep; [congruence|done].
  - rewrite Hths. simpl. rewrite lookup_insert_eq. eauto.
  - rewrite Hths. apply lookup_insert_is_Some. destruct (decide (current s = idle_thread s)); [by left|right].
    split; [done|]. apply (wb_idle _ Hwf).
  - intros l h Hl. destruct (proj1 (Hlk l)) as [h0 Hh0]; [eauto|].
    destruct (wb_locks _ Hwf _ _ Hh0) as (Hl0 & _ & [x Hx]). split; [done|]. split.
    + destruct (Hho _ _ Hl) as [->|[->|Hh]]; [by left|right|].
      * rewrite Hths, lookup_insert_eq. eauto.
      * destruct (wb_locks _ Hwf _ _ Hh) as (_ & [->|Hh'] & _); [by left|right].
        rewrite Hths. apply lookup_insert_is_Some. destruct (decide (current s = h)); [by left|by right].
    + destruct (Hsm _ _ Hx) as (y & Hy & _). simpl. eauto.
  - done.
  - intros t u Hu. destruct (Hold _ _ Hu) as [[-> ->]|[Hne Ht]].
    + destruct Hpd as [|Hpd]; [by left|right]. by apply Hlk.
    + destruct (wb_pending _ Hwf _ _ Ht) as [|Hp]; [by left|right]. by apply Hlk.
  - apply (wb_mlfqs _ Hwf).
  - exists th'. split; [|done]. simpl. by rewrite lookup_insert_eq.
Qed.

(** ** Owners after an action *)

Lemma owner_acted s th th' lk sm cd l t :
  threads s !! current s = Some th → current s ≠ 0 →
  (∀ l t, t ≠ current s → t ≠ 0 → (lk !! l = Some t ↔ locks s !! l = Some t)) →
  owner (acted s th' lk sm cd) l t ↔
  if decide (t = current s) then lk !! l = Some (current s) ∨ head_owns (todo th') = Some l else owner s l t.
Proof.
  intros Hc H0 Hoth. unfold owner. simpl. destruct (decide (t = current s)) as [->|Hne].
  - rewrite lookup_insert_eq. split; [intros [_ [?|(u & [= <-] & ?)]]; auto|].
    intros [?|?]; (split; [done|]); [by left|right]. eauto.
  - rewrite lookup_insert_ne by done. split; intros [Ht0 Ho]; (split; [done|]);
      (destruct Ho as [Ho|Ho]; [left; by apply Hoth|by right]).
Qed.
Lemma owner_current s th l :
  threads s !! current s = Some th → current s ≠ 0 →
  owner s l (current s) ↔ locks s !! l = Some (current s) ∨ head_owns (todo th) = Some l.
Proof.
  intros Hc H0. unfold owner. split.
  - intros [_ [?|(u & Hu & ?)]]; [by left|right]. by simplify_eq.
  - intros [?|?]; (split; [done|]); [by left|right]. eauto.
Qed.

(** A lock whose value, and whose ownership by the current thread, stay. *)
Lemma mutex_ok_acted s th th' lk sm cd l :
  threads s !! current s = Some th → current s ≠ 0 →
  (∀ l t, t ≠ current s → t ≠ 0 → (lk !! l = Some t ↔ locks s !! l = Some t)) →
  (lk !! l = Some (current s) ∨ head_owns (todo th') = Some l ↔
   locks s !! l = Some (current s) ∨ head_owns (todo th) = Some l) →
  (∀ x, semas s !! OfLock l = Some x → ∃ y, sm !! OfLock l = Some y ∧ value y = value x) →
  mutex_ok s l → mutex_ok (acted s th' lk sm cd) l.
Proof.
  intros Hc H0 Hoth Hiff Hv. apply mutex_ok_change; [|done]. intros t.
  rewrite (owner_acted s th) by done. destruct (decide (t = current s)) as [->|]; [|done].
  by rewrite Hiff, (owner_current s th).
Qed.

(** The current thread alone owns a lock that it owns. *)
Lemma sole_owner s l t : mutex_ok s l → owner s l t →
  (∃ x, semas s !! OfLock l = Some x ∧ value x = 0) ∧ ∀ t', owner s l t' → t' = t.
Proof.
  intros (x & Hx & [[_ Hno]|(Hv & u & Hu & Hall)]) Ho; [by destruct (Hno t)|].
  split; [by exists x|]. intros t' Ht'. by rewrite (Hall _ Ht'), (Hall _ Ho).
Qed.

(** ** Changes of the todo list only *)

(** The running thread has [fs] left to do. *)
Definition doing s th fs : sched := with_threads (<[current s := set_todo fs th]> (threads s)) s.

Lemma todo_ok_doing s th fs t gs : todo_ok s t gs → todo_ok (doing s th fs) t gs.
Proof. intros []. by split. Qed.

Lemma doing_wf b s th fs :
  inv b s → threads s !! current s = Some th → head_owns fs = None → head_owns (todo th) = None →
  todo_ok s (current s) fs → inv b (doing s th fs).
Proof.
  intros [[Hwf Hmx Hr] Hi] Hc Ho1 Ho2 Htd. pose proof (wf_current_is _ _ (Build_wf _ Hwf Hmx Hr) Hc) as Hst.
  destruct (acted_wf s th (set_todo fs th) (locks s) (semas s) (conds s)) as [Hb Hrun]; try done.
  { split; try done; [by eauto| | | | |].
    - intros a y Hy. split; [by apply (wb_sema _ Hwf _ _ Hy)|left; eauto].
    - intros l h ->. by right; right.
    - apply (wb_conds _ Hwf).
    - by destruct Htd; split.
    - apply (wb_pending _ Hwf _ _ Hc). }
  split; [|done]. split; [done| |done]. intros l Hl.
  apply (mutex_ok_acted s th (set_todo fs th) (locks s) (semas s) (conds s)); try done.
  - by apply (wb_thread _ Hwf _ _ Hc).
  - simpl. by rewrite Ho1, Ho2.
  - eauto.
  - by apply Hmx.
Qed.

Lemma doing_doing s th fs gs : doing (doing s th fs) (set_todo fs th) gs = doing s th gs.
Proof. unfold doing. simpl. by rewrite insert_insert_eq. Qed.
Lemma doing_same s th : threads s !! current s = Some th → doing s th (todo th) = s.
Proof.
  intros Hc. unfold doing. rewrite insert_id; [by destruct s|]. rewrite Hc. by destruct th.
Qed.

Lemma later_doing s th fs gs (Q : unit → sched → Prop) :
  Q tt (doing s th (gs ++ fs)) → wp (later gs) (doing s th fs) Q.
Proof.
  intros HQ. unfold later. wp_pure. eapply wp_upd_thread; [apply lookup_insert_eq|].
  simpl. rewrite insert_insert_eq. done.
Qed.

Lemma wp_get_sema a x s (Q : semaphore → sched → Prop) :
  semas s !! a = Some x → Q x s → wp (get_sema a) s Q.
Proof. intros Hx HQ. unfold get_sema. wp_pure. by wp_step. Qed.
Lemma wp_get_holder l h s (Q : Z → sched → Prop) :
  locks s !! l = Some h → Q h s → wp (get_holder l) s Q.
Proof. intros Hx HQ. unfold get_holder. wp_pure. by wp_step. Qed.

(** ** Waiting *)

(** The running thread waits on [a], with the same function left to do. *)
Lemma wait_wf s th f fs a x :
  inv false s → threads s !! current s = Some th → todo th = f :: fs → waits_on f = Some a →
  semas s !! a = Some x → current s ≠ idle_thread s →
  wp (cur ← thread_current;
      l ← insert_by_priority cur (waiters x);
      _ ← put_sema a (Semaphore (value x) l);
      _ ← later [f];
      thread_block) (doing s th fs) (λ _ s', inv false s').
Proof.
  intros Hinv Hc Htd Hw Hx Hid. pose proof Hinv as [Hwf Hi]. pose proof (wf_current_is _ _ Hwf Hc) as Hst.
  pose proof (wf_base_ _ Hwf) as Hb.
  assert (Hlive : ∀ u, is_Some (threads s !! u) → is_Some (threads (doing s th fs) !! u)).
  { intros u Hu. apply lookup_insert_is_Some. destruct (decide (current s = u)); [by left|by right]. }
  wp_pure. eapply wp_current; [apply lookup_insert_eq|done|]. wp_pure. apply wp_insert_by_priority.
  { intros u [->|Hu]%elem_of_cons; apply Hlive; [eauto|]. by apply (waiter_threads s a x). }
  set (l := insert_ordered _ _ _). unfold put_sema. wp_pure.
  change (with_semas _ _) with (with_semas (<[a := Semaphore (value x) l]> (semas s)) (doing s th fs)).
  change (with_semas ?m (doing s th fs)) with (doing (with_semas m s) th fs).
  apply later_doing. simpl app. rewrite <- Htd.
  rewrite (doing_same (with_semas (<[a := Semaphore (value x) l]> (semas s)) s) th) by done.
  assert (Hnin : ∀ b y, semas s !! b = Some y → current s ∉ waiters y).
  { intros b y Hy Hin. destruct (wb_waiters _ Hb _ _ _ Hy Hin) as (u & Hu & ? & _). congruence. }
  assert (Hin : ∀ u, u ∈ l ↔ u = current s ∨ u ∈ waiters x) by (intros u; apply elem_of_insert_ordered).
  replace (with_semas _ s) with
    (with_sleepers (sleepers s) (closet_tick s) (with_semas (<[a := Semaphore (value x) l]> (semas s)) s))
    by by destruct s.
  apply (thread_block_wf s th); [done|done|]. split; try done.
  - apply (wb_ready_nodup _ Hb).
  - intros t. split; [by left|]. intros [|(_ & [=] & _)]; done.
  - intros b. rewrite lookup_insert_is_Some. destruct (decide (a = b)) as [->|]; [|naive_solver].
    split; [by eauto|by left].
  - intros b y y' Hy Hy'. rewrite Htd. unfold head_waits. simpl. rewrite Hw.
    apply lookup_insert_Some in Hy' as [[<- <-]|[Hne Hy']]; simplify_eq; simpl.
    + split; [done|]. split.
      * apply NoDup_insert_ordered; [by apply (wb_sema _ Hb a)|by apply (Hnin a)].
      * intros t. rewrite Hin. naive_solver.
    + split; [done|]. split; [by apply (wb_sema _ Hb b)|]. intros t. naive_solver.
  - apply (wb_sleep_nodup _ Hb).
  - intros t. rewrite Htd. simpl. split; [by left|]. intros [|(_ & _ & [= ->])]; done.
  - intros _. right; right. exists a. rewrite Htd. split; [done|eauto].
Qed.

(** sema_down on the semaphore of the frame [f]: [go] is what is left to do once
    the semaphore is taken. *)
Lemma sema_down_with_wf s th f fs a go :
  inv false s → threads s !! current s = Some th → todo th = f :: fs → waits_on f = Some a →
  is_Some (semas s !! a) → current s ≠ idle_thread s →
  (∀ x, semas s !! a = Some x → value x ≠ 0 →
     inv false (doing (with_semas (<[a := Semaphore (value x - 1) (waiters x)]> (semas s)) s) th (go ++ fs))) →
  wp (sema_down_with a [f] go) (doing s th fs) (λ _ s', inv false s').
Proof.
  intros Hinv Hc Htd Hw [x Hx] Hid Hgo. pose proof Hinv as [Hwf Hi].
  unfold sema_down_with. wp_pure. wp_step; [simpl; by rewrite Hi|]. wp_pure.
  eapply wp_get_sema; [exact Hx|]. destruct (Z.eqb_spec (value x) 0) as [Hv|Hv].
  - by apply wait_wf.
  - unfold put_sema. wp_pure. change (with_semas ?m (doing s th fs)) with (doing (with_semas m s) th fs).
    apply later_doing. pose proof (wb_sema _ (wf_base_ _ Hwf) _ _ Hx) as [? _].
    change (semas (doing s th fs)) with (semas s). rewrite u32_small by lia. by apply Hgo.
Qed.

(** ** Pushing frames *)

Lemma todo_push s s' t f fs gs :
  todo_ok s t (f :: fs) → f ≠ IdleLoop → more_objects s s' → idle_thread s' = idle_thread s →
  Forall (frame_refs s' t) gs → Forall (λ g, owns g = None ∧ g ≠ IdleLoop) (tail gs) →
  from_option (λ g, g ≠ IdleLoop) True (head gs) → may_run (held s' t) (gs ++ fs) →
  todo_ok s' t (gs ++ fs).
Proof.
  intros [Hr Hin Hm Hid] Hf Hmore Hidle Hgs Hown Hhd Hmay.
  assert (Hne : t ≠ idle_thread s) by (intros Ht; apply Hf, Hid; [set_solver|done]).
  apply Forall_cons in Hr as [_ Hr]. simpl in Hin. split; [| |done|].
  - apply Forall_app. split; [done|]. eapply Forall_impl; [exact Hr|]. intros g. by apply more_refs.
  - destruct gs as [|g gs]; simpl.
    + destruct fs; [constructor|]. by apply Forall_cons in Hin as [_ ?].
    + apply Forall_app. split; [|done]. eapply Forall_impl; [exact Hown|]. by intros ? [].
  - rewrite Hidle. intros g [Hg|Hg]%elem_of_app; (split; [|done]).
    + intros ->. destruct gs as [|g gs]; [by apply not_elem_of_nil in Hg|]. simpl in *.
      apply elem_of_cons in Hg as [<-|Hg]; [done|].
      by destruct (proj1 (Forall_forall _ _) Hown _ Hg).
    + intros ->. apply (Hid IdleLoop); [set_solver|done].
Qed.
Lemma todo_not_idle s t f fs : todo_ok s t (f :: fs) → f ≠ IdleLoop → t ≠ idle_thread s.
Proof. intros Ho Hf ->. apply Hf, (to_idle _ _ _ Ho); [set_solver|done]. Qed.
Lemma todo_inner s t f fs : todo_ok s t (f :: fs) → head_owns fs = None.
Proof. intros [_ Hi _ _]. destruct fs as [|g fs]; [done|]. by apply Forall_cons in Hi as [? _]. Qed.

Lemma acted_inv b s th th' lk sm cd :
  inv b s → threads s !! current s = Some th → acts s th th' lk sm cd →
  (∀ l, is_Some (locks s !! l) → mutex_ok (acted s th' lk sm cd) l) → inv b (acted s th' lk sm cd).
Proof.
  intros [Hwf Hi] Hc Ha Hm. destruct (acted_wf _ _ _ _ _ _ (wf_base_ _ Hwf) Hc (wf_current_is _ _ Hwf Hc) Ha).
  split; [|done]. split; [done| |done]. intros l Hl. apply Hm. by apply (ac_lk _ _ _ _ _ _ Ha).
Qed.

(** The facts about the running thread that every part uses. *)
Record doer (b : bool) s th f fs : Prop := {
  dr_inv : inv b s;
  dr_cur : threads s !! current s = Some th;
  dr_todo : todo th = f :: fs;
}.
Lemma doer_base b s th f fs : doer b s th f fs → wf_base s.
Proof. by intros [[[] ?] ? ?]. Qed.
Lemma doer_mutex b s th f fs : doer b s th f fs → mutex s.
Proof. by intros [[[] ?] ? ?]. Qed.
Lemma doer_intr b s th f fs : doer b s th f fs → in_external_intr s = b.
Proof. by intros [[[] ?] ? ?]. Qed.
Lemma doer_status b s th f fs : doer b s th f fs → status th = THREAD_RUNNING.
Proof. intros [[? ?] ? ?]. by eapply wf_current_is. Qed.
Lemma doer_ok b s th f fs : doer b s th f fs → current s ≠ 0 ∧ todo_ok s (current s) (f :: fs).
Proof.
  intros Hd. destruct (wb_thread _ (doer_base _ _ _ _ _ Hd) _ _ (dr_cur _ _ _ _ _ Hd)) as [? Hok].
  split; [done|]. rewrite <- (dr_todo _ _ _ _ _ Hd). apply (tk_todo _ _ _ Hok).
Qed.
Lemma doer_pending b s th f fs : doer b s th f fs → pending_lock th = 0 ∨ is_Some (locks s !! pending_lock th).
Proof. intros Hd. apply (wb_pending _ (doer_base _ _ _ _ _ Hd) _ _ (dr_cur _ _ _ _ _ Hd)). Qed.

(** Popping a frame that owns nothing and changes no lock. *)
Lemma pop_wf b s th f fs :
  doer b s th f fs → owns f = None → f ≠ IdleLoop → may_run (held s (current s)) fs →
  inv b (doing s th fs).
Proof.
  intros Hd Hf Hni Hm. destruct (doer_ok _ _ _ _ _ Hd) as [_ Ho].
  apply doing_wf; [apply Hd|apply Hd|by eapply todo_inner| |].
  - rewrite (dr_todo _ _ _ _ _ Hd). done.
  - by apply (todo_push s s (current s) f fs []).
Qed.

(** [acts] for changes of one value. *)
Lemma acts_value b s th f fs gs a x v th' :
  doer b s th f fs → semas s !! a = Some x → 0 <= v < 2 ^ 32 → f ≠ IdleLoop →
  status th' = status th → pending_lock th' = pending_lock th → todo th' = gs ++ fs →
  Forall (frame_refs s (current s)) gs → Forall (λ g, owns g = None ∧ g ≠ IdleLoop) (tail gs) →
  from_option (λ g, g ≠ IdleLoop) True (head gs) → may_run (held s (current s)) (gs ++ fs) →
  acts s th th' (locks s) (<[a := Semaphore v (waiters x)]> (semas s)) (conds s).
Proof.
  intros Hd Hx Hv Hf Hst Hpd Htd Hgs Hown Hhd Hmay. pose proof (doer_base _ _ _ _ _ Hd) as Hb.
  destruct (doer_ok _ _ _ _ _ Hd) as [_ Ho].
  assert (Hsome : ∀ c, is_Some (semas s !! c) → is_Some (<[a := Semaphore v (waiters x)]> (semas s) !! c)).
  { intros c Hs. apply lookup_insert_is_Some. destruct (decide (a = c)); [by left|by right]. }
  split; try done.
  - rewrite Hst. by eapply doer_status.
  - intros c y Hy. destruct (decide (a = c)) as [->|].
    + simplify_eq. rewrite lookup_insert_eq. eauto.
    + rewrite lookup_insert_ne by done. eauto.
  - intros c y [[<- <-]|[_ Hy]]%lookup_insert_Some; [split; [done|left; eauto]|].
    split; [by apply (wb_sema _ Hb _ _ Hy)|left; eauto].
  - intros l h ->. by right; right.
  - intros c ws t Hc Hin. apply Hsome. by apply (wb_conds _ Hb c ws).
  - rewrite Htd. apply (todo_push s _ _ f); try done.
    eapply Forall_impl; [exact Hgs|]. intros g. by apply more_refs.
  - rewrite Hpd. by eapply doer_pending.
Qed.

(** ** sema_down *)

Lemma sema_down_safe s th fs a :
  doer false s th (SemaDown a) fs → wp (run_frame (SemaDown a)) (doing s th fs) (λ _ s', inv false s').
Proof.
  intros Hd. destruct (doer_ok _ _ _ _ _ Hd) as [H0 Ho]. pose proof (doer_base _ _ _ _ _ Hd) as Hb.
  pose proof (to_refs _ _ _ Ho) as [Href _]%Forall_cons.
  assert (Hnl : ∀ l, a ≠ OfLock l) by (intros l ->; done).
  assert (Hsome : is_Some (semas s !! a)) by (destruct a; simpl in Href; [done|done|by destruct Href]).
  pose proof (todo_not_idle _ _ _ _ Ho ltac:(done)) as Hid. pose proof Hd as [Hinv Hc Htd].
  apply (sema_down_with_wf s th (SemaDown a) fs a []); try done.
  intros x Hx Hv. pose proof (wb_sema _ Hb _ _ Hx) as [? _].
  apply (acted_inv false s th (set_todo fs th) (locks s) (<[a := Semaphore (value x - 1) (waiters x)]> (semas s)) (conds s));
    [apply Hd|apply Hd|..].
  - apply (acts_value false s th (SemaDown a) fs []); try done; try lia. apply (to_may _ _ _ Ho).
  - intros l Hl. apply (mutex_ok_acted s th); try done; [| |by apply (doer_mutex _ _ _ _ _ Hd)].
    + simpl. rewrite (todo_inner _ _ _ _ Ho), Htd. done.
    + intros y Hy. exists y. by rewrite lookup_insert_ne.
Qed.

(** ** lock_acquire's wait *)

Lemma lock_down_safe s th fs l :
  doer false s th (LockDown l) fs → wp (run_frame (LockDown l)) (doing s th fs) (λ _ s', inv false s').
Proof.
  intros Hd. destruct (doer_ok _ _ _ _ _ Hd) as [H0 Ho]. pose proof (doer_base _ _ _ _ _ Hd) as Hb.
  pose proof (to_refs _ _ _ Ho) as [Href _]%Forall_cons. simpl in Href. destruct Href as [h Hh].
  destruct (wb_locks _ Hb _ _ Hh) as (_ & _ & Hsome).
  destruct (to_may _ _ _ Ho) as [Hnot Hmay].
  pose proof (todo_not_idle _ _ _ _ Ho ltac:(done)) as Hid. pose proof Hd as [Hinv Hc Htd].
  apply (sema_down_with_wf s th (LockDown l) fs (OfLock l) [LockAcquired l]); try done.
  intros x Hx Hv.
  destruct (doer_mutex _ _ _ _ _ Hd l) as (x' & Hx' & Hm); [eauto|]. simplify_eq.
  destruct Hm as [[Hv1 Hno]|[? _]]; [|done].
  apply (acted_inv false s th (set_todo (LockAcquired l :: fs) th) (locks s)
    (<[OfLock l := Semaphore (value x - 1) (waiters x)]> (semas s)) (conds s)); [apply Hd|apply Hd|..].
  - apply (acts_value false s th (LockDown l) fs [LockAcquired l]); try done; try lia.
    repeat constructor. simpl. eauto.
  - intros k Hk. destruct (decide (k = l)) as [->|Hne].
    + eexists. split; [apply lookup_insert_eq|]. right. split; [simpl; lia|]. exists (current s).
      split; [apply (owner_acted s th); [apply Hd|done|done|]; rewrite decide_True by done; by right|].
      intros t Ht. apply (owner_acted s th) in Ht; [|apply Hd|done|done].
      destruct (decide (t = current s)); [done|]. by destruct (Hno t).
    + apply (mutex_ok_acted s th); try done; [| |by apply (doer_mutex _ _ _ _ _ Hd)].
      * rewrite Htd. unfold head_owns. simpl. naive_solver.
      * intros y Hy. exists y. rewrite lookup_insert_ne; naive_solver.
Qed.

(** ** Locks that the running thread owns *)

Lemma doer_owner b s th f fs l :
  doer b s th f fs → owns f = Some l → l ∉ held s (current s) → is_Some (locks s !! l) →
  locks s !! l = Some 0 ∧ (∃ x, semas s !! OfLock l = Some x ∧ value x = 0) ∧
  ∀ t, owner s l t → t = current s.
Proof.
  intros Hd Hf Hnot [h Hh]. destruct (doer_ok _ _ _ _ _ Hd) as [H0 _].
  assert (Hown : owner s l (current s)).
  { apply (owner_current s th); [apply Hd|done|]. right. rewrite (dr_todo _ _ _ _ _ Hd). done. }
  destruct (sole_owner s l _ (doer_mutex _ _ _ _ _ Hd l ltac:(eauto)) Hown) as [Hx Hall].
  split; [|done]. destruct (decide (h = 0)) as [->|Hne]; [done|].
  assert (h = current s) as ->.
  { apply Hall. split; [done|by left]. }
  destruct Hnot. by apply elem_of_held.
Qed.

(** [acts] for a change of one holder. *)
Lemma acts_holder b s th f fs gs l h h' th' :
  doer b s th f fs → locks s !! l = Some h → (h = 0 ∨ h = current s) →
  (h' = 0 ∨ h' = current s) → f ≠ IdleLoop →
  status th' = status th → (pending_lock th' = 0 ∨ pending_lock th' = pending_lock th) → todo th' = gs ++ fs →
  Forall (frame_refs s (current s)) gs → Forall (λ g, owns g = None ∧ g ≠ IdleLoop) (tail gs) →
  from_option (λ g, g ≠ IdleLoop) True (head gs) →
  may_run (if decide (h' = current s) then {[l]} ∪ held s (current s) else held s (current s) ∖ {[l]}) (gs ++ fs) →
  acts s th th' (<[l := h']> (locks s)) (semas s) (conds s).
Proof.
  intros Hd Hl Hh Hh' Hf Hst Hpd Htd Hgs Hown Hhd Hmay. pose proof (doer_base _ _ _ _ _ Hd) as Hb.
  destruct (doer_ok _ _ _ _ _ Hd) as [H0 Ho].
  assert (Hlk : ∀ k, is_Some (<[l := h']> (locks s) !! k) ↔ is_Some (locks s !! k)).
  { intros k. rewrite lookup_insert_is_Some. destruct (decide (l = k)) as [->|]; [|naive_solver].
    split; [by eauto|by left]. }
  split; try done.
  - rewrite Hst. by eapply doer_status.
  - eauto.
  - intros a y Hy. split; [by apply (wb_sema _ Hb _ _ Hy)|left; eauto].
  - intros k y [[<- <-]|[_ Hy]]%lookup_insert_Some; [naive_solver|by right; right].
  - intros k t Ht Ht0. rewrite lookup_insert_Some. split; [|].
    + intros [[<- <-]|[_ Hy]]; [naive_solver|done].
    + intros Hy. right. split; [|done]. intros <-. rewrite Hl in Hy. naive_solver.
  - apply (wb_conds _ Hb).
  - rewrite Htd. apply (todo_push s _ _ f); try done.
    + split; [done|]. split; [|done]. intros k. apply Hlk.
    + eapply Forall_impl; [exact Hgs|]. intros g. apply more_refs. split; [done|]. split; [|done]. intros k. apply Hlk.
    + replace (held _ _) with (if decide (h' = current s) then {[l]} ∪ held s (current s) else held s (current s) ∖ {[l]});
        [done|].
      apply set_eq. intros k. rewrite elem_of_held. simpl. rewrite lookup_insert_Some.
      destruct (decide (h' = current s)) as [->|]; set_unfold; rewrite elem_of_held; [|naive_solver].
      destruct (decide (l = k)); naive_solver.
  - destruct Hpd as [|Hpd]; [by left|]. rewrite Hpd. by eapply doer_pending.
Qed.

(** The running thread becomes the holder of a lock that it owns, or it gives
    it up and still owns it. *)
Lemma holder_wf b s th f fs gs l h h' th' :
  doer b s th f fs → acts s th th' (<[l := h']> (locks s)) (semas s) (conds s) →
  locks s !! l = Some h → owner s l (current s) →
  (h' = current s ∧ head_owns (todo th') = None ∨ head_owns (todo th') = Some l) →
  (∀ k, k ≠ l → owns f ≠ Some k) → todo th' = gs ++ fs →
  inv b (acted s th' (<[l := h']> (locks s)) (semas s) (conds s)).
Proof.
  intros Hd Ha Hl Hown Hcase Hf Htd. destruct (doer_ok _ _ _ _ _ Hd) as [H0 Ho].
  pose proof Hd as [Hinv Hc Htd0].
  apply (acted_inv b s th); [done..|]. intros k Hk.
  apply (mutex_ok_acted s th); [done|done|by apply Ha| |by eauto|by apply (doer_mutex _ _ _ _ _ Hd)].
  rewrite <- (owner_current s th k) by done. destruct (decide (k = l)) as [->|Hne].
  - split; [done|]. intros _. rewrite lookup_insert_eq. destruct Hcase as [[-> _]|]; [by left|by right].
  - rewrite lookup_insert_ne by done. rewrite (owner_current s th) by done.
    rewrite Htd0. assert (Hno : head_owns (f :: fs) ≠ Some k) by (simpl; by apply Hf).
    destruct Hcase as [[_ Hn]|Hn]; rewrite Hn; naive_solver.
Qed.

Lemma lock_acquired_safe s th fs l :
  doer false s th (LockAcquired l) fs → wp (run_frame (LockAcquired l)) (doing s th fs) (λ _ s', inv false s').
Proof.
  intros Hd. destruct (doer_ok _ _ _ _ _ Hd) as [H0 Ho]. pose proof (doer_status _ _ _ _ _ Hd) as Hst.
  pose proof (to_refs _ _ _ Ho) as [Href _]%Forall_cons. destruct (to_may _ _ _ Ho) as [Hnot Hmay].
  destruct (doer_owner _ _ _ _ _ l Hd eq_refl Hnot Href) as (Hl & _ & _).
  unfold run_frame, lock_acquired, put_holder. wp_pure. eapply wp_current; [apply lookup_insert_eq|done|].
  wp_pure. eapply wp_upd_thread; [apply lookup_insert_eq|]. wp_pure. simpl. rewrite insert_insert_eq.
  set (th' := set_pending 0 (set_todo fs th)).
  apply (holder_wf false s th (LockAcquired l) fs [] l 0 (current s) th'); try done.
  - apply (acts_holder false s th (LockAcquired l) fs [] l 0 (current s) th'); try done; try (by left); try (by right).
    by rewrite decide_True.
  - apply (owner_current s th); [apply Hd|done|]. right. by rewrite (dr_todo _ _ _ _ _ Hd).
  - left. split; [done|]. by eapply todo_inner.
  - intros k Hk [= ->]. done.
Qed.

Lemma lock_tried_safe s th fs l :
  doer false s th (LockTried l) fs → wp (run_frame (LockTried l)) (doing s th fs) (λ _ s', inv false s').
Proof.
  intros Hd. destruct (doer_ok _ _ _ _ _ Hd) as [H0 Ho]. pose proof (doer_status _ _ _ _ _ Hd) as Hst.
  pose proof (to_refs _ _ _ Ho) as [Href _]%Forall_cons. destruct (to_may _ _ _ Ho) as [Hnot ->].
  destruct (doer_owner _ _ _ _ _ l Hd eq_refl Hnot Href) as (Hl & _ & _).
  unfold run_frame, lock_tried, put_holder. wp_pure. eapply wp_current; [apply lookup_insert_eq|done|].
  wp_pure. set (th' := set_todo [] th).
  apply (holder_wf false s th (LockTried l) [] [] l 0 (current s) th'); try done.
  - apply (acts_holder false s th (LockTried l) [] [] l 0 (current s) th'); try done; try (by left); try (by right).
  - apply (owner_current s th); [apply Hd|done|]. right. by rewrite (dr_todo _ _ _ _ _ Hd).
  - by left.
  - intros k Hk [= ->]. done.
Qed.

(** ** lock_release *)

Lemma wp_recalc s th (Q : unit → sched → Prop) :
  threads s !! current s = Some th → status th = THREAD_RUNNING →
  (∀ th', status th' = status th → todo th' = todo th → pending_lock th' = pending_lock th →
     Q tt (with_threads (<[current s := th']> (threads s)) s)) →
  wp recalc_priority s Q.
Proof.
  intros Hc Hst HQ. unfold recalc_priority. wp_pure. eapply wp_current; [exact Hc|done|]. wp_pure.
  eapply wp_upd_thread; [exact Hc|]. wp_pure. eapply wp_get_thread; [apply lookup_insert_eq|].
  destruct (donations _) as [|d ds] eqn:Hds; [wp_pure; by apply HQ|]. rewrite <- Hds.
  set (sorted := isort _ _). destruct sorted as [|e es] eqn:Hsorted.
  { apply isort_nil in Hsorted. simpl in *. congruence. }
  wp_pure. eapply wp_upd_thread; [apply lookup_insert_eq|]. wp_pure. wp_step; [done|]. simpl.
  rewrite insert_insert_eq. destruct (_ <? _).
  - eapply wp_upd_thread; [apply lookup_insert_eq|]. simpl. rewrite insert_insert_eq. by apply HQ.
  - wp_pure. by apply HQ.
Qed.

Lemma lock_release_safe s th fs l :
  doer false s th (LockRelease l) fs → wp (run_frame (LockRelease l)) (doing s th fs) (λ _ s', inv false s').
Proof.
  intros Hd. destruct (doer_ok _ _ _ _ _ Hd) as [H0 Ho]. pose proof (doer_status _ _ _ _ _ Hd) as Hst.
  pose proof (to_refs _ _ _ Ho) as [Href _]%Forall_cons. destruct (to_may _ _ _ Ho) as [Hheld Hmay].
  pose proof (proj1 (elem_of_held _ _ _) Hheld) as Hl.
  unfold run_frame, lock_release, lock_held_by_current_thread, remove_donation_for_lock, put_holder.
  wp_pure. eapply wp_get_holder; [exact Hl|]. wp_pure.
  eapply wp_current; [apply lookup_insert_eq|done|]. wp_pure.
  wp_step; [by apply Z.eqb_eq|]. wp_pure. eapply wp_get_holder; [exact Hl|]. wp_pure.
  wp_step; [by apply negb_true_iff, Z.eqb_neq|]. wp_pure.
  eapply wp_current; [apply lookup_insert_eq|done|]. wp_pure.
  eapply wp_upd_thread; [apply lookup_insert_eq|]. wp_pure.
  eapply wp_recalc; [apply lookup_insert_eq|done|]. intros th1 Hst1 Htd1 Hp1. wp_pure.
  unfold later. wp_pure. eapply wp_upd_thread; [apply lookup_insert_eq|]. simpl.
  rewrite !insert_insert_eq. rewrite Htd1. simpl.
  set (th' := set_todo (LockUp l :: Preempt :: fs) th1).
  apply (holder_wf false s th (LockRelease l) fs [LockUp l; Preempt] l (current s) 0 th'); try done.
  - apply (acts_holder false s th (LockRelease l) fs [LockUp l; Preempt] l (current s) 0 th'); try done;
      try (by left); try (by right); [apply Forall_cons; split; [exact Href|by repeat constructor]|].
    rewrite decide_False by done. simpl. split; [set_solver|done].
  - apply (owner_current s th); [apply Hd|done|]. by left.
  - by right.
Qed.

(** ** sema_up *)

Lemma waiter_not_idle s a x t :
  wf_base s → semas s !! a = Some x → t ∈ waiters x → t ≠ idle_thread s.
Proof.
  intros Hb Hx Hin. destruct (wb_waiters _ Hb _ _ _ Hx Hin) as (u & Hu & _ & Hw).
  destruct (todo u) as [|f fs] eqn:Htd; [done|].
  destruct (wb_thread _ Hb _ _ Hu) as [_ Hok]. pose proof (tk_todo _ _ _ Hok) as Ho. rewrite Htd in Ho.
  apply (todo_not_idle _ _ _ _ Ho). by intros ->.
Qed.

(** What sema_up does before it looks for a thread of higher priority: a waiter
    of the highest priority, if there is a waiter, becomes ready. *)
Record upped s a (x : semaphore) s' : Prop := {
  up_semas : ∃ ws, semas s' = <[a := Semaphore (u32 (value x + 1)) ws]> (semas s) ∧
    (waiters x = [] ∧ ws = [] ∧ ready_list s' = ready_list s ∨
     ∃ t, waiters x ≡ₚ t :: ws ∧ ready_list s' ≡ₚ t :: ready_list s ∧
       ∀ u, u ∈ waiters x → prio s u <= prio s t);
  up_prio : ∀ t, prio s' t = prio s t;
  up_current : current s' = current s;
  up_destr : destruction_req s' = destruction_req s;
  up_locks : locks s' = locks s;
  up_conds : conds s' = conds s;
}.

(** The hypothesis is the invariant with the semaphore's new value. *)
Lemma sema_up_wp b s a x (Q : unit → sched → Prop) :
  semas s !! a = Some x →
  inv b (with_semas (<[a := Semaphore (u32 (value x + 1)) (waiters x)]> (semas s)) s) →
  (∀ s', inv b s' → upped s a x s' → wp compare_cur_next_priority s' Q) →
  wp (sema_up a) s Q.
Proof.
  intros Hx Hinv HQ. set (s1 := with_semas _ s) in *. pose proof Hinv as [[Hb Hmx Hr] Hi].
  unfold sema_up. wp_pure. eapply wp_get_sema; [exact Hx|].
  assert (Hcase : waiters x = [] ∨ ∃ w ws, waiters x = w :: ws) by (destruct (waiters x); eauto).
  destruct Hcase as [Hws|(w & ws & Hws)]; rewrite Hws.
  { wp_pure. eapply wp_get_sema; [exact Hx|]. unfold put_sema. wp_pure.
    apply HQ; [done|]. split; try done. exists (waiters x). split; [done|]. by left. }
  rewrite <- Hws. assert (Hx1 : semas s1 !! a = Some (Semaphore (u32 (value x + 1)) (waiters x))).
  { apply lookup_insert_eq. }
  wp_pure. apply wp_sort_by_priority; [by apply (waiter_threads s1 a _ Hb Hx1)|]. wp_pure.
  destruct (isort (compare_priority s) (waiters x)) as [|t l] eqn:Hsort; [apply isort_nil in Hsort; congruence|].
  assert (Hperm : waiters x ≡ₚ t :: l) by (rewrite <- Hsort; symmetry; apply isort_perm).
  assert (Hint : t ∈ waiters x) by (rewrite Hperm; set_solver).
  destruct (wb_waiters _ Hb _ _ _ Hx1 Hint) as (th & Hth & Hst & Hw).
  pose proof (waiter_not_idle _ _ _ _ Hb Hx1 Hint) as Hid.
  wp_step; [done|]. unfold put_sema. wp_pure. simpl.
  eapply (wp_thread_unblock _ t th); [exact Hth|done|by apply (ready_threads s1)|]. intros r' Hr'.
  wp_pure. eapply wp_get_sema; [apply lookup_insert_eq|]. wp_pure.
  apply HQ; simpl; rewrite insert_insert_eq; last first.
  { split; try done.
    - exists l. split; [done|]. right. exists t. split; [done|]. split; [exact Hr'|].
      by apply (isort_front (prio s) _ _ _ Hsort).
    - intros u. unfold prio. simpl. destruct (decide (t = u)) as [<-|].
      + rewrite lookup_insert_eq. change (threads s !! t) with (threads s1 !! t). by rewrite Hth.
      + by rewrite lookup_insert_ne. }
  assert (Hnd : NoDup (t :: l)).
  { rewrite <- Hperm. by apply (wb_sema _ Hb _ _ Hx1). }
  apply NoDup_cons in Hnd as [Hnt Hnd].
  destruct (woken_wf s1 t th r' (<[a := Semaphore (u32 (value x + 1)) l]> (semas s1)) (sleepers s) (closet_tick s))
    as (Hb' & Hm' & Hr1); [done..| |exact Hr'|].
  - assert (Hother : ∀ c y, a ≠ c → semas s1 !! c = Some y → t ∉ waiters y).
    { intros c y Hne Hy Hiny. destruct (wb_waiters _ Hb _ _ _ Hy Hiny) as (u & Hu & _ & Hwu). congruence. }
    split.
    + intros c. rewrite lookup_insert_is_Some. destruct (decide (a = c)) as [->|]; [|naive_solver].
      split; [by eauto|by left].
    + intros c y y' Hy Hy'. apply lookup_insert_Some in Hy' as [[<- <-]|[Hne Hy']].
      * rewrite Hx1 in Hy. injection Hy as <-. simpl. split; [done|]. split; [done|].
        intros u. rewrite Hperm, elem_of_cons. split; [|naive_solver]. intros Hu. split; [by right|]. by intros ->.
      * rewrite Hy in Hy'. injection Hy' as <-. split; [done|]. split; [by apply (wb_sema _ Hb _ _ Hy)|].
        intros u. split; [|naive_solver]. intros Hu. split; [done|]. intros ->. by apply (Hother c y).
    + apply (wb_sleep_nodup _ Hb).
    + intros u. split; [|naive_solver]. intros Hu. split; [done|]. intros ->.
      destruct (wb_sleep _ Hb _ Hu) as (v & Hv & _ & Hh). rewrite Hth in Hv. injection Hv as <-.
      destruct (todo th) as [|f fs]; [done|]. injection Hh as ->. done.
  - split; [|done]. replace (with_semas _ _) with
      (woken s1 t th r' (<[a := Semaphore (u32 (value x + 1)) l]> (semas s1)) (sleepers s) (closet_tick s)).
    + split; [done| |by apply Hr1]. intros k Hk. apply Hm', Hmx, Hk.
    + unfold woken, dequeued, with_semas, s1. simpl. by rewrite insert_insert_eq.
Qed.

Lemma sema_up_wf b s a x :
  semas s !! a = Some x →
  inv b (with_semas (<[a := Semaphore (u32 (value x + 1)) (waiters x)]> (semas s)) s) →
  wp (sema_up a) s (λ _ s', inv b s').
Proof. intros Hx Hinv. apply (sema_up_wp b s a x); [done..|]. intros s' H _. by apply compare_cur_next_priority_wf. Qed.

(** The semaphore that a frame gives back. *)
Definition ups (f : frame) : option sema_id :=
  match f with SemaUp a => Some a | LockUp l => Some (OfLock l) | _ => None end.

Lemma up_inv s th f fs a x :
  doer false s th f fs → ups f = Some a → semas s !! a = Some x →
  inv false (with_semas (<[a := Semaphore (u32 (value x + 1)) (waiters x)]> (semas s)) (doing s th fs)).
Proof.
  intros Hd Hf Hx. destruct (doer_ok _ _ _ _ _ Hd) as [H0 Ho]. pose proof Hd as [Hinv Hc Htd].
  pose proof (to_refs _ _ _ Ho) as [Href _]%Forall_cons. pose proof (to_may _ _ _ Ho) as Hmay.
  assert (Hv : 0 <= u32 (value x + 1) < 2 ^ 32) by (apply Z.mod_pos_bound; lia).
  change (inv false (acted s (set_todo fs th) (locks s)
    (<[a := Semaphore (u32 (value x + 1)) (waiters x)]> (semas s)) (conds s))).
  destruct f as [|b| | | | | | | |l| | | | | | | | | | | | | ]; try done; injection Hf as <-.
  - assert (Hnl : ∀ l, b ≠ OfLock l) by (intros l ->; done).
    apply (acted_inv false s th); [done|done|by apply (acts_value false s th (SemaUp b) fs [])|].
    intros l Hl. apply (mutex_ok_acted s th); try done; [| |by apply (doer_mutex _ _ _ _ _ Hd)].
    + simpl. rewrite (todo_inner _ _ _ _ Ho), Htd. done.
    + intros y Hy. exists y. by rewrite lookup_insert_ne.
  - destruct Hmay as [Hnot Hmay]. destruct (doer_owner _ _ _ _ _ l Hd eq_refl Hnot Href) as (Hl & (y & Hy & Hv0) & Hall).
    rewrite Hx in Hy. injection Hy as <-.
    apply (acted_inv false s th); [done|done|by apply (acts_value false s th (LockUp l) fs [])|].
    intros k Hk. destruct (decide (k = l)) as [->|Hne].
    + eexists. split; [apply lookup_insert_eq|]. left. split; [by rewrite Hv0|]. intros t Ht.
      apply (owner_acted s th) in Ht; [|done..]. destruct (decide (t = current s)) as [->|Hne].
      * simpl in Ht. rewrite (todo_inner _ _ _ _ Ho) in Ht. destruct Ht as [Ht|Ht]; congruence.
      * by destruct (Hne (Hall _ Ht)).
    + apply (mutex_ok_acted s th); try done; [| |by apply (doer_mutex _ _ _ _ _ Hd)].
      * simpl. rewrite (todo_inner _ _ _ _ Ho), Htd. unfold head_owns. simpl. naive_solver.
      * intros y Hy. exists y. rewrite lookup_insert_ne; naive_solver.
Qed.

Lemma ups_sema s th f fs a :
  doer false s th f fs → ups f = Some a → is_Some (semas s !! a).
Proof.
  intros Hd Hf. destruct (doer_ok _ _ _ _ _ Hd) as [_ Ho]. pose proof (doer_base _ _ _ _ _ Hd) as Hb.
  pose proof (to_refs _ _ _ Ho) as [Href _]%Forall_cons.
  destruct f as [|b| | | | | | | |l| | | | | | | | | | | | | ]; try done; injection Hf as <-; [by destruct b|].
  destruct Href as [h Hh]. apply (wb_locks _ Hb _ _ Hh).
Qed.

Lemma up_safe s th f fs a :
  doer false s th f fs → ups f = Some a → wp (sema_up a) (doing s th fs) (λ _ s', inv false s').
Proof.
  intros Hd Hf. destruct (ups_sema _ _ _ _ _ Hd Hf) as [x Hx].
  apply (sema_up_wf false (doing s th fs) a x); [exact Hx|]. by apply (up_inv s th f).
Qed.
Lemma sema_up_safe s th fs a :
  doer false s th (SemaUp a) fs → wp (run_frame (SemaUp a)) (doing s th fs) (λ _ s', inv false s').
Proof. intros Hd. exact (up_safe _ _ _ _ _ Hd eq_refl). Qed.
Lemma lock_up_safe s th fs l :
  doer false s th (LockUp l) fs → wp (run_frame (LockUp l)) (doing s th fs) (λ _ s', inv false s').
Proof. intros Hd. exact (up_safe _ _ _ _ _ Hd eq_refl). Qed.

Lemma lock_try_acquire_safe s th fs l :
  doer false s th (LockTryAcquire l) fs →
  wp (run_frame (LockTryAcquire l)) (doing s th fs) (λ _ s', inv false s').
Proof.
  intros Hd. destruct (doer_ok _ _ _ _ _ Hd) as [H0 Ho]. pose proof Hd as [Hinv Hc Htd].
  pose proof (doer_status _ _ _ _ _ Hd) as Hst. pose proof (doer_base _ _ _ _ _ Hd) as Hb.
  pose proof (to_refs _ _ _ Ho) as [[h Hh] _]%Forall_cons. destruct (to_may _ _ _ Ho) as [Hnot ->].
  destruct (doer_mutex _ _ _ _ _ Hd l ltac:(eauto)) as (x & Hx & Hm).
  assert (Hne : h ≠ current s) by (intros ->; apply Hnot; by apply elem_of_held).
  unfold run_frame, lock_try_acquire, lock_held_by_current_thread, sema_try_down, put_sema.
  wp_pure. eapply wp_get_holder; [exact Hh|]. wp_pure.
  eapply wp_current; [apply lookup_insert_eq|done|]. wp_pure.
  wp_step; [by apply negb_true_iff, Z.eqb_neq|]. wp_pure. eapply wp_get_sema; [exact Hx|].
  destruct Hm as [[Hv Hno]|[Hv _]]; rewrite Hv; simpl.
  - wp_pure. change (with_semas ?m (doing s th [])) with (doing (with_semas m s) th []).
    apply later_doing. simpl.
    change (inv false (acted s (set_todo [LockTried l] th) (locks s)
      (<[OfLock l := Semaphore 0 (waiters x)]> (semas s)) (conds s))).
    apply (acted_inv false s th); [done|done|..].
    + apply (acts_value false s th (LockTryAcquire l) [] [LockTried l]); try done.
      repeat constructor. simpl. eauto.
    + intros k Hk. destruct (decide (k = l)) as [->|Hnk].
      * eexists. split; [apply lookup_insert_eq|]. right. split; [done|]. exists (current s).
        split; [apply (owner_acted s th); [done..|]; rewrite decide_True by done; by right|].
        intros t Ht. apply (owner_acted s th) in Ht; [|done..].
        destruct (decide (t = current s)); [done|]. by destruct (Hno t).
      * apply (mutex_ok_acted s th); try done; [| |by apply (doer_mutex _ _ _ _ _ Hd)].
        -- rewrite Htd. unfold head_owns. simpl. naive_solver.
        -- intros y Hy. exists y. rewrite lookup_insert_ne; naive_solver.
  - wp_pure. by apply (pop_wf false s th (LockTryAcquire l) []).
Qed.

(** ** Condition variables *)

(** The running thread changes the waiters of a condition variable and goes on
    with [gs]. *)
Lemma cond_wf b s th f fs gs c ws sm :
  doer b s th f fs → owns f = None → f ≠ IdleLoop →
  (sm = semas s ∨ sm = <[OfWaiter (current s) := Semaphore 0 []]> (semas s)) →
  (∀ t, t ∈ ws → is_Some (sm !! OfWaiter t)) →
  let s' := acted s (set_todo (gs ++ fs) th) (locks s) sm (<[c := ws]> (conds s)) in
  Forall (frame_refs s' (current s)) gs → Forall (λ g, owns g = None ∧ g ≠ IdleLoop) gs →
  may_run (held s (current s)) (gs ++ fs) → inv b s'.
Proof.
  intros Hd Hf Hni Hsm Hws s' Hgs Hown Hmay. destruct (doer_ok _ _ _ _ _ Hd) as [H0 Ho].
  pose proof Hd as [Hinv Hc Htd]. pose proof (doer_base _ _ _ _ _ Hd) as Hb.
  pose proof (doer_status _ _ _ _ _ Hd) as Hst.
  assert (Hsome : ∀ a, is_Some (semas s !! a) → is_Some (sm !! a)).
  { intros a Ha. destruct Hsm as [->| ->]; [done|]. apply lookup_insert_is_Some.
    destruct (decide (OfWaiter (current s) = a)); [by left|by right]. }
  assert (Hmine : ∀ x, semas s !! OfWaiter (current s) = Some x → waiters x = []).
  { intros x Hx. destruct (waiters x) as [|t l] eqn:Hw; [done|].
    destruct (wb_waiters _ Hb _ _ t Hx) as (u & Hu & Hbl & Hh); [rewrite Hw; set_solver|].
    destruct (wb_thread _ Hb _ _ Hu) as [_ Hok]. pose proof (to_refs _ _ _ (tk_todo _ _ _ Hok)) as Hr.
    destruct (todo u) as [|g gs']; [done|]. apply Forall_cons in Hr as [Hr _].
    destruct g; try done. injection Hh as ->. destruct Hr as [<- _]. congruence. }
  apply (acted_inv b s th); [done|done|..].
  - split; try done.
    + intros a x Hx. destruct Hsm as [->| ->]; [eauto|].
      destruct (decide (OfWaiter (current s) = a)) as [<-|].
      * rewrite lookup_insert_eq. rewrite (Hmine _ Hx). eauto.
      * rewrite lookup_insert_ne by done. eauto.
    + intros a y Hy. assert (Hy' : semas s !! a = Some y ∨ y = Semaphore 0 []).
      { destruct Hsm as [->| ->]; [by left|]. apply lookup_insert_Some in Hy as [[_ <-]|[_ Hy]]; [by right|by left]. }
      destruct Hy' as [Hy'| ->]; [|by split; [|right]]. split; [by apply (wb_sema _ Hb _ _ Hy')|left; eauto].
    + intros l h ->. by right; right.
    + intros k Hk. apply lookup_insert_is_Some. destruct (decide (c = k)); [by left|by right].
    + intros k vs t [[<- <-]|[_ Hk]]%lookup_insert_Some Hin; [by apply Hws|].
      apply Hsome. by apply (wb_conds _ Hb k vs).
    + apply (todo_push s _ _ f); try done.
      * split; [done|]. split; [done|]. intros k Hk. apply lookup_insert_is_Some.
        destruct (decide (c = k)); [by left|by right].
      * destruct gs; [constructor|]. by apply Forall_cons in Hown as [_ ?].
      * destruct gs; [done|]. by apply Forall_cons in Hown as [[_ ?] _].
    + exact (doer_pending _ _ _ _ _ Hd).
  - intros k Hk. apply (mutex_ok_acted s th); try done; [| |by apply (doer_mutex _ _ _ _ _ Hd)].
    + assert (head_owns (gs ++ fs) = None) as Hn.
      { destruct gs as [|g gs]; [by eapply todo_inner|]. by apply Forall_cons in Hown as [[? _] _]. }
      simpl. rewrite Hn, Htd. unfold head_owns. simpl. by rewrite Hf.
    + intros x Hx. destruct Hsm as [->| ->]; [eauto|]. rewrite lookup_insert_ne by done. eauto.
Qed.

(** The checks that the running thread holds the condition's lock. *)
Lemma wp_lock_held s th fs l (Q : bool → sched → Prop) :
  locks s !! l = Some (current s) → status th = THREAD_RUNNING →
  Q true (doing s th fs) → wp (lock_held_by_current_thread l) (doing s th fs) Q.
Proof.
  intros Hl Hst HQ. unfold lock_held_by_current_thread. wp_pure. eapply wp_get_holder; [exact Hl|].
  wp_pure. eapply wp_current; [apply lookup_insert_eq|done|]. wp_pure.
  change (current (doing s th fs)) with (current s). by rewrite Z.eqb_refl.
Qed.

Lemma cond_wait_safe s th fs c l :
  doer false s th (CondWait c l) fs →
  wp (run_frame (CondWait c l)) (doing s th fs) (λ _ s', inv false s').
Proof.
  intros Hd. destruct (doer_ok _ _ _ _ _ Hd) as [H0 Ho]. pose proof (doer_status _ _ _ _ _ Hd) as Hst.
  pose proof (doer_base _ _ _ _ _ Hd) as Hb. pose proof (doer_intr _ _ _ _ _ Hd) as Hi.
  pose proof (to_refs _ _ _ Ho) as [[Hlk [ws Hws]] _]%Forall_cons. destruct (to_may _ _ _ Ho) as [Hheld Hmay].
  pose proof (proj1 (elem_of_held _ _ _) Hheld) as Hl.
  unfold run_frame, cond_wait, sema_init, put_sema. wp_pure. wp_step; [simpl; by rewrite Hi|]. wp_pure.
  apply wp_lock_held; [done|done|]. wp_pure. wp_step; [done|]. wp_pure.
  eapply wp_current; [apply lookup_insert_eq|done|]. wp_pure. wp_step; [exact Hws|]. wp_pure.
  set (ws' := insert_ordered _ _ _).
  change (with_conds ?m (with_semas ?k (doing s th fs))) with (doing (with_conds m (with_semas k s)) th fs).
  apply later_doing.
  apply (cond_wf false s th (CondWait c l) fs [LockRelease l; SemaDown (OfWaiter (current s)); LockAcquire l]
    c ws' (<[OfWaiter (current s) := Semaphore 0 []]> (semas s))); try done.
  - by right.
  - intros t Ht. apply lookup_insert_is_Some. apply elem_of_insert_ordered in Ht as [->|Ht]; [by left|].
    destruct (decide (OfWaiter (current s) = OfWaiter t)); [by left|right]. split; [done|].
    by apply (wb_conds _ Hb c ws).
  - repeat (apply Forall_cons; split); [exact Hlk| |exact Hlk|constructor]. split; [done|].
    simpl. rewrite lookup_insert_eq. eauto.
  - repeat constructor; done.
  - simpl. split; [done|]. split; [set_solver|].
    replace ({[l]} ∪ _) with (held s (current s)); [done|].
    apply set_eq. intros k. set_unfold. destruct (decide (k = l)); naive_solver.
Qed.

Lemma cond_signal_with_wf s th f fs c l go :
  doer false s th f fs → owns f = None → f ≠ IdleLoop → is_Some (conds s !! c) →
  l ∈ held s (current s) → may_run (held s (current s)) (go ++ fs) → may_run (held s (current s)) fs →
  Forall (λ g, owns g = None ∧ g ≠ IdleLoop) go → Forall (λ g, g = CondBroadcast c l) go →
  wp (cond_signal_with c l go) (doing s th fs) (λ _ s', inv false s').
Proof.
  intros Hd Hf Hni [ws Hws] Hheld Hmay Hmay' Hown Hgo.
  destruct (doer_ok _ _ _ _ _ Hd) as [H0 Ho]. pose proof (doer_status _ _ _ _ _ Hd) as Hst.
  pose proof (doer_base _ _ _ _ _ Hd) as Hb. pose proof (doer_intr _ _ _ _ _ Hd) as Hi.
  pose proof (proj1 (elem_of_held _ _ _) Hheld) as Hl.
  unfold cond_signal_with. wp_pure. wp_step; [simpl; by rewrite Hi|]. wp_pure.
  apply wp_lock_held; [done|done|]. wp_pure. wp_step; [done|]. wp_pure. wp_step; [exact Hws|].
  destruct (isort _ ws) as [|t ws'] eqn:Hsort; wp_pure; [by apply (pop_wf false s th f)|].
  assert (Hperm : ws ≡ₚ t :: ws') by (rewrite <- Hsort; symmetry; apply isort_perm).
  assert (Hw : ∀ u, u ∈ ws → is_Some (semas s !! OfWaiter u)) by (intros u Hu; by apply (wb_conds _ Hb c ws)).
  change (with_conds ?m (doing s th fs)) with (doing (with_conds m s) th fs). apply later_doing.
  apply (cond_wf false s th f fs (SemaUp (OfWaiter t) :: go) c ws' (semas s)); try done.
  - by left.
  - intros u Hu. apply Hw. rewrite Hperm. by right.
  - apply Forall_cons. split; [apply Hw; rewrite Hperm; by left|]. eapply Forall_impl; [exact Hgo|].
    intros g ->. simpl. rewrite lookup_insert_eq. split; [rewrite Hl|]; eauto.
  - by apply Forall_cons.
Qed.

Lemma cond_signal_safe s th fs c l :
  doer false s th (CondSignal c l) fs →
  wp (run_frame (CondSignal c l)) (doing s th fs) (λ _ s', inv false s').
Proof.
  intros Hd. destruct (doer_ok _ _ _ _ _ Hd) as [_ Ho].
  pose proof (to_refs _ _ _ Ho) as [[_ Hws] _]%Forall_cons. destruct (to_may _ _ _ Ho) as [Hheld Hmay].
  change (wp (cond_signal_with c l []) (doing s th fs) (λ _ s', inv false s')).
  apply (cond_signal_with_wf s th (CondSignal c l)); [exact Hd|done..|constructor|constructor].
Qed.

Lemma cond_broadcast_safe s th fs c l :
  doer false s th (CondBroadcast c l) fs →
  wp (run_frame (CondBroadcast c l)) (doing s th fs) (λ _ s', inv false s').
Proof.
  intros Hd. destruct (doer_ok _ _ _ _ _ Hd) as [_ Ho].
  pose proof (to_refs _ _ _ Ho) as [[_ [ws Hws]] _]%Forall_cons. destruct (to_may _ _ _ Ho) as [Hheld Hmay].
  unfold run_frame, cond_broadcast. wp_pure. wp_step; [exact Hws|]. destruct ws as [|w ws].
  - wp_pure. by apply (pop_wf false s th (CondBroadcast c l)).
  - change (wp (cond_signal_with c l [CondBroadcast c l]) (doing s th fs) (λ _ s', inv false s')).
    apply (cond_signal_with_wf s th (CondBroadcast c l)); [exact Hd|done|done|eauto|exact Hheld| |exact Hmay|..];
      [by split|by repeat constructor..].
Qed.
End synch.
