(* ===== verification/DonateSafe.v ===== *)
(** * lock_acquire: the donations

    A turn of the donation loop only changes the priority and the donations of the
    holder it gets to, and the order of waiters; when the holders do not wait for
    each other in a circle, the turns come to an end. *)
From stdpp Require Import base numbers list sets gmap.
From Stdlib Require Import ZArith Lia.
From S2P Require Import Prelude OrderedSeq Thread Synch Timer Kernel SchedInv SchedSafe SynchSafe.
Open Scope Z_scope.

Section donate.
Implicit Types (s : sched) (t l : Z) (th : thread) (a : sema_id) (fs gs : list frame).

(** ** The state during the pass *)

Definition pend_ok s : Prop :=
  ∀ t th, threads s !! t = Some th → pending_lock th = 0 ∨ is_Some (locks s !! pending_lock th).

(** What the pass relies on. *)
Record donor_ok s : Prop := {
  do_run : running s;
  do_lock : ∀ l h, locks s !! l = Some h → (h = 0 ∨ is_Some (threads s !! h)) ∧ is_Some (semas s !! OfLock l);
  do_waiters : ∀ a x t, semas s !! a = Some x → t ∈ waiters x → is_Some (threads s !! t);
  do_pending : pend_ok s;
}.

Lemma donor_alike s s' : alike s s' → donor_ok s → pend_ok s' → donor_ok s'.
Proof.
  intros H [Hr Hl Hw _] Hp. split; [by apply (alike_running s)| | |done].
  - intros l h. rewrite <- (al_locks _ _ H). intros Hlh. destruct (Hl _ _ Hlh) as [Ht Hs].
    split; [|by apply (alike_some_sema s)]. destruct Ht; [by left|right; by apply (alike_some_thread s)].
  - intros a x' t Hx'. destruct (alike_sema _ _ _ _ H Hx') as (x & Hx & _ & <-). intros Ht.
    apply (alike_some_thread s); [done|by apply (Hw a x)].
Qed.

Lemma donor_set s t th f :
  donor_ok s → threads s !! t = Some th → thread_alike th (f th) →
  (pending_lock (f th) = 0 ∨ is_Some (locks s !! pending_lock (f th))) →
  alike s (with_threads (<[t := f th]> (threads s)) s) ∧
  donor_ok (with_threads (<[t := f th]> (threads s)) s).
Proof.
  intros Hok Ht Hf Hp. assert (Ha : alike s (with_threads (<[t := f th]> (threads s)) s)) by by apply thread_alike_set.
  split; [done|]. apply (donor_alike s); [done..|]. intros u v Hu. simpl in Hu.
  apply lookup_insert_Some in Hu as [[<- <-]|[_ Hu]]; [done|]. by apply (do_pending _ Hok u).
Qed.

Lemma donor_sorted s a x ws :
  donor_ok s → semas s !! a = Some x → waiters x ≡ₚ ws →
  alike s (with_semas (<[a := Semaphore (value x) ws]> (semas s)) s) ∧
  donor_ok (with_semas (<[a := Semaphore (value x) ws]> (semas s)) s).
Proof.
  intros Hok Hx Hw. assert (Ha : alike s (with_semas (<[a := Semaphore (value x) ws]> (semas s)) s)).
  { split; try done; intros c; simpl; [by destruct (_ !! c)|].
    destruct (decide (a = c)) as [->|]; [by rewrite Hx, lookup_insert_eq|].
    rewrite lookup_insert_ne by done. by destruct (_ !! c). }
  split; [done|]. apply (donor_alike s); [done..|]. apply (do_pending _ Hok).
Qed.

(** ** One turn of the loop *)

(** Nothing but priorities, donations and the order of waiters changes, and a
    priority only rises to that of the running thread. *)
Definition stirred s s' : Prop :=
  alike s s' ∧ donor_ok s' ∧
  (∀ t th th', threads s !! t = Some th → threads s' !! t = Some th' → pending_lock th' = pending_lock th) ∧
  ∀ t, prio s' t = prio s t ∨ prio s t < prio s (current s) ∧ prio s' t = prio s (current s).

Lemma stirred_refl s : donor_ok s → stirred s s.
Proof. intros H. split; [done|]. split; [done|]. split; [|by left]. intros t th th' H1 H2. congruence. Qed.
Lemma stirred_prio s s' t : stirred s s' → prio s t <= prio s' t.
Proof. intros (_ & _ & _ & H). destruct (H t); lia. Qed.
Lemma stirred_current s s' : stirred s s' → current s' = current s ∧ prio s' (current s) = prio s (current s).
Proof.
  intros (Ha & _ & _ & H). split; [symmetry; apply (al_current _ _ Ha)|]. destruct (H (current s)); lia.
Qed.
Lemma stirred_trans s1 s2 s3 : stirred s1 s2 → stirred s2 s3 → stirred s1 s3.
Proof.
  intros Hs (A2 & D2 & P2 & R2). destruct (stirred_current _ _ Hs) as [Hc Hp]. destruct Hs as (A1 & _ & P1 & R1).
  split; [by etrans|]. split; [done|]. split.
  - intros t th1 th3 H1 H3. destruct (alike_thread _ _ _ _ A2 H3) as (th2 & H2 & _).
    rewrite (P2 _ _ _ H2 H3). by apply (P1 t).
  - intros t. rewrite Hc, Hp in R2. destruct (R1 t), (R2 t); lia.
Qed.
Lemma stirred_set s t th f :
  donor_ok s → threads s !! t = Some th → thread_alike th (f th) → pending_lock (f th) = pending_lock th →
  (priority (f th) = priority th ∨ priority th < prio s (current s) ∧ priority (f th) = prio s (current s)) →
  stirred s (with_threads (<[t := f th]> (threads s)) s).
Proof.
  intros Hok Ht Hf Hp Hpr. destruct (donor_set s t th f) as [Ha Hd]; [done..| |].
  - rewrite Hp. by apply (do_pending _ Hok t).
  - split; [done|]. split; [done|]. split.
    + intros u v w Hu Hw. simpl in Hw. apply lookup_insert_Some in Hw as [[<- <-]|[_ Hw]]; congruence.
    + intros u. unfold prio at 1 2 3 5. simpl. destruct (decide (t = u)) as [<-|].
      * rewrite lookup_insert_eq, Ht. done.
      * rewrite lookup_insert_ne by done. by left.
Qed.

(** The next lock of the chain after [l]. *)
Definition next_lock s l : option Z :=
  h ← locks s !! l; th ← threads s !! h;
  if (h =? 0) || (pending_lock th =? 0) then None else Some (pending_lock th).

(** The holder of the lock [l] gets the donor's priority if that is higher, no
    other thread's priority changes, and the loop goes on behind the holder unless
    its priority was higher; without a lock it ends. *)
Definition turn_done s l (r : Z + unit) s' : Prop :=
  if decide (l = 0) then r = inr tt ∧ ∀ t, prio s' t = prio s t else
  ∀ h, locks s !! l = Some h →
    (h ≠ 0 → prio s' h = Z.max (prio s h) (prio s (current s))) ∧
    (∀ t, t ≠ h ∨ h = 0 → prio s' t = prio s t) ∧
    match r with
    | inl l' => prio s h <= prio s (current s) ∧ next_lock s l = (if l' =? 0 then None else Some l')
    | inr _ => h = 0 ∨ prio s (current s) < prio s h
    end.

Lemma donate_step_wp s cur pending :
  donor_ok s → (pending = 0 ∨ is_Some (locks s !! pending)) →
  wp (donate_step cur pending) s (λ r s', stirred s s' ∧
    match r with
    | inl pending' => pending ≠ 0 ∧ (pending' = 0 ∨ is_Some (locks s' !! pending'))
    | inr _ => True
    end ∧ turn_done s pending r s').
Proof.
  intros Hok Hp. destruct (do_run _ Hok) as (cth & Hc & Hst). unfold donate_step, create_donation, thread_get_priority.
  assert (Hpc : prio s (current s) = priority cth) by (unfold prio; by rewrite Hc).
  assert (Hend : ∀ s', s' = s → turn_done s pending (inr tt) s' → stirred s s' ∧ True ∧ turn_done s pending (inr tt) s').
  { intros s' -> H. split; [by apply stirred_refl|done]. }
  destruct (Z.eqb_spec pending 0) as [Hz|Hne].
  { wp_pure. apply Hend; [done|]. unfold turn_done. by rewrite decide_True. }
  destruct Hp as [|[h Hh]]; [done|]. wp_pure. eapply wp_get_holder; [exact Hh|]. wp_pure.
  eapply wp_current; [exact Hc|done|]. wp_pure. eapply wp_get_thread; [exact Hc|]. wp_pure.
  destruct (Z.eqb_spec h 0) as [Hz|Hh0].
  { wp_pure. apply Hend; [done|]. unfold turn_done. rewrite decide_False by done. intros h' Hh'. rewrite Hh in Hh'. injection Hh' as <-. split; [done|]. by split; [|left]. }
  destruct (do_lock _ Hok _ _ Hh) as [[|[hth Hth]] _]; [done|].
  assert (Hph : prio s h = priority hth) by (unfold prio; by rewrite Hth).
  wp_pure. eapply wp_get_thread; [exact Hth|]. destruct (Z.ltb_spec (priority cth) (priority hth)) as [Hlt|Hge].
  { wp_pure. apply Hend; [done|]. unfold turn_done. rewrite decide_False by done. intros h' Hh'. rewrite Hh in Hh'. injection Hh' as <-.
    split; [intros _; lia|]. split; [done|]. right. lia. }
  wp_pure.
  eapply wp_current; [exact Hc|done|]. wp_pure. eapply wp_get_thread; [exact Hc|]. wp_pure.
  set (p := priority cth).
  assert (Hraise : ∀ Q : unit → sched → Prop,
    (∀ s1 th1, stirred s s1 → threads s1 !! h = Some th1 → pending_lock th1 = pending_lock hth →
       priority th1 = p → (∀ t, t ≠ h → prio s1 t = prio s t) → Q tt s1) →
    wp (if priority hth <? p then upd_thread h (set_prio p) else mret tt) s Q).
  { intros Q HQ. destruct (Z.ltb_spec (priority hth) p) as [Hlt|].
    - eapply wp_upd_thread; [exact Hth|]. eapply HQ; [|apply lookup_insert_eq|done|done|].
      + apply stirred_set; try done. right. by rewrite Hpc.
      + intros t Ht. unfold prio. simpl. by rewrite lookup_insert_ne.
    - wp_pure. eapply HQ; [by apply stirred_refl|done|done| |done]. unfold p in *. lia. }
  apply Hraise. clear Hraise. intros s1 th1 Hs1 Hth1 Hp1 Hpr1 Hoth1. wp_pure. eapply wp_upd_thread; [exact Hth1|].
  set (f := λ th, set_donations (insert_ordered compare_priority_for_donate (Donation p cur pending) (donations th)) th).
  pose proof Hs1 as (_ & Hok1 & _). pose proof (stirred_trans _ _ _ Hs1 (stirred_set s1 h th1 f Hok1 Hth1 ltac:(done) eq_refl (or_introl eq_refl))) as Hs2.
  set (s2 := with_threads _ s1) in *.
  assert (Hth2 : threads s2 !! h = Some (f th1)) by apply lookup_insert_eq.
  pose proof Hs2 as (_ & Hok2 & _). wp_pure. eapply wp_get_thread; [exact Hth2|].
  assert (Hturn : ∀ l' s', (∀ t, prio s' t = prio s2 t) → next_lock s pending = (if l' =? 0 then None else Some l') →
    turn_done s pending (inl l') s').
  { intros l' s' Hpr Hr. unfold turn_done. rewrite decide_False by done. intros h' Hh'. rewrite Hh in Hh'. injection Hh' as <-. split; [|split; [|split; [lia|done]]].
    - intros _. rewrite Hpr, Hpc. unfold prio at 1. rewrite Hth2. simpl. rewrite Hpr1. unfold p. lia.
    - intros t [Ht|]; [|done]. rewrite Hpr, <- Hoth1 by done. unfold prio. simpl. by rewrite lookup_insert_ne. }
  assert (Hnext : next_lock s pending = if pending_lock hth =? 0 then None else Some (pending_lock hth)).
  { unfold next_lock. rewrite Hh. simpl. rewrite Hth. simpl. by rewrite (proj2 (Z.eqb_neq _ _) Hh0). }
  change (pending_lock (f th1)) with (pending_lock th1). rewrite Hp1.
  destruct (Z.eqb_spec (pending_lock hth) 0) as [Hz|Hnz].
  { wp_pure. split; [exact Hs2|]. split; [by split; [|left]|]. apply Hturn; [done|]. by rewrite Hnext, Hz. }
  destruct (do_pending _ Hok2 _ _ Hth2) as [Hz|[k Hk]].
  { exfalso. apply Hnz. by rewrite <- Hp1. }
  change (pending_lock (f th1)) with (pending_lock th1) in Hk. rewrite Hp1 in Hk.
  destruct (do_lock _ Hok2 _ _ Hk) as [_ [x Hx]]. wp_pure. eapply wp_get_sema; [exact Hx|]. wp_pure.
  apply wp_sort_by_priority; [intros u; by apply (do_waiters _ Hok2 _ _ u Hx)|]. unfold put_sema. wp_pure.
  destruct (donor_sorted s2 _ x (isort (compare_priority s2) (waiters x)) Hok2 Hx) as [Ha3 Hok3];
    [symmetry; apply isort_perm|].
  split; [|split].
  - apply (stirred_trans _ s2); [done|]. split; [done|]. split; [done|]. split; [|by left].
    intros t u v Hu Hv. change (threads s2 !! t = Some v) in Hv. congruence.
  - split; [done|]. right. simpl. eauto.
  - apply Hturn; [done|]. rewrite Hnext. by rewrite (proj2 (Z.eqb_neq _ _) Hnz).
Qed.

(** ** A part of lock_acquire *)

Lemma doing_donor s th fs : wf s → threads s !! current s = Some th → donor_ok (doing s th fs).
Proof.
  intros Hwf Hc. pose proof (wf_base_ _ Hwf) as Hb.
  assert (Hlive : ∀ u, is_Some (threads s !! u) → is_Some (threads (doing s th fs) !! u)).
  { intros u Hu. apply lookup_insert_is_Some. destruct (decide (current s = u)); [by left|by right]. }
  split.
  - exists (set_todo fs th). split; [apply lookup_insert_eq|]. exact (wf_current_is _ _ Hwf Hc).
  - intros l h Hl. destruct (wb_locks _ Hb _ _ Hl) as (_ & Hh & Hx). split; [|done].
    destruct Hh; [by left|right; by apply Hlive].
  - intros a x t Hx Ht. apply Hlive. by apply (waiter_threads s a x).
  - intros t u Ht. simpl in Ht. apply lookup_insert_Some in Ht as [[<- <-]|[_ Ht]].
    + apply (wb_pending _ Hb _ _ Hc).
    + apply (wb_pending _ Hb _ _ Ht).
Qed.

(** The part over, the thread has [gs] to do before [fs]. *)
Lemma pushed_inv s th fs gs s' (Q : unit → sched → Prop) :
  inv false (doing s th (gs ++ fs)) → alike (doing s th fs) s' → donor_ok s' →
  (∀ th1 s'', inv false s'' → threads s' !! current s = Some th1 →
     s'' = with_threads (<[current s := set_todo (gs ++ fs) th1]> (threads s')) s' → Q tt s'') →
  wp (later gs) s' Q.
Proof.
  intros [Hwf Hi] Ha Hok' HQ.
  destruct (alike_some_thread _ _ (current s) Ha) as [th1 Hth1]; [simpl; rewrite lookup_insert_eq; eauto|].
  destruct (alike_thread _ _ _ _ Ha Hth1) as (th0 & Hth0 & Hst1 & Htd1).
  simpl in Hth0. rewrite lookup_insert_eq in Hth0. injection Hth0 as <-. simpl in Htd1.
  pose proof (al_current _ _ Ha) as Hcur. simpl in Hcur.
  unfold later. wp_pure. eapply wp_upd_thread; [by rewrite <- Hcur|].
  rewrite <- Hcur, <- Htd1. refine (HQ th1 _ _ Hth1 eq_refl). set (s2 := with_threads _ s').
  assert (Ha2 : alike (doing s th (gs ++ fs)) s2).
  { pose proof (al_threads _ _ Ha) as Hal. split; try apply Ha. intros t. specialize (Hal t). simpl in *.
    destruct (decide (current s = t)) as [<-|Hne].
    - rewrite !lookup_insert_eq. by split.
    - rewrite lookup_insert_ne in Hal by done. by rewrite !lookup_insert_ne. }
  split; [|by rewrite <- (al_intr _ _ Ha2)]. apply (alike_wf _ _ Ha2 Hwf).
  intros t u Ht. simpl in Ht. apply lookup_insert_Some in Ht as [[<- <-]|[_ Ht]].
  - apply (do_pending _ Hok' _ _ Hth1).
  - apply (do_pending _ Hok' _ _ Ht).
Qed.

(** What a part of lock_acquire may leave to do. *)
Lemma parts_inv s th f fs gs :
  doer false s th f fs → owns f = None → f ≠ IdleLoop → Forall (frame_refs s (current s)) gs →
  Forall (λ g, owns g = None ∧ g ≠ IdleLoop) gs → may_run (held s (current s)) (gs ++ fs) →
  inv false (doing s th (gs ++ fs)).
Proof.
  intros Hd Hf Hni Hgs Hown Hmay. destruct (doer_ok _ _ _ _ _ Hd) as [H0 Ho]. pose proof Hd as [Hinv Hc Htd].
  apply doing_wf; [done|done| |by rewrite Htd|].
  - destruct gs as [|g gs]; [by eapply todo_inner|]. by apply Forall_cons in Hown as [[? _] _].
  - apply (todo_push s s (current s) f fs gs); try done; destruct gs as [|g gs]; try done;
      by apply Forall_cons in Hown as [[_ ?] ?].
Qed.

Lemma run_bind {A B} (m : ST sched A) (k : A → ST sched B) s (x : A) s1 :
  m s = Done (x, s1) → (m ≫= k) s = k x s1.
Proof. intros H. unfold mbind, st_bind. by rewrite H. Qed.

(** lock_acquire up to its loop. *)
Lemma lock_acquire_run s th l fs h :
  doer false s th (LockAcquire l) fs → locks s !! l = Some h →
  lock_acquire l (doing s th fs) =
    if h =? 0 then later [LockDown l] (doing s th fs)
    else later [Donate l; LockDown l] (doing s (set_pending l th) fs).
Proof.
  intros Hd Hh. destruct (doer_ok _ _ _ _ _ Hd) as [H0 Ho]. pose proof Hd as [Hinv Hc Htd].
  pose proof (doer_status _ _ _ _ _ Hd) as Hst. pose proof (doer_intr _ _ _ _ _ Hd) as Hi.
  destruct (to_may _ _ _ Ho) as [Hnot _].
  assert (Hne : h ≠ current s) by (intros ->; apply Hnot; by apply elem_of_held).
  set (s0 := doing s th fs).
  assert (Hth : threads s0 !! current s = Some (set_todo fs th)) by apply lookup_insert_eq.
  assert (Ecur : thread_current s0 = Done (current s, s0)).
  { apply wp_run_eq. by eapply wp_current. }
  assert (Eheld : lock_held_by_current_thread l s0 = Done (false, s0)).
  { apply wp_run_eq. unfold lock_held_by_current_thread. wp_pure. eapply wp_get_holder; [exact Hh|]. wp_pure.
    eapply wp_current; [exact Hth|done|]. wp_pure. split; [|done]. by apply Z.eqb_neq. }
  assert (Eh : get_holder l s0 = Done (h, s0)).
  { apply wp_run_eq. by eapply wp_get_holder. }
  assert (Eupd : upd_thread (current s) (set_pending l) s0 = Done (tt, doing s (set_pending l th) fs)).
  { apply wp_run_eq. eapply wp_upd_thread; [exact Hth|]. split; [done|].
    unfold s0, doing. simpl. by rewrite insert_insert_eq. }
  unfold lock_acquire. rewrite (run_bind get_st _ _ s0 s0) by done.
  rewrite (run_bind _ _ _ tt s0) by (unfold assert_st; simpl; by rewrite Hi).
  rewrite (run_bind _ _ _ _ _ Eheld), (run_bind _ _ _ tt s0) by done.
  rewrite (run_bind _ _ _ _ _ Ecur), (run_bind _ _ _ _ _ Eh).
  destruct (h =? 0); [done|]. by rewrite (run_bind _ _ _ _ _ Eupd).
Qed.

Lemma pending_donor s th l fs :
  doer false s th (LockAcquire l) fs →
  alike (doing s th fs) (doing s (set_pending l th) fs) ∧ donor_ok (doing s (set_pending l th) fs) ∧
  is_Some (locks s !! l).
Proof.
  intros Hd. pose proof Hd as [[Hwf Hi] Hc Htd]. destruct (doer_ok _ _ _ _ _ Hd) as [H0 Ho].
  pose proof (to_refs _ _ _ Ho) as [Href _]%Forall_cons.
  destruct (donor_set (doing s th fs) (current s) (set_todo fs th) (set_pending l)) as [Ha Hok].
  - by apply doing_donor.
  - apply lookup_insert_eq.
  - done.
  - by right.
  - unfold doing in Ha, Hok. simpl in Ha, Hok. rewrite insert_insert_eq in Ha, Hok. done.
Qed.

Lemma lock_acquire_wp s th l fs h :
  doer false s th (LockAcquire l) fs → locks s !! l = Some h →
  wp (run_frame (LockAcquire l)) (doing s th fs) (λ _ s', inv false s' ∧
    s' = if h =? 0 then doing s th (LockDown l :: fs) else doing s (set_pending l th) (Donate l :: LockDown l :: fs)).
Proof.
  intros Hd Hh. destruct (pending_donor _ _ _ _ Hd) as (Ha & Hok & _). pose proof Hd as [[Hwf Hi] Hc Htd].
  destruct (doer_ok _ _ _ _ _ Hd) as [H0 Ho].
  pose proof (to_refs _ _ _ Ho) as [Href _]%Forall_cons. simpl in Href.
  unfold wp, run_frame. rewrite (lock_acquire_run _ _ _ _ _ Hd Hh). destruct (h =? 0).
  - apply (pushed_inv s th fs [LockDown l]); [|done|by apply doing_donor|].
    + apply (parts_inv s th (LockAcquire l)); try done; [by repeat constructor..|]. apply (to_may _ _ _ Ho).
    + intros th1 s'' Hinv Hth1 ->. split; [done|]. simpl in Hth1. rewrite lookup_insert_eq in Hth1.
      injection Hth1 as <-. unfold doing. simpl. by rewrite insert_insert_eq.
  - apply (pushed_inv s th fs [Donate l; LockDown l]); [|done|done|].
    + apply (parts_inv s th (LockAcquire l)); try done; [|by repeat constructor|].
      * constructor; [by right|]. by repeat constructor.
      * apply (to_may _ _ _ Ho).
    + intros th1 s'' Hinv Hth1 ->. split; [done|]. simpl in Hth1. rewrite lookup_insert_eq in Hth1.
      injection Hth1 as <-. unfold doing. simpl. by rewrite insert_insert_eq.
Qed.
Lemma lock_acquire_safe s th l fs :
  doer false s th (LockAcquire l) fs → wp (run_frame (LockAcquire l)) (doing s th fs) (λ _ s', inv false s').
Proof.
  intros Hd. destruct (pending_donor _ _ _ _ Hd) as (_ & _ & [h Hh]).
  eapply wp_mono; [by eapply lock_acquire_wp|]. by intros [] s' [? _].
Qed.

(** ** The turns *)

(** What no turn changes, and the priorities, which only rise to that of the
    running thread. *)
Record kept s s' : Prop := {
  ke_locks : locks s' = locks s;
  ke_current : current s' = current s;
  ke_pending : ∀ t, pending_lock <$> threads s' !! t = pending_lock <$> threads s !! t;
  ke_prio : ∀ t, prio s' t = prio s t ∨ prio s t < prio s (current s) ∧ prio s' t = prio s (current s);
}.
Lemma kept_donor s s' : kept s s' → prio s' (current s') = prio s (current s).
Proof. intros [_ -> _ H]. destruct (H (current s)); lia. Qed.
Lemma kept_trans s1 s2 s3 : kept s1 s2 → kept s2 s3 → kept s1 s3.
Proof.
  intros H12 [L2 C2 P2 R2]. pose proof (kept_donor _ _ H12) as Hd. destruct H12 as [L1 C1 P1 R1].
  split; [by rewrite L2|by rewrite C2|intros t; by rewrite P2|].
  intros t. rewrite Hd in R2. destruct (R1 t), (R2 t); lia.
Qed.
Lemma prio_set s t th f : threads s !! t = Some th → priority (f th) = priority th →
  ∀ u, prio (with_threads (<[t := f th]> (threads s)) s) u = prio s u.
Proof.
  intros Ht Hf u. unfold prio. simpl. destruct (decide (t = u)) as [<-|].
  - by rewrite lookup_insert_eq, Ht.
  - by rewrite lookup_insert_ne.
Qed.
Lemma kept_set s t th f :
  threads s !! t = Some th → pending_lock (f th) = pending_lock th → priority (f th) = priority th →
  kept s (with_threads (<[t := f th]> (threads s)) s).
Proof.
  intros Ht Hp Hpr. split; [done|done| |]; intros u.
  - simpl. destruct (decide (t = u)) as [<-|]; [|by rewrite lookup_insert_ne].
    rewrite lookup_insert_eq, Ht. simpl. by f_equal.
  - left. by apply prio_set.
Qed.
Lemma stirred_kept s s' : stirred s s' → kept s s'.
Proof.
  intros (Ha & _ & Hp & Hpr). split; [by rewrite (al_locks _ _ Ha)|by rewrite (al_current _ _ Ha)| |done].
  intros t. destruct (threads s' !! t) as [th'|] eqn:Hth'.
  - destruct (alike_thread _ _ _ _ Ha Hth') as (th & Hth & _). rewrite Hth. simpl. f_equal. by apply (Hp t).
  - destruct (threads s !! t) as [th|] eqn:Hth; [|done]. symmetry in Ha.
    destruct (alike_thread _ _ _ _ Ha Hth) as (? & ? & _). congruence.
Qed.
Lemma kept_next s s' l : kept s s' → next_lock s' l = next_lock s l.
Proof.
  intros [Hl _ Hp _]. unfold next_lock. rewrite Hl. destruct (locks s !! l) as [h|]; [simpl|done].
  specialize (Hp h). destruct (threads s' !! h), (threads s !! h); simpl in *; try done. by injection Hp as ->.
Qed.

(** A turn does not look at the frames. *)
Lemma turn_done_same s1 s2 s3 s4 l r :
  locks s2 = locks s1 → current s2 = current s1 → (∀ t, prio s2 t = prio s1 t) → next_lock s2 l = next_lock s1 l →
  (∀ t, prio s4 t = prio s3 t) → turn_done s2 l r s3 → turn_done s1 l r s4.
Proof.
  unfold turn_done. intros Hl Hc Hp Hn Hp' H. destruct (decide (l = 0)).
  { destruct H as [-> H]. split; [done|]. intros t. by rewrite Hp', H. }
  intros h Hh. rewrite <- Hl in Hh. specialize (H h Hh).
  rewrite Hc, Hn, !Hp in H. rewrite !Hp'. destruct H as (? & H & ?). split; [done|]. split; [|done].
  intros t Ht. rewrite Hp', <- Hp. by apply H.
Qed.

(** One turn of the loop, as a part of the running thread. *)
Lemma donate_turn s th p fs :
  doer false s th (Donate p) fs →
  wp (run_frame (Donate p)) (doing s th fs) (λ _ s', inv false s' ∧ kept s s' ∧ ∃ r th',
    turn_done s p r s' ∧
    threads s' !! current s = Some th' ∧
    todo th' = match r with inl p' => Donate p' :: fs | inr _ => fs end).
Proof.
  intros Hd. pose proof Hd as [[Hwf Hi] Hc Htd]. destruct (doer_ok _ _ _ _ _ Hd) as [H0 Ho].
  pose proof (doer_status _ _ _ _ _ Hd) as Hst.
  pose proof (to_refs _ _ _ Ho) as [Href _]%Forall_cons. simpl in Href.
  pose proof (kept_set s (current s) th (set_todo fs) Hc eq_refl eq_refl) as Hk. change (kept s (doing s th fs)) in Hk.
  pose proof (prio_set s (current s) th (set_todo fs) Hc eq_refl) as Hp1.
  unfold run_frame, donate. wp_pure. eapply wp_current; [apply lookup_insert_eq|done|]. wp_pure.
  change (current (doing s th fs)) with (current s).
  eapply wp_mono; [apply donate_step_wp; [by apply doing_donor|done]|]. intros r s1 (Hs & Hr & Ht).
  pose proof Hs as (Ha & Hok & _). pose proof (kept_trans _ _ _ Hk (stirred_kept _ _ Hs)) as Hk1.
  assert (Hend : ∀ s' th1 gs, threads s1 !! current s = Some th1 →
    s' = with_threads (<[current s := set_todo gs th1]> (threads s1)) s1 →
    kept s s' ∧ turn_done s p r s' ∧ threads s' !! current s = Some (set_todo gs th1)).
  { intros s' th1 gs Hth1 ->. split; [|split].
    - eapply kept_trans; [exact Hk1|]. by apply kept_set.
    - apply (turn_done_same s (doing s th fs) s1); try done; [by apply kept_next|by apply prio_set].
    - apply lookup_insert_eq. }
  destruct r as [p'|[]].
  - destruct Hr as [Hp0 Hr]. apply (pushed_inv s th fs [Donate p']); [|done|done|].
    + apply (parts_inv s th (Donate p)); try done; [|by repeat constructor|apply (to_may _ _ _ Ho)].
      constructor; [|done]. simpl. rewrite (ke_locks _ _ Hk1) in Hr. done.
    + intros th1 s' Hinv Hth1 Hs'. split; [done|]. destruct (Hend _ _ _ Hth1 Hs') as (? & ? & ?). split; [done|].
      by exists (inl p'), (set_todo ([Donate p'] ++ fs) th1).
  - destruct (alike_some_thread _ _ (current s) Ha) as [th1 Hth1]; [simpl; rewrite lookup_insert_eq; eauto|].
    destruct (alike_thread _ _ _ _ Ha Hth1) as (th0 & Hth0 & _ & Htd1).
    simpl in Hth0. rewrite lookup_insert_eq in Hth0. injection Hth0 as <-. simpl in Htd1.
    assert (Hsame : with_threads (<[current s := set_todo fs th1]> (threads s1)) s1 = s1).
    { rewrite insert_id; [by destruct s1|]. rewrite Hth1, Htd1. by destruct th1. }
    destruct (Hend _ _ fs Hth1 eq_refl) as (Hk' & Ht' & _). rewrite Hsame in Hk', Ht'.
    wp_pure. split; [|split; [exact Hk'|]].
    + destruct (parts_inv s th (Donate p) fs [] Hd) as [Hwf' Hi']; try done; [apply (to_may _ _ _ Ho)|].
      split; [|by rewrite <- (al_intr _ _ Ha)]. apply (alike_wf _ _ Ha Hwf'). apply (do_pending _ Hok).
    + by exists (inr tt), th1.
Qed.
End donate.
