(* ===== verification/KernelSafe.v ===== *)
(** * The kernel keeps the invariant

    Every step of a thread, the timer interrupt and the creation of a thread. *)
From stdpp Require Import base numbers list sets gmap.
From Stdlib Require Import ZArith Lia.
From S2P Require Import Prelude OrderedSeq Thread Synch Timer Kernel SchedInv SchedSafe SynchSafe DonateSafe.
Open Scope Z_scope.

Section kernel.
Implicit Types (s : sched) (t l : Z) (th : thread) (a : sema_id) (fs gs : list frame).

(** ** Functions of threads/thread.c and devices/timer.c *)

Lemma preempt_safe s th fs :
  doer false s th Preempt fs → wp (run_frame Preempt) (doing s th fs) (λ _ s', inv false s').
Proof.
  intros Hd. destruct (doer_ok _ _ _ _ _ Hd) as [_ Ho]. apply compare_cur_next_priority_wf.
  apply (pop_wf false s th Preempt); try done. apply (to_may _ _ _ Ho).
Qed.
Lemma yield_safe s th fs :
  doer false s th ThreadYield fs → wp (run_frame ThreadYield) (doing s th fs) (λ _ s', inv false s').
Proof.
  intros Hd. destruct (doer_ok _ _ _ _ _ Hd) as [_ Ho]. apply thread_yield_wf.
  apply (pop_wf false s th ThreadYield); try done. apply (to_may _ _ _ Ho).
Qed.
Lemma set_priority_safe s th fs p :
  doer false s th (SetPriority p) fs →
  wp (run_frame (SetPriority p)) (doing s th fs) (λ _ s', inv false s').
Proof.
  intros Hd. destruct (doer_ok _ _ _ _ _ Hd) as [_ Ho]. apply thread_set_priority_wf.
  apply (pop_wf false s th (SetPriority p)); try done. apply (to_may _ _ _ Ho).
Qed.
Lemma woken_safe s th fs f :
  f = Asleep ∨ f = KernelThread → doer false s th f fs → wp (run_frame f) (doing s th fs) (λ _ s', inv false s').
Proof.
  intros Hf Hd. destruct (doer_ok _ _ _ _ _ Hd) as [_ Ho].
  destruct Hf as [->| ->]; unfold run_frame; wp_pure;
    (eapply (pop_wf false s th); [exact Hd|done|done|apply (to_may _ _ _ Ho)]).
Qed.
Lemma exit_safe s th fs :
  doer false s th ThreadExit fs → wp (run_frame ThreadExit) (doing s th fs) (λ _ s', inv false s').
Proof.
  intros Hd. destruct (doer_ok _ _ _ _ _ Hd) as [_ Ho]. destruct (to_may _ _ _ Ho) as [Hh ->].
  eapply thread_exit_wf; [|apply lookup_insert_eq|exact Hh|done|].
  - by apply (pop_wf false s th ThreadExit).
  - by apply (todo_not_idle _ _ _ _ Ho).
Qed.

Lemma timer_sleep_wp s th fs n :
  doer false s th (TimerSleep n) fs → wp (run_frame (TimerSleep n)) (doing s th fs) (λ _ s', inv false s' ∧
    sleepers s' = insert_ordered compare_tick (current s, s64 (ticks s + n)) (sleepers s)).
Proof.
  intros Hd. destruct (doer_ok _ _ _ _ _ Hd) as [H0 Ho]. pose proof (doer_status _ _ _ _ _ Hd) as Hst.
  pose proof (todo_not_idle _ _ _ _ Ho ltac:(done)) as Hid. pose proof (doer_base _ _ _ _ _ Hd) as Hb.
  assert (Hpush : inv false (doing s th (Asleep :: fs))).
  { pose proof Hd as [Hinv Hc Htd]. apply doing_wf; try done; [by rewrite Htd|].
    apply (todo_push s s (current s) (TimerSleep n) fs [Asleep]); try done.
    - by repeat constructor.
    - apply (to_may _ _ _ Ho). }
  unfold run_frame, timer_sleep. wp_pure. eapply wp_current; [apply lookup_insert_eq|done|]. wp_pure.
  change (current (doing s th fs)) with (current s). change (ticks (doing s th fs)) with (ticks s).
  set (e := (current s, s64 (ticks s + n))).
  match goal with |- context [with_sleepers _ ?c0 _] => set (c := c0) end.
  change (with_sleepers ?l c (doing s th fs)) with (doing (with_sleepers l c s) th fs). apply later_doing.
  set (s1 := doing s th (Asleep :: fs)) in *.
  change (doing (with_sleepers ?l c s) th ([Asleep] ++ fs)) with (with_sleepers l c (with_semas (semas s1) s1)).
  assert (Hnin : ∀ a x, semas s !! a = Some x → current s ∉ waiters x).
  { intros a x Hx Hin. destruct (wb_waiters _ Hb _ _ _ Hx Hin) as (u & Hu & ? & _).
    destruct Hd as [_ Hc _]. congruence. }
  assert (Hnsl : current s ∉ fst <$> sleepers s).
  { intros Hin. destruct (wb_sleep _ Hb _ Hin) as (u & Hu & ? & _). destruct Hd as [_ Hc _]. congruence. }
  assert (Hperm : fst <$> insert_ordered compare_tick e (sleepers s) ≡ₚ current s :: (fst <$> sleepers s)).
  { by rewrite insert_ordered_perm. }
  apply (thread_block_spec s1 (set_todo (Asleep :: fs) th)); [exact Hpush|apply lookup_insert_eq|].
  split; try done.
  - apply (wb_ready_nodup _ Hb).
  - intros t. split; [by left|]. intros [|(_ & [=] & _)]; done.
  - intros a x y Hx Hy. change (semas s !! a = Some x) in Hx. change (semas s !! a = Some y) in Hy.
    rewrite Hx in Hy. injection Hy as <-. split; [done|]. split; [by apply (wb_sema _ Hb a)|].
    intros t. split; [by left|]. intros [|(_ & _ & [=])]; done.
  - rewrite Hperm. constructor; [done|apply (wb_sleep_nodup _ Hb)].
  - intros t. rewrite Hperm, elem_of_cons. simpl. naive_solver.
  - intros _. right. by left.
Qed.

Lemma timer_sleep_safe s th fs n :
  doer false s th (TimerSleep n) fs → wp (run_frame (TimerSleep n)) (doing s th fs) (λ _ s', inv false s').
Proof. intros Hd. eapply wp_mono; [by apply timer_sleep_wp|]. by intros [] s' [? _]. Qed.

Lemma idle_safe s th fs :
  doer false s th IdleLoop fs → wp (run_frame IdleLoop) (doing s th fs) (λ _ s', inv false s').
Proof.
  intros Hd. destruct (doer_ok _ _ _ _ _ Hd) as [H0 Ho]. pose proof Hd as [Hinv Hc Htd].
  pose proof (doer_base _ _ _ _ _ Hd) as Hb.
  assert (Hid : current s = idle_thread s) by (apply (to_idle _ _ _ Ho IdleLoop); [set_solver|done]).
  unfold run_frame, idle_loop. wp_pure. apply later_doing. simpl. rewrite <- Htd, (doing_same s th Hc).
  replace s with (with_sleepers (sleepers s) (closet_tick s) (with_semas (semas s) s)) at 1 by by destruct s.
  apply (thread_block_wf s th); [done|done|]. split; try done.
  - apply (wb_ready_nodup _ Hb).
  - intros t. split; [by left|]. intros [|(_ & [=] & _)]; done.
  - intros a x y Hx Hy. rewrite Hx in Hy. injection Hy as <-. split; [done|]. split; [by apply (wb_sema _ Hb a)|].
    intros t. split; [by left|]. rewrite Htd. intros [|(_ & _ & [=])]; done.
  - apply (wb_sleep_nodup _ Hb).
  - intros t. rewrite Htd. split; [by left|]. intros [|(_ & _ & [=])]; done.
  - intros _. by left.
Qed.

(** ** One step of the running thread *)

Lemma donate_safe s th p fs :
  doer false s th (Donate p) fs → wp (run_frame (Donate p)) (doing s th fs) (λ _ s', inv false s').
Proof. intros Hd. eapply wp_mono; [by apply donate_turn|]. by intros [] s' [? _]. Qed.
Lemma create_end_safe s th t fs :
  doer false s th (CreateEnd t) fs → is_Some (threads s !! t) →
  wp (run_frame (CreateEnd t)) (doing s th fs) (λ _ s', inv false s').
Proof.
  intros Hd [tth Ht]. destruct (doer_ok _ _ _ _ _ Hd) as [_ Ho].
  assert (is_Some (threads (doing s th fs) !! t)) as [tth' Ht'].
  { apply lookup_insert_is_Some. destruct (decide (current s = t)); [by left|right; eauto]. }
  unfold run_frame, thread_create_end. wp_pure. eapply wp_get_thread; [exact Ht'|].
  assert (inv false (doing s th fs)) by (apply (pop_wf false s th (CreateEnd t)); try done; apply (to_may _ _ _ Ho)).
  destruct (compare_priority _ _ _); [by apply thread_yield_wf|by wp_pure].
Qed.

(** The thread that thread_create has made is gone before its creator goes on. *)
Definition created_gone s : Prop :=
  ∃ th t fs, threads s !! current s = Some th ∧ todo th = CreateEnd t :: fs ∧ threads s !! t = None.

(** A part ends, and the invariant holds again. *)
Lemma run_frame_wp s th f fs :
  doer false s th f fs → ¬ created_gone s →
  wp (run_frame f) (doing s th fs) (λ _ s', inv false s').
Proof.
  intros Hd Hgone. destruct (doer_ok _ _ _ _ _ Hd) as [_ Ho].
  destruct f as [a|a|l|p|l|l|l|l|l|l| |c l|c l|c l| |p|n|n| | | | |t].
  - exact (sema_down_safe _ _ _ _ Hd).
  - exact (sema_up_safe _ _ _ _ Hd).
  - exact (lock_acquire_safe _ _ _ _ Hd).
  - exact (donate_safe _ _ _ _ Hd).
  - exact (lock_down_safe _ _ _ _ Hd).
  - exact (lock_acquired_safe _ _ _ _ Hd).
  - exact (lock_try_acquire_safe _ _ _ _ Hd).
  - exact (lock_tried_safe _ _ _ _ Hd).
  - exact (lock_release_safe _ _ _ _ Hd).
  - exact (lock_up_safe _ _ _ _ Hd).
  - exact (preempt_safe _ _ _ Hd).
  - exact (cond_wait_safe _ _ _ _ _ Hd).
  - exact (cond_signal_safe _ _ _ _ _ Hd).
  - exact (cond_broadcast_safe _ _ _ _ _ Hd).
  - exact (yield_safe _ _ _ Hd).
  - exact (set_priority_safe _ _ _ _ Hd).
  - destruct (proj1 (Forall_cons _ _ _) (to_refs _ _ _ Ho)) as [[] _].
  - exact (timer_sleep_safe _ _ _ _ Hd).
  - exact (woken_safe _ _ _ _ (or_introl eq_refl) Hd).
  - exact (exit_safe _ _ _ Hd).
  - exact (idle_safe _ _ _ Hd).
  - exact (woken_safe _ _ _ _ (or_intror eq_refl) Hd).
  - apply create_end_safe; [done|]. destruct (threads s !! t) eqn:Ht; [by eauto|]. exfalso. apply Hgone.
    exists th, t, fs. split; [apply Hd|]. by split; [apply Hd|].
Qed.

Lemma run_next_eq s th f fs :
  threads s !! current s = Some th → todo th = f :: fs → run_next s = run_frame f (doing s th fs).
Proof.
  intros Hc Htd. unfold run_next. rewrite (run_bind get_st _ _ s s) by done.
  rewrite (run_bind _ _ _ th s) by (apply wp_run_eq; by eapply wp_get_thread). rewrite Htd.
  rewrite (run_bind _ _ _ tt (doing s th fs)); [done|]. apply wp_run_eq. by eapply wp_upd_thread.
Qed.

Lemma run_next_idle s th : threads s !! current s = Some th → todo th = [] → run_next s = Done (tt, s).
Proof.
  intros Hc Htd. apply wp_run_eq. unfold run_next. wp_pure. eapply wp_get_thread; [exact Hc|]. rewrite Htd.
  by wp_pure.
Qed.

Lemma run_next_wp s : inv false s → ¬ created_gone s → wp run_next s (λ _ s', inv false s').
Proof.
  intros Hinv Hgone. pose proof Hinv as [Hwf Hi]. destruct (wf_current _ Hwf) as (th & Hc & Hst). unfold wp.
  destruct (todo th) as [|f fs] eqn:Htd; [by rewrite (run_next_idle _ _ Hc Htd)|].
  rewrite (run_next_eq _ _ _ _ Hc Htd). by apply run_frame_wp.
Qed.
Lemma run_next_gone s : created_gone s → run_next s = Undef.
Proof.
  intros (th & t & fs & Hc & Htd & Hn). rewrite (run_next_eq _ _ _ _ Hc Htd). unfold run_frame, thread_create_end.
  rewrite (run_bind get_st _ _ (doing s th fs) (doing s th fs)) by done.
  assert (Hg : get_thread t (doing s th fs) = Undef).
  { unfold get_thread, mbind, st_bind, get_st. simpl. rewrite lookup_insert_ne, Hn; [done|]. intros <-. congruence. }
  unfold mbind, st_bind. by rewrite Hg.
Qed.
#[export] Instance created_gone_dec s : Decision (created_gone s).
Proof.
  destruct (threads s !! current s) as [th|] eqn:Hc; [|right; intros (? & ? & ? & ? & _); congruence].
  destruct (todo th) as [|f fs] eqn:Htd; [right; intros (? & ? & ? & ? & ? & _); congruence|].
  destruct f; try (right; intros (? & ? & ? & ? & ? & _); congruence).
  match type of Htd with _ = CreateEnd ?u :: _ => destruct (threads s !! u) eqn:Hu end.
  - right. intros (? & ? & ? & ? & ? & ?). simplify_eq. congruence.
  - left. eexists _, _, _. done.
Defined.

(** ** The timer interrupt *)

(** The invariant does not look at the clock nor at the interrupt's flags. *)
Lemma wf_clock s c tk tt' b y :
  wf s → wf (with_intr b y (with_thread_ticks tt' (with_ticks tk (with_sleepers (sleepers s) c s)))).
Proof.
  intros [Hb Hm Hr]. set (s' := with_intr _ _ _). split; [|exact Hm|exact Hr].
  destruct Hb as [H1 H2 H3 H4 H5 H6 H7 H8 H9 H10 H11 H12 H13 H14]. split; try assumption.
  intros t th Ht. destruct (H1 t th Ht) as [H0 [A B C D [E F G I]]]. split; [exact H0|].
  split; [exact A|exact B|exact C|exact D|]. split; [exact E|exact F|exact G|exact I].
Qed.

(** The first threads of [sleepers] that are due by the tick [n] are woken. *)
Record woke s n s' : Prop := {
  wo_inv : inv true s';
  wo_due : ∃ due, sleepers s = due ++ sleepers s' ∧ Forall (λ e, snd e <= n) due ∧
    ready_list s' ≡ₚ (fst <$> due) ++ ready_list s;
  wo_current : current s' = current s;
}.

Lemma wake_step_wp s n s1 :
  inv true s → woke s n s1 →
  wp (wake_step n tt) s1 (λ r s', woke s n s' ∧
    match r with
    | inl tt => (length (sleepers s') < length (sleepers s1))%nat
    | inr tt => match sleepers s' with [] => True | e :: _ => n < snd e end
    end).
Proof.
  intros Hinv Hw. pose proof Hw as [[[Hb Hm Hr] Hi] (due & Hsl & Hdue & Hready) Hcur].
  unfold wake_step. wp_pure. destruct (sleepers s1) as [|[t w] l] eqn:Hs1; [wp_pure; by rewrite Hs1|].
  destruct (Z.leb_spec w n) as [Hwn|Hwn]; [|wp_pure; by rewrite Hs1].
  assert (Hin : t ∈ fst <$> sleepers s1) by (rewrite Hs1; set_solver).
  destruct (wb_sleep _ Hb _ Hin) as (th & Hth & Hst & Hhd).
  assert (Hid : t ≠ idle_thread s1).
  { destruct (wb_thread _ Hb _ _ Hth) as [_ Hok]. pose proof (tk_todo _ _ _ Hok) as Ho.
    destruct (todo th) as [|f fs]; [done|]. injection Hhd as ->. by apply (todo_not_idle _ _ _ _ Ho). }
  pose proof (wb_sleep_nodup _ Hb) as Hnd. rewrite Hs1 in Hnd. simpl in Hnd. apply NoDup_cons in Hnd as [Hnt Hnd].
  wp_pure. eapply (wp_thread_unblock _ t th); [exact Hth|done|by apply (ready_threads s1)|].
  intros r' Hr'. wp_pure. split; [|simpl; lia].
  destruct (woken_wf s1 t th r' (semas s1) l (closet_tick s1)) as (Hb' & Hm' & Hr1); [done..| |exact Hr'|].
  - split; try done.
    + intros a x y Hx Hy. rewrite Hx in Hy. injection Hy as <-. split; [done|].
      split; [by apply (wb_sema _ Hb _ _ Hx)|]. intros u. split; [|naive_solver]. intros Hu. split; [done|].
      intros ->. destruct (wb_waiters _ Hb _ _ _ Hx Hu) as (v & Hv & _ & Hh). rewrite Hth in Hv. injection Hv as <-.
      destruct (todo th) as [|f fs]; [done|]. injection Hhd as ->. done.
    + intros u. rewrite Hs1. simpl. rewrite elem_of_cons. split; [|naive_solver].
      intros Hu. split; [by right|]. by intros ->.
  - split.
    + split; [|done]. split; [exact Hb'| |exact (Hr1 Hr)]. intros k Hk. apply Hm', Hm, Hk.
    + exists (due ++ [(t, w)]). simpl. rewrite <- app_assoc, fmap_app. simpl. split; [done|]. split.
      * apply Forall_app. split; [done|]. by repeat constructor.
      * simpl in Hr'. rewrite Hr', Hready, <- app_assoc. simpl. by rewrite Permutation_middle.
    + done.
Qed.

Lemma wake_up_wp s n :
  inv true s → wp (wake_up n) s (λ _ s', woke s n s' ∧
    match sleepers s' with [] => closet_tick s' = 0 | e :: _ => n < snd e ∧ closet_tick s' = snd e end).
Proof.
  intros Hinv. unfold wake_up. wp_pure.
  apply (wp_loop (λ k _ s', k = length (sleepers s') ∧ woke s n s') _ _ (length (sleepers s))); [|split; [done|]|lia].
  - intros k [] s1 [-> Hw]. eapply wp_mono; [by apply wake_step_wp|]. intros [[]|[]] s' [Hw' Hr].
    + by exists (length (sleepers s')).
    + wp_pure. destruct Hw' as [[Hwf Hi] Hd Hc]. split.
      * split; [|done..]. split; [|done]. set (c := match sleepers s' with [] => 0 | _ => _ end).
        pose proof (wf_clock s' c (ticks s') (thread_ticks s') (in_external_intr s') (yield_on_return s') Hwf) as H.
        exact H.
      * simpl. destruct (sleepers s') as [|[t w] l]; done.
  - split; [done| |done]. exists []. by split; [|split].
Qed.

Lemma tick_wp s : inv false s → wp tick s (λ _ s', inv false s').
Proof.
  intros [Hwf Hi]. destruct (wf_current _ Hwf) as (th & Hc & Hst).
  unfold tick, external_interrupt. wp_pure. wp_step; [by rewrite Hi|]. wp_pure.
  unfold timer_interrupt, thread_tick. wp_pure. eapply wp_current; [exact Hc|done|]. wp_pure.
  simpl. rewrite (wb_mlfqs _ (wf_base_ _ Hwf)). wp_pure.
  assert (Hgo : ∀ s1, inv true s1 →
    wp (if negb (closet_tick s1 =? 0) && (closet_tick s1 <=? ticks s1) then wake_up (ticks s1) else mret tt) s1
      (λ _ s', inv true s')).
  { intros s1 H1. destruct (_ && _); [|by wp_pure]. eapply wp_mono; [by apply wake_up_wp|]. by intros [] s' [[? _ _] _]. }
  assert (Hend : ∀ s1, inv true s1 → wp (s2 ← get_st; _ ← assert_st (in_external_intr s2);
    _ ← modify (with_intr false (yield_on_return s2)); if yield_on_return s2 then thread_yield else mret tt) s1
      (λ _ s', inv false s')).
  { intros s1 [H1 H2]. wp_pure. wp_step; [done|]. wp_pure.
    assert (inv false (with_intr false (yield_on_return s1) s1)) as Hs1.
    { split; [|done]. exact (wf_clock s1 (closet_tick s1) (ticks s1) (thread_ticks s1) _ _ H1). }
    destruct (yield_on_return s1); [by apply thread_yield_wf|by wp_pure]. }
  assert (Hboth : ∀ y, wp (s1 ← get_st; if negb (closet_tick s1 =? 0) && (closet_tick s1 <=? ticks s1)
      then wake_up (ticks s1) else mret tt)
    (with_intr true y (with_thread_ticks (thread_ticks s + 1) (with_ticks (s64 (ticks s + 1)) s)))
    (λ _ s1, wp (s2 ← get_st; _ ← assert_st (in_external_intr s2);
      _ ← modify (with_intr false (yield_on_return s2)); if yield_on_return s2 then thread_yield else mret tt) s1
      (λ _ s', inv false s'))).
  { intros y. wp_pure. eapply wp_mono; [apply Hgo|intros [] s1; apply Hend].
    split; [|done]. exact (wf_clock s (closet_tick s) _ _ true y Hwf). }
  destruct (_ <=? _); wp_pure; [exact (Hboth true)|exact (Hboth false)].
Qed.

(** ** A new thread *)

Lemma created_wf s t th r' al :
  wf s → threads s !! t = None → t ≠ 0 → status th = THREAD_READY → todo th = [KernelThread] →
  pending_lock th = 0 → r' ≡ₚ t :: ready_list s →
  wf (with_threads (<[t := th]> (threads s)) (with_ready r' (with_all al s))).
Proof.
  intros [Hb Hm (cth & Hc & Hrun)] Hnew Ht0 Hst Htd Hpd Hr. set (s' := with_threads _ _).
  assert (Hths : threads s' = <[t := th]> (threads s)) by done.
  assert (Hold : ∀ u v, threads s' !! u = Some v → (u = t ∧ v = th) ∨ (u ≠ t ∧ threads s !! u = Some v)).
  { intros u v Hu. rewrite Hths in Hu. apply lookup_insert_Some in Hu as [[<- <-]|[? Hu]]; auto. }
  assert (Hkeep : ∀ u v, threads s !! u = Some v → threads s' !! u = Some v).
  { intros u v Hu. rewrite Hths, lookup_insert_ne; [done|]. intros <-. congruence. }
  assert (Hlive : ∀ u, is_Some (threads s !! u) → is_Some (threads s' !! u)) by (intros u [v Hv]; eauto).
  assert (Hne : idle_thread s ≠ t).
  { intros Hid. destruct (wb_idle _ Hb) as [v Hv]. congruence. }
  split; [split; try apply Hb| |].
  - intros u v Hu. destruct (Hold _ _ Hu) as [[-> ->]|[Hu1 Hu2]].
    + split; [done|]. split; rewrite ?Hst; try done.
      * intros _. right. simpl. rewrite Hr. by left.
      * rewrite Htd. split; [by repeat constructor|constructor|done|].
        intros f Hf%list_elem_of_singleton. subst f. by split.
    + destruct (wb_thread _ Hb _ _ Hu2) as [? [A B C D E]]. split; [done|]. split; [done| |done|done|by apply (more_todo s)].
      intros Hx. destruct (B Hx) as [|Hin]; [by left|right]. simpl. rewrite Hr. by right.
  - simpl. rewrite Hr. constructor; [|apply (wb_ready_nodup _ Hb)]. intros Hin.
    destruct (wb_ready _ Hb _ Hin) as (_ & v & Hv & _). congruence.
  - intros u Hu. simpl in Hu. rewrite Hr in Hu. apply elem_of_cons in Hu as [->|Hu].
    + split; [done|]. exists th. by rewrite Hths, lookup_insert_eq.
    + destruct (wb_ready _ Hb _ Hu) as (? & v & ? & ?). split; [done|]. exists v. auto.
  - intros a x u Hx Hu. destruct (wb_waiters _ Hb a x u Hx Hu) as (v & ? & ?). exists v. auto.
  - intros u Hu. destruct (wb_sleep _ Hb u Hu) as (v & ? & ?). exists v. auto.
  - intros u Hu. destruct (wb_destr _ Hb u Hu) as (? & v & ? & ?). split; [done|]. exists v. auto.
  - apply Hlive, (wb_current _ Hb).
  - apply Hlive, (wb_idle _ Hb).
  - intros l h Hl. destruct (wb_locks _ Hb l h Hl) as (? & Hh & ?). split; [done|]. split; [|done].
    destruct Hh; [by left|right; by apply Hlive].
  - intros u v Hu. destruct (Hold _ _ Hu) as [[-> ->]|[_ Hu2]]; [by left|]. apply (wb_pending _ Hb _ _ Hu2).
  - intros l Hl. apply (mutex_ok_change s); [|by eauto|by apply Hm].
    intros u. split; intros [Hu0 Ho]; (split; [done|]); (destruct Ho as [Ho|(v & Hv & Ho)]; [by left|right]).
    + exists v. auto.
    + destruct (Hold _ _ Hv) as [[-> ->]|[_ Hu2]]; [by rewrite Htd in Ho|eauto].
  - exists cth. auto.
Qed.

Lemma thread_create_wp s cth t p :
  inv false s → threads s !! current s = Some cth → todo cth = [] → current s ≠ idle_thread s →
  threads s !! t = None → t ≠ 0 → PRI_MIN <= p <= PRI_MAX →
  wp (thread_create t p) s (λ _ s', inv false s').
Proof.
  intros [Hwf Hi] Hc Htd Hid Hnew Ht0 Hp. pose proof (wf_current_is _ _ Hwf Hc) as Hst.
  pose proof (wb_mlfqs _ (wf_base_ _ Hwf)) as Hml.
  unfold thread_create, init_thread. wp_pure. wp_step; [lia|]. wp_pure. rewrite Hml. wp_pure. simpl.
  set (th := Thread _ _ _ _ _ _ _ _).
  eapply (wp_thread_unblock _ t th); [apply lookup_insert_eq|done| |].
  { intros u Hu. destruct (ready_threads s (wf_base_ _ Hwf) u Hu) as [v Hv]. simpl.
    destruct (decide (t = u)) as [->|]; [rewrite lookup_insert_eq|rewrite lookup_insert_ne by done]; eauto. }
  intros r' Hr'. simpl in *. rewrite insert_insert_eq.
  set (s1 := with_threads _ _).
  assert (H1 : inv false s1) by (split; [|done];
    exact (created_wf s t (set_status THREAD_READY th) r' (all_list s ++ [t]) Hwf Hnew Ht0 eq_refl eq_refl eq_refl Hr')).
  assert (Hc1 : threads s1 !! current s1 = Some cth).
  { simpl. rewrite lookup_insert_ne; [done|]. intros ->. congruence. }
  rewrite <- (doing_same s1 cth Hc1). apply later_doing. rewrite Htd. apply doing_wf; try done; [by rewrite Htd|].
  split; [by repeat constructor|constructor|done|]. intros f ->%list_elem_of_singleton. split; [done|]. by intros ?%Hid.
Qed.

(** ** New objects *)

Lemma objects_wf s lk sm cd :
  wf s → locks s ⊆ lk → semas s ⊆ sm → conds s ⊆ cd →
  (∀ l h, lk !! l = Some h → locks s !! l = Some h ∨
     l ≠ 0 ∧ h = 0 ∧ semas s !! OfLock l = None ∧ sm !! OfLock l = Some (Semaphore 1 [])) →
  (∀ a y, sm !! a = Some y → semas s !! a = Some y ∨ 0 <= value y < 2 ^ 32 ∧ waiters y = []) →
  (∀ c ws, cd !! c = Some ws → conds s !! c = Some ws ∨ ws = []) →
  (∀ l, locks s !! l = None → ∀ t th, threads s !! t = Some th → head_owns (todo th) ≠ Some l) →
  wf (with_locks lk (with_semas sm (with_conds cd s))).
Proof.
  intros [Hb Hm Hr] Hlk Hsm Hcd Hlk' Hsm' Hcd' Hfree. set (s' := with_locks _ _).
  assert (Hmore : more_objects s s').
  { split; [|split]; intros x [y Hy]; simpl; eauto using lookup_weaken. }
  assert (Hheld : ∀ t, t ≠ 0 → held s' t = held s t).
  { intros t Ht. apply set_eq. intros l. rewrite !elem_of_held. split; [|intros ?; by eapply lookup_weaken].
    intros Hl. by destruct (Hlk' _ _ Hl) as [|(_ & -> & _)]. }
  assert (Hown : ∀ l t, owner s' l t → owner s l t).
  { intros l t [Ht [Hl|Ho]]; (split; [done|]); [left|by right]. by destruct (Hlk' _ _ Hl) as [|(_ & -> & _)]. }
  assert (Hown' : ∀ l t, owner s l t → owner s' l t).
  { intros l t [Ht [Hl|Ho]]; (split; [done|]); [left|by right]. by eapply lookup_weaken. }
  split; [split; try apply Hb| |exact Hr].
  - intros t th Ht. destruct (wb_thread _ Hb _ _ Ht) as [? [A B C D E]]. split; [done|].
    split; [done|done| | |apply (more_todo s); auto].
    + intros Hx. destruct (C Hx) as [|[(a & x & Hh & Hx' & Hin)|Hq]]; [by left|right; left|right; by right].
      exists a, x. split; [done|]. split; [by eapply lookup_weaken|done].
    + intros Hx. rewrite Hheld by done. by apply D.
  - intros a y Hy. destruct (Hsm' _ _ Hy) as [Hy'|[? ->]]; [apply (wb_sema _ Hb _ _ Hy')|by split; [|constructor]].
  - intros a y t Hy Hin. destruct (Hsm' _ _ Hy) as [Hy'|[_ He]]; [by apply (wb_waiters _ Hb a y)|].
    rewrite He in Hin. by apply not_elem_of_nil in Hin.
  - intros l h Hl. destruct (Hlk' _ _ Hl) as [Hl'|(? & -> & _ & Hs)].
    + destruct (wb_locks _ Hb _ _ Hl') as (? & ? & ?). split; [done|]. split; [done|]. by apply Hmore.
    + split; [done|]. split; [by left|]. simpl. eauto.
  - intros c ws t Hc Hin. destruct (Hcd' _ _ Hc) as [Hc'| ->]; [|by apply not_elem_of_nil in Hin].
    apply Hmore. by apply (wb_conds _ Hb c ws).
  - intros t th Ht. destruct (wb_pending _ Hb _ _ Ht); [by left|right; by apply Hmore].
  - intros l [h Hl]. destruct (Hlk' _ _ Hl) as [Hl'|(_ & -> & Hnone & Hs)].
    + apply (mutex_ok_change s); [intros t; split; auto| |by apply Hm; eauto].
      intros x Hx. exists x. split; [by eapply lookup_weaken|done].
    + exists (Semaphore 1 []). split; [done|]. left. split; [done|]. intros t Ht.
      assert (Hno : locks s !! l = None).
      { destruct (locks s !! l) as [h|] eqn:Hh; [|done]. destruct (wb_locks _ Hb _ _ Hh) as (_ & _ & [x Hx]). congruence. }
      destruct (Hown _ _ Ht) as [_ [?|(th & Hth & Ho)]]; [congruence|]. by apply (Hfree l Hno t th).
Qed.

(** Every lock that a thread owns exists. *)
Lemma owned_exists s t th l :
  wf_base s → threads s !! t = Some th → head_owns (todo th) = Some l → is_Some (locks s !! l).
Proof.
  intros Hb Ht Ho. destruct (wb_thread _ Hb _ _ Ht) as [_ Hok]. pose proof (to_refs _ _ _ (tk_todo _ _ _ Hok)) as Hr.
  destruct (todo th) as [|f fs]; [done|]. apply Forall_cons in Hr as [Hr _].
  destruct f; try done; unfold head_owns in Ho; simpl in *; by injection Ho as ->.
Qed.

Lemma sema_init_wp s (x v : Z) :
  inv false s → semas s !! Sema x = None → 0 <= v < 2 ^ 32 →
  wp (sema_init (Sema x) v) s (λ _ s', inv false s').
Proof.
  intros [Hwf Hi] Hn Hv. unfold sema_init, put_sema. wp_pure. split; [|done].
  refine (objects_wf s (locks s) (<[Sema x := Semaphore v []]> (semas s)) (conds s) Hwf _ _ _ _ _ _ _); try done.
  - by apply insert_subseteq.
  - by left.
  - intros b y [[<- <-]|[_ Hy]]%lookup_insert_Some; [by right|by left].
  - by left.
  - intros l Hl t th Ht Ho. destruct (owned_exists s t th l (wf_base_ _ Hwf) Ht Ho). congruence.
Qed.
Lemma lock_init_wp s l :
  inv false s → locks s !! l = None → semas s !! OfLock l = None → l ≠ 0 →
  wp (lock_init l) s (λ _ s', inv false s').
Proof.
  intros [Hwf Hi] Hn Hn' Hl0. unfold lock_init, put_holder, sema_init, put_sema. wp_pure. split; [|done].
  refine (objects_wf s (<[l := 0]> (locks s)) (<[OfLock l := Semaphore 1 []]> (semas s)) (conds s) Hwf _ _ _ _ _ _ _); try done.
  - by apply insert_subseteq.
  - by apply insert_subseteq.
  - intros k h [[<- <-]|[_ Hy]]%lookup_insert_Some; [right|by left]. by rewrite lookup_insert_eq.
  - intros b y [[<- <-]|[_ Hy]]%lookup_insert_Some; [by right|by left].
  - by left.
  - intros k Hk t th Ht Ho. destruct (owned_exists s t th k (wf_base_ _ Hwf) Ht Ho). congruence.
Qed.
Lemma cond_init_wp s c :
  inv false s → conds s !! c = None → wp (cond_init c) s (λ _ s', inv false s').
Proof.
  intros [Hwf Hi] Hn. unfold cond_init. wp_pure. split; [|done].
  refine (objects_wf s (locks s) (semas s) (<[c := []]> (conds s)) Hwf _ _ _ _ _ _ _); try done.
  - by apply insert_subseteq.
  - by left.
  - by left.
  - intros b y [[<- <-]|[_ Hy]]%lookup_insert_Some; [by right|by left].
  - intros l Hl t th Ht Ho. destruct (owned_exists s t th l (wf_base_ _ Hwf) Ht Ho). congruence.
Qed.

(** ** The kernel as a transition system *)

(** The functions that threads call, and when the running thread may. *)
Definition callable (f : frame) : bool :=
  match f with
  | SemaDown (Sema _) | SemaUp (Sema _) | LockAcquire _ | LockTryAcquire _ | LockRelease _
  | CondWait _ _ | CondSignal _ _ | CondBroadcast _ _ | ThreadYield | SetPriority _ | TimerSleep _
  | ThreadExit => true
  | _ => false
  end.
Record may_call s th f : Prop := {
  mc_current : threads s !! current s = Some th;
  mc_todo : todo th = [];
  mc_not_idle : current s ≠ idle_thread s;
  mc_callable : callable f = true;
  mc_refs : frame_refs s (current s) f;
  mc_may : may_run (held s (current s)) [f];
}.

(** A thread goes on, the timer interrupts, or a thread calls a function. *)
Inductive step s : sched → Prop :=
  | step_run s' : run_next s = Done (tt, s') → step s s'
  | step_tick s' : tick s = Done (tt, s') → step s s'
  | step_call th f : may_call s th f → step s (doing s th [f])
  | step_create th t p s' :
      threads s !! current s = Some th → todo th = [] → current s ≠ idle_thread s →
      threads s !! t = None → t ≠ 0 → PRI_MIN <= p <= PRI_MAX →
      thread_create t p s = Done (tt, s') → step s s'
  | step_sema_init (x v : Z) s' :
      semas s !! Sema x = None → 0 <= v < 2 ^ 32 → sema_init (Sema x) v s = Done (tt, s') → step s s'
  | step_lock_init l s' :
      locks s !! l = None → semas s !! OfLock l = None → l ≠ 0 → lock_init l s = Done (tt, s') → step s s'
  | step_cond_init c s' : conds s !! c = None → cond_init c s = Done (tt, s') → step s s'.

Lemma call_wf s th f : inv false s → may_call s th f → inv false (doing s th [f]).
Proof.
  intros Hinv [Hc Htd Hid Hcall Hrefs Hmay].
  apply doing_wf; [done|done| |by rewrite Htd|]; [by destruct f|].
  split; [by repeat constructor|constructor|done|]. intros g Hg%list_elem_of_singleton. subst g.
  split; [by intros ->|done].
Qed.

Lemma step_wf s s' : inv false s → step s s' → inv false s'.
Proof.
  intros Hinv [s1 Hrun|s1 Hrun|th f Hcall|th t p s1 Hc Htd Hid Hn Ht Hp Hrun|a v s1 Hn Hv Hrun|l s1 Hn Hn' Hl Hrun|c s1 Hn Hrun].
  - destruct (decide (created_gone s)) as [Hg|Hg]; [by rewrite (run_next_gone _ Hg) in Hrun|].
    pose proof (run_next_wp _ Hinv Hg) as H. unfold wp in H. by rewrite Hrun in H.
  - pose proof (tick_wp _ Hinv) as H. unfold wp in H. by rewrite Hrun in H.
  - by apply call_wf.
  - pose proof (thread_create_wp _ _ _ _ Hinv Hc Htd Hid Hn Ht Hp) as H. unfold wp in H. by rewrite Hrun in H.
  - pose proof (sema_init_wp _ _ _ Hinv Hn Hv) as H. unfold wp in H. by rewrite Hrun in H.
  - pose proof (lock_init_wp _ _ Hinv Hn Hn' Hl) as H. unfold wp in H. by rewrite Hrun in H.
  - pose proof (cond_init_wp _ _ Hinv Hn) as H. unfold wp in H. by rewrite Hrun in H.
Qed.
Lemma steps_wf s s' : inv false s → rtc step s s' → inv false s'.
Proof. intros Hinv H. induction H as [|s s1 s2 Hs _ IH]; [done|]. apply IH. by eapply step_wf. Qed.
End kernel.
