(* ===== verification/SchedSpec.v ===== *)
(** * What the scheduler and the locks do

    The thread of the highest priority runs; sema_up wakes the waiter of the
    highest priority; priorities are donated and restored; the bounds of the
    advanced scheduler's priorities. *)
From stdpp Require Import base numbers list sets gmap sorting.
From Stdlib Require Import ZArith Lia.
From S2P Require Import Prelude Arith FixedPoint OrderedSeq Thread Synch Timer Kernel SchedInv.
From S2P Require Import SchedSafe SynchSafe DonateSafe KernelSafe.
Open Scope Z_scope.

Section spec.
Implicit Types (s : sched) (t l : Z) (th : thread) (a : sema_id) (fs gs : list frame).

(** ** Preemption *)

Lemma prio_lookup s s' t : priority <$> threads s' !! t = priority <$> threads s !! t → prio s' t = prio s t.
Proof. unfold prio. destruct (threads s' !! t), (threads s !! t); simpl; congruence. Qed.
Lemma live_not_destroyed s t th :
  wf_base s → threads s !! t = Some th → status th ≠ THREAD_DYING → t ∉ destruction_req s.
Proof. intros Hb Ht Hst Hin. destruct (wb_destr _ Hb _ Hin) as (_ & u & Hu & ?). congruence. Qed.
Lemma ready_not_destroyed s t : wf_base s → t ∈ ready_list s → t ∉ destruction_req s.
Proof. intros Hb Ht. destruct (wb_ready _ Hb _ Ht) as (_ & u & Hu & ?). eapply live_not_destroyed; [done..|congruence]. Qed.

(** No ready thread has a higher priority than the running one. *)
Definition highest_runs s : Prop := ∀ u, u ∈ ready_list s → prio s u <= prio s (current s).

(** The running thread goes on, or gives way to a thread of higher priority. *)
Record preempted s s' : Prop := {
  pe_highest : highest_runs s';
  pe_semas : semas s' = semas s;
  pe_locks : locks s' = locks s;
  pe_conds : conds s' = conds s;
  pe_prio : ∀ t, t ∉ destruction_req s → prio s' t = prio s t;
  pe_switch : (current s' = current s ∧ ready_list s' ≡ₚ ready_list s) ∨
    (prio s (current s) < prio s (current s') ∧
     if decide (current s = idle_thread s) then ready_list s ≡ₚ current s' :: ready_list s'
     else current s :: ready_list s ≡ₚ current s' :: ready_list s');
}.

Lemma preempt_spec s : inv false s → wp compare_cur_next_priority s (λ _ s', inv false s' ∧ preempted s s').
Proof.
  intros Hinv. pose proof Hinv as [Hwf Hi]. destruct (wf_current _ Hwf) as (cth & Hc & Hst).
  pose proof (wf_base_ _ Hwf) as Hb.
  apply wp_and; [by apply compare_cur_next_priority_wf|].
  unfold compare_cur_next_priority. wp_pure. destruct (ready_list s) as [|r rs] eqn:Hr.
  { wp_pure. split; try done; [|by left]. intros u. rewrite Hr. by intros ?%not_elem_of_nil. }
  rewrite <- Hr. wp_pure. apply wp_sort_by_priority; [by apply ready_threads|]. wp_pure.
  destruct (isort (compare_priority s) (ready_list s)) as [|next l] eqn:Hsort; [apply isort_nil in Hsort; congruence|].
  assert (Hl : ready_list s ≡ₚ next :: l) by (rewrite <- Hsort; symmetry; apply isort_perm).
  pose proof (isort_front (prio s) _ _ _ Hsort) as Hfront.
  assert (Hin : next ∈ ready_list s) by (rewrite Hl; set_solver).
  destruct (ready_threads s Hb next Hin) as [nth Hn].
  assert (Hpn : prio s next = priority nth) by (unfold prio; by rewrite Hn).
  assert (Hpc : prio s (current s) = priority cth) by (unfold prio; by rewrite Hc).
  wp_step; [done|]. wp_pure. eapply wp_get_thread; [exact Hn|]. wp_pure.
  eapply wp_current; [exact Hc|done|]. wp_pure. eapply wp_get_thread; [exact Hc|].
  destruct (Z.ltb_spec (priority cth) (priority nth)) as [Hlt|Hge].
  - change (in_external_intr (with_ready _ s)) with (in_external_intr s). rewrite Hi.
    assert (Hinv' : inv false (with_ready (next :: l) s)).
    { eapply inv_alike; [by apply alike_ready|done|]. intros t th' Ht. right. eauto. }
    eapply wp_mono; [by apply thread_yield_spec|]. intros [] s' [[Hwf' _] [Hnext E1 E2 E3 _ Hp]].
    simpl in *. assert (Hp' : ∀ t, t ∉ destruction_req s → prio s' t = prio s t).
    { intros t Ht. apply prio_lookup. by apply Hp. }
    assert (Hcd : current s ∉ destruction_req s) by (eapply live_not_destroyed; [done|exact Hc|congruence]).
    assert (Hnxt : current s' = next ∧
      if decide (current s = idle_thread s) then ready_list s ≡ₚ current s' :: ready_list s'
      else current s :: ready_list s ≡ₚ current s' :: ready_list s').
    { unfold yielded in Hnext. simpl in Hnext. destruct (decide _).
      - destruct Hnext as [[= <- <-]|[[=] _]]. done.
      - change (compare_priority (with_ready _ s)) with (compare_priority s) in Hnext.
        assert (compare_priority s (current s) next = false) as Hcmp.
        { unfold compare_priority, above. apply Z.ltb_ge. lia. }
        rewrite Hcmp in Hnext. destruct Hnext as [[= <- <-]|[[=] _]]. split; [done|].
        rewrite insert_ordered_perm, Hl. apply Permutation_swap. }
    destruct Hnxt as [Hcur Hperm]. split; try done.
    + intros u Hu. rewrite Hcur. rewrite !Hp'; [| |].
      * destruct (decide (current s = idle_thread s)).
        -- apply Hfront. rewrite Hperm. by right.
        -- assert (u ∈ current s :: ready_list s) as [->|Hu']%elem_of_cons by (rewrite Hperm; by right); [lia|by apply Hfront].
      * by eapply ready_not_destroyed.
      * destruct (decide (current s = idle_thread s)).
        -- eapply ready_not_destroyed; [done|]. rewrite Hperm. by right.
        -- assert (u ∈ current s :: ready_list s) as [->|Hu']%elem_of_cons by (rewrite Hperm; by right); [done|].
           by eapply ready_not_destroyed.
    + right. split; [|done]. rewrite Hcur. lia.
  - wp_pure. split; try done; [|by left].
    intros u Hu. change (u ∈ next :: l) in Hu. change (prio s u <= prio s (current s)).
    rewrite <- Hl in Hu. specialize (Hfront u Hu). lia.
Qed.

(** ** sema_up *)

(** C19: sema_up, alone or as the end of lock_release, raises the value by one
    and makes ready a waiter of the highest priority; afterwards no ready thread
    has a higher priority than the running one. *)
Theorem sema_up_spec s th f fs a x :
  inv false s → threads s !! current s = Some th → todo th = f :: fs → ups f = Some a →
  semas s !! a = Some x →
  ∃ s' ws, run_next s = Done (tt, s') ∧
    semas s' = <[a := Semaphore (u32 (value x + 1)) ws]> (semas s) ∧ highest_runs s' ∧
    (waiters x = [] ∧ ws = [] ∨
     ∃ t, waiters x ≡ₚ t :: ws ∧ (∀ u, u ∈ waiters x → prio s u <= prio s t) ∧
       (t ∈ ready_list s' ∨ t = current s')).
Proof.
  intros Hinv Hc Htd Hf Hx.
  assert (Hd : doer false s th f fs) by done.
  pose proof (prio_set s (current s) th (set_todo fs) Hc eq_refl) as Hprio.
  assert (Hup : wp (sema_up a) (doing s th fs) (λ _ s', ∃ s1, upped (doing s th fs) a x s1 ∧ preempted s1 s')).
  { apply (sema_up_wp false _ _ x); [exact Hx|by apply (up_inv s th f)|]. intros s1 Hi Hu.
    eapply wp_mono; [by apply preempt_spec|]. intros [] s' [_ Hp]. eauto. }
  destruct (wp_run_unit _ _ _ Hup) as (s' & Hrun & s1 & [(ws & Hs & Hcase) Hp1 _ _ _ _] & Hpe).
  exists s', ws. split; [|split; [|split]].
  - rewrite (run_next_eq _ _ _ _ Hc Htd). by destruct f; try done; injection Hf as <-.
  - by rewrite (pe_semas _ _ Hpe), Hs.
  - apply Hpe.
  - destruct Hcase as [(? & ? & _)|(t & Hw & Hr & Hmax)]; [by left|right]. exists t. split; [done|]. split.
    + intros u Hu. specialize (Hmax u Hu). unfold doing in Hmax. by rewrite !Hprio in Hmax.
    + assert (Hin : t ∈ ready_list s1) by (rewrite Hr; by left).
      destruct (pe_switch _ _ Hpe) as [[_ Hr']|[_ Hr']]; [left; by rewrite Hr'|].
      assert (t ∈ current s' :: ready_list s') as [?|?]%elem_of_cons; [|by right|by left].
      destruct (decide _); rewrite <- Hr'; [done|by right].
Qed.

(** ** Priorities of locks *)

(** The highest of a thread's own priority and the donations [ds]. *)
Definition donated (p : Z) (ds : list donation) : Z := foldr Z.max p (dn_priority <$> ds).

Lemma donated_front p ds : donated p ds = match isort compare_priority_for_donate ds with
  | [] => p | d :: _ => Z.max p (dn_priority d) end.
Proof.
  unfold donated. assert (Hmax : ∀ ds, (∀ d, d ∈ ds → dn_priority d <= foldr Z.max p (dn_priority <$> ds)) ∧
    p <= foldr Z.max p (dn_priority <$> ds) ∧
    (foldr Z.max p (dn_priority <$> ds) = p ∨ ∃ d, d ∈ ds ∧ foldr Z.max p (dn_priority <$> ds) = dn_priority d)).
  { induction ds0 as [|d ds0 (IH1 & IH2 & IH3)]; csimpl.
    - split; [by intros d ?%not_elem_of_nil|]. split; [lia|by left].
    - split; [intros e [->|He]%elem_of_cons; [lia|specialize (IH1 e He); lia]|]. split; [lia|].
      destruct (Z.max_spec (dn_priority d) (foldr Z.max p (dn_priority <$> ds0))) as [[? ->]|[? ->]].
      + destruct IH3 as [->|(e & He & ->)]; [by left|right]. exists e. split; [by right|done].
      + right. exists d. split; [by left|done]. }
  specialize (Hmax ds) as (H1 & H2 & H3). destruct (isort _ ds) as [|d ds'] eqn:Hs.
  - apply isort_nil in Hs as ->. done.
  - pose proof (isort_front dn_priority ds d ds' Hs) as Hf.
    assert (Hd : d ∈ ds) by (rewrite <- (elem_of_isort compare_priority_for_donate), Hs; by left).
    specialize (H1 d Hd). destruct H3 as [H3|(e & He & H3)]; [lia|]. specialize (Hf e He). lia.
Qed.

Lemma wp_recalc_priority s th (Q : unit → sched → Prop) :
  threads s !! current s = Some th → status th = THREAD_RUNNING →
  (∀ ds, ds ≡ₚ donations th →
     Q tt (with_threads (<[current s := set_donations ds (set_prio (donated (original_priority th) (donations th)) th)]>
       (threads s)) s)) →
  wp recalc_priority s Q.
Proof.
  intros Hc Hst HQ. unfold recalc_priority. wp_pure. eapply wp_current; [exact Hc|done|]. wp_pure.
  eapply wp_upd_thread; [exact Hc|]. wp_pure. eapply wp_get_thread; [apply lookup_insert_eq|].
  assert (Hcase : donations th = [] ∨ ∃ d ds, donations th = d :: ds) by (destruct (donations th); eauto).
  rewrite donated_front in HQ.
  destruct Hcase as [Hds|(d & ds & Hds)]; simpl; rewrite Hds.
  { rewrite Hds in HQ. wp_pure. specialize (HQ [] ltac:(done)). simpl in HQ. unfold set_donations, set_prio in *.
    simpl in HQ. by rewrite Hds. }
  rewrite <- Hds. destruct (isort compare_priority_for_donate (donations th)) as [|e es] eqn:Hs.
  { apply isort_nil in Hs. congruence. }
  assert (Hperm : e :: es ≡ₚ donations th) by (rewrite <- Hs; apply isort_perm).
  wp_pure. eapply wp_upd_thread; [apply lookup_insert_eq|]. wp_pure. wp_step; [done|]. simpl.
  rewrite insert_insert_eq. destruct (Z.ltb_spec (original_priority th) (dn_priority e)).
  - eapply wp_upd_thread; [apply lookup_insert_eq|]. simpl. rewrite insert_insert_eq.
    specialize (HQ _ Hperm). rewrite Z.max_r in HQ by lia. exact HQ.
  - wp_pure. specialize (HQ _ Hperm). rewrite Z.max_l in HQ by lia. exact HQ.
Qed.

(** C21: lock_release gives the lock up, forgets the donations for it and falls
    back to the highest of the thread's own priority and of the donations that
    are left; then it goes on to sema_up. *)
Theorem lock_release_spec s th fs l :
  inv false s → threads s !! current s = Some th → todo th = LockRelease l :: fs →
  ∃ th', run_next s = Done (tt, acted s th' (<[l := 0]> (locks s)) (semas s) (conds s)) ∧
    todo th' = LockUp l :: Preempt :: fs ∧
    donations th' ≡ₚ filter (λ d, dn_lock d ≠ l) (donations th) ∧
    priority th' = donated (original_priority th) (filter (λ d, dn_lock d ≠ l) (donations th)) ∧
    original_priority th' = original_priority th.
Proof.
  intros Hinv Hc Htd. assert (Hd : doer false s th (LockRelease l) fs) by done.
  destruct (doer_ok _ _ _ _ _ Hd) as [H0 Ho]. pose proof (doer_status _ _ _ _ _ Hd) as Hst.
  destruct (to_may _ _ _ Ho) as [Hheld _]. pose proof (proj1 (elem_of_held _ _ _) Hheld) as Hl.
  rewrite (run_next_eq _ _ _ _ Hc Htd). set (ds := filter _ _).
  assert (Hwp : wp (lock_release l) (doing s th fs) (λ _ s', ∃ th',
    s' = acted s th' (<[l := 0]> (locks s)) (semas s) (conds s) ∧
    todo th' = LockUp l :: Preempt :: fs ∧ donations th' ≡ₚ ds ∧ priority th' = donated (original_priority th) ds ∧
    original_priority th' = original_priority th)).
  { unfold lock_release, remove_donation_for_lock, put_holder. wp_pure.
    apply wp_lock_held; [done|done|]. wp_pure. wp_step; [done|]. wp_pure. eapply wp_get_holder; [exact Hl|]. wp_pure.
    wp_step; [by apply negb_true_iff, Z.eqb_neq|]. wp_pure.
    eapply wp_current; [apply lookup_insert_eq|done|]. wp_pure.
    eapply wp_upd_thread; [apply lookup_insert_eq|]. wp_pure.
    eapply wp_recalc_priority; [apply lookup_insert_eq|done|]. intros ds' Hds'. wp_pure.
    unfold later. wp_pure. eapply wp_upd_thread; [apply lookup_insert_eq|]. simpl. rewrite !insert_insert_eq.
    eexists. split; [reflexivity|]. by split. }
  destruct (wp_run_unit _ _ _ Hwp) as (s' & Hrun & th' & -> & H). exists th'. done.
Qed.

(** ** Donations *)

(** The holders that wait themselves, from the lock [l] on: the chain ends at a
    free lock or at a holder that waits for no lock. *)
Inductive chain s : Z → list Z → Prop :=
  | chain_end l : next_lock s l = None → chain s l []
  | chain_step l l' h hs : locks s !! l = Some h → next_lock s l = Some l' → chain s l' hs → chain s l (h :: hs).

(** The holders that the donation of the running thread for the lock [l] gets to:
    the holder of [l], and on from every holder whose priority is not higher. *)
Inductive behind s : Z → Z → Prop :=
  | behind_here l h : locks s !! l = Some h → h ≠ 0 → behind s l h
  | behind_next l l' h0 h : locks s !! l = Some h0 → prio s h0 <= prio s (current s) →
      next_lock s l = Some l' → behind s l' h → behind s l h.

Lemma next_lock_some s l l' : next_lock s l = Some l' → l' ≠ 0 ∧ ∃ h, locks s !! l = Some h ∧ h ≠ 0.
Proof.
  unfold next_lock. destruct (locks s !! l) as [h|]; [simpl|done]. destruct (threads s !! h) as [th|]; [simpl|done].
  destruct (Z.eqb_spec h 0), (Z.eqb_spec (pending_lock th) 0); simpl; try done. intros [= <-]. eauto.
Qed.
Lemma behind_alt s l h0 t :
  locks s !! l = Some h0 → behind s l t ↔ t = h0 ∧ h0 ≠ 0 ∨
    ∃ l', prio s h0 <= prio s (current s) ∧ next_lock s l = Some l' ∧ behind s l' t.
Proof.
  intros Hl. split.
  - intros H. inversion H; simplify_eq; [by left|right; eauto].
  - intros [[-> ?]|(l' & ? & ? & ?)]; [by apply behind_here|by eapply behind_next].
Qed.

(** The next [n] parts of the running threads, without an interrupt. *)
Fixpoint run_parts (n : nat) : ST sched unit :=
  match n with O => mret tt | S n => _ ← run_next; run_parts n end.
Lemma run_parts_S n s s1 : run_next s = Done (tt, s1) → run_parts (S n) s = run_parts n s1.
Proof. apply (run_bind run_next (λ _, run_parts n)). Qed.

(** The donation for the lock [l] of [s0] raises the priorities of [s] to [s']. *)
Definition donated_to s0 l s s' : Prop :=
  (∀ h, behind s0 l h → prio s' h = Z.max (prio s h) (prio s0 (current s0))) ∧
  (∀ t, ¬ behind s0 l t → prio s' t = prio s t).

Lemma behind_dec s l hs t : chain s l hs → behind s l t ∨ ¬ behind s l t.
Proof.
  assert (Hhere : ∀ l h, locks s !! l = Some h → (¬ ∃ l', prio s h <= prio s (current s) ∧ next_lock s l = Some l' ∧
    behind s l' t) → behind s l t ∨ ¬ behind s l t).
  { intros k h Hk Hno. rewrite (behind_alt _ _ _ _ Hk). destruct (decide (t = h)), (decide (h = 0)); tauto. }
  induction 1 as [l Hn|l l' h hs Hl Hn _ IH].
  - destruct (locks s !! l) as [h|] eqn:Hl; [|right; intros H; inversion H; congruence].
    apply (Hhere _ _ Hl). intros (? & _ & ? & _). congruence.
  - destruct (decide (prio s h <= prio s (current s))) as [Hle|Hlt].
    + destruct IH as [IH|IH]; [left; by eapply behind_next|]. apply (Hhere _ _ Hl). intros (? & _ & ? & ?). congruence.
    + apply (Hhere _ _ Hl). by intros (? & ? & _).
Qed.

(** One turn of the loop, and the holders that the rest of it gets to. *)
Lemma donated_turn s0 l h s s1 s' l' :
  kept s0 s → locks s0 !! l = Some h → l ≠ 0 → turn_done s l (inl l') s1 →
  (l' ≠ 0 → donated_to s0 l' s1 s' ∧ ∀ t, behind s0 l' t ∨ ¬ behind s0 l' t) →
  (l' = 0 → ∀ t, prio s' t = prio s1 t) → donated_to s0 l s s'.
Proof.
  intros Hk Hl Hl0 Ht Hgo Hend. unfold turn_done in Ht. rewrite decide_False in Ht by done.
  rewrite <- (ke_locks _ _ Hk) in Hl. destruct (Ht h Hl) as (Hh & Hother & Hle & Hn).
  rewrite (ke_locks _ _ Hk) in Hl. rewrite (kept_next _ _ _ Hk) in Hn. rewrite (kept_donor _ _ Hk) in *.
  assert (Hle0 : prio s0 h <= prio s0 (current s0)) by (destruct (ke_prio _ _ Hk h); lia).
  destruct (Z.eqb_spec l' 0) as [->|Hl'].
  - specialize (Hend eq_refl). split; intros t; rewrite Hend, (behind_alt _ _ _ _ Hl), Hn.
    + intros [[-> ?]|(? & _ & [=] & _)]. auto.
    + intros Hno. apply Hother. destruct (decide (t = h)) as [->|]; [right|by left].
      destruct (decide (h = 0)); [done|]. exfalso. apply Hno. auto.
  - destruct (Hgo Hl') as [[H1 H2] Hdec]. destruct (next_lock_some _ _ _ Hn) as (_ & k & Hk' & Hh0).
    rewrite Hl in Hk'. injection Hk' as <-. specialize (Hh Hh0).
    split; intros t; rewrite (behind_alt _ _ _ _ Hl), Hn; intros Ht'; destruct (decide (t = h)) as [->|Hth].
    + destruct (Hdec h) as [Hb|Hb]; [rewrite (H1 _ Hb)|rewrite (H2 _ Hb)]; lia.
    + destruct Ht' as [[-> _]|(? & _ & [= <-] & Hb)]; [done|]. rewrite (H1 _ Hb), (Hother t) by auto. done.
    + exfalso. apply Ht'. by left.
    + rewrite (H2 t) by (intros Hb; apply Ht'; right; by exists l'). apply Hother. by left.
Qed.

Lemma turn_run s th l fs :
  doer false s th (Donate l) fs → ∃ s1 r th1, run_next s = Done (tt, s1) ∧ inv false s1 ∧ kept s s1 ∧
    turn_done s l r s1 ∧ threads s1 !! current s1 = Some th1 ∧
    todo th1 = match r with inl l' => Donate l' :: fs | inr _ => fs end.
Proof.
  intros Hd. destruct (wp_run_unit _ _ _ (donate_turn _ _ _ _ Hd)) as (s1 & Hrun & Hinv & Hk & r & th1 & Ht & Hth1 & Htd).
  exists s1, r, th1. rewrite (run_next_eq _ _ _ _ (dr_cur _ _ _ _ _ Hd) (dr_todo _ _ _ _ _ Hd)), (ke_current _ _ Hk). done.
Qed.

Lemma donated_last s0 l s s1 :
  kept s0 s → wf_base s → l = 0 ∨ is_Some (locks s !! l) → turn_done s l (inr tt) s1 → donated_to s0 l s s1.
Proof.
  intros Hk Hb Hl Ht. unfold turn_done in Ht. destruct (decide (l = 0)) as [->|Hl0].
  { destruct Ht as [_ Ht]. split; [|by intros t _]. intros t Hbt. exfalso.
    assert (∃ h, locks s0 !! 0 = Some h) as [h Hh] by (inversion Hbt; eauto).
    rewrite <- (ke_locks _ _ Hk) in Hh. by destruct (wb_locks _ Hb _ _ Hh). }
  destruct Hl as [|[h Hh]]; [done|]. destruct (Ht h Hh) as (Hraise & Hother & Hstop).
  rewrite (ke_locks _ _ Hk) in Hh. rewrite (kept_donor _ _ Hk) in *.
  split; intros t; rewrite (behind_alt _ _ _ _ Hh).
  - intros [[-> ?]|(l' & Hle & Hn & _)]; [auto|]. destruct (next_lock_some _ _ _ Hn) as (_ & k & Hk' & Hh0).
    destruct Hstop as [->|Hlt]; [congruence|]. destruct (ke_prio _ _ Hk h); lia.
  - intros Hno. apply Hother. destruct (decide (t = h)) as [->|]; [right|by left].
    destruct (decide (h = 0)); [done|]. exfalso. auto.
Qed.

(** The loop ends if the chain does. *)
Lemma donate_turns s0 l hs : chain s0 l hs → ∀ s th fs, doer false s th (Donate l) fs → kept s0 s →
  ∃ n s' th', run_parts n s = Done (tt, s') ∧ inv false s' ∧ kept s s' ∧
    threads s' !! current s' = Some th' ∧ todo th' = fs ∧ donated_to s0 l s s'.
Proof.
  induction 1 as [l Hnone|l l2 h hs Hl Hnext Hch IH]; intros s th fs Hd Hk.
  all: destruct (turn_run _ _ _ _ Hd) as (s1 & r & th1 & Hrun & Hinv & Hk1 & Ht & Hc1 & Htd1).
  all: pose proof (doer_base _ _ _ _ _ Hd) as Hb; destruct (doer_ok _ _ _ _ _ Hd) as [_ Ho].
  all: pose proof (to_refs _ _ _ Ho) as [Href _]%Forall_cons; simpl in Href.
  all: destruct r as [l'|[]]; [|exists 1%nat, s1, th1; rewrite (run_parts_S _ _ _ Hrun);
    repeat (split; [done|]); by apply (donated_last s0 l)].
  all: pose proof Ht as Ht'; unfold turn_done in Ht'; destruct (decide (l = 0)) as [|Hl0]; [by destruct Ht'|].
  all: destruct Href as [|[k Hk0]]; [done|]; destruct (Ht' _ Hk0) as (_ & _ & _ & Hn).
  all: rewrite (kept_next _ _ _ Hk) in Hn; rewrite (ke_locks _ _ Hk) in Hk0.
  all: destruct (Z.eqb_spec l' 0) as [->|Hl'].
  1, 3: destruct (turn_run s1 th1 0 fs) as (s2 & r & th2 & Hrun2 & Hinv2 & Hk2 & Ht2 & Hc2 & Htd2); [done|];
    unfold turn_done in Ht2; destruct (decide (0 = 0)); [|done]; destruct Ht2 as [-> Hp2];
    exists 2%nat, s2, th2; rewrite (run_parts_S _ _ _ Hrun), (run_parts_S _ _ _ Hrun2); split; [done|]; split; [done|];
    split; [by eapply kept_trans|]; split; [done|]; split; [done|];
    by apply (donated_turn s0 l k s s1 s2 0).
  - congruence.
  - assert (l' = l2) as -> by congruence.
    destruct (IH s1 th1 fs) as (n & s' & th' & Hrun' & Hinv' & Hk' & Hc' & Htd' & Hdon); [done|by eapply kept_trans|].
    exists (S n), s', th'. rewrite (run_parts_S _ _ _ Hrun). split; [done|]. split; [done|].
    split; [by eapply kept_trans|]. split; [done|]. split; [done|].
    apply (donated_turn s0 l k s s1 s' l2); try done. intros _. split; [done|]. intros t. by eapply behind_dec.
Qed.

(** C20: lock_acquire of a held lock, when the holders do not wait for each other in a
    circle: the thread comes to wait on the lock's semaphore, the holders that the
    donation gets to (up to the first one of a higher priority) have the higher of
    their priority and the donor's, and no other priority changes. The parts of the
    function run without an interrupt between them, and malloc does not fail. *)
Theorem lock_acquire_donates s th fs l hs :
  inv false s → threads s !! current s = Some th → todo th = LockAcquire l :: fs →
  let s1 := doing s (set_pending l th) fs in
  chain s1 l hs →
  ∃ n s' th', run_parts n s = Done (tt, s') ∧ inv false s' ∧
    current s' = current s ∧ threads s' !! current s = Some th' ∧ todo th' = LockDown l :: fs ∧
    (∀ h, behind s1 l h → prio s' h = Z.max (prio s h) (priority th)) ∧
    (∀ t, ¬ behind s1 l t → prio s' t = prio s t).
Proof.
  intros Hinv Hc Htd s1 Hch. assert (Hd : doer false s th (LockAcquire l) fs) by done.
  destruct (pending_donor _ _ _ _ Hd) as (_ & _ & [h Hh]).
  pose proof (prio_set s (current s) th (λ th, set_todo fs (set_pending l th)) Hc eq_refl) as Hprio.
  change (∀ u, prio s1 u = prio s u) in Hprio.
  assert (Hpc : prio s (current s) = priority th) by (unfold prio; by rewrite Hc).
  destruct (wp_run_unit _ _ _ (lock_acquire_wp _ _ _ _ _ Hd Hh)) as (s2 & Hrun & Hinv2 & Hs2).
  rewrite <- (run_next_eq _ _ _ _ Hc Htd) in Hrun. destruct (Z.eqb_spec h 0) as [->|Hh0].
  - exists 1%nat, s2, (set_todo (LockDown l :: fs) th). rewrite (run_parts_S _ _ _ Hrun). subst s2.
    split; [done|]. split; [done|]. split; [done|]. split; [apply lookup_insert_eq|]. split; [done|].
    pose proof (prio_set s (current s) th (set_todo (LockDown l :: fs)) Hc eq_refl) as Hp. split; [|by intros t _].
    intros k Hb. exfalso. assert (∃ k', locks s1 !! l = Some k' ∧ k' ≠ 0) as (k' & Hk & ?).
    { inversion Hb; subst; [eauto|]. match goal with H : next_lock _ _ = _ |- _ => apply (next_lock_some _ _ _ H) end. }
    change (locks s !! l = Some k') in Hk. congruence.
  - set (th2 := set_todo (Donate l :: LockDown l :: fs) (set_pending l th)).
    assert (Hc2 : threads s2 !! current s2 = Some th2) by (subst s2; apply lookup_insert_eq).
    assert (Hk : kept s1 s2).
    { assert (Hs1 : threads s1 !! current s1 = Some (set_todo fs (set_pending l th))) by apply lookup_insert_eq.
      replace s2 with (with_threads (<[current s1 := set_todo (Donate l :: LockDown l :: fs)
        (set_todo fs (set_pending l th))]> (threads s1)) s1); [by apply kept_set|].
      subst s2. unfold s1, doing. simpl. by rewrite insert_insert_eq. }
    destruct (donate_turns s1 l hs Hch s2 th2 (LockDown l :: fs)) as (n & s' & th' & Hrun' & Hinv' & Hk' & Hc' & Htd' & Hb & Ho);
      [done|done|].
    pose proof (prio_set s (current s) th (λ th, set_todo (Donate l :: LockDown l :: fs) (set_pending l th)) Hc eq_refl) as Hp2.
    assert (Hcur : current s' = current s) by (rewrite (ke_current _ _ Hk'); by subst s2).
    exists (S n), s', th'. rewrite (run_parts_S _ _ _ Hrun). rewrite Hcur in Hc'.
    split; [done|]. split; [done|]. split; [done|]. split; [done|]. split; [done|].
    assert (Hps : ∀ t, prio s2 t = prio s t) by (subst s2; exact Hp2).
    split; intros t Ht.
    + rewrite (Hb t Ht), Hps, Hprio. change (current s1) with (current s). by rewrite Hpc.
    + by rewrite (Ho t Ht), Hps.
Qed.

(** ** Setting a priority *)

(** thread_set_priority sets the thread's own priority, keeps a donation that
    is higher, and leaves no ready thread of a higher priority. *)
Theorem thread_set_priority_spec s th p :
  inv false s → threads s !! current s = Some th →
  ∃ s', thread_set_priority p s = Done (tt, s') ∧ inv false s' ∧ highest_runs s' ∧
    prio s' (current s) = match donations th with [] => p | d :: _ => Z.max p (dn_priority d) end ∧
    ∀ t, t ≠ current s → t ∉ destruction_req s → prio s' t = prio s t.
Proof.
  intros Hinv Hc. pose proof Hinv as [Hwf Hi]. pose proof (wf_current_is _ _ Hwf Hc) as Hst.
  apply wp_run_unit. unfold thread_set_priority. wp_pure. rewrite (wb_mlfqs _ (wf_base_ _ Hwf)). wp_pure.
  eapply wp_current; [exact Hc|done|]. wp_pure. eapply wp_upd_thread; [exact Hc|]. wp_pure.
  eapply wp_get_thread; [by apply lookup_insert_eq|]. wp_pure.
  eapply wp_upd_thread; [by apply lookup_insert_eq|]. wp_pure. simpl. rewrite insert_insert_eq.
  set (q := match donations th with [] => p | _ => _ end). set (s1 := with_threads _ _).
  assert (H1 : inv false s1) by by apply (inv_set false s (current s) th (λ th, set_prio q (set_original p th))).
  assert (Hcd : current s1 ∉ destruction_req s1).
  { eapply live_not_destroyed; [apply H1|apply lookup_insert_eq|simpl; congruence]. }
  eapply wp_mono; [by apply preempt_spec|]. intros [] s' [Hinv' [Hhigh _ _ _ Hp _]].
  split; [done|]. split; [done|]. split.
  - change (current s) with (current s1). rewrite Hp by done. unfold prio. simpl. rewrite lookup_insert_eq. simpl.
    unfold q. destruct (donations th) as [|d ds]; [done|]. destruct (Z.ltb_spec p (dn_priority d)); lia.
  - intros t Hne Ht. rewrite Hp by done. unfold prio. simpl. by rewrite lookup_insert_ne.
Qed.

(** ** Sleeping threads *)

(** The sleepers are kept in the order of their ticks. *)
Definition in_order (q : list (Z * Z)) : Prop := StronglySorted (λ x y, snd x <= snd y) q.

Lemma insert_in_order e (l : list (Z * Z)) : in_order l → in_order (insert_ordered compare_tick e l).
Proof.
  induction 1 as [|y l Hs IH Hf]; simpl; [by repeat constructor|].
  unfold compare_tick at 1. destruct (Z.ltb_spec (snd e) (snd y)) as [Hlt|Hge].
  - constructor; [by constructor|]. constructor; [lia|]. eapply Forall_impl; [exact Hf|]. simpl. lia.
  - constructor; [done|]. rewrite insert_ordered_perm. by constructor.
Qed.

(** timer_sleep parks the thread with the tick that it asked for, and keeps
    the sleepers in order. *)
Theorem timer_sleep_spec s th fs n :
  inv false s → threads s !! current s = Some th → todo th = TimerSleep n :: fs → in_order (sleepers s) →
  ∃ s', run_next s = Done (tt, s') ∧ inv false s' ∧ in_order (sleepers s') ∧
    sleepers s' ≡ₚ (current s, s64 (ticks s + n)) :: sleepers s.
Proof.
  intros Hinv Hc Htd Ho. rewrite (run_next_eq _ _ _ _ Hc Htd).
  assert (Hd : doer false s th (TimerSleep n) fs) by done.
  destruct (wp_run_unit _ _ _ (timer_sleep_wp s th fs n Hd)) as (s' & Hrun & Hinv' & Hsl).
  exists s'. split; [done|]. split; [done|]. rewrite Hsl. split; [by apply insert_in_order|].
  apply insert_ordered_perm.
Qed.

(** wake_up makes exactly the sleepers ready whose tick has come, and
    remembers the tick of the next one. *)
Theorem wake_up_spec s n :
  inv true s → in_order (sleepers s) →
  ∃ s', wake_up n s = Done (tt, s') ∧ inv true s' ∧
    sleepers s' = filter (λ e, n < snd e) (sleepers s) ∧
    ready_list s' ≡ₚ (fst <$> filter (λ e, snd e <= n) (sleepers s)) ++ ready_list s ∧
    closet_tick s' = match sleepers s' with [] => 0 | e :: _ => snd e end.
Proof.
  intros Hinv Ho. destruct (wp_run_unit _ _ _ (wake_up_wp s n Hinv)) as (s' & Hrun & [Hi (due & Hsl & Hdue & Hr) _] & Hc).
  exists s'. split; [done|]. split; [done|].
  assert (Hrest : Forall (λ e, n < snd e) (sleepers s')).
  { unfold in_order in Ho. rewrite Hsl in Ho. clear -Ho Hc. induction due as [|d due IH]; simpl in *.
    - destruct (sleepers s') as [|e l]; [done|]. apply StronglySorted_inv in Ho as [_ Hf]. destruct Hc as [Hc _].
      constructor; [done|]. eapply Forall_impl; [exact Hf|]. simpl. lia.
    - apply StronglySorted_inv in Ho as [Ho _]. by apply IH. }
  assert (E1 : filter (λ e, n < snd e) due = []).
  { clear -Hdue. induction Hdue as [|d due Hd _ IH]; [done|]. rewrite filter_cons_False; [done|lia]. }
  assert (E2 : filter (λ e, snd e <= n) due = due).
  { clear -Hdue. induction Hdue as [|d due Hd _ IH]; [done|]. rewrite filter_cons_True by done. by rewrite IH. }
  assert (E3 : filter (λ e, n < snd e) (sleepers s') = sleepers s').
  { clear -Hrest. induction Hrest as [|d l Hd _ IH]; [done|]. rewrite filter_cons_True by done. by rewrite IH. }
  assert (E4 : filter (λ e, snd e <= n) (sleepers s') = []).
  { clear -Hrest. induction Hrest as [|d l Hd _ IH]; [done|]. rewrite filter_cons_False; [done|lia]. }
  split; [by rewrite Hsl, filter_app, E1, E3|]. split; [by rewrite Hsl, filter_app, E2, E4, app_nil_r|].
  destruct (sleepers s'); [done|]. by destruct Hc.
Qed.

(** ** The advanced scheduler *)

(** The advanced scheduler's priority is 63 - recent_cpu / 4 - 2 * nice, with
    the quotient rounded to a nearest integer, clamped to the range of priorities. *)
Theorem mlfqs_priority_spec th :
  is_int (recent_cpu th) → -20 <= nice th <= 20 →
  ∃ r, mlfqs_priority th = Done (Z.max PRI_MIN (Z.min PRI_MAX (PRI_MAX - r - 2 * nice th))) ∧
    2 * Z.abs (Z.quot (recent_cpu th) 4 - r * F) <= F.
Proof.
  intros Hrc Hn. unfold mlfqs_priority, div_fp_int, idiv. simpl.
  assert (Hq : - 2 ^ 29 <= Z.quot (recent_cpu th) 4 <= 2 ^ 29) by (unfold is_int in Hrc; zdiv).
  set (q := Z.quot (recent_cpu th) 4) in *.
  rewrite (as_int_ok (nice th * 2)), (as_int_ok q) by (unfold is_int; lia).
  unfold mbind, outcome_bind. cbv beta iota.
  assert (∃ r, fp_to_int_round q = Done r) as [r Hr].
  { unfold fp_to_int_round, F. change (16384 / 2) with 8192. destruct (0 <=? q);
      rewrite as_int_ok by (unfold is_int; lia); unfold mbind, outcome_bind, idiv; simpl; eexists;
      apply as_int_ok; unfold is_int; zdiv. }
  rewrite Hr. destruct (fp_round_nearest _ _ Hr) as [Hb _]. exists r. split; [|done].
  assert (- 2 ^ 20 <= r <= 2 ^ 20) by (unfold F in Hb; lia). unfold PRI_MAX, PRI_MIN.
  rewrite !as_int_ok by (unfold is_int; lia). cbv beta iota zeta.
  f_equal.
  destruct (Z.ltb_spec 63 (63 - r - nice th * 2)); simpl; [lia|].
  destruct (Z.ltb_spec (63 - r - nice th * 2) 0); lia.
Qed.

(** ** The kernel *)

(** C1: From a state with the invariant, whatever threads call, run and are
    interrupted between any two parts of the kernel's functions: the invariant
    holds on, the timer interrupt ends, and the next part of the running thread
    ends, with no failed ASSERT and no read of a missing object, but for one case:
    thread_create reads the thread that it has made after that thread may have
    run, ended and been freed, and exactly then reads a freed page.
    Threads call as [may_call] says: they acquire only locks that they do not
    hold, release locks and signal conditions only with the lock held, exit
    without a lock, and name objects that exist; they set no nice value. The
    scheduler is the one by priorities, and malloc does not fail. *)
Theorem kernel_safe s s' :
  inv false s → rtc step s s' →
  inv false s' ∧ (∃ s'', tick s' = Done (tt, s'')) ∧
  (if decide (created_gone s') then run_next s' = Undef else ∃ s'', run_next s' = Done (tt, s'')).
Proof.
  intros Hinv Hsteps. pose proof (steps_wf _ _ Hinv Hsteps) as Hi. split; [done|]. split.
  - destruct (wp_run_unit _ _ _ (tick_wp _ Hi)) as (s2 & H & _). eauto.
  - destruct (decide (created_gone s')) as [Hg|Hg]; [by apply run_next_gone|].
    destruct (wp_run_unit _ _ _ (run_next_wp _ Hi Hg)) as (s2 & H & _). eauto.
Qed.

(** C2: Locks exclude each other: when a thread is past its lock_acquire and not
    past its lock_release, no other thread is, and the semaphore of the lock is 0. *)
Theorem mutual_exclusion s s' l t :
  inv false s → rtc step s s' → is_Some (locks s' !! l) → owner s' l t →
  (value <$> semas s' !! OfLock l) = Some 0 ∧ ∀ t', owner s' l t' → t' = t.
Proof.
  intros Hinv Hsteps Hl Ho. pose proof (steps_wf _ _ Hinv Hsteps) as [Hwf _].
  destruct (sole_owner s' l t (wf_mutex _ Hwf l Hl) Ho) as [(x & -> & Hv) Hall]. split; [|done]. simpl. by rewrite Hv.
Qed.

(** No thread is lost: in every reachable state a thread runs, is in the ready
    list, waits on the semaphore or the clock that its function waits on, is the
    idle thread, or has ended. *)
Theorem no_thread_lost s s' t th :
  inv false s → rtc step s s' → threads s' !! t = Some th →
  t = current s' ∧ status th = THREAD_RUNNING ∨ t = idle_thread s' ∨
  t ∈ ready_list s' ∧ status th = THREAD_READY ∨ queued s' t (todo th) ∧ status th = THREAD_BLOCKED ∨
  status th = THREAD_DYING.
Proof.
  intros Hinv Hsteps Ht. pose proof (steps_wf _ _ Hinv Hsteps) as [Hwf _].
  destruct (wb_thread _ (wf_base_ _ Hwf) _ _ Ht) as [_ [A B C _ _]].
  destruct (status th) eqn:Hst.
  - left. auto.
  - destruct (B eq_refl); auto.
  - destruct (C eq_refl); auto 6.
  - auto 6.
Qed.
End spec.
