(* ===== verification/FsExamples.v ===== *)
(** * Concrete file systems

    A small volume with a directory and a file, the facts that the theorems
    about the file system ask of it, and one use of each of these theorems. *)
From stdpp Require Import base numbers list sets gmap.
From Stdlib Require Import ZArith Lia.
From S2P Require Import Prelude Bytes Fat Volume Inode InodeData InodeGrow InodeTable File.
From S2P Require Import Directory CString Filesys.
Open Scope Z_scope.

(** ** The state *)

(** Cluster 1 is the root directory; the inode of a directory is in cluster 3
    and its data in cluster 2; the inode of a file is in cluster 4 and its data
    in clusters 5 and 6. Clusters 7 to 11 are free. *)
Definition ex_fat : fat_fs :=
  FatFs (FatBoot FAT_MAGIC 1 14 1 1 1)
    [0; EOChain; EOChain; EOChain; EOChain; 6; EOChain; 0; 0; 0; 0; 0] 12 2 6.

Definition ex_dir_data : inode_disk := InodeDisk 2 40 INODE_MAGIC true (replicate 499 0).
Definition ex_file_data : inode_disk := InodeDisk 5 600 INODE_MAGIC false (replicate 499 0).

(** The directory's slots: the file under the name "a", and a free slot. *)
Definition ex_name : list Z := [97].
Definition ex_entries : list dir_entry :=
  [DirEntry 5 (97 :: replicate 14 0) true; DirEntry 0 (replicate 15 0) false].
Definition ex_dir_sector : list Z := splice 0 (concat (entry_bytes <$> ex_entries)) zero_sector.

Definition ex_disk : disk :=
  Disk 14 (<[3 := ex_dir_sector]> (<[5 := inode_bytes ex_file_data]> ∅)) 0 0.
Definition ex_vol : vol := Vol ex_disk ex_fat [].

Definition ex_dir : inode := Inode 4 1 false 0 ex_dir_data.
Definition ex_file : inode := Inode 5 1 false 0 ex_file_data.

(** The directory is open; in the second state so is the file. *)
Definition ex_fsys : fsys := Fsys ex_vol {[1 := ex_dir]} [1] 2.
Definition ex_fsys2 : fsys := Fsys ex_vol {[2 := ex_file; 1 := ex_dir]} [2; 1] 3.
Definition ex_kfs : kfs := Kfs ex_fsys ∅ {[1 := Dir 1 0]} 2.
Definition ex_kfs2 : kfs := Kfs ex_fsys2 {[2 := File 2 500 false 0]} {[1 := Dir 1 0]} 3.
Definition ex_e0 : dir_entry := DirEntry 0 (replicate 15 0) false.

(** ** Its facts *)

(** A chain of a concrete table. *)
Ltac chain_tac :=
  repeat first [ reflexivity | split; [reflexivity|split; [done|eexists; split; [reflexivity|]]] ].

Lemma ex_wf_fat : wf_fat ex_fat.
Proof. split; try done; simpl; unfold EOChain; lia. Qed.

Lemma ex_is_free c : is_free ex_fat c → c ∈ [0; 7; 8; 9; 10; 11].
Proof.
  intros Hf. pose proof (zlookup_Some_range _ _ _ Hf) as Hr. change (zlength (fat ex_fat)) with 12 in Hr.
  assert (c = 0 ∨ c = 1 ∨ c = 2 ∨ c = 3 ∨ c = 4 ∨ c = 5 ∨ c = 6 ∨ c = 7 ∨ c = 8 ∨ c = 9 ∨ c = 10
          ∨ c = 11) as H by lia.
  destruct_or! H; subst c; try (by vm_compute in Hf); set_solver.
Qed.

Lemma ex_room n : (n ≤ 4)%nat → room ex_fat n.
Proof.
  intros Hn. exists [7; 8; 9; 10]. split; [by apply (bool_decide_unpack _); vm_compute|].
  split; [done|]. intros i Hi. rewrite !elem_of_cons, elem_of_nil in Hi.
  destruct_or! Hi; subst; done.
Qed.

Lemma ex_free_on_disk : free_on_disk ex_vol.
Proof.
  intros i Hi _. change (6 < i < 11) in Hi. split; simpl; unfold cluster_to_sector; simpl;
    rewrite u32_small; lia.
Qed.

Lemma ex_file_on data l :
  chain (fat ex_fat) (id_start data) l → l ≠ [] → 0 <= id_length data <= 512 * zlength l →
  id_length data < 2 ^ 31 → Forall (λ c, 1 <= c < 12) l → file_on ex_vol data l.
Proof.
  intros Hc Hne Hlen Hoff Hl.
  apply file_on_wf; [apply ex_wf_fat|done..| |].
  - eapply Forall_impl; [exact Hl|]. intros c Hr. simpl in Hr. unfold cluster_to_sector.
    change (data_start _) with 2. rewrite u32_small by lia.
    split; simpl; lia.
  - rewrite Forall_fmap. apply Forall_forall. intros c _. unfold cluster_block, sector_at; simpl.
    destruct (decide (cluster_to_sector ex_fat c = 3)) as [->|]; [by vm_compute|].
    rewrite lookup_insert_ne by done.
    destruct (decide (cluster_to_sector ex_fat c = 5)) as [->|]; [by vm_compute|].
    rewrite lookup_insert_ne by done. by rewrite lookup_empty.
Qed.

Lemma ex_dir_on_file : file_on ex_vol ex_dir_data [2].
Proof.
  apply ex_file_on; [chain_tac|done|done|done|]. repeat constructor; lia.
Qed.
Lemma ex_file_on_file : file_on ex_vol ex_file_data [5; 6].
Proof.
  apply ex_file_on; [chain_tac|done|done|done|]. repeat constructor; lia.
Qed.

(** No other cluster is in the sector of an inode. *)
Lemma ex_apart c sec :
  sec ∈ [4; 5] → c ∈ [2; 5; 6] ∨ is_free ex_fat c → cluster_to_sector ex_fat c ≠ sec.
Proof.
  intros Hsec Hc Heq.
  assert (Forall (λ c, cluster_to_sector ex_fat c ∉ [4; 5]) ([2; 5; 6] ++ [0; 7; 8; 9; 10; 11])) as H
    by (apply (bool_decide_unpack _); vm_compute; done).
  apply (proj1 (Forall_forall _ _) H c); [|by rewrite Heq].
  apply elem_of_app. destruct Hc as [?|?%ex_is_free]; [by left|by right].
Qed.

Lemma ex_dir_writable size offset :
  0 <= offset → 0 <= size → offset + size <= 2048 → writable ex_vol ex_dir [2] size offset.
Proof.
  intros Ho Hs He. split; try done.
  - apply ex_dir_on_file.
  - lia.
  - intros _. split; [done|]. split; [set_solver|]. split; [done|]. split; [apply ex_free_on_disk|].
    apply ex_room. change (zlength [2]) with 1. unfold DIV_ROUND_UP. zdiv.
  - intros c Hc. apply ex_apart; [set_solver|]. destruct Hc; [left; set_solver|by right].
Qed.
Lemma ex_file_writable size offset :
  0 <= offset → 0 <= size → offset + size <= 2048 → writable ex_vol ex_file [5; 6] size offset.
Proof.
  intros Ho Hs He. split; try done.
  - apply ex_file_on_file.
  - lia.
  - intros _. split; [done|]. split; [set_solver|]. split; [done|]. split; [apply ex_free_on_disk|].
    apply ex_room. change (zlength [5; 6]) with 2. unfold DIV_ROUND_UP. zdiv.
  - intros c Hc. apply ex_apart; [set_solver|]. destruct Hc; [left; set_solver|by right].
Qed.

Lemma ex_dir_on : dir_on ex_fsys 1 ex_dir [2] ex_entries.
Proof.
  split; [done|done|apply ex_dir_on_file|done|vm_compute; reflexivity|].
  repeat constructor; simpl; try lia; eauto.
Qed.
Lemma ex_distinct : distinct ex_entries.
Proof.
  intros i j a b name Hi Hj Ha Hb. unfold ex_entries in *.
  destruct i as [|[|i]], j as [|[|j]]; simplify_eq/=; done.
Qed.

Lemma ex_inode p i : inodes ex_fsys !! p = Some i → p = 1 ∧ i = ex_dir.
Proof.
  change (inodes ex_fsys) with ({[1 := ex_dir]} : gmap Z inode).
  by intros [<- <-]%lookup_singleton_Some.
Qed.
Lemma ex_inode2 p i : inodes ex_fsys2 !! p = Some i → p = 2 ∧ i = ex_file ∨ p = 1 ∧ i = ex_dir.
Proof.
  change (inodes ex_fsys2) with ({[2 := ex_file; 1 := ex_dir]} : gmap Z inode).
  intros [[<- <-]|[_ [<- <-]%lookup_singleton_Some]]%lookup_insert_Some; auto.
Qed.

Lemma ex_wf_inodes : wf_inodes ex_fsys.
Proof.
  split; try done; simpl.
  - repeat constructor; set_solver.
  - intros p. rewrite list_elem_of_singleton, lookup_singleton_is_Some. split; congruence.
  - intros p. rewrite list_elem_of_singleton. lia.
  - by intros p i [<- <-]%lookup_singleton_Some.
  - by intros p i [<- <-]%lookup_singleton_Some.
  - by intros p q i j [<- <-]%lookup_singleton_Some [<- <-]%lookup_singleton_Some.
Qed.

Lemma ex_wf_inodes2 : wf_inodes ex_fsys2.
Proof.
  split; try done.
  - repeat constructor; set_solver.
  - intros p. change (open_inodes ex_fsys2) with [2; 1]. rewrite !elem_of_cons, elem_of_nil. split.
    + intros [->|[->|[]]]; eauto.
    + intros [i Hi]. apply ex_inode2 in Hi as [[-> _]|[-> _]]; auto.
  - intros p. change (open_inodes ex_fsys2) with [2; 1]. rewrite !elem_of_cons, elem_of_nil.
    change (next_ptr ex_fsys2) with 3. intros [->|[->|[]]]; lia.
  - by intros p i [[-> ->]|[-> ->]]%ex_inode2.
  - by intros p i [[-> ->]|[-> ->]]%ex_inode2.
  - by intros p q i j [[-> ->]|[-> ->]]%ex_inode2 [[-> ->]|[-> ->]]%ex_inode2.
Qed.

Lemma ex_removable : removable ex_fsys ex_dir [2] 5 [5; 6].
Proof.
  split; [done|done| |].
  - by intros p j [-> ->]%ex_inode.
  - intros _. cbv zeta. change (sector_to_cluster _ _) with 4.
    split; [done|]. split; [chain_tac|]. split; [done|]. split; [chain_tac|].
    split; [set_solver|]. split; [set_solver|].
    intros c Hc. assert (Forall (λ c, cluster_to_sector ex_fat c ≠ 4) [4; 5; 6]) as H
      by (apply (bool_decide_unpack _); vm_compute; done).
    exact (proj1 (Forall_forall _ _) H c Hc).
Qed.

Lemma ex_wf_files : wf_files ex_kfs2.
Proof.
  split; try done; [apply ex_wf_inodes2|..].
  - intros p f Hf. change (files ex_kfs2) with ({[2 := File 2 500 false 0]} : gmap Z file) in Hf.
    apply lookup_singleton_Some in Hf as [<- <-]. split; [by eexists|done].
  - intros p d Hd. change (dirs ex_kfs2) with ({[1 := Dir 1 0]} : gmap Z dir) in Hd.
    apply lookup_singleton_Some in Hd as [<- <-]. split; [by eexists|done].
  - by intros p i [[-> ->]|[-> ->]]%ex_inode2.
  - by intros p i [[-> ->]|[-> ->]]%ex_inode2.
  - by intros p i [[-> ->]|[-> ->]]%ex_inode2.
Qed.

(** ** The theorems, used on this state *)

Lemma dir_add_witness : ∃ s' i' l' es',
  dir_add 1 [98] 9 ex_e0 ex_kfs = Done (true, s') ∧ dir_on (k_fs s') 1 i' l' es' ∧
  dir_map es' [98] = Some 9 ∧ dir_map es' ex_name = Some 5.
Proof.
  destruct (dir_add_spec ex_kfs 1 (Dir 1 0) ex_dir [2] ex_entries [98] 9 ex_e0)
    as (r & s' & Hrun & H); [done|done|exact ex_dir_on|done| |done|exact ex_distinct| |].
  - split; [set_solver|]. split; [done|simpl; lia].
  - intros _ k [Hk _]. simpl in Hk. apply ex_dir_writable; lia.
  - destruct H as (-> & i' & l' & es' & Hon & _ & Hmap). exists s', i', l', es'.
    split; [done|]. split; [done|]. by rewrite !Hmap.
Defined.

Lemma dir_remove_witness : ∃ s' i' es',
  dir_remove 1 ex_name ex_e0 ex_kfs = Done (true, s') ∧ dir_on (k_fs s') 1 i' [2] es' ∧
  dir_map es' ex_name = None ∧ ∀ x, x ∈ [4; 5; 6] → is_free (v_fat (fs_vol (k_fs s'))) x.
Proof.
  destruct (dir_remove_spec ex_kfs 1 (Dir 1 0) ex_dir [2] ex_entries ex_name 5 [5; 6] ex_e0)
    as (s' & i' & es' & Hrun & Hon & _ & Hmap & _ & Hfree);
    [done|done|exact ex_dir_on|done|exact ex_distinct|exact ex_wf_inodes|done|exact ex_removable| |].
  - by apply ex_dir_writable.
  - exists s', i', es'. split; [done|]. split; [done|]. split; [by rewrite Hmap|].
    apply Hfree. by intros p j [-> ->]%ex_inode.
Defined.

Lemma dir_lookup_witness : ∃ q s', dir_lookup 1 ex_name ex_e0 ex_kfs = Done (q, s') ∧ q ≠ 0.
Proof.
  destruct (dir_lookup_spec ex_kfs 1 (Dir 1 0) ex_dir [2] ex_entries ex_name ex_e0)
    as (q & s' & Hrun & Hq & _); [done|done|exact ex_dir_on|done|exact ex_wf_inodes| |by eauto].
  by intros x [= <-].
Defined.

Lemma dir_readdir_witness : ∃ s', dir_readdir 1 ex_e0 ex_kfs = Done (Some ex_name, s').
Proof.
  destruct (dir_readdir_spec ex_kfs 1 (Dir 1 0) ex_dir [2] ex_entries ex_e0 0)
    as (s' & _ & Hrun & _); [done|done|simpl; lia|exact ex_dir_on|done|by eauto].
Defined.

Lemma inode_write_at_witness : ∃ s' new,
  inode_write_at 2 [1; 2; 3] 3 1023 ex_fsys2 = Done (3, s') ∧
  file_on (fs_vol s') (set_length 1026 ex_file_data) ([5; 6] ++ new).
Proof.
  destruct (ex_file_writable 3 1023) as [H1 H2 H3 H4 H5 H6 H7 H8 H9]; [lia..|].
  destruct (inode_write_at_spec ex_fsys2 2 ex_file [5; 6] [1; 2; 3] 1023)
    as (s' & new & Hrun & _ & Hon & _); [done..|by eauto].
Defined.

Lemma inode_write_read_witness : ∃ s1 s2,
  inode_write_at 2 [1; 2; 3] 3 1023 ex_fsys2 = Done (3, s1) ∧
  inode_read_at 2 3 1023 s1 = Done ([1; 2; 3], s2).
Proof.
  destruct (ex_file_writable 3 1023) as [H1 H2 H3 H4 H5 H6 H7 H8 H9]; [lia..|].
  by apply (inode_write_read ex_fsys2 2 ex_file [5; 6] [1; 2; 3] 1023).
Defined.

Lemma inode_read_at_witness : ∃ s',
  inode_read_at 2 4 598 ex_fsys2 = Done ([0; 0], s').
Proof.
  destruct (inode_read_at_spec ex_fsys2 2 ex_file [5; 6] 4 598)
    as (v' & _ & Hrun); [done|done|exact ex_file_on_file|done|done|]. eauto.
Defined.

Lemma inode_open_witness : ∃ p s', inode_open 5 ex_fsys = Done (p, s') ∧ wf_inodes s'.
Proof.
  destruct (inode_open_spec ex_fsys 5) as (p & s' & i' & Hrun & Hwf & _);
    [exact ex_wf_inodes|done|done|by eauto].
Defined.

Lemma inode_close_witness : ∃ s', inode_close 2 ex_fsys2 = Done (tt, s') ∧ wf_inodes s' ∧
  inodes s' = delete 2 (inodes ex_fsys2).
Proof.
  destruct (inode_close_spec ex_fsys2 2 ex_file [5; 6]) as (s' & Hrun & Hwf & Hin & _);
    [exact ex_wf_inodes2|done|done|by right|done|by eauto].
Defined.

Lemma file_ops_witness : ∃ s', run_op (OpDeny 2) ex_kfs2 = Done (tt, s') ∧ wf_files s'.
Proof. apply file_ops_keep_denials; [exact ex_wf_files|by eexists]. Defined.

Lemma file_write_seek_read_witness : ∃ s1 s2 s3,
  file_write 2 [7; 8] 2 ex_kfs2 = Done (2, s1) ∧ file_seek 2 500 s1 = Done (tt, s2) ∧
  file_read 2 2 s2 = Done ([7; 8], s3).
Proof.
  destruct (file_write_seek_read ex_kfs2 2 (File 2 500 false 0) ex_file [5; 6] [7; 8])
    as (s1 & s2 & s3 & H1 & _ & H2 & H3 & _); [done..| |by eauto 6].
  by apply ex_file_writable.
Defined.

(** ** The file allocation table *)

Lemma fat_allocate_witness : ∃ start l f', fat_allocate 2 ex_fat = Done ((true, Some start), f') ∧
  zlength l = 2 ∧ chain (fat f') start l.
Proof.
  destruct (fat_allocate_correct ex_fat 2) as (start & l & f' & ? & ? & ? & _);
    [exact ex_wf_fat|done|apply ex_room; lia|eauto 6].
Defined.

Lemma fat_allocate_release_witness : ∃ start f1 f2,
  fat_allocate 2 ex_fat = Done ((true, Some start), f1) ∧ fat_release start f1 = Done (tt, f2) ∧
  fat f2 = fat ex_fat.
Proof. apply fat_allocate_release; [exact ex_wf_fat|done|apply ex_room; lia]. Defined.

Lemma fat_create_chain_witness : ∃ r f', fat_create_chain 5 ex_fat = Done (r, f') ∧ wf_fat f'.
Proof.
  destruct (fat_create_chain_extends ex_fat 5 [5] 6) as (r & f' & ? & ? & _);
    [exact ex_wf_fat|done|chain_tac|set_solver|eauto].
Defined.

Lemma fat_remove_chain_witness : ∃ f', fat_remove_chain 5 0 ex_fat = Done (tt, f') ∧
  is_free f' 5 ∧ is_free f' 6.
Proof.
  destruct (fat_remove_chain_frees ex_fat 5 [5; 6]) as (f' & ? & _ & Hfree & _);
    [exact ex_wf_fat|chain_tac|done|].
  exists f'. rewrite !Hfree. split_and!; [done|left; set_solver..].
Defined.

(** A table of three entries without a free one. *)
Definition ex_full : fat_fs := FatFs (FatBoot FAT_MAGIC 1 14 1 1 1) [0; EOChain; EOChain; EOChain] 4 2 2.

Lemma fat_full_witness : fat_allocate 2 ex_full = NoFuel.
Proof.
  destruct (fat_allocate_full_diverges ex_full 2) as [Hrun _]; [|done| |done|exact Hrun].
  { split; try done; simpl; unfold EOChain; lia. }
  intros i Hi Hne Hf. change (fat_length ex_full) with 4 in Hi. change (last_clst ex_full) with 2 in Hne.
  assert (i = 3) as -> by lia. by vm_compute in Hf.
Defined.

(** A freshly formatted disk of 100 sectors. *)
Definition ex_laid : fat_fs :=
  FatFs (FatBoot FAT_MAGIC 1 100 1 1 1) (0 :: EOChain :: replicate 126 0) 128 2 2.

Lemma fat_close_open_witness : ∃ v1 v2, fat_close (Vol (Disk 100 ∅ 0 0) ex_laid []) = Done (tt, v1) ∧
  (_ ← fat_init; fat_open) (Vol (v_disk v1) zero_fat_fs []) = Done (tt, v2) ∧ v_fat v2 = ex_laid.
Proof.
  apply (fat_close_open_roundtrip (Vol (Disk 100 ∅ 0 0) ex_laid [])); [|done].
  split; try done; apply (bool_decide_unpack _); vm_compute; exact I.
Defined.

(** A file of exactly one full sector. *)
Definition ex_full_file : inode := Inode 5 1 false 0 (InodeDisk 2 512 INODE_MAGIC false []).

Lemma inode_write_boundary_witness :
  inode_write_at 1 [7] 1 512 (Fsys ex_vol {[1 := ex_full_file]} [1] 2) = Panic.
Proof.
  apply (inode_write_at_boundary_panics (Fsys ex_vol {[1 := ex_full_file]} [1] 2) 1 ex_full_file [2] [7]);
    try done. chain_tac.
Defined.

Lemma inode_deny_allow_witness : ∃ s1, inode_deny_write 1 ex_fsys = Done (tt, s1) ∧
  inode_allow_write 1 s1 = Done (tt, ex_fsys).
Proof.
  destruct (inode_deny_allow ex_fsys 1 ex_dir) as (s1 & ? & _ & _ & ?); [exact ex_wf_inodes|done..|eauto].
Defined.

Lemma inode_bytes_witness : inode_of_bytes (inode_bytes ex_file_data) = ex_file_data.
Proof. by apply inode_bytes_roundtrip; split. Defined.
