(* ===== verification/DescExamples.v ===== *)
(** * Concrete descriptor tables

    Two processes over the volume of FsExamples.v, one use of each theorem about
    descriptors, and the calls that leave the invariant. *)
From stdpp Require Import base numbers list sets gmap.
From Stdlib Require Import ZArith Lia.
From S2P Require Import Prelude Bytes Fat Volume Inode InodeTable File Directory.
From S2P Require Import OpenDirs Desc DescInv DescOps DescExit DescSpec FsExamples.
Open Scope Z_scope.

(** Process 10 has the file at 5 under two descriptors and executes the same file
    through 6; process 11 has just started; the file at 7 was just opened. *)
Definition dx_inode1 : inode := Inode 4 2 false 0 ex_dir_data.
Definition dx_inode2 : inode := Inode 5 3 false 1 ex_file_data.
Definition dx_fsys : fsys := Fsys ex_vol {[2 := dx_inode2; 1 := dx_inode1]} [2; 1] 3.
Definition dx_kfs : kfs :=
  Kfs dx_fsys {[5 := File 2 500 false 2; 6 := File 2 0 true 1; 7 := File 2 0 false 1]}
    {[3 := Dir 1 0; 4 := Dir 1 0]} 8.
Definition dx_table (l : list Z) : list Z := l ++ replicate (Z.to_nat MAX_FD - length l) 0.
Definition dx_parent : task := Task (dx_table [1; 2; 5; 5]) 2 1 1 6 3.
Definition dx_child : task := Task (dx_table [1; 2]) 2 1 1 0 4.
Definition dx_tasks : gmap Z task := {[10 := dx_parent; 11 := dx_child]}.
Definition dx_state (i : Z) : pst := Pst dx_kfs dx_tasks i.

Lemma dx_elem l p : p ∈ dx_table l → p ∈ l ∨ p = 0.
Proof. unfold dx_table. rewrite elem_of_app. intros [|[-> _]%elem_of_replicate]; auto. Qed.
Lemma dx_lookup l fd p : zlookup (dx_table l) fd = Some p → zlength l <= fd → p = 0.
Proof.
  unfold zlookup, dx_table, zlength. case_match eqn:H0; [|done]. apply Z.leb_le in H0. intros Hp Hfd.
  rewrite lookup_app_r in Hp by lia. by apply lookup_replicate in Hp as [-> _].
Qed.
Lemma dx_task i t : dx_tasks !! i = Some t → i = 10 ∧ t = dx_parent ∨ i = 11 ∧ t = dx_child.
Proof.
  unfold dx_tasks. intros [[<- <-]|[_ H]]%lookup_insert_Some; [by left|].
  apply lookup_singleton_Some in H as [<- <-]. by right.
Qed.
Lemma dx_file p f : files dx_kfs !! p = Some f →
  p = 5 ∧ f = File 2 500 false 2 ∨ p = 6 ∧ f = File 2 0 true 1 ∨ p = 7 ∧ f = File 2 0 false 1.
Proof.
  simpl. intros [[<- <-]|[_ H]]%lookup_insert_Some; [by left|].
  apply lookup_insert_Some in H as [[<- <-]|[_ H]]; [by right; left|].
  apply lookup_singleton_Some in H as [<- <-]. by right; right.
Qed.
Lemma dx_inode p i : inodes dx_fsys !! p = Some i → p = 2 ∧ i = dx_inode2 ∨ p = 1 ∧ i = dx_inode1.
Proof.
  simpl. intros [[<- <-]|[_ H]]%lookup_insert_Some; [by left|].
  apply lookup_singleton_Some in H as [<- <-]. by right.
Qed.

Lemma dx_wf_inodes : wf_inodes dx_fsys.
Proof.
  split; try done.
  - repeat constructor; set_solver.
  - intros p. change (open_inodes dx_fsys) with [2; 1]. rewrite !elem_of_cons, elem_of_nil. split.
    + intros [->|[->|[]]]; eauto.
    + intros [i Hi]. apply dx_inode in Hi as [[-> _]|[-> _]]; auto.
  - intros p. change (open_inodes dx_fsys) with [2; 1]. rewrite !elem_of_cons, elem_of_nil.
    change (next_ptr dx_fsys) with 3. intros [->|[->|[]]]; lia.
  - by intros p i [[-> ->]|[-> ->]]%dx_inode.
  - by intros p i [[-> ->]|[-> ->]]%dx_inode.
  - by intros p q i j [[-> ->]|[-> ->]]%dx_inode [[-> ->]|[-> ->]]%dx_inode.
Qed.
Lemma dx_wf_files : wf_files dx_kfs.
Proof.
  split; try done; [apply dx_wf_inodes|..].
  - by intros p f [[-> ->]|[[-> ->]|[-> ->]]]%dx_file; (split; [by eexists|]).
  - intros p d Hd. change (dirs dx_kfs) with (<[3 := Dir 1 0]> {[4 := Dir 1 0]} : gmap Z dir) in Hd.
    apply lookup_insert_Some in Hd as [[<- <-]|[_ H]]; [by split; [eexists|]|].
    apply lookup_singleton_Some in H as [<- <-]. by split; [eexists|].
  - by intros p i [[-> ->]|[-> ->]]%dx_inode.
  - by intros p i [[-> ->]|[-> ->]]%dx_inode.
  - by intros p i [[-> ->]|[-> ->]]%dx_inode.
Qed.

Lemma dx_wf i : wf_desc (dx_state i).
Proof.
  split; simpl; [exact dx_wf_files|done| | |..].
  - by intros p f [[-> _]|[[-> _]|[-> _]]]%dx_file.
  - exists (λ _, []). split.
    + by intros p j [[-> ->]|[-> ->]]%dx_inode.
    + by intros p q j k _ [[-> ->]|[-> ->]]%dx_inode [[-> ->]|[-> ->]]%dx_inode.
  - intros j t [[-> ->]|[-> ->]]%dx_task; split; by vm_compute.
  - intros j t p [[-> ->]|[-> ->]]%dx_task [Hp| ->]%dx_elem; try (by left; left); rewrite !elem_of_cons, elem_of_nil in Hp.
    + destruct_or! Hp; subst; try (by left; right; auto); try done; right; eexists; (split; [reflexivity|by vm_compute]).
    + destruct_or! Hp; subst; try (by left; right; auto); done.
  - intros j t [[-> ->]|[-> ->]]%dx_task; [right|by left]. split; [by eexists|by vm_compute].
  - by intros j k t u Hjk [[-> ->]|[-> ->]]%dx_task [[-> ->]|[-> ->]]%dx_task.
  - intros j t [[-> ->]|[-> ->]]%dx_task; right; by eexists.
  - by intros j k t u Hjk [[-> ->]|[-> ->]]%dx_task [[-> ->]|[-> ->]]%dx_task.
Qed.
Lemma dx_fresh i : fresh_file (dx_state i) 7 (File 2 0 false 1).
Proof. split; [done|done|by vm_compute|]. by intros j u [[-> ->]|[-> ->]]%dx_task. Qed.
Lemma dx_forking : forking (dx_state 11) 10 dx_parent dx_child.
Proof.
  split; [split; [apply dx_wf|done]|done|done|..].
  - intros fd p Hp Hfd. pose proof (zlookup_Some_range _ _ _ Hp).
    assert (fd = 0 ∨ fd = 1) as [-> | ->] by lia; vm_compute in Hp; injection Hp as <-; right; auto.
  - intros fd p Hp Hfd. by apply (dx_lookup [1; 2] fd p).
  - intros fd p Hp. apply zlookup_elem in Hp. apply dx_elem in Hp as [Hp| ->]; [|by left].
    rewrite !elem_of_cons, elem_of_nil in Hp. destruct_or! Hp; subst; right; auto; done.
Qed.

(** ** The theorems *)

Lemma calls_keep_counts_witness :
  (∃ r s', run_call (CallOpen 7) (dx_state 10) = Done (r, s') ∧ wf_desc s') ∧
  (∃ r s', run_call CallExit (dx_state 10) = Done (r, s') ∧ wf_desc s').
Proof.
  split; apply (calls_keep_counts (dx_state 10) dx_parent); try done; try apply dx_wf.
  exists (File 2 0 false 1), dx_inode2, 4. split; [exact (dx_fresh _)|]. split; [done|]. split; [done|]. by split.
Defined.

Lemma dup2_spec_witness : ∃ s', sys_dup2 0 2 (dx_state 10) = Done (2, s') ∧
  files (p_k s') !! 5 = Some (File 2 500 false 1).
Proof.
  destruct (dup2_spec (dx_state 10) dx_parent 0 2 1 5) as (s' & t' & Hrun & _ & _ & _ & Hf);
    [apply dx_wf|done..|]. exists s'. split; [exact Hrun|]. rewrite (Hf 5 (File 2 500 false 2)) by done.
  rewrite decide_False; [done|]. intros (_ & _ & H). by vm_compute in H.
Defined.

Lemma exit_closes_files_witness : ∃ s', exit_files (dx_state 10) = Done (tt, s') ∧
  files (p_k s') !! 5 = None ∧ files (p_k s') !! 7 = Some (File 2 0 false 1) ∧ dirs (p_k s') !! 4 = Some (Dir 1 0).
Proof.
  destruct (exit_closes_files (dx_state 10) dx_parent) as (s' & Hrun & Hown & Hother & _ & Hd); [apply dx_wf|done|].
  exists s'. split; [exact Hrun|]. split; [|split; [|by rewrite Hd]].
  - rewrite (Hown 5 (File 2 500 false 2)); [by vm_compute|done|]. do 2 right. left.
  - rewrite Hother; [done| |done]. intros [Hp|Hp]%dx_elem; [|done].
    rewrite !elem_of_cons, elem_of_nil in Hp. by destruct_or! Hp.
Defined.

Lemma fork_copies_files_witness : ∃ s' c', fork_fds 10 (dx_state 11) = Done (true, s') ∧
  tasks s' !! 11 = Some c' ∧ ∃ q, zlookup (fd_table c') 2 = Some q ∧ files (p_k s') !! q = Some (File 2 500 false 1).
Proof.
  destruct (fork_copies_files (dx_state 11) 10 dx_parent dx_child (Dir 1 0)) as (s' & c' & Hrun & Hts & Hcp & _);
    [apply dx_wf|done|exact dx_forking|done|done|done|].
  exists s', c'. split; [exact Hrun|]. split; [rewrite Hts; apply lookup_insert_eq|].
  destruct (Hcp 2 5) as (q & Hq & Hc); [done|]. exists q. split; [exact Hq|].
  rewrite decide_False in Hc by (intros [|[]]; done). by destruct Hc as (f & [= <-] & _ & Hg).
Defined.

(** Process 11 comes to run the file that process 10 has open for writing, and
    the scheduler switches to 10, which writes. *)
Lemma executable_not_written_witness : ∃ s1 s2, exec_deny 7 (dx_state 11) = Done (tt, s1) ∧
  run_call (CallSwitch 10) s1 = Done (0, s2) ∧ file_write 5 [1; 2] 2 (p_k s2) = Done (0, p_k s2).
Proof.
  destruct (executable_not_written (dx_state 11) dx_child 7 (File 2 0 false 1)) as (s1 & Hrun & Hno);
    [apply dx_wf|done|done|exact (dx_fresh _)|].
  pose proof Hrun as Hrun'. vm_compute in Hrun'. injection Hrun' as Hs1.
  exists s1, (Pst (p_k s1) (tasks s1) 10). split; [exact Hrun|]. split; [done|].
  apply (Hno _ (set_running 7 dx_child) (File 2 0 true 1) 5 (File 2 500 false 2)); try (subst s1; done).
  apply rtc_once. exists (set_running 7 dx_child), (CallSwitch 10), 0. subst s1. split; [done|]. by split; [eexists|].
Defined.

(** ** Outside of the invariant *)

(** A position of 2 GB or more fails the ASSERT of file_seek. *)
Example seek_far_panics : sys_seek 2 (2 ^ 31) (dx_state 10) = Panic.
Proof. by vm_compute. Qed.
(** dup2 does not look at its second argument. *)
Example dup2_outside : sys_dup2 2 MAX_FD (dx_state 10) = Undef ∧ sys_dup2 2 (-1) (dx_state 10) = Undef.
Proof. by vm_compute. Qed.
(** Nor do the calls that the consoles' descriptors are given to. *)
Example filesize_console : sys_filesize 0 (dx_state 10) = Undef ∧ sys_tell 1 (dx_state 10) = Undef.
Proof. by vm_compute. Qed.
Example inumber_closed : sys_inumber 9 (dx_state 10) = Undef ∧ sys_isdir 9 (dx_state 10) = Undef.
Proof. by vm_compute. Qed.

(** A directory's descriptor: the count would lie behind the end of struct dir. *)
Definition dx_dir_state : pst :=
  Pst (set_files (<[7 := File 1 0 false 1]> (files dx_kfs)) dx_kfs) dx_tasks 10.
Example close_directory :
  match open_fd 7 dx_dir_state with Done (fd, s) => fd = 4 ∧ sys_isdir fd s = Done (true, s) ∧ sys_close fd s = Undef | _ => False end.
Proof. vm_compute. done. Qed.

(** A full table: the search reads behind its end. *)
Definition dx_full_state : pst :=
  Pst dx_kfs {[10 := Task (replicate (Z.to_nat MAX_FD) STDIN) 2 MAX_FD 0 0 3]} 10.
Example open_full_table : find_unused_fd 7 dx_full_state = Undef.
Proof. by vm_compute. Qed.

(** The standard output of the parent leads to a file: the child shares it without
    a reference, and closes it under its parent. *)
Definition dx_redirected : pst :=
  Pst dx_kfs {[10 := Task (dx_table [1; 5; 5]) 2 1 0 6 3; 11 := dx_child]} 11.
Example fork_redirected :
  (_ ← fork_fds 10; _ ← sys_close 1; _ ← modify (λ s, Pst (p_k s) (tasks s) 10);
   _ ← sys_close 2; sys_tell 1) dx_redirected = Undef.
Proof. by vm_compute. Qed.
