(* ===== verification/VmExamples.v ===== *)
(** * Concrete uses of the theorems about virtual memory

    One process with an empty page table, twelve pages of memory, a file and a
    small swap disk. *)
From stdpp Require Import base numbers list gmap.
From Stdlib Require Import ZArith Lia.
From S2P Require Import Prelude Bytes Fat Volume Inode InodeData InodeGrow File CString Bitmap Hash Palloc PallocInit MallocSpec Words Mmu MmuInv MmuWalk MmuSpec AddressSpace Isolation PageTables UserMem Vm VmSpt VmSwap VmFrame VmSpec FsExamples.
Open Scope Z_scope.

(** ** Memory *)

Fixpoint zero_mem (n : nat) (a : Z) : mem := match n with O => ∅ | S n => <[a := 0]> (zero_mem n (a + 1)) end.
Definition vx_mem : mem := zero_mem (Z.to_nat (12 * PGSIZE)) example_base.
Definition vx_root : Z := example_base + PGSIZE.
Definition vx_frame : Z := example_base + 8 * PGSIZE.
(** The kernel's root and the process's are in use, and one frame. *)
Definition vx_mmu : mmu :=
  Mmu (Ram (Pool (Bitmap 8 [3]) example_base) (Pool (Bitmap 4 [1]) vx_frame) vx_mem) example_base 0.

Lemma zero_mem_lookup n a x : a <= x < a + Z.of_nat n → zero_mem n a !! x = Some 0.
Proof.
  revert a. induction n as [|n IH]; intros a Hx; [lia|]. cbn [zero_mem].
  destruct (decide (x = a)) as [->|Hne]; [by rewrite lookup_insert_eq|]. rewrite lookup_insert_ne by done. apply IH. lia.
Qed.
Lemma vx_zero a : example_base <= a < example_base + 12 * PGSIZE → bytes vx_mmu !! a = Some 0.
Proof. intros Ha. apply zero_mem_lookup. rewrite Z2Nat.id by (unfold PGSIZE; lia). exact Ha. Qed.
#[local] Opaque vx_mem.

Lemma vx_ram : ram_ok (m_ram vx_mmu).
Proof.
  split; [|done]. split; [split|split|by left].
  - split; done.
  - done.
  - intros a Ha. exists 0. apply vx_zero. unfold pool_end in Ha. simpl in Ha. unfold PGSIZE in *. lia.
  - split; done.
  - done.
  - intros a Ha. exists 0. apply vx_zero. unfold pool_end, vx_frame in Ha. simpl in Ha. unfold vx_frame, PGSIZE in *. lia.
Qed.
Lemma vx_run (user : bool) k v : 0 <= k < (if user then 4 else 8) → bget (used_map (pool_of user (m_ram vx_mmu))) k = v →
  run_of (pool_of user (m_ram vx_mmu)) (base (pool_of user (m_ram vx_mmu)) + k * PGSIZE) 1 v.
Proof.
  intros Hk Hv. destruct user; simpl in *; unfold vx_frame.
  all: split; [unfold example_base, PGSIZE; zdiv|]; split; [simpl; unfold PGSIZE; lia|].
  all: split; [unfold pool_end; simpl; unfold PGSIZE; lia|]; intros b Hb; unfold page_used; simpl.
  - by replace ((b - (example_base + 8 * PGSIZE)) / PGSIZE) with k by (unfold PGSIZE in *; zdiv).
  - by replace ((b - example_base) / PGSIZE) with k by (unfold PGSIZE in *; zdiv).
Qed.
Lemma vx_entry k i : 0 <= k < 12 → idx i → entry (bytes vx_mmu) (example_base + k * PGSIZE) i = Some 0.
Proof.
  intros Hk Hi. unfold entry, word64, offsets. simpl. unfold idx in Hi. rewrite !vx_zero by (unfold PGSIZE; lia). done.
Qed.
Lemma vx_node p b : okp own 3 p → node (bytes vx_mmu) vx_root p = Some b → p = [] ∧ b = vx_root.
Proof.
  intros (_ & Hf & _). destruct p as [|i p]; [intros [= <-]; done|]. apply Forall_cons in Hf as [Hi _].
  simpl. unfold next. rewrite (vx_entry 1) by done. done.
Qed.
Lemma vx_processes : processes vx_mmu [vx_root].
Proof.
  assert (Hroot : table_page (m_ram vx_mmu) vx_root) by (by apply (vx_run false 1)).
  split.
  - apply vx_ram.
  - by apply (vx_run false 0).
  - intros x Hx. exists 0. split; [apply vx_zero; simpl in Hx; unfold PGSIZE in *; lia|done].
  - simpl. unfold next. by rewrite (vx_entry 0).
  - intros a ->%list_elem_of_singleton. split; [apply vx_ram| |done]. split.
    + by intros p b Hp [_ ->]%vx_node.
    + by intros p q b Hp Hq [-> _]%vx_node [-> _]%vx_node.
  - intros a1 a2 ->%list_elem_of_singleton ->%list_elem_of_singleton. done.
  - intros a p ->%list_elem_of_singleton Hp [_ He]%vx_node; done.
Qed.
Lemma vx_unmapped va e : user_va own va → mapping (bytes vx_mmu) vx_root va ≠ Some e.
Proof.
  intros [_ Hva] Hm. unfold mapping, slot in Hm. destruct (node (bytes vx_mmu) vx_root (path va)) as [b|] eqn:Hb; [|discriminate Hm].
  apply vx_node in Hb as [Hp _]; [|by apply path_ok]. unfold path in Hp. discriminate Hp.
Qed.
Lemma vx_user : wf_user vx_mmu [vx_root].
Proof.
  split; [apply vx_processes|done|]. intros a va e ->%list_elem_of_singleton Hva Hm. by destruct (vx_unmapped va e Hva).
Qed.
(** Whatever the bytes are, the used pages decide that there are free ones. *)
Lemma enough_pages (pg : ram) : base (kernel_pool pg) = example_base → used_map (kernel_pool pg) = Bitmap 8 [3] ∨ used_map (kernel_pool pg) = Bitmap 8 [31] →
  ¬ few pg 3.
Proof.
  intros Hb Hm Hf. set (l := [example_base + 5 * PGSIZE; example_base + 6 * PGSIZE; example_base + 7 * PGSIZE]).
  assert (Hn : NoDup l) by (apply (bool_decide_unpack _); vm_compute; exact I).
  assert (Hl : Forall (λ b, run_of (kernel_pool pg) b 1 false) l).
  { assert (Hk : ∀ k, 5 <= k < 8 → run_of (kernel_pool pg) (example_base + k * PGSIZE) 1 false).
    { intros k Hk. unfold run_of, pool_end, page_used. rewrite Hb.
      assert (bit_cnt (used_map (kernel_pool pg)) = 8) as -> by (by destruct Hm as [-> | ->]).
      split; [unfold example_base, PGSIZE; zdiv|]. split; [unfold PGSIZE; lia|]. split; [unfold PGSIZE; lia|].
      intros b Hbr. replace ((b - example_base) / PGSIZE) with k by (unfold PGSIZE in *; zdiv).
      assert (k = 5 ∨ k = 6 ∨ k = 7) as Hc by lia. destruct Hm as [-> | ->], Hc as [->|[->| ->]]; reflexivity. }
    unfold l. repeat constructor; apply Hk; lia. }
  specialize (Hf l Hn Hl). change (length l) with 3%nat in Hf. lia.
Qed.

(** ** One process, which may load a file *)

Definition vx_upage : Z := 4194304.
Definition vx_hash : hash := Hash 0 4 [[]; []; []; []] [].
(** Object 1 says where in the file the page comes from. *)
Definition vx_vm : vm :=
  Vm vx_mmu (Kfs ex_fsys2 {[2 := File 2 0 false 1]} ∅ 3) {[1 := OInfo (Info 2 0 600 3496)]} 2 [] [] 0
     (Bitmap 2 [0]) (Disk 16 ∅ 0 0) {[1 := Proc vx_root vx_hash USER_STACK]} 1.

Lemma vx_empty_hash m : wf_hash (my_hash m) (key_less m) vx_hash.
Proof.
  split; [split; [by exists 2|done|]|done|by apply NoDup_nil_2|set_solver|set_solver|done].
  intros i b e Hb He. apply zlookup_elem in Hb. exfalso. simpl in Hb. rewrite !elem_of_cons, elem_of_nil in Hb.
  destruct Hb as [->|[->|[->|[->|[]]]]]; by apply elem_of_nil in He.
Qed.
Lemma vx_tables : wf_tables vx_vm.
Proof.
  assert (Hproc : ∀ t pr, procs vx_vm !! t = Some pr → t = 1 ∧ pr = Proc vx_root vx_hash USER_STACK).
  { intros t pr Hp. simpl in Hp. by apply lookup_singleton_Some in Hp as [<- <-]. }
  split.
  - split; [done|]. intros p [x Hx]. simpl in Hx. apply lookup_singleton_Some in Hx as [<- _]. simpl. lia.
  - intros t pr Hp. destruct (Hproc t pr Hp) as [-> ->]. split; [done|apply vx_empty_hash| |done].
    intros e He. by apply elem_of_nil in He.
  - intros t1 v1 t2 v2 p (pr & e & x & Hp & He & _). destruct (Hproc _ _ Hp) as [_ ->]. by apply elem_of_nil in He.
Qed.
Lemma vx_no_page p v : ¬ maps vx_vm 1 v p.
Proof. intros (pr & e & x & Hp & He & _). simpl in Hp. apply lookup_singleton_Some in Hp as [_ <-]. by apply elem_of_nil in He. Qed.
Lemma vx_can_load : can_load vx_vm [vx_root] (Proc vx_root vx_hash USER_STACK).
Proof.
  split; [apply vx_tables|apply vx_user|done|by apply list_elem_of_singleton|done| |].
  - exists (vx_frame + 1 * PGSIZE). by apply (vx_run true 1).
  - apply enough_pages; [done|by left].
Qed.

(** The contents that the page will have. *)
Definition vx_part : list Z := take 600 (file_content ex_vol ex_file_data [5; 6]).
Lemma vx_backed s : v_k s = v_k vx_vm → objs s !! 1 = Some (OInfo (Info 2 0 600 3496)) →
  backing s (Page uninit_ops vx_upage 0 true (Uninit lazy_load VM_ANON 1 init_anon)) (vx_part ++ zeros 3496).
Proof.
  intros Hk Ho. apply (back_segment _ _ _ _ _ _ (Info 2 0 600 3496)); [done|done|exact Ho|]. rewrite Hk.
  exists vx_part. split; [done|]. split; [by vm_compute|]. split; [done|]. split; [done|].
  exists (File 2 0 false 1), ex_file, [5; 6]. split; [done|]. split; [done|]. split; [done|]. split; [exact ex_file_on_file|].
  split; [done|]. split; [done|].
  change (vx_part = take (length vx_part) (file_content ex_vol ex_file_data [5; 6]) ∧ Forall is_byte vx_part).
  split; [by vm_compute|]. apply (bool_decide_unpack _). vm_compute. exact I.
Qed.

Lemma vm_alloc_spec_witness : ∃ s', vm_alloc_page_with_initializer VM_ANON vx_upage true lazy_load 1 vx_vm = Done (true, s') ∧
  spt_find_page 1 (vx_upage + 7) s' = Done (2, s').
Proof.
  destruct (vm_alloc_spec vx_vm (Proc vx_root vx_hash USER_STACK) VM_ANON vx_upage true lazy_load 1 init_anon)
    as (r & s' & Hrun & _ & Hr & _ & Hfind); [exact vx_tables|reflexivity..|discriminate|reflexivity|reflexivity|].
  assert (r = true) as -> by (apply Hr; intros p; apply vx_no_page). exists s'. split; [exact Hrun|].
  destruct (spt_find_run vx_vm 1 _ (vx_upage + 7) vx_tables eq_refl) as (q & Hq & _).
  exact (Hfind 1 (vx_upage + 7) q (ex_intro _ _ eq_refl) Hq).
Defined.

Lemma vx_allocated : ∃ s1, vm_alloc_page_with_initializer VM_ANON vx_upage true lazy_load 1 vx_vm = Done (true, s1) ∧
  allocated vx_vm vx_upage 2 (Page uninit_ops vx_upage 0 true (Uninit lazy_load VM_ANON 1 init_anon)) s1.
Proof.
  destruct (wp_run _ _ _ (vm_alloc_wp vx_vm (Proc vx_root vx_hash USER_STACK) VM_ANON vx_upage true lazy_load 1 init_anon
    vx_tables eq_refl eq_refl eq_refl ltac:(discriminate) eq_refl eq_refl)) as (r & s1 & Hrun & [(_ & _ & q & Hq)|(-> & _ & Hal)]).
  - exfalso. exact (vx_no_page q vx_upage Hq).
  - exists s1. split; [exact Hrun|exact Hal].
Qed.
(** In the state after that the process can load the page. *)
Lemma vx_allocated_load s1 x : allocated vx_vm vx_upage 2 x s1 → ∃ pr, can_load s1 [vx_root] pr ∧ pml4 pr = vx_root ∧ cur s1 = 1 ∧
  maps s1 (cur s1) vx_upage 2 ∧ objs s1 !! 2 = Some (OPage x) ∧ v_mmu s1 = vx_mmu ∧ v_k s1 = v_k vx_vm.
Proof.
  intros Hal. destruct (al_rest _ _ _ _ _ Hal) as (Hmm & Hk & Hmal & _ & _ & _ & _ & Hcur).
  destruct (al_procs _ _ _ _ _ Hal 1 _ eq_refl) as (h & Hpr & _). exists (Proc vx_root h USER_STACK). destruct vx_can_load as [_ Hu _ Hin Hm0 Hfree Hfew].
  split; [split|].
  - apply Hal.
  - rewrite Hmm. exact Hu.
  - rewrite Hcur. exact Hpr.
  - exact Hin.
  - rewrite Hmal. exact Hm0.
  - unfold user_free. rewrite Hmm. exact Hfree.
  - rewrite Hmm. exact Hfew.
  - split; [done|]. split; [exact Hcur|]. split; [|split; [apply Hal|done]]. apply (al_maps _ _ _ _ _ Hal). right. by rewrite Hcur.
Qed.

Lemma vx_upage_user : user_va own vx_upage.
Proof. by split. Qed.
Lemma page_fault_loads_witness : ∃ s1 s', vm_alloc_page_with_initializer VM_ANON vx_upage true lazy_load 1 vx_vm = Done (true, s1) ∧
  vm_try_handle_fault 0 (vx_upage + 5) true true true s1 = Done (true, s') ∧
  user_byte (vbytes s') vx_root (vx_upage + 599) = zlookup vx_part 599 ∧ user_byte (vbytes s') vx_root (vx_upage + 4095) = Some 0.
Proof.
  destruct vx_allocated as (s1 & Hrun1 & Hal). destruct (vx_allocated_load s1 _ Hal) as (pr & Hcl & Hroot & Hcur & Hmap & Hp & _ & Hk).
  assert (H1 : objs s1 !! 1 = Some (OInfo (Info 2 0 600 3496))) by (by apply (al_old _ _ _ _ _ Hal)).
  destruct (page_fault_loads s1 [vx_root] pr 0 (vx_upage + 5) true true true 2 _ (vx_part ++ zeros 3496) Hcl Hmap Hp eq_refl (vx_backed s1 Hk H1)
    vx_upage_user (λ _, eq_refl)) as (s' & Hrun & Hb). exists s1, s'. split; [exact Hrun1|]. split; [exact Hrun|].
  rewrite Hroot in Hb. pose proof (bi_bytes _ _ _ _ _ _ _ Hb) as Hs. unfold sees in Hs. simpl va in Hs.
  rewrite !Hs by (unfold PGSIZE; lia). split; vm_compute; reflexivity.
Defined.

Lemma fault_refused_witness : vm_try_handle_fault 0 vx_upage true true true vx_vm = Done (false, vx_vm).
Proof.
  apply (fault_refused vx_vm (Proc vx_root vx_hash USER_STACK)); [exact vx_tables|reflexivity|]. left.
  split; [intros p; apply vx_no_page|reflexivity].
Defined.

(** ** The page in a frame with two users *)

Lemma vx_set : ∃ mm, pml4_set_page vx_root vx_upage vx_frame false vx_mmu = Done (true, mm) ∧ wf_user mm [vx_root] ∧
  mapping (bytes mm) vx_root vx_upage = Some (page_entry vx_frame false) ∧ user_pool (m_ram mm) = user_pool (m_ram vx_mmu) ∧
  bytes_at (bytes mm) vx_frame (zeros PGSIZE) ∧ ¬ few (m_ram mm) 3.
Proof.
  assert (Hused : run_of (user_pool (m_ram vx_mmu)) vx_frame 1 true) by (by apply (vx_run true 0)).
  assert (Hin : vx_root ∈ [vx_root]) by (by apply list_elem_of_singleton).
  pose proof (wf_user_kernel _ _ _ vx_user (run_user_page _ _ _ Hused)) as Hk.
  destruct (wp_run _ _ _ (set_page_wp own vx_mmu vx_root vx_upage vx_frame false (pr_space _ _ vx_processes _ Hin) vx_upage_user eq_refl Hk))
    as (ok & mm & Hrun & Hres).
  destruct ok; [|exfalso; apply (enough_pages (m_ram vx_mmu)); [done|by left|apply Hres]].
  destruct (set_page_view vx_root vx_upage vx_frame false [vx_root] vx_mmu mm vx_user Hin vx_upage_user eq_refl Hused
    ltac:(intros b va e ->%list_elem_of_singleton Hva He; by destruct (vx_unmapped va e Hva)) Hres) as (Hw & _ & _ & Hm & Hp & Hb & _).
  exists mm. split; [done|]. split; [done|]. split; [done|]. split; [done|]. split.
  - intros i Hi. rewrite zeros_length in Hi by done. rewrite zeros_lookup by exact Hi. rewrite Hb; [apply vx_zero|].
    2: { unfold in_pool, pool_end; simpl; unfold PGSIZE in *; lia. }
    unfold vx_frame, PGSIZE in *. lia.
  - apply enough_pages.
    + apply Hres.
    + right. assert (Hc : match pml4_set_page vx_root vx_upage vx_frame false vx_mmu with
                          | Done (_, mm) => used_map (kernel_pool (m_ram mm)) | _ => Bitmap 0 [] end = Bitmap 8 [31]) by (vm_compute; reflexivity).
      by rewrite Hrun in Hc.
Qed.

(** The page of the process [s1] in a frame that another process uses as well. *)
Definition vx_shared (s1 : vm) (mm : mmu) : vm :=
  Vm mm (v_k s1) (<[2 := OPage (Page anon_ops vx_upage (next_obj s1) true (Anon (-1)))]> (<[next_obj s1 := OFrame (Frame vx_frame 2 7)]> (objs s1)))
     (next_obj s1 + 1) (malloc_ok s1) (frame_table s1) 0 (swap_table s1) (swap_disk s1) (procs s1) (cur s1).
Lemma vx_shared_shape s1 mm x : allocated vx_vm vx_upage 2 x s1 → va x = vx_upage → same_shape s1 (vx_shared s1 mm).
Proof.
  intros Hal Hva. pose proof (al_page _ _ _ _ _ Hal) as Hp. pose proof (wt_objs _ (al_wf _ _ _ _ _ Hal)) as Ho.
  pose proof (fresh_obj s1 Ho) as Hf. destruct Ho as [Hn Ho]. destruct (Ho 2) as [_ H2]; [by rewrite Hp|].
  split; [done| | |].
  - split; [simpl; lia|]. intros q. simpl. rewrite !lookup_insert_is_Some. intros [<-|[_ [<-|[_ Hq]]]]; [lia|lia|]. specialize (Ho q Hq). lia.
  - intros e y Hy. simpl. by rewrite !lookup_insert_ne by congruence.
  - intros q y Hy. simpl. destruct (decide (q = 2)) as [->|Hq].
    + rewrite lookup_insert_eq. eexists. split; [reflexivity|]. assert (y = x) as -> by congruence. by rewrite Hva.
    + exists y. by rewrite !lookup_insert_ne by congruence.
Qed.

Lemma copy_on_write_witness : ∃ s s' k, vm_try_handle_fault 0 (vx_upage + 5) true true false s = Done (true, s') ∧
  mapping (vbytes s) vx_root vx_upage = Some (page_entry vx_frame false) ∧
  mapping (vbytes s') vx_root vx_upage = Some (page_entry k true) ∧ k ≠ vx_frame.
Proof.
  destruct vx_allocated as (s1 & _ & Hal). destruct (vx_allocated_load s1 _ Hal) as (pr & Hcl & Hroot & Hcur & Hmap & Hp & Hmm & _).
  destruct vx_set as (mm & _ & Hw & Hm & Hpool & Hbytes & Hfew). set (s := vx_shared s1 mm).
  pose proof (vx_shared_shape s1 mm _ Hal eq_refl) as Hss. pose proof (same_shape_wf s1 s (cl_tables _ _ _ Hcl) Hss) as Hwt.
  assert (Hn : next_obj s1 ≠ 2) by (destruct (proj2 (wt_objs _ (cl_tables _ _ _ Hcl)) 2) as [_ ?]; [by rewrite Hp|lia]).
  assert (Hcl2 : can_load s [vx_root] pr).
  { split; [exact Hwt|exact Hw|exact (cl_proc _ _ _ Hcl)|exact (cl_in _ _ _ Hcl)|exact (cl_malloc _ _ _ Hcl)| |exact Hfew].
    destruct vx_can_load as [_ _ _ _ _ [b Hb] _]. exists b. unfold s. simpl. rewrite Hpool. exact Hb. }
  set (x := Page anon_ops vx_upage (next_obj s1) true (Anon (-1))).
  assert (Hin : in_frame s [vx_root] (pml4 pr) x 2 7 vx_frame (zeros PGSIZE)).
  { split; [simpl; rewrite lookup_insert_ne by congruence; apply lookup_insert_eq| |exact Hbytes|].
    - exists false. rewrite Hroot. exact Hm.
    - split; [by apply zeros_length|]. apply (bool_decide_unpack _). vm_compute. exact I. }
  assert (Hmaps : maps s (cur s) (pg_round_down (vx_upage + 5)) 2) by (apply (same_shape_maps s1 s _ _ _ (cl_tables _ _ _ Hcl) Hss); exact Hmap).
  assert (Hp2 : objs s !! 2 = Some (OPage x)) by apply lookup_insert_eq.
  assert (Hk : kernel_page vx_frame) by (split; [reflexivity|unfold vx_frame, example_base, KERN_BASE, PGSIZE; lia]).
  destruct (copy_on_write s [vx_root] pr 0 (vx_upage + 5) true false 2 x 2 7 vx_frame (zeros PGSIZE) Hcl2 Hmaps Hp2 eq_refl vx_upage_user Hk Hin)
    as (s' & k & Hrun & Hmw); [lia|].
  exists s, s', k. split; [exact Hrun|]. split; [exact Hm|]. rewrite <- Hroot. split; [exact (mw_map _ _ _ _ _ _ _ _ _ _ Hmw)|].
  pose proof (mw_objs _ _ _ _ _ _ _ _ _ _ Hmw) as Ho. rewrite (proj2 (Z.ltb_lt 1 2)) in Ho by lia. apply Ho.
Defined.

(** ** A page that goes to the disk *)

Definition vx_swap : vm :=
  Vm vx_mmu (Kfs ex_fsys2 ∅ ∅ 3) {[1 := OPage (Page anon_ops vx_upage 2 true (Anon (-1))); 2 := OFrame (Frame vx_frame 1 1)]} 3 [] [2] 0
     (Bitmap 2 [0]) (Disk 16 ∅ 0 0) ∅ 1.
Lemma vx_slots : slots_ok vx_swap.
Proof.
  assert (Hp : ∀ p x, objs vx_swap !! p = Some (OPage x) → p = 1 ∧ data x = Anon (-1)).
  { intros p x Hx. simpl in Hx. apply lookup_insert_Some in Hx as [[<- [= <-]]|[_ Hx]]; [done|].
    apply lookup_singleton_Some in Hx as [_ [=]]. }
  split.
  - split; [split; done|]. simpl. lia.
  - intros p x idx Hx Hd Hi. destruct (Hp p x Hx) as [_ Hd']. rewrite Hd in Hd'. injection Hd' as ->. lia.
  - intros p q x y idx Hx Hy _ _ _. destruct (Hp p x Hx) as [-> _], (Hp q y Hy) as [-> _]. done.
Qed.
Lemma swap_roundtrip_witness : ∃ s1 s3, anon_swap_out 1 vx_swap = Done (true, s1) ∧ anon_swap_in 1 vx_frame s1 = Done (true, s3) ∧
  bytes_at (vbytes s3) vx_frame (zeros PGSIZE).
Proof.
  assert (Hres : resident vx_swap 1 (zeros PGSIZE)).
  { exists (Page anon_ops vx_upage 2 true (Anon (-1))), (Frame vx_frame 1 1). split; [reflexivity|]. split; [reflexivity|]. split; [reflexivity|].
    split; [reflexivity|]. intros i Hi. rewrite zeros_length in Hi by done. rewrite zeros_lookup by exact Hi.
    apply vx_zero. simpl kva. unfold vx_frame, PGSIZE in *. lia. }
  assert (Hpb : page_bytes (zeros PGSIZE)).
  { split; [by apply zeros_length|]. apply (bool_decide_unpack _). vm_compute. exact I. }
  assert (Hfree : ∃ i, 0 <= i < bit_cnt (swap_table vx_swap) ∧ bget (swap_table vx_swap) i = false) by (exists 0; done).
  destruct (swap_roundtrip vx_swap 1 (zeros PGSIZE) vx_slots ltac:(lia) Hres Hpb Hfree) as (s1 & Hrun1 & Hback).
  assert (Hmm : v_mmu s1 = vx_mmu).
  { pose proof (swap_out_wp vx_swap 1 (zeros PGSIZE) vx_slots ltac:(lia) Hres Hpb Hfree) as Hwp. unfold wp in Hwp. rewrite Hrun1 in Hwp.
    by destruct Hwp as (_ & _ & _ & _ & Hmm & _). }
  destruct (Hback s1 vx_frame (rtc_refl _ _)) as (s3 & Hrun3 & Hb & _).
  { intros a Ha. rewrite Hmm. exists 0. apply vx_zero. unfold vx_frame, PGSIZE in *. lia. }
  exists s1, s3. split; [exact Hrun1|]. split; [exact Hrun3|exact Hb].
Defined.
