(* ===== verification/ExecExamples.v ===== *)
(** * Concrete uses of the theorems about running programs

    A small executable on a volume, which the process of VmExamples.v loads. *)
From stdpp Require Import base numbers list gmap.
From Stdlib Require Import ZArith Lia.
From S2P Require Import Prelude Bytes Fat Volume Inode InodeData InodeGrow File Directory CString Filesys Bitmap Hash Palloc PallocInit MallocSpec Words Mmu MmuInv MmuWalk MmuSpec AddressSpace Isolation PageTables UserMem Vm VmSpt VmSwap VmFrame VmSpec Access Resident Exec ExecArgs ExecLoad ExecImage FsExamples VmExamples.
Open Scope Z_scope.

(** ** The file *)

(** A header, a program header (two pages at 0x400000, 200 bytes of them from the
    file), and some code. *)
Definition elf_header : list Z :=
  [127; 69; 76; 70; 2; 1; 1; 0] ++ zeros 8 ++ le_bytes 2 2 ++ le_bytes 2 62 ++ le_bytes 4 1 ++ le_bytes 8 4194424 ++ le_bytes 8 64 ++
  zeros 12 ++ le_bytes 2 64 ++ le_bytes 2 56 ++ le_bytes 2 1 ++ zeros 6.
Definition elf_program_header : list Z :=
  le_bytes 4 1 ++ le_bytes 4 7 ++ zeros 8 ++ le_bytes 8 4194304 ++ zeros 8 ++ le_bytes 8 200 ++ le_bytes 8 5000 ++ le_bytes 8 4096.
Definition elf_block : list Z := elf_header ++ elf_program_header ++ replicate 80 144 ++ zeros 312.
Definition elf_content : list Z := take 200 elf_block.
Definition elf_data : inode_disk := InodeDisk 5 200 INODE_MAGIC false (replicate 499 0).
Definition elf_vol : vol := Vol (Disk 14 (<[6 := elf_block]> (sectors ex_disk)) 0 0) ex_fat [].
Definition elf_kfs : kfs :=
  Kfs (Fsys elf_vol {[2 := Inode 5 1 false 0 elf_data]} [2] 3) {[2 := File 2 0 false 1]} ∅ 3.
Definition elf_segment : segment := Segment 0 4194304 200 7992 true.

Lemma elf_executable : executable elf_content = Some (4194424, [elf_segment]).
Proof. by vm_compute. Qed.
Lemma elf_segment_ok : seg_ok elf_content elf_segment.
Proof. split; by vm_compute. Qed.
Lemma elf_file_on : file_on elf_vol elf_data [5; 6].
Proof.
  apply file_on_wf; [apply ex_wf_fat|chain_tac|done|done|done| |].
  - repeat constructor; by vm_compute.
  - repeat constructor; by vm_compute.
Qed.
Lemma elf_file : file_is elf_kfs 2 elf_content 0.
Proof.
  split.
  - exists (File 2 0 false 1), (Inode 5 1 false 0 elf_data), [5; 6]. split_and!; try done. exact elf_file_on.
  - done.
  - apply (bool_decide_unpack _). by vm_compute.
  - done.
  - split; [done|]. intros p [f Hf]. change (({[2 := File 2 0 false 1]} : gmap Z file) !! p = Some f) in Hf. apply lookup_singleton_Some in Hf as [<- _]. done.
Qed.

(** ** The process *)

(** The words of the command line, and the literal, outside of the pools. *)
Definition cmd_at : Z := 5000.
Definition cmd_line : list Z := [101; 108; 102; 32; 32; 120; 121].
Definition space_at : Z := 6000.
Fixpoint put_list (a : Z) (l : list Z) (m : mem) : mem :=
  match l with [] => m | x :: l => <[a := x]> (put_list (a + 1) l m) end.
Definition elf_mem : mem := put_list cmd_at (cmd_line ++ [0]) (put_list space_at [32; 0] (vbytes vx_vm)).
Definition elf_vm0 : vm :=
  Vm vx_mmu elf_kfs ∅ 2 [] [] 0 (Bitmap 2 [0]) (Disk 16 ∅ 0 0) {[1 := Proc vx_root vx_hash USER_STACK]} 1.
Definition elf_vm : vm := with_vbytes elf_mem elf_vm0.

Lemma put_list_over a l m : overwritten m a l (put_list a l m).
Proof.
  revert a. induction l as [|x l IH]; intros a y; cbn [put_list].
  - rewrite decide_False; [done|]. change (zlength []) with 0. lia.
  - rewrite zlength_cons. pose proof (zlength_nonneg l). destruct (decide (y = a)) as [->|Hne].
    + rewrite lookup_insert_eq, decide_True, Z.sub_diag by lia. done.
    + rewrite lookup_insert_ne by done. rewrite IH. destruct (decide (a + 1 <= y < a + 1 + zlength l)) as [Hd|Hd].
      * rewrite decide_True by lia. replace (y - a) with (1 + (y - (a + 1))) by lia. rewrite !zlookup_nat by lia.
        replace (Z.to_nat (1 + (y - (a + 1)))) with (S (Z.to_nat (y - (a + 1)))) by lia. done.
      * rewrite decide_False; [done|lia].
Qed.
Lemma elf_mem_frame x : ¬ (cmd_at <= x < space_at + 2) → elf_mem !! x = vbytes vx_vm !! x.
Proof.
  intros Hx. unfold elf_mem. rewrite put_list_over, decide_False by (unfold cmd_at, space_at in *; change (zlength (cmd_line ++ [0])) with 8; lia).
  rewrite put_list_over, decide_False; [done|]. change (zlength [32; 0]) with 2. unfold cmd_at, space_at in *. lia.
Qed.
Lemma elf_low x : x < example_base → kernel_byte vx_mmu [vx_root] x ∧ kept (m_ram vx_mmu) x.
Proof.
  intros Hx. split; [split|].
  - unfold in_pool. simpl. unfold vx_frame, PGSIZE. lia.
  - intros Ht%(table_byte_pool _ _ _ vx_processes). destruct Ht as [Ht _]. simpl in Ht. lia.
  - intros [[Ht _] _]. simpl in Ht. lia.
Qed.
Lemma elf_same_view : wf_user (v_mmu elf_vm) [vx_root].
Proof.
  refine (proj1 (kernel_bytes_change vx_mmu [vx_root] elf_mem vx_user _ _)).
  - intros x Hx. destruct (decide (cmd_at <= x < space_at + 2)) as [Hd|Hd]; [|by rewrite elf_mem_frame].
    unfold elf_mem. rewrite put_list_over. destruct (decide _) as [Hc|Hc]; [apply zlookup_is_Some; lia|].
    rewrite put_list_over. destruct (decide _) as [Hc'|Hc']; [apply zlookup_is_Some; lia|done].
  - intros x Hx. apply elf_mem_frame. intros Hd. apply Hx, elf_low. unfold cmd_at, space_at, example_base in *. lia.
Qed.

Lemma with_vbytes_pools m s : kernel_pool (m_ram (v_mmu (with_vbytes m s))) = kernel_pool (m_ram (v_mmu s)) ∧
  user_pool (m_ram (v_mmu (with_vbytes m s))) = user_pool (m_ram (v_mmu s)).
Proof. done. Qed.
Lemma elf_pools : kernel_pool (m_ram (v_mmu elf_vm)) = kernel_pool (m_ram vx_mmu) ∧ user_pool (m_ram (v_mmu elf_vm)) = user_pool (m_ram vx_mmu).
Proof. exact (with_vbytes_pools elf_mem elf_vm0). Qed.
Lemma vbytes_with m s : vbytes (with_vbytes m s) = m.
Proof. done. Qed.
Lemma elf_bytes : vbytes elf_vm = elf_mem.
Proof. exact (vbytes_with elf_mem elf_vm0). Qed.
Lemma elf_mem_line : bytes_at elf_mem cmd_at (cmd_line ++ [0]) ∧ bytes_at elf_mem space_at [32; 0].
Proof.
  unfold elf_mem. generalize (vbytes vx_vm). intros m. split.
  - exact (overwritten_bytes _ _ _ _ (put_list_over cmd_at (cmd_line ++ [0]) _)).
  - intros i Hi. rewrite <- (overwritten_bytes _ _ _ _ (put_list_over space_at [32; 0] m) i Hi).
    rewrite (put_list_over cmd_at (cmd_line ++ [0]) _ (space_at + i)), decide_False; [done|].
    change (zlength (cmd_line ++ [0])) with 8. unfold cmd_at, space_at. lia.
Qed.
#[local] Opaque elf_mem.
Lemma elf_proc t pr : procs elf_vm !! t = Some pr → t = 1 ∧ pr = Proc vx_root vx_hash USER_STACK.
Proof. intros Hp. change (({[1 := Proc vx_root vx_hash USER_STACK]} : gmap Z proc) !! t = Some pr) in Hp. by apply lookup_singleton_Some in Hp as [<- <-]. Qed.
Lemma elf_tables : wf_tables elf_vm.
Proof.
  split.
  - split; [done|]. by intros p [x Hx].
  - intros t pr Hp. destruct (elf_proc t pr Hp) as [-> ->]. split; [done|apply vx_empty_hash| |done].
    intros e He. by apply elem_of_nil in He.
  - intros t1 v1 t2 v2 p (pr & e & x & Hp & He & _). destruct (elf_proc _ _ Hp) as [_ ->]. by apply elem_of_nil in He.
Qed.
Lemma elf_image : image [vx_root] vx_root 2 elf_content [] elf_vm.
Proof.
  split; [apply elf_tables|by eexists|done|exists 0; exact elf_file|by intros v w b Hin%elem_of_nil|].
  intros v q (pr & e & x & Hp & He & _). destruct (elf_proc _ _ Hp) as [_ ->]. by apply elem_of_nil in He.
Qed.
Lemma elf_kernel x : x < example_base → kept (m_ram (v_mmu elf_vm)) x ∧ kernel_byte (v_mmu elf_vm) [vx_root] x.
Proof.
  intros Hx. destruct elf_pools as [Hk Hu]. split; [|split].
  - intros [[Ht _] _]. rewrite Hk in Ht. simpl in Ht. lia.
  - unfold in_pool. rewrite Hu. simpl. unfold vx_frame, PGSIZE. lia.
  - intros Ht%(table_byte_pool _ _ _ (wu_proc _ _ elf_same_view)). destruct Ht as [Ht _]. rewrite Hk in Ht. simpl in Ht. lia.
Qed.
Lemma elf_line : bytes_at (vbytes elf_vm) cmd_at (cmd_line ++ [0]) ∧ bytes_at (vbytes elf_vm) space_at [32; 0].
Proof. rewrite elf_bytes. exact elf_mem_line. Qed.
Lemma elf_pages : all_pages elf_content [elf_segment] = [(4194304, true, elf_content ++ zeros 3896); (4198400, true, zeros 4096)].
Proof. vm_compute. reflexivity. Qed.
Lemma elf_command : command_line elf_vm [vx_root] cmd_at space_at cmd_line.
Proof.
  split; [done| | |apply (bool_decide_unpack _); by vm_compute|done|by right|].
  - split; [apply elf_line|set_solver].
  - split; [apply elf_line|set_solver].
  - intros x Hx. apply elf_kernel. unfold cmd_at, example_base in *. change (zlength cmd_line) with 7 in Hx. lia.
Qed.

(** The same process, with a file that is no executable. *)
Lemma ex_file_is : file_is (v_k vx_vm) 2 (file_content ex_vol ex_file_data [5; 6]) 0.
Proof.
  split.
  - exists (File 2 0 false 1), ex_file, [5; 6]. split_and!; try done. exact ex_file_on_file.
  - done.
  - apply (bool_decide_unpack _). by vm_compute.
  - done.
  - split; [done|]. intros p [f Hf]. change (({[2 := File 2 0 false 1]} : gmap Z file) !! p = Some f) in Hf.
    apply lookup_singleton_Some in Hf as [<- _]. done.
Qed.
Lemma load_refuses_witness : ∃ kk, load_image 0 2 [] vx_vm = Done (None, with_k kk vx_vm).
Proof.
  destruct (load_refuses 0 [vx_root] vx_root 2 (file_content ex_vol ex_file_data [5; 6]) [] vx_vm []) as (kk & Hrun & _).
  - split; [apply vx_tables|by eexists|done|exists 0; exact ex_file_is|by intros v w b Hin%elem_of_nil|].
    intros v q Hm. by apply vx_no_page in Hm.
  - exact ex_file_is.
  - right. by vm_compute.
  - by exists kk.
Defined.
