(* ===== verification/SyscallSpec.v ===== *)
(** * Properties of system calls

    The registers carry arguments and results without loss, and filesys_lock is free
    when a call is over. *)
From stdpp Require Import base numbers list gmap.
From Stdlib Require Import ZArith Lia.
From S2P Require Import Prelude Bytes Fat Volume Inode File Directory CString Filesys Bitmap Hash Palloc PallocInit Words Mmu.
From S2P Require Import Stdio Intq Serial Desc Vm VmSwap VmExamples Access Exec SerialSpec Syscall.
Open Scope Z_scope.

(** ** The monad of calls *)

Lemma call_bind_assoc {A B C} (c : call A) (g : A → call B) (k : B → call C) s :
  ((c ≫= g) ≫= k) s = (c ≫= λ a, g a ≫= k) s.
Proof. unfold mbind, call_bind. by destruct (c s) as [[[e|a] s']| | |]. Qed.
Lemma call_bind_ext {A B} (c : call A) (g h : A → call B) s :
  (∀ a s', g a s' = h a s') → (c ≫= g) s = (c ≫= h) s.
Proof. intros H. unfold mbind, call_bind. by destruct (c s) as [[[e|a] s']| | |]. Qed.

(** ** Registers *)

Lemma s32_u64 v : is_int v → s32 (u64 v) = v.
Proof. unfold is_int, s32, u64. intros Hv. zdiv. Qed.
Lemma u64_pointer v : is_pointer v → u64 v = v.
Proof. apply u64_small. Qed.
Lemma u32_u64 v : is_unsigned v → u32 (u64 v) = v.
Proof. unfold is_unsigned. intros Hv. rewrite u64_small by lia. by apply u32_small. Qed.
Lemma result_of_u64 t v : of_type t v → t ≠ Void → result_of t (u64 v) = v.
Proof.
  assert (Hs : ∀ v, - 2 ^ 63 <= v < 2 ^ 63 → s64 (u64 v) = v) by (intros w Hw; unfold s64, u64; zdiv).
  unfold result_of. destruct t; simpl; intros Hv Hne; try done.
  - by destruct Hv as [->| ->].
  - unfold is_int in Hv. rewrite Hs by lia. by apply s32_small.
  - unfold is_unsigned in Hv. rewrite Hs by lia. by apply u32_small.
  - unfold is_pointer, s64, u64 in *. zdiv.
Qed.

Section spec.
Context (junk : Z) (entry : dir_entry) (space slash cp_file_name first_word cp_name : Z).
Context (spt_junk : list (list Z)) (as_file : page_data → file_page) (empty new_dir_junk : Z).
Implicit Types (q : request) (f : intr_frame) (s : ust).

Abbreviation serve := (serve junk entry space slash cp_file_name first_word cp_name spt_junk as_file empty new_dir_junk).
Abbreviation handler := (syscall_handler junk entry space slash cp_file_name first_word cp_name spt_junk as_file empty new_dir_junk).
Abbreviation dispatch := (dispatch junk entry space slash cp_file_name first_word cp_name spt_junk as_file empty new_dir_junk).

Lemma ret_value {A} (conv : A → Z) (c : call A) f s :
  ret conv c f s = (v ← value conv c; mret (answered v f)) s.
Proof. unfold ret, value. rewrite call_bind_assoc. by apply call_bind_ext. Qed.
Lemma no_ret_value c f s : no_ret c f s = (v ← no_value c; mret (answered v f)) s.
Proof. unfold no_ret, no_value. rewrite call_bind_assoc. by apply call_bind_ext. Qed.
(** What does not return does not go on. *)
Lemma sys_exit_ends {A B} status (k : A → call B) s : (sys_exit status ≫= k) s = sys_exit status s.
Proof. unfold sys_exit. rewrite call_bind_assoc. apply call_bind_ext. intros s1 s2. rewrite call_bind_assoc.
  apply call_bind_ext. intros name s3. rewrite call_bind_assoc. by apply call_bind_ext. Qed.
Lemma sys_exec_ends {A B} file (k : A → call B) s :
  (sys_exec junk entry space slash cp_file_name first_word cp_name spt_junk empty file ≫= k) s =
  sys_exec junk entry space slash cp_file_name first_word cp_name spt_junk empty file s.
Proof.
  unfold sys_exec. repeat (rewrite call_bind_assoc; apply call_bind_ext; intros ? ?).
  destruct (_ =? 0); [apply sys_exit_ends|].
  repeat (rewrite call_bind_assoc; apply call_bind_ext; intros ? ?).
  match goal with |- context [match ?r with Some _ => _ | None => _ end] => destruct r end; [done|apply sys_exit_ends].
Qed.

(** The tests of the numbers, which are constants. *)
Ltac numbers := repeat match goal with
  | |- context [u64 ?n =? ?m] => let b := eval vm_compute in (u64 n =? m) in change (u64 n =? m) with b; cbv iota
  end.

Lemma dispatch_serve q f s : typed q → R f = stub q →
  dispatch f s = (v ← serve q; mret (answered v f)) s.
Proof.
  intros Ht HR. unfold dispatch. rewrite HR. destruct q; unfold stub, syscall0, syscall1, syscall2, syscall3, syscall5, syscall;
    cbn [rax rdi rsi rdx r10 r8]; numbers; simpl in Ht; destruct_and?;
    rewrite ?s32_u64, ?u32_u64, ?u64_pointer by done; unfold Syscall.serve;
    first [done | apply ret_value | apply no_ret_value | symmetry; apply sys_exit_ends | symmetry; apply sys_exec_ends].
Qed.

(** ** The lock of the file system *)

(** A call that begins with the lock free, if [pre], ends with it free: if it
    returns, when [post], and if it does not return, when [ends]. *)
Definition clean (ends pre post : bool) {A} (c : call A) : Prop := ∀ s r s',
  (pre = true → fs_lock s = 0) → c s = Done (r, s') →
  match r with inr _ => post = true → fs_lock s' = 0 | inl _ => ends = true → fs_lock s' = 0 end.

Lemma clean_ret x b {A} (a : A) : clean x b b (mret a : call A).
Proof. intros s r s' Hs [= <- <-]. done. Qed.
Lemma clean_bind x pre mid post {A B} (c : call A) (k : A → call B) :
  clean x pre mid c → (∀ a, clean x mid post (k a)) → clean x pre post (c ≫= k).
Proof.
  intros Hc Hk s r s' Hs. unfold mbind, call_bind. destruct (c s) as [[[e|a] s1]| | |] eqn:Hrun; try done.
  - intros [= <- <-]. by apply (Hc s (inl e) s1).
  - apply Hk. by apply (Hc s (inr a) s1).
Qed.
Lemma clean_lift x b {A} (c : ST ust A) :
  (∀ s a s', c s = Done (a, s') → fs_lock s' = fs_lock s) → clean x b b (lift c).
Proof.
  intros Hc s r s' Hs. unfold lift. destruct (c s) as [[a s1]| | |] eqn:Hrun; try done. intros [= <- <-] Hb.
  rewrite (Hc _ _ _ Hrun). by apply Hs.
Qed.
Lemma clean_on_kst x b {A} (c : ST kst A) : clean x b b (on_kst c).
Proof. apply clean_lift. intros s a s'. unfold zoom. by destruct (c (u_k s)) as [[? ?]| | |]; intros [= <- <-]. Qed.
Lemma clean_on_dev x b {A} (c : ST dev A) : clean x b b (on_dev c).
Proof. apply clean_lift. intros s a s'. unfold zoom. by destruct (c (u_dev s)) as [[? ?]| | |]; intros [= <- <-]. Qed.
Lemma clean_on_console x b {A} (c : ST console A) : clean x b b (on_console c).
Proof. apply clean_lift. intros s a s'. unfold zoom. by destruct (c (u_console s)) as [[? ?]| | |]; intros [= <- <-]. Qed.
Lemma clean_get x b : clean x b b (lift get_st).
Proof. apply clean_lift. by intros s a s' [= <- <-]. Qed.
Lemma clean_deref x b {A} (o : option A) : clean x b b (lift (deref o)).
Proof. apply clean_lift. intros s a s'. by destruct o; intros [= <- <-]. Qed.
Lemma clean_undef x b {A} : clean x b b (lift (undef : ST ust A)).
Proof. by apply clean_lift. Qed.
Lemma clean_leave x b {A} e : clean x true b (leave e : call A).
Proof. intros s r s' Hs [= <- <-] _. by apply Hs. Qed.
Lemma clean_leave_any pre b {A} e : clean false pre b (leave e : call A).
Proof. by intros s r s' Hs [= <- <-]. Qed.
Lemma clean_acquire x : clean x true false lock_acquire.
Proof.
  intros s r s' Hs. specialize (Hs eq_refl). unfold lock_acquire, mbind, call_bind, lift, get_st, assert_st. simpl. rewrite Hs. simpl.
  destruct (tid s); simpl; [done|..]; by intros [= <- <-].
Qed.
Lemma clean_release x pre : clean x pre true lock_release.
Proof.
  intros s r s' _. unfold lock_release, mbind, call_bind, lift, get_st, assert_st. simpl.
  destruct (fs_lock s =? tid s); simpl; [|done]. by intros [= <- <-].
Qed.
Lemma clean_loop x b {A B} n (body : A → call (A + B)) a :
  (∀ a, clean x b b (body a)) → clean x b b (repeat_call n body a).
Proof.
  intros Hb. revert a. induction n as [|n IH]; intros a; simpl; [by intros s r s' _|].
  eapply clean_bind; [apply Hb|]. intros [a'|c]; [apply IH|apply clean_ret].
Qed.
Lemma clean_exit x b {A} status : clean x true b (sys_exit status : call A).
Proof.
  unfold sys_exit. eapply clean_bind; [apply clean_get|]. intros s1. eapply clean_bind; [apply clean_deref|].
  intros name. eapply clean_bind; [apply clean_on_console|]. intros _. apply clean_leave.
Qed.
Lemma clean_exit_any pre b {A} status : clean false pre b (sys_exit status : call A).
Proof.
  unfold sys_exit. eapply clean_bind; [apply (clean_get _ pre)|]. intros s1. eapply clean_bind; [apply clean_deref|].
  intros name. eapply clean_bind; [apply clean_on_console|]. intros _. apply clean_leave_any.
Qed.

(** Takes a call apart. *)
Ltac clean1 := first
  [ apply clean_ret | apply clean_on_kst | apply clean_on_dev | apply clean_on_console | apply clean_get | apply clean_undef
  | apply clean_leave | apply clean_leave_any | apply clean_acquire | apply clean_release | apply clean_exit | apply clean_exit_any
  | apply clean_loop; intros ? | eapply clean_bind; [|intros ?]
  | match goal with
    | |- clean _ _ _ (if ?b then _ else _) => destruct b
    | |- clean _ _ _ (match ?x with _ => _ end) => destruct x
    end ].
Ltac clean_all := repeat (cbv zeta; clean1).

Lemma clean_check_address x a : clean x true true (check_address empty a).
Proof. unfold check_address, get_page_of. clean_all. Qed.
Lemma clean_check_buffer x a n : clean x true true (check_buffer junk a n).
Proof. unfold check_buffer, check_step, get_page_of. clean_all. Qed.
Lemma clean_check_read x a n : clean x true true (check_read_buffer junk a n).
Proof. unfold check_read_buffer. repeat first [apply clean_check_buffer | clean1]. Qed.
Lemma clean_check_write x a n : clean x true true (check_write_buffer junk a n).
Proof. unfold check_write_buffer, write_step, get_page_of. repeat first [apply clean_check_buffer | clean1]. Qed.
Lemma clean_user_string x b a : clean x b b (user_string junk a).
Proof. unfold user_string. clean_all. Qed.

Lemma clean_sys_remove a : clean true true true (sys_remove junk entry slash empty a).
Proof. unfold sys_remove. repeat first [apply clean_check_address | apply clean_user_string | clean1]. Qed.
Lemma clean_sys_open a : clean true true true (sys_open junk entry slash cp_name empty a).
Proof. unfold sys_open. repeat first [apply clean_check_address | apply clean_user_string | clean1]. Qed.
Lemma clean_sys_read fd a n : clean true true true (sys_read junk fd a n).
Proof. unfold sys_read, read_keys, key_step. repeat first [apply clean_check_write | clean1]. Qed.
Lemma clean_sys_write fd a n : clean true true true (sys_write junk fd a n).
Proof. unfold sys_write. repeat first [apply clean_check_read | clean1]. Qed.
Lemma clean_sys_create a n : clean false true true (sys_create junk entry slash empty a n).
Proof.
  unfold sys_create, check_address, get_page_of. repeat first [apply clean_user_string | clean1].
Qed.
Lemma clean_sys_mmap a n w fd ofs : clean true true true (sys_mmap a n w fd ofs).
Proof. unfold sys_mmap, mmap_free_step. clean_all. Qed.
Lemma clean_sys_readdir fd a : clean true true true (sys_readdir junk entry fd a).
Proof. unfold sys_readdir, readdir_turn. clean_all. Qed.
Lemma clean_sys_exec {A} a : clean true true true
  (sys_exec junk entry space slash cp_file_name first_word cp_name spt_junk empty a : call A).
Proof. unfold sys_exec. repeat first [apply clean_check_address | apply clean_user_string | clean1]. Qed.

(** Every request, but for create ([ends]) where the call does not return. *)
Lemma clean_serve q : clean (match q with create _ _ => false | _ => true end) true true (serve q).
Proof.
  destruct q; unfold Syscall.serve, value, no_value, sys_munmap, call_chdir, call_mkdir;
    repeat first [apply clean_sys_exec | apply clean_sys_remove | apply clean_sys_open | apply clean_sys_read | apply clean_sys_write
      | apply clean_sys_create | apply clean_sys_mmap | apply clean_sys_readdir | apply clean_user_string | clean1].
Qed.

(** ** Properties *)

(** C31: The user library and the kernel agree on the registers. For each function of
    lib/user/syscall.c, with arguments of their types: the registers that it
    loads make syscall_handler store the user's stack pointer and run exactly the
    kernel's function for it, with exactly these arguments (the negative ones
    too), and put the answer into rax, or leave rax if there is none; and from
    rax the library takes any answer of the result's type as it was. *)
Theorem system_call_abi q f : typed q → R f = stub q → f_cs f = SEL_UCSEG →
  (∀ s, handler f s = (_ ← on_v (set_user_rsp (f_rsp f)); v ← serve q; mret (answered v f)) s) ∧
  (∀ v, of_type (result_type q) v → result_type q ≠ Void →
     result_of (result_type q) (rax (R (answered (Some v) f))) = v).
Proof.
  intros Ht HR Hcs. split.
  - intros s. unfold syscall_handler. rewrite Hcs, Z.eqb_refl. apply call_bind_ext. intros _ s1. by apply dispatch_serve.
  - intros v Hv Hne. by apply result_of_u64.
Qed.


(** create keeps it: a name in the kernel's memory ends the process with the lock
    held, and then no thread gets it any more. *)
Lemma sys_exit_inv {A} status s (r : ending + A) s' :
  sys_exit status s = Done (r, s') → r = inl (Exits (Some status)) ∧ fs_lock s' = fs_lock s.
Proof.
  unfold sys_exit, mbind, call_bind, lift, get_st. destruct (t_name s !! tid s) as [name|]; simpl; [|done].
  unfold on_console, lift, zoom. by destruct (printf _ _ _) as [[[] k]| | |]; intros [= <- <-].
Qed.
Lemma create_keeps_lock file n s r s' : fs_lock s = 0 → tid s ≠ 0 → is_user_vaddr file = false →
  serve (create file n) s = Done (r, s') → r = inl (Exits (Some (-1))) ∧ fs_lock s' = tid s.
Proof.
  intros Hs Ht Hu. set (s1 := Ust (u_k s) (u_dev s) (u_console s) (tid s) (t_name s)).
  assert (Hacq : lock_acquire s = Done (inr tt, s1)).
  { unfold lock_acquire, mbind, call_bind, lift, get_st, assert_st. rewrite Hs, (proj2 (Z.eqb_neq 0 (tid s))) by done. done. }
  unfold Syscall.serve, value, sys_create. rewrite call_bind_assoc. unfold mbind at 1, call_bind at 1. rewrite Hacq.
  rewrite call_bind_assoc. unfold mbind at 1, call_bind at 1. unfold check_address. rewrite Hu, orb_true_r.
  destruct (sys_exit (-1) s1) as [[[e|[]] s2]| | |] eqn:Hex; try done; apply sys_exit_inv in Hex as [[= ->] Hl].
  by intros [= <- <-].
Qed.
End spec.

(** ** Concrete system calls

    One use of each theorem about system calls. *)

Definition no_entry : dir_entry := DirEntry 0 [] false.
Definition no_file (_ : page_data) : file_page := FilePage 0 0 0 0 0.

(** A read from the descriptor -1. *)
Definition ex_read : request := read (-1) 4096 10.
Definition ex_frame : intr_frame := IFrame (stub ex_read) SEL_UCSEG 8192.

Lemma system_call_abi_witness :
  typed ex_read ∧
  (∀ s, syscall_handler 0 no_entry 0 0 0 0 0 [] no_file 0 0 ex_frame s =
    (_ ← on_v (set_user_rsp 8192); v ← value int_of (sys_read 0 (-1) 4096 10); mret (answered v ex_frame)) s) ∧
  result_of Int (rax (R (answered (Some (-1)) ex_frame))) = -1.
Proof.
  assert (Ht : typed ex_read) by (unfold ex_read, typed, is_int, is_pointer, is_unsigned; lia). split; [exact Ht|].
  destruct (system_call_abi 0 no_entry 0 0 0 0 0 [] no_file 0 0 ex_read ex_frame Ht eq_refl eq_refl) as [Hrun Hres].
  split; [exact Hrun|]. apply (Hres (-1)); [|discriminate]. unfold of_type, is_int. simpl. lia.
Defined.

(** A process asks to remove a file whose name is in the kernel's memory. *)
Definition ex_ust (k : kst) : ust := Ust k dev0 (Console [] 0) 0 {[1 := [97]]}.
Definition ex_said : console := Console [97; 58; 32; 101; 120; 105; 116; 40; 45; 49; 41; 10] 12.
Lemma ex_remove m k o n ml ft cs st sd ps ts :
  serve 0 no_entry 0 0 0 0 0 [] no_file 0 0 (remove KERN_BASE) (ex_ust (Kst (Vm m k o n ml ft cs st sd ps 1) ts)) =
  Done (inl (Exits (Some (-1))), Ust (Kst (Vm m k o n ml ft cs st sd ps 1) ts) dev0 ex_said 0 {[1 := [97]]}).
Proof. vm_compute. reflexivity. Qed.
