(* ===== verification/LibExamples.v ===== *)
(** * The library's theorems on concrete inputs

    One use of each theorem about the kernel's library: lists, hash tables,
    bitmaps, strings, arithmetic, sorting and formatted output. *)
From stdpp Require Import base numbers list sets gmap sorting.
From Stdlib Require Import ZArith Lia.
From S2P Require Import Prelude Bytes DList ListOps ListSort Bitmap Hash CString Arith FixedPoint.
From S2P Require Import CStdlib Filesys Stdio OrderedSeq.
Open Scope Z_scope.

(** Decides a closed proposition by evaluation. *)
Ltac by_eval := apply (bool_decide_unpack _); vm_compute; exact I.

(** ** Lists *)

#[local] Instance ltb_order : WeakOrder Z.ltb.
Proof. split; intros *; rewrite ?Z.ltb_lt, ?Z.ltb_ge; lia. Qed.

(** The list at 1000 with the elements 3 and 1; 2 is an element of no list. *)
Definition ex_heap : DList.heap :=
  list_to_map [(1000, Elem 0 3); (3, Elem 1000 1); (1, Elem 3 1016); (1016, Elem 1 0);
               (2, Elem 0 0)].

Lemma ex_dlist : dlist ex_heap 1000 [3; 1].
Proof.
  split; [|by_eval|repeat constructor; done].
  repeat split; by vm_compute.
Qed.

Lemma list_order_refines_witness :
  (∃ h', list_sort Z.ltb 1000 ex_heap = Done (tt, h') ∧ dlist h' 1000 [1; 3] ∧
     outside (nodes 1000 [3; 1]) ex_heap h') ∧
  ∀ e x, e ≠ 0 → e ∉ nodes 1000 [3; 1] → ex_heap !! e = Some x →
    ∃ h', list_insert_ordered Z.ltb 1000 e ex_heap = Done (tt, h') ∧
      dlist h' 1000 (insert_ordered Z.ltb e [3; 1]) ∧ outside (e :: nodes 1000 [3; 1]) ex_heap h'.
Proof. exact (list_order_refines Z.ltb ex_heap 1000 [3; 1] ex_dlist). Defined.

Lemma list_sort_witness : ∃ h' ys,
  list_sort Z.ltb 1000 ex_heap = Done (tt, h') ∧ dlist h' 1000 ys ∧ ordered Z.ltb ys ∧ [3; 1] ≡ₚ ys.
Proof.
  destruct (list_sort_correct Z.ltb ex_heap 1000 [3; 1] ex_dlist) as (h' & ys & ? & ? & ? & [? _] & _).
  eauto 6.
Defined.

Lemma list_insert_remove_witness : ∃ h1 h2,
  list_insert 1 2 ex_heap = Done (tt, h1) ∧ dlist h1 1000 [3; 2; 1] ∧
  list_remove 2 h1 = Done (1, h2) ∧ dlist h2 1000 [3; 1].
Proof.
  destruct (list_insert_remove ex_heap 1000 [3] [1] 2 (Elem 0 0))
    as (h1 & h2 & ? & ? & ? & ? & _); [exact ex_dlist|done|by_eval|done|eauto 6].
Defined.

(** ** Hash tables *)

#[local] Instance mod_hash : HashOk (λ e, e mod 2 ^ 64) Z.ltb.
Proof.
  split; [apply _| |].
  - intros x y [H1 H2]. apply Z.ltb_ge in H1, H2. f_equal. lia.
  - intros x. apply Z.mod_pos_bound. lia.
Qed.

(** A table with the element 5. *)
Definition ex_hash : hash := Hash 1 4 [[]; [5]; []; []] [].

Lemma ex_wf_hash : wf_hash (λ e, e mod 2 ^ 64) Z.ltb ex_hash.
Proof.
  split; try done.
  - split; [by exists 2|done|]. intros i b e Hi He.
    pose proof (zlookup_Some_range _ _ _ Hi) as Hr. change (zlength _) with 4 in Hr.
    assert (i = 0 ∨ i = 1 ∨ i = 2 ∨ i = 3) as Hc by lia.
    destruct_or! Hc; subst i; vm_compute in Hi; simplify_eq; try by apply not_elem_of_nil in He.
    by apply list_elem_of_singleton in He as ->.
  - change (elems ex_hash) with [5]. repeat constructor. set_solver.
  - change (elems ex_hash) with [5]. intros x y ->%list_elem_of_singleton ->%list_elem_of_singleton. done.
  - change (elems ex_hash) with [5]. set_solver.
Qed.

Lemma hash_insert_witness : ∃ r h',
  hash_insert (λ e, e mod 2 ^ 64) Z.ltb 9 ex_hash = Done (r, h') ∧
  wf_hash (λ e, e mod 2 ^ 64) Z.ltb h'.
Proof.
  destruct (hash_insert_spec (λ e, e mod 2 ^ 64) Z.ltb ex_hash 9) as (r & h' & ? & ? & _);
    [exact ex_wf_hash|done|done|eauto].
Defined.

Lemma rehash_witness : ∃ h', rehash (λ e, e mod 2 ^ 64) ex_hash = Done (tt, h') ∧
  elems h' ≡ₚ [5].
Proof.
  destruct (rehash_spec (λ e, e mod 2 ^ 64) Z.ltb ex_hash ex_wf_hash) as (h' & ? & _ & ? & _). eauto.
Defined.

Lemma hash_iteration_witness : ∃ l,
  (i ← hash_first; visit (S (length (elems ex_hash))) i) ex_hash = Done (l, ex_hash) ∧ l ≡ₚ [5].
Proof.
  destruct (hash_iteration_spec (λ e, e mod 2 ^ 64) Z.ltb ex_hash ex_wf_hash) as (l & ? & ? & _). eauto.
Defined.

Lemma hash_delete_find_replace_witness : ∃ r h',
  hash_delete (λ e, e mod 2 ^ 64) Z.ltb 5 ex_hash = Done (r, h') ∧
  wf_hash (λ e, e mod 2 ^ 64) Z.ltb h'.
Proof.
  destruct (hash_delete_find_replace_spec (λ e, e mod 2 ^ 64) Z.ltb ex_hash 5)
    as ((r & h' & ? & ? & _) & _); [exact ex_wf_hash|done|done|eauto].
Defined.

(** ** Bitmaps *)

Lemma bitmap_bits_witness : ∃ b', bitmap_set 1 true example_bitmap = Done (tt, b') ∧
  to_bools b' = zinsert 1 true (to_bools example_bitmap).
Proof.
  destruct (bitmap_bits_refine example_bitmap 1 true) as ((b' & ? & _ & ?) & _);
    [exact example_bitmap_wf|done|eauto].
Defined.

Lemma bitmap_scan_witness : ∃ r b',
  bitmap_scan_and_flip 0 2 false example_bitmap = Done (r, b') ∧ wf_bitmap b'.
Proof.
  destruct (bitmap_scan_and_flip_spec example_bitmap 0 2 false) as (r & b' & ? & ? & _);
    [exact example_bitmap_wf|done|done|eauto].
Defined.

(** ** Strings *)

(** The bytes [l] from the address [p] on. *)
Definition ex_bytes (p : Z) (l : list Z) : mem := list_to_map (zip (seqZ p (zlength l)) l).
(** "a/bc" at 10, a block of eight bytes at 50, the literal "/" at 90 *)
Definition ex_mem : mem :=
  ex_bytes 10 [97; 47; 98; 99; 0] ∪ ex_bytes 50 [1; 2; 3; 4; 5; 6; 7; 8] ∪ ex_bytes 90 [47; 0].

Lemma memmove_witness : ∃ m', memmove 52 50 4 ex_mem = Done (52, m') ∧
  overwritten ex_mem 52 [1; 2; 3; 4] m'.
Proof. apply (memmove_spec ex_mem 52 50 [1; 2; 3; 4]); [by_eval|done|done|by_eval|by_eval]. Defined.

Lemma strtok_r_witness : ∃ tok save m', strtok_r 10 90 0 ex_mem = Done ((tok, save), m').
Proof.
  destruct (strtok_r_spec ex_mem 10 90 [97; 47; 98; 99] [47]) as (tok & save & m' & ? & _);
    [done|done|by_eval|by_eval|by_eval|eauto].
Defined.

Lemma strlcpy_witness : ∃ m', strlcpy 50 10 4 ex_mem = Done (4, m') ∧ str_at m' 50 [97; 47; 98].
Proof.
  destruct (strlcpy_spec ex_mem 50 10 [97; 47; 98; 99] 4) as (m' & ? & _ & ?);
    [done|done|by_eval|by_eval|done|by_eval|by right|eauto].
Defined.

Lemma parse_path_witness : ∃ argv m', parse_path 10 90 128 ex_mem = Done (argv, m') ∧
  Forall2 (str_at m') argv [[97]; [98; 99]].
Proof.
  destruct (parse_path_spec ex_mem 10 90 128 [97; 47; 98; 99]) as (argv & m' & ? & ? & _);
    [done|done|by_eval|by_eval|by_eval|by right|done|eauto].
Defined.

(** ** Arithmetic *)

Lemma udiv64_witness : udiv64 (2 ^ 63 + 5) (2 ^ 40 + 1) = Done ((2 ^ 63 + 5) / (2 ^ 40 + 1)).
Proof. by apply (udiv64_correct (2 ^ 63 + 5) (2 ^ 40 + 1)). Defined.

Lemma fp_mul_div_witness : ∃ z, mul_fp (3 * F) (F / 2) = Done z ∧ Z.abs (3 * F * (F / 2) - z * F) < F.
Proof.
  destruct (fp_mul_div_exact (3 * F) (F / 2)) as [H _]; [done|done|].
  destruct H as (z & ? & ? & _); [done|eauto].
Defined.

Lemma fp_int_roundtrip_witness :
  ∃ x, int_to_fp (-7) = Done x ∧ fp_to_int x = Done (-7) ∧ fp_to_int_round x = Done (-7).
Proof. by apply (fp_int_roundtrip (-7)). Defined.

(** ** Sorting and searching *)

#[local] Instance sub_order : CmpOrder Z.sub.
Proof. split; lia. Qed.

Lemma sort_witness : ∃ arr', sort Z.sub 3 [3; 1; 2] = Done (tt, arr') ∧ StronglySorted (cle Z.sub) arr'.
Proof. destruct (sort_spec Z.sub [3; 1; 2]) as (arr' & ? & _ & ?); [done|eauto]. Defined.

Lemma binary_search_witness : ∃ r, binary_search [1; 3; 5] 3 (λ x, 3 - x) tt = Done (r, tt).
Proof.
  destruct (binary_search_spec (λ x, 3 - x) [1; 3; 5]) as (r & ? & _); [|eauto].
  intros i j x y Hij Hi Hj.
  pose proof (zlookup_Some_range _ _ _ Hi) as Hr1. pose proof (zlookup_Some_range _ _ _ Hj) as Hr2.
  change (zlength _) with 3 in Hr1, Hr2.
  assert (i = 0 ∨ i = 1 ∨ i = 2) as H1 by lia. assert (j = 0 ∨ j = 1 ∨ j = 2) as H2 by lia.
  destruct_or! H1; destruct_or! H2; subst; vm_compute in Hi, Hj; simplify_eq; lia.
Defined.

(** ** Formatted output *)

Lemma integer_digits_witness :
  ∃ buf, integer_digits 255 base_x (Conversion POUND 0 4 INT) = Done buf ∧ zlength buf <= 64.
Proof.
  destruct (integer_digits_spec base_x (Conversion POUND 0 4 INT) 255) as (buf & ? & ? & _);
    [apply wf_bases|done|eauto].
Defined.

(** The format is "%d". *)
Lemma snprintf_atoi_witness : ∃ len m',
  snprintf 50 12 [37; 100] [Int (-42)] (ex_bytes 50 (replicate 12 0)) = Done (len, m') ∧
  atoi 50 m' = Done (-42, m').
Proof. refine (snprintf_atoi (-42) _ 50 12 _ _ _ _); [done|done|done|by_eval]. Defined.
