(* ===== verification/SchedExamples.v ===== *)
(** * The scheduler on concrete states

    The invariant is decidable; the kernel boots into a state with it; the theorems of SchedSpec.v
    on small states, and what goes wrong outside of their hypotheses. *)
From stdpp Require Import base numbers list sets gmap fin_maps sorting.
From Stdlib Require Import ZArith Lia.
From S2P Require Import Prelude FixedPoint OrderedSeq Thread Synch Timer Kernel SchedInv.
From S2P Require Import SchedSafe SynchSafe DonateSafe KernelSafe SchedSpec.
Open Scope Z_scope.

(** ** The invariant of the scheduler is decidable

    A state is checked by computation. *)

#[export] Instance frame_eq : EqDecision frame.
Proof. solve_decision. Defined.

Section decide.
Implicit Types (s : sched) (t l : Z) (th : thread) (f : frame) (fs : list frame).

#[export] Instance is_Some_sema_dec s a : Decision (is_Some (semas s !! a)).
Proof. apply _. Defined.
#[export] Instance frame_refs_dec s t f : Decision (frame_refs s t f).
Proof. destruct f as [[]|[]| | | | | | | | | | | | | | | | | | | | | ]; simpl; apply _. Defined.
#[export] Instance may_run_dec fs : ∀ H, Decision (may_run H fs).
Proof. induction fs as [|f fs IH]; intros H; [left; exact I|]. destruct f; simpl; apply _. Defined.

Lemma todo_ok_alt s t fs :
  todo_ok s t fs ↔ (Forall (frame_refs s t) fs ∧ Forall (λ f, owns f = None) (tail fs)) ∧
    may_run (held s t) fs ∧ Forall (λ f, (f = IdleLoop → t = idle_thread s) ∧ (t = idle_thread s → f = IdleLoop)) fs.
Proof.
  rewrite (Forall_forall (λ f, _ ∧ _)). split.
  - intros [A B C D]. split; [done|]. split; [done|]. exact D.
  - intros ((A & B) & C & D). split; [done|done|done|exact D].
Qed.
#[export] Instance todo_ok_dec s t fs : Decision (todo_ok s t fs).
Proof.
  destruct (decide ((Forall (frame_refs s t) fs ∧ Forall (λ f, owns f = None) (tail fs)) ∧
    may_run (held s t) fs ∧ Forall (λ f, (f = IdleLoop → t = idle_thread s) ∧ (t = idle_thread s → f = IdleLoop)) fs))
    as [H|H]; [left|right]; by rewrite todo_ok_alt.
Defined.

Definition queued_in s t fs : Prop :=
  match head_waits fs with
  | Some a => match semas s !! a with Some sm => t ∈ waiters sm | None => False end
  | None => head fs = Some Asleep ∧ t ∈ fst <$> sleepers s
  end.
Lemma queued_in_queued s t fs : queued_in s t fs → queued s t fs.
Proof.
  unfold queued_in, queued. destruct (head_waits fs) as [a|]; [|by right].
  destruct (semas s !! a) as [sm|] eqn:Ha; [|done]. left. eauto.
Qed.
#[export] Instance queued_in_dec s t fs : Decision (queued_in s t fs).
Proof. unfold queued_in. destruct (head_waits fs) as [a|]; [destruct (semas s !! a)|]; apply _. Defined.

Definition thread_check s t th : Prop :=
  t ≠ 0 ∧ match status th with
  | THREAD_RUNNING => t = current s
  | THREAD_READY => t = idle_thread s ∨ t ∈ ready_list s
  | THREAD_BLOCKED => t = idle_thread s ∨ queued_in s t (todo th)
  | THREAD_DYING => (t ∈ destruction_req s ∨ t = initial_thread s ∨ t = current s) ∧
      held s t = ∅ ∧ todo th = [] ∧ t ≠ idle_thread s
  end ∧ todo_ok s t (todo th) ∧ (pending_lock th = 0 ∨ is_Some (locks s !! pending_lock th)).
#[export] Instance thread_check_dec s t th : Decision (thread_check s t th).
Proof. unfold thread_check. destruct (status th); apply _. Defined.
Lemma thread_check_ok s t th : thread_check s t th → t ≠ 0 ∧ thread_ok s t th.
Proof.
  intros (H0 & Hst & Htd & _). split; [done|]. split; [..|done]; intros Heq; rewrite Heq in Hst; try done.
  destruct Hst; [by left|right]. by apply queued_in_queued.
Qed.

(** A thread of the list [l] is as [P] says. *)
Definition all_are s (l : list Z) (P : Z → thread → Prop) : Prop :=
  Forall (λ t, match threads s !! t with Some th => P t th | None => False end) l.
#[export] Instance all_are_dec s (l : list Z) P `{∀ t th, Decision (P t th)} : Decision (all_are s l P).
Proof. apply Forall_dec. intros t. destruct (threads s !! t); apply _. Defined.
Lemma all_are_elem s (l : list Z) P t : all_are s l P → t ∈ l → ∃ th, threads s !! t = Some th ∧ P t th.
Proof.
  intros H Ht. pose proof (proj1 (Forall_forall _ _) H t Ht) as Hp. simpl in Hp.
  destruct (threads s !! t); [eauto|done].
Qed.

Definition sema_check s (a : sema_id) sm : Prop :=
  (0 <= value sm < 2 ^ 32 ∧ NoDup (waiters sm)) ∧
  all_are s (waiters sm) (λ _ th, status th = THREAD_BLOCKED ∧ head_waits (todo th) = Some a).
Definition owner_of s l t : Prop :=
  t ≠ 0 ∧ (locks s !! l = Some t ∨
    match threads s !! t with Some th => head_owns (todo th) = Some l | None => False end).
#[export] Instance owner_of_dec s l t : Decision (owner_of s l t).
Proof. unfold owner_of. destruct (threads s !! t); apply _. Defined.
Lemma owner_of_owner s l t : owner_of s l t ↔ owner s l t.
Proof.
  unfold owner_of, owner. destruct (threads s !! t) as [th|]; naive_solver.
Qed.
Definition lock_check s l h : Prop :=
  (l ≠ 0 ∧ (h = 0 ∨ is_Some (threads s !! h))) ∧
  match semas s !! OfLock l with
  | None => False
  | Some sm =>
    let who := filter (λ t, owner_of s l t) (map_to_list (threads s)).*1 in
    value sm = 1 ∧ who = [] ∨ value sm = 0 ∧ length who = 1%nat
  end.
#[export] Instance lock_check_dec s l h : Decision (lock_check s l h).
Proof. unfold lock_check. destruct (semas s !! OfLock l); apply _. Defined.
Lemma lock_check_ok s l h :
  locks s !! l = Some h → lock_check s l h → (l ≠ 0 ∧ (h = 0 ∨ is_Some (threads s !! h)) ∧ is_Some (semas s !! OfLock l)) ∧
    mutex_ok s l.
Proof.
  intros Hl ((Hl0 & Hh) & Hs). destruct (semas s !! OfLock l) as [sm|] eqn:Hsm; [|done].
  split; [by eauto|]. exists sm. split; [done|].
  set (who := filter _ _) in Hs.
  assert (Hwho : ∀ t, owner s l t → t ∈ who).
  { intros t Ho. apply list_elem_of_filter. split; [by apply owner_of_owner|].
    assert (is_Some (threads s !! t)) as [th Hth].
    { destruct Ho as [Ht0 [Ho|(th & -> & _)]]; [|by eauto]. rewrite Hl in Ho. injection Ho as <-. by destruct Hh. }
    apply list_elem_of_fmap. exists (t, th). split; [done|]. by apply elem_of_map_to_list. }
  destruct Hs as [[Hv He]|[Hv Hn]]; [left|right]; (split; [done|]).
  - intros t Ho%Hwho. rewrite He in Ho. by apply not_elem_of_nil in Ho.
  - destruct who as [|t [|]] eqn:Hw; try done. exists t. split.
    + apply owner_of_owner. assert (Hin : t ∈ filter (λ t, owner_of s l t) (map_to_list (threads s)).*1).
      { fold who. rewrite Hw. by left. }
      by apply list_elem_of_filter in Hin as [? _].
    + intros t' Ho%Hwho. by apply list_elem_of_singleton in Ho.
Qed.

Definition wf_check s : Prop :=
  map_Forall (thread_check s) (threads s) ∧
  (NoDup (ready_list s) ∧ all_are s (ready_list s) (λ t th, t ≠ idle_thread s ∧ status th = THREAD_READY)) ∧
  map_Forall (sema_check s) (semas s) ∧
  (NoDup (sleepers s).*1 ∧
   all_are s (sleepers s).*1 (λ _ th, status th = THREAD_BLOCKED ∧ head (todo th) = Some Asleep)) ∧
  all_are s (destruction_req s) (λ t th, t ≠ current s ∧ status th = THREAD_DYING) ∧
  all_are s [current s] (λ _ th, status th = THREAD_RUNNING) ∧ is_Some (threads s !! idle_thread s) ∧
  map_Forall (lock_check s) (locks s) ∧
  map_Forall (λ c ws, Forall (λ t, is_Some (semas s !! OfWaiter t)) ws) (conds s) ∧
  thread_mlfqs s = false.
#[export] Instance wf_check_dec s : Decision (wf_check s).
Proof. unfold wf_check, sema_check. apply _. Defined.

Lemma wf_check_ok s : wf_check s → wf s.
Proof.
  intros (Hth & (Hrn & Hr) & Hs & (Hsn & Hsl) & Hd & Hc & Hid & Hl & Hcd & Hml).
  assert (Hcur : ∃ th, threads s !! current s = Some th ∧ status th = THREAD_RUNNING).
  { apply (all_are_elem _ _ _ _ Hc). by left. }
  split; [split|..]; try done.
  - intros t th Ht. apply thread_check_ok. by apply Hth.
  - intros t Ht. destruct (all_are_elem _ _ _ _ Hr Ht) as (th & ? & ? & ?). split; [done|]. by exists th.
  - intros a sm Ha. by apply (Hs a sm Ha).
  - intros a sm t Ha Ht. destruct (Hs a sm Ha) as [_ Hw]. by apply (all_are_elem _ _ _ _ Hw).
  - intros t Ht. by apply (all_are_elem _ _ _ _ Hsl).
  - intros t Ht. destruct (all_are_elem _ _ _ _ Hd Ht) as (th & ? & ? & ?). split; [done|]. by exists th.
  - destruct Hcur as (th & -> & _). eauto.
  - intros l h Hlh. by apply (lock_check_ok s l h Hlh (Hl l h Hlh)).
  - intros c ws t Hws Ht. exact (proj1 (Forall_forall _ _) (Hcd c ws Hws) t Ht).
  - intros t th Ht. by apply (Hth t th Ht).
  - intros l [h Hlh]. by apply (lock_check_ok s l h Hlh (Hl l h Hlh)).
Qed.
End decide.

(** ** Examples *)

(** ** States *)

Definition ex_thread (st : thread_status) (p : Z) (pend : Z) (fs : list frame) : thread :=
  Thread st p p [] pend 0 0 fs.

(** Thread 1 runs, to do [fs]; it holds the lock 7, for which thread 4 waits and
    has donated 50. Thread 2 is the idle thread, 3 is ready, 5 sleeps until the
    tick 12, and 6 and 8 wait on a semaphore. *)
Definition ex_sched (fs : list frame) : sched := Sched
  (list_to_map
    [ (1, Thread THREAD_RUNNING 50 31 [Donation 50 4 7] 0 0 0 fs);
      (2, ex_thread THREAD_BLOCKED 0 0 [IdleLoop]);
      (3, ex_thread THREAD_READY 20 0 [KernelThread]);
      (4, ex_thread THREAD_BLOCKED 50 7 [LockDown 7]);
      (5, ex_thread THREAD_BLOCKED 33 0 [Asleep]);
      (6, ex_thread THREAD_BLOCKED 55 0 [SemaDown (Sema 9)]);
      (8, ex_thread THREAD_BLOCKED 35 0 [SemaDown (Sema 9)]) ])
  [3] [1; 2; 3; 4; 5; 6; 8] [] 1 2 1
  (list_to_map [(OfLock 7, Semaphore 0 [4]); (Sema 9, Semaphore 0 [8; 6])])
  (list_to_map [(7, 1)]) ∅ [(5, 12)] 12 10 0 0 false false false.

(** Thread 1 asks for the lock 7 of thread 4, which waits for the lock 8 of
    thread 3; thread 5 is ready with a priority between them. *)
Definition ex_nested (fs : list frame) : sched := Sched
  (list_to_map
    [ (1, ex_thread THREAD_RUNNING 60 0 fs);
      (2, ex_thread THREAD_BLOCKED 0 0 [IdleLoop]);
      (3, Thread THREAD_READY 30 10 [Donation 30 4 8] 0 0 0 [LockRelease 8]);
      (4, ex_thread THREAD_BLOCKED 30 8 [LockDown 8; LockRelease 7]);
      (5, ex_thread THREAD_READY 40 0 [KernelThread]) ])
  [5; 3] [1; 2; 3; 4; 5] [] 1 2 1
  (list_to_map [(OfLock 7, Semaphore 0 []); (OfLock 8, Semaphore 0 [4])])
  (list_to_map [(7, 4); (8, 3)]) ∅ [] 0 10 0 0 false false false.

Ltac wf_compute := split; [apply wf_check_ok, (bool_decide_unpack _); vm_compute; exact I|reflexivity].

Lemma ex_sema_wf : inv false (ex_sched [SemaUp (Sema 9)]).
Proof. wf_compute. Qed.
Lemma ex_release_wf : inv false (ex_sched [LockRelease 7]).
Proof. wf_compute. Qed.
Lemma ex_sleep_wf : inv false (ex_sched [TimerSleep 5]).
Proof. wf_compute. Qed.
Lemma ex_plain_wf : inv false (ex_sched []).
Proof. wf_compute. Qed.
Lemma ex_nested_wf : inv false (ex_nested [LockAcquire 7]).
Proof. wf_compute. Qed.
Lemma ex_interrupted_wf : inv true (with_intr true false (ex_sched [])).
Proof. split; [|done]. exact (wf_clock (ex_sched []) 12 10 0 true false (proj1 ex_plain_wf)). Qed.

(** ** Booting *)

(** thread_init and thread_start, with the pages 1 and 2 for the main and the
    idle thread, end in a state with the invariant, where main runs and the idle
    thread is known. *)
Example boot_wf :
  ∃ s, boot 1 2 (powered_on false) = Done (tt, s) ∧ inv false s ∧ current s = 1 ∧ idle_thread s = 2.
Proof.
  eexists. split; [vm_compute; reflexivity|]. split; [|done].
  split; [apply wf_check_ok, (bool_decide_unpack _); vm_compute; exact I|reflexivity].
Qed.

(** ** The theorems at these states *)

Lemma sema_up_spec_witness :
  ∃ s' ws, run_next (ex_sched [SemaUp (Sema 9)]) = Done (tt, s') ∧
    semas s' = <[Sema 9 := Semaphore 1 ws]> (semas (ex_sched [SemaUp (Sema 9)])) ∧ highest_runs s' ∧
    ([8; 6] = [] ∧ ws = [] ∨
     ∃ t, [8; 6] ≡ₚ t :: ws ∧
       (∀ u, u ∈ [8; 6] → prio (ex_sched [SemaUp (Sema 9)]) u <= prio (ex_sched [SemaUp (Sema 9)]) t) ∧
       (t ∈ ready_list s' ∨ t = current s')).
Proof.
  exact (sema_up_spec _ (Thread THREAD_RUNNING 50 31 [Donation 50 4 7] 0 0 0 [SemaUp (Sema 9)]) (SemaUp (Sema 9)) []
    (Sema 9) (Semaphore 0 [8; 6]) ex_sema_wf eq_refl eq_refl eq_refl eq_refl).
Defined.

Lemma lock_release_spec_witness :
  ∃ th', run_next (ex_sched [LockRelease 7])
      = Done (tt, acted (ex_sched [LockRelease 7]) th' (<[7 := 0]> (locks (ex_sched []))) (semas (ex_sched [])) ∅) ∧
    todo th' = [LockUp 7; Preempt] ∧ donations th' ≡ₚ [] ∧ priority th' = 31 ∧ original_priority th' = 31.
Proof.
  exact (lock_release_spec (ex_sched [LockRelease 7])
    (Thread THREAD_RUNNING 50 31 [Donation 50 4 7] 0 0 0 [LockRelease 7]) [] 7 ex_release_wf eq_refl eq_refl).
Defined.

Lemma lock_acquire_donates_witness :
  let s := ex_nested [LockAcquire 7] in
  let s1 := doing s (ex_thread THREAD_RUNNING 60 7 [LockAcquire 7]) [] in
  ∃ n s' th', run_parts n s = Done (tt, s') ∧ inv false s' ∧ current s' = 1 ∧
    threads s' !! 1 = Some th' ∧ todo th' = [LockDown 7] ∧
    (∀ h, behind s1 7 h → prio s' h = Z.max (prio s h) 60) ∧ (∀ t, ¬ behind s1 7 t → prio s' t = prio s t).
Proof.
  refine (lock_acquire_donates (ex_nested [LockAcquire 7]) (ex_thread THREAD_RUNNING 60 0 [LockAcquire 7]) [] 7 [4]
    ex_nested_wf eq_refl eq_refl _).
  apply (chain_step _ _ 8); [reflexivity|reflexivity|]. apply chain_end. reflexivity.
Defined.
(** The donation goes through thread 4 to thread 3. *)
Example nested_donation :
  match run_parts 3 (ex_nested [LockAcquire 7]) with
  | Done (_, s) => prio s 4 = 60 ∧ prio s 3 = 60 ∧ prio s 5 = 40
  | _ => False
  end.
Proof. vm_compute. done. Qed.

Lemma thread_set_priority_spec_witness :
  ∃ s', thread_set_priority 10 (ex_sched []) = Done (tt, s') ∧ inv false s' ∧ highest_runs s' ∧
    prio s' 1 = 50 ∧ ∀ t, t ≠ 1 → t ∉ [] → prio s' t = prio (ex_sched []) t.
Proof.
  exact (thread_set_priority_spec (ex_sched []) (Thread THREAD_RUNNING 50 31 [Donation 50 4 7] 0 0 0 []) 10
    ex_plain_wf eq_refl).
Defined.

Lemma timer_sleep_spec_witness :
  ∃ s', run_next (ex_sched [TimerSleep 5]) = Done (tt, s') ∧ inv false s' ∧ in_order (sleepers s') ∧
    sleepers s' ≡ₚ [(1, 15); (5, 12)].
Proof.
  apply (timer_sleep_spec (ex_sched [TimerSleep 5]) (Thread THREAD_RUNNING 50 31 [Donation 50 4 7] 0 0 0 [TimerSleep 5]) [] 5
    ex_sleep_wf eq_refl eq_refl). repeat constructor.
Defined.

Lemma wake_up_spec_witness :
  ∃ s', wake_up 12 (with_intr true false (ex_sched [])) = Done (tt, s') ∧ inv true s' ∧
    sleepers s' = [] ∧ ready_list s' ≡ₚ [5; 3] ∧ closet_tick s' = match sleepers s' with [] => 0 | e :: _ => snd e end.
Proof. apply (wake_up_spec (with_intr true false (ex_sched [])) 12 ex_interrupted_wf). repeat constructor. Defined.

Lemma mlfqs_priority_spec_witness :
  ∃ r, mlfqs_priority (Thread THREAD_READY 31 31 [] 0 5 (10 * F) []) =
      Done (Z.max PRI_MIN (Z.min PRI_MAX (PRI_MAX - r - 2 * 5))) ∧
    2 * Z.abs (Z.quot (10 * F) 4 - r * F) <= F.
Proof. apply (mlfqs_priority_spec (Thread THREAD_READY 31 31 [] 0 5 (10 * F) [])); unfold is_int, F; simpl; lia. Defined.

(** The running thread calls thread_yield. *)
Definition ex_yield : sched :=
  doing (ex_sched []) (Thread THREAD_RUNNING 50 31 [Donation 50 4 7] 0 0 0 []) [ThreadYield].
Lemma ex_steps : rtc step (ex_sched []) ex_yield.
Proof. apply rtc_once, step_call. by split. Qed.

Lemma kernel_safe_witness :
  inv false ex_yield ∧ (∃ s'', tick ex_yield = Done (tt, s'')) ∧
  (if decide (created_gone ex_yield) then run_next ex_yield = Undef else ∃ s'', run_next ex_yield = Done (tt, s'')).
Proof. exact (kernel_safe _ _ ex_plain_wf ex_steps). Defined.
Lemma mutual_exclusion_witness :
  (value <$> semas ex_yield !! OfLock 7) = Some 0 ∧ ∀ t', owner ex_yield 7 t' → t' = 1.
Proof.
  apply (mutual_exclusion (ex_sched []) ex_yield 7 1 ex_plain_wf ex_steps); [by exists 1|]. split; [done|by left].
Defined.
Lemma no_thread_lost_witness :
  let th := ex_thread THREAD_READY 20 0 [KernelThread] in
  3 = current ex_yield ∧ status th = THREAD_RUNNING ∨ 3 = idle_thread ex_yield ∨
  3 ∈ ready_list ex_yield ∧ status th = THREAD_READY ∨ queued ex_yield 3 (todo th) ∧ status th = THREAD_BLOCKED ∨
  status th = THREAD_DYING.
Proof.
  exact (no_thread_lost (ex_sched []) ex_yield 3 (ex_thread THREAD_READY 20 0 [KernelThread]) ex_plain_wf ex_steps eq_refl).
Defined.

(** ** What the theorems leave out *)

(** lock_acquire raises a holder that is ready, but leaves the ready list in its
    old order: when the thread then waits, thread 5 of priority 40 runs, although
    the donation has made thread 3 one of priority 60. *)
Example ready_holder_stays_behind :
  match run_parts 5 (ex_nested [LockAcquire 7]) with
  | Done (_, s) => current s = 5 ∧ prio s 5 = 40 ∧ ready_list s = [3] ∧ prio s 3 = 60
  | _ => False
  end.
Proof. vm_compute. done. Qed.

(** With -mlfqs: thread 1 exits and its page is freed by the next switch, but it
    stays in all_list, and the next update of all threads reads the freed page. *)
Definition ex_mlfqs : sched := Sched
  (list_to_map
    [ (1, ex_thread THREAD_RUNNING 31 0 [ThreadExit]);
      (2, ex_thread THREAD_BLOCKED 0 0 [IdleLoop]);
      (3, ex_thread THREAD_READY 31 0 [KernelThread; ThreadYield]) ])
  [3] [2; 1; 3] [] 1 2 9 ∅ ∅ ∅ [] 0 99 0 0 true false false.
Example exited_thread_stays_listed :
  (_ ← run_next; _ ← run_next; _ ← run_next; update_recent_cpu_all) ex_mlfqs = Undef.
Proof. vm_compute. reflexivity. Qed.
Example exited_thread_breaks_tick :
  (_ ← run_next; _ ← run_next; _ ← run_next; tick) ex_mlfqs = Undef.
Proof. vm_compute. reflexivity. Qed.

(** thread_create looks at the new thread again after it has made it ready. When
    the timer, or another thread, lets the new thread run to its end and its page
    is freed, that reads a freed page: here thread 7 is created, exits, and the
    switch after the next frees it before its creator goes on. *)
Definition ex_create : sched := Sched
  (list_to_map
    [ (1, ex_thread THREAD_RUNNING 31 0 []);
      (2, ex_thread THREAD_BLOCKED 0 0 [IdleLoop]);
      (3, ex_thread THREAD_READY 31 0 [ThreadYield]) ])
  [3] [2; 1; 3] [] 1 2 1 ∅ ∅ ∅ [] 0 10 3 0 false false false.
Example created_thread_gone :
  (_ ← thread_create 7 40;
   _ ← thread_yield;
   _ ← upd_thread 7 (set_todo [ThreadExit]);
   run_parts 3) ex_create = Undef.
Proof. vm_compute. reflexivity. Qed.
